(* ===== verification/_CoqProject ===== *)
-Q . S2P
Prelude.v
Memory.v
Stream.v
Per.v
Ber.v
Framing.v
EncodedTypes.v
Fifo.v
RingBuffer.v
BufferedBio.v
Region.v
Base64.v
Collections.v
Queue.v
ArrayList.v
Stack.v
HashTable.v
HashTableSpec.v
Unicode.v
UnicodeApi.v
Nego.v
NegoPdu.v
NegoServer.v
NegoClient.v
Transport.v
TransportPdu.v
TransportRead.v
TransportReceive.v
TransportWrite.v
Readers.v
Mcs.v
McsPdu.v
Gcc.v
GccStrings.v
GccSafe.v
GccPdu.v
GccExchange.v
McsConnect.v
McsConnectPdu.v
McsConnectExchange.v
Connection.v
ConnectionJoin.v
ConnectionExchange.v
ConnectionLink.v
BitStream.v
Mppc.v
MppcFormat.v
MppcSession.v
Zgfx.v
ZgfxRing.v
ZgfxSegment.v
ZgfxPacket.v
ZgfxSession.v
