(* ===== verification/Prelude.v ===== *)
(** * FreeRDP: a verification development

    FreeRDP is a client and server for the Remote Desktop Protocol; WinPR is its portable
    runtime.  This library models the parts of both that carry logic of their own, from the
    byte level up, as executable definitions named after the C functions, and proves what makes
    them correct.

    ** The parts and how they interact

    - A [wStream] (winpr/libwinpr/utils/stream.c) is the cursor through which every PDU is read
      and written.  The ASN.1 encodings (libfreerdp/crypto/per.c, ber.c) and the packet framing
      (libfreerdp/core/tpkt.c, tpdu.c) are programs over it; a packet is a TPKT header, a TPDU
      header and the payload.
    - The ring buffer (libfreerdp/utils/ringbuffer.c) queues outgoing bytes of the transport
      (libfreerdp/core/tcp.c, the buffered BIO) and incoming bytes of the RPC gateway
      (libfreerdp/core/gateway/rpc_client.c).
    - Regions (libfreerdp/codec/region.c) collect what has to be drawn.
    - The collections of WinPR (winpr/libwinpr/utils/collections) hold the objects of the
      channels, caches and message queues.
    - Base64 (libfreerdp/crypto/base64.c) and the encoded types (libfreerdp/utils/
      encoded_types.c) are codecs on their own.
    - Text is converted between UTF-8 and UTF-16 (winpr/libwinpr/crt/unicode.c over the built-in
      converter of unicode_builtin.c) wherever a PDU holds a string.
    - The negotiation (libfreerdp/core/nego.c) is the first exchange of a connection: the client
      offers security protocols from the strongest to the weakest in connection requests, the
      server selects one, and the transport connects its security layer.  Its PDUs are written
      and read with the framing, its strings with the converter.
    - The transport (libfreerdp/core/transport.c) cuts the bytes of a connection into PDUs, whose
      length it finds in their first bytes according to its mode (TPKT and fast-path, NLA, RDSTLS),
      hands each to the receive callback, and writes the streams of the layers above to its BIO.
    - MCS (libfreerdp/core/mcs.c) opens a domain over the transport: a connect initial and a connect
      response agree on its parameters and carry the GCC user data (libfreerdp/core/gcc.c) in which
      client and server describe themselves and number the static channels; the client then
      attaches a user and joins the channels one by one.
    - The connection sequence (libfreerdp/core/connection.c) is the state machine that drives this: the
      receive callbacks of the client (rdp.c) and of the server (peer.c) call the handler of the current
      state with each PDU, and the handlers call the receivers and senders of MCS and change the state.
    - Data PDUs may be compressed: MPPC (libfreerdp/codec/mppc.c) keeps a history of what was sent on both
      sides and writes a packet as literals and copies from it, bit by bit through a [wBitStream]
      (winpr/include/winpr/bitstream.h).
    - Graphics are packed with ZGFX (libfreerdp/codec/zgfx.c): a packet of segments, plain or coded with
      literals, copies and plain runs against a ring of the last 2500000 bytes.

    ** Files

    - [Prelude]: machine integers as [Z] with explicit reduction ([u8] ... [u64], [i32]),
      outcomes of a C call ([Ret], [Abort] for a failed assertion or an access outside of an
      object, [Hang] for a call that does not return), the state-and-outcome monad [Prog], and
      lists indexed by [Z].
    - [Memory]: the allocator as a class ([Malloc]: which sizes it grants) and the contents of
      fresh memory ([FreshMemory]); both are parameters of everything that allocates, so every
      theorem covers every choice of sizes that are refused (one size is not served at one time and
      refused at another).  A failure for lack of memory is stated with the request that was refused
      or with a bound for it ([refused]).  Circular storage.
    - [Stream]: [wStream], its cursor, growth, readers and writers (stream.c, stream.h).
    - [Per], [Ber]: the readers, writers and size functions of per.c and ber.c, without the four of ber.c
      that convert strings.
    - [Framing]: tpkt.c and tpdu.c, composed to whole packets.
    - [EncodedTypes]: the four-byte signed integer of encoded_types.c.
    - [Fifo]: the class of byte queues; [RingBuffer] models ringbuffer.c and is its instance;
      [BufferedBio] proves its clients (tcp.c 456-640, rpc_client.c 61-170) against the class.
    - [Region]: region.c; [Base64]: base64.c.
    - [Collections]: callbacks ([wObject]) over a world of the client's choice, locks
      ([Lockable]), and the lemma that lifts a simulation of single operations to sequences.
    - [Queue], [ArrayList], [Stack], [HashTable]: the files of the same name.  [HashTableSpec]
      holds the invariant of the hash table and its refinement to a map.
    - [Unicode]: the table-driven converters; [UnicodeApi]: the functions of unicode.c over them,
      with the buffers they allocate or are given.
    - [Nego]: nego.c, with the object as a record, its PDUs as programs over streams and the
      client as a program over [nworld] (object, settings, last error, transport); the class
      [Nego.Transport] is the interface to transport.c.  [NegoPdu]: the answer read off its bytes and what the
      writers store; [NegoServer]: the reader of requests and the round trips; [NegoClient]: the
      rounds of [nego_connect] for every transport that obeys [TransportLaws].
    - [Transport]: transport.c, as programs over a record and a world of BIOs ([FrontBio]), stream
      pool ([StreamPools]) and receive callback ([Receiver]).  [TransportPdu]: the length of a PDU as
      a function of its first bytes, and that the parsers compute it; [TransportRead]: the reads;
      [TransportReceive]: sequences of [transport_check_fds]; [TransportWrite]: the writes.
    - [Readers]: receivers, that is programs over an object and the stream they read; when one is
      safe ([safe_res]), and when it reads exactly some bytes ([eats]) or some of them ([consumes]).
    - [Mcs]: the object and the domain PDUs of mcs.c; [McsPdu]: their encodings.
    - [Gcc]: gcc.c, with the settings it uses as a record; the certificate and the random numbers of
      the server are the class [ServerCrypto].  [GccStrings]: strings in fixed fields; [GccSafe]:
      well-formed objects, and that any user data leaves them so; [GccPdu]: block by block, what is
      written is learned; [GccExchange]: request and response.
    - [McsConnect]: the connect PDUs of mcs.c; [McsConnectPdu]: their encodings and the receivers on any
      input; [McsConnectExchange]: client and server.
    - [Connection]: the states, transitions, handlers and receive callbacks of the MCS phase, as programs
      over the RDP object and the received stream; the callbacks of the application, the key exchange, the
      client info PDU and the handlers of the other states are the class [Surroundings].
      [ConnectionJoin]: the order of the channels, and what a client and a server do with any PDUs;
      [ConnectionExchange]: what each handler does with the PDU the other side sends; [ConnectionLink]: the two
      sides and the network between them as a step relation.
    - [BitStream]: bitstream.h and BitStream.c, with what a stream holds as a function from positions to bits.
      [Mppc]: mppc.c, and that the decoders of literals, offsets and lengths invert their codes;
      [MppcFormat]: the format as a relation between bits and histories, and the decompressor;
      [MppcSession]: the compressor, and a compressor and a decompressor over a sequence of packets.
    - [Zgfx]: zgfx.c.  [ZgfxRing]: the ring holds the end of everything that was decoded, and a copy reads it;
      [ZgfxSegment]: the bits, the table of tokens, the format of a segment as a relation, and the loop over
      the tokens; [ZgfxPacket]: packets, on any bytes and of the format; [ZgfxSession]: the compressor.

    ** What the theorems show

    - Readers are safe: on any input bytes the PER, BER, TPKT, TPDU and encoded-type readers and
      the Base64 decoder return without a failed assertion or an access outside of the data.
    - Round trips: what the writers of a format store, its readers return, and the cursor ends
      behind it; the size functions announce what is written.
    - Refinement: the ring buffer is a FIFO of bytes; queue, array list and stack are lists; the
      hash table, without iteration, is a map with one entry per key, for every hash function and
      callbacks that agree on the keys.  They fail only when the request they need is refused.  Locks
      are balanced.
    - Regions: union and intersection denote exactly the union and intersection of pixels and
      keep the banded form.
    - The buffered BIO loses, duplicates and reorders no byte, whatever the next BIO answers,
      and returns when that BIO makes progress.
    - Termination: loops are total functions of the data, or have fuel that is shown to be
      enough.
    - Unicode: the converters convert exactly the longest prefix of characters that fits, say what
      stopped them, never write outside of their target, and invert each other; the UTF-8 reader takes
      some sequences too many, which the theorem names.
    - Negotiation: the reader of answers is equivalent to a reference on bytes; request and answer
      survive the exchange; the client attempts enabled protocols only, each the strongest that is weaker
      than the one before; which protocol an established connection can have, with the cases the code
      does not check; the rounds end.
    - Transport (in all modes but early user authentication): a read collects exactly the bytes it takes,
      returns at the end of a PDU and stops before only when no byte is there; a PDU whose bytes are on
      their way is delivered; the pieces the bytes arrive in make no difference; a write loses, repeats and reorders nothing.
    - MCS and GCC: every PDU that is sent is accepted, to its last byte; on any input the receivers stay
      in their packet and their arrays and leave well-formed objects; a client that connects to a
      server agrees with it on parameters, channels, ids, version and capabilities.
    - Connection: whatever it receives, a client joins its channels in order and leaves the phase exactly when all
      are joined, and refuses a confirmation of another channel; a server has joined exactly what was
      requested; a client and a server without the RDP security layer that exchange PDUs over transports
      that accept them get connected.
    - MPPC: every packet of a session that fits in the history comes out as it went in; on any packet the
      decompressor carries out the tokens of its bits and returns what they wrote or an error, apart from
      the copies of the level 1 that leave its array.
    - ZGFX: on any packet the decompressor returns and stays within its buffers; it decodes every packet of
      the format to what the packet stands for; what the compressor writes is such a packet.

    Deviations of the code from what it means to do are theorems too (the names end in
    [_defects], or say what happens): they hold of the definitions, which follow the code.

    ** Bounds and fuel

    - [Stream.double_until]: 65 doublings exceed every 64-bit size, so the loop that is still
      running then does not end.
    - [Region]: the loops over bands have as much fuel as there are rectangles, each round
      consumes one.
    - [BufferedBio.send_chunks]: as many rounds as bytes are queued, a round that sends nothing
      ends the loop.
    - [Queue.clear_loop]: the capacity of the array.
    - [HashTable.ideal_loop]: 512 rounds; the search is proved to need at most 360.
    - [HashTable.foreach_chain]: the length of the chain, which does not grow behind the pair
      that is visited.
    - [Unicode]: the loops have as much fuel as the source has units, each round consumes one.
    - [Nego.find_crlf]: the bytes that remain; [Nego.nego_loop]: the fuel is an argument, five
      rounds are proved to be enough where answers are conclusive (one round per protocol).
    - [Transport]: the fuel of the loops is an argument; for reads one round per byte to come and
      per wait of the BIO is enough ([TransportRead.enough]), for writes of a non-blocking transport
      one per byte ([TransportWrite.quick]).
    - [Gcc.client_blocks]: the announced length, of which a round takes four bytes at least;
      [Gcc.server_blocks]: the bytes that are left, because its 16-bit offset can wrap.
    - [Connection.client_rounds], [Connection.server_rounds]: the rounds of a callback are an argument; one is
      enough for a PDU of the MCS phase, two for the beginning of a client.
    - [Mppc.decompress_loop]: one round per byte of the history, of which every token adds one;
      [Mppc.compress_loop], [Mppc.extend_match], [Mppc.compress_trailing]: the bytes of the source.
    - [Zgfx.zgfx_loop]: the bits of the segment and the size of the output; every token takes a bit of the
      segment or, behind its end, gives a byte.  [Zgfx.fill_bits], [Zgfx.count_loop], [Zgfx.ring_repeat],
      [Zgfx.compress_fragments]: the bits to read, the bits of the segment, the bytes to copy, the bytes of the source.

    ** Not modelled

    Log output; the floating-point forms of encoded_types.c; the character conversions of ber.c
    and stream.c; [HashTable_SetupForStringData] (strings in shared memory); the release
    of the negotiation object.  Hosts are little-endian where text is stored as units.  Threads: a
    lock is its recursion count as the calling thread sees it.  Of the connection sequence, the states
    before and after the MCS phase: NLA and AAD rest on SSPI and OpenSSL, licensing and the
    capability exchange on the hundreds of fields of the settings, and activation on the update and
    input channels, none of which is modelled.  Linked list, list dictionary, pools, message queue and
    publish/subscribe keep objects as the collections that are modelled do.  The other bulk
    compressors with their dispatcher bulk.c, planar, interleaved and RLGR codecs, the caches and fast-path are
    components of their own that no modelled part calls.  Left out as well: system calls and bindings (sockets,
    TLS, SSPI, smart cards, audio and video back ends), SIMD primitives, user interfaces and
    generated tables. *)

From Stdlib Require Export ZArith Lia ZifyBool.
From stdpp Require Export base tactics numbers list.

#[global] Open Scope Z_scope.

(** ** Machine integers

    Every C integer is a [Z]; an unsigned conversion or an unsigned operation that can
    leave its width is followed by one of these reductions. *)
Definition u8 (x : Z) : Z := x mod 2 ^ 8.
Definition u16 (x : Z) : Z := x mod 2 ^ 16.
Definition u32 (x : Z) : Z := x mod 2 ^ 32.
Definition u64 (x : Z) : Z := x mod 2 ^ 64.

(** Conversion to a signed 32-bit int. *)
Definition i32 (x : Z) : Z := let y := u32 x in if y <? 2 ^ 31 then y else y - 2 ^ 32.

Definition INT_MAX : Z := 2147483647.
Definition UINT8_MAX : Z := 255.
Definition UINT16_MAX : Z := 65535.
Definition UINT32_MAX : Z := 4294967295.

(** A value of type BYTE. *)
Definition is_byte (b : Z) : Prop := 0 <= b < 256.

#[global] Instance is_byte_dec b : Decision (is_byte b).
Proof. unfold is_byte. apply _. Defined.

(** ** Outcomes

    A C call either returns, stops the process (a failed [WINPR_ASSERT] or an access
    outside of an object), or never returns. *)
Inductive outcome (A : Type) : Type :=
| Ret (a : A)
| Abort
| Hang.
Arguments Ret {A} a.
Arguments Abort {A}.
Arguments Hang {A}.

(** A call that works on one object of type [S] behind a pointer. *)
Definition Prog (S A : Type) : Type := S -> outcome (A * S).

Definition pret {S A} (a : A) : Prog S A := fun s => Ret (a, s).
Definition pbind {S A B} (m : Prog S A) (k : A -> Prog S B) : Prog S B :=
  fun s => match m s with
           | Ret (a, s') => k a s'
           | Abort => Abort
           | Hang => Hang
           end.
Definition passert {S} (b : bool) : Prog S unit :=
  fun s => if b then Ret (tt, s) else Abort.
Definition plift {S A} (o : outcome A) : Prog S A :=
  fun s => match o with Ret a => Ret (a, s) | Abort => Abort | Hang => Hang end.
Definition pget {S} : Prog S S := fun s => Ret (s, s).
Definition pput {S} (s' : S) : Prog S unit := fun _ => Ret (tt, s').

Declare Scope prog_scope.
Delimit Scope prog_scope with prog.
Notation "x <- m ;; k" := (pbind m (fun x => k))
  (at level 100, m at next level, right associativity) : prog_scope.
Notation "m ;; k" := (pbind m (fun _ => k))
  (at level 100, k at level 200, right associativity) : prog_scope.
#[global] Open Scope prog_scope.

(** The first step of a program, by evaluation. *)
Create Rewrite HintDb prog.
Section prog_steps.
Context {S A B : Type}.
Implicit Types (k : A -> Prog S B) (s : S).

Lemma pbind_pget (k : S -> Prog S B) s : pbind pget k s = k s s.
Proof. reflexivity. Qed.
Lemma pbind_pput (k : unit -> Prog S B) s' s : pbind (pput s') k s = k tt s'.
Proof. reflexivity. Qed.
Lemma pbind_pret k a s : pbind (pret a) k s = k a s.
Proof. reflexivity. Qed.
Lemma pbind_ret (m : Prog S A) k s a s' : m s = Ret (a, s') -> pbind m k s = k a s'.
Proof. intros E. unfold pbind. by rewrite E. Qed.
Lemma pbind_plift k a s : pbind (plift (Ret a)) k s = k a s.
Proof. reflexivity. Qed.
Lemma pbind_passert b (k : unit -> Prog S B) s :
  pbind (passert b) k s = if b then k tt s else Abort.
Proof. by destruct b. Qed.
End prog_steps.
#[export] Hint Rewrite @pbind_pget @pbind_pput @pbind_pret @pbind_plift @pbind_passert : prog.

(** A program that works on a part of the state. *)
Definition pzoom {S T A} (get : S -> T) (put : T -> S -> S) (m : Prog T A) : Prog S A :=
  fun s => match m (get s) with
           | Ret (a, t) => Ret (a, put t s)
           | Abort => Abort
           | Hang => Hang
           end.
Definition pmodify {S} (f : S -> S) : Prog S unit := fun s => Ret (tt, f s).

(** [m] returns from [s], and its result and final state satisfy [Q]. *)
Definition runs {S A} (m : Prog S A) (s : S) (Q : A -> S -> Prop) : Prop :=
  exists a s', m s = Ret (a, s') /\ Q a s'.

Section runs_rules.
Context {S A B : Type}.
Implicit Types (m : Prog S A) (s : S).

Lemma runs_eq m s a s' (Q : A -> S -> Prop) : m s = Ret (a, s') -> Q a s' -> runs m s Q.
Proof. intros. by exists a, s'. Qed.
Lemma runs_pret (a : A) s (Q : A -> S -> Prop) : Q a s -> runs (pret a) s Q.
Proof. intros HQ. by eexists _, _. Qed.
Lemma runs_bind m (k : A -> Prog S B) s (Q : B -> S -> Prop) :
  runs m s (fun a s' => runs (k a) s' Q) -> runs (pbind m k) s Q.
Proof.
  intros (a & s1 & Hm & b & s2 & Hk & HQ). exists b, s2. split; [|done]. unfold pbind. by rewrite Hm.
Qed.
Lemma runs_weaken m s (P Q : A -> S -> Prop) :
  runs m s P -> (forall a s', P a s' -> Q a s') -> runs m s Q.
Proof. intros (a & s' & Hm & HP) HPQ. exists a, s'. auto. Qed.
Lemma runs_inv m s a s' (Q : A -> S -> Prop) : runs m s Q -> m s = Ret (a, s') -> Q a s'.
Proof. intros (? & ? & Hm & HQ) E. rewrite E in Hm. by simplify_eq. Qed.
Lemma runs_both m s (P Q : A -> S -> Prop) :
  runs m s P -> runs m s Q -> runs m s (fun a s' => P a s' /\ Q a s').
Proof. intros (a & s' & Hm & HP) HQ. exists a, s'. split_and!; [done|done|]. by eapply runs_inv. Qed.
Lemma runs_pmodify (f : S -> S) s (Q : unit -> S -> Prop) : Q tt (f s) -> runs (pmodify f) s Q.
Proof. intros HQ. by eexists _, _. Qed.
Lemma runs_pget s (Q : S -> S -> Prop) : Q s s -> runs pget s Q.
Proof. intros HQ. by eexists _, _. Qed.
Lemma runs_pzoom {T} (get : S -> T) put (m : Prog T A) s (Q : A -> S -> Prop) :
  runs m (get s) (fun a t => Q a (put t s)) -> runs (pzoom get put m) s Q.
Proof. intros (a & t & Hm & HQ). exists a, (put t s). split; [|done]. unfold pzoom. by rewrite Hm. Qed.
End runs_rules.

(** [m] does not stop the process, a result satisfies [Q], and it does not return only if [H]. *)
Definition wp {S A} (H : Prop) (m : Prog S A) (s : S) (Q : A -> S -> Prop) : Prop :=
  match m s with Ret (a, s') => Q a s' | Abort => False | Hang => H end.

Section wp_rules.
Context {S A B : Type} (H : Prop).
Implicit Types (m : Prog S A) (s : S).

Lemma wp_eq m s a s' (Q : A -> S -> Prop) : m s = Ret (a, s') -> Q a s' -> wp H m s Q.
Proof. unfold wp. by intros ->. Qed.
Lemma wp_pret (a : A) s (Q : A -> S -> Prop) : Q a s -> wp H (pret a) s Q.
Proof. done. Qed.
Lemma wp_bind m (k : A -> Prog S B) s (Q : B -> S -> Prop) :
  wp H m s (fun a s' => wp H (k a) s' Q) -> wp H (pbind m k) s Q.
Proof. unfold wp, pbind. by destruct (m s) as [[a s']| |]. Qed.
Lemma wp_weaken m s (P Q : A -> S -> Prop) :
  wp H m s P -> (forall a s', m s = Ret (a, s') -> P a s' -> Q a s') -> wp H m s Q.
Proof. unfold wp. destruct (m s) as [[a s']| |]; auto. Qed.
Lemma wp_pzoom {T} (get : S -> T) put (m : Prog T A) s (Q : A -> S -> Prop) :
  wp H m (get s) (fun a t => Q a (put t s)) -> wp H (pzoom get put m) s Q.
Proof. unfold wp, pzoom. by destruct (m (get s)) as [[a t]| |]. Qed.
Lemma wp_ret m s a s' (Q : A -> S -> Prop) : wp H m s Q -> m s = Ret (a, s') -> Q a s'.
Proof. unfold wp. intros HQ E. by rewrite E in HQ. Qed.
Lemma wp_runs m s (Q : A -> S -> Prop) : ~ H -> wp H m s Q -> runs m s Q.
Proof. unfold wp, runs. destruct (m s) as [[a s']| |]; [|done|done]. intros _ HQ. by exists a, s'. Qed.
Lemma wp_pget (k : S -> Prog S B) s (Q : B -> S -> Prop) : wp H (k s) s Q -> wp H (pbind pget k) s Q.
Proof. done. Qed.
Lemma wp_pput s' (k : unit -> Prog S B) s (Q : B -> S -> Prop) : wp H (k tt) s' Q -> wp H (pbind (pput s') k) s Q.
Proof. done. Qed.
Lemma wp_pmodify (f : S -> S) (k : unit -> Prog S B) s (Q : B -> S -> Prop) :
  wp H (k tt) (f s) Q -> wp H (pbind (pmodify f) k) s Q.
Proof. done. Qed.
Lemma wp_step m (k : A -> Prog S B) s a s' (Q : B -> S -> Prop) :
  m s = Ret (a, s') -> wp H (k a) s' Q -> wp H (pbind m k) s Q.
Proof. unfold wp, pbind. by intros ->. Qed.
Lemma wp_of_runs m s (Q : A -> S -> Prop) : runs m s Q -> wp H m s Q.
Proof. intros (a & s' & E & HQ). by eapply wp_eq. Qed.
End wp_rules.

(** ** Record update

    [r <| f := v |>] is [r] with [v] in the field [f], for a record type with an instance of
    [Eta], its constructor applied to its own fields. *)
Class Eta (R : Type) : Type := eta : R -> R.
Class Update {R T : Type} (proj : R -> T) : Type := update : (T -> T) -> R -> R.
Arguments update {R T} proj {Update} _ _.
Ltac solve_update :=
  lazymatch goal with
  | |- @Update ?R _ ?proj =>
      let i := constr:(_ : Eta R) in
      let e := eval hnf in i in
      let e := eval pattern proj in e in
      lazymatch e with ?F _ => exact (fun f => F (fun r => f (proj r))) end
  end.
#[global] Hint Extern 1 (Update _) => solve_update : typeclass_instances.
Notation "r <| f := v |>" := (update f (fun _ => v) r)
  (at level 12, f at level 1, v at level 99, left associativity, format "r  <| f  :=  v |>").

(** Case split on the next boolean test of an [if], as a proposition. *)
Ltac case_if :=
  match goal with
  | |- context [if ?b then _ else _] =>
      let E := fresh "E" in destruct b eqn:E;
      try (apply Z.ltb_lt in E || apply Z.ltb_ge in E || apply Z.leb_le in E ||
           apply Z.leb_gt in E || apply Z.eqb_eq in E || apply Z.eqb_neq in E)
  end.

(** ** Lists indexed by [Z]

    C sizes and offsets are [Z]; these are the list operations at such an index. *)
Definition zlen {A} (l : list A) : Z := Z.of_nat (length l).
Definition ztake {A} (n : Z) (l : list A) : list A := take (Z.to_nat n) l.
Definition zdrop {A} (n : Z) (l : list A) : list A := drop (Z.to_nat n) l.
Definition zrep {A} (n : Z) (x : A) : list A := replicate (Z.to_nat n) x.

(** [memcpy (dst + off, src, |src|)], the bytes of [dst] outside the range kept. *)
Definition splice {A} (off : Z) (src dst : list A) : list A :=
  ztake off dst ++ src ++ zdrop (off + zlen src) dst.

Create HintDb zlist.
Create Rewrite HintDb zlist.
Create Rewrite HintDb znth.

Section zlist_lemmas.
Context {A : Type}.
Implicit Types l k : list A.

Lemma zlen_nonneg l : 0 <= zlen l.
Proof. unfold zlen. lia. Qed.

Lemma zlen_nil : zlen (@nil A) = 0.
Proof. reflexivity. Qed.

Lemma zlen_cons x l : zlen (x :: l) = 1 + zlen l.
Proof. unfold zlen. cbn [length]. lia. Qed.

Lemma zlen_app l k : zlen (l ++ k) = zlen l + zlen k.
Proof. unfold zlen. rewrite length_app. lia. Qed.

Lemma zlen_ztake n l : zlen (ztake n l) = Z.max 0 (Z.min n (zlen l)).
Proof. unfold zlen, ztake. rewrite length_take. lia. Qed.

Lemma zlen_zdrop n l : zlen (zdrop n l) = Z.max 0 (zlen l - Z.max 0 n).
Proof. unfold zlen, zdrop. rewrite length_drop. lia. Qed.

Lemma zlen_zrep n (x : A) : zlen (zrep n x) = Z.max 0 n.
Proof. unfold zlen, zrep. rewrite length_replicate. lia. Qed.

Lemma zlen_splice off l k :
  0 <= off -> off + zlen l <= zlen k -> zlen (splice off l k) = zlen k.
Proof.
  intros. unfold splice. rewrite !zlen_app, zlen_ztake, zlen_zdrop.
  pose proof (zlen_nonneg l). lia.
Qed.

Lemma zlen_0_nil l : zlen l = 0 -> l = [].
Proof. destruct l; [done|]. rewrite zlen_cons. pose proof (zlen_nonneg l). lia. Qed.

Lemma ztake_0 n l : n <= 0 -> ztake n l = [].
Proof. intros. unfold ztake. by replace (Z.to_nat n) with 0%nat by lia. Qed.

Lemma zdrop_0 n l : n <= 0 -> zdrop n l = l.
Proof. intros. unfold zdrop. by replace (Z.to_nat n) with 0%nat by lia. Qed.

Lemma ztake_all n l : zlen l <= n -> ztake n l = l.
Proof. unfold zlen, ztake. intros. apply take_ge. lia. Qed.

Lemma zdrop_all n l : zlen l <= n -> zdrop n l = [].
Proof. unfold zlen, zdrop. intros. apply drop_ge. lia. Qed.

Lemma ztake_app n l k :
  ztake n (l ++ k) = ztake n l ++ ztake (n - zlen l) k.
Proof.
  unfold ztake, zlen. rewrite take_app. f_equal. f_equal. lia.
Qed.

Lemma zdrop_app n l k :
  zdrop n (l ++ k) = zdrop n l ++ zdrop (n - zlen l) k.
Proof.
  unfold zdrop, zlen. rewrite drop_app. f_equal. f_equal. lia.
Qed.

Lemma ztake_ztake n m l : ztake n (ztake m l) = ztake (Z.min n m) l.
Proof. unfold ztake. rewrite take_take. f_equal. lia. Qed.

Lemma zdrop_zdrop n m l : 0 <= n -> 0 <= m -> zdrop n (zdrop m l) = zdrop (n + m) l.
Proof. intros. unfold zdrop. rewrite drop_drop. f_equal. lia. Qed.

Lemma ztake_zdrop_app n l : ztake n l ++ zdrop n l = l.
Proof. unfold ztake, zdrop. apply take_drop. Qed.

Lemma ztake_zdrop_comm n m l :
  0 <= n -> 0 <= m -> ztake n (zdrop m l) = zdrop m (ztake (n + m) l).
Proof.
  intros. unfold ztake, zdrop. rewrite take_drop_commute. f_equal. f_equal. lia.
Qed.

(** What a [memcpy] leaves before, at and after its target. *)
Lemma ztake_splice off l k n :
  0 <= off -> off + zlen l <= zlen k -> n = off + zlen l ->
  ztake n (splice off l k) = ztake off k ++ l.
Proof.
  intros Hoff Hfit ->. unfold splice. rewrite !ztake_app, zlen_ztake.
  pose proof (zlen_nonneg l).
  rewrite (ztake_all _ (ztake off k)) by (rewrite zlen_ztake; lia).
  rewrite (ztake_all _ l) by lia.
  rewrite (ztake_0 _ (zdrop _ _)) by lia.
  by rewrite app_nil_r.
Qed.

Lemma Forall_ztake (P : A -> Prop) n l : Forall P l -> Forall P (ztake n l).
Proof. apply Forall_take. Qed.

Lemma Forall_zdrop (P : A -> Prop) n l : Forall P l -> Forall P (zdrop n l).
Proof. apply Forall_drop. Qed.

Lemma Forall_zrep (P : A -> Prop) n x : P x -> Forall P (zrep n x).
Proof. intros. by apply Forall_replicate. Qed.

Lemma Forall_splice (P : A -> Prop) off l k :
  Forall P l -> Forall P k -> Forall P (splice off l k).
Proof.
  intros. unfold splice. rewrite !Forall_app.
  auto using Forall_ztake, Forall_zdrop.
Qed.

(** Reading the element at the front of what is left. *)
Lemma zdrop_cons_inv n l x k :
  0 <= n -> zdrop n l = x :: k ->
  l !! Z.to_nat n = Some x /\ zdrop (n + 1) l = k /\ n < zlen l.
Proof.
  intros Hn H.
  assert (Hx : l !! Z.to_nat n = Some x).
  { replace (Z.to_nat n) with (Z.to_nat n + 0)%nat by lia.
    rewrite <- lookup_drop. unfold zdrop in H. by rewrite H. }
  split_and!; [done| |].
  - replace (n + 1) with (1 + n) by lia. rewrite <- zdrop_zdrop by lia. by rewrite H.
  - apply lookup_lt_Some in Hx. unfold zlen. lia.
Qed.
End zlist_lemmas.

#[export] Hint Rewrite @zlen_nil @zlen_cons @zlen_app @zlen_ztake @zlen_zdrop @zlen_zrep : zlist.
#[export] Hint Resolve zlen_nonneg Forall_ztake Forall_zdrop Forall_zrep Forall_splice : zlist.

(** Arithmetic about list lengths. *)
Ltac zlist_lia := autorewrite with zlist in *; unfold zlen in *; lia.

(** *** Lists by their elements

    [znth l i] is the element at [i], a default outside of the list; two lists are equal
    when they have one length and one element at every index. *)
Definition znth (l : list Z) (i : Z) : Z := if i <? 0 then 0 else nth (Z.to_nat i) l 0.

Section znth.
Implicit Types l k : list Z.

Lemma znth_out l i : zlen l <= i -> znth l i = 0.
Proof.
  unfold znth, zlen. intros. destruct (i <? 0); [done|]. apply nth_overflow. lia.
Qed.

Lemma znth_app l k i :
  znth (l ++ k) i = if i <? zlen l then znth l i else znth k (i - zlen l).
Proof.
  unfold znth, zlen. destruct (i <? Z.of_nat (length l)) eqn:E.
  - destruct (i <? 0) eqn:E0; [done|]. apply app_nth1. lia.
  - replace (i <? 0) with false by lia. replace (i - Z.of_nat (length l) <? 0) with false by lia.
    rewrite app_nth2 by lia. f_equal. lia.
Qed.

Lemma znth_ztake n l i : znth (ztake n l) i = if i <? n then znth l i else 0.
Proof.
  unfold znth, ztake. destruct (i <? 0) eqn:E0; [by destruct (i <? n)|].
  rewrite nth_firstn. destruct (i <? n) eqn:E.
  - by replace (Z.to_nat i <? Z.to_nat n)%nat with true by lia.
  - by replace (Z.to_nat i <? Z.to_nat n)%nat with false by lia.
Qed.

Lemma znth_zdrop n l i : znth (zdrop n l) i = if i <? 0 then 0 else znth l (i + Z.max 0 n).
Proof.
  unfold znth, zdrop. destruct (i <? 0) eqn:E; [done|].
  replace (i + Z.max 0 n <? 0) with false by lia. rewrite nth_skipn. f_equal. lia.
Qed.

Lemma znth_cons x l i :
  znth (x :: l) i = if i =? 0 then x else if i <? 0 then 0 else znth l (i - 1).
Proof.
  unfold znth. destruct (i <? 0) eqn:E; [by replace (i =? 0) with false by lia|].
  destruct (i =? 0) eqn:E0; [by assert (i = 0) as -> by lia|].
  replace (i - 1 <? 0) with false by lia. by replace (Z.to_nat i) with (S (Z.to_nat (i - 1))) by lia.
Qed.

Lemma znth_ext l k :
  zlen l = zlen k -> (forall i, 0 <= i < zlen l -> znth l i = znth k i) -> l = k.
Proof.
  intros Hlen H. apply (nth_ext _ _ 0 0); [unfold zlen in *; lia|]. intros n Hn.
  specialize (H (Z.of_nat n) ltac:(unfold zlen; lia)). unfold znth in H.
  replace (Z.of_nat n <? 0) with false in H by lia. by rewrite Nat2Z.id in H.
Qed.
End znth.
#[export] Hint Rewrite znth_app znth_ztake znth_zdrop : znth.

(** Equality of two lists built by [++], [ztake], [zdrop] and [splice]. *)
Ltac znth_solve :=
  apply znth_ext; [unfold splice; zlist_lia|];
  let i := fresh "i" in let Hi := fresh "Hi" in
  intros i Hi; unfold splice; autorewrite with znth zlist in *;
  repeat (case_if; try lia); try (f_equal; lia).

Lemma zsplit {A} n (l : list A) :
  0 <= n <= zlen l -> exists a b, l = a ++ b /\ zlen a = n /\ zlen b = zlen l - n.
Proof.
  intros Hn. exists (ztake n l), (zdrop n l). rewrite ztake_zdrop_app, zlen_ztake, zlen_zdrop. split_and!; [done|lia|lia].
Qed.

(** Evaluate [ztake] and [zdrop] on appended lists of known lengths. *)
Ltac zcut_lia := autorewrite with zlist; lia.
Ltac zcut :=
  repeat match goal with
  | |- context [ztake ?n (?l ++ ?k)] => rewrite (ztake_app n l k)
  | |- context [zdrop ?n (?l ++ ?k)] => rewrite (zdrop_app n l k)
  | |- context [ztake ?n ?l] =>
      first [rewrite (ztake_0 n l) by zcut_lia | rewrite (ztake_all n l) by zcut_lia]
  | |- context [zdrop ?n ?l] =>
      first [rewrite (zdrop_0 n l) by zcut_lia | rewrite (zdrop_all n l) by zcut_lia]
  end; rewrite ?app_nil_r, ?app_nil_l, <- ?app_assoc.

Lemma splice_app {A} (a p q c : list A) w :
  zlen a = w -> zlen q = zlen p -> splice w p (a ++ q ++ c) = a ++ p ++ c.
Proof.
  intros Ha Hq. pose proof (zlen_nonneg p). pose proof (zlen_nonneg a). unfold splice. by zcut.
Qed.

Lemma splice_nil {A} off (l : list A) : splice off [] l = l.
Proof. unfold splice. rewrite zlen_nil, Z.add_0_r. cbn [app]. apply ztake_zdrop_app. Qed.

(** Split the list [l] after [n] elements. *)
Tactic Notation "zsplit_as" constr(n) constr(l) "as" simple_intropattern(p) :=
  destruct (zsplit n l) as p; [zcut_lia|].

Lemma splice_splice {A} t (a b d : list A) :
  0 <= t -> t + zlen a + zlen b <= zlen d ->
  splice (t + zlen a) b (splice t a d) = splice t (a ++ b) d.
Proof.
  intros Ht Hd. pose proof (zlen_nonneg a). pose proof (zlen_nonneg b).
  zsplit_as t d as (d0 & d1 & -> & Hd0 & Hd1). rewrite zlen_app in *.
  zsplit_as (zlen a) d1 as (a' & d2 & -> & Ha & Hd2). rewrite zlen_app in *.
  zsplit_as (zlen b) d2 as (b' & d3 & -> & Hb & Hd3).
  rewrite (splice_app d0 a a') by lia.
  rewrite (app_assoc d0 a), (splice_app (d0 ++ a) b b') by (rewrite ?zlen_app; lia).
  rewrite (app_assoc a' b'), (splice_app d0 (a ++ b) (a' ++ b')) by (rewrite ?zlen_app; lia).
  by rewrite <- !app_assoc.
Qed.

(** ** Bit masks as remainders *)
Lemma land_mask n x : 0 <= n -> Z.land x (2 ^ n - 1) = x mod 2 ^ n.
Proof.
  intros. rewrite <- Z.land_ones by lia. f_equal. rewrite Z.ones_equiv. lia.
Qed.

Lemma land_255 x : Z.land x 255 = x mod 256.
Proof. exact (land_mask 8 x ltac:(lia)). Qed.

Lemma shiftr_div n x : 0 <= n -> Z.shiftr x n = x / 2 ^ n.
Proof. apply Z.shiftr_div_pow2. Qed.

Lemma shiftl_mul n x : 0 <= n -> Z.shiftl x n = x * 2 ^ n.
Proof. apply Z.shiftl_mul_pow2. Qed.

(** [a | b] is [a + b] when [b] fits below the lowest bit of [a]. *)
Lemma lor_add n a b : 0 <= n -> 0 <= b < 2 ^ n -> Z.lor (a * 2 ^ n) b = a * 2 ^ n + b.
Proof.
  intros Hn Hb. symmetry.
  enough (Hland : Z.land (a * 2 ^ n) b = 0)
    by (rewrite Z.add_nocarry_lxor by done; by apply Z.lxor_lor).
  rewrite <- shiftl_mul by lia. apply Z.bits_inj'. intros i Hi.
  rewrite Z.land_spec, Z.bits_0.
  destruct (decide (i < n)).
  - by rewrite Z.shiftl_spec_low by lia.
  - rewrite <- (Z.mod_small b (2 ^ n)) by lia.
    rewrite Z.mod_pow2_bits_high by lia. by rewrite andb_false_r.
Qed.

Lemma is_byte_mod x : is_byte (x mod 256).
Proof. unfold is_byte. apply Z.mod_pos_bound. lia. Qed.

Lemma u8_byte x : is_byte (u8 x).
Proof. apply is_byte_mod. Qed.

Lemma u8_id x : is_byte x -> u8 x = x.
Proof. apply Z.mod_small. Qed.

Lemma u16_bound x : 0 <= u16 x < 65536.
Proof. apply Z.mod_pos_bound. lia. Qed.

Lemma u16_id x : 0 <= x < 65536 -> u16 x = x.
Proof. apply Z.mod_small. Qed.

Lemma u32_id x : 0 <= x < 4294967296 -> u32 x = x.
Proof. apply Z.mod_small. Qed.

Lemma i32_id x : - 2 ^ 31 <= x < 2 ^ 31 -> i32 x = x.
Proof.
  intros Hx. unfold i32, u32. cbv zeta. destruct (x <? 0) eqn:E.
  - assert (x mod 2 ^ 32 = x + 2 ^ 32) as ->
      by (rewrite <- (Z_mod_plus_full x 1); apply Z.mod_small; lia).
    by replace (x + 2 ^ 32 <? 2 ^ 31) with false by lia; lia.
  - rewrite Z.mod_small by lia. by replace (x <? 2 ^ 31) with true by lia.
Qed.

Lemma u64_id x : 0 <= x < 2 ^ 64 -> u64 x = x.
Proof. apply Z.mod_small. Qed.

(** A fact about every value of a small range, by evaluation. *)
Lemma range_forall (P : Z -> bool) n x :
  0 <= x < n -> forallb P (seqZ 0 n) = true -> P x = true.
Proof.
  intros Hx Hall. rewrite forallb_forall in Hall. apply Hall.
  apply list_elem_of_In, elem_of_seqZ. lia.
Qed.

Lemma land_128 b : is_byte b -> (Z.land b 128 =? 0) = (b <? 128).
Proof.
  intros Hb. apply Bool.eqb_prop.
  exact (range_forall (fun b => Bool.eqb (Z.land b 128 =? 0) (b <? 128)) 256 b Hb eq_refl).
Qed.

Lemma land_lnot_128 b : is_byte b -> u8 (Z.land b (Z.lnot 128)) = b mod 128.
Proof.
  intros Hb. apply Z.eqb_eq.
  exact (range_forall (fun b => u8 (Z.land b (Z.lnot 128)) =? b mod 128) 256 b Hb eq_refl).
Qed.

Lemma is_byte_lor a b : is_byte a -> is_byte b -> is_byte (Z.lor a b).
Proof.
  unfold is_byte. intros Ha Hb. assert (H0 : 0 <= Z.lor a b) by (apply Z.lor_nonneg; lia).
  split; [done|]. destruct (decide (Z.lor a b = 0)) as [->|Hne]; [lia|].
  change 256 with (2 ^ 8). apply Z.log2_lt_pow2; [lia|]. rewrite Z.log2_lor by lia.
  destruct (decide (a = 0)) as [->|]; destruct (decide (b = 0)) as [->|];
    apply Z.max_lub_lt; try done; apply Z.log2_lt_pow2; lia.
Qed.

#[export] Hint Resolve is_byte_mod u8_byte : zlist.
