(* ===== verification/Memory.v ===== *)
(** * Memory: the allocator and circular storage

    What the components assume of the C library allocator, as classes, with one instance each
    for the examples, and the facts about storage that is used in a circle. *)

From S2P Require Import Prelude.

(** The C library allocator: [malloc_ok n] tells whether a request of [n] bytes is served.
    No object is larger than PTRDIFF_MAX.  The answer depends on the size alone: an allocator that
    serves a size and refuses the same size later is not one of these. *)
Class Malloc : Type := {
  malloc_ok : Z -> bool;
  malloc_bound : forall n, malloc_ok n = true -> n < 2 ^ 63
}.

(** A request of at most [n] bytes was refused.  The bound matters: no allocator serves 2^63 bytes. *)
Definition refused `{Malloc} (n : Z) : Prop := exists k, 0 <= k <= n /\ malloc_ok k = false.

Lemma refused_le `{Malloc} n m : refused n -> n <= m -> refused m.
Proof. intros (k & Hk & Hr) Hle. exists k. split; [lia|done]. Qed.

Lemma refused_at `{Malloc} k n : malloc_ok k = false -> 0 <= k <= n -> refused n.
Proof. intros Hr Hk. by exists k. Qed.

(** The bytes of freshly allocated memory, about which nothing is known. *)
Class FreshMemory : Type := {
  fresh : Z -> list Z;
  fresh_length : forall n, zlen (fresh n) = Z.max 0 n
}.

(** Freshly allocated memory holds bytes. *)
Class ByteMemory `{FreshMemory} : Prop := fresh_is_byte : forall n, Forall is_byte (fresh n).

(** [realloc (mem, n)]: the common prefix is kept. *)
Definition mem_realloc `{FreshMemory} (mem : list Z) (n : Z) : list Z :=
  ztake n mem ++ zdrop (zlen mem) (fresh n).

Section realloc.
Context `{FreshMemory}.
Lemma zlen_mem_realloc mem n : 0 <= n -> zlen (mem_realloc mem n) = n.
Proof. intros. unfold mem_realloc. autorewrite with zlist. rewrite fresh_length. zlist_lia. Qed.

Lemma znth_mem_realloc mem n i :
  0 <= i < n -> i < zlen mem -> znth (mem_realloc mem n) i = znth mem i.
Proof.
  intros. unfold mem_realloc. autorewrite with znth zlist. repeat (case_if; try lia).
Qed.

End realloc.

(** An allocator that serves every request up to PTRDIFF_MAX. *)
#[refine] Definition malloc_all : Malloc := {| malloc_ok n := n <? 2 ^ 63 |}.
Proof. intros n. lia. Defined.

(** An allocator with a limit. *)
#[refine] Definition malloc_limit (m : Z) : Malloc := {| malloc_ok n := (n <? m) && (n <? 2 ^ 63) |}.
Proof. intros n. lia. Defined.

(** Zeroed memory as fresh memory. *)
#[refine] Definition fresh_zero : FreshMemory := {| fresh n := zrep n 0 |}.
Proof. intros n. apply zlen_zrep. Defined.

Lemma fresh_zero_bytes : ByteMemory (H := fresh_zero).
Proof. intros n. apply Forall_zrep. unfold is_byte. lia. Qed.

(** ** Circular storage *)

Lemma mod_step a b n : 0 < n -> 0 <= a < n -> 0 <= b <= n ->
  (a + b) mod n = if a + b <? n then a + b else a + b - n.
Proof.
  intros. destruct (a + b <? n) eqn:E; [apply Z.mod_small; lia|].
  replace (a + b) with (a + b - n + 1 * n) at 1 by lia.
  rewrite Z_mod_plus_full. apply Z.mod_small. lia.
Qed.

(** The [n] elements from offset [r] on, round the end of [b]. *)
Definition circular (r : Z) (b : list Z) (n : Z) : list Z := ztake n (zdrop r b ++ b).

Section circ.
(** What a write does to the elements seen from the read head [r], [f] bytes being free. *)
Context (buf ptr : list Z) (r f : Z).
Context (Hr : 0 <= r < zlen buf) (Hf : 0 <= f <= zlen buf) (Hp : zlen ptr <= f).
Lemma circ_write_linear :
  zlen ptr <= zlen buf - (r + (zlen buf - f)) -> r + (zlen buf - f) < zlen buf ->
  circular r (splice (r + (zlen buf - f)) ptr buf) (zlen buf - f + zlen ptr) =
    circular r buf (zlen buf - f) ++ ptr.
Proof using Hr Hf Hp.
  intros Hfit Hlin. unfold circular. pose proof (zlen_nonneg ptr).
  remember (zlen buf) as n eqn:Hn.
  zsplit_as r buf as (A & b1 & -> & HA & Hb1). zsplit_as (n - f) b1 as (D & b2 & -> & HD & Hb2).
  zsplit_as (zlen ptr) b2 as (Q & E & -> & HQ & HE).
  rewrite (app_assoc A D), splice_app by zcut_lia. rewrite <- !app_assoc. by zcut.
Qed.

Lemma circ_write_wrapped :
  zlen buf <= r + (zlen buf - f) ->
  circular r (splice (r - f) ptr buf) (zlen buf - f + zlen ptr) = circular r buf (zlen buf - f) ++ ptr.
Proof using Hr Hf Hp.
  intros Hwr. unfold circular. pose proof (zlen_nonneg ptr).
  remember (zlen buf) as n eqn:Hn.
  zsplit_as (r - f) buf as (A & b1 & -> & HA & Hb1).
  zsplit_as (zlen ptr) b1 as (Q & b2 & -> & HQ & Hb2).
  zsplit_as (f - zlen ptr) b2 as (B & C & -> & HB & HC).
  rewrite splice_app by zcut_lia. by zcut.
Qed.

Lemma circ_write_split :
  let w := r + (zlen buf - f) in
  w < zlen buf -> zlen buf - w < zlen ptr ->
  circular r (splice 0 (zdrop (zlen buf - w) ptr) (splice w (ztake (zlen buf - w) ptr) buf))
    (zlen buf - f + zlen ptr) = circular r buf (zlen buf - f) ++ ptr.
Proof using Hr Hf Hp.
  intros w Hw Hlong. unfold circular. pose proof (zlen_nonneg ptr).
  remember (zlen buf) as n eqn:Hn. remember (zlen ptr) as p eqn:Hpp.
  zsplit_as (n - w) ptr as (p1 & p2 & -> & Hp1 & Hp2).
  zsplit_as (zlen p2) buf as (Q2 & b1 & -> & HQ2 & Hb1).
  zsplit_as (r - zlen p2) b1 as (A & b2 & -> & HA & Hb2).
  zsplit_as (n - f) b2 as (D & Q1 & -> & HD & HQ1). subst w.
  rewrite (ztake_app _ p1 p2), (zdrop_app _ p1 p2), (ztake_all _ p1), (ztake_0 _ p2),
    (zdrop_all _ p1), (zdrop_0 _ p2), app_nil_r, app_nil_l by zcut_lia.
  rewrite (app_assoc Q2 A), (app_assoc (Q2 ++ A) D), <- (app_nil_r Q1).
  rewrite splice_app by zcut_lia. rewrite <- !app_assoc.
  rewrite <- (app_nil_l (Q2 ++ _)) at 1 2.
  rewrite !(splice_app [] p2 Q2) by zcut_lia. rewrite !app_nil_l, !app_nil_r. by zcut.
Qed.
End circ.

Section circ_elements.
Context (b : list Z) (r n : Z) (Hr : 0 <= r < zlen b) (Hn : 0 <= n <= zlen b).

Lemma zlen_circular : zlen (circular r b n) = n.
Proof using Hr Hn. unfold circular. zlist_lia. Qed.

Lemma znth_circular i : 0 <= i < n -> znth (circular r b n) i = znth b ((r + i) mod zlen b).
Proof using Hr Hn.
  intros Hi. unfold circular. rewrite mod_step by lia. autorewrite with znth zlist.
  repeat (case_if; try lia); f_equal; lia.
Qed.
End circ_elements.

(** One store in the array. *)
Lemma znth_splice1 w v l i :
  0 <= w < zlen l -> znth (splice w [v] l) i = if i =? w then v else znth l i.
Proof.
  intros Hw. unfold splice. autorewrite with znth zlist. repeat (case_if; try lia).
  - assert (i - Z.max 0 (Z.min w (zlen l)) = 0) as -> by lia. done.
  - f_equal. lia.
Qed.

Lemma zlen_splice1 {A} w (v : A) l : 0 <= w < zlen l -> zlen (splice w [v] l) = zlen l.
Proof. intros. rewrite zlen_splice; rewrite ?zlen_cons, ?zlen_nil; lia. Qed.

(** Reading slot after slot. *)
Lemma slots_cons (a : list Z) i n :
  0 <= i -> i + 1 + n <= zlen a -> 0 <= n ->
  ztake (1 + n) (zdrop i a) = znth a i :: ztake n (zdrop (i + 1) a).
Proof.
  intros Hi Ha Hn. zsplit_as i a as (A & a1 & -> & HA & Ha1). rewrite zlen_app in *.
  destruct a1 as [|x a1]; [rewrite zlen_nil in *; lia|]. rewrite zlen_cons in *.
  rewrite znth_app, znth_cons. replace (i <? zlen A) with false by lia.
  replace (i - zlen A =? 0) with true by lia.
  change (x :: a1) with ([x] ++ a1).
  assert (Hd0 : zdrop i (A ++ [x] ++ a1) = [x] ++ a1) by by zcut.
  assert (Hd1 : zdrop (i + 1) (A ++ [x] ++ a1) = a1) by by zcut.
  rewrite Hd0, Hd1, ztake_app, ztake_all by (rewrite zlen_cons, zlen_nil; lia).
  rewrite zlen_cons, zlen_nil. by replace (1 + n - (1 + 0)) with n by lia.
Qed.

Lemma zdrop_splice1 (v : Z) a i :
  0 <= i < zlen a -> zdrop (i + 1) (splice i [v] a) = zdrop (i + 1) a.
Proof.
  intros. unfold splice. rewrite zdrop_app, zdrop_all by (rewrite zlen_ztake; lia).
  rewrite zlen_ztake, app_nil_l. replace (i + 1 - _) with 1 by lia.
  change (zdrop 1 ([v] ++ ?l)) with l. by rewrite zlen_cons, zlen_nil.
Qed.

(** ** Arrays of pointers

    A pointer is a [Z]; [NULL] is 0.  An access outside of the array stops the program. *)
Definition NULL : Z := 0.

Definition slot_get (i : Z) (a : list Z) : outcome Z :=
  if (0 <=? i) && (i <? zlen a) then Ret (znth a i) else Abort.
Definition slot_set (i v : Z) (a : list Z) : outcome (list Z) :=
  if (0 <=? i) && (i <? zlen a) then Ret (splice i [v] a) else Abort.
(** [memmove] and [memset] on whole slots. *)
Definition slots_read (i n : Z) (a : list Z) : outcome (list Z) :=
  if (0 <=? i) && (0 <=? n) && (i + n <=? zlen a) then Ret (ztake n (zdrop i a)) else Abort.
Definition slots_write (i : Z) (src a : list Z) : outcome (list Z) :=
  if (0 <=? i) && (i + zlen src <=? zlen a) then Ret (splice i src a) else Abort.

Lemma slot_get_run i a : 0 <= i < zlen a -> slot_get i a = Ret (znth a i).
Proof. intros. unfold slot_get. by replace ((0 <=? i) && _) with true by lia. Qed.
Lemma slot_set_run i v a : 0 <= i < zlen a -> slot_set i v a = Ret (splice i [v] a).
Proof. intros. unfold slot_set. by replace ((0 <=? i) && _) with true by lia. Qed.
Lemma slots_read_run i n a :
  0 <= i -> 0 <= n -> i + n <= zlen a -> slots_read i n a = Ret (ztake n (zdrop i a)).
Proof. intros. unfold slots_read. by replace ((0 <=? i) && _ && _) with true by lia. Qed.
Lemma slots_write_run i src a :
  0 <= i -> i + zlen src <= zlen a -> slots_write i src a = Ret (splice i src a).
Proof. intros. unfold slots_write. by replace ((0 <=? i) && _) with true by lia. Qed.
