(* ===== verification/Stream.v ===== *)
(** * WinPR byte streams: [winpr/libwinpr/utils/stream.c], [winpr/include/winpr/stream.h]

    A [wStream] is a buffer with a cursor.  The pointer is its offset from the start of the
    buffer, the buffer is the list of its [capacity] bytes.  A failed [WINPR_ASSERT] and an
    access outside of the buffer are [Abort]; the growth loop of [Stream_EnsureCapacity]
    that never ends is [Hang].  Readers and writers keep the order of the source: check,
    assertion, access, cursor. *)

From S2P Require Import Prelude Memory.

Record wStream : Type := mkStream {
  buffer : list Z;
  pointer : Z;
  slength : Z;
  capacity : Z;
  count : Z;
  pool : option nat;
  isAllocatedStream : bool;
  isOwner : bool
}.

Definition set_pointer (p : Z) (s : wStream) : wStream :=
  mkStream (buffer s) p (slength s) (capacity s) (count s) (pool s)
           (isAllocatedStream s) (isOwner s).
Definition set_length (l : Z) (s : wStream) : wStream :=
  mkStream (buffer s) (pointer s) l (capacity s) (count s) (pool s)
           (isAllocatedStream s) (isOwner s).
Definition set_buffer (b : list Z) (s : wStream) : wStream :=
  mkStream b (pointer s) (slength s) (capacity s) (count s) (pool s)
           (isAllocatedStream s) (isOwner s).
(** The fields [Stream_EnsureCapacity] replaces. *)
Definition regrow (b : list Z) (c : Z) (s : wStream) : wStream :=
  mkStream b (pointer s) c c (count s) (pool s) (isAllocatedStream s) true.

(** ** Construction *)

Definition Stream_New `{Malloc} (buf : option (list Z)) (fresh : list Z) (size : Z)
  : option wStream :=
  if bool_decide (buf = None) && (size =? 0) then None
  else if negb (malloc_ok 56) then None
  else match buf with
       | Some b => Some (mkStream b 0 size size 0 None true true)
       | None => if malloc_ok size
                 then Some (mkStream (ztake size fresh) 0 size size 0 None true true)
                 else None
       end.

Definition Stream_StaticInit (buf : list Z) (size : Z) : wStream :=
  mkStream buf 0 size size 0 None false false.

Definition Stream_StaticConstInit (buf : list Z) (size : Z) : wStream :=
  Stream_StaticInit buf size.

(** ** Cursor and sizes *)

Definition Stream_Capacity (s : wStream) : Z := capacity s.
Definition Stream_Length (s : wStream) : Z := slength s.

Definition Stream_GetPosition : Prog wStream Z :=
  s <- pget ;; passert (0 <=? pointer s) ;; pret (u64 (pointer s)).

Definition Stream_EnsureValidity : Prog wStream unit :=
  s <- pget ;;
  passert (0 <=? pointer s) ;;
  passert (pointer s <=? capacity s) ;;
  passert (slength s <=? capacity s).

Definition Stream_SetLength (l : Z) : Prog wStream bool :=
  s <- pget ;;
  if Stream_Capacity s <? l
  then pput (set_length 0 s) ;; pret false
  else pput (set_length l s) ;; pret true.

Definition Stream_SetPosition (p : Z) : Prog wStream bool :=
  s <- pget ;;
  if Stream_Capacity s <? p
  then pput (set_pointer 0 s) ;; pret false
  else pput (set_pointer p s) ;; pret true.

Definition Stream_SealLength : Prog wStream unit :=
  s <- pget ;;
  passert (0 <=? pointer s) ;;
  passert (pointer s <=? capacity s) ;;
  if pointer s <=? capacity s
  then pput (set_length (pointer s) s)
  else pput (set_length 0 s).

Definition Stream_GetRemainingCapacity : Prog wStream Z :=
  s <- pget ;;
  passert (0 <=? pointer s) ;;
  passert (pointer s <=? capacity s) ;;
  if capacity s <? pointer s then pret 0 else pret (capacity s - pointer s).

Definition Stream_GetRemainingLength : Prog wStream Z :=
  s <- pget ;;
  passert (0 <=? pointer s) ;;
  passert (slength s <=? capacity s) ;;
  passert (pointer s <=? slength s) ;;
  if slength s <? pointer s then pret 0 else pret (slength s - pointer s).

Definition Stream_CheckAndLogRequiredCapacityEx (nmemb size : Z) : Prog wStream bool :=
  passert (negb (size =? 0)) ;;
  r <- Stream_GetRemainingCapacity ;;
  if r / size <? nmemb then pret false else pret true.

Definition Stream_CheckAndLogRequiredLengthEx (nmemb size : Z) : Prog wStream bool :=
  passert (0 <? size) ;;
  r <- Stream_GetRemainingLength ;;
  if r / size <? nmemb then pret false else pret true.

Definition Stream_CheckAndLogRequiredCapacity (len : Z) : Prog wStream bool :=
  Stream_CheckAndLogRequiredCapacityEx len 1.
Definition Stream_CheckAndLogRequiredLength (len : Z) : Prog wStream bool :=
  Stream_CheckAndLogRequiredLengthEx len 1.

Definition Stream_Seek (off : Z) : Prog wStream unit :=
  r <- Stream_GetRemainingCapacity ;;
  passert (off <=? r) ;;
  s <- pget ;; pput (set_pointer (pointer s + off) s).

Definition Stream_Rewind (off : Z) : Prog wStream unit :=
  s <- pget ;;
  passert (0 <=? pointer s) ;;
  passert (off <=? pointer s) ;;
  if off <=? pointer s
  then pput (set_pointer (pointer s - off) s)
  else pput (set_pointer 0 s).

Definition Stream_SafeSeekEx (size : Z) : Prog wStream bool :=
  ok <- Stream_CheckAndLogRequiredLengthEx size 1 ;;
  if negb ok then pret false else Stream_Seek size ;; pret true.

(** ** Growth *)

(** [do { new_capacity *= 2; } while (new_capacity < size);] for [fuel] rounds, in size_t. *)
Fixpoint double_until (fuel : nat) (new_capacity size : Z) : option Z :=
  match fuel with
  | O => None
  | S f =>
      let c := u64 (new_capacity * 2) in
      if c <? size then double_until f c size else Some c
  end.

Definition Stream_EnsureCapacity `{Malloc} (size : Z) : Prog wStream bool :=
  s <- pget ;;
  if capacity s <? size then
    match double_until 65 (capacity s) size with
    | None => fun _ => Hang
    | Some new_capacity =>
        position <- Stream_GetPosition ;;
        if negb (isOwner s) && negb (malloc_ok new_capacity)
        then fun _ => Abort (* CopyMemory into the NULL result of malloc *)
        else if negb (malloc_ok new_capacity) then pret false
        else
          pput (regrow (ztake (capacity s) (buffer s) ++
                        zrep (new_capacity - capacity s) 0) new_capacity s) ;;
          Stream_SetPosition position ;;
          pret true
    end
  else pret true.

Definition Stream_EnsureRemainingCapacity `{Malloc} (size : Z) : Prog wStream bool :=
  p <- Stream_GetPosition ;;
  s <- pget ;;
  if Stream_Capacity s <? u64 (p + size)
  then Stream_EnsureCapacity (u64 (Stream_Capacity s + size))
  else pret true.

(** ** Memory at the cursor *)

Definition load (k : Z) : Prog wStream Z :=
  fun s => if pointer s + k <? 0 then Abort
           else match buffer s !! Z.to_nat (pointer s + k) with
                | Some b => Ret (b, s)
                | None => Abort
                end.

Definition put_bytes (s : wStream) (bs : list Z) : wStream :=
  set_pointer (pointer s + zlen bs) (set_buffer (splice (pointer s) bs (buffer s)) s).

(** Storing bytes at the cursor and moving it past them. *)
Definition store (bs : list Z) : Prog wStream unit :=
  fun s => if (0 <=? pointer s) && (pointer s + zlen bs <=? zlen (buffer s))
           then Ret (tt, put_bytes s bs) else Abort.

(** The same without the cursor: [memcpy (s->pointer, bs, |bs|)]. *)
Definition poke (bs : list Z) : Prog wStream unit :=
  fun s => if (0 <=? pointer s) && (pointer s + zlen bs <=? zlen (buffer s))
           then Ret (tt, set_buffer (splice (pointer s) bs (buffer s)) s) else Abort.

Definition load_bytes (n : Z) : Prog wStream (list Z) :=
  fun s => if (0 <=? pointer s) && (pointer s + n <=? zlen (buffer s))
           then Ret (ztake n (zdrop (pointer s) (buffer s)), s) else Abort.

(** ** Readers ([seek = false] is the Peek form) *)

Definition need_length (n : Z) : Prog wStream unit :=
  r <- Stream_GetRemainingLength ;; passert (n <=? r).
Definition need_capacity (n : Z) : Prog wStream unit :=
  r <- Stream_GetRemainingCapacity ;; passert (n <=? r).

Definition stream_read_u8 (seek : bool) : Prog wStream Z :=
  need_length 1 ;;
  v <- load 0 ;;
  (if seek then Stream_Seek 1 else pret tt) ;;
  pret (u8 v).

Definition stream_read_u16_le (seek : bool) : Prog wStream Z :=
  need_length 2 ;;
  b0 <- load 0 ;; b1 <- load 1 ;;
  (if seek then Stream_Seek 2 else pret tt) ;;
  pret (u16 (b0 + Z.shiftl b1 8)).

Definition stream_read_u16_be (seek : bool) : Prog wStream Z :=
  need_length 2 ;;
  b0 <- load 0 ;; b1 <- load 1 ;;
  (if seek then Stream_Seek 2 else pret tt) ;;
  pret (u16 (Z.shiftl b0 8 + b1)).

Definition stream_read_u32_le (seek : bool) : Prog wStream Z :=
  need_length 4 ;;
  b0 <- load 0 ;; b1 <- load 1 ;; b2 <- load 2 ;; b3 <- load 3 ;;
  (if seek then Stream_Seek 4 else pret tt) ;;
  pret (u32 (b0 + Z.shiftl b1 8 + Z.shiftl b2 16 + Z.shiftl b3 24)).

Definition stream_read_u32_be (seek : bool) : Prog wStream Z :=
  need_length 4 ;;
  b0 <- load 0 ;; b1 <- load 1 ;; b2 <- load 2 ;; b3 <- load 3 ;;
  (if seek then Stream_Seek 4 else pret tt) ;;
  pret (u32 (Z.shiftl b0 24 + Z.shiftl b1 16 + Z.shiftl b2 8 + b3)).

Definition Stream_Read (n : Z) : Prog wStream (list Z) :=
  need_capacity n ;;
  bs <- load_bytes n ;;
  Stream_Seek n ;;
  pret bs.

(** ** Writers *)

Definition Stream_Write_UINT8 (v : Z) : Prog wStream unit :=
  need_capacity 1 ;;
  store [u8 v].

Definition Stream_Write_UINT16 (v : Z) : Prog wStream unit :=
  need_capacity 2 ;;
  store [Z.land v 255] ;;
  store [Z.land (Z.shiftr v 8) 255].

Definition Stream_Write_UINT16_BE (v : Z) : Prog wStream unit :=
  need_capacity 2 ;;
  store [Z.land (Z.shiftr v 8) 255] ;;
  store [Z.land v 255].

Definition Stream_Write_UINT24_BE (v : Z) : Prog wStream unit :=
  passert (v <=? 16777215) ;;
  need_capacity 3 ;;
  store [Z.land (Z.shiftr v 16) 255] ;;
  store [Z.land (Z.shiftr v 8) 255] ;;
  store [Z.land v 255].

Definition Stream_Write_UINT32 (v : Z) : Prog wStream unit :=
  need_capacity 4 ;;
  store [Z.land v 255] ;;
  store [Z.land (Z.shiftr v 8) 255] ;;
  store [Z.land (Z.shiftr v 16) 255] ;;
  store [Z.land (Z.shiftr v 24) 255].

Definition Stream_Write_UINT32_BE (v : Z) : Prog wStream unit :=
  need_capacity 4 ;;
  Stream_Write_UINT16_BE (Z.land (Z.shiftr v 16) 65535) ;;
  Stream_Write_UINT16_BE (Z.land v 65535).

Definition Stream_Write (bs : list Z) : Prog wStream unit :=
  let n := zlen bs in
  if 0 <? n then need_capacity n ;; poke bs ;; Stream_Seek n else pret tt.

Definition Stream_Zero (n : Z) : Prog wStream unit :=
  need_capacity n ;;
  poke (zrep n 0) ;;
  Stream_Seek n.

Definition Stream_Fill (v n : Z) : Prog wStream unit :=
  need_capacity n ;;
  poke (zrep n (u8 v)) ;;
  Stream_Seek n.

Fixpoint write_utf16_loop (src : list Z) : Prog wStream bool :=
  match src with
  | [] => pret true
  | c :: src' => Stream_Write_UINT16 c ;; write_utf16_loop src'
  end.

Definition Stream_Write_UTF16_String (src : list Z) : Prog wStream bool :=
  ok <- Stream_CheckAndLogRequiredCapacityEx (zlen src) 2 ;;
  if negb ok then pret false else write_utf16_loop src.

Fixpoint read_utf16_loop (n : nat) (dst : list Z) : Prog wStream (option (list Z)) :=
  match n with
  | O => pret (Some dst)
  | S n' => c <- stream_read_u16_le true ;; read_utf16_loop n' (dst ++ [c])
  end.

Definition Stream_Read_UTF16_String (len : nat) : Prog wStream (option (list Z)) :=
  ok <- Stream_CheckAndLogRequiredLengthEx (Z.of_nat len) 2 ;;
  if negb ok then pret None else read_utf16_loop len [].

(** ** Invariants *)

(** What [Stream_EnsureValidity] checks, plus the shape of the buffer. *)
Record stream_ok (s : wStream) : Prop := {
  ok_buf : zlen (buffer s) = capacity s;
  ok_cap : capacity s < 2 ^ 63;
  ok_len : 0 <= slength s <= capacity s;
  ok_pos : 0 <= pointer s <= capacity s;
  ok_bytes : Forall is_byte (buffer s)
}.

(** A stream positioned for reading: the cursor is inside the valid bytes. *)
Definition readable (s : wStream) : Prop := stream_ok s /\ pointer s <= slength s.

(** A stream whose buffer can be replaced by a larger one. *)
Definition growable (s : wStream) : Prop :=
  stream_ok s /\ 0 < capacity s /\ isOwner s = true.

(** The bytes between the cursor and the length: what a reader may see. *)
Definition unread (s : wStream) : list Z := zdrop (pointer s) (ztake (slength s) (buffer s)).

(** The bytes a writer may still store without growing. *)
Definition room (s : wStream) : Z := capacity s - pointer s.

Definition advance (s : wStream) (k : Z) : wStream := set_pointer (pointer s + k) s.

(** [s'] is [s] after [bs] was written at its cursor; the buffer may have grown. *)
Definition wrote (s s' : wStream) (bs : list Z) : Prop :=
  growable s' /\ pointer s' = pointer s + zlen bs /\
  ztake (pointer s') (buffer s') = ztake (pointer s) (buffer s) ++ bs.


(** Contract of a writer that returns a BOOL: with [need] bytes of room it stores exactly
    [bs]; without, it grows the buffer and stores [bs], or runs out of memory after a
    prefix of [bs] and says so.  It never aborts and always returns. *)
Record writes `{Malloc} (wr : Prog wStream bool) (need : Z) (bs : list Z) : Prop := {
  w_fits : forall s, stream_ok s -> need <= room s -> wr s = Ret (true, put_bytes s bs);
  w_grow : forall s, growable s ->
    exists b s', wr s = Ret (b, s') /\
      if b : bool then wrote s s' bs
      else refused (4 * (pointer s + need)) /\ exists pre, pre `prefix_of` bs /\ wrote s s' pre;
  w_need : zlen bs <= need;
  w_bytes : Forall is_byte bs
}.

(** ** Reader steps *)

Section reading.
Implicit Types s : wStream.

Lemma readable_ok s : readable s -> stream_ok s.
Proof. by intros []. Qed.

Lemma zlen_unread s : readable s -> zlen (unread s) = slength s - pointer s.
Proof.
  intros [[Hb Hc Hl Hp _] Hle]. unfold unread. autorewrite with zlist. lia.
Qed.

Lemma readable_advance s k :
  readable s -> 0 <= k <= zlen (unread s) -> readable (advance s k).
Proof.
  intros Hr Hk. pose proof (zlen_unread s Hr). destruct Hr as [[Hb Hc Hl Hp Hby] Hle].
  repeat split; cbn; try assumption; try lia.
Qed.

Lemma unread_advance s k :
  readable s -> 0 <= k -> unread (advance s k) = zdrop k (unread s).
Proof.
  intros Hr Hk. destruct Hr as [[] ?]. unfold unread. cbn.
  rewrite zdrop_zdrop by lia. f_equal. lia.
Qed.

Lemma unread_bytes s : readable s -> Forall is_byte (unread s).
Proof. intros [[] _]. apply Forall_zdrop, Forall_ztake. done. Qed.

Lemma advance_advance s a b : advance (advance s a) b = advance s (a + b).
Proof. unfold advance, set_pointer. cbn. f_equal. lia. Qed.

Lemma advance_0 s : advance s 0 = s.
Proof. unfold advance, set_pointer. rewrite Z.add_0_r. by destruct s. Qed.

Lemma remaining_length_spec s :
  readable s -> Stream_GetRemainingLength s = Ret (zlen (unread s), s).
Proof.
  intros Hr. rewrite zlen_unread by done. destruct Hr as [[] ?].
  unfold Stream_GetRemainingLength, pbind, pget, passert, pret.
  repeat (case_if; try lia). done.
Qed.

Lemma remaining_capacity_spec s :
  stream_ok s -> Stream_GetRemainingCapacity s = Ret (room s, s).
Proof.
  intros []. unfold Stream_GetRemainingCapacity, pbind, pget, passert, pret, room.
  repeat (case_if; try lia). done.
Qed.

Lemma check_length_spec s n :
  readable s ->
  Stream_CheckAndLogRequiredLength n s = Ret (n <=? zlen (unread s), s).
Proof.
  intros Hr. unfold Stream_CheckAndLogRequiredLength, Stream_CheckAndLogRequiredLengthEx.
  unfold pbind, passert at 1. cbn [Z.ltb Z.compare]. rewrite remaining_length_spec by done.
  rewrite Z.div_1_r. unfold pret. repeat case_if; (repeat f_equal; lia) || lia.
Qed.

Lemma seek_spec s k :
  readable s -> 0 <= k <= zlen (unread s) -> Stream_Seek k s = Ret (tt, advance s k).
Proof.
  intros Hr Hk. unfold Stream_Seek, pbind.
  rewrite remaining_capacity_spec by (by apply readable_ok).
  rewrite zlen_unread in Hk by done. destruct Hr as [[] ?]. unfold passert, room.
  case_if; [done|lia].
Qed.

Lemma need_length_spec s n :
  readable s -> n <= zlen (unread s) -> need_length n s = Ret (tt, s).
Proof.
  intros Hr Hn. unfold need_length, pbind. rewrite remaining_length_spec by done.
  unfold passert. case_if; [done|lia].
Qed.

Lemma load_spec s k b :
  readable s -> 0 <= k -> unread s !! Z.to_nat k = Some b -> load k s = Ret (b, s).
Proof.
  intros Hr Hk H. destruct Hr as [[] ?]. unfold load. case_if; [lia|].
  unfold unread, zdrop in H. rewrite lookup_drop in H.
  unfold ztake in H. apply lookup_take_Some in H as [H _].
  replace (Z.to_nat (pointer s + k)) with (Z.to_nat (pointer s) + Z.to_nat k)%nat by lia.
  by rewrite H.
Qed.

(** The reading steps, by the bytes that are left. *)
Lemma read_u8_spec s b r :
  readable s -> unread s = b :: r ->
  stream_read_u8 true s = Ret (b, advance s 1) /\
  readable (advance s 1) /\ unread (advance s 1) = r /\ is_byte b.
Proof.
  intros Hr Hu. pose proof (unread_bytes s Hr) as HB. rewrite Hu in HB.
  apply Forall_cons in HB as [HB _].
  assert (1 <= zlen (unread s)) by (rewrite Hu; zlist_lia).
  split_and!; [|apply readable_advance; [done|lia]| |done].
  - unfold stream_read_u8, pbind. rewrite need_length_spec by done.
    rewrite (load_spec s 0 b) by (first [done | by rewrite Hu]).
    rewrite seek_spec by (first [done|lia]). unfold pret. by rewrite u8_id.
  - rewrite unread_advance by (done || lia). by rewrite Hu.
Qed.

Lemma peek_u8_spec s b r :
  readable s -> unread s = b :: r -> stream_read_u8 false s = Ret (b, s) /\ is_byte b.
Proof.
  intros Hr Hu. pose proof (unread_bytes s Hr) as HB. rewrite Hu in HB.
  apply Forall_cons in HB as [HB _].
  assert (1 <= zlen (unread s)) by (rewrite Hu; zlist_lia).
  split; [|done]. unfold stream_read_u8, pbind. rewrite need_length_spec by done.
  rewrite (load_spec s 0 b) by (first [done | by rewrite Hu]).
  unfold pret. by rewrite u8_id.
Qed.

Lemma read_u16_be_spec s b0 b1 r :
  readable s -> unread s = b0 :: b1 :: r ->
  stream_read_u16_be true s = Ret (b0 * 256 + b1, advance s 2) /\
  readable (advance s 2) /\ unread (advance s 2) = r /\ is_byte b0 /\ is_byte b1.
Proof.
  intros Hr Hu. pose proof (unread_bytes s Hr) as HB. rewrite Hu in HB.
  rewrite !Forall_cons in HB. destruct HB as (H0 & H1 & _).
  assert (2 <= zlen (unread s)) by (rewrite Hu; zlist_lia).
  split_and!; [|apply readable_advance; [done|lia]| |done|done].
  - unfold stream_read_u16_be, pbind. rewrite need_length_spec by done.
    rewrite (load_spec s 0 b0) by (first [done | by rewrite Hu]).
    rewrite (load_spec s 1 b1) by (first [done | by rewrite Hu]).
    rewrite seek_spec by (first [done|lia]). unfold pret.
    rewrite shiftl_mul by lia. unfold is_byte in *. rewrite u16_id by lia. done.
  - rewrite unread_advance by (done || lia). by rewrite Hu.
Qed.

Lemma read_u16_le_spec s b0 b1 r :
  readable s -> unread s = b0 :: b1 :: r ->
  stream_read_u16_le true s = Ret (b0 + b1 * 256, advance s 2) /\
  readable (advance s 2) /\ unread (advance s 2) = r /\ is_byte b0 /\ is_byte b1.
Proof.
  intros Hr Hu. pose proof (unread_bytes s Hr) as HB. rewrite Hu in HB.
  rewrite !Forall_cons in HB. destruct HB as (H0 & H1 & _).
  assert (2 <= zlen (unread s)) by (rewrite Hu; zlist_lia).
  split_and!; [|apply readable_advance; [done|lia]| |done|done].
  - unfold stream_read_u16_le, pbind. rewrite need_length_spec by done.
    rewrite (load_spec s 0 b0) by (first [done | by rewrite Hu]).
    rewrite (load_spec s 1 b1) by (first [done | by rewrite Hu]).
    rewrite seek_spec by (first [done|lia]). unfold pret.
    rewrite shiftl_mul by lia. unfold is_byte in *. rewrite u16_id by lia. done.
  - rewrite unread_advance by (done || lia). by rewrite Hu.
Qed.

Lemma read_u32_be_spec s b0 b1 b2 b3 r :
  readable s -> unread s = b0 :: b1 :: b2 :: b3 :: r ->
  stream_read_u32_be true s =
    Ret (((b0 * 256 + b1) * 256 + b2) * 256 + b3, advance s 4) /\
  readable (advance s 4) /\ unread (advance s 4) = r /\
  is_byte b0 /\ is_byte b1 /\ is_byte b2 /\ is_byte b3.
Proof.
  intros Hr Hu. pose proof (unread_bytes s Hr) as HB. rewrite Hu in HB.
  rewrite !Forall_cons in HB. destruct HB as (H0 & H1 & H2 & H3 & _).
  assert (4 <= zlen (unread s)) by (rewrite Hu; zlist_lia).
  split_and!; [|apply readable_advance; [done|lia]| |done|done|done|done].
  - unfold stream_read_u32_be, pbind. rewrite need_length_spec by done.
    rewrite (load_spec s 0 b0) by (first [done | by rewrite Hu]).
    rewrite (load_spec s 1 b1) by (first [done | by rewrite Hu]).
    rewrite (load_spec s 2 b2) by (first [done | by rewrite Hu]).
    rewrite (load_spec s 3 b3) by (first [done | by rewrite Hu]).
    rewrite seek_spec by (first [done|lia]). unfold pret.
    rewrite !shiftl_mul by lia. unfold is_byte in *. rewrite u32_id by lia.
    repeat f_equal. lia.
  - rewrite unread_advance by (done || lia). by rewrite Hu.
Qed.

Lemma read_u32_le_spec s b0 b1 b2 b3 r :
  readable s -> unread s = b0 :: b1 :: b2 :: b3 :: r ->
  stream_read_u32_le true s =
    Ret (b0 + (b1 + (b2 + b3 * 256) * 256) * 256, advance s 4) /\
  readable (advance s 4) /\ unread (advance s 4) = r /\
  is_byte b0 /\ is_byte b1 /\ is_byte b2 /\ is_byte b3.
Proof.
  intros Hr Hu. pose proof (unread_bytes s Hr) as HB. rewrite Hu in HB.
  rewrite !Forall_cons in HB. destruct HB as (H0 & H1 & H2 & H3 & _).
  assert (4 <= zlen (unread s)) by (rewrite Hu; zlist_lia).
  split_and!; [|apply readable_advance; [done|lia]| |done|done|done|done].
  - unfold stream_read_u32_le, pbind. rewrite need_length_spec by done.
    rewrite (load_spec s 0 b0) by (first [done | by rewrite Hu]).
    rewrite (load_spec s 1 b1) by (first [done | by rewrite Hu]).
    rewrite (load_spec s 2 b2) by (first [done | by rewrite Hu]).
    rewrite (load_spec s 3 b3) by (first [done | by rewrite Hu]).
    rewrite seek_spec by (first [done|lia]). unfold pret.
    rewrite !shiftl_mul by lia. unfold is_byte in *. rewrite u32_id by lia.
    do 2 f_equal. lia.
  - rewrite unread_advance by (done || lia). by rewrite Hu.
Qed.

Lemma read_bytes_spec s n :
  readable s -> 0 <= n <= zlen (unread s) ->
  Stream_Read n s = Ret (ztake n (unread s), advance s n).
Proof.
  intros Hr Hn. unfold Stream_Read, need_capacity, pbind.
  rewrite remaining_capacity_spec by (by apply readable_ok).
  pose proof (zlen_unread s Hr). pose proof (seek_spec s n Hr Hn) as Hs.
  destruct Hr as [[] ?]. unfold passert, room.
  case_if; [|lia]. unfold load_bytes.
  destruct (_ && _) eqn:E'; [|lia]. rewrite Hs. unfold pret, unread.
  rewrite !ztake_zdrop_comm, ztake_ztake by lia. do 4 f_equal. lia.
Qed.
End reading.

(** ** Writer steps *)

Section writing.
Implicit Types s : wStream.

Lemma room_put_bytes s bs : room (put_bytes s bs) = room s - zlen bs.
Proof. unfold room. cbn. lia. Qed.

Lemma put_bytes_ok s bs :
  stream_ok s -> zlen bs <= room s -> Forall is_byte bs -> stream_ok (put_bytes s bs).
Proof.
  intros [] Hfit Hb. unfold room in Hfit. pose proof (zlen_nonneg bs).
  split; cbn; try assumption; try lia.
  - rewrite zlen_splice; lia.
  - by apply Forall_splice.
Qed.

Lemma put_bytes_nil s : stream_ok s -> put_bytes s [] = s.
Proof.
  intros []. unfold put_bytes, set_pointer, set_buffer, splice. cbn.
  rewrite zlen_nil, Z.add_0_r, ztake_zdrop_app. by destruct s.
Qed.

Lemma put_bytes_app s a b :
  stream_ok s -> zlen a + zlen b <= room s ->
  put_bytes (put_bytes s a) b = put_bytes s (a ++ b).
Proof.
  intros [] Hfit. unfold room in Hfit. pose proof (zlen_nonneg a). pose proof (zlen_nonneg b).
  unfold put_bytes, set_pointer, set_buffer. cbn. f_equal; [|zlist_lia].
  unfold splice at 1. rewrite (ztake_splice _ a) by lia.
  unfold splice. rewrite !zdrop_app, zlen_app, <- !app_assoc. do 3 f_equal.
  rewrite (zdrop_all _ (ztake _ _)) by zlist_lia. rewrite zlen_ztake.
  rewrite (zdrop_all _ a) by lia. cbn.
  rewrite zdrop_zdrop by lia. f_equal. lia.
Qed.

Lemma ztake_put_bytes s bs :
  stream_ok s -> zlen bs <= room s ->
  ztake (pointer s + zlen bs) (buffer (put_bytes s bs)) = ztake (pointer s) (buffer s) ++ bs.
Proof. intros [] Hfit. unfold room in Hfit. cbn. apply ztake_splice; lia. Qed.

Lemma need_capacity_spec s n :
  stream_ok s -> n <= room s -> need_capacity n s = Ret (tt, s).
Proof.
  intros Hs Hn. unfold need_capacity, pbind. rewrite remaining_capacity_spec by done.
  unfold passert. case_if; [done|lia].
Qed.

Lemma store_spec s bs :
  stream_ok s -> zlen bs <= room s -> store bs s = Ret (tt, put_bytes s bs).
Proof.
  intros [] Hfit. unfold room in Hfit. unfold store.
  destruct (_ && _) eqn:E; [done|lia].
Qed.

Lemma poke_seek_spec s bs n :
  stream_ok s -> zlen bs <= room s -> n = zlen bs ->
  (poke bs ;; Stream_Seek n) s = Ret (tt, put_bytes s bs).
Proof.
  intros Hs Hfit ->. pose proof (zlen_nonneg bs).
  destruct Hs. unfold room in Hfit.
  unfold pbind, poke. destruct (_ && _) eqn:E; [|lia].
  unfold Stream_Seek, Stream_GetRemainingCapacity, pbind, pget, passert, pret. cbn.
  repeat (case_if; try lia). done.
Qed.

Lemma store_seq s a (k : Prog wStream unit) b :
  stream_ok s -> zlen a + zlen b <= room s -> Forall is_byte a ->
  (stream_ok (put_bytes s a) -> k (put_bytes s a) = Ret (tt, put_bytes (put_bytes s a) b)) ->
  (store a ;; k) s = Ret (tt, put_bytes s (a ++ b)).
Proof.
  intros Hs Hfit Ha Hk. pose proof (zlen_nonneg b). unfold pbind.
  rewrite store_spec by (done || lia). rewrite Hk by (apply put_bytes_ok; [done|lia|done]).
  by rewrite put_bytes_app.
Qed.

Lemma write_u8_spec s v :
  stream_ok s -> 1 <= room s -> is_byte v -> Stream_Write_UINT8 v s = Ret (tt, put_bytes s [v]).
Proof.
  intros Hs Hr Hv. rewrite <- (u8_id v Hv) at 2. unfold Stream_Write_UINT8, pbind. rewrite need_capacity_spec by done.
  by apply store_spec.
Qed.

(** Big- and little-endian bytes of a 16- or 32-bit value. *)
Definition be16 (v : Z) : list Z := [v / 256 mod 256; v mod 256].
Definition le16 (v : Z) : list Z := [v mod 256; v / 256 mod 256].
Definition be32 (v : Z) : list Z := be16 (v / 65536) ++ be16 v.
Definition le32 (v : Z) : list Z := le16 v ++ le16 (v / 65536).

Lemma write_u16_be_spec s v :
  stream_ok s -> 2 <= room s -> Stream_Write_UINT16_BE v s = Ret (tt, put_bytes s (be16 v)).
Proof.
  intros Hs Hr. unfold Stream_Write_UINT16_BE. unfold pbind at 1.
  rewrite need_capacity_spec by done. rewrite !land_255, !shiftr_div by lia.
  change (be16 v) with ([v / 2 ^ 8 mod 256] ++ [v mod 256]).
  apply store_seq; [done|zlist_lia|auto with zlist|].
  intros Hs'. apply store_spec; [done|]. rewrite room_put_bytes. unfold be16, le16. zlist_lia.
Qed.

Lemma write_u16_le_spec s v :
  stream_ok s -> 2 <= room s -> Stream_Write_UINT16 v s = Ret (tt, put_bytes s (le16 v)).
Proof.
  intros Hs Hr. unfold Stream_Write_UINT16. unfold pbind at 1.
  rewrite need_capacity_spec by done. rewrite !land_255, !shiftr_div by lia.
  change (le16 v) with ([v mod 256] ++ [v / 2 ^ 8 mod 256]).
  apply store_seq; [done|zlist_lia|auto with zlist|].
  intros Hs'. apply store_spec; [done|]. rewrite room_put_bytes. unfold be16, le16. zlist_lia.
Qed.

Lemma be16_bytes v : Forall is_byte (be16 v).
Proof. unfold be16. auto with zlist. Qed.

Lemma le16_bytes v : Forall is_byte (le16 v).
Proof. unfold le16. auto with zlist. Qed.

Lemma be32_bytes v : Forall is_byte (be32 v).
Proof. apply Forall_app; auto using be16_bytes. Qed.

Lemma le32_bytes v : Forall is_byte (le32 v).
Proof. apply Forall_app; auto using le16_bytes. Qed.

Lemma write_u32_le_spec s v :
  stream_ok s -> 4 <= room s -> Stream_Write_UINT32 v s = Ret (tt, put_bytes s (le32 v)).
Proof.
  intros Hs Hr. unfold Stream_Write_UINT32. unfold pbind at 1.
  rewrite need_capacity_spec by done. rewrite !land_255, !shiftr_div by lia.
  assert (le32 v = [v mod 256] ++ [v / 2 ^ 8 mod 256] ++ [v / 2 ^ 16 mod 256] ++ [v / 2 ^ 24 mod 256]) as ->.
  { unfold le32, le16. cbn [app]. rewrite Z.div_div by lia. done. }
  apply store_seq; [done|zlist_lia|auto with zlist|]. intros Hs1.
  apply store_seq; [done|rewrite room_put_bytes; zlist_lia|auto with zlist|]. intros Hs2.
  apply store_seq; [done|rewrite !room_put_bytes; zlist_lia|auto with zlist|]. intros Hs3.
  apply store_spec; [done|]. rewrite !room_put_bytes. zlist_lia.
Qed.

Lemma be16_mod v : be16 (v mod 65536) = be16 v.
Proof.
  unfold be16. f_equal; [|f_equal]; Z.div_mod_to_equations; lia.
Qed.

Lemma write_u32_be_spec s v :
  stream_ok s -> 4 <= room s -> Stream_Write_UINT32_BE v s = Ret (tt, put_bytes s (be32 v)).
Proof.
  intros Hs Hr. unfold Stream_Write_UINT32_BE, pbind.
  rewrite need_capacity_spec by done.
  change 65535 with (2 ^ 16 - 1). rewrite !land_mask by lia.
  rewrite shiftr_div by lia.
  rewrite write_u16_be_spec by (done || lia).
  rewrite write_u16_be_spec.
  - rewrite put_bytes_app by (done || unfold be16; zlist_lia). by rewrite !be16_mod.
  - apply put_bytes_ok; [done|unfold be16; zlist_lia|apply be16_bytes].
  - rewrite room_put_bytes. unfold be16, le16. zlist_lia.
Qed.

Lemma write_bytes_spec s bs :
  stream_ok s -> zlen bs <= room s -> Stream_Write bs s = Ret (tt, put_bytes s bs).
Proof.
  intros Hs Hfit. unfold Stream_Write. case_if.
  - unfold pbind at 1. rewrite need_capacity_spec by done. by apply poke_seek_spec.
  - rewrite (zlen_0_nil bs) by zlist_lia. by rewrite put_bytes_nil.
Qed.

Lemma zero_spec s n :
  stream_ok s -> 0 <= n <= room s -> Stream_Zero n s = Ret (tt, put_bytes s (zrep n 0)).
Proof.
  intros Hs Hn. unfold Stream_Zero. unfold pbind at 1.
  rewrite need_capacity_spec by (done || lia). apply poke_seek_spec; [done| |]; zlist_lia.
Qed.
End writing.

#[export] Hint Resolve be16_bytes le16_bytes be32_bytes le32_bytes : zlist.

(** A call that returns [a] and stores exactly [bs] when there is room. *)
Definition emits_ret {A} (body : Prog wStream A) (a : A) (bs : list Z) : Prop :=
  Forall is_byte bs /\
  forall s, stream_ok s -> zlen bs <= room s -> body s = Ret (a, put_bytes s bs).
Abbreviation emits body bs := (emits_ret body tt bs).

Section emitting.
Lemma emits_u8 v : is_byte v -> emits (Stream_Write_UINT8 v) [v].
Proof. split; [auto|]. intros. apply write_u8_spec; [done|zlist_lia|done]. Qed.

Lemma emits_u16_be v : emits (Stream_Write_UINT16_BE v) (be16 v).
Proof. split; [auto with zlist|]. intros. by apply write_u16_be_spec. Qed.

Lemma emits_u16_le v : emits (Stream_Write_UINT16 v) (le16 v).
Proof. split; [auto with zlist|]. intros. by apply write_u16_le_spec. Qed.

Lemma emits_u32_be v : emits (Stream_Write_UINT32_BE v) (be32 v).
Proof. split; [auto with zlist|]. intros. by apply write_u32_be_spec. Qed.

Lemma emits_u32_le v : emits (Stream_Write_UINT32 v) (le32 v).
Proof. split; [auto with zlist|]. intros. by apply write_u32_le_spec. Qed.

Lemma emits_bytes bs : Forall is_byte bs -> emits (Stream_Write bs) bs.
Proof. split; [done|]. intros. by apply write_bytes_spec. Qed.

Lemma emits_zero n : 0 <= n -> emits (Stream_Zero n) (zrep n 0).
Proof.
  split; [apply Forall_zrep; unfold is_byte; lia|].
  intros. apply zero_spec; [done|]. zlist_lia.
Qed.

Lemma emits_pret {A} (a : A) : emits_ret (pret a) a [].
Proof. split; [done|]. intros. by rewrite put_bytes_nil. Qed.

Lemma emits_bind {A B} (m : Prog wStream A) (k : A -> Prog wStream B) a b x y :
  emits_ret m a x -> emits_ret (k a) b y -> emits_ret (pbind m k) b (x ++ y).
Proof.
  intros [Hx H1] [Hy H2]. split; [by apply Forall_app|]. intros s Hs Hfit.
  assert (zlen x + zlen y <= room s) by zlist_lia.
  pose proof (zlen_nonneg x). pose proof (zlen_nonneg y).
  unfold pbind. rewrite H1 by (done || lia).
  rewrite H2; [|apply put_bytes_ok; done || lia|rewrite room_put_bytes; lia].
  by rewrite put_bytes_app.
Qed.

Lemma emits_seq b1 b2 a b : emits b1 a -> emits b2 b -> emits (b1 ;; b2) (a ++ b).
Proof. intros. by eapply emits_bind. Qed.

Lemma emits_final {A} (m : Prog wStream A) {B} (b : B) a x :
  emits_ret m a x -> emits_ret (m ;; pret b) b x.
Proof.
  intros H. rewrite <- (app_nil_r x). eapply emits_bind; [exact H|apply emits_pret].
Qed.

(** An assertion about room that what follows needs anyway. *)
Lemma emits_need {A} n (k : Prog wStream A) b y :
  n <= zlen y -> emits_ret k b y -> emits_ret (need_capacity n ;; k) b y.
Proof.
  intros Hn [Hy Hk]. split; [done|]. intros s Hs Hfit. unfold pbind.
  rewrite need_capacity_spec by (done || lia). by apply Hk.
Qed.

Lemma emits_assert {A} c (k : Prog wStream A) b y :
  c = true -> emits_ret k b y -> emits_ret (passert c ;; k) b y.
Proof. intros -> Hk. exact Hk. Qed.
End emitting.
#[export] Hint Resolve emits_u8 emits_u16_be emits_u16_le emits_u32_be emits_bytes emits_zero
  emits_seq : zlist.

(** ** Growth of the buffer *)

Section growth.
Lemma double_until_zero n size : 0 < size -> double_until n 0 size = None.
Proof.
  intros H. induction n as [|n IH]; [done|]. cbn [double_until].
  change (u64 (0 * 2)) with 0. case_if; [done|lia].
Qed.

(** When 65 rounds do not reach [size] no number of rounds does: the fuel is exact. *)
Lemma double_until_stuck f c size n :
  (f <= 64)%nat -> (2 ^ (64 - Z.of_nat f) | c) -> 0 < size ->
  double_until f c size = None -> double_until n c size = None.
Proof.
  revert c n. induction f as [|f IH]; intros c n Hf Hc Hs H.
  - destruct n as [|n]; [done|]. cbn [double_until].
    assert (u64 (c * 2) = 0) as ->.
    { unfold u64. apply Z.mod_divide; [lia|].
      apply Z.divide_mul_l. by replace (64 - Z.of_nat 0) with 64 in Hc by lia. }
    case_if; [by apply double_until_zero|lia].
  - destruct n as [|n]; [done|]. cbn [double_until] in *.
    destruct (u64 (c * 2) <? size) eqn:E; [|done].
    apply IH; try done; [lia|].
    destruct Hc as [q Hq]. unfold u64.
    rewrite Z.mod_eq by lia. apply Z.divide_sub_r.
    + exists q. rewrite Hq.
      replace (64 - Z.of_nat f) with (64 - Z.of_nat (S f) + 1) by lia.
      rewrite Z.pow_add_r by lia. lia.
    + apply Z.divide_mul_l. exists (2 ^ Z.of_nat f).
      rewrite <- Z.pow_add_r by lia. f_equal. lia.
Qed.

Lemma double_until_None c size n :
  0 <= c -> 0 < size -> double_until 65 c size = None -> double_until n c size = None.
Proof.
  intros Hc Hs H. destruct n as [|n]; [done|]. cbn [double_until] in H |- *.
  destruct (u64 (c * 2) <? size) eqn:E; [|done].
  apply (double_until_stuck 64); try done. apply Z.divide_1_l.
Qed.

Lemma double_until_spec fuel c size :
  0 < c < 2 ^ 63 -> c < size -> size <= 2 * c \/ size <= 2 ^ 63 ->
  size <= c * 2 ^ Z.of_nat fuel ->
  exists c', double_until fuel c size = Some c' /\ size <= c' < 2 * size /\ exists j, 0 <= j /\ c' = c * 2 ^ j.
Proof.
  revert c. induction fuel as [|fuel IH]; intros c Hc Hlt Hor Hfuel.
  { rewrite Z.mul_1_r in Hfuel. lia. }
  cbn [double_until]. rewrite u64_id by lia. case_if.
  - destruct (IH (c * 2)) as (c' & Hd & Hcb & j & Hj & Hcj); try lia.
    { rewrite Nat2Z.inj_succ, Z.pow_succ_r in Hfuel by lia. lia. }
    exists c'. split_and!; [done|lia|lia|]. exists (Z.succ j). split; [lia|]. rewrite Z.pow_succ_r by lia. lia.
  - exists (c * 2). split_and!; [done|lia|lia|]. exists 1. split; [lia|]. by rewrite Z.pow_1_r.
Qed.

Context `{Malloc}.
Implicit Types s : wStream.

Lemma wrote_refl s : growable s -> wrote s s [].
Proof. intros Hg. split_and!; [done|zlist_lia|by rewrite app_nil_r]. Qed.

Lemma wrote_trans s1 s2 s3 a b : wrote s1 s2 a -> wrote s2 s3 b -> wrote s1 s3 (a ++ b).
Proof.
  intros (G1 & P1 & T1) (G2 & P2 & T2). split_and!; [done|zlist_lia|].
  by rewrite T2, T1, app_assoc.
Qed.

Lemma wrote_put_bytes s bs :
  growable s -> zlen bs <= room s -> Forall is_byte bs -> wrote s (put_bytes s bs) bs.
Proof.
  intros (Hs & Hc & Ho) Hfit Hb. split_and!; [|done|by apply ztake_put_bytes].
  split_and!; [by apply put_bytes_ok|done|done].
Qed.

Lemma position_spec s : stream_ok s -> Stream_GetPosition s = Ret (pointer s, s).
Proof.
  intros []. unfold Stream_GetPosition, pbind, pget, passert, pret.
  case_if; [|lia]. by rewrite u64_id by lia.
Qed.

Lemma ensure_fits s n :
  stream_ok s -> 0 <= n <= room s -> Stream_EnsureRemainingCapacity n s = Ret (true, s).
Proof.
  intros Hs Hn. unfold Stream_EnsureRemainingCapacity. unfold pbind at 1.
  rewrite position_spec by done. destruct Hs. unfold room in Hn.
  unfold pbind, pget, Stream_Capacity, pret. rewrite u64_id by lia. case_if; [lia|done].
Qed.

(** A larger buffer keeps what was written and is zero after the old capacity. *)
Lemma regrow_wrote s c :
  growable s -> capacity s <= c < 2 ^ 63 ->
  wrote s (regrow (ztake (capacity s) (buffer s) ++ zrep (c - capacity s) 0) c s) [].
Proof.
  intros ([] & Hc & Ho) Hle.
  split_and!; [split_and!; [split|cbn; lia|done]|cbn; zlist_lia|]; cbn; try lia.
  - zlist_lia.
  - rewrite Forall_app. split; [by apply Forall_ztake|apply Forall_zrep; unfold is_byte; lia].
  - rewrite ztake_app, ztake_ztake, app_nil_r. rewrite Z.min_l by lia.
    rewrite (ztake_0 _ (zrep _ _)) by zlist_lia. by rewrite app_nil_r.
Qed.

Lemma ensure_capacity_run s size :
  growable s -> capacity s < size -> size <= 2 * capacity s \/ size <= 2 ^ 63 ->
  exists c j, 0 <= j /\ c = capacity s * 2 ^ j /\ size <= c < 2 * size /\
    Stream_EnsureCapacity size s =
      if malloc_ok c then Ret (true, regrow (ztake (capacity s) (buffer s) ++ zrep (c - capacity s) 0) c s) else Ret (false, s).
Proof.
  intros Hg Hlt Hor. pose proof Hg as ([] & Hc & Ho).
  assert (exists c, double_until 65 (capacity s) size = Some c /\ size <= c < 2 * size /\ exists j, 0 <= j /\ c = capacity s * 2 ^ j)
    as (c & Hd & Hcb & j & Hj & Hcj).
  { apply double_until_spec; [lia|done|done|].
    change (2 ^ Z.of_nat 65) with (2 ^ 63 * 4). nia. }
  exists c, j. split_and!; [done|done|lia|lia|]. unfold Stream_EnsureCapacity, pbind, pget.
  replace (capacity s <? size) with true by lia. rewrite Hd.
  rewrite position_spec by done. rewrite Ho. cbn [negb andb].
  destruct (malloc_ok c) eqn:E'; cbn [negb]; [|done].
  unfold pput, Stream_SetPosition, pbind, pget, Stream_Capacity. cbn.
  replace (c <? pointer s) with false by lia. reflexivity.
Qed.

Lemma ensure_capacity_grow s size :
  growable s -> capacity s < size -> size <= 2 * capacity s \/ size <= 2 ^ 63 ->
  exists b s', Stream_EnsureCapacity size s = Ret (b, s') /\
    if b : bool then wrote s s' [] /\ size <= capacity s' else s' = s /\ refused (2 * size).
Proof.
  intros Hg Hlt Hor. destruct (ensure_capacity_run s size Hg Hlt Hor) as (c & j & _ & _ & Hcb & ->).
  pose proof Hg as ([] & Hc & Ho). destruct (malloc_ok c) eqn:E'.
  - pose proof (malloc_bound _ E'). eexists true, _. split; [reflexivity|]. split; [|cbn; lia].
    apply (regrow_wrote s c); [done|lia].
  - exists false, s. split_and!; [done|done|]. exists c. split; [lia|done].
Qed.

(** The request for room, exactly. *)
Lemma ensure_exact s n :
  growable s -> 0 <= n <= 2 ^ 62 -> room s < n ->
  exists c j, 0 <= j /\ c = capacity s * 2 ^ j /\ capacity s + n <= c < 2 * (capacity s + n) /\
    Stream_EnsureRemainingCapacity n s =
      if malloc_ok c then Ret (true, regrow (ztake (capacity s) (buffer s) ++ zrep (c - capacity s) 0) c s) else Ret (false, s).
Proof.
  intros Hg Hn Hroom. pose proof Hg as (Hs & Hc & _). pose proof Hs as []. unfold room in Hroom.
  destruct (ensure_capacity_run s (capacity s + n) Hg ltac:(lia) ltac:(lia)) as (c & j & Hj & Hcj & Hcb & E).
  exists c, j. split_and!; [done|done|lia|lia|].
  unfold Stream_EnsureRemainingCapacity. unfold pbind at 1. rewrite position_spec by done.
  unfold pbind, pget, Stream_Capacity. rewrite (u64_id (pointer s + n)) by lia.
  replace (capacity s <? pointer s + n) with true by lia. rewrite u64_id by lia. exact E.
Qed.

Lemma ensure_grow s n :
  growable s -> 0 <= n <= 2 ^ 62 ->
  exists b s', Stream_EnsureRemainingCapacity n s = Ret (b, s') /\
    if b : bool then wrote s s' [] /\ n <= room s' else s' = s /\ refused (2 * (pointer s + 2 * n)).
Proof.
  intros Hg Hn. pose proof Hg as (Hs & Hc & _).
  unfold Stream_EnsureRemainingCapacity. unfold pbind at 1. rewrite position_spec by done.
  pose proof Hs as []. unfold pbind, pget, Stream_Capacity.
  rewrite (u64_id (pointer s + n)) by lia.
  destruct (capacity s <? pointer s + n) eqn:E.
  - rewrite u64_id by lia.
    destruct (ensure_capacity_grow s (capacity s + n)) as (b & s' & -> & Hb); try done; try lia.
    exists b, s'. split; [done|].
    destruct b; [|destruct Hb as (-> & k & Hk & Hr); split; [done|]; exists k; split; [lia|done]].
    destruct Hb as [Hw Hcap].
    split; [done|]. destruct Hw as (_ & Hp & _). unfold room. zlist_lia.
  - exists true, s. unfold pret. split_and!; [done|by apply wrote_refl|unfold room; lia].
Qed.

(** ** Contracts of checked writers *)


Lemma writes_ensure_ret n (body : Prog wStream bool) bs :
  0 <= n <= 2 ^ 62 -> zlen bs <= n -> emits_ret body true bs ->
  writes (ok <- Stream_EnsureRemainingCapacity n ;;
          if negb ok then pret false else body) n bs.
Proof.
  intros Hn Hle [Hb Hbody]. split; [| |done|done].
  - intros s Hs Hroom. unfold pbind at 1. rewrite ensure_fits by (done || lia).
    cbn [negb]. by rewrite Hbody by (done || lia).
  - intros s Hg. unfold pbind at 1.
    destruct (ensure_grow s n Hg Hn) as (b & s' & -> & Hbs). destruct b; cbn [negb].
    + destruct Hbs as [Hw Hroom]. pose proof Hw as (Hg' & _).
      rewrite Hbody by (try lia; apply Hg').
      eexists true, _. split; [done|]. rewrite <- (app_nil_l bs).
      eapply wrote_trans; [done|]. by apply wrote_put_bytes; [|lia|].
    + destruct Hbs as [-> Hr]. exists false, s.
      split_and!; [done|eapply refused_le; [exact Hr|destruct (proj1 Hg); lia]|].
      exists []. split; [apply prefix_nil|by apply wrote_refl].
Qed.

Lemma writes_ensure n body bs :
  0 <= n <= 2 ^ 62 -> zlen bs <= n -> emits body bs ->
  writes (ok <- Stream_EnsureRemainingCapacity n ;;
          if negb ok then pret false else (body ;; pret true)) n bs.
Proof. intros Hn Hle Hb. apply writes_ensure_ret; [done|done|]. by eapply emits_final. Qed.

Lemma writes_seq w1 w2 n1 n2 a b :
  writes w1 n1 a -> writes w2 n2 b ->
  writes (ok <- w1 ;; if negb ok then pret false else w2) (Z.max n1 (zlen a + n2)) (a ++ b).
Proof.
  intros [F1 G1 N1 B1] [F2 G2 N2 B2]. split.
  - intros s Hs Hroom. unfold pbind. rewrite F1 by (done || lia). cbn [negb].
    pose proof (zlen_nonneg b).
    rewrite F2; [|apply put_bytes_ok; done || lia|rewrite room_put_bytes; lia].
    rewrite put_bytes_app; [done|done|lia].
  - intros s Hg. unfold pbind.
    destruct (G1 s Hg) as (b1 & s1 & -> & H1). destruct b1; cbn [negb].
    + pose proof H1 as (Hg1 & _). destruct (G2 s1 Hg1) as (b2 & s2 & -> & H2).
      exists b2, s2. split; [done|]. destruct b2.
      * by eapply wrote_trans.
      * destruct H2 as (Hr & pre & Hpre & Hw). split.
        { eapply refused_le; [exact Hr|]. destruct H1 as (_ & Hp & _). lia. }
        exists (a ++ pre). split; [by apply prefix_app|by eapply wrote_trans].
    + destruct H1 as (Hr & pre & Hpre & Hw). exists false, s1. split; [done|].
      split; [eapply refused_le; [exact Hr|lia]|].
      exists pre. split; [by apply prefix_app_r|done].
  - zlist_lia.
  - by apply Forall_app.
Qed.
End growth.

(** A new stream is empty and has the size that was asked for. *)
Section fresh_streams.
Context `{HM : Malloc} `{HF : FreshMemory} `{HB : !ByteMemory}.
Lemma stream_new_spec size s :
  0 < size < 2 ^ 63 -> Stream_New None (fresh size) size = Some s ->
  growable s /\ pointer s = 0 /\ capacity s = size.
Proof.
  intros Hsize. unfold Stream_New. replace (size =? 0) with false by lia. rewrite andb_false_r.
  destruct (negb _); [done|]. destruct (malloc_ok size); [|done]. intros [= <-].
  assert (Hf : zlen (ztake size (fresh size)) = size) by (rewrite zlen_ztake, fresh_length; lia).
  split_and!; [|done|done]. split_and!; [|cbn; lia|done]. split; cbn; try lia. apply Forall_ztake, fresh_is_byte.
Qed.

Lemma stream_new_refused size : 0 < size -> Stream_New None (fresh size) size = None -> refused (Z.max 56 size).
Proof.
  intros Hs. unfold Stream_New. replace (size =? 0) with false by lia. rewrite andb_false_r.
  destruct (malloc_ok 56) eqn:E1; cbn [negb]; [|intros _; exists 56; split; [lia|done]].
  destruct (malloc_ok size) eqn:E2; [done|]. intros _. exists size. split; [lia|done].
Qed.
End fresh_streams.

(** ** Reading back what was written *)

(** [Stream_SealLength (s); Stream_SetPosition (s, p);] *)
Definition Stream_Reread (p : Z) : Prog wStream bool :=
  Stream_SealLength ;; Stream_SetPosition p.

Lemma reread_spec s s' bs :
  stream_ok s -> wrote s s' bs -> Forall is_byte bs ->
  exists r, Stream_Reread (pointer s) s' = Ret (true, r) /\ readable r /\ unread r = bs /\
            pointer r = pointer s.
Proof.
  intros Hs ((Hs' & _) & Hp & Ht) Hb. pose proof Hs as []. pose proof Hs' as [].
  pose proof (zlen_nonneg bs).
  exists (set_pointer (pointer s) (set_length (pointer s') s')).
  unfold Stream_Reread, Stream_SealLength, Stream_SetPosition, Stream_Capacity, pbind, pget,
    passert, pput, pret.
  cbn. repeat (case_if; cbn in *; try lia). split_and!; try done.
  - split; [split|]; cbn; done || lia.
  - unfold unread. cbn. rewrite Ht, zdrop_app.
    rewrite zdrop_all by zlist_lia. rewrite zdrop_0 by zlist_lia. done.
Qed.

(** ** Readers that cannot leave the stream

    [safe_at rd s]: from the readable stream [s] the reader returns, it leaves buffer and
    length alone and its cursor stays between the start and the end of the valid bytes. *)
Definition safe_at {A} (rd : Prog wStream A) (s : wStream) : Prop :=
  exists a k, rd s = Ret (a, advance s k) /\ 0 <= k <= zlen (unread s).

Definition safe_reader {A} (rd : Prog wStream A) : Prop :=
  forall s, readable s -> safe_at rd s.

Create HintDb safe.

Section safe_base.
Context {A B : Type}.
Implicit Types s : wStream.

Lemma safe_ret (a : A) s : readable s -> safe_at (pret a) s.
Proof. intros. exists a, 0. rewrite advance_0. split; [done|]. zlist_lia. Qed.

Lemma safe_at_bind (m : Prog wStream A) (f : A -> Prog wStream B) s a k :
  readable s -> 0 <= k <= zlen (unread s) -> m s = Ret (a, advance s k) ->
  safe_at (f a) (advance s k) -> safe_at (pbind m f) s.
Proof.
  intros Hr Hk Hm (b & j & Hf & Hj). exists b, (k + j).
  unfold pbind. rewrite Hm, Hf, advance_advance. split; [done|].
  rewrite unread_advance in Hj by (done || lia). zlist_lia.
Qed.

Lemma safe_bind (m : Prog wStream A) (f : A -> Prog wStream B) s :
  safe_at m s -> readable s ->
  (forall a k, 0 <= k <= zlen (unread s) -> readable (advance s k) ->
     safe_at (f a) (advance s k)) ->
  safe_at (pbind m f) s.
Proof.
  intros (a & k & Hm & Hk) Hr Hf. eapply safe_at_bind; eauto using readable_advance.
Qed.


(** The same, keeping a fact about the value that was read. *)
Lemma safe_bind_post (m : Prog wStream A) (f : A -> Prog wStream B) (P : A -> Prop) s :
  (exists a k, m s = Ret (a, advance s k) /\ 0 <= k <= zlen (unread s) /\ P a) ->
  readable s ->
  (forall a k, P a -> readable (advance s k) -> safe_at (f a) (advance s k)) ->
  safe_at (pbind m f) s.
Proof.
  intros (a & k & Hm & Hk & HP) Hr Hf. eapply safe_at_bind; eauto using readable_advance.
Qed.

Lemma safe_remaining (f : Z -> Prog wStream A) s :
  readable s -> safe_at (f (zlen (unread s))) s ->
  safe_at (pbind Stream_GetRemainingLength f) s.
Proof.
  intros Hr (a & k & E & Hk). exists a, k. unfold pbind.
  by rewrite remaining_length_spec.
Qed.

Lemma rewind_spec s k n :
  readable s -> 0 <= n <= k -> Stream_Rewind n (advance s k) = Ret (tt, advance s (k - n)).
Proof.
  intros [[] _] Hn. unfold Stream_Rewind, pbind, pget, passert, pput. cbn.
  replace (0 <=? pointer s + k) with true by lia.
  replace (n <=? pointer s + k) with true by lia. unfold advance, set_pointer. cbn.
  repeat f_equal. lia.
Qed.
End safe_base.

Section safe.
Context {A : Type}.
Implicit Types s : wStream.

Lemma safe_check n (f : bool -> Prog wStream A) s :
  readable s ->
  (n <= zlen (unread s) -> safe_at (f true) s) ->
  (zlen (unread s) < n -> safe_at (f false) s) ->
  safe_at (pbind (Stream_CheckAndLogRequiredLength n) f) s.
Proof.
  intros Hr H1 H2. apply (safe_at_bind _ _ _ (n <=? zlen (unread s)) 0);
    rewrite ?advance_0; [done|zlist_lia|by apply check_length_spec|].
  destruct (n <=? zlen (unread s)) eqn:E; [apply H1|apply H2]; lia.
Qed.

Lemma safe_u8 (f : Z -> Prog wStream A) s :
  readable s -> 1 <= zlen (unread s) ->
  (forall b, is_byte b -> readable (advance s 1) ->
     zlen (unread (advance s 1)) = zlen (unread s) - 1 -> safe_at (f b) (advance s 1)) ->
  safe_at (pbind (stream_read_u8 true) f) s.
Proof.
  intros Hr H1 Hf. destruct (unread s) as [|b r] eqn:Hu; [zlist_lia|].
  destruct (read_u8_spec s b r Hr Hu) as (Hs & Hr' & Hu' & Hb).
  eapply safe_at_bind; [done| |exact Hs|]; [rewrite Hu; zlist_lia|].
  apply Hf; [done|done|]. rewrite Hu'. zlist_lia.
Qed.

Lemma safe_peek_u8 (f : Z -> Prog wStream A) s :
  readable s -> 1 <= zlen (unread s) ->
  (forall b, is_byte b -> safe_at (f b) s) ->
  safe_at (pbind (stream_read_u8 false) f) s.
Proof.
  intros Hr H1 Hf. destruct (unread s) as [|b r] eqn:Hu; [zlist_lia|].
  destruct (peek_u8_spec s b r Hr Hu) as (Hs & Hb).
  eapply (safe_at_bind _ _ _ b 0); rewrite ?advance_0; [done|zlist_lia|exact Hs|auto].
Qed.

Lemma safe_u16_be (f : Z -> Prog wStream A) s :
  readable s -> 2 <= zlen (unread s) ->
  (forall v, 0 <= v < 65536 -> readable (advance s 2) ->
     zlen (unread (advance s 2)) = zlen (unread s) - 2 -> safe_at (f v) (advance s 2)) ->
  safe_at (pbind (stream_read_u16_be true) f) s.
Proof.
  intros Hr H1 Hf. destruct (unread s) as [|b0 [|b1 r]] eqn:Hu; try zlist_lia.
  destruct (read_u16_be_spec s b0 b1 r Hr Hu) as (Hs & Hr' & Hu' & Hb0 & Hb1).
  eapply safe_at_bind; [done| |exact Hs|]; [rewrite Hu; zlist_lia|].
  unfold is_byte in *. apply Hf; [lia|done|]. rewrite Hu'. zlist_lia.
Qed.

Lemma safe_u16_le (f : Z -> Prog wStream A) s :
  readable s -> 2 <= zlen (unread s) ->
  (forall v, 0 <= v < 65536 -> readable (advance s 2) ->
     zlen (unread (advance s 2)) = zlen (unread s) - 2 -> safe_at (f v) (advance s 2)) ->
  safe_at (pbind (stream_read_u16_le true) f) s.
Proof.
  intros Hr H1 Hf. destruct (unread s) as [|b0 [|b1 r]] eqn:Hu; try zlist_lia.
  destruct (read_u16_le_spec s b0 b1 r Hr Hu) as (Hs & Hr' & Hu' & Hb0 & Hb1).
  eapply safe_at_bind; [done| |exact Hs|]; [rewrite Hu; zlist_lia|].
  unfold is_byte in *. apply Hf; [lia|done|]. rewrite Hu'. zlist_lia.
Qed.

Lemma safe_u32_be (f : Z -> Prog wStream A) s :
  readable s -> 4 <= zlen (unread s) ->
  (forall v, 0 <= v < 4294967296 -> readable (advance s 4) ->
     zlen (unread (advance s 4)) = zlen (unread s) - 4 -> safe_at (f v) (advance s 4)) ->
  safe_at (pbind (stream_read_u32_be true) f) s.
Proof.
  intros Hr H1 Hf. destruct (unread s) as [|b0 [|b1 [|b2 [|b3 r]]]] eqn:Hu; try zlist_lia.
  destruct (read_u32_be_spec s b0 b1 b2 b3 r Hr Hu) as (Hs & Hr' & Hu' & ? & ? & ? & ?).
  eapply safe_at_bind; [done| |exact Hs|]; [rewrite Hu; zlist_lia|].
  unfold is_byte in *. apply Hf; [lia|done|]. rewrite Hu'. zlist_lia.
Qed.

Lemma safe_u32_le (f : Z -> Prog wStream A) s :
  readable s -> 4 <= zlen (unread s) ->
  (forall v, 0 <= v < 4294967296 -> readable (advance s 4) ->
     zlen (unread (advance s 4)) = zlen (unread s) - 4 -> safe_at (f v) (advance s 4)) ->
  safe_at (pbind (stream_read_u32_le true) f) s.
Proof.
  intros Hr H1 Hf. destruct (unread s) as [|b0 [|b1 [|b2 [|b3 r]]]] eqn:Hu; try zlist_lia.
  destruct (read_u32_le_spec s b0 b1 b2 b3 r Hr Hu) as (Hs & Hr' & Hu' & ? & ? & ? & ?).
  eapply safe_at_bind; [done| |exact Hs|]; [rewrite Hu; zlist_lia|].
  unfold is_byte in *. apply Hf; [lia|done|]. rewrite Hu'. zlist_lia.
Qed.

Lemma safe_seek n (f : unit -> Prog wStream A) s :
  readable s -> 0 <= n <= zlen (unread s) ->
  (readable (advance s n) -> zlen (unread (advance s n)) = zlen (unread s) - n ->
   safe_at (f tt) (advance s n)) ->
  safe_at (pbind (Stream_Seek n) f) s.
Proof.
  intros Hr Hn Hf. eapply safe_at_bind; [done|exact Hn|by apply seek_spec|].
  apply Hf; [by apply readable_advance|]. rewrite unread_advance by (done || lia). zlist_lia.
Qed.

Lemma safe_read_bytes n (f : list Z -> Prog wStream A) s :
  readable s -> 0 <= n <= zlen (unread s) ->
  (readable (advance s n) -> zlen (unread (advance s n)) = zlen (unread s) - n ->
   safe_at (f (ztake n (unread s))) (advance s n)) ->
  safe_at (pbind (Stream_Read n) f) s.
Proof.
  intros Hr Hn Hf. eapply safe_at_bind; [done|exact Hn|by apply read_bytes_spec|].
  apply Hf; [by apply readable_advance|]. rewrite unread_advance by (done || lia). zlist_lia.
Qed.

Lemma load_bytes_spec n s :
  readable s -> 0 <= n <= zlen (unread s) ->
  load_bytes n s = Ret (ztake n (unread s), s).
Proof.
  intros Hr Hn. pose proof (zlen_unread s Hr). destruct Hr as [[] ?]. unfold load_bytes.
  destruct (_ && _) eqn:E; [|lia]. unfold unread.
  rewrite !ztake_zdrop_comm, ztake_ztake by lia. do 4 f_equal. lia.
Qed.

Lemma safe_load_bytes n (f : list Z -> Prog wStream A) s :
  readable s -> 0 <= n <= zlen (unread s) -> safe_at (f (ztake n (unread s))) s ->
  safe_at (pbind (load_bytes n) f) s.
Proof.
  intros Hr Hn Hf. apply (safe_at_bind _ _ _ (ztake n (unread s)) 0);
    rewrite ?advance_0; [done|zlist_lia|by apply load_bytes_spec|done].
Qed.
End safe.

(** One step of a safety proof: the next check, read or branch of the reader. *)
Ltac safe_step :=
  cbn [negb] in *;
  lazymatch goal with
  | |- safe_at (pret _) _ => apply safe_ret; assumption
  | |- safe_at (pbind (Stream_CheckAndLogRequiredLength _) _) _ =>
      apply safe_check; [assumption|intros ?|intros ?]
  | |- safe_at (pbind (stream_read_u8 true) _) _ =>
      apply safe_u8; [assumption|lia|intros ? ? ? ?]
  | |- safe_at (pbind (stream_read_u8 false) _) _ =>
      apply safe_peek_u8; [assumption|lia|intros ? ?]
  | |- safe_at (pbind (stream_read_u16_be true) _) _ =>
      apply safe_u16_be; [assumption|lia|intros ? ? ? ?]
  | |- safe_at (pbind (stream_read_u16_le true) _) _ =>
      apply safe_u16_le; [assumption|lia|intros ? ? ? ?]
  | |- safe_at (pbind (stream_read_u32_be true) _) _ =>
      apply safe_u32_be; [assumption|lia|intros ? ? ? ?]
  | |- safe_at (pbind (stream_read_u32_le true) _) _ =>
      apply safe_u32_le; [assumption|lia|intros ? ? ? ?]
  | |- safe_at (pbind (Stream_Seek _) _) _ =>
      apply safe_seek; [assumption|lia|intros ? ?]
  | |- safe_at (pbind (Stream_Read _) _) _ =>
      apply safe_read_bytes; [assumption|lia|intros ? ?]
  | |- safe_at (pbind (load_bytes _) _) _ =>
      apply safe_load_bytes; [assumption|lia|]
  | |- safe_at (if ?b then _ else _) _ => let E := fresh "E" in destruct b eqn:E
  | |- safe_at (let _ := _ in _) _ => cbv zeta
  | |- safe_at (pbind ?m _) _ =>
      apply safe_bind; [solve [auto with safe]|assumption|intros ? ? ? ?]
  | |- safe_at (match ?x with _ => _ end) _ => destruct x
  | |- safe_at _ _ => solve [auto with safe]
  end.
Ltac solve_safe := repeat safe_step.

(** ** Wire formats

    A reader that decodes [bs] to [v] whatever follows, and the interface a writer/reader
    pair offers to the protocol layers above. *)
Definition reads_back {A} (rd : Prog wStream A) (bs : list Z) (v : A) : Prop :=
  forall s r, readable s -> unread s = bs ++ r -> rd s = Ret (v, advance s (zlen bs)).

(** What the writer stored, read back from where it was stored, is [v]; the reader ends
    where the writer ended. *)
Definition roundtrip {A} (wr : Prog wStream bool) (rd : Prog wStream A) (v : A) : Prop :=
  forall s s', growable s -> wr s = Ret (true, s') ->
  exists r, Stream_Reread (pointer s) s' = Ret (true, r) /\
            rd r = Ret (v, advance r (pointer s' - pointer s)).

(** The whole contract of a matching writer and reader: the writer stores exactly [bs] (or
    reports that memory ran out), the reader decodes [bs] to [v] whatever follows it, and
    the two compose on one stream. *)
Definition wire_ok `{Malloc} {A} (wr : Prog wStream bool) (rd : Prog wStream A) (bs : list Z) (v : A)
  : Prop :=
  (exists need, need <= 2 * zlen bs /\ writes wr need bs) /\ reads_back rd bs v /\ roundtrip wr rd v.

Class WireFormat `{Malloc} {A : Type} (wr : A -> Prog wStream bool)
    (rd : Prog wStream (option A)) (valid : A -> Prop) (enc : A -> list Z) : Prop := {
  wire_writes : forall v, valid v -> writes (wr v) (zlen (enc v)) (enc v);
  wire_reads : forall v, valid v -> reads_back rd (enc v) (Some v)
}.

(** Reading what a procedure stored in a stream with enough room. *)
Lemma emits_reads {A B} (wr : Prog wStream A) (rd : Prog wStream B) a v bs s :
  emits_ret wr a bs -> reads_back rd bs v -> growable s -> zlen bs <= room s ->
  exists s' r, wr s = Ret (a, s') /\ Stream_Reread (pointer s) s' = Ret (true, r) /\
               rd r = Ret (v, advance r (pointer s' - pointer s)).
Proof.
  intros [Hb Hwr] Hrd Hg Hfit. exists (put_bytes s bs). pose proof Hg as (Hs & _).
  pose proof (wrote_put_bytes s bs Hg Hfit Hb) as Hw.
  destruct (reread_spec s _ bs Hs Hw Hb) as (r & Hr & Hrr & Hu & _). exists r.
  split_and!; [by apply Hwr|done|]. rewrite (Hrd r []) by (by rewrite ?app_nil_r).
  do 3 f_equal. cbn. lia.
Qed.

Section formats.
Context `{Malloc}.

Lemma roundtrip_intro {A} wr need bs (rd : Prog wStream A) v :
  writes wr need bs -> reads_back rd bs v -> roundtrip wr rd v.
Proof.
  intros [_ Hg _ Hb] Hrd s s' Hgs Hw. destruct (Hg s Hgs) as (b & s1 & Hw1 & Hwrote).
  rewrite Hw in Hw1. simplify_eq. pose proof Hgs as (Hs & _).
  destruct (reread_spec s s1 bs Hs Hwrote Hb) as (r & Hr & Hrr & Hu & _).
  exists r. split; [done|]. rewrite (Hrd r []) by (by rewrite ?app_nil_r).
  do 3 f_equal. destruct Hwrote as (_ & Hp & _). lia.
Qed.

Lemma need_self (bs : list Z) : zlen bs <= 2 * zlen bs.
Proof. pose proof (zlen_nonneg bs). lia. Qed.

Lemma wire_ok_intro {A} wr need bs (rd : Prog wStream A) v :
  writes wr need bs -> need <= 2 * zlen bs -> reads_back rd bs v -> wire_ok wr rd bs v.
Proof. intros Hw Hn Hr. split_and!; [by exists need|done|by eapply roundtrip_intro]. Qed.

Lemma wire_format_ok {A} (wr : A -> Prog wStream bool) rd valid enc :
  WireFormat wr rd valid enc -> forall v, valid v -> wire_ok (wr v) rd (enc v) (Some v).
Proof. intros [Hw Hr] v Hv. eapply wire_ok_intro; eauto using need_self. Qed.
End formats.

Lemma be16_value v : 0 <= v < 65536 -> v / 256 mod 256 * 256 + v mod 256 = v.
Proof. intros. Z.div_mod_to_equations. lia. Qed.

Lemma be16_value' v r : 0 <= v < 65536 ->
  exists b0 b1, be16 v ++ r = b0 :: b1 :: r /\ b0 * 256 + b1 = v.
Proof.
  intros. exists (v / 256 mod 256), (v mod 256). split; [done|by apply be16_value].
Qed.

Lemma le16_value' v r : 0 <= v < 65536 ->
  exists b0 b1, le16 v ++ r = b0 :: b1 :: r /\ b0 + b1 * 256 = v.
Proof.
  intros. exists (v mod 256), (v / 256 mod 256). split; [done|].
  Z.div_mod_to_equations. lia.
Qed.

Lemma be32_value' v r : 0 <= v < 4294967296 ->
  exists b0 b1 b2 b3, be32 v ++ r = b0 :: b1 :: b2 :: b3 :: r /\
    ((b0 * 256 + b1) * 256 + b2) * 256 + b3 = v.
Proof.
  intros. do 4 eexists. split; [reflexivity|]. Z.div_mod_to_equations. lia.
Qed.

Lemma le32_value' v r : 0 <= v < 4294967296 ->
  exists b0 b1 b2 b3, le32 v ++ r = b0 :: b1 :: b2 :: b3 :: r /\
    b0 + (b1 + (b2 + b3 * 256) * 256) * 256 = v.
Proof.
  intros. do 4 eexists. split; [reflexivity|]. Z.div_mod_to_equations. lia.
Qed.

Lemma zlen_le32 v : zlen (le32 v) = 4.
Proof. reflexivity. Qed.
Lemma zlen_be16 v : zlen (be16 v) = 2.
Proof. reflexivity. Qed.
Lemma zlen_le16 v : zlen (le16 v) = 2.
Proof. reflexivity. Qed.
Lemma zlen_be32 v : zlen (be32 v) = 4.
Proof. reflexivity. Qed.
#[export] Hint Rewrite zlen_be16 zlen_le16 zlen_be32 zlen_le32 : zlist.

(** A stream of [n] zero bytes at its start, as [Stream_New (NULL, n)] makes it from zeroed
    memory. *)
Definition blank_stream (n : Z) : wStream := mkStream (zrep n 0) 0 n n 0 None true true.

Lemma blank_stream_growable n : 0 < n < 2 ^ 63 -> growable (blank_stream n).
Proof.
  intros Hn. split_and!; [split|cbn; lia|done]; cbn; try lia; [zlist_lia|].
  apply Forall_zrep. unfold is_byte. lia.
Qed.

(** *** Running a reader on known bytes *)

Lemma step_check {B} n (k : bool -> Prog wStream B) s bs :
  readable s -> unread s = bs ->
  (pbind (Stream_CheckAndLogRequiredLength n) k) s = k (n <=? zlen bs) s.
Proof. intros Hr <-. apply pbind_ret. by apply check_length_spec. Qed.

(** Running a sub-reader whose encoding comes next. *)
Lemma step_reads {A} (rd : Prog wStream A) s bs r v :
  reads_back rd bs v -> readable s -> unread s = bs ++ r ->
  rd s = Ret (v, advance s (zlen bs)) /\
  readable (advance s (zlen bs)) /\ unread (advance s (zlen bs)) = r.
Proof.
  intros Hrd Hr Hu. pose proof (zlen_nonneg bs). split_and!.
  - by apply (Hrd s r).
  - apply readable_advance; [done|]. rewrite Hu. zlist_lia.
  - rewrite unread_advance, Hu by done. rewrite zdrop_app, zdrop_all, zdrop_0 by lia. done.
Qed.

(** Run the sub-reader at the head of the goal, whose bytes come next by [H]. *)
Ltac rd_sub H Hr Hu :=
  let E := fresh in let Hr' := fresh "Hr" in let Hu' := fresh "Hu" in
  destruct (step_reads _ _ _ _ _ H Hr Hu) as (E & Hr' & Hu');
  rewrite (pbind_ret _ _ _ _ _ E); clear E Hr Hu; cbn beta iota.

(** One step of a reader on a stream [s] with [readable s] and [unread s = bs] in context;
    the facts about the next stream replace them. *)
Ltac rd_step :=
  cbn [negb];
  match goal with
  | Hr : readable ?s, Hu : unread ?s = ?bs
    |- (pbind (Stream_CheckAndLogRequiredLength ?n) _) ?s = _ =>
      rewrite (step_check n _ s bs Hr Hu)
  | Hr : readable ?s, Hu : unread ?s = ?b :: ?r
    |- (pbind (stream_read_u8 true) _) ?s = _ =>
      let E := fresh in let Hr' := fresh "Hr" in let Hu' := fresh "Hu" in let Hb := fresh "Hb" in
      destruct (read_u8_spec s b r Hr Hu) as (E & Hr' & Hu' & Hb);
      rewrite (pbind_ret _ _ _ _ _ E); clear E Hr Hu
  | Hr : readable ?s, Hu : unread ?s = ?b :: ?r
    |- (pbind (stream_read_u8 false) _) ?s = _ =>
      let E := fresh in let Hb := fresh "Hb" in
      destruct (peek_u8_spec s b r Hr Hu) as (E & Hb);
      rewrite (pbind_ret _ _ _ _ _ E); clear E
  | Hr : readable ?s, Hu : unread ?s = ?b0 :: ?b1 :: ?r
    |- (pbind (stream_read_u16_be true) _) ?s = _ =>
      let E := fresh in let Hr' := fresh "Hr" in let Hu' := fresh "Hu" in
      destruct (read_u16_be_spec s b0 b1 r Hr Hu) as (E & Hr' & Hu' & ? & ?);
      rewrite (pbind_ret _ _ _ _ _ E); clear E Hr Hu
  | Hr : readable ?s, Hu : unread ?s = ?b0 :: ?b1 :: ?r
    |- (pbind (stream_read_u16_le true) _) ?s = _ =>
      let E := fresh in let Hr' := fresh "Hr" in let Hu' := fresh "Hu" in
      destruct (read_u16_le_spec s b0 b1 r Hr Hu) as (E & Hr' & Hu' & ? & ?);
      rewrite (pbind_ret _ _ _ _ _ E); clear E Hr Hu
  | Hr : readable ?s, Hu : unread ?s = ?b0 :: ?b1 :: ?b2 :: ?b3 :: ?r
    |- (pbind (stream_read_u32_be true) _) ?s = _ =>
      let E := fresh in let Hr' := fresh "Hr" in let Hu' := fresh "Hu" in
      destruct (read_u32_be_spec s b0 b1 b2 b3 r Hr Hu) as (E & Hr' & Hu' & ? & ? & ? & ?);
      rewrite (pbind_ret _ _ _ _ _ E); clear E Hr Hu
  | Hr : readable ?s, Hu : unread ?s = ?b0 :: ?b1 :: ?b2 :: ?b3 :: ?r
    |- (pbind (stream_read_u32_le true) _) ?s = _ =>
      let E := fresh in let Hr' := fresh "Hr" in let Hu' := fresh "Hu" in
      destruct (read_u32_le_spec s b0 b1 b2 b3 r Hr Hu) as (E & Hr' & Hu' & ? & ? & ? & ?);
      rewrite (pbind_ret _ _ _ _ _ E); clear E Hr Hu
  end.

(** Close a run: the cursor positions add up. *)
Ltac rd_done := unfold pret; rewrite ?advance_advance, ?advance_0; repeat f_equal; zlist_lia.

(** ** A header written in front of a body that is already there *)
Section patching.
Implicit Types s : wStream.

Lemma set_position_run s p : stream_ok s -> 0 <= p <= capacity s ->
  Stream_SetPosition p s = Ret (true, set_pointer p s).
Proof. intros Hs Hp. unfold Stream_SetPosition, pbind, pget, Stream_Capacity. by replace (_ <? _) with false by lia. Qed.

Lemma set_pointer_ok s p : stream_ok s -> 0 <= p <= capacity s -> stream_ok (set_pointer p s).
Proof. intros []. split; done. Qed.

Lemma seal_run s : stream_ok s -> Stream_SealLength s = Ret (tt, set_length (pointer s) s).
Proof.
  intros []. unfold Stream_SealLength, pbind, pget, passert.
  replace (0 <=? pointer s) with true by lia. by replace (pointer s <=? capacity s) with true by lia.
Qed.

Lemma seek_run s k : stream_ok s -> 0 <= k <= room s -> Stream_Seek k s = Ret (tt, advance s k).
Proof.
  intros Hs Hk. unfold Stream_Seek. rewrite (pbind_ret _ _ _ _ _ (remaining_capacity_spec s Hs)).
  unfold pbind, passert. by replace (k <=? room s) with true by lia.
Qed.

Lemma patch_spec s hdr body :
  stream_ok s -> zlen hdr + zlen body <= room s ->
  set_pointer (pointer s + zlen hdr + zlen body)
    (put_bytes (set_pointer (pointer s) (put_bytes (advance s (zlen hdr)) body)) hdr) =
  put_bytes s (hdr ++ body).
Proof.
  intros [Hb Hc Hl Hp _] Hfit. unfold room in Hfit. destruct s as [buf p l cap c po ia io]. cbn in *.
  unfold put_bytes, set_pointer, set_buffer, advance. cbn. f_equal; [|zlist_lia].
  pose proof (zlen_nonneg hdr). pose proof (zlen_nonneg body).
  zsplit_as p buf as (a & r & -> & Ha & Hr). zsplit_as (zlen hdr) r as (q & r2 & -> & Hq & Hr2).
  zsplit_as (zlen body) r2 as (q2 & r3 & -> & Hq2 & Hr3).
  transitivity (a ++ hdr ++ body ++ r3).
  - rewrite (app_assoc a q), (splice_app (a ++ q) body q2 r3) by zcut_lia. rewrite <- app_assoc.
    by rewrite splice_app by zcut_lia.
  - rewrite (app_assoc q q2 r3), (splice_app a (hdr ++ body) (q ++ q2) r3) by zcut_lia. by rewrite <- app_assoc.
Qed.
End patching.

(** ** UTF-16 strings *)

Definition enc_utf16 (src : list Z) : list Z := concat (map le16 src).

Section utf16.
Lemma zlen_enc_utf16 src : zlen (enc_utf16 src) = 2 * zlen src.
Proof.
  unfold enc_utf16. induction src as [|c src IH]; [done|]. cbn [map concat].
  rewrite zlen_app, zlen_cons, IH. zlist_lia.
Qed.

Lemma write_utf16_emits src : emits_ret (write_utf16_loop src) true (enc_utf16 src).
Proof.
  induction src as [|c src IH]; [apply emits_pret|].
  cbn [write_utf16_loop]. apply (emits_bind _ _ tt _ (le16 c)); [apply emits_u16_le|exact IH].
Qed.

Lemma read_utf16_reads src dst :
  Forall (fun c => 0 <= c < 65536) src ->
  reads_back (read_utf16_loop (length src) dst) (enc_utf16 src) (Some (dst ++ src)).
Proof.
  revert dst. induction src as [|c src IH]; intros dst Hc s r Hr Hu.
  - cbn. rewrite app_nil_r. unfold pret. by rewrite zlen_nil, advance_0.
  - apply Forall_cons in Hc as [Hc Hsrc]. cbn [length read_utf16_loop].
    unfold enc_utf16 in Hu. cbn [map concat] in Hu. rewrite <- app_assoc in Hu.
    destruct (le16_value' c (concat (map le16 src) ++ r) Hc) as (b0 & b1 & He & Hv).
    rewrite He in Hu. rd_step. rewrite Hv.
    rewrite (IH (dst ++ [c]) Hsrc _ r) by done. rewrite <- app_assoc, advance_advance.
    do 3 f_equal. rewrite !zlen_enc_utf16. zlist_lia.
Qed.

Lemma check_length_ex_spec s n k :
  readable s -> 0 < k ->
  Stream_CheckAndLogRequiredLengthEx n k s = Ret (n <=? zlen (unread s) / k, s).
Proof.
  intros Hr Hk. unfold Stream_CheckAndLogRequiredLengthEx. rewrite pbind_passert.
  replace (0 <? k) with true by lia. unfold pbind. rewrite remaining_length_spec by done.
  unfold pret. case_if; repeat f_equal; lia.
Qed.

Lemma check_capacity_ex_spec s n k :
  stream_ok s -> 0 < k ->
  Stream_CheckAndLogRequiredCapacityEx n k s = Ret (n <=? room s / k, s).
Proof.
  intros Hs Hk. unfold Stream_CheckAndLogRequiredCapacityEx. rewrite pbind_passert.
  replace (negb (k =? 0)) with true by lia. unfold pbind. rewrite remaining_capacity_spec by done.
  unfold pret. case_if; repeat f_equal; lia.
Qed.
End utf16.

(** ** Properties *)

(** C36: on a valid stream that owns its buffer, [Stream_EnsureRemainingCapacity] returns (the
    doubling loop ends).  A stream with room for [n] bytes is left as it is.  Otherwise the
    capacity becomes a power of two times the old one, at least the old one and [n]; the cursor
    has not moved, every byte of the old buffer is still there and the new bytes are zero; it fails
    only when the allocator refuses a request of a few times the size that is needed, and leaves
    the stream unchanged. *)
Theorem stream_growth `{Malloc} (s : wStream) (n : Z) :
  growable s -> 0 <= n <= 2 ^ 62 ->
  exists b s', Stream_EnsureRemainingCapacity n s = Ret (b, s') /\
    if b : bool
    then growable s' /\ n <= room s' /\ pointer s' = pointer s /\
         (n <= room s -> s' = s) /\
         (room s < n -> exists j, 0 <= j /\ capacity s' = capacity s * 2 ^ j /\ capacity s + n <= capacity s' < 2 * (capacity s + n) /\
            buffer s' = buffer s ++ zrep (capacity s' - capacity s) 0)
    else room s < n /\ s' = s /\ refused (2 * (pointer s + 2 * n)).
Proof.
  intros Hg Hn. pose proof Hg as (Hs & _). destruct (n <=? room s) eqn:E.
  - exists true, s. rewrite ensure_fits by (done || lia). split_and!; [done|done|lia|done|done|lia].
  - destruct (ensure_exact s n Hg Hn ltac:(lia)) as (c & j & Hj & Hcj & Hcb & ->). pose proof Hs as [Hbuf _ _ Hpo _].
    assert (Hroom : capacity s - pointer s < n) by (unfold room in E; lia). destruct (malloc_ok c) eqn:Em.
    + pose proof (malloc_bound _ Em). destruct (regrow_wrote s c Hg ltac:(lia)) as (Hg' & _).
      eexists true, _. split; [reflexivity|]. split_and!; [done|unfold room; cbn; lia|done|lia|]. intros _. exists j.
      cbn. rewrite ztake_all by lia. split_and!; [done|done|lia|lia|done].
    + exists false, s. split_and!; [done|lia|done|]. exists c. split; [|done]. lia.
Qed.

Lemma stream_growth_witness :
  growable (blank_stream 2) /\
  exists b s', @Stream_EnsureRemainingCapacity malloc_all 5 (blank_stream 2) = Ret (b, s') /\
    b = true /\ capacity s' = 8.
Proof.
  assert (Hg : growable (blank_stream 2)) by (apply blank_stream_growable; lia).
  split; [exact Hg|].
  destruct (@stream_growth malloc_all (blank_stream 2) 5 Hg ltac:(lia)) as (b & s' & Hr & _).
  exists b, s'. split; [exact Hr|]. vm_compute in Hr. injection Hr as <- <-. split; reflexivity.
Defined.

(** Two streams [Stream_EnsureCapacity] does not handle: a stream of capacity 0 (as
    [Stream_StaticInit] makes it from an empty buffer) doubles 0 for ever, and a stream that
    does not own its buffer copies into the result of a [malloc] that was refused. *)
Theorem stream_growth_defects `{Malloc} (s : wStream) (n : Z) :
  stream_ok s -> 0 < n < 2 ^ 62 -> capacity s < pointer s + n ->
  (capacity s = 0 -> Stream_EnsureRemainingCapacity n s = Hang /\
     forall rounds, double_until rounds (capacity s) n = None) /\
  (0 < capacity s -> isOwner s = false -> (forall m, malloc_ok m = false) ->
     Stream_EnsureRemainingCapacity n s = Abort).
Proof.
  intros Hs Hn Hfull. pose proof Hs as []. unfold Stream_EnsureRemainingCapacity.
  split.
  - intros Hc. assert (Hp : pointer s = 0) by lia. split.
    + unfold pbind at 1. rewrite position_spec by done. rewrite pbind_pget.
      unfold Stream_Capacity. rewrite u64_id by lia.
      replace (capacity s <? pointer s + n) with true by lia. rewrite Hc, u64_id by lia.
      unfold Stream_EnsureCapacity. rewrite pbind_pget. rewrite Hc.
      replace (0 <? 0 + n) with true by lia. by rewrite double_until_zero by lia.
    + intros k. rewrite Hc. apply double_until_zero. lia.
  - intros Hc Ho Hm. unfold pbind at 1. rewrite position_spec by done. rewrite pbind_pget.
    unfold Stream_Capacity. rewrite u64_id by lia.
    replace (capacity s <? pointer s + n) with true by lia. rewrite u64_id by lia.
    unfold Stream_EnsureCapacity. rewrite pbind_pget.
    replace (capacity s <? capacity s + n) with true by lia.
    destruct (double_until_spec 65 (capacity s) (capacity s + n)) as (c & -> & _); [lia|lia|lia| |].
    { change (2 ^ Z.of_nat 65) with (2 ^ 63 * 4). nia. }
    unfold pbind. rewrite position_spec by done. by rewrite Ho, Hm.
Qed.

Lemma stream_growth_defects_witness :
  @Stream_EnsureRemainingCapacity malloc_all 1 (Stream_StaticInit [] 0) = Hang.
Proof.
  assert (Hs : stream_ok (Stream_StaticInit [] 0))
    by (split; [reflexivity|cbn; lia|cbn; lia|cbn; lia|constructor]).
  destruct (@stream_growth_defects malloc_all (Stream_StaticInit [] 0) 1 Hs ltac:(lia)
    ltac:(cbn; lia)) as [Hz _].
  exact (proj1 (Hz eq_refl)).
Defined.

(** Moving the cursor and the length keeps a stream valid: an offset beyond the capacity is
    refused and resets the field to 0, any other is stored; sealing sets the length to the
    cursor; checked seeks move the cursor exactly when enough data is left.  Then
    [Stream_EnsureValidity] does not fail. *)
Theorem stream_cursor (s : wStream) (p : Z) :
  stream_ok s -> 0 <= p ->
  (exists s', Stream_SetPosition p s = Ret (p <=? capacity s, s') /\ stream_ok s' /\
     pointer s' = if p <=? capacity s then p else 0) /\
  (exists s', Stream_SetLength p s = Ret (p <=? capacity s, s') /\ stream_ok s' /\
     slength s' = if p <=? capacity s then p else 0) /\
  (exists s', Stream_SealLength s = Ret (tt, s') /\ readable s' /\ slength s' = pointer s) /\
  (pointer s <= slength s ->
     Stream_SafeSeekEx p s =
       if pointer s + p <=? slength s then Ret (true, advance s p) else Ret (false, s)) /\
  Stream_EnsureValidity s = Ret (tt, s).
Proof.
  intros Hs Hp. pose proof Hs as []. split_and!.
  - unfold Stream_SetPosition, Stream_Capacity, pbind, pget, pput, pret.
    destruct (p <=? capacity s) eqn:E; [replace (capacity s <? p) with false by lia|
      replace (capacity s <? p) with true by lia]; eexists; (split; [reflexivity|]); split; try done;
      split; cbn; done || lia.
  - unfold Stream_SetLength, Stream_Capacity, pbind, pget, pput, pret.
    destruct (p <=? capacity s) eqn:E; [replace (capacity s <? p) with false by lia|
      replace (capacity s <? p) with true by lia]; eexists; (split; [reflexivity|]); split; try done;
      split; cbn; done || lia.
  - unfold Stream_SealLength, pbind, pget, pput, passert. eexists.
    replace (0 <=? pointer s) with true by lia. replace (pointer s <=? capacity s) with true by lia.
    split; [reflexivity|]. split; [|done]. split; [split|]; cbn; done || lia.
  - intros Hle. assert (Hr : readable s) by done.
    unfold Stream_SafeSeekEx.
    rewrite (pbind_ret _ _ _ _ _ (check_length_ex_spec s p 1 Hr ltac:(lia))).
    rewrite Z.div_1_r, zlen_unread by done.
    replace (p <=? slength s - pointer s) with (pointer s + p <=? slength s) by lia.
    destruct (pointer s + p <=? slength s) eqn:E; cbn [negb]; [|done].
    unfold pbind. by rewrite seek_spec by (done || rewrite zlen_unread by done; lia).
  - unfold Stream_EnsureValidity, pbind, pget, passert.
    replace (0 <=? pointer s) with true by lia. replace (pointer s <=? capacity s) with true by lia.
    by replace (slength s <=? capacity s) with true by lia.
Qed.

Lemma stream_cursor_witness :
  exists s', Stream_SetPosition 9 (blank_stream 4) = Ret (false, s') /\ pointer s' = 0.
Proof.
  assert (Hs : stream_ok (blank_stream 4)) by (apply blank_stream_growable; lia).
  destruct (stream_cursor (blank_stream 4) 9 Hs ltac:(lia)) as ((s' & Hp & _ & Hv) & _).
  exists s'. split; [exact Hp|exact Hv].
Defined.

(** A UTF-16 string written with [Stream_Write_UTF16_String] is read back by
    [Stream_Read_UTF16_String]; without room, or with too little data, each returns FALSE and
    leaves the stream alone. *)
Theorem utf16_roundtrip (src : list Z) :
  Forall (fun c => 0 <= c < 65536) src ->
  emits_ret (Stream_Write_UTF16_String src) true (enc_utf16 src) /\
  reads_back (Stream_Read_UTF16_String (length src)) (enc_utf16 src) (Some src) /\
  (forall s, stream_ok s -> room s < zlen (enc_utf16 src) ->
     Stream_Write_UTF16_String src s = Ret (false, s)) /\
  (forall s, readable s -> zlen (unread s) < zlen (enc_utf16 src) ->
     Stream_Read_UTF16_String (length src) s = Ret (None, s)).
Proof.
  intros Hc. pose proof (zlen_enc_utf16 src) as Hz.
  assert (Hlen : Z.of_nat (length src) = zlen src) by done. split_and!.
  - destruct (write_utf16_emits src) as [Hb Hw]. split; [done|]. intros s Hs Hfit.
    unfold Stream_Write_UTF16_String.
    rewrite (pbind_ret _ _ _ _ _ (check_capacity_ex_spec s (zlen src) 2 Hs ltac:(lia))).
    replace (zlen src <=? room s / 2) with true by (Z.div_mod_to_equations; lia). by apply Hw.
  - intros s r Hr Hu. unfold Stream_Read_UTF16_String. rewrite Hlen.
    rewrite (pbind_ret _ _ _ _ _ (check_length_ex_spec s (zlen src) 2 Hr ltac:(lia))).
    replace (zlen src <=? zlen (unread s) / 2) with true
      by (rewrite Hu, zlen_app; pose proof (zlen_nonneg r); Z.div_mod_to_equations; lia).
    by apply (read_utf16_reads src [] Hc s r).
  - intros s Hs Hroom. unfold Stream_Write_UTF16_String.
    rewrite (pbind_ret _ _ _ _ _ (check_capacity_ex_spec s (zlen src) 2 Hs ltac:(lia))).
    by replace (zlen src <=? room s / 2) with false by (Z.div_mod_to_equations; lia).
  - intros s Hr Hu. unfold Stream_Read_UTF16_String. rewrite Hlen.
    rewrite (pbind_ret _ _ _ _ _ (check_length_ex_spec s (zlen src) 2 Hr ltac:(lia))).
    by replace (zlen src <=? zlen (unread s) / 2) with false by (Z.div_mod_to_equations; lia).
Qed.

Lemma utf16_roundtrip_witness :
  reads_back (Stream_Read_UTF16_String 2) [65; 0; 172; 32] (Some [65; 8364]).
Proof.
  apply (utf16_roundtrip [65; 8364]). repeat constructor; lia.
Defined.
