(* ===== verification/Per.v ===== *)
(** * ASN.1 packed encoding rules: [libfreerdp/crypto/per.c]

    A reader returns [None] for FALSE and [Some v] for TRUE with its out-parameter set to
    [v]; a writer returns its BOOL.  The GCC conference exchange and every MCS domain PDU
    of a connection pass through these functions. *)

From S2P Require Import Prelude Memory Stream.

Definition per_read_length : Prog wStream (option Z) :=
  ok <- Stream_CheckAndLogRequiredLength 1 ;;
  if negb ok then pret None else
  byte <- stream_read_u8 true ;;
  if negb (Z.land byte 128 =? 0) then
    ok <- Stream_CheckAndLogRequiredLength 1 ;;
    if negb ok then pret None else
    let byte := u8 (Z.land byte (Z.lnot 128)) in
    let length := u16 (Z.shiftl byte 8) in
    byte <- stream_read_u8 true ;;
    pret (Some (u16 (length + byte)))
  else pret (Some byte).

Definition per_write_length `{Malloc} (length : Z) : Prog wStream bool :=
  if 127 <? length then
    ok <- Stream_EnsureRemainingCapacity 2 ;;
    if negb ok then pret false else
    (Stream_Write_UINT16_BE (Z.lor length 32768) ;; pret true)
  else
    ok <- Stream_EnsureRemainingCapacity 1 ;;
    if negb ok then pret false else
    (Stream_Write_UINT8 (u8 length) ;; pret true).

(** [per_read_choice], [per_read_selection] and [per_read_number_of_sets] read one octet. *)
Definition per_read_choice : Prog wStream (option Z) :=
  ok <- Stream_CheckAndLogRequiredLength 1 ;;
  if negb ok then pret None else
  choice <- stream_read_u8 true ;; pret (Some choice).

Definition per_write_choice `{Malloc} (choice : Z) : Prog wStream bool :=
  ok <- Stream_EnsureRemainingCapacity 1 ;;
  if negb ok then pret false else
  (Stream_Write_UINT8 choice ;; pret true).

Definition per_read_selection : Prog wStream (option Z) :=
  ok <- Stream_CheckAndLogRequiredLength 1 ;;
  if negb ok then pret None else
  selection <- stream_read_u8 true ;; pret (Some selection).

Definition per_write_selection `{Malloc} (selection : Z) : Prog wStream bool :=
  ok <- Stream_EnsureRemainingCapacity 1 ;;
  if negb ok then pret false else
  (Stream_Write_UINT8 selection ;; pret true).

Definition per_read_number_of_sets : Prog wStream (option Z) :=
  ok <- Stream_CheckAndLogRequiredLength 1 ;;
  if negb ok then pret None else
  number <- stream_read_u8 true ;; pret (Some number).

Definition per_write_number_of_sets `{Malloc} (number : Z) : Prog wStream bool :=
  ok <- Stream_EnsureRemainingCapacity 1 ;;
  if negb ok then pret false else
  (Stream_Write_UINT8 number ;; pret true).

Definition per_read_padding (length : Z) : Prog wStream bool :=
  ok <- Stream_CheckAndLogRequiredLength length ;;
  if negb ok then pret false else
  Stream_Seek length ;; pret true.

Definition per_write_padding `{Malloc} (length : Z) : Prog wStream bool :=
  ok <- Stream_EnsureRemainingCapacity length ;;
  if negb ok then pret false else
  (Stream_Zero length ;; pret true).

Definition per_read_integer : Prog wStream (option Z) :=
  l <- per_read_length ;;
  match l with
  | None => pret None
  | Some length =>
      ok <- Stream_CheckAndLogRequiredLength length ;;
      if negb ok then pret None else
      if length =? 0 then pret (Some 0)
      else if length =? 1 then v <- stream_read_u8 true ;; pret (Some v)
      else if length =? 2 then v <- stream_read_u16_be true ;; pret (Some v)
      else pret None
  end.

Definition per_write_integer `{Malloc} (integer : Z) : Prog wStream bool :=
  if integer <=? UINT8_MAX then
    ok <- per_write_length 1 ;;
    if negb ok then pret false else
    ok <- Stream_EnsureRemainingCapacity 1 ;;
    if negb ok then pret false else
    (Stream_Write_UINT8 (u8 integer) ;; pret true)
  else if integer <=? UINT16_MAX then
    ok <- per_write_length 2 ;;
    if negb ok then pret false else
    ok <- Stream_EnsureRemainingCapacity 2 ;;
    if negb ok then pret false else
    (Stream_Write_UINT16_BE (u16 integer) ;; pret true)
  else if integer <=? UINT32_MAX then
    ok <- per_write_length 4 ;;
    if negb ok then pret false else
    ok <- Stream_EnsureRemainingCapacity 4 ;;
    if negb ok then pret false else
    (Stream_Write_UINT32_BE integer ;; pret true)
  else pret true.

Definition per_read_integer16 (min : Z) : Prog wStream (option Z) :=
  ok <- Stream_CheckAndLogRequiredLength 2 ;;
  if negb ok then pret None else
  integer <- stream_read_u16_be true ;;
  if UINT16_MAX - min <? integer then pret None
  else pret (Some (u16 (integer + min))).

Definition per_write_integer16 `{Malloc} (integer min : Z) : Prog wStream bool :=
  ok <- Stream_EnsureRemainingCapacity 2 ;;
  if negb ok then pret false else
  (Stream_Write_UINT16_BE (u16 (integer - min)) ;; pret true).

Definition per_read_enumerated (count : Z) : Prog wStream (option Z) :=
  ok <- Stream_CheckAndLogRequiredLength 1 ;;
  if negb ok then pret None else
  enumerated <- stream_read_u8 true ;;
  if count <? enumerated + 1 then pret None else pret (Some enumerated).

Definition per_write_enumerated `{Malloc} (enumerated count : Z) : Prog wStream bool :=
  ok <- Stream_EnsureRemainingCapacity 1 ;;
  if negb ok then pret false else
  (Stream_Write_UINT8 enumerated ;; pret true).

(** [memcmp (got, expect, length) == 0] over two arrays of [length] bytes. *)
Definition per_check_oid_and_log_mismatch (got expect : list Z) : bool :=
  bool_decide (got = expect).

Definition per_read_object_identifier (oid : list Z) : Prog wStream bool :=
  l <- per_read_length ;;
  match l with
  | None => pret false
  | Some length =>
      if negb (length =? 5) then pret false else
      ok <- Stream_CheckAndLogRequiredLength length ;;
      if negb ok then pret false else
      t12 <- stream_read_u8 true ;;
      a2 <- stream_read_u8 true ;;
      a3 <- stream_read_u8 true ;;
      a4 <- stream_read_u8 true ;;
      a5 <- stream_read_u8 true ;;
      pret (per_check_oid_and_log_mismatch [t12 / 40; t12 mod 40; a2; a3; a4; a5] oid)
  end.

Definition per_write_object_identifier `{Malloc} (oid : list Z) : Prog wStream bool :=
  let o i := nth i oid 0 in
  let t12 := u8 (o 0%nat * 40 + o 1%nat) in
  ok <- Stream_EnsureRemainingCapacity 6 ;;
  if negb ok then pret false else
  ((Stream_Write_UINT8 5 ;;
    Stream_Write_UINT8 t12 ;;
    Stream_Write_UINT8 (o 2%nat) ;;
    Stream_Write_UINT8 (o 3%nat) ;;
    Stream_Write_UINT8 (o 4%nat) ;;
    Stream_Write_UINT8 (o 5%nat)) ;;
   pret true).

(** [for (i = 0; i < length; i++) Stream_Write_UINT8 (s, str[i]);] for an array [str] of
    [length] bytes. *)
Fixpoint per_write_string (str : list Z) : Prog wStream unit :=
  match str with
  | [] => pret tt
  | b :: str' => Stream_Write_UINT8 b ;; per_write_string str'
  end.

Definition per_read_octet_string (oct_str : list Z) (min : Z) : Prog wStream bool :=
  let length := zlen oct_str in
  l <- per_read_length ;;
  match l with
  | None => pret false
  | Some mlength =>
      if negb (mlength + min =? length) then pret false else
      ok <- Stream_CheckAndLogRequiredLength length ;;
      if negb ok then pret false else
      a_oct_str <- load_bytes length ;;
      Stream_Seek length ;;
      pret (per_check_oid_and_log_mismatch a_oct_str oct_str)
  end.

Definition per_write_octet_string `{Malloc} (oct_str : list Z) (min : Z) : Prog wStream bool :=
  let length := zlen oct_str in
  let mlength := if min <=? length then length - min else min in
  ok <- per_write_length mlength ;;
  if negb ok then pret false else
  ok <- Stream_EnsureRemainingCapacity length ;;
  if negb ok then pret false else
  (per_write_string oct_str ;; pret true).

Definition per_read_numeric_string (min : Z) : Prog wStream bool :=
  l <- per_read_length ;;
  match l with
  | None => pret false
  | Some mlength =>
      let length := (mlength + min + 1) / 2 in
      ok <- Stream_CheckAndLogRequiredLength length ;;
      if negb ok then pret false else
      Stream_Seek length ;; pret true
  end.

(** The two digits of one octet: [c = (c - 0x30) % 10] truncates towards zero and is stored
    in a BYTE. *)
Definition numeric_digit (c : Z) : Z := u8 (Z.rem (c - 48) 10).
Definition numeric_pair (c1 c2 : Z) : Z :=
  u8 (Z.lor (Z.shiftl (numeric_digit c1) 4) (numeric_digit c2)).

(** [for (UINT16 i = 0; i < length; i += 2)]: the index is 16 bits wide and wraps.  Each round
    stores one octet, so the loop ends, by its bound or by the capacity assertion, within one
    round more than the room of the stream. *)
Fixpoint numeric_loop (fuel : nat) (num_str : list Z) (length i : Z) : Prog wStream unit :=
  match fuel with
  | O => fun _ => Hang
  | S f =>
      if i <? length then
        match num_str !! Z.to_nat i with
        | None => fun _ => Abort
        | Some c1 =>
            match (if i + 1 <? length then num_str !! Z.to_nat (i + 1) else Some 48) with
            | None => fun _ => Abort
            | Some c2 =>
                Stream_Write_UINT8 (numeric_pair c1 c2) ;;
                numeric_loop f num_str length (u16 (i + 2))
            end
        end
      else pret tt
  end.

Definition per_write_numeric_string `{Malloc} (num_str : list Z) (min : Z) : Prog wStream bool :=
  let length := zlen num_str in
  let mlength := if min <=? length then length - min else min in
  ok <- per_write_length mlength ;;
  if negb ok then pret false else
  ok <- Stream_EnsureRemainingCapacity length ;;
  if negb ok then pret false else
  (s <- pget ;; numeric_loop (Z.to_nat (room s) + 2) num_str length 0) ;; pret true.

(** ** Encodings *)

(** Octets of a PER length: one for values below 128, two with the top bit set otherwise. *)
Definition enc_length (n : Z) : list Z := if 127 <? n then be16 (n + 32768) else [n].

Section per_length.
Context `{Malloc}.

Lemma lor_32768 n : 0 <= n < 32768 -> Z.lor n 32768 = n + 32768.
Proof.
  intros. rewrite Z.lor_comm. change 32768 with (1 * 2 ^ 15). rewrite lor_add by lia. lia.
Qed.

(** [per_read_length] on every input. *)
Lemma per_read_length_run s :
  readable s ->
  per_read_length s =
    match unread s with
    | [] => Ret (None, s)
    | b :: r =>
        if b <? 128 then Ret (Some b, advance s 1)
        else match r with
             | [] => Ret (None, advance s 1)
             | b' :: _ => Ret (Some ((b - 128) * 256 + b'), advance s 2)
             end
    end.
Proof.
  intros Hr. unfold per_read_length. destruct (unread s) as [|b r] eqn:Hu; rd_step; [done|].
  replace (1 <=? zlen (b :: r)) with true by zlist_lia. rd_step.
  rewrite land_128 by done. destruct (b <? 128) eqn:E; cbn [negb]; [done|].
  destruct r as [|b' r]; rd_step; [done|].
  replace (1 <=? zlen (b' :: r)) with true by zlist_lia. cbv zeta. rd_step.
  rewrite land_lnot_128, shiftl_mul by (done || lia). unfold pret.
  rewrite advance_advance. unfold is_byte in *.
  assert (b mod 128 = b - 128) as -> by (Z.div_mod_to_equations; lia).
  rewrite (u16_id ((b - 128) * 2 ^ 8)), u16_id by lia. done.
Qed.

Lemma per_write_length_writes n :
  0 <= n < 32768 -> writes (per_write_length n) (zlen (enc_length n)) (enc_length n).
Proof.
  intros Hn. unfold per_write_length, enc_length. case_if.
  - rewrite lor_32768 by lia.
    apply writes_ensure; [zlist_lia|zlist_lia|auto with zlist].
  - rewrite u8_id by (unfold is_byte; lia).
    apply writes_ensure; [zlist_lia|zlist_lia|]. apply emits_u8. unfold is_byte. lia.
Qed.

Lemma per_read_length_enc n :
  0 <= n < 32768 -> reads_back per_read_length (enc_length n) (Some n).
Proof.
  intros Hn s r Hr Hu. rewrite per_read_length_run, Hu by done. unfold enc_length.
  destruct (127 <? n) eqn:E; cbn.
  - replace ((n + 32768) / 256 mod 256) with (n / 256 + 128)
      by (Z.div_mod_to_equations; lia).
    replace (n / 256 + 128 <? 128) with false by (Z.div_mod_to_equations; lia).
    rewrite zlen_be16. repeat f_equal. Z.div_mod_to_equations. lia.
  - replace (n <? 128) with true by lia. done.
Qed.

#[export] Instance per_length_format :
  WireFormat per_write_length per_read_length (fun n => 0 <= n < 32768) enc_length.
Proof. split; auto using per_write_length_writes, per_read_length_enc. Qed.
End per_length.

(** ** Readers stay inside the stream *)

Section per_safe.
Lemma per_read_length_safe s : readable s -> safe_at per_read_length s.
Proof. intros. unfold per_read_length. solve_safe. Qed.

(** The length read by [per_read_length] is a UINT16. *)
Lemma per_read_length_bound s :
  readable s ->
  exists r k, per_read_length s = Ret (r, advance s k) /\ 0 <= k <= zlen (unread s) /\
    forall n, r = Some n -> 0 <= n < 65536.
Proof.
  intros Hr. rewrite per_read_length_run by done. pose proof (unread_bytes s Hr) as HB.
  destruct (unread s) as [|b r]; [exists None, 0; rewrite advance_0; done|].
  apply Forall_cons in HB as [Hb HB]. unfold is_byte in *. destruct (b <? 128) eqn:E.
  - exists (Some b), 1. split_and!; [done|lia|zlist_lia|]. intros. simplify_eq. lia.
  - destruct r as [|b' r]; [exists None, 1; split_and!; [done|lia|zlist_lia|done]|].
    apply Forall_cons in HB as [Hb' _].
    exists (Some ((b - 128) * 256 + b')), 2. split_and!; [done|lia|zlist_lia|].
    intros. simplify_eq. lia.
Qed.

(** Continuing after the length of a field. *)
Lemma safe_length {A} (f : option Z -> Prog wStream A) s :
  readable s ->
  (forall k, readable (advance s k) -> safe_at (f None) (advance s k)) ->
  (forall n k, 0 <= n < 65536 -> readable (advance s k) -> safe_at (f (Some n)) (advance s k)) ->
  safe_at (pbind per_read_length f) s.
Proof.
  intros Hr HN HS. eapply safe_bind_post; [by apply per_read_length_bound|done|].
  intros [n|] k Hn Hrk; cbn in *; auto.
Qed.

Lemma per_read_integer_safe s : readable s -> safe_at per_read_integer s.
Proof.
  intros. apply safe_length; [done|intros; solve_safe|]. intros n k Hn Hr.
  repeat first [safe_step | lia].
Qed.

Lemma per_read_object_identifier_safe oid s :
  readable s -> safe_at (per_read_object_identifier oid) s.
Proof.
  intros. apply safe_length; [done|intros; solve_safe|]. intros n k Hn Hr. solve_safe.
Qed.

Lemma per_read_octet_string_safe oct min s :
  readable s -> safe_at (per_read_octet_string oct min) s.
Proof.
  intros. apply safe_length; [done|intros; solve_safe|]. intros n k Hn Hr.
  pose proof (zlen_nonneg oct). solve_safe.
Qed.

Lemma per_read_numeric_string_safe min s :
  0 <= min -> readable s -> safe_at (per_read_numeric_string min) s.
Proof.
  intros Hmin Hr0. apply safe_length; [done|intros; solve_safe|]. intros n k Hn Hr. cbv zeta.
  assert (0 <= (n + min + 1) / 2) by (apply Z.div_pos; lia). solve_safe.
Qed.
End per_safe.

(** ** Encodings of the other types *)

Definition enc_integer (v : Z) : list Z :=
  if v <=? UINT8_MAX then [1; v]
  else if v <=? UINT16_MAX then 2 :: be16 v
  else 4 :: be32 v.

(** Two digits to an octet; an odd digit count is completed with ['0']. *)
Fixpoint enc_digits (l : list Z) : list Z :=
  match l with
  | [] => []
  | [c] => [numeric_pair c 48]
  | c1 :: c2 :: l' => numeric_pair c1 c2 :: enc_digits l'
  end.

Definition enc_oid (oid : list Z) : list Z :=
  [5; nth 0 oid 0 * 40 + nth 1 oid 0; nth 2 oid 0; nth 3 oid 0; nth 4 oid 0; nth 5 oid 0].

Section per_writers.
Context `{Malloc}.

Lemma octet_format :
  WireFormat per_write_choice per_read_choice is_byte (fun b => [b]).
Proof.
  split; intros b Hb.
  - apply writes_ensure; [zlist_lia|zlist_lia|by apply emits_u8].
  - intros s r Hr Hu. cbn in Hu. unfold per_read_choice. rd_step.
    replace (1 <=? zlen (b :: r)) with true by zlist_lia. rd_step. done.
Qed.

Lemma per_write_integer_writes v :
  0 <= v <= UINT32_MAX -> writes (per_write_integer v) (zlen (enc_integer v)) (enc_integer v).
Proof.
  unfold UINT32_MAX. intros Hv. unfold per_write_integer, enc_integer, UINT8_MAX, UINT16_MAX.
  destruct (v <=? 255) eqn:E1; [|destruct (v <=? 65535) eqn:E2].
  - rewrite u8_id by (unfold is_byte; lia).
    apply (writes_seq (per_write_length 1) _ 1 1 [1] [v]);
      [apply (per_write_length_writes 1); lia|].
    apply writes_ensure; [lia|zlist_lia|]. apply emits_u8. unfold is_byte. lia.
  - rewrite u16_id by lia.
    apply (writes_seq (per_write_length 2) _ 1 2 [2] (be16 v));
      [apply (per_write_length_writes 2); lia|].
    apply writes_ensure; [lia|zlist_lia|auto with zlist].
  - replace (v <=? UINT32_MAX) with true by (unfold UINT32_MAX; lia).
    apply (writes_seq (per_write_length 4) _ 1 4 [4] (be32 v));
      [apply (per_write_length_writes 4); lia|].
    apply writes_ensure; [lia|zlist_lia|auto with zlist].
Qed.

(** Every length below 128 is one octet. *)
Lemma per_read_length_short n : 0 <= n < 128 -> reads_back per_read_length [n] (Some n).
Proof.
  intros Hn. replace [n] with (enc_length n)
    by (unfold enc_length; by replace (127 <? n) with false by lia).
  apply per_read_length_enc. lia.
Qed.

Lemma per_read_integer_enc v :
  0 <= v <= UINT16_MAX -> reads_back per_read_integer (enc_integer v) (Some v).
Proof.
  unfold UINT16_MAX. intros Hv s r Hr Hu. unfold enc_integer, UINT8_MAX, UINT16_MAX in *.
  unfold per_read_integer.
  destruct (v <=? 255) eqn:E1; [|replace (v <=? 65535) with true in * by lia].
  - change (unread s = [1] ++ v :: r) in Hu. rd_sub (per_read_length_short 1 ltac:(lia)) Hr Hu.
    rd_step.
    replace (1 <=? zlen (v :: r)) with true by zlist_lia. cbn [Z.eqb Pos.eqb].
    rd_step. rd_done.
  - change (unread s = [2] ++ be16 v ++ r) in Hu. rd_sub (per_read_length_short 2 ltac:(lia)) Hr Hu.
    destruct (be16_value' v r) as (b0 & b1 & He & Hb); [lia|].
    rewrite He in Hu0. rd_step.
    replace (2 <=? zlen (b0 :: b1 :: r)) with true by zlist_lia.
    cbn [Z.eqb Pos.eqb]. rd_step. rewrite Hb. rd_done.
Qed.

Lemma per_read_integer_wide v s r :
  UINT16_MAX < v -> readable s -> unread s = enc_integer v ++ r ->
  per_read_integer s = Ret (None, advance s 1).
Proof.
  unfold enc_integer, UINT16_MAX, UINT8_MAX. intros Hv Hr Hu.
  replace (v <=? 255) with false in Hu by lia. replace (v <=? 65535) with false in Hu by lia.
  unfold per_read_integer. change (unread s = [4] ++ be32 v ++ r) in Hu. rd_sub (per_read_length_short 4 ltac:(lia)) Hr Hu.
  rd_step. by destruct (4 <=? zlen _).
Qed.

Lemma integer16_format min :
  0 <= min <= UINT16_MAX ->
  WireFormat (fun v => per_write_integer16 v min) (per_read_integer16 min)
    (fun v => min <= v <= UINT16_MAX) (fun v => be16 (v - min)).
Proof.
  unfold UINT16_MAX. intros Hm. split; intros v Hv.
  - unfold per_write_integer16. rewrite u16_id by lia.
    apply writes_ensure; [zlist_lia|zlist_lia|auto with zlist].
  - intros s r Hr Hu. destruct (be16_value' (v - min) r) as (b0 & b1 & He & Hb); [lia|].
    rewrite He in Hu. unfold per_read_integer16. rd_step.
    replace (2 <=? zlen (b0 :: b1 :: r)) with true by zlist_lia. rd_step. rewrite Hb.
    unfold UINT16_MAX. replace (65535 - min <? v - min) with false by lia.
    rewrite u16_id by lia. rewrite zlen_be16. unfold pret. repeat f_equal. lia.
Qed.

Lemma enumerated_format count :
  0 <= count <= 255 ->
  WireFormat (fun v => per_write_enumerated v count) (per_read_enumerated count)
    (fun v => 0 <= v < count) (fun v => [v]).
Proof.
  intros Hc. split; intros v Hv.
  - apply writes_ensure; [zlist_lia|zlist_lia|]. apply emits_u8. unfold is_byte. lia.
  - intros s r Hr Hu. cbn in Hu. unfold per_read_enumerated. rd_step.
    replace (1 <=? zlen (v :: r)) with true by zlist_lia. rd_step.
    by replace (count <? v + 1) with false by lia.
Qed.
End per_writers.

Section per_strings.
Context `{Malloc}.

Lemma emits_string l : Forall is_byte l -> emits (per_write_string l) l.
Proof.
  induction 1 as [|b l Hb Hl IH]; [apply emits_pret|].
  apply (emits_seq _ _ [b] l); [by apply emits_u8|done].
Qed.

Lemma per_write_octet_string_writes oct min :
  Forall is_byte oct -> 0 <= min <= zlen oct -> zlen oct - min < 32768 ->
  zlen oct <= UINT16_MAX ->
  writes (per_write_octet_string oct min)
    (zlen (enc_length (zlen oct - min) ++ oct)) (enc_length (zlen oct - min) ++ oct).
Proof.
  unfold UINT16_MAX. intros Hb Hm Hl Hw. unfold per_write_octet_string.
  replace (min <=? zlen oct) with true by lia.
  pose proof (per_write_length_writes (zlen oct - min)) as Hlen.
  assert (Hs : writes
      (ok <- Stream_EnsureRemainingCapacity (zlen oct) ;;
       if negb ok then pret false else (per_write_string oct ;; pret true)) (zlen oct) oct)
    by (apply writes_ensure; [zlist_lia|lia|by apply emits_string]).
  pose proof (writes_seq _ _ _ _ _ _ (Hlen ltac:(lia)) Hs) as Hseq.
  rewrite Z.max_r in Hseq by zlist_lia. by rewrite zlen_app.
Qed.

Lemma per_read_octet_string_enc oct min :
  0 <= min <= zlen oct -> zlen oct - min < 32768 ->
  reads_back (per_read_octet_string oct min) (enc_length (zlen oct - min) ++ oct) true.
Proof.
  intros Hm Hl s r Hr Hu. rewrite <- app_assoc in Hu. unfold per_read_octet_string.
  rd_sub (per_read_length_enc (zlen oct - min) ltac:(lia)) Hr Hu.
  replace (zlen oct - min + min =? zlen oct) with true by lia. cbn [negb].
  rd_step.
  replace (zlen oct <=? zlen (oct ++ r)) with true by zlist_lia. cbn [negb].
  rewrite (pbind_ret _ _ _ oct (advance s (zlen (enc_length (zlen oct - min))))).
  - rewrite (pbind_ret _ _ _ tt (advance (advance s (zlen (enc_length (zlen oct - min))))
                                   (zlen oct))).
    + unfold per_check_oid_and_log_mismatch. rewrite bool_decide_true by done.
      rewrite advance_advance. unfold pret. repeat f_equal. zlist_lia.
    + apply seek_spec; [done|]. rewrite Hu0. zlist_lia.
  - rewrite load_bytes_spec; [|done|rewrite Hu0; zlist_lia].
    rewrite Hu0, ztake_app, ztake_all, ztake_0 by lia. by rewrite app_nil_r.
Qed.

(** Exactly the expected octets are accepted. *)
Lemma per_read_octet_string_inv oct min s s' :
  readable s -> per_read_octet_string oct min s = Ret (true, s') ->
  exists h, s' = advance s (zlen h + zlen oct) /\ (h ++ oct) `prefix_of` unread s.
Proof.
  intros Hr. unfold per_read_octet_string, pbind.
  rewrite per_read_length_run by done.
  assert (Hgo : forall n k, readable (advance s k) -> 0 <= k <= zlen (unread s) ->
    (if negb (n + min =? zlen oct) then pret false else
     ok <- Stream_CheckAndLogRequiredLength (zlen oct) ;;
     if negb ok then pret false else
     a_oct_str <- load_bytes (zlen oct) ;;
     Stream_Seek (zlen oct) ;;
     pret (per_check_oid_and_log_mismatch a_oct_str oct)) (advance s k) = Ret (true, s') ->
    exists h, s' = advance s (zlen h + zlen oct) /\ (h ++ oct) `prefix_of` unread s).
  { intros n k Hrk Hk. destruct (n + min =? zlen oct); cbn [negb]; [|done].
    unfold pbind. rewrite check_length_spec by done.
    destruct (zlen oct <=? zlen (unread (advance s k))) eqn:E; cbn [negb]; [|done].
    rewrite load_bytes_spec, seek_spec by (done || zlist_lia).
    unfold per_check_oid_and_log_mismatch, pret.
    case_bool_decide as Heq; [|done]. intros [= <-].
    exists (ztake k (unread s)). rewrite zlen_ztake.
    split; [rewrite advance_advance; f_equal; lia|].
    rewrite <- (ztake_zdrop_app k (unread s)) at 2. apply prefix_app.
    rewrite unread_advance in Heq by (done || lia). rewrite <- Heq.
    unfold ztake. apply prefix_take. }
  pose proof (unread_bytes s Hr) as HB.
  destruct (unread s) as [|b r] eqn:Hu; [done|].
  apply Forall_cons in HB as [Hb HB].
  destruct (b <? 128).
  - apply (Hgo b 1); [apply readable_advance; [done|rewrite Hu]|]; zlist_lia.
  - destruct r as [|b' r]; [done|].
    apply (Hgo _ 2); [apply readable_advance; [done|rewrite Hu]|]; zlist_lia.
Qed.
End per_strings.

Section per_oid_numeric.
Context `{Malloc}.

Lemma oid_writes oid :
  length oid = 6%nat -> Forall is_byte oid -> nth 0 oid 0 * 40 + nth 1 oid 0 < 256 ->
  writes (per_write_object_identifier oid) 6 (enc_oid oid).
Proof.
  intros Hlen Hb Hsum.
  destruct oid as [|a [|b [|c [|d [|e [|f [|]]]]]]]; try discriminate Hlen. clear Hlen.
  rewrite !Forall_cons in Hb. destruct Hb as (Ha & Hb & Hc & Hd & He & Hf & _).
  unfold per_write_object_identifier. cbv zeta. cbn [nth] in *. unfold is_byte in *.
  rewrite u8_id by (unfold is_byte; lia).
  apply writes_ensure; [lia|done|]. unfold enc_oid. cbn [nth].
  change [5; a * 40 + b; c; d; e; f] with ([5] ++ [a * 40 + b] ++ [c] ++ [d] ++ [e] ++ [f]).
  repeat first [apply emits_seq | apply emits_u8; unfold is_byte; lia].
Qed.

Lemma oid_reads oid :
  length oid = 6%nat -> Forall is_byte oid -> nth 0 oid 0 * 40 + nth 1 oid 0 < 256 ->
  nth 1 oid 0 < 40 ->
  reads_back (per_read_object_identifier oid) (enc_oid oid) true.
Proof.
  intros Hlen Hby Hsum H1 s r Hr Hu.
  destruct oid as [|a [|b [|c [|d [|e [|f [|]]]]]]]; try discriminate Hlen. clear Hlen.
  rewrite !Forall_cons in Hby. destruct Hby as (Ha & Hb & _). cbn [nth] in *.
  unfold is_byte in *. unfold enc_oid in Hu. cbn [nth] in Hu.
  change (unread s = [5] ++ [a * 40 + b; c; d; e; f] ++ r) in Hu.
  unfold per_read_object_identifier. rd_sub (per_read_length_short 5 ltac:(lia)) Hr Hu.
  cbn [Z.eqb Pos.eqb negb app] in *. rd_step.
  replace (5 <=? zlen (a * 40 + b :: c :: d :: e :: f :: r)) with true by zlist_lia.
  do 5 rd_step. unfold per_check_oid_and_log_mismatch.
  replace ((a * 40 + b) / 40) with a by (Z.div_mod_to_equations; lia).
  replace ((a * 40 + b) mod 40) with b by (Z.div_mod_to_equations; lia).
  rewrite bool_decide_true by done. rd_done.
Qed.

Lemma numeric_pair_byte a b : is_byte (numeric_pair a b).
Proof. apply u8_byte. Qed.

Lemma enc_digits_bytes l : Forall is_byte (enc_digits l).
Proof.
  induction l as [l IH] using (induction_ltof1 _ (@length Z)). unfold ltof in IH.
  destruct l as [|a [|b l]]; cbn; auto using numeric_pair_byte.
  apply Forall_cons. split; [apply numeric_pair_byte|]. apply IH. cbn. lia.
Qed.

Lemma zlen_enc_digits l : zlen (enc_digits l) = (zlen l + 1) / 2.
Proof.
  induction l as [l IH] using (induction_ltof1 _ (@length Z)). unfold ltof in IH.
  destruct l as [|a [|b l]]; [done|done|]. cbn [enc_digits]. rewrite !zlen_cons.
  rewrite IH by (cbn; lia). Z.div_mod_to_equations. lia.
Qed.

(** The loop stores the digits from index [i] on. *)
Lemma numeric_loop_run fuel num i s :
  zlen num < 65535 -> 0 <= i -> stream_ok s ->
  zlen (enc_digits (zdrop i num)) <= room s ->
  zlen (enc_digits (zdrop i num)) < Z.of_nat fuel ->
  numeric_loop fuel num (zlen num) i s = Ret (tt, put_bytes s (enc_digits (zdrop i num))).
Proof.
  revert i s. induction fuel as [|fuel IH]; intros i s Hlen Hi Hs Hroom Hf.
  { pose proof (zlen_nonneg (enc_digits (zdrop i num))). lia. }
  cbn [numeric_loop]. destruct (i <? zlen num) eqn:E.
  2: { rewrite zdrop_all by lia. cbn. by rewrite put_bytes_nil. }
  destruct (zdrop i num) as [|c1 rest] eqn:Hd.
  { apply (f_equal zlen) in Hd. rewrite zlen_zdrop in Hd. zlist_lia. }
  destruct (zdrop_cons_inv i num c1 rest Hi Hd) as (Hl & Hd1 & _). rewrite Hl.
  assert (Hnext : forall c2 tl, zdrop (u16 (i + 2)) num = tl ->
            enc_digits (c1 :: rest) = numeric_pair c1 c2 :: enc_digits tl ->
            (Stream_Write_UINT8 (numeric_pair c1 c2) ;;
             numeric_loop fuel num (zlen num) (u16 (i + 2))) s =
            Ret (tt, put_bytes s (enc_digits (c1 :: rest)))).
  { intros c2 tl Htl Henc. rewrite Henc in Hroom, Hf |- *. rewrite zlen_cons in Hroom, Hf.
    pose proof (zlen_nonneg (enc_digits tl)). subst tl.
    unfold pbind. rewrite write_u8_spec by (done || lia || apply numeric_pair_byte).
    rewrite IH; try done; try lia; [|apply u16_bound|apply put_bytes_ok; [done|zlist_lia|]
                                   |rewrite room_put_bytes; zlist_lia].
    - rewrite put_bytes_app; [done|done|zlist_lia].
    - auto using numeric_pair_byte. }
  rewrite u16_id in Hnext by lia.
  destruct (i + 1 <? zlen num) eqn:E1.
  - destruct rest as [|c2 rest].
    { apply (f_equal zlen) in Hd1. rewrite zlen_zdrop in Hd1. zlist_lia. }
    destruct (zdrop_cons_inv (i + 1) num c2 rest) as (Hl2 & Hd2 & _); [lia|done|].
    rewrite Hl2. replace (i + 1 + 1) with (i + 2) in Hd2 by lia.
    rewrite u16_id by lia. exact (Hnext c2 rest Hd2 eq_refl).
  - rewrite zdrop_all in Hd1 by lia. subst rest. rewrite u16_id by lia.
    apply (Hnext 48 []); [by rewrite zdrop_all by lia|done].
Qed.

Lemma emits_numeric num :
  zlen num < 65535 ->
  emits (s <- pget ;; numeric_loop (Z.to_nat (room s) + 2) num (zlen num) 0) (enc_digits num).
Proof.
  intros Hlen. split; [apply enc_digits_bytes|]. intros s Hs Hroom.
  unfold pbind, pget. rewrite <- (zdrop_0 0 num) at 2 by lia.
  apply numeric_loop_run; rewrite ?zdrop_0 by lia; try done; lia.
Qed.

Lemma per_write_numeric_string_writes num min :
  0 <= min <= zlen num -> zlen num - min < 32768 -> zlen num < 65535 ->
  writes (per_write_numeric_string num min)
    (zlen (enc_length (zlen num - min)) + zlen num)
    (enc_length (zlen num - min) ++ enc_digits num).
Proof.
  intros Hm Hl Hw. unfold per_write_numeric_string.
  replace (min <=? zlen num) with true by lia.
  pose proof (per_write_length_writes (zlen num - min) ltac:(lia)) as Hlen.
  pose proof (zlen_enc_digits num) as Hed.
  pose proof (writes_seq _ _ _ _ _ _ Hlen
    (writes_ensure (zlen num) _ (enc_digits num) ltac:(zlist_lia)
       ltac:(rewrite Hed; Z.div_mod_to_equations; zlist_lia) (emits_numeric num Hw))) as Hseq.
  rewrite Z.max_r in Hseq by zlist_lia. exact Hseq.
Qed.

Lemma per_read_numeric_string_enc num min :
  0 <= min <= zlen num -> zlen num - min < 32768 ->
  reads_back (per_read_numeric_string min) (enc_length (zlen num - min) ++ enc_digits num) true.
Proof.
  intros Hm Hl s r Hr Hu. rewrite <- app_assoc in Hu. unfold per_read_numeric_string.
  rd_sub (per_read_length_enc (zlen num - min) ltac:(lia)) Hr Hu. cbv zeta.
  replace (zlen num - min + min + 1) with (zlen num + 1) by lia.
  rewrite <- zlen_enc_digits. rd_step.
  replace (zlen (enc_digits num) <=? zlen (enc_digits num ++ r)) with true by zlist_lia.
  cbn [negb]. unfold pbind. rewrite seek_spec by (done || rewrite Hu0; zlist_lia). rd_done.
Qed.

Lemma padding_writes n :
  0 <= n <= UINT16_MAX -> writes (per_write_padding n) n (zrep n 0).
Proof.
  unfold UINT16_MAX. intros. apply writes_ensure; [lia|zlist_lia|apply emits_zero; lia].
Qed.

Lemma padding_reads n : 0 <= n -> reads_back (per_read_padding n) (zrep n 0) true.
Proof.
  intros Hn s r Hr Hu. unfold per_read_padding. rd_step.
  replace (n <=? zlen (zrep n 0 ++ r)) with true by zlist_lia. cbn [negb]. unfold pbind.
  rewrite seek_spec by (done || rewrite Hu; zlist_lia). rd_done.
Qed.
End per_oid_numeric.

(** ** Properties *)

(** C30: whatever bytes a peer sends, every PER reader started on a valid stream returns; no
    assertion fails, no byte outside the valid part of the buffer is touched, the buffer is
    unchanged and the cursor never passes the end of the data. *)
Theorem per_readers_safe (s : wStream) (oid oct : list Z) (min len count : Z) :
  readable s -> 0 <= min -> 0 <= len ->
  safe_at per_read_length s /\ safe_at per_read_choice s /\ safe_at per_read_selection s /\
  safe_at per_read_number_of_sets s /\ safe_at (per_read_padding len) s /\
  safe_at per_read_integer s /\ safe_at (per_read_integer16 min) s /\
  safe_at (per_read_enumerated count) s /\ safe_at (per_read_object_identifier oid) s /\
  safe_at (per_read_octet_string oct min) s /\ safe_at (per_read_numeric_string min) s.
Proof.
  intros Hr Hm Hl.
  split_and!; auto using per_read_length_safe, per_read_integer_safe,
    per_read_object_identifier_safe, per_read_octet_string_safe, per_read_numeric_string_safe;
  unfold per_read_choice, per_read_selection, per_read_number_of_sets, per_read_padding,
    per_read_integer16, per_read_enumerated; solve_safe.
Qed.

Lemma per_readers_safe_witness :
  readable (blank_stream 4) /\ safe_at per_read_integer (blank_stream 4).
Proof.
  assert (Hr : readable (blank_stream 4)) by (split; [apply blank_stream_growable; lia|done]).
  split; [exact Hr|].
  exact (proj1 (proj2 (proj2 (proj2 (proj2 (proj2
    (per_readers_safe (blank_stream 4) [] [] 0 0 0 Hr (Z.le_refl 0) (Z.le_refl 0)))))))).
Defined.

(** Lengths below 2^15, octet-sized fields, integers up to 2^16-1, integers with a lower
    bound and enumerations survive a write and a read: the writer stores exactly the PER
    octets (or reports that memory ran out) and the reader returns the value and stops where
    the writer stopped. *)
Theorem per_scalar_roundtrip `{Malloc} (v min count : Z) :
  (0 <= v < 32768 -> wire_ok (per_write_length v) per_read_length (enc_length v) (Some v)) /\
  (is_byte v -> wire_ok (per_write_choice v) per_read_choice [v] (Some v)) /\
  (is_byte v -> wire_ok (per_write_selection v) per_read_selection [v] (Some v)) /\
  (is_byte v -> wire_ok (per_write_number_of_sets v) per_read_number_of_sets [v] (Some v)) /\
  (0 <= v <= UINT16_MAX ->
     wire_ok (per_write_integer v) per_read_integer (enc_integer v) (Some v)) /\
  (0 <= min <= v /\ v <= UINT16_MAX ->
     wire_ok (per_write_integer16 v min) (per_read_integer16 min) (be16 (v - min)) (Some v)) /\
  (0 <= v < count /\ count <= UINT8_MAX ->
     wire_ok (per_write_enumerated v count) (per_read_enumerated count) [v] (Some v)).
Proof.
  split_and!.
  - apply (wire_format_ok _ _ _ _ per_length_format).
  - apply (wire_format_ok _ _ _ _ octet_format).
  - apply (wire_format_ok _ _ _ _ octet_format).
  - apply (wire_format_ok _ _ _ _ octet_format).
  - intros Hv. eapply wire_ok_intro; [apply per_write_integer_writes|apply need_self|by apply per_read_integer_enc].
    unfold UINT16_MAX, UINT32_MAX in *. lia.
  - intros [Hm Hv]. unfold UINT16_MAX in *. refine (wire_format_ok _ _ _ _ (integer16_format min _) v _);
      unfold UINT16_MAX; lia.
  - intros [Hv Hc]. unfold UINT8_MAX in *. refine (wire_format_ok _ _ _ _ (enumerated_format count _) v _); lia.
Qed.

Lemma per_scalar_roundtrip_witness :
  wire_ok (H := malloc_all) (per_write_integer (H := malloc_all) 1002) per_read_integer [2; 3; 234] (Some 1002) /\
  wire_ok (H := malloc_all) (per_write_integer16 (H := malloc_all) 1004 1001) (per_read_integer16 1001) [0; 3]
    (Some 1004).
Proof.
  destruct (per_scalar_roundtrip (H := malloc_all) 1002 0 0) as (_ & _ & _ & _ & Hi & _).
  destruct (per_scalar_roundtrip (H := malloc_all) 1004 1001 0) as (_ & _ & _ & _ & _ & Hj & _).
  split; [apply Hi|apply Hj]; unfold UINT16_MAX; lia.
Defined.

(** Object identifiers, octet strings, numeric strings and padding survive a write and a
    read.  An octet string is accepted only when the octets on the wire are the expected
    ones; a numeric string of ['0'..'9'] is packed two digits to an octet. *)
Theorem per_string_roundtrip `{Malloc} (oid oct num : list Z) (min n : Z) :
  (length oid = 6%nat /\ Forall is_byte oid /\ nth 1 oid 0 < 40 /\
   nth 0 oid 0 * 40 + nth 1 oid 0 < 256 ->
     wire_ok (per_write_object_identifier oid) (per_read_object_identifier oid) (enc_oid oid) true) /\
  (Forall is_byte oct /\ 0 <= min <= zlen oct /\ zlen oct - min < 32768 /\
   zlen oct <= UINT16_MAX ->
     wire_ok (per_write_octet_string oct min) (per_read_octet_string oct min)
       (enc_length (zlen oct - min) ++ oct) true) /\
  (forall s s', readable s -> per_read_octet_string oct min s = Ret (true, s') ->
     exists h, s' = advance s (zlen h + zlen oct) /\ (h ++ oct) `prefix_of` unread s) /\
  (0 <= min <= zlen num /\ zlen num - min < 32768 /\ zlen num < UINT16_MAX ->
     wire_ok (per_write_numeric_string num min) (per_read_numeric_string min)
       (enc_length (zlen num - min) ++ enc_digits num) true) /\
  (0 <= n <= UINT16_MAX -> wire_ok (per_write_padding n) (per_read_padding n) (zrep n 0) true).
Proof.
  split_and!.
  - intros (Hl & Hb & H1 & H2). eapply wire_ok_intro; [by apply oid_writes|done|by apply oid_reads].
  - intros (Hb & Hm & Hl & Hw).
    eapply wire_ok_intro; [by apply per_write_octet_string_writes|apply need_self|by apply per_read_octet_string_enc].
  - apply per_read_octet_string_inv.
  - unfold UINT16_MAX. intros (Hm & Hl & Hw).
    eapply wire_ok_intro;
      [by apply per_write_numeric_string_writes|rewrite zlen_app, zlen_enc_digits; pose proof (zlen_nonneg (enc_length (zlen num - min))); Z.div_mod_to_equations; lia|by apply per_read_numeric_string_enc].
  - intros Hn. eapply wire_ok_intro; [by apply padding_writes|zlist_lia|apply padding_reads; lia].
Qed.

Lemma per_string_roundtrip_witness :
  wire_ok (H := malloc_all) (per_write_object_identifier (H := malloc_all) [0; 0; 20; 124; 0; 1])
    (per_read_object_identifier [0; 0; 20; 124; 0; 1]) [5; 0; 20; 124; 0; 1] true.
Proof.
  apply (per_string_roundtrip (H := malloc_all) [0; 0; 20; 124; 0; 1] [] [] 0 0).
  split_and!; [done| |done|done]. repeat constructor; unfold is_byte; lia.
Defined.

(** An integer of more than 16 bits is written with a length octet of 4 and is then
    rejected by the reader: [per_write_integer] and [per_read_integer] do not agree on
    values from 2^16 to 2^32-1. *)
Theorem per_integer_wide_rejected `{Malloc} (v : Z) :
  UINT16_MAX < v <= UINT32_MAX ->
  writes (per_write_integer v) 5 (4 :: be32 v) /\
  (forall s s', growable s -> per_write_integer v s = Ret (true, s') ->
     exists r, Stream_Reread (pointer s) s' = Ret (true, r) /\
               per_read_integer r = Ret (None, advance r 1)).
Proof.
  intros Hv. unfold UINT16_MAX, UINT32_MAX in Hv.
  pose proof (per_write_integer_writes v) as Hw.
  assert (He : enc_integer v = 4 :: be32 v).
  { unfold enc_integer, UINT8_MAX, UINT16_MAX. replace (v <=? 255) with false by lia.
    by replace (v <=? 65535) with false by lia. }
  rewrite He in Hw. specialize (Hw ltac:(unfold UINT32_MAX; lia)).
  split; [exact Hw|]. intros s s' Hg Hs. destruct Hw as [_ Hgrow _ Hb].
  destruct (Hgrow s Hg) as (b & s1 & Hw1 & Hwrote). rewrite Hs in Hw1. simplify_eq.
  destruct (reread_spec s s1 _ (proj1 Hg) Hwrote Hb) as (r & Hr & Hrr & Hu & _).
  exists r. split; [done|].
  apply (per_read_integer_wide v r []); [unfold UINT16_MAX; lia|done|].
  by rewrite He, app_nil_r.
Qed.

Lemma per_integer_wide_rejected_witness :
  writes (H := malloc_all) (per_write_integer (H := malloc_all) 70000) 5 [4; 0; 1; 17; 112].
Proof.
  apply (per_integer_wide_rejected (H := malloc_all) 70000). unfold UINT16_MAX, UINT32_MAX. lia.
Defined.
