(* ===== verification/Ber.v ===== *)
(** * ASN.1 basic encoding rules: [libfreerdp/crypto/ber.c]

    Readers return [None] (or [false]) for FALSE.  Writers assert the room they need and
    return the number of octets they report to the caller.  The MCS connect exchange uses
    these functions. *)

From S2P Require Import Prelude Memory Stream.

Definition BER_CLASS_UNIV : Z := 0.
Definition BER_CLASS_APPL : Z := 64.
Definition BER_CLASS_CTXT : Z := 128.
Definition BER_PRIMITIVE : Z := 0.
Definition BER_CONSTRUCT : Z := 32.
Definition BER_TAG_MASK : Z := 31.
Definition BER_TAG_BOOLEAN : Z := 1.
Definition BER_TAG_INTEGER : Z := 2.
Definition BER_TAG_BIT_STRING : Z := 3.
Definition BER_TAG_OCTET_STRING : Z := 4.
Definition BER_TAG_ENUMERATED : Z := 10.
Definition BER_TAG_SEQUENCE : Z := 16.
Definition BER_TAG_SEQUENCE_OF : Z := 16.
Definition BER_PC (pc : bool) : Z := if pc then BER_CONSTRUCT else BER_PRIMITIVE.

(** ** Lengths *)

Definition ber_read_length : Prog wStream (option Z) :=
  ok <- Stream_CheckAndLogRequiredLength 1 ;;
  if negb ok then pret None else
  byte <- stream_read_u8 true ;;
  if negb (Z.land byte 128 =? 0) then
    let byte := u8 (Z.land byte (Z.lnot 128)) in
    ok <- Stream_CheckAndLogRequiredLength byte ;;
    if negb ok then pret None else
    if byte =? 1 then length <- stream_read_u8 true ;; pret (Some length)
    else if byte =? 2 then length <- stream_read_u16_be true ;; pret (Some length)
    else pret None
  else pret (Some byte).

Definition ber_write_length (length : Z) : Prog wStream Z :=
  if 255 <? length then
    passert (length <=? UINT16_MAX) ;;
    need_capacity 3 ;;
    Stream_Write_UINT8 (Z.lxor 128 2) ;;
    Stream_Write_UINT16_BE (u16 length) ;;
    pret 3
  else
    passert (length <=? UINT8_MAX) ;;
    if 127 <? length then
      need_capacity 2 ;;
      Stream_Write_UINT8 (Z.lxor 128 1) ;;
      Stream_Write_UINT8 (u8 length) ;;
      pret 2
    else
      need_capacity 1 ;;
      Stream_Write_UINT8 (u8 length) ;;
      pret 1.

Definition _ber_sizeof_length (length : Z) : Z :=
  if 255 <? length then 3 else if 127 <? length then 2 else 1.

(** ** Tags *)

Definition ber_read_universal_tag (tag : Z) (pc : bool) : Prog wStream bool :=
  let expect := u8 (Z.lor (Z.lor BER_CLASS_UNIV (BER_PC pc)) (Z.land BER_TAG_MASK tag)) in
  ok <- Stream_CheckAndLogRequiredLength 1 ;;
  if negb ok then pret false else
  byte <- stream_read_u8 true ;;
  if negb (byte =? expect) then pret false else pret true.

Definition ber_write_universal_tag (tag : Z) (pc : bool) : Prog wStream Z :=
  Stream_Write_UINT8
    (u8 (Z.lor (Z.lor BER_CLASS_UNIV (BER_PC pc)) (Z.land BER_TAG_MASK tag))) ;;
  pret 1.

Definition ber_read_application_tag (tag : Z) : Prog wStream (option Z) :=
  if 30 <? tag then
    let expect := u8 (Z.lor (Z.lor BER_CLASS_APPL BER_CONSTRUCT) BER_TAG_MASK) in
    ok <- Stream_CheckAndLogRequiredLength 2 ;;
    if negb ok then pret None else
    byte <- stream_read_u8 true ;;
    if negb (byte =? expect) then pret None else
    byte <- stream_read_u8 true ;;
    if negb (byte =? tag) then pret None else
    ber_read_length
  else
    let expect := u8 (Z.lor (Z.lor BER_CLASS_APPL BER_CONSTRUCT) (Z.land BER_TAG_MASK tag)) in
    ok <- Stream_CheckAndLogRequiredLength 1 ;;
    if negb ok then pret None else
    byte <- stream_read_u8 true ;;
    if negb (byte =? expect) then pret None else
    ber_read_length.

Definition ber_write_application_tag (tag length : Z) : Prog wStream unit :=
  if 30 <? tag then
    need_capacity 2 ;;
    Stream_Write_UINT8 (u8 (Z.lor (Z.lor BER_CLASS_APPL BER_CONSTRUCT) BER_TAG_MASK)) ;;
    Stream_Write_UINT8 tag ;;
    ber_write_length length ;; pret tt
  else
    need_capacity 1 ;;
    Stream_Write_UINT8
      (u8 (Z.lor (Z.lor BER_CLASS_APPL BER_CONSTRUCT) (Z.land BER_TAG_MASK tag))) ;;
    ber_write_length length ;; pret tt.

Definition ber_read_contextual_tag (tag : Z) (pc : bool) : Prog wStream (option Z) :=
  let expect := u8 (Z.lor (Z.lor BER_CLASS_CTXT (BER_PC pc)) (Z.land BER_TAG_MASK tag)) in
  rem <- Stream_GetRemainingLength ;;
  if rem <? 1 then pret None else
  byte <- stream_read_u8 true ;;
  if negb (byte =? expect) then Stream_Rewind 1 ;; pret None else
  ber_read_length.

Definition ber_write_contextual_tag (tag length : Z) (pc : bool) : Prog wStream Z :=
  need_capacity 1 ;;
  Stream_Write_UINT8
    (u8 (Z.lor (Z.lor BER_CLASS_CTXT (BER_PC pc)) (Z.land BER_TAG_MASK tag))) ;;
  n <- ber_write_length length ;;
  pret (1 + n).

Definition ber_sizeof_contextual_tag (length : Z) : Z := 1 + _ber_sizeof_length length.

Definition ber_read_sequence_tag : Prog wStream (option Z) :=
  let expect := u8 (Z.lor (Z.lor BER_CLASS_UNIV BER_CONSTRUCT) BER_TAG_SEQUENCE_OF) in
  ok <- Stream_CheckAndLogRequiredLength 1 ;;
  if negb ok then pret None else
  byte <- stream_read_u8 true ;;
  if negb (byte =? expect) then pret None else
  ber_read_length.

Definition ber_write_sequence_tag (length : Z) : Prog wStream Z :=
  Stream_Write_UINT8
    (u8 (Z.lor (Z.lor BER_CLASS_UNIV BER_CONSTRUCT) (Z.land BER_TAG_MASK BER_TAG_SEQUENCE))) ;;
  n <- ber_write_length length ;;
  pret (1 + n).

Definition ber_sizeof_sequence (length : Z) : Z := 1 + _ber_sizeof_length length + length.
Definition ber_sizeof_sequence_tag (length : Z) : Z := 1 + _ber_sizeof_length length.

(** ** Values *)

Definition ber_read_enumerated (count : Z) : Prog wStream (option Z) :=
  ok <- ber_read_universal_tag BER_TAG_ENUMERATED false ;;
  if negb ok then pret None else
  l <- ber_read_length ;;
  match l with
  | None => pret None
  | Some length =>
      if negb (length =? 1) then pret None else
      ok <- Stream_CheckAndLogRequiredLength 1 ;;
      if negb ok then pret None else
      enumerated <- stream_read_u8 true ;;
      if count <? enumerated + 1 then pret None else pret (Some enumerated)
  end.

Definition ber_write_enumerated (enumerated count : Z) : Prog wStream unit :=
  ber_write_universal_tag BER_TAG_ENUMERATED false ;;
  ber_write_length 1 ;;
  Stream_Write_UINT8 enumerated.

(** Length and number of padding bits of a bit string. *)
Definition ber_read_bit_string : Prog wStream (option (Z * Z)) :=
  ok <- ber_read_universal_tag BER_TAG_BIT_STRING false ;;
  if negb ok then pret None else
  l <- ber_read_length ;;
  match l with
  | None => pret None
  | Some length =>
      ok <- Stream_CheckAndLogRequiredLength 1 ;;
      if negb ok then pret None else
      padding <- stream_read_u8 true ;;
      pret (Some (length, padding))
  end.

Definition ber_write_octet_string (oct_str : list Z) : Prog wStream Z :=
  let length := zlen oct_str in
  n1 <- ber_write_universal_tag BER_TAG_OCTET_STRING false ;;
  n2 <- ber_write_length length ;;
  Stream_Write oct_str ;;
  pret (n1 + n2 + length).

Definition ber_sizeof_octet_string (length : Z) : Z := 1 + _ber_sizeof_length length + length.

Definition ber_sizeof_contextual_octet_string (length : Z) : Z :=
  let ret := ber_sizeof_octet_string length in
  ber_sizeof_contextual_tag ret + ret.

Definition ber_write_contextual_octet_string (tag : Z) (oct_str : list Z) : Prog wStream Z :=
  let inner := ber_sizeof_octet_string (zlen oct_str) in
  ret <- ber_write_contextual_tag tag inner true ;;
  if ret =? 0 then pret 0 else
  r <- ber_write_octet_string oct_str ;;
  if r =? 0 then pret 0 else pret (ret + r).

Definition ber_read_octet_string_tag : Prog wStream (option Z) :=
  ok <- ber_read_universal_tag BER_TAG_OCTET_STRING false ;;
  if negb ok then pret None else ber_read_length.

Definition ber_read_octet_string `{Malloc} : Prog wStream (option (list Z)) :=
  l <- ber_read_octet_string_tag ;;
  match l with
  | None => pret None
  | Some length =>
      ok <- Stream_CheckAndLogRequiredLength length ;;
      if negb ok then pret None else
      if negb (malloc_ok length) then pret None else
      content <- Stream_Read length ;;
      pret (Some content)
  end.

(** [ret] has [length + 2] zeroed octets; [ret[length / 2] = 0] on a WCHAR array. *)
Definition ber_read_unicode_octet_string `{Malloc} : Prog wStream (option (list Z)) :=
  l <- ber_read_octet_string_tag ;;
  match l with
  | None => pret None
  | Some length =>
      ok <- Stream_CheckAndLogRequiredLength length ;;
      if negb ok then pret None else
      if negb (malloc_ok (u64 (length + 2))) then pret None else
      bs <- load_bytes length ;;
      ret <- plift (slots_write 0 bs (zrep (length + 2) 0)) ;;
      ret <- plift (slots_write (length / 2 * 2) [0; 0] ret) ;;
      Stream_Seek length ;;
      pret (Some ret)
  end.

Definition ber_write_octet_string_tag (length : Z) : Prog wStream Z :=
  ber_write_universal_tag BER_TAG_OCTET_STRING false ;;
  ber_write_length length ;;
  pret (1 + _ber_sizeof_length length).

Definition ber_read_BOOL : Prog wStream (option bool) :=
  ok <- ber_read_universal_tag BER_TAG_BOOLEAN false ;;
  if negb ok then pret None else
  l <- ber_read_length ;;
  match l with
  | None => pret None
  | Some length =>
      if negb (length =? 1) then pret None else
      ok <- Stream_CheckAndLogRequiredLength 1 ;;
      if negb ok then pret None else
      v <- stream_read_u8 true ;;
      pret (Some (negb (v =? 0)))
  end.

Definition ber_write_BOOL (value : bool) : Prog wStream unit :=
  ber_write_universal_tag BER_TAG_BOOLEAN false ;;
  ber_write_length 1 ;;
  Stream_Write_UINT8 (if value then 255 else 0).

(** [want = false] is a NULL out-parameter: the value is skipped and reported as 0. *)
Definition ber_read_integer (want : bool) : Prog wStream (option Z) :=
  ok <- ber_read_universal_tag BER_TAG_INTEGER false ;;
  if negb ok then pret None else
  l <- ber_read_length ;;
  match l with
  | None => pret None
  | Some length =>
      ok <- Stream_CheckAndLogRequiredLength length ;;
      if negb ok then pret None else
      if negb want then
        ok <- Stream_SafeSeekEx length ;;
        if ok then pret (Some 0) else pret None
      else if length =? 1 then v <- stream_read_u8 true ;; pret (Some v)
      else if length =? 2 then v <- stream_read_u16_be true ;; pret (Some v)
      else if length =? 3 then
        byte <- stream_read_u8 true ;;
        v <- stream_read_u16_be true ;;
        pret (Some (u32 (v + Z.shiftl byte 16)))
      else if length =? 4 then v <- stream_read_u32_be true ;; pret (Some v)
      else if length =? 8 then pret None
      else pret None
  end.

Definition ber_write_integer (value : Z) : Prog wStream Z :=
  if value <? 128 then
    ber_write_universal_tag BER_TAG_INTEGER false ;;
    ber_write_length 1 ;;
    Stream_Write_UINT8 (u8 value) ;; pret 3
  else if value <? 32768 then
    ber_write_universal_tag BER_TAG_INTEGER false ;;
    ber_write_length 2 ;;
    Stream_Write_UINT16_BE (u16 value) ;; pret 4
  else if value <? 8388608 then
    ber_write_universal_tag BER_TAG_INTEGER false ;;
    ber_write_length 3 ;;
    Stream_Write_UINT8 (u8 (Z.shiftr value 16)) ;;
    Stream_Write_UINT16_BE (u16 (Z.land value 65535)) ;; pret 5
  else if value <? 2147483648 then
    ber_write_universal_tag BER_TAG_INTEGER false ;;
    ber_write_length 4 ;;
    Stream_Write_UINT32_BE value ;; pret 6
  else
    ber_write_universal_tag BER_TAG_INTEGER false ;;
    ber_write_length 4 ;;
    Stream_Write_UINT32_BE value ;; pret 6.

Definition ber_sizeof_integer (value : Z) : Z :=
  if value <? 128 then 3
  else if value <? 32768 then 4
  else if value <? 8388608 then 5
  else if value <? 2147483648 then 6
  else 6.

Definition ber_sizeof_contextual_integer (value : Z) : Z :=
  let intSize := ber_sizeof_integer value in
  ber_sizeof_contextual_tag intSize + intSize.

Definition ber_write_contextual_integer `{Malloc} (tag value : Z) : Prog wStream Z :=
  let len := ber_sizeof_integer value in
  ok <- Stream_EnsureRemainingCapacity (len + 5) ;;
  passert ok ;;
  n <- ber_write_contextual_tag tag len true ;;
  ber_write_integer value ;;
  pret (len + n).

Definition ber_read_integer_length : Prog wStream (option Z) :=
  ok <- ber_read_universal_tag BER_TAG_INTEGER false ;;
  if negb ok then pret None else ber_read_length.

(** ** Encodings *)

Definition enc_ber_length (n : Z) : list Z :=
  if 255 <? n then 130 :: be16 n else if 127 <? n then [129; n] else [n].

(** The identifier octet. *)
Definition ber_id (class : Z) (pc : bool) (tag : Z) : Z :=
  u8 (Z.lor (Z.lor class (BER_PC pc)) (Z.land BER_TAG_MASK tag)).

Definition enc_ber_app_tag (tag n : Z) : list Z :=
  (if 30 <? tag then [127; tag] else [ber_id BER_CLASS_APPL true tag]) ++ enc_ber_length n.

Definition enc_ber_integer (v : Z) : list Z :=
  if v <? 128 then [2; 1; v]
  else if v <? 32768 then [2; 2] ++ be16 v
  else if v <? 8388608 then [2; 3; v / 65536] ++ be16 v
  else [2; 4] ++ be32 v.

Definition enc_ber_octets (l : list Z) : list Z := [4] ++ enc_ber_length (zlen l) ++ l.

Section ber_lengths.
Lemma zlen_enc_ber_length n : zlen (enc_ber_length n) = _ber_sizeof_length n.
Proof. unfold enc_ber_length, _ber_sizeof_length. by repeat case_if. Qed.

Lemma ber_write_length_emits n :
  0 <= n <= UINT16_MAX ->
  emits_ret (ber_write_length n) (_ber_sizeof_length n) (enc_ber_length n).
Proof.
  unfold UINT16_MAX. intros Hn. unfold ber_write_length, _ber_sizeof_length, enc_ber_length.
  destruct (255 <? n) eqn:E1; [|destruct (127 <? n) eqn:E2].
  - apply emits_assert; [unfold UINT16_MAX; lia|]. apply emits_need; [done|].
    rewrite u16_id by lia. apply (emits_bind _ _ tt _ [130] (be16 n)).
    + apply emits_u8. unfold is_byte. lia.
    + apply (emits_final _ _ tt), emits_u16_be.
  - apply emits_assert; [unfold UINT8_MAX; lia|]. apply emits_need; [done|].
    rewrite u8_id by (unfold is_byte; lia). apply (emits_bind _ _ tt _ [129] [n]).
    + apply emits_u8. unfold is_byte. lia.
    + apply (emits_final _ _ tt), emits_u8. unfold is_byte. lia.
  - apply emits_assert; [unfold UINT8_MAX; lia|]. apply emits_need; [done|].
    rewrite u8_id by (unfold is_byte; lia).
    apply (emits_final _ _ tt), emits_u8. unfold is_byte. lia.
Qed.

(** [ber_read_length] on every input. *)
Lemma ber_read_length_run s :
  readable s ->
  ber_read_length s =
    match unread s with
    | [] => Ret (None, s)
    | b :: r =>
        if b <? 128 then Ret (Some b, advance s 1)
        else match r with
             | l :: r' =>
                 if b =? 129 then Ret (Some l, advance s 2)
                 else match r' with
                      | l' :: _ => if b =? 130 then Ret (Some (l * 256 + l'), advance s 3)
                                   else Ret (None, advance s 1)
                      | [] => Ret (None, advance s 1)
                      end
             | [] => Ret (None, advance s 1)
             end
    end.
Proof.
  intros Hr. unfold ber_read_length. destruct (unread s) as [|b r] eqn:Hu; rd_step; [done|].
  replace (1 <=? zlen (b :: r)) with true by zlist_lia. rd_step.
  rewrite land_128 by done. destruct (b <? 128) eqn:E; cbn [negb]; [done|].
  cbv zeta. rewrite land_lnot_128 by done. unfold is_byte in *.
  replace (b mod 128) with (b - 128) by (Z.div_mod_to_equations; lia).
  replace (b - 128 =? 1) with (b =? 129) by lia.
  replace (b - 128 =? 2) with (b =? 130) by lia. rd_step.
  destruct r as [|l [|l' r]].
  - rewrite zlen_nil. destruct (b - 128 <=? 0) eqn:E0; cbn [negb]; [|done].
    replace (b =? 129) with false by lia. by replace (b =? 130) with false by lia.
  - replace (zlen [l]) with 1 by done. destruct (b =? 129) eqn:E1.
    + replace (b - 128 <=? 1) with true by lia. rd_step. rd_done.
    + destruct (b - 128 <=? 1) eqn:E2; cbn [negb]; [|done].
      by replace (b =? 130) with false by lia.
  - destruct (b =? 129) eqn:E1.
    + replace (b - 128 <=? zlen (l :: l' :: r)) with true by zlist_lia. rd_step. rd_done.
    + destruct (b =? 130) eqn:E2.
      * replace (b - 128 <=? zlen (l :: l' :: r)) with true by zlist_lia. rd_step. rd_done.
      * by destruct (b - 128 <=? zlen (l :: l' :: r)).
Qed.

Lemma ber_read_length_enc n :
  0 <= n <= UINT16_MAX -> reads_back ber_read_length (enc_ber_length n) (Some n).
Proof.
  unfold UINT16_MAX. intros Hn s r Hr Hu. rewrite ber_read_length_run, Hu by done.
  unfold enc_ber_length. destruct (255 <? n) eqn:E1; [|destruct (127 <? n) eqn:E2]; cbn.
  - rewrite be16_value by lia. done.
  - done.
  - by replace (n <? 128) with true by lia.
Qed.

Lemma ber_read_length_bound s :
  readable s ->
  exists r k, ber_read_length s = Ret (r, advance s k) /\ 0 <= k <= zlen (unread s) /\
    forall n, r = Some n -> 0 <= n < 65536.
Proof.
  intros Hr. rewrite ber_read_length_run by done. pose proof (unread_bytes s Hr) as HB.
  destruct (unread s) as [|b [|l [|l' r]]]; rewrite ?Forall_cons in HB; unfold is_byte in HB;
    repeat case_if; try (eexists _, 0; rewrite advance_0; done);
    (eexists _, 1; split_and!; [reflexivity|lia|zlist_lia|intros; simplify_eq; lia]) ||
    (eexists _, 2; split_and!; [reflexivity|lia|zlist_lia|intros; simplify_eq; lia]) ||
    (eexists _, 3; split_and!; [reflexivity|lia|zlist_lia|intros; simplify_eq; lia]).
Qed.

Lemma ber_read_length_safe s : readable s -> safe_at ber_read_length s.
Proof.
  intros Hr. destruct (ber_read_length_bound s Hr) as (a & k & ? & ? & _). by exists a, k.
Qed.

Lemma safe_ber_length {A} (f : option Z -> Prog wStream A) s :
  readable s ->
  (forall k, readable (advance s k) -> safe_at (f None) (advance s k)) ->
  (forall n k, 0 <= n < 65536 -> readable (advance s k) -> safe_at (f (Some n)) (advance s k)) ->
  safe_at (pbind ber_read_length f) s.
Proof.
  intros Hr HN HS. eapply safe_bind_post; [by apply ber_read_length_bound|done|].
  intros [n|] k Hn Hrk; cbn in *; auto.
Qed.
End ber_lengths.

(** ** Safety of the readers *)

Section ber_safe.
Lemma ber_read_universal_tag_safe tag pc s :
  readable s -> safe_at (ber_read_universal_tag tag pc) s.
Proof. intros. unfold ber_read_universal_tag. solve_safe. Qed.
Hint Resolve ber_read_universal_tag_safe ber_read_length_safe : safe.

Lemma ber_read_application_tag_safe tag s :
  readable s -> safe_at (ber_read_application_tag tag) s.
Proof. intros. unfold ber_read_application_tag. solve_safe. Qed.

Lemma ber_read_contextual_tag_safe tag pc s :
  readable s -> safe_at (ber_read_contextual_tag tag pc) s.
Proof.
  intros Hr. unfold ber_read_contextual_tag. cbv zeta. apply safe_remaining; [done|].
  destruct (zlen (unread s) <? 1) eqn:E; [by apply safe_ret|].
  destruct (unread s) as [|b r] eqn:Hu; [done|].
  destruct (read_u8_spec s b r Hr Hu) as (Hs & Hr' & Hu' & Hb).
  destruct (b =? ber_id BER_CLASS_CTXT pc tag) eqn:E1.
  - eapply safe_at_bind; [done| |exact Hs|]; [rewrite Hu; zlist_lia|].
    unfold ber_id in E1. rewrite E1. cbn [negb]. by apply ber_read_length_safe.
  - exists None, 0. split; [|zlist_lia]. rewrite (pbind_ret _ _ _ _ _ Hs).
    unfold ber_id in E1. rewrite E1. cbn [negb]. unfold pbind.
    rewrite rewind_spec by (done || lia). done.
Qed.

Lemma ber_read_sequence_tag_safe s : readable s -> safe_at ber_read_sequence_tag s.
Proof. intros. unfold ber_read_sequence_tag. solve_safe. Qed.

(** After the tag of a universal type, the value is read under the length that follows. *)
Lemma safe_tag_length {A} tag (f : option Z -> Prog wStream A) (d : A) s :
  readable s ->
  (forall k, readable (advance s k) -> safe_at (f None) (advance s k)) ->
  (forall n k, 0 <= n < 65536 -> readable (advance s k) -> safe_at (f (Some n)) (advance s k)) ->
  safe_at (ok <- ber_read_universal_tag tag false ;;
           if negb ok then pret d else l <- ber_read_length ;; f l) s.
Proof.
  intros Hr HN HS. apply safe_bind; [by apply ber_read_universal_tag_safe|done|].
  intros ok k Hk Hrk. destruct ok; cbn [negb]; [|by apply safe_ret].
  apply safe_ber_length; [done|intros j|intros n j Hn]; rewrite advance_advance; auto.
Qed.

Lemma safe_octet_tag {A} (f : option Z -> Prog wStream A) s :
  readable s ->
  (forall k, readable (advance s k) -> safe_at (f None) (advance s k)) ->
  (forall n k, 0 <= n < 65536 -> readable (advance s k) -> safe_at (f (Some n)) (advance s k)) ->
  safe_at (pbind ber_read_octet_string_tag f) s.
Proof.
  intros Hr HN HS. eapply (safe_bind_post _ _ (fun r => forall n, r = Some n -> 0 <= n < 65536));
    [|done|intros [n|] k Hn Hrk; cbn in *; auto].
  unfold ber_read_octet_string_tag, pbind.
  destruct (ber_read_universal_tag_safe BER_TAG_OCTET_STRING false s Hr) as (ok & k & -> & Hk).
  destruct ok; cbn [negb]; [|exists None, k; done].
  destruct (ber_read_length_bound (advance s k)) as (r & j & -> & Hj & Hb);
    [by apply readable_advance|].
  exists r, (k + j). rewrite advance_advance. split_and!; [done|lia| |done].
  rewrite unread_advance in Hj by (done || lia). zlist_lia.
Qed.

Lemma ber_read_enumerated_safe count s : readable s -> safe_at (ber_read_enumerated count) s.
Proof.
  intros. apply safe_tag_length; [done|intros; solve_safe|]. intros n k Hn Hr. solve_safe.
Qed.

Lemma ber_read_bit_string_safe s : readable s -> safe_at ber_read_bit_string s.
Proof.
  intros. apply safe_tag_length; [done|intros; solve_safe|]. intros n k Hn Hr. solve_safe.
Qed.

Lemma ber_read_BOOL_safe s : readable s -> safe_at ber_read_BOOL s.
Proof.
  intros. apply safe_tag_length; [done|intros; solve_safe|]. intros n k Hn Hr. solve_safe.
Qed.

Lemma safe_seek_ex n s : 0 <= n -> readable s -> safe_at (Stream_SafeSeekEx n) s.
Proof.
  intros. unfold Stream_SafeSeekEx. fold (Stream_CheckAndLogRequiredLength n). solve_safe.
Qed.

Lemma ber_read_integer_safe want s : readable s -> safe_at (ber_read_integer want) s.
Proof.
  intros. apply safe_tag_length; [done|intros; solve_safe|]. intros n k Hn Hr.
  assert (Hseek : forall s, readable s -> safe_at (Stream_SafeSeekEx n) s)
    by (intros; apply safe_seek_ex; [lia|done]).
  repeat first [safe_step | lia | by apply Hseek | apply safe_bind; [by apply Hseek|done|intros]].
Qed.

Lemma ber_read_octet_string_safe `{Malloc} s : readable s -> safe_at ber_read_octet_string s.
Proof.
  intros. apply safe_octet_tag; [done|intros; solve_safe|]. intros n k Hn Hr. solve_safe.
Qed.

Lemma ber_read_unicode_octet_string_safe `{Malloc} s :
  readable s -> safe_at ber_read_unicode_octet_string s.
Proof.
  intros. apply safe_octet_tag; [done|intros; solve_safe|]. intros n k Hn Hr.
  apply safe_check; [done|intros Hin|intros; solve_safe]. cbn [negb]. destruct (malloc_ok _); cbn [negb]; [|solve_safe]. apply safe_load_bytes; [done|lia|].
  set (bs := ztake n _). assert (Hz : zlen bs = n) by (unfold bs; rewrite zlen_ztake; lia).
  assert (Hz2 : zlen (splice 0 bs (zrep (n + 2) 0)) = n + 2) by (rewrite zlen_splice; rewrite ?zlen_zrep; lia).
  unfold safe_at. rewrite slots_write_run, pbind_plift by (rewrite ?zlen_zrep; lia).
  rewrite slots_write_run, pbind_plift by (rewrite ?Hz2; change (zlen [0; 0]) with 2; Z.div_mod_to_equations; lia).
  fold (safe_at (Stream_Seek n ;; pret (Some (splice (n / 2 * 2) [0; 0] (splice 0 bs (zrep (n + 2) 0))))) (advance s k)). solve_safe.
Qed.

Lemma ber_read_octet_string_tag_safe s : readable s -> safe_at ber_read_octet_string_tag s.
Proof. intros. unfold ber_read_octet_string_tag. solve_safe. Qed.
End ber_safe.

(** ** What is written is read back *)

Section ber_formats.
Lemma ber_id_byte c pc t : is_byte (ber_id c pc t).
Proof. apply u8_byte. Qed.

Lemma universal_tag_emits tag pc :
  emits_ret (ber_write_universal_tag tag pc) 1 [ber_id BER_CLASS_UNIV pc tag].
Proof. apply (emits_final _ _ tt), emits_u8, ber_id_byte. Qed.

Lemma universal_tag_reads tag pc :
  reads_back (ber_read_universal_tag tag pc) [ber_id BER_CLASS_UNIV pc tag] true.
Proof.
  intros s r Hr Hu. cbn in Hu. unfold ber_read_universal_tag. cbv zeta. rd_step.
  replace (1 <=? zlen _) with true by zlist_lia. rd_step.
  unfold ber_id. rewrite Z.eqb_refl. done.
Qed.

(** A field that is an identifier octet and a length. *)
Lemma tag_length_emits c pc tag n :
  0 <= n <= UINT16_MAX ->
  emits_ret (Stream_Write_UINT8 (ber_id c pc tag) ;; k <- ber_write_length n ;; pret (1 + k))
    (1 + _ber_sizeof_length n) (ber_id c pc tag :: enc_ber_length n).
Proof.
  intros Hn. apply (emits_bind _ _ tt _ [_] _); [apply emits_u8, ber_id_byte|].
  rewrite <- (app_nil_r (enc_ber_length n)).
  eapply emits_bind; [by apply ber_write_length_emits|apply emits_pret].
Qed.

Lemma contextual_tag_emits tag n pc :
  0 <= n <= UINT16_MAX ->
  emits_ret (ber_write_contextual_tag tag n pc) (ber_sizeof_contextual_tag n)
    (ber_id BER_CLASS_CTXT pc tag :: enc_ber_length n).
Proof. intros Hn. apply emits_need; [zlist_lia|]. by apply tag_length_emits. Qed.

Lemma contextual_tag_reads tag n pc :
  0 <= n <= UINT16_MAX ->
  reads_back (ber_read_contextual_tag tag pc)
    (ber_id BER_CLASS_CTXT pc tag :: enc_ber_length n) (Some n).
Proof.
  intros Hn s r Hr Hu. cbn in Hu. unfold ber_read_contextual_tag. cbv zeta.
  rewrite (pbind_ret _ _ _ _ _ (remaining_length_spec s Hr)), Hu.
  replace (zlen _ <? 1) with false by zlist_lia. rd_step.
  fold (ber_id BER_CLASS_CTXT pc tag). rewrite Z.eqb_refl. cbn [negb].
  rewrite (ber_read_length_enc n Hn _ r) by done. rd_done.
Qed.

Lemma sequence_tag_emits n :
  0 <= n <= UINT16_MAX ->
  emits_ret (ber_write_sequence_tag n) (ber_sizeof_sequence_tag n) (48 :: enc_ber_length n).
Proof. intros Hn. exact (tag_length_emits BER_CLASS_UNIV true BER_TAG_SEQUENCE n Hn). Qed.

Lemma sequence_tag_reads n :
  0 <= n <= UINT16_MAX -> reads_back ber_read_sequence_tag (48 :: enc_ber_length n) (Some n).
Proof.
  intros Hn s r Hr Hu. cbn in Hu. unfold ber_read_sequence_tag. cbv zeta. rd_step.
  replace (1 <=? zlen _) with true by zlist_lia. rd_step.
  replace (48 =? _) with true by reflexivity. cbn [negb].
  rewrite (ber_read_length_enc n Hn _ r) by done. rd_done.
Qed.

Lemma application_tag_emits tag n :
  is_byte tag -> 0 <= n <= UINT16_MAX ->
  emits (ber_write_application_tag tag n) (enc_ber_app_tag tag n).
Proof.
  intros Ht Hn. unfold ber_write_application_tag, enc_ber_app_tag.
  assert (Hlen : emits (ber_write_length n ;; pret tt) (enc_ber_length n))
    by (eapply emits_final, ber_write_length_emits; done).
  destruct (30 <? tag).
  - apply emits_need; [zlist_lia|].
    apply (emits_bind _ _ tt _ [127] _); [apply emits_u8; unfold is_byte; lia|].
    apply (emits_bind _ _ tt _ [tag] _); [by apply emits_u8|done].
  - apply emits_need; [zlist_lia|].
    apply (emits_bind _ _ tt _ [_] _); [apply emits_u8, ber_id_byte|done].
Qed.

Lemma application_tag_reads tag n :
  is_byte tag -> 0 <= n <= UINT16_MAX ->
  reads_back (ber_read_application_tag tag) (enc_ber_app_tag tag n) (Some n).
Proof.
  intros Ht Hn s r Hr Hu. unfold enc_ber_app_tag in *. unfold ber_read_application_tag.
  destruct (30 <? tag); cbn in Hu; cbv zeta; rd_step.
  - replace (2 <=? zlen _) with true by zlist_lia. rd_step.
    replace (127 =? _) with true by reflexivity. rd_step. rewrite Z.eqb_refl. cbn [negb].
    rewrite (ber_read_length_enc n Hn _ r) by done. rd_done.
  - replace (1 <=? zlen _) with true by zlist_lia. rd_step.
    unfold ber_id. rewrite Z.eqb_refl. cbn [negb].
    rewrite (ber_read_length_enc n Hn _ r) by done. rd_done.
Qed.
End ber_formats.

Section ber_values.
(** [tag, length, value] with a one-octet length: the shape of the scalar writers. *)
Lemma tlv_emits {A} tag n (body : Prog wStream A) a bs :
  0 <= n < 128 -> emits_ret body a bs ->
  emits_ret (ber_write_universal_tag tag false ;; ber_write_length n ;; body) a
    ([ber_id BER_CLASS_UNIV false tag; n] ++ bs).
Proof.
  intros Hn Hb. apply (emits_bind _ _ 1 _ [_] _); [apply universal_tag_emits|].
  assert (Hl : enc_ber_length n = [n]).
  { unfold enc_ber_length. replace (255 <? n) with false by lia.
    by replace (127 <? n) with false by lia. }
  eapply (emits_bind _ _ _ _ [n]); [|exact Hb].
  rewrite <- Hl. apply ber_write_length_emits. unfold UINT16_MAX. lia.
Qed.

Lemma tlv_reads tag n {A} (k : option Z -> Prog wStream A) (d : A) v bs :
  0 <= n < 128 ->
  (forall s r, readable s -> unread s = bs ++ r -> k (Some n) s = Ret (v, advance s (zlen bs))) ->
  reads_back (ok <- ber_read_universal_tag tag false ;;
              if negb ok then pret d else l <- ber_read_length ;; k l)
    ([ber_id BER_CLASS_UNIV false tag; n] ++ bs) v.
Proof.
  intros Hn Hk s r Hr Hu. change (unread s = [ber_id BER_CLASS_UNIV false tag] ++ [n] ++ bs ++ r) in Hu.
  rd_sub (universal_tag_reads tag false) Hr Hu. cbn [negb].
  assert (Hl : reads_back ber_read_length [n] (Some n)).
  { replace [n] with (enc_ber_length n); [apply ber_read_length_enc; unfold UINT16_MAX; lia|].
    unfold enc_ber_length. replace (255 <? n) with false by lia.
    by replace (127 <? n) with false by lia. }
  rd_sub Hl Hr0 Hu0. rewrite (Hk _ r) by done. rd_done.
Qed.

Lemma ber_write_integer_emits v :
  0 <= v <= UINT32_MAX ->
  emits_ret (ber_write_integer v) (ber_sizeof_integer v) (enc_ber_integer v) /\
  zlen (enc_ber_integer v) = ber_sizeof_integer v.
Proof.
  unfold UINT32_MAX. intros Hv. unfold ber_write_integer, ber_sizeof_integer, enc_ber_integer.
  destruct (v <? 128) eqn:E1; [|destruct (v <? 32768) eqn:E2;
    [|destruct (v <? 8388608) eqn:E3; [|destruct (v <? 2147483648) eqn:E4]]];
  (split; [|reflexivity]).
  - rewrite u8_id by (unfold is_byte; lia). apply (tlv_emits BER_TAG_INTEGER 1 _ _ [v]); [lia|].
    apply (emits_final _ _ tt), emits_u8. unfold is_byte. lia.
  - rewrite u16_id by lia. apply (tlv_emits BER_TAG_INTEGER 2 _ _ (be16 v)); [lia|].
    apply (emits_final _ _ tt), emits_u16_be.
  - rewrite shiftr_div by lia. assert (0 <= v / 2 ^ 16 < 256) by (Z.div_mod_to_equations; lia).
    rewrite u8_id by done. change 65535 with (2 ^ 16 - 1). rewrite land_mask by lia.
    rewrite u16_id by (Z.div_mod_to_equations; lia).
    apply (tlv_emits BER_TAG_INTEGER 3 _ _ ([v / 65536] ++ be16 v)); [lia|].
    apply (emits_bind _ _ tt _ [_] _); [by apply emits_u8|]. rewrite <- be16_mod.
    apply (emits_final _ _ tt), emits_u16_be.
  - apply (tlv_emits BER_TAG_INTEGER 4 _ _ (be32 v)); [lia|].
    apply (emits_final _ _ tt), emits_u32_be.
  - apply (tlv_emits BER_TAG_INTEGER 4 _ _ (be32 v)); [lia|].
    apply (emits_final _ _ tt), emits_u32_be.
Qed.

Lemma ber_read_integer_enc v :
  0 <= v <= UINT32_MAX -> reads_back (ber_read_integer true) (enc_ber_integer v) (Some v).
Proof.
  unfold UINT32_MAX. intros Hv. unfold enc_ber_integer.
  destruct (v <? 128) eqn:E1; [|destruct (v <? 32768) eqn:E2; [|destruct (v <? 8388608) eqn:E3]].
  - apply (tlv_reads BER_TAG_INTEGER 1 _ _ _ [v]); [lia|]. intros s r Hr Hu. cbn in Hu.
    rd_step. replace (1 <=? zlen _) with true by zlist_lia. cbn [Z.eqb Pos.eqb]. rd_step. rd_done.
  - apply (tlv_reads BER_TAG_INTEGER 2 _ _ _ (be16 v)); [lia|]. intros s r Hr Hu.
    destruct (be16_value' v r) as (b0 & b1 & He & Hb); [lia|]. rewrite He in Hu. rd_step.
    replace (2 <=? zlen _) with true by zlist_lia. cbn [Z.eqb Pos.eqb]. rd_step.
    rewrite Hb. rd_done.
  - apply (tlv_reads BER_TAG_INTEGER 3 _ _ _ ([v / 65536] ++ be16 v)); [lia|]. intros s r Hr Hu.
    rewrite <- be16_mod, <- app_assoc in Hu.
    destruct (be16_value' (v mod 65536) r) as (b0 & b1 & He & Hb);
      [apply Z.mod_pos_bound; lia|].
    rewrite He in Hu. cbn [app] in Hu. rd_step.
    replace (3 <=? zlen _) with true by zlist_lia. cbn [Z.eqb Pos.eqb]. rd_step. rd_step.
    rewrite Hb, shiftl_mul by lia. rewrite u32_id by (Z.div_mod_to_equations; lia).
    replace (v mod 65536 + v / 65536 * 2 ^ 16) with v by (Z.div_mod_to_equations; lia). rd_done.
  - apply (tlv_reads BER_TAG_INTEGER 4 _ _ _ (be32 v)); [lia|]. intros s r Hr Hu.
    destruct (be32_value' v r) as (b0 & b1 & b2 & b3 & He & Hb); [lia|]. rewrite He in Hu. rd_step.
    replace (4 <=? zlen _) with true by zlist_lia. cbn [Z.eqb Pos.eqb]. rd_step.
    rewrite Hb. rd_done.
Qed.

Lemma ber_BOOL_emits (b : bool) : emits (ber_write_BOOL b) [1; 1; if b then 255 else 0].
Proof.
  apply (tlv_emits BER_TAG_BOOLEAN 1 _ _ [_]); [lia|].
  apply emits_u8. unfold is_byte. by destruct b.
Qed.

Lemma ber_BOOL_reads (b : bool) : reads_back ber_read_BOOL [1; 1; if b then 255 else 0] (Some b).
Proof.
  apply (tlv_reads BER_TAG_BOOLEAN 1 _ _ _ [_]); [lia|]. intros s r Hr Hu. cbn in Hu.
  cbn [Z.eqb Pos.eqb negb]. rd_step. replace (1 <=? zlen _) with true by zlist_lia. rd_step.
  by destruct b.
Qed.

Lemma ber_enumerated_emits v count :
  is_byte v -> emits (ber_write_enumerated v count) [10; 1; v].
Proof. intros Hv. apply (tlv_emits BER_TAG_ENUMERATED 1 _ _ [v]); [lia|by apply emits_u8]. Qed.

Lemma ber_enumerated_reads v count :
  0 <= v < count -> reads_back (ber_read_enumerated count) [10; 1; v] (Some v).
Proof.
  intros Hv. apply (tlv_reads BER_TAG_ENUMERATED 1 _ _ _ [v]); [lia|]. intros s r Hr Hu.
  cbn in Hu. cbn [Z.eqb Pos.eqb negb]. rd_step. replace (1 <=? zlen _) with true by zlist_lia.
  rd_step. by replace (count <? v + 1) with false by lia.
Qed.

Lemma ber_octet_string_emits l :
  Forall is_byte l -> zlen l <= UINT16_MAX ->
  emits_ret (ber_write_octet_string l) (ber_sizeof_octet_string (zlen l)) (enc_ber_octets l).
Proof.
  intros Hb Hl. unfold ber_write_octet_string, ber_sizeof_octet_string, enc_ber_octets. cbv zeta.
  apply (emits_bind _ _ 1 _ [4] _); [apply (universal_tag_emits BER_TAG_OCTET_STRING false)|].
  eapply emits_bind; [apply ber_write_length_emits; zlist_lia|].
  cut (emits_ret (Stream_Write l ;; pret (1 + _ber_sizeof_length (zlen l) + zlen l))
         (1 + _ber_sizeof_length (zlen l) + zlen l) (l ++ [])); [by rewrite app_nil_r|].
  eapply emits_bind; [by apply emits_bytes|apply emits_pret].
Qed.

Lemma zlen_enc_ber_octets l : zlen (enc_ber_octets l) = ber_sizeof_octet_string (zlen l).
Proof.
  unfold enc_ber_octets, ber_sizeof_octet_string. rewrite !zlen_app, zlen_enc_ber_length. zlist_lia.
Qed.

Lemma octet_string_tag_emits n :
  0 <= n <= UINT16_MAX -> emits_ret (ber_write_octet_string_tag n) (1 + _ber_sizeof_length n) (4 :: enc_ber_length n).
Proof.
  intros Hn. apply (emits_bind _ _ 1 _ [4] _); [apply (universal_tag_emits BER_TAG_OCTET_STRING false)|].
  by eapply emits_final, ber_write_length_emits.
Qed.

Lemma octet_string_tag_reads n :
  0 <= n <= UINT16_MAX -> reads_back ber_read_octet_string_tag (4 :: enc_ber_length n) (Some n).
Proof.
  intros Hn s r Hr Hu. change (unread s = [4] ++ enc_ber_length n ++ r) in Hu. unfold ber_read_octet_string_tag.
  rd_sub (universal_tag_reads BER_TAG_OCTET_STRING false) Hr Hu. cbn [negb].
  rewrite (ber_read_length_enc n Hn _ r) by done. rd_done.
Qed.

(** A value behind a contextual tag. *)
Definition behind_contextual {A} (tag : Z) (rd : Prog wStream (option A)) : Prog wStream (option A) :=
  n <- ber_read_contextual_tag tag true ;; match n with Some _ => rd | None => pret None end.

Lemma behind_contextual_reads {A} tag (rd : Prog wStream (option A)) bs v :
  zlen bs <= UINT16_MAX -> reads_back rd bs v ->
  reads_back (behind_contextual tag rd) (ber_id BER_CLASS_CTXT true tag :: enc_ber_length (zlen bs) ++ bs) v.
Proof.
  intros Hz Hrd s r Hr Hu. change (unread s = (ber_id BER_CLASS_CTXT true tag :: enc_ber_length (zlen bs)) ++ bs ++ r) in Hu || rewrite <- app_comm_cons, <- app_assoc, app_comm_cons in Hu.
  unfold behind_contextual. rd_sub (contextual_tag_reads tag (zlen bs) true ltac:(zlist_lia)) Hr Hu.
  rewrite (Hrd _ r) by done. rd_done.
Qed.

Lemma ber_octet_string_reads `{Malloc} l :
  zlen l <= UINT16_MAX -> malloc_ok (zlen l) = true ->
  reads_back ber_read_octet_string (enc_ber_octets l) (Some l).
Proof.
  intros Hl Hm s r Hr Hu. unfold enc_ber_octets in *. rewrite <- !app_assoc in Hu.
  unfold ber_read_octet_string.
  pose proof (octet_string_tag_reads (zlen l) ltac:(zlist_lia)) as Htag.
  change (4 :: enc_ber_length (zlen l)) with ([4] ++ enc_ber_length (zlen l)) in Htag. rewrite app_assoc in Hu. rd_sub Htag Hr Hu. rd_step.
  replace (zlen l <=? zlen (l ++ r)) with true by zlist_lia. cbn [negb]. rewrite Hm. cbn [negb].
  assert (Hfit : 0 <= zlen l <= zlen (l ++ r)) by zlist_lia.
  rewrite (pbind_ret _ _ _ l (advance (advance s (zlen ([4] ++ enc_ber_length (zlen l)))) (zlen l))).
  - rd_done.
  - rewrite read_bytes_spec by (rewrite ?Hu0; done || lia).
    rewrite Hu0, ztake_app, ztake_all, ztake_0 by lia. by rewrite app_nil_r.
Qed.

Lemma contextual_octet_string_emits tag l :
  Forall is_byte l -> ber_sizeof_octet_string (zlen l) <= UINT16_MAX ->
  emits_ret (ber_write_contextual_octet_string tag l)
    (ber_sizeof_contextual_octet_string (zlen l))
    (ber_id BER_CLASS_CTXT true tag :: enc_ber_length (zlen (enc_ber_octets l)) ++ enc_ber_octets l).
Proof.
  intros Hb Hl. unfold ber_write_contextual_octet_string, ber_sizeof_contextual_octet_string.
  cbv zeta. rewrite zlen_enc_ber_octets.
  assert (Hpos : 1 < ber_sizeof_octet_string (zlen l)).
  { unfold ber_sizeof_octet_string, _ber_sizeof_length. repeat case_if; zlist_lia. }
  rewrite app_comm_cons. eapply emits_bind; [apply contextual_tag_emits; lia|]. cbv beta.
  replace (ber_sizeof_contextual_tag _ =? 0) with false
    by (unfold ber_sizeof_contextual_tag, _ber_sizeof_length; repeat case_if; lia).
  rewrite <- (app_nil_r (enc_ber_octets l)).
  eapply emits_bind; [apply ber_octet_string_emits; [done|]|].
  { unfold ber_sizeof_octet_string, _ber_sizeof_length in Hl.
    repeat case_match; unfold UINT16_MAX in *; lia. }
  replace (ber_sizeof_octet_string (zlen l) =? 0) with false by lia. apply emits_pret.
Qed.

(** The writer asks for more room than it needs. *)
Lemma contextual_integer_run `{Malloc} tag v s :
  0 <= v <= UINT32_MAX -> stream_ok s -> ber_sizeof_integer v + 5 <= room s ->
  ber_write_contextual_integer tag v s =
    Ret (ber_sizeof_contextual_integer v, put_bytes s (ber_id BER_CLASS_CTXT true tag :: enc_ber_length (zlen (enc_ber_integer v)) ++ enc_ber_integer v)).
Proof.
  intros Hv Hs Hroom. destruct (ber_write_integer_emits v Hv) as [Hi Hz].
  assert (Hlen : 3 <= ber_sizeof_integer v <= 6) by (unfold ber_sizeof_integer; repeat case_if; lia).
  unfold ber_write_contextual_integer. cbv zeta. rewrite (pbind_ret _ _ _ _ _ (ensure_fits s (ber_sizeof_integer v + 5) Hs ltac:(lia))). cbv beta. rewrite pbind_passert. cbv iota. rewrite Hz.
  assert (He : emits_ret (n <- ber_write_contextual_tag tag (ber_sizeof_integer v) true ;; ber_write_integer v ;; pret (ber_sizeof_integer v + n))
    (ber_sizeof_integer v + ber_sizeof_contextual_tag (ber_sizeof_integer v))
    ((ber_id BER_CLASS_CTXT true tag :: enc_ber_length (ber_sizeof_integer v)) ++ enc_ber_integer v)).
  { eapply emits_bind; [apply contextual_tag_emits; unfold UINT16_MAX; lia|]. by eapply emits_final. }
  destruct He as [_ He]. cbn [app] in He. rewrite He; [|done|rewrite zlen_cons, zlen_app, zlen_enc_ber_length, Hz; unfold _ber_sizeof_length; repeat case_if; lia].
  unfold ber_sizeof_contextual_integer. cbv zeta. by rewrite Z.add_comm.
Qed.
End ber_values.

(** The writer [wr] stores [bs] and returns the size [a]; the reader [rd] decodes [bs] to [w];
    on the stream [s] the two compose. *)
Definition ber_matches {A B} (s : wStream) (wr : Prog wStream A) (a : A) (rd : Prog wStream B)
    (w : B) (bs : list Z) : Prop :=
  emits_ret wr a bs /\ reads_back rd bs w /\
  (zlen bs <= room s ->
   exists s' r, wr s = Ret (a, s') /\ Stream_Reread (pointer s) s' = Ret (true, r) /\
                rd r = Ret (w, advance r (pointer s' - pointer s))).

Lemma ber_matches_intro {A B} s (wr : Prog wStream A) a (rd : Prog wStream B) w bs :
  growable s -> emits_ret wr a bs -> reads_back rd bs w -> ber_matches s wr a rd w bs.
Proof. intros Hg Hw Hr. split_and!; [done|done|]. by apply emits_reads. Qed.

Lemma contextual_integer_matches `{Malloc} s tag v :
  growable s -> 0 <= v <= UINT32_MAX -> ber_sizeof_integer v + 5 <= room s ->
  exists s' r, ber_write_contextual_integer tag v s = Ret (ber_sizeof_contextual_integer v, s') /\
    Stream_Reread (pointer s) s' = Ret (true, r) /\ pointer s' = pointer s + ber_sizeof_contextual_integer v /\
    behind_contextual tag (ber_read_integer true) r = Ret (Some v, advance r (pointer s' - pointer s)).
Proof.
  intros Hg Hv Hroom. set (bs := ber_id BER_CLASS_CTXT true tag :: enc_ber_length (zlen (enc_ber_integer v)) ++ enc_ber_integer v).
  destruct (ber_write_integer_emits v Hv) as [[Hbi _] Hz].
  assert (Hlen : 3 <= ber_sizeof_integer v <= 6) by (unfold ber_sizeof_integer; repeat case_if; lia).
  assert (Hzb : zlen bs = ber_sizeof_contextual_integer v)
    by (unfold bs, ber_sizeof_contextual_integer, ber_sizeof_contextual_tag; rewrite zlen_cons, zlen_app, zlen_enc_ber_length, Hz; lia).
  assert (Hfit : zlen bs <= room s)
    by (rewrite Hzb; unfold ber_sizeof_contextual_integer, ber_sizeof_contextual_tag, _ber_sizeof_length; repeat case_if; lia).
  assert (Hb : Forall is_byte bs).
  { apply Forall_cons. split; [apply ber_id_byte|]. apply Forall_app. split; [|done].
    apply ber_write_length_emits. unfold UINT16_MAX. lia. }
  assert (Hr : reads_back (behind_contextual tag (ber_read_integer true)) bs (Some v))
    by (apply behind_contextual_reads; [unfold UINT16_MAX; lia|by apply ber_read_integer_enc]).
  pose proof (contextual_integer_run tag v s Hv (proj1 Hg) Hroom) as Ew. fold bs in Ew.
  assert (He : emits_ret (fun s => Ret (tt, put_bytes s bs)) tt bs) by (by split).
  destruct (emits_reads _ _ _ _ _ s He Hr Hg Hfit) as (s' & r & E1 & E2 & E3). injection E1 as <-.
  exists (put_bytes s bs), r. split; [exact Ew|]. split; [done|]. split; [|done]. by rewrite <- Hzb.
Qed.

(** ** Properties *)

(** C32: whatever bytes a peer sends, each of the BER readers of this file (all of ber.c but
    [ber_read_char_from_unicode_octet_string]), started on a valid stream, returns; no assertion
    fails, nothing outside the valid bytes is read, nothing outside of an allocation is written, the
    stream data is unchanged and the cursor stays inside the data. *)
Theorem ber_readers_safe `{Malloc} (s : wStream) (tag count : Z) (pc want : bool) :
  readable s ->
  safe_at ber_read_length s /\ safe_at (ber_read_universal_tag tag pc) s /\
  safe_at (ber_read_application_tag tag) s /\ safe_at (ber_read_contextual_tag tag pc) s /\
  safe_at ber_read_sequence_tag s /\ safe_at (ber_read_enumerated count) s /\
  safe_at ber_read_bit_string s /\ safe_at ber_read_octet_string_tag s /\ safe_at ber_read_octet_string s /\
  safe_at ber_read_unicode_octet_string s /\ safe_at ber_read_BOOL s /\
  safe_at (ber_read_integer want) s /\ safe_at ber_read_integer_length s.
Proof.
  intros Hr. split_and!; auto using ber_read_length_safe, ber_read_universal_tag_safe,
    ber_read_application_tag_safe, ber_read_contextual_tag_safe, ber_read_sequence_tag_safe,
    ber_read_enumerated_safe, ber_read_bit_string_safe, ber_read_octet_string_tag_safe, ber_read_octet_string_safe,
    ber_read_unicode_octet_string_safe, ber_read_BOOL_safe, ber_read_integer_safe.
  apply safe_bind; [by apply ber_read_universal_tag_safe|done|].
  intros [] k _ Hk; cbn [negb]; [by apply ber_read_length_safe|by apply safe_ret].
Qed.

Lemma ber_readers_safe_witness : safe_at (ber_read_integer true) (blank_stream 3).
Proof.
  assert (Hr : readable (blank_stream 3)) by (split; [apply blank_stream_growable; lia|done]).
  apply (ber_readers_safe (H := malloc_all) (blank_stream 3) 0 0 true true Hr).
Defined.

(** C31: each of the BER writers of this file (all of ber.c but the three that convert or copy UTF-16
    strings), with enough room, stores exactly the octets of its value and returns the size that the
    matching [ber_sizeof_...] function announces, where there is one; the matching reader, started where
    the writer started, returns the value and stops where the writer stopped.  Integers cover all of
    UINT32, lengths and tags all lengths up to 2^16-1; a contextual integer asks for five octets of room
    beyond the integer, and an octet string is read when its allocation succeeds. *)
Theorem ber_roundtrip `{Malloc} (s : wStream) (tag v n count : Z) (b pc : bool) (l : list Z) :
  growable s ->
  (0 <= v <= UINT32_MAX ->
     ber_matches s (ber_write_integer v) (ber_sizeof_integer v) (ber_read_integer true) (Some v)
       (enc_ber_integer v) /\
     (ber_sizeof_integer v + 5 <= room s ->
      exists s' r, ber_write_contextual_integer tag v s = Ret (ber_sizeof_contextual_integer v, s') /\
        Stream_Reread (pointer s) s' = Ret (true, r) /\ pointer s' = pointer s + ber_sizeof_contextual_integer v /\
        behind_contextual tag (ber_read_integer true) r = Ret (Some v, advance r (pointer s' - pointer s)))) /\
  ber_matches s (ber_write_BOOL b) tt ber_read_BOOL (Some b) [1; 1; if b then 255 else 0] /\
  ber_matches s (ber_write_universal_tag tag pc) 1 (ber_read_universal_tag tag pc) true [ber_id BER_CLASS_UNIV pc tag] /\
  (0 <= v < count /\ count <= 255 ->
     ber_matches s (ber_write_enumerated v count) tt (ber_read_enumerated count) (Some v) [10; 1; v]) /\
  (0 <= n <= UINT16_MAX ->
     ber_matches s (ber_write_length n) (_ber_sizeof_length n) ber_read_length (Some n) (enc_ber_length n) /\
     ber_matches s (ber_write_sequence_tag n) (ber_sizeof_sequence_tag n) ber_read_sequence_tag (Some n)
       (48 :: enc_ber_length n) /\
     ber_matches s (ber_write_octet_string_tag n) (ber_sizeof_octet_string n - n) ber_read_octet_string_tag (Some n)
       (4 :: enc_ber_length n) /\
     ber_matches s (ber_write_contextual_tag tag n pc) (ber_sizeof_contextual_tag n)
       (ber_read_contextual_tag tag pc) (Some n)
       (ber_id BER_CLASS_CTXT pc tag :: enc_ber_length n) /\
     (is_byte tag ->
      ber_matches s (ber_write_application_tag tag n) tt (ber_read_application_tag tag) (Some n)
        (enc_ber_app_tag tag n))) /\
  (Forall is_byte l /\ zlen l <= UINT16_MAX /\ malloc_ok (zlen l) = true ->
     ber_matches s (ber_write_octet_string l) (ber_sizeof_octet_string (zlen l)) ber_read_octet_string
       (Some l) (enc_ber_octets l) /\
     (ber_sizeof_octet_string (zlen l) <= UINT16_MAX ->
      ber_matches s (ber_write_contextual_octet_string tag l) (ber_sizeof_contextual_octet_string (zlen l))
        (behind_contextual tag ber_read_octet_string) (Some l)
        (ber_id BER_CLASS_CTXT true tag :: enc_ber_length (zlen (enc_ber_octets l)) ++ enc_ber_octets l))).
Proof.
  intros Hg.
  pose proof (fun A B wr a rd w bs => @ber_matches_intro A B s wr a rd w bs Hg) as Hb.
  split; [|split; [apply Hb; [apply ber_BOOL_emits|apply ber_BOOL_reads]|]].
  2: split; [apply Hb; [apply universal_tag_emits|apply universal_tag_reads]|split; [|split]].
  - intros Hv. split; [apply Hb; [by apply ber_write_integer_emits|by apply ber_read_integer_enc]|].
    intros Hroom. by apply contextual_integer_matches.
  - intros [Hv Hc]. apply Hb; [apply ber_enumerated_emits; unfold is_byte; lia|].
    by apply ber_enumerated_reads.
  - intros Hn. replace (ber_sizeof_octet_string n - n) with (1 + _ber_sizeof_length n) by (unfold ber_sizeof_octet_string; lia).
    do 4 (split; [apply Hb; auto using ber_write_length_emits, ber_read_length_enc, sequence_tag_emits,
        sequence_tag_reads, octet_string_tag_emits, octet_string_tag_reads, contextual_tag_emits, contextual_tag_reads|]).
    intros Ht. apply Hb; [by apply application_tag_emits|by apply application_tag_reads].
  - intros (Hl & Hn & Hm). split; [apply Hb; [by apply ber_octet_string_emits|by apply ber_octet_string_reads]|].
    intros Hsz. apply Hb; [by apply contextual_octet_string_emits|].
    apply behind_contextual_reads; [by rewrite zlen_enc_ber_octets|by apply ber_octet_string_reads].
Qed.

Lemma ber_roundtrip_witness :
  growable (blank_stream 16) /\
  emits_ret (ber_write_integer 100000) 5 [2; 3; 1; 134; 160] /\
  reads_back (ber_read_integer true) [2; 3; 1; 134; 160] (Some 100000).
Proof.
  assert (Hg : growable (blank_stream 16)) by (apply blank_stream_growable; lia).
  split; [exact Hg|].
  destruct (ber_roundtrip (H := malloc_all) (blank_stream 16) 0 100000 0 0 true true [] Hg)
    as (Hi & _).
  destruct (Hi ltac:(unfold UINT32_MAX; lia)) as [(Hw & Hr & _) _].
  split; [exact Hw|exact Hr].
Defined.
