(* ===== verification/Framing.v ===== *)
(** * TPKT and X.224 framing: [libfreerdp/core/tpkt.c], [libfreerdp/core/tpdu.c]

    Every slow-path RDP packet starts with a TPKT header (RFC 1006) and an X.224 TPDU
    header.  The file models the readers and writers of both headers, proves what each
    accepts on every input, that no input drives a reader outside of the stream, and that a
    frame written by one peer is delimited exactly by the other. *)

From S2P Require Import Prelude Memory Stream.

(** ** TPKT *)

Definition TPKT_HEADER_LENGTH : Z := 4.

Definition tpkt_verify_header : Prog wStream Z :=
  ok <- Stream_CheckAndLogRequiredLength 1 ;;
  if negb ok then pret (-1)
  else
    version <- stream_read_u8 false ;;
    if version =? 3 then pret 1 else pret 0.

(** [None] is FALSE, [Some length] is TRUE with [*length] set. *)
Definition tpkt_read_header : Prog wStream (option Z) :=
  ok <- Stream_CheckAndLogRequiredLength 1 ;;
  if negb ok then pret None
  else
    version <- stream_read_u8 false ;;
    if version =? 3 then
      ok <- Stream_CheckAndLogRequiredLength 4 ;;
      if negb ok then pret None
      else
        Stream_Seek 2 ;;
        len <- stream_read_u16_be true ;;
        if len <? 7 then pret None
        else
          ok <- Stream_CheckAndLogRequiredLength (len - 4) ;;
          if negb ok then pret None else pret (Some len)
    else pret (Some 0).

Definition tpkt_ensure_stream_consumed (length : Z) : Prog wStream bool :=
  if UINT16_MAX <? length then pret false
  else
    rem <- Stream_GetRemainingLength ;;
    if 0 <? rem then pret false else pret true.

Definition tpkt_write_header (length : Z) : Prog wStream bool :=
  ok <- Stream_CheckAndLogRequiredCapacity 4 ;;
  if negb ok then pret false
  else
    Stream_Write_UINT8 3 ;;
    Stream_Write_UINT8 0 ;;
    Stream_Write_UINT16_BE length ;;
    pret true.

(** ** TPDU *)

Definition X224_TPDU_CONNECTION_REQUEST : Z := 224.
Definition X224_TPDU_CONNECTION_CONFIRM : Z := 208.
Definition X224_TPDU_DISCONNECT_REQUEST : Z := 128.
Definition X224_TPDU_DATA : Z := 240.
Definition X224_TPDU_ERROR : Z := 112.

(** [None] is FALSE, [Some (code, li)] is TRUE with [*code] and [*li] set. *)
Definition tpdu_read_header (tpktlength : Z) : Prog wStream (option (Z * Z)) :=
  ok <- Stream_CheckAndLogRequiredLength 3 ;;
  if negb ok then pret None
  else
    li <- stream_read_u8 true ;;
    code <- stream_read_u8 true ;;
    if tpktlength <? li + 4 then pret None
    else if code =? X224_TPDU_DATA then
      Stream_Seek 1 ;;
      pret (Some (code, li))
    else
      ok <- Stream_SafeSeekEx 5 ;;
      if negb ok then pret None else pret (Some (code, li)).

Definition tpdu_write_header (length code : Z) : Prog wStream bool :=
  ok <- Stream_CheckAndLogRequiredCapacity 3 ;;
  if negb ok then pret false
  else
    Stream_Write_UINT8 (u8 length) ;;
    Stream_Write_UINT8 code ;;
    if code =? X224_TPDU_DATA then
      Stream_Write_UINT8 128 ;;
      pret true
    else
      ok <- Stream_CheckAndLogRequiredCapacity 5 ;;
      if negb ok then pret false
      else
        Stream_Write_UINT16 0 ;;
        Stream_Write_UINT16 0 ;;
        Stream_Write_UINT8 0 ;;
        pret true.

Definition tpdu_read_connection_request (tpktlength : Z) : Prog wStream (option Z) :=
  h <- tpdu_read_header tpktlength ;;
  match h with
  | None => pret None
  | Some (code, li) =>
      if negb (code =? X224_TPDU_CONNECTION_REQUEST) then pret None else pret (Some li)
  end.

Definition tpdu_write_connection_request (length : Z) : Prog wStream bool :=
  tpdu_write_header length X224_TPDU_CONNECTION_REQUEST.

Definition tpdu_read_connection_confirm (tpktlength : Z) : Prog wStream (option Z) :=
  position <- Stream_GetPosition ;;
  h <- tpdu_read_header tpktlength ;;
  match h with
  | None => pret None
  | Some (code, li) =>
      if negb (code =? X224_TPDU_CONNECTION_CONFIRM) then pret None
      else
        here <- Stream_GetPosition ;;
        let bytes_read := u64 (u64 (here - position) - 1) in
        ok <- Stream_CheckAndLogRequiredLength (u64 (li - bytes_read)) ;;
        if negb ok then pret None else pret (Some li)
  end.

Definition tpdu_write_connection_confirm (length : Z) : Prog wStream bool :=
  tpdu_write_header length X224_TPDU_CONNECTION_CONFIRM.

Definition tpdu_write_disconnect_request (length : Z) : Prog wStream bool :=
  tpdu_write_header length X224_TPDU_DISCONNECT_REQUEST.

Definition tpdu_write_data : Prog wStream bool := tpdu_write_header 2 X224_TPDU_DATA.

Definition tpdu_read_data (tpktlength : Z) : Prog wStream (option Z) :=
  h <- tpdu_read_header tpktlength ;;
  match h with
  | None => pret None
  | Some (code, li) => if negb (code =? X224_TPDU_DATA) then pret None else pret (Some li)
  end.

(** ** What the readers do on every input *)

Section runs.
Implicit Types s : wStream.

Lemma tpkt_read_header_run s :
  readable s ->
  tpkt_read_header s =
    match unread s with
    | [] => Ret (None, s)
    | v :: r =>
        if negb (v =? 3) then Ret (Some 0, s)
        else match r with
             | _ :: b0 :: b1 :: p =>
                 let len := b0 * 256 + b1 in
                 Ret (if (7 <=? len) && (len - 4 <=? zlen p) then Some len else None,
                      advance s 4)
             | _ => Ret (None, s)
             end
    end.
Proof.
  intros Hr. unfold tpkt_read_header. destruct (unread s) as [|v r] eqn:Hu; rd_step; [done|].
  replace (1 <=? zlen (v :: r)) with true by zlist_lia. rd_step.
  destruct (v =? 3); cbn [negb]; [|done]. rd_step.
  destruct r as [|x [|b0 [|b1 p]]]; try done.
  replace (4 <=? zlen _) with true by zlist_lia. cbn [negb].
  assert (Hs : Stream_Seek 2 s = Ret (tt, advance s 2))
    by (apply seek_spec; [done|rewrite Hu; zlist_lia]).
  rewrite (pbind_ret _ _ _ _ _ Hs). clear Hs.
  assert (Hr' : readable (advance s 2)) by (apply readable_advance; [done|rewrite Hu; zlist_lia]).
  assert (Hu' : unread (advance s 2) = b0 :: b1 :: p) by (rewrite unread_advance, Hu; done).
  rd_step. rewrite advance_advance in *. change (2 + 2) with 4 in *.
  destruct (b0 * 256 + b1 <? 7) eqn:E.
  - by replace (7 <=? b0 * 256 + b1) with false by lia.
  - rd_step. replace (7 <=? b0 * 256 + b1) with true by lia. cbn [andb].
    by destruct (b0 * 256 + b1 - 4 <=? zlen p).
Qed.

Lemma safe_seek_ex_run n s :
  readable s -> 0 <= n ->
  Stream_SafeSeekEx n s =
    if n <=? zlen (unread s) then Ret (true, advance s n) else Ret (false, s).
Proof.
  intros Hr Hn. unfold Stream_SafeSeekEx.
  change (Stream_CheckAndLogRequiredLengthEx n 1) with (Stream_CheckAndLogRequiredLength n).
  rewrite (pbind_ret _ _ _ _ _ (check_length_spec s n Hr)).
  destruct (n <=? zlen (unread s)) eqn:E; cbn [negb]; [|done].
  unfold pbind. by rewrite seek_spec by (done || lia).
Qed.

(** The number of octets of the fixed part of a TPDU header. *)
Lemma tpdu_read_header_run s tpktlength :
  readable s ->
  tpdu_read_header tpktlength s =
    match unread s with
    | li :: code :: x :: p =>
        if tpktlength <? li + 4 then Ret (None, advance s 2)
        else if code =? X224_TPDU_DATA then Ret (Some (code, li), advance s 3)
        else if 4 <=? zlen p then Ret (Some (code, li), advance s 7)
        else Ret (None, advance s 2)
    | _ => Ret (None, s)
    end.
Proof.
  intros Hr. unfold tpdu_read_header.
  destruct (unread s) as [|li [|code [|x p]]] eqn:Hu; rd_step; try done.
  replace (3 <=? zlen _) with true by zlist_lia. rd_step. rd_step.
  rewrite advance_advance in *. change (1 + 1) with 2 in *.
  destruct (tpktlength <? li + 4); [done|]. destruct (code =? X224_TPDU_DATA).
  - unfold pbind. rewrite seek_spec by (done || (rewrite Hu; zlist_lia)).
    unfold pret. by rewrite advance_advance.
  - unfold pbind. rewrite safe_seek_ex_run, Hu by done. rewrite zlen_cons.
    replace (5 <=? 1 + zlen p) with (4 <=? zlen p) by lia.
    destruct (4 <=? zlen p); cbn [negb]; unfold pret; [by rewrite advance_advance|done].
Qed.

Lemma get_position_run s : stream_ok s -> Stream_GetPosition s = Ret (pointer s, s).
Proof.
  intros []. unfold Stream_GetPosition, pbind, pget, passert, pret.
  case_if; [|lia]. by rewrite u64_id by lia.
Qed.

Lemma tpdu_read_connection_confirm_run s tpktlength :
  readable s ->
  tpdu_read_connection_confirm tpktlength s =
    match unread s with
    | li :: code :: x :: p =>
        if tpktlength <? li + 4 then Ret (None, advance s 2)
        else if code =? X224_TPDU_DATA then Ret (None, advance s 3)
        else if 4 <=? zlen p then
          Ret (if (code =? X224_TPDU_CONNECTION_CONFIRM) && (6 <=? li) && (li - 2 <=? zlen p)
               then Some li else None, advance s 7)
        else Ret (None, advance s 2)
    | _ => Ret (None, s)
    end.
Proof.
  intros Hr. unfold tpdu_read_connection_confirm.
  rewrite (pbind_ret _ _ _ _ _ (get_position_run s (readable_ok s Hr))).
  unfold pbind at 1. rewrite tpdu_read_header_run by done.
  pose proof (unread_bytes s Hr) as HB.
  destruct (unread s) as [|li [|code [|x p]]] eqn:Hu; try done.
  destruct (tpktlength <? li + 4); [done|].
  destruct (code =? X224_TPDU_DATA) eqn:Ed.
  { apply Z.eqb_eq in Ed as ->. done. }
  destruct (4 <=? zlen p) eqn:Ep; [|done].
  destruct (code =? X224_TPDU_CONNECTION_CONFIRM) eqn:Ec; cbn [negb andb]; [|done].
  assert (Hr' : readable (advance s 7)) by (apply readable_advance; [done|rewrite Hu; zlist_lia]).
  rewrite (pbind_ret _ _ _ _ _ (get_position_run _ (readable_ok _ Hr'))). cbn zeta.
  rewrite (pbind_ret _ _ _ _ _ (check_length_spec _ _ Hr')).
  replace (pointer (advance s 7) - pointer s) with 7 by (cbn; lia).
  change (u64 (u64 7 - 1)) with 6.
  assert (Hl : zlen (unread (advance s 7)) = zlen p - 4)
    by (rewrite unread_advance, zlen_zdrop, Hu by (done || lia); zlist_lia).
  rewrite Hl. apply Forall_cons in HB as [Hli _]. unfold is_byte in Hli.
  destruct (6 <=? li) eqn:E6; cbn [andb].
  - rewrite u64_id by lia. replace (li - 6 <=? zlen p - 4) with (li - 2 <=? zlen p) by lia.
    by destruct (li - 2 <=? zlen p).
  - assert (u64 (li - 6) = li - 6 + 2 ^ 64) as ->.
    { unfold u64. rewrite <- (Z_mod_plus_full _ 1). apply Z.mod_small. lia. }
    pose proof (zlen_unread _ Hr') as Hz. destruct Hr' as [[_ Hcap Hsl Hpp _] _].
    by replace (li - 6 + 2 ^ 64 <=? zlen p - 4) with false by lia.
Qed.
End runs.

(** ** What the writers do on every stream *)

Definition enc_tpkt (length : Z) : list Z := [3; 0] ++ be16 length.

(** Octets of a TPDU header: LI and code, then EOT or DST-REF, SRC-REF and class. *)
Definition enc_tpdu (length code : Z) : list Z :=
  [u8 length; code] ++ if code =? X224_TPDU_DATA then [128] else [0; 0; 0; 0; 0].

Lemma zlen_enc_tpkt n : zlen (enc_tpkt n) = 4.
Proof. reflexivity. Qed.
Lemma zlen_enc_data n : zlen (enc_tpdu n X224_TPDU_DATA) = 3.
Proof. reflexivity. Qed.
#[export] Hint Rewrite zlen_enc_tpkt zlen_enc_data : zlist.

Section writers.
Implicit Types s : wStream.

Lemma check_capacity_spec s n :
  stream_ok s -> Stream_CheckAndLogRequiredCapacity n s = Ret (n <=? room s, s).
Proof.
  intros Hs. unfold Stream_CheckAndLogRequiredCapacity, Stream_CheckAndLogRequiredCapacityEx.
  unfold pbind, passert at 1. cbn [Z.eqb negb]. rewrite remaining_capacity_spec by done.
  rewrite Z.div_1_r. unfold pret. repeat case_if; (repeat f_equal; lia) || lia.
Qed.

Lemma emits_check_capacity {A} n (k : bool -> Prog wStream A) a bs :
  n <= zlen bs -> emits_ret (k true) a bs ->
  emits_ret (pbind (Stream_CheckAndLogRequiredCapacity n) k) a bs.
Proof.
  intros Hn [Hb Hk]. split; [done|]. intros s Hs Hfit.
  rewrite (pbind_ret _ _ _ _ _ (check_capacity_spec s n Hs)).
  replace (n <=? room s) with true by lia. by apply Hk.
Qed.

Lemma tpkt_write_header_emits n : emits_ret (tpkt_write_header n) true (enc_tpkt n).
Proof.
  apply emits_check_capacity; [unfold enc_tpkt; zlist_lia|]. cbn [negb].
  apply (emits_bind _ _ tt _ [3]); [apply emits_u8; unfold is_byte; lia|].
  apply (emits_bind _ _ tt _ [0]); [apply emits_u8; unfold is_byte; lia|].
  eapply emits_final, emits_u16_be.
Qed.

Lemma tpdu_write_header_emits n code :
  is_byte code -> emits_ret (tpdu_write_header n code) true (enc_tpdu n code).
Proof.
  intros Hc. unfold enc_tpdu, tpdu_write_header.
  apply emits_check_capacity; [case_if; zlist_lia|]. cbn [negb].
  apply (emits_bind _ _ tt _ [u8 n]); [apply emits_u8, u8_byte|].
  apply (emits_bind _ _ tt _ [code]); [by apply emits_u8|].
  destruct (code =? X224_TPDU_DATA).
  - eapply emits_final, emits_u8. unfold is_byte. lia.
  - apply emits_check_capacity; [zlist_lia|]. cbn [negb].
    apply (emits_bind _ _ tt _ [0; 0]); [apply (emits_u16_le 0)|].
    apply (emits_bind _ _ tt _ [0; 0]); [apply (emits_u16_le 0)|].
    eapply emits_final, emits_u8. unfold is_byte. lia.
Qed.

Lemma tpkt_write_header_full n s :
  stream_ok s -> room s < 4 -> tpkt_write_header n s = Ret (false, s).
Proof.
  intros Hs Hroom. unfold tpkt_write_header.
  rewrite (pbind_ret _ _ _ _ _ (check_capacity_spec s 4 Hs)).
  by replace (4 <=? room s) with false by lia.
Qed.

(** Short of room the header writer says so; it may already have stored LI and code. *)
Lemma tpdu_write_header_full n code s :
  stream_ok s -> is_byte code -> room s < zlen (enc_tpdu n code) ->
  tpdu_write_header n code s =
    Ret (false, if room s <? 3 then s else put_bytes s [u8 n; code]).
Proof.
  intros Hs Hc. unfold enc_tpdu, tpdu_write_header.
  rewrite (pbind_ret _ _ _ _ _ (check_capacity_spec s 3 Hs)).
  destruct (room s <? 3) eqn:E3; [by replace (3 <=? room s) with false by lia|].
  replace (3 <=? room s) with true by lia. cbn [negb].
  destruct (code =? X224_TPDU_DATA) eqn:Ed; [zlist_lia|]. intros Hroom.
  rewrite (pbind_ret _ _ _ _ _ (write_u8_spec s (u8 n) Hs ltac:(lia) (u8_byte n))).
  assert (Hs1 : stream_ok (put_bytes s [u8 n]))
    by (apply put_bytes_ok; [done|zlist_lia|]; rewrite !Forall_cons; auto using u8_byte).
  rewrite (pbind_ret _ _ _ _ _ (write_u8_spec _ code Hs1 ltac:(rewrite room_put_bytes; zlist_lia) Hc)).
  rewrite put_bytes_app by (done || zlist_lia). cbn [app].
  assert (Hs2 : stream_ok (put_bytes s [u8 n; code])).
  { apply put_bytes_ok; [done|zlist_lia|]. rewrite !Forall_cons. auto using u8_byte. }
  rewrite (pbind_ret _ _ _ _ _ (check_capacity_spec _ 5 Hs2)).
  rewrite room_put_bytes. by replace (5 <=? _) with false by zlist_lia.
Qed.
End writers.

(** ** Reading headers back *)

Section readback.
Lemma tpkt_verify_reads n : forall s r, readable s -> unread s = enc_tpkt n ++ r ->
  tpkt_verify_header s = Ret (1, s).
Proof.
  intros s r Hr Hu. unfold tpkt_verify_header. unfold enc_tpkt in Hu. cbn in Hu.
  rd_step. replace (1 <=? zlen _) with true by zlist_lia. rd_step. done.
Qed.

(** A header announces the whole packet, so its reader needs the packet to be there. *)
Lemma tpkt_read_header_enc len p s r :
  7 <= len <= UINT16_MAX -> len = 4 + zlen p -> readable s -> unread s = enc_tpkt len ++ p ++ r ->
  tpkt_read_header s = Ret (Some len, advance s 4).
Proof.
  unfold UINT16_MAX. intros Hlen Hp Hr Hu. rewrite tpkt_read_header_run, Hu by done.
  unfold enc_tpkt. cbn [app be16]. change (negb (3 =? 3)) with false. cbn iota zeta.
  rewrite be16_value by lia. replace (7 <=? len) with true by lia.
  by replace (len - 4 <=? zlen (p ++ r)) with true by zlist_lia.
Qed.

Lemma tpdu_read_header_enc n code tpktlength :
  is_byte code -> 0 <= n < 256 -> n + 4 <= tpktlength ->
  reads_back (tpdu_read_header tpktlength) (enc_tpdu n code) (Some (code, n)).
Proof.
  intros Hc Hn Ht s r Hr Hu. rewrite tpdu_read_header_run, Hu by done. unfold enc_tpdu.
  rewrite u8_id by (unfold is_byte; lia). destruct (code =? X224_TPDU_DATA) eqn:Ed; cbn [app].
  - rewrite Ed. by replace (tpktlength <? n + 4) with false by lia.
  - rewrite Ed. replace (tpktlength <? n + 4) with false by lia.
    by replace (4 <=? _) with true by zlist_lia.
Qed.
End readback.

(** One slow-path data packet, as the senders of the core compose it, and its receiver. *)
Definition send_data_frame (payload : list Z) : Prog wStream bool :=
  ok <- tpkt_write_header (7 + zlen payload) ;;
  if negb ok then pret false
  else
    ok <- tpdu_write_data ;;
    if negb ok then pret false else Stream_Write payload ;; pret true.

Definition recv_data_frame : Prog wStream (option (list Z)) :=
  h <- tpkt_read_header ;;
  match h with
  | None => pret None
  | Some length =>
      d <- tpdu_read_data length ;;
      match d with
      | None => pret None
      | Some li =>
          payload <- Stream_Read (length - 7) ;;
          ok <- tpkt_ensure_stream_consumed length ;;
          if negb ok then pret None else pret (Some payload)
      end
  end.

Section frames.
Lemma tpkt_read_header_safe s : readable s -> safe_at tpkt_read_header s.
Proof. intros. unfold tpkt_read_header. solve_safe. Qed.

Lemma tpdu_read_header_safe n s : readable s -> safe_at (tpdu_read_header n) s.
Proof.
  intros Hr. unfold safe_at. rewrite tpdu_read_header_run by done.
  destruct (unread s) as [|li [|code [|x p]]].
  1-3: do 2 eexists; split; [by rewrite <- (advance_0 s) at 1|zlist_lia].
  repeat case_if; do 2 eexists; (split; [done|zlist_lia]).
Qed.

Lemma tpdu_read_connection_confirm_safe n s :
  readable s -> safe_at (tpdu_read_connection_confirm n) s.
Proof.
  intros Hr. unfold safe_at. rewrite tpdu_read_connection_confirm_run by done.
  destruct (unread s) as [|li [|code [|x p]]].
  1-3: do 2 eexists; split; [by rewrite <- (advance_0 s) at 1|zlist_lia].
  destruct (n <? li + 4), (code =? X224_TPDU_DATA), (4 <=? zlen p) eqn:E;
    do 2 eexists; (split; [done|zlist_lia]).
Qed.

Lemma send_data_frame_emits p :
  Forall is_byte p ->
  emits_ret (send_data_frame p) true (enc_tpkt (7 + zlen p) ++ enc_tpdu 2 X224_TPDU_DATA ++ p).
Proof.
  intros Hp. eapply emits_bind; [apply tpkt_write_header_emits|]. cbn [negb].
  eapply emits_bind; [apply tpdu_write_header_emits; unfold is_byte, X224_TPDU_DATA; lia|].
  cbn [negb]. eapply emits_final, emits_bytes. done.
Qed.

Lemma recv_data_frame_enc p s :
  Forall is_byte p -> 7 + zlen p <= UINT16_MAX -> readable s ->
  unread s = enc_tpkt (7 + zlen p) ++ enc_tpdu 2 X224_TPDU_DATA ++ p ->
  recv_data_frame s = Ret (Some p, advance s (7 + zlen p)).
Proof.
  unfold UINT16_MAX. intros Hb Hlen Hr Hu. unfold recv_data_frame.
  pose proof (zlen_nonneg p) as Hnn.
  rewrite (pbind_ret _ _ _ _ _
    (tpkt_read_header_enc (7 + zlen p) (enc_tpdu 2 X224_TPDU_DATA ++ p) s []
       ltac:(unfold UINT16_MAX; lia) ltac:(zlist_lia) Hr
       ltac:(by rewrite app_nil_r))).
  assert (Hr1 : readable (advance s 4)) by (apply readable_advance; [done|rewrite Hu; zlist_lia]).
  assert (Hu1 : unread (advance s 4) = enc_tpdu 2 X224_TPDU_DATA ++ p)
    by (rewrite unread_advance, Hu; done).
  assert (Hd : reads_back (tpdu_read_data (7 + zlen p)) (enc_tpdu 2 X224_TPDU_DATA) (Some 2)).
  { intros s0 r0 Hr0 Hu0. unfold tpdu_read_data.
    rd_sub (tpdu_read_header_enc 2 X224_TPDU_DATA (7 + zlen p)
      ltac:(unfold is_byte, X224_TPDU_DATA; lia) ltac:(lia) ltac:(lia)) Hr0 Hu0. done. }
  rd_sub Hd Hr1 Hu1. rewrite advance_advance in *.
  change (4 + zlen (enc_tpdu 2 X224_TPDU_DATA)) with 7 in *.
  assert (Hrd : Stream_Read (7 + zlen p - 7) (advance s 7) = Ret (p, advance s (7 + zlen p))).
  { rewrite read_bytes_spec by (done || (rewrite Hu0; lia)).
    rewrite Hu0, ztake_all, advance_advance by lia. repeat f_equal. lia. }
  rewrite (pbind_ret _ _ _ _ _ Hrd). unfold tpkt_ensure_stream_consumed.
  replace (UINT16_MAX <? 7 + zlen p) with false by (unfold UINT16_MAX; lia).
  assert (Hr2 : readable (advance s (7 + zlen p)))
    by (apply readable_advance; [done|rewrite Hu; zlist_lia]).
  unfold pbind. rewrite remaining_length_spec by done.
  rewrite unread_advance, Hu, zdrop_all by (done || lia || zlist_lia). done.
Qed.
End frames.

(** ** Properties *)

(** On any input the TPKT and TPDU readers return, no assertion fails and no byte outside
    of the received data is read; the stream data is unchanged and the cursor stays inside. *)
Theorem framing_readers_safe (s : wStream) (tpktlength : Z) :
  readable s ->
  safe_at tpkt_verify_header s /\ safe_at tpkt_read_header s /\
  safe_at (tpkt_ensure_stream_consumed tpktlength) s /\ safe_at (tpdu_read_header tpktlength) s /\
  safe_at (tpdu_read_connection_request tpktlength) s /\
  safe_at (tpdu_read_connection_confirm tpktlength) s /\ safe_at (tpdu_read_data tpktlength) s.
Proof.
  intros Hr. pose proof tpdu_read_header_safe as Hh.
  split_and!; auto using tpkt_read_header_safe, tpdu_read_connection_confirm_safe.
  - unfold tpkt_verify_header. solve_safe.
  - unfold tpkt_ensure_stream_consumed. case_if; [by apply safe_ret|].
    apply safe_remaining; [done|]. case_if; by apply safe_ret.
  - apply safe_bind; [by apply Hh|done|]. intros [[code li]|] k _ Hk; solve_safe.
  - apply safe_bind; [by apply Hh|done|]. intros [[code li]|] k _ Hk; solve_safe.
Qed.

Lemma framing_readers_safe_witness :
  readable (blank_stream 12) /\ safe_at (tpdu_read_connection_confirm 12) (blank_stream 12).
Proof.
  assert (Hr : readable (blank_stream 12)) by (split; [apply blank_stream_growable; lia|done]).
  split; [exact Hr|]. apply (framing_readers_safe (blank_stream 12) 12 Hr).
Defined.

(** [tpkt_read_header] returns TRUE exactly in two cases: the first byte is not 3, then the
    length is 0 and nothing is consumed; or a TPKT header announces between 7 and 65535 bytes
    and at least that many were received, then the four header bytes are consumed. *)
Theorem tpkt_read_header_accepts (s s' : wStream) (length : Z) :
  readable s ->
  tpkt_read_header s = Ret (Some length, s') <->
  (length = 0 /\ s' = s /\ exists v r, unread s = v :: r /\ v <> 3) \/
  (7 <= length <= UINT16_MAX /\ s' = advance s 4 /\ length <= zlen (unread s) /\
   exists x p, unread s = 3 :: x :: be16 length ++ p).
Proof.
  intros Hr. rewrite tpkt_read_header_run by done. pose proof (unread_bytes s Hr) as HB.
  unfold UINT16_MAX. split.
  - destruct (unread s) as [|v r] eqn:Hu; [done|]. destruct (v =? 3) eqn:Ev; cbn [negb].
    + apply Z.eqb_eq in Ev as ->. destruct r as [|x [|b0 [|b1 p]]]; try done. cbn zeta.
      destruct (_ && _) eqn:E; [|done]. intros Heq. simplify_eq. right.
      rewrite !Forall_cons in HB. unfold is_byte in HB. split_and!; try lia; [done|zlist_lia|].
      exists x, p. unfold be16. cbn. repeat f_equal; Z.div_mod_to_equations; lia.
    + intros Heq. simplify_eq. left. split_and!; [done|done|]. exists v, r. split; [done|lia].
  - intros [(-> & -> & v & r & -> & Hv)|(Hlen & -> & Hz & x & p & Hu)].
    + by replace (v =? 3) with false by lia.
    + rewrite Hu in *. cbn [app be16]. change (negb (3 =? 3)) with false. cbn iota zeta.
      rewrite be16_value by lia. replace (7 <=? length) with true by lia.
      by replace (length - 4 <=? zlen p) with true by zlist_lia.
Qed.

Lemma tpkt_read_header_accepts_witness :
  tpkt_read_header (Stream_StaticConstInit [3; 0; 0; 7; 2; 240; 128] 7) =
    Ret (Some 7, advance (Stream_StaticConstInit [3; 0; 0; 7; 2; 240; 128] 7) 4).
Proof.
  assert (Hr : readable (Stream_StaticConstInit [3; 0; 0; 7; 2; 240; 128] 7)).
  { split; [split|]; cbn; try lia; [done|]. repeat constructor; unfold is_byte; lia. }
  apply (tpkt_read_header_accepts _ (advance _ 4) 7 Hr). right.
  split; [unfold UINT16_MAX; lia|]. split; [reflexivity|]. split; [reflexivity|].
  exists 0, [2; 240; 128]. reflexivity.
Defined.

(** [tpdu_read_connection_confirm] accepts a TPDU only if it is a Connection Confirm whose
    length indicator fits in the TPKT, covers the fixed part of the header and promises no more
    bytes than were received: an indicator below 6, for which the unsigned difference to the
    bytes already read wraps around, is rejected. *)
Theorem connection_confirm_accepts (s s' : wStream) (tpktlength li : Z) :
  readable s ->
  tpdu_read_connection_confirm tpktlength s = Ret (Some li, s') <->
  6 <= li /\ li + 4 <= tpktlength /\ li + 1 <= zlen (unread s) /\ s' = advance s 7 /\
  exists p, unread s = li :: X224_TPDU_CONNECTION_CONFIRM :: p.
Proof.
  intros Hr. rewrite tpdu_read_connection_confirm_run by done. split.
  - destruct (unread s) as [|l [|code [|x p]]]; try done.
    destruct (tpktlength <? l + 4) eqn:Et; [done|]. destruct (code =? X224_TPDU_DATA); [done|].
    destruct (4 <=? zlen p) eqn:E4; [|done]. destruct (_ && _) eqn:E; [|done].
    intros Heq. simplify_eq. rewrite !andb_true_iff, Z.eqb_eq in E. destruct E as [[-> ?] ?].
    split_and!; [lia|lia|zlist_lia|done|by exists (x :: p)].
  - intros (H6 & Ht & Hz & -> & p & Hu). rewrite Hu in *. destruct p as [|x p]; [zlist_lia|].
    replace (tpktlength <? li + 4) with false by lia.
    change (X224_TPDU_CONNECTION_CONFIRM =? X224_TPDU_DATA) with false. cbn iota.
    change (X224_TPDU_CONNECTION_CONFIRM =? X224_TPDU_CONNECTION_CONFIRM) with true. cbn [andb].
    replace (4 <=? zlen p) with true by zlist_lia. replace (6 <=? li) with true by lia.
    by replace (li - 2 <=? zlen p) with true by zlist_lia.
Qed.

Lemma connection_confirm_accepts_witness :
  tpdu_read_connection_confirm 11 (Stream_StaticConstInit [6; 208; 0; 0; 0; 0; 0] 7) =
    Ret (Some 6, advance (Stream_StaticConstInit [6; 208; 0; 0; 0; 0; 0] 7) 7).
Proof.
  assert (Hr : readable (Stream_StaticConstInit [6; 208; 0; 0; 0; 0; 0] 7)).
  { split; [split|]; cbn; try lia; [done|]. repeat constructor; unfold is_byte; lia. }
  apply (connection_confirm_accepts _ (advance _ 7) 11 6 Hr).
  split; [lia|]. split; [lia|]. split; [reflexivity|]. split; [reflexivity|].
  exists [0; 0; 0; 0; 0]. reflexivity.
Defined.

(** A data packet of up to 65528 payload bytes, written as TPKT header, Data TPDU and
    payload, is recognised as a TPKT and delimited exactly by the receiver: it gets the
    payload, and [tpkt_ensure_stream_consumed] finds nothing left over. *)
Theorem data_frame_roundtrip (s : wStream) (payload : list Z) :
  growable s -> Forall is_byte payload -> 7 + zlen payload <= UINT16_MAX ->
  7 + zlen payload <= room s ->
  exists s' r,
    send_data_frame payload s = Ret (true, s') /\ pointer s' = pointer s + 7 + zlen payload /\
    Stream_Reread (pointer s) s' = Ret (true, r) /\ tpkt_verify_header r = Ret (1, r) /\
    recv_data_frame r = Ret (Some payload, advance r (7 + zlen payload)).
Proof.
  intros Hg Hb Hlen Hroom.
  set (bs := enc_tpkt (7 + zlen payload) ++ enc_tpdu 2 X224_TPDU_DATA ++ payload).
  assert (Hz : zlen bs = 7 + zlen payload) by (subst bs; zlist_lia).
  destruct (send_data_frame_emits payload Hb) as [Hbs Hsend]. fold bs in Hbs, Hsend.
  pose proof (wrote_put_bytes s bs Hg ltac:(lia) Hbs) as Hw.
  destruct (reread_spec s _ bs (proj1 Hg) Hw Hbs) as (r & Hr & Hrr & Hu & _).
  exists (put_bytes s bs), r.
  split_and!; [apply Hsend; [apply Hg|lia]|cbn [pointer put_bytes set_pointer]; lia|done| |by apply recv_data_frame_enc].
  by eapply tpkt_verify_reads.
Qed.

Lemma data_frame_roundtrip_witness :
  exists s', send_data_frame [100; 0; 6] (blank_stream 16) = Ret (true, s') /\ pointer s' = 10.
Proof.
  destruct (data_frame_roundtrip (blank_stream 16) [100; 0; 6]) as (s' & r & H & Hp & _).
  - apply blank_stream_growable. lia.
  - repeat constructor; unfold is_byte; lia.
  - vm_compute. discriminate.
  - vm_compute. discriminate.
  - exists s'. split; [exact H|exact Hp].
Defined.

(** The header writers store exactly their header when it fits and otherwise return FALSE
    (the TPDU writer may then have stored LI and code, nothing else); a Connection Request
    with a length indicator below 256 is read back with that indicator.  Larger lengths are
    cut to their low byte. *)
Theorem header_writers (s : wStream) (n : Z) :
  stream_ok s ->
  tpkt_write_header n s =
    Ret (if 4 <=? room s then (true, put_bytes s (enc_tpkt n)) else (false, s)) /\
  (forall code, is_byte code ->
     tpdu_write_header n code s =
       Ret (if zlen (enc_tpdu n code) <=? room s then (true, put_bytes s (enc_tpdu n code))
            else (false, if room s <? 3 then s else put_bytes s [u8 n; code]))) /\
  (forall tpktlength, 0 <= n < 256 /\ n + 4 <= tpktlength ->
     reads_back (tpdu_read_connection_request tpktlength)
       (enc_tpdu n X224_TPDU_CONNECTION_REQUEST) (Some n)).
Proof.
  intros Hs. split_and!.
  - destruct (4 <=? room s) eqn:E; [|apply tpkt_write_header_full; done || lia].
    apply tpkt_write_header_emits; [done|zlist_lia].
  - intros code Hc. destruct (zlen _ <=? room s) eqn:E.
    + apply tpdu_write_header_emits; [done|done|lia].
    + apply tpdu_write_header_full; [done|done|lia].
  - intros tpktlength [Hn Ht] s0 r Hr Hu. unfold tpdu_read_connection_request.
    rd_sub (tpdu_read_header_enc n X224_TPDU_CONNECTION_REQUEST tpktlength
      ltac:(unfold is_byte, X224_TPDU_CONNECTION_REQUEST; lia) Hn Ht) Hr Hu. done.
Qed.

Lemma header_writers_witness :
  exists b, tpdu_write_header 14 X224_TPDU_CONNECTION_REQUEST (blank_stream 11) =
    Ret (true, set_pointer 7 (set_buffer b (blank_stream 11))).
Proof.
  assert (Hs : stream_ok (blank_stream 11)) by (apply blank_stream_growable; lia).
  destruct (header_writers (blank_stream 11) 14 Hs) as (_ & H & _).
  rewrite H; [|unfold is_byte, X224_TPDU_CONNECTION_REQUEST; lia].
  eexists. reflexivity.
Defined.
