(* ===== verification/EncodedTypes.v ===== *)
(** * Variable-length integers: [libfreerdp/utils/encoded_types.c]

    FOUR_BYTE_SIGNED_INTEGER of [MS-RDPEGFX] and [MS-RDPEI]: the first octet holds the number
    of further octets (2 bits), the sign (1 bit) and the top 5 bits of the magnitude.  The
    float encodings of the same file compute in [double] and are not modelled. *)

From S2P Require Import Prelude Memory Stream.

Definition ONE_BYTE_VAL : Z := 0.
Definition TWO_BYTE_VAL : Z := 1.
Definition THREE_BYTE_VAL : Z := 2.
Definition FOUR_BYTE_VAL : Z := 3.

Definition POSITIVE_VAL : Z := 0.
Definition NEGATIVE_VAL : Z := 1.

Definition FREERDP_FOUR_BYTE_SIGNED_INT_MAX : Z := 536870911.
Definition FREERDP_FOUR_BYTE_SIGNED_INT_MIN : Z := -536870911.

Record FOUR_BYTE_SIGNED_INTEGER : Type := mkSI {
  si_c : Z;
  si_s : Z;
  si_val1 : Z;
  si_val2 : Z;
  si_val3 : Z;
  si_val4 : Z
}.

(** The switch of the reader: the magnitude, [None] for an invalid byte count. *)
Definition read_magnitude (c val1 : Z) : Prog wStream (option Z) :=
  if c =? ONE_BYTE_VAL then pret (Some val1)
  else if c =? TWO_BYTE_VAL then
    val2 <- stream_read_u8 true ;;
    pret (Some (Z.lor (Z.shiftl val1 8) val2))
  else if c =? THREE_BYTE_VAL then
    val2 <- stream_read_u8 true ;;
    val3 <- stream_read_u8 true ;;
    pret (Some (Z.lor (Z.lor (Z.shiftl val1 16) (Z.shiftl val2 8)) val3))
  else if c =? FOUR_BYTE_VAL then
    val2 <- stream_read_u8 true ;;
    val3 <- stream_read_u8 true ;;
    val4 <- stream_read_u8 true ;;
    pret (Some (Z.lor (Z.lor (Z.lor (Z.shiftl val1 24) (Z.shiftl val2 16)) (Z.shiftl val3 8)) val4))
  else pret None.

(** [None] is FALSE, [Some v] is TRUE with [*value] = [v]. *)
Definition freerdp_read_four_byte_signed_integer : Prog wStream (option Z) :=
  ok <- Stream_CheckAndLogRequiredLength 1 ;;
  if negb ok then pret None
  else
    byte <- stream_read_u8 true ;;
    let c := Z.shiftr (Z.land byte 192) 6 in
    let s := Z.shiftr (Z.land byte 32) 5 in
    let val1 := Z.land byte 31 in
    ok <- Stream_CheckAndLogRequiredLength c ;;
    if negb ok then pret None
    else
      m <- read_magnitude c val1 ;;
      match m with
      | None => pret None
      | Some value => pret (Some (if s =? NEGATIVE_VAL then value * -1 else value))
      end.

(** The fields the writer fills in, [None] where it returns FALSE. *)
Definition split_signed_integer (value : Z) : option FOUR_BYTE_SIGNED_INTEGER :=
  if FREERDP_FOUR_BYTE_SIGNED_INT_MAX <? value then None
  else if value <? FREERDP_FOUR_BYTE_SIGNED_INT_MIN then None
  else
    let s := if value <? 0 then NEGATIVE_VAL else POSITIVE_VAL in
    let value := if value <? 0 then - value else value in
    if value <=? 31 then
      Some (mkSI ONE_BYTE_VAL s (Z.land value 31) 0 0 0)
    else if value <=? 8191 then
      Some (mkSI TWO_BYTE_VAL s (Z.land (Z.shiftr value 8) 31) (Z.land value 255) 0 0)
    else if value <=? 2097151 then
      Some (mkSI THREE_BYTE_VAL s (Z.land (Z.shiftr value 16) 31)
              (Z.land (Z.shiftr value 8) 255) (Z.land value 255) 0)
    else if value <=? 536870911 then
      Some (mkSI FOUR_BYTE_VAL s (Z.land (Z.shiftr value 24) 31) (Z.land (Z.shiftr value 16) 255)
              (Z.land (Z.shiftr value 8) 255) (Z.land value 255))
    else None.

Definition write_signed_fields (si : FOUR_BYTE_SIGNED_INTEGER) : Prog wStream bool :=
  let byte := Z.lor (Z.lor (Z.land (Z.shiftl (si_c si) 6) 192) (Z.land (Z.shiftl (si_s si) 5) 32))
                (Z.land (si_val1 si) 31) in
  Stream_Write_UINT8 byte ;;
  if si_c si =? ONE_BYTE_VAL then pret true
  else if si_c si =? TWO_BYTE_VAL then
    Stream_Write_UINT8 (si_val2 si) ;; pret true
  else if si_c si =? THREE_BYTE_VAL then
    Stream_Write_UINT8 (si_val2 si) ;; Stream_Write_UINT8 (si_val3 si) ;; pret true
  else if si_c si =? FOUR_BYTE_VAL then
    Stream_Write_UINT8 (si_val2 si) ;; Stream_Write_UINT8 (si_val3 si) ;;
    Stream_Write_UINT8 (si_val4 si) ;; pret true
  else pret false.

Definition freerdp_write_four_byte_signed_integer `{Malloc} (value : Z) : Prog wStream bool :=
  match split_signed_integer value with
  | None => pret false
  | Some si =>
      ok <- Stream_EnsureRemainingCapacity (si_c si + 1) ;;
      if negb ok then pret false else write_signed_fields si
  end.

(** ** The encoding *)

(** Number of octets after the first one. *)
Definition extra_octets (m : Z) : Z :=
  if m <=? 31 then 0 else if m <=? 8191 then 1 else if m <=? 2097151 then 2 else 3.

(** The [n] low octets of [m], most significant first. *)
Definition low_octets (n m : Z) : list Z :=
  if n =? 0 then [] else if n =? 1 then [m mod 256]
  else if n =? 2 then be16 m else [m / 65536 mod 256] ++ be16 m.

Definition enc_signed (v : Z) : list Z :=
  let m := Z.abs v in
  let n := extra_octets m in
  (n * 64 + (if v <? 0 then 32 else 0) + m / 256 ^ n) :: low_octets n m.

(** The value of a first octet [b] followed by [r], [None] if octets are missing. *)
Definition dec_signed (b : Z) (r : list Z) : option (Z * Z) :=
  let n := b / 64 in
  if zlen r <? n then None
  else
    let m := foldl (fun a x => a * 256 + x) (b mod 32) (ztake n r) in
    Some (if b / 32 mod 2 =? 1 then - m else m, n).

Section signed.
Context `{Malloc}.

Lemma first_octet_fields b : is_byte b ->
  Z.shiftr (Z.land b 192) 6 = b / 64 /\ Z.shiftr (Z.land b 32) 5 = b / 32 mod 2 /\
  Z.land b 31 = b mod 32.
Proof.
  intros Hb.
  pose proof (range_forall (fun b => (Z.shiftr (Z.land b 192) 6 =? b / 64) &&
    (Z.shiftr (Z.land b 32) 5 =? b / 32 mod 2) && (Z.land b 31 =? b mod 32)) 256 b Hb eq_refl)
    as E. cbv beta in E. lia.
Qed.

Lemma first_octet c sg v : 0 <= c < 4 -> 0 <= sg < 2 -> 0 <= v < 32 ->
  Z.lor (Z.lor (Z.land (Z.shiftl c 6) 192) (Z.land (Z.shiftl sg 5) 32)) (Z.land v 31) =
    c * 64 + sg * 32 + v.
Proof.
  intros Hc Hs Hv. apply Z.eqb_eq.
  refine (range_forall (fun v => _ =? c * 64 + sg * 32 + v) 32 v Hv _).
  assert (c = 0 \/ c = 1 \/ c = 2 \/ c = 3) as [-> | [-> | [-> | ->]]] by lia;
    (assert (sg = 0 \/ sg = 1) as [-> | ->] by lia); vm_compute; reflexivity.
Qed.

Lemma lor_bytes2 a b : is_byte b -> Z.lor (Z.shiftl a 8) b = a * 256 + b.
Proof. intros Hb. rewrite shiftl_mul by lia. by rewrite lor_add. Qed.

Lemma lor_bytes3 a b c : is_byte b -> is_byte c ->
  Z.lor (Z.lor (Z.shiftl a 16) (Z.shiftl b 8)) c = (a * 256 + b) * 256 + c.
Proof.
  intros Hb Hc. rewrite !shiftl_mul by lia. rewrite lor_add by (unfold is_byte in *; lia).
  replace (a * 2 ^ 16 + b * 2 ^ 8) with ((a * 256 + b) * 2 ^ 8) by lia. by rewrite lor_add.
Qed.

Lemma lor_bytes4 a b c d : is_byte b -> is_byte c -> is_byte d ->
  Z.lor (Z.lor (Z.lor (Z.shiftl a 24) (Z.shiftl b 16)) (Z.shiftl c 8)) d =
    ((a * 256 + b) * 256 + c) * 256 + d.
Proof.
  intros Hb Hc Hd. rewrite !shiftl_mul by lia. rewrite lor_add by (unfold is_byte in *; lia).
  replace (a * 2 ^ 24 + b * 2 ^ 16) with ((a * 256 + b) * 2 ^ 16) by lia.
  rewrite lor_add by (unfold is_byte in *; lia).
  replace ((a * 256 + b) * 2 ^ 16 + c * 2 ^ 8) with (((a * 256 + b) * 256 + c) * 2 ^ 8) by lia.
  by rewrite lor_add.
Qed.

Lemma read_magnitude_run c v s :
  readable s -> 0 <= c < 4 -> c <= zlen (unread s) ->
  read_magnitude c v s =
    Ret (Some (foldl (fun a x => a * 256 + x) v (ztake c (unread s))), advance s c).
Proof.
  intros Hr Hc Hz. unfold read_magnitude.
  assert (c = 0 \/ c = 1 \/ c = 2 \/ c = 3) as [-> | [-> | [-> | ->]]] by lia;
    cbn [Z.eqb Pos.eqb ONE_BYTE_VAL TWO_BYTE_VAL THREE_BYTE_VAL FOUR_BYTE_VAL].
  - unfold pret. by rewrite ztake_0, advance_0 by lia.
  - destruct (unread s) as [|b1 r] eqn:Hu; [zlist_lia|]. rd_step.
    rewrite lor_bytes2 by done. done.
  - destruct (unread s) as [|b1 [|b2 r]] eqn:Hu; try zlist_lia. rd_step. rd_step.
    rewrite lor_bytes3 by done. unfold pret. by rewrite advance_advance.
  - destruct (unread s) as [|b1 [|b2 [|b3 r]]] eqn:Hu; try zlist_lia. rd_step. rd_step. rd_step.
    rewrite lor_bytes4 by done. unfold pret. by rewrite !advance_advance.
Qed.

(** The reader on every input. *)
Lemma read_signed_run s :
  readable s ->
  freerdp_read_four_byte_signed_integer s =
    match unread s with
    | [] => Ret (None, s)
    | b :: r =>
        match dec_signed b r with
        | None => Ret (None, advance s 1)
        | Some (v, n) => Ret (Some v, advance s (1 + n))
        end
    end.
Proof.
  intros Hr. unfold freerdp_read_four_byte_signed_integer.
  destruct (unread s) as [|b r] eqn:Hu; rd_step; [done|].
  replace (1 <=? zlen (b :: r)) with true by zlist_lia. rd_step. cbv zeta.
  destruct (first_octet_fields b Hb) as (-> & -> & ->). rd_step. unfold dec_signed.
  assert (0 <= b / 64 < 4) by (unfold is_byte in Hb; Z.div_mod_to_equations; lia).
  destruct (zlen r <? b / 64) eqn:E.
  - by replace (b / 64 <=? zlen r) with false by lia.
  - replace (b / 64 <=? zlen r) with true by lia. cbn [negb].
    unfold pbind. rewrite read_magnitude_run by (done || (rewrite Hu0; lia)).
    rewrite Hu0, advance_advance. unfold pret, NEGATIVE_VAL. cbv zeta.
    destruct (b / 32 mod 2 =? 1); [|done]. repeat f_equal. lia.
Qed.

Lemma signed_cases v :
  FREERDP_FOUR_BYTE_SIGNED_INT_MIN <= v <= FREERDP_FOUR_BYTE_SIGNED_INT_MAX ->
  0 <= Z.abs v <= 536870911.
Proof. unfold FREERDP_FOUR_BYTE_SIGNED_INT_MIN, FREERDP_FOUR_BYTE_SIGNED_INT_MAX. lia. Qed.

Definition sign_bit (v : Z) : Z := if v <? 0 then NEGATIVE_VAL else POSITIVE_VAL.

(** The fields of the record in arithmetic terms. *)
Lemma split_signed_run v :
  FREERDP_FOUR_BYTE_SIGNED_INT_MIN <= v <= FREERDP_FOUR_BYTE_SIGNED_INT_MAX ->
  let m := Z.abs v in
  exists si, split_signed_integer v = Some si /\ si_c si = extra_octets m /\
    si_s si = sign_bit v /\ si_val1 si = m / 256 ^ extra_octets m mod 32 /\
    low_octets (si_c si) m =
      ztake (si_c si) [si_val2 si; si_val3 si; si_val4 si].
Proof.
  intros Hv m. unfold split_signed_integer.
  replace (FREERDP_FOUR_BYTE_SIGNED_INT_MAX <? v) with false by lia.
  replace (v <? FREERDP_FOUR_BYTE_SIGNED_INT_MIN) with false by lia.
  replace (if v <? 0 then - v else v) with m by (subst m; case_if; lia).
  pose proof (signed_cases v Hv) as Hm. fold m in Hm. unfold extra_octets. cbv zeta.
  assert (H31 : forall x, Z.land x 31 = x mod 32) by (intros; exact (land_mask 5 x ltac:(lia))).
  destruct (m <=? 31) eqn:E1; [|destruct (m <=? 8191) eqn:E2;
    [|destruct (m <=? 2097151) eqn:E3; [|replace (m <=? 536870911) with true by lia]]];
    eexists; (split; [reflexivity|]); cbn [si_c si_s si_val1 si_val2 si_val3 si_val4];
    rewrite ?H31, ?land_255, ?shiftr_div by lia; split_and!; try done.
  by rewrite Z.div_1_r.
Qed.

Lemma write_signed_emits v :
  FREERDP_FOUR_BYTE_SIGNED_INT_MIN <= v <= FREERDP_FOUR_BYTE_SIGNED_INT_MAX ->
  exists si, split_signed_integer v = Some si /\ si_c si = extra_octets (Z.abs v) /\
    emits_ret (write_signed_fields si) true (enc_signed v).
Proof.
  intros Hv. destruct (split_signed_run v Hv) as (si & Hsi & Hc & Hs & H1 & Hl). cbv zeta in *.
  exists si. split_and!; [done|done|]. pose proof (signed_cases v Hv) as Hm.
  assert (Hn : 0 <= extra_octets (Z.abs v) < 4) by (unfold extra_octets; repeat case_if; lia).
  assert (Hq : 0 <= Z.abs v / 256 ^ extra_octets (Z.abs v) < 32).
  { unfold extra_octets. repeat case_if; cbn; Z.div_mod_to_equations; lia. }
  unfold write_signed_fields, enc_signed. cbv zeta. rewrite first_octet;
    [|lia|rewrite Hs; unfold sign_bit; case_if; done|rewrite H1; apply Z.mod_pos_bound; lia].
  rewrite H1, (Z.mod_small _ 32) by lia. rewrite Hc in *. rewrite Hs, Hl.
  replace (sign_bit v * 32) with (if v <? 0 then 32 else 0) by (unfold sign_bit; by case_if).
  apply (emits_bind _ _ tt _ [_]); [apply emits_u8; unfold is_byte; case_if; lia|].
  assert (HB : Forall is_byte (low_octets (extra_octets (Z.abs v)) (Z.abs v))).
  { unfold low_octets. repeat case_if; rewrite ?Forall_app, ?Forall_cons; auto with zlist. }
  rewrite Hl in HB. remember (extra_octets (Z.abs v)) as n eqn:En. clear En Hl Hq H1 Hc.
  assert (n = 0 \/ n = 1 \/ n = 2 \/ n = 3) as [-> | [-> | [-> | ->]]] by lia;
    cbn [Z.eqb Pos.eqb ONE_BYTE_VAL TWO_BYTE_VAL THREE_BYTE_VAL FOUR_BYTE_VAL];
    unfold ztake in *; cbn in HB |- *;
    try change (Z.to_nat 1) with 1%nat in *; try change (Z.to_nat 2) with 2%nat in *;
    try change (Z.to_nat 3) with 3%nat in *; cbn [take] in *; rewrite ?Forall_cons in HB.
  - apply emits_pret.
  - eapply emits_final, emits_u8. tauto.
  - apply (emits_bind _ _ tt _ [_] [_]); [apply emits_u8; tauto|].
    eapply emits_final, emits_u8. tauto.
  - apply (emits_bind _ _ tt _ [_] [_; _]); [apply emits_u8; tauto|].
    apply (emits_bind _ _ tt _ [_] [_]); [apply emits_u8; tauto|].
    eapply emits_final, emits_u8. tauto.
Qed.

Lemma zlen_enc_signed v : zlen (enc_signed v) = 1 + extra_octets (Z.abs v).
Proof.
  unfold enc_signed, low_octets, extra_octets. cbv zeta. by repeat case_if.
Qed.

Lemma dec_enc_signed v r :
  FREERDP_FOUR_BYTE_SIGNED_INT_MIN <= v <= FREERDP_FOUR_BYTE_SIGNED_INT_MAX ->
  exists b k, enc_signed v ++ r = b :: k /\ dec_signed b k = Some (v, extra_octets (Z.abs v)).
Proof.
  intros Hv. pose proof (signed_cases v Hv) as Hm.
  set (m := Z.abs v) in *. set (n := extra_octets m).
  assert (Hq : 0 <= m / 256 ^ n < 32).
  { subst n. unfold extra_octets. repeat case_if; cbn; Z.div_mod_to_equations; lia. }
  assert (Hn : 0 <= n < 4) by (subst n; unfold extra_octets; repeat case_if; lia).
  exists (n * 64 + (if v <? 0 then 32 else 0) + m / 256 ^ n), (low_octets n m ++ r).
  split; [done|]. unfold dec_signed. cbv zeta.
  set (b := n * 64 + _ + _). assert (b / 64 = n) as ->
    by (subst b; destruct (v <? 0); Z.div_mod_to_equations; lia).
  assert (b mod 32 = m / 256 ^ n) as ->
    by (subst b; destruct (v <? 0); Z.div_mod_to_equations; lia).
  assert ((b / 32 mod 2 =? 1) = (v <? 0)) as ->
    by (subst b; destruct (v <? 0); apply Z.eqb_eq || apply Z.eqb_neq;
        Z.div_mod_to_equations; lia).
  assert (Hz : zlen (low_octets n m) = n).
  { unfold low_octets. repeat case_if; subst n; zlist_lia. }
  replace (zlen (low_octets n m ++ r) <? n) with false by zlist_lia.
  rewrite ztake_app, ztake_all, ztake_0, app_nil_r by lia.
  assert (foldl (fun a x => a * 256 + x) (m / 256 ^ n) (low_octets n m) = m) as ->.
  { unfold low_octets. assert (n = 0 \/ n = 1 \/ n = 2 \/ n = 3) as [-> | [-> | [-> | ->]]] by lia;
      cbn; Z.div_mod_to_equations; lia. }
  subst m. destruct (v <? 0) eqn:E; repeat f_equal; lia.
Qed.

Lemma foldl_octets_bound l a :
  Forall is_byte l -> 0 <= a ->
  0 <= foldl (fun a x => a * 256 + x) a l < (a + 1) * 256 ^ zlen l.
Proof.
  revert a. induction l as [|x l IH]; intros a Hl Ha; cbn [foldl].
  - change (256 ^ zlen []) with 1. lia.
  - apply Forall_cons in Hl as [Hx Hl]. unfold is_byte in Hx.
    destruct (IH (a * 256 + x) Hl ltac:(lia)) as [H0 H1]. split; [done|].
    eapply Z.lt_le_trans; [exact H1|].
    rewrite zlen_cons, Z.pow_add_r by zlist_lia. change (256 ^ 1) with 256.
    rewrite Z.mul_assoc. apply Z.mul_le_mono_nonneg_r; [|lia].
    apply Z.pow_nonneg. lia.
Qed.

Lemma dec_signed_bound b r v n :
  is_byte b -> Forall is_byte r -> dec_signed b r = Some (v, n) ->
  0 <= n < 4 /\ n <= zlen r /\ Z.abs v < 32 * 256 ^ n.
Proof.
  intros Hb Hr. unfold dec_signed, is_byte in *. cbv zeta.
  destruct (zlen r <? b / 64) eqn:E; [done|]. intros Heq. simplify_eq.
  assert (Hn : 0 <= b / 64 < 4) by (Z.div_mod_to_equations; lia).
  assert (Hm : 0 <= b mod 32 < 32) by (apply Z.mod_pos_bound; lia).
  destruct (foldl_octets_bound (ztake (b / 64) r) (b mod 32) ltac:(by apply Forall_ztake)
    ltac:(lia)) as [H0 H1].
  rewrite zlen_ztake, Z.max_r, Z.min_l in H1 by lia.
  assert (0 < 256 ^ (b / 64)) by (apply Z.pow_pos_nonneg; lia).
  split_and!; try lia. destruct (_ =? 1); nia.
Qed.

Lemma extra_octets_le m n : 0 <= n < 4 -> 0 <= m < 32 * 256 ^ n -> extra_octets m <= n.
Proof.
  intros Hn. assert (n = 0 \/ n = 1 \/ n = 2 \/ n = 3) as [-> | [-> | [-> | ->]]] by lia;
    cbn; unfold extra_octets; repeat case_if; lia.
Qed.
End signed.

(** ** Properties *)

(** [freerdp_write_four_byte_signed_integer] accepts exactly the values of magnitude at most
    0x1FFFFFFF; such a value is stored in its encoding (or memory ran out), and
    [freerdp_read_four_byte_signed_integer] returns it; any other value is refused with the
    stream untouched. *)
Theorem signed_integer_roundtrip `{Malloc} (v : Z) :
  (Z.abs v <= FREERDP_FOUR_BYTE_SIGNED_INT_MAX ->
     wire_ok (freerdp_write_four_byte_signed_integer v) freerdp_read_four_byte_signed_integer
       (enc_signed v) (Some v)) /\
  (FREERDP_FOUR_BYTE_SIGNED_INT_MAX < Z.abs v ->
     forall s, freerdp_write_four_byte_signed_integer v s = Ret (false, s)).
Proof.
  unfold FREERDP_FOUR_BYTE_SIGNED_INT_MAX. split; intros Hv.
  - assert (Hr : FREERDP_FOUR_BYTE_SIGNED_INT_MIN <= v <= FREERDP_FOUR_BYTE_SIGNED_INT_MAX)
      by (unfold FREERDP_FOUR_BYTE_SIGNED_INT_MIN, FREERDP_FOUR_BYTE_SIGNED_INT_MAX; lia).
    destruct (write_signed_emits v Hr) as (si & Hsi & Hc & Hw).
    assert (0 <= extra_octets (Z.abs v) < 4) by (unfold extra_octets; repeat case_if; lia).
    apply (wire_ok_intro _ (si_c si + 1)).
    + unfold freerdp_write_four_byte_signed_integer. rewrite Hsi.
      apply writes_ensure_ret; [lia|rewrite zlen_enc_signed; lia|done].
    + rewrite zlen_enc_signed. lia.
    + intros s r Hs Hu. rewrite read_signed_run, Hu, zlen_enc_signed by done.
      destruct (dec_enc_signed v r Hr) as (b & k & -> & ->). done.
  - intros s. unfold freerdp_write_four_byte_signed_integer, split_signed_integer,
      FREERDP_FOUR_BYTE_SIGNED_INT_MAX, FREERDP_FOUR_BYTE_SIGNED_INT_MIN.
    destruct (536870911 <? v) eqn:E1; [done|]. by replace (v <? -536870911) with true by lia.
Qed.

Lemma signed_integer_roundtrip_witness :
  wire_ok (H := malloc_all) (freerdp_write_four_byte_signed_integer (H := malloc_all) (-8192))
    freerdp_read_four_byte_signed_integer [160; 32; 0] (Some (-8192)).
Proof.
  apply (signed_integer_roundtrip (H := malloc_all) (-8192)). vm_compute. discriminate.
Defined.

(** On any input [freerdp_read_four_byte_signed_integer] returns inside of the stream; a
    value it returns has magnitude at most 0x1FFFFFFF, so it fits in the INT32 and its
    negation does not overflow, and it took at least as many octets as the writer would use:
    the writer's form is the shortest. *)
Theorem signed_integer_reader (s : wStream) :
  readable s ->
  safe_at freerdp_read_four_byte_signed_integer s /\
  (forall v s', freerdp_read_four_byte_signed_integer s = Ret (Some v, s') ->
     Z.abs v <= FREERDP_FOUR_BYTE_SIGNED_INT_MAX /\
     zlen (enc_signed v) <= pointer s' - pointer s <= 4).
Proof.
  intros Hr. unfold safe_at.
  rewrite read_signed_run by done. pose proof (unread_bytes s Hr) as HB.
  destruct (unread s) as [|b r].
  { split; [|done]. exists None, 0. rewrite advance_0. split; [done|zlist_lia]. }
  apply Forall_cons in HB as [Hb HB].
  destruct (dec_signed b r) as [[v n]|] eqn:E.
  - destruct (dec_signed_bound b r v n Hb HB E) as (Hn & Hz & Hv). split.
    + exists (Some v), (1 + n). split; [done|zlist_lia].
    + intros v0 s' Heq. simplify_eq. rewrite zlen_enc_signed. cbn [pointer advance set_pointer].
      pose proof (extra_octets_le (Z.abs v0) n Hn ltac:(lia)).
      assert (256 ^ n <= 256 ^ 3) by (apply Z.pow_le_mono_r; lia).
      unfold FREERDP_FOUR_BYTE_SIGNED_INT_MAX. lia.
  - split; [|done]. exists None, 1. split; [done|zlist_lia].
Qed.

Lemma signed_integer_reader_witness :
  readable (blank_stream 2) /\
  safe_at freerdp_read_four_byte_signed_integer (blank_stream 2).
Proof.
  assert (Hr : readable (blank_stream 2)) by (split; [apply blank_stream_growable; lia|done]).
  split; [exact Hr|]. apply (signed_integer_reader (blank_stream 2) Hr).
Defined.
