(* ===== verification/Fifo.v ===== *)
(** * The byte queue interface

    What the users of a ring buffer rely on: a queue of bytes with an append, a peek in
    chunks and a removal from the front.  The class states the contract of the operations
    over an abstract list and a capacity; [RingBuffer.v] discharges it, [BufferedBio.v] is
    proved against it.  The file also gives the contract as a transition system and shows that
    every implementation of the class refines it over all sequences of operations.

    The capacity says when memory is asked for: a write that would leave no free byte asks for
    the capacity and the length of the data, and fails exactly when this request is refused. *)

From S2P Require Import Prelude Memory Stream.

(** The capacity after a write of [n] bytes behind [used]. *)
Definition grown (cap used n : Z) : Z := if used + n <? cap then cap else cap + n.

(** The capacity after [n] bytes were removed and [left] remain: storage that has grown is given
    back when less than half of the initial size is used. *)
Definition shrunk `{Malloc} (initial cap n left : Z) : Z :=
  if (0 <? n) && negb (cap =? initial) && (left <? initial / 2) && malloc_ok initial then initial else cap.

Class ByteFifo `{Malloc} (Q : Type) : Type := {
  fifo_ok : Q -> Prop;
  fifo_contents : Q -> list Z;
  fifo_capacity : Q -> Z;
  fifo_initial : Q -> Z;
  fifo_used : Q -> Z;
  fifo_write : list Z -> Prog Q bool;
  fifo_peek : Z -> Q -> list (list Z);
  fifo_commit : Z -> Prog Q unit;
  fifo_used_spec q : fifo_ok q -> fifo_used q = zlen (fifo_contents q) /\ zlen (fifo_contents q) <= fifo_capacity q < 2 ^ 63;
  fifo_write_spec q bs : fifo_ok q -> zlen bs < 2 ^ 63 ->
    (fifo_capacity q <= zlen (fifo_contents q) + zlen bs /\ malloc_ok (fifo_capacity q + zlen bs) = false /\
       fifo_write bs q = Ret (false, q)) \/
    (exists q', fifo_write bs q = Ret (true, q') /\ fifo_ok q' /\
       fifo_contents q' = fifo_contents q ++ bs /\ fifo_initial q' = fifo_initial q /\
       fifo_capacity q' = grown (fifo_capacity q) (zlen (fifo_contents q)) (zlen bs) /\
       (fifo_capacity q <= zlen (fifo_contents q) + zlen bs -> malloc_ok (fifo_capacity q + zlen bs) = true));
  fifo_peek_spec q n : fifo_ok q -> 0 <= n ->
    concat (fifo_peek n q) = ztake n (fifo_contents q) /\
    Forall (fun c => 0 < zlen c) (fifo_peek n q);
  fifo_commit_spec q n : fifo_ok q -> 0 <= n < 2 ^ 63 ->
    if zlen (fifo_contents q) <? n then fifo_commit n q = Abort
    else exists q', fifo_commit n q = Ret (tt, q') /\ fifo_ok q' /\
           fifo_contents q' = zdrop n (fifo_contents q) /\ fifo_initial q' = fifo_initial q /\
           fifo_capacity q' = shrunk (fifo_initial q) (fifo_capacity q) n (zlen (fifo_contents q) - n)
}.

(** ** The abstract queue as a transition system *)

Inductive fifo_op : Type :=
| OpWrite (bs : list Z)
| OpPeek (n : Z)
| OpCommit (n : Z).

Inductive fifo_out : Type :=
| OutWrite (ok : bool)
| OutPeek (bs : list Z)
| OutCommit.

(** A queue and its capacity.  A write fails only when the request for more storage is refused. *)
Inductive fifo_step `{Malloc} (initial : Z) : list Z * Z -> fifo_op -> fifo_out -> list Z * Z -> Prop :=
| step_fits q cap bs :
    zlen q + zlen bs < cap -> fifo_step initial (q, cap) (OpWrite bs) (OutWrite true) (q ++ bs, cap)
| step_grows q cap bs :
    cap <= zlen q + zlen bs -> malloc_ok (cap + zlen bs) = true ->
    fifo_step initial (q, cap) (OpWrite bs) (OutWrite true) (q ++ bs, cap + zlen bs)
| step_no_memory q cap bs :
    cap <= zlen q + zlen bs -> malloc_ok (cap + zlen bs) = false ->
    fifo_step initial (q, cap) (OpWrite bs) (OutWrite false) (q, cap)
| step_peek q cap n : fifo_step initial (q, cap) (OpPeek n) (OutPeek (ztake n q)) (q, cap)
| step_commit q cap n :
    n <= zlen q -> fifo_step initial (q, cap) (OpCommit n) OutCommit (zdrop n q, shrunk initial cap n (zlen q - n)).

Inductive fifo_steps `{Malloc} (initial : Z) : list Z * Z -> list fifo_op -> list fifo_out -> list Z * Z -> Prop :=
| steps_nil q : fifo_steps initial q [] [] q
| steps_cons q op out q1 ops outs q2 :
    fifo_step initial q op out q1 -> fifo_steps initial q1 ops outs q2 ->
    fifo_steps initial q (op :: ops) (out :: outs) q2.

(** Sizes are those of C objects. *)
Definition op_ok (op : fifo_op) : bool :=
  match op with
  | OpWrite bs => zlen bs <? 2 ^ 63
  | OpPeek n => 0 <=? n
  | OpCommit n => (0 <=? n) && (n <? 2 ^ 63)
  end.

Section implementation.
Context `{HM : Malloc} {Q : Type} `{HF : !ByteFifo Q}.

Definition run_op (op : fifo_op) : Prog Q fifo_out :=
  match op with
  | OpWrite bs => ok <- fifo_write bs ;; pret (OutWrite ok)
  | OpPeek n => q <- pget ;; pret (OutPeek (concat (fifo_peek n q)))
  | OpCommit n => fifo_commit n ;; pret OutCommit
  end.

Fixpoint run_ops (ops : list fifo_op) : Prog Q (list fifo_out) :=
  match ops with
  | [] => pret []
  | op :: ops' => out <- run_op op ;; outs <- run_ops ops' ;; pret (out :: outs)
  end.

(** What the queue is seen as. *)
Definition fifo_view (q : Q) : list Z * Z := (fifo_contents q, fifo_capacity q).

Lemma run_op_refines op q :
  fifo_ok q -> op_ok op = true ->
  (exists out q', run_op op q = Ret (out, q') /\ fifo_ok q' /\ fifo_initial q' = fifo_initial q /\
     fifo_step (fifo_initial q) (fifo_view q) op out (fifo_view q')) \/
  (exists n, op = OpCommit n /\ zlen (fifo_contents q) < n /\ run_op op q = Abort).
Proof.
  intros Hq Hop. unfold fifo_view. destruct op as [bs|n|n]; cbn in Hop; unfold run_op.
  - left. destruct (fifo_write_spec q bs Hq ltac:(lia)) as [(Hn & Hm & Hw)|(q' & Hw & Hq' & Hc & Hi & Hcap & Hm)];
      unfold pbind; rewrite Hw; do 2 eexists; (split; [reflexivity|]); (split; [done|]); (split; [done|]).
    + by apply step_no_memory.
    + rewrite Hc, Hcap. unfold grown.
      destruct (zlen (fifo_contents q) + zlen bs <? fifo_capacity q) eqn:Ef; [apply step_fits|apply step_grows; [|apply Hm]]; lia.
  - left. destruct (fifo_peek_spec q n Hq ltac:(lia)) as [Hp _]. rewrite pbind_pget, Hp.
    do 2 eexists. split; [reflexivity|]. split; [done|]. split; [done|]. constructor.
  - pose proof (fifo_commit_spec q n Hq ltac:(lia)) as Hc. unfold pbind.
    destruct (zlen (fifo_contents q) <? n) eqn:E.
    + right. exists n. rewrite Hc. split_and!; [done|lia|done].
    + left. destruct Hc as (q' & Hc & Hq' & Hz & Hi & Hcap). rewrite Hc. do 2 eexists.
      split; [reflexivity|]. split; [done|]. split; [done|]. rewrite Hz, Hcap. constructor. lia.
Qed.

(** Every run is a run of the abstract queue, up to a removal of more than there is. *)
Lemma run_ops_refines ops q :
  fifo_ok q -> forallb op_ok ops = true ->
  (exists outs q', run_ops ops q = Ret (outs, q') /\ fifo_ok q' /\
     fifo_steps (fifo_initial q) (fifo_view q) ops outs (fifo_view q')) \/
  (exists pre n post outs q', ops = pre ++ OpCommit n :: post /\
     fifo_steps (fifo_initial q) (fifo_view q) pre outs q' /\ zlen q'.1 < n /\ run_ops ops q = Abort).
Proof.
  revert q. induction ops as [|op ops IH]; intros q Hq Hops.
  { left. exists [], q. split_and!; [done|done|constructor]. }
  cbn in Hops. apply andb_true_iff in Hops as [Hop Hops].
  destruct (run_op_refines op q Hq Hop) as [(out & q1 & Hr & Hq1 & Hi & Hst)|(n & -> & Hn & Hr)].
  - destruct (IH q1 Hq1 Hops) as
      [(outs & q2 & Hrs & Hq2 & Hsts)|(pre & n & post & outs & q2 & -> & Hsts & Hn & Hrs)];
      cbn [run_ops]; unfold pbind; rewrite Hr, Hrs; rewrite Hi in Hsts.
    + left. do 2 eexists. split; [reflexivity|]. split; [done|]. by econstructor.
    + right. exists (op :: pre), n, post, (out :: outs), q2.
      split_and!; [done|by econstructor|done|done].
  - right. exists [], n, ops, [], (fifo_view q). cbn [run_ops]. unfold pbind at 1.
    rewrite Hr. split_and!; [done|constructor|done|done].
Qed.
End implementation.
