(* ===== verification/RingBuffer.v ===== *)
(** * Ring buffers: [libfreerdp/utils/ringbuffer.c]

    The byte FIFO behind the TCP transmit path, the RPC receive pipe and the child session
    transport.  The storage is a list of [size] bytes with a read and a write head; the
    buffer grows on demand and shrinks back to its initial size.  The file proves that the
    operations implement a FIFO queue of bytes (a list), for every sequence of operations,
    allocation failures included, and that they never touch memory outside of the storage. *)

From S2P Require Import Prelude Memory Stream Fifo.

Record RingBuffer : Type := mkRing {
  initialSize : Z;
  freeSize : Z;
  size : Z;
  readPtr : Z;
  writePtr : Z;
  rbuffer : list Z
}.

Definition set_heads (r w : Z) (rb : RingBuffer) : RingBuffer :=
  mkRing (initialSize rb) (freeSize rb) (size rb) r w (rbuffer rb).
Definition set_storage (b : list Z) (rb : RingBuffer) : RingBuffer :=
  mkRing (initialSize rb) (freeSize rb) (size rb) (readPtr rb) (writePtr rb) b.
Definition set_sizes (f n : Z) (rb : RingBuffer) : RingBuffer :=
  mkRing (initialSize rb) f n (readPtr rb) (writePtr rb) (rbuffer rb).

(** ** Memory *)

(** [n] bytes at offset [off] of an allocation; reading outside of it stops the program. *)
Definition mem_read (off n : Z) (mem : list Z) : Prog RingBuffer (list Z) :=
  if (0 <=? off) && (0 <=? n) && (off + n <=? zlen mem)
  then pret (ztake n (zdrop off mem)) else fun _ => Abort.

(** [memcpy (mem + off, src, |src|)], the new contents of [mem]. *)
Definition mem_write (off : Z) (src mem : list Z) : Prog RingBuffer (list Z) :=
  if (0 <=? off) && (off + zlen src <=? zlen mem)
  then pret (splice off src mem) else fun _ => Abort.

(** ** Operations *)

Definition ringbuffer_init `{Malloc} `{FreshMemory} (n : Z) : option RingBuffer :=
  if malloc_ok n then Some (mkRing n n n 0 0 (fresh n)) else None.

Definition ringbuffer_used (rb : RingBuffer) : Z := u64 (size rb - freeSize rb).

Definition ringbuffer_capacity (rb : RingBuffer) : Z := size rb.

(** After [free] no byte of the buffer may be used. *)
Definition ringbuffer_destroy : Prog RingBuffer unit :=
  rb <- pget ;; pput (set_storage [] rb).

(** The third case of [ringbuffer_realloc]: the used bytes move to a new allocation. *)
Definition ringbuffer_linearize `{FreshMemory} (targetSize : Z) : Prog RingBuffer unit :=
  rb <- pget ;;
  let newData := fresh targetSize in
  newData' <-
    (if readPtr rb <? writePtr rb then
       src <- mem_read (readPtr rb) (ringbuffer_used rb) (rbuffer rb) ;;
       mem_write 0 src newData
     else
       let tail := u64 (size rb - readPtr rb) in
       src <- mem_read (readPtr rb) tail (rbuffer rb) ;;
       d1 <- mem_write 0 src newData ;;
       if writePtr rb =? 0 then pret d1
       else
         src2 <- mem_read 0 (writePtr rb) (rbuffer rb) ;;
         mem_write tail src2 d1) ;;
  pput (set_heads 0 (u64 (size rb - freeSize rb)) (set_storage newData' rb)).

Definition ringbuffer_realloc `{Malloc} `{FreshMemory} (targetSize : Z) : Prog RingBuffer bool :=
  rb <- pget ;;
  if negb (malloc_ok targetSize) then pret false
  else
    (if writePtr rb =? readPtr rb then
       pput (set_heads 0 0 (set_storage (mem_realloc (rbuffer rb) targetSize) rb))
     else if (readPtr rb <=? writePtr rb) && (writePtr rb <? targetSize) then
       pput (set_storage (mem_realloc (rbuffer rb) targetSize) rb)
     else ringbuffer_linearize targetSize) ;;
    rb' <- pget ;;
    pput (set_sizes (u64 (freeSize rb' + u64 (targetSize - size rb'))) targetSize rb') ;;
    pret true.

(** The copy in one or two pieces, once there is room. *)
Definition ringbuffer_store (ptr : list Z) : Prog RingBuffer bool :=
  let sz := zlen ptr in
  rb <- pget ;;
  let toWrite := if u64 (size rb - writePtr rb) <? sz then u64 (size rb - writePtr rb) else sz in
  let remaining := if toWrite =? 0 then sz else u64 (sz - toWrite) in
  let ptr' := if toWrite =? 0 then ptr else zdrop toWrite ptr in
  b1 <- (if toWrite =? 0 then pret (rbuffer rb)
         else mem_write (writePtr rb) (ztake toWrite ptr) (rbuffer rb)) ;;
  b2 <- (if remaining =? 0 then pret b1 else mem_write 0 (ztake remaining ptr') b1) ;;
  pput (set_sizes (u64 (freeSize rb - sz)) (size rb)
         (set_heads (readPtr rb) (u64 (writePtr rb + sz) mod size rb) (set_storage b2 rb))) ;;
  pret true.

Definition ringbuffer_write `{Malloc} `{FreshMemory} (ptr : list Z) : Prog RingBuffer bool :=
  let sz := zlen ptr in
  rb <- pget ;;
  ok <- (if freeSize rb <=? sz then ringbuffer_realloc (u64 (size rb + sz)) else pret true) ;;
  if negb ok then pret false else ringbuffer_store ptr.

(** The result is the offset of the returned pointer in the buffer. *)
Definition ringbuffer_ensure_linear_write `{Malloc} `{FreshMemory} (sz : Z)
  : Prog RingBuffer (option Z) :=
  rb0 <- pget ;;
  ok <- (if freeSize rb0 <? sz
         then ringbuffer_realloc (u64 (u64 (u64 (size rb0 + sz) - freeSize rb0) + 32))
         else pret true) ;;
  if negb ok then pret None
  else
    rb1 <- pget ;;
    (if writePtr rb1 =? readPtr rb1 then pput (set_heads 0 0 rb1) else pret tt) ;;
    rb <- pget ;;
    if u64 (writePtr rb + sz) <? size rb then pret (Some (writePtr rb))
    else
      src <- mem_read (readPtr rb) (u64 (writePtr rb - readPtr rb)) (rbuffer rb) ;;
      b <- mem_write 0 src (rbuffer rb) ;;
      let w := u64 (size rb - freeSize rb) in
      pput (set_heads 0 w (set_storage b rb)) ;;
      pret (Some w).

Definition ringbuffer_commit_written_bytes (sz : Z) : Prog RingBuffer bool :=
  if sz <? 1 then pret true
  else
    rb <- pget ;;
    if size rb <? u64 (writePtr rb + sz) then pret false
    else
      pput (set_sizes (u64 (freeSize rb - sz)) (size rb)
              (set_heads (readPtr rb) (u64 (writePtr rb + sz) mod size rb) rb)) ;;
      pret true.

(** A chunk is the offset of its data in the buffer and its size; the status is the number of
    chunks. *)
Definition ringbuffer_peek (sz : Z) (rb : RingBuffer) : list (Z * Z) :=
  if sz <? 1 then []
  else
    let used := u64 (size rb - freeSize rb) in
    let remaining := if used <? sz then used else sz in
    let toRead := if size rb <? u64 (readPtr rb + remaining)
                  then u64 (size rb - readPtr rb) else remaining in
    let chunk0 := if toRead =? 0 then [] else [(readPtr rb, toRead)] in
    let remaining' := if toRead =? 0 then remaining else u64 (remaining - toRead) in
    chunk0 ++ if remaining' =? 0 then [] else [(0, remaining')].

Definition ringbuffer_commit_read_bytes `{Malloc} `{FreshMemory} (sz : Z) : Prog RingBuffer unit :=
  if sz <? 1 then pret tt
  else
    rb <- pget ;;
    passert (sz <=? u64 (size rb - freeSize rb)) ;;
    pput (set_sizes (u64 (freeSize rb + sz)) (size rb)
            (set_heads (u64 (readPtr rb + sz) mod size rb) (writePtr rb) rb)) ;;
    rb' <- pget ;;
    if negb (size rb' =? initialSize rb') && (ringbuffer_used rb' <? initialSize rb' / 2)
    then ringbuffer_realloc (initialSize rb') ;; pret tt
    else pret tt.

(** ** The queue a ring buffer stands for *)

(** The used bytes, from the read head round to the write head. *)
Definition contents (rb : RingBuffer) : list Z :=
  ztake (size rb - freeSize rb) (zdrop (readPtr rb) (rbuffer rb) ++ rbuffer rb).

(** The bytes of a chunk returned by [ringbuffer_peek]. *)
Definition chunk_bytes (rb : RingBuffer) (c : Z * Z) : list Z :=
  ztake c.2 (zdrop c.1 (rbuffer rb)).

Record ring_ok (rb : RingBuffer) : Prop := {
  ro_buf : zlen (rbuffer rb) = size rb;
  ro_size : 0 < size rb < 2 ^ 63;
  ro_init : 0 < initialSize rb < 2 ^ 63;
  ro_free : 0 <= freeSize rb <= size rb;
  ro_read : 0 <= readPtr rb < size rb;
  ro_write : writePtr rb = (readPtr rb + (size rb - freeSize rb)) mod size rb
}.

(** One byte is always free when only [ringbuffer_write] adds data: equal heads then mean an
    empty buffer. *)
Definition ring_open (rb : RingBuffer) : Prop := ring_ok rb /\ 0 < freeSize rb.

Section ring.
Context `{Malloc} `{FreshMemory}.
Implicit Types rb : RingBuffer.

Lemma ring_used rb : ring_ok rb -> u64 (size rb - freeSize rb) = size rb - freeSize rb.
Proof. intros []. apply u64_id. lia. Qed.

Lemma zlen_contents rb : ring_ok rb -> zlen (contents rb) = size rb - freeSize rb.
Proof. intros []. unfold contents. zlist_lia. Qed.

(** The write head is ahead of the read head, or has wrapped around. *)
Lemma ring_heads rb :
  ring_ok rb ->
  (readPtr rb + (size rb - freeSize rb) < size rb /\
     writePtr rb = readPtr rb + (size rb - freeSize rb)) \/
  (size rb <= readPtr rb + (size rb - freeSize rb) /\
     writePtr rb = readPtr rb - freeSize rb).
Proof.
  intros []. destruct (decide (readPtr rb + (size rb - freeSize rb) < size rb)).
  - left. split; [done|]. by rewrite ro_write0, Z.mod_small by lia.
  - right. split; [lia|]. rewrite ro_write0.
    replace (readPtr rb + (size rb - freeSize rb)) with (readPtr rb - freeSize rb + 1 * size rb)
      by lia.
    rewrite Z_mod_plus_full, Z.mod_small by lia. done.
Qed.

Lemma contents_linear rb :
  ring_ok rb -> readPtr rb + (size rb - freeSize rb) <= size rb ->
  contents rb = ztake (size rb - freeSize rb) (zdrop (readPtr rb) (rbuffer rb)).
Proof. intros [] Hle. unfold contents. znth_solve. Qed.

Lemma contents_wrapped rb :
  ring_ok rb -> size rb <= readPtr rb + (size rb - freeSize rb) ->
  contents rb = zdrop (readPtr rb) (rbuffer rb) ++
                ztake (readPtr rb - freeSize rb) (rbuffer rb).
Proof. intros [] Hle. unfold contents. znth_solve. Qed.

Lemma mem_read_run off n mem rb :
  0 <= off -> 0 <= n -> off + n <= zlen mem ->
  mem_read off n mem rb = Ret (ztake n (zdrop off mem), rb).
Proof.
  intros. unfold mem_read. by replace ((0 <=? off) && (0 <=? n) && _) with true by lia.
Qed.

Lemma mem_write_run off src mem rb :
  0 <= off -> off + zlen src <= zlen mem ->
  mem_write off src mem rb = Ret (splice off src mem, rb).
Proof. intros. unfold mem_write. by replace ((0 <=? off) && _) with true by lia. Qed.

(** Moving the used bytes to the front of a larger allocation. *)
Lemma ringbuffer_linearize_run n rb :
  ring_open rb -> writePtr rb <> readPtr rb -> size rb - freeSize rb < n < 2 ^ 63 ->
  exists d, ringbuffer_linearize n rb =
      Ret (tt, set_heads 0 (size rb - freeSize rb) (set_storage d rb)) /\
    zlen d = n /\ ztake (size rb - freeSize rb) d = contents rb.
Proof.
  intros [Hok Hfree] Hne Hn. pose proof (ring_used rb Hok) as Hu.
  pose proof (ring_heads rb Hok) as Hh. pose proof Hok as [].
  unfold ringbuffer_linearize. unfold pbind at 1, pget. cbv zeta. rewrite Hu.
  assert (Hfn : zlen (fresh n) = n) by (rewrite fresh_length; lia).
  destruct (readPtr rb <? writePtr rb) eqn:E.
  - rewrite (contents_linear rb Hok) by lia.
    exists (splice 0 (ztake (size rb - freeSize rb) (zdrop (readPtr rb) (rbuffer rb))) (fresh n)).
    unfold ringbuffer_used, pbind. rewrite Hu, mem_read_run by lia.
    rewrite mem_write_run by zlist_lia. split_and!; [done|rewrite zlen_splice; zlist_lia|].
    rewrite ztake_splice by zlist_lia. by rewrite ztake_0.
  - destruct Hh as [[? ?]|[Hwr Hw]]; [lia|].
    rewrite (contents_wrapped rb Hok) by lia. rewrite (u64_id (size rb - readPtr rb)) by lia.
    set (tl := zdrop (readPtr rb) (rbuffer rb)).
    assert (Htl : zlen tl = size rb - readPtr rb) by (subst tl; zlist_lia).
    assert (Htk : ztake (size rb - readPtr rb) tl = tl) by (apply ztake_all; lia).
    unfold pbind at 1 2. rewrite mem_read_run by lia. fold tl. rewrite Htk.
    unfold pbind at 1. rewrite mem_write_run by zlist_lia.
    destruct (writePtr rb =? 0) eqn:E0; unfold pret.
    + exists (splice 0 tl (fresh n)). split_and!; [done|rewrite zlen_splice; zlist_lia|].
      rewrite ztake_splice by zlist_lia. by rewrite !ztake_0, app_nil_r by lia.
    + unfold pbind. rewrite mem_read_run by lia. change (zdrop 0 (rbuffer rb)) with (rbuffer rb).
      rewrite mem_write_run by (rewrite ?zlen_splice; zlist_lia).
      eexists. split_and!; [done|rewrite !zlen_splice; rewrite ?zlen_splice; zlist_lia|].
      rewrite ztake_splice by (rewrite ?zlen_splice; zlist_lia).
      rewrite ztake_splice by zlist_lia. rewrite ztake_0 by lia. by rewrite Hw.
Qed.

(** [ringbuffer_realloc] keeps the queue and leaves room for the rest of [n]. *)
Lemma ringbuffer_realloc_run n rb :
  ring_open rb -> size rb - freeSize rb < n ->
  (malloc_ok n = false /\ ringbuffer_realloc n rb = Ret (false, rb)) \/
  (malloc_ok n = true /\ exists rb', ringbuffer_realloc n rb = Ret (true, rb') /\
     ring_ok rb' /\ contents rb' = contents rb /\ size rb' = n /\
     freeSize rb' = n - (size rb - freeSize rb) /\ initialSize rb' = initialSize rb).
Proof.
  intros Hopen Hn. pose proof Hopen as [Hok Hfree]. pose proof (ring_heads rb Hok) as Hh.
  pose proof (zlen_contents rb Hok) as Hzc.
  pose proof Hok as []. destruct (malloc_ok n) eqn:Em; [right|left].
  2: { split; [done|]. unfold ringbuffer_realloc, pbind, pget. by rewrite Em. }
  split; [done|]. unfold ringbuffer_realloc. unfold pbind at 1, pget at 1. cbv beta iota.
  rewrite Em. cbn [negb].
  pose proof (malloc_bound n Em) as Hb.
  assert (Hsz : u64 (freeSize rb + u64 (n - size rb)) = n - (size rb - freeSize rb)).
  { unfold u64. rewrite Zplus_mod_idemp_r. fold (u64 (freeSize rb + (n - size rb))).
    rewrite u64_id; lia. }
  destruct (writePtr rb =? readPtr rb) eqn:E.
  - assert (freeSize rb = size rb) by lia. unfold pbind, pput, pget, pret.
    cbn [freeSize size set_heads set_storage]. rewrite Hsz. eexists. split; [done|].
    assert (Hc : contents rb = []) by (apply zlen_0_nil; lia). rewrite Hc.
    split_and!; cbn; try lia.
    + split; cbn; try lia; [by rewrite zlen_mem_realloc by lia|]. rewrite Z.mod_small; lia.
    + unfold contents. cbn. by rewrite ztake_0 by lia.
  - destruct ((readPtr rb <=? writePtr rb) && (writePtr rb <? n)) eqn:E2.
    + unfold pbind, pput, pget, pret. cbn [freeSize size set_heads set_storage]. rewrite Hsz.
      eexists. split; [done|].
      assert (Hlin : readPtr rb + (size rb - freeSize rb) = writePtr rb) by lia.
      assert (Hok' : ring_ok (set_sizes (n - (size rb - freeSize rb)) n
                (set_storage (mem_realloc (rbuffer rb) n) rb))).
      { split; cbn; try lia; [by rewrite zlen_mem_realloc by lia|].
        rewrite Z.mod_small by lia. lia. }
      split_and!; cbn; try lia; [exact Hok'|].
      rewrite (contents_linear _ Hok'), (contents_linear rb Hok) by (cbn; lia). cbn.
      replace (n - (n - (size rb - freeSize rb))) with (size rb - freeSize rb) by lia.
      apply znth_ext; [autorewrite with zlist; rewrite zlen_mem_realloc; lia|].
      autorewrite with zlist. rewrite zlen_mem_realloc by lia. intros i Hi.
      autorewrite with znth. repeat (case_if; try lia). rewrite znth_mem_realloc; [done|lia|lia].
    + destruct (ringbuffer_linearize_run n rb Hopen ltac:(lia) ltac:(lia)) as (d & Hrun & Hd & Hc).
      unfold pbind at 1. rewrite Hrun. unfold pbind, pput, pget, pret.
      cbn [freeSize size set_heads set_storage]. rewrite Hsz. eexists. split; [done|].
      assert (Hok' : ring_ok (set_sizes (n - (size rb - freeSize rb)) n
                (set_heads 0 (size rb - freeSize rb) (set_storage d rb)))).
      { split; cbn; try lia. rewrite Z.mod_small; lia. }
      split_and!; cbn; try lia; [exact Hok'|].
      rewrite (contents_linear _ Hok') by (cbn; lia). cbn.
      replace (n - (n - (size rb - freeSize rb))) with (size rb - freeSize rb) by lia.
      rewrite zdrop_0 by lia. exact Hc.
Qed.
End ring.

Section ring_ops.
Context `{Malloc} `{FreshMemory}.
Implicit Types rb : RingBuffer.

Lemma ringbuffer_store_run ptr rb :
  ring_ok rb -> zlen ptr <= freeSize rb ->
  exists rb', ringbuffer_store ptr rb = Ret (true, rb') /\ ring_ok rb' /\
    contents rb' = contents rb ++ ptr /\ size rb' = size rb /\
    freeSize rb' = freeSize rb - zlen ptr /\ initialSize rb' = initialSize rb.
Proof.
  intros Hok Hsz. pose proof (ring_heads rb Hok) as Hh. pose proof Hok as [].
  pose proof (zlen_nonneg ptr) as Hnn. set (sz := zlen ptr) in *.
  assert (Hw : 0 <= writePtr rb < size rb) by lia.
  unfold ringbuffer_store. unfold pbind at 1, pget. cbv beta iota zeta. fold sz.
  rewrite (u64_id (size rb - writePtr rb)), (u64_id (freeSize rb - sz)),
    (u64_id (writePtr rb + sz)) by lia.
  set (b2 := if size rb - writePtr rb <? sz
    then splice 0 (zdrop (size rb - writePtr rb) ptr)
           (splice (writePtr rb) (ztake (size rb - writePtr rb) ptr) (rbuffer rb))
    else splice (writePtr rb) ptr (rbuffer rb)).
  exists (set_sizes (freeSize rb - sz) (size rb)
    (set_heads (readPtr rb) ((writePtr rb + sz) mod size rb) (set_storage b2 rb))).
  assert (Hb2 : zlen b2 = size rb)
    by (subst b2; case_if; rewrite !zlen_splice; rewrite ?zlen_splice; unfold sz in *; zlist_lia).
  split; [|split; [|split; [|done]]].
  - destruct (size rb - writePtr rb <? sz) eqn:E.
    + replace (size rb - writePtr rb =? 0) with false by lia.
      rewrite (u64_id (sz - _)) by lia.
      replace (sz - (size rb - writePtr rb) =? 0) with false by lia.
      unfold pbind. rewrite mem_write_run by (unfold sz in *; zlist_lia).
      rewrite mem_write_run
        by (rewrite ?zlen_splice; unfold sz in *; zlist_lia).
      subst b2. cbn beta iota. rewrite (ztake_all _ (zdrop _ ptr)) by (unfold sz in *; zlist_lia).
      done.
    + destruct (sz =? 0) eqn:E0.
      * rewrite E0. unfold pbind, pret, pput. subst b2. cbn beta iota.
        assert (ptr = []) as -> by (apply zlen_0_nil; unfold sz in *; lia).
        assert (splice (writePtr rb) [] (rbuffer rb) = rbuffer rb) as ->; [|done].
        unfold splice. rewrite zlen_nil, Z.add_0_r, app_nil_l. apply ztake_zdrop_app.
      * rewrite Z.sub_diag. change (u64 0 =? 0) with true. unfold pbind, pret, pput.
        rewrite mem_write_run by (unfold sz in *; zlist_lia).
        rewrite ztake_all by (unfold sz; lia). done.
  - split; cbn; try lia. rewrite ro_write0, Zplus_mod_idemp_l. f_equal. lia.
  - unfold contents. cbn. subst b2. unfold sz in *.
    replace (size rb - (freeSize rb - zlen ptr)) with (size rb - freeSize rb + zlen ptr) by lia.
    rewrite <- ro_buf0 in *.
    clear Hb2. destruct (_ <? zlen ptr) eqn:E; destruct Hh as [[? Hw']|[? Hw']];
      rewrite Hw' in *; clear ro_write0 Hw'.
    + apply circ_write_split; lia.
    + lia.
    + apply circ_write_linear; lia.
    + apply circ_write_wrapped; lia.
Qed.

Lemma ringbuffer_write_run ptr rb :
  ring_open rb -> zlen ptr < 2 ^ 63 ->
  (freeSize rb <= zlen ptr /\ malloc_ok (size rb + zlen ptr) = false /\
     ringbuffer_write ptr rb = Ret (false, rb)) \/
  (exists rb', ringbuffer_write ptr rb = Ret (true, rb') /\ ring_open rb' /\
     contents rb' = contents rb ++ ptr /\ initialSize rb' = initialSize rb /\
     size rb' = grown (size rb) (zlen (contents rb)) (zlen ptr) /\
     (freeSize rb <= zlen ptr -> malloc_ok (size rb + zlen ptr) = true)).
Proof.
  intros Hopen Hlen. pose proof Hopen as [Hok Hfree]. pose proof Hok as [].
  pose proof (zlen_nonneg ptr). rewrite (zlen_contents rb Hok). unfold ringbuffer_write, grown. cbv zeta.
  destruct (freeSize rb <=? zlen ptr) eqn:E.
  - destruct (ringbuffer_realloc_run (size rb + zlen ptr) rb Hopen ltac:(lia))
      as [[Hm Hr]|(Hm & rb1 & Hr & Hok1 & Hc & Hs & Hf & Hi)].
    + left. split_and!; [lia|done|]. unfold pbind, pget. rewrite E, u64_id by lia.
      by rewrite Hr.
    + right. destruct (ringbuffer_store_run ptr rb1 Hok1 ltac:(lia))
        as (rb' & Hst & Hok' & Hc' & Hs' & Hf' & Hi').
      exists rb'. replace (size rb - freeSize rb + zlen ptr <? size rb) with false by lia.
      split_and!; [|split; [done|lia]|congruence|congruence|congruence|done].
      unfold pbind, pget. rewrite E, u64_id by lia. rewrite Hr. exact Hst.
  - right. destruct (ringbuffer_store_run ptr rb Hok ltac:(lia))
      as (rb' & Hst & Hok' & Hc' & Hs' & Hf' & Hi').
    exists rb'. replace (size rb - freeSize rb + zlen ptr <? size rb) with true by lia.
    split_and!; [|split; [done|lia]|congruence|congruence|congruence|lia].
    unfold pbind, pget. rewrite E. exact Hst.
Qed.

Lemma ringbuffer_peek_run sz rb :
  ring_ok rb -> 0 <= sz ->
  concat (map (chunk_bytes rb) (ringbuffer_peek sz rb)) = ztake sz (contents rb) /\
  Forall (fun c => 0 <= c.1 /\ 0 < c.2 /\ c.1 + c.2 <= size rb) (ringbuffer_peek sz rb) /\
  (length (ringbuffer_peek sz rb) <= 2)%nat.
Proof.
  intros Hok Hsz. pose proof (ring_used rb Hok) as Hu. pose proof Hok as [].
  unfold ringbuffer_peek. destruct (sz <? 1) eqn:E1.
  { rewrite ztake_0 by lia. split_and!; [done|constructor|cbn; lia]. }
  rewrite Hu. cbv zeta. set (used := size rb - freeSize rb) in *.
  set (rem := if used <? sz then used else sz).
  assert (Hrem : rem = Z.min used sz) by (subst rem; case_if; lia).
  assert (Hc : ztake sz (contents rb) = ztake rem (zdrop (readPtr rb) (rbuffer rb) ++ rbuffer rb)).
  { unfold contents. rewrite ztake_ztake. f_equal. subst used. lia. }
  rewrite (u64_id (readPtr rb + rem)), (u64_id (size rb - readPtr rb)) by lia. rewrite Hc.
  clear Hc Hu ro_write0.
  destruct (size rb <? readPtr rb + rem) eqn:E2.
  - replace (size rb - readPtr rb =? 0) with false by lia.
    rewrite u64_id by lia. replace (rem - (size rb - readPtr rb) =? 0) with false by lia.
    split_and!; [|repeat constructor; cbn; lia|cbn; lia]. cbn. unfold chunk_bytes. cbn.
    rewrite app_nil_r. rewrite (ztake_app rem). f_equal.
    + rewrite !ztake_all by zlist_lia. done.
    + rewrite zdrop_0 by lia. f_equal. zlist_lia.
  - destruct (rem =? 0) eqn:E3.
    + assert (rem = 0) as -> by lia. cbn. rewrite ztake_0 by lia.
      split_and!; [done|constructor|lia].
    + rewrite Z.sub_diag. change (u64 0 =? 0) with true. cbn.
      split_and!; [|repeat constructor; cbn; lia|lia]. unfold chunk_bytes. cbn.
      rewrite app_nil_r, ztake_app, (ztake_0 _ (rbuffer rb)), app_nil_r by zlist_lia. done.
Qed.

Lemma ringbuffer_commit_read_run sz rb :
  ring_ok rb -> 0 <= sz < 2 ^ 63 ->
  if size rb - freeSize rb <? sz then ringbuffer_commit_read_bytes sz rb = Abort
  else exists rb', ringbuffer_commit_read_bytes sz rb = Ret (tt, rb') /\ ring_ok rb' /\
         contents rb' = zdrop sz (contents rb) /\ (ring_open rb \/ 0 < sz -> ring_open rb') /\
         initialSize rb' = initialSize rb /\ size rb' = shrunk (initialSize rb) (size rb) sz (size rb - freeSize rb - sz).
Proof.
  intros Hok Hsz. pose proof (ring_used rb Hok) as Hu. pose proof Hok as [].
  unfold ringbuffer_commit_read_bytes. destruct (sz <? 1) eqn:E1.
  { replace (size rb - freeSize rb <? sz) with false by lia. exists rb.
    rewrite zdrop_0 by lia. split_and!; [done|done|done| |done|unfold shrunk; by replace (0 <? sz) with false by lia].
    intros [?|?]; [done|lia]. }
  rewrite pbind_pget, pbind_passert, pbind_pput, Hu.
  destruct (size rb - freeSize rb <? sz) eqn:E2; [by replace (sz <=? _) with false by lia|].
  replace (sz <=? size rb - freeSize rb) with true by lia.
  rewrite (u64_id (freeSize rb + sz)), (u64_id (readPtr rb + sz)) by lia.
  rewrite mod_step by lia.
  set (rb1 := set_sizes _ _ _).
  assert (Hok1 : ring_ok rb1).
  { subst rb1. split; cbn; try lia; [case_if; lia|].
    rewrite ro_write0. case_if; [f_equal; lia|].
    rewrite <- (Z_mod_plus_full (_ + (size rb - (freeSize rb + sz))) 1). f_equal. lia. }
  assert (Hc1 : contents rb1 = zdrop sz (contents rb)).
  { subst rb1. unfold contents. cbn. clear Hu Hok1 ro_write0.
    set (b := rbuffer rb) in *. remember (size rb) as n eqn:Hn. clear Hn.
    zsplit_as (readPtr rb) b as (A & B & -> & HA & HB).
    rewrite (zdrop_app (readPtr rb) A B), (zdrop_all _ A), (zdrop_0 _ B), app_nil_l by zcut_lia.
    destruct (readPtr rb + sz <? n) eqn:E3.
    - zsplit_as sz B as (B1 & B2 & -> & HB1 & HB2). rewrite <- !app_assoc.
      rewrite !(zdrop_app _ A), !(zdrop_all _ A), app_nil_l by zcut_lia.
      replace (readPtr rb + sz - zlen A) with sz by lia.
      rewrite !(zdrop_app _ B1), (zdrop_all _ B1), (zdrop_0 _ B2), app_nil_l by zcut_lia.
      rewrite (ztake_app _ B1), (ztake_all _ B1) by zcut_lia.
      rewrite zdrop_app, (zdrop_all _ B1), (zdrop_0), app_nil_l by zcut_lia.
      rewrite !(ztake_app _ B2). f_equal; [f_equal; lia|].
      replace (n - freeSize rb - zlen B1) with (n - (freeSize rb + sz)) by lia.
      done.
    - set (k := readPtr rb + sz - n). zsplit_as k A as (A1 & A2 & -> & HA1 & HA2).
      rewrite <- !app_assoc. rewrite !(zdrop_app _ A1), (zdrop_all _ A1), (zdrop_0), app_nil_l
        by zcut_lia.
      rewrite (ztake_app _ B), (ztake_all _ B), (ztake_app _ A1), (ztake_all _ A1) by zcut_lia.
      rewrite !(zdrop_app sz), (zdrop_all _ B), app_nil_l, (zdrop_app _ A1), (zdrop_all _ A1),
        app_nil_l, (zdrop_0) by zcut_lia.
      rewrite <- !app_assoc, !(ztake_app _ A2). f_equal; [f_equal; zcut_lia|].
      rewrite !ztake_0 by zcut_lia. done. }
  assert (Hopen1 : ring_open rb1) by (split; [done|subst rb1; cbn; lia]).
  rewrite pbind_pget. unfold shrunk. replace (0 <? sz) with true by lia. rewrite andb_true_l.
  replace (negb (size rb =? initialSize rb) && (size rb - freeSize rb - sz <? initialSize rb / 2)) with
    (negb (size rb1 =? initialSize rb1) && (ringbuffer_used rb1 <? initialSize rb1 / 2)).
  2: { unfold ringbuffer_used. rewrite ring_used by done. subst rb1. cbn. do 2 f_equal. lia. }
  destruct (negb _ && _) eqn:E4; cbn [andb].
  - unfold ringbuffer_used in E4. rewrite ring_used in E4 by done.
    assert (Hlt : size rb1 - freeSize rb1 < initialSize rb1).
    { destruct Hok1. Z.div_mod_to_equations. lia. }
    destruct (ringbuffer_realloc_run _ rb1 Hopen1 Hlt)
      as [[Hm Hr]|(Hm & rb2 & Hr & Hok2 & Hc2 & Hs2 & Hf2 & Hi2)]; unfold pbind; rewrite Hr.
    + exists rb1. change (initialSize rb1) with (initialSize rb) in Hm. by rewrite Hm.
    + exists rb2. change (initialSize rb1) with (initialSize rb) in Hm. rewrite Hm.
      split_and!; [done|done|congruence| |done|done]. intros _. split; [done|]. lia.
  - exists rb1. by split_and!.
Qed.

Lemma ring_init_open n rb :
  0 < n -> ringbuffer_init n = Some rb -> ring_open rb /\ contents rb = [].
Proof.
  unfold ringbuffer_init. intros Hn Hi. destruct (malloc_ok n) eqn:Em; [|done]. simplify_eq.
  pose proof (malloc_bound n Em). split.
  - split; [split|]; cbn; try lia; [rewrite fresh_length; lia|]. rewrite Z.mod_small; lia.
  - unfold contents. cbn. by rewrite ztake_0 by lia.
Qed.

(** The heads of an empty buffer may be moved to its start. *)
Lemma ring_rewind rb :
  ring_open rb -> writePtr rb = readPtr rb ->
  ring_open (set_heads 0 0 rb) /\ contents (set_heads 0 0 rb) = contents rb.
Proof.
  intros [Hok Hf] Heq. pose proof (ring_heads rb Hok) as Hh. pose proof Hok as [].
  assert (freeSize rb = size rb) by lia. split.
  - split; [split|]; cbn; try lia. rewrite Z.mod_small; lia.
  - unfold contents. cbn. by rewrite !ztake_0 by lia.
Qed.

Lemma ring_compact rb :
  ring_open rb -> readPtr rb <= writePtr rb ->
  let b := splice 0 (ztake (writePtr rb - readPtr rb) (zdrop (readPtr rb) (rbuffer rb)))
             (rbuffer rb) in
  let rb' := set_heads 0 (size rb - freeSize rb) (set_storage b rb) in
  ring_open rb' /\ contents rb' = contents rb.
Proof.
  intros [Hok Hf] Hle b rb'. pose proof (ring_heads rb Hok) as Hh. pose proof Hok as [].
  assert (Hw : writePtr rb - readPtr rb = size rb - freeSize rb) by lia.
  assert (Hz : zlen (ztake (writePtr rb - readPtr rb) (zdrop (readPtr rb) (rbuffer rb))) =
               size rb - freeSize rb) by (rewrite zlen_ztake, zlen_zdrop; lia).
  assert (Hok' : ring_ok rb').
  { subst rb'. split; cbn; try lia; [subst b; rewrite zlen_splice; lia|].
    rewrite Z.mod_small; lia. }
  split; [by split|]. rewrite (contents_linear rb' Hok'), (contents_linear rb Hok)
    by (subst rb'; cbn; lia).
  subst rb'. cbn. rewrite zdrop_0 by lia. subst b. rewrite ztake_splice by lia.
  rewrite ztake_0 by lia. by rewrite Hw.
Qed.

Lemma ringbuffer_ensure_linear_run sz rb :
  ring_open rb -> 0 <= sz < 2 ^ 62 ->
  (freeSize rb < sz /\ ringbuffer_ensure_linear_write sz rb = Ret (None, rb)) \/
  (exists rb', ringbuffer_ensure_linear_write sz rb = Ret (Some (writePtr rb'), rb') /\
     ring_open rb' /\ contents rb' = contents rb /\ sz <= freeSize rb' /\
     writePtr rb' + sz <= size rb' /\ (freeSize rb < sz -> sz < freeSize rb') /\
     (sz <= freeSize rb -> freeSize rb' = freeSize rb)).
Proof.
  intros Hopen Hsz. unfold ringbuffer_ensure_linear_write. rewrite pbind_pget.
  (* the state after the first [if] *)
  assert (Hgrow :
    (freeSize rb < sz /\ (if freeSize rb <? sz
       then ringbuffer_realloc (u64 (u64 (u64 (size rb + sz) - freeSize rb) + 32))
       else pret true) rb = Ret (false, rb)) \/
    (exists r, (if freeSize rb <? sz
       then ringbuffer_realloc (u64 (u64 (u64 (size rb + sz) - freeSize rb) + 32))
       else pret true) rb = Ret (true, r) /\ ring_open r /\ contents r = contents rb /\
       sz <= freeSize r /\ (freeSize rb < sz -> sz < freeSize r) /\
       (sz <= freeSize rb -> freeSize r = freeSize rb))).
  { pose proof Hopen as [Hok Hf]. pose proof Hok as []. destruct (freeSize rb <? sz) eqn:E.
    - rewrite !u64_id by (rewrite ?u64_id; rewrite ?u64_id; lia).
      destruct (ringbuffer_realloc_run (size rb + sz - freeSize rb + 32) rb Hopen ltac:(lia))
        as [[Hm Hr]|(Hm & r & Hr & Hok1 & Hc & Hs & Hfr & Hi)]; [left; split; [lia|done]|].
      right. exists r. split_and!; [done|split; [done|lia]|done|lia|lia|lia].
    - right. exists rb. split_and!; [done|done|done|lia|lia|done]. }
  destruct Hgrow as [[Hlt Hr]|(r & Hr & Hro & Hc & Hfree & Hg1 & Hg2)].
  { left. split; [done|]. unfold pbind at 1. by rewrite Hr. }
  right. unfold pbind at 1. rewrite Hr. cbn [negb]. rewrite pbind_pget.
  assert (Hh : exists h, (if writePtr r =? readPtr r then pput (set_heads 0 0 r) else pret tt) r =
      Ret (tt, h) /\ ring_open h /\ contents h = contents rb /\ freeSize h = freeSize r).
  { destruct (writePtr r =? readPtr r) eqn:E.
    - exists (set_heads 0 0 r). destruct (ring_rewind r Hro ltac:(lia)). split_and!; congruence || done.
    - exists r. done. }
  destruct Hh as (h & Hh & Hho & Hhc & Hhf). unfold pbind at 1. rewrite Hh, pbind_pget.
  pose proof Hho as [Hok _]. pose proof (ring_heads h Hok) as Hheads. pose proof Hok as [].
  rewrite u64_id by lia. destruct (writePtr h + sz <? size h) eqn:E.
  - exists h. split_and!; try done; lia.
  - (* the write head cannot have wrapped: it would be followed by [freeSize] free bytes *)
    assert (Hle : readPtr h <= writePtr h) by lia.
    rewrite (u64_id (writePtr h - readPtr h)), ring_used by (done || lia).
    unfold pbind. rewrite mem_read_run by lia. rewrite mem_write_run by zlist_lia.
    destruct (ring_compact h Hho Hle) as [Ho Hcc].
    match type of Ho with ring_open ?x => exists x end. split; [reflexivity|].
    split_and!; [exact Ho|congruence|cbn; lia|cbn; lia|cbn; lia|].
    cbn. lia.
Qed.

(** Storing at the write head and committing is a write in one piece. *)
Lemma commit_is_store bs rb :
  ring_ok rb -> 0 < zlen bs <= freeSize rb -> writePtr rb + zlen bs <= size rb ->
  ringbuffer_commit_written_bytes (zlen bs)
    (set_storage (splice (writePtr rb) bs (rbuffer rb)) rb) = ringbuffer_store bs rb.
Proof.
  intros Hok Hl Hfit. pose proof (ring_heads rb Hok). pose proof Hok as [].
  unfold ringbuffer_commit_written_bytes, ringbuffer_store.
  replace (zlen bs <? 1) with false by lia. rewrite !pbind_pget. cbn [writePtr size set_storage].
  rewrite (u64_id (writePtr rb + _)), (u64_id (size rb - _)) by lia. cbv zeta.
  replace (size rb <? writePtr rb + zlen bs) with false by lia.
  replace (size rb - writePtr rb <? zlen bs) with false by lia.
  replace (zlen bs =? 0) with false by lia. rewrite Z.sub_diag. change (u64 0 =? 0) with true.
  unfold pbind. rewrite mem_write_run by zlist_lia. rewrite ztake_all by lia. done.
Qed.
End ring_ops.

(** ** The ring buffer is a byte queue *)

#[export] Instance ring_fifo `{HM : Malloc} `{FreshMemory} : ByteFifo RingBuffer.
Proof.
  refine {| fifo_ok := ring_open; fifo_contents := contents; fifo_capacity := size;
            fifo_initial := initialSize; fifo_used := ringbuffer_used;
            fifo_write := ringbuffer_write;
            fifo_peek n rb := map (chunk_bytes rb) (ringbuffer_peek n rb);
            fifo_commit := ringbuffer_commit_read_bytes |}.
  - intros rb [Hok _]. unfold ringbuffer_used. rewrite zlen_contents, ring_used by done.
    destruct Hok. lia.
  - intros rb bs Ho Hl. pose proof Ho as [Hok _]. pose proof (zlen_contents rb Hok).
    destruct (ringbuffer_write_run bs rb Ho Hl) as [(Hf & Hm & Hw)|(rb' & Hw & Ho' & Hc & Hi & Hs & Hm)].
    + left. split_and!; [lia|done|done].
    + right. exists rb'. split_and!; [done..|]. intros Hle. apply Hm. lia.
  - intros rb n [Hok _] Hn. destruct (ringbuffer_peek_run n rb Hok Hn) as (Hp & Hb & _).
    split; [done|]. apply Forall_map. eapply Forall_impl; [exact Hb|].
    intros c (? & ? & ?). unfold chunk_bytes, compose. destruct Hok. zlist_lia.
  - intros rb n Ho Hn. pose proof Ho as [Hok _].
    pose proof (ringbuffer_commit_read_run n rb Hok Hn) as Hc. rewrite zlen_contents by done.
    destruct (size rb - freeSize rb <? n); [done|].
    destruct Hc as (rb' & Hc & _ & Hz & Ho' & Hi & Hs). exists rb'. auto 10.
Defined.

(** A producer that writes through the pointer returned by [ringbuffer_ensure_linear_write]. *)
Definition linear_put `{Malloc} `{FreshMemory} (bs : list Z) : Prog RingBuffer bool :=
  p <- ringbuffer_ensure_linear_write (zlen bs) ;;
  match p with
  | None => pret false
  | Some w =>
      rb <- pget ;;
      b <- mem_write w bs (rbuffer rb) ;;
      pput (set_storage b rb) ;;
      ringbuffer_commit_written_bytes (zlen bs)
  end.

Lemma linear_put_run `{Malloc} `{FreshMemory} bs rb :
  ring_open rb -> zlen bs < 2 ^ 62 ->
  (freeSize rb < zlen bs /\ linear_put bs rb = Ret (false, rb)) \/
  (exists rb', linear_put bs rb = Ret (true, rb') /\ ring_ok rb' /\
     contents rb' = contents rb ++ bs /\ (zlen bs <> freeSize rb -> ring_open rb')).
Proof.
  intros Ho Hl. pose proof (zlen_nonneg bs). destruct (ringbuffer_ensure_linear_run (zlen bs) rb Ho ltac:(lia))
    as [[Hf Hr]|(rb1 & Hr & Ho1 & Hc1 & Hf1 & Hfit & Hg1 & Hg2)]; [left|right].
  { split; [done|]. unfold linear_put, pbind. by rewrite Hr. }
  unfold linear_put, pbind at 1. rewrite Hr.
  pose proof Ho1 as [Hok1 Hf1']. pose proof (ring_heads rb1 Hok1) as Hh. pose proof Hok1 as [].
  rewrite pbind_pget. unfold pbind at 1. rewrite mem_write_run by lia. rewrite pbind_pput.
  destruct (decide (zlen bs = 0)) as [Hz|Hz].
  - rewrite Hz. apply zlen_0_nil in Hz as ->. exists rb1.
    assert (splice (writePtr rb1) [] (rbuffer rb1) = rbuffer rb1) as ->.
    { unfold splice. rewrite zlen_nil, Z.add_0_r, app_nil_l. apply ztake_zdrop_app. }
    unfold ringbuffer_commit_written_bytes. cbn. rewrite app_nil_r.
    split_and!; [by destruct rb1|done|done|done].
  - rewrite commit_is_store by (done || lia).
    destruct (ringbuffer_store_run bs rb1 Hok1 ltac:(lia)) as (rb' & Hs & Hok' & Hc & _ & Hfr & _).
    exists rb'. split_and!; [done|done|congruence|]. intros Hne. split; [done|].
    destruct Ho as [[] ?]. lia.
Qed.

(** ** Properties *)

(** C2: started from [ringbuffer_init] with [n] bytes, any sequence of writes, peeks and removals
    behaves as on a FIFO queue of bytes with a capacity: a write appends its bytes, without an
    allocation while a byte stays free, and with the capacity raised by their number otherwise; it
    fails, and changes nothing, exactly when the request for that capacity is refused; every peek
    shows the oldest bytes in order; every removal drops the oldest bytes, and gives the
    capacity [n] back when less than half of it is used.  The only stop is the assertion on a
    removal of more bytes than are stored; no byte outside of the storage is ever read or
    written. *)
Theorem ringbuffer_refines_fifo `{Malloc} `{FreshMemory} (n : Z) (rb : RingBuffer)
    (ops : list fifo_op) :
  0 < n -> ringbuffer_init n = Some rb -> forallb op_ok ops = true ->
  (exists outs rb', run_ops ops rb = Ret (outs, rb') /\ ring_open rb' /\
     fifo_steps n ([], n) ops outs (contents rb', ringbuffer_capacity rb')) \/
  (exists pre k post outs q, ops = pre ++ OpCommit k :: post /\ fifo_steps n ([], n) pre outs q /\
     zlen q.1 < k /\ run_ops ops rb = Abort).
Proof.
  intros Hn Hi Hops. destruct (ring_init_open n rb Hn Hi) as [Ho Hc].
  assert (Hv : fifo_view rb = ([], n) /\ fifo_initial rb = n).
  { unfold fifo_view. cbn. rewrite Hc. unfold ringbuffer_init in Hi. destruct (malloc_ok n); [|done]. by simplify_eq. }
  destruct Hv as [Hv Hin]. pose proof (run_ops_refines ops rb Ho Hops) as Hr. by rewrite Hv, Hin in Hr.
Qed.

Lemma ringbuffer_refines_fifo_witness :
  exists rb outs rb', @ringbuffer_init malloc_all fresh_zero 4 = Some rb /\
    @run_ops malloc_all RingBuffer (@ring_fifo malloc_all fresh_zero)
      [OpWrite [1; 2; 3]; OpCommit 2; OpWrite [4; 5; 6; 7]; OpPeek 9] rb = Ret (outs, rb') /\
    outs = [OutWrite true; OutCommit; OutWrite true; OutPeek [3; 4; 5; 6; 7]] /\
    @fifo_steps malloc_all 4 ([], 4) [OpWrite [1; 2; 3]; OpCommit 2; OpWrite [4; 5; 6; 7]; OpPeek 9]
      outs (contents rb', ringbuffer_capacity rb').
Proof.
  destruct (@ringbuffer_refines_fifo malloc_all fresh_zero 4 _
    [OpWrite [1; 2; 3]; OpCommit 2; OpWrite [4; 5; 6; 7]; OpPeek 9] ltac:(lia) eq_refl eq_refl)
    as [(outs & rb' & Hr & _ & Hs)|(pre & k & post & outs & q & _ & _ & _ & Hab)].
  - do 3 eexists. split; [reflexivity|]. split; [exact Hr|]. split; [|exact Hs].
    vm_compute in Hr. congruence.
  - vm_compute in Hab. congruence.
Defined.

(** Writing through the pointer of [ringbuffer_ensure_linear_write] and committing appends
    the bytes to the queue: the pointer is followed by enough contiguous free bytes, the
    queue is not disturbed by the compaction, and a refused allocation changes nothing.  The
    buffer stays usable unless the commit fills it to the last byte. *)
Theorem ringbuffer_linear_append `{Malloc} `{FreshMemory} (bs : list Z) (rb : RingBuffer) :
  ring_open rb -> zlen bs < 2 ^ 62 ->
  (freeSize rb < zlen bs /\ linear_put bs rb = Ret (false, rb)) \/
  (exists rb', linear_put bs rb = Ret (true, rb') /\ ring_ok rb' /\
     contents rb' = contents rb ++ bs /\ (zlen bs <> freeSize rb -> ring_open rb')).
Proof. apply linear_put_run. Qed.

Lemma ringbuffer_linear_append_witness :
  exists rb rb', @ringbuffer_init malloc_all fresh_zero 4 = Some rb /\
    @linear_put malloc_all fresh_zero [7; 8; 9] rb = Ret (true, rb') /\ contents rb' = [7; 8; 9].
Proof.
  destruct (@ring_init_open malloc_all fresh_zero 4 _ ltac:(lia) eq_refl) as [Ho Hc].
  destruct (@ringbuffer_linear_append malloc_all fresh_zero [7; 8; 9] _ Ho ltac:(vm_compute; done))
    as [[Hf _]|(rb' & Hr & _ & Hcc & _)].
  - vm_compute in Hf. discriminate.
  - do 2 eexists. split; [reflexivity|]. split; [exact Hr|]. rewrite Hcc, Hc. reflexivity.
Defined.

(** The case the previous theorem excludes is real: a commit that fills the buffer to the
    last byte leaves equal heads, which [ringbuffer_realloc] takes for an empty buffer; the
    next write then overwrites unread bytes.  The queue holds [a b c d], a write of [e] ends
    with the queue [e b c d .] instead of [a b c d e]. *)
Theorem ringbuffer_full_commit_corrupts (a b c d e : Z) :
  exists rb rb1 rb2,
    @ringbuffer_init malloc_all fresh_zero 4 = Some rb /\
    @linear_put malloc_all fresh_zero [a; b; c; d] rb = Ret (true, rb1) /\
    contents rb1 = [a; b; c; d] /\
    @ringbuffer_write malloc_all fresh_zero [e] rb1 = Ret (true, rb2) /\
    contents rb2 = [e; b; c; d; 0].
Proof.
  exists (mkRing 4 4 4 0 0 [0; 0; 0; 0]), (mkRing 4 0 4 0 0 [a; b; c; d]),
    (mkRing 4 0 5 0 1 [e; b; c; d; 0]).
  repeat split; vm_compute; reflexivity.
Qed.

(** Storage is given back: when a removal leaves fewer than half of the initial size in a
    buffer that has grown, and the allocator serves the request, the capacity is the initial
    size again, with the queue intact. *)
Theorem ringbuffer_shrinks `{Malloc} `{FreshMemory} (rb : RingBuffer) (n : Z) :
  ring_open rb -> 0 < n <= zlen (contents rb) -> zlen (contents rb) - n < initialSize rb / 2 ->
  malloc_ok (initialSize rb) = true ->
  exists rb', ringbuffer_commit_read_bytes n rb = Ret (tt, rb') /\
    ringbuffer_capacity rb' = initialSize rb /\ contents rb' = zdrop n (contents rb).
Proof.
  intros Ho Hn Hhalf Hm. pose proof Ho as [Hok _]. rewrite zlen_contents in Hn, Hhalf by done.
  pose proof Hok as []. pose proof (ringbuffer_commit_read_run n rb Hok ltac:(lia)) as Hc.
  replace (size rb - freeSize rb <? n) with false in Hc by lia.
  destruct Hc as (rb' & Hr & _ & Hz & _ & _ & Hs). exists rb'. split_and!; [done| |done].
  unfold ringbuffer_capacity. rewrite Hs. unfold shrunk. rewrite Hm. destruct (_ && _) eqn:E; lia.
Qed.

Lemma ringbuffer_shrinks_witness :
  exists rb rb1 rb2, @ringbuffer_init malloc_all fresh_zero 4 = Some rb /\
    @ringbuffer_write malloc_all fresh_zero [1; 2; 3; 4; 5; 6] rb = Ret (true, rb1) /\
    ringbuffer_capacity rb1 = 10 /\
    @ringbuffer_commit_read_bytes malloc_all fresh_zero 5 rb1 = Ret (tt, rb2) /\
    ringbuffer_capacity rb2 = 4 /\ contents rb2 = [6].
Proof.
  destruct (@ring_init_open malloc_all fresh_zero 4 _ ltac:(lia) eq_refl) as [Ho Hc].
  destruct (@ringbuffer_write_run malloc_all fresh_zero [1; 2; 3; 4; 5; 6] _ Ho
    ltac:(vm_compute; done)) as [(_ & Hm & _)|(rb1 & Hw & Ho1 & _)];
    [vm_compute in Hm; discriminate|].
  pose proof Hw as Hw1. vm_compute in Hw1. injection Hw1 as <-.
  destruct (@ringbuffer_shrinks malloc_all fresh_zero _ 5 Ho1) as (rb2 & Hr & Hs & Hz);
    [vm_compute; split; [reflexivity|discriminate]|reflexivity|reflexivity|].
  do 3 eexists. split; [reflexivity|]. split; [exact Hw|]. split; [reflexivity|].
  split; [exact Hr|]. split; [exact Hs|]. rewrite Hz. reflexivity.
Defined.
