(* ===== verification/BufferedBio.v ===== *)
(** * Users of the byte queue: the buffered socket BIO and the RPC receive pipe

    [transport_bio_buffered_write] and [transport_bio_buffered_ctrl] of
    [libfreerdp/core/tcp.c] queue outgoing bytes and push them to the next BIO;
    [rpc_client_receive_pipe_write] and [rpc_client_receive_pipe_read] of
    [libfreerdp/core/gateway/rpc_client.c] hand received bytes from the network thread to the
    transport.  Both are modelled and proved over the [ByteFifo] interface; the next BIO is
    OpenSSL code and a parameter. *)

From S2P Require Import Prelude Memory Stream Fifo RingBuffer.

(** What one [BIO_write (next_bio, ...)] and the retry queries after it answer. *)
Record bio_result : Type := mkBioResult {
  bio_status : Z;
  bio_should_retry : bool;
  bio_should_write : bool
}.

(** ** Buffered socket BIO *)

(** The BIO, its transmit queue, and what the next BIO has accepted so far. *)
Record buffered_bio (Q : Type) : Type := mkBio {
  readBlocked : bool;
  writeBlocked : bool;
  xmitBuffer : Q;
  flag_read : bool;
  flag_write : bool;
  flag_should_retry : bool;
  wire : list Z;
  calls : nat
}.
Arguments mkBio {Q}.
Arguments readBlocked {Q}.
Arguments writeBlocked {Q}.
Arguments xmitBuffer {Q}.
Arguments flag_read {Q}.
Arguments flag_write {Q}.
Arguments flag_should_retry {Q}.
Arguments wire {Q}.
Arguments calls {Q}.

(** How the loop over the chunks ends. *)
Inductive send_exit : Type := SentAll | Fatal | WouldBlock.

Section buffered.
Context `{HM : Malloc} {Q : Type} `{HF : !ByteFifo Q}.
(** The answer of the next BIO to its [i]-th write. *)
Variable next : nat -> list Z -> bio_result.
Implicit Types b : buffered_bio Q.

(** [while (chunks[i].size)]; a status is at most the size offered ([bio_contract] below), so
    the size does not wrap.  The result is the exit, the number of calls made and the bytes accepted;
    [None] when the loop needs more than [fuel] rounds. *)
Fixpoint send_chunk (fuel : nat) (call : nat) (chunk accepted : list Z)
  : option (send_exit * nat * list Z) :=
  if zlen chunk =? 0 then Some (SentAll, call, accepted)
  else
    match fuel with
    | O => None
    | S fuel' =>
        let r := next call chunk in
        if bio_status r <=? 0 then
          if negb (bio_should_retry r) then Some (Fatal, S call, accepted)
          else if bio_should_write r then Some (WouldBlock, S call, accepted)
          else send_chunk fuel' (S call) chunk accepted
        else
          send_chunk fuel' (S call) (zdrop (bio_status r) chunk)
            (accepted ++ ztake (bio_status r) chunk)
    end.

(** [for (i = 0; i < nchunks; i++)] *)
Fixpoint send_chunks (fuel : nat) (call : nat) (chunks : list (list Z)) (accepted : list Z)
  : option (send_exit * nat * list Z) :=
  match chunks with
  | [] => Some (SentAll, call, accepted)
  | c :: chunks' =>
      match send_chunk fuel call c accepted with
      | Some (SentAll, call', accepted') => send_chunks fuel call' chunks' accepted'
      | other => other
      end
  end.

Definition transport_bio_buffered_write (fuel : nat) (buf : option (list Z))
  : Prog (buffered_bio Q) Z :=
  b <- pget ;;
  let num := match buf with Some bs => zlen bs | None => 0 end in
  let wrote :=
    match buf with
    | Some bs => if num =? 0 then Ret (true, xmitBuffer b) else fifo_write bs (xmitBuffer b)
    | None => Ret (true, xmitBuffer b)
    end in
  match wrote with
  | Abort => fun _ => Abort
  | Hang => fun _ => Hang
  | Ret (false, q) =>
      pput (mkBio (readBlocked b) false q (flag_read b) false (flag_should_retry b) (wire b) (calls b)) ;;
      pret (-1)
  | Ret (true, q) =>
      match send_chunks fuel (calls b) (fifo_peek (fifo_used q) q) [] with
      | None => fun _ => Hang
      | Some (e, calls', accepted) =>
          match fifo_commit (zlen accepted) q with
          | Abort => fun _ => Abort
          | Hang => fun _ => Hang
          | Ret (_, q') =>
              let blocked := match e with WouldBlock => true | _ => false end in
              let retry := match e with Fatal => false | _ => flag_should_retry b end in
              pput (mkBio (readBlocked b) blocked q' (flag_read b) blocked retry (wire b ++ accepted)
                      calls') ;;
              pret (match e with Fatal => -1 | _ => num end)
          end
      end
  end.

(** [r] is what [BIO_read (next_bio, ...)] and the retry queries after it answer;
    [bio_should_write] stands for [BIO_should_read] here. *)
Definition transport_bio_buffered_read (r : bio_result) : Prog (buffered_bio Q) Z :=
  b <- pget ;;
  let upd blocked retry :=
    mkBio blocked (writeBlocked b) (xmitBuffer b) blocked (flag_write b) retry (wire b)
      (calls b) in
  (if 0 <? bio_status r then pput (upd false (flag_should_retry b))
   else if negb (bio_should_retry r) then pput (upd false false)
   else if bio_should_write r then pput (upd true true)
   else pput (upd false true)) ;;
  pret (bio_status r).

(** The cases of [transport_bio_buffered_ctrl] that concern the queue. *)
Inductive bio_ctrl : Type := CTRL_FLUSH | CTRL_WPENDING | CTRL_PENDING | READ_BLOCKED | WRITE_BLOCKED.

Definition transport_bio_buffered_ctrl (fuel : nat) (cmd : bio_ctrl) : Prog (buffered_bio Q) Z :=
  b <- pget ;;
  match cmd with
  | CTRL_FLUSH =>
      if fifo_used (xmitBuffer b) =? 0 then pret 1
      else
        r <- transport_bio_buffered_write fuel None ;;
        pret (if 0 <=? r then 1 else -1)
  | CTRL_WPENDING => pret (fifo_used (xmitBuffer b))
  | CTRL_PENDING => pret 0
  | READ_BLOCKED => pret (if readBlocked b then 1 else 0)
  | WRITE_BLOCKED => pret (if writeBlocked b then 1 else 0)
  end.

(** OpenSSL: a write never reports more bytes than it was given. *)
Definition bio_contract : Prop :=
  forall i bs, bio_status (next i bs) <= zlen bs.

(** The next BIO never asks to be called again at once without wanting to write. *)
Definition bio_responsive : Prop :=
  forall i bs, bio_status (next i bs) <= 0 -> bio_should_retry (next i bs) = true ->
    bio_should_write (next i bs) = true.

Section sending.
Hypothesis contract : bio_contract.

Lemma send_chunk_prefix fuel call c acc e call' acc' :
  send_chunk fuel call c acc = Some (e, call', acc') ->
  exists sent, sent `prefix_of` c /\ acc' = acc ++ sent /\ (e = SentAll -> sent = c).
Proof using contract.
  revert call c acc. induction fuel as [|fuel IH]; intros call c acc; cbn [send_chunk];
    destruct (zlen c =? 0) eqn:E0.
  1, 3: intros Heq; simplify_eq; exists []; rewrite app_nil_r; split_and!;
    [apply prefix_nil|done|]; intros _; symmetry; apply zlen_0_nil; lia.
  { done. }
  pose proof (contract call c) as Hct. cbv zeta.
  destruct (bio_status (next call c) <=? 0) eqn:Es.
  - assert (Hnone : forall e0, e0 <> SentAll -> Some (e0, S call, acc) = Some (e, call', acc') ->
      exists sent, sent `prefix_of` c /\ acc' = acc ++ sent /\ (e = SentAll -> sent = c)).
    { intros e0 He0 Heq. simplify_eq. exists []. rewrite app_nil_r.
      split_and!; [apply prefix_nil|done|done]. }
    destruct (bio_should_retry _); cbn [negb]; [|by apply Hnone].
    destruct (bio_should_write _); [by apply Hnone|apply IH].
  - intros Hs. destruct (IH _ _ _ Hs) as (sent & Hpre & -> & Hall).
    exists (ztake (bio_status (next call c)) c ++ sent). split_and!.
    + destruct Hpre as [k Hk]. exists k. rewrite <- app_assoc, <- Hk. symmetry.
      apply ztake_zdrop_app.
    + by rewrite app_assoc.
    + intros He. rewrite (Hall He). apply ztake_zdrop_app.
Qed.

Lemma send_chunks_prefix fuel chunks call acc e call' acc' :
  send_chunks fuel call chunks acc = Some (e, call', acc') ->
  exists sent, sent `prefix_of` concat chunks /\ acc' = acc ++ sent /\
    (e = SentAll -> sent = concat chunks).
Proof using contract.
  revert call acc. induction chunks as [|c chunks IH]; intros call acc; cbn [send_chunks concat].
  { intros Heq. simplify_eq. exists []. rewrite app_nil_r. done. }
  destruct (send_chunk fuel call c acc) as [[[e1 call1] acc1]|] eqn:E1; [|done].
  destruct (send_chunk_prefix _ _ _ _ _ _ _ E1) as (s1 & Hp1 & -> & Ha1).
  assert (Hstop : e1 <> SentAll -> Some (e1, call1, acc ++ s1) = Some (e, call', acc') ->
    exists sent, sent `prefix_of` c ++ concat chunks /\ acc' = acc ++ sent /\
      (e = SentAll -> sent = c ++ concat chunks)).
  { intros He Heq. simplify_eq. exists s1. split_and!; [by apply prefix_app_r|done|done]. }
  destruct e1; [|by apply Hstop|by apply Hstop].
  rewrite (Ha1 eq_refl). intros Hs. destruct (IH _ _ Hs) as (s2 & Hp2 & -> & Ha2).
  exists (c ++ s2). split_and!; [by apply prefix_app|by rewrite app_assoc|].
  intros He. by rewrite (Ha2 He).
Qed.

(** Every round of the loop makes progress or leaves it. *)
Lemma send_chunk_total fuel call c acc :
  bio_responsive -> zlen c <= Z.of_nat fuel -> send_chunk fuel call c acc <> None.
Proof using contract.
  intros Hresp. revert call c acc. induction fuel as [|fuel IH]; intros call c acc Hf;
    pose proof (zlen_nonneg c); cbn [send_chunk]; destruct (zlen c =? 0) eqn:E0; try done; [lia|].
  cbv zeta. pose proof (contract call c). pose proof (Hresp call c) as Hr.
  destruct (bio_status (next call c) <=? 0) eqn:Es.
  - destruct (bio_should_retry _); cbn [negb]; [|done]. by rewrite Hr by (done || lia).
  - apply IH. rewrite zlen_zdrop. lia.
Qed.

Lemma send_chunks_total fuel chunks call acc :
  bio_responsive -> zlen (concat chunks) <= Z.of_nat fuel ->
  send_chunks fuel call chunks acc <> None.
Proof using contract.
  intros Hresp. revert call acc. induction chunks as [|c chunks IH]; intros call acc Hf;
    cbn [send_chunks]; [done|]. cbn [concat] in Hf. rewrite zlen_app in Hf.
  pose proof (zlen_nonneg c). pose proof (zlen_nonneg (concat chunks)).
  destruct (send_chunk fuel call c acc) as [[[[] call1] acc1]|] eqn:E; try done.
  - apply IH. lia.
  - by destruct (send_chunk_total fuel call c acc Hresp ltac:(lia)).
Qed.

(** The part of a write after the bytes were queued. *)
Lemma peek_all q : fifo_ok q -> concat (fifo_peek (fifo_used q) q) = fifo_contents q.
Proof using Type.
  intros Hq. destruct (fifo_used_spec q Hq) as [Hu _]. pose proof (zlen_nonneg (fifo_contents q)).
  destruct (fifo_peek_spec q (fifo_used q) Hq ltac:(rewrite Hu; done)) as [-> _]. rewrite Hu.
  by apply ztake_all.
Qed.

Definition payload (buf : option (list Z)) : list Z := default [] buf.

(** The result of a write: out of memory with nothing changed, or all bytes accounted for
    with one of the three exits. *)
Definition write_result b buf (r : Z) (b' : buffered_bio Q) : Prop :=
  fifo_ok (xmitBuffer b') /\
  ((r = -1 /\ wire b' = wire b /\ xmitBuffer b' = xmitBuffer b /\
      malloc_ok (fifo_capacity (xmitBuffer b) + zlen (payload buf)) = false /\
      fifo_capacity (xmitBuffer b) <= zlen (fifo_contents (xmitBuffer b)) + zlen (payload buf)) \/
   (wire b `prefix_of` wire b' /\
    wire b' ++ fifo_contents (xmitBuffer b') =
      wire b ++ fifo_contents (xmitBuffer b) ++ payload buf /\
    ((r = zlen (payload buf) /\ writeBlocked b' = false /\ fifo_contents (xmitBuffer b') = []) \/
     (r = zlen (payload buf) /\ writeBlocked b' = true /\ flag_write b' = true) \/
     (r = -1 /\ writeBlocked b' = false /\ flag_should_retry b' = false)))).

(** Queueing the new bytes. *)
Lemma queue_step q buf :
  fifo_ok q -> zlen (payload buf) < 2 ^ 63 ->
  let wrote := match buf with
               | Some bs => if zlen bs =? 0 then Ret (true, q) else fifo_write bs q
               | None => Ret (true, q)
               end in
  (wrote = Ret (false, q) /\ malloc_ok (fifo_capacity q + zlen (payload buf)) = false /\
     fifo_capacity q <= zlen (fifo_contents q) + zlen (payload buf)) \/
  (exists q', wrote = Ret (true, q') /\ fifo_ok q' /\
     fifo_contents q' = fifo_contents q ++ payload buf).
Proof using Type.
  intros Hq Hl. destruct buf as [bs|]; cbn in *; [|right; exists q; by rewrite app_nil_r].
  destruct (zlen bs =? 0) eqn:E.
  - right. exists q. assert (bs = []) as -> by (apply zlen_0_nil; lia). by rewrite app_nil_r.
  - destruct (fifo_write_spec q bs Hq Hl) as [(Hn & Hm & Hw)|(q' & Hw & Hq' & Hc & _)]; [left|right]; eauto.
Qed.

Lemma buffered_write_run fuel buf b :
  fifo_ok (xmitBuffer b) -> zlen (payload buf) < 2 ^ 63 ->
  (exists r b', transport_bio_buffered_write fuel buf b = Ret (r, b') /\
     write_result b buf r b') \/
  (transport_bio_buffered_write fuel buf b = Hang /\
   (bio_responsive ->
    Z.of_nat fuel < zlen (fifo_contents (xmitBuffer b)) + zlen (payload buf))).
Proof using contract.
  intros Hq Hl. unfold transport_bio_buffered_write. rewrite pbind_pget. cbv zeta.
  assert (Hnum : match buf with Some bs => zlen bs | None => 0 end = zlen (payload buf))
    by (by destruct buf).
  destruct (queue_step _ buf Hq Hl) as [(Hw & Hm & Hn)|(q & Hw & Hok & Hc)].
  - left. exists (-1). eexists. destruct buf as [bs|]; [|done]. rewrite Hw. split; [reflexivity|]. split; [done|]. left.
    split_and!; done.
  - assert (Hw' : match buf with
        | Some bs => if match buf with Some bs => zlen bs | None => 0 end =? 0
                     then Ret (true, xmitBuffer b) else fifo_write bs (xmitBuffer b)
        | None => Ret (true, xmitBuffer b) end = Ret (true, q)) by (by destruct buf).
    rewrite Hw', Hnum. pose proof (peek_all q Hok) as Hp.
    destruct (fifo_used_spec q Hok) as [Hu Hlt].
    destruct (send_chunks fuel (calls b) (fifo_peek (fifo_used q) q) []) as [[[e c'] acc]|] eqn:Es.
    + left. destruct (send_chunks_prefix _ _ _ _ _ _ _ Es) as (sent & Hpre & -> & Hall).
      cbn [app]. rewrite Hp in Hpre, Hall. pose proof (prefix_length _ _ Hpre) as Hlen.
      pose proof (zlen_nonneg sent).
      assert (Hz : zlen sent <= zlen (fifo_contents q)) by (unfold zlen; lia).
      pose proof (fifo_commit_spec q (zlen sent) Hok ltac:(rewrite <- Hu in Hz; lia)) as Hcm.
      replace (zlen (fifo_contents q) <? zlen sent) with false in Hcm by lia.
      destruct Hcm as (q' & Hcm & Hok' & Hc' & _). rewrite Hcm. do 2 eexists.
      split; [reflexivity|]. split; [done|]. right. cbn. destruct Hpre as [k Hk].
      rewrite Hk, zdrop_app, zdrop_all, zdrop_0 in Hc' by lia. cbn [app] in Hc'.
      split_and!; [by apply prefix_app_r| |].
      * by rewrite Hc', <- app_assoc, <- Hk, Hc.
      * destruct e; [left| right; right|right; left]; split_and!; try done.
        rewrite Hc'. apply (app_inv_head sent). rewrite app_nil_r, <- Hk. symmetry. by apply Hall.
    + right. split; [done|]. intros Hresp. apply Z.nle_gt. intros Hf.
      apply (send_chunks_total fuel (fifo_peek (fifo_used q) q) (calls b) [] Hresp); [|done].
      rewrite Hp, Hc, zlen_app. lia.
Qed.
End sending.
End buffered.

(** ** RPC receive pipe

    Both functions hold [PipeLock] for their whole body, so calls of the two threads follow
    one another. *)

Record rpc_pipe (Q : Type) : Type := mkPipe {
  ReceivePipe : Q;
  PipeEvent : bool
}.
Arguments mkPipe {Q}.
Arguments ReceivePipe {Q}.
Arguments PipeEvent {Q}.

Section pipe.
Context `{HM : Malloc} {Q : Type} `{HF : !ByteFifo Q}.
Implicit Types p : rpc_pipe Q.

Definition rpc_client_receive_pipe_write (buffer : option (list Z)) : Prog (rpc_pipe Q) Z :=
  match buffer with
  | None => pret (-1)
  | Some bs =>
      p <- pget ;;
      match fifo_write bs (ReceivePipe p) with
      | Abort => fun _ => Abort
      | Hang => fun _ => Hang
      | Ret (ok, q) =>
          let status := if ok : bool then i32 (zlen bs) else 0 in
          pput (mkPipe q (if 0 <? fifo_used q then true else PipeEvent p)) ;;
          pret status
      end
  end.

(** [CopyMemory (&buffer[status], chunk, size)] for each chunk. *)
Fixpoint copy_chunks (chunks : list (list Z)) (buffer : list Z) (status : Z)
  : outcome (list Z * Z) :=
  match chunks with
  | [] => Ret (buffer, status)
  | c :: chunks' =>
      if status + zlen c <=? zlen buffer
      then copy_chunks chunks' (splice status c buffer) (u64 (status + zlen c))
      else Abort
  end.

Definition rpc_client_receive_pipe_read (buffer : option (list Z)) (length : Z)
  : Prog (rpc_pipe Q) (Z * list Z) :=
  match buffer with
  | None => pret (-1, [])
  | Some dst =>
      p <- pget ;;
      match copy_chunks (fifo_peek length (ReceivePipe p)) dst 0 with
      | Abort => fun _ => Abort
      | Hang => fun _ => Hang
      | Ret (dst', status) =>
          match (if 0 <? status then fifo_commit status (ReceivePipe p)
                 else Ret (tt, ReceivePipe p)) with
          | Abort => fun _ => Abort
          | Hang => fun _ => Hang
          | Ret (_, q) =>
              pput (mkPipe q (if fifo_used q <? 1 then false else PipeEvent p)) ;;
              pret (if INT_MAX <? status then (-1, dst') else (i32 status, dst'))
          end
      end
  end.

(** The event is signalled exactly while there is something to read. *)
Definition pipe_ok p : Prop :=
  fifo_ok (ReceivePipe p) /\ PipeEvent p = bool_decide (fifo_contents (ReceivePipe p) <> []).

Lemma used_nonempty q : fifo_ok q -> (0 <? fifo_used q) = bool_decide (fifo_contents q <> []).
Proof.
  intros Hq. destruct (fifo_used_spec q Hq) as [-> _].
  destruct (fifo_contents q) as [|x l]; [done|]. rewrite bool_decide_true by done.
  rewrite zlen_cons. pose proof (zlen_nonneg l). lia.
Qed.

Lemma copy_chunks_run chunks buffer status :
  0 <= status -> status + zlen (concat chunks) <= zlen buffer -> zlen buffer < 2 ^ 63 ->
  copy_chunks chunks buffer status =
    Ret (splice status (concat chunks) buffer, status + zlen (concat chunks)).
Proof.
  revert buffer status. induction chunks as [|c chunks IH]; intros buffer status H0 Hf Hb.
  - cbn. rewrite zlen_nil, Z.add_0_r. unfold splice.
    by rewrite zlen_nil, Z.add_0_r, app_nil_l, ztake_zdrop_app.
  - cbn [copy_chunks concat] in *. rewrite zlen_app in *.
    pose proof (zlen_nonneg c). pose proof (zlen_nonneg (concat chunks)).
    replace (status + zlen c <=? zlen buffer) with true by lia. rewrite u64_id by lia.
    rewrite IH by (rewrite ?zlen_splice; lia). f_equal. f_equal; [|lia].
    zsplit_as status buffer as (A & b1 & -> & HA & Hb1).
    zsplit_as (zlen c) b1 as (B & b2 & -> & HB & Hb2).
    zsplit_as (zlen (concat chunks)) b2 as (C & D & -> & HC & HD).
    rewrite splice_app by lia. rewrite (app_assoc A c), splice_app by zcut_lia.
    rewrite (app_assoc B C D), splice_app by zcut_lia.
    by rewrite <- !app_assoc.
Qed.
End pipe.

(** ** Properties *)

(** C3: [transport_bio_buffered_write] loses, duplicates and reorders nothing: whatever the next
    BIO answers, after a return the bytes accepted by the next BIO followed by the bytes still
    queued are those of before followed by the new ones; a caller that is told the data was
    taken either has an empty queue behind it or is marked blocked; only when the allocator
    refused memory is the data dropped, and then -1 is returned and nothing has changed.  No
    call stops the program. *)
Theorem buffered_write_conserves `{Malloc} {Q : Type} `{!ByteFifo Q}
    (next : nat -> list Z -> bio_result) (fuel : nat) (buf : option (list Z)) (b : buffered_bio Q) :
  bio_contract next -> fifo_ok (xmitBuffer b) -> zlen (payload buf) < 2 ^ 63 ->
  match transport_bio_buffered_write next fuel buf b with
  | Ret (r, b') => write_result b buf r b'
  | Abort => False
  | Hang => True
  end.
Proof.
  intros Hc Hq Hl.
  by destruct (buffered_write_run next Hc fuel buf b Hq Hl) as [(r & b' & -> & Hr)|[-> _]].
Qed.

(** A next BIO that takes at most three bytes at a time and blocks on its fourth call. *)
Definition slow_bio (i : nat) (bs : list Z) : bio_result :=
  if (i =? 3)%nat then mkBioResult (-1) true true else mkBioResult (Z.min 3 (zlen bs)) false false.

Lemma slow_bio_contract : bio_contract slow_bio.
Proof.
  intros i bs. unfold slow_bio. pose proof (zlen_nonneg bs). destruct (i =? 3)%nat; cbn; lia.
Qed.

Lemma slow_bio_responsive : bio_responsive slow_bio.
Proof.
  intros i bs. unfold slow_bio. pose proof (zlen_nonneg bs). destruct (i =? 3)%nat; done.
Qed.

Definition idle_bio (w : list Z) : buffered_bio RingBuffer :=
  mkBio false false (mkRing 8 8 8 0 0 (zrep 8 0)) false false true w 0.

Lemma buffered_write_conserves_witness :
  exists b',
    @transport_bio_buffered_write malloc_all RingBuffer (@ring_fifo malloc_all fresh_zero)
      slow_bio 16 (Some [1; 2; 3; 4; 5; 6; 7; 8; 9; 10; 11]) (idle_bio [0]) = Ret (11, b') /\
    @write_result malloc_all RingBuffer (@ring_fifo malloc_all fresh_zero) (idle_bio [0])
      (Some [1; 2; 3; 4; 5; 6; 7; 8; 9; 10; 11]) 11 b' /\
    wire b' = [0; 1; 2; 3; 4; 5; 6; 7; 8; 9] /\ contents (xmitBuffer b') = [10; 11] /\
    writeBlocked b' = true.
Proof.
  assert (Ho : ring_open (xmitBuffer (idle_bio [0])))
    by (apply (@ring_init_open malloc_all fresh_zero 8); [lia|reflexivity]).
  pose proof (@buffered_write_conserves malloc_all RingBuffer (@ring_fifo malloc_all fresh_zero)
    slow_bio 16 (Some [1; 2; 3; 4; 5; 6; 7; 8; 9; 10; 11]) (idle_bio [0])
    slow_bio_contract Ho eq_refl) as Hcons.
  destruct (transport_bio_buffered_write _ _ _ _) as [[r b']| |] eqn:E in Hcons;
    [|destruct Hcons|vm_compute in E; discriminate].
  pose proof E as Ev. vm_compute in Ev. injection Ev as <- <-.
  eexists. split; [exact E|]. split; [exact Hcons|]. repeat split; vm_compute; reflexivity.
Defined.

(** If the next BIO always makes progress, fails or asks to wait for writability, then
    [transport_bio_buffered_write] returns: as many rounds as there are bytes to send are
    enough. *)
Theorem buffered_write_returns `{Malloc} {Q : Type} `{!ByteFifo Q}
    (next : nat -> list Z -> bio_result) (fuel : nat) (buf : option (list Z)) (b : buffered_bio Q) :
  bio_contract next -> bio_responsive next -> fifo_ok (xmitBuffer b) ->
  zlen (payload buf) < 2 ^ 63 ->
  zlen (fifo_contents (xmitBuffer b)) + zlen (payload buf) <= Z.of_nat fuel ->
  exists r b', transport_bio_buffered_write next fuel buf b = Ret (r, b').
Proof.
  intros Hc Hresp Hq Hl Hf.
  destruct (buffered_write_run next Hc fuel buf b Hq Hl) as [(r & b' & -> & _)|[_ Hlt]]; [eauto|].
  specialize (Hlt Hresp). lia.
Qed.

Lemma buffered_write_returns_witness :
  exists r b', @transport_bio_buffered_write malloc_all RingBuffer (@ring_fifo malloc_all fresh_zero)
    slow_bio 2 (Some [1; 2]) (idle_bio []) = Ret (r, b').
Proof.
  apply (@buffered_write_returns malloc_all RingBuffer (@ring_fifo malloc_all fresh_zero)).
  - apply slow_bio_contract.
  - apply slow_bio_responsive.
  - apply (@ring_init_open malloc_all fresh_zero 8); [lia|reflexivity].
  - reflexivity.
  - vm_compute. discriminate.
Defined.

(** The RPC receive pipe is a FIFO with an accurate event: a write appends its bytes (or
    reports 0 when memory ran out), a read of up to [length] bytes into a buffer that large
    returns exactly the oldest bytes and removes them, never writes past the buffer, and the
    event stays signalled exactly while bytes are left. *)
Theorem rpc_pipe_fifo `{Malloc} {Q : Type} `{!ByteFifo Q} (p : rpc_pipe Q) (bs dst : list Z)
    (len : Z) :
  pipe_ok p -> zlen bs <= INT_MAX -> 0 <= len <= INT_MAX -> len <= zlen dst < 2 ^ 63 ->
  (exists r p', rpc_client_receive_pipe_write (Some bs) p = Ret (r, p') /\ pipe_ok p' /\
     ((r = zlen bs /\ fifo_contents (ReceivePipe p') = fifo_contents (ReceivePipe p) ++ bs) \/
      (r = 0 /\ ReceivePipe p' = ReceivePipe p /\ malloc_ok (fifo_capacity (ReceivePipe p) + zlen bs) = false))) /\
  (exists p', let out := ztake len (fifo_contents (ReceivePipe p)) in
     rpc_client_receive_pipe_read (Some dst) len p = Ret ((zlen out, splice 0 out dst), p') /\
     pipe_ok p' /\ fifo_contents (ReceivePipe p') = zdrop len (fifo_contents (ReceivePipe p))).
Proof.
  unfold INT_MAX. intros [Hq He] Hbs Hlen Hdst. pose proof (zlen_nonneg bs). split.
  - unfold rpc_client_receive_pipe_write. rewrite pbind_pget.
    destruct (fifo_write_spec _ bs Hq ltac:(lia)) as [(_ & Hm & ->)|(q & -> & Hq' & Hc & _)].
    + do 2 eexists. split; [reflexivity|]. split; [|right; eauto].
      split; [done|]. cbn. rewrite used_nonempty by done. rewrite He. by case_match.
    + do 2 eexists. split; [reflexivity|]. rewrite i32_id by lia. split; [|by left].
      split; [done|]. cbn. rewrite used_nonempty, Hc, He by done.
      destruct (fifo_contents (ReceivePipe p)), bs; done.
  - cbv zeta. set (out := ztake len (fifo_contents (ReceivePipe p))).
    unfold rpc_client_receive_pipe_read. rewrite pbind_pget.
    destruct (fifo_peek_spec _ len Hq ltac:(lia)) as [Hp _]. fold out in Hp.
    assert (Hz : zlen out = Z.min len (zlen (fifo_contents (ReceivePipe p))))
      by (subst out; zlist_lia).
    rewrite copy_chunks_run by (rewrite ?Hp; lia). rewrite Hp, Z.add_0_l.
    pose proof (zlen_nonneg (fifo_contents (ReceivePipe p))) as Hnn.
    assert (Hc : exists q, (if 0 <? zlen out then fifo_commit (zlen out) (ReceivePipe p)
               else Ret (tt, ReceivePipe p)) = Ret (tt, q) /\ fifo_ok q /\
               fifo_contents q = zdrop len (fifo_contents (ReceivePipe p))).
    { destruct (0 <? zlen out) eqn:E0.
      - assert (Hz63 : 0 <= zlen out < 2 ^ 63) by lia.
        pose proof (fifo_commit_spec _ (zlen out) Hq Hz63) as Hcm.
        replace (_ <? zlen out) with false in Hcm by lia. destruct Hcm as (q & Hcm & Hq' & Hd & _).
        exists q. split_and!; [done|done|]. rewrite Hd.
        destruct (decide (len <= zlen (fifo_contents (ReceivePipe p)))); [f_equal; lia|].
        by rewrite !zdrop_all by lia.
      - exists (ReceivePipe p). split_and!; [done|done|]. pose proof (zlen_nonneg out).
        destruct (decide (len <= 0)); [by rewrite zdrop_0 by lia|].
        assert (fifo_contents (ReceivePipe p) = []) as -> by (apply zlen_0_nil; lia).
        by rewrite zdrop_all by (rewrite zlen_nil; lia). }
    destruct Hc as (q & -> & Hq' & Hd). eexists.
    replace (INT_MAX <? zlen out) with false by (unfold INT_MAX; lia). rewrite i32_id by lia.
    split; [reflexivity|]. split; [|done]. split; [done|]. cbn.
    replace (fifo_used q <? 1) with (negb (0 <? fifo_used q)) by lia.
    rewrite used_nonempty by done. rewrite He. cbn. rewrite Hd.
    destruct (fifo_contents (ReceivePipe p)) as [|x l]; [by rewrite zdrop_all by zlist_lia|].
    by destruct (zdrop len (x :: l)).
Qed.

Lemma rpc_pipe_fifo_witness :
  exists p', @rpc_client_receive_pipe_read malloc_all RingBuffer (@ring_fifo malloc_all fresh_zero)
    (Some [0; 0; 0]) 3 (mkPipe (mkRing 4 2 4 3 1 [6; 0; 0; 5]) true) = Ret ((2, [5; 6; 0]), p').
Proof.
  assert (Hp : @pipe_ok malloc_all RingBuffer (@ring_fifo malloc_all fresh_zero)
    (mkPipe (mkRing 4 2 4 3 1 [6; 0; 0; 5]) true)).
  { split; [|reflexivity]. split; [split|]; cbn; lia || reflexivity. }
  destruct (@rpc_pipe_fifo malloc_all RingBuffer (@ring_fifo malloc_all fresh_zero) _ [] [0; 0; 0] 3
    Hp) as [_ (p' & Hr & _)]; [vm_compute; discriminate|unfold INT_MAX; lia|vm_compute; split; [discriminate|reflexivity]|].
  exists p'. exact Hr.
Defined.
