(* ===== verification/Region.v ===== *)
(** * Regions: [libfreerdp/codec/region.c]

    A region is a "y-x-banded" array of rectangles plus its extents.  The file models every
    operation of region.c over the array as a list (a pointer into the array is the suffix
    it points to), and proves the operations correct against sets of pixels: the union adds
    exactly the pixels of the rectangle, the intersection keeps exactly the common pixels,
    the test decides whether there is one; the banded form and the extents are maintained
    and no store leaves the array that was allocated. *)

From S2P Require Import Prelude Memory Stream.

Record RECTANGLE_16 : Type := mkRect {
  r_left : Z;
  r_top : Z;
  r_right : Z;
  r_bottom : Z
}.

#[export] Instance RECTANGLE_16_eq_dec : EqDecision RECTANGLE_16.
Proof. solve_decision. Defined.

(** [size] is 0 for the static [empty_region]; [nbRects] is the length of the list. *)
Record REGION16_DATA : Type := mkData {
  d_size : Z;
  d_rects : list RECTANGLE_16
}.

(** [data = None] is the NULL pointer. *)
Record REGION16 : Type := mkRegion {
  extents : RECTANGLE_16;
  data : option REGION16_DATA
}.

Definition zero_rect : RECTANGLE_16 := mkRect 0 0 0 0.
Definition empty_region : REGION16_DATA := mkData 0 [].
Definition sizeof_RECTANGLE_16 : Z := 8.
Definition sizeof_REGION16_DATA : Z := 16.
Definition region_bytes (nbItems : Z) : Z := sizeof_REGION16_DATA + nbItems * sizeof_RECTANGLE_16.

(** ** Rectangles *)

Definition rectangle_is_empty (rect : RECTANGLE_16) : bool :=
  (r_right rect <=? r_left rect) || (r_bottom rect <=? r_top rect).

Definition rectangles_equal (r1 r2 : RECTANGLE_16) : bool :=
  (r_left r1 =? r_left r2) && (r_top r1 =? r_top r2) && (r_right r1 =? r_right r2) &&
  (r_bottom r1 =? r_bottom r2).

Definition rectangles_intersection (r1 r2 : RECTANGLE_16) : bool * RECTANGLE_16 :=
  let dst := mkRect (Z.max (r_left r1) (r_left r2)) (Z.max (r_top r1) (r_top r2))
               (Z.min (r_right r1) (r_right r2)) (Z.min (r_bottom r1) (r_bottom r2)) in
  ((r_left dst <? r_right dst) && (r_top dst <? r_bottom dst), dst).

Definition rectangles_intersects (r1 r2 : RECTANGLE_16) : bool := (rectangles_intersection r1 r2).1.

(** ** Access, copy *)

Definition region16_init : REGION16 := mkRegion zero_rect (Some empty_region).

Definition region16_n_rects (region : REGION16) : outcome Z :=
  match data region with Some d => Ret (zlen (d_rects d)) | None => Abort end.

Definition region16_rects (region : REGION16) : list RECTANGLE_16 :=
  match data region with Some d => d_rects d | None => [] end.

Definition region16_extents (region : REGION16) : RECTANGLE_16 := extents region.

Definition region16_is_empty (region : REGION16) : outcome bool :=
  match data region with Some d => Ret (zlen (d_rects d) =? 0) | None => Abort end.

Definition region16_clear (region : REGION16) : outcome REGION16 :=
  match data region with
  | Some _ => Ret (mkRegion zero_rect (Some empty_region))
  | None => Abort
  end.

Definition region16_uninit (region : REGION16) : REGION16 := mkRegion (extents region) None.

Definition allocateRegion `{Malloc} (nbItems : Z) : bool := malloc_ok (region_bytes nbItems).

(** Copies between different objects. *)
Definition region16_copy `{Malloc} (dst src : REGION16) : outcome (bool * REGION16) :=
  match data dst, data src with
  | Some _, Some sd =>
      if d_size sd =? 0 then Ret (true, mkRegion (extents src) (Some empty_region))
      else if allocateRegion (zlen (d_rects sd)) then
        if d_size sd <=? region_bytes (zlen (d_rects sd))
        then Ret (true, mkRegion (extents src) (Some sd))
        else Abort
      else Ret (false, mkRegion (extents src) None)
  | _, _ => Abort
  end.

(** ** Bands *)

(** [while ((src < end) && cond) { *dst++ = *src++ with the new top and bottom }] *)
Fixpoint copy_while (cond : RECTANGLE_16 -> bool) (newTop newBottom : Z)
    (src : list RECTANGLE_16) : list RECTANGLE_16 * list RECTANGLE_16 :=
  match src with
  | r :: src' =>
      if cond r then
        let '(dst, rest) := copy_while cond newTop newBottom src' in
        (mkRect (r_left r) newTop (r_right r) newBottom :: dst, rest)
      else ([], src)
  | [] => ([], [])
  end.

(** [while ((src < end) && cond) src++] *)
Fixpoint skip_while (cond : RECTANGLE_16 -> bool) (src : list RECTANGLE_16) : list RECTANGLE_16 :=
  match src with
  | r :: src' => if cond r then skip_while cond src' else src
  | [] => []
  end.

(** The rectangles stored at [dst] and what [srcPtr] is set to; [src] is never at the end. *)
Definition region16_copy_band_with_union (src : list RECTANGLE_16) (newTop newBottom : Z)
    (unionRect : option RECTANGLE_16) : list RECTANGLE_16 * list RECTANGLE_16 :=
  match src with
  | [] => ([], [])
  | r0 :: _ =>
      let refY := r_top r0 in
      let same r := r_top r =? refY in
      match unionRect with
      | None => copy_while same newTop newBottom src
      | Some u =>
          (* items before unionRect *)
          let '(before, src1) :=
            copy_while (fun r => same r && (r_right r <? r_left u)) newTop newBottom src in
          (* items overlapping with unionRect *)
          let startLeft :=
            match src1 with
            | r :: _ => if same r && (r_left r <? r_left u) then r_left r else r_left u
            | [] => r_left u
            end in
          let src2 := skip_while (fun r => same r && (r_right r <? r_right u)) src1 in
          let '(endRight, src3) :=
            match src2 with
            | r :: src' => if same r && (r_left r <? r_right u) then (r_right r, src')
                           else (r_right u, src2)
            | [] => (r_right u, [])
            end in
          (* remaining items on the same band *)
          let '(after, src4) := copy_while same newTop newBottom src3 in
          (before ++ mkRect startLeft newTop endRight newBottom :: after, src4)
      end
  end.

(** The items of the first band and the start of the next one. *)
Fixpoint next_band_at (refY : Z) (band1 : list RECTANGLE_16)
  : list RECTANGLE_16 * list RECTANGLE_16 :=
  match band1 with
  | r :: rest =>
      if r_top r =? refY then let '(b, rest') := next_band_at refY rest in (r :: b, rest')
      else ([], band1)
  | [] => ([], [])
  end.

Definition next_band (band1 : list RECTANGLE_16) : list RECTANGLE_16 * list RECTANGLE_16 :=
  match band1 with
  | r :: _ => next_band_at (r_top r) band1
  | [] => ([], [])
  end.

(** [band1] holds the items up to [band2Start]. *)
Fixpoint band_match_at (refBand2 : Z) (band1 band2 : list RECTANGLE_16) : bool :=
  match band1, band2 with
  | r1 :: band1', r2 :: band2' =>
      if r_top r2 =? refBand2 then
        if negb (r_left r1 =? r_left r2) || negb (r_right r1 =? r_right r2) then false
        else band_match_at refBand2 band1' band2'
      else false
  | _ :: _, [] => false
  | [], r2 :: _ => negb (r_top r2 =? refBand2)
  | [], [] => true
  end.

Definition band_match (band1 band2 : list RECTANGLE_16) : bool :=
  match band2 with
  | r :: _ => band_match_at (r_top r) band1 band2
  | [] => match band1 with [] => true | _ => false end
  end.

Fixpoint contained_at (refY : Z) (band : list RECTANGLE_16) (rect : RECTANGLE_16) : bool :=
  match band with
  | r :: band' =>
      if (r_top r =? refY) && (r_left r <=? r_left rect) then
        if r_right rect <=? r_right r then true else contained_at refY band' rect
      else false
  | [] => false
  end.

Definition rectangle_contained_in_band (band : list RECTANGLE_16) (rect : RECTANGLE_16) : bool :=
  match band with
  | r :: _ =>
      if (r_top rect <? r_top r) || (r_bottom r <? r_bottom rect) then false
      else contained_at (r_top r) band rect
  | [] => false
  end.

Definition set_bottom (b : Z) (r : RECTANGLE_16) : RECTANGLE_16 :=
  mkRect (r_left r) (r_top r) (r_right r) b.

(** The [do ... while (TRUE)] loop from [band1] on; [None] when [fuel] is too small. *)
Fixpoint simplify_loop (fuel : nat) (band1 : list RECTANGLE_16) : option (list RECTANGLE_16) :=
  match fuel with
  | O => None
  | S fuel' =>
      let '(items, band2) := next_band band1 in
      match items, band2 with
      | r1 :: _, r2 :: _ =>
          if (r_bottom r1 =? r_top r2) && band_match items band2 then
            simplify_loop fuel' (map (set_bottom (r_bottom r2)) items ++ drop (length items) band2)
          else
            match simplify_loop fuel' band2 with
            | Some rest => Some (items ++ rest)
            | None => None
            end
      | _, _ => Some band1
      end
  end.

Definition region16_simplify_bands `{Malloc} (region : REGION16) : outcome (bool * REGION16) :=
  match data region with
  | None => Abort
  | Some d =>
      let nbRects := zlen (d_rects d) in
      if nbRects <? 2 then Ret (true, region)
      else
        match simplify_loop (length (d_rects d)) (d_rects d) with
        | None => Hang
        | Some rects =>
            let finalNbRects := zlen rects in
            if finalNbRects =? nbRects
            then Ret (true, mkRegion (extents region) (Some (mkData (d_size d) rects)))
            else
              let allocSize := region_bytes finalNbRects in
              if malloc_ok allocSize
              then Ret (true, mkRegion (extents region) (Some (mkData allocSize rects)))
              else Ret (false, mkRegion (extents region) (Some empty_region))
        end
  end.

(** ** Union *)

(** One round of the loop over the source bands: the rectangles stored and the next band. *)
Definition union_band (currentBand : list RECTANGLE_16) (band : RECTANGLE_16) (rect : RECTANGLE_16)
  : list RECTANGLE_16 * list RECTANGLE_16 :=
  let '(copied, nextBand, topInterBand) :=
    if (r_bottom band <=? r_top rect) || (r_bottom rect <=? r_top band) ||
       rectangle_contained_in_band currentBand rect
    then
      let '(dst, next) :=
        region16_copy_band_with_union currentBand (r_top band) (r_bottom band) None in
      (dst, next, r_top rect)
    else
      let topSplit := r_top band <? r_top rect in
      let dst1 := if topSplit
                  then (region16_copy_band_with_union currentBand (r_top band) (r_top rect) None).1
                  else [] in
      let mergeTop := if topSplit then r_top rect else r_top band in
      let mergeBottom := if r_bottom rect <? r_bottom band then r_bottom rect else r_bottom band in
      let '(dst2, next2) :=
        region16_copy_band_with_union currentBand mergeTop mergeBottom (Some rect) in
      let '(dst3, next3) :=
        if r_bottom rect <? r_bottom band
        then region16_copy_band_with_union currentBand mergeBottom (r_bottom band) None
        else ([], next2) in
      (dst1 ++ dst2 ++ dst3, next3, r_bottom band) in
  let between :=
    match nextBand with
    | n :: _ =>
        if negb (r_top n =? r_bottom band) && (r_bottom band <? r_bottom rect) &&
           (r_top rect <? r_top n)
        then [mkRect (r_left rect) topInterBand (r_right rect) (Z.min (r_top n) (r_bottom rect))]
        else []
    | [] => []
    end in
  (copied ++ between, nextBand).

(** [while (currentBand < endSrcRect)]; [None] when [fuel] is too small. *)
Fixpoint union_loop (fuel : nat) (currentBand : list RECTANGLE_16) (rect : RECTANGLE_16)
  : option (list RECTANGLE_16) :=
  match currentBand with
  | [] => Some []
  | band :: _ =>
      match fuel with
      | O => None
      | S fuel' =>
          let '(dst, nextBand) := union_band currentBand band rect in
          match union_loop fuel' nextBand rect with
          | Some rest => Some (dst ++ rest)
          | None => None
          end
      end
  end.

(** The region that results in [dst]; storing more rectangles than were allocated stops the
    program. *)
Definition region16_union_rect `{Malloc} (dst src : REGION16) (rect : RECTANGLE_16)
  : outcome (bool * REGION16) :=
  match data src with
  | None => Abort
  | Some sd =>
      let srcExtents := extents src in
      let n := zlen (d_rects sd) in
      if n =? 0 then
        if allocateRegion 1
        then Ret (true, mkRegion rect (Some (mkData (region_bytes 1) [rect])))
        else Ret (false, mkRegion rect None)
      else if negb (allocateRegion (i32 ((1 + n) * 4))) then Ret (false, dst)
      else
        let above :=
          if r_top rect <? r_top srcExtents
          then [mkRect (r_left rect) (r_top rect) (r_right rect)
                  (Z.min (r_top srcExtents) (r_bottom rect))]
          else [] in
        match union_loop (length (d_rects sd)) (d_rects sd) rect with
        | None => Hang
        | Some middle =>
            let below :=
              if r_bottom srcExtents <? r_bottom rect
              then [mkRect (r_left rect) (Z.max (r_bottom srcExtents) (r_top rect)) (r_right rect)
                      (r_bottom rect)]
              else [] in
            let rects := above ++ middle ++ below in
            let usedRects := zlen rects in
            if i32 ((1 + n) * 4) <? usedRects then Abort
            else
              let dstExtents :=
                mkRect (Z.min (r_left rect) (r_left srcExtents))
                  (Z.min (r_top rect) (r_top srcExtents))
                  (Z.max (r_right rect) (r_right srcExtents))
                  (Z.max (r_bottom rect) (r_bottom srcExtents)) in
              if malloc_ok (region_bytes usedRects)
              then region16_simplify_bands
                     (mkRegion dstExtents (Some (mkData (region_bytes usedRects) rects)))
              else Ret (false, mkRegion dstExtents None)
        end
  end.

(** ** Intersection *)

(** The [for] loop of [region16_intersects_rect]. *)
Fixpoint intersects_any (rects : list RECTANGLE_16) (arg2 : RECTANGLE_16) : bool :=
  match rects with
  | r :: rects' =>
      if r_top r <? r_bottom arg2 then
        if rectangles_intersects r arg2 then true else intersects_any rects' arg2
      else false
  | [] => false
  end.

Definition region16_intersects_rect (src : REGION16) (arg2 : RECTANGLE_16) : bool :=
  match data src with
  | None => false
  | Some d =>
      let nbRects := zlen (d_rects d) in
      if nbRects =? 0 then false
      else if nbRects =? 1 then rectangles_intersects (extents src) arg2
      else if negb (rectangles_intersects (extents src) arg2) then false
      else intersects_any (d_rects d) arg2
  end.

(** The [for] loop of [region16_intersect_rect]: rectangles kept, and their extents. *)
Fixpoint intersect_loop (srcPtr : list RECTANGLE_16) (rect newExtents : RECTANGLE_16)
  : list RECTANGLE_16 * RECTANGLE_16 :=
  match srcPtr with
  | r :: srcPtr' =>
      if r_top r <? r_bottom rect then
        let '(hit, common) := rectangles_intersection r rect in
        if hit then
          let newExtents' :=
            if rectangle_is_empty newExtents then common
            else mkRect (Z.min (r_left common) (r_left newExtents))
                   (Z.min (r_top common) (r_top newExtents))
                   (Z.max (r_right common) (r_right newExtents))
                   (Z.max (r_bottom common) (r_bottom newExtents)) in
          let '(dst, e) := intersect_loop srcPtr' rect newExtents' in (common :: dst, e)
        else intersect_loop srcPtr' rect newExtents
      else ([], newExtents)
  | [] => ([], newExtents)
  end.

Definition region16_intersect_rect `{Malloc} (dst src : REGION16) (rect : RECTANGLE_16)
  : outcome (bool * REGION16) :=
  match data src with
  | None => Abort
  | Some sd =>
      let nbRects := zlen (d_rects sd) in
      if nbRects =? 0 then
        match region16_clear dst with Ret d => Ret (true, d) | _ => Abort end
      else if nbRects =? 1 then
        let '(intersects, common) := rectangles_intersection (extents src) rect in
        match region16_clear dst with
        | Ret d => if intersects then region16_union_rect d d common else Ret (true, d)
        | _ => Abort
        end
      else if negb (allocateRegion nbRects) then Ret (false, dst)
      else
        let '(rects, newExtents) := intersect_loop (d_rects sd) rect zero_rect in
        match data dst with
        | None => Abort
        | Some _ =>
            let newSize := region_bytes (zlen rects) in
            if malloc_ok newSize
            then region16_simplify_bands (mkRegion newExtents (Some (mkData newSize rects)))
            else Ret (false, mkRegion (extents dst) None)
        end
  end.

(** ** Sets of pixels *)

Definition in_rect (r : RECTANGLE_16) (x y : Z) : Prop :=
  r_left r <= x < r_right r /\ r_top r <= y < r_bottom r.

Definition in_rects (l : list RECTANGLE_16) (x y : Z) : Prop := Exists (fun r => in_rect r x y) l.

(** ** The banded form

    A band is its top, its bottom and its items as intervals; a banded array is the
    concatenation of bands from top to bottom. *)
Record band : Type := mkBand {
  b_top : Z;
  b_bot : Z;
  b_items : list (Z * Z)
}.

Definition flat_band (b : band) : list RECTANGLE_16 :=
  map (fun i => mkRect i.1 (b_top b) i.2 (b_bot b)) (b_items b).
Definition flat (bs : list band) : list RECTANGLE_16 := concat (map flat_band bs).

(** Intervals are not empty, lie at or after [lo], and follow one another. *)
Fixpoint items_ok (lo : Z) (l : list (Z * Z)) : Prop :=
  match l with
  | [] => True
  | (a, b) :: l' => lo <= a /\ a < b /\ items_ok b l'
  end.

Definition band_ok (b : band) : Prop :=
  b_top b < b_bot b /\ b_items b <> [] /\ items_ok 0 (b_items b).

(** Bands between [lo] and [hi], each below the one before it. *)
Fixpoint bands_in (lo hi : Z) (bs : list band) : Prop :=
  match bs with
  | [] => lo <= hi
  | b :: bs' => lo <= b_top b /\ band_ok b /\ bands_in (b_bot b) hi bs'
  end.

Definition banded (l : list RECTANGLE_16) : Prop :=
  exists bs lo hi, l = flat bs /\ bands_in lo hi bs.

Definition covered (l : list (Z * Z)) (x : Z) : Prop := Exists (fun i => i.1 <= x < i.2) l.
Definition in_band (b : band) (x y : Z) : Prop := b_top b <= y < b_bot b /\ covered (b_items b) x.
Definition in_bands (bs : list band) (x y : Z) : Prop := Exists (fun b => in_band b x y) bs.

Section bands.
Implicit Types (b : band) (bs : list band) (r : RECTANGLE_16).

Lemma in_flat_band b x y : in_rects (flat_band b) x y <-> in_band b x y.
Proof.
  unfold in_rects, flat_band, in_band, covered. rewrite Exists_fmap || rewrite Exists_map.
  rewrite !Exists_exists. split.
  - intros ([a c] & Hin & Hr). unfold in_rect in Hr. cbn in Hr. split; [lia|].
    exists (a, c). split; [done|cbn; lia].
  - intros [Hy ([a c] & Hin & Hx)]. exists (a, c). split; [done|]. unfold in_rect. cbn in *. lia.
Qed.

Lemma in_flat bs x y : in_rects (flat bs) x y <-> in_bands bs x y.
Proof.
  unfold in_bands. induction bs as [|b bs IH]; cbn.
  - unfold in_rects. by rewrite !Exists_nil.
  - unfold in_rects in *. rewrite Exists_app, Exists_cons, IH. by rewrite <- in_flat_band.
Qed.

Lemma in_bands_app bs1 bs2 x y : in_bands (bs1 ++ bs2) x y <-> in_bands bs1 x y \/ in_bands bs2 x y.
Proof. apply Exists_app. Qed.

Lemma in_bands_cons b bs x y : in_bands (b :: bs) x y <-> in_band b x y \/ in_bands bs x y.
Proof. apply Exists_cons. Qed.

Lemma in_bands_nil x y : in_bands [] x y <-> False.
Proof. apply Exists_nil. Qed.

Lemma covered_cons a c l x : covered ((a, c) :: l) x <-> a <= x < c \/ covered l x.
Proof. apply Exists_cons. Qed.

Lemma covered_nil x : covered [] x <-> False.
Proof. apply Exists_nil. Qed.

Lemma flat_app bs1 bs2 : flat (bs1 ++ bs2) = flat bs1 ++ flat bs2.
Proof. unfold flat. by rewrite map_app, concat_app. Qed.

Lemma items_ok_weaken lo lo' l : lo' <= lo -> items_ok lo l -> items_ok lo' l.
Proof. destruct l as [|[a c] l]; cbn; [done|]. intros ? (? & ? & ?). split_and!; [lia|done|done]. Qed.

Lemma items_ok_covered lo l x : items_ok lo l -> covered l x -> lo <= x.
Proof.
  revert lo. induction l as [|[a c] l IH]; intros lo; [by rewrite covered_nil|]. cbn.
  intros (Ha & Hc & Hl). rewrite covered_cons. intros [?|?]; [lia|].
  specialize (IH c Hl H). lia.
Qed.

Lemma bands_in_le lo hi bs : bands_in lo hi bs -> lo <= hi.
Proof.
  revert lo. induction bs as [|b bs IH]; intros lo; cbn; [done|].
  intros (? & [? _] & Hb). specialize (IH _ Hb). lia.
Qed.

Lemma bands_in_weaken lo hi lo' hi' bs :
  lo' <= lo -> hi <= hi' -> bands_in lo hi bs -> bands_in lo' hi' bs.
Proof.
  revert lo lo'. induction bs as [|b bs IH]; intros lo lo' H1 H2; cbn; [lia|].
  intros (? & ? & ?). split_and!; [lia|done|]. by apply (IH (b_bot b)).
Qed.

Lemma bands_in_app lo mid hi bs1 bs2 :
  bands_in lo mid bs1 -> bands_in mid hi bs2 -> bands_in lo hi (bs1 ++ bs2).
Proof.
  revert lo. induction bs1 as [|b bs1 IH]; intros lo; cbn.
  - intros Hle H. by apply (bands_in_weaken mid hi).
  - intros (? & ? & ?) Hb. auto.
Qed.

Lemma bands_in_bounds lo hi bs x y : bands_in lo hi bs -> in_bands bs x y -> lo <= y < hi.
Proof.
  revert lo. induction bs as [|b bs IH]; intros lo; [by rewrite in_bands_nil|]. cbn.
  intros (? & [? _] & Hb). pose proof (bands_in_le _ _ _ Hb). rewrite in_bands_cons.
  intros [[? _]|Hin]; [lia|]. specialize (IH _ Hb Hin). lia.
Qed.

(** The array after a band starts with another top. *)
Definition other_top (t : Z) (l : list RECTANGLE_16) : Prop :=
  match l with r :: _ => r_top r <> t | [] => True end.

Lemma other_top_next lo hi b bs : band_ok b -> bands_in (b_bot b) hi bs -> lo = b_top b ->
  other_top lo (flat bs).
Proof.
  intros [Hb _] Hbs ->. destruct bs as [|b' bs]; cbn; [done|].
  cbn in Hbs. destruct Hbs as (Hlo & (Ht & Hne & _) & _).
  unfold flat_band. destruct (b_items b') as [|i l]; [done|]. cbn. lia.
Qed.

Lemma flat_band_cons b : b_items b <> [] ->
  exists r l, flat_band b = r :: l /\ r_top r = b_top b /\ r_bottom r = b_bot b.
Proof. unfold flat_band. destruct (b_items b) as [|i l]; [done|]. cbn. eauto. Qed.
End bands.

(** ** Merging a rectangle into a band, on intervals *)

(** From the first item that is not before the rectangle on. *)
Fixpoint merge_over (start ur : Z) (l : list (Z * Z)) : list (Z * Z) :=
  match l with
  | (a, c) :: l' =>
      if c <? ur then merge_over start ur l'
      else if a <? ur then (start, c) :: l' else (start, ur) :: l
  | [] => [(start, ur)]
  end.

Fixpoint merge_items (ul ur : Z) (l : list (Z * Z)) : list (Z * Z) :=
  match l with
  | (a, c) :: l' =>
      if c <? ul then (a, c) :: merge_items ul ur l'
      else merge_over (if a <? ul then a else ul) ur l
  | [] => [(ul, ur)]
  end.

Section merging.
Lemma merge_over_covered start ur l x :
  items_ok start l -> start < ur ->
  covered (merge_over start ur l) x <-> start <= x < ur \/ covered l x.
Proof.
  intros Hl Hs. assert (Hgen : forall lo, start <= lo -> items_ok lo l ->
    covered (merge_over start ur l) x <-> start <= x < ur \/ covered l x).
  { clear Hl. induction l as [|[a c] l IH]; intros lo Hlo Hl; cbn [merge_over].
    - by rewrite covered_cons, !covered_nil.
    - cbn in Hl. destruct Hl as (Ha & Hac & Hl). repeat case_if.
      + rewrite (IH c ltac:(lia) Hl), covered_cons. split; [tauto|]. intros [?|[?|?]]; [auto| |auto].
        left. lia.
      + rewrite !covered_cons. split.
        * intros [?|?]; [|auto]. destruct (decide (x < ur)); [left; lia|right; left; lia].
        * intros [?|[?|?]]; [left; lia|left; lia|auto].
      + by rewrite covered_cons. }
  by apply (Hgen start).
Qed.

Lemma merge_over_ok lo start ur l :
  lo <= start -> items_ok start l -> start < ur -> items_ok lo (merge_over start ur l).
Proof.
  intros Hlo Hl Hs. assert (Hgen : forall k, start <= k -> items_ok k l ->
    items_ok lo (merge_over start ur l)).
  { clear Hl. induction l as [|[a c] l IH]; intros k Hk Hl; cbn [merge_over].
    - cbn. lia.
    - cbn in Hl. destruct Hl as (Ha & Hac & Hl). repeat case_if.
      + by apply (IH c ltac:(lia)).
      + cbn. split_and!; [lia|lia|done].
      + cbn. split_and!; [lia|lia|lia|done|done]. }
  by apply (Hgen start).
Qed.

Lemma merge_items_covered lo ul ur l x :
  items_ok lo l -> ul < ur ->
  covered (merge_items ul ur l) x <-> ul <= x < ur \/ covered l x.
Proof.
  intros Hl Hu. revert lo Hl. induction l as [|[a c] l IH]; intros lo Hl; cbn [merge_items].
  - by rewrite covered_cons, !covered_nil.
  - cbn in Hl. destruct Hl as (Ha & Hac & Hl). case_if.
    + rewrite !covered_cons, (IH c Hl). tauto.
    + rewrite merge_over_covered.
      * rewrite covered_cons. case_if; [|tauto].
        split; [|intros [?|[?|?]]; [left; lia|auto|auto]].
        intros [?|?]; [|auto]. destruct (decide (x < ul)); [right; left; lia|left; lia].
      * case_if; cbn; (split_and!; [lia|done|done]).
      * case_if; lia.
Qed.

Lemma merge_items_ok lo ul ur l :
  lo <= ul -> items_ok lo l -> ul < ur -> items_ok lo (merge_items ul ur l).
Proof.
  intros Hlo Hl Hu. revert lo Hlo Hl. induction l as [|[a c] l IH]; intros lo Hlo Hl;
    cbn [merge_items].
  - cbn. lia.
  - cbn in Hl. destruct Hl as (Ha & Hac & Hl). case_if.
    + cbn. split_and!; [lia|lia|]. apply IH; [lia|done].
    + apply merge_over_ok; [case_if; lia| |case_if; lia].
      case_if; cbn; (split_and!; [lia|done|done]).
Qed.

Lemma merge_items_nonempty ul ur l : merge_items ul ur l <> [].
Proof.
  assert (Hover : forall s l, merge_over s ur l <> []).
  { intros s k. induction k as [|[a c] k IH]; cbn; [done|]. by repeat case_if. }
  destruct l as [|[a c] l]; cbn; [done|]. case_if; [done|]. exact (Hover _ ((a, c) :: l)).
Qed.

(** At most one item is added. *)
Lemma length_merge_items ul ur l : (length (merge_items ul ur l) <= S (length l))%nat.
Proof.
  assert (Hover : forall s k, (length (merge_over s ur k) <= S (length k))%nat).
  { intros s k. induction k as [|[a c] k IH]; cbn; [lia|]. repeat case_if; cbn; lia. }
  induction l as [|[a c] l IH]; [cbn; lia|]. cbn [merge_items]. case_if; [cbn; lia|].
  apply (Hover _ ((a, c) :: l)).
Qed.
End merging.

(** ** The loops of the source on a banded array *)

Definition mk_items (t b : Z) (l : list (Z * Z)) : list RECTANGLE_16 :=
  map (fun i => mkRect i.1 t i.2 b) l.

Section copying.
Context (t b nt nb : Z) (R : list RECTANGLE_16).
Hypothesis HR : other_top t R.

Lemma copy_while_band l :
  copy_while (fun r => r_top r =? t) nt nb (mk_items t b l ++ R) = (mk_items nt nb l, R).
Proof using HR.
  induction l as [|[a c] l IH]; cbn.
  - destruct R as [|r R']; [done|]. cbn. cbn in HR. by replace (r_top r =? t) with false by lia.
  - rewrite Z.eqb_refl. unfold mk_items in IH at 1. by rewrite IH.
Qed.

(** The items from the overlapping ones on. *)
Lemma copy_over u start l :
  let src2 := skip_while (fun r => (r_top r =? t) && (r_right r <? r_right u)) (mk_items t b l ++ R) in
  let '(endRight, src3) :=
    match src2 with
    | r :: src' => if (r_top r =? t) && (r_left r <? r_right u) then (r_right r, src')
                   else (r_right u, src2)
    | [] => (r_right u, [])
    end in
  let '(after, src4) := copy_while (fun r => r_top r =? t) nt nb src3 in
  (mkRect start nt endRight nb :: after, src4) = (mk_items nt nb (merge_over start (r_right u) l), R).
Proof using HR.
  induction l as [|[a c] l IH]; cbn [mk_items map app skip_while merge_over].
  - destruct R as [|r R'] eqn:E; [done|]. cbn in HR. cbn [skip_while].
    assert (Ht : (r_top r =? t) = false) by lia. rewrite Ht. cbn. rewrite Ht. cbn. by rewrite Ht.
  - cbn [r_top r_right fst snd]. rewrite Z.eqb_refl. cbn [andb].
    destruct (c <? r_right u) eqn:E1; [exact IH|]. cbn zeta. cbn [r_top r_left r_right].
    rewrite Z.eqb_refl. cbn [andb]. destruct (a <? r_right u) eqn:E2.
    + fold (mk_items t b l). by rewrite copy_while_band.
    + pose proof (copy_while_band ((a, c) :: l)) as Hc. cbn [mk_items map app fst snd] in Hc.
      cbn [fst snd]. by rewrite Hc.
Qed.

Lemma copy_band_merge u l :
  l <> [] ->
  region16_copy_band_with_union (mk_items t b l ++ R) nt nb (Some u) =
    (mk_items nt nb (merge_items (r_left u) (r_right u) l), R).
Proof using HR.
  intros Hne.
  assert (Hgen : forall l,
    (let '(before, src1) :=
       copy_while (fun r => (r_top r =? t) && (r_right r <? r_left u)) nt nb (mk_items t b l ++ R) in
     let startLeft :=
       match src1 with
       | r :: _ => if (r_top r =? t) && (r_left r <? r_left u) then r_left r else r_left u
       | [] => r_left u
       end in
     let src2 := skip_while (fun r => (r_top r =? t) && (r_right r <? r_right u)) src1 in
     let '(endRight, src3) :=
       match src2 with
       | r :: src' => if (r_top r =? t) && (r_left r <? r_right u) then (r_right r, src')
                      else (r_right u, src2)
       | [] => (r_right u, [])
       end in
     let '(after, src4) := copy_while (fun r => r_top r =? t) nt nb src3 in
     (before ++ mkRect startLeft nt endRight nb :: after, src4)) =
    (mk_items nt nb (merge_items (r_left u) (r_right u) l), R)).
  { clear l Hne. induction l as [|[a c] l IH].
    - pose proof (copy_over u (r_left u) []) as Ho. cbn [mk_items map app merge_items] in *.
      destruct R as [|r R'] eqn:E; [done|]. cbn in HR. cbn [copy_while].
      assert (Ht : (r_top r =? t) = false) by lia. rewrite Ht. cbn. rewrite Ht. cbn. rewrite Ht.
      cbn. by rewrite Ht.
    - cbn [mk_items map app copy_while merge_items]. cbn [r_top r_right fst snd].
      rewrite Z.eqb_refl. cbn [andb]. destruct (c <? r_left u) eqn:E1.
      + fold (mk_items t b l).
        destruct (copy_while _ nt nb (mk_items t b l ++ R)) as [before src1].
        cbv zeta in IH |- *.
        destruct (match skip_while _ src1 with [] => _ | _ => _ end) as [e s3].
        destruct (copy_while _ nt nb s3) as [after s4]. injection IH as IH1 IH2.
        cbn [app map]. unfold mk_items in IH1. by rewrite IH1, IH2.
      + pose proof (copy_over u (if a <? r_left u then a else r_left u) ((a, c) :: l)) as Ho.
        cbn [mk_items map app fst snd] in Ho. cbv zeta in Ho |- *.
        cbn [r_top r_left]. rewrite Z.eqb_refl. cbn [andb app].
        destruct (match skip_while _ _ with [] => _ | _ => _ end) as [e s3].
        destruct (copy_while _ nt nb s3) as [after s4]. exact Ho. }
  specialize (Hgen l). destruct l as [|i l]; [done|].
  unfold region16_copy_band_with_union. cbn [mk_items map app r_top] in Hgen |- *. exact Hgen.
Qed.

Lemma copy_band_plain l :
  l <> [] ->
  region16_copy_band_with_union (mk_items t b l ++ R) nt nb None = (mk_items nt nb l, R).
Proof using HR.
  intros Hne. pose proof (copy_while_band l) as Hc. destruct l as [|i l]; [done|].
  unfold region16_copy_band_with_union. cbn [mk_items map app r_top] in Hc |- *. exact Hc.
Qed.

(** A rectangle found inside of one item of the band adds nothing to it. *)
Lemma contained_covered lo rect l :
  items_ok lo l -> contained_at t (mk_items t b l ++ R) rect = true ->
  forall x, r_left rect <= x < r_right rect -> covered l x.
Proof using HR.
  intros Hl. revert lo Hl. induction l as [|[a c] l IH]; intros lo Hl; cbn.
  - destruct R as [|r R']; [done|]. cbn in HR. cbn.
    by replace (r_top r =? t) with false by lia.
  - rewrite Z.eqb_refl. cbn [andb]. cbn in Hl. destruct Hl as (Ha & Hac & Hl).
    destruct (a <=? r_left rect) eqn:E1; [|done]. destruct (r_right rect <=? c) eqn:E2.
    + intros _ x Hx. rewrite covered_cons. left. lia.
    + intros Hc x Hx. rewrite covered_cons. right. exact (IH c Hl Hc x Hx).
Qed.
End copying.

(** ** The union loop on bands *)

Definition next_top (b : band) (bs : list band) : Z :=
  match bs with [] => b_bot b | n :: _ => b_top n end.
Fixpoint last_bot (b : band) (bs : list band) : Z :=
  match bs with [] => b_bot b | n :: bs' => last_bot n bs' end.

(** The bands that replace one source band which overlaps the rectangle. *)
Definition split_band (rect : RECTANGLE_16) (b : band) : list band :=
  (if b_top b <? r_top rect then [mkBand (b_top b) (r_top rect) (b_items b)] else []) ++
  [mkBand (if b_top b <? r_top rect then r_top rect else b_top b)
     (if r_bottom rect <? b_bot b then r_bottom rect else b_bot b)
     (merge_items (r_left rect) (r_right rect) (b_items b))] ++
  (if r_bottom rect <? b_bot b then [mkBand (r_bottom rect) (b_bot b) (b_items b)] else []).

Lemma flat_cons b bs : flat (b :: bs) = mk_items (b_top b) (b_bot b) (b_items b) ++ flat bs.
Proof. reflexivity. Qed.

Section union.
Context (rect : RECTANGLE_16).
Hypothesis Hrect : 0 <= r_left rect < r_right rect /\ r_top rect < r_bottom rect.

Definition one_band (t bt : Z) : band := mkBand t bt [(r_left rect, r_right rect)].

Lemma one_band_ok t bt : t < bt -> band_ok (one_band t bt).
Proof using Hrect. intros. split_and!; cbn; [done|done|lia]. Qed.

Lemma in_one_band t bt x y :
  in_band (one_band t bt) x y <-> t <= y < bt /\ r_left rect <= x < r_right rect.
Proof using Type.
  clear Hrect. unfold in_band, one_band. cbn. rewrite covered_cons, covered_nil. tauto.
Qed.

Lemma split_band_spec b :
  band_ok b -> r_top rect < b_bot b -> b_top b < r_bottom rect ->
  bands_in (b_top b) (b_bot b) (split_band rect b) /\
  (forall x y, in_bands (split_band rect b) x y <->
     in_band b x y \/ (in_rect rect x y /\ b_top b <= y < b_bot b)) /\
  zlen (flat (split_band rect b)) <= 3 * zlen (b_items b) + 1 /\
  (b_bot b < r_bottom rect -> zlen (flat (split_band rect b)) <= 2 * zlen (b_items b) + 1).
Proof using Hrect.
  intros (Ht & Hne & Hi) H1 H2. unfold split_band.
  pose proof (length_merge_items (r_left rect) (r_right rect) (b_items b)) as Hlen.
  pose proof (merge_items_nonempty (r_left rect) (r_right rect) (b_items b)) as Hmne.
  pose proof (merge_items_ok 0 (r_left rect) (r_right rect) (b_items b) ltac:(lia) Hi ltac:(lia))
    as Hmok.
  assert (Hm : zlen (merge_items (r_left rect) (r_right rect) (b_items b)) <= 1 + zlen (b_items b))
    by (unfold zlen; lia).
  split_and!.
  - destruct (b_top b <? r_top rect) eqn:E1, (r_bottom rect <? b_bot b) eqn:E2; cbn;
      unfold band_ok; cbn; split_and!; done || lia.
  - intros x y. rewrite !in_bands_app, in_bands_cons.
    unfold in_rect, in_band at 1 2. cbn [b_top b_bot b_items].
    rewrite (merge_items_covered 0) by (done || lia).
    destruct (b_top b <? r_top rect) eqn:E1, (r_bottom rect <? b_bot b) eqn:E2;
      rewrite ?in_bands_cons, ?in_bands_nil; unfold in_band; cbn [b_top b_bot b_items];
      generalize (covered (b_items b) x); intros C; clear Hlen Hmne Hmok Hm Hi Hne;
      destruct (decide (y < r_top rect)), (decide (y < r_bottom rect)); intuition lia.
  - destruct (b_top b <? r_top rect), (r_bottom rect <? b_bot b); unfold flat, flat_band; cbn;
      rewrite ?zlen_app, ?zlen_nil; unfold zlen in *; rewrite ?length_map, ?length_app; cbn; lia.
  - intros Hlt. replace (r_bottom rect <? b_bot b) with false by lia.
    destruct (b_top b <? r_top rect); unfold flat, flat_band; cbn;
      rewrite ?zlen_app, ?zlen_nil; unfold zlen in *; rewrite ?length_map, ?length_app; cbn; lia.
Qed.

(** The array of one round. *)
Lemma union_band_spec b bs hi r0 :
  band_ok b -> bands_in (b_bot b) hi bs -> r_top r0 = b_top b -> r_bottom r0 = b_bot b ->
  exists us, union_band (flat (b :: bs)) r0 rect = (flat us, flat bs) /\
    bands_in (b_top b) (next_top b bs) us /\
    (forall x y, in_bands us x y <->
       in_band b x y \/ (in_rect rect x y /\ b_top b <= y < next_top b bs)) /\
    zlen (flat us) <= 4 * zlen (b_items b).
Proof using Hrect.
  intros Hb Hbs Ht0 Hb0. pose proof Hb as (Ht & Hne & Hi).
  pose proof (other_top_next (b_top b) hi b bs Hb Hbs eq_refl) as HR.
  assert (Hn : b_bot b <= next_top b bs).
  { destruct bs as [|n bs]; cbn; [lia|]. cbn in Hbs. tauto. }
  assert (Hz : 1 <= zlen (b_items b)).
  { destruct (b_items b); [done|]. rewrite zlen_cons. pose proof (zlen_nonneg l). lia. }
  unfold union_band. rewrite Ht0, Hb0.
  change (flat (b :: bs)) with (mk_items (b_top b) (b_bot b) (b_items b) ++ flat bs).
  (* the piece between this band and the next one *)
  assert (Hbetween : forall ti,
    (b_bot b < r_bottom rect -> ti = Z.max (b_bot b) (r_top rect)) ->
    exists vs, match flat bs with
      | n :: _ =>
          if negb (r_top n =? b_bot b) && (b_bot b <? r_bottom rect) && (r_top rect <? r_top n)
          then [mkRect (r_left rect) ti (r_right rect) (Z.min (r_top n) (r_bottom rect))]
          else []
      | [] => []
      end = flat vs /\ bands_in (b_bot b) (next_top b bs) vs /\
      (forall x y, in_bands vs x y <-> in_rect rect x y /\ b_bot b <= y < next_top b bs) /\
      zlen (flat vs) <= 1 /\ (r_bottom rect <= b_bot b -> flat vs = [])).
  { intros ti Hti.
    assert (Hnone : next_top b bs <= b_bot b \/ r_bottom rect <= b_bot b \/
                    next_top b bs <= r_top rect ->
      exists vs, [] = flat vs /\ bands_in (b_bot b) (next_top b bs) vs /\
      (forall x y, in_bands vs x y <-> in_rect rect x y /\ b_bot b <= y < next_top b bs) /\
      zlen (flat vs) <= 1 /\ (r_bottom rect <= b_bot b -> flat vs = [])).
    { intros Hdis. exists []. split_and!; try done. intros x y. rewrite in_bands_nil.
      unfold in_rect. lia. }
    destruct bs as [|n bs]; [by apply Hnone; left|]. cbn in Hbs, Hn.
    destruct Hbs as (_ & (Hnt & Hnn & Hni) & _).
    destruct (flat_band_cons n Hnn) as (r & l & He & Hrt & _). unfold flat at 1. cbn [map concat].
    rewrite He. cbn [app]. rewrite Hrt. destruct (_ && _) eqn:E; [|apply Hnone; cbn; lia].
    rewrite Hti by lia. clear Hti.
    exists [one_band (Z.max (b_bot b) (r_top rect)) (Z.min (b_top n) (r_bottom rect))]. cbn. unfold next_top.
    split_and!; [done|lia|apply one_band_ok; lia|cbn; lia| |done|lia].
    intros x y. rewrite in_bands_cons, in_bands_nil, in_one_band. unfold in_rect. lia. }
  destruct (_ || _) eqn:Enov.
  - (* the band is copied *)
    rewrite copy_band_plain by done.
    assert (Hno : forall x y, in_rect rect x y -> b_top b <= y < b_bot b -> in_band b x y).
    { intros x y [Hx Hy] Hyb. split; [done|].
      apply orb_true_iff in Enov as [Enov|Hc]; [exfalso; lia|].
      unfold rectangle_contained_in_band in Hc.
      destruct (mk_items _ _ _ ++ flat bs) as [|r l] eqn:El; [done|].
      destruct (_ || _); [done|].
      assert (r_top r = b_top b) as Hrt.
      { destruct (flat_band_cons b Hne) as (r' & l' & He & Hrt & _).
        unfold flat_band in He. unfold mk_items in El. rewrite He in El. by simplify_eq/=. }
      rewrite Hrt, <- El in Hc. exact (contained_covered _ _ _ HR 0 rect _ Hi Hc x Hx). }
    destruct (Hbetween (r_top rect)) as (vs & Hv & Hvi & Hvp & Hvl & _).
    { intros Hlt. apply orb_true_iff in Enov as [Enov|Hc]; [lia|].
      unfold rectangle_contained_in_band in Hc.
      destruct (flat_band_cons b Hne) as (r' & l' & He & Hrt & Hrb).
      change (mk_items (b_top b) (b_bot b) (b_items b)) with (flat_band b) in Hc.
      rewrite He in Hc. cbn [app] in Hc. destruct (_ || _) eqn:E in Hc; [done|lia]. }
    exists (b :: vs). rewrite Hv. split_and!.
    + unfold flat. done.
    + cbn. split_and!; [lia|done|done].
    + intros x y. rewrite in_bands_cons, Hvp. specialize (Hno x y). unfold in_band in *.
      generalize dependent (covered (b_items b) x). intros C. unfold in_rect in *.
      destruct (decide (y < b_bot b)); intuition lia.
    + unfold flat in *. cbn [map concat]. rewrite zlen_app. unfold flat_band at 1.
      unfold zlen at 1. rewrite length_map. fold (zlen (b_items b)). lia.
  - (* the band is split *)
    assert (Hov : r_top rect < b_bot b /\ b_top b < r_bottom rect) by lia.
    destruct (split_band_spec b Hb (proj1 Hov) (proj2 Hov)) as (Hsi & Hsp & Hsl & Hsl2).
    destruct (Hbetween (b_bot b)) as (vs & Hv & Hvi & Hvp & Hvl & Hvn); [lia|].
    exists (split_band rect b ++ vs).
    split_and!; [|by eapply bands_in_app| |].
    + rewrite flat_app, <- Hv. cbv zeta. rewrite copy_band_merge, !copy_band_plain by done.
      unfold split_band.
      destruct (b_top b <? r_top rect), (r_bottom rect <? b_bot b); cbn [fst app map concat];
        rewrite ?flat_cons; cbn [b_top b_bot b_items app]; change (flat []) with (@nil RECTANGLE_16);
        by rewrite ?app_nil_r, <- ?app_assoc.
    + intros x y. rewrite in_bands_app, Hsp, Hvp. unfold in_band, in_rect.
      generalize (covered (b_items b) x). intros C. destruct (decide (y < b_bot b)); intuition lia.
    + rewrite flat_app, zlen_app. destruct (decide (r_bottom rect <= b_bot b)) as [Hle|].
      * rewrite (Hvn Hle), zlen_nil. lia.
      * specialize (Hsl2 ltac:(lia)). lia.
Qed.
Lemma zlen_flat_cons b bs : zlen (flat (b :: bs)) = zlen (b_items b) + zlen (flat bs).
Proof using Type. rewrite flat_cons, zlen_app. unfold mk_items, zlen. by rewrite length_map. Qed.

Lemma union_loop_spec fuel b bs hi :
  band_ok b -> bands_in (b_bot b) hi bs -> (length (flat (b :: bs)) <= fuel)%nat ->
  exists us, union_loop fuel (flat (b :: bs)) rect = Some (flat us) /\
    bands_in (b_top b) (last_bot b bs) us /\
    (forall x y, in_bands us x y <->
       in_bands (b :: bs) x y \/ (in_rect rect x y /\ b_top b <= y < last_bot b bs)) /\
    zlen (flat us) <= 4 * zlen (flat (b :: bs)).
Proof using Hrect.
  revert b bs. induction fuel as [|fuel IH]; intros b bs Hb Hbs Hf;
    pose proof Hb as (Ht & Hne & Hi);
    destruct (flat_band_cons b Hne) as (r0 & l0 & He & Hrt & Hrb);
    assert (Hfl : flat (b :: bs) = r0 :: l0 ++ flat bs) by (unfold flat; cbn; by rewrite He).
  { exfalso. rewrite Hfl in Hf. cbn in Hf. lia. }
  destruct (union_band_spec b bs hi r0 Hb Hbs Hrt Hrb) as (us & Hu & Hui & Hup & Hul).
  cbn [union_loop]. rewrite Hfl. rewrite <- Hfl, Hu.
  destruct bs as [|n bs].
  - exists us. rewrite zlen_flat_cons. change (flat []) with (@nil RECTANGLE_16).
    split_and!; [destruct fuel; cbn; by rewrite app_nil_r|done| |rewrite zlen_nil; lia].
    intros x y. rewrite Hup, in_bands_cons, in_bands_nil. cbn [next_top last_bot]. tauto.
  - cbn in Hbs. destruct Hbs as (Hbn & Hn & Hbs).
    assert (Hlen : (length (flat (n :: bs)) <= fuel)%nat).
    { rewrite Hfl in Hf. cbn [length] in Hf. rewrite length_app in Hf. lia. }
    destruct (IH n bs Hn Hbs Hlen) as (vs & Hv & Hvi & Hvp & Hvl).
    exists (us ++ vs). rewrite Hv, flat_app. cbn [next_top last_bot] in *.
    split_and!; [done|by eapply bands_in_app| |].
    + intros x y. rewrite in_bands_app, Hup, Hvp, !in_bands_cons.
      pose proof (bands_in_le _ _ _ Hvi). destruct Hn as [Hn _].
      generalize (in_band b x y), (in_band n x y), (in_bands bs x y). intros P1 P2 P3.
      destruct (decide (y < b_top n)); intuition lia.
    + rewrite zlen_app, (zlen_flat_cons b). lia.
Qed.
End union.

(** ** Simplification *)

Section simplify.
Lemma next_band_run b bs hi :
  band_ok b -> bands_in (b_bot b) hi bs -> next_band (flat (b :: bs)) = (flat_band b, flat bs).
Proof.
  intros Hb Hbs. pose proof (other_top_next (b_top b) hi b bs Hb Hbs eq_refl) as HR.
  assert (Hat : forall l, next_band_at (b_top b) (mk_items (b_top b) (b_bot b) l ++ flat bs) =
      (mk_items (b_top b) (b_bot b) l, flat bs)).
  { induction l as [|i l IH]; cbn.
    - destruct (flat bs) as [|r R]; [done|]. cbn in HR |- *.
      by replace (r_top r =? b_top b) with false by lia.
    - rewrite Z.eqb_refl. unfold mk_items in IH at 1. by rewrite IH. }
  specialize (Hat (b_items b)). destruct Hb as (_ & Hne & _). rewrite flat_cons.
  unfold next_band. unfold flat_band. fold (mk_items (b_top b) (b_bot b) (b_items b)).
  destruct (b_items b) as [|i l]; [done|]. exact Hat.
Qed.

Lemma band_match_run b1 b2 bs hi :
  band_ok b2 -> bands_in (b_bot b2) hi bs ->
  band_match (flat_band b1) (flat (b2 :: bs)) = bool_decide (b_items b1 = b_items b2).
Proof.
  intros Hb2 Hbs. pose proof (other_top_next (b_top b2) hi b2 bs Hb2 Hbs eq_refl) as HR.
  assert (Hat : forall k l, band_match_at (b_top b2) (mk_items (b_top b1) (b_bot b1) k)
      (mk_items (b_top b2) (b_bot b2) l ++ flat bs) = bool_decide (k = l)).
  { induction k as [|[a c] k IH]; intros [|[a' c'] l].
    - rewrite bool_decide_true by done. cbn. destruct (flat bs) as [|r R]; [done|].
      cbn in HR |- *. by replace (r_top r =? b_top b2) with false by lia.
    - rewrite bool_decide_false by done. cbn. by rewrite Z.eqb_refl.
    - rewrite bool_decide_false by done. cbn. destruct (flat bs) as [|r R]; [done|].
      cbn in HR |- *. by replace (r_top r =? b_top b2) with false by lia.
    - cbn [mk_items map app band_match_at r_top r_left r_right fst snd]. rewrite Z.eqb_refl.
      destruct (decide (a = a')) as [->|Ha].
      + rewrite Z.eqb_refl. destruct (decide (c = c')) as [->|Hc].
        * rewrite Z.eqb_refl. cbn [negb orb]. unfold mk_items in IH. rewrite IH.
          apply bool_decide_ext. split; [by intros ->|]. intros Heq. by simplify_eq.
        * replace (c =? c') with false by lia. cbn. rewrite bool_decide_false; [done|].
          intros Heq. by simplify_eq.
      + replace (a =? a') with false by lia. cbn. rewrite bool_decide_false; [done|].
        intros Heq. by simplify_eq. }
  specialize (Hat (b_items b1) (b_items b2)). destruct Hb2 as (_ & Hne & _).
  unfold band_match. rewrite flat_cons. unfold flat_band, mk_items in *.
  destruct (b_items b2) as [|i l]; [done|]. exact Hat.
Qed.

(** No two neighbouring bands could be merged. *)
Fixpoint maximal (bs : list band) : Prop :=
  match bs with
  | b1 :: (b2 :: _) as bs' => ~ (b_bot b1 = b_top b2 /\ b_items b1 = b_items b2) /\ maximal bs'
  | _ => True
  end.

Lemma merged_band_flat b b2 bs :
  b_items b = b_items b2 ->
  map (set_bottom (b_bot b2)) (flat_band b) ++ drop (length (flat_band b)) (flat (b2 :: bs)) =
    flat (mkBand (b_top b) (b_bot b2) (b_items b) :: bs).
Proof.
  intros Heq. rewrite !flat_cons. cbn [b_top b_bot b_items]. unfold flat_band, mk_items.
  rewrite map_map. f_equal. rewrite drop_app_length'; [done|]. by rewrite !length_map, Heq.
Qed.

Lemma simplify_loop_spec fuel b bs lo hi :
  band_ok b -> bands_in (b_bot b) hi bs -> lo <= b_top b -> (length (flat (b :: bs)) <= fuel)%nat ->
  exists u us, simplify_loop fuel (flat (b :: bs)) = Some (flat (u :: us)) /\
    b_top u = b_top b /\ b_items u = b_items b /\ bands_in lo hi (u :: us) /\
    (forall x y, in_bands (u :: us) x y <-> in_bands (b :: bs) x y) /\ maximal (u :: us) /\
    zlen (flat (u :: us)) <= zlen (flat (b :: bs)).
Proof.
  revert b bs lo. induction fuel as [|fuel IH]; intros b bs lo Hb Hbs Hlo Hf;
    pose proof Hb as (Ht & Hne & Hi);
    destruct (flat_band_cons b Hne) as (r0 & l0 & He & Hrt & Hrb);
    assert (Hz : (1 <= length (b_items b))%nat) by (destruct (b_items b); [done|cbn; lia]).
  { exfalso. rewrite flat_cons, length_app in Hf. unfold mk_items in Hf.
    rewrite length_map in Hf. lia. }
  cbn [simplify_loop]. rewrite (next_band_run b bs hi Hb Hbs), He.
  destruct bs as [|b2 bs].
  { exists b, []. cbn. split_and!; done. }
  cbn in Hbs. destruct Hbs as (Hbn & Hb2 & Hbs). pose proof Hb2 as (Ht2 & Hne2 & Hi2).
  destruct (flat_band_cons b2 Hne2) as (r2 & l2 & He2 & Hrt2 & Hrb2).
  assert (Hf2 : flat (b2 :: bs) = r2 :: l2 ++ flat bs) by (unfold flat; cbn; by rewrite He2).
  assert (Hlen : (length (flat (b2 :: bs)) <= fuel)%nat).
  { rewrite flat_cons, length_app in Hf. unfold mk_items at 1 in Hf. rewrite length_map in Hf. lia. }
  rewrite Hf2. cbv beta iota. rewrite <- Hf2, Hrb, Hrt2, Hrb2, <- He.
  rewrite (band_match_run b b2 bs hi Hb2 Hbs).
  destruct ((b_bot b =? b_top b2) && bool_decide (b_items b = b_items b2)) eqn:E.
  - apply andb_true_iff in E as [E1 E2%bool_decide_eq_true]. apply Z.eqb_eq in E1.
    rewrite merged_band_flat by done.
    destruct (IH (mkBand (b_top b) (b_bot b2) (b_items b)) bs lo) as (u & us & Hs & Hu & Hui & Hin & Hp & Hm & Hl).
    + split_and!; cbn; [lia|done|done].
    + done.
    + done.
    + rewrite flat_cons, length_app in Hlen |- *. unfold mk_items in *. cbn.
      rewrite length_map in *. rewrite E2. lia.
    + exists u, us. split_and!; try done.
      * intros x y. rewrite Hp, !in_bands_cons. unfold in_band. cbn. rewrite <- E2.
        generalize (covered (b_items b) x), (in_bands bs x y). intros P1 P2.
        destruct (decide (y < b_bot b)); intuition lia.
      * rewrite Hl, !zlen_flat_cons. cbn. pose proof (zlen_nonneg (b_items b2)). lia.
  - destruct (IH b2 bs (b_bot b) Hb2 Hbs Hbn Hlen) as (u & us & Hs & Hu & Hui & Hin & Hp & Hm & Hl).
    rewrite Hs. exists b, (u :: us).
    split_and!; [done|done|done|by cbn| | |rewrite (zlen_flat_cons b (u :: us)), (zlen_flat_cons b (b2 :: bs)); lia].
    + intros x y. rewrite (in_bands_cons b), Hp, <- in_bands_cons. done.
    + split; [|done]. rewrite Hu, Hui. intros [E1 E2].
      rewrite E1, Z.eqb_refl, bool_decide_true in E by done. done.
Qed.

(** [region16_simplify_bands] on a banded array. *)
Lemma simplify_spec `{Malloc} ext sz bs lo hi :
  bands_in lo hi bs -> sz = region_bytes (zlen (flat bs)) ->
  exists ok rg, region16_simplify_bands (mkRegion ext (Some (mkData sz (flat bs)))) = Ret (ok, rg) /\
    if ok : bool
    then exists us, rg = mkRegion ext (Some (mkData (region_bytes (zlen (flat us))) (flat us))) /\
           bands_in lo hi us /\ maximal us /\ zlen (flat us) <= zlen (flat bs) /\
           (forall x y, in_bands us x y <-> in_bands bs x y)
    else data rg = Some empty_region /\ refused (region_bytes (zlen (flat bs))).
Proof.
  intros Hbs ->. unfold region16_simplify_bands. cbn [data d_rects d_size].
  destruct bs as [|b bs].
  { exists true. eexists. split; [reflexivity|]. exists []. split_and!; done. }
  cbn in Hbs. destruct Hbs as (Hlo & Hb & Hbs).
  destruct (simplify_loop_spec (length (flat (b :: bs))) b bs lo hi Hb Hbs Hlo ltac:(lia))
    as (u & us & Hs & _ & _ & Hin & Hp & Hm & Hl).
  destruct (zlen (flat (b :: bs)) <? 2) eqn:E2.
  - exists true. eexists. split; [reflexivity|]. exists (b :: bs). split_and!; try done.
    destruct bs as [|b2 bs]; [done|]. exfalso. cbn in Hbs. destruct Hbs as (_ & (_ & Hne2 & _) & _).
    destruct Hb as (_ & Hne & _). rewrite !zlen_flat_cons in E2. pose proof (zlen_nonneg (flat bs)).
    destruct (b_items b), (b_items b2); try done. rewrite !zlen_cons in E2. zlist_lia.
  - rewrite Hs. destruct (zlen (flat (u :: us)) =? zlen (flat (b :: bs))) eqn:E3.
    + exists true. eexists. split; [reflexivity|]. exists (u :: us).
      apply Z.eqb_eq in E3. rewrite E3. done.
    + cbv zeta. destruct (malloc_ok (region_bytes (zlen (flat (u :: us))))) eqn:Em.
      * exists true. eexists. split; [reflexivity|]. by exists (u :: us).
      * exists false. eexists. split; [reflexivity|]. split; [done|]. eapply refused_at; [exact Em|].
        unfold region_bytes, sizeof_REGION16_DATA, sizeof_RECTANGLE_16. pose proof (zlen_nonneg (flat (u :: us))). lia.
Qed.
End simplify.

(** ** The invariant of a region *)

(** [e] is the smallest rectangle around the pixels [P]. *)
Definition extents_ok (P : Z -> Z -> Prop) (e : RECTANGLE_16) : Prop :=
  (forall x y, P x y -> in_rect e x y) /\
  (exists y, P (r_left e) y) /\ (exists y, P (r_right e - 1) y) /\
  (exists x, P x (r_top e)) /\ (exists x, P x (r_bottom e - 1)).

Definition pixels (rg : REGION16) (x y : Z) : Prop := in_rects (region16_rects rg) x y.

(** The array is banded, its recorded size is the allocated one (0 for the static empty
    region) and the extents fit. *)
Definition region_ok (rg : REGION16) : Prop :=
  exists d bs lo hi, data rg = Some d /\ d_rects d = flat bs /\ bands_in lo hi bs /\
    (d_size d = region_bytes (zlen (d_rects d)) \/ d = empty_region) /\
    (bs <> [] -> extents_ok (in_bands bs) (extents rg)).

Section extents.
Implicit Types P : Z -> Z -> Prop.

Lemma extents_ok_iff P1 P2 e : (forall x y, P1 x y <-> P2 x y) -> extents_ok P1 e -> extents_ok P2 e.
Proof.
  intros Hiff (H1 & [y2 H2] & [y3 H3] & [x4 H4] & [x5 H5]).
  split_and!; [intros x y Hp; by apply H1, Hiff|exists y2|exists y3|exists x4|exists x5]; by apply Hiff.
Qed.

Lemma rect_extents r : r_left r < r_right r -> r_top r < r_bottom r -> extents_ok (in_rect r) r.
Proof.
  intros Hx Hy. split_and!; [done|exists (r_top r)|exists (r_top r)|exists (r_left r)|exists (r_left r)];
    unfold in_rect; lia.
Qed.

Lemma extents_union P1 P2 e1 e2 :
  extents_ok P1 e1 -> extents_ok P2 e2 ->
  extents_ok (fun x y => P1 x y \/ P2 x y)
    (mkRect (Z.min (r_left e1) (r_left e2)) (Z.min (r_top e1) (r_top e2))
       (Z.max (r_right e1) (r_right e2)) (Z.max (r_bottom e1) (r_bottom e2))).
Proof.
  intros (H1 & [y2 H2] & [y3 H3] & [x4 H4] & [x5 H5]) (K1 & [z2 K2] & [z3 K3] & [z4 K4] & [z5 K5]).
  split_and!; cbn [r_left r_top r_right r_bottom].
  - intros x y [Hp|Hp]; [specialize (H1 x y Hp)|specialize (K1 x y Hp)]; unfold in_rect in *;
      cbn [r_left r_top r_right r_bottom]; lia.
  - destruct (decide (r_left e1 <= r_left e2)); [exists y2|exists z2];
      [rewrite Z.min_l by lia|rewrite Z.min_r by lia]; auto.
  - destruct (decide (r_right e2 <= r_right e1)); [exists y3|exists z3];
      [rewrite Z.max_l by lia|rewrite Z.max_r by lia]; auto.
  - destruct (decide (r_top e1 <= r_top e2)); [exists x4|exists z4];
      [rewrite Z.min_l by lia|rewrite Z.min_r by lia]; auto.
  - destruct (decide (r_bottom e2 <= r_bottom e1)); [exists x5|exists z5];
      [rewrite Z.max_l by lia|rewrite Z.max_r by lia]; auto.
Qed.

Lemma band_has_pixel b y : band_ok b -> b_top b <= y < b_bot b -> exists x, in_band b x y.
Proof.
  intros (Ht & Hne & Hi) Hy. destruct (b_items b) as [|[a c] l] eqn:E; [done|].
  exists a. split; [done|]. rewrite E, covered_cons. cbn in Hi. left. lia.
Qed.

Lemma last_bot_pixel b bs hi :
  band_ok b -> bands_in (b_bot b) hi bs ->
  b_top b < last_bot b bs /\ bands_in (b_bot b) (last_bot b bs) bs /\
  exists x, in_bands (b :: bs) x (last_bot b bs - 1).
Proof.
  revert b. induction bs as [|n bs IH]; intros b Hb Hbs; cbn [last_bot].
  - destruct (band_has_pixel b (b_bot b - 1) Hb) as [x Hx]; [destruct Hb; lia|].
    split_and!; [by destruct Hb|cbn; lia|]. exists x. rewrite in_bands_cons. auto.
  - cbn in Hbs. destruct Hbs as (Hlo & Hn & Hbs). destruct (IH n Hn Hbs) as (H1 & H2 & x & H3).
    destruct Hb as [Hb _]. split_and!; [lia|done|]. exists x. rewrite in_bands_cons. auto.
Qed.

(** The vertical extents are those of the first and the last band. *)
Lemma extents_vertical b bs hi e :
  band_ok b -> bands_in (b_bot b) hi bs -> extents_ok (in_bands (b :: bs)) e ->
  r_top e = b_top b /\ r_bottom e = last_bot b bs.
Proof.
  intros Hb Hbs (H1 & _ & _ & [x4 H4] & [x5 H5]).
  destruct (last_bot_pixel b bs hi Hb Hbs) as (Hl & Hin & x & Hx).
  assert (Hall : bands_in (b_top b) (last_bot b bs) (b :: bs)) by (cbn; split_and!; done || lia).
  destruct (band_has_pixel b (b_top b) Hb) as [x0 Hx0]; [destruct Hb; lia|].
  pose proof (bands_in_bounds _ _ _ _ _ Hall H4). pose proof (bands_in_bounds _ _ _ _ _ Hall H5).
  assert (Hp0 : in_bands (b :: bs) x0 (b_top b)) by (rewrite in_bands_cons; auto).
  pose proof (H1 _ _ Hp0) as [_ ?]. pose proof (H1 _ _ Hx) as [_ ?]. lia.
Qed.
End extents.

Section union_rect.
Context `{Malloc}.

Lemma flat_nil_inv lo hi bs : bands_in lo hi bs -> zlen (flat bs) = 0 -> bs = [].
Proof.
  destruct bs as [|b bs]; [done|]. intros Hbs. cbn in Hbs. destruct Hbs as (_ & (_ & Hne & _) & _).
  rewrite zlen_flat_cons. pose proof (zlen_nonneg (flat bs)). destruct (b_items b); [done|].
  rewrite zlen_cons. zlist_lia.
Qed.

Lemma region_pixels rg d bs : data rg = Some d -> d_rects d = flat bs ->
  forall x y, pixels rg x y <-> in_bands bs x y.
Proof.
  intros Hd Hr x y. unfold pixels, region16_rects. rewrite Hd, Hr. apply in_flat.
Qed.

(** The three parts of the new array: above, beside and below the source. *)
Lemma union_parts rect b bs hi :
  0 <= r_left rect < r_right rect -> r_top rect < r_bottom rect ->
  band_ok b -> bands_in (b_bot b) hi bs ->
  let above := if r_top rect <? b_top b
    then [mkRect (r_left rect) (r_top rect) (r_right rect) (Z.min (b_top b) (r_bottom rect))] else [] in
  let below := if last_bot b bs <? r_bottom rect
    then [mkRect (r_left rect) (Z.max (last_bot b bs) (r_top rect)) (r_right rect) (r_bottom rect)]
    else [] in
  exists us middle, union_loop (length (flat (b :: bs))) (flat (b :: bs)) rect = Some middle /\
    above ++ middle ++ below = flat us /\
    bands_in (Z.min (r_top rect) (b_top b)) (Z.max (r_bottom rect) (last_bot b bs)) us /\
    (forall x y, in_bands us x y <-> in_bands (b :: bs) x y \/ in_rect rect x y) /\
    zlen (flat us) <= (1 + zlen (flat (b :: bs))) * 4.
Proof.
  intros Hx Hy Hb Hbs above below.
  destruct (union_loop_spec rect (conj Hx Hy) (length (flat (b :: bs))) b bs hi Hb Hbs ltac:(lia))
    as (us & Hu & Hui & Hup & Hul).
  destruct (last_bot_pixel b bs hi Hb Hbs) as (Hl & _).
  set (va := if r_top rect <? b_top b
             then [one_band rect (r_top rect) (Z.min (b_top b) (r_bottom rect))] else []).
  set (vb := if last_bot b bs <? r_bottom rect
             then [one_band rect (Z.max (last_bot b bs) (r_top rect)) (r_bottom rect)] else []).
  assert (Hva : above = flat va /\ bands_in (Z.min (r_top rect) (b_top b)) (b_top b) va /\
    (forall x y, in_bands va x y <-> in_rect rect x y /\ y < b_top b) /\ zlen (flat va) <= 1).
  { subst above va. destruct (r_top rect <? b_top b) eqn:E.
    - split_and!; [done|cbn; split_and!; [lia|apply (one_band_ok rect (conj Hx Hy)); lia|lia]| |done].
      intros x y. rewrite in_bands_cons, in_bands_nil, in_one_band. unfold in_rect. lia.
    - split_and!; [done|cbn; lia| |done]. intros x y. rewrite in_bands_nil. unfold in_rect. lia. }
  assert (Hvb : below = flat vb /\
    bands_in (last_bot b bs) (Z.max (r_bottom rect) (last_bot b bs)) vb /\
    (forall x y, in_bands vb x y <-> in_rect rect x y /\ last_bot b bs <= y) /\ zlen (flat vb) <= 1).
  { subst below vb. destruct (last_bot b bs <? r_bottom rect) eqn:E.
    - split_and!; [done|cbn; split_and!; [lia|apply (one_band_ok rect (conj Hx Hy)); lia|lia]| |done].
      intros x y. rewrite in_bands_cons, in_bands_nil, in_one_band. unfold in_rect. lia.
    - split_and!; [done|cbn; lia| |done]. intros x y. rewrite in_bands_nil. unfold in_rect. lia. }
  destruct Hva as (-> & Hvai & Hvap & Hval). destruct Hvb as (-> & Hvbi & Hvbp & Hvbl).
  exists (va ++ us ++ vb), (flat us). rewrite !flat_app.
  split_and!; [done|done|eapply bands_in_app; [done|by eapply bands_in_app]| |rewrite !zlen_app; lia].
  intros x y. rewrite !in_bands_app, Hvap, Hvbp, Hup.
  generalize (in_bands (b :: bs) x y), (in_rect rect x y). intros P1 P2.
  destruct (decide (y < b_top b)), (decide (y < last_bot b bs)); intuition lia.
Qed.

Lemma union_rect_run dst src rect :
  region_ok src -> zlen (region16_rects src) < 2 ^ 28 -> 0 <= r_left rect < r_right rect -> r_top rect < r_bottom rect ->
  exists ok rg, region16_union_rect dst src rect = Ret (ok, rg) /\
    if ok : bool
    then region_ok rg /\ forall x y, pixels rg x y <-> pixels src x y \/ in_rect rect x y
    else refused (region_bytes ((1 + zlen (region16_rects src)) * 4)).
Proof.
  intros (d & bs & lo & hi & Hd & Hr & Hbs & Hsz & Hext) H28 Hx Hy. unfold region16_rects in H28 |- *. rewrite Hd, Hr in H28 |- *.
  pose proof (zlen_nonneg (flat bs)) as Hnn.
  assert (Href : forall k, malloc_ok (region_bytes k) = false -> 0 <= k <= (1 + zlen (flat bs)) * 4 -> refused (region_bytes ((1 + zlen (flat bs)) * 4))).
  { intros k Hk Hle. eapply refused_at; [exact Hk|]. unfold region_bytes, sizeof_REGION16_DATA, sizeof_RECTANGLE_16. lia. }
  pose proof (region_pixels src d bs Hd Hr) as Hpx.
  unfold region16_union_rect. rewrite Hd, Hr. cbv zeta.
  destruct (zlen (flat bs) =? 0) eqn:E0.
  - assert (bs = []) as -> by (eapply flat_nil_inv; [done|lia]).
    unfold allocateRegion. destruct (malloc_ok (region_bytes 1)) eqn:Em.
    + exists true. eexists. split; [reflexivity|].
      set (b := mkBand (r_top rect) (r_bottom rect) [(r_left rect, r_right rect)]).
      assert (Hone : forall x y, in_bands [b] x y <-> in_rect rect x y).
      { intros x y. rewrite in_bands_cons, in_bands_nil. unfold in_band, in_rect. cbn.
        rewrite covered_cons, covered_nil. lia. }
      split.
      * exists (mkData (region_bytes 1) [rect]), [b], (r_top rect), (r_bottom rect). cbn.
        split_and!; [done|by destruct rect|lia|split_and!; cbn; lia || done|lia|by left|].
        intros _. apply (extents_ok_iff (in_rect rect)); [by intros; rewrite Hone|].
        apply rect_extents; lia.
      * intros x y. rewrite Hpx, in_bands_nil. unfold pixels, region16_rects. cbn.
        unfold in_rects. rewrite Exists_cons, Exists_nil. tauto.
    + exists false. eexists. split; [reflexivity|]. apply (Href 1); [done|lia].
  - destruct bs as [|b bs]; [done|]. cbn in Hbs. destruct Hbs as (_ & Hb & Hbs). rewrite i32_id by lia.
    specialize (Hext ltac:(done)).
    destruct (extents_vertical b bs hi _ Hb Hbs Hext) as [-> ->].
    unfold allocateRegion at 1.
    destruct (malloc_ok (region_bytes ((1 + zlen (flat (b :: bs))) * 4))) eqn:Em1; cbn [negb];
      [|exists false; eexists; split; [reflexivity|]; apply (Href _ Em1); lia].
    destruct (union_parts rect b bs hi Hx Hy Hb Hbs) as (us & middle & -> & Hparts & Hui & Hup & Hul).
    cbv zeta in Hparts. rewrite Hparts.
    replace ((1 + zlen (flat (b :: bs))) * 4 <? zlen (flat us)) with false by lia.
    pose proof (zlen_nonneg (flat us)).
    destruct (malloc_ok (region_bytes (zlen (flat us)))) eqn:Em2;
      [|exists false; eexists; split; [reflexivity|]; apply (Href _ Em2); lia].
    match goal with |- context [mkRegion ?e _] => set (ext := e) end.
    destruct (simplify_spec ext _ us _ _ Hui eq_refl) as (ok & rg & -> & Hok).
    exists ok, rg. split; [done|]. destruct ok.
    2: { destruct Hok as [_ Hok]. eapply refused_le; [exact Hok|]. unfold region_bytes, sizeof_RECTANGLE_16. lia. }
    destruct Hok as (vs & -> & Hvi & _ & _ & Hvp). split.
    + exists (mkData (region_bytes (zlen (flat vs))) (flat vs)), vs. do 2 eexists.
      split_and!; [reflexivity|reflexivity|exact Hvi|by left|]. intros _.
      apply (extents_ok_iff (fun x y => in_rect rect x y \/ in_bands (b :: bs) x y)).
      { intros x y. rewrite Hvp, Hup. tauto. }
      destruct (extents_vertical b bs hi _ Hb Hbs Hext) as [Et Eb]. subst ext. rewrite <- Et, <- Eb.
      apply extents_union; [apply rect_extents; lia|done].
    + intros x y. rewrite Hpx, <- Hup, <- Hvp.
      by apply (region_pixels _ (mkData (region_bytes (zlen (flat vs))) (flat vs))).
Qed.
End union_rect.

(** ** Intersection on bands *)

(** The common part of a rectangle with each of a list, where there is one. *)
Fixpoint commons (rect : RECTANGLE_16) (l : list RECTANGLE_16) : list RECTANGLE_16 :=
  match l with
  | [] => []
  | r :: l' =>
      let '(hit, c) := rectangles_intersection r rect in
      if hit then c :: commons rect l' else commons rect l'
  end.

Definition grow_extents (e c : RECTANGLE_16) : RECTANGLE_16 :=
  if rectangle_is_empty e then c
  else mkRect (Z.min (r_left c) (r_left e)) (Z.min (r_top c) (r_top e))
         (Z.max (r_right c) (r_right e)) (Z.max (r_bottom c) (r_bottom e)).

Fixpoint clip_items (rect : RECTANGLE_16) (l : list (Z * Z)) : list (Z * Z) :=
  match l with
  | [] => []
  | i :: l' =>
      let a := Z.max i.1 (r_left rect) in
      let c := Z.min i.2 (r_right rect) in
      if a <? c then (a, c) :: clip_items rect l' else clip_items rect l'
  end.

Definition clip_band (rect : RECTANGLE_16) (b : band) : list band :=
  let t := Z.max (b_top b) (r_top rect) in
  let bt := Z.min (b_bot b) (r_bottom rect) in
  if (t <? bt) && negb (bool_decide (clip_items rect (b_items b) = []))
  then [mkBand t bt (clip_items rect (b_items b))] else [].

Section intersect.
Context (rect : RECTANGLE_16).

Lemma intersects_iff r1 r2 :
  rectangles_intersects r1 r2 = true <-> exists x y, in_rect r1 x y /\ in_rect r2 x y.
Proof using Type.
  unfold rectangles_intersects, rectangles_intersection, in_rect. cbn. split.
  - intros Hb. exists (Z.max (r_left r1) (r_left r2)), (Z.max (r_top r1) (r_top r2)). lia.
  - intros (x & y & ? & ?). lia.
Qed.

Lemma clip_items_ok lo l : items_ok lo l -> items_ok lo (clip_items rect l).
Proof using Type.
  revert lo. induction l as [|[a c] l IH]; intros lo; cbn; [done|]. intros (Ha & Hac & Hl).
  case_match eqn:E; [|apply (items_ok_weaken c); [lia|auto]]. cbn.
  split_and!; [lia|lia|]. apply (items_ok_weaken c); [lia|auto].
Qed.

Lemma clip_items_covered l x :
  covered (clip_items rect l) x <-> covered l x /\ r_left rect <= x < r_right rect.
Proof using Type.
  induction l as [|[a c] l IH]; cbn; [by rewrite covered_nil; tauto|]. rewrite covered_cons.
  case_match eqn:E; [rewrite covered_cons|]; rewrite IH; generalize (covered l x); intros P;
    destruct (decide (a <= x < c)), (decide (r_left rect <= x < r_right rect)); intuition lia.
Qed.

Lemma clip_band_spec b : band_ok b ->
  bands_in (b_top b) (b_bot b) (clip_band rect b) /\
  (forall x y, in_bands (clip_band rect b) x y <-> in_band b x y /\ in_rect rect x y).
Proof using Type.
  intros (Ht & Hne & Hi). unfold clip_band. pose proof (clip_items_ok 0 _ Hi) as Hci.
  destruct (_ && _) eqn:E.
  - apply andb_true_iff in E as [E1 E2]. rewrite negb_true_iff, bool_decide_eq_false in E2. split.
    + cbn. split_and!; [lia|split_and!; cbn; [lia|done|done]|lia].
    + intros x y. rewrite in_bands_cons, in_bands_nil. unfold in_band, in_rect. cbn.
      rewrite clip_items_covered. generalize (covered (b_items b) x). intros P. intuition lia.
  - split; [cbn; lia|]. intros x y. rewrite in_bands_nil. unfold in_band, in_rect.
    split; [done|]. intros [[Hy Hc] [Hx Hy']]. apply andb_false_iff in E as [E|E]; [lia|].
    rewrite negb_false_iff, bool_decide_eq_true in E.
    assert (Hcov : covered (clip_items rect (b_items b)) x) by (by apply clip_items_covered).
    rewrite E in Hcov. by apply covered_nil in Hcov.
Qed.

Lemma clip_bands_spec bs lo hi :
  bands_in lo hi bs ->
  bands_in lo hi (concat (map (clip_band rect) bs)) /\
  (forall x y, in_bands (concat (map (clip_band rect) bs)) x y <-> in_bands bs x y /\ in_rect rect x y).
Proof using Type.
  revert lo. induction bs as [|b bs IH]; intros lo Hbs.
  - split; [done|]. intros x y. cbn. rewrite in_bands_nil. tauto.
  - cbn in Hbs. destruct Hbs as (Hlo & Hb & Hbs). destruct (IH _ Hbs) as [Hi Hp].
    destruct (clip_band_spec b Hb) as [Hci Hcp]. cbn [map concat]. split.
    + eapply bands_in_app; [|exact Hi]. by apply (bands_in_weaken (b_top b) (b_bot b)).
    + intros x y. rewrite in_bands_app, in_bands_cons, Hcp, Hp. tauto.
Qed.

Lemma commons_app l k : commons rect (l ++ k) = commons rect l ++ commons rect k.
Proof using Type.
  induction l as [|r l IH]; [done|]. cbn [app commons].
  destruct (rectangles_intersection r rect) as [[] c]; cbn; by rewrite IH.
Qed.

(** The common parts of the array are the array of the clipped bands. *)
Lemma commons_flat bs : commons rect (flat bs) = flat (concat (map (clip_band rect) bs)).
Proof using Type.
  induction bs as [|b bs IH]; [done|]. cbn [map concat]. rewrite flat_cons, commons_app, flat_app, IH.
  f_equal. unfold clip_band. set (t := Z.max (b_top b) (r_top rect)).
  set (bt := Z.min (b_bot b) (r_bottom rect)).
  assert (Hc : commons rect (mk_items (b_top b) (b_bot b) (b_items b)) =
               if t <? bt then mk_items t bt (clip_items rect (b_items b)) else []).
  { induction (b_items b) as [|[a c] l IHl]; cbn; [by case_if|].
    unfold mk_items in IHl at 1. rewrite IHl. fold t bt.
    destruct (Z.max a _ <? _) eqn:E1; cbn [andb]; by destruct (t <? bt). }
  rewrite Hc. destruct (t <? bt); [|done]. cbn [andb].
  destruct (decide (clip_items rect (b_items b) = [])) as [->|Hn].
  - by rewrite bool_decide_true.
  - rewrite bool_decide_false by done. cbn [negb]. rewrite flat_cons. cbn [b_top b_bot b_items].
    change (flat []) with (@nil RECTANGLE_16). by rewrite app_nil_r.
Qed.

(** Stopping at the first rectangle below [rect] loses nothing in a sorted array. *)
Fixpoint tops_sorted (l : list RECTANGLE_16) : Prop :=
  match l with
  | r :: l' => Forall (fun r' => r_top r <= r_top r') l' /\ tops_sorted l'
  | [] => True
  end.

Lemma commons_below l :
  Forall (fun r => r_bottom rect <= r_top r) l -> commons rect l = [].
Proof using Type.
  induction l as [|r l IH]; [done|]. rewrite Forall_cons. intros [Hr Hl]. cbn.
  replace (_ && _) with false by lia. by apply IH.
Qed.

Lemma intersect_loop_run l e :
  tops_sorted l -> intersect_loop l rect e = (commons rect l, foldl grow_extents e (commons rect l)).
Proof using Type.
  revert e. induction l as [|r l IH]; intros e; [done|]. intros [Hr Hl].
  cbn [intersect_loop]. destruct (r_top r <? r_bottom rect) eqn:E.
  - cbn [commons]. destruct (rectangles_intersection r rect) as [hit c]. destruct hit; [|by apply IH].
    rewrite (IH _ Hl). done.
  - rewrite commons_below; [done|]. rewrite Forall_cons. split; [lia|].
    eapply Forall_impl; [exact Hr|]. cbn. intros; lia.
Qed.

Lemma flat_tops lo hi bs : bands_in lo hi bs -> Forall (fun r => lo <= r_top r) (flat bs).
Proof using Type.
  revert lo. induction bs as [|b bs IH]; intros lo Hbs; [constructor|].
  cbn in Hbs. destruct Hbs as (Hlo & (Ht & _) & Hbs). rewrite flat_cons, Forall_app. split.
  - unfold mk_items. rewrite Forall_map. apply Forall_true. intros i. cbn. lia.
  - eapply Forall_impl; [apply (IH _ Hbs)|]. cbn. intros; lia.
Qed.

Lemma flat_sorted lo hi bs : bands_in lo hi bs -> tops_sorted (flat bs).
Proof using Type.
  revert lo. induction bs as [|b bs IH]; intros lo Hbs; [done|].
  cbn in Hbs. destruct Hbs as (Hlo & (Ht & _) & Hbs). rewrite flat_cons.
  pose proof (flat_tops _ _ _ Hbs) as Hf. specialize (IH _ Hbs).
  induction (b_items b) as [|i l IHl]; [done|]. cbn. split; [|exact IHl].
  rewrite Forall_app. split.
  - rewrite Forall_map. apply Forall_true. intros j. cbn. lia.
  - eapply Forall_impl; [exact Hf|]. cbn. intros; lia.
Qed.

Lemma commons_nonempty l : Forall (fun c => r_left c < r_right c /\ r_top c < r_bottom c) (commons rect l).
Proof using Type.
  induction l as [|r l IH]; [constructor|]. cbn. destruct (_ && _) eqn:E; [|exact IH].
  rewrite Forall_cons. split; [cbn; lia|exact IH].
Qed.

(** Growing the extents by each rectangle of a list. *)
Lemma grow_extents_ok cs P e :
  Forall (fun c => r_left c < r_right c /\ r_top c < r_bottom c) cs -> extents_ok P e ->
  extents_ok (fun x y => P x y \/ in_rects cs x y) (foldl grow_extents e cs).
Proof using Type.
  revert P e. induction cs as [|c cs IH]; intros P e Hcs He; cbn [foldl].
  - apply (extents_ok_iff P); [|done]. intros x y. unfold in_rects. rewrite Exists_nil. tauto.
  - apply Forall_cons in Hcs as [[Hx Hy] Hcs].
    assert (Hne : rectangle_is_empty e = false).
    { destruct He as (H1 & [y2 H2] & _). apply H1 in H2. unfold in_rect in H2.
      unfold rectangle_is_empty. lia. }
    assert (Hg : extents_ok (fun x y => in_rect c x y \/ P x y) (grow_extents e c)).
    { unfold grow_extents. rewrite Hne. apply extents_union; [by apply rect_extents|done]. }
    specialize (IH _ _ Hcs Hg). revert IH. apply extents_ok_iff. intros x y. unfold in_rects.
    rewrite Exists_cons. tauto.
Qed.

Lemma intersect_extents cs :
  Forall (fun c => r_left c < r_right c /\ r_top c < r_bottom c) cs -> cs <> [] ->
  extents_ok (in_rects cs) (foldl grow_extents zero_rect cs).
Proof using Type.
  destruct cs as [|c cs]; [done|]. intros Hcs _. apply Forall_cons in Hcs as [[Hx Hy] Hcs].
  cbn [foldl]. change (grow_extents zero_rect c) with c.
  apply (extents_ok_iff (fun x y => in_rect c x y \/ in_rects cs x y)).
  { intros x y. unfold in_rects. by rewrite Exists_cons. }
  apply grow_extents_ok; [done|by apply rect_extents].
Qed.
End intersect.

Section intersect_rect.
Context `{Malloc}.

Lemma region_ok_empty : region_ok region16_init /\ forall x y, ~ pixels region16_init x y.
Proof.
  split.
  - exists empty_region, [], 0, 0. cbn. split_and!; [done|done|lia|by right|done].
  - intros x y Hp. unfold pixels, in_rects in Hp. cbn in Hp. by apply Exists_nil in Hp.
Qed.

(** The extents of a single rectangle are the rectangle. *)
Lemma extents_single r e :
  extents_ok (in_rects [r]) e -> e = r.
Proof.
  intros (H1 & [y2 H2] & [y3 H3] & [x4 H4] & [x5 H5]). unfold in_rects in *.
  rewrite Exists_cons, Exists_nil in H2, H3, H4, H5.
  assert (Hall : forall x y, in_rect r x y -> in_rect e x y).
  { intros x y Hr. apply H1. rewrite Exists_cons. auto. }
  destruct H2 as [H2|[]], H3 as [H3|[]], H4 as [H4|[]], H5 as [H5|[]]. unfold in_rect in *.
  pose proof (Hall (r_left r) (r_top r) ltac:(lia)).
  pose proof (Hall (r_right r - 1) (r_bottom r - 1) ltac:(lia)).
  destruct e, r. cbn in *. f_equal; lia.
Qed.

Lemma region_extents rg d bs :
  data rg = Some d -> d_rects d = flat bs -> (bs <> [] -> extents_ok (in_bands bs) (extents rg)) ->
  d_rects d <> [] -> extents_ok (in_rects (d_rects d)) (extents rg).
Proof.
  intros Hd Hr Hext Hne. apply (extents_ok_iff (in_bands bs)).
  - intros x y. by rewrite Hr, in_flat.
  - apply Hext. intros ->. by rewrite Hr in Hne.
Qed.

Lemma zlen_commons rect l : zlen (commons rect l) <= zlen l.
Proof. induction l as [|r l IH]; [done|]. cbn [commons]. destruct (rectangles_intersection r rect) as [[|] c]; rewrite ?zlen_cons; lia. Qed.

Lemma intersect_rect_run dst src rect :
  region_ok src -> data dst <> None ->
  exists ok rg, region16_intersect_rect dst src rect = Ret (ok, rg) /\
    if ok : bool
    then region_ok rg /\ forall x y, pixels rg x y <-> pixels src x y /\ in_rect rect x y
    else refused (region_bytes (Z.max 4 (zlen (region16_rects src)))).
Proof.
  intros (d & bs & lo & hi & Hd & Hr & Hbs & Hsz & Hext) Hdst. unfold region16_rects. rewrite Hd.
  pose proof (region_pixels src d bs Hd Hr) as Hpx.
  pose proof (region_extents src d bs Hd Hr Hext) as Hext'.
  destruct region_ok_empty as [Hok0 Hp0].
  unfold region16_intersect_rect, region16_clear. rewrite Hd. cbv zeta.
  destruct (data dst) as [dd|]; [|done].
  change (mkRegion zero_rect (Some empty_region)) with region16_init.
  destruct (zlen (d_rects d) =? 0) eqn:E0; [|destruct (zlen (d_rects d) =? 1) eqn:E1].
  - exists true. eexists. split; [reflexivity|]. split; [done|]. intros x y.
    assert (d_rects d = []) as Hnil by (apply zlen_0_nil; lia).
    unfold pixels at 2, region16_rects. rewrite Hd, Hnil. unfold in_rects. rewrite Exists_nil.
    specialize (Hp0 x y). tauto.
  - destruct (d_rects d) as [|r [|r2 l]] eqn:Er; [done| |zlist_lia].
    rewrite (extents_single r (extents src)) by (by apply Hext').
    destruct (rectangles_intersection r rect) as [hit c] eqn:Ei.
    assert (Hc : forall x y, in_rect r x y /\ in_rect rect x y <-> in_rect c x y).
    { intros x y. unfold rectangles_intersection in Ei. cbv zeta in Ei. simplify_eq.
      unfold in_rect. cbn. lia. }
    assert (Hpr : forall x y, pixels src x y <-> in_rect r x y).
    { intros x y. unfold pixels, region16_rects. rewrite Hd, Er. unfold in_rects.
      rewrite Exists_cons, Exists_nil. tauto. }
    destruct hit.
    + assert (Hcc : 0 <= r_left c < r_right c /\ r_top c < r_bottom c).
      { unfold rectangles_intersection in Ei. cbv zeta in Ei. cbn [r_left r_right r_top r_bottom] in Ei.
        assert (Hl : 0 <= r_left r).
        { destruct bs as [|b bs]; [done|]. cbn in Hbs. destruct Hbs as (_ & (_ & Hne & Hi) & _).
          rewrite flat_cons in Hr. unfold mk_items in Hr. destruct (b_items b) as [|[a k] its]; [done|].
          cbn in Hr, Hi. simplify_eq. cbn. lia. }
        simplify_eq. cbn. lia. }
      destruct (union_rect_run region16_init region16_init c Hok0 ltac:(done) (proj1 Hcc) (proj2 Hcc))
        as (ok & rg & Hu & Hok). exists ok, rg. split; [done|]. destruct ok; [|done].
      destruct Hok as [Hrg Hpp]. split; [done|]. intros x y. rewrite Hpp, Hpr, Hc.
      specialize (Hp0 x y). tauto.
    + exists true. eexists. split; [reflexivity|]. split; [done|]. intros x y.
      rewrite Hpr, Hc. specialize (Hp0 x y). split; [done|]. intros Hin. exfalso.
      unfold rectangles_intersection in Ei. cbv zeta in Ei. simplify_eq. unfold in_rect in Hin.
      cbn in *. lia.
  - unfold allocateRegion. pose proof (zlen_nonneg (d_rects d)).
    destruct (malloc_ok (region_bytes (zlen (d_rects d)))) eqn:Em1; cbn [negb];
      [|exists false; eexists; split; [reflexivity|]; eapply refused_at; [exact Em1|unfold region_bytes, sizeof_REGION16_DATA, sizeof_RECTANGLE_16; lia]].
    rewrite Hr, intersect_loop_run by (by eapply flat_sorted).
    destruct (clip_bands_spec rect bs lo hi Hbs) as [Hci Hcp].
    rewrite commons_flat. set (cs := concat (map (clip_band rect) bs)) in *.
    assert (Hcz : zlen (flat cs) <= zlen (flat bs)) by (subst cs; rewrite <- commons_flat; apply zlen_commons). pose proof (zlen_nonneg (flat cs)).
    destruct (malloc_ok (region_bytes (zlen (flat cs)))) eqn:Em2;
      [|exists false; eexists; split; [reflexivity|]; eapply refused_at; [exact Em2|unfold region_bytes, sizeof_REGION16_DATA, sizeof_RECTANGLE_16; lia]].
    destruct (simplify_spec (foldl grow_extents zero_rect (flat cs)) _ cs lo hi Hci eq_refl)
      as (ok & rg & -> & Hok).
    exists ok, rg. split; [done|]. destruct ok.
    2: { destruct Hok as [_ Hok]. eapply refused_le; [exact Hok|]. unfold region_bytes, sizeof_RECTANGLE_16. lia. }
    destruct Hok as (vs & -> & Hvi & _ & _ & Hvp). split.
    + exists (mkData (region_bytes (zlen (flat vs))) (flat vs)), vs, lo, hi.
      split_and!; [done|done|done|by left|]. intros Hvs. cbn [extents].
      apply (extents_ok_iff (in_rects (flat cs))).
      { intros x y. by rewrite in_flat, Hvp. }
      apply intersect_extents.
      * subst cs. rewrite <- commons_flat. apply commons_nonempty.
      * intros Hnil. destruct vs as [|v vs]; [done|]. cbn in Hvi. destruct Hvi as (_ & Hv & _).
        destruct (band_has_pixel v (b_top v) Hv) as [x Hx]; [destruct Hv; lia|].
        assert (Hin : in_rects (flat cs) x (b_top v)).
        { rewrite in_flat, <- Hvp, in_bands_cons. auto. }
        rewrite Hnil in Hin. by apply Exists_nil in Hin.
    + intros x y. rewrite Hpx, <- Hcp, <- Hvp.
      by apply (region_pixels _ (mkData (region_bytes (zlen (flat vs))) (flat vs))).
Qed.

Lemma intersects_any_iff l arg2 :
  tops_sorted l -> intersects_any l arg2 = true <-> exists x y, in_rects l x y /\ in_rect arg2 x y.
Proof.
  induction l as [|r l IH]; intros Hs.
  - split; [done|]. intros (x & y & Hi & _). by apply Exists_nil in Hi.
  - destruct Hs as [Hr Hs]. cbn [intersects_any]. destruct (r_top r <? r_bottom arg2) eqn:E.
    + destruct (rectangles_intersects r arg2) eqn:Ei.
      * split; [intros _|done]. apply intersects_iff in Ei as (x & y & H1 & H2).
        exists x, y. split; [|done]. unfold in_rects. rewrite Exists_cons. auto.
      * rewrite (IH Hs). split; intros (x & y & H1 & H2); exists x, y; (split; [|done]);
          unfold in_rects in *; rewrite Exists_cons in *; [auto|].
        destruct H1 as [H1|H1]; [|done]. exfalso.
        assert (rectangles_intersects r arg2 = true) by (apply intersects_iff; eauto). congruence.
    + split; [done|]. intros (x & y & H1 & H2). exfalso. unfold in_rects in H1.
      rewrite Exists_cons in H1. unfold in_rect in *. destruct H1 as [H1|H1]; [lia|].
      rewrite Exists_exists in H1. destruct H1 as (r' & Hin & Hr').
      rewrite Forall_forall in Hr. specialize (Hr r' Hin). lia.
Qed.

Lemma intersects_rect_run src arg2 :
  region_ok src ->
  region16_intersects_rect src arg2 = true <-> exists x y, pixels src x y /\ in_rect arg2 x y.
Proof.
  intros (d & bs & lo & hi & Hd & Hr & Hbs & Hsz & Hext).
  pose proof (region_extents src d bs Hd Hr Hext) as Hext'.
  unfold region16_intersects_rect, pixels, region16_rects. rewrite Hd. cbv zeta.
  destruct (zlen (d_rects d) =? 0) eqn:E0.
  { assert (d_rects d = []) as -> by (apply zlen_0_nil; lia). split; [done|].
    intros (x & y & Hi & _). by apply Exists_nil in Hi. }
  assert (Hne : d_rects d <> []) by (intros Hn; by rewrite Hn in E0). specialize (Hext' Hne).
  destruct (zlen (d_rects d) =? 1) eqn:E1.
  { destruct (d_rects d) as [|r [|r2 l]]; [done| |zlist_lia].
    rewrite (extents_single r _ Hext'), intersects_iff. unfold in_rects.
    split; intros (x & y & H1 & H2); exists x, y; rewrite ?Exists_cons, ?Exists_nil in *; tauto. }
  destruct (rectangles_intersects (extents src) arg2) eqn:Ee; cbn [negb].
  - apply intersects_any_iff. rewrite Hr. by eapply flat_sorted.
  - split; [done|]. intros (x & y & H1 & H2). exfalso.
    assert (rectangles_intersects (extents src) arg2 = true).
    { apply intersects_iff. exists x, y. split; [|done]. by apply Hext'. }
    congruence.
Qed.
End intersect_rect.

(** Adding rectangles one after the other, stopping at the first failure. *)
Fixpoint union_all `{Malloc} (rg : REGION16) (rects : list RECTANGLE_16) : outcome (bool * REGION16) :=
  match rects with
  | [] => Ret (true, rg)
  | r :: rects' =>
      match region16_union_rect rg rg r with
      | Ret (true, rg') => union_all rg' rects'
      | other => other
      end
  end.

(** While rectangles are added there are fewer than 2^28 of them. *)
Fixpoint few_rects `{Malloc} (rg : REGION16) (rects : list RECTANGLE_16) : Prop :=
  match rects with
  | [] => True
  | r :: rects' =>
      zlen (region16_rects rg) < 2 ^ 28 /\
      match region16_union_rect rg rg r with Ret (true, rg') => few_rects rg' rects' | _ => True end
  end.

Lemma union_all_run `{Malloc} rects rg :
  region_ok rg -> few_rects rg rects ->
  Forall (fun r => 0 <= r_left r < r_right r /\ r_top r < r_bottom r) rects ->
  exists ok rg', union_all rg rects = Ret (ok, rg') /\
    if ok : bool
    then region_ok rg' /\ forall x y, pixels rg' x y <-> pixels rg x y \/ in_rects rects x y
    else refused (region_bytes (2 ^ 30)).
Proof.
  revert rg. induction rects as [|r rects IH]; intros rg Hrg Hfew Hrs; cbn [union_all].
  - exists true, rg. split; [done|]. split; [done|]. intros x y. unfold in_rects at 1.
    rewrite Exists_nil. tauto.
  - apply Forall_cons in Hrs as [[Hx Hy] Hrs]. cbn [few_rects] in Hfew. destruct Hfew as [H28 Hfew].
    destruct (union_rect_run rg rg r Hrg H28 Hx Hy) as (ok & rg1 & E & Hok). rewrite E in Hfew |- *. destruct ok.
    2: { exists false, rg1. split; [done|]. eapply refused_le; [exact Hok|]. unfold region_bytes, sizeof_RECTANGLE_16. lia. }
    destruct Hok as [Hrg1 Hp1]. destruct (IH rg1 Hrg1 Hfew Hrs) as (ok & rg2 & -> & Hok).
    exists ok, rg2. split; [done|]. destruct ok; [|done]. destruct Hok as [Hrg2 Hp2].
    split; [done|]. intros x y. rewrite Hp2, Hp1. unfold in_rects. rewrite Exists_cons. tauto.
Qed.

(** ** Properties *)



(** Adding any sequence of rectangles to an empty region yields, unless memory runs out, a
    well-formed region whose pixels are exactly those of the rectangles, whatever the order
    and the overlaps. *)
Theorem region_union_sequence `{Malloc} (rects : list RECTANGLE_16) :
  Forall (fun r => 0 <= r_left r /\ rectangle_is_empty r = false) rects -> few_rects region16_init rects ->
  exists ok rg, union_all region16_init rects = Ret (ok, rg) /\
    if ok : bool
    then region_ok rg /\ forall x y, pixels rg x y <-> in_rects rects x y
    else refused (region_bytes (2 ^ 30)).
Proof.
  intros Hrs Hfew. destruct region_ok_empty as [H0 Hp0].
  destruct (union_all_run rects region16_init H0 Hfew) as (ok & rg & Hu & Hok).
  - eapply Forall_impl; [exact Hrs|]. intros r [? He]. unfold rectangle_is_empty in He. lia.
  - exists ok, rg. split; [done|]. destruct ok; [|done]. destruct Hok as [Hrg Hp]. split; [done|].
    intros x y. rewrite Hp. specialize (Hp0 x y). tauto.
Qed.

Lemma region_union_sequence_witness :
  exists rg, @union_all malloc_all region16_init [mkRect 0 0 10 10; mkRect 5 5 15 15] = Ret (true, rg) /\
    region16_rects rg = [mkRect 0 0 10 5; mkRect 0 5 15 10; mkRect 5 10 15 15] /\ region_ok rg.
Proof.
  assert (Hf : Forall (fun r => 0 <= r_left r /\ rectangle_is_empty r = false)
                 [mkRect 0 0 10 10; mkRect 5 5 15 15])
    by (repeat constructor; cbn; lia).
  destruct (@region_union_sequence malloc_all _ Hf ltac:(vm_compute; done)) as (ok & rg & Hu & Hok).
  exists rg. pose proof Hu as Hv. vm_compute in Hv. destruct ok; [|discriminate].
  split; [exact Hu|]. split; [|exact (proj1 Hok)]. injection Hv as <-. reflexivity.
Defined.



(** [region16_intersects_rect] decides whether a well-formed region and a rectangle have a
    pixel in common; in particular the early exits on the extents and on the first band below
    the rectangle are right. *)
Theorem region_intersects_decides (src : REGION16) (rect : RECTANGLE_16) :
  region_ok src ->
  region16_intersects_rect src rect = true <-> exists x y, pixels src x y /\ in_rect rect x y.
Proof. apply intersects_rect_run. Qed.

Lemma region_intersects_decides_witness :
  region_ok region16_init /\
  ~ exists x y, pixels region16_init x y /\ in_rect (mkRect 0 0 5 5) x y.
Proof.
  split; [apply region_ok_empty|]. intros He.
  apply (region_intersects_decides region16_init (mkRect 0 0 5 5) (proj1 region_ok_empty)) in He.
  discriminate.
Defined.

(** [region16_simplify_bands] terminates on every banded array; it keeps the pixels, leaves
    no two neighbouring bands that touch and have the same items, and never uses more
    rectangles than before. *)
Theorem region_simplify_canonical `{Malloc} (ext : RECTANGLE_16) (bs : list band) (lo hi : Z) :
  bands_in lo hi bs ->
  exists ok rg,
    region16_simplify_bands (mkRegion ext (Some (mkData (region_bytes (zlen (flat bs))) (flat bs)))) =
      Ret (ok, rg) /\
    if ok : bool
    then exists us, region16_rects rg = flat us /\ bands_in lo hi us /\ maximal us /\
           zlen (flat us) <= zlen (flat bs) /\ forall x y, in_bands us x y <-> in_bands bs x y
    else refused (region_bytes (zlen (flat bs))).
Proof.
  intros Hbs. destruct (simplify_spec ext _ bs lo hi Hbs eq_refl) as (ok & rg & Hs & Hok).
  exists ok, rg. split; [done|]. destruct ok; [|by destruct Hok].
  destruct Hok as (us & -> & Hi & Hm & Hl & Hp). by exists us.
Qed.

Lemma region_simplify_canonical_witness :
  exists ok rg, @region16_simplify_bands malloc_all (mkRegion zero_rect
      (Some (mkData 32 [mkRect 0 0 4 2; mkRect 0 2 4 5]))) = Ret (ok, rg) /\
    region16_rects rg = [mkRect 0 0 4 5].
Proof.
  assert (Hb : bands_in 0 5 [mkBand 0 2 [(0, 4)]; mkBand 2 5 [(0, 4)]])
    by (cbn; unfold band_ok; cbn; split_and!; done || lia).
  destruct (@region_simplify_canonical malloc_all zero_rect _ 0 5 Hb) as (ok & rg & Hs & _).
  exists ok, rg. split; [exact Hs|]. vm_compute in Hs. injection Hs as _ <-. reflexivity.
Defined.

(** Copying a well-formed region gives a well-formed region with the same extents and
    pixels, or fails for want of memory; clearing gives the empty region; [region16_is_empty]
    tells whether there is a pixel. *)
Theorem region_copy_clear `{Malloc} (dst src : REGION16) :
  region_ok src -> data dst <> None ->
  (exists ok rg, region16_copy dst src = Ret (ok, rg) /\ extents rg = extents src /\
     if ok : bool then region_ok rg /\ region16_rects rg = region16_rects src
     else malloc_ok (region_bytes (zlen (region16_rects src))) = false) /\
  region16_clear dst = Ret region16_init /\
  (exists e, region16_is_empty src = Ret e /\ (e = true <-> forall x y, ~ pixels src x y)).
Proof.
  intros (d & bs & lo & hi & Hd & Hr & Hbs & Hsz & Hext) Hdst.
  unfold region16_copy, region16_clear, region16_is_empty. rewrite Hd.
  destruct (data dst) as [dd|]; [|done]. split_and!; [|done|].
  - destruct (d_size d =? 0) eqn:E0.
    + exists true. eexists. split; [reflexivity|]. split; [done|].
      assert (Hnil : d_rects d = []).
      { destruct Hsz as [Hz| ->]; [|done]. unfold region_bytes, sizeof_REGION16_DATA,
          sizeof_RECTANGLE_16 in Hz. pose proof (zlen_nonneg (d_rects d)). lia. }
      unfold region16_rects. rewrite Hd, Hnil. split; [|done].
      exists empty_region, [], 0, 0. cbn. split_and!; [done|done|lia|by right|done].
    + unfold allocateRegion. destruct (malloc_ok _) eqn:Em.
      * destruct Hsz as [Hz| ->]; [|done]. rewrite Hz, Z.leb_refl.
        exists true. eexists. split; [reflexivity|]. split; [done|].
        unfold region16_rects. rewrite Hd. split; [|done]. exists d, bs, lo, hi.
        split_and!; [done|done|done|by left|done].
      * exists false. eexists. split; [reflexivity|]. split; [done|]. unfold region16_rects. by rewrite Hd.
  - exists (zlen (d_rects d) =? 0). split; [done|]. unfold pixels, region16_rects. rewrite Hd.
    destruct (zlen (d_rects d) =? 0) eqn:E0.
    + assert (d_rects d = []) as -> by (apply zlen_0_nil; lia). split; [|done]. intros _ x y Hp.
      by apply Exists_nil in Hp.
    + split; [done|]. intros Hno. exfalso. destruct bs as [|b bs]; [by rewrite Hr in E0|].
      cbn in Hbs. destruct Hbs as (_ & Hb & _).
      destruct (band_has_pixel b (b_top b) Hb) as [x Hx]; [destruct Hb; lia|].
      apply (Hno x (b_top b)). rewrite Hr, in_flat, in_bands_cons. auto.
Qed.

Lemma region_copy_clear_witness :
  region_ok region16_init /\ region16_clear region16_init = Ret region16_init.
Proof.
  split; [apply region_ok_empty|].
  apply (@region_copy_clear malloc_all region16_init region16_init);
    [apply region_ok_empty|discriminate].
Defined.

(** The header comment of region.c promises that no two rectangles within a band touch; a
    union with a rectangle that ends where an item starts leaves two touching rectangles,
    although the same two rectangles added in the other order are merged. *)
Theorem region_union_touching :
  exists rg1 rg2,
    @union_all malloc_all region16_init [mkRect 10 0 20 5; mkRect 0 0 10 5] = Ret (true, rg1) /\
    region16_rects rg1 = [mkRect 0 0 10 5; mkRect 10 0 20 5] /\
    @union_all malloc_all region16_init [mkRect 0 0 10 5; mkRect 10 0 20 5] = Ret (true, rg2) /\
    region16_rects rg2 = [mkRect 0 0 20 5].
Proof.
  do 2 eexists. split; [vm_compute; reflexivity|]. split; [reflexivity|].
  split; [vm_compute; reflexivity|]. reflexivity.
Qed.
