(* ===== verification/Base64.v ===== *)
(** * Base64: [libfreerdp/crypto/base64.c]

    Encoder and decoder for the standard and the URL alphabet, with and without padding and
    line breaks.  Strings are lists of character codes without the terminating NUL; [char] is
    signed, as on x86.  A store outside of the buffer that was allocated and a load outside
    of the input are [Abort]. *)

From S2P Require Import Prelude Memory Stream.

Definition enc_base64 : list Z :=
  [
   65; 66; 67; 68; 69; 70; 71; 72; 73; 74; 75; 76; 77; 78; 79; 80;
   81; 82; 83; 84; 85; 86; 87; 88; 89; 90; 97; 98; 99; 100; 101; 102;
   103; 104; 105; 106; 107; 108; 109; 110; 111; 112; 113; 114; 115; 116; 117; 118;
   119; 120; 121; 122; 48; 49; 50; 51; 52; 53; 54; 55; 56; 57; 43; 47
  ].

Definition enc_base64url : list Z :=
  [
   65; 66; 67; 68; 69; 70; 71; 72; 73; 74; 75; 76; 77; 78; 79; 80;
   81; 82; 83; 84; 85; 86; 87; 88; 89; 90; 97; 98; 99; 100; 101; 102;
   103; 104; 105; 106; 107; 108; 109; 110; 111; 112; 113; 114; 115; 116; 117; 118;
   119; 120; 121; 122; 48; 49; 50; 51; 52; 53; 54; 55; 56; 57; 45; 95
  ].

Definition dec_base64url : list Z :=
  [
   (-1); (-1); (-1); (-1); (-1); (-1); (-1); (-1); (-1); (-1); (-1); (-1); (-1); (-1); (-1); (-1);
   (-1); (-1); (-1); (-1); (-1); (-1); (-1); (-1); (-1); (-1); (-1); (-1); (-1); (-1); (-1); (-1);
   (-1); (-1); (-1); (-1); (-1); (-1); (-1); (-1); (-1); (-1); (-1); (-1); (-1); 62; (-1); (-1);
   52; 53; 54; 55; 56; 57; 58; 59; 60; 61; (-1); (-1); (-1); (-1); (-1); (-1);
   (-1); 0; 1; 2; 3; 4; 5; 6; 7; 8; 9; 10; 11; 12; 13; 14;
   15; 16; 17; 18; 19; 20; 21; 22; 23; 24; 25; (-1); (-1); (-1); (-1); 63;
   (-1); 26; 27; 28; 29; 30; 31; 32; 33; 34; 35; 36; 37; 38; 39; 40;
   41; 42; 43; 44; 45; 46; 47; 48; 49; 50; 51; (-1); (-1); (-1); (-1); (-1)
  ].

Definition dec_base64 : list Z :=
  [
   (-1); (-1); (-1); (-1); (-1); (-1); (-1); (-1); (-1); (-1); (-1); (-1); (-1); (-1); (-1); (-1);
   (-1); (-1); (-1); (-1); (-1); (-1); (-1); (-1); (-1); (-1); (-1); (-1); (-1); (-1); (-1); (-1);
   (-1); (-1); (-1); (-1); (-1); (-1); (-1); (-1); (-1); (-1); (-1); 62; (-1); (-1); (-1); 63;
   52; 53; 54; 55; 56; 57; 58; 59; 60; 61; (-1); (-1); (-1); (-1); (-1); (-1);
   (-1); 0; 1; 2; 3; 4; 5; 6; 7; 8; 9; 10; 11; 12; 13; 14;
   15; 16; 17; 18; 19; 20; 21; 22; 23; 24; 25; (-1); (-1); (-1); (-1); (-1);
   (-1); 26; 27; 28; 29; 30; 31; 32; 33; 34; 35; 36; 37; 38; 39; 40;
   41; 42; 43; 44; 45; 46; 47; 48; 49; 50; 51; (-1); (-1); (-1); (-1); (-1)
  ].

(** ** Encoder *)

Definition CR : Z := 13.
Definition LF : Z := 10.
Definition PAD : Z := 61.

(** The characters of a 24-bit group. *)
Definition enc_c1 (alphabet : list Z) (c : Z) : Z := znth alphabet (Z.shiftr (Z.land c 16515072) 18).
Definition enc_c2 (alphabet : list Z) (c : Z) : Z := znth alphabet (Z.shiftr (Z.land c 258048) 12).
Definition enc_c3 (alphabet : list Z) (c : Z) : Z := znth alphabet (Z.shiftr (Z.land c 4032) 6).
Definition enc_c4 (alphabet : list Z) (c : Z) : Z := znth alphabet (Z.land c 63).

(** The complete blocks of three bytes. *)
Fixpoint encode_blocks (alphabet : list Z) (crLf : bool) (lineSize : Z) (q : list Z)
    (outCounter : Z) : list Z :=
  match q with
  | q0 :: q1 :: q2 :: q' =>
      let c := Z.shiftl q0 16 + Z.shiftl q1 8 + q2 in
      let outCounter' := u64 (outCounter + 4) in
      [enc_c1 alphabet c; enc_c2 alphabet c; enc_c3 alphabet c; enc_c4 alphabet c] ++
      (if crLf && (outCounter' mod lineSize =? 0) then [CR; LF] else []) ++
      encode_blocks alphabet crLf lineSize q' outCounter'
  | _ => []
  end.

(** The last one or two bytes. *)
Definition encode_rest (alphabet : list Z) (pad : bool) (q : list Z) : list Z :=
  match q with
  | [q0] =>
      let c := Z.shiftl q0 16 in
      [enc_c1 alphabet c; enc_c2 alphabet c] ++ if pad then [PAD; PAD] else []
  | [q0; q1] =>
      let c := Z.shiftl q0 16 + Z.shiftl q1 8 in
      [enc_c1 alphabet c; enc_c2 alphabet c; enc_c3 alphabet c] ++ if pad then [PAD] else []
  | _ => []
  end.

(** [length] is the number of bytes in [data]; [blocks] is an [int], [i] steps by three while
    it is below [blocks], and the remainder is read where the loop left [q]. *)
Definition base64_encode_ex `{Malloc} (alphabet data : list Z) (pad crLf : bool) (lineSize : Z)
  : outcome (option (list Z)) :=
  let length := zlen data in
  let outLen := u64 ((length + 3) * 4) / 3 in
  let extra := if crLf then (outLen + lineSize - 1) / lineSize * 2 else 0 in
  if negb (malloc_ok (outLen + extra + 1)) then Ret None
  else
    let blocks := i32 (length - length mod 3) in
    let q := 3 * ((Z.max 0 blocks + 2) / 3) in
    let out :=
      encode_blocks alphabet crLf lineSize (ztake q data) 0 ++
      encode_rest alphabet pad (ztake (length mod 3) (zdrop q data)) ++
      (if crLf && negb (length mod 3 =? 0) then [CR; LF] else []) in
    if outLen + extra + 1 <? zlen out + 1 then Abort else Ret (Some out).

Definition base64_encode `{Malloc} (alphabet data : list Z) (pad : bool)
  : outcome (option (list Z)) :=
  base64_encode_ex alphabet data pad false 64.

(** ** Decoder *)

(** The characters are signed, so a positive one is at most 127, inside of the table of 128. *)
Definition base64_decode_char (alphabet : list Z) (c : Z) : Z :=
  if c <=? 0 then -1 else znth alphabet c.

Definition dec_q0 (n0 n1 : Z) : Z := u8 (Z.shiftl n0 2 + Z.shiftr n1 4).
Definition dec_q1 (n1 n2 : Z) : Z := u8 (Z.shiftl (Z.land n1 15) 4 + Z.shiftr n2 2).
Definition dec_q2 (n2 n3 : Z) : Z := u8 (Z.shiftl (Z.land n2 3) 6 + n3).

(** [for (i = 0; i < nBlocks - 1; i++)]: the bytes stored and the rest of the input; [None]
    is [goto out_free]. *)
Fixpoint decode_blocks (alphabet : list Z) (n : nat) (s : list Z)
  : outcome (option (list Z * list Z)) :=
  match n with
  | O => Ret (Some ([], s))
  | S n' =>
      match s with
      | s0 :: s1 :: s2 :: s3 :: s' =>
          let n0 := base64_decode_char alphabet s0 in
          let n1 := base64_decode_char alphabet s1 in
          let n2 := base64_decode_char alphabet s2 in
          let n3 := base64_decode_char alphabet s3 in
          if (n0 =? -1) || (n1 =? -1) || (n2 =? -1) || (n3 =? -1) then Ret None
          else
            match decode_blocks alphabet n' s' with
            | Ret (Some (out, rest)) =>
                Ret (Some ([dec_q0 n0 n1; dec_q1 n1 n2; dec_q2 n2 n3] ++ out, rest))
            | other => other
            end
      | _ => Abort
      end
  end.

(** [skip ? -1 : base64_decode_char (alphabet, *s++)] *)
Definition fetch (alphabet : list Z) (skip : bool) (s : list Z) : outcome (Z * list Z) :=
  if skip then Ret (-1, s)
  else match s with c :: s' => Ret (base64_decode_char alphabet c, s') | [] => Abort end.

Definition decode_last (alphabet : list Z) (remainder : Z) (s : list Z) : outcome (option (list Z)) :=
  match s with
  | s0 :: s1 :: s' =>
      let n0 := base64_decode_char alphabet s0 in
      let n1 := base64_decode_char alphabet s1 in
      if (n0 =? -1) || (n1 =? -1) then Ret None
      else
        match fetch alphabet (remainder =? 2) s' with
        | Ret (n2, s'') =>
            match fetch alphabet (2 <=? remainder) s'' with
            | Ret (n3, _) =>
                if n2 =? -1 then
                  if negb (n3 =? -1) then Ret None else Ret (Some [dec_q0 n0 n1])
                else if n3 =? -1 then Ret (Some [dec_q0 n0 n1; dec_q1 n1 n2])
                else Ret (Some [dec_q0 n0 n1; dec_q1 n1 n2; dec_q2 n2 n3])
            | _ => Abort
            end
        | _ => Abort
        end
  | _ => Abort
  end.

Definition base64_decode `{Malloc} (alphabet s : list Z) (length : Z) (pad : bool)
  : outcome (option (list Z)) :=
  let remainder := length mod 4 in
  if (pad && (0 <? remainder)) || (remainder =? 1) then Ret None
  else
    let length' := if negb pad && negb (remainder =? 0) then u64 (length + (4 - remainder)) else length in
    if negb (malloc_ok (length' / 4 * 3 + 1)) then Ret None
    else
      let nBlocks := length' / 4 in
      if nBlocks <? 1 then Ret None
      else
        match decode_blocks alphabet (Z.to_nat (nBlocks - 1)) s with
        | Ret (Some (out, rest)) =>
            match decode_last alphabet remainder rest with
            | Ret (Some last) =>
                (* up to three bytes of the last block and the NUL are stored *)
                if length' / 4 * 3 + 1 <? Z.max (zlen out + 3) (zlen (out ++ last) + 1) then Abort
                else Ret (Some (out ++ last))
            | other => other
            end
        | Ret None => Ret None
        | Abort => Abort
        | Hang => Hang
        end.

(** ** Entry points *)

Definition crypto_base64_encode_ex `{Malloc} (data : list Z) (withCrLf : bool) :=
  base64_encode_ex enc_base64 data true withCrLf 64.
Definition crypto_base64_encode `{Malloc} (data : list Z) := base64_encode enc_base64 data true.
Definition crypto_base64_decode `{Malloc} (enc_data : list Z) (length : Z) :=
  base64_decode dec_base64 enc_data length true.
Definition crypto_base64url_encode `{Malloc} (data : list Z) := base64_encode enc_base64url data false.
Definition crypto_base64url_decode `{Malloc} (enc_data : list Z) (length : Z) :=
  base64_decode dec_base64url enc_data length false.

(** ** Digits

    An alphabet and its table fit when the table maps each character back to its value and
    the padding to -1. *)
Class Alphabet (enc dec : list Z) : Prop := {
  alpha_back : forall i, 0 <= i < 64 ->
    base64_decode_char dec (znth enc i) = i /\ 0 < znth enc i < 128;
  alpha_pad : base64_decode_char dec PAD = -1
}.

Lemma alphabet_by_check enc dec :
  forallb (fun i => (base64_decode_char dec (znth enc i) =? i) && (0 <? znth enc i) &&
                    (znth enc i <? 128)) (seqZ 0 64) = true ->
  base64_decode_char dec PAD = -1 -> Alphabet enc dec.
Proof.
  intros H1 H2. split; [|done]. intros i Hi.
  pose proof (range_forall _ 64 i Hi H1) as E. cbv beta in E. lia.
Qed.

#[export] Instance base64_alphabet : Alphabet enc_base64 dec_base64.
Proof. by apply alphabet_by_check; vm_compute. Qed.

#[export] Instance base64url_alphabet : Alphabet enc_base64url dec_base64url.
Proof. by apply alphabet_by_check; vm_compute. Qed.

Section digits.
(** The four digits of a group and the bytes they stand for. *)
Lemma group_values b0 b1 b2 :
  is_byte b0 -> is_byte b1 -> is_byte b2 ->
  let c := Z.shiftl b0 16 + Z.shiftl b1 8 + b2 in
  Z.shiftr (Z.land c 16515072) 18 = b0 / 4 /\
  Z.shiftr (Z.land c 258048) 12 = b0 mod 4 * 16 + b1 / 16 /\
  Z.shiftr (Z.land c 4032) 6 = b1 mod 16 * 4 + b2 / 64 /\
  Z.land c 63 = b2 mod 64.
Proof.
  intros H0 H1 H2 c. unfold is_byte in *.
  assert (Hc : c = b0 * 65536 + b1 * 256 + b2) by (unfold c; rewrite !shiftl_mul by lia; lia).
  assert (Hf : forall k, 0 <= k -> Z.shiftr (Z.land c (Z.shiftl 63 k)) k = c / 2 ^ k mod 64).
  { intros k Hk. rewrite Z.shiftr_land, Z.shiftr_shiftl_l by lia. rewrite Z.sub_diag.
    change (Z.shiftl 63 0) with (2 ^ 6 - 1). rewrite land_mask, shiftr_div by lia. done. }
  pose proof (Hf 18 ltac:(lia)) as E18. pose proof (Hf 12 ltac:(lia)) as E12.
  pose proof (Hf 6 ltac:(lia)) as E6.
  change (Z.shiftl 63 18) with 16515072 in E18. change (Z.shiftl 63 12) with 258048 in E12.
  change (Z.shiftl 63 6) with 4032 in E6. change 63 with (2 ^ 6 - 1). rewrite land_mask by lia.
  rewrite E18, E12, E6, Hc. change (2 ^ 18) with 262144. change (2 ^ 12) with 4096.
  change (2 ^ 6) with 64. split_and!; Z.div_mod_to_equations; lia.
Qed.

Lemma group_bytes b0 b1 b2 :
  is_byte b0 -> is_byte b1 -> is_byte b2 ->
  dec_q0 (b0 / 4) (b0 mod 4 * 16 + b1 / 16) = b0 /\
  dec_q1 (b0 mod 4 * 16 + b1 / 16) (b1 mod 16 * 4 + b2 / 64) = b1 /\
  dec_q2 (b1 mod 16 * 4 + b2 / 64) (b2 mod 64) = b2.
Proof.
  unfold is_byte, dec_q0, dec_q1, dec_q2. intros H0 H1 H2.
  rewrite !shiftl_mul, !shiftr_div by lia. change 15 with (2 ^ 4 - 1). change 3 with (2 ^ 2 - 1).
  rewrite !land_mask by lia. change (2 ^ 2) with 4. change (2 ^ 4) with 16. change (2 ^ 6) with 64.
  split_and!; rewrite u8_id; unfold is_byte; Z.div_mod_to_equations; lia.
Qed.
End digits.

(** ** Round trip *)

Section encoding.
Context (enc dec : list Z) `{Halpha : !Alphabet enc dec}.

(** The characters of a group decode to its bytes. *)
Lemma group_digits b0 b1 b2 :
  is_byte b0 -> is_byte b1 -> is_byte b2 ->
  let c := Z.shiftl b0 16 + Z.shiftl b1 8 + b2 in
  base64_decode_char dec (enc_c1 enc c) = b0 / 4 /\
  base64_decode_char dec (enc_c2 enc c) = b0 mod 4 * 16 + b1 / 16 /\
  base64_decode_char dec (enc_c3 enc c) = b1 mod 16 * 4 + b2 / 64 /\
  base64_decode_char dec (enc_c4 enc c) = b2 mod 64.
Proof.
  intros H0 H1 H2 c. unfold enc_c1, enc_c2, enc_c3, enc_c4.
  destruct (group_values b0 b1 b2 H0 H1 H2) as (E1 & E2 & E3 & E4). fold c in E1, E2, E3, E4.
  rewrite E1, E2, E3, E4. unfold is_byte in *.
  split_and!; apply alpha_back; Z.div_mod_to_equations; lia.
Qed.

(** Complete groups: three bytes at a time. *)
Lemma triples_ind (P : list Z -> Prop) :
  P [] -> (forall b0 b1 b2 q, zlen q mod 3 = 0 -> P q -> P (b0 :: b1 :: b2 :: q)) ->
  forall q, zlen q mod 3 = 0 -> P q.
Proof.
  intros Hnil Hcons q. induction q as [q IH] using (well_founded_induction (well_founded_ltof _ length)).
  unfold ltof in IH. intros Hq. destruct q as [|b0 [|b1 [|b2 q]]]; [done|by cbv in Hq..|].
  autorewrite with zlist in Hq.
  assert (zlen q mod 3 = 0) by (Z.div_mod_to_equations; lia).
  apply Hcons; [done|]. apply IH; [cbn; lia|done].
Qed.

Lemma encode_blocks_app crLf lineSize q l oc :
  zlen q mod 3 = 0 -> 0 <= oc -> oc + 4 * (zlen q / 3) < 2 ^ 64 ->
  encode_blocks enc crLf lineSize (q ++ l) oc =
  encode_blocks enc crLf lineSize q oc ++ encode_blocks enc crLf lineSize l (oc + 4 * (zlen q / 3)).
Proof.
  intros Hq. revert oc. pattern q. revert q Hq. apply triples_ind; cbv beta.
  - intros oc Ho Hb. cbn [app encode_blocks]. f_equal. change (zlen (@nil Z) / 3) with 0. lia.
  - intros b0 b1 b2 q Hq IH oc Ho Hb. autorewrite with zlist in *. pose proof (zlen_nonneg q).
    assert (E : (1 + (1 + (1 + zlen q))) / 3 = 1 + zlen q / 3) by (Z.div_mod_to_equations; lia).
    rewrite E in *. pose proof (Z.div_pos (zlen q) 3).
    cbn [app encode_blocks]. rewrite u64_id by lia. rewrite IH by lia.
    do 4 f_equal. rewrite <- app_assoc. do 3 f_equal. lia.
Qed.

Lemma dec_ok n : 0 <= n -> (n =? -1) = false.
Proof. lia. Qed.

Lemma decode_blocks_encode lineSize q tail :
  zlen q mod 3 = 0 -> Forall is_byte q -> forall oc,
  decode_blocks dec (Z.to_nat (zlen q / 3)) (encode_blocks enc false lineSize q oc ++ tail) =
  Ret (Some (q, tail)).
Proof.
  intros Hq. pattern q. revert q Hq. apply triples_ind; cbv beta; [done|].
  intros b0 b1 b2 q Hq IH Hb oc. apply Forall_cons in Hb as [H0 Hb].
  apply Forall_cons in Hb as [H1 Hb]. apply Forall_cons in Hb as [H2 Hb].
  autorewrite with zlist. pose proof (zlen_nonneg q). pose proof (Z.div_pos (zlen q) 3).
  assert ((1 + (1 + (1 + zlen q))) / 3 = 1 + zlen q / 3) as -> by (Z.div_mod_to_equations; lia).
  replace (Z.to_nat (1 + zlen q / 3)) with (S (Z.to_nat (zlen q / 3))) by lia.
  cbn [encode_blocks andb app decode_blocks].
  destruct (group_digits b0 b1 b2 H0 H1 H2) as (-> & -> & -> & ->).
  destruct (group_bytes b0 b1 b2 H0 H1 H2) as (-> & -> & ->). unfold is_byte in *.
  rewrite !dec_ok by (Z.div_mod_to_equations; lia). cbn [orb]. by rewrite IH.
Qed.

Local Ltac eval_remainder :=
  match goal with
  | |- context [zlen ?l mod 4] =>
      let v := eval lazy in (zlen l mod 4) in change (zlen l mod 4) with v
  end; cbn [Z.eqb Z.leb Z.compare Pos.compare Pos.compare_cont Pos.eqb].

(** Evaluate [decode_last] on characters whose digits the context gives. *)
Local Ltac run_last :=
  unfold decode_last, fetch; unfold is_byte in *;
  do 3 (cbn -[base64_decode_char Z.shiftl Z.div Z.modulo];
        repeat match goal with H : base64_decode_char dec _ = _ |- _ => rewrite H end;
        rewrite ?alpha_pad, ?dec_ok by (Z.div_mod_to_equations; lia));
  repeat match goal with H : _ = _ |- _ => rewrite H end; reflexivity.

(** The last group, full or not. *)
Definition last_group (pad : bool) (l : list Z) : list Z :=
  encode_blocks enc false 64 l 0 ++ encode_rest enc pad l.

Lemma decode_last_group pad l :
  1 <= zlen l <= 3 -> Forall is_byte l ->
  decode_last dec (zlen (last_group pad l) mod 4) (last_group pad l) = Ret (Some l).
Proof.
  intros Hl Hb. unfold last_group. assert (H0 : is_byte 0) by (unfold is_byte; lia).
  destruct l as [|b0 [|b1 [|b2 [|b3 l]]]]; autorewrite with zlist in Hl;
    [lia| | | |pose proof (zlen_nonneg l); lia];
    repeat (apply Forall_cons in Hb as [? Hb]); cbn [encode_blocks encode_rest app andb].
  - replace (Z.shiftl b0 16) with (Z.shiftl b0 16 + Z.shiftl 0 8 + 0) by (rewrite Z.shiftl_0_l; lia).
    destruct (group_digits b0 0 0) as (? & ? & ? & ?); [done..|].
    destruct (group_bytes b0 0 0) as (? & ? & ?); [done..|].
    destruct pad; cbn [app]; eval_remainder; run_last.
  - replace (Z.shiftl b0 16 + Z.shiftl b1 8) with (Z.shiftl b0 16 + Z.shiftl b1 8 + 0) by lia.
    destruct (group_digits b0 b1 0) as (? & ? & ? & ?); [done..|].
    destruct (group_bytes b0 b1 0) as (? & ? & ?); [done..|].
    destruct pad; cbn [app]; eval_remainder; run_last.
  - destruct (group_digits b0 b1 b2) as (? & ? & ? & ?); [done..|].
    destruct (group_bytes b0 b1 b2) as (? & ? & ?); [done..|]. eval_remainder. run_last.
Qed.

(** *** What the encoder produces *)
Context `{HM : Malloc} (Hmem : forall n, n <= 2 ^ 32 -> malloc_ok n = true).

Lemma zlen_encode_blocks crLf q oc :
  zlen q mod 3 = 0 -> 0 <= oc -> oc mod 4 = 0 -> oc + 4 * (zlen q / 3) < 2 ^ 64 ->
  zlen (encode_blocks enc crLf 64 q oc) =
  4 * (zlen q / 3) + if crLf then 2 * ((oc + 4 * (zlen q / 3)) / 64 - oc / 64) else 0.
Proof.
  intros Hq. revert oc. pattern q. revert q Hq. apply triples_ind; cbv beta.
  - intros oc Ho Hm Hb. change (zlen (@nil Z) / 3) with 0. cbn [encode_blocks].
    rewrite zlen_nil, Z.mul_0_r, Z.add_0_r. destruct crLf; lia.
  - intros b0 b1 b2 q Hq IH oc Ho Hm Hb. autorewrite with zlist in *. pose proof (zlen_nonneg q).
    assert (E : (1 + (1 + (1 + zlen q))) / 3 = 1 + zlen q / 3) by (Z.div_mod_to_equations; lia).
    rewrite E in *. pose proof (Z.div_pos (zlen q) 3).
    cbn [app encode_blocks]. rewrite u64_id by lia. autorewrite with zlist.
    rewrite IH by (try lia; Z.div_mod_to_equations; lia). destruct crLf; cbn [andb]; rewrite ?zlen_nil; [|lia].
    case_if; autorewrite with zlist; Z.div_mod_to_equations; lia.
Qed.

Lemma zlen_encode_rest pad l :
  zlen l <= 2 -> zlen (encode_rest enc pad l) =
  if zlen l =? 0 then 0 else if pad then 4 else zlen l + 1.
Proof.
  intros Hl. destruct l as [|b0 [|b1 [|b2 l]]]; try (by destruct pad).
  autorewrite with zlist in Hl. pose proof (zlen_nonneg l). lia.
Qed.

(** The buffer that is allocated is large enough, with the NUL. *)
Lemma encode_ex_value data pad crLf :
  zlen data < 2 ^ 31 ->
  let q := 3 * (zlen data / 3) in
  let out := encode_blocks enc crLf 64 (ztake q data) 0 ++ encode_rest enc pad (zdrop q data) ++
             (if crLf && negb (zlen data mod 3 =? 0) then [CR; LF] else []) in
  base64_encode_ex enc data pad crLf 64 = Ret (Some out).
Proof.
  intros Hlen q out. pose proof (zlen_nonneg data) as Hn. unfold base64_encode_ex.
  rewrite u64_id by (Z.div_mod_to_equations; lia).
  rewrite i32_id by (Z.div_mod_to_equations; lia).
  assert (Hq : 3 * ((Z.max 0 (zlen data - zlen data mod 3) + 2) / 3) = q)
    by (unfold q; Z.div_mod_to_equations; lia).
  rewrite Hq. rewrite (ztake_all (zlen data mod 3)) by
    (rewrite zlen_zdrop; unfold q; Z.div_mod_to_equations; lia). fold out.
  rewrite Hmem by (destruct crLf; Z.div_mod_to_equations; lia). cbn [negb].
  case_if; [|done]. exfalso. revert E. unfold out. rewrite !zlen_app.
  rewrite zlen_encode_blocks, zlen_encode_rest; rewrite ?zlen_ztake, ?zlen_zdrop;
    try (unfold q; Z.div_mod_to_equations; lia).
  assert (zlen (if crLf && negb (zlen data mod 3 =? 0) then [CR; LF] else []) =
          if crLf && negb (zlen data mod 3 =? 0) then 2 else 0) as -> by (by case_if).
  assert (Hq' : Z.max 0 (Z.min q (zlen data)) = q) by (unfold q; Z.div_mod_to_equations; lia).
  rewrite Hq'. assert (Hq3 : q / 3 = zlen data / 3) by (unfold q; Z.div_mod_to_equations; lia).
  rewrite Hq3. intros E. revert E. unfold q.
  destruct crLf, pad; cbn [andb]; repeat case_if; Z.div_mod_to_equations; lia.
Qed.

(** Without line breaks the output is the groups before the last and the last group. *)
Lemma encode_groups pad t l :
  zlen t mod 3 = 0 -> 1 <= zlen l <= 3 -> zlen t + zlen l < 2 ^ 31 ->
  base64_encode enc (t ++ l) pad =
  Ret (Some (encode_blocks enc false 64 t 0 ++ last_group pad l)).
Proof.
  intros Ht Hl Hlen. unfold base64_encode. pose proof (zlen_nonneg t).
  rewrite encode_ex_value by (rewrite zlen_app; lia). cbn [andb]. rewrite app_nil_r, zlen_app.
  do 2 f_equal. unfold last_group. destruct (decide (zlen l = 3)) as [El|El].
  - replace (3 * ((zlen t + zlen l) / 3)) with (zlen t + zlen l) by (Z.div_mod_to_equations; lia).
    rewrite ztake_all, zdrop_all by (rewrite zlen_app; lia).
    rewrite encode_blocks_app by (try lia; Z.div_mod_to_equations; lia).
    destruct l as [|b0 [|b1 [|b2 [|b3 l]]]]; autorewrite with zlist in El;
      [lia..| |pose proof (zlen_nonneg l); lia].
    cbn [encode_blocks encode_rest andb]. by rewrite !app_nil_r.
  - replace (3 * ((zlen t + zlen l) / 3)) with (zlen t) by (Z.div_mod_to_equations; lia).
    zcut. f_equal. destruct l as [|b0 [|b1 [|b2 l]]]; autorewrite with zlist in *;
      [lia|done..|pose proof (zlen_nonneg l); lia].
Qed.

Lemma zlen_last_group pad l :
  1 <= zlen l <= 3 -> let n := zlen (last_group pad l) in
  2 <= n <= 4 /\ (pad = true -> n = 4).
Proof.
  intros Hl. destruct l as [|b0 [|b1 [|b2 [|b3 l]]]]; autorewrite with zlist in Hl;
    [lia| | | |pose proof (zlen_nonneg l); lia]; destruct pad;
    (split; [split; vm_compute; discriminate|intros; done]).
Qed.

Lemma decode_groups pad t l :
  zlen t mod 3 = 0 -> 1 <= zlen l <= 3 -> zlen t + zlen l < 2 ^ 31 -> Forall is_byte (t ++ l) ->
  let s := encode_blocks enc false 64 t 0 ++ last_group pad l in
  base64_decode dec s (zlen s) pad = Ret (Some (t ++ l)).
Proof.
  intros Ht Hl Hlen [Hbt Hbl]%Forall_app s. unfold base64_decode. cbv zeta.
  pose proof (zlen_nonneg t). destruct (zlen_last_group pad l Hl) as (Hg & Hgp).
  assert (Hs : zlen s = 4 * (zlen t / 3) + zlen (last_group pad l)).
  { unfold s. rewrite zlen_app, zlen_encode_blocks by (try lia; Z.div_mod_to_equations; lia). lia. }
  assert (Hm : zlen s mod 4 = zlen (last_group pad l) mod 4)
    by (rewrite Hs; Z.div_mod_to_equations; lia).
  rewrite Hm. replace ((pad && (0 <? _)) || _) with false
    by (destruct pad; [rewrite Hgp by done; done|]; Z.div_mod_to_equations; lia).
  match goal with |- context [malloc_ok (?e / 4 * 3 + 1)] =>
    assert (E : e = 4 * (zlen t / 3 + 1)) end.
  { case_if; [|destruct pad; [specialize (Hgp eq_refl)|]; Z.div_mod_to_equations; lia].
    rewrite u64_id; Z.div_mod_to_equations; lia. }
  rewrite E. replace (4 * (zlen t / 3 + 1) / 4) with (zlen t / 3 + 1) by (Z.div_mod_to_equations; lia).
  rewrite Hmem by (Z.div_mod_to_equations; lia). cbn [negb].
  replace (zlen t / 3 + 1 <? 1) with false by (Z.div_mod_to_equations; lia).
  replace (zlen t / 3 + 1 - 1) with (zlen t / 3) by lia. unfold s.
  rewrite decode_blocks_encode, decode_last_group by done.
  rewrite zlen_app. case_if; [Z.div_mod_to_equations; lia|done].
Qed.

Lemma groups_roundtrip pad data :
  1 <= zlen data < 2 ^ 31 -> Forall is_byte data ->
  exists s, base64_encode enc data pad = Ret (Some s) /\ base64_decode dec s (zlen s) pad = Ret (Some data).
Proof.
  intros Hlen Hb. destruct (zsplit (3 * ((zlen data - 1) / 3)) data) as (t & l & -> & Ht & Hl).
  { Z.div_mod_to_equations; lia. }
  assert (zlen t mod 3 = 0) by (rewrite Ht; Z.div_mod_to_equations; lia).
  rewrite zlen_app in *. assert (1 <= zlen l <= 3) by (Z.div_mod_to_equations; lia).
  eexists. split; [apply encode_groups; lia|]. apply decode_groups; [lia..|done].
Qed.
End encoding.

(** *** Any input *)
Section decoder_safety.
Context (enc dec : list Z) `{Halpha : !Alphabet enc dec} `{HM : Malloc}.

Lemma decode_blocks_safe n s :
  4 * Z.of_nat n <= zlen s -> exists r, decode_blocks dec n s = Ret r /\
  forall out rest, r = Some (out, rest) ->
    zlen out = 3 * Z.of_nat n /\ zlen rest = zlen s - 4 * Z.of_nat n /\ Forall is_byte out.
Proof.
  revert s. induction n as [|n IH]; intros s Hs; [exists (Some ([], s)); split; [done|]; intros ?? [= <- <-]; split_and!; [done|lia|constructor]|].
  destruct s as [|s0 [|s1 [|s2 [|s3 s]]]]; autorewrite with zlist in *; [lia..|].
  destruct (IH s) as (r & Hr & Hok); [lia|]. cbn [decode_blocks].
  case_if; [by exists None|]. rewrite Hr. destruct r as [[out rest]|]; [|by exists None].
  destruct (Hok out rest eq_refl) as (H1 & H2 & H3). eexists. split; [done|]. intros ?? [= <- <-].
  autorewrite with zlist. split_and!; [lia..|]. repeat (constructor; [apply u8_byte|]). done.
Qed.

Lemma decode_last_safe r s :
  0 <= r < 4 -> (if r =? 0 then 4 else r) <= zlen s -> r <> 1 ->
  exists o, decode_last dec r s = Ret o /\ forall out, o = Some out -> 1 <= zlen out <= 3 /\ Forall is_byte out.
Proof.
  intros Hr Hs H1. unfold decode_last, fetch.
  assert (Hb : forall b, Forall is_byte [u8 b]) by (intros; repeat constructor; apply u8_byte).
  destruct s as [|s0 [|s1 s]]; autorewrite with zlist in *; [destruct (r =? 0) eqn:?; lia..|].
  case_if; [by exists None|]. destruct (r =? 2) eqn:E2, (2 <=? r) eqn:E3; try lia.
  - eexists. split; [done|]. intros ? [= <-]. split; [split; vm_compute; discriminate|apply Hb].
  - destruct s as [|s2 s]; autorewrite with zlist in *; [destruct (r =? 0) eqn:?; lia|].
    repeat case_if; try lia; eexists; (split; [done|]); intros ? [= <-];
      (split; [split; vm_compute; discriminate|repeat (constructor; [apply u8_byte|]); done]).
  - destruct s as [|s2 [|s3 s]]; autorewrite with zlist in *; [destruct (r =? 0) eqn:?; lia..|].
    repeat case_if; eexists; (split; [done|]); intros ? [= <-];
      (split; [split; vm_compute; discriminate|repeat (constructor; [apply u8_byte|]); done]).
Qed.

Lemma decode_safe s pad :
  zlen s < 2 ^ 62 ->
  exists r, base64_decode dec s (zlen s) pad = Ret r /\
  forall out, r = Some out -> 1 <= zlen out /\ 4 * zlen out <= 3 * (zlen s + 3) /\ Forall is_byte out.
Proof.
  intros Hlen. unfold base64_decode. cbv zeta. pose proof (zlen_nonneg s).
  destruct ((pad && (0 <? zlen s mod 4)) || (zlen s mod 4 =? 1)) eqn:E; [by exists None|].
  match goal with |- context [malloc_ok (?e / 4 * 3 + 1)] =>
    assert (El : e = 4 * ((zlen s + 3) / 4)) end.
  { case_if; [rewrite u64_id|destruct pad]; Z.div_mod_to_equations; lia. }
  rewrite El.
  replace (4 * ((zlen s + 3) / 4) / 4) with ((zlen s + 3) / 4) by (Z.div_mod_to_equations; lia).
  case_if; [by exists None|]. case_if; [by exists None|].
  destruct (decode_blocks_safe (Z.to_nat ((zlen s + 3) / 4 - 1)) s) as (r & -> & Hok);
    [Z.div_mod_to_equations; lia|].
  destruct r as [[out rest]|]; [|by exists None].
  destruct (Hok out rest eq_refl) as (H1 & H2 & H3). rewrite Z2Nat.id in H1, H2 by lia.
  destruct (decode_last_safe (zlen s mod 4) rest) as (o & -> & Ho).
  { apply Z.mod_pos_bound. lia. } { rewrite H2. case_if; Z.div_mod_to_equations; lia. } { lia. }
  destruct o as [last|]; [|by exists None]. destruct (Ho last eq_refl) as [Hl1 Hl2].
  rewrite zlen_app. case_if; [lia|]. eexists. split; [done|]. intros ? [= <-].
  rewrite zlen_app, Forall_app. split_and!; [pose proof (zlen_nonneg out); lia| |done..].
  Z.div_mod_to_equations; lia.
Qed.
End decoder_safety.

(** ** Line breaks *)

Definition is_newline (c : Z) : bool := (c =? CR) || (c =? LF).

(** The string without its line breaks. *)
Definition strip (s : list Z) : list Z := List.filter (fun c => negb (is_newline c)) s.

Section line_breaks.
Lemma strip_plain s : Forall (fun c => is_newline c = false) s -> strip s = s.
Proof. induction 1 as [|c s Hc Hs IH]; [done|]. unfold strip in *. cbn. by rewrite Hc, IH. Qed.

Lemma enc_char_plain i : 0 <= i < 64 -> is_newline (znth enc_base64 i) = false.
Proof.
  intros Hi. apply negb_true_iff.
  exact (range_forall (fun i => negb (is_newline (znth enc_base64 i))) 64 i Hi eq_refl).
Qed.

(** No character of a group is a line break. *)
Lemma group_plain b0 b1 b2 :
  is_byte b0 -> is_byte b1 -> is_byte b2 ->
  let c := Z.shiftl b0 16 + Z.shiftl b1 8 + b2 in
  Forall (fun c => is_newline c = false)
    [enc_c1 enc_base64 c; enc_c2 enc_base64 c; enc_c3 enc_base64 c; enc_c4 enc_base64 c].
Proof.
  intros H0 H1 H2 c. destruct (group_values b0 b1 b2 H0 H1 H2) as (E1 & E2 & E3 & E4).
  fold c in E1, E2, E3, E4. unfold enc_c1, enc_c2, enc_c3, enc_c4. rewrite E1, E2, E3, E4.
  unfold is_byte in *. repeat constructor; apply enc_char_plain; Z.div_mod_to_equations; lia.
Qed.

Lemma strip_blocks lineSize q :
  zlen q mod 3 = 0 -> Forall is_byte q -> forall oc oc',
  strip (encode_blocks enc_base64 true lineSize q oc) = encode_blocks enc_base64 false lineSize q oc'.
Proof.
  intros Hq. pattern q. revert q Hq. apply triples_ind; cbv beta; [done|].
  intros b0 b1 b2 q Hq IH Hb oc oc'. apply Forall_cons in Hb as [H0 Hb].
  apply Forall_cons in Hb as [H1 Hb]. apply Forall_cons in Hb as [H2 Hb].
  cbn [encode_blocks andb]. unfold strip. rewrite !List.filter_app. fold (strip (encode_blocks enc_base64 true lineSize q (u64 (oc + 4)))).
  rewrite (IH Hb _ (u64 (oc' + 4))). f_equal; [exact (strip_plain _ (group_plain b0 b1 b2 H0 H1 H2))|].
  by case_if.
Qed.

Lemma rest_plain q :
  zlen q <= 2 -> Forall is_byte q -> Forall (fun c => is_newline c = false) (encode_rest enc_base64 true q).
Proof.
  intros Hq Hb. assert (Hz : is_byte 0) by (unfold is_byte; lia).
  destruct q as [|b0 [|b1 [|b2 q]]]; autorewrite with zlist in *;
    [constructor| | |pose proof (zlen_nonneg q); lia]; repeat (apply Forall_cons in Hb as [? Hb]);
    cbn [encode_rest app].
  - pose proof (group_plain b0 0 0 ltac:(done) Hz Hz) as Hg. rewrite Z.shiftl_0_l, !Z.add_0_r in Hg.
    repeat (apply Forall_cons in Hg as [? Hg]). by repeat constructor.
  - pose proof (group_plain b0 b1 0 ltac:(done) ltac:(done) Hz) as Hg. rewrite !Z.add_0_r in Hg.
    repeat (apply Forall_cons in Hg as [? Hg]). by repeat constructor.
Qed.
End line_breaks.

(** ** Properties *)

(** C39: what the two encoders write for 1 to 2^31 - 1 bytes, the decoder of the same alphabet
    turns back into those bytes (standard alphabet with padding, URL alphabet without); the
    empty input is encoded as the empty string, which both decoders refuse. *)
Theorem base64_roundtrip `{HM : Malloc} (data : list Z) :
  (forall n, n <= 2 ^ 32 -> malloc_ok n = true) -> zlen data < 2 ^ 31 -> Forall is_byte data ->
  exists s url,
    crypto_base64_encode data = Ret (Some s) /\ crypto_base64url_encode data = Ret (Some url) /\
    let result := if decide (data = []) then None else Some data in
    crypto_base64_decode s (zlen s) = Ret result /\
    crypto_base64url_decode url (zlen url) = Ret result.
Proof.
  intros Hmem Hlen Hb. destruct (decide (data = [])) as [->|Hne].
  - exists [], []. unfold crypto_base64_encode, crypto_base64url_encode, base64_encode.
    rewrite !encode_ex_value by done. split_and!; [done..| |];
      unfold crypto_base64_decode, crypto_base64url_decode, base64_decode; cbv zeta;
      rewrite Hmem by (vm_compute; discriminate); reflexivity.
  - assert (1 <= zlen data).
    { destruct data; [done|]. rewrite zlen_cons. pose proof (zlen_nonneg data). lia. }
    destruct (groups_roundtrip enc_base64 dec_base64 Hmem true data) as (s & ? & ?); [lia|done|].
    destruct (groups_roundtrip enc_base64url dec_base64url Hmem false data) as (u & ? & ?); [lia|done|].
    by exists s, u.
Qed.

Lemma base64_roundtrip_witness :
  exists s url,
    @crypto_base64_encode malloc_all [251; 255; 0; 7] = Ret (Some s) /\
    @crypto_base64url_encode malloc_all [251; 255; 0; 7] = Ret (Some url) /\
    @crypto_base64_decode malloc_all s (zlen s) = Ret (Some [251; 255; 0; 7]) /\
    @crypto_base64url_decode malloc_all url (zlen url) = Ret (Some [251; 255; 0; 7]).
Proof.
  apply (@base64_roundtrip malloc_all [251; 255; 0; 7]); [|done|].
  - intros n Hn. apply Z.ltb_lt. apply (Z.le_lt_trans _ _ _ Hn). done.
  - repeat constructor; unfold is_byte; lia.
Defined.

(** C40: on every string, of any length below 2^62, both decoders return without reading past
    the string or writing past the buffer they allocated; a result is at least one byte, all
    of them octets, and at most 3/4 of the length rounded up to whole groups. *)
Theorem base64_decode_safe `{HM : Malloc} (s : list Z) :
  zlen s < 2 ^ 62 ->
  exists r r', crypto_base64_decode s (zlen s) = Ret r /\ crypto_base64url_decode s (zlen s) = Ret r' /\
  forall out, r = Some out \/ r' = Some out ->
    1 <= zlen out /\ 4 * zlen out <= 3 * (zlen s + 3) /\ Forall is_byte out.
Proof.
  intros Hlen. destruct (decode_safe dec_base64 s true Hlen) as (r & Hr & Hok).
  destruct (decode_safe dec_base64url s false Hlen) as (r' & Hr' & Hok').
  exists r, r'. split_and!; [done..|]. intros out [->| ->]; auto.
Qed.

Lemma base64_decode_safe_witness :
  exists r r', @crypto_base64_decode malloc_all [90; 61; 61] 3 = Ret r /\
    @crypto_base64url_decode malloc_all [90; 61; 61] 3 = Ret r' /\
  forall out, r = Some out \/ r' = Some out ->
    1 <= zlen out /\ 4 * zlen out <= 3 * (3 + 3) /\ Forall is_byte out.
Proof. exact (@base64_decode_safe malloc_all [90; 61; 61] eq_refl). Defined.

(** Encoding with line breaks writes, for every input of fewer than 2^31 bytes, what the
    plain encoding writes with CR LF inserted: a pair after every 64 characters of full groups
    and one after an incomplete last group; the buffer allocated from the estimate in
    [outLen] and [extra] is large enough for all of it and the NUL. *)
Theorem base64_line_breaks `{HM : Malloc} (data : list Z) :
  (forall n, n <= 2 ^ 32 -> malloc_ok n = true) -> zlen data < 2 ^ 31 -> Forall is_byte data ->
  exists plain broken,
    crypto_base64_encode_ex data false = Ret (Some plain) /\
    crypto_base64_encode_ex data true = Ret (Some broken) /\
    zlen plain = 4 * ((zlen data + 2) / 3) /\ strip broken = plain /\
    zlen broken = zlen plain + 2 * (4 * (zlen data / 3) / 64) + (if zlen data mod 3 =? 0 then 0 else 2).
Proof.
  intros Hmem Hlen Hb. unfold crypto_base64_encode_ex. rewrite !encode_ex_value by done.
  do 2 eexists. split_and!; [done..| | |]; cbn [andb].
  all: set (q := 3 * (zlen data / 3)); pose proof (zlen_nonneg data).
  all: assert (Hq : 0 <= q <= zlen data /\ q mod 3 = 0 /\ q / 3 = zlen data / 3 /\ zlen data - q <= 2)
    by (unfold q; Z.div_mod_to_equations; lia); destruct Hq as (Hq0 & Hq1 & Hq2 & Hq3).
  all: assert (Ht : zlen (ztake q data) = q) by (rewrite zlen_ztake; lia).
  all: assert (Hd : zlen (zdrop q data) = zlen data - q) by (rewrite zlen_zdrop; lia).
  - rewrite app_nil_r, zlen_app, zlen_encode_blocks, zlen_encode_rest; rewrite ?Ht, ?Hd;
      try (Z.div_mod_to_equations; lia).
    case_if; unfold q in *; Z.div_mod_to_equations; lia.
  - unfold strip. rewrite !List.filter_app.
    fold (strip (encode_blocks enc_base64 true 64 (ztake q data) 0)).
    fold (strip (encode_rest enc_base64 true (zdrop q data))).
    rewrite (strip_blocks 64 (ztake q data) ltac:(by rewrite Ht) (Forall_ztake _ q data Hb) 0 0).
    rewrite (strip_plain (encode_rest _ _ _)) by (apply rest_plain; [lia|auto with zlist]).
    by case_if.
  - rewrite !zlen_app, !zlen_encode_blocks, zlen_encode_rest; rewrite ?Ht, ?Hd;
      try (Z.div_mod_to_equations; lia).
    rewrite Hq2. destruct (zlen data mod 3 =? 0) eqn:E; cbn [negb]; autorewrite with zlist;
      change (0 / 64) with 0; destruct (zlen data - q =? 0) eqn:E'; subst q; Z.div_mod_to_equations; lia.
Qed.

Lemma base64_line_breaks_witness :
  exists plain broken,
    @crypto_base64_encode_ex malloc_all (zrep 50 7) false = Ret (Some plain) /\
    @crypto_base64_encode_ex malloc_all (zrep 50 7) true = Ret (Some broken) /\
    zlen plain = 68 /\ strip broken = plain /\ zlen broken = 72.
Proof.
  destruct (@base64_line_breaks malloc_all (zrep 50 7)) as (plain & broken & H1 & H2 & H3 & H4 & H5);
    [|done| |exists plain, broken; rewrite H5, H3; by split_and!].
  - intros n Hn. apply Z.ltb_lt. apply (Z.le_lt_trans _ _ _ Hn). done.
  - apply Forall_zrep. unfold is_byte. lia.
Defined.
