(* ===== verification/Collections.v ===== *)
(** * What the WinPR collections share: [winpr/include/winpr/collections.h]

    The callbacks of a collection ([wObject]) act on a world of the client's choice, so that
    the order and the number of clone and free calls can be observed.  The file also relates
    runs of a component to an abstract transition system: if every operation refines a step,
    every sequence of operations refines a run. *)

From S2P Require Import Prelude Memory.

Section objects.
Context {W : Type}.

Record wObject : Type := mkObject {
  fnObjectNew : option (Z -> W -> Z * W);
  fnObjectFree : option (Z -> W -> W);
  fnObjectEquals : Z -> Z -> bool
}.

(** [obj], or the clone that [fnObjectNew] makes of it. *)
Definition obj_new (o : wObject) (obj : Z) (w : W) : Z * W :=
  match fnObjectNew o with Some f => f obj w | None => (obj, w) end.

(** [if (fnObjectFree) fnObjectFree (obj)] *)
Definition obj_free (o : wObject) (obj : Z) (w : W) : W :=
  match fnObjectFree o with Some f => f obj w | None => w end.

Definition free_all (o : wObject) (l : list Z) (w : W) : W :=
  foldl (fun w x => obj_free o x w) w l.

(** Pointer comparison, the default of every collection. *)
Definition default_equals (obj1 obj2 : Z) : bool := obj1 =? obj2.

Definition default_object : wObject := mkObject None None default_equals.
End objects.
Arguments wObject W : clear implicits.

(** ** Locks

    A collection that is synchronized takes its lock at the start of an operation and releases
    it at the end.  The lock is its recursion count, as the calling thread sees it. *)
Class Lockable (S : Type) : Type := {
  lk_synchronized : S -> bool;
  lk_count : S -> Z;
  lk_set : Z -> S -> S;
  lk_count_set l s : lk_count (lk_set l s) = l;
  lk_sync_set l s : lk_synchronized (lk_set l s) = lk_synchronized s
}.

Section locks.
Context {S : Type} `{!Lockable S}.
Implicit Types s : S.

Definition lk_enter : Prog S unit :=
  s <- pget ;; if lk_synchronized s then pput (lk_set (lk_count s + 1) s) else pret tt.
Definition lk_leave : Prog S unit :=
  s <- pget ;; if lk_synchronized s then pput (lk_set (lk_count s - 1) s) else pret tt.

Definition locked s : S := if lk_synchronized s then lk_set (lk_count s + 1) s else s.
Definition unlocked s : S := if lk_synchronized s then lk_set (lk_count s - 1) s else s.

Lemma enter_run {A} (k : unit -> Prog S A) s : pbind lk_enter k s = k tt (locked s).
Proof. unfold lk_enter, locked, pbind, pget. by destruct (lk_synchronized s). Qed.

Lemma leave_run {A} (k : unit -> Prog S A) s : pbind lk_leave k s = k tt (unlocked s).
Proof. unfold lk_leave, unlocked, pbind, pget. by destruct (lk_synchronized s). Qed.

Lemma leave_last s : lk_leave s = Ret (tt, unlocked s).
Proof. unfold lk_leave, unlocked, pbind, pget. by destruct (lk_synchronized s). Qed.

(** Invariant [ok] and view [abs] of a collection that do not depend on the lock. *)
Context {X : Type} (ok : S -> Prop) (abs : S -> X)
  (Hok : forall l s, ok s -> ok (lk_set l s)) (Habs : forall l s, abs (lk_set l s) = abs s).

Lemma locked_spec s :
  ok s -> ok (locked s) /\ abs (locked s) = abs s /\ lk_synchronized (locked s) = lk_synchronized s.
Proof using Hok Habs.
  intros Hs. unfold locked. destruct (lk_synchronized s) eqn:E; [|done].
  rewrite Habs, lk_sync_set. auto.
Qed.

(** What the part of an operation between lock and unlock establishes. *)
Definition lock_kept s s1 : Prop :=
  lk_synchronized s1 = lk_synchronized s /\ lk_count s1 = lk_count (locked s).

Lemma unlocked_spec s s1 :
  ok s1 -> lock_kept s s1 ->
  ok (unlocked s1) /\ abs (unlocked s1) = abs s1 /\ lk_count (unlocked s1) = lk_count s /\
  lk_synchronized (unlocked s1) = lk_synchronized s.
Proof using Hok Habs.
  intros Hs1 [E1 E2]. unfold locked, unlocked in *. rewrite E1.
  destruct (lk_synchronized s) eqn:E; [|done].
  rewrite Habs, lk_count_set, lk_sync_set, E1. rewrite lk_count_set in E2.
  split_and!; auto. lia.
Qed.
End locks.
Arguments lock_kept {S _} s s1.

(** ** Runs against an abstract transition system *)
Section refinement.
Context {S Op Out A : Type} (run : Op -> Prog S Out) (ok : S -> Prop) (abs : S -> A)
  (step : A -> Op -> Out -> A -> Prop).

Fixpoint run_seq (ops : list Op) : Prog S (list Out) :=
  match ops with
  | [] => pret []
  | op :: ops' => out <- run op ;; outs <- run_seq ops' ;; pret (out :: outs)
  end.

Inductive steps : A -> list Op -> list Out -> A -> Prop :=
| steps_done a : steps a [] [] a
| steps_next a op out a1 ops outs a2 :
    step a op out a1 -> steps a1 ops outs a2 -> steps a (op :: ops) (out :: outs) a2.

(** The invariant [okn n] leaves room for [n] more operations. *)
Lemma run_seq_refines_within (okn : nat -> S -> Prop) (valid : Op -> Prop) :
  (forall n op s, valid op -> okn (Datatypes.S n) s -> exists out s', run op s = Ret (out, s') /\
     okn n s' /\ step (abs s) op out (abs s')) ->
  forall ops s, Forall valid ops -> okn (length ops) s ->
  exists outs s', run_seq ops s = Ret (outs, s') /\ okn 0%nat s' /\ steps (abs s) ops outs (abs s').
Proof.
  intros Hop ops. induction ops as [|op ops IH]; intros s Hv Hs.
  { exists [], s. split_and!; [done|done|constructor]. }
  apply Forall_cons in Hv as [Hv1 Hv]. destruct (Hop _ op s Hv1 Hs) as (out & s1 & Hr & Hs1 & Hst).
  destruct (IH s1 Hv Hs1) as (outs & s2 & Hrs & Hs2 & Hsts).
  exists (out :: outs), s2. cbn [run_seq]. unfold pbind. rewrite Hr, Hrs.
  split_and!; [done|done|by econstructor].
Qed.

Lemma run_seq_refines (valid : Op -> Prop) :
  (forall op s, valid op -> ok s -> exists out s', run op s = Ret (out, s') /\ ok s' /\
     step (abs s) op out (abs s')) ->
  forall ops s, Forall valid ops -> ok s ->
  exists outs s', run_seq ops s = Ret (outs, s') /\ ok s' /\ steps (abs s) ops outs (abs s').
Proof.
  intros Hop ops s. apply (run_seq_refines_within (fun _ => ok)). intros _. exact Hop.
Qed.
End refinement.

(** What a program returns, without its final state. *)
Definition result {S A : Type} (o : outcome (A * S)) : outcome A :=
  match o with Ret (a, _) => Ret a | Abort => Abort | Hang => Hang end.
