(* ===== verification/Queue.v ===== *)
(** * Queues of objects: [winpr/libwinpr/utils/collections/Queue.c]

    A circular array of pointers that grows, with a lock, an event that tells whether there
    is an element, and callbacks that clone and free the elements.  The lock is its recursion
    count, as seen by the calling thread. *)

From S2P Require Import Prelude Memory Collections.

Section queue_ops.
Context {W : Type} `{Malloc} `{FreshMemory}.

Record wQueue : Type := mkQueue {
  q_capacity : Z;
  q_growthFactor : Z;
  q_synchronized : bool;
  q_head : Z;
  q_tail : Z;
  q_size : Z;
  q_array : list Z;
  q_lock : Z;
  q_event : bool;
  q_object : wObject W;
  q_world : W
}.

Definition q_set_lock (l : Z) (q : wQueue) : wQueue :=
  mkQueue (q_capacity q) (q_growthFactor q) (q_synchronized q) (q_head q) (q_tail q) (q_size q)
    (q_array q) l (q_event q) (q_object q) (q_world q).
Definition q_set_event (e : bool) (q : wQueue) : wQueue :=
  mkQueue (q_capacity q) (q_growthFactor q) (q_synchronized q) (q_head q) (q_tail q) (q_size q)
    (q_array q) (q_lock q) e (q_object q) (q_world q).
Definition q_set_world (w : W) (q : wQueue) : wQueue :=
  mkQueue (q_capacity q) (q_growthFactor q) (q_synchronized q) (q_head q) (q_tail q) (q_size q)
    (q_array q) (q_lock q) (q_event q) (q_object q) w.
Definition q_set_storage (c : Z) (a : list Z) (q : wQueue) : wQueue :=
  mkQueue c (q_growthFactor q) (q_synchronized q) (q_head q) (q_tail q) (q_size q)
    a (q_lock q) (q_event q) (q_object q) (q_world q).
Definition q_set_ends (h t n : Z) (q : wQueue) : wQueue :=
  mkQueue (q_capacity q) (q_growthFactor q) (q_synchronized q) h t n
    (q_array q) (q_lock q) (q_event q) (q_object q) (q_world q).

(** ** Operations *)

Definition Queue_Lock : Prog wQueue unit :=
  q <- pget ;; if q_synchronized q then pput (q_set_lock (q_lock q + 1) q) else pret tt.

Definition Queue_Unlock : Prog wQueue unit :=
  q <- pget ;; if q_synchronized q then pput (q_set_lock (q_lock q - 1) q) else pret tt.

Definition Queue_Count : Prog wQueue Z :=
  Queue_Lock ;; q <- pget ;; Queue_Unlock ;; pret (q_size q).

Definition Queue_Event (q : wQueue) : bool := q_event q.
Definition Queue_Object (q : wQueue) : wObject W := q_object q.

(** [for (index = head; index != tail; index = (index + 1) % capacity)]: the index goes round
    the array, so the loop ends within [capacity] rounds or never. *)
Fixpoint clear_loop (fuel : nat) (index : Z) : Prog wQueue unit :=
  q <- pget ;;
  if index =? q_tail q then pret tt
  else
    match fuel with
    | O => fun _ => Hang
    | S fuel' =>
        x <- plift (slot_get index (q_array q)) ;;
        pput (q_set_world (obj_free (q_object q) x (q_world q)) q) ;;
        a <- plift (slot_set index NULL (q_array q)) ;;
        q <- pget ;; pput (q_set_storage (q_capacity q) a q) ;;
        clear_loop fuel' (u64 (index + 1) mod q_capacity q)
    end.

Definition Queue_Clear : Prog wQueue unit :=
  Queue_Lock ;;
  q <- pget ;;
  clear_loop (Z.to_nat (q_capacity q)) (q_head q) ;;
  q <- pget ;; pput (q_set_ends 0 0 0 q) ;;
  q <- pget ;; pput (q_set_event false q) ;;
  Queue_Unlock.

(** [for (index = 0; index < tail; index++)] *)
Fixpoint contains_loop (n : nat) (index : Z) (obj : Z) : Prog wQueue bool :=
  match n with
  | O => pret false
  | S n' =>
      q <- pget ;;
      x <- plift (slot_get index (q_array q)) ;;
      if fnObjectEquals (q_object q) x obj then pret true else contains_loop n' (index + 1) obj
  end.

Definition Queue_Contains (obj : Z) : Prog wQueue bool :=
  Queue_Lock ;;
  q <- pget ;;
  found <- contains_loop (Z.to_nat (q_tail q)) 0 obj ;;
  Queue_Unlock ;;
  pret found.

Definition Queue_EnsureCapacity (count : Z) : Prog wQueue bool :=
  q <- pget ;;
  if q_capacity q <=? u64 (q_size q + count) then
    let old_capacity := q_capacity q in
    let doubled := u64 (q_capacity q * q_growthFactor q) in
    let new_capacity :=
      if doubled <? u64 (q_size q + count) then u64 (q_size q + count) else doubled in
    let bytes := u64 (8 * new_capacity) in
    if negb (malloc_ok bytes) then pret false
    else
      a <- plift (slots_write old_capacity (zrep (u64 (new_capacity - old_capacity)) NULL)
                    (mem_realloc (q_array q) (bytes / 8))) ;;
      pput (q_set_storage new_capacity a q) ;;
      (* rearrange wrapped entries *)
      if q_tail q <=? q_head q then
        wrapped <- plift (slots_read 0 (q_tail q) a) ;;
        a' <- plift (slots_write old_capacity wrapped a) ;;
        q <- pget ;;
        pput (q_set_ends (q_head q) (u64 (q_tail q + old_capacity)) (q_size q)
                (q_set_storage new_capacity a' q)) ;;
        pret true
      else pret true
  else pret true.

Definition Queue_Enqueue (obj : Z) : Prog wQueue bool :=
  Queue_Lock ;;
  ok <- Queue_EnsureCapacity 1 ;;
  (if negb ok then pret tt
   else
     q <- pget ;;
     let '(x, w) := obj_new (q_object q) obj (q_world q) in
     a <- plift (slot_set (q_tail q) x (q_array q)) ;;
     pput (q_set_world w (q_set_storage (q_capacity q) a q)) ;;
     q <- pget ;;
     pput (q_set_ends (q_head q) (u64 (q_tail q + 1) mod q_capacity q) (u64 (q_size q + 1)) q) ;;
     q <- pget ;; pput (q_set_event true q)) ;;
  Queue_Unlock ;;
  pret true.

Definition Queue_Dequeue : Prog wQueue Z :=
  Queue_Lock ;;
  q <- pget ;;
  obj <- (if 0 <? q_size q then
            x <- plift (slot_get (q_head q) (q_array q)) ;;
            a <- plift (slot_set (q_head q) NULL (q_array q)) ;;
            pput (q_set_ends (u64 (q_head q + 1) mod q_capacity q) (q_tail q)
                    (u64 (q_size q - 1)) (q_set_storage (q_capacity q) a q)) ;;
            pret x
          else pret NULL) ;;
  q <- pget ;;
  (if q_size q <? 1 then pput (q_set_event false q) else pret tt) ;;
  Queue_Unlock ;;
  pret obj.

Definition Queue_Peek : Prog wQueue Z :=
  Queue_Lock ;;
  q <- pget ;;
  obj <- (if 0 <? q_size q then plift (slot_get (q_head q) (q_array q)) else pret NULL) ;;
  Queue_Unlock ;;
  pret obj.

Definition Queue_Discard : Prog wQueue unit :=
  Queue_Lock ;;
  obj <- Queue_Dequeue ;;
  q <- pget ;;
  pput (q_set_world (obj_free (q_object q) obj (q_world q)) q) ;;
  Queue_Unlock.

(** The result is the world after the elements were freed; the queue itself is gone. *)
Definition Queue_Free (haveLock : bool) (q : wQueue) : outcome W :=
  if haveLock then
    match Queue_Clear q with Ret (_, q') => Ret (q_world q') | Abort => Abort | Hang => Hang end
  else Ret (q_world q).

(** [lock_ok] and [event_ok] tell whether the lock and the event can be created. *)
Definition Queue_New (lock_ok event_ok synchronized : bool) (capacity growthFactor : Z) (w : W)
  : outcome (option wQueue) :=
  if negb (malloc_ok 152) then Ret None
  else
    let growth := if 0 <? growthFactor then growthFactor else 2 in
    let capacity := if capacity <=? 0 then 32 else capacity in
    let queue := mkQueue 0 growth synchronized 0 0 0 [] 0 false default_object w in
    let fail haveLock q :=
      match Queue_Free haveLock q with Ret _ => Ret None | Abort => Abort | Hang => Hang end in
    if negb lock_ok then fail false queue
    else
      match Queue_EnsureCapacity capacity queue with
      | Ret (false, q) => fail true q
      | Ret (true, q) => if negb event_ok then fail true q else Ret (Some q)
      | Abort => Abort
      | Hang => Hang
      end.
End queue_ops.
Arguments wQueue W : clear implicits.

(** ** The queue an array stands for *)

Section queue.
Context {W : Type} `{Malloc} `{FreshMemory}.
Implicit Types q : wQueue W.

Definition q_contents q : list Z := circular (q_head q) (q_array q) (q_size q).

(** One slot is always free; the event tells whether there is an element. *)
Record queue_ok q : Prop := {
  qo_array : zlen (q_array q) = q_capacity q;
  qo_capacity : 2 <= q_capacity q < 2 ^ 60;
  qo_growth : q_growthFactor q = 2;
  qo_size : 0 <= q_size q < q_capacity q;
  qo_head : 0 <= q_head q < q_capacity q;
  qo_tail : q_tail q = (q_head q + q_size q) mod q_capacity q;
  qo_event : q_event q = (0 <? q_size q)
}.

(** What no operation changes. *)
Definition q_same q q' : Prop :=
  q_object q' = q_object q /\ q_synchronized q' = q_synchronized q /\ q_lock q' = q_lock q.

Lemma q_tail_cases q :
  queue_ok q ->
  (q_head q + q_size q < q_capacity q /\ q_tail q = q_head q + q_size q) \/
  (q_capacity q <= q_head q + q_size q /\ q_tail q = q_head q + q_size q - q_capacity q).
Proof.
  intros []. rewrite qo_tail0, mod_step by lia.
  destruct (q_head q + q_size q <? q_capacity q) eqn:E; lia.
Qed.

Lemma zlen_q_contents q : queue_ok q -> zlen (q_contents q) = q_size q.
Proof. intros []. apply zlen_circular; lia. Qed.

Lemma znth_q_contents q i :
  queue_ok q -> 0 <= i < q_size q ->
  znth (q_contents q) i = znth (q_array q) ((q_head q + i) mod q_capacity q).
Proof. intros [] Hi. unfold q_contents. rewrite znth_circular by lia. by rewrite qo_array0. Qed.

(** The lock does not matter to the queue. *)
Lemma queue_ok_lock l q : queue_ok q -> queue_ok (q_set_lock l q).
Proof. by intros []. Qed.

(** [realloc] to [n] slots with the new ones cleared. *)
Definition grown (a : list Z) (n : Z) : list Z := a ++ zrep (n - zlen a) NULL.

Lemma grow_run a n :
  zlen a <= n ->
  slots_write (zlen a) (zrep (n - zlen a) NULL) (mem_realloc a n) = Ret (grown a n).
Proof.
  intros Hn. pose proof (zlen_nonneg a).
  rewrite slots_write_run by (rewrite ?zlen_mem_realloc, ?zlen_zrep by lia; lia). f_equal.
  apply znth_ext; [rewrite zlen_splice; rewrite ?zlen_mem_realloc, ?zlen_zrep by lia; unfold grown; zlist_lia|].
  rewrite zlen_splice by (rewrite ?zlen_mem_realloc, ?zlen_zrep by lia; lia).
  rewrite zlen_mem_realloc by lia. intros i Hi. unfold splice, grown.
  autorewrite with znth zlist. rewrite zlen_mem_realloc by lia. repeat (case_if; try lia); try (f_equal; lia).
  apply znth_mem_realloc; lia.
Qed.

Lemma zlen_grown a n : zlen a <= n -> zlen (grown a n) = n.
Proof. intros. pose proof (zlen_nonneg a). unfold grown. zlist_lia. Qed.

Lemma znth_grown a n i : i < zlen a -> znth (grown a n) i = znth a i.
Proof. intros. unfold grown. autorewrite with znth. by replace (i <? zlen a) with true by lia. Qed.

(** The wrapped entries are moved behind the old end of the array. *)
Lemma circular_grown h n m a :
  0 <= h < zlen a -> 0 <= n < zlen a -> m = 2 * zlen a ->
  circular h (if h + n <? zlen a then grown a m
              else splice (zlen a) (ztake (h + n - zlen a) a) (grown a m)) n = circular h a n.
Proof.
  intros Hh Hn ->. pose proof (zlen_nonneg a).
  assert (Hg : zlen (grown a (2 * zlen a)) = 2 * zlen a) by (apply zlen_grown; lia).
  set (b := if h + n <? zlen a then _ else _).
  assert (Hb : zlen b = 2 * zlen a).
  { unfold b. case_if; [done|]. rewrite zlen_splice; rewrite ?Hg; zlist_lia. }
  apply znth_ext; [rewrite !zlen_circular; lia|]. rewrite zlen_circular by lia. intros i Hi.
  rewrite !znth_circular by lia. rewrite Hb, !mod_step by lia.
  replace (h + i <? 2 * zlen a) with true by lia. unfold b.
  destruct (h + n <? zlen a) eqn:E; [by rewrite znth_grown by lia; case_if; [|lia]|].
  unfold splice, grown. autorewrite with znth zlist. repeat (case_if; try lia); f_equal; lia.
Qed.

(** The capacity after one more object: the last slot stays free. *)
Definition q_grown (cap n : Z) : Z := if n + 1 <? cap then cap else cap * 2.

Lemma Queue_EnsureCapacity_run q :
  queue_ok q -> let c := q_grown (q_capacity q) (q_size q) in
  (q_capacity q <= q_size q + 1 /\ malloc_ok (8 * c) = false /\ Queue_EnsureCapacity 1 q = Ret (false, q)) \/
  (exists a t, let q' := q_set_ends (q_head q) t (q_size q) (q_set_storage c a q) in
     Queue_EnsureCapacity 1 q = Ret (true, q') /\ queue_ok q' /\ q_size q + 1 < c /\
     q_contents q' = q_contents q /\ (q_capacity q <= q_size q + 1 -> malloc_ok (8 * c) = true)).
Proof.
  intros Hok. unfold q_grown. cbv zeta. pose proof (q_tail_cases q Hok) as Ht. pose proof Hok as [].
  unfold Queue_EnsureCapacity. rewrite pbind_pget, !(u64_id (q_size q + 1)) by lia.
  destruct (q_capacity q <=? q_size q + 1) eqn:E.
  2: { right. replace (q_size q + 1 <? q_capacity q) with true by lia. exists (q_array q), (q_tail q).
       replace (q_set_ends _ _ _ _) with q by (by destruct q). split_and!; [done|done|lia|done|lia]. }
  replace (q_size q + 1 <? q_capacity q) with false by lia.
  rewrite qo_growth0, (u64_id (q_capacity q * 2)) by lia.
  replace (q_capacity q * 2 <? q_size q + 1) with false by lia. cbv zeta.
  rewrite (u64_id (8 * _)) by lia. replace (8 * (q_capacity q * 2) / 8) with (q_capacity q * 2)
    by (Z.div_mod_to_equations; lia).
  destruct (malloc_ok (8 * (q_capacity q * 2))) eqn:Em; cbn [negb]; [|left; split_and!; [lia|done|done]].
  pose proof (malloc_bound _ Em) as Hb. right.
  rewrite (u64_id (q_capacity q * 2 - q_capacity q)) by lia.
  pose proof (grow_run (q_array q) (q_capacity q * 2) ltac:(lia)) as Hgr. rewrite qo_array0 in Hgr.
  rewrite Hgr, pbind_plift, pbind_pput.
  pose proof (circular_grown (q_head q) (q_size q) (q_capacity q * 2) (q_array q)
    ltac:(lia) ltac:(lia) ltac:(lia)) as Hc. rewrite qo_array0 in Hc.
  assert (Hg : zlen (grown (q_array q) (q_capacity q * 2)) = q_capacity q * 2) by (apply zlen_grown; lia).
  destruct (q_head q + q_size q <? q_capacity q) eqn:E2.
  - replace (q_tail q <=? q_head q) with false by lia.
    exists (grown (q_array q) (q_capacity q * 2)), (q_tail q).
    split_and!; [by destruct q| |lia|exact Hc|done]. split; cbn; try lia. rewrite Z.mod_small; lia.
  - replace (q_tail q <=? q_head q) with true by lia.
    assert (Hr : slots_read 0 (q_tail q) (grown (q_array q) (q_capacity q * 2)) =
            Ret (ztake (q_head q + q_size q - q_capacity q) (q_array q))).
    { rewrite slots_read_run by lia. rewrite zdrop_0 by lia. unfold grown.
      replace (q_head q + q_size q - q_capacity q) with (q_tail q) by lia. by zcut. }
    rewrite Hr, pbind_plift. set (w := ztake _ (q_array q)) in *.
    assert (Hw : zlen w = q_tail q) by (unfold w; zlist_lia).
    rewrite slots_write_run, pbind_plift, pbind_pget, pbind_pput by lia.
    rewrite u64_id by (cbn; lia).
    exists (splice (q_capacity q) w (grown (q_array q) (q_capacity q * 2))), (q_tail q + q_capacity q).
    split_and!; [by destruct q| |lia|exact Hc|done].
    split; cbn; try lia; [rewrite zlen_splice; lia|rewrite Z.mod_small; lia].
Qed.

(** *** The lock around an operation *)
#[export] Instance queue_lockable : Lockable (wQueue W).
Proof.
  refine {| lk_synchronized := q_synchronized; lk_count := q_lock; lk_set := q_set_lock |};
    reflexivity.
Defined.

Lemma lock_run {A} (k : unit -> Prog (wQueue W) A) q : pbind Queue_Lock k q = k tt (locked q).
Proof. exact (enter_run k q). Qed.

Lemma unlock_run {A} (k : unit -> Prog (wQueue W) A) q : pbind Queue_Unlock k q = k tt (unlocked q).
Proof. exact (leave_run k q). Qed.

Lemma unlock_last q : Queue_Unlock q = Ret (tt, unlocked q).
Proof. exact (leave_last q). Qed.

(** The elements and the world of a queue. *)
(** The objects, the world of the callbacks and the capacity. *)
Definition q_abs q : list Z * W * Z := (q_contents q, q_world q, q_capacity q).

Lemma q_locked_spec q :
  queue_ok q -> queue_ok (locked q) /\ q_abs (locked q) = q_abs q /\
  q_object (locked q) = q_object q /\ q_synchronized (locked q) = q_synchronized q.
Proof.
  intros Hok.
  destruct (@locked_spec _ queue_lockable _ queue_ok q_abs queue_ok_lock (fun _ _ => eq_refl) q Hok) as (? & ? & ?).
  split_and!; try done. unfold locked. by destruct (lk_synchronized q).
Qed.

(** What an operation between lock and unlock has to establish. *)
Definition q_result q (abs' : list Z * W * Z) q1 : Prop :=
  queue_ok q1 /\ q_abs q1 = abs' /\ q_object q1 = q_object q /\
  q_synchronized q1 = q_synchronized q /\ q_lock q1 = q_lock (locked q).

Lemma q_unlocked_spec q abs' q1 :
  q_result q abs' q1 ->
  queue_ok (unlocked q1) /\ q_abs (unlocked q1) = abs' /\ q_same q (unlocked q1).
Proof.
  intros (Hk & Ha & Ho & Hs & Hl).
  destruct (@unlocked_spec _ queue_lockable _ queue_ok q_abs queue_ok_lock (fun _ _ => eq_refl) q q1 Hk (conj Hs Hl))
    as (? & ? & ? & ?).
  split_and!; [done|congruence|]. split_and!; [|done|done].
  rewrite <- Ho. unfold unlocked. by destruct (lk_synchronized q1).
Qed.

(** *** Operations *)

Lemma enqueue_slot a h n x :
  0 <= h < zlen a -> 0 <= n < zlen a ->
  circular h (splice ((h + n) mod zlen a) [x] a) (n + 1) = circular h a n ++ [x].
Proof.
  intros Hh Hn. pose proof (Z.mod_pos_bound (h + n) (zlen a) ltac:(lia)) as Hm.
  assert (Hz : zlen (splice ((h + n) mod zlen a) [x] a) = zlen a) by (apply zlen_splice1; lia).
  apply znth_ext; [rewrite zlen_app, !zlen_circular; rewrite ?zlen_cons, ?zlen_nil; lia|].
  rewrite zlen_circular by lia. intros i Hi. rewrite znth_circular, Hz by lia.
  rewrite znth_splice1, znth_app, zlen_circular by lia. rewrite !mod_step by lia.
  destruct (i <? n) eqn:E.
  - rewrite znth_circular, mod_step by lia.
    destruct (h + i <? zlen a) eqn:E1, (h + n <? zlen a) eqn:E2; case_if; try lia; done.
  - assert (i = n) as -> by lia. by rewrite Z.sub_diag, Z.eqb_refl.
Qed.

Lemma Queue_Enqueue_run obj q :
  queue_ok q ->
  exists q', Queue_Enqueue obj q = Ret (true, q') /\ queue_ok q' /\ q_same q q' /\
    let c := q_grown (q_capacity q) (zlen (q_contents q)) in
    (q_abs q' = q_abs q /\ q_capacity q <= zlen (q_contents q) + 1 /\ malloc_ok (8 * c) = false \/
     (q_capacity q <= zlen (q_contents q) + 1 -> malloc_ok (8 * c) = true) /\
     let '(x, w) := obj_new (q_object q) obj (q_world q) in q_abs q' = (q_contents q ++ [x], w, c)).
Proof.
  intros Hok. destruct (q_locked_spec q Hok) as (Hl & Ha & Ho & Hs).
  assert (Hw : q_world (locked q) = q_world q) by (unfold locked; by destruct (lk_synchronized q)).
  assert (Hc : q_contents (locked q) = q_contents q) by (unfold locked; by destruct (lk_synchronized q)).
  unfold Queue_Enqueue. rewrite lock_run.
  assert (Hcp : q_capacity (locked q) = q_capacity q) by (unfold locked; by destruct (lk_synchronized q)).
  assert (Hzs : q_size (locked q) = zlen (q_contents q)) by (by rewrite <- Hc, zlen_q_contents). cbv zeta.
  pose proof (Queue_EnsureCapacity_run _ Hl) as Hens. cbv zeta in Hens. rewrite Hcp, Hzs in Hens. set (c := q_grown _ _) in *.
  destruct Hens as [(Hf & Hn & Hr)|(a & t & Hr & Hk & Hsz & Hcc & Hm1)];
    unfold pbind at 1; rewrite Hr; cbn [negb].
  - unfold pbind at 1, pret at 1. rewrite unlock_run. eexists. split; [reflexivity|].
    destruct (q_unlocked_spec q (q_abs q) (locked q)) as (? & ? & ?); [by split_and!|].
    split_and!; [done|done|]. left. done.
  - set (q1 := q_set_ends _ _ _ _) in *. unfold pbind at 1. rewrite pbind_pget.
    pose proof Hk as []. pose proof (q_tail_cases q1 Hk) as Ht.
    change (q_object q1) with (q_object (locked q)). change (q_world q1) with (q_world (locked q)).
    rewrite Ho, Hw. destruct (obj_new (q_object q) obj (q_world q)) as [x w].
    assert (Hti : 0 <= q_tail q1 < zlen (q_array q1)) by lia.
    rewrite slot_set_run, pbind_plift, pbind_pput, pbind_pget, pbind_pput, pbind_pget by done.
    unfold pput. rewrite unlock_run. eexists. split; [reflexivity|].
    match goal with |- context [unlocked ?r] => set (q2 := r) end.
    destruct (q_unlocked_spec q (q_contents q ++ [x], w, c) q2) as (? & ? & ?);
      [|split_and!; [done|done|by right]].
    assert (Hc1 : q_capacity q1 = c) by done. assert (Hs1 : q_size q1 = zlen (q_contents q)) by done.
    assert (Hm : u64 (q_tail q1 + 1) mod q_capacity q1 =
                 (q_head q1 + (q_size q1 + 1)) mod q_capacity q1).
    { rewrite u64_id by lia. rewrite qo_tail0, Z.add_mod_idemp_l by lia. f_equal. lia. }
    unfold q_result. split_and!; [split| |done..].
    + change (zlen (splice (q_tail q1) [x] (q_array q1)) = q_capacity q1). by rewrite zlen_splice1.
    + done.
    + done.
    + change (0 <= u64 (q_size q1 + 1) < q_capacity q1). rewrite u64_id; lia.
    + done.
    + change (u64 (q_tail q1 + 1) mod q_capacity q1 =
              (q_head q1 + u64 (q_size q1 + 1)) mod q_capacity q1).
      rewrite (u64_id (q_size q1 + 1)) by lia. exact Hm.
    + change (true = (0 <? u64 (q_size q1 + 1))). rewrite u64_id by lia. lia.
    + change ((circular (q_head q1) (splice (q_tail q1) [x] (q_array q1)) (u64 (q_size q1 + 1)), w, c) =
              (q_contents q ++ [x], w, c)).
      f_equal. rewrite u64_id by lia. rewrite qo_tail0, <- qo_array0, enqueue_slot by lia.
      f_equal. by rewrite <- Hc, <- Hcc.
Qed.

Lemma dequeue_slot a h n :
  0 <= h < zlen a -> 0 < n <= zlen a ->
  circular h a n = znth a h :: circular ((h + 1) mod zlen a) (splice h [NULL] a) (n - 1).
Proof.
  intros Hh Hn. pose proof (Z.mod_pos_bound (h + 1) (zlen a) ltac:(lia)) as Hm.
  assert (Hz : zlen (splice h [NULL] a) = zlen a) by (apply zlen_splice1; lia).
  apply znth_ext; [rewrite zlen_cons, !zlen_circular; lia|]. rewrite zlen_circular by lia.
  intros i Hi. rewrite znth_circular, mod_step by lia.
  change (znth a h :: ?l) with ([znth a h] ++ l). rewrite znth_app, zlen_cons, zlen_nil.
  destruct (i <? 1 + 0) eqn:E.
  - assert (i = 0) as -> by lia. rewrite Z.add_0_r. by replace (h <? zlen a) with true by lia.
  - rewrite znth_circular, Hz by lia. rewrite znth_splice1, Z.add_mod_idemp_l by lia.
    replace (h + 1 + (i - (1 + 0))) with (h + i) by lia. rewrite mod_step by lia.
    by destruct (h + i <? zlen a) eqn:E1; case_if; try lia.
Qed.

Lemma Queue_Dequeue_run q :
  queue_ok q ->
  exists q', Queue_Dequeue q = Ret (hd NULL (q_contents q), q') /\ queue_ok q' /\ q_same q q' /\
    q_abs q' = (tail (q_contents q), q_world q, q_capacity q).
Proof.
  intros Hok. destruct (q_locked_spec q Hok) as (Hl & Ha & Ho & Hs).
  pose proof (zlen_q_contents _ Hok) as Hzc.
  unfold Queue_Dequeue. rewrite lock_run, pbind_pget. set (q0 := locked q) in *.
  assert (Hw : q_world q0 = q_world q) by (unfold q_abs in *; congruence). assert (Hc : q_contents q0 = q_contents q) by (unfold q_abs in *; congruence).
  assert (Hcp : q_capacity q0 = q_capacity q) by (unfold q_abs in *; congruence).
  pose proof Hl as []. pose proof (q_tail_cases q0 Hl) as Ht.
  destruct (0 <? q_size q0) eqn:E.
  - unfold pbind at 1. rewrite slot_get_run, slot_set_run by lia.
    rewrite !pbind_plift, pbind_pput. unfold pret at 1. rewrite pbind_pget.
    set (q1 := q_set_ends _ _ _ _).
    assert (Hd : q_contents q = znth (q_array q0) (q_head q0) :: q_contents q1).
    { rewrite <- Hc. unfold q_contents. rewrite dequeue_slot by lia. cbn.
      rewrite qo_array0, !u64_id by lia. done. }
    assert (Hk1 : queue_ok (q_set_event (0 <? q_size q1) q1)).
    { split; cbn; rewrite ?u64_id by lia; try lia; [by rewrite zlen_splice1 by lia|by apply Z.mod_pos_bound; lia|].
      rewrite qo_tail0, Z.add_mod_idemp_l by lia. f_equal. lia. }
    assert (He : (if q_size q1 <? 1 then pput (q_set_event false q1) else pret tt) q1 =
                 Ret (tt, q_set_event (0 <? q_size q1) q1)).
    { assert (Hev : q_event q1 = true) by (cbn; rewrite qo_event0; lia).
      case_if; unfold pput, pret; do 2 f_equal; [by replace (0 <? q_size q1) with false by lia|].
      replace (0 <? q_size q1) with true by lia. rewrite <- Hev. by destruct q1. }
    unfold pbind at 1. rewrite He, unlock_run. eexists. split; [unfold pret; by rewrite Hd|].
    destruct (q_unlocked_spec q (tail (q_contents q), q_world q, q_capacity q) (q_set_event (0 <? q_size q1) q1))
      as (? & ? & ?); [|done]. rewrite Hd. unfold q_result. split_and!; [done| |done..].
    unfold q_abs. by rewrite <- Hw, <- Hcp.
  - assert (Hn : q_contents q = []).
    { apply zlen_0_nil. rewrite <- Hc, zlen_q_contents by done. lia. }
    unfold pbind at 1, pret at 1. rewrite pbind_pget. replace (q_size q0 <? 1) with true by lia.
    rewrite pbind_pput, unlock_run. eexists. split; [by rewrite Hn|].
    destruct (q_unlocked_spec q ([], q_world q, q_capacity q) (q_set_event false q0)) as (? & ? & ?); [|by rewrite Hn].
    unfold q_result. split_and!; [|by unfold q_abs; rewrite <- Hw, <- Hcp, <- Hn, <- Hc|done..].
    split; cbn; try done; lia.
Qed.

Lemma Queue_Peek_run q :
  queue_ok q ->
  exists q', Queue_Peek q = Ret (hd NULL (q_contents q), q') /\ queue_ok q' /\ q_same q q' /\
    q_abs q' = q_abs q.
Proof.
  intros Hok. destruct (q_locked_spec q Hok) as (Hl & Ha & Ho & Hs).
  destruct (q_unlocked_spec q (q_abs q) (locked q)) as (? & ? & ?); [by split_and!|].
  unfold Queue_Peek. rewrite lock_run, pbind_pget. set (q0 := locked q) in *.
  assert (Hc : q_contents q0 = q_contents q) by (unfold q_abs in *; congruence). pose proof Hl as [].
  exists (unlocked q0). split_and!; [|done..]. rewrite <- Hc.
  destruct (0 <? q_size q0) eqn:E.
  - unfold q_contents. rewrite slot_get_run, pbind_plift, unlock_run, dequeue_slot by lia. done.
  - rewrite pbind_pret, unlock_run.
    rewrite (zlen_0_nil (q_contents q0)) by (rewrite zlen_q_contents by done; lia). done.
Qed.

Lemma Queue_Count_run q :
  queue_ok q ->
  exists q', Queue_Count q = Ret (zlen (q_contents q), q') /\ queue_ok q' /\ q_same q q' /\
    q_abs q' = q_abs q.
Proof.
  intros Hok. destruct (q_locked_spec q Hok) as (Hl & Ha & Ho & Hs).
  destruct (q_unlocked_spec q (q_abs q) (locked q)) as (? & ? & ?); [by split_and!|].
  unfold Queue_Count. rewrite lock_run, pbind_pget, unlock_run.
  exists (unlocked (locked q)). split_and!; [|done..].
  assert (Hc : q_contents (locked q) = q_contents q) by (unfold q_abs in *; congruence).
  by rewrite <- Hc, zlen_q_contents.
Qed.

Lemma Queue_Discard_run q :
  queue_ok q ->
  exists q', Queue_Discard q = Ret (tt, q') /\ queue_ok q' /\ q_same q q' /\
    q_abs q' = (tail (q_contents q),
                obj_free (q_object q) (hd NULL (q_contents q)) (q_world q), q_capacity q).
Proof.
  intros Hok. destruct (q_locked_spec q Hok) as (Hl & Ha & Ho & Hs).
  destruct (Queue_Dequeue_run _ Hl) as (q1 & Hd & Hk1 & (Hs1 & Hs2 & Hs3) & Ha1).
  assert (Hw : q_world (locked q) = q_world q) by (unfold q_abs in *; congruence).
  assert (Hc : q_contents (locked q) = q_contents q) by (unfold q_abs in *; congruence).
  unfold Queue_Discard. rewrite lock_run. unfold pbind at 1. rewrite Hd, pbind_pget, pbind_pput.
  rewrite unlock_last. eexists. split; [done|].
  assert (Hw1 : q_world q1 = q_world q) by (unfold q_abs in *; congruence).
  assert (Hc1 : q_contents q1 = tail (q_contents q)) by (unfold q_abs in *; congruence).
  assert (Hcp1 : q_capacity q1 = q_capacity q) by (unfold q_abs in *; congruence).
  rewrite Hs1, Ho, Hw1, Hc.
  match goal with |- context [unlocked ?r] => set (q2 := r) end.
  match goal with |- context [q_abs _ = ?r] =>
    destruct (q_unlocked_spec q r q2) as (? & ? & ?); [|done] end.
  unfold q_result. split_and!; [by destruct Hk1|by rewrite <- Hc1, <- Hcp1|unfold q2; cbn; congruence..].
Qed.

Lemma clear_loop_run n fuel index q :
  zlen (q_array q) = q_capacity q -> q_capacity q < 2 ^ 60 -> 0 <= index < q_capacity q ->
  Z.of_nat n < q_capacity q -> q_tail q = (index + Z.of_nat n) mod q_capacity q -> (n <= fuel)%nat ->
  exists a, zlen a = q_capacity q /\ clear_loop fuel index q =
    Ret (tt, q_set_world (free_all (q_object q) (circular index (q_array q) (Z.of_nat n)) (q_world q))
               (q_set_storage (q_capacity q) a q)).
Proof.
  revert fuel index q. induction n as [|n IH]; intros fuel index q Ha Hc Hi Hn Ht Hf.
  - exists (q_array q). split; [done|]. rewrite Z.add_0_r, Z.mod_small in Ht by lia.
    assert (E : (index =? q_tail q) = true) by lia.
    unfold circular. rewrite ztake_0 by lia.
    destruct fuel; cbn [clear_loop]; rewrite pbind_pget, E; unfold pret; by destruct q.
  - destruct fuel as [|fuel]; [lia|]. cbn [clear_loop]. rewrite pbind_pget.
    pose proof Ht as Ht0. rewrite mod_step in Ht by lia.
    replace (index =? q_tail q) with false
      by (destruct (index + Z.of_nat (S n) <? q_capacity q) eqn:E; lia).
    rewrite slot_get_run, slot_set_run by lia.
    rewrite pbind_plift, pbind_pput, pbind_plift, pbind_pget, pbind_pput. cbn [q_capacity q_set_world q_set_storage].
    rewrite u64_id by lia. set (q1 := q_set_storage _ _ _).
    destruct (IH fuel ((index + 1) mod q_capacity q) q1) as (a & Hza & Hrun).
    { cbn. by rewrite zlen_splice1 by lia. } { done. } { change (q_capacity q1) with (q_capacity q). apply Z.mod_pos_bound. lia. } { change (q_capacity q1) with (q_capacity q). lia. }
    { cbn. rewrite Z.add_mod_idemp_l by lia. rewrite Ht0. f_equal. lia. } { lia. }
    exists a. split; [done|]. rewrite Hrun.
    rewrite (dequeue_slot (q_array q) index) by lia. rewrite Ha.
    replace (Z.of_nat (S n) - 1) with (Z.of_nat n) by lia. done.
Qed.

Lemma Queue_Clear_run q :
  queue_ok q ->
  exists q', Queue_Clear q = Ret (tt, q') /\ queue_ok q' /\ q_same q q' /\
    q_abs q' = ([], free_all (q_object q) (q_contents q) (q_world q), q_capacity q).
Proof.
  intros Hok. destruct (q_locked_spec q Hok) as (Hl & Ha & Ho & Hs).
  unfold Queue_Clear. rewrite lock_run, pbind_pget. set (q0 := locked q) in *.
  assert (Hw : q_world q0 = q_world q) by (unfold q_abs in *; congruence).
  assert (Hc : q_contents q0 = q_contents q) by (unfold q_abs in *; congruence).
  assert (Hcp : q_capacity q0 = q_capacity q) by (unfold q_abs in *; congruence).
  pose proof Hl as [].
  destruct (clear_loop_run (Z.to_nat (q_size q0)) (Z.to_nat (q_capacity q0)) (q_head q0) q0)
    as (a & Hza & Hrun); [lia..|by rewrite Z2Nat.id by lia|lia|].
  unfold pbind at 1. rewrite Hrun, pbind_pget, pbind_pput, pbind_pget, pbind_pput, unlock_last.
  eexists. split; [done|]. rewrite Z2Nat.id by lia.
  match goal with |- context [unlocked ?r] => set (q2 := r) end.
  match goal with |- context [q_abs _ = ?r] =>
    destruct (q_unlocked_spec q r q2) as (? & ? & ?); [|done] end.
  unfold q_result. split_and!; [|by rewrite <- Hc, <- Hw, <- Ho, <- Hcp|done..].
  split; cbn; try done; lia.
Qed.
End queue.

(** ** The queue as a transition system *)

Inductive queue_op : Type :=
| QEnqueue (obj : Z) | QDequeue | QPeek | QDiscard | QClear | QCount.

Inductive queue_out : Type := QDone | QBool (b : bool) | QPointer (p : Z) | QNumber (n : Z).

Section queue_spec.
Context {W : Type} `{Malloc} `{FreshMemory}.

Definition run_queue_op (op : queue_op) : Prog (wQueue W) queue_out :=
  match op with
  | QEnqueue obj => b <- Queue_Enqueue obj ;; pret (QBool b)
  | QDequeue => p <- Queue_Dequeue ;; pret (QPointer p)
  | QPeek => p <- Queue_Peek ;; pret (QPointer p)
  | QDiscard => Queue_Discard ;; pret QDone
  | QClear => Queue_Clear ;; pret QDone
  | QCount => n <- Queue_Count ;; pret (QNumber n)
  end.

(** An object is dropped only when the array is full and a larger one is refused. *)
Inductive queue_step (o : wObject W) : list Z * W * Z -> queue_op -> queue_out -> list Z * W * Z -> Prop :=
| step_enqueue l w c obj x w' :
    (c <= zlen l + 1 -> malloc_ok (8 * q_grown c (zlen l)) = true) -> obj_new o obj w = (x, w') -> queue_step o (l, w, c) (QEnqueue obj) (QBool true) (l ++ [x], w', q_grown c (zlen l))
| step_enqueue_no_memory l w c obj :
    c <= zlen l + 1 -> malloc_ok (8 * q_grown c (zlen l)) = false -> queue_step o (l, w, c) (QEnqueue obj) (QBool true) (l, w, c)
| step_dequeue l w c : queue_step o (l, w, c) QDequeue (QPointer (hd NULL l)) (tail l, w, c)
| step_qpeek l w c : queue_step o (l, w, c) QPeek (QPointer (hd NULL l)) (l, w, c)
| step_discard l w c : queue_step o (l, w, c) QDiscard QDone (tail l, obj_free o (hd NULL l) w, c)
| step_clear l w c : queue_step o (l, w, c) QClear QDone ([], free_all o l w, c)
| step_count l w c : queue_step o (l, w, c) QCount (QNumber (zlen l)) (l, w, c).

Lemma run_queue_op_refines op (q : wQueue W) :
  queue_ok q -> exists out q', run_queue_op op q = Ret (out, q') /\
    (queue_ok q' /\ q_same q q') /\ queue_step (q_object q) (q_abs q) op out (q_abs q').
Proof.
  intros Hok. destruct op; unfold run_queue_op, pbind.
  - destruct (Queue_Enqueue_run obj q Hok) as (q' & -> & Hk & Hs & Ha). do 2 eexists.
    split; [reflexivity|]. split; [done|]. destruct Ha as [(-> & Hf & Hn)|[Hm Ha]].
    + by apply step_enqueue_no_memory.
    + destruct (obj_new _ _ _) as [x w] eqn:E. rewrite Ha. by constructor.
  - destruct (Queue_Dequeue_run q Hok) as (q' & -> & Hk & Hs & Ha). do 2 eexists.
    split; [reflexivity|]. split; [done|]. rewrite Ha. constructor.
  - destruct (Queue_Peek_run q Hok) as (q' & -> & Hk & Hs & Ha). do 2 eexists.
    split; [reflexivity|]. split; [done|]. rewrite Ha. constructor.
  - destruct (Queue_Discard_run q Hok) as (q' & -> & Hk & Hs & Ha). do 2 eexists.
    split; [reflexivity|]. split; [done|]. rewrite Ha. constructor.
  - destruct (Queue_Clear_run q Hok) as (q' & -> & Hk & Hs & Ha). do 2 eexists.
    split; [reflexivity|]. split; [done|]. rewrite Ha. constructor.
  - destruct (Queue_Count_run q Hok) as (q' & -> & Hk & Hs & Ha). do 2 eexists.
    split; [reflexivity|]. split; [done|]. rewrite Ha. constructor.
Qed.

(** The client installs its callbacks through [Queue_Object]. *)
Definition q_set_object (o : wObject W) (q : wQueue W) : wQueue W :=
  mkQueue (q_capacity q) (q_growthFactor q) (q_synchronized q) (q_head q) (q_tail q) (q_size q)
    (q_array q) (q_lock q) (q_event q) o (q_world q).

Lemma Queue_New_run lock_ok event_ok sync cap gf (w : W) :
  cap <= 0 \/ 2 <= cap < 2 ^ 60 -> gf <= 0 \/ gf = 2 ->
  exists r, Queue_New lock_ok event_ok sync cap gf w = Ret r /\
  forall q, r = Some q -> queue_ok q /\ q_abs q = ([], w, if cap <=? 0 then 32 else cap) /\ q_lock q = 0.
Proof.
  intros Hcap Hgf. unfold Queue_New. case_if; [by exists None|].
  set (c := if cap <=? 0 then 32 else cap).
  assert (Hc : 2 <= c < 2 ^ 60) by (unfold c; case_if; lia).
  assert (Hg : (if 0 <? gf then gf else 2) = 2) by (case_if; lia). rewrite Hg.
  set (q0 := mkQueue 0 2 sync 0 0 0 [] 0 false default_object w).
  destruct lock_ok; cbn [negb]; [|by exists None].
  assert (Hclr : forall q : wQueue W, q_head q = 0 -> q_tail q = 0 -> exists r, Queue_Free true q = Ret r).
  { intros q Hh Ht. unfold Queue_Free, Queue_Clear. rewrite lock_run, pbind_pget.
    unfold pbind at 1.
    assert (Hl : clear_loop (Z.to_nat (q_capacity (locked q))) (q_head (locked q)) (locked q) =
                 Ret (tt, locked q)).
    { assert (Hz : q_head (locked q) = q_tail (locked q))
        by (unfold locked; destruct (lk_synchronized q); cbn; lia).
      destruct (Z.to_nat _); cbn [clear_loop]; by rewrite pbind_pget, Hz, Z.eqb_refl. }
    rewrite Hl, pbind_pget, pbind_pput, pbind_pget, pbind_pput, unlock_last. by eexists. }
  unfold Queue_EnsureCapacity. rewrite pbind_pget. cbn [q_capacity q_size q0 q_growthFactor].
  rewrite !(u64_id (0 + c)) by lia. replace (0 <=? 0 + c) with true by lia.
  change (u64 (0 * 2)) with 0. replace (0 <? 0 + c) with true by lia. rewrite !Z.add_0_l.
  rewrite (u64_id (8 * c)) by lia. replace (8 * c / 8) with c by (Z.div_mod_to_equations; lia).
  destruct (malloc_ok (8 * c)); cbn [negb].
  2: { unfold pret. destruct (Hclr q0 eq_refl eq_refl) as (r & ->). by exists None. }
  rewrite (u64_id (c - 0)) by lia.
  pose proof (grow_run [] c ltac:(rewrite zlen_nil; lia)) as Hgr. rewrite zlen_nil in Hgr.
  cbn [q_array q0]. rewrite Hgr, pbind_plift, pbind_pput. cbn [q_tail q_head q0].
  change (0 <=? 0) with true. cbn iota.
  assert (Hz : zlen (grown [] c) = c) by (apply zlen_grown; rewrite zlen_nil; lia).
  rewrite slots_read_run, pbind_plift, ztake_0 by lia.
  rewrite slots_write_run; [|lia|rewrite Hz; change (0 + 0 <= c); lia]. rewrite pbind_plift.
  assert (Hs : splice 0 [] (grown [] c) = grown [] c) by (unfold splice; rewrite ztake_0 by lia; done).
  rewrite Hs, pbind_pget, pbind_pput. unfold pret. change (u64 (0 + 0)) with 0.
  set (q1 := q_set_ends _ _ _ _).
  destruct event_ok; cbn [negb].
  - eexists. split; [reflexivity|]. intros q [= <-]. split; [|split; [|done]].
    + split; cbn; try done; try lia.
    + unfold q_abs, q_contents, circular. cbn. by rewrite ztake_0 by lia.
  - destruct (Hclr q1 eq_refl eq_refl) as (r & ->). by exists None.
Qed.
End queue_spec.

(** ** Properties *)

(** A queue made by [Queue_New] with the default growth and any capacity except 1 behaves,
    under every sequence of operations and for any callbacks, as a list of objects: enqueued
    objects (or their clones) come out in order, [Queue_Clear] and [Queue_Discard] free each
    removed object once, growth and wrap-around are invisible, the event is set exactly while
    there is an element, and every operation releases the lock it took.  When the array is full
    and a larger one is refused, an object is not enqueued, although TRUE is returned. *)
Theorem queue_refines_list {W : Type} `{Malloc} `{FreshMemory} (o : wObject W) (w : W)
    (sync : bool) (cap gf : Z) (q : wQueue W) (ops : list queue_op) :
  Queue_New true true sync cap gf w = Ret (Some q) ->
  cap <= 0 \/ 2 <= cap < 2 ^ 60 -> gf <= 0 \/ gf = 2 ->
  exists outs q', run_seq run_queue_op ops (q_set_object o q) = Ret (outs, q') /\
    steps (queue_step o) ([], w, if cap <=? 0 then 32 else cap) ops outs (q_abs q') /\
    q_lock q' = 0 /\ Queue_Event q' = (0 <? zlen (q_contents q')).
Proof.
  intros Hnew Hcap Hgf. destruct (Queue_New_run true true sync cap gf w Hcap Hgf) as (r & Hr & Hq).
  rewrite Hnew in Hr. injection Hr as <-. destruct (Hq q eq_refl) as (Hok & Ha & Hl).
  pose (q0 := q_set_object o q). assert (Hok0 : queue_ok q0) by (by destruct Hok).
  destruct (run_seq_refines run_queue_op (fun s => queue_ok s /\ q_same q0 s) q_abs (queue_step o)
    (fun _ => True)) with (ops := ops) (s := q0) as (outs & q' & Hrun & [Hk Hs] & Hst).
  - intros op s _ [Hks (Ho & Hs1 & Hs2)].
    destruct (run_queue_op_refines op s Hks) as (out & s' & Hr & [Hk' (Ho' & ? & ?)] & Hst).
    exists out, s'. rewrite Ho in Hst. split_and!; [done|done| |done].
    unfold q_same. split_and!; congruence.
  - apply Forall_forall. done.
  - done.
  - exists outs, q'. change (q_abs q0) with (q_abs q) in Hst. rewrite Ha in Hst.
    destruct Hs as (_ & _ & Hsl). split_and!; [done|done|by rewrite Hsl|].
    rewrite zlen_q_contents by done. apply Hk.
Qed.

Lemma queue_refines_list_witness :
  exists q outs q',
    @Queue_New unit malloc_all fresh_zero true true true 0 0 tt = Ret (Some q) /\
    run_seq (@run_queue_op unit malloc_all fresh_zero) [QEnqueue 5; QEnqueue 6; QDequeue; QCount]
      (q_set_object default_object q) = Ret (outs, q') /\
    outs = [QBool true; QBool true; QPointer 5; QNumber 1] /\ q_lock q' = 0.
Proof.
  eexists. destruct (@queue_refines_list unit malloc_all fresh_zero default_object tt true 0 0 _
    [QEnqueue 5; QEnqueue 6; QDequeue; QCount] eq_refl ltac:(lia) ltac:(lia))
    as (outs & q' & Hr & _ & Hl & _).
  exists outs, q'. split; [reflexivity|]. split; [exact Hr|]. split; [|done].
  vm_compute in Hr. by injection Hr as <- <-.
Defined.

(** Three defects.  A queue made with capacity 1 returns NULL for the first object put into
    it.  [Queue_Contains] looks at the slots below the tail instead of those between head and
    tail: it misses an element of a wrapped queue and finds NULL where an element was removed.
    [Queue_Enqueue] returns TRUE when the array could not grow and the object was dropped. *)
Theorem queue_defects :
  let new cap := @Queue_New unit malloc_all fresh_zero true true true cap 0 tt in
  let run := run_seq (@run_queue_op unit malloc_all fresh_zero) in
  (exists q q', new 1 = Ret (Some q) /\
     run [QEnqueue 7; QDequeue] q = Ret ([QBool true; QPointer NULL], q')) /\
  (exists q outs q', new 4 = Ret (Some q) /\
     run [QEnqueue 1; QEnqueue 2; QDequeue; QDequeue; QEnqueue 3; QEnqueue 4] q = Ret (outs, q') /\
     q_contents q' = [3; 4] /\ exists q'', Queue_Contains 3 q' = Ret (false, q'')) /\
  (exists q outs q', new 4 = Ret (Some q) /\
     run [QEnqueue 1; QEnqueue 2; QDequeue] q = Ret (outs, q') /\
     q_contents q' = [2] /\ exists q'', Queue_Contains NULL q' = Ret (true, q'')) /\
  (exists q q', @Queue_New unit (malloc_limit 200) fresh_zero true true true 16 0 tt = Ret (Some q) /\
     run_seq (@run_queue_op unit (malloc_limit 200) fresh_zero)
       (map QEnqueue (seqZ 1 16)) q = Ret (replicate 16 (QBool true), q') /\
     q_contents q' = seqZ 1 15).
Proof.
  cbv zeta. split; [|split; [|split]].
  - do 2 eexists. split; [vm_compute; reflexivity|]. vm_compute. reflexivity.
  - do 3 eexists. split; [vm_compute; reflexivity|]. split; [vm_compute; reflexivity|].
    split; [vm_compute; reflexivity|]. eexists. vm_compute. reflexivity.
  - do 3 eexists. split; [vm_compute; reflexivity|]. split; [vm_compute; reflexivity|].
    split; [vm_compute; reflexivity|]. eexists. vm_compute. reflexivity.
  - do 2 eexists. split; [vm_compute; reflexivity|]. split; [vm_compute; reflexivity|].
    vm_compute. reflexivity.
Qed.
