(* ===== verification/ArrayList.v ===== *)
(** * Array lists: [winpr/libwinpr/utils/collections/ArrayList.c]

    A growing array of pointers with a lock and callbacks.  The slots from [al_size] on hold
    whatever the memory held. *)

From S2P Require Import Prelude Memory Collections.

Section arraylist_ops.
Context {W : Type} `{Malloc} `{FreshMemory}.

Record wArrayList : Type := mkArrayList {
  al_capacity : Z;
  al_growthFactor : Z;
  al_synchronized : bool;
  al_size : Z;
  al_array : list Z;
  al_lock : Z;
  al_object : wObject W;
  al_world : W
}.

Definition al_set_lock (l : Z) (s : wArrayList) : wArrayList :=
  mkArrayList (al_capacity s) (al_growthFactor s) (al_synchronized s) (al_size s) (al_array s) l
    (al_object s) (al_world s).
Definition al_set_world (w : W) (s : wArrayList) : wArrayList :=
  mkArrayList (al_capacity s) (al_growthFactor s) (al_synchronized s) (al_size s) (al_array s)
    (al_lock s) (al_object s) w.
Definition al_set_size (n : Z) (s : wArrayList) : wArrayList :=
  mkArrayList (al_capacity s) (al_growthFactor s) (al_synchronized s) n (al_array s)
    (al_lock s) (al_object s) (al_world s).
Definition al_set_array (c : Z) (a : list Z) (s : wArrayList) : wArrayList :=
  mkArrayList c (al_growthFactor s) (al_synchronized s) (al_size s) a
    (al_lock s) (al_object s) (al_world s).

(** ** Operations *)

Definition ArrayList_Capacity (s : wArrayList) : Z := al_capacity s.
Definition ArrayList_Count (s : wArrayList) : Z := al_size s.
Definition ArrayList_Items (s : wArrayList) : list Z * Z := (al_array s, al_size s).
Definition ArrayList_IsFixedSized (s : wArrayList) : bool := false.
Definition ArrayList_IsReadOnly (s : wArrayList) : bool := false.
Definition ArrayList_IsSynchronized (s : wArrayList) : bool := al_synchronized s.
Definition ArrayList_Object (s : wArrayList) : wObject W := al_object s.

Definition ArrayList_Lock : Prog wArrayList unit :=
  s <- pget ;; pput (al_set_lock (al_lock s + 1) s).
Definition ArrayList_Unlock : Prog wArrayList unit :=
  s <- pget ;; pput (al_set_lock (al_lock s - 1) s).
Definition ArrayList_Lock_Conditional : Prog wArrayList unit :=
  s <- pget ;; if al_synchronized s then pput (al_set_lock (al_lock s + 1) s) else pret tt.
Definition ArrayList_Unlock_Conditional : Prog wArrayList unit :=
  s <- pget ;; if al_synchronized s then pput (al_set_lock (al_lock s - 1) s) else pret tt.

Definition ArrayList_GetItem (index : Z) : Prog wArrayList Z :=
  s <- pget ;;
  if index <? al_size s then plift (slot_get index (al_array s)) else pret NULL.

Definition ArrayList_SetItem (index obj : Z) : Prog wArrayList bool :=
  s <- pget ;;
  if al_size s <=? index then pret false
  else
    match fnObjectNew (al_object s) with
    | Some new =>
        let '(x, w) := new obj (al_world s) in
        a <- plift (slot_set index x (al_array s)) ;;
        pput (al_set_world w (al_set_array (al_capacity s) a s)) ;;
        if negb (obj =? NULL) && (x =? NULL) then pret false else pret true
    | None =>
        a <- plift (slot_set index obj (al_array s)) ;;
        pput (al_set_array (al_capacity s) a s) ;;
        pret true
    end.

Definition ArrayList_EnsureCapacity (count : Z) : Prog wArrayList bool :=
  passert (0 <? count) ;;
  s <- pget ;;
  if al_capacity s <? u64 (al_size s + count) then
    let doubled := u64 (al_capacity s * al_growthFactor s) in
    let newCapacity :=
      if doubled <? u64 (al_size s + count) then u64 (al_size s + count) else doubled in
    let bytes := u64 (8 * newCapacity) in
    if negb (malloc_ok bytes) then pret false
    else pput (al_set_array newCapacity (mem_realloc (al_array s) (bytes / 8)) s) ;; pret true
  else pret true.

Definition ArrayList_Shift (index count : Z) : Prog wArrayList bool :=
  if 0 <? count then
    ok <- ArrayList_EnsureCapacity count ;;
    if negb ok then pret false
    else
      s <- pget ;;
      moved <- plift (slots_read index (al_size s - index) (al_array s)) ;;
      a <- plift (slots_write (index + count) moved (al_array s)) ;;
      pput (al_set_size (u64 (al_size s + count)) (al_set_array (al_capacity s) a s)) ;;
      pret true
  else if count <? 0 then
    s <- pget ;;
    let chunk := al_size s - index + count in
    (if 0 <? chunk then
       moved <- plift (slots_read (index - count) chunk (al_array s)) ;;
       a <- plift (slots_write index moved (al_array s)) ;;
       pput (al_set_array (al_capacity s) a s)
     else pret tt) ;;
    s <- pget ;;
    pput (al_set_size (u64 (al_size s + count)) s) ;;
    pret true
  else pret true.

(** [for (index = 0; index < size; index++)] frees and clears the slots. *)
Fixpoint al_clear_loop (n : nat) (index : Z) : Prog wArrayList unit :=
  match n with
  | O => pret tt
  | S n' =>
      s <- pget ;;
      x <- plift (slot_get index (al_array s)) ;;
      pput (al_set_world (obj_free (al_object s) x (al_world s)) s) ;;
      a <- plift (slot_set index NULL (al_array s)) ;;
      s <- pget ;; pput (al_set_array (al_capacity s) a s) ;;
      al_clear_loop n' (index + 1)
  end.

Definition ArrayList_Clear : Prog wArrayList unit :=
  ArrayList_Lock_Conditional ;;
  s <- pget ;;
  al_clear_loop (Z.to_nat (al_size s)) 0 ;;
  s <- pget ;; pput (al_set_size 0 s) ;;
  ArrayList_Unlock_Conditional.

(** The first of the [n] slots from [index] on that equals [obj]. *)
Fixpoint al_find_loop (n : nat) (index obj : Z) : Prog wArrayList (option Z) :=
  match n with
  | O => pret None
  | S n' =>
      s <- pget ;;
      x <- plift (slot_get index (al_array s)) ;;
      if fnObjectEquals (al_object s) x obj then pret (Some index)
      else al_find_loop n' (index + 1) obj
  end.

Definition ArrayList_Contains (obj : Z) : Prog wArrayList bool :=
  ArrayList_Lock_Conditional ;;
  s <- pget ;;
  r <- al_find_loop (Z.to_nat (al_size s)) 0 obj ;;
  ArrayList_Unlock_Conditional ;;
  pret (match r with Some _ => true | None => false end).

Definition ArrayList_Append (obj : Z) : Prog wArrayList bool :=
  ArrayList_Lock_Conditional ;;
  ok <- ArrayList_EnsureCapacity 1 ;;
  rc <- (if negb ok then pret false
         else
           s <- pget ;;
           let index := al_size s in
           pput (al_set_size (u64 (al_size s + 1)) s) ;;
           ArrayList_SetItem index obj) ;;
  ArrayList_Unlock_Conditional ;;
  pret rc.

Definition ArrayList_Insert (index obj : Z) : Prog wArrayList bool :=
  ArrayList_Lock_Conditional ;;
  s <- pget ;;
  ret <- (if index <? al_size s then
            ok <- ArrayList_Shift index 1 ;;
            if negb ok then pret false else ArrayList_SetItem index obj ;; pret true
          else pret true) ;;
  ArrayList_Unlock_Conditional ;;
  pret ret.

Definition ArrayList_Remove (obj : Z) : Prog wArrayList bool :=
  ArrayList_Lock_Conditional ;;
  s <- pget ;;
  r <- al_find_loop (Z.to_nat (al_size s)) 0 obj ;;
  ret <- (match r with
          | Some index =>
              s <- pget ;;
              x <- plift (slot_get index (al_array s)) ;;
              pput (al_set_world (obj_free (al_object s) x (al_world s)) s) ;;
              ArrayList_Shift index (-1)
          | None => pret true
          end) ;;
  ArrayList_Unlock_Conditional ;;
  pret ret.

Definition ArrayList_RemoveAt (index : Z) : Prog wArrayList bool :=
  ArrayList_Lock_Conditional ;;
  s <- pget ;;
  ret <- (if index <? al_size s then
            x <- plift (slot_get index (al_array s)) ;;
            pput (al_set_world (obj_free (al_object s) x (al_world s)) s) ;;
            ArrayList_Shift index (-1)
          else pret true) ;;
  ArrayList_Unlock_Conditional ;;
  pret ret.

Definition ArrayList_IndexOf (obj startIndex count : Z) : Prog wArrayList Z :=
  ArrayList_Lock_Conditional ;;
  s <- pget ;;
  let sindex := if startIndex <? 0 then 0 else startIndex in
  let cindex := if count <? 0 then al_size s else count in
  r <- al_find_loop (Z.to_nat cindex) sindex obj ;;
  ArrayList_Unlock_Conditional ;;
  pret (match r with Some index => index | None => -1 end).

(** [for (index = sindex + cindex; index > sindex; index--)] looks at slot [index - 1]. *)
Fixpoint al_rfind_loop (n : nat) (sindex obj : Z) : Prog wArrayList (option Z) :=
  match n with
  | O => pret None
  | S n' =>
      s <- pget ;;
      let index := sindex + Z.of_nat n in
      x <- plift (slot_get (index - 1) (al_array s)) ;;
      if fnObjectEquals (al_object s) x obj then pret (Some index)
      else al_rfind_loop n' sindex obj
  end.

Definition ArrayList_LastIndexOf (obj startIndex count : Z) : Prog wArrayList Z :=
  ArrayList_Lock_Conditional ;;
  s <- pget ;;
  let sindex := if startIndex <? 0 then 0 else startIndex in
  let cindex := if count <? 0 then al_size s else count in
  r <- al_rfind_loop (Z.to_nat cindex) sindex obj ;;
  ArrayList_Unlock_Conditional ;;
  pret (match r with Some index => index | None => -1 end).

(** The callback sees the object, its index and the world; FALSE stops the loop. *)
Fixpoint al_foreach_loop (fkt : Z -> Z -> W -> bool * W) (n : nat) (index : Z)
  : Prog wArrayList bool :=
  match n with
  | O => pret true
  | S n' =>
      obj <- ArrayList_GetItem index ;;
      s <- pget ;;
      let '(rs, w) := fkt obj index (al_world s) in
      pput (al_set_world w s) ;;
      if negb rs then pret false else al_foreach_loop fkt n' (index + 1)
  end.

Definition ArrayList_ForEachAP (fkt : Z -> Z -> W -> bool * W) : Prog wArrayList bool :=
  ArrayList_Lock_Conditional ;;
  s <- pget ;;
  rc <- al_foreach_loop fkt (Z.to_nat (ArrayList_Count s)) 0 ;;
  ArrayList_Unlock_Conditional ;;
  pret rc.

Definition ArrayList_Free (s : wArrayList) : outcome W :=
  match ArrayList_Clear s with Ret (_, s') => Ret (al_world s') | Abort => Abort | Hang => Hang end.

Definition ArrayList_New (synchronized : bool) (w : W) : outcome (option wArrayList) :=
  if negb (malloc_ok 120) then Ret None
  else
    let s := mkArrayList 0 2 synchronized 0 [] 0 default_object w in
    match ArrayList_EnsureCapacity 32 s with
    | Ret (true, s') => Ret (Some s')
    | Ret (false, s') =>
        match ArrayList_Free s' with Ret _ => Ret None | Abort => Abort | Hang => Hang end
    | Abort => Abort
    | Hang => Hang
    end.
End arraylist_ops.
Arguments wArrayList W : clear implicits.

(** ** The list an array stands for *)

(** Index of the first and of the last element with a property, [l] starting at index [i]. *)
Fixpoint first_match (f : Z -> bool) (l : list Z) (i : Z) : option Z :=
  match l with
  | [] => None
  | x :: l' => if f x then Some i else first_match f l' (i + 1)
  end.

Fixpoint last_match (f : Z -> bool) (l : list Z) (i : Z) : option Z :=
  match l with
  | [] => None
  | x :: l' =>
      match last_match f l' (i + 1) with
      | Some j => Some j
      | None => if f x then Some i else None
      end
  end.

Section arraylist.
Context {W : Type} `{Malloc} `{FreshMemory} (o : wObject W).
Implicit Types s : wArrayList W.

Definition al_items s : list Z := ztake (al_size s) (al_array s).

Record al_ok s : Prop := {
  ao_array : zlen (al_array s) = al_capacity s;
  ao_capacity : al_capacity s < 2 ^ 60;
  ao_growth : al_growthFactor s = 2;
  ao_size : 0 <= al_size s <= al_capacity s;
  ao_object : al_object s = o
}.

(** The list, the world of the callbacks, and the capacity, which decides when memory is asked for. *)
Definition al_abs s : list Z * W * Z := (al_items s, al_world s, al_capacity s).

(** The capacity that one more element needs beside [n] others. *)
Definition list_grown (cap n : Z) : Z :=
  if n <? cap then cap else if cap * 2 <? n + 1 then n + 1 else cap * 2.

#[export] Instance al_lockable : Lockable (wArrayList W).
Proof.
  refine {| lk_synchronized := al_synchronized; lk_count := al_lock; lk_set := al_set_lock |};
    reflexivity.
Defined.

Lemma al_ok_lock l s : al_ok s -> al_ok (lk_set l s).
Proof. by intros []. Qed.

Lemma zlen_al_items s : al_ok s -> zlen (al_items s) = al_size s.
Proof. intros []. unfold al_items. zlist_lia. Qed.

Lemma znth_al_items s i : i < al_size s -> znth (al_items s) i = znth (al_array s) i.
Proof. intros. unfold al_items. rewrite znth_ztake. by replace (i <? al_size s) with true by lia. Qed.

Lemma ArrayList_EnsureCapacity_run s :
  al_ok s -> let c := list_grown (al_capacity s) (al_size s) in
  (al_capacity s <= al_size s /\ malloc_ok (8 * c) = false /\ ArrayList_EnsureCapacity 1 s = Ret (false, s)) \/
  (exists a, let s' := al_set_array c a s in
     ArrayList_EnsureCapacity 1 s = Ret (true, s') /\ al_ok s' /\ al_size s + 1 <= c /\
     al_items s' = al_items s /\ (al_capacity s <= al_size s -> malloc_ok (8 * c) = true)).
Proof.
  intros Hok. pose proof Hok as []. unfold ArrayList_EnsureCapacity, list_grown. cbv zeta.
  rewrite pbind_passert. change (0 <? 1) with true. cbn iota.
  rewrite pbind_pget, !(u64_id (al_size s + 1)) by lia.
  destruct (al_capacity s <? al_size s + 1) eqn:E.
  2: { right. replace (al_size s <? al_capacity s) with true by lia. exists (al_array s).
       replace (al_set_array _ _ _) with s by (by destruct s). split_and!; [done|done|lia|done|lia]. }
  replace (al_size s <? al_capacity s) with false by lia.
  rewrite ao_growth0, (u64_id (al_capacity s * 2)) by lia.
  set (c := if al_capacity s * 2 <? al_size s + 1 then al_size s + 1 else al_capacity s * 2).
  assert (Hc : al_size s + 1 <= c <= 2 * al_capacity s + 1) by (unfold c; case_if; lia).
  rewrite (u64_id (8 * c)) by lia. replace (8 * c / 8) with c by (Z.div_mod_to_equations; lia).
  destruct (malloc_ok (8 * c)) eqn:Em; cbn [negb]; [|left; split_and!; [lia|done|done]].
  pose proof (malloc_bound _ Em) as Hb. right. rewrite pbind_pput.
  exists (mem_realloc (al_array s) c). split_and!; [done| |lia| |done].
  - split; cbn; try done; [rewrite zlen_mem_realloc|..]; lia.
  - unfold al_items. cbn. apply znth_ext; [rewrite !zlen_ztake, zlen_mem_realloc; lia|].
    rewrite zlen_ztake, zlen_mem_realloc by lia. intros i Hi. rewrite !znth_ztake.
    rewrite znth_mem_realloc by lia. done.
Qed.

(** What [ArrayList_SetItem] returns and stores. *)
Definition set_ok (obj x : Z) : bool :=
  match fnObjectNew o with Some _ => negb (negb (obj =? NULL) && (x =? NULL)) | None => true end.

Lemma ArrayList_SetItem_run i obj s :
  al_ok s -> 0 <= i < al_size s ->
  let '(x, w) := obj_new o obj (al_world s) in
  exists s', ArrayList_SetItem i obj s = Ret (set_ok obj x, s') /\ al_ok s' /\
    al_abs s' = (splice i [x] (al_items s), w, al_capacity s) /\ al_lock s' = al_lock s /\
    al_synchronized s' = al_synchronized s /\ al_size s' = al_size s.
Proof.
  intros Hok Hi. pose proof Hok as []. unfold ArrayList_SetItem, obj_new, set_ok.
  rewrite pbind_pget, ao_object0. replace (al_size s <=? i) with false by lia.
  assert (Hit : forall x, ztake (al_size s) (splice i [x] (al_array s)) = splice i [x] (al_items s)).
  { intros x. apply znth_ext.
    - rewrite zlen_ztake, !zlen_splice1; rewrite ?zlen_al_items by done; lia.
    - rewrite zlen_ztake, zlen_splice1 by lia. intros j Hj.
      rewrite znth_ztake, !znth_splice1 by (rewrite ?zlen_al_items by done; lia).
      rewrite znth_al_items by lia. by replace (j <? al_size s) with true by lia. }
  assert (Hz : forall x, zlen (splice i [x] (al_array s)) = al_capacity s)
    by (intros; rewrite zlen_splice1 by lia; done).
  destruct (fnObjectNew o) as [new|].
  - destruct (new obj (al_world s)) as [x w]. rewrite slot_set_run, pbind_plift, pbind_pput by lia.
    eexists. split; [|split; [|split]].
    + by destruct (negb (obj =? NULL) && (x =? NULL)).
    + by split; cbn.
    + unfold al_abs, al_items at 1. cbn. by rewrite Hit.
    + done.
  - rewrite slot_set_run, pbind_plift, pbind_pput by lia. eexists. split; [done|split; [|split]].
    + by split; cbn.
    + unfold al_abs, al_items at 1. cbn. by rewrite Hit.
    + done.
Qed.

Lemma al_find_loop_run n i obj s :
  0 <= i -> i + Z.of_nat n <= zlen (al_array s) ->
  al_find_loop n i obj s =
  Ret (first_match (fun x => fnObjectEquals (al_object s) x obj)
         (ztake (Z.of_nat n) (zdrop i (al_array s))) i, s).
Proof.
  revert i. induction n as [|n IH]; intros i Hi Hn; [done|]. cbn [al_find_loop].
  rewrite pbind_pget, slot_get_run, pbind_plift by lia.
  replace (Z.of_nat (S n)) with (1 + Z.of_nat n) by lia. rewrite slots_cons by lia.
  cbn [first_match]. case_if; [done|]. apply IH; lia.
Qed.

Lemma al_find_all obj s :
  al_ok s -> al_find_loop (Z.to_nat (al_size s)) 0 obj s =
    Ret (first_match (fun x => fnObjectEquals o x obj) (al_items s) 0, s).
Proof.
  intros []. rewrite al_find_loop_run by lia. rewrite Z2Nat.id, zdrop_0, ao_object0 by lia. done.
Qed.

Definition al_keeps s s' : Prop :=
  al_world s' = al_world s /\ al_lock s' = al_lock s /\ al_synchronized s' = al_synchronized s.

(** Moving the tail of a list one slot up, and down. *)
Lemma shift_up (a : list Z) i n :
  0 <= i < n -> n + 1 <= zlen a ->
  exists j, ztake (n + 1) (splice (i + 1) (ztake (n - i) (zdrop i a)) a) =
    ztake i (ztake n a) ++ [j] ++ zdrop i (ztake n a).
Proof.
  intros Hi Hn. zsplit_as i a as (A & a1 & -> & HA & Ha1).
  rewrite zlen_app in *. zsplit_as (n - i) a1 as (B & C & -> & HB & HC).
  destruct B as [|b0 B]; [rewrite zlen_nil in HB; lia|].
  rewrite zlen_app in *. destruct C as [|c0 C]; [rewrite zlen_nil in *; lia|].
  rewrite !zlen_cons in *. exists b0.
  assert (Hm : ztake (n - i) (zdrop i (A ++ (b0 :: B) ++ c0 :: C)) = b0 :: B) by by zcut.
  assert (Hr : ztake i (ztake n (A ++ (b0 :: B) ++ c0 :: C)) = A) by by zcut.
  assert (Hd : zdrop i (ztake n (A ++ (b0 :: B) ++ c0 :: C)) = b0 :: B) by by zcut.
  rewrite Hm, Hr, Hd.
  replace (A ++ (b0 :: B) ++ c0 :: C) with ((A ++ [b0]) ++ (B ++ [c0]) ++ C)
    by (by rewrite <- !app_assoc).
  rewrite splice_app by zcut_lia. rewrite <- !app_assoc. by zcut.
Qed.

Lemma shift_down (a : list Z) i n :
  0 <= i < n - 1 -> n <= zlen a ->
  ztake (n - 1) (splice i (ztake (n - i - 1) (zdrop (i + 1) a)) a) =
    ztake i (ztake n a) ++ zdrop (i + 1) (ztake n a).
Proof.
  intros Hi Hn. zsplit_as i a as (A & a1 & -> & HA & Ha1).
  rewrite zlen_app in *. zsplit_as (n - i) a1 as (B & C & -> & HB & HC).
  destruct B as [|b0 B]; [rewrite zlen_nil in HB; lia|]. rewrite zlen_app, zlen_cons in *.
  replace (A ++ (b0 :: B) ++ C) with ((A ++ [b0]) ++ B ++ C) by (by rewrite <- !app_assoc).
  assert (Hm : ztake (n - i - 1) (zdrop (i + 1) ((A ++ [b0]) ++ B ++ C)) = B) by by zcut.
  assert (Hr : ztake i (ztake n ((A ++ [b0]) ++ B ++ C)) = A) by by zcut.
  assert (Hd : zdrop (i + 1) (ztake n ((A ++ [b0]) ++ B ++ C)) = B) by by zcut.
  rewrite Hm, Hr, Hd. unfold splice.
  by zcut.
Qed.

Lemma ArrayList_Shift_up i s :
  al_ok s -> 0 <= i < al_size s ->
  let c := list_grown (al_capacity s) (al_size s) in
  (al_capacity s <= al_size s /\ malloc_ok (8 * c) = false /\ ArrayList_Shift i 1 s = Ret (false, s)) \/
  (exists s' j, ArrayList_Shift i 1 s = Ret (true, s') /\ al_ok s' /\ al_keeps s s' /\
     al_size s' = al_size s + 1 /\ al_capacity s' = c /\ (al_capacity s <= al_size s -> malloc_ok (8 * c) = true) /\
     al_items s' = ztake i (al_items s) ++ [j] ++ zdrop i (al_items s)).
Proof.
  intros Hok Hi c. unfold ArrayList_Shift. change (0 <? 1) with true. cbn iota.
  destruct (ArrayList_EnsureCapacity_run s Hok) as [(Hf & Hn & Hr)|(a & Hr & Hk & Hc & Hit & Hm1)];
    rewrite (pbind_ret _ _ _ _ _ Hr); cbn [negb]; [left; eauto|right]. fold c in Hr, Hk, Hc, Hit, Hm1 |- *.
  set (s1 := al_set_array c a s) in *. rewrite pbind_pget. pose proof Hk as []. cbn in ao_array0, ao_capacity0.
  change (al_size s1) with (al_size s). change (al_array s1) with a.
  rewrite slots_read_run, pbind_plift by lia.
  assert (Hm : zlen (ztake (al_size s - i) (zdrop i a)) = al_size s - i) by zlist_lia.
  rewrite slots_write_run, pbind_plift, pbind_pput, u64_id by lia.
  destruct (shift_up a i (al_size s) ltac:(lia) ltac:(lia)) as [j Hj].
  eexists _, j. split; [reflexivity|].
  split; [split; cbn; try done; try lia; rewrite zlen_splice; lia|]. split; [done|]. split; [done|]. split; [done|]. split; [done|].
  rewrite <- Hit. exact Hj.
Qed.

Lemma ArrayList_Shift_down i s :
  al_ok s -> 0 <= i < al_size s ->
  exists s', ArrayList_Shift i (-1) s = Ret (true, s') /\ al_ok s' /\ al_keeps s s' /\ al_capacity s' = al_capacity s /\
     al_items s' = ztake i (al_items s) ++ zdrop (i + 1) (al_items s).
Proof.
  intros Hok Hi. pose proof Hok as []. unfold ArrayList_Shift.
  change (0 <? -1) with false. change (-1 <? 0) with true. cbn iota. rewrite pbind_pget.
  set (m := al_size s - i + -1).
  assert (Hb : exists a, (if 0 <? m then
       moved <- plift (slots_read (i - -1) m (al_array s)) ;;
       a <- plift (slots_write i moved (al_array s)) ;;
       pput (al_set_array (al_capacity s) a s)
     else pret tt) s = Ret (tt, al_set_array (al_capacity s) a s) /\ zlen a = al_capacity s /\
     ztake (al_size s - 1) a = ztake i (al_items s) ++ zdrop (i + 1) (al_items s)).
  { destruct (0 <? m) eqn:E.
    - rewrite slots_read_run, pbind_plift by lia.
      assert (Hm : zlen (ztake m (zdrop (i - -1) (al_array s))) = m) by zlist_lia.
      rewrite slots_write_run, pbind_plift by lia. eexists. split; [reflexivity|].
      split; [rewrite zlen_splice; lia|]. unfold al_items. remember (al_size s) as n.
      rewrite <- shift_down by lia. unfold m.
      by replace (i - -1) with (i + 1) by lia; replace (n - i + -1) with (n - i - 1) by lia.
    - exists (al_array s). split; [by destruct s|]. split; [done|]. unfold al_items.
      remember (al_size s) as n. unfold m in *. znth_solve. }
  destruct Hb as (a & Hrun & Hza & Hit). unfold pbind at 1. rewrite Hrun, pbind_pget, pbind_pput.
  cbn [al_size al_set_array]. rewrite u64_id by lia.
  replace (al_size s + -1) with (al_size s - 1) by lia. eexists. split; [reflexivity|].
  split; [split; cbn; try done; lia|]. split; [done|]. split; [done|]. exact Hit.
Qed.

Lemma al_clear_loop_run n i s :
  zlen (al_array s) = al_capacity s -> 0 <= i -> i + Z.of_nat n <= al_capacity s ->
  exists a, zlen a = al_capacity s /\ al_clear_loop n i s =
    Ret (tt, al_set_world (free_all (al_object s) (ztake (Z.of_nat n) (zdrop i (al_array s))) (al_world s))
               (al_set_array (al_capacity s) a s)).
Proof.
  revert i s. induction n as [|n IH]; intros i s Ha Hi Hn.
  - exists (al_array s). split; [done|]. by destruct s.
  - cbn [al_clear_loop]. rewrite pbind_pget, slot_get_run, slot_set_run by lia.
    rewrite pbind_plift, pbind_pput, pbind_plift, pbind_pget, pbind_pput.
    cbn [al_capacity al_set_world]. set (s1 := al_set_array _ _ _).
    assert (Hz : zlen (splice i [NULL] (al_array s)) = al_capacity s) by (rewrite zlen_splice1; lia).
    destruct (IH (i + 1) s1) as (a & Hza & Hrun); [done|lia|cbn; lia|].
    exists a. split; [done|]. rewrite Hrun. do 2 f_equal. unfold s1. cbn.
    unfold al_set_world, al_set_array. cbn. f_equal.
    replace (Z.of_nat (S n)) with (1 + Z.of_nat n) by lia. rewrite slots_cons by lia.
    by rewrite zdrop_splice1 by lia.
Qed.

Lemma al_rfind_loop_run n i obj s :
  0 <= i -> i + Z.of_nat n <= zlen (al_array s) ->
  al_rfind_loop n i obj s =
  Ret (option_map (Z.add 1) (last_match (fun x => fnObjectEquals (al_object s) x obj)
         (ztake (Z.of_nat n) (zdrop i (al_array s))) i), s).
Proof.
  intros Hi. induction n as [|n IH]; intros Hn; [done|]. cbn [al_rfind_loop].
  rewrite pbind_pget, slot_get_run, pbind_plift by lia.
  assert (E : ztake (Z.of_nat (S n)) (zdrop i (al_array s)) =
              ztake (Z.of_nat n) (zdrop i (al_array s)) ++ [znth (al_array s) (i + Z.of_nat n)]).
  { apply znth_ext; [zlist_lia|]. autorewrite with zlist. intros j Hj.
    autorewrite with znth zlist. repeat (case_if; try lia).
    assert (j = Z.of_nat n) as -> by lia. replace (Z.of_nat n - _) with 0 by lia. cbn. f_equal. lia. }
  assert (Hl : forall f l x k, last_match f (l ++ [x]) k =
            if f x then Some (k + zlen l) else last_match f l k).
  { intros f l x. induction l as [|y l IHl]; intros k; cbn [app last_match].
    - rewrite zlen_nil, Z.add_0_r. done.
    - rewrite IHl, zlen_cons. destruct (f x); [f_equal; lia|done]. }
  rewrite E, Hl. replace (i + Z.of_nat (S n) - 1) with (i + Z.of_nat n) by lia.
  case_if; [|apply IH; lia]. unfold pret. do 2 f_equal. cbn. f_equal. zlist_lia.
Qed.

(** The callbacks of [ArrayList_ForEach] in order, up to the first FALSE. *)
Fixpoint each (fkt : Z -> Z -> W -> bool * W) (l : list Z) (i : Z) (w : W) : bool * W :=
  match l with
  | [] => (true, w)
  | x :: l' => let '(rs, w') := fkt x i w in if rs then each fkt l' (i + 1) w' else (false, w')
  end.

Lemma al_foreach_loop_run fkt l i s :
  al_ok s -> 0 <= i -> l = zdrop i (al_items s) ->
  let '(r, w) := each fkt l i (al_world s) in
  al_foreach_loop fkt (length l) i s = Ret (r, al_set_world w s).
Proof.
  revert i s. induction l as [|x l IH]; intros i s Hok Hi Hl; cbn [each length al_foreach_loop].
  { by destruct s. }
  pose proof (zlen_al_items s Hok) as Hz. pose proof Hok as [].
  assert (Hn : zlen (x :: l) = zlen (zdrop i (al_items s))) by (by rewrite <- Hl).
  rewrite zlen_cons, zlen_zdrop in Hn. pose proof (zlen_nonneg l).
  assert (Hx : x = znth (al_array s) i).
  { rewrite <- znth_al_items by lia. transitivity (znth (zdrop i (al_items s)) 0); [by rewrite <- Hl|].
    rewrite znth_zdrop. change (0 <? 0) with false. cbn iota. f_equal. lia. }
  unfold ArrayList_GetItem. rewrite pbind_ret with (a := x) (s' := s).
  2: { rewrite pbind_pget. replace (i <? al_size s) with true by lia.
       rewrite slot_get_run by lia. by rewrite Hx. }
  rewrite pbind_pget. destruct (fkt x i (al_world s)) as [rs w1].
  destruct rs; cbn [negb]; rewrite pbind_pput; [|done].
  specialize (IH (i + 1) (al_set_world w1 s)). cbn [al_world al_set_world] in IH.
  assert (Hl' : l = zdrop (i + 1) (al_items s)).
  { replace (i + 1) with (1 + i) by lia. rewrite <- zdrop_zdrop, <- Hl by lia. done. }
  specialize (IH ltac:(by destruct Hok) ltac:(lia) Hl').
  destruct (each fkt l (i + 1) w1) as [r w2]. exact IH.
Qed.

(** *** Operations under the lock *)

(** The result of an operation: its value and the new list and world. *)
Definition al_returns {A} (m : Prog (wArrayList W) A) s (a : A) (abs' : list Z * W * Z) : Prop :=
  exists s', m s = Ret (a, s') /\ al_ok s' /\ al_abs s' = abs' /\ al_lock s' = al_lock s.

(** The body of an operation that was entered with [locked s]. *)
Lemma al_finish {A} (k : unit -> Prog (wArrayList W) A) s s1 a abs' :
  al_ok s1 -> al_abs s1 = abs' -> al_lock s1 = al_lock (locked s) ->
  al_synchronized s1 = al_synchronized s -> (forall s2, k tt s2 = Ret (a, s2)) ->
  exists s', pbind ArrayList_Unlock_Conditional k s1 = Ret (a, s') /\ al_ok s' /\
    al_abs s' = abs' /\ al_lock s' = al_lock s.
Proof.
  intros Hok Ha Hl Hs Hk.
  destruct (unlocked_spec al_ok al_abs al_ok_lock (fun _ _ => eq_refl) s s1 Hok (conj Hs Hl))
    as (? & ? & ? & ?).
  exists (unlocked s1). change ArrayList_Unlock_Conditional with (lk_leave (S := wArrayList W)).
  rewrite leave_run, Hk. split_and!; [done|done|congruence|done].
Qed.

Lemma al_locked s :
  al_ok s -> al_ok (locked s) /\ al_items (locked s) = al_items s /\
    al_world (locked s) = al_world s /\ al_synchronized (locked s) = al_synchronized s /\
    al_size (locked s) = al_size s /\ al_capacity (locked s) = al_capacity s.
Proof.
  intros Hok. unfold locked. cbn. destruct (al_synchronized s) eqn:E; [|done].
  split_and!; try done. by apply al_ok_lock.
Qed.

Local Ltac enter Hok :=
  let Hl := fresh "Hl" in let Hi := fresh "Hi" in let Hw := fresh "Hw" in
  let Hs := fresh "Hs" in let Hz := fresh "Hz" in let Hcp := fresh "Hcp" in
  destruct (al_locked _ Hok) as (Hl & Hi & Hw & Hs & Hz & Hcp);
  change ArrayList_Lock_Conditional with (lk_enter (S := wArrayList W)); rewrite enter_run.

Lemma ArrayList_Append_run obj s :
  al_ok s -> let c := list_grown (al_capacity s) (zlen (al_items s)) in
  (al_capacity s <= zlen (al_items s) /\ malloc_ok (8 * c) = false /\ al_returns (ArrayList_Append obj) s false (al_abs s)) \/
  ((al_capacity s <= zlen (al_items s) -> malloc_ok (8 * c) = true) /\
   let '(x, w) := obj_new o obj (al_world s) in
   al_returns (ArrayList_Append obj) s (set_ok obj x) (al_items s ++ [x], w, c)).
Proof.
  intros Hok. rewrite (zlen_al_items s Hok). unfold al_returns, ArrayList_Append. enter Hok. set (s0 := locked s) in *. rewrite <- Hz, <- Hcp.
  set (c := list_grown (al_capacity s0) (al_size s0)). cbv zeta.
  destruct (ArrayList_EnsureCapacity_run s0 Hl) as [(Hf & Hn & Hr)|(a & Hr & Hk & Hc & Hit & Hm1)];
    rewrite (pbind_ret _ _ _ _ _ Hr); cbn [negb]; fold c in Hr, Hk, Hc, Hit, Hm1 || fold c in Hn.
  - left. split; [done|]. split; [done|]. rewrite pbind_pret.
    apply (al_finish (fun _ => pret false) s s0); try done. unfold al_abs. by rewrite Hi, Hw, Hcp.
  - right. split; [done|]. set (s1 := al_set_array c a s0) in *. pose proof Hk as []. cbn in ao_array0, ao_capacity0.
    assert (Hsz : al_size s1 = al_size s0) by done.
    set (s2 := al_set_size (al_size s0 + 1) s1).
    assert (Hk2 : al_ok s2) by (split; cbn; try done; cbn in *; lia).
    assert (Hit2 : exists j, al_items s2 = al_items s ++ [j]).
    { exists (znth a (al_size s0)). rewrite <- Hi, <- Hit. unfold al_items. cbn.
      apply znth_ext; [zlist_lia|]. autorewrite with zlist. intros k Hk'.
      autorewrite with znth zlist. rewrite znth_cons. repeat (case_if; try lia); f_equal; lia. }
    destruct Hit2 as [j Hj].
    pose proof (ArrayList_SetItem_run (al_size s0) obj s2 Hk2 ltac:(cbn; lia)) as Hset.
    change (al_world s2) with (al_world s0) in Hset. rewrite Hw in Hset.
    destruct (obj_new o obj (al_world s)) as [x w].
    destruct Hset as (s3 & Hset & Hk3 & Ha3 & Hl3 & Hs3 & _).
    assert (Hbody : (x <- pget ;; (let index := al_size x in pput (al_set_size (u64 (al_size x + 1)) x) ;;
        ArrayList_SetItem index obj)) s1 = Ret (set_ok obj x, s3)).
    { rewrite pbind_pget. cbv zeta. rewrite pbind_pput. change (al_size s1) with (al_size s0).
      rewrite u64_id by lia. exact Hset. }
    rewrite (pbind_ret _ _ _ _ _ Hbody).
    apply (al_finish (fun _ => pret (set_ok obj x)) s s3); try done; [|by rewrite Hs3].
    rewrite Ha3, Hj. f_equal. pose proof (zlen_al_items s0 Hl) as Hzi.
    rewrite <- (app_nil_r ([x])), <- (app_nil_r [j]).
    rewrite splice_app; rewrite ?app_nil_r; try done. rewrite <- Hi. lia.
Qed.

Lemma ArrayList_Insert_run i obj s :
  al_ok s -> 0 <= i ->
  let c := list_grown (al_capacity s) (zlen (al_items s)) in
  if i <? zlen (al_items s) then
    (al_capacity s <= zlen (al_items s) /\ malloc_ok (8 * c) = false /\ al_returns (ArrayList_Insert i obj) s false (al_abs s)) \/
    ((al_capacity s <= zlen (al_items s) -> malloc_ok (8 * c) = true) /\
     let '(x, w) := obj_new o obj (al_world s) in
     al_returns (ArrayList_Insert i obj) s true (ztake i (al_items s) ++ x :: zdrop i (al_items s), w, c))
  else al_returns (ArrayList_Insert i obj) s true (al_abs s).
Proof.
  intros Hok Hi0. unfold al_returns, ArrayList_Insert. enter Hok. rewrite pbind_pget.
  set (s0 := locked s) in *. pose proof (zlen_al_items s Hok) as Hzi. rewrite Hzi, <- Hz, <- Hcp.
  set (c := list_grown (al_capacity s0) (al_size s0)). cbv zeta.
  destruct (i <? al_size s0) eqn:E.
  - destruct (ArrayList_Shift_up i s0 Hl ltac:(lia)) as
      [(Hf & Hn & Hr)|(s1 & j & Hr & Hk1 & (Hw1 & Hl1 & Hs1) & Hz1 & Hc1 & Hm1 & Hi1)].
    + left. split; [done|]. split; [done|]. rewrite pbind_ret with (a := false) (s' := s0)
        by (by rewrite (pbind_ret _ _ _ _ _ Hr)).
      apply (al_finish (fun _ => pret false) s s0); try done. unfold al_abs. by rewrite Hi, Hw, Hcp.
    + right. split; [done|]. pose proof (ArrayList_SetItem_run i obj s1 Hk1 ltac:(lia)) as Hset. rewrite Hc1 in Hset. fold c in Hset.
      rewrite Hw1, Hw in Hset. destruct (obj_new o obj (al_world s)) as [x w].
      destruct Hset as (s2 & Hset & Hk2 & Ha2 & Hl2 & Hs2 & _).
      rewrite pbind_ret with (a := true) (s' := s2)
        by (rewrite (pbind_ret _ _ _ _ _ Hr); cbn [negb]; by rewrite (pbind_ret _ _ _ _ _ Hset)).
      apply (al_finish (fun _ => pret true) s s2); try done; [|by rewrite Hl2, Hl1|by rewrite Hs2, Hs1].
      rewrite Ha2, Hi1, Hi. f_equal. change (j :: ?l) with ([j] ++ l).
      rewrite splice_app; [done| |done]. rewrite zlen_ztake. lia.
  - rewrite pbind_pret. apply (al_finish (fun _ => pret true) s s0); try done.
    unfold al_abs. by rewrite Hi, Hw, Hcp.
Qed.

(** Removing the element at [i]. *)
Lemma remove_body i s s0 :
  s0 = locked s -> al_ok s -> 0 <= i < al_size s0 ->
  exists s', (x <- plift (slot_get i (al_array s0)) ;;
      pput (al_set_world (obj_free (al_object s0) x (al_world s0)) s0) ;;
      ArrayList_Shift i (-1)) s0 = Ret (true, s') /\ al_ok s' /\
    al_abs s' = (ztake i (al_items s) ++ zdrop (i + 1) (al_items s),
                 obj_free o (znth (al_items s) i) (al_world s), al_capacity s) /\
    al_lock s' = al_lock s0 /\ al_synchronized s' = al_synchronized s.
Proof.
  intros -> Hok Hi. destruct (al_locked _ Hok) as (Hl & Hit & Hw & Hs & Hz & Hcp).
  set (s0 := locked s) in *. pose proof Hl as [].
  rewrite slot_get_run, pbind_plift, pbind_pput by lia.
  set (s1 := al_set_world _ s0).
  assert (Hk1 : al_ok s1) by (by destruct Hl).
  destruct (ArrayList_Shift_down i s1 Hk1 ltac:(cbn; lia)) as (s2 & Hr & Hk2 & (Hw2 & Hl2 & Hs2) & Hc2 & Hi2).
  exists s2. split_and!; [done|done| |done|by rewrite Hs2].
  unfold al_abs. rewrite Hi2, Hw2, Hc2. change (al_items s1) with (al_items s0). change (al_capacity s1) with (al_capacity s0). rewrite Hit, Hcp.
  do 2 f_equal. cbn. rewrite ao_object0, Hw, <- Hit. by rewrite znth_al_items by lia.
Qed.

Lemma first_match_range f l i j : first_match f l i = Some j -> i <= j < i + zlen l.
Proof.
  revert i. induction l as [|x l IH]; intros i; cbn [first_match]; [done|].
  rewrite zlen_cons. pose proof (zlen_nonneg l). case_if; [intros [= <-]; lia|].
  intros E'. apply IH in E'. lia.
Qed.

Lemma ArrayList_RemoveAt_run i s :
  al_ok s -> 0 <= i ->
  al_returns (ArrayList_RemoveAt i) s true
    (if i <? zlen (al_items s) then
       (ztake i (al_items s) ++ zdrop (i + 1) (al_items s),
        obj_free o (znth (al_items s) i) (al_world s), al_capacity s)
     else al_abs s).
Proof.
  intros Hok Hi0. unfold al_returns, ArrayList_RemoveAt. enter Hok. rewrite pbind_pget.
  pose proof (zlen_al_items s Hok) as Hzi. rewrite Hzi, <- Hz.
  destruct (i <? al_size (locked s)) eqn:E.
  - destruct (remove_body i s (locked s) eq_refl Hok ltac:(lia)) as (s1 & Hr & Hk1 & Ha1 & Hl1 & Hs1).
    rewrite (pbind_ret _ _ _ _ _ Hr). by apply (al_finish (fun _ => pret true) s s1).
  - rewrite pbind_pret. apply (al_finish (fun _ => pret true) s (locked s)); try done.
    unfold al_abs. by rewrite Hi, Hw, Hcp.
Qed.

Lemma ArrayList_Remove_run obj s :
  al_ok s ->
  al_returns (ArrayList_Remove obj) s true
    (match first_match (fun x => fnObjectEquals o x obj) (al_items s) 0 with
     | Some i => (ztake i (al_items s) ++ zdrop (i + 1) (al_items s),
                  obj_free o (znth (al_items s) i) (al_world s), al_capacity s)
     | None => al_abs s
     end).
Proof.
  intros Hok. unfold al_returns, ArrayList_Remove. enter Hok. rewrite pbind_pget.
  rewrite (pbind_ret _ _ _ _ _ (al_find_all obj (locked s) Hl)), Hi.
  destruct (first_match _ _ _) as [i|] eqn:E.
  - apply first_match_range in E. pose proof (zlen_al_items s Hok) as Hzi.
    destruct (remove_body i s (locked s) eq_refl Hok ltac:(lia)) as (s1 & Hr & Hk1 & Ha1 & Hl1 & Hs1).
    rewrite pbind_ret with (a := true) (s' := s1) by (by rewrite pbind_pget).
    by apply (al_finish (fun _ => pret true) s s1).
  - rewrite pbind_pret. apply (al_finish (fun _ => pret true) s (locked s)); try done.
    unfold al_abs. by rewrite Hi, Hw, Hcp.
Qed.

Lemma first_match_existsb f l i :
  (match first_match f l i with Some _ => true | None => false end) = existsb f l.
Proof.
  revert i. induction l as [|x l IH]; intros i; cbn; [done|]. by destruct (f x).
Qed.

Lemma ArrayList_Contains_run obj s :
  al_ok s ->
  al_returns (ArrayList_Contains obj) s (existsb (fun x => fnObjectEquals o x obj) (al_items s)) (al_abs s).
Proof.
  intros Hok. unfold al_returns, ArrayList_Contains. enter Hok. rewrite pbind_pget.
  rewrite (pbind_ret _ _ _ _ _ (al_find_all obj (locked s) Hl)), Hi, <- (first_match_existsb _ _ 0).
  apply (al_finish (fun _ => pret _) s (locked s)); try done. unfold al_abs. by rewrite Hi, Hw, Hcp.
Qed.

(** The index range [start, start + count) has to lie inside of the list. *)
Lemma ArrayList_IndexOf_run obj start count s :
  al_ok s ->
  let si := if start <? 0 then 0 else start in
  let ci := if count <? 0 then zlen (al_items s) else count in
  si + ci <= zlen (al_items s) ->
  al_returns (ArrayList_IndexOf obj start count) s
    (match first_match (fun x => fnObjectEquals o x obj) (ztake ci (zdrop si (al_items s))) si with
     | Some i => i | None => -1 end) (al_abs s) /\
  al_returns (ArrayList_LastIndexOf obj start count) s
    (match last_match (fun x => fnObjectEquals o x obj) (ztake ci (zdrop si (al_items s))) si with
     | Some i => 1 + i | None => -1 end) (al_abs s).
Proof.
  intros Hok si ci Hr. pose proof (zlen_al_items s Hok) as Hzi. rewrite Hzi in Hr.
  assert (Hsi : 0 <= si) by (unfold si; case_if; lia).
  assert (Hci : 0 <= ci) by (pose proof (ao_size s Hok); unfold ci; case_if; lia).
  assert (Hsub : forall s0, al_items s0 = al_items s -> al_size s0 = al_size s ->
            ztake ci (zdrop si (al_array s0)) = ztake ci (zdrop si (al_items s))).
  { intros s0 Hi0 Hz0. rewrite <- Hi0. unfold al_items.
    rewrite ztake_zdrop_comm by lia. rewrite (ztake_zdrop_comm _ _ (ztake _ _)) by lia.
    rewrite ztake_ztake. f_equal. f_equal. lia. }
  assert (Hbase : forall s0, al_ok s0 -> al_size s0 = al_size s -> si + ci <= zlen (al_array s0))
    by (intros s0 [] ?; lia).
  unfold al_returns, ArrayList_IndexOf, ArrayList_LastIndexOf. enter Hok. rewrite enter_run, !pbind_pget.
  fold si. rewrite Hz, <- Hzi. fold ci. pose proof Hl as [].
  rewrite (pbind_ret _ _ _ _ _ (al_find_loop_run (Z.to_nat ci) si obj (locked s) ltac:(lia)
    ltac:(rewrite Z2Nat.id by lia; auto))).
  rewrite (pbind_ret _ _ _ _ _ (al_rfind_loop_run (Z.to_nat ci) si obj (locked s) ltac:(lia)
    ltac:(rewrite Z2Nat.id by lia; auto))).
  rewrite Z2Nat.id, Hsub, ao_object0 by (done || lia). split.
  - apply (al_finish (fun _ => pret _) s (locked s)); try done. unfold al_abs. by rewrite Hi, Hw, Hcp.
  - destruct (last_match _ _ _); apply (al_finish (fun _ => pret _) s (locked s)); try done;
      unfold al_abs; by rewrite Hi, Hw, Hcp.
Qed.

Lemma ArrayList_Clear_run s :
  al_ok s -> al_returns ArrayList_Clear s tt ([], free_all o (al_items s) (al_world s), al_capacity s).
Proof.
  intros Hok. unfold al_returns, ArrayList_Clear. enter Hok. rewrite pbind_pget. pose proof Hl as [].
  destruct (al_clear_loop_run (Z.to_nat (al_size (locked s))) 0 (locked s)) as (a & Hza & Hr); [lia..|].
  rewrite (pbind_ret _ _ _ _ _ Hr), pbind_pget, pbind_pput.
  rewrite Z2Nat.id, zdrop_0, ao_object0 by lia. fold (al_items (locked s)). rewrite Hi, Hw.
  set (s1 := al_set_size _ _).
  destruct (al_finish (fun _ => pret tt) s s1 tt ([], free_all o (al_items s) (al_world s), al_capacity s))
    as (s' & Hu & Hrest); try done.
  - split; cbn; try done; lia.
  - unfold al_abs. rewrite <- Hcp. done.
  - exists s'. split; [|done]. revert Hu. unfold pbind, pret.
    destruct (ArrayList_Unlock_Conditional s1) as [[[] ?]| |]; [|done..]. by intros [= ->].
Qed.

Lemma ArrayList_ForEachAP_run fkt s :
  al_ok s ->
  let '(r, w) := each fkt (al_items s) 0 (al_world s) in
  al_returns (ArrayList_ForEachAP fkt) s r (al_items s, w, al_capacity s).
Proof.
  intros Hok. unfold al_returns, ArrayList_ForEachAP. enter Hok.
  pose proof (al_foreach_loop_run fkt (al_items s) 0 (locked s) Hl ltac:(lia)
    ltac:(rewrite zdrop_0 by lia; by rewrite Hi)) as Hloop. rewrite Hw in Hloop.
  destruct (each fkt (al_items s) 0 (al_world s)) as [r w].
  rewrite pbind_pget. unfold ArrayList_Count.
  replace (Z.to_nat (al_size (locked s))) with (length (al_items s)).
  2: { rewrite Hz, <- (zlen_al_items s Hok). unfold zlen. lia. }
  rewrite (pbind_ret _ _ _ _ _ Hloop).
  apply (al_finish (fun _ => pret r) s (al_set_world w (locked s))); try done; [by destruct Hl|].
  unfold al_abs. by rewrite <- Hi, <- Hcp.
Qed.

(** ** The list as a transition system *)

Inductive list_op : Type :=
| LAppend (obj : Z) | LInsert (i obj : Z) | LRemove (obj : Z) | LRemoveAt (i : Z)
| LSetItem (i obj : Z) | LGetItem (i : Z) | LContains (obj : Z) | LIndexOf (obj : Z) | LLastIndexOf (obj : Z) | LClear
| LForEach (fkt : Z -> Z -> W -> bool * W).

Inductive list_out : Type := LDone | LBool (b : bool) | LPointer (p : Z) | LIndex (i : Z).

Definition run_list_op (op : list_op) : Prog (wArrayList W) list_out :=
  match op with
  | LAppend obj => b <- ArrayList_Append obj ;; pret (LBool b)
  | LInsert i obj => b <- ArrayList_Insert i obj ;; pret (LBool b)
  | LRemove obj => b <- ArrayList_Remove obj ;; pret (LBool b)
  | LRemoveAt i => b <- ArrayList_RemoveAt i ;; pret (LBool b)
  | LSetItem i obj => b <- ArrayList_SetItem i obj ;; pret (LBool b)
  | LGetItem i => p <- ArrayList_GetItem i ;; pret (LPointer p)
  | LContains obj => b <- ArrayList_Contains obj ;; pret (LBool b)
  | LIndexOf obj => i <- ArrayList_IndexOf obj (-1) (-1) ;; pret (LIndex i)
  | LLastIndexOf obj => i <- ArrayList_LastIndexOf obj (-1) (-1) ;; pret (LIndex i)
  | LClear => ArrayList_Clear ;; pret LDone
  | LForEach fkt => b <- ArrayList_ForEachAP fkt ;; pret (LBool b)
  end.

(** Indices are of type size_t. *)
Definition list_op_ok (op : list_op) : Prop :=
  match op with LInsert i _ | LRemoveAt i | LSetItem i _ | LGetItem i => 0 <= i | _ => True end.

(** A list, the world of its callbacks and the capacity.  Memory is asked for when the capacity is
    reached; an object is refused only when that request is. *)
Inductive list_step : list Z * W * Z -> list_op -> list_out -> list Z * W * Z -> Prop :=
| step_append l w c obj x w' :
    (c <= zlen l -> malloc_ok (8 * list_grown c (zlen l)) = true) -> obj_new o obj w = (x, w') ->
    list_step (l, w, c) (LAppend obj) (LBool (set_ok obj x)) (l ++ [x], w', list_grown c (zlen l))
| step_append_no_memory l w c obj :
    c <= zlen l -> malloc_ok (8 * list_grown c (zlen l)) = false -> list_step (l, w, c) (LAppend obj) (LBool false) (l, w, c)
| step_insert l w c i obj x w' :
    i < zlen l -> (c <= zlen l -> malloc_ok (8 * list_grown c (zlen l)) = true) -> obj_new o obj w = (x, w') ->
    list_step (l, w, c) (LInsert i obj) (LBool true) (ztake i l ++ x :: zdrop i l, w', list_grown c (zlen l))
| step_insert_no_memory l w c i obj :
    i < zlen l -> c <= zlen l -> malloc_ok (8 * list_grown c (zlen l)) = false ->
    list_step (l, w, c) (LInsert i obj) (LBool false) (l, w, c)
| step_insert_beyond l w c i obj :
    zlen l <= i -> list_step (l, w, c) (LInsert i obj) (LBool true) (l, w, c)
| step_remove l w c obj i :
    first_match (fun x => fnObjectEquals o x obj) l 0 = Some i ->
    list_step (l, w, c) (LRemove obj) (LBool true)
      (ztake i l ++ zdrop (i + 1) l, obj_free o (znth l i) w, c)
| step_remove_none l w c obj :
    first_match (fun x => fnObjectEquals o x obj) l 0 = None ->
    list_step (l, w, c) (LRemove obj) (LBool true) (l, w, c)
| step_remove_at l w c i :
    i < zlen l -> list_step (l, w, c) (LRemoveAt i) (LBool true)
      (ztake i l ++ zdrop (i + 1) l, obj_free o (znth l i) w, c)
| step_remove_beyond l w c i : zlen l <= i -> list_step (l, w, c) (LRemoveAt i) (LBool true) (l, w, c)
| step_set l w c i obj x w' :
    i < zlen l -> obj_new o obj w = (x, w') ->
    list_step (l, w, c) (LSetItem i obj) (LBool (set_ok obj x)) (splice i [x] l, w', c)
| step_set_beyond l w c i obj :
    zlen l <= i -> list_step (l, w, c) (LSetItem i obj) (LBool false) (l, w, c)
| step_get l w c i : list_step (l, w, c) (LGetItem i) (LPointer (znth l i)) (l, w, c)
| step_contains l w c obj :
    list_step (l, w, c) (LContains obj) (LBool (existsb (fun x => fnObjectEquals o x obj) l)) (l, w, c)
| step_index l w c obj :
    list_step (l, w, c) (LIndexOf obj)
      (LIndex (match first_match (fun x => fnObjectEquals o x obj) l 0 with
               | Some i => i | None => -1 end)) (l, w, c)
| step_last_index l w c obj :
    list_step (l, w, c) (LLastIndexOf obj)
      (LIndex (match last_match (fun x => fnObjectEquals o x obj) l 0 with
               | Some i => 1 + i | None => -1 end)) (l, w, c)
| step_lclear l w c : list_step (l, w, c) LClear LDone ([], free_all o l w, c)
| step_foreach l w c fkt r w' :
    each fkt l 0 w = (r, w') -> list_step (l, w, c) (LForEach fkt) (LBool r) (l, w', c).

(** From the result of an operation to a step. *)
Lemma al_returns_step {A} (m : Prog (wArrayList W) A) (f : A -> list_out) s a abs' op :
  al_returns m s a abs' -> list_step (al_abs s) op (f a) abs' ->
  exists out s', (x <- m ;; pret (f x)) s = Ret (out, s') /\ (al_ok s' /\ al_lock s' = al_lock s) /\
    list_step (al_abs s) op out (al_abs s').
Proof.
  intros (s' & Hr & Hk & Ha & Hl) Hst. exists (f a), s'. rewrite (pbind_ret _ _ _ _ _ Hr).
  by rewrite Ha.
Qed.

Lemma run_list_op_refines op s :
  list_op_ok op -> al_ok s ->
  exists out s', run_list_op op s = Ret (out, s') /\ (al_ok s' /\ al_lock s' = al_lock s) /\
    list_step (al_abs s) op out (al_abs s').
Proof.
  intros Hop Hok. pose proof (zlen_al_items s Hok) as Hz. pose proof (ao_size s Hok) as Hsz.
  destruct op; cbn [list_op_ok run_list_op] in *.
  - destruct (ArrayList_Append_run obj s Hok) as [(Hf & Hn & Hr)|[Hm Hr]].
    + eapply al_returns_step; [exact Hr|]. by apply step_append_no_memory.
    + destruct (obj_new o obj (al_world s)) as [x w] eqn:E.
      eapply al_returns_step; [exact Hr|]. by constructor.
  - pose proof (ArrayList_Insert_run i obj s Hok Hop) as Hr. destruct (i <? zlen (al_items s)) eqn:Ei.
    + destruct Hr as [(Hf & Hn & Hr)|[Hm Hr]].
      * eapply al_returns_step; [exact Hr|]. apply step_insert_no_memory; [lia|exact Hf|exact Hn].
      * destruct (obj_new o obj (al_world s)) as [x w] eqn:E.
        eapply al_returns_step; [exact Hr|]. constructor; [lia|done|done].
    + eapply al_returns_step; [exact Hr|]. constructor. lia.
  - eapply al_returns_step; [exact (ArrayList_Remove_run obj s Hok)|].
    destruct (first_match _ _ _) eqn:E; by constructor.
  - eapply al_returns_step; [exact (ArrayList_RemoveAt_run i s Hok Hop)|].
    destruct (i <? zlen (al_items s)) eqn:E; constructor; lia.
  - destruct (i <? al_size s) eqn:E.
    + pose proof (ArrayList_SetItem_run i obj s Hok ltac:(lia)) as Hr.
      destruct (obj_new o obj (al_world s)) as [x w] eqn:Eo.
      destruct Hr as (s' & Hr & Hk & Ha & Hl & _).
      eapply al_returns_step; [by exists s'|]. constructor; [lia|done].
    + eapply (al_returns_step _ LBool s false (al_abs s)); [|constructor; lia].
      exists s. unfold ArrayList_SetItem. rewrite pbind_pget.
      by replace (al_size s <=? i) with true by lia.
  - eapply (al_returns_step _ LPointer s (znth (al_items s) i) (al_abs s)); [|constructor].
    exists s. unfold ArrayList_GetItem. rewrite pbind_pget. pose proof (ao_array s Hok).
    destruct (i <? al_size s) eqn:E.
    + rewrite slot_get_run by lia. by rewrite znth_al_items by lia.
    + by rewrite znth_out by lia.
  - eapply al_returns_step; [exact (ArrayList_Contains_run obj s Hok)|]. constructor.
  - destruct (ArrayList_IndexOf_run obj (-1) (-1) s Hok) as [Hr _]; [cbn; lia|].
    eapply al_returns_step; [exact Hr|]. cbn [Z.ltb Z.compare]. rewrite zdrop_0, ztake_all by lia.
    constructor.
  - destruct (ArrayList_IndexOf_run obj (-1) (-1) s Hok) as [_ Hr]; [cbn; lia|].
    eapply al_returns_step; [exact Hr|]. cbn [Z.ltb Z.compare]. rewrite zdrop_0, ztake_all by lia.
    constructor.
  - eapply (al_returns_step _ (fun _ => LDone)); [exact (ArrayList_Clear_run s Hok)|]. constructor.
  - pose proof (ArrayList_ForEachAP_run fkt s Hok) as Hr.
    destruct (each fkt (al_items s) 0 (al_world s)) as [r w] eqn:E.
    eapply al_returns_step; [exact Hr|]. by constructor.
Qed.

(** The client installs its callbacks through [ArrayList_Object]. *)
Definition al_set_object s : wArrayList W :=
  mkArrayList (al_capacity s) (al_growthFactor s) (al_synchronized s) (al_size s) (al_array s)
    (al_lock s) o (al_world s).

Lemma ArrayList_New_run sync (w : W) s :
  ArrayList_New sync w = Ret (Some s) ->
  al_ok (al_set_object s) /\ al_abs (al_set_object s) = ([], w, 32) /\ al_lock s = 0.
Proof.
  unfold ArrayList_New. case_if; [done|]. unfold ArrayList_EnsureCapacity.
  rewrite pbind_passert. change (0 <? 32) with true. cbn iota. rewrite pbind_pget.
  cbn [al_capacity al_size al_growthFactor]. change (0 <? u64 (0 + 32)) with true. cbn iota.
  change (u64 (0 * 2)) with 0. change (u64 (0 + 32)) with 32. change (0 <? 32) with true. cbn iota.
  change (u64 (8 * 32)) with 256. change (256 / 8) with 32. destruct (malloc_ok 256); cbn [negb].
  - rewrite pbind_pput. unfold pret. intros [= <-].
    split; [split; cbn; try done; try lia; by rewrite zlen_mem_realloc|done].
  - unfold pret. by destruct (ArrayList_Free _).
Qed.
End arraylist.
Arguments list_op W : clear implicits.

(** ** Properties *)



(** Inside of the list [ArrayList_IndexOf] returns the index of the first match of the range
    and [ArrayList_LastIndexOf] one more than the index of the last match.  The range is not
    checked: with a start index and the default count the searches go [start] slots past the
    end, here past the end of the array. *)
Theorem arraylist_search {W : Type} `{Malloc} `{FreshMemory} (o : wObject W) (obj start count : Z)
    (s : wArrayList W) :
  al_ok o s -> 0 <= start -> 0 <= count -> start + count <= zlen (al_items s) ->
  al_returns o (ArrayList_IndexOf obj start count) s
    (match first_match (fun x => fnObjectEquals o x obj) (ztake count (zdrop start (al_items s))) start
     with Some i => i | None => -1 end) (al_abs s) /\
  al_returns o (ArrayList_LastIndexOf obj start count) s
    (match last_match (fun x => fnObjectEquals o x obj) (ztake count (zdrop start (al_items s))) start
     with Some i => 1 + i | None => -1 end) (al_abs s) /\
  exists t : wArrayList unit, al_ok default_object t /\ zlen (al_items t) = 2 /\
    ArrayList_IndexOf 7 1 (-1) t = Abort.
Proof.
  intros Hok Hs Hc Hr.
  pose proof (ArrayList_IndexOf_run o obj start count s Hok) as Hi.
  replace (start <? 0) with false in Hi by lia. replace (count <? 0) with false in Hi by lia.
  destruct (Hi Hr) as [H1 H2]. split_and!; [done|done|].
  exists (mkArrayList 2 2 false 2 [1; 2] 0 default_object tt). split; [|done].
  split; cbn; (done || lia).
Qed.

Lemma arraylist_search_witness :
  al_returns default_object (ArrayList_LastIndexOf 5 0 3)
    (mkArrayList 4 2 true 3 [5; 6; 5; 0] 0 default_object tt) 3 ([5; 6; 5], tt, 4).
Proof.
  destruct (@arraylist_search unit malloc_all fresh_zero default_object 5 0 3
    (mkArrayList 4 2 true 3 [5; 6; 5; 0] 0 default_object tt)) as (_ & Hr & _);
    [split; cbn; (done || lia)|lia|lia|vm_compute; discriminate|exact Hr].
Defined.
