(* ===== verification/Stack.v ===== *)
(** * Stacks of objects: [winpr/libwinpr/utils/collections/Stack.c] *)

From S2P Require Import Prelude Memory Collections.

Section stack_ops.
Context {W : Type} `{Malloc} `{FreshMemory}.

Record wStack : Type := mkStack {
  st_size : Z;
  st_capacity : Z;
  st_array : list Z;
  st_lock : Z;
  st_synchronized : bool;
  st_object : wObject W;
  st_world : W
}.

Definition st_set_lock (l : Z) (s : wStack) : wStack :=
  mkStack (st_size s) (st_capacity s) (st_array s) l (st_synchronized s) (st_object s) (st_world s).
Definition st_set_world (w : W) (s : wStack) : wStack :=
  mkStack (st_size s) (st_capacity s) (st_array s) (st_lock s) (st_synchronized s) (st_object s) w.
Definition st_set_size (n : Z) (s : wStack) : wStack :=
  mkStack n (st_capacity s) (st_array s) (st_lock s) (st_synchronized s) (st_object s) (st_world s).
Definition st_set_array (c : Z) (a : list Z) (s : wStack) : wStack :=
  mkStack (st_size s) c a (st_lock s) (st_synchronized s) (st_object s) (st_world s).

(** ** Operations *)

(** [if (stack->synchronized) EnterCriticalSection (&stack->lock)], and leave. *)
Definition st_enter : Prog wStack unit :=
  s <- pget ;; if st_synchronized s then pput (st_set_lock (st_lock s + 1) s) else pret tt.
Definition st_leave : Prog wStack unit :=
  s <- pget ;; if st_synchronized s then pput (st_set_lock (st_lock s - 1) s) else pret tt.

Definition Stack_Count : Prog wStack Z :=
  st_enter ;; s <- pget ;; st_leave ;; pret (st_size s).

Definition Stack_IsSynchronized (s : wStack) : bool := st_synchronized s.
Definition Stack_Object (s : wStack) : wObject W := st_object s.

Fixpoint st_clear_loop (n : nat) (index : Z) : Prog wStack unit :=
  match n with
  | O => pret tt
  | S n' =>
      s <- pget ;;
      x <- plift (slot_get index (st_array s)) ;;
      pput (st_set_world (obj_free (st_object s) x (st_world s)) s) ;;
      a <- plift (slot_set index NULL (st_array s)) ;;
      s <- pget ;; pput (st_set_array (st_capacity s) a s) ;;
      st_clear_loop n' (index + 1)
  end.

Definition Stack_Clear : Prog wStack unit :=
  st_enter ;;
  s <- pget ;;
  st_clear_loop (Z.to_nat (st_size s)) 0 ;;
  s <- pget ;; pput (st_set_size 0 s) ;;
  st_leave.

Fixpoint st_contains_loop (n : nat) (i obj : Z) : Prog wStack bool :=
  match n with
  | O => pret false
  | S n' =>
      s <- pget ;;
      x <- plift (slot_get i (st_array s)) ;;
      if fnObjectEquals (st_object s) x obj then pret true else st_contains_loop n' (i + 1) obj
  end.

Definition Stack_Contains (obj : Z) : Prog wStack bool :=
  st_enter ;;
  s <- pget ;;
  found <- st_contains_loop (Z.to_nat (st_size s)) 0 obj ;;
  st_leave ;;
  pret found.

Definition Stack_Push (obj : Z) : Prog wStack unit :=
  st_enter ;;
  s <- pget ;;
  ok <- (if st_capacity s <=? u64 (st_size s + 1) then
           let new_cap := u64 (st_capacity s * 2) in
           let bytes := u64 (8 * new_cap) in
           if negb (malloc_ok bytes) then pret false
           else pput (st_set_array new_cap (mem_realloc (st_array s) (bytes / 8)) s) ;; pret true
         else pret true) ;;
  (if ok then
     s <- pget ;;
     a <- plift (slot_set (st_size s) obj (st_array s)) ;;
     pput (st_set_size (u64 (st_size s + 1)) (st_set_array (st_capacity s) a s))
   else pret tt) ;;
  st_leave.

Definition Stack_Pop : Prog wStack Z :=
  st_enter ;;
  s <- pget ;;
  obj <- (if 0 <? st_size s then
            pput (st_set_size (st_size s - 1) s) ;;
            plift (slot_get (st_size s - 1) (st_array s))
          else pret NULL) ;;
  st_leave ;;
  pret obj.

Definition Stack_Peek : Prog wStack Z :=
  st_enter ;;
  s <- pget ;;
  obj <- (if 0 <? st_size s then plift (slot_get (st_size s - 1) (st_array s)) else pret NULL) ;;
  st_leave ;;
  pret obj.

(** Frees the array, not the objects in it. *)
Definition Stack_Free (s : wStack) : W := st_world s.

Definition Stack_New (lock_ok synchronized : bool) (w : W) : option wStack :=
  if negb (malloc_ok 112) then None
  else if negb (malloc_ok 256) then None
  else if synchronized && negb lock_ok then None
  else Some (mkStack 0 32 (zrep 32 NULL) 0 synchronized default_object w).
End stack_ops.
Arguments wStack W : clear implicits.

(** ** The stack an array stands for *)

Section stack.
Context {W : Type} `{Malloc} `{FreshMemory} (o : wObject W).
Implicit Types s : wStack W.

(** The top is the last element. *)
Definition st_items s : list Z := ztake (st_size s) (st_array s).
(** The elements, the world of the callbacks and the capacity. *)
Definition st_abs s : list Z * W * Z := (st_items s, st_world s, st_capacity s).

(** The capacity after a push on [n] elements: the last slot stays free. *)
Definition st_grown (cap n : Z) : Z := if n + 1 <? cap then cap else cap * 2.

Record st_ok s : Prop := {
  so_array : zlen (st_array s) = st_capacity s;
  so_capacity : 2 <= st_capacity s < 2 ^ 60;
  so_size : 0 <= st_size s < st_capacity s;
  so_object : st_object s = o
}.

#[export] Instance st_lockable : Lockable (wStack W).
Proof.
  refine {| lk_synchronized := st_synchronized; lk_count := st_lock; lk_set := st_set_lock |};
    reflexivity.
Defined.

Lemma st_ok_lock l s : st_ok s -> st_ok (lk_set l s).
Proof. by intros []. Qed.

Lemma zlen_st_items s : st_ok s -> zlen (st_items s) = st_size s.
Proof. intros []. unfold st_items. zlist_lia. Qed.

Definition st_returns {A} (m : Prog (wStack W) A) s (a : A) (abs' : list Z * W * Z) : Prop :=
  exists s', m s = Ret (a, s') /\ st_ok s' /\ st_abs s' = abs' /\ st_lock s' = st_lock s.

Lemma st_finish {A} (k : unit -> Prog (wStack W) A) s s1 a abs' :
  st_ok s1 -> st_abs s1 = abs' -> st_lock s1 = st_lock (locked s) ->
  st_synchronized s1 = st_synchronized s -> (forall s2, k tt s2 = Ret (a, s2)) ->
  exists s', pbind st_leave k s1 = Ret (a, s') /\ st_ok s' /\ st_abs s' = abs' /\ st_lock s' = st_lock s.
Proof.
  intros Hok Ha Hl Hs Hk.
  destruct (unlocked_spec st_ok st_abs st_ok_lock (fun _ _ => eq_refl) s s1 Hok (conj Hs Hl))
    as (? & ? & ? & ?).
  exists (unlocked s1). change st_leave with (lk_leave (S := wStack W)).
  rewrite leave_run, Hk. split_and!; [done|done|congruence|done].
Qed.

Lemma st_finish_unit s s1 abs' :
  st_ok s1 -> st_abs s1 = abs' -> st_lock s1 = st_lock (locked s) ->
  st_synchronized s1 = st_synchronized s ->
  exists s', st_leave s1 = Ret (tt, s') /\ st_ok s' /\ st_abs s' = abs' /\ st_lock s' = st_lock s.
Proof.
  intros Hok Ha Hl Hs.
  destruct (unlocked_spec st_ok st_abs st_ok_lock (fun _ _ => eq_refl) s s1 Hok (conj Hs Hl))
    as (? & ? & ? & ?).
  exists (unlocked s1). change st_leave with (lk_leave (S := wStack W)).
  rewrite leave_last. split_and!; [done|done|congruence|done].
Qed.

Lemma st_locked s :
  st_ok s -> st_ok (locked s) /\ st_items (locked s) = st_items s /\
    st_world (locked s) = st_world s /\ st_synchronized (locked s) = st_synchronized s /\
    st_size (locked s) = st_size s /\ st_capacity (locked s) = st_capacity s.
Proof.
  intros Hok. unfold locked. cbn. destruct (st_synchronized s) eqn:E; [|done].
  split_and!; try done. by apply st_ok_lock.
Qed.

Local Ltac enter Hok :=
  let Hl := fresh "Hl" in let Hi := fresh "Hi" in let Hw := fresh "Hw" in
  let Hs := fresh "Hs" in let Hz := fresh "Hz" in let Hcp := fresh "Hcp" in
  destruct (st_locked _ Hok) as (Hl & Hi & Hw & Hs & Hz & Hcp);
  change st_enter with (lk_enter (S := wStack W)); rewrite enter_run, ?pbind_pget.

(** The element at the top. *)
Definition top (l : list Z) : Z := znth l (zlen l - 1).

Lemma Stack_Peek_run s : st_ok s -> st_returns Stack_Peek s (top (st_items s)) (st_abs s).
Proof.
  intros Hok. pose proof (zlen_st_items s Hok) as Hzi. unfold st_returns, Stack_Peek, top.
  enter Hok. pose proof Hl as []. rewrite <- Hi, zlen_st_items by done.
  rewrite pbind_ret with (a := znth (st_items (locked s)) (st_size (locked s) - 1)) (s' := locked s).
  - apply (st_finish (fun _ => pret _) s (locked s)); try done. unfold st_abs. by rewrite Hi, Hw, Hcp.
  - unfold st_items. rewrite znth_ztake. replace (_ - 1 <? _) with true by lia.
    case_if; [by rewrite slot_get_run by lia|]. by replace (st_size (locked s)) with 0 by lia.
Qed.

Lemma Stack_Pop_run s :
  st_ok s -> st_returns Stack_Pop s (top (st_items s))
    (ztake (zlen (st_items s) - 1) (st_items s), st_world s, st_capacity s).
Proof.
  intros Hok. pose proof (zlen_st_items s Hok) as Hzi. unfold st_returns, Stack_Pop, top.
  enter Hok. pose proof Hl as []. rewrite <- Hi, zlen_st_items by done.
  set (s0 := locked s) in *. set (s1 := st_set_size (Z.max 0 (st_size s0 - 1)) s0).
  rewrite pbind_ret with (a := znth (st_items s0) (st_size s0 - 1)) (s' := s1).
  - apply (st_finish (fun _ => pret _) s s1); try done; [split; cbn; (done || lia)|].
    unfold st_abs, st_items. cbn. rewrite Hw, Hcp. do 2 f_equal. rewrite ztake_ztake.
    unfold ztake. f_equal. lia.
  - unfold st_items. rewrite znth_ztake. replace (_ - 1 <? _) with true by lia. case_if.
    + rewrite pbind_pput, slot_get_run by lia. unfold plift, s1. do 3 f_equal. lia.
    + unfold s1. replace (st_size s0) with 0 by lia. unfold pret. do 2 f_equal.
      replace 0 with (st_size s0) at 1 by lia. unfold st_set_size. destruct s0. cbn in *.
      by replace st_size0 with 0 by lia.
Qed.

Lemma Stack_Push_run obj s :
  st_ok s -> let c := st_grown (st_capacity s) (zlen (st_items s)) in
  (st_capacity s <= zlen (st_items s) + 1 /\ malloc_ok (8 * c) = false /\ st_returns (Stack_Push obj) s tt (st_abs s)) \/
  ((st_capacity s <= zlen (st_items s) + 1 -> malloc_ok (8 * c) = true) /\
   st_returns (Stack_Push obj) s tt (st_items s ++ [obj], st_world s, c)).
Proof.
  intros Hok. rewrite (zlen_st_items s Hok). unfold st_returns, Stack_Push. enter Hok. set (s0 := locked s) in *.
  rewrite <- Hz, <- Hcp. set (c := st_grown (st_capacity s0) (st_size s0)). cbv zeta.
  pose proof Hl as []. rewrite !(u64_id (st_size s0 + 1)) by lia.
  assert (Hgrow : (st_capacity s0 <= st_size s0 + 1 /\ malloc_ok (8 * c) = false /\
      (if st_capacity s0 <=? st_size s0 + 1 then
         let new_cap := u64 (st_capacity s0 * 2) in let bytes := u64 (8 * new_cap) in
         if negb (malloc_ok bytes) then pret false
         else pput (st_set_array new_cap (mem_realloc (st_array s0) (bytes / 8)) s0) ;; pret true
       else pret true) s0 = Ret (false, s0)) \/
    (exists a, (st_capacity s0 <= st_size s0 + 1 -> malloc_ok (8 * c) = true) /\ st_ok (st_set_array c a s0) /\ st_size s0 + 1 < c /\
      ztake (st_size s0) a = st_items s0 /\
      (if st_capacity s0 <=? st_size s0 + 1 then
         let new_cap := u64 (st_capacity s0 * 2) in let bytes := u64 (8 * new_cap) in
         if negb (malloc_ok bytes) then pret false
         else pput (st_set_array new_cap (mem_realloc (st_array s0) (bytes / 8)) s0) ;; pret true
       else pret true) s0 = Ret (true, st_set_array c a s0))).
  { unfold c, st_grown. destruct (st_capacity s0 <=? st_size s0 + 1) eqn:E; cbv zeta.
    - replace (st_size s0 + 1 <? st_capacity s0) with false by lia. rewrite (u64_id (st_capacity s0 * 2)), (u64_id (8 * _)) by lia.
      replace (8 * (st_capacity s0 * 2) / 8) with (st_capacity s0 * 2) by (Z.div_mod_to_equations; lia).
      destruct (malloc_ok _) eqn:Em; cbn [negb]; [right|left; split_and!; [lia|done|done]].
      pose proof (malloc_bound _ Em).
      exists (mem_realloc (st_array s0) (st_capacity s0 * 2)). split; [done|].
      split; [split; cbn; try done; try lia; rewrite zlen_mem_realloc; lia|]. split; [lia|]. split; [|done].
      unfold st_items. apply znth_ext; [rewrite !zlen_ztake, zlen_mem_realloc; lia|].
      rewrite zlen_ztake, zlen_mem_realloc by lia. intros i Hi'. rewrite !znth_ztake.
      by rewrite znth_mem_realloc by lia.
    - right. replace (st_size s0 + 1 <? st_capacity s0) with true by lia. exists (st_array s0).
      replace (st_set_array _ _ _) with s0 by (by destruct s0). split_and!; [lia|done|lia|done|done]. }
  destruct Hgrow as [(Hf & Hn & Hr)|(a & Hm & Hk & Hc & Hit & Hr)]; rewrite (pbind_ret _ _ _ _ _ Hr).
  - left. split; [done|]. split; [done|]. rewrite pbind_pret.
    apply (st_finish_unit s s0); try done. unfold st_abs. by rewrite Hi, Hw, Hcp.
  - right. split; [done|]. clear Hr. pose proof Hk as []. cbn in so_array1.
    set (s2 := st_set_size (st_size s0 + 1) (st_set_array c (splice (st_size s0) [obj] a) s0)).
    rewrite pbind_ret with (a := tt) (s' := s2).
    + apply (st_finish_unit s s2); try done.
      * split; cbn; try done; try lia. rewrite zlen_splice1; lia.
      * unfold st_abs. cbn. rewrite Hw. do 2 f_equal. unfold st_items at 1. cbn.
        rewrite ztake_splice; [by rewrite Hit, Hi|lia|rewrite zlen_cons, zlen_nil; lia|].
        rewrite zlen_cons, zlen_nil. lia.
    + rewrite pbind_pget. cbn [st_size st_set_array st_array st_capacity].
      rewrite slot_set_run, pbind_plift by lia. rewrite u64_id by lia. done.
Qed.

Lemma st_clear_loop_run n i s :
  zlen (st_array s) = st_capacity s -> 0 <= i -> i + Z.of_nat n <= st_capacity s ->
  exists a, zlen a = st_capacity s /\ st_clear_loop n i s =
    Ret (tt, st_set_world (free_all (st_object s) (ztake (Z.of_nat n) (zdrop i (st_array s))) (st_world s))
               (st_set_array (st_capacity s) a s)).
Proof.
  revert i s. induction n as [|n IH]; intros i s Ha Hi Hn.
  - exists (st_array s). split; [done|]. by destruct s.
  - cbn [st_clear_loop]. rewrite pbind_pget, slot_get_run, slot_set_run by lia.
    rewrite pbind_plift, pbind_pput, pbind_plift, pbind_pget, pbind_pput.
    cbn [st_capacity st_set_world]. set (s1 := st_set_array _ _ _).
    assert (Hz : zlen (splice i [NULL] (st_array s)) = st_capacity s) by (rewrite zlen_splice1; lia).
    destruct (IH (i + 1) s1) as (a & Hza & Hrun); [done|lia|cbn; lia|].
    exists a. split; [done|]. rewrite Hrun. do 2 f_equal. unfold s1. cbn.
    unfold st_set_world, st_set_array. cbn. f_equal.
    replace (Z.of_nat (S n)) with (1 + Z.of_nat n) by lia. rewrite slots_cons by lia.
    by rewrite zdrop_splice1 by lia.
Qed.

Lemma st_contains_loop_run n i obj s :
  0 <= i -> i + Z.of_nat n <= zlen (st_array s) ->
  st_contains_loop n i obj s =
  Ret (existsb (fun x => fnObjectEquals (st_object s) x obj)
         (ztake (Z.of_nat n) (zdrop i (st_array s))), s).
Proof.
  revert i. induction n as [|n IH]; intros i Hi Hn; [done|]. cbn [st_contains_loop].
  rewrite pbind_pget, slot_get_run, pbind_plift by lia.
  replace (Z.of_nat (S n)) with (1 + Z.of_nat n) by lia. rewrite slots_cons by lia.
  cbn [existsb]. case_if; [done|]. apply IH; lia.
Qed.

Lemma Stack_Clear_run s :
  st_ok s -> st_returns Stack_Clear s tt ([], free_all o (st_items s) (st_world s), st_capacity s).
Proof.
  intros Hok. unfold st_returns, Stack_Clear. enter Hok. pose proof Hl as [].
  destruct (st_clear_loop_run (Z.to_nat (st_size (locked s))) 0 (locked s)) as (a & Hza & Hr); [lia..|].
  rewrite (pbind_ret _ _ _ _ _ Hr), pbind_pget, pbind_pput.
  rewrite Z2Nat.id, zdrop_0, so_object0 by lia. fold (st_items (locked s)). rewrite Hi, Hw.
  apply (st_finish_unit s); try done; [split; cbn; (done || lia)|]. unfold st_abs. by rewrite <- Hcp.
Qed.

Lemma Stack_Contains_run obj s :
  st_ok s ->
  st_returns (Stack_Contains obj) s (existsb (fun x => fnObjectEquals o x obj) (st_items s)) (st_abs s).
Proof.
  intros Hok. unfold st_returns, Stack_Contains. enter Hok. pose proof Hl as [].
  rewrite (pbind_ret _ _ _ _ _ (st_contains_loop_run (Z.to_nat (st_size (locked s))) 0 obj (locked s)
    ltac:(lia) ltac:(lia))).
  rewrite Z2Nat.id, zdrop_0, so_object0 by lia. fold (st_items (locked s)). rewrite Hi.
  apply (st_finish (fun _ => pret _) s (locked s)); try done. unfold st_abs. by rewrite Hi, Hw, Hcp.
Qed.

Lemma Stack_Count_run s : st_ok s -> st_returns Stack_Count s (zlen (st_items s)) (st_abs s).
Proof.
  intros Hok. unfold st_returns, Stack_Count. pose proof (zlen_st_items s Hok) as Hzi. enter Hok.
  rewrite Hzi, <- Hz. apply (st_finish (fun _ => pret _) s (locked s)); try done.
  unfold st_abs. by rewrite Hi, Hw, Hcp.
Qed.

(** ** The stack as a transition system *)

Inductive stack_op : Type :=
| SPush (obj : Z) | SPop | SPeek | SContains (obj : Z) | SCount | SClear.

Inductive stack_out : Type := SDone | SBool (b : bool) | SPointer (p : Z) | SNumber (n : Z).

Definition run_stack_op (op : stack_op) : Prog (wStack W) stack_out :=
  match op with
  | SPush obj => Stack_Push obj ;; pret SDone
  | SPop => p <- Stack_Pop ;; pret (SPointer p)
  | SPeek => p <- Stack_Peek ;; pret (SPointer p)
  | SContains obj => b <- Stack_Contains obj ;; pret (SBool b)
  | SCount => n <- Stack_Count ;; pret (SNumber n)
  | SClear => Stack_Clear ;; pret SDone
  end.

(** An object is dropped only when the array is full and a larger one is refused. *)
Inductive stack_step : list Z * W * Z -> stack_op -> stack_out -> list Z * W * Z -> Prop :=
| step_push l w c obj :
    (c <= zlen l + 1 -> malloc_ok (8 * st_grown c (zlen l)) = true) ->
    stack_step (l, w, c) (SPush obj) SDone (l ++ [obj], w, st_grown c (zlen l))
| step_push_no_memory l w c obj :
    c <= zlen l + 1 -> malloc_ok (8 * st_grown c (zlen l)) = false -> stack_step (l, w, c) (SPush obj) SDone (l, w, c)
| step_pop l w obj c : stack_step (l ++ [obj], w, c) SPop (SPointer obj) (l, w, c)
| step_pop_empty w c : stack_step ([], w, c) SPop (SPointer NULL) ([], w, c)
| step_speek l w obj c : stack_step (l ++ [obj], w, c) SPeek (SPointer obj) (l ++ [obj], w, c)
| step_speek_empty w c : stack_step ([], w, c) SPeek (SPointer NULL) ([], w, c)
| step_scontains l w obj c :
    stack_step (l, w, c) (SContains obj) (SBool (existsb (fun x => fnObjectEquals o x obj) l)) (l, w, c)
| step_scount l w c : stack_step (l, w, c) SCount (SNumber (zlen l)) (l, w, c)
| step_sclear l w c : stack_step (l, w, c) SClear SDone ([], free_all o l w, c).

Lemma st_returns_step {A} (m : Prog (wStack W) A) (f : A -> stack_out) s a abs' op :
  st_returns m s a abs' -> stack_step (st_abs s) op (f a) abs' ->
  exists out s', (x <- m ;; pret (f x)) s = Ret (out, s') /\ (st_ok s' /\ st_lock s' = st_lock s) /\
    stack_step (st_abs s) op out (st_abs s').
Proof.
  intros (s' & Hr & Hk & Ha & Hl) Hst. exists (f a), s'. rewrite (pbind_ret _ _ _ _ _ Hr).
  by rewrite Ha.
Qed.

Lemma top_snoc l x : top (l ++ [x]) = x.
Proof.
  unfold top. rewrite zlen_app, zlen_cons, zlen_nil, znth_app, znth_cons.
  pose proof (zlen_nonneg l). by repeat (case_if; try lia).
Qed.

Lemma run_stack_op_refines op s :
  st_ok s ->
  exists out s', run_stack_op op s = Ret (out, s') /\ (st_ok s' /\ st_lock s' = st_lock s) /\
    stack_step (st_abs s) op out (st_abs s').
Proof.
  intros Hok. destruct op; cbn [run_stack_op].
  - destruct (Stack_Push_run obj s Hok) as [(Hf & Hn & Hr)|[Hm Hr]];
      (eapply (st_returns_step _ (fun _ => SDone)); [exact Hr|]).
    + by apply step_push_no_memory.
    + by constructor.
  - eapply st_returns_step; [exact (Stack_Pop_run s Hok)|]. unfold st_abs.
    destruct (st_items s) as [|x l _] using rev_ind; [constructor|]. rewrite top_snoc.
    rewrite zlen_app, zlen_cons, zlen_nil, ztake_app, ztake_all, ztake_0, app_nil_r by lia. constructor.
  - eapply st_returns_step; [exact (Stack_Peek_run s Hok)|]. unfold st_abs.
    destruct (st_items s) as [|x l _] using rev_ind; [constructor|]. rewrite top_snoc. constructor.
  - eapply st_returns_step; [exact (Stack_Contains_run obj s Hok)|]. constructor.
  - eapply st_returns_step; [exact (Stack_Count_run s Hok)|]. constructor.
  - eapply (st_returns_step _ (fun _ => SDone)); [exact (Stack_Clear_run s Hok)|]. constructor.
Qed.

Definition st_set_object s : wStack W :=
  mkStack (st_size s) (st_capacity s) (st_array s) (st_lock s) (st_synchronized s) o (st_world s).

Lemma Stack_New_run lock_ok sync (w : W) s :
  Stack_New lock_ok sync w = Some s ->
  st_ok (st_set_object s) /\ st_abs (st_set_object s) = ([], w, 32) /\ st_lock s = 0.
Proof.
  unfold Stack_New. repeat (case_if; [done|]). intros [= <-]. split; [|done].
  split; cbn; try done; lia.
Qed.
End stack.

(** ** Properties *)

(** A stack made by [Stack_New] behaves under every sequence of operations as a list whose
    end is the top: what is pushed last is popped first, growth is invisible, [Stack_Clear]
    frees every element once, and every operation releases the lock it took.  When the
    array is full and a larger one is refused, a push drops the object without a sign. *)
Theorem stack_refines_list {W : Type} `{Malloc} `{FreshMemory} (o : wObject W) (w : W)
    (lock_ok sync : bool) (s : wStack W) (ops : list stack_op) :
  Stack_New lock_ok sync w = Some s ->
  exists outs s', run_seq run_stack_op ops (st_set_object o s) = Ret (outs, s') /\
    steps (stack_step o) ([], w, 32) ops outs (st_abs s') /\ st_lock s' = 0.
Proof.
  intros Hnew. destruct (Stack_New_run o lock_ok sync w s Hnew) as (Hok & Ha & Hl).
  destruct (run_seq_refines run_stack_op (fun t => st_ok o t /\ st_lock t = 0) st_abs (stack_step o)
    (fun _ => True)) with (ops := ops) (s := st_set_object o s) as (outs & s' & Hr & [Hk Hl'] & Hst).
  - intros op t _ [Hkt Hlt]. destruct (run_stack_op_refines o op t Hkt) as (out & t' & ? & [? ?] & ?).
    exists out, t'. split_and!; [done|done|congruence|done].
  - by apply Forall_forall.
  - done.
  - exists outs, s'. by rewrite <- Ha.
Qed.

Lemma stack_refines_list_witness :
  exists s outs s',
    @Stack_New unit malloc_all true true tt = Some s /\
    run_seq (@run_stack_op unit malloc_all fresh_zero) [SPush 5; SPush 6; SPop; SPeek]
      (st_set_object default_object s) = Ret (outs, s') /\
    outs = [SDone; SDone; SPointer 6; SPointer 5] /\ st_lock s' = 0.
Proof.
  eexists. destruct (@stack_refines_list unit malloc_all fresh_zero default_object tt true true _
    [SPush 5; SPush 6; SPop; SPeek] eq_refl) as (outs & s' & Hr & _ & Hl).
  exists outs, s'. split; [reflexivity|]. split; [exact Hr|]. split; [|done].
  vm_compute in Hr. by injection Hr as <- <-.
Defined.
