(* ===== verification/HashTable.v ===== *)
(** * Hash tables: [winpr/libwinpr/utils/collections/HashTable.c]

    Chained hashing with rehashing, callbacks for keys and values, a lock, and a recursive
    [HashTable_Foreach] during which removals are only marked.  A bucket is the list of its
    pairs; a pair carries the address it was allocated at, so that an iteration can hold on to
    it while the callback changes the table.  The load factors are IEEE single precision
    numbers, computed as the code computes them. *)

From Stdlib Require Import SpecFloat.
From S2P Require Import Prelude Memory Collections.

(** ** Single precision

    [(float) n], [a / b] and the conversion of a [float] to [size_t], which is undefined for a
    value out of range. *)
Definition float_of (n : Z) : spec_float := binary_normalize 24 128 n 0 false.
Definition float_div (a b : spec_float) : spec_float := SFdiv 24 128 a b.
Definition float_lt (a b : spec_float) : bool := SFltb a b.
Definition float_trunc (f : spec_float) : option Z :=
  match f with
  | S754_zero _ => Some 0
  | S754_finite false m e =>
      let v := if 0 <=? e then Zpos m * 2 ^ e else Zpos m / 2 ^ (- e) in
      if v <? 2 ^ 64 then Some v else None
  | _ => None
  end.

(** ** Hash functions and comparisons *)

Definition HashTable_PointerCompare (pointer1 pointer2 : Z) : bool := pointer1 =? pointer2.
Definition HashTable_PointerHash (pointer : Z) : Z := Z.shiftr (u32 pointer) 4.

(** The bytes of the string before its terminating NUL. *)
Fixpoint string_hash_loop (str : list Z) (hash : Z) : Z :=
  match str with
  | [] => hash
  | c :: str' => string_hash_loop str' (u32 (hash * 33 + c))
  end.
Definition HashTable_StringHash (key : list Z) : Z := string_hash_loop key 5381.

Section hashtable_ops.
Context {W : Type} `{Malloc}.

Record wKeyValuePair : Type := mkPair {
  kv_addr : Z;
  kv_key : Z;
  kv_value : Z;
  kv_marked : bool
}.

Record wHashTable : Type := mkTable {
  ht_synchronized : bool;
  ht_lock : Z;
  ht_numOfBuckets : Z;
  ht_numOfElements : Z;
  ht_idealRatio : spec_float;
  ht_lowerRehashThreshold : spec_float;
  ht_upperRehashThreshold : spec_float;
  ht_bucketArray : list (list wKeyValuePair);
  ht_hash : Z -> Z;
  ht_key : wObject W;
  ht_value : wObject W;
  ht_foreachRecursionLevel : Z;
  ht_pendingRemoves : Z;
  ht_fresh : Z;  (* where the next pair will be allocated *)
  ht_world : W
}.

Definition ht_set_lock (l : Z) (t : wHashTable) : wHashTable :=
  mkTable (ht_synchronized t) l (ht_numOfBuckets t) (ht_numOfElements t) (ht_idealRatio t)
    (ht_lowerRehashThreshold t) (ht_upperRehashThreshold t) (ht_bucketArray t) (ht_hash t)
    (ht_key t) (ht_value t) (ht_foreachRecursionLevel t) (ht_pendingRemoves t) (ht_fresh t)
    (ht_world t).
Definition ht_set_buckets (n : Z) (b : list (list wKeyValuePair)) (t : wHashTable) : wHashTable :=
  mkTable (ht_synchronized t) (ht_lock t) n (ht_numOfElements t) (ht_idealRatio t)
    (ht_lowerRehashThreshold t) (ht_upperRehashThreshold t) b (ht_hash t)
    (ht_key t) (ht_value t) (ht_foreachRecursionLevel t) (ht_pendingRemoves t) (ht_fresh t)
    (ht_world t).
Definition ht_set_counts (n p : Z) (t : wHashTable) : wHashTable :=
  mkTable (ht_synchronized t) (ht_lock t) (ht_numOfBuckets t) n (ht_idealRatio t)
    (ht_lowerRehashThreshold t) (ht_upperRehashThreshold t) (ht_bucketArray t) (ht_hash t)
    (ht_key t) (ht_value t) (ht_foreachRecursionLevel t) p (ht_fresh t) (ht_world t).
Definition ht_set_level (l : Z) (t : wHashTable) : wHashTable :=
  mkTable (ht_synchronized t) (ht_lock t) (ht_numOfBuckets t) (ht_numOfElements t) (ht_idealRatio t)
    (ht_lowerRehashThreshold t) (ht_upperRehashThreshold t) (ht_bucketArray t) (ht_hash t)
    (ht_key t) (ht_value t) l (ht_pendingRemoves t) (ht_fresh t) (ht_world t).
Definition ht_set_world (w : W) (t : wHashTable) : wHashTable :=
  mkTable (ht_synchronized t) (ht_lock t) (ht_numOfBuckets t) (ht_numOfElements t) (ht_idealRatio t)
    (ht_lowerRehashThreshold t) (ht_upperRehashThreshold t) (ht_bucketArray t) (ht_hash t)
    (ht_key t) (ht_value t) (ht_foreachRecursionLevel t) (ht_pendingRemoves t) (ht_fresh t) w.
Definition ht_set_fresh (a : Z) (t : wHashTable) : wHashTable :=
  mkTable (ht_synchronized t) (ht_lock t) (ht_numOfBuckets t) (ht_numOfElements t) (ht_idealRatio t)
    (ht_lowerRehashThreshold t) (ht_upperRehashThreshold t) (ht_bucketArray t) (ht_hash t)
    (ht_key t) (ht_value t) (ht_foreachRecursionLevel t) (ht_pendingRemoves t) a (ht_world t).

(** [if (table->synchronized) EnterCriticalSection (&table->lock)], and leave. *)
Definition ht_enter : Prog wHashTable unit :=
  t <- pget ;; if ht_synchronized t then pput (ht_set_lock (ht_lock t + 1) t) else pret tt.
Definition ht_leave : Prog wHashTable unit :=
  t <- pget ;; if ht_synchronized t then pput (ht_set_lock (ht_lock t - 1) t) else pret tt.

Definition HashTable_Lock : Prog wHashTable unit :=
  t <- pget ;; pput (ht_set_lock (ht_lock t + 1) t).
Definition HashTable_Unlock : Prog wHashTable unit :=
  t <- pget ;; pput (ht_set_lock (ht_lock t - 1) t).

(** ** Rehashing *)

(** [for (i = 3; i < 51; i += 2)] *)
Fixpoint probable_prime_loop (n : nat) (i oddNumber : Z) : bool :=
  match n with
  | O => true
  | S n' =>
      if oddNumber =? i then true
      else if oddNumber mod i =? 0 then false
      else probable_prime_loop n' (i + 2) oddNumber
  end.
Definition HashTable_IsProbablePrime (oddNumber : Z) : bool := probable_prime_loop 24 3 oddNumber.

(** [while (!HashTable_IsProbablePrime (n)) n += 2], at most [fuel] rounds. *)
Fixpoint ideal_loop (fuel : nat) (n : Z) : option Z :=
  if HashTable_IsProbablePrime n then Some n
  else match fuel with O => None | S fuel' => ideal_loop fuel' (u64 (n + 2)) end.

Definition HashTable_CalculateIdealNumOfBuckets (t : wHashTable) : outcome Z :=
  match float_trunc (float_div (float_of (ht_numOfElements t)) (ht_idealRatio t)) with
  | None => Abort
  | Some tmp =>
      let n := if tmp <? 5 then 5 else Z.lor tmp 1 in
      match ideal_loop 512 n with Some n => Ret n | None => Hang end
  end.

(** [pair->next = bucket[h]; bucket[h] = pair] *)
Definition push_pair (hash : Z -> Z) (n : Z) (b : list (list wKeyValuePair)) (p : wKeyValuePair)
  : list (list wKeyValuePair) :=
  alter (cons p) (Z.to_nat (hash (kv_key p) mod n)) b.

Definition HashTable_Rehash (numOfBuckets : Z) : Prog wHashTable unit :=
  t <- pget ;;
  n <- (if numOfBuckets =? 0 then plift (HashTable_CalculateIdealNumOfBuckets t)
        else pret numOfBuckets) ;;
  if n =? ht_numOfBuckets t then pret tt
  else if negb (malloc_ok (n * 8)) then pret tt
  else
    pput (ht_set_buckets n
            (foldl (push_pair (ht_hash t) n) (replicate (Z.to_nat n) []) (concat (ht_bucketArray t)))
            t).

(** ** Pairs *)

Definition HashTable_Equals (t : wHashTable) (pair : wKeyValuePair) (key : Z) : bool :=
  fnObjectEquals (ht_key t) key (kv_key pair).

(** The bucket of a key; the index is below [numOfBuckets]. *)
Definition bucket_index (t : wHashTable) (key : Z) : nat :=
  Z.to_nat (ht_hash t key mod ht_numOfBuckets t).

(** [while (pair && !HashTable_Equals (table, pair, key)) pair = pair->next]: the pairs passed
    over and the chain from the pair found on. *)
Fixpoint chain_split (eq : wKeyValuePair -> bool) (chain : list wKeyValuePair)
  : list wKeyValuePair * list wKeyValuePair :=
  match chain with
  | [] => ([], [])
  | p :: chain' =>
      if eq p then ([], chain)
      else let '(before, found) := chain_split eq chain' in (p :: before, found)
  end.

Definition get_bucket (i : nat) : Prog wHashTable (list wKeyValuePair) :=
  t <- pget ;;
  match ht_bucketArray t !! i with Some b => pret b | None => fun _ => Abort end.

Definition set_bucket (i : nat) (b : list wKeyValuePair) : Prog wHashTable unit :=
  t <- pget ;; pput (ht_set_buckets (ht_numOfBuckets t) (<[i := b]> (ht_bucketArray t)) t).

Definition HashTable_Get (key : Z) : Prog wHashTable (option wKeyValuePair) :=
  if key =? NULL then pret None
  else
    t <- pget ;;
    b <- get_bucket (bucket_index t key) ;;
    match (chain_split (fun p => HashTable_Equals t p key) b).2 with
    | p :: _ => pret (Some p)
    | [] => pret None
    end.

Definition disposeKey (key : Z) : Prog wHashTable unit :=
  t <- pget ;; pput (ht_set_world (obj_free (ht_key t) key (ht_world t)) t).
Definition disposeValue (value : Z) : Prog wHashTable unit :=
  t <- pget ;; pput (ht_set_world (obj_free (ht_value t) value (ht_world t)) t).
Definition disposePair (pair : wKeyValuePair) : Prog wHashTable unit :=
  disposeKey (kv_key pair) ;; disposeValue (kv_value pair).

(** The pair with its new key, its new value. *)
Definition setKey (pair : wKeyValuePair) (key : Z) : Prog wHashTable wKeyValuePair :=
  disposeKey (kv_key pair) ;;
  t <- pget ;;
  let '(k, w) := obj_new (ht_key t) key (ht_world t) in
  pput (ht_set_world w t) ;;
  pret (mkPair (kv_addr pair) k (kv_value pair) (kv_marked pair)).
Definition setValue (pair : wKeyValuePair) (value : Z) : Prog wHashTable wKeyValuePair :=
  disposeValue (kv_value pair) ;;
  t <- pget ;;
  let '(v, w) := obj_new (ht_value t) value (ht_world t) in
  pput (ht_set_world w t) ;;
  pret (mkPair (kv_addr pair) (kv_key pair) v (kv_marked pair)).

(** ** Operations *)

Definition HashTable_Count (t : wHashTable) : Z := ht_numOfElements t.

(** An existing pair gets the new key and value. *)
Definition insert_existing (i : nat) (before : list wKeyValuePair) (kvp : wKeyValuePair)
    (after : list wKeyValuePair) (key value : Z) : Prog wHashTable bool :=
  (if kv_marked kvp then
     t <- pget ;;
     pput (ht_set_counts (u64 (ht_numOfElements t + 1)) (u32 (ht_pendingRemoves t - 1)) t)
   else pret tt) ;;
  let kvp := mkPair (kv_addr kvp) (kv_key kvp) (kv_value kvp) false in
  kvp <- (if negb (kv_key kvp =? key) then setKey kvp key else pret kvp) ;;
  kvp <- (if negb (kv_value kvp =? value) then setValue kvp value else pret kvp) ;;
  set_bucket i (before ++ kvp :: after) ;;
  pret true.

(** A new pair at the head of its bucket. *)
Definition insert_new (i : nat) (chain : list wKeyValuePair) (key value : Z) : Prog wHashTable bool :=
  if negb (malloc_ok 32) then pret false
  else
    t <- pget ;;
    pput (ht_set_fresh (ht_fresh t + 1) t) ;;
    kvp <- setKey (mkPair (ht_fresh t) NULL NULL false) key ;;
    kvp <- setValue kvp value ;;
    set_bucket i (kvp :: chain) ;;
    t <- pget ;;
    pput (ht_set_counts (u64 (ht_numOfElements t + 1)) (ht_pendingRemoves t) t) ;;
    t <- pget ;;
    (if (ht_foreachRecursionLevel t =? 0) && float_lt (ht_idealRatio t) (ht_upperRehashThreshold t)
     then
       if float_lt (ht_upperRehashThreshold t)
            (float_div (float_of (ht_numOfElements t)) (float_of (ht_numOfBuckets t)))
       then HashTable_Rehash 0 else pret tt
     else pret tt) ;;
    pret true.

Definition HashTable_Insert (key value : Z) : Prog wHashTable bool :=
  if (key =? NULL) || (value =? NULL) then pret false
  else
    ht_enter ;;
    t <- pget ;;
    let i := bucket_index t key in
    b <- get_bucket i ;;
    rc <- (match chain_split (fun p => HashTable_Equals t p key) b with
           | (before, kvp :: after) => insert_existing i before kvp after key value
           | (_, []) => insert_new i b key value
           end) ;;
    ht_leave ;;
    pret rc.

Definition HashTable_Remove (key : Z) : Prog wHashTable bool :=
  if key =? NULL then pret false
  else
    ht_enter ;;
    t <- pget ;;
    let i := bucket_index t key in
    b <- get_bucket i ;;
    status <- (match chain_split (fun p => HashTable_Equals t p key) b with
               | (_, []) => pret false
               | (before, kvp :: after) =>
                   if negb (ht_foreachRecursionLevel t =? 0) then
                     set_bucket i
                       (before ++ mkPair (kv_addr kvp) (kv_key kvp) (kv_value kvp) true :: after) ;;
                     t <- pget ;;
                     pput (ht_set_counts (u64 (ht_numOfElements t - 1))
                             (u32 (ht_pendingRemoves t + 1)) t) ;;
                     pret true
                   else
                     set_bucket i (before ++ after) ;;
                     disposePair kvp ;;
                     t <- pget ;;
                     pput (ht_set_counts (u64 (ht_numOfElements t - 1)) (ht_pendingRemoves t) t) ;;
                     t <- pget ;;
                     (if (ht_foreachRecursionLevel t =? 0) &&
                         float_lt (float_of 0) (ht_lowerRehashThreshold t)
                      then
                        if float_lt (float_div (float_of (ht_numOfElements t))
                                       (float_of (ht_numOfBuckets t))) (ht_lowerRehashThreshold t)
                        then HashTable_Rehash 0 else pret tt
                      else pret tt) ;;
                     pret true
               end) ;;
    ht_leave ;;
    pret status.

Definition HashTable_GetItemValue (key : Z) : Prog wHashTable Z :=
  if key =? NULL then pret NULL
  else
    ht_enter ;;
    p <- HashTable_Get key ;;
    ht_leave ;;
    pret (match p with Some p => if kv_marked p then NULL else kv_value p | None => NULL end).

Definition HashTable_SetItemValue (key value : Z) : Prog wHashTable bool :=
  if key =? NULL then pret false
  else
    ht_enter ;;
    t <- pget ;;
    let i := bucket_index t key in
    b <- get_bucket i ;;
    status <- (match chain_split (fun p => HashTable_Equals t p key) b with
               | (before, kvp :: after) =>
                   if kv_marked kvp then pret false
                   else
                     kvp <- setValue kvp value ;;
                     set_bucket i (before ++ kvp :: after) ;;
                     pret true
               | (_, []) => pret false
               end) ;;
    ht_leave ;;
    pret status.

Definition HashTable_Contains (key : Z) : Prog wHashTable bool :=
  if key =? NULL then pret false
  else
    ht_enter ;;
    p <- HashTable_Get key ;;
    ht_leave ;;
    pret (match p with Some p => negb (kv_marked p) | None => false end).

Definition HashTable_ContainsKey (key : Z) : Prog wHashTable bool := HashTable_Contains key.

(** The value is compared with the keys. *)
Definition HashTable_ContainsValue (value : Z) : Prog wHashTable bool :=
  if value =? NULL then pret false
  else
    ht_enter ;;
    t <- pget ;;
    let status := existsb (fun p => negb (kv_marked p) && HashTable_Equals t p value)
                    (concat (ht_bucketArray t)) in
    ht_leave ;;
    pret status.

(** The pairs of a chain are disposed of in order; inside of a foreach [pair] is not moved on,
    so that the loop marks the first pair for ever. *)
Fixpoint clear_chain (chain : list wKeyValuePair) : Prog wHashTable unit :=
  match chain with
  | [] => pret tt
  | kvp :: chain' =>
      t <- pget ;;
      if negb (ht_foreachRecursionLevel t =? 0) then fun _ => Hang
      else disposePair kvp ;; clear_chain chain'
  end.

Fixpoint clear_buckets (n : nat) (index : nat) : Prog wHashTable unit :=
  match n with
  | O => pret tt
  | S n' =>
      b <- get_bucket index ;;
      clear_chain b ;;
      set_bucket index [] ;;
      clear_buckets n' (S index)
  end.

Definition HashTable_Clear : Prog wHashTable unit :=
  ht_enter ;;
  t <- pget ;;
  clear_buckets (Z.to_nat (ht_numOfBuckets t)) 0 ;;
  t <- pget ;;
  pput (ht_set_counts 0 (ht_pendingRemoves t) t) ;;
  (if ht_foreachRecursionLevel t =? 0 then HashTable_Rehash 5 else pret tt) ;;
  ht_leave.

(** The keys of the live pairs; [count] slots are allocated for them. *)
Definition HashTable_GetKeys : Prog wHashTable (list Z) :=
  ht_enter ;;
  t <- pget ;;
  let count := ht_numOfElements t in
  let keys := map kv_key (List.filter (fun p => negb (kv_marked p)) (concat (ht_bucketArray t))) in
  r <- (if count <? 1 then pret []
        else if negb (malloc_ok (count * 8)) then pret []
        else if count <? zlen keys then fun _ => Abort
        else pret (keys ++ zrep (count - zlen keys) NULL)) ;;
  ht_leave ;;
  pret r.

(** ** Iteration *)

(** The pair at [addr] and the address of its successor. *)
Fixpoint pair_at (addr : Z) (chain : list wKeyValuePair) : option (wKeyValuePair * option Z) :=
  match chain with
  | [] => None
  | p :: chain' =>
      if kv_addr p =? addr then Some (p, option_map kv_addr (head chain'))
      else pair_at addr chain'
  end.

(** [for (pair = bucketArray[index]; pair; pair = pair->next)]: [fn] may change the table; the
    successor is read after the call.  A pair that is no longer there is [Abort].  A bucket
    only grows at its head while pairs are visited, so [fuel] rounds, its length at the start,
    are enough. *)
Fixpoint foreach_chain (fn : Z -> Z -> Prog wHashTable bool) (fuel : nat) (index : nat)
    (pair : option Z) : Prog wHashTable bool :=
  match pair with
  | None => pret true
  | Some addr =>
      match fuel with
      | O => fun _ => Hang
      | S fuel' =>
          b <- get_bucket index ;;
          match pair_at addr b with
          | None => fun _ => Abort
          | Some (p, _) =>
              ok <- (if kv_marked p then pret true else fn (kv_key p) (kv_value p)) ;;
              if negb ok then pret false
              else
                b <- get_bucket index ;;
                match pair_at addr b with
                | None => fun _ => Abort
                | Some (_, next) => foreach_chain fn fuel' index next
                end
          end
      end
  end.

Fixpoint foreach_buckets (fn : Z -> Z -> Prog wHashTable bool) (n : nat) (index : nat)
  : Prog wHashTable bool :=
  match n with
  | O => pret true
  | S n' =>
      b <- get_bucket index ;;
      ok <- foreach_chain fn (length b) index (option_map kv_addr (head b)) ;;
      if negb ok then pret false else foreach_buckets fn n' (S index)
  end.

(** The marked pairs of a chain are disposed of and unlinked. *)
Fixpoint sweep_chain (chain : list wKeyValuePair) : Prog wHashTable (list wKeyValuePair) :=
  match chain with
  | [] => pret []
  | p :: chain' =>
      if kv_marked p then disposePair p ;; sweep_chain chain'
      else rest <- sweep_chain chain' ;; pret (p :: rest)
  end.

Fixpoint sweep_buckets (n : nat) (index : nat) : Prog wHashTable unit :=
  match n with
  | O => pret tt
  | S n' =>
      b <- get_bucket index ;;
      b' <- sweep_chain b ;;
      set_bucket index b' ;;
      sweep_buckets n' (S index)
  end.

Definition HashTable_Foreach (fn : Z -> Z -> Prog wHashTable bool) : Prog wHashTable bool :=
  ht_enter ;;
  t <- pget ;;
  pput (ht_set_level (u32 (ht_foreachRecursionLevel t + 1)) t) ;;
  ok <- foreach_buckets fn (Z.to_nat (ht_numOfBuckets t)) 0 ;;
  ret <- (if negb ok then pret false
          else
            t <- pget ;;
            pput (ht_set_level (u32 (ht_foreachRecursionLevel t - 1)) t) ;;
            t <- pget ;;
            (if (ht_foreachRecursionLevel t =? 0) && negb (ht_pendingRemoves t =? 0) then
               sweep_buckets (Z.to_nat (ht_numOfBuckets t)) 0 ;;
               t <- pget ;; pput (ht_set_counts (ht_numOfElements t) 0 t)
             else pret tt) ;;
            pret true) ;;
  ht_leave ;;
  pret ret.

(** ** Construction and destruction *)

Fixpoint dispose_all (pairs : list wKeyValuePair) : Prog wHashTable unit :=
  match pairs with
  | [] => pret tt
  | p :: pairs' => disposePair p ;; dispose_all pairs'
  end.

Definition HashTable_Free (t : wHashTable) : outcome W :=
  match dispose_all (concat (ht_bucketArray t)) t with
  | Ret (_, t') => Ret (ht_world t')
  | Abort => Abort
  | Hang => Hang
  end.

Definition HashTable_New (synchronized : bool) (w : W) : option wHashTable :=
  if negb (malloc_ok 184) then None
  else if negb (malloc_ok (64 * 8)) then None
  else
    Some (mkTable synchronized 0 64 0 (float_of 3) (float_of 0) (float_of 15) (replicate 64 [])
            HashTable_PointerHash (mkObject None None HashTable_PointerCompare)
            (mkObject None None HashTable_PointerCompare) 0 0 1 w).

Definition HashTable_KeyObject (t : wHashTable) : wObject W := ht_key t.
Definition HashTable_ValueObject (t : wHashTable) : wObject W := ht_value t.

(** The client's settings: hash function and callbacks. *)
Definition ht_setup (hash : Z -> Z) (ko vo : wObject W) (t : wHashTable) : wHashTable :=
  mkTable (ht_synchronized t) (ht_lock t) (ht_numOfBuckets t) (ht_numOfElements t) (ht_idealRatio t)
    (ht_lowerRehashThreshold t) (ht_upperRehashThreshold t) (ht_bucketArray t) hash
    ko vo (ht_foreachRecursionLevel t) (ht_pendingRemoves t) (ht_fresh t) (ht_world t).
Definition HashTable_SetHashFunction (fn : Z -> Z) (t : wHashTable) : wHashTable :=
  ht_setup fn (ht_key t) (ht_value t) t.
End hashtable_ops.
Arguments wHashTable W : clear implicits.

(** ** The search for a bucket count ends

    A number that no prime from 3 to 47 divides is accepted.  Among 360 successive odd numbers
    at least 147 are not divisible by 3, 5, 7 or 11, and the ten primes from 13 to 47 divide at
    most 146 of them: one is left. *)
Section ideal.

Definition small_primes : list Z := [3; 5; 7; 11].
Definition large_primes : list Z := [13; 17; 19; 23; 29; 31; 37; 41; 43; 47].

Definition window : list Z := seqZ 0 360.
Definition avoids (ps : list Z) (n k : Z) : bool :=
  forallb (fun p => negb ((n + 2 * k) mod p =? 0)) ps.
Definition hits (n p k : Z) : bool := (n + 2 * k) mod p =? 0.

Lemma probable_prime_spec m i n :
  (forall j, 0 <= j < Z.of_nat m -> n <> i + 2 * j -> n mod (i + 2 * j) <> 0) ->
  probable_prime_loop m i n = true.
Proof.
  revert i. induction m as [|m IH]; intros i Hi; [done|]. cbn [probable_prime_loop].
  pose proof (Hi 0 ltac:(lia)) as H0. rewrite Z.mul_0_r, Z.add_0_r in H0.
  destruct (n =? i) eqn:E; [done|]. replace (n mod i =? 0) with false by lia.
  apply IH. intros j Hj. pose proof (Hi (j + 1) ltac:(lia)) as Hj'.
  by replace (i + 2 * (j + 1)) with (i + 2 + 2 * j) in Hj' by lia.
Qed.

Lemma mod_divide a b c : 0 < b -> 0 < c -> b mod c = 0 -> a mod b = 0 -> a mod c = 0.
Proof.
  intros Hb Hc H1 H2. apply Z.mod_divide in H1, H2; try lia. apply Z.mod_divide; [lia|].
  by transitivity b.
Qed.

Lemma avoids_prime n k :
  avoids (small_primes ++ large_primes) n k = true -> HashTable_IsProbablePrime (n + 2 * k) = true.
Proof.
  unfold avoids. intros Ha. apply probable_prime_spec. intros j Hj _ Hm.
  assert (Hp : existsb (fun p => (0 <? p) && ((3 + 2 * j) mod p =? 0)) (small_primes ++ large_primes) = true).
  { exact (range_forall (fun j => existsb (fun p => (0 <? p) && ((3 + 2 * j) mod p =? 0))
      (small_primes ++ large_primes)) 24 j ltac:(lia) ltac:(vm_compute; reflexivity)). }
  apply existsb_exists in Hp as (p & Hin & Hp). rewrite forallb_forall in Ha.
  specialize (Ha p Hin). apply andb_true_iff in Hp as [Hp0 Hpm].
  pose proof (mod_divide (n + 2 * k) (3 + 2 * j) p ltac:(lia) ltac:(lia) ltac:(lia) Hm). lia.
Qed.

(** What happens in a window depends on the residue of its start. *)
Lemma shift_mod n k p q : 0 < p -> 0 < q -> (p | q) -> (n + 2 * k) mod p = (n mod q + 2 * k) mod p.
Proof.
  intros Hp Hq [c E]. rewrite (Z.mod_eq n q) by lia. set (d := n / q). clearbody d. subst q.
  replace (n - c * p * d + 2 * k) with (n + 2 * k + (- (c * d)) * p) by ring.
  by rewrite Z_mod_plus_full.
Qed.

Lemma avoids_residue ps q n k :
  0 < q -> forallb (fun p => (0 <? p) && (q mod p =? 0)) ps = true ->
  avoids ps n k = avoids ps (n mod q) k.
Proof.
  intros Hq Hps. unfold avoids. induction ps as [|p ps IH]; [done|]. cbn in *.
  apply andb_true_iff in Hps as [Hp Hps]. apply andb_true_iff in Hp as [Hp Hm]. rewrite IH by done.
  rewrite (shift_mod n k p q) by (try apply Z.mod_divide; lia). done.
Qed.

Lemma hits_residue n p k : 0 < p -> hits n p k = hits (n mod p) p k.
Proof. intros Hp. unfold hits. by rewrite (shift_mod n k p p) by (done || lia). Qed.

Lemma filter_ext_length {A} (f g : A -> bool) l :
  (forall x, f x = g x) -> length (List.filter f l) = length (List.filter g l).
Proof. intros E. by rewrite (List.filter_ext f g E). Qed.

Lemma small_left n : (147 <= length (List.filter (avoids small_primes n) window))%nat.
Proof.
  rewrite (filter_ext_length _ (avoids small_primes (n mod 1155)))
    by (intros; by apply avoids_residue).
  apply Nat.leb_le.
  exact (range_forall (fun r => (147 <=? length (List.filter (avoids small_primes r) window))%nat) 1155
    (n mod 1155) ltac:(apply Z.mod_pos_bound; lia) ltac:(vm_compute; reflexivity)).
Qed.

Lemma large_hits n p :
  In p large_primes -> (Z.of_nat (length (List.filter (hits n p) window)) <= (360 + p - 1) / p).
Proof.
  intros Hin.
  assert (Hp : forallb (fun p => (0 <? p) &&
      forallb (fun r => Z.of_nat (length (List.filter (hits r p) window)) <=? (360 + p - 1) / p) (seqZ 0 p))
      large_primes = true) by (vm_compute; reflexivity).
  rewrite forallb_forall in Hp. specialize (Hp p Hin). apply andb_true_iff in Hp as [Hp Hr].
  rewrite (filter_ext_length _ (hits (n mod p) p)) by (intros; apply hits_residue; lia).
  apply Z.leb_le. refine (range_forall _ p (n mod p) _ Hr). apply Z.mod_pos_bound. lia.
Qed.

(** If each element of [l] has some property of [fs], their counts add up to the length. *)
Definition total_hits {A B} (f : B -> A -> bool) (fs : list B) (l : list A) : nat :=
  foldr (fun b n => (length (List.filter (f b) l) + n)%nat) 0%nat fs.

Lemma total_hits_next {A B} (f : B -> A -> bool) b fs l :
  total_hits f (b :: fs) l = (length (List.filter (f b) l) + total_hits f fs l)%nat.
Proof. reflexivity. Qed.

Lemma total_hits_mono {A B} (f : B -> A -> bool) fs x l :
  (total_hits f fs l <= total_hits f fs (x :: l))%nat.
Proof.
  induction fs as [|b fs IH]; [done|]. rewrite !total_hits_next. cbn [List.filter].
  destruct (f b x); cbn [length]; lia.
Qed.

Lemma total_hits_cons {A B} (f : B -> A -> bool) fs x l :
  existsb (fun b => f b x) fs = true -> (1 + total_hits f fs l <= total_hits f fs (x :: l))%nat.
Proof.
  induction fs as [|b fs IH]; [done|]. pose proof (total_hits_mono f fs x l) as Hm.
  rewrite !total_hits_next. cbn [List.filter existsb].
  destruct (f b x); cbn [length orb]; intros Hx; [lia|]. specialize (IH Hx). lia.
Qed.

Lemma cover_count {A B} (fs : list B) (f : B -> A -> bool) (l : list A) :
  (forall x, In x l -> existsb (fun b => f b x) fs = true) -> (length l <= total_hits f fs l)%nat.
Proof.
  induction l as [|x l IH]; intros Hl; [cbn; lia|].
  pose proof (total_hits_cons f fs x l (Hl x ltac:(by left))).
  specialize (IH ltac:(intros; apply Hl; by right)). cbn [length]. lia.
Qed.

Lemma filter_incl_length {A} (f g : A -> bool) l :
  (length (List.filter f (List.filter g l)) <= length (List.filter f l))%nat.
Proof. induction l as [|x l IH]; cbn; [lia|]. destruct (g x) eqn:Eg, (f x) eqn:Ef; cbn; rewrite ?Ef; cbn; lia. Qed.

Lemma window_hits n ps :
  incl ps large_primes ->
  Z.of_nat (total_hits (hits n) ps (List.filter (avoids small_primes n) window)) <=
    foldr (fun p a => (360 + p - 1) / p + a) 0 ps.
Proof.
  induction ps as [|p ps IH]; intros Hi; [cbn; lia|].
  specialize (IH ltac:(intros x Hx; apply Hi; by right)).
  pose proof (large_hits n p ltac:(apply Hi; by left)) as Hl.
  pose proof (filter_incl_length (hits n p) (avoids small_primes n) window) as Hf.
  rewrite total_hits_next. cbn [foldr]. lia.
Qed.

Lemma window_prime n : exists k, 0 <= k < 360 /\ HashTable_IsProbablePrime (n + 2 * k) = true.
Proof.
  set (l := List.filter (avoids small_primes n) window).
  destruct (existsb (avoids large_primes n) l) eqn:E.
  - apply existsb_exists in E as (k & Hin & Hk). apply filter_In in Hin as [Hw Hs].
    exists k. apply list_elem_of_In, elem_of_seqZ in Hw. split; [lia|]. apply avoids_prime.
    unfold avoids in *. by rewrite forallb_app, Hs, Hk.
  - exfalso. pose proof (small_left n) as Hs. fold l in Hs.
    assert (Hc : (length l <= total_hits (hits n) large_primes l)%nat).
    { apply cover_count. intros k Hk. apply not_false_iff_true. intros Hf.
      assert (Hx : avoids large_primes n k = true).
      { unfold avoids. apply forallb_forall. intros p Hp. apply negb_true_iff.
        destruct ((n + 2 * k) mod p =? 0) eqn:Em; [|done].
        rewrite <- Hf. symmetry. apply existsb_exists. by exists p. }
      assert (existsb (avoids large_primes n) l = true) by (apply existsb_exists; by exists k). congruence. }
    pose proof (window_hits n large_primes (fun x Hx => Hx)) as Hb. fold l in Hb.
    change (foldr (fun p a => (360 + p - 1) / p + a) 0 large_primes) with 146 in Hb. lia.
Qed.

Lemma ideal_loop_ends k fuel n :
  0 < n -> n + 2 * Z.of_nat k < 2 ^ 64 -> Z.odd n = true -> (k <= fuel)%nat ->
  HashTable_IsProbablePrime (n + 2 * Z.of_nat k) = true ->
  exists r, ideal_loop fuel n = Some r /\ n <= r <= n + 2 * Z.of_nat k /\ Z.odd r = true /\
    HashTable_IsProbablePrime r = true.
Proof.
  revert fuel n. induction k as [|k IH]; intros fuel n Hn Hlt Ho Hf Hp.
  - rewrite Z.add_0_r in Hp. exists n.
    split; [destruct fuel; cbn [ideal_loop]; by rewrite Hp|]. by split_and!; [lia|lia| |].
  - destruct fuel as [|fuel]; [lia|]. cbn [ideal_loop].
    destruct (HashTable_IsProbablePrime n) eqn:E; [exists n; by split_and!; [|lia|lia| |]|].
    rewrite u64_id by lia. destruct (IH fuel (n + 2)) as (r & Hr & ? & ? & ?); [lia|lia| |lia| |].
    + by rewrite Z.odd_add_even by (by exists 1).
    + by replace (n + 2 + 2 * Z.of_nat k) with (n + 2 * Z.of_nat (S k)) by lia.
    + exists r. split_and!; [done|lia|lia|done|done].
Qed.

(** The loop finds its number within 360 rounds. *)
Lemma ideal_loop_total n :
  0 < n < 2 ^ 63 -> Z.odd n = true ->
  exists r, ideal_loop 512 n = Some r /\ n <= r < n + 720 /\ Z.odd r = true /\
    HashTable_IsProbablePrime r = true.
Proof.
  intros Hn Ho. destruct (window_prime n) as (k & Hk & Hp).
  destruct (ideal_loop_ends (Z.to_nat k) 512 n) as (r & Hr & Hb & Hor & Hpr);
    [lia|lia|exact Ho|lia| |].
  - rewrite Z2Nat.id by lia. exact Hp.
  - exists r. split; [exact Hr|]. split; [lia|]. split; assumption.
Qed.

(** What the test excludes. *)
Lemma probable_prime_sound m i n j :
  probable_prime_loop m i n = true -> 0 <= j < Z.of_nat m -> i + 2 * j < n -> n mod (i + 2 * j) <> 0.
Proof.
  revert i j. induction m as [|m IH]; intros i j Hp Hj Hn; [lia|]. cbn [probable_prime_loop] in Hp.
  destruct (n =? i) eqn:E; [lia|]. destruct (n mod i =? 0) eqn:Em; [done|].
  destruct (decide (j = 0)) as [->|Hj0]; [rewrite Z.mul_0_r, Z.add_0_r; lia|].
  replace (i + 2 * j) with (i + 2 + 2 * (j - 1)) in * by lia. apply IH; (done || lia).
Qed.

Lemma probable_prime_excludes n d :
  Z.odd n = true -> HashTable_IsProbablePrime n = true -> 1 < d < 51 -> d < n -> n mod d <> 0.
Proof.
  intros Ho Hp Hd Hn Hm. destruct (Z.odd d) eqn:Ed.
  - apply Z.odd_spec in Ed as [j ->].
    apply (probable_prime_sound 24 3 n (j - 1) Hp); [lia|lia|]. by replace (3 + 2 * (j - 1)) with (2 * j + 1) by lia.
  - apply Z.mod_divide in Hm as [c Hc]; [|lia]. by rewrite Hc, Z.odd_mul, Ed, andb_false_r in Ho.
Qed.
End ideal.

(** ** The load factor

    [(size_t) (numOfElements / idealRatio)] is defined: a rounding at most doubles the power
    of two above a number. *)
Section ratio.

(** [m * 2 ^ e] is below [2 ^ k]. *)
Definition under (k m e : Z) : Prop := 0 <= m < 2 ^ (k - e) /\ e <= k.

Lemma shr_1_half r : 0 <= shr_m r -> shr_m (shr_1 r) = shr_m r / 2.
Proof.
  destruct r as [[|[p|p|]|p] r s]; cbn [shr_m shr_1]; intros Hp; try done.
  - rewrite Pos2Z.inj_xI. Z.div_mod_to_equations. lia.
  - rewrite Pos2Z.inj_xO. Z.div_mod_to_equations. lia.
Qed.

Lemma iter_shr p r : 0 <= shr_m r -> shr_m (SpecFloat.iter_pos shr_1 p r) = shr_m r / 2 ^ Zpos p.
Proof.
  revert r. induction p as [p IH|p IH|]; intros r Hr; cbn [SpecFloat.iter_pos].
  - pose proof (shr_1_half r Hr) as H1.
    assert (0 <= shr_m (shr_1 r)) by (rewrite H1; apply Z.div_pos; lia).
    assert (E : shr_m (SpecFloat.iter_pos shr_1 p (shr_1 r)) = shr_m (shr_1 r) / 2 ^ Zpos p) by auto.
    rewrite IH by (rewrite E; apply Z.div_pos; lia). rewrite E, H1, !Zdiv_Zdiv by lia.
    f_equal. rewrite <- Z.pow_add_r by lia. rewrite <- Z.pow_succ_r by lia. f_equal. lia.
  - assert (E : shr_m (SpecFloat.iter_pos shr_1 p r) = shr_m r / 2 ^ Zpos p) by auto.
    rewrite IH by (rewrite E; apply Z.div_pos; lia). rewrite E, Zdiv_Zdiv by lia.
    f_equal. rewrite <- Z.pow_add_r by lia. f_equal. lia.
  - by rewrite shr_1_half.
Qed.

Lemma digits2_pos_bound p : 2 ^ (Zpos (digits2_pos p) - 1) <= Zpos p < 2 ^ Zpos (digits2_pos p).
Proof.
  induction p as [p IH|p IH|]; cbn [digits2_pos]; [| |done];
    rewrite Pos2Z.inj_succ, Z.pow_succ_r by lia;
    replace (Z.succ (Zpos (digits2_pos p)) - 1) with (Z.succ (Zpos (digits2_pos p) - 1)) by lia;
    rewrite Z.pow_succ_r by lia; lia.
Qed.

Lemma digits_under k m e : under k m e -> Zdigits2 m + e <= k.
Proof.
  intros [[H0 Hm] He]. destruct m as [|p|p]; cbn; [lia| |lia].
  pose proof (digits2_pos_bound p) as [Hd _].
  assert (Zpos (digits2_pos p) - 1 < k - e) by (apply (Z.pow_lt_mono_r_iff 2); lia). lia.
Qed.

Lemma shr_fexp_under k m e l :
  -149 <= e -> -149 <= k -> under k m e ->
  exists r e', shr_fexp 24 128 m e l = (r, e') /\ under k (shr_m r) e' /\ -149 <= e'.
Proof.
  intros He Hk Hu. pose proof (digits_under k m e Hu) as Hd. unfold shr_fexp.
  assert (Hr : shr_m (shr_record_of_loc m l) = m) by (by destruct l as [|[]]).
  destruct Hu as [Hm Hek]. unfold fexp, emin. set (s := Z.max _ _ - e).
  assert (Hs : s <= 0 \/ (0 < s /\ e + s <= k)) by lia. clearbody s.
  assert (Hsame : under k (shr_m (shr_record_of_loc m l)) e) by (by rewrite Hr).
  unfold shr. destruct s as [|p|p]; [by do 2 eexists| |by do 2 eexists].
  do 2 eexists. split; [reflexivity|]. destruct Hs as [|[_ Hs]]; [lia|].
  rewrite iter_shr, Hr by lia. split; [|lia]. split; [|lia].
  split; [apply Z.div_pos; lia|]. apply Z.div_lt_upper_bound; [lia|].
  rewrite <- Z.pow_add_r by lia. replace (Zpos p + (k - (e + Zpos p))) with (k - e) by lia. lia.
Qed.

Lemma round_under k m e l :
  -149 <= e -> -149 <= k < 100 -> under k m e ->
  match binary_round_aux 24 128 false m e l with
  | S754_zero _ => True
  | S754_finite false m' e' => under (k + 1) (Zpos m') e' /\ -149 <= e'
  | _ => False
  end.
Proof.
  intros He Hk Hu. unfold binary_round_aux.
  destruct (shr_fexp_under k m e l He ltac:(lia) Hu) as (r & e1 & -> & [Hm1 He1] & Hl1).
  assert (Hu2 : under (k + 1) (round_nearest_even (shr_m r) (loc_of_shr_record r)) e1).
  { split; [|lia]. replace (k + 1 - e1) with (Z.succ (k - e1)) by lia. rewrite Z.pow_succ_r by lia.
    unfold round_nearest_even. destruct (loc_of_shr_record r) as [|[]]; try case_if; lia. }
  destruct (shr_fexp_under (k + 1) _ e1 loc_Exact Hl1 ltac:(lia) Hu2) as (r2 & e2 & -> & [Hm2 He2] & Hl2).
  destruct (shr_m r2) as [|p|p] eqn:Ep; [done| |lia].
  replace (e2 <=? 128 - 24) with true by lia. unfold under. lia.
Qed.

Lemma iter_xO q s : Zpos (Pos.iter xO q s) = Zpos q * 2 ^ Zpos s.
Proof.
  induction s as [|s IH] using Pos.peano_ind; [cbn; lia|].
  rewrite Pos.iter_succ, Pos2Z.inj_xO, IH, Pos2Z.inj_succ, Z.pow_succ_r by lia. lia.
Qed.

Lemma float_of_under n :
  0 <= n < 2 ^ 60 ->
  match float_of n with
  | S754_zero _ => True
  | S754_finite false m e => under 61 (Zpos m) e /\ -149 <= e
  | _ => False
  end.
Proof.
  intros Hn. unfold float_of, binary_normalize. destruct n as [|p|p]; [done| |lia].
  unfold binary_round. pose proof (digits2_pos_bound p) as [Hd1 Hd2].
  assert (Hu : under 60 (Zpos p) 0) by (split; [rewrite Z.sub_0_r; lia|lia]).
  pose proof (digits_under _ _ _ Hu) as Hd. cbn [Zdigits2] in Hd.
  unfold shl_align, fexp, emin. rewrite Z.sub_0_r.
  destruct (Z.max _ _) as [|s|s] eqn:E.
  - apply (round_under 60); try lia. done.
  - apply (round_under 60); try lia. done.
  - apply (round_under 60); try lia. split; [|lia].
    rewrite iter_xO. split; [lia|]. replace (60 - Zneg s) with (60 + Zpos s) by lia.
    rewrite Z.pow_add_r by lia. apply Z.mul_lt_mono_pos_r; lia.
Qed.

Lemma trunc_under m e :
  under 61 (Zpos m) e -> exists v, float_trunc (S754_finite false m e) = Some v /\ 0 <= v < 2 ^ 61.
Proof.
  intros [Hm He]. cbn [float_trunc].
  assert (Hv : 0 <= (if 0 <=? e then Zpos m * 2 ^ e else Zpos m / 2 ^ (- e)) < 2 ^ 61).
  { destruct (0 <=? e) eqn:E.
    - split; [lia|]. replace 61 with ((61 - e) + e) by lia. rewrite Z.pow_add_r by lia.
      apply Z.mul_lt_mono_pos_r; lia.
    - split; [apply Z.div_pos; lia|]. apply Z.div_lt_upper_bound; [lia|].
      rewrite <- Z.pow_add_r by lia. replace (- e + 61) with (61 - e) by lia. lia. }
  replace (_ <? 2 ^ 64) with true by lia. by eexists.
Qed.

Lemma ratio_trunc n :
  0 <= n < 2 ^ 60 ->
  exists v, float_trunc (float_div (float_of n) (float_of 3)) = Some v /\ 0 <= v < 2 ^ 61.
Proof.
  intros Hn. pose proof (float_of_under n Hn) as Hf.
  change (float_of 3) with (S754_finite false 12582912 (-22)).
  destruct (float_of n) as [s|s| |[] m e]; try done; [by exists 0|].
  destruct Hf as [Hu He]. pose proof (digits_under _ _ _ Hu) as Hd. destruct Hu as [Hm Hem].
  unfold float_div, SFdiv. unfold SFdiv_core_binary.
  change (Zdigits2 12582912) with 24. unfold fexp, emin. set (e' := Z.min _ _).
  assert (He' : e' <= e + 22 /\ -149 <= e' <= 60 /\ (e' <= 35)) by lia. clearbody e'.
  assert (Hs : match e - -22 - e' with
    | 0 => Zpos m | Z.pos _ => Z.shiftl (Z.pos m) (e - -22 - e') | Z.neg _ => 0 end =
    Zpos m * 2 ^ (e + 22 - e')).
  { replace (e - -22 - e') with (e + 22 - e') by lia. destruct (e + 22 - e') eqn:Es; [lia| |lia].
    apply Z.shiftl_mul_pow2. lia. }
  rewrite Hs. clear Hs. set (m1 := Zpos m * 2 ^ (e + 22 - e')).
  assert (Hm1 : 0 <= m1 < 2 ^ (83 - e')).
  { unfold m1. split; [lia|]. replace (83 - e') with ((61 - e) + (e + 22 - e')) by lia.
    rewrite Z.pow_add_r by lia. apply Z.mul_lt_mono_pos_r; lia. }
  clearbody m1.
  destruct (Z.div_eucl m1 12582912) as [q r] eqn:Eq.
  assert (Hq : q = m1 / 12582912) by (unfold Z.div; by rewrite Eq).
  assert (Hu : under 60 q e').
  { split; [|lia]. rewrite Hq. split; [apply Z.div_pos; lia|]. apply Z.div_lt_upper_bound; [lia|].
    replace (83 - e') with (23 + (60 - e')) in Hm1 by lia. rewrite Z.pow_add_r in Hm1 by lia. lia. }
  pose proof (round_under 60 q e' (new_location 12582912 r) ltac:(lia) ltac:(lia) Hu) as Hr.
  cbn [xorb]. destruct (binary_round_aux _ _ _ _ _ _) as [s|s| |[] m2 e2]; try done; [by exists 0|].
  apply trunc_under, Hr.
Qed.
End ratio.

Section ideal_buckets.
Context {W : Type}.

Lemma lor_1 v : 0 <= v -> v <= Z.lor v 1 <= v + 1 /\ Z.odd (Z.lor v 1) = true.
Proof.
  intros Hv. destruct v as [|[p|p|]|p]; [by split| | |by split|lia].
  - change (Z.lor (Zpos p~1) 1) with (Zpos p~1). by split; [lia|].
  - change (Z.lor (Zpos p~0) 1) with (Zpos p~1). by split; [lia|].
Qed.

Lemma CalculateIdeal_run (t : wHashTable W) :
  0 <= ht_numOfElements t < 2 ^ 60 -> ht_idealRatio t = float_of 3 ->
  exists n, HashTable_CalculateIdealNumOfBuckets t = Ret n /\ 5 <= n < 2 ^ 62 /\ Z.odd n = true /\
    HashTable_IsProbablePrime n = true.
Proof.
  intros He Hr. unfold HashTable_CalculateIdealNumOfBuckets. rewrite Hr.
  destruct (ratio_trunc _ He) as (v & -> & Hv). destruct (lor_1 v ltac:(lia)) as [Hl Ho].
  set (n := if v <? 5 then 5 else Z.lor v 1).
  assert (Hn : 5 <= n <= 2 ^ 61 /\ Z.odd n = true) by (unfold n; destruct (v <? 5) eqn:E; split; (done || lia)).
  destruct (ideal_loop_total n) as (r & -> & ? & ? & ?); [lia|apply Hn|].
  exists r. split; [done|]. split; [lia|]. by split.
Qed.
End ideal_buckets.
