(* ===== verification/HashTableSpec.v ===== *)
(** * The hash table as a map: invariant, abstract machine, refinement

    A table is seen as the collection of its entries, up to their order.  The invariant says
    that every pair hangs in the bucket of its key and that no two pairs have equal keys.  The
    operations of [HashTable.v] are shown to refine an abstract machine that knows neither
    buckets nor rehashing. *)

From Stdlib Require Import SpecFloat.
From S2P Require Import Prelude Memory Collections HashTable.

(** ** Chains and buckets *)
Section chains.
Implicit Types (p : wKeyValuePair) (b : list wKeyValuePair) (bs : list (list wKeyValuePair)).

Lemma chain_split_spec (eq : wKeyValuePair -> bool) b :
  let '(before, found) := chain_split eq b in
  b = before ++ found /\ Forall (fun p => eq p = false) before /\
  match found with [] => True | p :: _ => eq p = true end.
Proof.
  induction b as [|p b IH]; [done|]. cbn [chain_split]. destruct (eq p) eqn:E; [done|].
  destruct (chain_split eq b) as [before found]. destruct IH as (-> & Hb & Hf).
  split_and!; [done|by constructor|done].
Qed.

Lemma concat_perm bs bs' : bs ≡ₚ bs' -> concat bs ≡ₚ concat bs'.
Proof.
  induction 1; cbn; [done|by f_equiv| |by etrans].
  rewrite !(assoc (++)). f_equiv. apply (comm (++)).
Qed.

Lemma delete_insert_same {A} (l : list A) i x : delete i (<[i := x]> l) = delete i l.
Proof. revert i. induction l as [|y l IH]; intros [|i]; cbn; [done..|]. f_equal. apply IH. Qed.

Lemma alter_as_insert {A} (f : A -> A) (l : list A) i x :
  l !! i = Some x -> alter f i l = <[i := f x]> l.
Proof.
  revert i. induction l as [|y l IH]; intros [|i] Hx; cbn in *; [done..|congruence|].
  f_equal. by apply IH.
Qed.

(** One bucket and the rest of the table. *)
Lemma bucket_focus bs i b :
  bs !! i = Some b ->
  exists rest, concat bs ≡ₚ b ++ rest /\ forall b', concat (<[i := b']> bs) ≡ₚ b' ++ rest.
Proof.
  intros Hi. exists (concat (delete i bs)). split.
  - apply (concat_perm _ (b :: delete i bs)). by apply delete_Permutation.
  - intros b'. apply (concat_perm _ (b' :: delete i bs)).
    rewrite (delete_Permutation (<[i:=b']> bs) i b')
      by (apply list_lookup_insert_eq; by eapply lookup_lt_Some).
    f_equiv. by rewrite delete_insert_same.
Qed.

(** Every pair hangs in the bucket of its key. *)
Definition placed (hash : Z -> Z) (n : Z) bs : Prop :=
  forall i b p, bs !! i = Some b -> In p b -> Z.to_nat (hash (kv_key p) mod n) = i.

Lemma placed_insert hash n bs i b' :
  placed hash n bs -> (forall p, In p b' -> Z.to_nat (hash (kv_key p) mod n) = i) ->
  placed hash n (<[i := b']> bs).
Proof.
  intros Hp Hb j b p Hj Hin. destruct (decide (i = j)) as [<-|Hne].
  - apply list_lookup_insert_Some in Hj as [(_ & <- & _)|(? & _)]; [by apply Hb|done].
  - rewrite list_lookup_insert_ne in Hj by done. by eapply Hp.
Qed.

Lemma placed_empty hash n k : placed hash n (replicate k []).
Proof. intros i b p Hi Hin. apply lookup_replicate in Hi as [-> _]. done. Qed.

(** ** Rehashing keeps the pairs *)

Lemma push_pair_spec hash n bs p :
  0 < n -> length bs = Z.to_nat n -> placed hash n bs ->
  length (push_pair hash n bs p) = Z.to_nat n /\ placed hash n (push_pair hash n bs p) /\
  concat (push_pair hash n bs p) ≡ₚ p :: concat bs.
Proof.
  intros Hn Hl Hp. unfold push_pair. set (i := Z.to_nat _).
  assert (Hi : (i < length bs)%nat).
  { pose proof (Z.mod_pos_bound (hash (kv_key p)) n Hn). unfold i. lia. }
  destruct (lookup_lt_is_Some_2 bs i Hi) as [b Hb].
  assert (E : alter (cons p) i bs = <[i := p :: b]> bs) by (by apply alter_as_insert).
  rewrite E, length_insert. split_and!; [done| |].
  - apply placed_insert; [done|]. intros q [->|Hq]; [done|]. by eapply Hp.
  - destruct (bucket_focus bs i b Hb) as (rest & H1 & H2). by rewrite H2, H1.
Qed.

Lemma rehash_spec hash n ps bs :
  0 < n -> length bs = Z.to_nat n -> placed hash n bs ->
  length (foldl (push_pair hash n) bs ps) = Z.to_nat n /\
  placed hash n (foldl (push_pair hash n) bs ps) /\
  concat (foldl (push_pair hash n) bs ps) ≡ₚ ps ++ concat bs.
Proof.
  revert bs. induction ps as [|p ps IH]; intros bs Hn Hl Hp; [done|]. cbn [foldl].
  destruct (push_pair_spec hash n bs p Hn Hl Hp) as (Hl1 & Hp1 & Hc1).
  destruct (IH _ Hn Hl1 Hp1) as (Hl2 & Hp2 & Hc2). split_and!; [done|done|].
  rewrite Hc2, Hc1. cbn. by rewrite Permutation_middle.
Qed.

Lemma concat_replicate_nil k : concat (replicate k (@nil wKeyValuePair)) = [].
Proof. by induction k. Qed.
End chains.

(** ** What the table asks of its keys

    Equality is an equivalence, equal keys have equal hashes, and the clone that is stored is
    equal to the key it was made from. *)
Class KeyLaws {W : Type} (hash : Z -> Z) (ko : wObject W) : Prop := {
  key_refl k : fnObjectEquals ko k k = true;
  key_sym k1 k2 : fnObjectEquals ko k1 k2 = true -> fnObjectEquals ko k2 k1 = true;
  key_trans k1 k2 k3 :
    fnObjectEquals ko k1 k2 = true -> fnObjectEquals ko k2 k3 = true -> fnObjectEquals ko k1 k3 = true;
  key_hash k1 k2 : fnObjectEquals ko k1 k2 = true -> hash k1 = hash k2;
  key_clone k w : fnObjectEquals ko k (obj_new ko k w).1 = true
}.

(** The defaults of [HashTable_New]: pointers compared and hashed as such. *)
Instance pointer_keys {W : Type} :
  KeyLaws HashTable_PointerHash (@mkObject W None None HashTable_PointerCompare).
Proof.
  unfold HashTable_PointerCompare. split; cbn; intros; try lia.
  by replace k2 with k1 by lia.
Qed.

Section table.
Context {W : Type} `{Malloc} (hash : Z -> Z) (ko vo : wObject W) `{!KeyLaws hash ko}.
Implicit Types (t : wHashTable W) (p : wKeyValuePair) (ps : list wKeyValuePair).

Definition entry p : Z * Z := (kv_key p, kv_value p).
Definition pairs t : list wKeyValuePair := concat (ht_bucketArray t).
Definition ht_abs t : list (Z * Z) * W := (map entry (pairs t), ht_world t).

Definition key_is (key : Z) (e : Z * Z) : bool := fnObjectEquals ko key e.1.
Definition distinct_keys (m : list (Z * Z)) : Prop :=
  forall key, (length (List.filter (key_is key) m) <= 1)%nat.

(** ** The invariant *)

Record ht_shape t : Prop := {
  sh_key : ht_key t = ko;
  sh_value : ht_value t = vo;
  sh_hash : ht_hash t = hash;
  sh_ratio : ht_idealRatio t = float_of 3;
  sh_level : ht_foreachRecursionLevel t = 0;
  sh_pos : 0 < ht_numOfBuckets t;
  sh_len : length (ht_bucketArray t) = Z.to_nat (ht_numOfBuckets t);
  sh_placed : placed hash (ht_numOfBuckets t) (ht_bucketArray t)
}.

(** The pairs of a table with room for [n] more operations. *)
Record ht_contents (n : nat) (count : Z) ps : Prop := {
  co_live : Forall (fun p => kv_marked p = false) ps;
  co_distinct : distinct_keys (map entry ps);
  co_count : count = zlen ps;
  co_room : zlen ps + Z.of_nat n < 2 ^ 59
}.

Definition ht_ok (n : nat) t : Prop := ht_shape t /\ ht_contents n (ht_numOfElements t) (pairs t).

Lemma filter_perm_length {A} (f : A -> bool) l l' :
  l ≡ₚ l' -> length (List.filter f l) = length (List.filter f l').
Proof. induction 1; cbn; try congruence; repeat case_match; cbn; lia. Qed.

Lemma distinct_perm m m' : m ≡ₚ m' -> distinct_keys m -> distinct_keys m'.
Proof. intros Hp Hd key. by rewrite <- (filter_perm_length _ _ _ Hp). Qed.

Lemma zlen_perm {A} (l l' : list A) : l ≡ₚ l' -> zlen l = zlen l'.
Proof. intros Hp. unfold zlen. by rewrite Hp. Qed.

Lemma contents_perm n c ps ps' : ps ≡ₚ ps' -> ht_contents n c ps -> ht_contents n c ps'.
Proof.
  intros Hp []. pose proof (zlen_perm _ _ Hp). split; [by rewrite <- Hp| |lia|lia].
  eapply distinct_perm; [|done]. by rewrite Hp.
Qed.

Lemma contents_less n c ps : ht_contents (S n) c ps -> ht_contents n c ps.
Proof. intros []. split; [done|done|done|lia]. Qed.

Lemma ht_ok_less n t : ht_ok (S n) t -> ht_ok n t.
Proof. intros [Hs Hc]. split; [done|by apply contents_less]. Qed.

(** Adding a pair with a new key, dropping one, changing one. *)
Lemma distinct_cons e m :
  Forall (fun x => key_is e.1 x = false) m -> distinct_keys m -> distinct_keys (e :: m).
Proof.
  intros Hf Hd key. cbn. destruct (key_is key e) eqn:E; [|apply Hd]. cbn.
  assert (Hn : List.filter (key_is key) m = []); [|by rewrite Hn].
  clear Hd. induction Hf as [|x m Hx Hf IH]; [done|]. cbn.
  destruct (key_is key x) eqn:Ex; [|done].
  exfalso. apply not_true_iff_false in Hx. apply Hx. unfold key_is in *.
  by eapply key_trans; [apply key_sym|].
Qed.

Lemma distinct_others e m :
  distinct_keys (e :: m) -> distinct_keys m /\ Forall (fun x => key_is e.1 x = false) m.
Proof.
  intros Hd. split.
  - intros key. specialize (Hd key). cbn in Hd. destruct (key_is key e); cbn in Hd; lia.
  - specialize (Hd e.1). cbn in Hd. unfold key_is at 1 in Hd. rewrite key_refl in Hd. cbn in Hd.
    assert (Hn : List.filter (key_is e.1) m = []) by (destruct (List.filter _ m); cbn in Hd; [done|lia]).
    clear Hd. induction m as [|x m IH]; [done|]. cbn in Hn.
    destruct (key_is e.1 x) eqn:Ex; [done|]. constructor; auto.
Qed.

Lemma others_equal k k' m :
  fnObjectEquals ko k k' = true -> Forall (fun x => key_is k x = false) m ->
  Forall (fun x => key_is k' x = false) m.
Proof.
  intros He Hf. apply (Forall_impl _ _ _ Hf). intros x Hx. apply not_true_iff_false. intros Hx'.
  apply not_true_iff_false in Hx. apply Hx. unfold key_is in *. by eapply key_trans.
Qed.

Lemma contents_add n c p ps :
  kv_marked p = false -> Forall (fun q => key_is (kv_key p) (entry q) = false) ps ->
  ht_contents (S n) c ps -> ht_contents n (u64 (c + 1)) (p :: ps).
Proof.
  intros Hm Hk []. pose proof (zlen_nonneg ps). split; [by constructor| | |].
  - cbn. apply distinct_cons; [|done]. by apply Forall_map.
  - rewrite zlen_cons, u64_id by lia. lia.
  - rewrite zlen_cons. lia.
Qed.

Lemma contents_drop n c p ps :
  ht_contents (S n) c (p :: ps) -> ht_contents n (u64 (c - 1)) ps.
Proof.
  intros []. rewrite zlen_cons in *. pose proof (zlen_nonneg ps).
  apply Forall_cons in co_live0 as [_ ?]. split; [done| | |lia].
  - by apply distinct_others in co_distinct0 as [? _].
  - rewrite u64_id by lia. lia.
Qed.

Lemma contents_change n c p q ps :
  kv_marked q = false -> fnObjectEquals ko (kv_key p) (kv_key q) = true ->
  ht_contents (S n) c (p :: ps) -> ht_contents n c (q :: ps).
Proof.
  intros Hm He []. rewrite zlen_cons in *. apply Forall_cons in co_live0 as [_ ?].
  split; [by constructor| |by rewrite zlen_cons|rewrite zlen_cons; lia].
  cbn in *. apply distinct_others in co_distinct0 as [Hd Hf].
  apply distinct_cons; [|done]. by eapply others_equal.
Qed.
(** ** The abstract machine *)

Inductive ht_op : Type :=
| HInsert (key value : Z) | HRemove (key : Z) | HGet (key : Z) | HSet (key value : Z)
| HContains (key : Z) | HContainsKey (key : Z) | HCount | HKeys | HClear.

Inductive ht_out : Type :=
| HDone | HBool (b : bool) | HPointer (v : Z) | HNumber (n : Z) | HList (l : list Z).

(** The old object is freed, then the new one cloned. *)
Definition replace_obj (o : wObject W) (old new : Z) (w : W) : Z * W :=
  obj_new o new (obj_free o old w).
Definition free_entry (e : Z * Z) (w : W) : W := obj_free vo e.2 (obj_free ko e.1 w).

Definition absent (key : Z) (m : list (Z * Z)) : Prop := Forall (fun e => key_is key e = false) m.

(** [find key m e rest]: [e] is the entry of [key], [rest] are the others. *)
Definition find (key : Z) (m : list (Z * Z)) (e : Z * Z) (rest : list (Z * Z)) : Prop :=
  m ≡ₚ e :: rest /\ key_is key e = true.

Inductive ht_step : list (Z * Z) * W -> ht_op -> ht_out -> list (Z * Z) * W -> Prop :=
| hs_insert_null m w key value :
    key = NULL \/ value = NULL -> ht_step (m, w) (HInsert key value) (HBool false) (m, w)
| hs_insert_new m w key value k w1 v w2 m' :
    key <> NULL -> value <> NULL -> absent key m ->
    replace_obj ko NULL key w = (k, w1) -> replace_obj vo NULL value w1 = (v, w2) ->
    m' ≡ₚ (k, v) :: m ->
    ht_step (m, w) (HInsert key value) (HBool true) (m', w2)
| hs_insert_no_memory m w key value :
    absent key m -> malloc_ok 32 = false ->
    ht_step (m, w) (HInsert key value) (HBool false) (m, w)
| hs_insert_existing m w key value k0 v0 rest k w1 v w2 m' :
    key <> NULL -> value <> NULL -> find key m (k0, v0) rest ->
    (if k0 =? key then (k0, w) else replace_obj ko k0 key w) = (k, w1) ->
    (if v0 =? value then (v0, w1) else replace_obj vo v0 value w1) = (v, w2) ->
    m' ≡ₚ (k, v) :: rest ->
    ht_step (m, w) (HInsert key value) (HBool true) (m', w2)
| hs_remove m w key e m' :
    key <> NULL -> find key m e m' -> ht_step (m, w) (HRemove key) (HBool true) (m', free_entry e w)
| hs_remove_absent m w key :
    key = NULL \/ absent key m -> ht_step (m, w) (HRemove key) (HBool false) (m, w)
| hs_get m w key e rest :
    key <> NULL -> find key m e rest -> ht_step (m, w) (HGet key) (HPointer e.2) (m, w)
| hs_get_absent m w key :
    key = NULL \/ absent key m -> ht_step (m, w) (HGet key) (HPointer NULL) (m, w)
| hs_set m w key value e rest v w' m' :
    key <> NULL -> find key m e rest -> replace_obj vo e.2 value w = (v, w') ->
    m' ≡ₚ (e.1, v) :: rest -> ht_step (m, w) (HSet key value) (HBool true) (m', w')
| hs_set_absent m w key value :
    key = NULL \/ absent key m -> ht_step (m, w) (HSet key value) (HBool false) (m, w)
| hs_contains m w key e rest :
    key <> NULL -> find key m e rest -> ht_step (m, w) (HContains key) (HBool true) (m, w)
| hs_contains_absent m w key :
    key = NULL \/ absent key m -> ht_step (m, w) (HContains key) (HBool false) (m, w)
| hs_contains_key m w key b :
    ht_step (m, w) (HContains key) (HBool b) (m, w) ->
    ht_step (m, w) (HContainsKey key) (HBool b) (m, w)
| hs_count m w : ht_step (m, w) HCount (HNumber (zlen m)) (m, w)
| hs_keys m w l : l ≡ₚ map fst m -> ht_step (m, w) HKeys (HList l) (m, w)
| hs_keys_no_memory m w :
    malloc_ok (zlen m * 8) = false -> ht_step (m, w) HKeys (HList []) (m, w)
| hs_clear m w m' :
    m' ≡ₚ m -> ht_step (m, w) HClear HDone ([], foldl (fun w e => free_entry e w) w m').

Definition run_ht_op (op : ht_op) : Prog (wHashTable W) ht_out :=
  match op with
  | HInsert key value => b <- HashTable_Insert key value ;; pret (HBool b)
  | HRemove key => b <- HashTable_Remove key ;; pret (HBool b)
  | HGet key => v <- HashTable_GetItemValue key ;; pret (HPointer v)
  | HSet key value => b <- HashTable_SetItemValue key value ;; pret (HBool b)
  | HContains key => b <- HashTable_Contains key ;; pret (HBool b)
  | HContainsKey key => b <- HashTable_ContainsKey key ;; pret (HBool b)
  | HCount => t <- pget ;; pret (HNumber (HashTable_Count t))
  | HKeys => l <- HashTable_GetKeys ;; pret (HList l)
  | HClear => HashTable_Clear ;; pret HDone
  end.

(** ** Looking up a key *)

Lemma index_bucket n t key :
  ht_ok n t -> exists b, ht_bucketArray t !! bucket_index t key = Some b.
Proof.
  intros [[] _]. apply lookup_lt_is_Some_2. unfold bucket_index.
  pose proof (Z.mod_pos_bound (ht_hash t key) (ht_numOfBuckets t) sh_pos0). lia.
Qed.

Lemma in_pairs t p : In p (pairs t) -> exists i b, ht_bucketArray t !! i = Some b /\ In p b.
Proof.
  unfold pairs. intros Hin. apply in_concat in Hin as (b & Hb & Hin).
  apply list_elem_of_In, list_elem_of_lookup in Hb as [i Hi]. by exists i, b.
Qed.

(** The chain of the key's bucket, searched: either the key is not in the table, or its pair is
    singled out. *)
Lemma search_spec n t key b :
  ht_ok n t -> ht_bucketArray t !! bucket_index t key = Some b ->
  match chain_split (fun p => HashTable_Equals t p key) b with
  | (_, []) => absent key (map entry (pairs t))
  | (before, p :: after) =>
      b = before ++ p :: after /\ key_is key (entry p) = true /\ kv_marked p = false /\
      exists rest, pairs t ≡ₚ p :: rest /\
        forall b', concat (<[bucket_index t key := before ++ b' ++ after]> (ht_bucketArray t)) ≡ₚ b' ++ rest
  end.
Proof.
  intros Hok Hb. pose proof Hok as [[] Hc].
  pose proof (chain_split_spec (fun p => HashTable_Equals t p key) b) as Hs.
  destruct (chain_split _ b) as [before [|p after]]; destruct Hs as (-> & Hbf & Hf).
  - rewrite app_nil_r in *. unfold absent. rewrite Forall_map. apply List.Forall_forall.
    intros p Hp. destruct (in_pairs t p Hp) as (i & b' & Hi & Hin).
    apply not_true_iff_false. intros Hk. unfold key_is in Hk. cbn in Hk.
    assert (i = bucket_index t key) as ->.
    { rewrite <- (sh_placed0 i b' p Hi Hin). unfold bucket_index. by rewrite sh_hash0, (key_hash (hash := hash) _ _ Hk). }
    rewrite Hb in Hi. injection Hi as <-. rewrite List.Forall_forall in Hbf. specialize (Hbf p Hin).
    unfold HashTable_Equals in Hbf. rewrite sh_key0 in Hbf. congruence.
  - unfold HashTable_Equals in Hf. rewrite sh_key0 in Hf.
    destruct (bucket_focus _ _ _ Hb) as (rest & Hr & Hr').
    assert (Hp : pairs t ≡ₚ p :: (before ++ after) ++ rest).
    { unfold pairs. rewrite Hr. by rewrite <- Permutation_middle. }
    split_and!; [done|done| |].
    + pose proof (co_live _ _ _ Hc) as Hl. rewrite Hp in Hl. by apply Forall_cons in Hl as [? _].
    + exists ((before ++ after) ++ rest). split; [done|]. intros b'. rewrite Hr'.
      rewrite <- !(assoc (++)). rewrite !(assoc (++) before). rewrite (comm (++) before b').
      by rewrite <- !(assoc (++)).
Qed.

(** ** Steps of the operations *)

(** What every operation leaves alone. *)
Definition kept t t' : Prop := ht_lock t' = ht_lock t /\ ht_synchronized t' = ht_synchronized t.

Definition same_setup t t' : Prop :=
  ht_key t' = ht_key t /\ ht_value t' = ht_value t /\ ht_hash t' = ht_hash t /\
  ht_idealRatio t' = ht_idealRatio t /\ ht_foreachRecursionLevel t' = ht_foreachRecursionLevel t /\
  ht_numOfBuckets t' = ht_numOfBuckets t.

Lemma shape_set t t' i b' :
  ht_shape t -> same_setup t t' -> ht_bucketArray t' = <[i := b']> (ht_bucketArray t) ->
  (forall p, In p b' -> Z.to_nat (hash (kv_key p) mod ht_numOfBuckets t) = i) -> ht_shape t'.
Proof.
  intros [] (E1 & E2 & E3 & E4 & E5 & E6) Eb Hb. split; try congruence.
  - by rewrite Eb, length_insert, E6.
  - rewrite Eb, E6. by apply placed_insert.
Qed.

Lemma index_of_equal t key p :
  ht_shape t -> fnObjectEquals ko key (kv_key p) = true ->
  Z.to_nat (hash (kv_key p) mod ht_numOfBuckets t) = bucket_index t key.
Proof.
  intros [] Hk. unfold bucket_index. by rewrite sh_hash0, (key_hash (hash := hash) _ _ Hk).
Qed.

Lemma Rehash_run n t k :
  0 <= k -> ht_ok n t ->
  exists t', HashTable_Rehash k t = Ret (tt, t') /\ ht_ok n t' /\ kept t t' /\
    pairs t' ≡ₚ pairs t /\ ht_world t' = ht_world t.
Proof.
  intros Hk [Hs Hc]. pose proof Hs as []. pose proof Hc as [].
  unfold HashTable_Rehash. rewrite pbind_pget.
  assert (Hn : exists m, 0 < m /\ (if k =? 0 then plift (HashTable_CalculateIdealNumOfBuckets t)
                                   else pret k) t = Ret (m, t)).
  { destruct (k =? 0) eqn:E; [|exists k; split; [lia|done]]. pose proof (zlen_nonneg (pairs t)).
    destruct (CalculateIdeal_run t) as (m & Hm & Hb & _); [lia|done|].
    exists m. unfold plift. rewrite Hm. split; [lia|done]. }
  destruct Hn as (m & Hm & Hr). rewrite (pbind_ret _ _ _ _ _ Hr).
  destruct (m =? _) eqn:E; [by exists t|].
  destruct (malloc_ok _); cbn [negb]; [|by exists t].
  destruct (rehash_spec hash m (pairs t) (replicate (Z.to_nat m) []) Hm) as (Hl & Hp & Hcc).
  { by rewrite length_replicate. }
  { apply placed_empty. }
  rewrite concat_replicate_nil, app_nil_r in Hcc.
  eexists. split; [reflexivity|]. rewrite sh_hash0. fold (pairs t). set (t' := ht_set_buckets _ _ _).
  split; [split|split_and!; done].
  - split; done.
  - by eapply contents_perm; [symmetry|].
Qed.

(** [if (...) HashTable_Rehash (table, 0)] *)
Lemma maybe_rehash_run n t (c1 c2 : bool) :
  ht_ok n t ->
  exists t', (if c1 then if c2 then HashTable_Rehash 0 else pret tt else pret tt) t = Ret (tt, t') /\
    ht_ok n t' /\ kept t t' /\ pairs t' ≡ₚ pairs t /\ ht_world t' = ht_world t.
Proof.
  intros Hok. destruct c1, c2; try (by exists t). by apply Rehash_run.
Qed.

Ltac after_rehash n t Hok :=
  match goal with
  | |- context [pbind (if ?c1 then if ?c2 then HashTable_Rehash 0 else _ else _) _ _] =>
      destruct (maybe_rehash_run n t c1 c2 Hok) as (t3 & Hr3 & Hok3 & Hk3 & Hp3 & Hw3)
  end.

Lemma set_bucket_run {A} i b t (k : unit -> Prog (wHashTable W) A) :
  pbind (set_bucket i b) k t = k tt (ht_set_buckets (ht_numOfBuckets t) (<[i := b]> (ht_bucketArray t)) t).
Proof. done. Qed.

Lemma get_bucket_run {A} i b t (k : list wKeyValuePair -> Prog (wHashTable W) A) :
  ht_bucketArray t !! i = Some b -> pbind (get_bucket i) k t = k b t.
Proof. intros E. unfold get_bucket, pbind, pget. by rewrite E. Qed.

Lemma setKey_run p key t :
  ht_key t = ko ->
  setKey p key t = Ret (mkPair (kv_addr p) (replace_obj ko (kv_key p) key (ht_world t)).1 (kv_value p) (kv_marked p),
                        ht_set_world (replace_obj ko (kv_key p) key (ht_world t)).2 t).
Proof.
  intros E. unfold setKey, disposeKey, pbind, pget, pput. cbn. rewrite E. unfold replace_obj.
  by destruct (obj_new _ _ _).
Qed.

Lemma setValue_run p value t :
  ht_value t = vo ->
  setValue p value t = Ret (mkPair (kv_addr p) (kv_key p) (replace_obj vo (kv_value p) value (ht_world t)).1 (kv_marked p),
                            ht_set_world (replace_obj vo (kv_value p) value (ht_world t)).2 t).
Proof.
  intros E. unfold setValue, disposeValue, pbind, pget, pput. cbn. rewrite E. unfold replace_obj.
  by destruct (obj_new _ _ _).
Qed.

Lemma stored_key key old w : fnObjectEquals ko key (replace_obj ko old key w).1 = true.
Proof. apply key_clone. Qed.

Lemma insert_new_run n t key value b :
  ht_ok (S n) t -> key <> NULL -> value <> NULL ->
  ht_bucketArray t !! bucket_index t key = Some b -> absent key (map entry (pairs t)) ->
  exists rc t', insert_new (bucket_index t key) b key value t = Ret (rc, t') /\ ht_ok n t' /\ kept t t' /\
    ht_step (ht_abs t) (HInsert key value) (HBool rc) (ht_abs t').
Proof.
  intros Hok Hk Hv Hb Ha. pose proof Hok as [Hs Hc]. pose proof Hs as []. unfold insert_new.
  destruct (malloc_ok 32) eqn:Em; cbn [negb].
  2: { exists false, t. split; [done|]. split; [by apply ht_ok_less|]. split; [done|].
       by apply hs_insert_no_memory. }
  rewrite pbind_pget, pbind_pput.
  rewrite (pbind_ret _ _ _ _ _ (setKey_run _ key (ht_set_fresh _ t) sh_key0)).
  rewrite (pbind_ret _ _ _ _ _ (setValue_run _ value (ht_set_world _ (ht_set_fresh _ t)) sh_value0)). cbn.
  destruct (replace_obj ko NULL key (ht_world t)) as [k w1] eqn:E1.
  cbn. destruct (replace_obj vo NULL value w1) as [v w2] eqn:E2. cbn.
  set (p := mkPair _ k v false). set (t2 := ht_set_counts _ _ _).
  destruct (bucket_focus _ _ _ Hb) as (rest & Hr & Hr').
  assert (Hp2 : pairs t2 ≡ₚ p :: pairs t).
  { unfold pairs, t2. cbn. by rewrite Hr', Hr. }
  assert (Hkk : fnObjectEquals ko key k = true) by (pose proof (stored_key key NULL (ht_world t)) as Hx; by rewrite E1 in Hx).
  assert (Hok2 : ht_ok n t2).
  { split.
    - apply (shape_set t t2 (bucket_index t key) (p :: b)); [done|done|done|].
      intros q [<-|Hq]; [by apply index_of_equal|by eapply sh_placed0].
    - eapply contents_perm; [symmetry; exact Hp2|]. apply contents_add; [done| |done].
      apply (others_equal key k _ Hkk) in Ha. by apply Forall_map in Ha. }
  after_rehash n t2 Hok2.
  exists true, t3. split; [by rewrite (pbind_ret _ _ _ _ _ Hr3)|]. split; [done|]. split; [done|].
  unfold ht_abs. rewrite Hw3. eapply hs_insert_new; try done.
  by rewrite Hp3, Hp2.
Qed.

(** The pair with new key and value hangs where the old one did. *)
Lemma replace_pair n t t' key before p after q rest :
  ht_ok (S n) t -> ht_bucketArray t !! bucket_index t key = Some (before ++ p :: after) ->
  pairs t ≡ₚ p :: rest ->
  (forall b', concat (<[bucket_index t key := before ++ b' ++ after]> (ht_bucketArray t)) ≡ₚ b' ++ rest) ->
  key_is key (entry p) = true -> fnObjectEquals ko key (kv_key q) = true -> kv_marked q = false ->
  same_setup t t' -> ht_numOfElements t' = ht_numOfElements t ->
  ht_bucketArray t' = <[bucket_index t key := before ++ q :: after]> (ht_bucketArray t) ->
  ht_ok n t' /\ pairs t' ≡ₚ q :: rest.
Proof.
  intros [Hs Hc] Hb Hr Hr' Hkp Hkq Hm Hss He Eb. pose proof Hs as [].
  assert (Hp : pairs t' ≡ₚ q :: rest) by (unfold pairs; rewrite Eb; exact (Hr' [q])).
  split; [|done]. split.
  - eapply (shape_set t t'); [done|done|exact Eb|]. intros x Hx.
    apply in_app_or in Hx as [Hx|[<-|Hx]]; [|by apply index_of_equal|].
    + eapply sh_placed0; [exact Hb|]. apply in_or_app. by left.
    + eapply sh_placed0; [exact Hb|]. apply in_or_app. right. by right.
  - eapply contents_perm; [symmetry; exact Hp|]. rewrite He.
    eapply contents_change; [done| |eapply contents_perm; [exact Hr|done]].
    unfold key_is in Hkp. cbn in Hkp. by eapply key_trans; [apply key_sym|].
Qed.

Lemma found_entry t key p rest :
  pairs t ≡ₚ p :: rest -> key_is key (entry p) = true -> find key (map entry (pairs t)) (entry p) (map entry rest).
Proof. intros Hr Hk. split; [|done]. by rewrite Hr. Qed.

Lemma insert_existing_run n t key value before p after rest :
  ht_ok (S n) t -> key <> NULL -> value <> NULL ->
  ht_bucketArray t !! bucket_index t key = Some (before ++ p :: after) ->
  key_is key (entry p) = true -> kv_marked p = false -> pairs t ≡ₚ p :: rest ->
  (forall b', concat (<[bucket_index t key := before ++ b' ++ after]> (ht_bucketArray t)) ≡ₚ b' ++ rest) ->
  exists rc t', insert_existing (bucket_index t key) before p after key value t = Ret (rc, t') /\
    ht_ok n t' /\ kept t t' /\ ht_step (ht_abs t) (HInsert key value) (HBool rc) (ht_abs t').
Proof.
  intros Hok Hk Hv Hb Hkp Hm Hr Hr'. pose proof Hok as [Hs Hc]. pose proof Hs as [].
  unfold insert_existing. rewrite Hm, pbind_pret. cbv zeta. cbn [kv_key kv_value kv_addr].
  destruct (if kv_key p =? key then (kv_key p, ht_world t) else replace_obj ko (kv_key p) key (ht_world t))
    as [k w1] eqn:E1.
  destruct (if kv_value p =? value then (kv_value p, w1) else replace_obj vo (kv_value p) value w1)
    as [v w2] eqn:E2.
  set (t1 := ht_set_world w1 t). set (t2 := ht_set_world w2 t).
  assert (R1 : (if negb (kv_key p =? key) then setKey (mkPair (kv_addr p) (kv_key p) (kv_value p) false) key
    else pret (mkPair (kv_addr p) (kv_key p) (kv_value p) false)) t = Ret (mkPair (kv_addr p) k (kv_value p) false, t1)).
  { unfold t1. destruct (kv_key p =? key); cbn [negb].
    - injection E1 as <- <-. by destruct t.
    - rewrite setKey_run by done. cbn. by rewrite E1. }
  rewrite (pbind_ret _ _ _ _ _ R1). cbn [kv_key kv_value kv_addr kv_marked].
  assert (R2 : (if negb (kv_value p =? value) then setValue (mkPair (kv_addr p) k (kv_value p) false) value
    else pret (mkPair (kv_addr p) k (kv_value p) false)) t1 = Ret (mkPair (kv_addr p) k v false, t2)).
  { unfold t2, t1. destruct (kv_value p =? value); cbn [negb].
    - by injection E2 as <- <-.
    - rewrite setValue_run by done. cbn. by rewrite E2. }
  rewrite (pbind_ret _ _ _ _ _ R2), set_bucket_run. clear R1 R2.
  set (q := mkPair _ k v false). set (t3 := ht_set_buckets _ _ t2).
  assert (Hkq : fnObjectEquals ko key k = true).
  { destruct (kv_key p =? key) eqn:E.
    - injection E1 as <- <-. exact Hkp.
    - pose proof (stored_key key (kv_key p) (ht_world t)) as Hx. by rewrite E1 in Hx. }
  destruct (replace_pair n t t3 key before p after q rest) as [Hok3 Hp3]; try done.
  exists true, t3. split_and!; [done|done|done|]. unfold ht_abs.
  eapply (hs_insert_existing _ _ _ _ (kv_key p) (kv_value p) (map entry rest)); [done|done| |exact E1|exact E2|].
  - by apply found_entry.
  - by rewrite Hp3.
Qed.

(** ** Entering and leaving *)

#[local] Instance table_lock : Lockable (wHashTable W) := {
  lk_synchronized := ht_synchronized;
  lk_count := ht_lock;
  lk_set := ht_set_lock;
  lk_count_set _ _ := eq_refl;
  lk_sync_set _ _ := eq_refl
}.

Lemma ht_ok_lock n l t : ht_ok n t -> ht_ok n (ht_set_lock l t).
Proof. intros [[] []]. split; split; done. Qed.

Lemma ht_finish {A} n t t1 (a : A) (k : unit -> Prog (wHashTable W) A) f op :
  ht_ok n t1 -> kept (locked t) t1 -> (forall t2, k tt t2 = Ret (a, t2)) ->
  ht_step (ht_abs (locked t)) op (f a) (ht_abs t1) ->
  exists t', pbind ht_leave k t1 = Ret (a, t') /\ ht_ok n t' /\ kept t t' /\
    ht_step (ht_abs t) op (f a) (ht_abs t').
Proof.
  intros Hok [Hl Hs] Hk Hst.
  assert (Hsy : ht_synchronized (locked t) = ht_synchronized t).
  { unfold locked. cbn. by destruct (ht_synchronized t) eqn:E. }
  assert (Ha : ht_abs (locked t) = ht_abs t) by (unfold locked; cbn; by destruct (ht_synchronized t)).
  destruct (unlocked_spec (Lockable0 := table_lock) (ht_ok n) ht_abs (ht_ok_lock n) (fun _ _ => eq_refl) t t1 Hok)
    as (Hok' & Ha' & Hl' & Hs'); [split; cbn; congruence|].
  exists (unlocked t1). change ht_leave with (lk_leave (S := wHashTable W)).
  rewrite leave_run, Hk. rewrite Ha', <- Ha. by split_and!.
Qed.

Lemma ht_locked n t : ht_ok n t -> ht_ok n (locked t).
Proof. intros Hok. unfold locked. cbn. destruct (ht_synchronized t); [by apply ht_ok_lock|done]. Qed.

(** ** The operations *)

Definition op_refines {A} (n : nat) (m : Prog (wHashTable W) A) (f : A -> ht_out) (op : ht_op) t : Prop :=
  exists a t', m t = Ret (a, t') /\ ht_ok n t' /\ kept t t' /\ ht_step (ht_abs t) op (f a) (ht_abs t').

(** An operation that does nothing. *)
Lemma op_none {A} n (a : A) f op t :
  ht_ok (S n) t -> ht_step (ht_abs t) op (f a) (ht_abs t) -> op_refines n (pret a) f op t.
Proof. intros Hok Hst. exists a, t. split_and!; [done|by apply ht_ok_less|done|done]. Qed.

(** A part between lock and unlock that refines the step. *)
Lemma op_locked {A B} n (m : Prog (wHashTable W) A) (g : A -> B) f op t :
  op_refines n m (fun a => f (g a)) op (locked t) ->
  exists b t', (a <- m ;; ht_leave ;; pret (g a)) (locked t) = Ret (b, t') /\ ht_ok n t' /\ kept t t' /\
    ht_step (ht_abs t) op (f b) (ht_abs t').
Proof.
  intros (a & t1 & Hr & Hok & Hk & Hst). rewrite (pbind_ret _ _ _ _ _ Hr).
  destruct (ht_finish n t t1 (g a) (fun _ => pret (g a)) f op Hok Hk (fun _ => eq_refl) Hst)
    as (t' & Hr' & Hok' & Hk' & Hst').
  by exists (g a), t'.
Qed.

Ltac enter Hok key b Hb :=
  change ht_enter with (lk_enter (S := wHashTable W)); rewrite enter_run, ?pbind_pget;
  apply ht_locked in Hok; destruct (index_bucket _ _ key Hok) as [b Hb].

Lemma Insert_refines n key value t :
  ht_ok (S n) t -> op_refines n (HashTable_Insert key value) HBool (HInsert key value) t.
Proof.
  intros Hok. unfold HashTable_Insert.
  destruct ((key =? NULL) || (value =? NULL)) eqn:En.
  { apply op_none; [done|]. apply hs_insert_null. lia. }
  unfold op_refines. enter Hok key b Hb. cbv zeta. rewrite (get_bucket_run _ _ _ _ Hb).
  apply (op_locked n _ (fun a => a)). pose proof (search_spec _ _ key b Hok Hb) as Hs.
  destruct (chain_split _ b) as [before [|p after]].
  - apply insert_new_run; (done || lia).
  - destruct Hs as (-> & Hk & Hm & rest & Hr & Hr').
    apply (insert_existing_run n _ key value before p after rest); (done || lia).
Qed.

Lemma Remove_refines n key t :
  ht_ok (S n) t -> op_refines n (HashTable_Remove key) HBool (HRemove key) t.
Proof.
  intros Hok. unfold HashTable_Remove. destruct (key =? NULL) eqn:En.
  { apply op_none; [done|]. apply hs_remove_absent. left. lia. }
  unfold op_refines. enter Hok key b Hb. cbv zeta. rewrite (get_bucket_run _ _ _ _ Hb).
  apply (op_locked n _ (fun a => a)). pose proof (search_spec _ _ key b Hok Hb) as Hs.
  set (t0 := locked t) in *. pose proof Hok as [Hsh Hc]. pose proof Hsh as [].
  destruct (chain_split _ b) as [before [|p after]].
  { apply op_none; [done|]. apply hs_remove_absent. by right. }
  destruct Hs as (-> & Hk & Hm & rest & Hr & Hr'). rewrite sh_level0. cbn [negb Z.eqb].
  unfold op_refines. rewrite set_bucket_run. unfold disposePair, disposeKey, disposeValue.
  set (t2 := ht_set_counts (u64 (ht_numOfElements t0 - 1)) (ht_pendingRemoves t0)
    (ht_set_world (free_entry (entry p) (ht_world t0))
      (ht_set_buckets (ht_numOfBuckets t0) (<[bucket_index t0 key := before ++ after]> (ht_bucketArray t0)) t0))).
  assert (Hp2 : pairs t2 ≡ₚ rest) by exact (Hr' []).
  assert (Hok2 : ht_ok n t2).
  { split.
    - apply (shape_set t0 t2 (bucket_index t0 key) (before ++ after)); [done|done|done|].
      intros q Hq. eapply sh_placed0; [exact Hb|].
      apply in_app_or in Hq as [Hq|Hq]; apply in_or_app; [by left|right; by right].
    - eapply contents_perm; [symmetry; exact Hp2|]. eapply contents_drop, contents_perm; [exact Hr|done]. }
  cbn. rewrite sh_key0, sh_value0, sh_level0.
  fold (free_entry (entry p) (ht_world t0)).
  after_rehash n t2 Hok2. exists true, t3. split; [by rewrite (pbind_ret _ _ _ _ _ Hr3)|].
  split_and!; [done|exact Hk3|]. unfold ht_abs. rewrite Hw3.
  eapply (hs_remove _ _ _ (entry p)); [lia|]. split; [|done]. rewrite Hr, Hp3, Hp2. done.
Qed.

Lemma Get_run n key t :
  ht_ok n t -> key <> NULL ->
  (HashTable_Get key t = Ret (None, t) /\ absent key (map entry (pairs t))) \/
  (exists p rest, HashTable_Get key t = Ret (Some p, t) /\ kv_marked p = false /\
     find key (map entry (pairs t)) (entry p) (map entry rest)).
Proof.
  intros Hok Hk. unfold HashTable_Get. replace (key =? NULL) with false by lia.
  destruct (index_bucket _ _ key Hok) as [b Hb]. rewrite pbind_pget, (get_bucket_run _ _ _ _ Hb).
  pose proof (search_spec _ _ key b Hok Hb) as Hs. destruct (chain_split _ b) as [before [|p after]].
  - by left.
  - destruct Hs as (-> & Hkp & Hm & rest & Hr & _). right. exists p, rest.
    split_and!; [done|done|by apply found_entry].
Qed.

Lemma GetItemValue_refines n key t :
  ht_ok (S n) t -> op_refines n (HashTable_GetItemValue key) HPointer (HGet key) t.
Proof.
  intros Hok. unfold HashTable_GetItemValue. destruct (key =? NULL) eqn:En.
  { apply op_none; [done|]. apply hs_get_absent. left. lia. }
  unfold op_refines. enter Hok key b Hb.
  apply (op_locked n (HashTable_Get key)
    (fun o : option wKeyValuePair => match o with Some p => if kv_marked p then NULL else kv_value p | None => NULL end)).
  destruct (Get_run _ key _ Hok ltac:(lia)) as [[Hr Ha]|(p & rest & Hr & Hm & Hf)];
    eexists _, _; (split; [exact Hr|]); (split; [by apply ht_ok_less|]); (split; [done|]).
  - apply hs_get_absent. by right.
  - rewrite Hm. eapply (hs_get _ _ _ (entry p)); [lia|done].
Qed.

Lemma Contains_refines n key t :
  ht_ok (S n) t -> op_refines n (HashTable_Contains key) HBool (HContains key) t.
Proof.
  intros Hok. unfold HashTable_Contains. destruct (key =? NULL) eqn:En.
  { apply op_none; [done|]. apply hs_contains_absent. left. lia. }
  unfold op_refines. enter Hok key b Hb.
  apply (op_locked n (HashTable_Get key)
    (fun o : option wKeyValuePair => match o with Some p => negb (kv_marked p) | None => false end)).
  destruct (Get_run _ key _ Hok ltac:(lia)) as [[Hr Ha]|(p & rest & Hr & Hm & Hf)];
    eexists _, _; (split; [exact Hr|]); (split; [by apply ht_ok_less|]); (split; [done|]).
  - apply hs_contains_absent. by right.
  - rewrite Hm. eapply hs_contains; [lia|done].
Qed.

Lemma SetItemValue_refines n key value t :
  ht_ok (S n) t -> op_refines n (HashTable_SetItemValue key value) HBool (HSet key value) t.
Proof.
  intros Hok. unfold HashTable_SetItemValue. destruct (key =? NULL) eqn:En.
  { apply op_none; [done|]. apply hs_set_absent. left. lia. }
  unfold op_refines. enter Hok key b Hb. cbv zeta. rewrite (get_bucket_run _ _ _ _ Hb).
  apply (op_locked n _ (fun a => a)). pose proof (search_spec _ _ key b Hok Hb) as Hs.
  set (t0 := locked t) in *. pose proof Hok as [Hsh Hc]. pose proof Hsh as [].
  destruct (chain_split _ b) as [before [|p after]].
  { apply op_none; [done|]. apply hs_set_absent. by right. }
  destruct Hs as (-> & Hk & Hm & rest & Hr & Hr'). rewrite Hm. unfold op_refines.
  rewrite (pbind_ret _ _ _ _ _ (setValue_run p value t0 sh_value0)), set_bucket_run.
  destruct (replace_obj vo (kv_value p) value (ht_world t0)) as [v w'] eqn:E. cbn [fst snd].
  set (q := mkPair _ _ v _). set (t1 := ht_set_buckets _ _ _).
  destruct (replace_pair n t0 t1 key before p after q rest) as [Hok1 Hp1]; try done.
  exists true, t1. split_and!; [done|done|done|]. unfold ht_abs.
  eapply (hs_set _ _ _ _ (entry p)); [lia|by apply found_entry|exact E|by rewrite Hp1].
Qed.

Lemma GetKeys_refines n t : ht_ok (S n) t -> op_refines n HashTable_GetKeys HList HKeys t.
Proof.
  intros Hok. unfold HashTable_GetKeys, op_refines. enter Hok 0 b Hb. cbv zeta.
  apply (op_locked n _ (fun a => a)). set (t0 := locked t) in *. pose proof Hok as [_ []].
  fold (pairs t0).
  assert (Hl : List.filter (fun p => negb (kv_marked p)) (pairs t0) = pairs t0).
  { clear -co_live0. induction co_live0 as [|p ps Hp _ IH]; [done|]. cbn. by rewrite Hp, IH. }
  assert (Hz : zlen (map kv_key (pairs t0)) = zlen (pairs t0)) by (unfold zlen; by rewrite length_map).
  assert (Hm : zlen (map entry (pairs t0)) = zlen (pairs t0)) by (unfold zlen; by rewrite length_map).
  assert (Hkeys : map kv_key (pairs t0) = map fst (map entry (pairs t0))) by (by rewrite map_map).
  rewrite Hl, Hz, co_count0. case_if.
  { apply op_none; [done|]. apply hs_keys. rewrite <- Hkeys. pose proof (zlen_nonneg (pairs t0)).
    assert (E0 : zlen (map kv_key (pairs t0)) = 0) by lia. apply zlen_0_nil in E0. by rewrite E0. }
  destruct (malloc_ok _) eqn:Em; cbn [negb].
  2: { apply op_none; [done|]. apply hs_keys_no_memory. by rewrite Hm. }
  replace (_ <? _) with false by lia. rewrite Z.sub_diag. apply op_none; [done|]. apply hs_keys.
  rewrite app_nil_r. by rewrite Hkeys.
Qed.

Lemma clear_chain_run b t :
  ht_foreachRecursionLevel t = 0 -> ht_key t = ko -> ht_value t = vo ->
  clear_chain b t = Ret (tt, ht_set_world (foldl (fun w e => free_entry e w) (ht_world t) (map entry b)) t).
Proof.
  revert t. induction b as [|p b IH]; intros t Hl Hk Hv; [by destruct t|].
  cbn [clear_chain map foldl]. rewrite pbind_pget, Hl. cbn [negb Z.eqb].
  unfold disposePair, disposeKey, disposeValue. cbn. rewrite IH by done. cbn. by rewrite Hk, Hv.
Qed.

Lemma clear_buckets_run k i t :
  ht_foreachRecursionLevel t = 0 -> ht_key t = ko -> ht_value t = vo ->
  length (ht_bucketArray t) = (i + k)%nat ->
  clear_buckets k i t = Ret (tt,
    ht_set_world (foldl (fun w e => free_entry e w) (ht_world t) (map entry (concat (drop i (ht_bucketArray t)))))
      (ht_set_buckets (ht_numOfBuckets t) (take i (ht_bucketArray t) ++ replicate k []) t)).
Proof.
  revert i t. induction k as [|k IH]; intros i t Hl Hk Hv Hlen.
  - cbn [clear_buckets replicate]. rewrite take_ge, app_nil_r, drop_ge by lia. by destruct t.
  - cbn [clear_buckets]. destruct (lookup_lt_is_Some_2 (ht_bucketArray t) i ltac:(lia)) as [b Hb].
    rewrite (get_bucket_run _ _ _ _ Hb), (pbind_ret _ _ _ _ _ (clear_chain_run b t Hl Hk Hv)), set_bucket_run.
    rewrite IH by (cbn; rewrite ?length_insert; (done || lia)). cbn.
    rewrite (drop_S _ b i Hb). cbn. rewrite map_app, foldl_app. do 2 f_equal. unfold ht_set_world, ht_set_buckets.
    cbn. rewrite drop_insert_lt by lia. f_equal.
    rewrite (take_S_r _ i []) by (apply list_lookup_insert_eq; lia).
    rewrite take_insert_ge by lia. by rewrite <- (assoc (++)).
Qed.

Lemma Clear_refines n t : ht_ok (S n) t -> op_refines n HashTable_Clear (fun _ => HDone) HClear t.
Proof.
  intros Hok. unfold HashTable_Clear, op_refines. enter Hok 0 b Hb. set (t0 := locked t) in *.
  pose proof Hok as [Hsh Hc]. pose proof Hsh as [].
  rewrite (pbind_ret _ _ _ _ _ (clear_buckets_run _ 0 t0 sh_level0 sh_key0 sh_value0 sh_len0)).
  rewrite pbind_pget, pbind_pput. cbn. rewrite sh_level0. cbn [Z.eqb]. rewrite drop_0.
  set (t1 := ht_set_counts _ _ _).
  assert (Hp1 : pairs t1 = []) by apply concat_replicate_nil.
  assert (Hok1 : ht_ok n t1).
  { destruct Hc. split.
    - split; try done; [by apply length_replicate|apply placed_empty].
    - rewrite Hp1. split; [done|intros key; cbn; lia|done|rewrite zlen_nil].
      pose proof (zlen_nonneg (pairs t0)). lia. }
  destruct (Rehash_run n t1 5 ltac:(lia) Hok1) as (t2 & Hr2 & Hok2 & Hk2 & Hp2 & Hw2).
  rewrite (pbind_ret _ _ _ _ _ Hr2).
  assert (Hst : ht_step (ht_abs t0) HClear HDone (ht_abs t2)).
  { unfold ht_abs. rewrite Hw2. rewrite Hp1 in Hp2. apply Permutation_nil_r in Hp2. rewrite Hp2.
    by apply hs_clear. }
  destruct (ht_finish n t t2 tt (fun _ => pret tt) (fun _ => HDone) HClear Hok2 Hk2 (fun _ => eq_refl) Hst)
    as (t' & Hr' & Hrest).
  exists tt, t'. split; [|done]. unfold pbind in Hr'. destruct (ht_leave t2) as [[[] t3]| |]; [|done..].
  by injection Hr' as ->.
Qed.

Lemma step_contains_key a key out a' :
  ht_step a (HContains key) out a' -> ht_step a (HContainsKey key) out a'.
Proof. intros Hst. inversion Hst; subst; by apply hs_contains_key. Qed.

Lemma run_ht_op_refines n op t :
  ht_ok (S n) t ->
  exists out t', run_ht_op op t = Ret (out, t') /\ (ht_ok n t' /\ kept t t') /\
    ht_step (ht_abs t) op out (ht_abs t').
Proof.
  intros Hok.
  assert (Hof : forall {A} (m : Prog (wHashTable W) A) f, op_refines n m f op t ->
    exists out t', (a <- m ;; pret (f a)) t = Ret (out, t') /\ (ht_ok n t' /\ kept t t') /\
      ht_step (ht_abs t) op out (ht_abs t')).
  { intros A m f (a & t' & Hr & ? & ? & ?). exists (f a), t'. by rewrite (pbind_ret _ _ _ _ _ Hr). }
  destruct op; cbn [run_ht_op]; try apply Hof.
  - by apply Insert_refines.
  - by apply Remove_refines.
  - by apply GetItemValue_refines.
  - by apply SetItemValue_refines.
  - by apply Contains_refines.
  - destruct (Contains_refines n key t Hok) as (b & t' & Hr & ? & ? & Hst).
    exists b, t'. split_and!; try done. by apply step_contains_key.
  - eexists _, t. split; [reflexivity|]. split; [by apply ht_ok_less|]. split; [done|].
    unfold ht_abs, HashTable_Count. destruct Hok as [_ []]. rewrite co_count0.
    replace (zlen (pairs t)) with (zlen (map entry (pairs t))) by (unfold zlen; by rewrite length_map).
    constructor.
  - by apply GetKeys_refines.
  - by apply Clear_refines.
Qed.
End table.

Lemma HashTable_New_ok {W : Type} `{Malloc} hash ko vo `{!KeyLaws hash ko} sync (w : W) t n :
  HashTable_New sync w = Some t -> Z.of_nat n < 2 ^ 59 ->
  ht_ok hash ko vo n (ht_setup hash ko vo t) /\ ht_abs (ht_setup hash ko vo t) = ([], w) /\ ht_lock t = 0.
Proof.
  unfold HashTable_New. repeat (case_if; [done|]). intros [= <-] Hn. split_and!; [|done|done].
  split.
  - split; try done. exact (placed_empty hash 64 64).
  - change (pairs _) with (@nil wKeyValuePair). split; [done|intros key; cbn; lia|done|exact Hn].
Qed.

(** ** Properties *)

(** C34: a table made by [HashTable_New], with any hash function and callbacks that satisfy [KeyLaws]
    (equality of keys is an equivalence, equal keys hash alike and a clone equals its original),
    behaves under every sequence of insert, remove, get, set, contains, contains-key, count, keys and
    clear as a map from keys to values with at most one entry per key: buckets, collisions and
    rehashing are invisible; replaced and removed keys and values are freed once and clones stored; an
    insertion of a key and a value that are not NULL fails only when the 32 bytes of its pair are
    refused; and every operation returns and releases the lock it took.  [HashTable_Foreach] and
    [HashTable_ContainsValue] are not in the sequence: [hashtable_defects] shows that they do not
    behave as on a map.  The sequence is shorter than [2 ^ 59], more pairs than memory can hold. *)
Theorem hashtable_refines_map {W : Type} `{Malloc} (hash : Z -> Z) (ko vo : wObject W)
    `{!KeyLaws hash ko} (w : W) (sync : bool) (t : wHashTable W) (ops : list ht_op) :
  HashTable_New sync w = Some t -> zlen ops < 2 ^ 59 ->
  exists outs t', run_seq run_ht_op ops (ht_setup hash ko vo t) = Ret (outs, t') /\
    steps (ht_step ko vo) ([], w) ops outs (ht_abs t') /\
    distinct_keys ko (ht_abs t').1 /\ ht_lock t' = 0.
Proof.
  intros Hnew Hlen. destruct (HashTable_New_ok hash ko vo sync w t (length ops) Hnew Hlen) as (Hok & Ha & Hl).
  destruct (run_seq_refines_within run_ht_op ht_abs (ht_step ko vo)
    (fun n t => ht_ok hash ko vo n t /\ ht_lock t = 0) (fun _ => True))
    with (ops := ops) (s := ht_setup hash ko vo t) as (outs & t' & Hr & [[_ []] Hl'] & Hst).
  - intros n op s _ [Hs Hls].
    destruct (run_ht_op_refines hash ko vo n op s Hs) as (out & s' & ? & [? [Hk _]] & ?).
    exists out, s'. split_and!; [done|done|congruence|done].
  - by apply Forall_forall.
  - done.
  - exists outs, t'. by rewrite <- Ha.
Qed.

Lemma hashtable_refines_map_witness :
  exists t outs t',
    @HashTable_New unit malloc_all true tt = Some t /\
    run_seq (@run_ht_op unit malloc_all) [HInsert 16 1; HInsert 1040 2; HInsert 16 3; HGet 16; HRemove 1040; HKeys]
      (ht_setup HashTable_PointerHash (mkObject None None HashTable_PointerCompare) default_object t) = Ret (outs, t') /\
    outs = [HBool true; HBool true; HBool true; HPointer 3; HBool true; HList [16]] /\ ht_lock t' = 0.
Proof.
  eexists. destruct (@hashtable_refines_map unit malloc_all HashTable_PointerHash
    (mkObject None None HashTable_PointerCompare) default_object pointer_keys tt true _
    [HInsert 16 1; HInsert 1040 2; HInsert 16 3; HGet 16; HRemove 1040; HKeys] eq_refl ltac:(done))
    as (outs & t' & Hr & _ & _ & Hl).
  exists outs, t'. split; [reflexivity|]. split; [exact Hr|]. split; [|done].
  apply (f_equal result) in Hr. cbn [result] in Hr.
  assert (E : Ret outs = Ret [HBool true; HBool true; HBool true; HPointer 3; HBool true; HList [16]]).
  { rewrite <- Hr. vm_compute. reflexivity. }
  by injection E.
Defined.

(** Choosing a new number of buckets always ends: for every element count below [2 ^ 60] the
    division by the load factor in single precision stays in the range of [size_t], the search
    for a number that passes the prime test stops within 360 rounds, and the number found is
    odd, at least 5 and not divisible by anything from 2 to 50 except itself. *)
Theorem hashtable_ideal_terminates {W : Type} (t : wHashTable W) :
  0 <= ht_numOfElements t < 2 ^ 60 -> ht_idealRatio t = float_of 3 ->
  exists n, HashTable_CalculateIdealNumOfBuckets t = Ret n /\ 5 <= n < 2 ^ 62 /\ Z.odd n = true /\
    forall d, 1 < d < 51 -> d < n -> n mod d <> 0.
Proof.
  intros He Hr. destruct (CalculateIdeal_run t He Hr) as (n & Hn & Hb & Ho & Hp).
  exists n. split_and!; [done|lia|lia|done|]. intros d Hd Hdn. by apply probable_prime_excludes.
Qed.

Lemma hashtable_ideal_terminates_witness :
  exists t n, @HashTable_New unit malloc_all true tt = Some t /\
    HashTable_CalculateIdealNumOfBuckets t = Ret n /\ n = 5.
Proof.
  eexists. destruct (hashtable_ideal_terminates (W := unit)
    (default (mkTable true 0 0 0 (float_of 3) (float_of 0) (float_of 0) [] (fun x => x)
       default_object default_object 0 0 0 tt) (@HashTable_New unit malloc_all true tt)))
    as (n & Hn & _); [by vm_compute|reflexivity|].
  exists n. split; [reflexivity|]. split; [exact Hn|]. vm_compute in Hn. by injection Hn as <-.
Defined.

(** Four defects.  Clearing a table from within its own iteration never ends.  An iteration
    that the callback stops leaves the recursion level raised, so that later removals are only
    marked.  [HashTable_ContainsValue] compares the value with the keys.  Removing a key twice
    during an iteration counts it twice: the element count of a table with one entry wraps. *)
Theorem hashtable_defects :
  let on_new {A} (m : Prog (wHashTable unit) A) :=
    match @HashTable_New unit malloc_all true tt with
    | Some t => result ((@HashTable_Insert unit malloc_all 16 1 ;; m) t)
    | None => Abort
    end in
  let remove := @HashTable_Remove unit malloc_all in
  on_new (HashTable_Foreach (fun _ _ => @HashTable_Clear unit malloc_all ;; pret true)) = Hang /\
  on_new (b <- HashTable_Foreach (fun _ _ => pret false) ;; r <- remove 16 ;;
          t <- pget ;; pret (b, r, ht_foreachRecursionLevel t, map entry (pairs t)))
    = Ret (false, true, 1, [(16, 1)]) /\
  on_new (b1 <- HashTable_ContainsValue 1 ;; b16 <- HashTable_ContainsValue 16 ;; pret (b1, b16))
    = Ret (false, true) /\
  on_new (b <- HashTable_Foreach (fun k _ => remove k ;; remove k) ;;
          t <- pget ;; pret (b, pairs t, HashTable_Count t))
    = Ret (true, [], 2 ^ 64 - 1).
Proof. cbv zeta. split_and!; vm_compute; reflexivity. Qed.
