(* ===== verification/Unicode.v ===== *)
(** * Unicode conversion: [winpr/libwinpr/crt/unicode_builtin.c]

    The built-in converter between UTF-8 and UTF-16.  A source is the memory a pointer points
    to, as a list of code units; the target is part of the state, [None] for a NULL pointer.
    The internal loops return their result with the advanced source and target offsets; a
    [targetEnd] of [None] is the NULL pointer with which only the length is computed.  The
    second half specifies the two encodings and shows that the loops convert exactly the
    well-formed texts. *)

From S2P Require Import Prelude Memory.

Inductive ConversionResult : Type :=
| conversionOK | sourceExhausted | targetExhausted | sourceIllegal.

Inductive ConversionFlags : Type := strictConversion | lenientConversion.

Definition is_strict (f : ConversionFlags) : bool :=
  match f with strictConversion => true | lenientConversion => false end.

Definition UNI_REPLACEMENT_CHAR : Z := 0xFFFD.
Definition UNI_MAX_BMP : Z := 0xFFFF.
Definition UNI_MAX_UTF16 : Z := 0x10FFFF.
Definition UNI_SUR_HIGH_START : Z := 0xD800.
Definition UNI_SUR_HIGH_END : Z := 0xDBFF.
Definition UNI_SUR_LOW_START : Z := 0xDC00.
Definition UNI_SUR_LOW_END : Z := 0xDFFF.
Definition halfShift : Z := 10.
Definition halfBase : Z := 0x10000.
Definition halfMask : Z := 0x3FF.

Definition is_high (ch : Z) : bool := (UNI_SUR_HIGH_START <=? ch) && (ch <=? UNI_SUR_HIGH_END).
Definition is_low (ch : Z) : bool := (UNI_SUR_LOW_START <=? ch) && (ch <=? UNI_SUR_LOW_END).

Definition trailingBytesForUTF8 : list Z :=
  zrep 192 0 ++ zrep 32 1 ++ zrep 16 2 ++ zrep 8 3 ++ zrep 4 4 ++ zrep 4 5.
Definition offsetsFromUTF8 : list Z :=
  [0; 0x3080; 0xE2080; 0x3C82080; 0xFA082080; 0x82082080].
Definition firstByteMark : list Z := [0; 0; 0xC0; 0xE0; 0xF0; 0xF8; 0xFC].

(** The target buffer and the code of the last error. *)
Record ubuf : Type := mkUbuf {
  u_dst : option (list Z);
  u_error : Z
}.
Definition ERROR_INVALID_PARAMETER : Z := 87.
Definition ERROR_INSUFFICIENT_BUFFER : Z := 122.

Definition u_store (i v : Z) : Prog ubuf unit :=
  s <- pget ;;
  match u_dst s with
  | None => fun _ => Abort
  | Some d => d' <- plift (slot_set i v d) ;; pput (mkUbuf (Some d') (u_error s))
  end.

Definition SetLastError (e : Z) : Prog ubuf unit := s <- pget ;; pput (mkUbuf (u_dst s) e).

(** ** UTF-16 to UTF-8 *)

(** The next character and the offset behind it, or the reason to stop. *)
Definition utf16_get (src : list Z) (sourceEnd : Z) (flags : ConversionFlags) (source : Z)
  : Prog ubuf (ConversionResult + Z * Z) :=
  ch <- plift (slot_get source src) ;;
  if is_high ch then
    if source + 1 <? sourceEnd then
      ch2 <- plift (slot_get (source + 1) src) ;;
      if is_low ch2 then
        pret (inr (Z.shiftl (ch - UNI_SUR_HIGH_START) halfShift + (ch2 - UNI_SUR_LOW_START) + halfBase,
                   source + 2))
      else if is_strict flags then pret (inl sourceIllegal)
      else pret (inr (ch, source + 1))
    else pret (inl sourceExhausted)
  else if is_strict flags && is_low ch then pret (inl sourceIllegal)
  else pret (inr (ch, source + 1)).

(** How many bytes a character needs. *)
Definition bytesToWrite (ch : Z) : Z * Z :=
  if ch <? 0x80 then (1, ch)
  else if ch <? 0x800 then (2, ch)
  else if ch <? 0x10000 then (3, ch)
  else if ch <? 0x110000 then (4, ch)
  else (3, UNI_REPLACEMENT_CHAR).

(** The continuation bytes, from the last one back. *)
Fixpoint put_trailing (k : nat) (ch target : Z) : Prog ubuf (Z * Z) :=
  match k with
  | O => pret (ch, target)
  | S k' =>
      u_store (target - 1) (u8 (Z.land (Z.lor ch 0x80) 0xBF)) ;;
      put_trailing k' (Z.shiftr ch 6) (target - 1)
  end.

Definition utf8_put (n ch target : Z) : Prog ubuf unit :=
  r <- put_trailing (Z.to_nat (n - 1)) ch target ;;
  u_store (r.2 - 1) (u8 (Z.lor r.1 (znth firstByteMark n))).

Fixpoint utf16to8_loop (fuel : nat) (src : list Z) (sourceEnd : Z) (targetEnd : option Z)
    (flags : ConversionFlags) (source target : Z) : Prog ubuf (ConversionResult * Z * Z) :=
  if negb (source <? sourceEnd) then pret (conversionOK, source, target)
  else
    match fuel with
    | O => fun _ => Hang
    | S fuel' =>
        r <- utf16_get src sourceEnd flags source ;;
        match r with
        | inl result => pret (result, source, target)
        | inr (ch, source') =>
            let '(n, ch) := bytesToWrite ch in
            match targetEnd with
            | Some e =>
                if e <? target + n then pret (targetExhausted, source, target)
                else
                  utf8_put n ch (target + n) ;;
                  utf16to8_loop fuel' src sourceEnd targetEnd flags source' (target + n)
            | None => utf16to8_loop fuel' src sourceEnd targetEnd flags source' (target + n)
            end
        end
    end.

Definition winpr_ConvertUTF16toUTF8_Internal (src : list Z) (sourceEnd : Z) (targetEnd : option Z)
    (flags : ConversionFlags) : Prog ubuf (ConversionResult * Z * Z) :=
  utf16to8_loop (Z.to_nat sourceEnd) src sourceEnd targetEnd flags 0 0.

(** ** UTF-8 to UTF-16 *)

Definition isLegalUTF8 (src : list Z) (source length : Z) : Prog ubuf bool :=
  if negb ((1 <=? length) && (length <=? 4)) then pret false
  else
    ok <- (if 4 <=? length then
             a <- plift (slot_get (source + 3) src) ;; pret (negb ((a <? 0x80) || (0xBF <? a)))
           else pret true) ;;
    if negb ok then pret false
    else
      ok <- (if 3 <=? length then
               a <- plift (slot_get (source + 2) src) ;; pret (negb ((a <? 0x80) || (0xBF <? a)))
             else pret true) ;;
      if negb ok then pret false
      else
        ok <- (if 2 <=? length then
                 a <- plift (slot_get (source + 1) src) ;;
                 if 0xBF <? a then pret false
                 else
                   c <- plift (slot_get source src) ;;
                   if c =? 0xE0 then pret (negb (a <? 0xA0))
                   else if c =? 0xED then pret (negb (0x9F <? a))
                   else if c =? 0xF0 then pret (negb (a <? 0x90))
                   else if c =? 0xF4 then pret (negb (0x8F <? a))
                   else pret (negb (a <? 0x80))
               else pret true) ;;
        if negb ok then pret false
        else
          c <- plift (slot_get source src) ;;
          if (0x80 <=? c) && (c <? 0xC2) then pret false
          else pret (negb (0xF4 <? c)).

(** [ch += *source++; ch <<= 6] for each trailing byte, then [ch += *source++]. *)
Fixpoint utf8_sum (k : nat) (src : list Z) (source ch : Z) : Prog ubuf Z :=
  b <- plift (slot_get source src) ;;
  let ch := u32 (ch + b) in
  match k with
  | O => pret ch
  | S k' => utf8_sum k' src (source + 1) (u32 (Z.shiftl ch 6))
  end.

(** [if (!computeLength) *target++ = v; else target++] *)
Definition utf16_put (targetEnd : option Z) (target v : Z) : Prog ubuf unit :=
  match targetEnd with Some _ => u_store target v | None => pret tt end.

Definition target_full (targetEnd : option Z) (target : Z) : bool :=
  match targetEnd with Some e => e <=? target | None => false end.

Fixpoint utf8to16_loop (fuel : nat) (src : list Z) (sourceEnd : Z) (targetEnd : option Z)
    (flags : ConversionFlags) (source target : Z) : Prog ubuf (ConversionResult * Z * Z) :=
  if negb (source <? sourceEnd) then pret (conversionOK, source, target)
  else
    match fuel with
    | O => fun _ => Hang
    | S fuel' =>
        c <- plift (slot_get source src) ;;
        let extra := znth trailingBytesForUTF8 c in
        if sourceEnd <=? source + extra then pret (sourceExhausted, source, target)
        else
          legal <- isLegalUTF8 src source (extra + 1) ;;
          if negb legal then pret (sourceIllegal, source, target)
          else
            ch <- utf8_sum (Z.to_nat extra) src source 0 ;;
            let ch := u32 (ch - znth offsetsFromUTF8 extra) in
            let next := utf8to16_loop fuel' src sourceEnd targetEnd flags (source + (extra + 1)) in
            if target_full targetEnd target then pret (targetExhausted, source, target)
            else if ch <=? UNI_MAX_BMP then
              if (UNI_SUR_HIGH_START <=? ch) && (ch <=? UNI_SUR_LOW_END) then
                if is_strict flags then pret (sourceIllegal, source, target)
                else utf16_put targetEnd target UNI_REPLACEMENT_CHAR ;; next (target + 1)
              else utf16_put targetEnd target (u16 ch) ;; next (target + 1)
            else if UNI_MAX_UTF16 <? ch then
              if is_strict flags then pret (sourceIllegal, source, target)
              else utf16_put targetEnd target UNI_REPLACEMENT_CHAR ;; next (target + 1)
            else if target_full targetEnd (target + 1) then pret (targetExhausted, source, target)
            else
              let ch := u32 (ch - halfBase) in
              utf16_put targetEnd target (u16 (Z.shiftr ch halfShift + UNI_SUR_HIGH_START)) ;;
              utf16_put targetEnd (target + 1) (u16 (Z.land ch halfMask + UNI_SUR_LOW_START)) ;;
              next (target + 2)
    end.

Definition winpr_ConvertUTF8toUTF16_Internal (src : list Z) (sourceEnd : Z) (targetEnd : option Z)
    (flags : ConversionFlags) : Prog ubuf (ConversionResult * Z * Z) :=
  utf8to16_loop (Z.to_nat sourceEnd) src sourceEnd targetEnd flags 0 0.

(** ** Strings *)

(** [strlen], [_wcslen]: the first NUL; an access past the memory if there is none. *)
Fixpoint c_strlen (src : list Z) : outcome Z :=
  match src with
  | [] => Abort
  | c :: src' => if c =? 0 then Ret 0 else
      match c_strlen src' with Ret n => Ret (n + 1) | Abort => Abort | Hang => Hang end
  end.

(** [strnlen], [_wcsnlen]: not more than [max] units are looked at. *)
Fixpoint c_strnlen (max : nat) (src : list Z) : outcome Z :=
  match max with
  | O => Ret 0
  | S max' =>
      match src with
      | [] => Abort
      | c :: src' => if c =? 0 then Ret 0 else
          match c_strnlen max' src' with Ret n => Ret (n + 1) | Abort => Abort | Hang => Hang end
      end
  end.

(** ** The interface *)

(** [targetExhausted] sets the last error; the length is returned as an [int]. *)
Definition conversion_status (r : ConversionResult * Z * Z) : Prog ubuf Z :=
  match r with
  | (targetExhausted, _, _) => SetLastError ERROR_INSUFFICIENT_BUFFER ;; pret 0
  | (conversionOK, _, length) => pret (i32 length)
  | (_, _, _) => pret 0
  end.

Definition winpr_ConvertUTF8toUTF16 (src : list Z) (cchSrc cchDst : Z) : Prog ubuf Z :=
  cchSrc <- (if cchSrc =? -1 then n <- plift (c_strlen src) ;; pret (i32 (n + 1)) else pret cchSrc) ;;
  r <- winpr_ConvertUTF8toUTF16_Internal src cchSrc
         (if cchDst =? 0 then None else Some cchDst) strictConversion ;;
  conversion_status r.

Definition winpr_ConvertUTF16toUTF8 (src : list Z) (cchSrc cchDst : Z) : Prog ubuf Z :=
  cchSrc <- (if cchSrc =? -1 then n <- plift (c_strlen src) ;; pret (i32 (n + 1)) else pret cchSrc) ;;
  r <- winpr_ConvertUTF16toUTF8_Internal src cchSrc
         (if cchDst =? 0 then None else Some cchDst) strictConversion ;;
  conversion_status r.

(** The memory behind a pointer that is not NULL. *)
Definition deref {A} (p : option A) : Prog ubuf A :=
  match p with Some a => pret a | None => fun _ => Abort end.

Definition CP_ACP : Z := 0.
Definition CP_UTF8 : Z := 65001.

Definition int_MultiByteToWideChar (CodePage : Z) (lpMultiByteStr : option (list Z))
    (cbMultiByte cchWideChar : Z) : Prog ubuf Z :=
  if (cbMultiByte =? 0) || (cbMultiByte <? -1) then pret 0
  else if cchWideChar <? 0 then pret (-1)
  else
    src <- deref lpMultiByteStr ;;
    n <- (if cbMultiByte <? 0 then
            len <- plift (c_strlen src) ;;
            if INT_MAX <=? len then pret None else pret (Some (len + 1))
          else pret (Some cbMultiByte)) ;;
    match n with
    | None => pret 0
    | Some cbCharLen =>
        if (CodePage =? CP_ACP) || (CodePage =? CP_UTF8)
        then winpr_ConvertUTF8toUTF16 src cbCharLen cchWideChar
        else pret 0
    end.

Definition int_WideCharToMultiByte (CodePage : Z) (lpWideCharStr : option (list Z))
    (cchWideChar cbMultiByte : Z) : Prog ubuf Z :=
  if (cchWideChar =? 0) || (cchWideChar <? -1) then pret 0
  else if cbMultiByte <? 0 then pret (-1)
  else
    src <- deref lpWideCharStr ;;
    n <- (if cchWideChar =? -1 then
            len <- plift (c_strlen src) ;;
            if INT_MAX <=? len then pret None else pret (Some (len + 1))
          else pret (Some cchWideChar)) ;;
    match n with
    | None => pret 0
    | Some cbCharLen => winpr_ConvertUTF16toUTF8 src cbCharLen cbMultiByte
    end.

(** ** The encodings *)

(** A Unicode scalar value. *)
Definition scalar (c : Z) : bool := (0 <=? c) && (c <? 0xD800) || (0xE000 <=? c) && (c <=? 0x10FFFF).

Definition enc16 (c : Z) : list Z :=
  if c <? 0x10000 then [c]
  else [0xD800 + (c - 0x10000) / 1024; 0xDC00 + (c - 0x10000) mod 1024].

Definition enc8 (c : Z) : list Z :=
  if c <? 0x80 then [c]
  else if c <? 0x800 then [0xC0 + c / 64; 0x80 + c mod 64]
  else if c <? 0x10000 then [0xE0 + c / 4096; 0x80 + c / 64 mod 64; 0x80 + c mod 64]
  else [0xF0 + c / 262144; 0x80 + c / 4096 mod 64; 0x80 + c / 64 mod 64; 0x80 + c mod 64].

(** The text of a list of characters. *)
Definition text (enc : Z -> list Z) (cs : list Z) : list Z := flat_map enc cs.

Ltac case_char :=
  repeat match goal with
  | |- context [if ?a <? ?b then _ else _] => destruct (a <? b) eqn:?
  | H : context [if ?a <? ?b then _ else _] |- _ => destruct (a <? b) eqn:?
  end.

Ltac char_lia := Z.div_mod_to_equations; lia.

Lemma enc16_pos c : 0 < zlen (enc16 c).
Proof. unfold enc16. by case_char. Qed.

Lemma enc8_pos c : 0 < zlen (enc8 c).
Proof. unfold enc8. by case_char. Qed.

Lemma text_cons enc c cs : text enc (c :: cs) = enc c ++ text enc cs.
Proof. done. Qed.

Lemma text_app enc cs cs' : text enc (cs ++ cs') = text enc cs ++ text enc cs'.
Proof. apply flat_map_app. Qed.

Lemma text_units enc w cs :
  (forall c, scalar c = true -> Forall (fun u => 0 <= u < 2 ^ w) (enc c)) ->
  Forall (fun c => scalar c = true) cs -> Forall (fun u => 0 <= u < 2 ^ w) (text enc cs).
Proof.
  intros He. induction 1 as [|c cs Hc _ IH]; [constructor|]. rewrite text_cons. apply Forall_app.
  split; [by apply He|done].
Qed.

Lemma enc16_units c : scalar c = true -> Forall (fun u => 0 <= u < 2 ^ 16) (enc16 c).
Proof. unfold scalar, enc16. intros Hc. case_char; repeat constructor; char_lia. Qed.

Lemma enc8_units c : scalar c = true -> Forall (fun u => 0 <= u < 2 ^ 8) (enc8 c).
Proof. unfold scalar, enc8. intros Hc. case_char; repeat constructor; char_lia. Qed.

(** ** Readers

    [reads l c]: the reader takes the units [l] for the character [c].  No sequence it takes is
    empty or the prefix of another one. *)
Class Reader (reads : list Z -> Z -> Prop) : Prop := {
  reads_inj l c l' c' s s' : reads l c -> reads l' c' -> l ++ s = l' ++ s' -> l = l' /\ c = c';
  reads_pos l c : reads l c -> 0 < zlen l
}.

Definition sequences (seqs : list (list Z * Z)) : list Z := concat (map fst seqs).
Definition all_read (reads : list Z -> Z -> Prop) (seqs : list (list Z * Z)) : Prop :=
  Forall (fun q => reads q.1 q.2) seqs.

Section readers.
Context (reads : list Z -> Z -> Prop) `{!Reader reads}.

(** No sequence stands at the front. *)
Definition stuck (s : list Z) : Prop := s <> [] /\ forall l c s', reads l c -> s <> l ++ s'.

(** Sequences that start with [qs] go on with sequences. *)
Lemma sequences_prefix qs0 qs rest :
  all_read reads qs0 -> all_read reads qs -> sequences qs0 = sequences qs ++ rest ->
  exists qs1, qs0 = qs ++ qs1 /\ rest = sequences qs1.
Proof.
  intros H0 H1. revert qs0 H0. induction H1 as [|[l c] qs Hc _ IH]; intros qs0 H0 E; [by exists qs0|].
  destruct H0 as [|[l0 c0] qs0 Hc0 H0].
  - exfalso. pose proof (reads_pos _ _ Hc). cbn in *. destruct l; [done|]. discriminate E.
  - unfold sequences in E. cbn in *. rewrite <- app_assoc in E.
    destruct (reads_inj _ _ _ _ _ _ Hc0 Hc E) as [-> ->]. apply app_inv_head in E.
    destruct (IH qs0 H0 E) as (qs1 & -> & ->). by exists qs1.
Qed.

Lemma sequences_not_stuck qs : all_read reads qs -> ~ stuck (sequences qs).
Proof. intros [|[l c] qs' Hc _] [Hne Hs]; [done|]. by eapply Hs. Qed.

Lemma sequences_nil qs : all_read reads qs -> sequences qs = [] -> qs = [].
Proof.
  intros [|[l c] qs' Hc _] E; [done|]. pose proof (reads_pos _ _ Hc). cbn in *. by destruct l.
Qed.
End readers.

(** ** What a conversion does *)

(** [n] more units fit behind [target]. *)
Definition fits (targetEnd : option Z) (target n : Z) : Prop :=
  match targetEnd with Some e => target + n <= e | None => True end.

(** The target buffer reaches to its end. *)
Definition target_ok (targetEnd : option Z) (st : ubuf) : Prop :=
  match targetEnd with
  | Some e => exists d, u_dst st = Some d /\ e <= zlen d
  | None => True
  end.

Definition u_write (targetEnd : option Z) (target : Z) (us : list Z) (st : ubuf) : ubuf :=
  match targetEnd, u_dst st with
  | Some _, Some d => mkUbuf (Some (splice target us d)) (u_error st)
  | _, _ => st
  end.

Lemma u_write_nil te t st : 0 <= t -> u_write te t [] st = st.
Proof.
  intros Ht. unfold u_write. destruct te; [|done]. destruct st as [[d|] e]; [|done]. cbn. do 2 f_equal.
  unfold splice. cbn. rewrite zlen_nil, Z.add_0_r. apply ztake_zdrop_app.
Qed.

Lemma u_write_app te t a b st :
  target_ok te st -> 0 <= t -> fits te t (zlen a + zlen b) ->
  u_write te (t + zlen a) b (u_write te t a st) = u_write te t (a ++ b) st.
Proof.
  intros Hok Ht Hf. unfold u_write. destruct te as [e|]; [|done]. destruct Hok as (d & Hd & He).
  rewrite !Hd. cbn in *. by rewrite splice_splice by lia.
Qed.

Lemma u_write_ok te t a st :
  target_ok te st -> 0 <= t -> fits te t (zlen a) -> target_ok te (u_write te t a st).
Proof.
  intros Hok Ht Hf. unfold u_write. destruct te as [e|]; [|done]. destruct Hok as (d & Hd & He).
  rewrite Hd. cbn in *. eexists. split; [done|]. by rewrite zlen_splice by lia.
Qed.

Lemma u_store_run e t v st :
  target_ok (Some e) st -> 0 <= t < e -> u_store t v st = Ret (tt, u_write (Some e) t [v] st).
Proof.
  intros (d & Hd & He) Ht. unfold u_store, u_write. rewrite pbind_pget, !Hd.
  by rewrite slot_set_run, pbind_plift by lia.
Qed.

(** A run over the source [s]: the sequences [qs] at its front were converted, and the
    conversion stopped at [rest] because of [res]. *)
Definition converts (reads : list Z -> Z -> Prop) (enc : Z -> list Z) (s : list Z) (te : option Z)
    (t : Z) (st : ubuf) (res : ConversionResult) (read t' : Z) (st' : ubuf) : Prop :=
  exists qs rest, all_read reads qs /\ s = sequences qs ++ rest /\
    read = zlen (sequences qs) /\ t' = t + zlen (text enc (map snd qs)) /\
    fits te t (zlen (text enc (map snd qs))) /\ st' = u_write te t (text enc (map snd qs)) st /\
    match res with
    | conversionOK => rest = []
    | targetExhausted =>
        exists l c rest', reads l c /\ rest = l ++ rest' /\ ~ fits te t' (zlen (enc c))
    | sourceExhausted | sourceIllegal => stuck reads rest
    end.

(** Of the two errors of the source, [sourceExhausted] is for a [rest] that was cut [short]. *)
Definition stops_for (short : list Z -> Prop) (res : ConversionResult) (rest : list Z) : Prop :=
  match res with
  | sourceExhausted => short rest
  | sourceIllegal => ~ short rest
  | conversionOK | targetExhausted => True
  end.

Lemma stops_for_next short reads enc res l s te t st read t' st' :
  converts reads enc s te t st res read t' st' ->
  stops_for short res (zdrop read s) -> stops_for short res (zdrop (zlen l + read) (l ++ s)).
Proof.
  intros (qs & rest & _ & _ & -> & _). pose proof (zlen_nonneg (sequences qs)). pose proof (zlen_nonneg l).
  rewrite zdrop_app, (zdrop_all (zlen l + _)), app_nil_l by lia.
  by replace (zlen l + zlen (sequences qs) - zlen l) with (zlen (sequences qs)) by lia.
Qed.

(** Readers that take the same sequences convert alike. *)
Lemma converts_iff reads reads' enc s te t st res read t' st' :
  (forall l c, reads l c <-> reads' l c) ->
  converts reads enc s te t st res read t' st' -> converts reads' enc s te t st res read t' st'.
Proof.
  intros Hiff (qs & rest & Hqs & Hs & Hr & Ht & Hf & Hst & Hres). exists qs, rest.
  split_and!; [|done..|].
  { eapply Forall_impl; [exact Hqs|]. intros q Hq. by apply Hiff. }
  destruct res; [done|..].
  2: { destruct Hres as (l & c & rest' & Hc & Hx). exists l, c, rest'. split; [by apply Hiff|done]. }
  all: destruct Hres as [Hne Hno]; split; [done|]; intros l c s' Hc; apply (Hno l c s'); by apply Hiff.
Qed.

Section runs.
Context (reads : list Z -> Z -> Prop) (enc : Z -> list Z) `{!Reader reads}.

Lemma converts_stop s te t st res :
  0 <= t -> fits te t 0 ->
  match res with
  | conversionOK => s = []
  | targetExhausted => exists l c s', reads l c /\ s = l ++ s' /\ ~ fits te t (zlen (enc c))
  | sourceExhausted | sourceIllegal => stuck reads s
  end -> converts reads enc s te t st res 0 t st.
Proof.
  intros Ht Hf Hr. exists [], s. cbn [map].
  change (sequences []) with (@nil Z). change (text enc []) with (@nil Z).
  change (zlen (@nil Z)) with 0. rewrite (Z.add_0_r t), (u_write_nil te t st Ht).
  split_and!; try done. constructor.
Qed.

Lemma converts_next l c s te t st res read t' st' :
  reads l c -> 0 <= t -> target_ok te st ->
  converts reads enc s te (t + zlen (enc c)) (u_write te t (enc c) st) res read t' st' ->
  converts reads enc (l ++ s) te t st res (zlen l + read) t' st'.
Proof.
  intros Hc Ht Hok (qs & rest & Hqs & -> & -> & -> & Hf & -> & Hres).
  exists ((l, c) :: qs), rest. cbn [map snd]. rewrite !text_cons, !zlen_app.
  change (sequences ((l, c) :: qs)) with (l ++ sequences qs). rewrite zlen_app.
  assert (Hf' : fits te t (zlen (enc c) + zlen (text enc (map snd qs)))).
  { unfold fits in *. destruct te; [lia|done]. }
  split_and!; [by constructor|by rewrite app_assoc|done|lia|done|by rewrite u_write_app|].
  destruct res; try done.
Qed.

(** Over sequences the run is complete unless the target is too small. *)
Lemma converts_all qs te t st res read t' st' :
  all_read reads qs -> converts reads enc (sequences qs) te t st res read t' st' ->
  let out := text enc (map snd qs) in
  (res = conversionOK /\ read = zlen (sequences qs) /\ t' = t + zlen out /\ fits te t (zlen out) /\
     st' = u_write te t out st) \/
  (res = targetExhausted /\ ~ fits te t (zlen out) /\
     exists us, st' = u_write te t us st /\ fits te t (zlen us)).
Proof.
  intros Hqs (qs' & rest & Hqs' & E & -> & -> & Hf & -> & Hres).
  destruct (sequences_prefix reads qs qs' rest Hqs Hqs' E) as (qs1 & -> & ->).
  apply Forall_app in Hqs as [_ Hqs1]. pose proof (sequences_not_stuck reads qs1 Hqs1) as Hns. cbv zeta.
  destruct res; [left|done| |done].
  - apply (sequences_nil reads) in Hres; [|done]. subst qs1. by rewrite !app_nil_r.
  - right. split; [done|]. split; [|by eexists]. destruct Hres as (l & c & rest' & Hc & Hr & Hnf).
    intros Hfit. apply Hnf. rewrite map_app, text_app, zlen_app in Hfit.
    destruct Hqs1 as [|[l1 c1] qs1 Hc1 _].
    { pose proof (reads_pos _ _ Hc). cbn in Hr. by destruct l. }
    destruct (reads_inj _ _ _ _ _ _ Hc1 Hc Hr) as [_ Ec]. cbn in Ec. subst c1.
    cbn [map snd] in Hfit. rewrite text_cons, zlen_app in Hfit. pose proof (zlen_nonneg (text enc (map snd qs1))).
    unfold fits in *. destruct te; [lia|done].
Qed.
End runs.

(** ** UTF-16 to UTF-8 *)

Lemma slot_get_at pre u post i : i = zlen pre -> slot_get i (pre ++ u :: post) = Ret u.
Proof.
  intros ->. pose proof (zlen_nonneg pre). pose proof (zlen_nonneg post).
  rewrite slot_get_run by (rewrite zlen_app, zlen_cons; lia). rewrite znth_app, Z.ltb_irrefl, Z.sub_diag. done.
Qed.

Lemma slot_get_at1 pre u v post i : i = zlen pre + 1 -> slot_get i (pre ++ u :: v :: post) = Ret v.
Proof.
  intros ->. change (u :: v :: post) with ([u] ++ v :: post). rewrite app_assoc.
  apply slot_get_at. by rewrite zlen_app.
Qed.

Lemma enc16_bmp u : is_high u = false -> is_low u = false -> 0 <= u < 2 ^ 16 ->
  scalar u = true /\ enc16 u = [u].
Proof.
  unfold is_high, is_low, scalar, enc16, UNI_SUR_HIGH_START, UNI_SUR_HIGH_END, UNI_SUR_LOW_START, UNI_SUR_LOW_END.
  intros. case_char; [|lia]. split; [lia|done].
Qed.

Lemma enc16_pair u v : is_high u = true -> is_low v = true ->
  let c := Z.shiftl (u - UNI_SUR_HIGH_START) halfShift + (v - UNI_SUR_LOW_START) + halfBase in
  scalar c = true /\ enc16 c = [u; v].
Proof.
  unfold is_high, is_low, scalar, enc16, UNI_SUR_HIGH_START, UNI_SUR_HIGH_END, UNI_SUR_LOW_START,
    UNI_SUR_LOW_END, halfShift, halfBase. intros Hu Hv. cbv zeta. rewrite Z.shiftl_mul_pow2 by lia.
  case_char; [lia|]. split; [lia|]. do 2 f_equal; [|f_equal]; char_lia.
Qed.

Definition reads16 (l : list Z) (c : Z) : Prop := scalar c = true /\ l = enc16 c.

#[global] Instance reader16 : Reader reads16.
Proof.
  split.
  - intros l c l' c' s s' [Hc ->] [Hc' ->] E. unfold scalar, enc16 in *.
    case_char; cbn in E; injection E; intros; subst;
      first [split; [repeat f_equal; char_lia|char_lia] | exfalso; char_lia].
  - intros l c [_ ->]. apply enc16_pos.
Qed.

(** A high surrogate, and nothing behind it. *)
Definition short16 (s : list Z) : Prop := exists u, s = [u] /\ is_high u = true.

(** An unpaired surrogate. *)
Lemma stuck16 u s :
  is_high u = true \/ is_low u = true -> (is_high u = true -> forall v s', s = v :: s' -> is_low v = false) ->
  stuck reads16 (u :: s).
Proof.
  unfold is_high, is_low, UNI_SUR_HIGH_START, UNI_SUR_HIGH_END, UNI_SUR_LOW_START, UNI_SUR_LOW_END.
  intros Hu Hs. split; [done|]. intros l c s' [Hc ->] E. unfold scalar, enc16 in *. case_char.
  - injection E as -> _. lia.
  - cbn in E. injection E as Eu Es.
    assert (Hh : (55296 <=? u) && (u <=? 56319) = true) by char_lia. specialize (Hs Hh _ _ Es). char_lia.
Qed.

Lemma utf16_get_spec pre s post st :
  s <> [] -> Forall (fun u => 0 <= u < 2 ^ 16) s ->
  (exists c s', scalar c = true /\ s = enc16 c ++ s' /\
     utf16_get (pre ++ s ++ post) (zlen pre + zlen s) strictConversion (zlen pre) st =
     Ret (inr (c, zlen pre + zlen (enc16 c)), st)) \/
  (exists e, (e = sourceIllegal /\ ~ short16 s \/ e = sourceExhausted /\ short16 s) /\ stuck reads16 s /\
     utf16_get (pre ++ s ++ post) (zlen pre + zlen s) strictConversion (zlen pre) st = Ret (inl e, st)).
Proof.
  intros Hne Hu. destruct s as [|u s]; [done|]. apply Forall_cons in Hu as [Hu Hs].
  unfold utf16_get. cbn [app]. rewrite slot_get_at, pbind_plift by done. rewrite zlen_cons.
  destruct (is_high u) eqn:Eh.
  - destruct s as [|v s].
    + right. exists sourceExhausted. rewrite zlen_nil.
      replace (zlen pre + 1 <? zlen pre + (1 + 0)) with false by lia.
      split_and!; [right; split; [done|by exists u]| |done]. apply stuck16; [by left|done].
    + pose proof (zlen_nonneg s). rewrite zlen_cons.
      replace (zlen pre + 1 <? _) with true by lia. cbn [app]. rewrite slot_get_at1, pbind_plift by done.
      destruct (is_low v) eqn:El.
      * left. destruct (enc16_pair u v Eh El) as [Hc He]. eexists _, s. split; [exact Hc|].
        rewrite He. split; done.
      * right. exists sourceIllegal. split_and!; [left; split; [done|by intros (? & ? & _)]| |done]. apply stuck16; [by left|].
        intros _ v' s' [= -> ->]. done.
  - cbn [is_strict andb]. destruct (is_low u) eqn:El.
    + right. exists sourceIllegal. split_and!; [left; split; [done|intros (? & [= <- _] & ?); congruence]| |done]. apply stuck16; [by right|congruence].
    + left. destruct (enc16_bmp u Eh El Hu) as [Hc He]. exists u, s. rewrite He. done.
Qed.

(** A continuation byte, a first byte. *)
Lemma trailing_byte ch : u8 (Z.land (Z.lor ch 0x80) 0xBF) = 0x80 + ch mod 64.
Proof.
  change 0xBF with (Z.land 255 191). rewrite Z.land_assoc, Z.land_lor_distr_l, land_255.
  change (Z.land 128 255) with 128.
  replace (ch mod 64) with ((ch mod 256) mod 64) by char_lia.
  pose proof (Z.mod_pos_bound ch 256 ltac:(lia)) as Hb. apply Z.eqb_eq.
  exact (range_forall (fun x => u8 (Z.land (Z.lor x 128) 191) =? 128 + x mod 64) 256 (ch mod 256) Hb eq_refl).
Qed.

Lemma first_byte n ch :
  (n = 2 /\ 0 <= ch < 32) \/ (n = 3 /\ 0 <= ch < 16) \/ (n = 4 /\ 0 <= ch < 8) ->
  u8 (Z.lor ch (znth firstByteMark n)) = znth firstByteMark n + ch.
Proof.
  intros [[-> H]|[[-> H]|[-> H]]]; apply Z.eqb_eq.
  - exact (range_forall (fun x => u8 (Z.lor x 192) =? 192 + x) 32 ch H eq_refl).
  - exact (range_forall (fun x => u8 (Z.lor x 224) =? 224 + x) 16 ch H eq_refl).
  - exact (range_forall (fun x => u8 (Z.lor x 240) =? 240 + x) 8 ch H eq_refl).
Qed.

Lemma u_write_before e t a v st :
  target_ok (Some e) st -> 0 <= t -> t + 1 + zlen a <= e ->
  u_write (Some e) t [v] (u_write (Some e) (t + 1) a st) = u_write (Some e) t (v :: a) st.
Proof.
  intros (d & Hd & He) Ht Hf. unfold u_write. rewrite !Hd. cbn. do 2 f_equal. pose proof (zlen_nonneg a).
  zsplit_as t d as (d0 & d1 & -> & Hd0 & Hd1). rewrite zlen_app in *.
  destruct d1 as [|x d1]; [rewrite zlen_nil in *; lia|]. rewrite zlen_cons in *.
  zsplit_as (zlen a) d1 as (a' & d2 & -> & Ha & Hd2).
  pose proof (splice_app (d0 ++ [x]) a a' d2 (t + 1)) as E1. rewrite <- !app_assoc in E1. cbn [app] in E1.
  rewrite E1 by (rewrite ?zlen_app, ?zlen_cons, ?zlen_nil; lia).
  pose proof (splice_app d0 [v] [x] (a ++ d2) t) as E2. cbn [app] in E2. rewrite E2 by (done || lia).
  pose proof (splice_app d0 (v :: a) (x :: a') d2 t) as E3. cbn [app] in E3.
  rewrite E3 by (rewrite ?zlen_cons; lia). done.
Qed.

(** [k] continuation bytes. *)
Fixpoint trailing (k : nat) (ch : Z) : list Z :=
  match k with O => [] | S k' => trailing k' (ch / 64) ++ [0x80 + ch mod 64] end.

Lemma put_trailing_run e k ch t l st :
  target_ok (Some e) st -> 0 <= t - Z.of_nat k -> t + zlen l <= e ->
  put_trailing k ch t (u_write (Some e) t l st) =
    Ret ((ch / 64 ^ Z.of_nat k, t - Z.of_nat k),
         u_write (Some e) (t - Z.of_nat k) (trailing k ch ++ l) st).
Proof.
  revert ch t l. induction k as [|k IH]; intros ch t l Hok Ht Hl; pose proof (zlen_nonneg l).
  - cbn. by rewrite Z.div_1_r, Z.sub_0_r.
  - cbn [put_trailing]. rewrite (pbind_ret _ _ _ _ _ (u_store_run e (t - 1) _ _
      (u_write_ok (Some e) t l st Hok ltac:(lia) Hl) ltac:(lia))).
    rewrite trailing_byte. replace (u_write (Some e) t l st) with (u_write (Some e) (t - 1 + 1) l st) by (f_equal; lia).
    rewrite u_write_before by (done || lia). rewrite IH by (rewrite ?zlen_cons; (done || lia)).
    rewrite Z.shiftr_div_pow2 by lia. cbn [trailing]. rewrite <- app_assoc. cbn [app].
    change (2 ^ 6) with 64. rewrite Nat2Z.inj_succ, Z.pow_succ_r, Zdiv_Zdiv by lia.
    by replace (t - 1 - Z.of_nat k) with (t - Z.succ (Z.of_nat k)) by lia.
Qed.

(** The bytes of a character in place. *)
Lemma utf8_put_run e n ch t st :
  target_ok (Some e) st -> 0 <= t -> 1 <= n -> t + n <= e ->
  utf8_put n ch (t + n) st =
    Ret (tt, u_write (Some e) t
               (u8 (Z.lor (ch / 64 ^ (n - 1)) (znth firstByteMark n)) :: trailing (Z.to_nat (n - 1)) ch) st).
Proof.
  intros Hok Ht Hn Hf. unfold utf8_put.
  pose proof (put_trailing_run e (Z.to_nat (n - 1)) ch (t + n) [] st Hok ltac:(lia)) as Hp.
  rewrite zlen_nil, u_write_nil, app_nil_r, Z2Nat.id in Hp by lia.
  rewrite (pbind_ret _ _ _ _ _ (Hp ltac:(lia))). cbn [fst snd].
  replace (t + n - (n - 1)) with (t + 1) by lia. replace (t + 1 - 1) with t by lia.
  assert (Hz : forall k c, zlen (trailing k c) = Z.of_nat k).
  { induction k as [|k IH]; intros c; [done|]. cbn [trailing]. rewrite zlen_app, IH, zlen_cons, zlen_nil. lia. }
  rewrite (u_store_run e t) by ((apply u_write_ok; [done|lia|unfold fits; rewrite Hz; lia]) || lia).
  by rewrite u_write_before by (rewrite ?Hz; (done || lia)).
Qed.

Lemma bytesToWrite_spec c :
  scalar c = true ->
  bytesToWrite c = (zlen (enc8 c), c) /\
  u8 (Z.lor (c / 64 ^ (zlen (enc8 c) - 1)) (znth firstByteMark (zlen (enc8 c)))) ::
    trailing (Z.to_nat (zlen (enc8 c) - 1)) c = enc8 c.
Proof.
  unfold scalar, bytesToWrite, enc8. intros Hc. case_char; try lia; (split; [done|]).
  - change (zlen [c]) with 1. cbn. rewrite Z.div_1_r, Z.lor_0_r. f_equal. apply u8_id. unfold is_byte. lia.
  - change (zlen [_; _]) with 2. rewrite first_byte by char_lia. done.
  - change (zlen [_; _; _]) with 3. rewrite first_byte by char_lia. done.
  - change (zlen [_; _; _; _]) with 4. rewrite first_byte by char_lia.
    change (trailing (Z.to_nat (4 - 1)) c) with [0x80 + c / 64 / 64 mod 64; 0x80 + c / 64 mod 64; 0x80 + c mod 64].
    by rewrite Zdiv_Zdiv by lia.
Qed.

Lemma utf16to8_run fuel pre s post te t st :
  Forall (fun u => 0 <= u < 2 ^ 16) s -> (length s <= fuel)%nat -> 0 <= t -> target_ok te st -> fits te t 0 ->
  exists res read t' st',
    utf16to8_loop fuel (pre ++ s ++ post) (zlen pre + zlen s) te strictConversion (zlen pre) t st =
      Ret ((res, zlen pre + read, t'), st') /\ converts reads16 enc8 s te t st res read t' st' /\
      stops_for short16 res (zdrop read s).
Proof.
  revert pre s t st. induction fuel as [|fuel IH]; intros pre s t st Hs Hf Ht Hok Hfit.
  - destruct s; [|cbn in Hf; lia]. exists conversionOK, 0, t, st. cbn [utf16to8_loop].
    rewrite zlen_nil, Z.add_0_r, Z.ltb_irrefl. split; [done|]. split; [|done]. by apply converts_stop.
  - cbn [utf16to8_loop]. destruct s as [|u s0] eqn:Es.
    { exists conversionOK, 0, t, st. rewrite zlen_nil, Z.add_0_r, Z.ltb_irrefl. split; [done|]. split; [|done]. by apply converts_stop. }
    rewrite <- Es in *. assert (Hne : s <> []) by (by subst).
    assert (Hp : 0 < zlen s) by (subst; rewrite zlen_cons; pose proof (zlen_nonneg s0); lia). clear Es u s0.
    replace (zlen pre <? zlen pre + zlen s) with true by lia. cbn [negb].
    destruct (utf16_get_spec pre s post st Hne Hs) as [(c & s' & Hc & -> & Hg)|(e & He & Hst & Hg)];
      rewrite (pbind_ret _ _ _ _ _ Hg).
    2: { exists e, 0, t, st. rewrite Z.add_0_r. split; [done|].
         split; [apply converts_stop; try done; by destruct He as [[-> _] | [-> _]]|]. rewrite zdrop_0 by done. by destruct He as [[-> ?] | [-> ?]]. }
    destruct (bytesToWrite_spec c Hc) as [Hb He8]. rewrite Hb.
    pose proof (enc8_pos c) as Hp8. pose proof (enc16_pos c) as Hp16.
    apply Forall_app in Hs as [_ Hs'].
    assert (Hstep : fits te t (zlen (enc8 c)) -> exists res read t' st',
      utf16to8_loop fuel (pre ++ (enc16 c ++ s') ++ post) (zlen pre + zlen (enc16 c ++ s')) te strictConversion
        (zlen pre + zlen (enc16 c)) (t + zlen (enc8 c)) (u_write te t (enc8 c) st) = Ret ((res, zlen pre + read, t'), st') /\
      converts reads16 enc8 (enc16 c ++ s') te t st res read t' st' /\ stops_for short16 res (zdrop read (enc16 c ++ s'))).
    { intros Hfc. destruct (IH (pre ++ enc16 c) s' (t + zlen (enc8 c)) (u_write te t (enc8 c) st))
        as (res & read & t' & st' & Hr & Hcv & Hwhy); [done| |lia|by apply u_write_ok| |].
      - rewrite length_app in Hf. unfold zlen in Hp16. lia.
      - unfold fits in *. destruct te; [lia|done].
      - exists res, (zlen (enc16 c) + read), t', st'. split; [|split; [by apply (converts_next reads16 enc8 (enc16 c) c)|by eapply stops_for_next]].
        rewrite !zlen_app, <- !app_assoc, <- !Z.add_assoc in Hr. rewrite !zlen_app, <- !app_assoc. exact Hr. }
    destruct te as [e|].
    + case_if.
      * exists targetExhausted, 0, t, st. rewrite Z.add_0_r. split; [done|]. split; [|done]. apply converts_stop; try done.
        exists (enc16 c), c, s'. split_and!; [done|done|cbn; lia].
      * rewrite (pbind_ret _ _ _ _ _ (utf8_put_run e (zlen (enc8 c)) c t st Hok Ht ltac:(lia) ltac:(lia))), He8. by apply Hstep.
    + by apply Hstep.
Qed.

(** ** UTF-8 to UTF-16 *)

Lemma slot_get_in pre l post k i :
  0 <= k < zlen l -> i = zlen pre + k -> slot_get i (pre ++ l ++ post) = Ret (znth l k).
Proof.
  intros Hk ->. pose proof (zlen_nonneg pre). pose proof (zlen_nonneg post).
  rewrite slot_get_run by (rewrite !zlen_app; lia). rewrite !znth_app.
  replace (zlen pre + k <? zlen pre) with false by lia.
  replace (zlen pre + k - zlen pre) with k by lia. by replace (k <? zlen l) with true by lia.
Qed.

(** How many bytes follow a first byte. *)
Definition extra_bytes (b : Z) : Z :=
  if b <? 192 then 0 else if b <? 224 then 1 else if b <? 240 then 2 else if b <? 248 then 3
  else if b <? 252 then 4 else 5.

Lemma trailingBytes_spec b : 0 <= b < 2 ^ 8 -> znth trailingBytesForUTF8 b = extra_bytes b.
Proof.
  intros Hb. apply Z.eqb_eq.
  exact (range_forall (fun b => znth trailingBytesForUTF8 b =? extra_bytes b) 256 b Hb ltac:(vm_compute; reflexivity)).
Qed.

(** The legality test on the bytes of a sequence. *)
Definition legal_first (c : Z) : bool := if (0x80 <=? c) && (c <? 0xC2) then false else negb (0xF4 <? c).
Definition legal_second (c a : Z) : bool :=
  if 0xBF <? a then false
  else if c =? 0xE0 then negb (a <? 0xA0)
  else if c =? 0xED then negb (0x9F <? a)
  else if c =? 0xF0 then negb (a <? 0x90)
  else if c =? 0xF4 then negb (0x8F <? a)
  else negb (a <? 0x80).
Definition legal_more (a : Z) : bool := negb ((a <? 0x80) || (0xBF <? a)).
Definition legal_seq (l : list Z) : bool :=
  match l with
  | [c] => legal_first c
  | [c; a] => legal_second c a && legal_first c
  | [c; a; b] => legal_more b && legal_second c a && legal_first c
  | [c; a; b; d] => legal_more d && legal_more b && legal_second c a && legal_first c
  | _ => false
  end.

(** The value of a sequence. *)
Definition seq_value (l : list Z) : Z :=
  match l with
  | [c] => c
  | [c; a] => (c - 0xC0) * 64 + (a - 0x80)
  | [c; a; b] => ((c - 0xE0) * 64 + (a - 0x80)) * 64 + (b - 0x80)
  | [c; a; b; d] => (((c - 0xF0) * 64 + (a - 0x80)) * 64 + (b - 0x80)) * 64 + (d - 0x80)
  | _ => 0
  end.

Ltac split_ifs :=
  repeat match goal with
  | H : context [if ?b then _ else _] |- _ => destruct b eqn:?
  | |- context [if ?b then _ else _] => destruct b eqn:?
  end.

(** Sequences whose second byte is below 0x80, which the test lets pass after 0xED and 0xF4. *)
Definition loose (l : list Z) : bool :=
  match l with
  | c :: a :: _ => ((c =? 0xED) || (c =? 0xF4)) && (a <? 0x80)
  | _ => false
  end.

Lemma legal_value c l :
  Forall (fun u => 0 <= u < 2 ^ 8) (c :: l) -> zlen l = extra_bytes c -> legal_seq (c :: l) = true ->
  scalar (seq_value (c :: l)) = true /\ (loose (c :: l) = false -> enc8 (seq_value (c :: l)) = c :: l).
Proof.
  unfold extra_bytes, scalar, enc8. intros Hb Hl Hlegal. apply Forall_cons in Hb as [Hc Hb].
  destruct l as [|a [|b [|d [|? ?]]]]; try discriminate;
    rewrite ?zlen_cons, ?(zlen_nil (A := Z)) in Hl;
    repeat match goal with H : Forall _ (_ :: _) |- _ => apply Forall_cons in H as [? ?] end;
    unfold legal_seq, legal_first, legal_second, legal_more in Hlegal; cbn [seq_value]; unfold loose.
  - split_ifs; try lia. split; [lia|done].
  - split_ifs; try lia; (split; [lia|]); intros Hlo; repeat f_equal; char_lia.
  - split_ifs; try lia; (split; [lia|]); intros Hlo; repeat f_equal; char_lia.
  - split_ifs; try lia; (split; [lia|]); intros Hlo; repeat f_equal; char_lia.
Qed.

Lemma enc8_legal c :
  scalar c = true ->
  legal_seq (enc8 c) = true /\ seq_value (enc8 c) = c /\ extra_bytes (znth (enc8 c) 0) + 1 = zlen (enc8 c).
Proof.
  unfold scalar, enc8. intros Hc. case_char.
  - change (znth [c] 0) with c. unfold legal_seq, legal_first, seq_value, extra_bytes. 
    split_and!; [split_ifs; lia|done|split_ifs; try lia; done].
  - change (znth (?x :: _) 0) with x. unfold legal_seq, legal_first, legal_second, legal_more, seq_value, extra_bytes.
    split_and!; [split_ifs; char_lia|char_lia|split_ifs; try char_lia; done].
  - change (znth (?x :: _) 0) with x. unfold legal_seq, legal_first, legal_second, legal_more, seq_value, extra_bytes.
    split_and!; [split_ifs; char_lia|char_lia|split_ifs; try char_lia; done].
  - change (znth (?x :: _) 0) with x. unfold legal_seq, legal_first, legal_second, legal_more, seq_value, extra_bytes.
    split_and!; [split_ifs; char_lia|char_lia|split_ifs; try char_lia; done].
Qed.

Lemma isLegalUTF8_run pre l post st :
  0 < zlen l -> isLegalUTF8 (pre ++ l ++ post) (zlen pre) (zlen l) st = Ret (legal_seq l, st).
Proof.
  intros Hl.
  assert (Hg : forall k, 0 <= k < zlen l -> slot_get (zlen pre + k) (pre ++ l ++ post) = Ret (znth l k))
    by (intros; by apply slot_get_in).
  assert (H0 : slot_get (zlen pre) (pre ++ l ++ post) = Ret (znth l 0)) by (apply slot_get_in; lia).
  unfold isLegalUTF8.
  destruct l as [|c [|a [|b [|d [|x l]]]]]; [by inversion Hl| | | | |].
  5: { rewrite !zlen_cons in *. pose proof (zlen_nonneg l). by replace ((1 <=? _) && _) with false by lia. }
  all: unfold legal_seq, legal_first, legal_second, legal_more, pbind, plift, pret.
  - change (zlen [c]) with 1 in *. change (znth [c] 0) with c in H0. rewrite H0. cbn. by repeat case_match.
  - change (zlen [c; a]) with 2 in *. change (znth [c; a] 0) with c in H0.
    pose proof (Hg 1 ltac:(lia)) as H1. change (znth [c; a] 1) with a in H1.
    rewrite H0, H1. cbn. repeat case_match; simplify_eq; do 2 f_equal; lia.
  - change (zlen [c; a; b]) with 3 in *. change (znth [c; a; b] 0) with c in H0.
    pose proof (Hg 1 ltac:(lia)) as H1. change (znth [c; a; b] 1) with a in H1.
    pose proof (Hg 2 ltac:(lia)) as H2. change (znth [c; a; b] 2) with b in H2.
    rewrite H0, H1, H2. cbn. repeat case_match; simplify_eq; do 2 f_equal; lia.
  - change (zlen [c; a; b; d]) with 4 in *. change (znth [c; a; b; d] 0) with c in H0.
    pose proof (Hg 1 ltac:(lia)) as H1. change (znth [c; a; b; d] 1) with a in H1.
    pose proof (Hg 2 ltac:(lia)) as H2. change (znth [c; a; b; d] 2) with b in H2.
    pose proof (Hg 3 ltac:(lia)) as H3. change (znth [c; a; b; d] 3) with d in H3.
    rewrite H0, H1, H2, H3. cbn. repeat case_match; simplify_eq; do 2 f_equal; lia.
Qed.

(** The sequences that the decoder takes: those the legality test lets pass. *)
Definition reads8 (l : list Z) (c : Z) : Prop :=
  Forall (fun u => 0 <= u < 2 ^ 8) l /\ legal_seq l = true /\ c = seq_value l /\
  exists c0 l', l = c0 :: l' /\ zlen l' = extra_bytes c0.

Lemma app_same_length {A} (l l' s s' : list A) : zlen l = zlen l' -> l ++ s = l' ++ s' -> l = l'.
Proof. intros Hl E. apply app_inj_1 in E as [-> _]; [done|unfold zlen in Hl; lia]. Qed.

#[global] Instance reader8 : Reader reads8.
Proof.
  split.
  - intros l c l' c' s s' (_ & _ & -> & c0 & r & -> & Hr) (_ & _ & -> & c0' & r' & -> & Hr') E.
    injection E as <- E. rewrite <- Hr in Hr'. apply app_same_length in E; [by subst r'|done].
  - intros l c (_ & _ & _ & c0 & r & -> & _). rewrite zlen_cons. pose proof (zlen_nonneg r). lia.
Qed.

Lemma reads8_scalar l c : reads8 l c -> scalar c = true /\ (loose l = false -> l = enc8 c).
Proof.
  intros (Hb & Hl & -> & c0 & r & -> & Hr). destruct (legal_value c0 r Hb Hr Hl) as [Hs He].
  split; [done|]. intros Hlo. by rewrite He.
Qed.

Lemma reads8_enc c : scalar c = true -> reads8 (enc8 c) c.
Proof.
  intros Hc. destruct (enc8_legal c Hc) as (Hl & Hv & He). split_and!; [by apply enc8_units|done|done|].
  destruct (enc8 c) as [|c0 l] eqn:E; [pose proof (enc8_pos c) as Hp; by rewrite E in Hp|].
  exists c0, l. change (znth (c0 :: l) 0) with c0 in He. rewrite zlen_cons in He. split; [done|lia].
Qed.

(** What the decoder takes for the character [c]: its UTF-8 encoding, or one of the sequences of the
    gap in the legality test, 0xED or 0xF4 with a byte below 0x80 and then continuation bytes. *)
Definition loose8 (l : list Z) (c : Z) : Prop :=
  (exists a b, 0 <= a < 0x80 /\ 0x80 <= b < 0xC0 /\ l = [0xED; a; b] /\
     c = 0xD000 + (a - 0x80) * 64 + (b - 0x80)) \/
  (exists a b d, 0 <= a < 0x80 /\ 0x80 <= b < 0xC0 /\ 0x80 <= d < 0xC0 /\ l = [0xF4; a; b; d] /\
     c = 0x100000 + (a - 0x80) * 4096 + (b - 0x80) * 64 + (d - 0x80)).

Definition char8 (l : list Z) (c : Z) : Prop := scalar c = true /\ l = enc8 c \/ loose8 l c.

Lemma loose_reads l c : reads8 l c -> loose l = true -> loose8 l c.
Proof.
  intros (Hb & Hl & -> & c0 & r & -> & Hr) Hlo. unfold loose8.
  destruct r as [|a r]; [done|]. unfold loose in Hlo. unfold extra_bytes in Hr.
  assert (Hc0 : c0 = 0xED \/ c0 = 0xF4) by lia. apply Forall_cons in Hb as [_ Hb]. apply Forall_cons in Hb as [Ha _].
  destruct Hc0 as [-> | ->]; cbn in Hr.
  - left. destruct r as [|b [|? r]]; rewrite ?zlen_cons, ?zlen_nil in Hr; [lia| |pose proof (zlen_nonneg r); lia].
    unfold legal_seq, legal_more in Hl. exists a, b. cbn [seq_value]. split_and!; try done; lia.
  - right. destruct r as [|b [|d [|? r]]]; rewrite ?zlen_cons, ?zlen_nil in Hr; [lia|lia| |pose proof (zlen_nonneg r); lia].
    unfold legal_seq, legal_more in Hl. exists a, b, d. cbn [seq_value]. split_and!; try done; lia.
Qed.

Lemma reads8_char l c : reads8 l c <-> char8 l c.
Proof.
  split.
  - intros Hr. destruct (reads8_scalar l c Hr) as [Hs He]. destruct (loose l) eqn:El; [right; by apply loose_reads|left].
    split; [done|by apply He].
  - intros [[Hs ->]|[(a & b & Ha & Hb & -> & ->)|(a & b & d & Ha & Hb & Hd & -> & ->)]]; [by apply reads8_enc| |].
    + split_and!; [repeat constructor; lia| |cbn [seq_value]; lia|by exists 0xED, [a; b]].
      unfold legal_seq, legal_more, legal_second, legal_first. split_ifs; lia.
    + split_and!; [repeat constructor; lia| |cbn [seq_value]; lia|by exists 0xF4, [a; b; d]].
      unfold legal_seq, legal_more, legal_second, legal_first. split_ifs; lia.
Qed.

Lemma utf8_sum_run pre l c post st :
  reads8 l c ->
  exists v, utf8_sum (Z.to_nat (zlen l - 1)) (pre ++ l ++ post) (zlen pre) 0 st = Ret (v, st) /\
    u32 (v - znth offsetsFromUTF8 (zlen l - 1)) = c.
Proof.
  intros Hr. destruct (reads8_scalar l c Hr) as [Hs _]. destruct Hr as (Hb & Hl & -> & c0 & r & -> & Hr).
  unfold scalar in Hs.
  assert (Hg : forall k, 0 <= k < zlen (c0 :: r) ->
    slot_get (zlen pre + k) (pre ++ (c0 :: r) ++ post) = Ret (znth (c0 :: r) k)) by (intros; by apply slot_get_in).
  assert (G0 : slot_get (zlen pre) (pre ++ (c0 :: r) ++ post) = Ret c0)
    by (apply (slot_get_in pre (c0 :: r) post 0); [rewrite zlen_cons; pose proof (zlen_nonneg r)|]; lia).
  assert (Hsh : forall x, Z.shiftl x 6 = x * 64) by (intros; by rewrite Z.shiftl_mul_pow2).
  destruct r as [|a [|b [|d [|x l]]]]; [| | | |by destruct l];
    repeat match goal with H : Forall _ (_ :: _) |- _ => apply Forall_cons in H as [? ?] end; cbn [seq_value] in *.
  - eexists. change (Z.to_nat (zlen [c0] - 1)) with 0%nat. cbn [utf8_sum]. rewrite G0, pbind_plift.
    split; [reflexivity|]. change (znth offsetsFromUTF8 _) with 0. rewrite !u32_id by (rewrite ?u32_id; lia). lia.
  - pose proof (Hg 1 ltac:(done)) as G1. change (znth [c0; a] 1) with a in G1.
    eexists. change (Z.to_nat (zlen [c0; a] - 1)) with 1%nat. cbn [utf8_sum].
    rewrite G0, pbind_plift, G1, pbind_plift. split; [reflexivity|].
    change (znth offsetsFromUTF8 _) with 0x3080. rewrite Hsh. unfold u32 in *. char_lia.
  - pose proof (Hg 1 ltac:(done)) as G1. change (znth [c0; a; b] 1) with a in G1.
    pose proof (Hg 2 ltac:(done)) as G2. change (znth [c0; a; b] 2) with b in G2.
    eexists. change (Z.to_nat (zlen [c0; a; b] - 1)) with 2%nat. cbn [utf8_sum].
    rewrite G0, pbind_plift, G1, pbind_plift. replace (zlen pre + 1 + 1) with (zlen pre + 2) by lia.
    rewrite G2, pbind_plift. split; [reflexivity|].
    change (znth offsetsFromUTF8 _) with 0xE2080. rewrite !Hsh. unfold u32 in *. char_lia.
  - pose proof (Hg 1 ltac:(done)) as G1. change (znth [c0; a; b; d] 1) with a in G1.
    pose proof (Hg 2 ltac:(done)) as G2. change (znth [c0; a; b; d] 2) with b in G2.
    pose proof (Hg 3 ltac:(done)) as G3. change (znth [c0; a; b; d] 3) with d in G3.
    eexists. change (Z.to_nat (zlen [c0; a; b; d] - 1)) with 3%nat. cbn [utf8_sum].
    rewrite G0, pbind_plift, G1, pbind_plift. replace (zlen pre + 1 + 1) with (zlen pre + 2) by lia.
    rewrite G2, pbind_plift. replace (zlen pre + 2 + 1) with (zlen pre + 3) by lia.
    rewrite G3, pbind_plift. split; [reflexivity|].
    change (znth offsetsFromUTF8 _) with 0x3C82080. rewrite !Hsh. unfold u32 in *. char_lia.
Qed.

(** The first byte announces more bytes than there are. *)
Definition short8 (s : list Z) : Prop := exists b r, s = b :: r /\ zlen r < extra_bytes b.

Lemma short8_spec s : s <> [] -> short8 s <-> zlen s <= extra_bytes (znth s 0).
Proof.
  destruct s as [|b r]; [done|]. intros _. change (znth (b :: r) 0) with b. rewrite zlen_cons. split.
  - intros (b' & r' & [= <- <-] & Hr). lia.
  - intros Hz. exists b, r. split; [done|lia].
Qed.

(** What the checks of a round find at the front of the source. *)
Lemma utf8_front s :
  s <> [] -> Forall (fun u => 0 <= u < 2 ^ 8) s ->
  let extra := extra_bytes (znth s 0) in
  (zlen s <= extra /\ stuck reads8 s) \/
  (extra < zlen s /\ legal_seq (ztake (extra + 1) s) = false /\ stuck reads8 s) \/
  (exists l c s', s = l ++ s' /\ reads8 l c /\ zlen l = extra + 1).
Proof.
  intros Hne Hb. destruct s as [|c0 r]; [done|]. change (znth (c0 :: r) 0) with c0. cbv zeta.
  set (extra := extra_bytes c0). assert (He : 0 <= extra) by (unfold extra, extra_bytes; split_ifs; lia).
  assert (Hfront : forall l c s', reads8 l c -> c0 :: r = l ++ s' -> zlen l = extra + 1).
  { intros l c s' (_ & _ & _ & c1 & l1 & -> & Hl1) E. injection E as <- _. rewrite zlen_cons, Hl1. unfold extra. lia. }
  destruct (decide (zlen (c0 :: r) <= extra)) as [Hs|Hs].
  { left. split; [done|]. split; [done|]. intros l c s' Hl E. pose proof (Hfront l c s' Hl E).
    rewrite E, zlen_app in Hs. pose proof (zlen_nonneg s'). lia. }
  rewrite zlen_cons in Hs. right. zsplit_as (extra + 1) (c0 :: r) as (l & s' & E & Hl & Hs'). rewrite E, ztake_app, ztake_all, ztake_0, app_nil_r by lia.
  destruct l as [|c1 l]; [rewrite zlen_nil in Hl; lia|]. injection E as <- E. rewrite zlen_cons in Hl.
  destruct (legal_seq (c0 :: l)) eqn:Eleg.
  - right. exists (c0 :: l), (seq_value (c0 :: l)), s'. rewrite zlen_cons. split; [done|]. split; [|lia].
    split_and!; [|done|done|exists c0, l; split; [done|unfold extra in *; lia]].
    subst r. rewrite app_comm_cons in Hb. by apply Forall_app in Hb as [? _].
  - left. rewrite zlen_app, zlen_cons. pose proof (zlen_nonneg s'). split; [lia|]. split; [done|]. split; [done|].
    intros l2 c s2 Hl2 E2. subst r. pose proof (Hfront l2 c s2 Hl2 E2) as Hz.
    assert (c0 :: l = l2) as <- by (eapply app_same_length; [rewrite zlen_cons; lia|exact E2]).
    destruct Hl2 as (_ & Hleg & _). congruence.
Qed.

Lemma utf16_put_run te t v st :
  target_ok te st -> 0 <= t -> fits te t 1 -> utf16_put te t v st = Ret (tt, u_write te t [v] st).
Proof.
  intros Hok Ht Hf. unfold utf16_put. destruct te as [e|]; [|done]. cbn in Hf. apply u_store_run; [done|lia].
Qed.

Lemma target_full_fits te t n : fits te t (n + 1) \/ ~ fits te t (n + 1) /\ target_full te (t + n) = true.
Proof. unfold target_full, fits. destruct te as [e|]; [|by left]. destruct (decide (t + (n + 1) <= e)); [by left|right; lia]. Qed.

Lemma target_not_full te t n : fits te t (n + 1) -> target_full te (t + n) = false.
Proof. unfold target_full, fits. destruct te as [e|]; [lia|done]. Qed.

(** Storing a character: one unit or two, or the target is full. *)
Section emit.
Context {X : Type} (te : option Z) (t c : Z) (st : ubuf) (full illegal repl : Prog ubuf X) (next : Z -> Prog ubuf X).
Context (Hsc : scalar c = true) (Hok : target_ok te st) (Ht : 0 <= t).

Definition emit : Prog ubuf X :=
  if target_full te t then full
  else if c <=? UNI_MAX_BMP then
    if (UNI_SUR_HIGH_START <=? c) && (c <=? UNI_SUR_LOW_END) then illegal
    else utf16_put te t (u16 c) ;; next (t + 1)
  else if UNI_MAX_UTF16 <? c then repl
  else if target_full te (t + 1) then full
  else
    let ch := u32 (c - halfBase) in
    utf16_put te t (u16 (Z.shiftr ch halfShift + UNI_SUR_HIGH_START)) ;;
    utf16_put te (t + 1) (u16 (Z.land ch halfMask + UNI_SUR_LOW_START)) ;;
    next (t + 2).

Lemma emit_bmp :
  c <= 65535 -> fits te t 1 -> emit st = next (t + 1) (u_write te t [c] st).
Proof using Hsc Hok Ht.
  intros Hc Hf. unfold emit, scalar, UNI_MAX_BMP, UNI_SUR_HIGH_START, UNI_SUR_LOW_END in *.
  pose proof (target_not_full te t 0 Hf) as Hx. rewrite Z.add_0_r in Hx. rewrite Hx.
  replace (c <=? 65535) with true by lia. replace ((55296 <=? c) && (c <=? 57343)) with false by lia.
  rewrite u16_id by lia. by rewrite (pbind_ret _ _ _ _ _ (utf16_put_run te t c st Hok Ht Hf)).
Qed.

Lemma emit_pair :
  65535 < c -> fits te t 2 ->
  emit st = next (t + 2) (u_write te t [0xD800 + (c - 0x10000) / 1024; 0xDC00 + (c - 0x10000) mod 1024] st).
Proof using Hsc Hok Ht.
  intros Hc Hf. assert (Hf1 : fits te t 1 /\ fits te (t + 1) 1) by (unfold fits in *; destruct te; [lia|done]).
  destruct Hf1 as [Hf1 Hf2].
  unfold emit, scalar, UNI_MAX_BMP, UNI_MAX_UTF16, halfBase, halfShift, halfMask, UNI_SUR_HIGH_START, UNI_SUR_LOW_START in *.
  pose proof (target_not_full te t 0 Hf1) as Hx. rewrite Z.add_0_r in Hx. rewrite Hx, (target_not_full te t 1 Hf).
  replace (c <=? 65535) with false by lia. replace (1114111 <? c) with false by lia. cbv zeta.
  rewrite (u32_id (c - 65536)), Z.shiftr_div_pow2 by lia.
  change (Z.land (c - 65536) 1023) with (Z.land (c - 65536) (2 ^ 10 - 1)). rewrite land_mask by lia.
  change (2 ^ 10) with 1024. rewrite !u16_id by char_lia.
  rewrite (pbind_ret _ _ _ _ _ (utf16_put_run te t _ st Hok Ht Hf1)).
  rewrite (pbind_ret _ _ _ _ _ (utf16_put_run te (t + 1) _ _ (u_write_ok te t [_] st Hok Ht Hf1) ltac:(lia) Hf2)).
  rewrite (Z.add_comm _ 55296), (Z.add_comm _ 56320).
  f_equal. exact (u_write_app te t [55296 + (c - 65536) / 1024] [56320 + (c - 65536) mod 1024] st Hok Ht Hf).
Qed.

Lemma emit_run :
  (fits te t (zlen (enc16 c)) -> emit st = next (t + zlen (enc16 c)) (u_write te t (enc16 c) st)) /\
  (~ fits te t (zlen (enc16 c)) -> emit st = full st).
Proof using Hsc Hok Ht.
  unfold enc16. destruct (c <? 65536) eqn:E; [change (zlen [c]) with 1|change (zlen [_; _]) with 2].
  - split; [apply emit_bmp; lia|]. intros Hn. unfold emit.
    destruct (target_full_fits te t 0) as [?|[_ Hx]]; [done|]. rewrite Z.add_0_r in Hx. by rewrite Hx.
  - split; [apply emit_pair; lia|]. intros Hn. unfold emit, UNI_MAX_BMP, UNI_MAX_UTF16, scalar in *.
    destruct (target_full te t); [done|]. replace (c <=? 65535) with false by lia.
    replace (1114111 <? c) with false by lia. destruct (target_full_fits te t 1) as [?|[_ ->]]; done.
Qed.
End emit.

#[global] Instance fits_dec te t n : Decision (fits te t n).
Proof. unfold fits. destruct te; apply _. Defined.

Lemma utf8to16_run fuel pre s post te t st :
  Forall (fun u => 0 <= u < 2 ^ 8) s -> (length s <= fuel)%nat -> 0 <= t -> target_ok te st -> fits te t 0 ->
  exists res read t' st',
    utf8to16_loop fuel (pre ++ s ++ post) (zlen pre + zlen s) te strictConversion (zlen pre) t st =
      Ret ((res, zlen pre + read, t'), st') /\ converts reads8 enc16 s te t st res read t' st' /\
      stops_for short8 res (zdrop read s).
Proof.
  revert pre s t st. induction fuel as [|fuel IH]; intros pre s t st Hs Hf Ht Hok Hfit.
  - destruct s; [|cbn in Hf; lia]. exists conversionOK, 0, t, st. cbn [utf8to16_loop].
    rewrite zlen_nil, Z.add_0_r, Z.ltb_irrefl. split; [done|]. split; [|done]. by apply converts_stop.
  - cbn [utf8to16_loop]. destruct (decide (s = [])) as [->|Hne].
    { exists conversionOK, 0, t, st. rewrite zlen_nil, Z.add_0_r, Z.ltb_irrefl. split; [done|]. split; [|done]. by apply converts_stop. }
    assert (Hp : 0 < zlen s) by (destruct s as [|u s0]; [done|rewrite zlen_cons; pose proof (zlen_nonneg s0); lia]).
    replace (zlen pre <? zlen pre + zlen s) with true by lia. cbn [negb].
    rewrite (slot_get_in pre s post 0), pbind_plift by lia.
    assert (Hb0 : 0 <= znth s 0 < 2 ^ 8) by (destruct Hs as [|u s1 Hu _]; [done|exact Hu]).
    rewrite trailingBytes_spec by done.
    assert (He0 : 0 <= extra_bytes (znth s 0)) by (unfold extra_bytes; split_ifs; lia).
    assert (Hstop : forall res, match res with sourceExhausted | sourceIllegal => stuck reads8 s | _ => False end -> stops_for short8 res s ->
      exists res' read t' st', Ret ((res, zlen pre, t), st) = Ret ((res', zlen pre + read, t'), st') /\
        converts reads8 enc16 s te t st res' read t' st' /\ stops_for short8 res' (zdrop read s)).
    { intros res Hres Hwhy. exists res, 0, t, st. rewrite Z.add_0_r, zdrop_0 by done. split; [done|]. split; [|done].
      apply converts_stop; [done|done|by destruct res]. }
    destruct (utf8_front s Hne Hs) as [[He Hst]|[(He & Hleg & Hst)|(l & c & s' & -> & Hl & Hzl)]].
    + replace (_ <=? _) with true by lia. apply (Hstop sourceExhausted); [done|]. cbn. by apply short8_spec.
    + replace (_ <=? _) with false by lia.
      zsplit_as (extra_bytes (znth s 0) + 1) s as (l & s' & E & Hzl & Hs').
      assert (Hl : ztake (extra_bytes (znth s 0) + 1) s = l) by (rewrite E at 2; by zcut).
      rewrite Hl in Hleg. rewrite <- Hzl.
      assert (Es : pre ++ s ++ post = pre ++ l ++ s' ++ post) by (by rewrite E, <- app_assoc). rewrite Es.
      rewrite (pbind_ret _ _ _ _ _ (isLegalUTF8_run pre l (s' ++ post) st ltac:(lia))), Hleg. apply (Hstop sourceIllegal); [done|]. cbn. rewrite short8_spec by done. lia.
    + rewrite zlen_app. pose proof (zlen_nonneg s').
      assert (Hx : extra_bytes (znth (l ++ s') 0) = zlen l - 1) by lia. rewrite Hx.
      replace (zlen pre + (zlen l + zlen s') <=? zlen pre + (zlen l - 1)) with false by lia.
      replace (zlen l - 1 + 1) with (zlen l) by lia. rewrite <- app_assoc.
      rewrite (pbind_ret _ _ _ _ _ (isLegalUTF8_run pre l (s' ++ post) st ltac:(lia))).
      pose proof Hl as (_ & -> & _). cbn [negb].
      destruct (utf8_sum_run pre l c (s' ++ post) st Hl) as (v & Hv & Hc). rewrite (pbind_ret _ _ _ _ _ Hv). cbv zeta. rewrite Hc.
      destruct (reads8_scalar l c Hl) as [Hsc _]. clear Hv Hc v.
      apply Forall_app in Hs as [_ Hs'].
      assert (Hstep : fits te t (zlen (enc16 c)) -> exists res read t' st',
        utf8to16_loop fuel (pre ++ l ++ s' ++ post) (zlen pre + (zlen l + zlen s')) te strictConversion
          (zlen pre + zlen l) (t + zlen (enc16 c)) (u_write te t (enc16 c) st) = Ret ((res, zlen pre + read, t'), st') /\
        converts reads8 enc16 (l ++ s') te t st res read t' st' /\ stops_for short8 res (zdrop read (l ++ s'))).
      { intros Hfc. destruct (IH (pre ++ l) s' (t + zlen (enc16 c)) (u_write te t (enc16 c) st))
          as (res & read & t' & st' & Hr & Hcv & Hwhy); [done| |pose proof (enc16_pos c); lia|by apply u_write_ok| |].
        - rewrite length_app in Hf. unfold zlen in *. lia.
        - unfold fits in *. destruct te; [lia|done].
        - exists res, (zlen l + read), t', st'. split; [|split; [by apply (converts_next reads8 enc16 l c)|by eapply stops_for_next]].
          rewrite zlen_app, <- !app_assoc, <- !Z.add_assoc in Hr. exact Hr. }
      assert (Hfull : ~ fits te t (zlen (enc16 c)) -> exists res read t' st',
        Ret ((targetExhausted, zlen pre, t), st) = Ret ((res, zlen pre + read, t'), st') /\
        converts reads8 enc16 (l ++ s') te t st res read t' st' /\ stops_for short8 res (zdrop read (l ++ s'))).
      { intros Hnf. exists targetExhausted, 0, t, st. rewrite Z.add_0_r. split; [done|]. split; [|done]. apply converts_stop; [done|done|].
        by exists l, c, s'. }
      destruct (emit_run te t c st (pret (targetExhausted, zlen pre, t)) (pret (sourceIllegal, zlen pre, t))
        (pret (sourceIllegal, zlen pre, t))
        (utf8to16_loop fuel (pre ++ l ++ s' ++ post) (zlen pre + (zlen l + zlen s')) te strictConversion (zlen pre + zlen l))
        Hsc Hok Ht) as [Hfits Hnfits]. unfold emit in Hfits, Hnfits. cbn [is_strict].
      destruct (decide (fits te t (zlen (enc16 c)))) as [Hy|Hn].
      * rewrite Hfits by done. by apply Hstep.
      * rewrite Hnfits by done. by apply Hfull.
Qed.

(** ** The internal functions *)

Section internal.
Context (src : list Z) (sourceEnd : Z) (te : option Z) (st : ubuf).
Context (Hn : 0 <= sourceEnd <= zlen src) (Hok : target_ok te st) (Hf : fits te 0 0).

Lemma source_split : exists post, src = [] ++ ztake sourceEnd src ++ post /\ zlen (ztake sourceEnd src) = sourceEnd.
Proof using Hn. exists (zdrop sourceEnd src). rewrite app_nil_l, ztake_zdrop_app, zlen_ztake. split; [done|lia]. Qed.

Lemma utf16to8_internal :
  Forall (fun u => 0 <= u < 2 ^ 16) (ztake sourceEnd src) ->
  exists res read t' st',
    winpr_ConvertUTF16toUTF8_Internal src sourceEnd te strictConversion st = Ret ((res, read, t'), st') /\
    converts reads16 enc8 (ztake sourceEnd src) te 0 st res read t' st' /\
    stops_for short16 res (zdrop read (ztake sourceEnd src)).
Proof using Hn Hok Hf.
  intros Hu. destruct source_split as (post & E & Hz).
  destruct (utf16to8_run (Z.to_nat sourceEnd) [] (ztake sourceEnd src) post te 0 st Hu) as (res & read & t' & st' & Hr & Hc);
    [unfold zlen in Hz; lia|lia|done|done|].
  rewrite <- E, Hz in Hr. by exists res, read, t', st'.
Qed.

Lemma utf8to16_internal :
  Forall (fun u => 0 <= u < 2 ^ 8) (ztake sourceEnd src) ->
  exists res read t' st',
    winpr_ConvertUTF8toUTF16_Internal src sourceEnd te strictConversion st = Ret ((res, read, t'), st') /\
    converts reads8 enc16 (ztake sourceEnd src) te 0 st res read t' st' /\
    stops_for short8 res (zdrop read (ztake sourceEnd src)).
Proof using Hn Hok Hf.
  intros Hu. destruct source_split as (post & E & Hz).
  destruct (utf8to16_run (Z.to_nat sourceEnd) [] (ztake sourceEnd src) post te 0 st Hu) as (res & read & t' & st' & Hr & Hc);
    [unfold zlen in Hz; lia|lia|done|done|].
  rewrite <- E, Hz in Hr. by exists res, read, t', st'.
Qed.
End internal.

(** ** Properties *)

(** C37: both internal converters, in strict mode, convert exactly: on any memory they return
    without touching anything outside of source and target, and what they have stored is the encoding
    of the characters read, nothing else in the target changes, and the offsets they return say how far
    they got.  They stop for the reason they report: [conversionOK] at the end of the source;
    [targetExhausted] at a character whose encoding no longer fits; [sourceExhausted] where no character
    stands and the source is cut short (a high surrogate as the last unit, a first byte that announces
    more bytes than are left); [sourceIllegal] where no character stands and the source is not cut
    short.  Here a character is a Unicode scalar value in its UTF-16 or UTF-8 encoding; the UTF-8 reader
    also takes the sequences of [loose8] (0xED or 0xF4 followed by a byte below 0x80), and nothing else. *)
Theorem utf_conversion_exact (src : list Z) (sourceEnd : Z) (te : option Z) (st : ubuf) :
  0 <= sourceEnd <= zlen src -> target_ok te st -> fits te 0 0 ->
  (Forall (fun u => 0 <= u < 2 ^ 16) (ztake sourceEnd src) ->
   exists res read t' st',
     winpr_ConvertUTF16toUTF8_Internal src sourceEnd te strictConversion st = Ret ((res, read, t'), st') /\
     converts (fun l c => scalar c = true /\ l = enc16 c) enc8 (ztake sourceEnd src) te 0 st res read t' st' /\
     stops_for short16 res (zdrop read (ztake sourceEnd src))) /\
  (Forall (fun u => 0 <= u < 2 ^ 8) (ztake sourceEnd src) ->
   exists res read t' st',
     winpr_ConvertUTF8toUTF16_Internal src sourceEnd te strictConversion st = Ret ((res, read, t'), st') /\
     converts char8 enc16 (ztake sourceEnd src) te 0 st res read t' st' /\
     stops_for short8 res (zdrop read (ztake sourceEnd src))).
Proof.
  intros Hn Hok Hf. split.
  - by apply utf16to8_internal.
  - intros Hu. destruct (utf8to16_internal src sourceEnd te st Hn Hok Hf Hu) as (res & read & t' & st' & Hr & Hc & Hw).
    exists res, read, t', st'. split; [done|]. split; [|done]. by apply (converts_iff reads8), Hc; apply reads8_char.
Qed.

Lemma utf_conversion_exact_witness :
  exists res read t' st',
    winpr_ConvertUTF16toUTF8_Internal [0x41; 0xD83D; 0xDE00; 0xDC00] 4 (Some 6) strictConversion
      (mkUbuf (Some (zrep 6 0)) 0) = Ret ((res, read, t'), st') /\
    res = sourceIllegal /\ read = 3 /\ t' = 5 /\ u_dst st' = Some [0x41; 0xF0; 0x9F; 0x98; 0x80; 0].
Proof.
  destruct (utf_conversion_exact [0x41; 0xD83D; 0xDE00; 0xDC00] 4 (Some 6) (mkUbuf (Some (zrep 6 0)) 0))
    as [H _]; [by vm_compute|by exists (zrep 6 0)|by vm_compute|].
  destruct H as (res & read & t' & st' & Hr & _ & _); [change (ztake 4 _) with [0x41; 0xD83D; 0xDE00; 0xDC00]; repeat (constructor; [lia|]); constructor|].
  exists res, read, t', st'. split; [exact Hr|]. vm_compute in Hr. by injection Hr as <- <- <- <-.
Defined.

(** A sequence that no encoder produces passes the legality test: 0xED, 0x41, 0x80. *)
Theorem utf8_loose_accepted :
  winpr_ConvertUTF8toUTF16_Internal [0xED; 0x41; 0x80] 3 (Some 1) strictConversion (mkUbuf (Some [0]) 0) =
    Ret ((conversionOK, 3, 1), mkUbuf (Some [0xC040]) 0).
Proof. vm_compute. reflexivity. Qed.
