(* ===== verification/UnicodeApi.v ===== *)
(** * The Unicode interface: [winpr/libwinpr/crt/unicode.c]

    The ConvertUtf8ToWChar and ConvertWCharToUtf8 families over the built-in converter.  The
    target string is the buffer of the state; a NULL pointer is [None].  The functions that
    allocate call the converter twice, once for the length, and assert that both calls agree;
    they are shown never to fail that assertion, and to invert each other. *)

From S2P Require Import Prelude Memory Unicode.

Definition MultiByteToWideChar := int_MultiByteToWideChar.
Definition WideCharToMultiByte := int_WideCharToMultiByte.

(** [if (str && cond) str[i] = 0] *)
Definition terminate_if (cond : bool) (i : Z) : Prog ubuf unit :=
  st <- pget ;;
  match u_dst st with
  | Some _ => if cond then u_store i 0 else pret tt
  | None => pret tt
  end.

(** [str && (str[i] != 0)] *)
Definition unterminated (i : Z) : Prog ubuf bool :=
  st <- pget ;;
  match u_dst st with
  | Some d => c <- plift (slot_get i d) ;; pret (negb (c =? 0))
  | None => pret false
  end.

(** ** UTF-16 to UTF-8 *)

Definition ConvertWCharNToUtf8 (wstr : option (list Z)) (wlen len : Z) : Prog ubuf Z :=
  if wlen =? 0 then pret 0
  else
    w <- deref wstr ;;
    iwlen <- plift (c_strnlen (Z.to_nat wlen) w) ;;
    if INT_MAX <? wlen then SetLastError ERROR_INVALID_PARAMETER ;; pret (-1)
    else
      let isNullTerminated := iwlen <? wlen in
      let iwlen := if isNullTerminated then iwlen + 1 else iwlen in
      rc <- WideCharToMultiByte CP_UTF8 wstr (i32 iwlen) (Z.min INT_MAX len) ;;
      if (rc <=? 0) || ((0 <? len) && (len <? rc)) then pret (-1)
      else if negb isNullTerminated then
        terminate_if (rc <? len) rc ;; pret rc
      else
        b <- (if rc =? len then unterminated (rc - 1) else pret false) ;;
        pret (if b then rc else rc - 1).

Definition ConvertWCharToUtf8 (wstr : option (list Z)) (len : Z) : Prog ubuf Z :=
  match wstr with
  | None => terminate_if (negb (len =? 0)) 0 ;; pret 0
  | Some w => wlen <- plift (c_strlen w) ;; ConvertWCharNToUtf8 wstr (wlen + 1) len
  end.

Definition ConvertMszWCharNToUtf8 (wstr : option (list Z)) (wlen len : Z) : Prog ubuf Z :=
  if wlen =? 0 then pret 0
  else
    deref wstr ;;
    if INT_MAX <? wlen then SetLastError ERROR_INVALID_PARAMETER ;; pret (-1)
    else
      let iwlen := Z.min INT_MAX len in
      rc <- WideCharToMultiByte CP_UTF8 wstr (i32 wlen) iwlen ;;
      if (rc <=? 0) || ((0 <? len) && (iwlen <? rc)) then pret (-1) else pret rc.

(** ** UTF-8 to UTF-16 *)

(** [strnlen] comes before the test for a length of 0. *)
Definition ConvertUtf8NToWChar (str : option (list Z)) (len wlen : Z) : Prog ubuf Z :=
  ilen <- (if len =? 0 then pret 0 else s <- deref str ;; plift (c_strnlen (Z.to_nat len) s)) ;;
  if len =? 0 then pret 0
  else if INT_MAX <? len then SetLastError ERROR_INVALID_PARAMETER ;; pret (-1)
  else
    let isNullTerminated := ilen <? len in
    let ilen := if isNullTerminated then ilen + 1 else ilen in
    let iwlen := Z.min INT_MAX wlen in
    rc <- MultiByteToWideChar CP_UTF8 str (i32 ilen) iwlen ;;
    if (rc <=? 0) || ((0 <? wlen) && (iwlen <? rc)) then pret (-1)
    else if negb isNullTerminated then
      terminate_if (rc <? iwlen) rc ;; pret rc
    else
      b <- (if rc =? iwlen then unterminated (rc - 1) else pret false) ;;
      pret (if b then rc else rc - 1).

Definition ConvertUtf8ToWChar (str : option (list Z)) (wlen : Z) : Prog ubuf Z :=
  match str with
  | None => terminate_if (negb (wlen =? 0)) 0 ;; pret 0
  | Some s => len <- plift (c_strlen s) ;; ConvertUtf8NToWChar str (len + 1) wlen
  end.

Definition ConvertMszUtf8NToWChar (str : option (list Z)) (len wlen : Z) : Prog ubuf Z :=
  if len =? 0 then pret 0
  else
    deref str ;;
    if INT_MAX <? len then SetLastError ERROR_INVALID_PARAMETER ;; pret (-1)
    else
      let iwlen := Z.min INT_MAX wlen in
      rc <- MultiByteToWideChar CP_UTF8 str (i32 len) iwlen ;;
      if (rc <=? 0) || ((0 <? wlen) && (iwlen <? rc)) then pret (-1) else pret rc.

(** ** Allocating conversions

    The state is the code of the last error; a result is the string and its length. *)

(** A conversion into the buffer [d]. *)
Definition with_target {A} (d : option (list Z)) (m : Prog ubuf A) : Prog Z (A * option (list Z)) :=
  fun e =>
    match m (mkUbuf d e) with
    | Ret (a, st) => Ret ((a, u_dst st), u_error st)
    | Abort => Abort
    | Hang => Hang
    end.

(** The common body: [conv] for the length, [calloc], [conv] again. *)
Definition convert_alloc `{Malloc} (size : Z) (conv : Z -> Prog ubuf Z) : Prog Z (option (list Z * Z)) :=
  r1 <- with_target None (conv 0) ;;
  let rc := r1.1 in
  if rc <? 0 then pret None
  else if negb (malloc_ok ((rc + 1) * size)) then pret None
  else
    r2 <- with_target (Some (zrep (rc + 1) 0)) (conv (rc + 1)) ;;
    let rc2 := r2.1 in
    if rc2 <? 0 then pret None
    else
      passert (rc =? rc2) ;;
      pret (match r2.2 with Some tmp => Some (tmp, rc2) | None => None end).

Section alloc.
Context `{Malloc}.
Definition ConvertWCharToUtf8Alloc (wstr : option (list Z)) : Prog Z (option (list Z * Z)) :=
  convert_alloc 1 (ConvertWCharToUtf8 wstr).
Definition ConvertWCharNToUtf8Alloc (wstr : option (list Z)) (wlen : Z) : Prog Z (option (list Z * Z)) :=
  convert_alloc 1 (ConvertWCharNToUtf8 wstr wlen).
Definition ConvertMszWCharNToUtf8Alloc (wstr : option (list Z)) (wlen : Z) : Prog Z (option (list Z * Z)) :=
  convert_alloc 1 (ConvertMszWCharNToUtf8 wstr wlen).
Definition ConvertUtf8ToWCharAlloc (str : option (list Z)) : Prog Z (option (list Z * Z)) :=
  convert_alloc 2 (ConvertUtf8ToWChar str).
Definition ConvertUtf8NToWCharAlloc (str : option (list Z)) (len : Z) : Prog Z (option (list Z * Z)) :=
  convert_alloc 2 (ConvertUtf8NToWChar str len).
Definition ConvertMszUtf8NToWCharAlloc (str : option (list Z)) (len : Z) : Prog Z (option (list Z * Z)) :=
  convert_alloc 2 (ConvertMszUtf8NToWChar str len).
End alloc.

(** ** Swapping the byte order *)

Definition byteswap_ushort (c : Z) : Z := u16 (Z.lor (Z.shiftl c 8) (Z.shiftr c 8)).
Fixpoint ByteSwapUnicode (wstr : list Z) (length : nat) : outcome (list Z) :=
  match length with
  | O => Ret wstr
  | S length' =>
      match wstr with
      | [] => Abort
      | c :: wstr' =>
          match ByteSwapUnicode wstr' length' with
          | Ret l => Ret (byteswap_ushort c :: l)
          | Abort => Abort
          | Hang => Hang
          end
      end
  end.

Example convert_hello :
  @ConvertWCharToUtf8Alloc malloc_all (Some [0x48; 0xE9; 0x20AC; 0xD83D; 0xDE00; 0; 7]) 0 =
    Ret (Some ([0x48; 0xC3; 0xA9; 0xE2; 0x82; 0xAC; 0xF0; 0x9F; 0x98; 0x80; 0], 10), 0).
Proof. vm_compute. reflexivity. Qed.

Example convert_back :
  @ConvertUtf8ToWCharAlloc malloc_all (Some [0x48; 0xC3; 0xA9; 0xE2; 0x82; 0xAC; 0xF0; 0x9F; 0x98; 0x80; 0]) 0 =
    Ret (Some ([0x48; 0xE9; 0x20AC; 0xD83D; 0xDE00; 0], 5), 0).
Proof. vm_compute. reflexivity. Qed.

(** ** Terminated strings *)

Definition no_nul (s : list Z) : Prop := Forall (fun u => u <> 0) s.

Lemma c_strlen_run s post : no_nul s -> c_strlen (s ++ 0 :: post) = Ret (zlen s).
Proof.
  induction 1 as [|u s Hu _ IH]; [done|]. cbn. replace (u =? 0) with false by lia. rewrite IH, zlen_cons. f_equal. lia.
Qed.

Lemma c_strnlen_run s post n :
  no_nul s -> zlen s < n -> c_strnlen (Z.to_nat n) (s ++ 0 :: post) = Ret (zlen s).
Proof.
  intros Hs. revert n. induction Hs as [|u s Hu _ IH]; intros n Hn.
  - destruct (Z.to_nat n) eqn:E; [rewrite zlen_nil in Hn; lia|done].
  - rewrite zlen_cons in *. pose proof (zlen_nonneg s). destruct (Z.to_nat n) as [|k] eqn:E; [lia|].
    cbn. replace (u =? 0) with false by lia. replace k with (Z.to_nat (n - 1)) by lia. rewrite IH by lia. f_equal. lia.
Qed.

(** The last sequence of a terminated string is its terminator. *)
Class TerminatedReader (reads : list Z -> Z -> Prop) : Prop := {
  #[global] tr_reader :: Reader reads;
  tr_zero : reads [0] 0;
  tr_nul l c : reads (l ++ [0]) c -> l = [] /\ c = 0
}.

#[global] Instance terminated16 : TerminatedReader reads16.
Proof.
  split; [apply _|done|]. intros l c [Hc E]. unfold scalar, enc16 in *. case_char.
  - destruct l as [|x [|y l]]; [by injection E as <-|discriminate|discriminate].
  - destruct l as [|x [|y [|z l]]]; try discriminate. injection E as -> E. exfalso. char_lia.
Qed.

#[global] Instance terminated8 : TerminatedReader reads8.
Proof.
  split; [apply _|by apply (reads8_enc 0)|]. intros l c (_ & Hl & -> & c0 & r & E & Hr).
  destruct l as [|x [|y [|z [|v l]]]]; [done| | | |].
  - cbn [app] in *. injection E as <- <-. exfalso. unfold legal_seq, legal_second, legal_first, extra_bytes in *.
    change (zlen [0]) with 1 in Hr. split_ifs; lia.
  - exfalso. unfold legal_seq, legal_more in Hl. cbn in Hl. done.
  - exfalso. unfold legal_seq, legal_more in Hl. cbn in Hl. done.
  - exfalso. by destruct l.
Qed.

Section terminated.
Context (reads : list Z -> Z -> Prop) (enc : Z -> list Z) `{!TerminatedReader reads} (Henc : enc 0 = [0]).

Lemma sequences_app qs qs' : sequences (qs ++ qs') = sequences qs ++ sequences qs'.
Proof. unfold sequences. by rewrite map_app, concat_app. Qed.

Lemma terminated_sequences s qs :
  all_read reads qs -> s ++ [0] = sequences qs ->
  exists qs', qs = qs' ++ [([0], 0)] /\ all_read reads qs' /\ s = sequences qs'.
Proof using TerminatedReader0.
  intros Hq E. destruct qs as [|[l c] qs' _] using rev_ind; [by destruct s|].
  apply Forall_app in Hq as [Hq Hl]. apply Forall_cons in Hl as [Hl _]. cbn in Hl.
  rewrite sequences_app in E. change (sequences [(l, c)]) with (l ++ []) in E. rewrite app_nil_r in E.
  destruct l as [|x l _] using rev_ind; [by pose proof (reads_pos _ _ Hl)|].
  rewrite app_assoc in E. apply app_inj_tail in E as [-> <-]. destruct (tr_nul l c Hl) as [-> ->].
  exists qs'. by rewrite app_nil_r.
Qed.

Lemma terminated_text qs : text enc (map snd (qs ++ [([0], 0)])) = text enc (map snd qs) ++ [0].
Proof using Henc. rewrite map_app, text_app. cbn. by rewrite Henc. Qed.
End terminated.

(** ** What the string conversions have in common *)

Definition target_of (len : Z) : option Z := if len =? 0 then None else Some len.

(** The end of a conversion of a terminated string. *)
Definition finish (len rc : Z) : Prog ubuf Z :=
  if (rc <=? 0) || ((0 <? len) && (len <? rc)) then pret (-1)
  else
    b <- (if rc =? len then unterminated (rc - 1) else pret false) ;;
    pret (if b then rc else rc - 1).

Class StringConverter (reads : list Z -> Z -> Prop) (enc : Z -> list Z) (w : Z)
    (conv : option (list Z) -> Z -> Prog ubuf Z) : Prop := {
  sc_reader :: TerminatedReader reads;
  sc_nul : enc 0 = [0];
  sc_run s post len st :
    no_nul s -> Forall (fun u => 0 <= u < 2 ^ w) s -> zlen s < INT_MAX -> 0 <= len <= INT_MAX ->
    target_ok (target_of len) st ->
    exists res read t' st', converts reads enc (s ++ [0]) (target_of len) 0 st res read t' st' /\
      conv (Some (s ++ 0 :: post)) len st = (rc <- conversion_status (res, read, t') ;; finish len rc) st'
}.

Lemma terminated_take s post : ztake (zlen s + 1) (s ++ 0 :: post) = s ++ [0].
Proof.
  pose proof (zlen_nonneg s). rewrite ztake_app, ztake_all by lia. f_equal.
  replace (zlen s + 1 - zlen s) with 1 by lia. done.
Qed.

Lemma terminated_units (w : Z) s :
  0 <= w -> Forall (fun u => 0 <= u < 2 ^ w) s -> Forall (fun u => 0 <= u < 2 ^ w) (s ++ [0]).
Proof. intros Hw Hs. apply Forall_app. split; [done|]. constructor; [lia|done]. Qed.

Section string_run.
Context (s post : list Z) (len : Z) (st : ubuf).
Context (Hnul : no_nul s) (Hs : zlen s < INT_MAX) (Hlen : 0 <= len <= INT_MAX) (Hok : target_ok (target_of len) st).

Lemma string_bounds :
  0 <= zlen s + 1 <= zlen (s ++ 0 :: post) /\ fits (target_of len) 0 0 /\ i32 (zlen s + 1) = zlen s + 1 /\
  0 <= zlen s.
Proof using Hs Hlen.
  pose proof (zlen_nonneg s). pose proof (zlen_nonneg post). rewrite zlen_app, zlen_cons.
  unfold INT_MAX in *. split; [lia|]. split; [unfold fits, target_of; case_if; [done|lia]|]. split; [|lia].
  apply i32_id. lia.
Qed.

Lemma WCharToUtf8_run :
  Forall (fun u => 0 <= u < 2 ^ 16) s ->
  exists res read t' st', converts reads16 enc8 (s ++ [0]) (target_of len) 0 st res read t' st' /\
    ConvertWCharToUtf8 (Some (s ++ 0 :: post)) len st = (rc <- conversion_status (res, read, t') ;; finish len rc) st'.
Proof using Hnul Hs Hlen Hok.
  intros Hu. destruct string_bounds as (Hb & Hf & Hi & Hz).
  destruct (utf16to8_internal (s ++ 0 :: post) (zlen s + 1) (target_of len) st Hb Hok Hf) as (res & read & t' & st' & Hr & Hc & _);
    [rewrite terminated_take; by apply terminated_units|].
  rewrite terminated_take in Hc. exists res, read, t', st'. split; [done|].
  unfold ConvertWCharToUtf8. rewrite c_strlen_run, pbind_plift by done. unfold ConvertWCharNToUtf8, deref.
  replace (zlen s + 1 =? 0) with false by lia. rewrite pbind_pret, c_strnlen_run, pbind_plift by (done || lia).
  replace (INT_MAX <? zlen s + 1) with false by lia. replace (zlen s <? zlen s + 1) with true by lia.
  cbv zeta. cbn iota. rewrite Hi, Z.min_r by lia.
  unfold pbind at 1. unfold WideCharToMultiByte, int_WideCharToMultiByte, deref.
  replace ((zlen s + 1 =? 0) || (zlen s + 1 <? -1)) with false by lia. replace (len <? 0) with false by lia.
  rewrite pbind_pret. replace (zlen s + 1 =? -1) with false by lia. rewrite pbind_pret.
  unfold winpr_ConvertUTF16toUTF8. replace (zlen s + 1 =? -1) with false by lia. rewrite pbind_pret.
  rewrite (pbind_ret _ _ _ _ _ Hr). cbn [negb]. done.
Qed.

Lemma Utf8ToWChar_run :
  Forall (fun u => 0 <= u < 2 ^ 8) s ->
  exists res read t' st', converts reads8 enc16 (s ++ [0]) (target_of len) 0 st res read t' st' /\
    ConvertUtf8ToWChar (Some (s ++ 0 :: post)) len st = (rc <- conversion_status (res, read, t') ;; finish len rc) st'.
Proof using Hnul Hs Hlen Hok.
  intros Hu. destruct string_bounds as (Hb & Hf & Hi & Hz).
  destruct (utf8to16_internal (s ++ 0 :: post) (zlen s + 1) (target_of len) st Hb Hok Hf) as (res & read & t' & st' & Hr & Hc & _);
    [rewrite terminated_take; by apply terminated_units|].
  rewrite terminated_take in Hc. exists res, read, t', st'. split; [done|].
  unfold ConvertUtf8ToWChar. rewrite c_strlen_run, pbind_plift by done. unfold ConvertUtf8NToWChar, deref.
  replace (zlen s + 1 =? 0) with false by lia.
  assert (Hl : (s0 <- pret (s ++ 0 :: post) ;; plift (c_strnlen (Z.to_nat (zlen s + 1)) s0)) st = Ret (zlen s, st)).
  { rewrite pbind_pret, c_strnlen_run by (done || lia). done. }
  rewrite (pbind_ret _ _ _ _ _ Hl).
  replace (INT_MAX <? zlen s + 1) with false by lia. replace (zlen s <? zlen s + 1) with true by lia.
  cbv zeta. cbn iota. rewrite Hi, Z.min_r by lia.
  unfold pbind at 1. unfold MultiByteToWideChar, int_MultiByteToWideChar, deref.
  replace ((zlen s + 1 =? 0) || (zlen s + 1 <? -1)) with false by lia. replace (len <? 0) with false by lia.
  rewrite pbind_pret. replace (zlen s + 1 <? 0) with false by lia. rewrite pbind_pret.
  change ((CP_UTF8 =? CP_ACP) || (CP_UTF8 =? CP_UTF8)) with true. cbn iota.
  unfold winpr_ConvertUTF8toUTF16. replace (zlen s + 1 =? -1) with false by lia. rewrite pbind_pret.
  rewrite (pbind_ret _ _ _ _ _ Hr). cbn [negb]. done.
Qed.
End string_run.

#[global] Instance wchar_to_utf8 : StringConverter reads16 enc8 16 ConvertWCharToUtf8.
Proof. split; [apply _|done|]. intros. by apply WCharToUtf8_run. Qed.

#[global] Instance utf8_to_wchar : StringConverter reads8 enc16 8 ConvertUtf8ToWChar.
Proof. split; [apply _|done|]. intros. by apply Utf8ToWChar_run. Qed.

(** ** The allocating conversions *)

Lemma i32_below x : 0 <= x -> i32 x <= x.
Proof. intros Hx. unfold i32, u32. cbv zeta. case_if; char_lia. Qed.

Lemma i32_small x : 0 < x -> i32 x = x -> x <= INT_MAX.
Proof. unfold i32, u32, INT_MAX. cbv zeta. case_if; intros; char_lia. Qed.

Lemma i32_max x : i32 x <= INT_MAX.
Proof. unfold i32, u32, INT_MAX. cbv zeta. case_if; char_lia. Qed.

Lemma bound_with_target {A B} d (m : Prog ubuf A) (k : A * option (list Z) -> Prog Z B) e a st :
  m (mkUbuf d e) = Ret (a, st) -> pbind (with_target d m) k e = k (a, u_dst st) (u_error st).
Proof. intros E. unfold pbind, with_target. by rewrite E. Qed.

Lemma terminated_end s e :
  unterminated (zlen (s ++ [0]) - 1) (mkUbuf (Some (s ++ [0])) e) = Ret (false, mkUbuf (Some (s ++ [0])) e).
Proof.
  pose proof (zlen_nonneg s). unfold unterminated. rewrite pbind_pget. cbn [u_dst].
  rewrite zlen_app. change (zlen [0]) with 1.
  rewrite (slot_get_at s 0 []), pbind_plift by lia. done.
Qed.

Section allocating.
Context (reads : list Z -> Z -> Prop) (enc : Z -> list Z) (w : Z) (conv : option (list Z) -> Z -> Prog ubuf Z).
Context `{!StringConverter reads enc w conv} `{Malloc}.

(** The call that computes the length: the length of the text as an [int], or -1. *)
Lemma length_run s post e :
  no_nul s -> Forall (fun u => 0 <= u < 2 ^ w) s -> zlen s < INT_MAX ->
  (conv (Some (s ++ 0 :: post)) 0 (mkUbuf None e) = Ret (-1, mkUbuf None e) /\
     ~ exists qs, all_read reads qs /\ s = sequences qs) \/
  (exists qs, all_read reads qs /\ s = sequences qs /\
     let L := zlen (text enc (map snd qs)) + 1 in
     conv (Some (s ++ 0 :: post)) 0 (mkUbuf None e) =
       Ret (if i32 L <=? 0 then -1 else i32 L - 1, mkUbuf None e)).
Proof using StringConverter0.
  intros Hn Hu Hs. destruct (sc_run s post 0 (mkUbuf None e) Hn Hu Hs) as (res & read & t' & st' & Hc & Hr);
    [unfold INT_MAX; lia|done|]. rewrite Hr. clear Hr.
  pose proof Hc as (qs & rest & Hqs & E & _ & Ht' & _ & Hst & Hres).
  change (target_of 0) with (@None Z) in *. cbn in Hst. subst st'.
  assert (Hbad : rest <> [] -> ~ exists qs, all_read reads qs /\ s = sequences qs).
  { intros Hne (qs0 & Hq0 & ->).
    destruct (converts_all reads enc (qs0 ++ [([0], 0)]) None 0 (mkUbuf None e) res read t' (mkUbuf None e)) as [Hx|Hx].
    - apply Forall_app. split; [done|]. constructor; [apply tr_zero|done].
    - rewrite sequences_app. done.
    - destruct Hx as (-> & _). done.
    - destruct Hx as (-> & Hx & _). done. }
  destruct res; cbn [conversion_status].
  - right. subst rest. rewrite app_nil_r in E.
    destruct (terminated_sequences reads s qs Hqs E) as (qs' & -> & Hq' & Hs'). exists qs'. split_and!; [done|done|].
    rewrite (terminated_text enc sc_nul), zlen_app in Ht'. change (zlen [0]) with 1 in Ht'. cbv zeta.
    rewrite pbind_pret. unfold finish. rewrite Z.add_0_l in Ht'.
    rewrite <- Ht'. cbn [Z.ltb Z.compare andb]. rewrite orb_false_r. case_if; [done|].
    replace (i32 t' =? 0) with false by lia. done.
  - left. split; [done|]. apply Hbad. by destruct Hres.
  - exfalso. destruct Hres as (l & c & rest' & _ & _ & Hx). by apply Hx.
  - left. split; [done|]. apply Hbad. by destruct Hres.
Qed.

(** The call that stores the text into a buffer of [len] units. *)
Lemma store_run s post qs len e :
  no_nul s -> Forall (fun u => 0 <= u < 2 ^ w) s -> zlen s < INT_MAX -> 0 < len <= INT_MAX ->
  all_read reads qs -> s = sequences qs ->
  let out := text enc (map snd qs) ++ [0] in
  exists d e', zlen d = len /\
    conv (Some (s ++ 0 :: post)) len (mkUbuf (Some (zrep len 0)) e) =
      Ret (if zlen out =? len then len - 1 else if zlen out <? len then zlen out - 1 else -1, mkUbuf (Some d) e') /\
    (zlen out = len -> d = out).
Proof using StringConverter0.
  intros Hn Hu Hs Hlen Hqs Es out. set (st := mkUbuf (Some (zrep len 0)) e).
  assert (Hd : zlen (zrep len 0) = len) by (rewrite zlen_zrep; lia).
  assert (Ht : target_of len = Some len) by (unfold target_of; by replace (len =? 0) with false by lia).
  destruct (sc_run s post len st Hn Hu Hs) as (res & read & t' & st' & Hc & Hr);
    [lia|rewrite Ht; exists (zrep len 0); split; [done|lia]|].
  rewrite Hr. clear Hr. rewrite Ht in Hc.
  assert (Hall : all_read reads (qs ++ [([0], 0)])).
  { apply Forall_app. split; [done|]. constructor; [apply tr_zero|done]. }
  assert (Es' : s ++ [0] = sequences (qs ++ [([0], 0)])) by (rewrite sequences_app, Es; done). rewrite Es' in Hc.
  destruct (converts_all reads enc _ _ _ _ _ _ _ _ Hall Hc) as [(-> & _ & -> & Hf & ->)|(-> & Hnf & us & -> & Hfu)].
  - rewrite (terminated_text enc sc_nul) in Hf |- *. fold out in Hf |- *. cbn in Hf. assert (Hpos : 0 < zlen out).
    { unfold out. rewrite zlen_app. change (zlen [0]) with 1. pose proof (zlen_nonneg (text enc (map snd qs))). lia. }
    cbn [conversion_status]. rewrite pbind_pret. unfold finish, u_write, st. cbn [u_dst u_error].
    rewrite Z.add_0_l, i32_id by (unfold INT_MAX in *; lia).
    replace ((zlen out <=? 0) || ((0 <? len) && (len <? zlen out))) with false by lia.
    assert (Hz : zlen (splice 0 out (zrep len 0)) = len) by (rewrite zlen_splice; lia).
    exists (splice 0 out (zrep len 0)), e. split; [done|].
    destruct (zlen out =? len) eqn:El.
    + assert (Eo : splice 0 out (zrep len 0) = out).
      { unfold splice. rewrite ztake_0, zdrop_all, app_nil_r by lia. done. }
      rewrite Eo. split; [|done]. rewrite (pbind_ret _ _ _ _ _ (terminated_end (text enc (map snd qs)) e)).
      unfold pret. do 2 f_equal. lia.
    + split; [|lia]. rewrite pbind_pret. replace (zlen out <? len) with true by lia. done.
  - rewrite (terminated_text enc sc_nul) in Hnf. fold out in Hnf. cbn in Hnf, Hfu. cbn [conversion_status]. unfold SetLastError. unfold u_write, st. cbn [u_dst u_error].
    exists (splice 0 us (zrep len 0)), ERROR_INSUFFICIENT_BUFFER.
    split; [rewrite zlen_splice; lia|]. split; [|lia].
    replace (zlen out =? len) with false by lia. by replace (zlen out <? len) with false by lia.
Qed.

Lemma sequences_inj qs qs' :
  all_read reads qs -> all_read reads qs' -> sequences qs = sequences qs' -> qs = qs'.
Proof using StringConverter0.
  intros H1 H2 E. destruct (sequences_prefix reads qs qs' [] H1 H2) as (q1 & -> & E1); [by rewrite app_nil_r|].
  apply Forall_app in H1 as [_ H1]. symmetry in E1. apply (sequences_nil reads) in E1; [|done].
  by rewrite E1, app_nil_r.
Qed.

(** A string is the terminated encoding of the characters of [s], with its length; there is one
    if [s] consists of characters, the length is an [int], and memory is granted. *)
Definition alloc_result (size : Z) (s : list Z) (r : option (list Z * Z)) : Prop :=
  (forall buf n, r = Some (buf, n) -> exists qs, all_read reads qs /\ s = sequences qs /\
     buf = text enc (map snd qs) ++ [0] /\ n = zlen (text enc (map snd qs))) /\
  (forall qs, all_read reads qs -> s = sequences qs ->
     let n := zlen (text enc (map snd qs)) in
     n < INT_MAX -> malloc_ok ((n + 1) * size) = true -> r = Some (text enc (map snd qs) ++ [0], n)).

Lemma alloc_result_intro size s qs r :
  let out := text enc (map snd qs) in
  all_read reads qs -> s = sequences qs -> (r = None \/ r = Some (out ++ [0], zlen out)) ->
  (zlen out < INT_MAX -> malloc_ok ((zlen out + 1) * size) = true -> r = Some (out ++ [0], zlen out)) ->
  alloc_result size s r.
Proof using StringConverter0.
  intros out Hq -> Hr Hsome. split.
  - intros buf n ->. exists qs. destruct Hr as [|[= -> ->]]; done.
  - intros qs' Hq' Es. rewrite (sequences_inj qs' qs Hq' Hq (eq_sym Es)). exact Hsome.
Qed.

Lemma convert_alloc_run size s post e :
  no_nul s -> Forall (fun u => 0 <= u < 2 ^ w) s -> zlen s < INT_MAX ->
  exists r e', convert_alloc size (conv (Some (s ++ 0 :: post))) e = Ret (r, e') /\ alloc_result size s r.
Proof using StringConverter0.
  intros Hn Hu Hs. unfold convert_alloc.
  destruct (length_run s post e Hn Hu Hs) as [[Hr Hno]|(qs & Hq & Es & Hr)].
  { rewrite (bound_with_target _ _ _ _ _ _ Hr). exists None, e. split; [done|]. split; [done|].
    intros qs Hq Es. exfalso. eauto. }
  cbv zeta in Hr. set (out := text enc (map snd qs)) in *. pose proof (zlen_nonneg out) as Hz.
  rewrite (bound_with_target _ _ _ _ _ _ Hr). cbn [fst snd u_dst u_error]. cbv zeta.
  pose proof (i32_below (zlen out + 1) ltac:(lia)) as Hi. pose proof (i32_max (zlen out + 1)) as Him.
  assert (Hid : zlen out < INT_MAX -> i32 (zlen out + 1) = zlen out + 1) by (intros; apply i32_id; unfold INT_MAX in *; lia).
  set (len := i32 (zlen out + 1)) in *. clearbody len.
  assert (Hnone : forall e' : Z, (zlen out < INT_MAX -> malloc_ok ((zlen out + 1) * size) = true -> False) ->
    exists r e0, Ret (@None (list Z * Z), e') = Ret (r, e0) /\ alloc_result size s r).
  { intros e' Hno. exists None, e'. split; [done|]. apply (alloc_result_intro size s qs); [done|done|by left|].
    intros H1 H2. by destruct (Hno H1 H2). }
  destruct (len <=? 0) eqn:E0; [apply Hnone; intros Hlt; specialize (Hid Hlt); lia|].
  replace (len - 1 <? 0) with false by lia. replace (len - 1 + 1) with len by lia.
  destruct (malloc_ok (len * size)) eqn:Em; cbn [negb].
  2: { apply Hnone. intros Hlt. rewrite Hid in Em by done. congruence. }
  destruct (store_run s post qs len e Hn Hu Hs ltac:(lia) Hq Es) as (d & e' & Hd & Hr2 & Hout).
  fold out in Hr2, Hout. assert (Ho : zlen (out ++ [0]) = zlen out + 1) by (by rewrite zlen_app). rewrite Ho in *.
  rewrite (bound_with_target _ _ _ _ _ _ Hr2). cbn [fst snd u_dst u_error].
  destruct (zlen out + 1 =? len) eqn:El.
  - replace (len - 1 <? 0) with false by lia. rewrite pbind_passert, Z.eqb_refl. rewrite Hout by lia.
    eexists _, e'. split; [reflexivity|]. replace (len - 1) with (zlen out) by lia.
    apply (alloc_result_intro size s qs); [done|done|by right|done].
  - replace (zlen out + 1 <? len) with false by lia. apply Hnone. intros Hlt. specialize (Hid Hlt). lia.
Qed.
End allocating.

(** ** Texts as sequences *)

Definition as_sequences (enc : Z -> list Z) (cs : list Z) : list (list Z * Z) := map (fun c => (enc c, c)) cs.

Lemma as_sequences_text enc cs : sequences (as_sequences enc cs) = text enc cs /\ map snd (as_sequences enc cs) = cs.
Proof.
  induction cs as [|c cs [IH1 IH2]]; [done|]. split; [|cbn; f_equal; exact IH2].
  rewrite text_cons, <- IH1. done.
Qed.

Lemma as_sequences_read reads enc cs :
  (forall c, scalar c = true -> reads (enc c) c) -> Forall (fun c => scalar c = true) cs ->
  all_read reads (as_sequences enc cs).
Proof. intros Hr. induction 1; constructor; [by apply Hr|done]. Qed.

Lemma text_no_nul enc cs :
  (forall c, scalar c = true -> c <> 0 -> no_nul (enc c)) ->
  Forall (fun c => scalar c = true /\ c <> 0) cs -> no_nul (text enc cs).
Proof.
  intros He. induction 1 as [|c cs [Hc Hc0] _ IH]; [constructor|]. rewrite text_cons. apply Forall_app.
  split; [by apply He|done].
Qed.

Lemma enc16_no_nul c : scalar c = true -> c <> 0 -> no_nul (enc16 c).
Proof. unfold scalar, enc16. intros Hc Hc0. case_char; repeat constructor; char_lia. Qed.

Lemma enc8_no_nul c : scalar c = true -> c <> 0 -> no_nul (enc8 c).
Proof. unfold scalar, enc8. intros Hc Hc0. case_char; repeat constructor; char_lia. Qed.

Lemma utf8_alloc_text `{Malloc} cs post e :
  Forall (fun c => scalar c = true /\ c <> 0) cs -> zlen (text enc8 cs) < INT_MAX -> zlen (text enc16 cs) < INT_MAX ->
  malloc_ok ((zlen (text enc16 cs) + 1) * 2) = true ->
  exists e', ConvertUtf8ToWCharAlloc (Some (text enc8 cs ++ 0 :: post)) e = Ret (Some (text enc16 cs ++ [0], zlen (text enc16 cs)), e').
Proof.
  intros Hcs H8 H16 Hm. assert (Hsc : Forall (fun c => scalar c = true) cs) by (eapply Forall_impl; [exact Hcs|by intros ? []]).
  destruct (convert_alloc_run reads8 enc16 8 ConvertUtf8ToWChar 2 (text enc8 cs) post e) as (r & e' & Hr & _ & Hsome).
  - apply text_no_nul; [apply enc8_no_nul|done].
  - apply text_units; [apply enc8_units|done].
  - done.
  - exists e'. unfold ConvertUtf8ToWCharAlloc. rewrite Hr. destruct (as_sequences_text enc8 cs) as [E1 E2].
    rewrite (Hsome (as_sequences enc8 cs)); rewrite ?E2; try done. apply as_sequences_read; [apply reads8_enc|done].
Qed.

Lemma utf8_alloc_null `{Malloc} e : malloc_ok 2 = true -> ConvertUtf8ToWCharAlloc None e = Ret (Some ([0], 0), e).
Proof.
  intros Hm. unfold ConvertUtf8ToWCharAlloc, convert_alloc.
  rewrite (bound_with_target None (ConvertUtf8ToWChar None 0) _ e 0 (mkUbuf None e) eq_refl). cbn [fst u_error].
  change ((0 + 1) * 2) with 2. rewrite Hm. reflexivity.
Qed.

(** ** Properties *)

(** The allocating conversions of terminated strings, in both directions and on any string of
    less than 2^31 - 1 units, return: they never read or write outside of the strings, and the
    length found by the first pass is the one stored by the second, also where an [int] cannot
    hold it.  A result is the terminated encoding of the characters of the source with its
    length, and there is a result whenever the source consists of characters, the length is an
    [int] and memory is granted.  A NULL pointer gives the empty string. *)
Theorem unicode_alloc_correct `{Malloc} (s post : list Z) (e : Z) :
  no_nul s -> zlen s < INT_MAX ->
  (Forall (fun u => 0 <= u < 2 ^ 16) s ->
   exists r e', ConvertWCharToUtf8Alloc (Some (s ++ 0 :: post)) e = Ret (r, e') /\
     alloc_result reads16 enc8 1 s r) /\
  (Forall (fun u => 0 <= u < 2 ^ 8) s ->
   exists r e', ConvertUtf8ToWCharAlloc (Some (s ++ 0 :: post)) e = Ret (r, e') /\
     alloc_result reads8 enc16 2 s r) /\
  (malloc_ok 1 = true -> ConvertWCharToUtf8Alloc None e = Ret (Some ([0], 0), e)) /\
  (malloc_ok 2 = true -> ConvertUtf8ToWCharAlloc None e = Ret (Some ([0], 0), e)).
Proof.
  intros Hn Hs. split_and!.
  - intros Hu. by apply (convert_alloc_run reads16 enc8 16 ConvertWCharToUtf8).
  - intros Hu. by apply (convert_alloc_run reads8 enc16 8 ConvertUtf8ToWChar).
  - intros Hm. unfold ConvertWCharToUtf8Alloc, convert_alloc.
    rewrite (bound_with_target None (ConvertWCharToUtf8 None 0) _ e 0 (mkUbuf None e) eq_refl). cbn [fst u_error].
    change ((0 + 1) * 1) with 1. rewrite Hm. reflexivity.
  - apply utf8_alloc_null.
Qed.

Lemma unicode_alloc_correct_witness :
  exists r e', @ConvertUtf8ToWCharAlloc malloc_all (Some ([0xC3; 0xA9; 0x80] ++ 0 :: [])) 0 = Ret (r, e') /\ r = None.
Proof.
  destruct (@unicode_alloc_correct malloc_all [0xC3; 0xA9; 0x80] [] 0) as (_ & H & _);
    [repeat (constructor; [lia|]); constructor|by vm_compute|].
  destruct H as (r & e' & Hr & _); [repeat (constructor; [lia|]); constructor|].
  exists r, e'. split; [exact Hr|]. vm_compute in Hr. by injection Hr as <- <-.
Defined.

(** C38: converting a string of characters from UTF-16 to UTF-8 and back, or from UTF-8 to UTF-16 and
    back, returns it, whatever follows its terminator in memory: both conversions map the
    encodings of the same characters to each other, terminated and with their length. *)
Theorem unicode_roundtrip `{Malloc} (cs post : list Z) (e : Z) :
  let n8 := zlen (text enc8 cs) in
  let n16 := zlen (text enc16 cs) in
  Forall (fun c => scalar c = true /\ c <> 0) cs -> n8 < INT_MAX -> n16 < INT_MAX ->
  malloc_ok (n8 + 1) = true -> malloc_ok ((n16 + 1) * 2) = true ->
  (exists e', ConvertWCharToUtf8Alloc (Some (text enc16 cs ++ 0 :: post)) e =
     Ret (Some (text enc8 cs ++ [0], n8), e')) /\
  (exists e', ConvertUtf8ToWCharAlloc (Some (text enc8 cs ++ 0 :: post)) e =
     Ret (Some (text enc16 cs ++ [0], n16), e')).
Proof.
  intros n8 n16 Hcs H8 H16 Hm8 Hm16.
  assert (Hsc : Forall (fun c => scalar c = true) cs) by (eapply Forall_impl; [exact Hcs|by intros ? []]).
  split.
  - destruct (convert_alloc_run reads16 enc8 16 ConvertWCharToUtf8 1 (text enc16 cs) post e)
      as (r & e' & Hr & _ & Hsome).
    + apply text_no_nul; [apply enc16_no_nul|done].
    + apply text_units; [apply enc16_units|done].
    + done.
    + exists e'. unfold ConvertWCharToUtf8Alloc. rewrite Hr. destruct (as_sequences_text enc16 cs) as [E1 E2].
      rewrite (Hsome (as_sequences enc16 cs)); rewrite ?E2, ?Z.mul_1_r; try done.
      by apply as_sequences_read.
  - by apply utf8_alloc_text.
Qed.

Lemma unicode_roundtrip_witness :
  (exists e', @ConvertWCharToUtf8Alloc malloc_all (Some (text enc16 [0x20AC; 0x1F600] ++ 0 :: [])) 0 =
     Ret (Some (text enc8 [0x20AC; 0x1F600] ++ [0], 7), e')) /\
  text enc8 [0x20AC; 0x1F600] = [0xE2; 0x82; 0xAC; 0xF0; 0x9F; 0x98; 0x80].
Proof.
  split; [|by vm_compute].
  refine (proj1 (@unicode_roundtrip malloc_all [0x20AC; 0x1F600] [] 0 _ _ _ _ _));
    [|vm_compute; reflexivity..].
  repeat (constructor; [split; [reflexivity|lia]|]). constructor.
Defined.
