(* ===== verification/Nego.v ===== *)
(** * Protocol security negotiation: [libfreerdp/core/nego.c], [nego.h]

    The client tries the enabled security protocols from the strongest to the weakest: it sends
    a connection request that names protocols, reads the answer of the server and either
    settles on a protocol or falls back to the next one.  The server reads the request and
    answers it.

    The state of a call is [nworld]: the [rdpNego] object, the settings it reads and writes, the
    last error of the thread, and the transport, of which only the operations ([Transport]) are
    known here.  PDUs are built and read in [wStream]s.  The conversion of the preconnection blob
    is stored as the machine stores it: the model is of a little-endian host. *)

From S2P Require Import Prelude Memory Stream Framing Unicode UnicodeApi.

(** ** Constants *)

Definition PROTOCOL_RDP : Z := 0.
Definition PROTOCOL_SSL : Z := 1.
Definition PROTOCOL_HYBRID : Z := 2.
Definition PROTOCOL_RDSTLS : Z := 4.
Definition PROTOCOL_HYBRID_EX : Z := 8.
Definition PROTOCOL_RDSAAD : Z := 16.
Definition PROTOCOL_FAILED_NEGO : Z := 0x80000000.

Definition TYPE_RDP_NEG_REQ : Z := 1.
Definition TYPE_RDP_NEG_RSP : Z := 2.
Definition TYPE_RDP_NEG_FAILURE : Z := 3.
Definition TYPE_RDP_CORRELATION_INFO : Z := 6.

Definition SSL_NOT_ALLOWED_BY_SERVER : Z := 2.
Definition SSL_CERT_NOT_ON_SERVER : Z := 3.

Definition EXTENDED_CLIENT_DATA_SUPPORTED : Z := 1.
Definition DYNVC_GFX_PROTOCOL_SUPPORTED : Z := 2.
Definition RESTRICTED_ADMIN_MODE_SUPPORTED : Z := 8.
Definition REDIRECTED_AUTHENTICATION_MODE_SUPPORTED : Z := 16.

Definition RESTRICTED_ADMIN_MODE_REQUIRED : Z := 1.
Definition REDIRECTED_AUTHENTICATION_MODE_REQUIRED : Z := 2.
Definition CORRELATION_INFO_PRESENT : Z := 8.

Definition PRECONNECTION_PDU_V2_MIN_SIZE : Z := 18.
Definition PRECONNECTION_PDU_V2 : Z := 2.
Definition DEFAULT_COOKIE_MAX_LENGTH : Z := 255.
Definition TPDU_CONNECTION_REQUEST_LENGTH : Z := 11.
Definition TPDU_CONNECTION_CONFIRM_LENGTH : Z := 11.

Definition ENCRYPTION_METHODS_ALL : Z := Z.lor 1 (Z.lor 8 (Z.lor 2 16)).
Definition ENCRYPTION_LEVEL_NONE : Z := 0.
Definition ENCRYPTION_LEVEL_CLIENT_COMPATIBLE : Z := 2.

(** ** Data *)

Inductive NEGO_STATE : Type :=
| NEGO_STATE_INITIAL | NEGO_STATE_RDSTLS | NEGO_STATE_AAD | NEGO_STATE_EXT | NEGO_STATE_NLA
| NEGO_STATE_TLS | NEGO_STATE_RDP | NEGO_STATE_FAIL | NEGO_STATE_FINAL.

#[global] Instance NEGO_STATE_eq_dec : EqDecision NEGO_STATE.
Proof. solve_decision. Defined.

(** The object; strings are their bytes without the terminator, [None] is NULL. *)
Record rdpNego : Type := mkNego {
  port : Z;
  flags : Z;
  hostname : option (list Z);
  cookie : option (list Z);
  RoutingToken : option (list Z);
  RoutingTokenLength : Z;
  SendPreconnectionPdu : bool;
  PreconnectionId : Z;
  PreconnectionBlob : option (list Z);
  state : NEGO_STATE;
  TcpConnected : bool;
  SecurityConnected : bool;
  CookieMaxLength : Z;
  sendNegoData : bool;
  SelectedProtocol : Z;
  RequestedProtocols : Z;
  NegotiateSecurityLayer : bool;
  EnabledProtocols : list bool;
  RestrictedAdminModeRequired : bool;
  RemoteCredsGuardRequired : bool;
  RemoteCredsGuardActive : bool;
  RemoteCredsGuardSupported : bool;
  GatewayEnabled : bool;
  GatewayBypassLocal : bool;
  ConnectChildSession : bool
}.

#[global] Instance eta_rdpNego : Eta rdpNego := fun n =>
  mkNego (port n) (flags n) (hostname n) (cookie n) (RoutingToken n) (RoutingTokenLength n)
    (SendPreconnectionPdu n) (PreconnectionId n) (PreconnectionBlob n) (state n) (TcpConnected n)
    (SecurityConnected n) (CookieMaxLength n) (sendNegoData n) (SelectedProtocol n)
    (RequestedProtocols n) (NegotiateSecurityLayer n) (EnabledProtocols n)
    (RestrictedAdminModeRequired n) (RemoteCredsGuardRequired n) (RemoteCredsGuardActive n)
    (RemoteCredsGuardSupported n) (GatewayEnabled n) (GatewayBypassLocal n)
    (ConnectChildSession n).

(** The settings the negotiation reads and writes; [RdpServerRsaKey] tells whether there is one. *)
Record rdpSettings : Type := mkSettings {
  FreeRDP_RequestedProtocols : Z;
  FreeRDP_SelectedProtocol : Z;
  FreeRDP_NegotiationFlags : Z;
  FreeRDP_TcpConnectTimeout : Z;
  FreeRDP_UseRdpSecurityLayer : bool;
  FreeRDP_EncryptionMethods : Z;
  FreeRDP_EncryptionLevel : Z;
  FreeRDP_TlsSecurity : bool;
  FreeRDP_NlaSecurity : bool;
  FreeRDP_RdstlsSecurity : bool;
  FreeRDP_RdpSecurity : bool;
  FreeRDP_LocalConnection : bool;
  FreeRDP_SupportGraphicsPipeline : bool;
  FreeRDP_RestrictedAdminModeRequired : bool;
  FreeRDP_RdpServerRsaKey : bool
}.

#[global] Instance eta_rdpSettings : Eta rdpSettings := fun s =>
  mkSettings (FreeRDP_RequestedProtocols s) (FreeRDP_SelectedProtocol s)
    (FreeRDP_NegotiationFlags s) (FreeRDP_TcpConnectTimeout s) (FreeRDP_UseRdpSecurityLayer s)
    (FreeRDP_EncryptionMethods s) (FreeRDP_EncryptionLevel s) (FreeRDP_TlsSecurity s)
    (FreeRDP_NlaSecurity s) (FreeRDP_RdstlsSecurity s) (FreeRDP_RdpSecurity s)
    (FreeRDP_LocalConnection s) (FreeRDP_SupportGraphicsPipeline s)
    (FreeRDP_RestrictedAdminModeRequired s) (FreeRDP_RdpServerRsaKey s).

(** [EnabledProtocols] has 32 entries, indexed by the protocol constants. *)
Definition enabled (p : Z) (n : rdpNego) : bool := nth (Z.to_nat p) (EnabledProtocols n) false.
Definition set_enabled (p : Z) (b : bool) (n : rdpNego) : rdpNego :=
  n <| EnabledProtocols := <[Z.to_nat p := b]> (EnabledProtocols n) |>.

Definition nego_set_state (st : NEGO_STATE) (n : rdpNego) : rdpNego := n <| state := st |>.
Definition nego_set_selected_protocol (p : Z) (n : rdpNego) : rdpNego := n <| SelectedProtocol := p |>.
Definition nego_set_requested_protocols (p : Z) (n : rdpNego) : rdpNego :=
  n <| RequestedProtocols := p |>.

(** ** The transport

    The operations of [libfreerdp/core/transport.c] the negotiation calls, over a world [W]. *)
Class Transport (W : Type) : Type := {
  transport_connect : option (list Z) -> Z -> Z -> Prog W bool;
  transport_connect_childsession : Prog W bool;
  transport_set_gateway_enabled : bool -> Prog W unit;
  transport_connect_rdp : Prog W bool;
  transport_connect_tls : Prog W bool;
  transport_connect_nla : bool -> Prog W bool;
  transport_connect_rdstls : Prog W bool;
  transport_connect_aad : Prog W bool;
  transport_disconnect : Prog W bool;
  transport_write : wStream -> Prog W Z;
  transport_read_pdu : wStream -> Prog W (Z * wStream)
}.

Record nworld (W : Type) : Type := mkWorld {
  nego : rdpNego;
  settings : rdpSettings;
  last_error : Z;
  transport : W
}.
Arguments mkWorld {W}.
Arguments nego {W}.
Arguments settings {W}.
Arguments last_error {W}.
Arguments transport {W}.

#[global] Instance eta_nworld W : Eta (nworld W) := fun w =>
  mkWorld (nego w) (settings w) (last_error w) (transport w).

(** ** Object and setters *)

Section setters.
Context `{Malloc}.
Implicit Types n : rdpNego.

Definition nego_init n : rdpNego :=
  nego_set_state NEGO_STATE_INITIAL n
    <| RequestedProtocols := PROTOCOL_RDP |> <| CookieMaxLength := DEFAULT_COOKIE_MAX_LENGTH |>
    <| sendNegoData := false |> <| flags := 0 |>.

(** [calloc (1, sizeof (rdpNego))], then [nego_init]. *)
Definition nego_new : option rdpNego :=
  if malloc_ok 256 then
    Some (nego_init (mkNego 0 0 None None None 0 false 0 None NEGO_STATE_INITIAL false false 0 false
                       0 0 false (replicate 32 false) false false false false false false false))
  else None.

Definition nego_set_target (host : option (list Z)) (p : Z) n : bool * rdpNego :=
  match host with
  | None => (false, n)
  | Some h => (true, n <| hostname := Some h |> <| port := p |>)
  end.
Definition nego_set_negotiation_enabled (b : bool) n : rdpNego := n <| NegotiateSecurityLayer := b |>.
Definition nego_set_restricted_admin_mode_required (b : bool) n : rdpNego :=
  n <| RestrictedAdminModeRequired := b |>.
Definition nego_set_RCG_required (b : bool) n : rdpNego := n <| RemoteCredsGuardRequired := b |>.
Definition nego_set_RCG_supported (b : bool) n : rdpNego := n <| RemoteCredsGuardSupported := b |>.
Definition nego_get_remoteCredentialGuard n : bool := RemoteCredsGuardActive n.
Definition nego_set_childsession_enabled (b : bool) n : rdpNego := n <| ConnectChildSession := b |>.
Definition nego_set_gateway_enabled (b : bool) n : rdpNego := n <| GatewayEnabled := b |>.
Definition nego_set_gateway_bypass_local (b : bool) n : rdpNego := n <| GatewayBypassLocal := b |>.
Definition nego_enable_rdp (b : bool) n : rdpNego := set_enabled PROTOCOL_RDP b n.
Definition nego_enable_tls (b : bool) n : rdpNego := set_enabled PROTOCOL_SSL b n.
Definition nego_enable_nla (b : bool) n : rdpNego := set_enabled PROTOCOL_HYBRID b n.
Definition nego_enable_rdstls (b : bool) n : rdpNego := set_enabled PROTOCOL_RDSTLS b n.
Definition nego_enable_ext (b : bool) n : rdpNego := set_enabled PROTOCOL_HYBRID_EX b n.
(** [supported] is what [aad_is_supported] answers, a property of the build. *)
Definition nego_enable_aad (supported b : bool) n : rdpNego :=
  if supported then set_enabled PROTOCOL_RDSAAD b n else n.

(** The bytes of [len] octets at a pointer to [mem]. *)
Definition read_mem (len : Z) (mem : list Z) : outcome (list Z) :=
  if len <=? zlen mem then Ret (ztake len mem) else Abort.

Definition nego_set_routing_token (token : list Z) (len : Z) n : outcome (bool * rdpNego) :=
  if len =? 0 then Ret (false, n)
  else
    let n1 := n <| RoutingTokenLength := len |> in
    if negb (malloc_ok len) then Ret (false, n1 <| RoutingToken := None |>)
    else match read_mem len token with
         | Ret bs => Ret (true, n1 <| RoutingToken := Some bs |>)
         | Abort => Abort
         | Hang => Hang
         end.

(** [mem] is what follows the pointer; [_strdup] copies up to its terminator. *)
Definition nego_set_cookie (mem : option (list Z)) n : outcome (bool * rdpNego) :=
  let n1 := n <| cookie := None |> in
  match mem with
  | None => Ret (true, n1)
  | Some c =>
      match c_strlen c with
      | Ret len =>
          if malloc_ok (len + 1) then Ret (true, n1 <| cookie := Some (ztake len c) |>)
          else Ret (false, n1)
      | Abort => Abort
      | Hang => Hang
      end
  end.

Definition nego_set_cookie_max_length (l : Z) n : rdpNego := n <| CookieMaxLength := l |>.
Definition nego_set_send_preconnection_pdu (b : bool) n : rdpNego := n <| SendPreconnectionPdu := b |>.
Definition nego_set_preconnection_id (i : Z) n : rdpNego := n <| PreconnectionId := i |>.
Definition nego_set_preconnection_blob (b : option (list Z)) n : rdpNego := n <| PreconnectionBlob := b |>.
Definition nego_get_routing_token n : option (list Z) * Z := (RoutingToken n, RoutingTokenLength n).
End setters.

(** ** Reading PDUs

    A handler works on the object and the stream it is passed. *)
Definition nstate : Type := rdpNego * wStream.
Definition on_stream {A} (m : Prog wStream A) : Prog nstate A := pzoom snd (fun s p => (p.1, s)) m.
Definition set_nego (f : rdpNego -> rdpNego) : Prog nstate unit := pmodify (fun p => (f p.1, p.2)).
Definition get_nego : Prog nstate rdpNego := fun p => Ret (p.1, p).
(** A setter that reports a BOOL. *)
Definition call_nego {A} (f : rdpNego -> outcome (A * rdpNego)) : Prog nstate A :=
  pzoom fst (fun n p => (n, p.2)) f.

Definition nego_process_negotiation_response : Prog nstate bool :=
  ok <- on_stream (Stream_CheckAndLogRequiredLength 7) ;;
  if negb ok then set_nego (nego_set_state NEGO_STATE_FAIL) ;; pret false
  else
    fl <- on_stream (stream_read_u8 true) ;;
    set_nego (fun n => n <| flags := fl |>) ;;
    length <- on_stream (stream_read_u16_le true) ;;
    if negb (length =? 8) then set_nego (nego_set_state NEGO_STATE_FAIL) ;; pret false
    else
      selected <- on_stream (stream_read_u32_le true) ;;
      set_nego (nego_set_selected_protocol selected) ;;
      set_nego (nego_set_state NEGO_STATE_FINAL) ;;
      pret true.

Definition nego_process_negotiation_failure : Prog nstate bool :=
  ok <- on_stream (Stream_CheckAndLogRequiredLength 7) ;;
  if negb ok then pret false
  else
    fl <- on_stream (stream_read_u8 true) ;;
    if negb (fl =? 0) then pret false
    else
      length <- on_stream (stream_read_u16_le true) ;;
      if negb (length =? 8) then pret false
      else
        failureCode <- on_stream (stream_read_u32_le true) ;;
        (if (failureCode =? SSL_NOT_ALLOWED_BY_SERVER) || (failureCode =? SSL_CERT_NOT_ON_SERVER)
         then set_nego (fun n => n <| sendNegoData := true |>)
         else pret tt) ;;
        set_nego (nego_set_state NEGO_STATE_FAIL) ;;
        pret true.

(** The checks of [nego_recv] on a selected protocol. *)
Definition check_selected (n : rdpNego) : rdpNego :=
  let fail_if (b : bool) n := if b then nego_set_state NEGO_STATE_FAIL n else n in
  let p := SelectedProtocol n in
  if negb (p =? PROTOCOL_RDP) then
    let n := fail_if ((p =? PROTOCOL_RDSAAD) && negb (enabled PROTOCOL_RDSAAD n)) n in
    let n := fail_if ((p =? PROTOCOL_HYBRID) && negb (enabled PROTOCOL_HYBRID n)) n in
    fail_if ((p =? PROTOCOL_SSL) && negb (enabled PROTOCOL_SSL n)) n
  else fail_if (negb (enabled PROTOCOL_RDP n)) n.

Definition recv_end (length : Z) : Prog nstate Z :=
  ok <- on_stream (tpkt_ensure_stream_consumed length) ;; pret (if ok : bool then 0 else -1).

Definition nego_recv : Prog nstate Z :=
  h <- on_stream tpkt_read_header ;;
  match h with
  | None => pret (-1)
  | Some length =>
      c <- on_stream (tpdu_read_connection_confirm length) ;;
      match c with
      | None => pret (-1)
      | Some li =>
          if 6 <? li then
            type <- on_stream (stream_read_u8 true) ;;
            if type =? TYPE_RDP_NEG_RSP then
              ok <- nego_process_negotiation_response ;;
              if negb ok then pret (-1) else set_nego check_selected ;; recv_end length
            else if type =? TYPE_RDP_NEG_FAILURE then
              ok <- nego_process_negotiation_failure ;;
              if negb ok then pret (-1) else recv_end length
            else recv_end length
          else if li =? 6 then
            n <- get_nego ;;
            set_nego (nego_set_state (if negb (enabled PROTOCOL_RDP n) then NEGO_STATE_FAIL
                                      else NEGO_STATE_FINAL)) ;;
            recv_end length
          else set_nego (nego_set_state NEGO_STATE_FAIL) ;; recv_end length
      end
  end.

(** *** The request, on the server *)

Definition is_correlation_byte (b : Z) : bool := negb (b =? 0x0D).

Definition nego_process_correlation_info : Prog wStream bool :=
  ok <- Stream_CheckAndLogRequiredLength 36 ;;
  if negb ok then pret false
  else
    type <- stream_read_u8 true ;;
    if negb (type =? TYPE_RDP_CORRELATION_INFO) then pret false
    else
      fl <- stream_read_u8 true ;;
      if negb (fl =? 0) then pret false
      else
        length <- stream_read_u16_le true ;;
        if negb (length =? 36) then pret false
        else
          correlationId <- Stream_Read 16 ;;
          if (znth correlationId 0 =? 0x00) || (znth correlationId 0 =? 0xF4) then pret false
          else if negb (forallb is_correlation_byte correlationId) then pret false
          else Stream_Seek 16 ;; pret true.

Definition NEG_REQ_FLAGS : Z :=
  Z.lor RESTRICTED_ADMIN_MODE_REQUIRED
    (Z.lor REDIRECTED_AUTHENTICATION_MODE_REQUIRED CORRELATION_INFO_PRESENT).
Definition has_flag (fl mask : Z) : bool := negb (Z.land fl mask =? 0).

(** The part after the flags were accepted. *)
Definition process_request_body (fl : Z) : Prog nstate bool :=
  length <- on_stream (stream_read_u16_le true) ;;
  if negb (length =? 8) then pret false
  else
    requested <- on_stream (stream_read_u32_le true) ;;
    set_nego (nego_set_requested_protocols requested) ;;
    ok <- (if has_flag fl CORRELATION_INFO_PRESENT then on_stream nego_process_correlation_info else pret true) ;;
    if negb ok then pret false
    else set_nego (nego_set_state NEGO_STATE_FINAL) ;; pret true.

Definition nego_process_negotiation_request : Prog nstate bool :=
  ok <- on_stream (Stream_CheckAndLogRequiredLength 7) ;;
  if negb ok then pret false
  else
    fl <- on_stream (stream_read_u8 true) ;;
    if has_flag fl (Z.lnot NEG_REQ_FLAGS) then pret false
    else
      n <- get_nego ;;
      if has_flag fl REDIRECTED_AUTHENTICATION_MODE_REQUIRED then
        if negb (RemoteCredsGuardSupported n) then pret false
        else set_nego (fun n => n <| RemoteCredsGuardActive := true |>) ;; process_request_body fl
      else process_request_body fl.

(** [memcmp (Stream_ConstPointer (s), lit, |lit|) == 0]: all bytes have to be in the buffer. *)
Definition at_cursor (lit : list Z) : Prog wStream bool :=
  s <- pget ;;
  if pointer s + zlen lit <=? zlen (buffer s)
  then pret (bool_decide (ztake (zlen lit) (zdrop (pointer s) (buffer s)) = lit))
  else plift Abort.

(** "Cookie: mstshash=", "Cookie: msts=", "tsv:", "mth://" *)
Definition mstshash : list Z := [67; 111; 111; 107; 105; 101; 58; 32; 109; 115; 116; 115; 104; 97; 115; 104; 61].
Definition msts : list Z := [67; 111; 111; 107; 105; 101; 58; 32; 109; 115; 116; 115; 61].
Definition tsv : list Z := [116; 115; 118; 58].
Definition mth : list Z := [109; 116; 104; 58; 47; 47].

(** [while (Stream_GetRemainingLength (s) >= 2)]; a round leaves the loop or moves on by one. *)
Fixpoint find_crlf (fuel : nat) (crlf : Z) : Prog wStream Z :=
  rem <- Stream_GetRemainingLength ;;
  if 2 <=? rem then
    match fuel with
    | O => plift Hang
    | S f =>
        c <- stream_read_u16_le true ;;
        if c =? 0x0A0D then pret c else Stream_Rewind 1 ;; find_crlf f c
    end
  else pret crlf.

Section request.
Context `{Malloc}.

(** The part after the kind of the string is known. *)
Definition read_token_or_cookie (isToken : bool) (pos remain : Z) : Prog nstate bool :=
  crlf <- on_stream (find_crlf (Z.to_nat remain) 0) ;;
  result <-
    (if crlf =? 0x0A0D then
       on_stream (Stream_Rewind 2) ;;
       here <- on_stream Stream_GetPosition ;;
       let len := u64 (here - pos) in
       on_stream (Stream_Write_UINT16 0) ;;
       s <- on_stream pget ;;
       let str := zdrop pos (buffer s) in
       l <- plift (c_strnlen (Z.to_nat len) str) ;;
       if l =? len then
         if isToken then call_nego (nego_set_routing_token str len)
         else call_nego (nego_set_cookie (Some str))
       else pret false
     else pret false) ;;
  if negb result then on_stream (Stream_SetPosition pos) ;; pret false else pret true.

Definition nego_read_request_token_or_cookie : Prog nstate bool :=
  remain <- on_stream Stream_GetRemainingLength ;;
  pos <- on_stream Stream_GetPosition ;;
  if remain <? 15 then pret true
  else
    is_cookie <- on_stream (at_cursor mstshash) ;;
    if negb is_cookie then
      b <- on_stream (at_cursor msts) ;;
      b <- (if b : bool then pret true else on_stream (at_cursor tsv)) ;;
      b <- (if b : bool then pret true else on_stream (at_cursor mth)) ;;
      if negb b then pret true else read_token_or_cookie true pos remain
    else if remain <? 19 then pret true
    else on_stream (Stream_Seek 17) ;; read_token_or_cookie false pos remain.

Definition nego_read_request : Prog nstate bool :=
  h <- on_stream tpkt_read_header ;;
  match h with
  | None => pret false
  | Some length =>
      c <- on_stream (tpdu_read_connection_request length) ;;
      match c with
      | None => pret false
      | Some li =>
          rem <- on_stream Stream_GetRemainingLength ;;
          if negb (li =? rem + 6) then pret false
          else
            ok <- nego_read_request_token_or_cookie ;;
            if negb ok then pret false
            else
              rem <- on_stream Stream_GetRemainingLength ;;
              if 8 <=? rem then
                type <- on_stream (stream_read_u8 true) ;;
                if negb (type =? TYPE_RDP_NEG_REQ) then pret false
                else
                  ok <- nego_process_negotiation_request ;;
                  if negb ok then pret false else on_stream (tpkt_ensure_stream_consumed length)
              else on_stream (tpkt_ensure_stream_consumed length)
      end
  end.
End request.

(** ** Writing PDUs *)

Section writing.
Implicit Types n : rdpNego.

(** Does the routing token end in CR LF? *)
Definition token_terminated (token : list Z) (len : Z) : bool :=
  (2 <? len) && (znth token (len - 2) =? 0x0D) && (znth token (len - 1) =? 0x0A).

(** The token or cookie; the result is the number of bytes counted for it. *)
Definition write_token_or_cookie n : Prog wStream Z :=
  match RoutingToken n with
  | Some token =>
      let len := RoutingTokenLength n in
      bs <- plift (read_mem len token) ;;
      Stream_Write bs ;;
      if token_terminated token len then pret len
      else Stream_Write_UINT8 0x0D ;; Stream_Write_UINT8 0x0A ;; pret (len + 2)
  | None =>
      match cookie n with
      | Some c =>
          let cookie_length := if CookieMaxLength n <? zlen c then CookieMaxLength n else zlen c in
          Stream_Write mstshash ;;
          Stream_Write (ztake cookie_length c) ;;
          Stream_Write_UINT8 0x0D ;;
          Stream_Write_UINT8 0x0A ;;
          pret (cookie_length + 19)
      | None => pret 0
      end
  end.

Definition request_flags n : Z :=
  Z.lor (if RestrictedAdminModeRequired n then RESTRICTED_ADMIN_MODE_REQUIRED else 0)
        (if RemoteCredsGuardRequired n then REDIRECTED_AUTHENTICATION_MODE_REQUIRED else 0).

(** The RDP_NEG_REQ, RDP_NEG_RSP or RDP_NEG_FAILURE structure. *)
Definition write_neg_data (type fl value : Z) : Prog wStream unit :=
  Stream_Write_UINT8 type ;;
  Stream_Write_UINT8 fl ;;
  Stream_Write_UINT16 8 ;;
  Stream_Write_UINT32 value.

Definition write_negotiation_request n : Prog wStream bool :=
  bm <- Stream_GetPosition ;;
  Stream_Seek TPDU_CONNECTION_REQUEST_LENGTH ;;
  extra <- write_token_or_cookie n ;;
  let length := TPDU_CONNECTION_REQUEST_LENGTH + extra in
  let data := (PROTOCOL_RDP <? RequestedProtocols n) || sendNegoData n in
  (if data then write_neg_data TYPE_RDP_NEG_REQ (request_flags n) (RequestedProtocols n) else pret tt) ;;
  let length := if data then length + 8 else length in
  if UINT16_MAX <? length then pret false
  else
    em <- Stream_GetPosition ;;
    Stream_SetPosition bm ;;
    ok <- tpkt_write_header (u16 length) ;;
    if negb ok then pret false
    else
      ok <- tpdu_write_connection_request (u16 (length - 5)) ;;
      if negb ok then pret false
      else Stream_SetPosition em ;; Stream_SealLength ;; pret true.

Definition response_flags (st : rdpSettings) n : Z :=
  Z.lor EXTENDED_CLIENT_DATA_SUPPORTED
    (Z.lor (if FreeRDP_SupportGraphicsPipeline st then DYNVC_GFX_PROTOCOL_SUPPORTED else 0)
       (Z.lor (if FreeRDP_RestrictedAdminModeRequired st then RESTRICTED_ADMIN_MODE_SUPPORTED else 0)
          (if RemoteCredsGuardSupported n then REDIRECTED_AUTHENTICATION_MODE_SUPPORTED else 0))).

Definition write_negotiation_response (st : rdpSettings) n : Prog wStream bool :=
  let length := TPDU_CONNECTION_CONFIRM_LENGTH in
  bm <- Stream_GetPosition ;;
  Stream_Seek length ;;
  (if has_flag (SelectedProtocol n) PROTOCOL_FAILED_NEGO
   then write_neg_data TYPE_RDP_NEG_FAILURE 0
          (Z.land (SelectedProtocol n) (Z.lnot PROTOCOL_FAILED_NEGO))
   else write_neg_data TYPE_RDP_NEG_RSP (response_flags st n) (SelectedProtocol n)) ;;
  let length := length + 8 in
  em <- Stream_GetPosition ;;
  Stream_SetPosition bm ;;
  status <- tpkt_write_header length ;;
  if status : bool then
    tpdu_write_connection_confirm (length - 5) ;;
    Stream_SetPosition em ;;
    Stream_SealLength ;;
    pret true
  else pret false.

(** The preconnection PDU; [pcb] is the blob with its terminator, if it was converted. *)
Definition write_preconnection_pdu n (cbSize cchPCB : Z) (wszPCB : option (list Z)) : Prog wStream unit :=
  Stream_Write_UINT32 cbSize ;;
  Stream_Write_UINT32 0 ;;
  Stream_Write_UINT32 PRECONNECTION_PDU_V2 ;;
  Stream_Write_UINT32 (PreconnectionId n) ;;
  Stream_Write_UINT16 cchPCB ;;
  match wszPCB with
  | Some w => bs <- plift (read_mem (cchPCB * 2) (enc_utf16 w)) ;; Stream_Write bs
  | None => pret tt
  end ;;
  Stream_SealLength.
End writing.

(** ** The client *)

(** Protocols to fall back to, in order, with the state that attempts them. *)
Definition fallback_ext : list (Z * NEGO_STATE) :=
  [(PROTOCOL_HYBRID_EX, NEGO_STATE_EXT); (PROTOCOL_HYBRID, NEGO_STATE_NLA);
   (PROTOCOL_SSL, NEGO_STATE_TLS); (PROTOCOL_RDP, NEGO_STATE_RDP)].
Definition fallback_nla : list (Z * NEGO_STATE) :=
  [(PROTOCOL_HYBRID, NEGO_STATE_NLA); (PROTOCOL_SSL, NEGO_STATE_TLS); (PROTOCOL_RDP, NEGO_STATE_RDP)].
Definition fallback_tls : list (Z * NEGO_STATE) :=
  [(PROTOCOL_SSL, NEGO_STATE_TLS); (PROTOCOL_RDP, NEGO_STATE_RDP)].
Definition fallback_rdp : list (Z * NEGO_STATE) := [(PROTOCOL_RDP, NEGO_STATE_RDP)].
(** The order in which [nego_connect] looks for the first protocol. *)
Definition first_choice : list (Z * NEGO_STATE) :=
  (PROTOCOL_RDSAAD, NEGO_STATE_AAD) :: (PROTOCOL_RDSTLS, NEGO_STATE_RDSTLS) :: fallback_ext.

(** A chain of [if (nego->EnabledProtocols[p]) nego_set_state (nego, st)]. *)
Fixpoint next_enabled (ps : list (Z * NEGO_STATE)) (n : rdpNego) : NEGO_STATE :=
  match ps with
  | [] => NEGO_STATE_FAIL
  | (p, st) :: ps => if enabled p n then st else next_enabled ps n
  end.

(** What remains enabled without negotiation, and the protocol to use. *)
Definition only_protocol (n : rdpNego) : option (Z * rdpNego) :=
  let off := fold_left (fun n p => set_enabled p false n)
    [PROTOCOL_RDSAAD; PROTOCOL_HYBRID; PROTOCOL_SSL; PROTOCOL_RDP; PROTOCOL_HYBRID_EX; PROTOCOL_RDSTLS] n in
  match state n with
  | NEGO_STATE_AAD => Some (PROTOCOL_RDSAAD, set_enabled PROTOCOL_RDSAAD true off)
  | NEGO_STATE_RDSTLS => Some (PROTOCOL_RDSTLS, set_enabled PROTOCOL_RDSTLS true off)
  | NEGO_STATE_EXT =>
      Some (PROTOCOL_HYBRID_EX, set_enabled PROTOCOL_HYBRID true (set_enabled PROTOCOL_HYBRID_EX true off))
  | NEGO_STATE_NLA => Some (PROTOCOL_HYBRID, set_enabled PROTOCOL_HYBRID true off)
  | NEGO_STATE_TLS => Some (PROTOCOL_SSL, set_enabled PROTOCOL_SSL true off)
  | NEGO_STATE_RDP => Some (PROTOCOL_RDP, set_enabled PROTOCOL_RDP true off)
  | _ => None
  end.

Section client.
Context `{HM : Malloc} `{HF : FreshMemory} {W : Type} `{HT : !Transport W}.

Definition on_transport {A} (m : Prog W A) : Prog (nworld W) A :=
  pzoom transport (fun t w => w <| transport := t |>) m.
Definition upd_nego (f : rdpNego -> rdpNego) : Prog (nworld W) unit :=
  pmodify (fun w => w <| nego := f (nego w) |>).
Definition upd_settings (f : rdpSettings -> rdpSettings) : Prog (nworld W) unit :=
  pmodify (fun w => w <| settings := f (settings w) |>).
Definition the_nego : Prog (nworld W) rdpNego := fun w => Ret (nego w, w).
Definition the_settings : Prog (nworld W) rdpSettings := fun w => Ret (settings w, w).
Definition set_state (st : NEGO_STATE) : Prog (nworld W) unit := upd_nego (nego_set_state st).
(** Work on a stream that the call owns. *)
Definition on_local {A} (s : wStream) (m : Prog wStream A) : Prog (nworld W) (A * wStream) :=
  fun w => match m s with Ret (a, s') => Ret ((a, s'), w) | Abort => Abort | Hang => Hang end.
(** A handler on a stream that the call owns. *)
Definition with_stream {A} (s : wStream) (m : Prog nstate A) : Prog (nworld W) A :=
  fun w => match m (nego w, s) with
           | Ret (a, (n, _)) => Ret (a, w <| nego := n |>)
           | Abort => Abort
           | Hang => Hang
           end.

Definition nego_try_connect : Prog (nworld W) bool :=
  n <- the_nego ;;
  let connect (m : Prog W bool) :=
    ok <- on_transport m ;; upd_nego (fun n => n <| SecurityConnected := ok |>) ;; pret ok in
  let p := SelectedProtocol n in
  if p =? PROTOCOL_RDSAAD then connect transport_connect_aad
  else if p =? PROTOCOL_RDSTLS then connect transport_connect_rdstls
  else if p =? PROTOCOL_HYBRID then connect (transport_connect_nla false)
  else if p =? PROTOCOL_HYBRID_EX then connect (transport_connect_nla true)
  else if p =? PROTOCOL_SSL then connect transport_connect_tls
  else if p =? PROTOCOL_RDP then connect transport_connect_rdp
  else pret false.

Definition nego_security_connect : Prog (nworld W) bool :=
  n <- the_nego ;;
  if negb (TcpConnected n) then
    upd_nego (fun n => n <| SecurityConnected := false |>) ;; pret false
  else if negb (SecurityConnected n) then
    ok <- nego_try_connect ;;
    if negb ok then pret false else n <- the_nego ;; pret (SecurityConnected n)
  else pret (SecurityConnected n).

(** [nego->TcpConnected = transport_connect (...)] *)
Definition tcp_attempt (m : Prog W bool) : Prog (nworld W) unit :=
  ok <- on_transport m ;; upd_nego (fun n => n <| TcpConnected := ok |>).

Definition nego_tcp_connect : Prog (nworld W) bool :=
  n <- the_nego ;;
  (if negb (TcpConnected n) then
     st <- the_settings ;;
     let direct := transport_connect (hostname n) (port n) (FreeRDP_TcpConnectTimeout st) in
     if GatewayEnabled n then
       (if GatewayBypassLocal n then
          on_transport (transport_set_gateway_enabled false) ;; tcp_attempt direct
        else pret tt) ;;
       n <- the_nego ;;
       if negb (TcpConnected n) then
         on_transport (transport_set_gateway_enabled true) ;; tcp_attempt direct
       else pret tt
     else if ConnectChildSession n then tcp_attempt transport_connect_childsession
     else tcp_attempt direct
   else pret tt) ;;
  n <- the_nego ;; pret (TcpConnected n).

Definition nego_transport_connect : Prog (nworld W) bool :=
  ok <- nego_tcp_connect ;;
  if negb ok then pret false
  else
    n <- the_nego ;;
    if TcpConnected n && negb (NegotiateSecurityLayer n) then nego_security_connect
    else pret (TcpConnected n).

Definition nego_transport_disconnect : Prog (nworld W) bool :=
  n <- the_nego ;;
  (if TcpConnected n then on_transport transport_disconnect ;; pret tt else pret tt) ;;
  upd_nego (fun n => n <| TcpConnected := false |> <| SecurityConnected := false |>) ;;
  pret true.

Definition nego_disconnect : Prog (nworld W) bool :=
  set_state NEGO_STATE_INITIAL ;; nego_transport_disconnect.

Definition nego_send_preconnection_pdu : Prog (nworld W) bool :=
  ok <- nego_tcp_connect ;;
  if negb ok then pret false
  else
    n <- the_nego ;;
    wsz <-
      match PreconnectionBlob n with
      | Some blob =>
          r <- pzoom last_error (fun e w => w <| last_error := e |>)
                 (ConvertUtf8ToWCharAlloc (Some (blob ++ [0]))) ;;
          pret (Some r)
      | None => pret None
      end ;;
    let len := match wsz with Some (Some (_, l)) => l | _ => 0 end in
    let wszPCB := match wsz with Some (Some (b, _)) => Some b | _ => None end in
    if bool_decide (wsz <> None) && (UINT16_MAX - 1 <? len) then pret false
    else
      let cchPCB := match wsz with Some _ => u16 (len + 1) | None => 0 end in
      let cbSize := PRECONNECTION_PDU_V2_MIN_SIZE + cchPCB * 2 in
      match Stream_New None (fresh cbSize) cbSize with
      | None => pret false
      | Some s =>
          r <- on_local s (write_preconnection_pdu n cbSize cchPCB wszPCB) ;;
          status <- on_transport (transport_write r.2) ;;
          pret (0 <=? status)
      end.

Definition nego_send_negotiation_request : Prog (nworld W) bool :=
  n <- the_nego ;;
  match Stream_New None (fresh 512) 512 with
  | None => pret false
  | Some s =>
      r <- on_local s (write_negotiation_request n) ;;
      if negb r.1 then pret false
      else status <- on_transport (transport_write r.2) ;; pret (0 <=? status)
  end.

Definition nego_recv_response : Prog (nworld W) bool :=
  match Stream_New None (fresh 1024) 1024 with
  | None => pret false
  | Some s =>
      r <- on_transport (transport_read_pdu s) ;;
      if r.1 <? 0 then pret false
      else status <- with_stream r.2 nego_recv ;; pret (0 <=? status)
  end.

(** The common part of [nego_attempt_*]: connect, send the request, read the answer. *)
Definition nego_exchange (requested : Z) : Prog (nworld W) bool :=
  upd_nego (nego_set_requested_protocols requested) ;;
  ok <- nego_transport_connect ;;
  if negb ok then set_state NEGO_STATE_FAIL ;; pret false
  else
    ok <- nego_send_negotiation_request ;;
    if negb ok then set_state NEGO_STATE_FAIL ;; pret false
    else
      ok <- nego_recv_response ;;
      if negb ok then set_state NEGO_STATE_FAIL ;; pret false else pret true.

(** The rest: unless the negotiation is over, hang up and choose what to try next. *)
Definition fall_back (ps : list (Z * NEGO_STATE)) : Prog (nworld W) unit :=
  n <- the_nego ;;
  if bool_decide (state n = NEGO_STATE_FINAL) then pret tt
  else
    nego_transport_disconnect ;;
    n <- the_nego ;;
    set_state (next_enabled ps n).

Definition nego_attempt (requested : Z) (ps : list (Z * NEGO_STATE)) : Prog (nworld W) unit :=
  ok <- nego_exchange requested ;; if negb ok then pret tt else fall_back ps.

Definition nego_attempt_rdstls : Prog (nworld W) unit :=
  nego_attempt (Z.lor PROTOCOL_RDSTLS PROTOCOL_SSL) fallback_ext.
Definition nego_attempt_rdsaad : Prog (nworld W) unit := nego_attempt PROTOCOL_RDSAAD fallback_ext.
Definition nego_attempt_ext : Prog (nworld W) unit :=
  nego_attempt (Z.lor PROTOCOL_HYBRID (Z.lor PROTOCOL_SSL PROTOCOL_HYBRID_EX)) fallback_nla.
Definition nego_attempt_nla : Prog (nworld W) unit :=
  nego_attempt (Z.lor PROTOCOL_HYBRID PROTOCOL_SSL) fallback_tls.
Definition nego_attempt_tls : Prog (nworld W) unit := nego_attempt PROTOCOL_SSL fallback_rdp.
Definition nego_attempt_rdp : Prog (nworld W) unit := nego_exchange PROTOCOL_RDP ;; pret tt.

Definition nego_send : Prog (nworld W) unit :=
  n <- the_nego ;;
  match state n with
  | NEGO_STATE_AAD => nego_attempt_rdsaad
  | NEGO_STATE_RDSTLS => nego_attempt_rdstls
  | NEGO_STATE_EXT => nego_attempt_ext
  | NEGO_STATE_NLA => nego_attempt_nla
  | NEGO_STATE_TLS => nego_attempt_tls
  | NEGO_STATE_RDP => nego_attempt_rdp
  | _ => pret tt
  end.

(** The [do ... while] loop of [nego_connect], at most [fuel] rounds; FALSE when it failed. *)
Fixpoint nego_loop (fuel : nat) : Prog (nworld W) bool :=
  match fuel with
  | O => plift Hang
  | S f =>
      nego_send ;;
      n <- the_nego ;;
      if bool_decide (state n = NEGO_STATE_FAIL) then set_state NEGO_STATE_FINAL ;; pret false
      else if bool_decide (state n = NEGO_STATE_FINAL) then pret true
      else nego_loop f
  end.

Definition nego_update_settings_from_state : Prog (nworld W) bool :=
  n <- the_nego ;;
  upd_settings (fun st => st <| FreeRDP_RequestedProtocols := RequestedProtocols n |>
    <| FreeRDP_SelectedProtocol := SelectedProtocol n |> <| FreeRDP_NegotiationFlags := flags n |>) ;;
  pret true.

(** The block of [nego_connect] for the initial state; FALSE is a return of FALSE. *)
Definition nego_start : Prog (nworld W) bool :=
  n <- the_nego ;;
  let st := next_enabled first_choice n in
  set_state st ;;
  if bool_decide (st = NEGO_STATE_FAIL) then pret false
  else
    n <- the_nego ;;
    selected <-
      (if negb (NegotiateSecurityLayer n) then
         match only_protocol n with
         | Some (p, n') => upd_nego (fun _ => nego_set_selected_protocol p n') ;; pret true
         | None => pret false
         end
       else pret true) ;;
    if negb selected then pret false
    else
      ok <- nego_tcp_connect ;;
      if negb ok then pret false
      else if SendPreconnectionPdu n then
        ok <- nego_send_preconnection_pdu ;;
        if negb ok then set_state NEGO_STATE_FINAL ;; pret false else pret true
      else pret true.

(** The end of [nego_connect]: settings and security layer. *)
Definition nego_finish : Prog (nworld W) bool :=
  ok <- nego_update_settings_from_state ;;
  if negb ok then pret false
  else
    n <- the_nego ;;
    (if SelectedProtocol n =? PROTOCOL_RDP then
       upd_settings (fun st =>
         let st := st <| FreeRDP_UseRdpSecurityLayer := true |> in
         if FreeRDP_EncryptionMethods st =? 0
         then st <| FreeRDP_EncryptionMethods := ENCRYPTION_METHODS_ALL |> else st)
     else pret tt) ;;
    nego_security_connect.

Definition nego_connect (fuel : nat) : Prog (nworld W) bool :=
  n <- the_nego ;;
  started <- (if bool_decide (state n = NEGO_STATE_INITIAL) then nego_start else pret true) ;;
  if negb started then pret false
  else
    n <- the_nego ;;
    agreed <-
      (if negb (NegotiateSecurityLayer n) then set_state NEGO_STATE_FINAL ;; pret true
       else nego_loop fuel) ;;
    if negb agreed then pret false else nego_finish.

(** ** The answer of the server *)

(** What [nego_send_negotiation_response] stores in the settings for a protocol; [None] is a
    return of FALSE after the changes that were made. *)
Definition settings_for (p : Z) (st : rdpSettings) : bool * rdpSettings :=
  if p =? PROTOCOL_RDP then
    let st := st <| FreeRDP_TlsSecurity := false |> <| FreeRDP_NlaSecurity := false |>
                 <| FreeRDP_RdpSecurity := true |> <| FreeRDP_UseRdpSecurityLayer := true |> in
    let st := if FreeRDP_EncryptionLevel st =? ENCRYPTION_LEVEL_NONE
              then st <| FreeRDP_EncryptionLevel := ENCRYPTION_LEVEL_CLIENT_COMPATIBLE |> else st in
    if FreeRDP_LocalConnection st then
      (true, st <| FreeRDP_UseRdpSecurityLayer := false |>
                <| FreeRDP_EncryptionLevel := ENCRYPTION_LEVEL_NONE |>)
    else (FreeRDP_RdpServerRsaKey st, st)
  else
    let secure (nla rdstls : bool) :=
      (true, st <| FreeRDP_TlsSecurity := true |> <| FreeRDP_NlaSecurity := nla |>
                <| FreeRDP_RdstlsSecurity := rdstls |> <| FreeRDP_RdpSecurity := false |>
                <| FreeRDP_UseRdpSecurityLayer := false |>
                <| FreeRDP_EncryptionLevel := ENCRYPTION_LEVEL_NONE |>) in
    if p =? PROTOCOL_SSL then secure false false
    else if p =? PROTOCOL_HYBRID then secure true false
    else if p =? PROTOCOL_RDSTLS then secure false true
    else (true, st).

Definition nego_send_negotiation_response : Prog (nworld W) bool :=
  n <- the_nego ;;
  st <- the_settings ;;
  match Stream_New None (fresh 512) 512 with
  | None => pret false
  | Some s =>
      r <- on_local s (write_negotiation_response st n) ;;
      status <- (if r.1 : bool then rc <- on_transport (transport_write r.2) ;; pret (0 <=? rc)
                 else pret false) ;;
      if status : bool then
        upd_settings (fun st => st <| FreeRDP_RequestedProtocols := RequestedProtocols n |>
                                   <| FreeRDP_SelectedProtocol := SelectedProtocol n |>) ;;
        st <- the_settings ;;
        let r := settings_for (SelectedProtocol n) st in
        upd_settings (fun _ => r.2) ;;
        pret r.1
      else pret false
  end.
End client.
