(* ===== verification/NegoPdu.v ===== *)
(** * What the negotiation does

    The exact effect of the answer of a server ([nego_recv_exact]), the invariants of the rounds of
    [nego_connect], its termination, which protocols a server can make the client use, and the
    round trips of the request and of the response. *)

From S2P Require Import Prelude Memory Stream Framing Unicode UnicodeApi Nego.

(** ** Handlers *)

Section handlers.
Context {A B : Type}.
Implicit Types (n : rdpNego) (s : wStream).

Lemma on_stream_ret (m : Prog wStream A) (k : A -> Prog nstate B) n s a s' :
  m s = Ret (a, s') -> pbind (on_stream m) k (n, s) = k a (n, s').
Proof. intros E. unfold pbind, on_stream, pzoom. cbn. by rewrite E. Qed.
Lemma set_nego_run f (k : unit -> Prog nstate B) n s : pbind (set_nego f) k (n, s) = k tt (f n, s).
Proof. reflexivity. Qed.
Lemma get_nego_run (k : rdpNego -> Prog nstate B) n s : pbind get_nego k (n, s) = k n (n, s).
Proof. reflexivity. Qed.
End handlers.

(** One step of a handler on a stream [s] with [readable s] and [unread s = bs] in context. *)
Ltac nd_step :=
  cbn [negb];
  match goal with
  | |- pbind (set_nego _) _ _ = _ => rewrite set_nego_run
  | |- pbind get_nego _ _ = _ => rewrite get_nego_run
  | Hr : readable ?s, Hu : unread ?s = ?bs
    |- pbind (on_stream (Stream_CheckAndLogRequiredLength ?n)) _ (_, ?s) = _ =>
      rewrite (on_stream_ret _ _ _ _ _ _ (check_length_spec s n Hr)), Hu
  | Hr : readable ?s, Hu : unread ?s = _ :: _
    |- pbind (on_stream (stream_read_u8 true)) _ (_, ?s) = _ =>
      let E := fresh in let Hr' := fresh "Hr" in let Hu' := fresh "Hu" in
      destruct (read_u8_spec s _ _ Hr Hu) as (E & Hr' & Hu' & ?);
      rewrite (on_stream_ret _ _ _ _ _ _ E); clear E Hr Hu
  | Hr : readable ?s, Hu : unread ?s = _ :: _ :: _
    |- pbind (on_stream (stream_read_u16_le true)) _ (_, ?s) = _ =>
      let E := fresh in let Hr' := fresh "Hr" in let Hu' := fresh "Hu" in
      destruct (read_u16_le_spec s _ _ _ Hr Hu) as (E & Hr' & Hu' & ? & ?);
      rewrite (on_stream_ret _ _ _ _ _ _ E); clear E Hr Hu
  | Hr : readable ?s, Hu : unread ?s = _ :: _ :: _ :: _ :: _
    |- pbind (on_stream (stream_read_u32_le true)) _ (_, ?s) = _ =>
      let E := fresh in let Hr' := fresh "Hr" in let Hu' := fresh "Hu" in
      destruct (read_u32_le_spec s _ _ _ _ _ Hr Hu) as (E & Hr' & Hu' & ? & ? & ? & ?);
      rewrite (on_stream_ret _ _ _ _ _ _ E); clear E Hr Hu
  end.

(** ** Which protocols an answer may select *)

(** The protocols [nego_recv] checks have to be enabled; all others pass. *)
Definition acceptable (p : Z) (n : rdpNego) : bool :=
  if (p =? PROTOCOL_RDP) || (p =? PROTOCOL_SSL) || (p =? PROTOCOL_HYBRID) || (p =? PROTOCOL_RDSAAD)
  then enabled p n else true.

Lemma check_selected_spec n :
  check_selected n =
    if acceptable (SelectedProtocol n) n then n else nego_set_state NEGO_STATE_FAIL n.
Proof.
  unfold check_selected, acceptable. cbn zeta.
  destruct (SelectedProtocol n =? PROTOCOL_RDP) eqn:E0; cbn [negb orb].
  { apply Z.eqb_eq in E0 as ->. by destruct (enabled _ n). }
  destruct (SelectedProtocol n =? PROTOCOL_RDSAAD) eqn:E1.
  { apply Z.eqb_eq in E1 as ->. cbn. by destruct (enabled _ n). }
  destruct (SelectedProtocol n =? PROTOCOL_HYBRID) eqn:E2.
  { apply Z.eqb_eq in E2 as ->. cbn. by destruct (enabled _ n). }
  destruct (SelectedProtocol n =? PROTOCOL_SSL) eqn:E3; [|done].
  apply Z.eqb_eq in E3 as ->. cbn. by destruct (enabled _ n).
Qed.

(** ** The answer of the server, read off the bytes *)

(** The length indicator and the bytes after the header, of a well-formed connection confirm. *)
Definition confirm_body (bs : list Z) : option (Z * list Z) :=
  match bs with
  | v :: _ :: b0 :: b1 :: li :: code :: _ :: _ :: _ :: _ :: _ :: body =>
      let len := b0 * 256 + b1 in
      if (v =? 3) && (7 <=? len) && (len <=? zlen bs) && (li + 4 <=? len) &&
         (code =? X224_TPDU_CONNECTION_CONFIRM) && (6 <=? li) && (li - 6 <=? zlen body)
      then Some (li, body) else None
  | _ => None
  end.

(** 0 when nothing is left. *)
Definition at_end (rest : list Z) : Z := if zlen rest =? 0 then 0 else -1.

(** The effect of the negotiation data. *)
Definition apply_neg_data (data : list Z) (n : rdpNego) : Z * rdpNego :=
  match data with
  | t :: fl :: l0 :: l1 :: p0 :: p1 :: p2 :: p3 :: rest =>
      let value := p0 + (p1 + (p2 + p3 * 256) * 256) * 256 in
      let ok := l0 + l1 * 256 =? 8 in
      if t =? TYPE_RDP_NEG_RSP then
        let n1 := n <| flags := fl |> in
        if ok then
          (at_end rest, nego_set_state (if acceptable value n then NEGO_STATE_FINAL else NEGO_STATE_FAIL)
             (n1 <| SelectedProtocol := value |>))
        else (-1, nego_set_state NEGO_STATE_FAIL n1)
      else if t =? TYPE_RDP_NEG_FAILURE then
        if (fl =? 0) && ok then
          let resend := (value =? SSL_NOT_ALLOWED_BY_SERVER) || (value =? SSL_CERT_NOT_ON_SERVER) in
          (at_end rest, nego_set_state NEGO_STATE_FAIL (if resend then n <| sendNegoData := true |> else n))
        else (-1, n)
      else (-1, n)
  | t :: rest =>
      if t =? TYPE_RDP_NEG_RSP then (-1, nego_set_state NEGO_STATE_FAIL n)
      else if t =? TYPE_RDP_NEG_FAILURE then (-1, n)
      else (at_end rest, n)
  | [] => (-1, n)
  end.

Definition recv_spec (bs : list Z) (n : rdpNego) : Z * rdpNego :=
  match confirm_body bs with
  | None => (-1, n)
  | Some (li, data) =>
      if li =? 6 then
        (at_end data, nego_set_state (if enabled PROTOCOL_RDP n then NEGO_STATE_FINAL else NEGO_STATE_FAIL) n)
      else apply_neg_data data n
  end.

Section recv.
Implicit Types (n : rdpNego) (s : wStream).

Lemma recv_end_run len n s :
  readable s -> 0 <= len <= UINT16_MAX -> recv_end len (n, s) = Ret (at_end (unread s), (n, s)).
Proof.
  intros Hr Hlen. unfold recv_end. assert (E : tpkt_ensure_stream_consumed len s =
    Ret (zlen (unread s) =? 0, s)).
  { unfold tpkt_ensure_stream_consumed. replace (UINT16_MAX <? len) with false by lia.
    rewrite (pbind_ret _ _ _ _ _ (remaining_length_spec s Hr)). pose proof (zlen_nonneg (unread s)).
    case_if; unfold pret; repeat f_equal; lia. }
  rewrite (on_stream_ret _ _ _ _ _ _ E). unfold pret, at_end. by destruct (zlen (unread s) =? 0).
Qed.

(** [m] has the effect [spec] on the object and reads on in the stream. *)
Definition handles {A} (m : Prog nstate A) (n : rdpNego) (s : wStream) (r : A * rdpNego) : Prop :=
  exists k, 0 <= k <= zlen (unread s) /\ m (n, s) = Ret (r.1, (r.2, advance s k)).

Lemma handles_stay {A} (m : Prog nstate A) n s a n' : m (n, s) = Ret (a, (n', s)) -> handles m n s (a, n').
Proof. intros E. exists 0. rewrite advance_0. split; [zlist_lia|done]. Qed.

(** The negotiation data after its type. *)
Lemma process_response_run n s fl l0 l1 p0 p1 p2 p3 rest :
  readable s -> unread s = fl :: l0 :: l1 :: p0 :: p1 :: p2 :: p3 :: rest ->
  nego_process_negotiation_response (n, s) =
    let n1 := n <| flags := fl |> in
    if l0 + l1 * 256 =? 8 then
      Ret (true, (n1 <| SelectedProtocol := p0 + (p1 + (p2 + p3 * 256) * 256) * 256 |>
                     <| state := NEGO_STATE_FINAL |>, advance s 7))
    else Ret (false, (nego_set_state NEGO_STATE_FAIL n1, advance s 3)).
Proof.
  intros Hr Hu. unfold nego_process_negotiation_response. nd_step.
  replace (7 <=? _) with true by zlist_lia. nd_step. nd_step. nd_step.
  destruct (l0 + l1 * 256 =? 8); cbn [negb]; [|by rewrite set_nego_run, advance_advance].
  nd_step. by rewrite !set_nego_run, !advance_advance.
Qed.

Lemma process_failure_run n s fl l0 l1 p0 p1 p2 p3 rest :
  readable s -> unread s = fl :: l0 :: l1 :: p0 :: p1 :: p2 :: p3 :: rest ->
  let code := p0 + (p1 + (p2 + p3 * 256) * 256) * 256 in
  nego_process_negotiation_failure (n, s) =
    if negb (fl =? 0) then Ret (false, (n, advance s 1))
    else if l0 + l1 * 256 =? 8 then
      Ret (true, (nego_set_state NEGO_STATE_FAIL
        (if (code =? SSL_NOT_ALLOWED_BY_SERVER) || (code =? SSL_CERT_NOT_ON_SERVER)
         then n <| sendNegoData := true |> else n), advance s 7))
    else Ret (false, (n, advance s 3)).
Proof.
  intros Hr Hu code. unfold nego_process_negotiation_failure. nd_step.
  replace (7 <=? _) with true by zlist_lia. nd_step.
  destruct (fl =? 0); cbn [negb]; [|done]. nd_step.
  destruct (l0 + l1 * 256 =? 8); cbn [negb]; [|by rewrite advance_advance].
  nd_step. rewrite !advance_advance. fold code. by destruct (_ || _).
Qed.

Lemma process_short n s :
  readable s -> zlen (unread s) < 7 ->
  nego_process_negotiation_response (n, s) = Ret (false, (nego_set_state NEGO_STATE_FAIL n, s)) /\
  nego_process_negotiation_failure (n, s) = Ret (false, (n, s)).
Proof.
  intros Hr Hz. unfold nego_process_negotiation_response, nego_process_negotiation_failure.
  rewrite !(on_stream_ret _ _ _ _ _ _ (check_length_spec s 7 Hr)).
  by replace (7 <=? zlen (unread s)) with false by lia.
Qed.
End recv.

(** The first two calls of [nego_recv]: the lengths of the packet and of the header. *)
Definition recv_header : Prog wStream (option (Z * Z)) :=
  h <- tpkt_read_header ;;
  match h with
  | None => pret None
  | Some length =>
      c <- tpdu_read_connection_confirm length ;;
      pret (match c with None => None | Some li => Some (length, li) end)
  end.

Section recv_header.
Implicit Types (n : rdpNego) (s : wStream).

Lemma recv_header_safe s : readable s -> safe_at recv_header s.
Proof.
  intros Hr. unfold recv_header. apply safe_bind; [by apply tpkt_read_header_safe|done|].
  intros h j Hj Hrj. destruct h as [len|]; [|by apply safe_ret].
  apply safe_bind; [by apply tpdu_read_connection_confirm_safe|done|]. intros c i Hi Hri. by apply safe_ret.
Qed.

Lemma recv_header_some s length li s' :
  readable s -> recv_header s = Ret (Some (length, li), s') ->
  confirm_body (unread s) = Some (li, zdrop 11 (unread s)) /\ s' = advance s 11 /\
  0 <= length <= UINT16_MAX.
Proof.
  intros Hr. pose proof (unread_bytes s Hr) as HB.
  assert (E := tpkt_read_header_run s Hr). unfold recv_header, confirm_body.
  destruct (unread s) as [|v r] eqn:Hu; [by rewrite (pbind_ret _ _ _ _ _ E)|].
  destruct (v =? 3) eqn:Ev; cbn [negb andb] in *.
  2: { assert (E2 := tpdu_read_connection_confirm_run s 0 Hr). rewrite Hu in E2.
       rewrite (pbind_ret _ _ _ _ _ E). destruct r as [|code [|x p]].
       1-2: by rewrite (pbind_ret _ _ _ _ _ E2).
       rewrite Forall_cons in HB. destruct HB as [Hv _]. unfold is_byte in Hv.
       replace (0 <? v + 4) with true in E2 by lia. by rewrite (pbind_ret _ _ _ _ _ E2). }
  destruct r as [|x [|b0 [|b1 p]]].
  1-3: by rewrite (pbind_ret _ _ _ _ _ E).
  cbn zeta in *. rewrite (pbind_ret _ _ _ _ _ E).
  assert (Hr4 : readable (advance s 4)) by (apply readable_advance; [done|rewrite Hu; zlist_lia]).
  assert (Hu4 : unread (advance s 4) = p) by (rewrite unread_advance, Hu by (done || lia); done).
  rewrite !Forall_cons in HB. destruct HB as (_ & _ & Hb0 & Hb1 & HBp). unfold is_byte in Hb0, Hb1.
  set (len := b0 * 256 + b1) in *.
  destruct (7 <=? len) eqn:E7; cbn [andb] in *; [|done].
  destruct (len - 4 <=? zlen p) eqn:El; [|done].
  assert (E2 := tpdu_read_connection_confirm_run _ len Hr4). rewrite Hu4 in E2.
  destruct p as [|l [|code [|x1 p]]].
  1-3: by rewrite (pbind_ret _ _ _ _ _ E2).
  destruct (len <? l + 4) eqn:Eli; [by rewrite (pbind_ret _ _ _ _ _ E2)|].
  destruct (code =? X224_TPDU_DATA) eqn:Ed; [by rewrite (pbind_ret _ _ _ _ _ E2)|].
  destruct (4 <=? zlen p) eqn:E4; [|by rewrite (pbind_ret _ _ _ _ _ E2)].
  rewrite (pbind_ret _ _ _ _ _ E2). destruct (_ && _) eqn:Ec; [|done].
  rewrite advance_advance. intros Heq. injection Heq as <- <- <-.
  do 4 (destruct p as [|? p]; [zlist_lia|]). split_and!; [|done|lia|unfold UINT16_MAX; lia].
  replace (len <=? _) with true by zlist_lia. replace (l + 4 <=? len) with true by lia.
  replace (l - 6 <=? zlen p) with (l - 2 <=? zlen (z :: z0 :: z1 :: z2 :: p)) by zlist_lia.
  cbn [andb]. rewrite Ec. done.
Qed.

Lemma recv_header_full s li data :
  readable s -> confirm_body (unread s) = Some (li, data) ->
  exists length, recv_header s = Ret (Some (length, li), advance s 11) /\
    6 <= li /\ li - 6 <= zlen data /\ 11 <= zlen (unread s).
Proof.
  intros Hr. assert (E := tpkt_read_header_run s Hr). unfold recv_header, confirm_body.
  destruct (unread s) as [|v [|x [|b0 [|b1 [|l [|code [|x1 [|x2 [|x3 [|x4 [|x5 p]]]]]]]]]]] eqn:Hu; try done.
  cbn zeta in *. set (len := b0 * 256 + b1) in *.
  match goal with |- context [if ?b then _ else _] => destruct b eqn:Ec end; [|done].
  intros Heq. injection Heq as <- <-. rewrite !andb_true_iff in Ec.
  destruct Ec as ((((((Ev & E7) & Elen) & Eli) & Ecode) & E6) & Efit).
  rewrite Ev, E7 in E. cbn [negb andb] in E.
  replace (len - 4 <=? _) with true in E by zlist_lia. rewrite (pbind_ret _ _ _ _ _ E).
  assert (Hr4 : readable (advance s 4)) by (apply readable_advance; [done|rewrite Hu; zlist_lia]).
  assert (E2 := tpdu_read_connection_confirm_run _ len Hr4).
  assert (Hu4 : unread (advance s 4) = l :: code :: x1 :: x2 :: x3 :: x4 :: x5 :: p)
    by (rewrite unread_advance, Hu by (done || lia); done).
  rewrite Hu4 in E2.
  replace (len <? l + 4) with false in E2 by lia. apply Z.eqb_eq in Ecode as ->.
  change (X224_TPDU_CONNECTION_CONFIRM =? X224_TPDU_DATA) with false in E2. cbn iota in E2.
  change (X224_TPDU_CONNECTION_CONFIRM =? X224_TPDU_CONNECTION_CONFIRM) with true in E2.
  replace (4 <=? _) with true in E2 by zlist_lia. rewrite E6 in E2.
  replace (l - 2 <=? _) with true in E2 by zlist_lia. cbn [andb] in E2. rewrite advance_advance in E2.
  exists len. rewrite (pbind_ret _ _ _ _ _ E2). split_and!; [done|lia|lia|zlist_lia].
Qed.

Lemma recv_header_run s :
  readable s ->
  match confirm_body (unread s) with
  | None => exists j, 0 <= j <= zlen (unread s) /\ recv_header s = Ret (None, advance s j)
  | Some (li, data) =>
      exists length, 0 <= length <= UINT16_MAX /\ recv_header s = Ret (Some (length, li), advance s 11) /\
        6 <= li /\ li - 6 <= zlen data /\ 11 <= zlen (unread s) /\ unread (advance s 11) = data
  end.
Proof.
  intros Hr. destruct (confirm_body (unread s)) as [[li data]|] eqn:Ec.
  - destruct (recv_header_full s li data Hr Ec) as (length & E & H6 & Hli & H11).
    destruct (recv_header_some _ _ _ _ Hr E) as (Hc & _ & Hl). rewrite Hc in Ec. simplify_eq.
    exists length. rewrite unread_advance by (done || lia). split_and!; done || lia.
  - destruct (recv_header_safe s Hr) as ([[length li]|] & j & E & Hj); [|by exists j].
    destruct (recv_header_some _ _ _ _ Hr E) as (Hc & _). by rewrite Hc in Ec.
Qed.

(** [nego_recv] with its first two calls taken together. *)
Lemma nego_recv_header n s r s' :
  recv_header s = Ret (r, s') ->
  nego_recv (n, s) =
    match r with
    | None => Ret (-1, (n, s'))
    | Some (length, li) =>
        (if 6 <? li then
           type <- on_stream (stream_read_u8 true) ;;
           if type =? TYPE_RDP_NEG_RSP then
             ok <- nego_process_negotiation_response ;;
             if negb ok then pret (-1) else set_nego check_selected ;; recv_end length
           else if type =? TYPE_RDP_NEG_FAILURE then
             ok <- nego_process_negotiation_failure ;;
             if negb ok then pret (-1) else recv_end length
           else recv_end length
         else if li =? 6 then
           n <- get_nego ;;
           set_nego (nego_set_state (if negb (enabled PROTOCOL_RDP n) then NEGO_STATE_FAIL
                                     else NEGO_STATE_FINAL)) ;;
           recv_end length
         else set_nego (nego_set_state NEGO_STATE_FAIL) ;; recv_end length) (n, s')
    end.
Proof.
  unfold recv_header, nego_recv, pbind at 1, pbind at 2, on_stream at 1, pzoom at 1. cbn [snd fst].
  destruct (tpkt_read_header s) as [[[length|] s1]| |]; [|by intros [= <- <-]|done|done].
  unfold pbind at 1, pbind at 1, on_stream at 1, pzoom at 1. cbn [snd fst].
  destruct (tpdu_read_connection_confirm length s1) as [[[li|] s2]| |]; try done; by intros [= <- <-].
Qed.
End recv_header.

Section recv_exact.
Implicit Types (n : rdpNego) (s : wStream).

(** The negotiation data. *)
Definition recv_data (length : Z) : Prog nstate Z :=
  type <- on_stream (stream_read_u8 true) ;;
  if type =? TYPE_RDP_NEG_RSP then
    ok <- nego_process_negotiation_response ;;
    if negb ok then pret (-1) else set_nego check_selected ;; recv_end length
  else if type =? TYPE_RDP_NEG_FAILURE then
    ok <- nego_process_negotiation_failure ;;
    if negb ok then pret (-1) else recv_end length
  else recv_end length.

Lemma readable_at s k : readable s -> 0 <= k <= zlen (unread s) ->
  readable (advance s k) /\ unread (advance s k) = zdrop k (unread s).
Proof. intros Hr Hk. split; [by apply readable_advance|apply unread_advance; [done|lia]]. Qed.

Lemma recv_data_handles n s length :
  readable s -> 0 <= length <= UINT16_MAX -> unread s <> [] ->
  handles (recv_data length) n s (apply_neg_data (unread s) n).
Proof.
  intros Hr Hl Hne. unfold recv_data, handles.
  destruct (unread s) as [|t r] eqn:Hu; [done|]. clear Hne.
  pose proof (zlen_nonneg r) as Hnn. rewrite zlen_cons. destruct (read_u8_spec s t r Hr Hu) as (E & Hr1 & Hu1 & Ht).
  rewrite (on_stream_ret _ _ _ _ _ _ E). clear E.
  destruct (decide (zlen r < 7)) as [Hz|Hz].
  - destruct (process_short n (advance s 1) Hr1 ltac:(by rewrite Hu1)) as [E1 E2].
    assert (apply_neg_data (t :: r) n =
      if t =? TYPE_RDP_NEG_RSP then (-1, nego_set_state NEGO_STATE_FAIL n)
      else if t =? TYPE_RDP_NEG_FAILURE then (-1, n) else (at_end r, n)) as ->.
    { do 7 (destruct r as [|? r]; [done|]). zlist_lia. }
    exists 1. split; [lia|]. destruct (t =? TYPE_RDP_NEG_RSP); [by rewrite (pbind_ret _ _ _ _ _ E1)|].
    destruct (t =? TYPE_RDP_NEG_FAILURE); [by rewrite (pbind_ret _ _ _ _ _ E2)|].
    rewrite recv_end_run by done. by rewrite Hu1.
  - destruct r as [|fl [|l0 [|l1 [|p0 [|p1 [|p2 [|p3 rest]]]]]]]; try zlist_lia. cbn [apply_neg_data].
    destruct (readable_at _ 7 Hr1 ltac:(rewrite Hu1; zlist_lia)) as [Hr8 Hu8].
    rewrite Hu1 in Hu8. change (zdrop 7 (fl :: l0 :: l1 :: p0 :: p1 :: p2 :: p3 :: rest)) with rest in Hu8. rewrite advance_advance in Hr8, Hu8.
    destruct (t =? TYPE_RDP_NEG_RSP).
    { assert (E := process_response_run n _ _ _ _ _ _ _ _ _ Hr1 Hu1). cbn zeta in E.
      destruct (l0 + l1 * 256 =? 8); rewrite (pbind_ret _ _ _ _ _ E), advance_advance; cbn [negb].
      - exists 8. split; [zlist_lia|]. rewrite set_nego_run, check_selected_spec. rewrite recv_end_run by done.
        rewrite Hu8. cbn [SelectedProtocol]. unfold acceptable, enabled. cbn. by case_match.
      - exists 4. split; [zlist_lia|done]. }
    destruct (t =? TYPE_RDP_NEG_FAILURE).
    { assert (E := process_failure_run n _ _ _ _ _ _ _ _ _ Hr1 Hu1). cbn zeta in E.
      destruct (fl =? 0), (l0 + l1 * 256 =? 8); cbn [negb andb] in *;
        rewrite (pbind_ret _ _ _ _ _ E), advance_advance; cbn [negb].
      - exists 8. split; [zlist_lia|]. rewrite recv_end_run by done. by rewrite Hu8.
      - exists 4. split; [zlist_lia|done].
      - exists 2. split; [zlist_lia|done].
      - exists 2. split; [zlist_lia|done]. }
    exists 1. split; [zlist_lia|]. rewrite recv_end_run by done. rewrite Hu1. unfold at_end.
    by replace (zlen _ =? 0) with false by zlist_lia.
Qed.

Lemma nego_recv_handles n s : readable s -> handles nego_recv n s (recv_spec (unread s) n).
Proof.
  intros Hr. pose proof (recv_header_run s Hr) as HH. unfold recv_spec.
  destruct (confirm_body (unread s)) as [[li data]|].
  2: { destruct HH as (j & Hj & E). exists j. split; [done|]. by rewrite (nego_recv_header _ _ _ _ E). }
  destruct HH as (length & Hl & E & H6 & Hli & H11 & Hu).
  destruct (readable_at s 11 Hr ltac:(lia)) as [Hr11 Hu11].
  assert (Hz : zlen data = zlen (unread s) - 11) by (rewrite <- Hu, Hu11; zlist_lia).
  unfold handles. rewrite (nego_recv_header _ _ _ _ E). destruct (li =? 6) eqn:Eli.
  - replace (6 <? li) with false by lia. exists 11. split; [lia|].
    rewrite get_nego_run, set_nego_run, recv_end_run by done. rewrite Hu. cbn. by destruct (enabled _ _).
  - replace (6 <? li) with true by lia. fold (recv_data length).
    destruct (recv_data_handles n _ length Hr11 Hl) as (j & Hj & Ej).
    { rewrite Hu. intros ->. rewrite zlen_nil in *. lia. }
    rewrite Hu in Ej, Hj. exists (11 + j). split; [lia|]. by rewrite Ej, advance_advance.
Qed.
End recv_exact.
(** ** What the writers store *)

Definition token_octets (n : rdpNego) : list Z :=
  match RoutingToken n with
  | Some t => if token_terminated t (RoutingTokenLength n) then t else t ++ [0x0D; 0x0A]
  | None =>
      match cookie n with
      | Some c => mstshash ++ ztake (CookieMaxLength n) c ++ [0x0D; 0x0A]
      | None => []
      end
  end.
Definition neg_data (type fl value : Z) : list Z := [type; fl] ++ le16 8 ++ le32 value.
Definition asks_protocol (n : rdpNego) : bool := (PROTOCOL_RDP <? RequestedProtocols n) || sendNegoData n.
Definition request_body (n : rdpNego) : list Z :=
  token_octets n ++
  if asks_protocol n then neg_data TYPE_RDP_NEG_REQ (request_flags n) (RequestedProtocols n) else [].
(** A TPKT packet with an X.224 header of type [code] and [body]. *)
Definition x224_packet (code : Z) (body : list Z) : list Z :=
  (enc_tpkt (11 + zlen body) ++ enc_tpdu (6 + zlen body) code) ++ body.
Definition enc_request (n : rdpNego) : list Z := x224_packet X224_TPDU_CONNECTION_REQUEST (request_body n).

(** The token and the cookie are octets, the token has its length, and both fit. *)
Record request_ok (n : rdpNego) : Prop := {
  token_length : forall t, RoutingToken n = Some t -> zlen t = RoutingTokenLength n /\ Forall is_byte t;
  cookie_octets : forall c, cookie n = Some c -> Forall is_byte c;
  cookie_max : 0 <= CookieMaxLength n;
  request_room : zlen (token_octets n) <= 493
}.

Definition sealed (s : wStream) : wStream := set_length (pointer s) s.

Section request_writer.
Implicit Types (n : rdpNego) (s : wStream).

Lemma neg_data_emits type fl v :
  is_byte type -> is_byte fl -> emits (write_neg_data type fl v) (neg_data type fl v).
Proof.
  intros Ht Hf. unfold write_neg_data, neg_data.
  apply (emits_seq _ _ [type] ([fl] ++ le16 8 ++ le32 v)); [by apply emits_u8|].
  apply emits_seq; [by apply emits_u8|]. apply emits_seq; [apply emits_u16_le|apply emits_u32_le].
Qed.

Lemma mstshash_bytes : Forall is_byte mstshash.
Proof. unfold mstshash, is_byte. repeat constructor; lia. Qed.

Lemma token_emits n :
  request_ok n -> emits_ret (write_token_or_cookie n) (zlen (token_octets n)) (token_octets n).
Proof.
  intros [Ht Hc Hm _]. unfold write_token_or_cookie, token_octets.
  assert (Hcr : is_byte 13 /\ is_byte 10) by (unfold is_byte; lia). destruct Hcr as [Hcr Hlf].
  destruct (RoutingToken n) as [t|].
  - destruct (Ht t eq_refl) as [Hl Hb]. unfold read_mem. replace (_ <=? zlen t) with true by lia.
    rewrite ztake_all by lia. change (plift (Ret t)) with (@pret wStream _ t).
    apply (emits_bind (pret t) _ t _ []); [apply emits_pret|].
    destruct (token_terminated t _).
    + rewrite <- Hl. eapply emits_final, emits_bytes. done.
    + apply (emits_bind _ _ tt _ t); [by apply emits_bytes|].
      apply (emits_bind _ _ tt _ [13] [10]); [by apply emits_u8|].
      rewrite zlen_app, <- Hl. eapply emits_final, emits_u8. done.
  - destruct (cookie n) as [c|]; [|apply emits_pret].
    pose proof (zlen_nonneg c).
    set (k := if CookieMaxLength n <? zlen c then _ else _).
    assert (Hk : ztake k c = ztake (CookieMaxLength n) c /\ zlen (ztake k c) = k).
    { unfold k. case_if; [|rewrite !ztake_all by lia; done]. rewrite zlen_ztake. split; [done|lia]. }
    destruct Hk as [<- Hk].
    assert (zlen (mstshash ++ ztake k c ++ [13; 10]) = k + 19) as -> by (autorewrite with zlist; rewrite <- Hk; change (zlen mstshash) with 17; zlist_lia).
    apply (emits_bind _ _ tt _ mstshash); [apply emits_bytes, mstshash_bytes|].
    apply (emits_bind _ _ tt _ (ztake k c)); [apply emits_bytes; auto with zlist|].
    apply (emits_bind _ _ tt _ [13] [10]); [by apply emits_u8|]. eapply emits_final, emits_u8. done.
Qed.
End request_writer.
Section packet_writer.
Implicit Types (n : rdpNego) (s : wStream).

Lemma advance_ok s k : stream_ok s -> 0 <= k <= room s -> stream_ok (advance s k).
Proof. intros [] Hk. unfold room in Hk. split; cbn; done || lia. Qed.

(** The end of both packet writers: the headers are stored in front of the body. *)
Lemma headers_run s body code len :
  stream_ok s -> is_byte code -> code <> X224_TPDU_DATA -> Forall is_byte body ->
  11 + zlen body <= room s -> len = 11 + zlen body -> 
  let s1 := put_bytes (advance s 11) body in
  let s2 := put_bytes (set_pointer (pointer s) s1) (enc_tpkt len) in
  let s3 := put_bytes s2 (enc_tpdu (len - 5) code) in
  Stream_SetPosition (pointer s) s1 = Ret (true, set_pointer (pointer s) s1) /\
  tpkt_write_header len (set_pointer (pointer s) s1) = Ret (true, s2) /\
  tpdu_write_header (len - 5) code s2 = Ret (true, s3) /\
  Stream_SetPosition (pointer s + len) s3 = Ret (true, put_bytes s (x224_packet code body)) /\
  Stream_SealLength (put_bytes s (x224_packet code body)) =
    Ret (tt, sealed (put_bytes s (x224_packet code body))).
Proof.
  intros Hs Hc Hd Hb Hfit -> s1 s2 s3. pose proof (zlen_nonneg body).
  assert (Htp : zlen (enc_tpdu (11 + zlen body - 5) code) = 7).
  { unfold enc_tpdu. case_if; [done|zlist_lia]. }
  assert (Hs1 : stream_ok s1).
  { apply put_bytes_ok; [apply advance_ok; [done|lia]|unfold room, advance in *; cbn; lia|done]. }
  pose proof Hs as [Hbuf Hcap Hlen Hpos _]. unfold room in Hfit.
  assert (Hs1' : stream_ok (set_pointer (pointer s) s1)) by (apply set_pointer_ok; [done|cbn; lia]).
  destruct (tpkt_write_header_emits (11 + zlen body)) as [Hb1 He1].
  destruct (tpdu_write_header_emits (11 + zlen body - 5) code Hc) as [Hb2 He2].
  assert (Hroom1 : room (set_pointer (pointer s) s1) = room s) by done.
  assert (Hs2 : stream_ok s2) by (apply put_bytes_ok; [done|rewrite Hroom1; unfold room; zlist_lia|done]).
  assert (Hroom2 : room s2 = room s - 4) by (unfold s2; rewrite room_put_bytes, Hroom1; zlist_lia).
  split_and!.
  - apply set_position_run; [done|cbn; lia].
  - apply He1; [done|]. rewrite Hroom1. unfold room. zlist_lia.
  - apply He2; [done|]. rewrite Hroom2, Htp. unfold room. lia.
  - unfold x224_packet. unfold s3, s2. rewrite put_bytes_app.
    + rewrite set_position_run.
      * do 2 f_equal. replace (6 + zlen body) with (11 + zlen body - 5) by lia.
        rewrite <- (patch_spec s) by (rewrite ?zlen_app, ?Htp; unfold room; zcut_lia || done).
        rewrite zlen_app, zlen_enc_tpkt, Htp. unfold s1. f_equal. lia.
      * apply put_bytes_ok; [done| |by apply Forall_app]. rewrite Hroom1, zlen_app, Htp. unfold room. zlist_lia.
      * cbn. lia.
    + done.
    + rewrite Hroom1, Htp. unfold room. zlist_lia.
  - apply seal_run. unfold x224_packet. apply put_bytes_ok; [done| |].
    + replace (6 + zlen body) with (11 + zlen body - 5) by lia. rewrite !zlen_app, Htp. unfold room. zlist_lia.
    + replace (6 + zlen body) with (11 + zlen body - 5) by lia. by rewrite !Forall_app.
Qed.
End packet_writer.

Section request_run.
Implicit Types (n : rdpNego) (s : wStream).

Lemma request_flags_byte n : is_byte (request_flags n).
Proof.
  unfold request_flags, is_byte. by destruct (RestrictedAdminModeRequired n), (RemoteCredsGuardRequired n).
Qed.

Lemma request_body_emits n :
  request_ok n ->
  emits_ret (extra <- write_token_or_cookie n ;;
             (if asks_protocol n then write_neg_data TYPE_RDP_NEG_REQ (request_flags n) (RequestedProtocols n)
              else pret tt) ;; pret extra) (zlen (token_octets n)) (request_body n) /\
  zlen (request_body n) = zlen (token_octets n) + (if asks_protocol n then 8 else 0).
Proof.
  intros Hn. unfold request_body. split.
  - eapply emits_bind; [by apply token_emits|]. eapply emits_final.
    destruct (asks_protocol n); [|apply emits_pret].
    apply neg_data_emits; [unfold is_byte, TYPE_RDP_NEG_REQ; lia|apply request_flags_byte].
  - rewrite zlen_app. by destruct (asks_protocol n).
Qed.

Lemma write_request_run n s :
  request_ok n -> stream_ok s -> 512 <= room s ->
  write_negotiation_request n s = Ret (true, sealed (put_bytes s (enc_request n))).
Proof.
  intros Hn Hs Hroom. pose proof (request_room n Hn) as Hfit. pose proof (zlen_nonneg (token_octets n)).
  destruct (request_body_emits n Hn) as [[Hbytes Hbody] Hlen].
  assert (Hl : zlen (request_body n) <= 501) by (rewrite Hlen; destruct (asks_protocol n); lia).
  unfold write_negotiation_request. rewrite (pbind_ret _ _ _ _ _ (position_spec s Hs)).
  change TPDU_CONNECTION_REQUEST_LENGTH with 11.
  rewrite (pbind_ret _ _ _ _ _ (seek_run s 11 Hs ltac:(lia))).
  assert (Hs11 : stream_ok (advance s 11)) by (apply advance_ok; [done|lia]).
  specialize (Hbody _ Hs11 ltac:(unfold room in *; cbn; lia)).
  unfold pbind at 1. unfold pbind at 1 in Hbody.
  destruct (write_token_or_cookie n (advance s 11)) as [[extra s0]| |]; [|done|done].
  cbn zeta. fold (asks_protocol n). unfold pbind at 1. unfold pbind at 1 in Hbody.
  match type of Hbody with match ?m with _ => _ end = _ => destruct m as [[[] s1]| |]; [|done|done] end.
  unfold pret in Hbody. injection Hbody as -> ->.
  set (len := if asks_protocol n then _ else _).
  assert (Hlen' : len = 11 + zlen (request_body n)) by (unfold len; rewrite Hlen; destruct (asks_protocol n); lia).
  clearbody len. pose proof (zlen_nonneg (request_body n)).
  replace (UINT16_MAX <? len) with false by (unfold UINT16_MAX; lia).
  pose proof (headers_run s (request_body n) X224_TPDU_CONNECTION_REQUEST len Hs ltac:(done) ltac:(done) Hbytes ltac:(lia) Hlen')
    as (E1 & E2 & E3 & E4 & E5). cbn zeta in *.
  assert (Hs1 : stream_ok (put_bytes (advance s 11) (request_body n)))
    by (apply put_bytes_ok; [done|unfold room in *; cbn; lia|done]).
  rewrite (pbind_ret _ _ _ _ _ (position_spec _ Hs1)), (pbind_ret _ _ _ _ _ E1).
  rewrite u16_id by lia. rewrite (pbind_ret _ _ _ _ _ E2). cbn [negb].
  rewrite u16_id by lia. unfold tpdu_write_connection_request. rewrite (pbind_ret _ _ _ _ _ E3). cbn [negb].
  cbn [pointer put_bytes set_pointer advance].
  replace (pointer s + 11 + zlen (request_body n)) with (pointer s + len) by lia.
  rewrite (pbind_ret _ _ _ _ _ E4), (pbind_ret _ _ _ _ _ E5). done.
Qed.
End request_run.
(** The body of the response: a refusal or the selected protocol. *)
Definition response_body (st : rdpSettings) (n : rdpNego) : list Z :=
  if has_flag (SelectedProtocol n) PROTOCOL_FAILED_NEGO
  then neg_data TYPE_RDP_NEG_FAILURE 0 (Z.land (SelectedProtocol n) (Z.lnot PROTOCOL_FAILED_NEGO))
  else neg_data TYPE_RDP_NEG_RSP (response_flags st n) (SelectedProtocol n).
Definition enc_response (st : rdpSettings) (n : rdpNego) : list Z :=
  x224_packet X224_TPDU_CONNECTION_CONFIRM (response_body st n).

Section response_run.
Implicit Types (n : rdpNego) (s : wStream) (st : rdpSettings).

Lemma response_flags_byte st n : is_byte (response_flags st n).
Proof.
  unfold response_flags, is_byte.
  by destruct (FreeRDP_SupportGraphicsPipeline st), (FreeRDP_RestrictedAdminModeRequired st), (RemoteCredsGuardSupported n).
Qed.

Lemma zlen_response_body st n : zlen (response_body st n) = 8.
Proof. unfold response_body. by destruct (has_flag _ _). Qed.

Lemma write_response_run st n s :
  stream_ok s -> 512 <= room s ->
  write_negotiation_response st n s = Ret (true, sealed (put_bytes s (enc_response st n))).
Proof.
  intros Hs Hroom. pose proof (zlen_response_body st n) as Hl.
  assert (Hbody : emits (if has_flag (SelectedProtocol n) PROTOCOL_FAILED_NEGO
    then write_neg_data TYPE_RDP_NEG_FAILURE 0 (Z.land (SelectedProtocol n) (Z.lnot PROTOCOL_FAILED_NEGO))
    else write_neg_data TYPE_RDP_NEG_RSP (response_flags st n) (SelectedProtocol n)) (response_body st n)).
  { unfold response_body. destruct (has_flag _ _).
    all: apply neg_data_emits; try apply response_flags_byte; unfold is_byte; done. }
  destruct Hbody as [Hbytes Hbody]. unfold write_negotiation_response. cbn zeta.
  change TPDU_CONNECTION_CONFIRM_LENGTH with 11.
  rewrite (pbind_ret _ _ _ _ _ (position_spec s Hs)), (pbind_ret _ _ _ _ _ (seek_run s 11 Hs ltac:(lia))).
  assert (Hs11 : stream_ok (advance s 11)) by (apply advance_ok; [done|lia]).
  specialize (Hbody _ Hs11 ltac:(unfold room in *; cbn; lia)). rewrite (pbind_ret _ _ _ _ _ Hbody).
  pose proof (headers_run s (response_body st n) X224_TPDU_CONNECTION_CONFIRM 19 Hs ltac:(done) ltac:(done) Hbytes ltac:(lia) ltac:(lia))
    as (E1 & E2 & E3 & E4 & E5). cbn zeta in *.
  assert (Hs1 : stream_ok (put_bytes (advance s 11) (response_body st n)))
    by (apply put_bytes_ok; [done|unfold room in *; cbn; lia|done]).
  rewrite (pbind_ret _ _ _ _ _ (position_spec _ Hs1)), (pbind_ret _ _ _ _ _ E1), (pbind_ret _ _ _ _ _ E2).
  unfold tpdu_write_connection_confirm. rewrite (pbind_ret _ _ _ _ _ E3).
  cbn [pointer put_bytes set_pointer advance]. rewrite Hl.
  replace (pointer s + 11 + 8) with (pointer s + 19) by lia.
  rewrite (pbind_ret _ _ _ _ _ E4), (pbind_ret _ _ _ _ _ E5). done.
Qed.
End response_run.

(** ** The claim *)

(** C5: [nego_recv] is equivalent to the reference [recv_spec], which reads the answer of the server
    off its bytes: for every content of the stream it returns, without reading outside the stream, the
    result and the object of the reference.  An answer settles the negotiation only when it is a
    well-formed connection confirm, whose negotiation data has type 2, its length and nothing behind
    it, and selects an [acceptable] protocol, or has no negotiation data at all where legacy security
    is enabled. *)
Theorem nego_recv_exact (n : rdpNego) (s : wStream) :
  readable s ->
  exists k, 0 <= k <= zlen (unread s) /\
    nego_recv (n, s) = Ret ((recv_spec (unread s) n).1, ((recv_spec (unread s) n).2, advance s k)).
Proof. apply nego_recv_handles. Qed.

(** A client with its defaults. *)
Definition sample_nego : rdpNego :=
  mkNego 3389 0 (Some [104]) None None 0 false 0 None NEGO_STATE_INITIAL false false 255 false 0 0 true
    (replicate 32 false) false false false false false false false.

Lemma nego_recv_exact_witness :
  exists k, nego_recv (sample_nego, Stream_StaticConstInit [3; 0; 0; 11; 6; 0xD0; 0; 0; 0; 0; 0] 11) =
    Ret (0, (sample_nego <| state := NEGO_STATE_FAIL |>,
             advance (Stream_StaticConstInit [3; 0; 0; 11; 6; 0xD0; 0; 0; 0; 0; 0] 11) k)).
Proof.
  destruct (nego_recv_exact sample_nego (Stream_StaticConstInit [3; 0; 0; 11; 6; 0xD0; 0; 0; 0; 0; 0] 11)) as (k & _ & E).
  { split; [split|]; cbn; try lia; [done|]. repeat constructor; unfold is_byte; lia. }
  exists k. exact E.
Defined.
