(* ===== verification/NegoServer.v ===== *)
(** * The server side of the negotiation

    What [nego_read_request] does on any input, and that it reads what
    [nego_send_negotiation_request] wrote. *)

From S2P Require Import Prelude Memory Stream Framing Unicode UnicodeApi Nego NegoPdu.

(** ** The search for CR LF *)

(** The bytes before and after the first CR LF. *)
Fixpoint crlf_split (u : list Z) : option (list Z * list Z) :=
  match u with
  | a :: t =>
      match t with
      | b :: r =>
          if (a =? 0x0D) && (b =? 0x0A) then Some ([], r)
          else match crlf_split t with Some (pre, post) => Some (a :: pre, post) | None => None end
      | [] => None
      end
  | [] => None
  end.

Section crlf.
Implicit Types s : wStream.

Lemma crlf_split_spec u pre post : crlf_split u = Some (pre, post) -> u = pre ++ 0x0D :: 0x0A :: post.
Proof.
  revert pre post. induction u as [|a t IH]; intros pre post; [done|].
  destruct t as [|b r]; [done|]. change (crlf_split (a :: b :: r)) with
    (if (a =? 0x0D) && (b =? 0x0A) then Some ([], r)
     else match crlf_split (b :: r) with Some (pre, post) => Some (a :: pre, post) | None => None end).
  destruct (_ && _) eqn:E.
  - apply andb_true_iff in E as [->%Z.eqb_eq ->%Z.eqb_eq]. intros H. by simplify_eq.
  - destruct (crlf_split (b :: r)) as [[p q]|]; [|done]. intros H. simplify_eq. cbn. f_equal. by apply IH.
Qed.

Lemma crlf_split_app pre post :
  Forall (fun b => b <> 0x0D) pre -> crlf_split (pre ++ 0x0D :: 0x0A :: post) = Some (pre, post).
Proof.
  induction 1 as [|a l Ha Hl IH]; [done|].
  cbn [app]. destruct (l ++ _) as [|b r] eqn:E; [by destruct l|].
  change (crlf_split (a :: b :: r)) with
    (if (a =? 0x0D) && (b =? 0x0A) then Some ([], r)
     else match crlf_split (b :: r) with Some (pre, post) => Some (a :: pre, post) | None => None end).
  replace (a =? 0x0D) with false by lia. cbn [andb]. by rewrite IH.
Qed.

Lemma rewind_1 s k : readable s -> 1 <= k -> Stream_Rewind 1 (advance s k) = Ret (tt, advance s (k - 1)).
Proof. intros. by apply rewind_spec. Qed.

Lemma find_crlf_run fuel c0 s :
  readable s -> zlen (unread s) <= Z.of_nat fuel -> c0 <> 0x0A0D ->
  match crlf_split (unread s) with
  | Some (pre, _) => find_crlf fuel c0 s = Ret (0x0A0D, advance s (zlen pre + 2))
  | None => exists c k, find_crlf fuel c0 s = Ret (c, advance s k) /\ c <> 0x0A0D
  end.
Proof.
  revert c0 s. induction fuel as [|f IH]; intros c0 s Hr Hf Hc; cbn [find_crlf];
    rewrite (pbind_ret _ _ _ _ _ (remaining_length_spec s Hr)).
  { destruct (unread s) as [|b u] eqn:Hu; [|zlist_lia]. exists c0, 0. by rewrite advance_0. }
  destruct (unread s) as [|b0 [|b1 u]] eqn:Hu.
  1-2: exists c0, 0; by rewrite advance_0.
  replace (2 <=? _) with true by zlist_lia.
  destruct (read_u16_le_spec s b0 b1 u Hr Hu) as (E & _ & _ & H0 & H1). rewrite (pbind_ret _ _ _ _ _ E).
  unfold is_byte in H0, H1. destruct (b0 + b1 * 256 =? 0x0A0D) eqn:Ec.
  - apply Z.eqb_eq in Ec. assert (b1 = 10) as -> by lia. assert (b0 = 13) as -> by lia. done.
  - change (crlf_split (b0 :: b1 :: u)) with
      (if (b0 =? 0x0D) && (b1 =? 0x0A) then Some ([], u)
       else match crlf_split (b1 :: u) with Some (pre, post) => Some (b0 :: pre, post) | None => None end).
    replace ((b0 =? 0x0D) && (b1 =? 0x0A)) with false by lia.
    rewrite (pbind_ret _ _ _ _ _ (rewind_1 s 2 Hr ltac:(lia))). change (2 - 1) with 1.
    assert (Hr1 : readable (advance s 1)) by (apply readable_advance; [done|rewrite Hu; zlist_lia]).
    assert (Hu1 : unread (advance s 1) = b1 :: u) by (rewrite unread_advance, Hu by (done || lia); done).
    specialize (IH (b0 + b1 * 256) (advance s 1) Hr1). rewrite Hu1 in IH.
    specialize (IH ltac:(zlist_lia) ltac:(lia)). destruct (crlf_split (b1 :: u)) as [[pre post]|].
    + rewrite IH, advance_advance, zlen_cons. by replace (1 + zlen pre + 2) with (1 + (zlen pre + 2)) by lia.
    + destruct IH as (c & k & -> & Hne). exists c, (1 + k). by rewrite advance_advance.
Qed.
End crlf.

(** ** The token or cookie *)

Definition nonzero (b : Z) : bool := negb (b =? 0).

(** What is stored for the string [a]. *)
Definition store_string `{Malloc} (isToken : bool) (a : list Z) (n : rdpNego) : bool * rdpNego :=
  if negb (forallb nonzero a) then (false, n)
  else if isToken then
    if zlen a =? 0 then (false, n)
    else
      let n1 := n <| RoutingTokenLength := zlen a |> in
      if malloc_ok (zlen a) then (true, n1 <| RoutingToken := Some a |>)
      else (false, n1 <| RoutingToken := None |>)
  else if malloc_ok (zlen a + 1) then (true, n <| cookie := Some a |>)
  else (false, n <| cookie := None |>).

Section strings.
Implicit Types s : wStream.

Lemma nonzero_no_nul a : forallb nonzero a = true -> no_nul a.
Proof.
  intros H. apply Forall_forall. intros b Hb. rewrite forallb_forall in H.
  apply list_elem_of_In in Hb. specialize (H b Hb). unfold nonzero in H. lia.
Qed.

Lemma strnlen_exact a r :
  exists l, c_strnlen (length a) (a ++ r) = Ret l /\ (l =? zlen a) = forallb nonzero a.
Proof.
  assert (H : exists l, c_strnlen (length a) (a ++ r) = Ret l /\ 0 <= l <= zlen a /\ (l =? zlen a) = forallb nonzero a).
  2: { destruct H as (l & ? & _ & ?). eauto. }
  induction a as [|b a (l & E & Hl & Heq)]; [by exists 0|]. cbn [length app c_strnlen forallb].
  rewrite zlen_cons. unfold nonzero at 1. destruct (b =? 0); cbn [negb andb].
  - exists 0. pose proof (zlen_nonneg a). split_and!; [done|lia|lia|lia].
  - exists (l + 1). rewrite E, <- Heq. split_and!; [done|lia|lia|lia].
Qed.

(** What follows the cursor in the buffer. *)
Lemma buffer_unread s : readable s ->
  zdrop (pointer s) (buffer s) = unread s ++ zdrop (slength s) (buffer s).
Proof.
  intros [[Hb _ Hl Hp _] Hle]. unfold unread.
  rewrite <- (ztake_zdrop_app (slength s) (buffer s)) at 1. rewrite zdrop_app. f_equal.
  rewrite zlen_ztake. by rewrite zdrop_0 by lia.
Qed.

(** Two zero bytes over the bytes after [a]. *)
Lemma zero_after s a x y post :
  readable s -> unread s = a ++ x :: y :: post ->
  let s' := put_bytes (advance s (zlen a)) [0; 0] in
  Stream_Write_UINT16 0 (advance s (zlen a)) = Ret (tt, s') /\ readable s' /\ unread s' = post /\
  slength s' = slength s /\ capacity s' = capacity s /\
  zdrop (pointer s) (buffer s') = a ++ 0 :: 0 :: post ++ zdrop (slength s) (buffer s).
Proof.
  intros Hr Hu s'. pose proof (zlen_nonneg a). pose proof (zlen_nonneg post).
  pose proof (zlen_unread s Hr) as Hz. rewrite Hu in Hz. autorewrite with zlist in Hz.
  assert (Hra : readable (advance s (zlen a))) by (apply readable_advance; [done|rewrite Hu; zcut_lia]).
  pose proof (buffer_unread s Hr) as Hbuf. pose proof Hr as [[Hb Hc Hl Hp HB] Hle].
  assert (Hok : stream_ok s').
  { apply put_bytes_ok; [apply Hra|unfold room; cbn; change (zlen [0; 0]) with 2; lia|exact (le16_bytes 0)]. }
  assert (Hbytes : buffer s' = ztake (pointer s) (buffer s) ++ a ++ [0; 0] ++ post ++ zdrop (slength s) (buffer s)).
  { unfold s', put_bytes. cbn [buffer set_pointer set_buffer advance pointer].
    rewrite <- (ztake_zdrop_app (pointer s) (buffer s)) at 1. rewrite Hbuf, Hu, <- !app_assoc. cbn [app].
    rewrite (app_assoc (ztake _ _) a). 
    change (x :: y :: post ++ zdrop (slength s) (buffer s)) with ([x; y] ++ post ++ zdrop (slength s) (buffer s)).
    rewrite splice_app; [by rewrite <- app_assoc| |done]. rewrite zlen_app, zlen_ztake. lia. }
  split_and!.
  - apply write_u16_le_spec; [apply Hra|unfold room; cbn; lia].
  - split; [done|]. cbn. change (zlen [0; 0]) with 2. lia.
  - unfold unread. rewrite Hbytes. change (slength s') with (slength s). change (pointer s') with (pointer s + zlen a + 2).
    assert (HA : zlen (ztake (pointer s) (buffer s)) = pointer s) by (rewrite zlen_ztake; lia).
    assert (HR : zlen (zdrop (slength s) (buffer s)) = capacity s - slength s) by (rewrite zlen_zdrop; lia).
    remember (ztake (pointer s) (buffer s)) as A. remember (zdrop (slength s) (buffer s)) as R. by zcut.
  - done.
  - done.
  - rewrite Hbytes. rewrite zdrop_app, zlen_ztake. rewrite (zdrop_all (pointer s) (ztake _ _)) by (rewrite zlen_ztake; lia).
    by rewrite zdrop_0 by lia.
Qed.
End strings.
Section token.
Context `{Malloc}.
Implicit Types (n : rdpNego) (s : wStream).

Lemma call_nego_ret {A B} (f : rdpNego -> outcome (A * rdpNego)) (k : A -> Prog nstate B) n s a n' :
  f n = Ret (a, n') -> pbind (call_nego f) k (n, s) = k a (n', s).
Proof. intros E. unfold pbind, call_nego, pzoom. cbn. by rewrite E. Qed.

(** Storing the string [a] that stands before a NUL. *)
Lemma store_string_run isToken a r n s :
  forallb nonzero a = true ->
  (if isToken : bool then call_nego (nego_set_routing_token (a ++ 0 :: r) (zlen a))
   else call_nego (nego_set_cookie (Some (a ++ 0 :: r)))) (n, s) =
  Ret ((store_string isToken a n).1, ((store_string isToken a n).2, s)).
Proof.
  intros Ha. unfold store_string. rewrite Ha. cbn [negb]. pose proof (zlen_nonneg a).
  destruct isToken; unfold call_nego, pzoom; cbn [fst snd].
  - unfold nego_set_routing_token, read_mem. destruct (zlen a =? 0); [done|]. cbn zeta.
    destruct (malloc_ok (zlen a)); cbn [negb]; [|done].
    rewrite zlen_app. replace (_ <=? _) with true by (pose proof (zlen_nonneg (0 :: r)); lia).
    rewrite ztake_app, (ztake_all _ a), (ztake_0 _ (0 :: r)) by lia. by rewrite app_nil_r.
  - unfold nego_set_cookie. cbn zeta. rewrite (c_strlen_run a r) by (by apply nonzero_no_nul).
    destruct (malloc_ok (zlen a + 1)); [|done].
    rewrite ztake_app, (ztake_all _ a), (ztake_0 _ (0 :: r)) by lia. by rewrite app_nil_r.
Qed.

Lemma read_token_run isToken n s head tail :
  readable s -> unread s = head ++ tail ->
  read_token_or_cookie isToken (pointer s) (zlen (unread s)) (n, advance s (zlen head)) =
    match crlf_split tail with
    | None => Ret (false, (n, s))
    | Some (pre, post) =>
        let s' := put_bytes (advance s (zlen (head ++ pre))) [0; 0] in
        let r := store_string isToken (head ++ pre) n in
        Ret (r.1, (r.2, if r.1 then s' else set_pointer (pointer s) s'))
    end.
Proof.
  intros Hr Hu. unfold read_token_or_cookie. pose proof (zlen_nonneg head). pose proof (zlen_nonneg tail).
  assert (Hk : 0 <= zlen head <= zlen (unread s)) by (rewrite Hu; zcut_lia).
  destruct (readable_at s (zlen head) Hr Hk) as [Hr1 Hu1].
  assert (Ht : unread (advance s (zlen head)) = tail).
  { rewrite Hu1, Hu, zdrop_app, zdrop_all, zdrop_0 by lia. done. }
  pose proof Hr as [[Hbuf Hcap Hlen Hpos Hby] Hle].
  pose proof (find_crlf_run (Z.to_nat (zlen (unread s))) 0 _ Hr1 ltac:(rewrite Ht, Hu; zcut_lia) ltac:(done)) as Hf.
  rewrite Ht in Hf. destruct (crlf_split tail) as [[pre post]|] eqn:Es.
  2: { destruct Hf as (c & k & E & Hc). rewrite (on_stream_ret _ _ _ _ _ _ E).
       replace (c =? 0x0A0D) with false by lia. rewrite pbind_pret. cbn [negb].
       assert (Hset : Stream_SetPosition (pointer s) (advance (advance s (zlen head)) k) = Ret (true, s)).
       { unfold Stream_SetPosition, pbind, pget, Stream_Capacity. cbn [capacity advance set_pointer].
         replace (capacity s <? pointer s) with false by lia. by destruct s. }
       by rewrite (on_stream_ret _ _ _ _ _ _ Hset). }
  apply crlf_split_spec in Es. cbn zeta. set (a := head ++ pre).
  assert (Ha : zlen a = zlen head + zlen pre) by (unfold a; zcut_lia).
  assert (Hua : unread s = a ++ 13 :: 10 :: post) by (rewrite Hu, Es; unfold a; by rewrite <- app_assoc).
  pose proof (zlen_nonneg pre). pose proof (zlen_nonneg post).
  rewrite (on_stream_ret _ _ _ _ _ _ Hf). change (0x0A0D =? 0x0A0D) with true. cbn iota.
  rewrite advance_advance. replace (zlen head + (zlen pre + 2)) with (zlen a + 2) by lia.
  unfold pbind at 1. unfold pbind at 1.
  assert (E2 : Stream_Rewind 2 (advance s (zlen a + 2)) = Ret (tt, advance s (zlen a))).
  { rewrite rewind_spec by (done || lia). by replace (zlen a + 2 - 2) with (zlen a) by lia. }
  unfold on_stream at 1, pzoom at 1. cbn [fst snd]. rewrite E2.
  assert (Hra : readable (advance s (zlen a))) by (apply readable_advance; [done|rewrite Hua; zcut_lia]).
  rewrite (on_stream_ret _ _ _ _ _ _ (get_position_run _ (readable_ok _ Hra))).
  replace (pointer (advance s (zlen a)) - pointer s) with (zlen a) by (cbn; lia).
  pose proof (zlen_unread s Hr) as Hz. rewrite Hua in Hz. autorewrite with zlist in Hz.
  rewrite u64_id by lia. destruct (zero_after s a 13 10 post Hr Hua) as (E3 & Hr3 & Hu3 & Hl3 & Hc3 & Hb3).
  rewrite (on_stream_ret _ _ _ _ _ _ E3). set (s' := put_bytes (advance s (zlen a)) [0; 0]) in *.
  rewrite (on_stream_ret pget _ _ _ _ _ eq_refl), Hb3.
  assert (Hn : Z.to_nat (zlen a) = length a) by (unfold zlen; lia).
  destruct (strnlen_exact a (0 :: 0 :: post ++ zdrop (slength s) (buffer s))) as (l & El & Heq).
  rewrite Hn, El, pbind_plift, Heq.
  assert (Hset : Stream_SetPosition (pointer s) s' = Ret (true, set_pointer (pointer s) s')).
  { apply set_position_run; [apply Hr3|]. rewrite Hc3. lia. }
  destruct (forallb nonzero a) eqn:Ez.
  - rewrite (store_string_run isToken a _ n s' Ez). destruct (store_string isToken a n) as [[] n']; cbn [negb fst snd]; [done|].
    by rewrite (on_stream_ret _ _ _ _ _ _ Hset).
  - unfold pret at 1. cbn [negb]. rewrite (on_stream_ret _ _ _ _ _ _ Hset). unfold store_string. by rewrite Ez.
Qed.
End token.
(** A received packet in a buffer with two bytes to spare behind it: [memcmp] looks at 17 bytes
    when 15 are left. *)
Definition received (s : wStream) : Prop := readable s /\ slength s + 2 <= capacity s.

Definition has_prefix (lit : list Z) (s : wStream) : bool :=
  bool_decide (ztake (zlen lit) (zdrop (pointer s) (buffer s)) = lit).

(** How the string at the cursor is read: not at all, as a token or as a cookie. *)
Definition token_kind (s : wStream) : option bool :=
  if zlen (unread s) <? 15 then None
  else if has_prefix mstshash s then if zlen (unread s) <? 19 then None else Some false
  else if has_prefix msts s || has_prefix tsv s || has_prefix mth s then Some true
  else None.

Section token_or_cookie.
Context `{Malloc}.
Implicit Types (n : rdpNego) (s : wStream).

Lemma at_cursor_run lit s : pointer s + zlen lit <= zlen (buffer s) -> at_cursor lit s = Ret (has_prefix lit s, s).
Proof. intros Hfit. unfold at_cursor, pbind, pget. by replace (_ <=? _) with true by lia. Qed.

Lemma token_or_cookie_run n s :
  received s ->
  nego_read_request_token_or_cookie (n, s) =
    match token_kind s with
    | None => Ret (true, (n, s))
    | Some true => read_token_or_cookie true (pointer s) (zlen (unread s)) (n, s)
    | Some false => read_token_or_cookie false (pointer s) (zlen (unread s)) (n, advance s 17)
    end.
Proof.
  intros [Hr Hslack]. unfold nego_read_request_token_or_cookie, token_kind.
  rewrite (on_stream_ret _ _ _ _ _ _ (remaining_length_spec s Hr)).
  rewrite (on_stream_ret _ _ _ _ _ _ (get_position_run s (readable_ok s Hr))).
  pose proof (zlen_unread s Hr) as Hz. pose proof Hr as [[Hbuf Hcap Hlen Hpos Hby] Hle].
  destruct (zlen (unread s) <? 15) eqn:E15; [done|].
  assert (Hat : forall lit, zlen lit <= 17 -> at_cursor lit s = Ret (has_prefix lit s, s))
    by (intros lit Hl; apply at_cursor_run; lia).
  rewrite (on_stream_ret _ _ _ _ _ _ (Hat mstshash ltac:(done))).
  destruct (has_prefix mstshash s) eqn:Ec; cbn [negb].
  - destruct (zlen (unread s) <? 19) eqn:E19; [done|].
    by rewrite (on_stream_ret _ _ _ _ _ _ (seek_run s 17 (readable_ok s Hr) ltac:(unfold room; lia))).
  - rewrite (on_stream_ret _ _ _ _ _ _ (Hat msts ltac:(done))).
    destruct (has_prefix msts s); cbn [orb]; [by rewrite !pbind_pret|].
    rewrite (on_stream_ret _ _ _ _ _ _ (Hat tsv ltac:(done))).
    destruct (has_prefix tsv s); cbn [orb]; [by rewrite pbind_pret|].
    rewrite (on_stream_ret _ _ _ _ _ _ (Hat mth ltac:(done))). by destruct (has_prefix mth s).
Qed.

(** On every received packet the string is read or refused, and the packet stays as long. *)
Lemma token_or_cookie_returns n s :
  received s ->
  runs nego_read_request_token_or_cookie (n, s) (fun b p =>
    received p.2 /\ slength p.2 = slength s /\
    state p.1 = state n /\ RequestedProtocols p.1 = RequestedProtocols n /\
    (b = true -> exists k, 0 <= k <= zlen (unread s) /\ unread p.2 = zdrop k (unread s))).
Proof.
  intros Hrec. pose proof Hrec as [Hr Hslack]. unfold runs. rewrite token_or_cookie_run by done.
  assert (Hread : forall kind head tail, unread s = head ++ tail ->
    runs (read_token_or_cookie kind (pointer s) (zlen (unread s))) (n, advance s (zlen head)) (fun b p =>
      received p.2 /\ slength p.2 = slength s /\
      state p.1 = state n /\ RequestedProtocols p.1 = RequestedProtocols n /\
      (b = true -> exists k, 0 <= k <= zlen (unread s) /\ unread p.2 = zdrop k (unread s)))).
  { intros kind head tail Hu. unfold runs. rewrite (read_token_run kind n s head tail Hr Hu).
    destruct (crlf_split tail) as [[pre post]|] eqn:Es; [|by do 2 eexists].
    apply crlf_split_spec in Es. cbn zeta. set (a := head ++ pre).
    assert (Hua : unread s = a ++ 13 :: 10 :: post) by (rewrite Hu, Es; unfold a; by rewrite <- app_assoc).
    destruct (zero_after s a 13 10 post Hr Hua) as (_ & Hr3 & Hu3 & Hl3 & Hc3 & _).
    set (s' := put_bytes (advance s (zlen a)) [0; 0]) in *.
    pose proof (zlen_nonneg a). pose proof (zlen_nonneg post). pose proof Hr as [[_ _ _ Hpos _] _].
    do 2 eexists. split; [done|]. cbn [fst snd].
    assert (Hst : state (store_string kind a n).2 = state n /\
                  RequestedProtocols (store_string kind a n).2 = RequestedProtocols n).
    { unfold store_string. by repeat case_if. }
    destruct ((store_string kind a n).1).
    - split_and!; [split; [done|lia]|done|apply Hst|apply Hst|]. intros _. exists (zlen a + 2). rewrite Hua.
      split; [zcut_lia|]. rewrite Hu3, zdrop_app, zdrop_all by lia. by replace (zlen a + 2 - zlen a) with 2 by lia.
    - pose proof Hr3 as [Hok3 Hle3].
      split_and!; [|done|apply Hst|apply Hst|done]. pose proof Hr as [_ ?].
      split; [split; [apply set_pointer_ok; [done|lia]|cbn; lia]|cbn; lia]. }
  destruct (token_kind s) as [[]|] eqn:Ek.
  - specialize (Hread true [] (unread s) eq_refl). by rewrite advance_0 in Hread.
  - assert (H17 : 17 <= zlen (unread s)).
    { unfold token_kind in Ek. destruct (_ <? 15); [done|]. destruct (has_prefix mstshash s); [|by destruct (_ || _)].
      destruct (_ <? 19) eqn:E; [done|]. lia. }
    specialize (Hread false (ztake 17 (unread s)) (zdrop 17 (unread s)) (eq_sym (ztake_zdrop_app _ _))).
    rewrite zlen_ztake in Hread. by replace (Z.max 0 (Z.min 17 (zlen (unread s)))) with 17 in Hread by lia.
  - do 2 eexists. split; [done|]. cbn [fst snd]. split_and!; [done|done|done|done|].
    intros _. exists 0. split; [zlist_lia|done].
Qed.
End token_or_cookie.
Section request_safety.
Context `{Malloc}.
Implicit Types (n : rdpNego) (s : wStream).

Lemma correlation_safe s : readable s -> safe_at nego_process_correlation_info s.
Proof. intros Hr. unfold nego_process_correlation_info. solve_safe. Qed.

(** The protocols at the end of a negotiation request, after its type. *)
Definition requested (data : list Z) : Z :=
  match data with
  | _ :: _ :: _ :: p0 :: p1 :: p2 :: p3 :: _ => p0 + (p1 + (p2 + p3 * 256) * 256) * 256
  | _ => 0
  end.

Definition request_done (n n' : rdpNego) (data : list Z) : Prop :=
  state n' = NEGO_STATE_FINAL /\ RequestedProtocols n' = requested data /\
  cookie n' = cookie n /\ RoutingToken n' = RoutingToken n.

Lemma request_body_returns fl n s s0 data :
  readable s0 -> readable s -> s = advance s0 1 -> unread s0 = fl :: data -> 6 <= zlen data ->
  runs (process_request_body fl) (n, s) (fun b p => exists k, 0 <= k <= zlen (unread s) /\
    p.2 = advance s k /\ (b = true -> request_done n p.1 (fl :: data))).
Proof.
  intros Hr0 Hr -> Hu0 Hz.
  destruct data as [|l0 [|l1 [|p0 [|p1 [|p2 [|p3 rest]]]]]]; try zlist_lia.
  assert (Hu : unread (advance s0 1) = l0 :: l1 :: p0 :: p1 :: p2 :: p3 :: rest).
  { rewrite unread_advance, Hu0 by (done || lia). done. }
  set (s := advance s0 1) in *. clearbody s. unfold process_request_body, runs.
  destruct (read_u16_le_spec s _ _ _ Hr Hu) as (E1 & Hr1 & Hu1 & _). rewrite (on_stream_ret _ _ _ _ _ _ E1).
  destruct (l0 + l1 * 256 =? 8); cbn [negb].
  2: { do 2 eexists. split; [done|]. exists 2. split_and!; [lia|rewrite Hu; zlist_lia|done|done]. }
  destruct (read_u32_le_spec _ _ _ _ _ _ Hr1 Hu1) as (E2 & Hr2 & Hu2 & _). rewrite advance_advance in *.
  rewrite (on_stream_ret _ _ _ _ _ _ E2), set_nego_run. change (2 + 4) with 6 in *.
  destruct (has_flag fl CORRELATION_INFO_PRESENT).
  2: { rewrite pbind_pret. cbn [negb]. rewrite set_nego_run. do 2 eexists. split; [done|].
       exists 6. split_and!; [lia|rewrite Hu; zlist_lia|done|done]. }
  destruct (correlation_safe _ Hr2) as (b & k & E3 & Hk). rewrite (on_stream_ret _ _ _ _ _ _ E3).
  rewrite Hu2 in Hk. rewrite advance_advance.
  destruct b; cbn [negb]; rewrite ?set_nego_run; do 2 eexists; (split; [done|]);
    exists (6 + k); (split_and!; [lia|rewrite Hu; zlist_lia|done|done]).
Qed.

Lemma process_request_returns n s :
  readable s ->
  runs nego_process_negotiation_request (n, s) (fun b p => exists k, 0 <= k <= zlen (unread s) /\
    p.2 = advance s k /\ (b = true -> request_done n p.1 (unread s))).
Proof.
  intros Hr. unfold nego_process_negotiation_request, runs.
  rewrite (on_stream_ret _ _ _ _ _ _ (check_length_spec s 7 Hr)).
  destruct (7 <=? zlen (unread s)) eqn:E7; cbn [negb].
  2: { do 2 eexists. split; [done|]. exists 0. rewrite advance_0. split_and!; [zlist_lia|zlist_lia|done|done]. }
  destruct (unread s) as [|fl data] eqn:Hu; [done|]. rewrite zlen_cons in *.
  destruct (read_u8_spec s fl data Hr Hu) as (E1 & Hr1 & Hu1 & _). rewrite (on_stream_ret _ _ _ _ _ _ E1).
  destruct (has_flag fl (Z.lnot NEG_REQ_FLAGS)).
  { do 2 eexists. split; [done|]. exists 1. split_and!; [lia|lia|done|done]. }
  rewrite get_nego_run.
  assert (Hbody : forall n1, cookie n1 = cookie n -> RoutingToken n1 = RoutingToken n ->
    exists b p, process_request_body fl (n1, advance s 1) = Ret (b, p) /\
      exists k, 0 <= k <= 1 + zlen data /\ p.2 = advance s k /\ (b = true -> request_done n p.1 (fl :: data))).
  { intros n1 Hc Ht. destruct (request_body_returns fl n1 _ s data Hr Hr1 eq_refl Hu ltac:(lia)) as (b & p & E & k & Hk & Hs & Hd).
    exists b, p. split; [done|]. exists (1 + k). rewrite Hu1 in Hk. split_and!; [lia|lia|by rewrite Hs, advance_advance|].
    intros Hb. destruct (Hd Hb) as (? & ? & ? & ?). split_and!; congruence. }
  destruct (has_flag fl REDIRECTED_AUTHENTICATION_MODE_REQUIRED); [|by apply Hbody].
  destruct (RemoteCredsGuardSupported n); cbn [negb]; [|].
  - rewrite set_nego_run. by apply Hbody.
  - do 2 eexists. split; [done|]. exists 1. split_and!; [lia|lia|done|done].
Qed.

Lemma ensure_consumed_run s len :
  readable s -> 0 <= len <= UINT16_MAX -> tpkt_ensure_stream_consumed len s = Ret (zlen (unread s) =? 0, s).
Proof.
  intros Hr Hlen. unfold tpkt_ensure_stream_consumed. replace (UINT16_MAX <? len) with false by lia.
  rewrite (pbind_ret _ _ _ _ _ (remaining_length_spec s Hr)). pose proof (zlen_nonneg (unread s)).
  case_if; unfold pret; do 2 f_equal; lia.
Qed.
End request_safety.
Section read_request.
Context `{Malloc}.
Implicit Types (n : rdpNego) (s : wStream).

Lemma received_advance s k : received s -> 0 <= k <= zlen (unread s) -> received (advance s k).
Proof. intros [Hr Hs] Hk. split; [by apply readable_advance|done]. Qed.

Lemma request_header_run s :
  readable s -> exists h j, 0 <= j <= zlen (unread s) /\
    tpkt_read_header s = Ret (h, advance s j) /\ (forall l, h = Some l -> 0 <= l <= UINT16_MAX).
Proof.
  intros Hr. assert (E := tpkt_read_header_run s Hr). pose proof (unread_bytes s Hr) as HB.
  destruct (unread s) as [|v r].
  { exists None, 0. rewrite advance_0. split_and!; [done|done|done|done]. }
  pose proof (zlen_nonneg r). destruct (v =? 3); cbn [negb] in E.
  - destruct r as [|x [|b0 [|b1 p]]].
    1-3: exists None, 0; rewrite advance_0; split_and!; [done|zlist_lia|done|done].
    cbn zeta in E. do 2 eexists. split_and!; [..|exact E|]; [done|zlist_lia|].
    rewrite !Forall_cons in HB. destruct HB as (_ & _ & Hb0 & Hb1 & _). unfold is_byte, UINT16_MAX in *.
    intros l Hl. destruct (_ && _); [|done]. simplify_eq. lia.
  - exists (Some 0), 0. rewrite advance_0. split_and!; [done|zlist_lia|done|]. intros l Hl. simplify_eq. done.
Qed.

Lemma consumed_returns n s len :
  readable s -> 0 <= len <= UINT16_MAX ->
  runs (on_stream (tpkt_ensure_stream_consumed len)) (n, s) (fun b p => p = (n, s) /\ (b = true -> unread s = [])).
Proof.
  intros Hr Hl. apply runs_pzoom. cbn [snd].
  eapply runs_eq; [by apply ensure_consumed_run|]. split; [done|]. intros Hz. apply zlen_0_nil. lia.
Qed.

Lemma read_request_returns n s :
  received s ->
  runs nego_read_request (n, s) (fun b p =>
    readable p.2 /\ slength p.2 = slength s /\
    (b = true -> unread p.2 = [] /\
       (state p.1 = NEGO_STATE_FINAL \/
        state p.1 = state n /\ RequestedProtocols p.1 = RequestedProtocols n))).
Proof.
  intros Hrec. pose proof Hrec as [Hr _]. unfold nego_read_request.
  assert (Hstop : forall n1 s1, readable s1 -> slength s1 = slength s ->
    runs (pret false) (n1, s1) (fun b p => readable p.2 /\ slength p.2 = slength s /\
      (b = true -> unread p.2 = [] /\ (state p.1 = NEGO_STATE_FINAL \/
        state p.1 = state n /\ RequestedProtocols p.1 = RequestedProtocols n)))) by (intros; by do 2 eexists).
  destruct (request_header_run s Hr) as (h & j & Hj & E & Hh). apply runs_bind, runs_pzoom. cbn [snd fst].
  eapply runs_eq; [exact E|]. pose proof (received_advance s j Hrec Hj) as Hrec1.
  destruct h as [len|]; [|apply Hstop; [apply Hrec1|done]]. specialize (Hh len eq_refl).
  set (s1 := advance s j) in *. assert (Hl1 : slength s1 = slength s) by done. clearbody s1.
  assert (Hc : safe_at (tpdu_read_connection_request len) s1).
  { unfold tpdu_read_connection_request. apply safe_bind; [by apply tpdu_read_header_safe, Hrec1|apply Hrec1|].
    intros [[code li]|] k Hk Hrk; [|by apply safe_ret]. by destruct (negb _); apply safe_ret. }
  destruct Hc as (c & k & E1 & Hk). apply runs_bind, runs_pzoom. cbn [snd fst]. eapply runs_eq; [exact E1|].
  pose proof (received_advance s1 k Hrec1 Hk) as Hrec2.
  destruct c as [li|]; [|apply Hstop; [apply Hrec2|done]].
  set (s2 := advance s1 k) in *. assert (Hl2 : slength s2 = slength s) by (by rewrite <- Hl1). clearbody s2.
  clear E E1 Hrec1 Hk Hl1 Hj s1 k Hrec Hr. apply runs_bind, runs_pzoom. cbn [snd fst].
  eapply runs_eq; [by apply remaining_length_spec, Hrec2|]. destruct (negb (li =? _)); [apply Hstop; [apply Hrec2|done]|].
  apply runs_bind. eapply runs_weaken; [by apply token_or_cookie_returns|]. cbn beta.
  intros ok [n3 s3] (Hrec3 & Hl3 & Hst & Hreq & _). cbn [fst snd] in *. rewrite Hl2 in Hl3.
  destruct ok; cbn [negb]; [|apply Hstop; [apply Hrec3|done]].
  apply runs_bind, runs_pzoom. cbn [snd fst]. pose proof Hrec3 as [Hr3 _].
  eapply runs_eq; [by apply remaining_length_spec|]. destruct (8 <=? _) eqn:E8.
  2: { eapply runs_weaken; [by apply (consumed_returns n3 s3 len)|]. cbn beta. intros b p [-> Hb]. cbn [fst snd].
       split_and!; [done|done|]. intros Hbt. split; [by apply Hb|by right]. }
  destruct (unread s3) as [|t data] eqn:Hu3; [done|].
  destruct (read_u8_spec s3 t data Hr3 Hu3) as (E4 & Hr4 & Hu4 & _).
  apply runs_bind, runs_pzoom. cbn [snd fst]. eapply runs_eq; [exact E4|].
  destruct (negb (t =? _)); [by apply Hstop|]. apply runs_bind.
  eapply runs_weaken; [by apply process_request_returns|]. cbn beta.
  intros ok [n5 s5] (k & Hk & Hs5 & Hdone). cbn [fst snd] in *. rewrite Hu4 in *.
  assert (Hr5 : readable s5) by (subst s5; apply readable_advance; [done|by rewrite Hu4]).
  assert (Hl5 : slength s5 = slength s) by (by subst s5).
  destruct ok; cbn [negb]; [|by apply Hstop].
  eapply runs_weaken; [by apply (consumed_returns n5 s5 len)|]. cbn beta. intros b p [-> Hb]. cbn [fst snd].
  split_and!; [done|done|]. intros Hbt. split; [by apply Hb|left]. by apply Hdone.
Qed.
End read_request.
(** ** Reading what the client wrote *)

(** The string in front of the negotiation data, and whether it is a token. *)
Definition sent_string (n : rdpNego) : option (bool * list Z) :=
  match RoutingToken n with
  | Some t =>
      Some (true, if token_terminated t (RoutingTokenLength n) then ztake (RoutingTokenLength n - 2) t else t)
  | None =>
      match cookie n with
      | Some c => Some (false, mstshash ++ ztake (CookieMaxLength n) c)
      | None => None
      end
  end.

Definition starts (lit a : list Z) : bool := bool_decide (ztake (zlen lit) a = lit).

(** A string the server takes for what it is: no CR, no NUL, and for a token one of its
    beginnings and enough bytes. *)
Definition clear_string (n : rdpNego) (kind : bool) (a : list Z) : Prop :=
  Forall (fun b => b <> 0x0D) a /\ forallb nonzero a = true /\
  (kind = true -> starts msts a || starts tsv a || starts mth a = true /\ 15 <= zlen (request_body n)).

(** What the server knows after reading the request of [n]. *)
Definition server_after `{Malloc} (n m : rdpNego) : rdpNego :=
  let m1 := match sent_string n with Some (kind, a) => (store_string kind a m).2 | None => m end in
  if asks_protocol n then
    nego_set_state NEGO_STATE_FINAL (nego_set_requested_protocols (RequestedProtocols n)
      (if RemoteCredsGuardRequired n then m1 <| RemoteCredsGuardActive := true |> else m1))
  else m1.

Section server_run.
Context `{Malloc}.
Implicit Types (n m : rdpNego) (s : wStream).

Lemma sent_octets n kind a :
  request_ok n -> sent_string n = Some (kind, a) -> token_octets n = a ++ [0x0D; 0x0A].
Proof.
  intros [Ht _ _ _]. unfold sent_string, token_octets. destruct (RoutingToken n) as [t|].
  - destruct (Ht t eq_refl) as [Hl _]. intros Heq. simplify_eq.
    destruct (token_terminated t (RoutingTokenLength n)) eqn:Et; [|done].
    unfold token_terminated in Et. rewrite !andb_true_iff in Et. destruct Et as [[E0 E1] E2].
    rewrite <- Hl in *. rewrite <- (ztake_zdrop_app (zlen t - 2) t) at 1. f_equal.
    apply znth_ext; [zlist_lia|]. intros i Hi. rewrite znth_zdrop. replace (i <? 0) with false by lia.
    replace (Z.max 0 (zlen t - 2)) with (zlen t - 2) by lia. rewrite zlen_zdrop in Hi.
    destruct (decide (i = 0)) as [->|]; [|assert (i = 1) as -> by lia].
    + rewrite Z.add_0_l. change (znth [13; 10] 0) with 13. lia.
    + replace (1 + (zlen t - 2)) with (zlen t - 1) by lia. change (znth [13; 10] 1) with 10. lia.
  - destruct (cookie n) as [c|]; [|done]. intros Heq. simplify_eq. by rewrite <- app_assoc.
Qed.

Lemma has_prefix_at lit s r : readable s -> unread s = lit ++ r -> has_prefix lit s = true.
Proof.
  intros Hr Hu. unfold has_prefix. rewrite buffer_unread, Hu, <- app_assoc by done. apply bool_decide_eq_true_2.
  rewrite ztake_app, ztake_all, ztake_0 by lia. by rewrite app_nil_r.
Qed.

Lemma has_prefix_starts lit a s r :
  readable s -> unread s = a ++ r -> starts lit a = true -> has_prefix lit s = true.
Proof.
  intros Hr Hu Hst%bool_decide_eq_true_1. apply (has_prefix_at lit s (zdrop (zlen lit) a ++ r)); [done|].
  rewrite Hu, app_assoc. f_equal. by rewrite <- Hst at 1; rewrite ztake_zdrop_app.
Qed.
End server_run.
Section server_reads.
Context `{Malloc}.
Implicit Types (n m : rdpNego) (s : wStream).

Lemma prefixes_agree lit s :
  zlen lit <= 17 -> has_prefix lit s = true -> has_prefix mstshash s = true -> lit = ztake (zlen lit) mstshash.
Proof.
  intros Hl H1%bool_decide_eq_true_1 H2%bool_decide_eq_true_1. rewrite <- H1 at 1. rewrite <- H2.
  rewrite ztake_ztake. change (zlen mstshash) with 17. by replace (Z.min (zlen lit) 17) with (zlen lit) by lia.
Qed.

Lemma token_kind_token a r s :
  readable s -> unread s = a ++ r -> 15 <= zlen (unread s) ->
  starts msts a || starts tsv a || starts mth a = true -> token_kind s = Some true.
Proof.
  intros Hr Hu H15 Hst. unfold token_kind. replace (_ <? 15) with false by lia.
  assert (Hp : has_prefix msts s || has_prefix tsv s || has_prefix mth s = true).
  { rewrite !orb_true_iff in *. destruct Hst as [[?|?]|?]; eauto using has_prefix_starts. }
  rewrite Hp. destruct (has_prefix mstshash s) eqn:Ec; [|done]. exfalso.
  rewrite !orb_true_iff in Hp. destruct Hp as [[Hp|Hp]|Hp]; by apply prefixes_agree in Hp.
Qed.

(** The string is read and stored, the cursor is at the negotiation data. *)
Lemma token_step n m s :
  received s -> request_ok n -> unread s = request_body n ->
  (forall kind a, sent_string n = Some (kind, a) ->
     clear_string n kind a /\ (store_string kind a m).1 = true) ->
  exists s1, nego_read_request_token_or_cookie (m, s) =
      Ret (true, (match sent_string n with Some (kind, a) => (store_string kind a m).2 | None => m end, s1)) /\
    received s1 /\ request_body n = token_octets n ++ unread s1.
Proof.
  intros Hrec Hn Hu Hstr. pose proof Hrec as [Hr Hsl]. unfold request_body in *.
  set (data := if asks_protocol n then _ else _) in *.
  assert (Hd : zlen data <= 8) by (unfold data; by destruct (asks_protocol n)). pose proof (zlen_nonneg data).
  rewrite token_or_cookie_run by done. destruct (sent_string n) as [[kind a]|] eqn:Es.
  2: { assert (Ht : token_octets n = []).
       { unfold sent_string, token_octets in *. destruct (RoutingToken n); [done|]. by destruct (cookie n). }
       rewrite Ht in *. cbn [app] in *. unfold token_kind. rewrite Hu. replace (_ <? 15) with true by lia.
       exists s. by rewrite Hu. }
  destruct (Hstr kind a eq_refl) as [(Hcr & Hnz & Htok) Hst]. rewrite (sent_octets n kind a Hn Es) in *.
  rewrite <- app_assoc in Hu. cbn [app] in Hu.
  destruct (zero_after s a 13 10 data Hr Hu) as (_ & Hr3 & Hu3 & Hl3 & Hc3 & _).
  set (s' := put_bytes (advance s (zlen a)) [0; 0]) in *.
  assert (Hend : forall head pre, a = head ++ pre ->
    read_token_or_cookie kind (pointer s) (zlen (unread s)) (m, advance s (zlen head)) =
      Ret (true, ((store_string kind a m).2, s'))).
  { intros head pre ->. rewrite <- app_assoc in Hu. rewrite (read_token_run kind m s _ _ Hr Hu).
    apply Forall_app in Hcr as [_ Hcr]. rewrite crlf_split_app by done. cbn zeta. by rewrite Hst. }
  exists s'. rewrite Hu3. split; [|split; [split; [done|lia]|done]].
  pose proof (zlen_nonneg a). destruct kind.
  - destruct (Htok eq_refl) as [Hk H15]. rewrite (token_kind_token a (13 :: 10 :: data)); [|done|done| |done].
    + specialize (Hend [] a eq_refl). by rewrite advance_0 in Hend.
    + rewrite Hu. unfold request_body in H15. rewrite (sent_octets n true a Hn Es) in H15. fold data in H15. zcut_lia || (autorewrite with zlist in H15 |- *; lia).
  - assert (Ha : exists c, a = mstshash ++ c).
    { unfold sent_string in Es. destruct (RoutingToken n); [done|]. destruct (cookie n); [|done]. simplify_eq. eauto. }
    destruct Ha as (c & ->). specialize (Hend mstshash c eq_refl). change (zlen mstshash) with 17 in Hend.
    assert (Hkind : token_kind s = Some false).
    { unfold token_kind. rewrite (has_prefix_at mstshash s (c ++ 13 :: 10 :: data)) by (done || by rewrite Hu, <- app_assoc).
      rewrite Hu. pose proof (zlen_nonneg c). autorewrite with zlist. change (zlen mstshash) with 17.
      replace (_ <? 15) with false by lia. by replace (_ <? 19) with false by lia. }
    by rewrite Hkind.
Qed.

Lemma request_data_run n m s :
  readable s -> unread s = neg_data TYPE_RDP_NEG_REQ (request_flags n) (RequestedProtocols n) ->
  0 <= RequestedProtocols n < 4294967296 ->
  (RemoteCredsGuardRequired n = true -> RemoteCredsGuardSupported m = true) ->
  exists s1, stream_read_u8 true s = Ret (TYPE_RDP_NEG_REQ, s1) /\ readable s1 /\
    exists s2, nego_process_negotiation_request (m, s1) = Ret (true,
      (nego_set_state NEGO_STATE_FINAL (nego_set_requested_protocols (RequestedProtocols n)
        (if RemoteCredsGuardRequired n then m <| RemoteCredsGuardActive := true |> else m)), s2)) /\
      readable s2 /\ unread s2 = [].
Proof.
  intros Hr Hu Hp Hrcg. unfold neg_data in Hu. cbn [app] in Hu.
  destruct (le32_value' (RequestedProtocols n) [] Hp) as (p0 & p1 & p2 & p3 & Hle & Hval). rewrite app_nil_r in Hle.
  rewrite Hle in Hu. change (le16 8) with [8; 0] in Hu. cbn [app] in Hu.
  destruct (read_u8_spec s _ _ Hr Hu) as (E & Hr1 & Hu1 & _). exists (advance s 1). split_and!; [done|done|].
  unfold nego_process_negotiation_request. clear E Hr Hu.
  destruct (readable_at _ 7 Hr1 ltac:(rewrite Hu1; done)) as [Hr8 Hu8]. rewrite Hu1 in Hu8. cbn in Hu8.
  exists (advance (advance s 1) 7). split_and!; [|done|done].
  nd_step. change (7 <=? zlen _) with true. nd_step.
  assert (Hfl : has_flag (request_flags n) (Z.lnot NEG_REQ_FLAGS) = false /\
    has_flag (request_flags n) CORRELATION_INFO_PRESENT = false /\
    has_flag (request_flags n) REDIRECTED_AUTHENTICATION_MODE_REQUIRED = RemoteCredsGuardRequired n).
  { unfold request_flags. by destruct (RestrictedAdminModeRequired n), (RemoteCredsGuardRequired n). }
  destruct Hfl as (-> & Hcorr & ->). rewrite get_nego_run.
  assert (Hbody : forall m1, process_request_body (request_flags n) (m1, advance (advance s 1) 1) =
    Ret (true, (nego_set_state NEGO_STATE_FINAL (nego_set_requested_protocols (RequestedProtocols n) m1), advance (advance s 1) 7))).
  { intros m1. unfold process_request_body. nd_step. change (8 + 0 * 256 =? 8) with true. nd_step.
    rewrite Hval, set_nego_run, Hcorr, pbind_pret. cbn [negb]. by rewrite set_nego_run, !advance_advance. }
  destruct (RemoteCredsGuardRequired n); [|apply Hbody]. rewrite Hrcg by done. cbn [negb].
  rewrite set_nego_run. apply Hbody.
Qed.
End server_reads.
(** ** Round trips *)

(** What the client knows after reading the response of the server [n]. *)
Definition client_after (st : rdpSettings) (n m : rdpNego) : rdpNego :=
  let p := SelectedProtocol n in
  if has_flag p PROTOCOL_FAILED_NEGO then
    let code := Z.land p (Z.lnot PROTOCOL_FAILED_NEGO) in
    nego_set_state NEGO_STATE_FAIL
      (if (code =? SSL_NOT_ALLOWED_BY_SERVER) || (code =? SSL_CERT_NOT_ON_SERVER)
       then m <| sendNegoData := true |> else m)
  else
    m <| flags := response_flags st n |> <| SelectedProtocol := p |>
      <| state := if acceptable p m then NEGO_STATE_FINAL else NEGO_STATE_FAIL |>.

Section roundtrip.
Context `{Malloc}.
Implicit Types (n m : rdpNego) (s : wStream).

Lemma zlen_x224 code body : zlen (x224_packet code body) = zlen (enc_tpdu (6 + zlen body) code) + 4 + zlen body.
Proof. unfold x224_packet. autorewrite with zlist. lia. Qed.

Lemma confirm_body_packet body :
  zlen body <= 249 ->
  confirm_body (x224_packet X224_TPDU_CONNECTION_CONFIRM body) = Some (6 + zlen body, body).
Proof.
  intros Hl. pose proof (zlen_nonneg body). unfold x224_packet, enc_tpkt, enc_tpdu. cbn [app be16 confirm_body].
  change (X224_TPDU_CONNECTION_CONFIRM =? X224_TPDU_DATA) with false. cbn [app].
  rewrite u8_id by (unfold is_byte; lia). rewrite be16_value by lia. cbn zeta.
  rewrite !zlen_cons. rewrite Z.eqb_refl. cbn [andb].
  replace (7 <=? 11 + zlen body) with true by lia. replace (_ <=? 1 + _) with true by lia.
  replace (6 + zlen body + 4 <=? 11 + zlen body) with true by lia.
  replace (6 <=? 6 + zlen body) with true by lia. by replace (6 + zlen body - 6 <=? zlen body) with true by lia.
Qed.

Lemma land_lnot_u32 p : 0 <= p < 4294967296 -> 0 <= Z.land p (Z.lnot PROTOCOL_FAILED_NEGO) < 4294967296.
Proof.
  intros Hp. change 4294967296 with (2 ^ 32) in *. rewrite <- (Z.mod_small p (2 ^ 32)) by lia.
  rewrite <- Z.land_ones, <- Z.land_assoc, (Z.land_comm (Z.ones 32)), Z.land_assoc, Z.land_ones by lia.
  apply Z.mod_pos_bound. lia.
Qed.

Lemma response_recv st n m :
  0 <= SelectedProtocol n < 4294967296 -> recv_spec (enc_response st n) m = (0, client_after st n m).
Proof.
  intros Hp. unfold recv_spec, enc_response. rewrite confirm_body_packet by (by rewrite zlen_response_body).
  rewrite zlen_response_body. change (6 + 8 =? 6) with false. unfold response_body, client_after. cbn zeta.
  destruct (has_flag (SelectedProtocol n) PROTOCOL_FAILED_NEGO).
  - destruct (le32_value' _ [] (land_lnot_u32 _ Hp)) as (p0 & p1 & p2 & p3 & Hle & Hval). rewrite app_nil_r in Hle.
    unfold neg_data. rewrite Hle. cbn [app le16 apply_neg_data]. rewrite Hval. done.
  - destruct (le32_value' _ [] Hp) as (p0 & p1 & p2 & p3 & Hle & Hval). rewrite app_nil_r in Hle.
    unfold neg_data. rewrite Hle. cbn [app le16 apply_neg_data]. rewrite Hval.
    by destruct (acceptable (SelectedProtocol n) m).
Qed.

Lemma request_read n m s :
  received s -> unread s = enc_request n -> request_ok n -> zlen (request_body n) <= 249 ->
  0 <= RequestedProtocols n < 4294967296 ->
  (forall kind a, sent_string n = Some (kind, a) ->
     clear_string n kind a /\ (store_string kind a m).1 = true) ->
  (RemoteCredsGuardRequired n = true -> RemoteCredsGuardSupported m = true) ->
  exists s', nego_read_request (m, s) = Ret (true, (server_after n m, s')) /\ unread s' = [].
Proof.
  intros Hrec Hu Hn Hl Hp Hstr Hrcg. pose proof Hrec as [Hr _]. set (b := request_body n) in *.
  pose proof (zlen_nonneg b). unfold enc_request, x224_packet in Hu. fold b in Hu. rewrite <- app_assoc in Hu.
  assert (Htp : zlen (enc_tpdu (6 + zlen b) X224_TPDU_CONNECTION_REQUEST) = 7) by done.
  assert (E1 : tpkt_read_header s = Ret (Some (11 + zlen b), advance s 4)).
  { apply (tpkt_read_header_enc _ (enc_tpdu (6 + zlen b) X224_TPDU_CONNECTION_REQUEST ++ b) s []);
      [unfold UINT16_MAX; lia|rewrite zlen_app; lia|done|by rewrite app_nil_r]. }
  unfold nego_read_request. rewrite (on_stream_ret _ _ _ _ _ _ E1).
  assert (Hz : zlen (unread s) = 11 + zlen b) by (rewrite Hu, !zlen_app; zcut_lia).
  destruct (readable_at s 4 Hr ltac:(lia)) as [Hr4 Hu4]. rewrite Hu, zdrop_app, zdrop_all, zdrop_0 in Hu4 by zcut_lia.
  cbn [app] in Hu4.
  pose proof (tpdu_read_header_enc (6 + zlen b) X224_TPDU_CONNECTION_REQUEST (11 + zlen b) ltac:(done) ltac:(lia) ltac:(lia)
    _ b Hr4 Hu4) as E2.
  assert (E3 : tpdu_read_connection_request (11 + zlen b) (advance s 4) = Ret (Some (6 + zlen b), advance s 11)).
  { unfold tpdu_read_connection_request. rewrite (pbind_ret _ _ _ _ _ E2). by rewrite advance_advance. }
  rewrite (on_stream_ret _ _ _ _ _ _ E3). pose proof (received_advance s 11 Hrec ltac:(lia)) as Hrec11.
  assert (Hu11 : unread (advance s 11) = b).
  { change 11 with (4 + 7). rewrite <- advance_advance, unread_advance, Hu4 by (done || lia).
    rewrite zdrop_app, zdrop_all, zdrop_0 by lia. done. }
  rewrite (on_stream_ret _ _ _ _ _ _ (remaining_length_spec _ (proj1 Hrec11))), Hu11.
  replace (6 + zlen b =? zlen b + 6) with true by lia. cbn [negb].
  destruct (token_step n m _ Hrec11 Hn Hu11 Hstr) as (s1 & E4 & Hrec1 & Hb). rewrite (pbind_ret _ _ _ _ _ E4). cbn [negb].
  pose proof Hrec1 as [Hr1 _]. rewrite (on_stream_ret _ _ _ _ _ _ (remaining_length_spec _ Hr1)).
  unfold server_after. set (m1 := match sent_string n with Some _ => _ | None => _ end).
  unfold request_body in Hb. apply app_inv_head in Hb. destruct (asks_protocol n).
  - rewrite <- Hb. change (8 <=? zlen _) with true. cbn iota.
    assert (Hrcg1 : RemoteCredsGuardRequired n = true -> RemoteCredsGuardSupported m1 = true).
    { intros Hg. rewrite <- (Hrcg Hg). unfold m1, store_string.
      destruct (sent_string n) as [[]|]; [|done]. by repeat case_if. }
    destruct (request_data_run n m1 s1 Hr1 (eq_sym Hb) Hp Hrcg1) as (s2 & E5 & Hr2 & s3 & E6 & Hr3 & Hu3).
    rewrite (on_stream_ret _ _ _ _ _ _ E5). change (negb (TYPE_RDP_NEG_REQ =? TYPE_RDP_NEG_REQ)) with false. cbn iota.
    rewrite (pbind_ret _ _ _ _ _ E6). cbn [negb]. exists s3. split; [|done].
    unfold on_stream, pzoom. cbn [snd fst]. rewrite ensure_consumed_run by (done || unfold UINT16_MAX; lia). by rewrite Hu3.
  - rewrite <- Hb. change (8 <=? zlen _) with false. cbn iota. exists s1. split; [|done].
    unfold on_stream, pzoom. cbn [snd fst]. rewrite ensure_consumed_run by (done || unfold UINT16_MAX; lia). by rewrite <- Hb.
Qed.

(** The bytes between two positions of a stream. *)
Definition stored (s0 s1 : wStream) : list Z := zdrop (pointer s0) (ztake (pointer s1) (buffer s1)).

Lemma stored_put_bytes s bs : stream_ok s -> zlen bs <= room s -> stored s (sealed (put_bytes s bs)) = bs.
Proof.
  intros Hs Hfit. unfold stored. change (pointer (sealed (put_bytes s bs))) with (pointer s + zlen bs).
  change (buffer (sealed (put_bytes s bs))) with (buffer (put_bytes s bs)).
  rewrite ztake_put_bytes by done. pose proof Hs as [Hb _ _ Hp _].
  rewrite zdrop_app, zlen_ztake. rewrite zdrop_all, zdrop_0 by (rewrite ?zlen_ztake; lia). done.
Qed.
End roundtrip.

(** What the server has learnt from the request of [n], field by field: a routing token without its CR
    LF, or a cookie with its prefix and cut to the maximal length; the protocols, and whether the
    credentials are to be guarded. *)
Definition learnt (n m m' : rdpNego) : Prop :=
  match sent_string n with
  | Some (true, a) => RoutingToken m' = Some a /\ RoutingTokenLength m' = zlen a /\ cookie m' = cookie m
  | Some (false, a) => cookie m' = Some a /\ RoutingToken m' = RoutingToken m
  | None => cookie m' = cookie m /\ RoutingToken m' = RoutingToken m
  end /\
  if asks_protocol n then
    state m' = NEGO_STATE_FINAL /\ RequestedProtocols m' = RequestedProtocols n /\
    RemoteCredsGuardActive m' = RemoteCredsGuardActive m || RemoteCredsGuardRequired n
  else state m' = state m /\ RequestedProtocols m' = RequestedProtocols m.

(** The request ends with the negotiation data; its flags name what the client requires. *)
Definition asks (n : rdpNego) (bs : list Z) : Prop :=
  exists fl, zdrop (11 + zlen (token_octets n)) bs = [1; fl; 8; 0] ++ le32 (RequestedProtocols n) /\
    Z.testbit fl 0 = RestrictedAdminModeRequired n /\ Z.testbit fl 1 = RemoteCredsGuardRequired n.

(** The flags of a response say what the server supports. *)
Definition offers (st : rdpSettings) (n : rdpNego) (fl : Z) : Prop :=
  Z.testbit fl 0 = true /\ Z.testbit fl 1 = FreeRDP_SupportGraphicsPipeline st /\
  Z.testbit fl 3 = FreeRDP_RestrictedAdminModeRequired st /\ Z.testbit fl 4 = RemoteCredsGuardSupported n.

Lemma server_learnt `{Malloc} n m :
  (forall kind a, sent_string n = Some (kind, a) -> (store_string kind a m).1 = true) -> learnt n m (server_after n m).
Proof.
  intros Hstr. unfold learnt, server_after. destruct (sent_string n) as [[kind a]|].
  - specialize (Hstr kind a eq_refl). unfold store_string in *. destruct kind; repeat (case_if; try done);
      destruct (asks_protocol n), (RemoteCredsGuardRequired n); cbn; rewrite ?orb_true_r, ?orb_false_r; done.
  - destruct (asks_protocol n), (RemoteCredsGuardRequired n); cbn; rewrite ?orb_true_r, ?orb_false_r; done.
Qed.

Lemma request_asks n : asks_protocol n = true -> asks n (enc_request n).
Proof.
  intros Ha. exists (request_flags n). split.
  - unfold enc_request, x224_packet, request_body. rewrite Ha, app_assoc.
    set (hdr := _ ++ enc_tpdu _ _). assert (Hh : zlen hdr = 11) by done. clearbody hdr.
    rewrite zdrop_app, zdrop_all, zlen_app, Hh, Z.sub_diag, zdrop_0 by (rewrite ?zlen_app; lia). done.
  - unfold request_flags. by destruct (RestrictedAdminModeRequired n), (RemoteCredsGuardRequired n).
Qed.

Lemma response_offers st n : offers st n (response_flags st n).
Proof.
  unfold offers, response_flags.
  by destruct (FreeRDP_SupportGraphicsPipeline st), (FreeRDP_RestrictedAdminModeRequired st), (RemoteCredsGuardSupported n).
Qed.

(** C6: The negotiation PDUs survive the wire.  A client whose token or cookie fits writes its
    connection request in full, with the protocols and the flags it requires.  A server that receives
    these bytes accepts them and consumes the packet, if it has memory for the token or cookie (which
    has no CR and no NUL, and a token one of its beginnings) and supports a guard of credentials that is
    required; it then knows the requested protocols, that guard, and the token without its CR LF or
    "Cookie: mstshash=" and the name cut to the maximal length; it does not store the flag of restricted
    administration.  A server writes its response in full, and a client that receives it goes to the
    final state with the protocol and the flags of the server if it may use the protocol, and to the
    failure state otherwise, or when the server reports a failure. *)
Theorem nego_pdu_roundtrip `{Malloc} (n m : rdpNego) (st : rdpSettings) (s0 : wStream) :
  stream_ok s0 -> 512 <= room s0 ->
  (request_ok n -> zlen (request_body n) <= 249 -> 0 <= RequestedProtocols n < 2 ^ 32 ->
   (forall kind a, sent_string n = Some (kind, a) ->
      clear_string n kind a /\ (store_string kind a m).1 = true) ->
   (RemoteCredsGuardRequired n = true -> RemoteCredsGuardSupported m = true) ->
   exists s1, write_negotiation_request n s0 = Ret (true, s1) /\
     (asks_protocol n = true -> asks n (stored s0 s1)) /\
     forall s, received s -> unread s = stored s0 s1 ->
       exists m' s', nego_read_request (m, s) = Ret (true, (m', s')) /\ unread s' = [] /\
         m' = server_after n m /\ learnt n m m') /\
  (0 <= SelectedProtocol n < 2 ^ 32 ->
   exists s1, write_negotiation_response st n s0 = Ret (true, s1) /\
     forall s, readable s -> unread s = stored s0 s1 ->
       exists k, nego_recv (m, s) = Ret (0, (client_after st n m, advance s k)) /\
         (has_flag (SelectedProtocol n) PROTOCOL_FAILED_NEGO = false -> offers st n (flags (client_after st n m)))).
Proof.
  intros Hs Hroom. split.
  - intros Hn Hl Hp Hstr Hrcg. eexists. split; [by apply write_request_run|].
    assert (Hst : stored s0 (sealed (put_bytes s0 (enc_request n))) = enc_request n).
    { apply stored_put_bytes; [done|]. unfold enc_request. rewrite zlen_x224. change (zlen (enc_tpdu _ _)) with 7. lia. }
    rewrite Hst. split; [apply request_asks|]. intros s Hrec Hu.
    destruct (request_read n m s Hrec Hu Hn Hl Hp Hstr Hrcg) as (s' & E & Hu'). exists (server_after n m), s'.
    split_and!; [done|done|done|]. apply server_learnt. intros kind a Hk. by apply Hstr.
  - intros Hp. eexists. split; [by apply write_response_run|]. intros s Hr Hu.
    rewrite stored_put_bytes in Hu; [|done|].
    + destruct (nego_recv_handles m s Hr) as (k & _ & E). exists k. rewrite E, Hu, response_recv by done. split; [done|].
      intros Hf. unfold client_after. rewrite Hf. apply response_offers.
    + unfold enc_response. rewrite zlen_x224, zlen_response_body. change (zlen (enc_tpdu _ _)) with 7. lia.
Qed.

(** A client that asks for TLS with the cookie "ab", and a fresh object. *)
Definition sample_client : rdpNego :=
  sample_nego <| cookie := Some [97; 98] |> <| RequestedProtocols := PROTOCOL_SSL |>.
Definition sample_settings : rdpSettings :=
  mkSettings 0 0 0 0 false 0 0 false false false false false false false true.

Lemma nego_pdu_roundtrip_witness :
  exists s1, write_negotiation_request sample_client (blank_stream 512) = Ret (true, s1) /\
    (asks_protocol sample_client = true -> asks sample_client (stored (blank_stream 512) s1)) /\
    forall s, received s -> unread s = stored (blank_stream 512) s1 ->
      exists m' s', nego_read_request (H := malloc_all) (sample_nego, s) = Ret (true, (m', s')) /\ unread s' = [] /\
        m' = server_after (H := malloc_all) sample_client sample_nego /\ learnt sample_client sample_nego m'.
Proof.
  refine (proj1 (nego_pdu_roundtrip (H := malloc_all) sample_client sample_nego sample_settings (blank_stream 512) _ _)
            _ _ _ _ _).
  - apply (blank_stream_growable 512). lia.
  - vm_compute. discriminate.
  - split; cbn; try done. intros c Hc. injection Hc as <-. repeat constructor; unfold is_byte; lia.
  - vm_compute. discriminate.
  - cbn. unfold PROTOCOL_SSL. lia.
  - intros kind a Hs. vm_compute in Hs. injection Hs as <- <-. split; [|reflexivity].
    split; [repeat constructor; lia|]. split; [reflexivity|discriminate].
  - discriminate.
Defined.

(** C8: On any packet, in a buffer with two bytes to spare behind it, [nego_read_request] returns
    without a failed assertion or an access outside of the buffer, and keeps the stream usable.  It
    accepts only packets it has consumed to the end, and it is in the final state afterwards unless
    the packet carried no negotiation request. *)
Theorem nego_read_request_safe `{Malloc} (n : rdpNego) (s : wStream) :
  received s ->
  exists b n' s', nego_read_request (n, s) = Ret (b, (n', s')) /\ readable s' /\ slength s' = slength s /\
    (b = true -> unread s' = [] /\
       (state n' = NEGO_STATE_FINAL \/ state n' = state n /\ RequestedProtocols n' = RequestedProtocols n)).
Proof.
  intros Hrec. destruct (read_request_returns n s Hrec) as (b & [n' s'] & E & Hr & Hl & Hb). by exists b, n', s'.
Qed.

Lemma nego_read_request_safe_witness :
  exists b n' s', nego_read_request (H := malloc_all) (sample_nego, set_length 18 (blank_stream 20)) = Ret (b, (n', s')) /\
    readable s' /\ slength s' = 18.
Proof.
  destruct (nego_read_request_safe (H := malloc_all) sample_nego (set_length 18 (blank_stream 20))) as (b & n' & s' & E & Hr & Hl & _).
  - destruct (blank_stream_growable 20 ltac:(lia)) as ([] & _). split; [split; [split; cbn in *; done || lia|cbn; lia]|cbn; lia].
  - exists b, n', s'. split; [exact E|]. split; [exact Hr|exact Hl].
Defined.

(** A packet that ends with its buffer and has 15 bytes after the header, which is what the code
    takes as the least length of a token: the comparison with the 17 bytes of "Cookie: mstshash="
    runs past the buffer. *)
Theorem nego_request_overread `{Malloc} (n : rdpNego) :
  let pdu := x224_packet X224_TPDU_CONNECTION_REQUEST (zrep 15 65) in
  nego_read_request (n, mkStream pdu 0 (zlen pdu) (zlen pdu) 0 None true true) = Abort.
Proof. reflexivity. Qed.

(** A routing token that does not fit into the 512 bytes of the request stops the client. *)
Theorem nego_token_overflow (n : rdpNego) (t : list Z) (s : wStream) :
  RoutingToken n = Some t -> zlen t = RoutingTokenLength n -> 501 < zlen t ->
  stream_ok s -> room s = 512 -> write_negotiation_request n s = Abort.
Proof.
  intros Ht Hl Hz Hs Hroom. unfold write_negotiation_request.
  rewrite (pbind_ret _ _ _ _ _ (position_spec s Hs)).
  change TPDU_CONNECTION_REQUEST_LENGTH with 11. rewrite (pbind_ret _ _ _ _ _ (seek_run s 11 Hs ltac:(lia))).
  assert (E : write_token_or_cookie n (advance s 11) = Abort).
  { unfold write_token_or_cookie. rewrite Ht. unfold read_mem. rewrite Hl, Z.leb_refl, pbind_plift.
    unfold Stream_Write. rewrite ztake_all, Hl by lia. replace (0 <? _) with true by lia.
    unfold pbind. assert (Hs1 : stream_ok (advance s 11)) by (apply advance_ok; [done|lia]).
    unfold need_capacity, pbind. rewrite (remaining_capacity_spec _ Hs1). unfold passert, room in *. cbn.
    by replace (RoutingTokenLength n <=? _) with false by lia. }
  unfold pbind. by rewrite E.
Qed.
