(* ===== verification/NegoClient.v ===== *)
(** * The rounds of the client

    Invariants, termination and result of [nego_connect], for any transport that returns from its
    operations ([TransportLaws]). *)

From stdpp Require Import relations.
From S2P Require Import Prelude Memory Stream Framing Unicode UnicodeApi Nego NegoPdu.

(** ** What the negotiation relies on *)

(** The operations of the transport return, and a PDU that was read is positioned for reading. *)
Class TransportLaws (W : Type) `{Transport W} : Prop := {
  connect_returns h p t w : runs (transport_connect h p t) w (fun _ _ => True);
  childsession_returns w : runs transport_connect_childsession w (fun _ _ => True);
  gateway_returns b w : runs (transport_set_gateway_enabled b) w (fun _ _ => True);
  rdp_returns w : runs transport_connect_rdp w (fun _ _ => True);
  tls_returns w : runs transport_connect_tls w (fun _ _ => True);
  nla_returns b w : runs (transport_connect_nla b) w (fun _ _ => True);
  rdstls_returns w : runs transport_connect_rdstls w (fun _ _ => True);
  aad_returns w : runs transport_connect_aad w (fun _ _ => True);
  disconnect_returns w : runs transport_disconnect w (fun _ _ => True);
  write_returns s w : runs (transport_write s) w (fun _ _ => True);
  read_returns s w : growable s -> runs (transport_read_pdu s) w (fun r _ => 0 <= r.1 -> readable r.2)
}.
Create HintDb nego.
#[export] Hint Resolve connect_returns childsession_returns gateway_returns rdp_returns tls_returns
  nla_returns rdstls_returns aad_returns disconnect_returns write_returns : nego.

(** An answer without the negotiation data the client knows: one octet of an unknown type. *)
Definition inconclusive (bs : list Z) : bool :=
  match confirm_body bs with
  | Some (li, [t]) => negb (li =? 6) && negb (t =? TYPE_RDP_NEG_RSP) && negb (t =? TYPE_RDP_NEG_FAILURE)
  | _ => false
  end.

(** The server never gives such an answer. *)
Class ConclusiveServer (W : Type) `{Transport W} : Prop :=
  conclusive : forall s w st s' w', transport_read_pdu s w = Ret ((st, s'), w') -> 0 <= st ->
    inconclusive (unread s') = false.

(** The bytes that a server may give as an answer. *)
Definition answered {W : Type} `{Transport W} (bs : list Z) : Prop :=
  exists s t st s' t', transport_read_pdu s t = Ret ((st, s'), t') /\ 0 <= st /\ unread s' = bs.

(** An answer without negotiation data, and the protocol that an answer selects. *)
Definition no_neg_data (bs : list Z) : bool :=
  match confirm_body bs with Some (li, _) => li =? 6 | None => false end.
Definition answer_selects (bs : list Z) : option Z :=
  match confirm_body bs with
  | Some (li, t :: _ :: _ :: _ :: p0 :: p1 :: p2 :: p3 :: _) =>
      if negb (li =? 6) && (t =? TYPE_RDP_NEG_RSP) then Some (p0 + (p1 + (p2 + p3 * 256) * 256) * 256) else None
  | _ => None
  end.

(** ** Fields that do not change *)

(** The object without the fields that the rounds change. *)
Definition config (n : rdpNego) : rdpNego :=
  n <| state := NEGO_STATE_INITIAL |> <| flags := 0 |> <| TcpConnected := false |>
    <| SecurityConnected := false |> <| sendNegoData := false |> <| SelectedProtocol := 0 |>
    <| RequestedProtocols := 0 |>.

Lemma config_enabled n n' p : config n = config n' -> enabled p n = enabled p n'.
Proof. intros E. apply (f_equal EnabledProtocols) in E. unfold enabled. cbn in E. by rewrite E. Qed.

(** ** What an answer changes *)

Lemma recv_spec_effect bs n n' :
  recv_spec bs n = (0, n') ->
  config n' = config n /\ TcpConnected n' = TcpConnected n /\ SecurityConnected n' = SecurityConnected n /\
  RequestedProtocols n' = RequestedProtocols n /\
  (SelectedProtocol n' = SelectedProtocol n \/ answer_selects bs = Some (SelectedProtocol n')) /\
  ((state n' = NEGO_STATE_FINAL /\ answer_selects bs = Some (SelectedProtocol n') /\ acceptable (SelectedProtocol n') n = true) \/
   (state n' = NEGO_STATE_FINAL /\ enabled PROTOCOL_RDP n = true /\ no_neg_data bs = true /\ SelectedProtocol n' = SelectedProtocol n) \/
   state n' = NEGO_STATE_FAIL \/
   (n' = n /\ inconclusive bs = true)).
Proof.
  unfold recv_spec, inconclusive, answer_selects, no_neg_data. destruct (confirm_body bs) as [[li data]|]; [|done].
  destruct (li =? 6).
  { intros [= _ <-]. destruct (enabled PROTOCOL_RDP n) eqn:Ee; split_and!; auto. right; left. by split_and!. }
  unfold apply_neg_data. destruct data as [|t [|fl data]]; [done| |].
  { destruct (t =? TYPE_RDP_NEG_RSP); [done|]. destruct (t =? TYPE_RDP_NEG_FAILURE); [done|].
    intros [= <-]. split_and!; auto. }
  assert (Hshort : forall r : Z * rdpNego, r.1 <> 0 -> r = (0, n') -> False) by (by intros [? ?] ? [= ? ?]).
  destruct data as [|l0 [|l1 [|p0 [|p1 [|p2 [|p3 rest]]]]]].
  1-6: intros Heq; exfalso; revert Heq; apply Hshort; repeat case_if; done.
  cbn zeta. destruct (t =? TYPE_RDP_NEG_RSP).
  - destruct (_ =? 8); [|done]. intros [= _ <-]. cbn [negb andb]. set (p := p0 + _).
    destruct (acceptable p n) eqn:Ea; split_and!; auto.
  - destruct (t =? TYPE_RDP_NEG_FAILURE); [|done]. destruct (_ && _); [|done]. intros [= _ <-].
    destruct (_ || _); split_and!; auto.
Qed.

(** ** The operations of the client *)

(** What connects the security layer for a protocol. *)
Definition security_layer {W} `{Transport W} (p : Z) : option (Prog W bool) :=
  if p =? PROTOCOL_RDSAAD then Some transport_connect_aad
  else if p =? PROTOCOL_RDSTLS then Some transport_connect_rdstls
  else if p =? PROTOCOL_HYBRID then Some (transport_connect_nla false)
  else if p =? PROTOCOL_HYBRID_EX then Some (transport_connect_nla true)
  else if p =? PROTOCOL_SSL then Some transport_connect_tls
  else if p =? PROTOCOL_RDP then Some transport_connect_rdp
  else None.

Section operations.
Context `{HM : Malloc} `{HF : FreshMemory} `{HB : !ByteMemory}.
Context {W : Type} `{HT : !Transport W} `{HL : !TransportLaws W}.
Implicit Types (w : nworld W) (n : rdpNego).

Lemma runs_transport {A} (m : Prog W A) w (Q : A -> nworld W -> Prop) (P : A -> W -> Prop) :
  runs m (transport w) P -> (forall a t, P a t -> m (transport w) = Ret (a, t) -> Q a (w <| transport := t |>)) ->
  runs (on_transport m) w Q.
Proof. intros (a & t & E & HP) HQ. apply runs_pzoom. exists a, t. split; [done|]. by apply HQ. Qed.

Lemma runs_the_nego w (Q : rdpNego -> nworld W -> Prop) : Q (nego w) w -> runs the_nego w Q.
Proof. by exists (nego w), w. Qed.
Lemma runs_the_settings w (Q : rdpSettings -> nworld W -> Prop) : Q (settings w) w -> runs the_settings w Q.
Proof. by exists (settings w), w. Qed.
Lemma runs_upd_nego f w (Q : unit -> nworld W -> Prop) : Q tt (w <| nego := f (nego w) |>) -> runs (upd_nego f) w Q.
Proof. intros HQ. by eexists _, _. Qed.

(** A world that differs in the object and the transport only. *)
Definition only_nego (w : nworld W) (n : rdpNego) (w' : nworld W) : Prop :=
  nego w' = n /\ settings w' = settings w.

Lemma tcp_same n b : TcpConnected n = b -> n <| TcpConnected := b |> = n.
Proof. intros <-. by destruct n. Qed.
Lemma sec_same n b : SecurityConnected n = b -> n <| SecurityConnected := b |> = n.
Proof. intros <-. by destruct n. Qed.

Lemma tcp_attempt_returns (m : Prog W bool) w :
  runs m (transport w) (fun _ _ => True) ->
  runs (tcp_attempt m) w (fun _ w' => exists b, only_nego w (nego w <| TcpConnected := b |>) w').
Proof.
  intros Hm. apply runs_bind. eapply runs_transport; [exact Hm|]. intros b t _ _. apply runs_upd_nego. by exists b.
Qed.

Lemma tcp_connect_returns w :
  runs nego_tcp_connect w (fun b w' => only_nego w (nego w <| TcpConnected := b |>) w').
Proof.
  apply runs_bind, runs_the_nego, runs_bind.
  apply (runs_weaken _ _ (fun _ w' => exists b, only_nego w (nego w <| TcpConnected := b |>) w')).
  2: { intros _ w' (b & Hn & Hs). apply runs_bind, runs_the_nego, runs_pret. rewrite Hn. done. }
  destruct (TcpConnected (nego w)) eqn:Et; cbn [negb].
  { apply runs_pret. exists true. by rewrite tcp_same. }
  apply runs_bind, runs_the_settings. cbn zeta.
  destruct (GatewayEnabled (nego w)); [|destruct (ConnectChildSession (nego w)); apply tcp_attempt_returns; auto with nego].
  apply runs_bind.
  apply (runs_weaken _ _ (fun _ w' => exists b, only_nego w (nego w <| TcpConnected := b |>) w')).
  - destruct (GatewayBypassLocal (nego w)).
    + apply runs_bind. eapply runs_transport; [apply gateway_returns|]. intros _ t _ _.
      eapply runs_weaken; [apply tcp_attempt_returns; auto with nego|]. done.
    + apply runs_pret. exists false. by rewrite tcp_same.
  - intros _ w1 (b & Hn & Hs). apply runs_bind, runs_the_nego. rewrite Hn. cbn [TcpConnected update].
    destruct b; cbn [negb]; [apply runs_pret; by exists true|].
    apply runs_bind. eapply runs_transport; [apply gateway_returns|]. intros _ t _ _.
    eapply runs_weaken; [apply tcp_attempt_returns; auto with nego|]. intros _ w2 (b & Hn2 & Hs2). exists b.
    split; [|by rewrite Hs2]. rewrite Hn2. cbn [nego update]. by rewrite Hn.
Qed.

Lemma disconnect_effect w :
  runs nego_transport_disconnect w (fun _ w' =>
    only_nego w (nego w <| TcpConnected := false |> <| SecurityConnected := false |>) w').
Proof.
  apply runs_bind, runs_the_nego, runs_bind.
  apply (runs_weaken _ _ (fun _ w' => only_nego w (nego w) w')).
  - destruct (TcpConnected (nego w)); [|by apply runs_pret]. apply runs_bind.
    eapply runs_transport; [apply disconnect_returns|]. intros _ t _ _. by apply runs_pret.
  - intros _ w' [Hn Hs]. apply runs_bind, runs_upd_nego, runs_pret. cbn. by rewrite Hn.
Qed.

Lemma security_connect_returns w :
  SecurityConnected (nego w) = false ->
  runs nego_security_connect w (fun b w' => only_nego w (nego w <| SecurityConnected := b |>) w' /\
    (b = true -> TcpConnected (nego w) = true /\
       exists m t, security_layer (SelectedProtocol (nego w)) = Some m /\ m t = Ret (true, transport w'))).
Proof.
  intros Hsec. apply runs_bind, runs_the_nego. destruct (TcpConnected (nego w)) eqn:Et; cbn [negb].
  2: { apply runs_bind, runs_upd_nego, runs_pret. done. }
  rewrite Hsec. cbn [negb]. apply runs_bind.
  apply (runs_weaken _ _ (fun b w' => only_nego w (nego w <| SecurityConnected := b |>) w' /\
    (b = true -> exists m t, security_layer (SelectedProtocol (nego w)) = Some m /\ m t = Ret (true, transport w')))).
  2: { intros b w' [[Hn Hs] Hb]. destruct b; cbn [negb].
       - apply runs_bind, runs_the_nego, runs_pret. rewrite Hn. cbn. split; [done|]. intros _. split; [done|]. by apply Hb.
       - apply runs_pret. done. }
  unfold nego_try_connect. apply runs_bind, runs_the_nego. cbn zeta.
  assert (Hc : forall m, runs m (transport w) (fun _ _ => True) ->
    security_layer (SelectedProtocol (nego w)) = Some m ->
    runs (ok <- on_transport m ;; upd_nego (fun n => n <| SecurityConnected := ok |>) ;; pret ok) w
      (fun b w' => only_nego w (nego w <| SecurityConnected := b |>) w' /\
        (b = true -> exists m t, security_layer (SelectedProtocol (nego w)) = Some m /\ m t = Ret (true, transport w')))).
  { intros m Hm Hl. apply runs_bind. eapply runs_transport; [exact Hm|]. intros b t _ E.
    apply runs_bind, runs_upd_nego, runs_pret. split; [done|]. intros ->. by exists m, (transport w). }
  unfold security_layer in *.
  repeat (case_if; [apply Hc; [auto with nego|done]|]). apply runs_pret. split; [|done].
  split; [|done]. by rewrite sec_same.
Qed.
End operations.
(** ** One round *)

(** The protocol that a state attempts, what it asks for and what it falls back to. *)
Definition attempt_of (st : NEGO_STATE) : option (Z * Z * list (Z * NEGO_STATE)) :=
  match st with
  | NEGO_STATE_AAD => Some (PROTOCOL_RDSAAD, PROTOCOL_RDSAAD, fallback_ext)
  | NEGO_STATE_RDSTLS => Some (PROTOCOL_RDSTLS, Z.lor PROTOCOL_RDSTLS PROTOCOL_SSL, fallback_ext)
  | NEGO_STATE_EXT =>
      Some (PROTOCOL_HYBRID_EX, Z.lor PROTOCOL_HYBRID (Z.lor PROTOCOL_SSL PROTOCOL_HYBRID_EX), fallback_nla)
  | NEGO_STATE_NLA => Some (PROTOCOL_HYBRID, Z.lor PROTOCOL_HYBRID PROTOCOL_SSL, fallback_tls)
  | NEGO_STATE_TLS => Some (PROTOCOL_SSL, PROTOCOL_SSL, fallback_rdp)
  | NEGO_STATE_RDP => Some (PROTOCOL_RDP, PROTOCOL_RDP, [])
  | _ => None
  end.

(** How far a state is from the end. *)
Definition rank (st : NEGO_STATE) : nat :=
  match st with
  | NEGO_STATE_AAD | NEGO_STATE_RDSTLS => 5
  | NEGO_STATE_EXT => 4
  | NEGO_STATE_NLA => 3
  | NEGO_STATE_TLS => 2
  | NEGO_STATE_RDP => 1
  | _ => 0
  end.

(** [A] are the answers of the server.  The protocol [p] is the one that was selected in [n], or an
    answer selected it. *)
Definition named (A : list Z -> Prop) (n : rdpNego) (p : Z) : Prop :=
  p = SelectedProtocol n \/ exists bs, A bs /\ answer_selects bs = Some p.

(** The negotiation, from [n], is over: an answer selected a protocol that passes the checks, or legacy
    security is enabled and an answer had no negotiation data; then the selection is not changed. *)
Definition agreed (A : list Z -> Prop) (n n' : rdpNego) : Prop :=
  state n' = NEGO_STATE_FINAL /\
  ((acceptable (SelectedProtocol n') n' = true /\ exists bs, A bs /\ answer_selects bs = Some (SelectedProtocol n')) \/
   (enabled PROTOCOL_RDP n' = true /\ (exists bs, A bs /\ no_neg_data bs = true) /\ named A n (SelectedProtocol n'))).

(** From [st] the client falls back to the strongest enabled protocol that is weaker. *)
Definition next_weaker (n n' : rdpNego) : Prop :=
  (rank (state n') < rank (state n))%nat /\
  (exists p req ps, attempt_of (state n') = Some (p, req, ps) /\ enabled p n' = true) /\
  (forall st p req ps, attempt_of st = Some (p, req, ps) -> enabled p n' = true ->
     (rank st < rank (state n))%nat -> (rank st <= rank (state n'))%nat).

(** The effect of a round on the object. *)
Record round_effect (A : list Z -> Prop) (n n' : rdpNego) : Prop := {
  round_config : config n' = config n;
  round_open : SecurityConnected n' = false;
  round_asked : forall p req ps, attempt_of (state n) = Some (p, req, ps) -> RequestedProtocols n' = req;
  round_next : state n' = NEGO_STATE_FAIL \/ agreed A n n' \/
    (named A n (SelectedProtocol n') /\ TcpConnected n' = false /\ next_weaker n n') \/
    (named A n (SelectedProtocol n') /\ state n = NEGO_STATE_RDP /\ state n' = NEGO_STATE_RDP /\
       exists bs, A bs /\ inconclusive bs = true)
}.

Lemma named_trans A n n' p : named A n (SelectedProtocol n') -> named A n' p -> named A n p.
Proof. intros Hn [-> | H]; [done|by right]. Qed.

Lemma agreed_trans A n n1 n2 : named A n (SelectedProtocol n1) -> agreed A n1 n2 -> agreed A n n2.
Proof.
  intros Hn [Hf [Ha|(He & Hb & Hp)]]; (split; [done|]); [by left|right]. split_and!; [done|done|by eapply named_trans].
Qed.

(** What every state of the loop satisfies. *)
Record loop_inv (n : rdpNego) : Prop := {
  loop_negotiates : NegotiateSecurityLayer n = true;
  loop_open : SecurityConnected n = false;
  loop_request : request_ok n;
  loop_enabled : forall p req ps, attempt_of (state n) = Some (p, req, ps) -> enabled p n = true
}.

Lemma request_ok_config n n' : config n = config n' -> request_ok n -> request_ok n'.
Proof.
  intros E [Ht Hc Hm Hr].
  assert (RoutingToken n = RoutingToken n' /\ RoutingTokenLength n = RoutingTokenLength n' /\
    cookie n = cookie n' /\ CookieMaxLength n = CookieMaxLength n') as (E1 & E2 & E3 & E4).
  { split_and!; [apply (f_equal RoutingToken) in E|apply (f_equal RoutingTokenLength) in E|
      apply (f_equal cookie) in E|apply (f_equal CookieMaxLength) in E]; done. }
  split; [by rewrite <- E1, <- E2|by rewrite <- E3|by rewrite <- E4|].
  unfold token_octets in *. by rewrite <- E1, <- E2, <- E3, <- E4.
Qed.

Lemma next_enabled_spec ps n :
  next_enabled ps n = NEGO_STATE_FAIL \/ exists p, (p, next_enabled ps n) ∈ ps /\ enabled p n = true.
Proof.
  induction ps as [|[p st] ps IH]; cbn; [by left|]. destruct (enabled p n) eqn:E.
  - right. exists p. split; [left|done].
  - destruct IH as [IH|(q & Hq & He)]; [by left|]. right. exists q. split; [by right|done].
Qed.

(** Falling back goes to an attempt of a lower rank that is enabled. *)
Lemma fallback_rank st p req ps q st' :
  attempt_of st = Some (p, req, ps) -> (q, st') ∈ ps ->
  (rank st' < rank st)%nat /\ exists req' ps', attempt_of st' = Some (q, req', ps').
Proof.
  intros Ha Hin. destruct st; cbn in Ha; try done; simplify_eq; rewrite ?list_elem_of_In in Hin; cbn in Hin;
    repeat (destruct Hin as [Hin|Hin]; [simplify_eq; split; [cbn; lia|cbn; eauto]|]); done.
Qed.

Lemma fallback_strongest st0 p0 req0 ps0 n st p req ps :
  attempt_of st0 = Some (p0, req0, ps0) -> attempt_of st = Some (p, req, ps) -> enabled p n = true ->
  (rank st < rank st0)%nat -> (rank st <= rank (next_enabled ps0 n))%nat.
Proof.
  intros Ha0 Ha He Hr. destruct st0; cbn in Ha0; try done; injection Ha0 as _ _ <-; destruct st; cbn in Ha, Hr; try done; try lia;
    injection Ha as <- _ _; cbn [next_enabled fallback_ext fallback_nla fallback_tls fallback_rdp];
    rewrite ?He; repeat case_if; cbn; lia.
Qed.

Section round.
Context `{HM : Malloc} `{HF : FreshMemory} `{HB : !ByteMemory}.
Context {W : Type} `{HT : !Transport W} `{HL : !TransportLaws W}.
Implicit Types (w : nworld W) (n : rdpNego).

Lemma send_request_returns w :
  request_ok (nego w) -> runs nego_send_negotiation_request w (fun _ w' => only_nego w (nego w) w').
Proof.
  intros Hn. apply runs_bind, runs_the_nego. destruct (Stream_New _ _ _) as [s|] eqn:Es; [|by apply runs_pret].
  destruct (stream_new_spec 512 s ltac:(lia) Es) as ((Hs & _) & Hp & Hc). apply runs_bind.
  pose proof (write_request_run (nego w) s Hn Hs ltac:(unfold room; lia)) as E.
  eapply runs_eq; [unfold on_local; rewrite E; reflexivity|]. cbn [fst snd negb].
  apply runs_bind. eapply runs_transport; [apply write_returns|]. intros z t _ _. by apply runs_pret.
Qed.

(** The answer comes from the transport, and is applied to the object. *)
Lemma recv_response_returns w :
  runs nego_recv_response w (fun b w' => settings w' = settings w /\
    (b = true -> exists s t st s' t', transport_read_pdu s t = Ret ((st, s'), t') /\ 0 <= st /\
       recv_spec (unread s') (nego w) = (0, nego w')) /\
    (b = false -> exists bs, nego w' = nego w \/ nego w' = (recv_spec bs (nego w)).2)).
Proof.
  unfold nego_recv_response. destruct (Stream_New _ _ _) as [s|] eqn:Es.
  2: { apply runs_pret. split_and!; [done|done|]. intros _. exists []. by left. }
  destruct (stream_new_spec 1024 s ltac:(lia) Es) as (Hs & _). apply runs_bind.
  eapply runs_transport; [by apply read_returns|]. intros [st s'] t Hr E. cbn [fst snd] in *.
  destruct (st <? 0) eqn:Est.
  { apply runs_pret. split_and!; [done|done|]. intros _. exists []. by left. }
  specialize (Hr ltac:(lia)). apply runs_bind. destruct (nego_recv_handles (nego w) s' Hr) as (k & _ & Ek).
  eapply runs_eq; [unfold with_stream; cbn [nego update]; rewrite Ek; reflexivity|]. apply runs_pret. cbn.
  split_and!; [done| |].
  - intros Hb. exists s, (transport w), st, s', t. split_and!; [done|lia|].
    destruct (recv_spec (unread s') (nego w)) as [z n'] eqn:Esp. cbn [fst snd] in *. f_equal.
    assert (z = 0 \/ z = -1) as [Hz|Hz]; [|lia|lia].
    clear -Esp. unfold recv_spec in Esp. destruct (confirm_body _) as [[li data]|]; [|simplify_eq; by right].
    assert (Hat : forall r, at_end r = 0 \/ at_end r = -1) by (intros r; unfold at_end; case_if; auto).
    destruct (li =? 6); [simplify_eq; apply Hat|]. unfold apply_neg_data in Esp.
    repeat (case_match; simplify_eq; try (by right); try apply Hat).
  - intros _. exists (unread s'). by right.
Qed.
End round.
(** Whatever the answer, it leaves the configuration alone. *)
Lemma recv_spec_config bs n :
  let n' := (recv_spec bs n).2 in
  config n' = config n /\ SecurityConnected n' = SecurityConnected n /\
  RequestedProtocols n' = RequestedProtocols n.
Proof.
  unfold recv_spec. destruct (confirm_body bs) as [[li data]|]; [|done]. destruct (li =? 6); [done|].
  unfold apply_neg_data. cbn zeta. by repeat case_match; cbn [snd].
Qed.

Section send.
Context `{HM : Malloc} `{HF : FreshMemory} `{HB : !ByteMemory}.
Context {W : Type} `{HT : !Transport W} `{HL : !TransportLaws W}.
Implicit Types (w : nworld W) (n : rdpNego).
Local Abbreviation answers := (@answered W HT).

Definition failed (n n' : rdpNego) (req : Z) : Prop :=
  config n' = config n /\ SecurityConnected n' = SecurityConnected n /\ RequestedProtocols n' = req /\
  state n' = NEGO_STATE_FAIL.

(** TRUE: the server answered, with the effect of [recv_spec]. *)
Lemma exchange_returns req w :
  loop_inv (nego w) ->
  runs (nego_exchange req) w (fun b w' => settings w' = settings w /\
    (b = false -> failed (nego w) (nego w') req) /\
    (b = true -> exists s t st s' t', transport_read_pdu s t = Ret ((st, s'), t') /\ 0 <= st /\
       recv_spec (unread s') (nego w <| RequestedProtocols := req |> <| TcpConnected := true |>) = (0, nego w'))).
Proof.
  intros [Hneg Hsec Hreq _]. apply runs_bind, runs_upd_nego, runs_bind.
  set (w1 := w <| nego := _ |>).
  assert (Hfail : forall w2 : nworld W, settings w2 = settings w ->
    config (nego w2) = config (nego w) -> SecurityConnected (nego w2) = SecurityConnected (nego w) ->
    RequestedProtocols (nego w2) = req ->
    runs (set_state NEGO_STATE_FAIL ;; pret false) w2 (fun b w' => settings w' = settings w /\
      (b = false -> failed (nego w) (nego w') req) /\
      (b = true -> exists s t st s' t', transport_read_pdu s t = Ret ((st, s'), t') /\ 0 <= st /\
         recv_spec (unread s') (nego w <| RequestedProtocols := req |> <| TcpConnected := true |>) = (0, nego w')))).
  { intros w2 Hst Hc Hs Hr. apply runs_bind, runs_upd_nego, runs_pret. split_and!; [done| |done]. intros _.
    split_and!; [by rewrite <- Hc|by rewrite <- Hs|done|done]. }
  apply (runs_weaken _ _ (fun b w2 => only_nego w1 (nego w1 <| TcpConnected := b |>) w2)).
  { apply runs_bind. eapply runs_weaken; [apply tcp_connect_returns|]. intros b w2 [Hn Hs].
    destruct b; cbn [negb]; [|by apply runs_pret]. apply runs_bind, runs_the_nego. rewrite Hn.
    cbn [TcpConnected NegotiateSecurityLayer update]. replace (NegotiateSecurityLayer (nego w1)) with true by done.
    cbn. by apply runs_pret. }
  intros b w2 [Hn Hs]. destruct b; cbn [negb]; [|apply Hfail; rewrite ?Hn, ?Hs; done].
  apply runs_bind. eapply runs_weaken; [apply send_request_returns|].
  { rewrite Hn. by apply (request_ok_config (nego w)). }
  intros b w3 [Hn3 Hs3]. rewrite Hn in Hn3. rewrite Hs in Hs3.
  destruct b; cbn [negb]; [|apply Hfail; rewrite ?Hn3, ?Hs3; done].
  apply runs_bind. eapply runs_weaken; [apply recv_response_returns|].
  intros b w4 (Hs4 & Ht & Hf). rewrite Hs3 in Hs4. rewrite Hn3 in *. destruct b; cbn [negb].
  - apply runs_pret. split_and!; [done|done|]. intros _. by apply Ht.
  - destruct (Hf eq_refl) as (bs & [E|E]).
    + apply Hfail; rewrite ?E; done.
    + destruct (recv_spec_config bs (nego w1 <| TcpConnected := true |>)) as (Hc & Hsc & Hrq). rewrite <- E in *.
      apply Hfail; [done|by rewrite Hc|by rewrite Hsc|by rewrite Hrq].
Qed.

(** An answer that was applied to the object. *)
Lemma answer_effect req w n' s t st s' t' :
  transport_read_pdu s t = Ret ((st, s'), t') -> 0 <= st ->
  recv_spec (unread s') (nego w <| RequestedProtocols := req |> <| TcpConnected := true |>) = (0, n') ->
  config n' = config (nego w) /\ SecurityConnected n' = SecurityConnected (nego w) /\ RequestedProtocols n' = req /\
  named answers (nego w) (SelectedProtocol n') /\
  (agreed answers (nego w) n' \/ state n' = NEGO_STATE_FAIL \/
   state n' = state (nego w) /\ exists bs, answers bs /\ inconclusive bs = true).
Proof.
  intros Hread Hpos E. assert (Ha : answers (unread s')) by (by exists s, t, st, s', t').
  destruct (recv_spec_effect _ _ _ E) as (Hc & _ & Hsc & Hrq & Hsel & Hnext).
  change (config (_ <| RequestedProtocols := req |> <| TcpConnected := true |>)) with (config (nego w)) in Hc.
  change (acceptable ?p (_ <| RequestedProtocols := req |> <| TcpConnected := true |>)) with (acceptable p (nego w)) in Hnext.
  change (enabled ?p (_ <| RequestedProtocols := req |> <| TcpConnected := true |>)) with (enabled p (nego w)) in Hnext.
  cbn in Hsc, Hrq, Hsel. assert (Hn : named answers (nego w) (SelectedProtocol n')).
  { destruct Hsel as [H|H]; [by left|right; by exists (unread s')]. }
  split_and!; [done|done|done|done|]. unfold agreed.
  destruct Hnext as [(H1 & H2 & H3)|[(H1 & H2 & H3 & _)|[H|[H1 H2]]]].
  - left. split; [done|left]. split; [|by exists (unread s')]. unfold acceptable in *. by rewrite !(config_enabled n' (nego w) _ Hc).
  - left. split; [done|right]. split_and!; [by rewrite (config_enabled n' (nego w) _ Hc)|by exists (unread s')|done].
  - right; by left.
  - right; right. split; [by rewrite H1|by exists (unread s')].
Qed.

Lemma attempt_returns p req ps w :
  loop_inv (nego w) -> attempt_of (state (nego w)) = Some (p, req, ps) -> state (nego w) <> NEGO_STATE_RDP ->
  runs (nego_attempt req ps) w (fun _ w' => settings w' = settings w /\ round_effect answers (nego w) (nego w')).
Proof.
  intros Hinv Ha Hne. pose proof Hinv as [_ Hsec _ _]. apply runs_bind. eapply runs_weaken; [by apply exchange_returns|].
  intros b w1 (Hs & Hf & Ht). destruct b; cbn [negb].
  2: { apply runs_pret. split; [done|]. destruct (Hf eq_refl) as (Hc & Hsc & Hrq & Hst).
       split; [done|congruence| |by left]. intros p' req' ps' Ha'. congruence. }
  destruct (Ht eq_refl) as (s & t & st & s' & t' & Hread & Hpos & E).
  destruct (answer_effect _ _ _ _ _ _ _ _ Hread Hpos E) as (Hc & Hsc & Hrq & Hn & Hnext). clear Ht Hf E Hread.
  unfold fall_back. apply runs_bind, runs_the_nego. destruct (bool_decide (state (nego w1) = NEGO_STATE_FINAL)) eqn:Ef.
  - apply bool_decide_eq_true_1 in Ef. apply runs_pret. split; [done|].
    split; [done|congruence|intros ??? Ha'; congruence|]. right; left.
    destruct Hnext as [H|[H|[H _]]]; [done|congruence|]. exfalso. rewrite <- H, Ef in Ha. done.
  - apply runs_bind. eapply runs_weaken; [apply disconnect_effect|]. intros _ w2 [Hn2 Hs2].
    apply runs_bind, runs_the_nego. apply runs_upd_nego. split; [cbn; congruence|].
    cbn [nego update]. rewrite Hn2. set (n2 := nego w1 <| TcpConnected := false |> <| SecurityConnected := false |>).
    assert (Hc2 : config (nego_set_state (next_enabled ps n2) n2) = config (nego w)) by (by rewrite <- Hc).
    split; [done|done|intros ??? Ha'; cbn; congruence|].
    destruct (next_enabled_spec ps n2) as [Hfail|(q & Hq & He)]; [left; cbn; done|].
    right; right; left. destruct (fallback_rank _ _ _ _ _ _ Ha Hq) as (Hrk & req' & ps' & Ha').
    split_and!; [exact Hn|done|]. split_and!; [done|by exists q, req', ps'|]. intros st0 p0 req0 ps0 Ha0 He0 Hr0. by eapply fallback_strongest.
Qed.
End send.
(** ** The preconnection PDU *)

Definition blob_ok (n : rdpNego) : Prop :=
  forall b, PreconnectionBlob n = Some b -> no_nul b /\ Forall is_byte b /\ zlen b < INT_MAX.

Definition preconnection_octets (n : rdpNego) (cbSize cchPCB : Z) (pcb : option (list Z)) : list Z :=
  le32 cbSize ++ le32 0 ++ le32 PRECONNECTION_PDU_V2 ++ le32 (PreconnectionId n) ++ le16 cchPCB ++
  match pcb with Some w => enc_utf16 w | None => [] end.

Lemma preconnection_run n cbSize cchPCB pcb s :
  (forall w, pcb = Some w -> zlen w = cchPCB) -> stream_ok s ->
  zlen (preconnection_octets n cbSize cchPCB pcb) <= room s ->
  write_preconnection_pdu n cbSize cchPCB pcb s =
    Ret (tt, sealed (put_bytes s (preconnection_octets n cbSize cchPCB pcb))).
Proof.
  intros Hw Hs Hfit.
  assert (He : emits (Stream_Write_UINT32 cbSize ;; Stream_Write_UINT32 0 ;;
    Stream_Write_UINT32 PRECONNECTION_PDU_V2 ;; Stream_Write_UINT32 (PreconnectionId n) ;;
    Stream_Write_UINT16 cchPCB ;;
    match pcb with
    | Some w => bs <- plift (read_mem (cchPCB * 2) (enc_utf16 w)) ;; Stream_Write bs
    | None => pret tt
    end) (preconnection_octets n cbSize cchPCB pcb)).
  { unfold preconnection_octets. do 4 (apply emits_seq; [apply emits_u32_le|]).
    apply emits_seq; [apply emits_u16_le|]. destruct pcb as [u|]; [|apply emits_pret].
    unfold read_mem. rewrite zlen_enc_utf16, (Hw u eq_refl). rewrite Z.mul_comm, Z.leb_refl.
    rewrite ztake_all by (rewrite zlen_enc_utf16, (Hw u eq_refl); lia).
    apply (emits_bind (pret (enc_utf16 u)) _ (enc_utf16 u) _ []); [apply emits_pret|]. apply emits_bytes.
    unfold enc_utf16. apply Forall_concat, Forall_forall. intros x Hx. apply list_elem_of_fmap in Hx as (y & -> & _). apply le16_bytes. }
  destruct He as [Hb He]. specialize (He s Hs Hfit).
  assert (Hseal : Stream_SealLength (put_bytes s (preconnection_octets n cbSize cchPCB pcb)) =
    Ret (tt, sealed (put_bytes s (preconnection_octets n cbSize cchPCB pcb)))).
  { apply seal_run. by apply put_bytes_ok. }
  revert He. unfold write_preconnection_pdu, pbind.
  do 5 (match goal with |- context [match ?m with _ => _ end] => destruct m as [[[] ?]| |]; [|done|done] end).
  intros ->. exact Hseal.
Qed.

Section start.
Context `{HM : Malloc} `{HF : FreshMemory} `{HB : !ByteMemory}.
Context {W : Type} `{HT : !Transport W} `{HL : !TransportLaws W}.
Implicit Types (w : nworld W) (n : rdpNego).

Lemma preconnection_returns w :
  blob_ok (nego w) ->
  runs nego_send_preconnection_pdu w (fun b w' => settings w' = settings w /\
    exists c, nego w' = nego w <| TcpConnected := c |>).
Proof.
  intros Hblob. apply runs_bind. eapply runs_weaken; [apply tcp_connect_returns|]. intros c w1 [Hn Hs].
  destruct c; cbn [negb]; [|apply runs_pret; eauto]. apply runs_bind, runs_the_nego.
  assert (Hb : PreconnectionBlob (nego w1) = PreconnectionBlob (nego w)) by (by rewrite Hn). apply runs_bind.
  apply (runs_weaken _ _ (fun wsz w2 => only_nego w1 (nego w1) w2 /\
    forall u l, wsz = Some (Some (u, l)) -> zlen u = l + 1 /\ 0 <= l)).
  { rewrite Hb. destruct (PreconnectionBlob (nego w)) as [b|] eqn:Eb; [|by apply runs_pret].
    destruct (Hblob b Eb) as (H0 & H1 & H2). apply runs_bind, runs_pzoom.
    destruct (convert_alloc_run reads8 enc16 8 ConvertUtf8ToWChar 2 b [] (last_error w1) H0 H1 H2)
      as (r & e & E & Hr & _). eapply runs_eq; [exact E|]. apply runs_pret. split; [done|].
    intros u l [= ->]. destruct (Hr u l eq_refl) as (qs & _ & _ & -> & ->). rewrite zlen_app.
    change (zlen [0]) with 1. split; [done|apply zlen_nonneg]. }
  intros wsz w2 [[Hn2 Hs2] Hwsz]. cbn zeta.
  set (len := match wsz with Some (Some (_, l)) => l | _ => 0 end).
  set (pcb := match wsz with Some (Some (b, _)) => Some b | _ => None end).
  assert (Hend : settings w2 = settings w /\ exists c, nego w2 = nego w <| TcpConnected := c |>)
    by (split; [congruence|exists true; congruence]).
  destruct (bool_decide (wsz <> None) && (UINT16_MAX - 1 <? len)) eqn:Eb; [by apply runs_pret|].
  set (cch := match wsz with Some _ => u16 (len + 1) | None => 0 end).
  assert (Hlen : 0 <= len /\ (wsz <> None -> len < UINT16_MAX)).
  { split; [unfold len; destruct wsz as [[[u l]|]|]; [|lia|lia]; by destruct (Hwsz u l eq_refl)|].
    intros Hne. rewrite bool_decide_eq_true_2 in Eb by done. cbn in Eb. unfold UINT16_MAX in *. lia. }
  assert (Hpcb : forall u, pcb = Some u -> zlen u = cch).
  { unfold pcb, cch. intros u Hu. destruct wsz as [[[u' l]|]|]; [|done|done]. simplify_eq.
    destruct (Hwsz u l eq_refl) as [-> _]. destruct Hlen as [H0 H1]. specialize (H1 ltac:(done)).
    unfold UINT16_MAX in H1. rewrite u16_id by (cbn in *; lia). done. }
  assert (Hcch : 0 <= cch < 65536) by (unfold cch; destruct wsz; [apply u16_bound|lia]).
  unfold PRECONNECTION_PDU_V2_MIN_SIZE. destruct (Stream_New _ _ _) as [s|] eqn:Es; [|by apply runs_pret].
  destruct (stream_new_spec (18 + cch * 2) s ltac:(lia) Es) as ((Hok & _) & Hp & Hc). apply runs_bind.
  eapply runs_eq.
  { unfold on_local. rewrite preconnection_run; [reflexivity|done|done|].
    unfold preconnection_octets, room. autorewrite with zlist. rewrite Hp, Hc.
    destruct pcb as [u|]; [rewrite zlen_enc_utf16, (Hpcb u eq_refl); lia|change (zlen (@nil Z)) with 0; lia]. }
  apply runs_bind. eapply runs_transport; [apply write_returns|]. intros z t _ _. apply runs_pret. done.
Qed.
End start.
(** ** The rounds *)

Section rounds.
Context `{HM : Malloc} `{HF : FreshMemory} `{HB : !ByteMemory}.
Context {W : Type} `{HT : !Transport W} `{HL : !TransportLaws W}.
Implicit Types (w : nworld W) (n : rdpNego).

Definition attempting (n : rdpNego) : Prop := attempt_of (state n) <> None.

Local Abbreviation answers := (@answered W HT).

Lemma attempt_rdp_returns w :
  loop_inv (nego w) -> state (nego w) = NEGO_STATE_RDP ->
  runs nego_attempt_rdp w (fun _ w' => settings w' = settings w /\ round_effect answers (nego w) (nego w')).
Proof.
  intros Hinv Hst. pose proof Hinv as [_ Hsec _ _]. apply runs_bind. eapply runs_weaken; [by apply exchange_returns|].
  intros b w1 (Hs & Hf & Ht). apply runs_pret. split; [done|]. destruct b.
  2: { destruct (Hf eq_refl) as (Hc & Hsc & Hrq & Hst1).
       split; [done|congruence| |by left]. rewrite Hst. intros p req ps [= <- <- <-]. done. }
  destruct (Ht eq_refl) as (s & t & st & s' & t' & Hread & Hpos & E).
  destruct (answer_effect _ _ _ _ _ _ _ _ Hread Hpos E) as (Hc & Hsc & Hrq & Hn & Hnext).
  split; [done|congruence|rewrite Hst; intros p req ps [= <- <- <-]; done|].
  destruct Hnext as [H|[H|[H Hb]]]; [right; by left|by left|]. do 3 right. split_and!; [done|done|congruence|done].
Qed.

Lemma send_returns w :
  loop_inv (nego w) -> attempting (nego w) ->
  runs nego_send w (fun _ w' => settings w' = settings w /\ round_effect answers (nego w) (nego w')).
Proof.
  intros Hinv Ha. apply runs_bind, runs_the_nego.
  destruct (decide (state (nego w) = NEGO_STATE_RDP)) as [Hst|Hne].
  { rewrite Hst. by apply attempt_rdp_returns. }
  assert (Hatt : forall p req ps, attempt_of (state (nego w)) = Some (p, req, ps) ->
    runs (nego_attempt req ps) w (fun _ w' => settings w' = settings w /\ round_effect answers (nego w) (nego w')))
    by (intros p req ps Hp; by eapply attempt_returns).
  unfold attempting in Ha. destruct (state (nego w)); cbn in Ha; try done; by eapply Hatt.
Qed.

Lemma round_inv A n n' :
  loop_inv n -> round_effect A n n' -> state n' <> NEGO_STATE_FAIL -> state n' <> NEGO_STATE_FINAL ->
  loop_inv n' /\ attempting n' /\ named A n (SelectedProtocol n').
Proof.
  intros [Hneg Hsec Hreq Hen] [Hc Hopen Hask Hnext] Hnf Hnfin.
  assert (Hn' : NegotiateSecurityLayer n' = true) by (apply (f_equal NegotiateSecurityLayer) in Hc; cbn in Hc; congruence).
  destruct Hnext as [H|[[H _]|[(Hs & _ & _ & (p & req & ps & Ha & He) & _)|(Hs & H1 & H2 & _)]]]; [done|done| |].
  - split_and!; [|unfold attempting; by rewrite Ha|done]. split; [done|done|by apply (request_ok_config n)|].
    intros q req' ps' Hq. rewrite Ha in Hq. simplify_eq. done.
  - split_and!; [|unfold attempting; by rewrite H2|done]. split; [done|done|by apply (request_ok_config n)|].
    intros q req' ps' Hq. rewrite (config_enabled n' n _ Hc). apply (Hen q req' ps'). by rewrite H1, <- H2.
Qed.

(** The result of the loop. *)
Definition loop_post (w : nworld W) (b : bool) (w' : nworld W) : Prop :=
  settings w' = settings w /\ config (nego w') = config (nego w) /\
  state (nego w') = NEGO_STATE_FINAL /\
  (b = true -> agreed answers (nego w) (nego w') /\ SecurityConnected (nego w') = false).

Lemma loop_returns fuel w :
  loop_inv (nego w) -> attempting (nego w) ->
  (nego_loop fuel w = Hang /\
     (forall `{!ConclusiveServer W}, (fuel < rank (state (nego w)))%nat)) \/
  runs (nego_loop fuel) w (loop_post w).
Proof.
  revert w. induction fuel as [|f IH]; intros w Hinv Hatt.
  { left. split; [done|]. intros _. unfold attempting in Hatt. destruct (state (nego w)); cbn in *; done || lia. }
  destruct (send_returns w Hinv Hatt) as ([] & w1 & E & Hs1 & Hround).
  pose proof Hround as [Hc Hopen _ Hnext]. cbn [nego_loop]. unfold runs. rewrite (pbind_ret _ _ _ _ _ E).
  rewrite (pbind_ret the_nego _ w1 (nego w1) w1 eq_refl).
  destruct (decide (state (nego w1) = NEGO_STATE_FAIL)) as [Hf|Hf].
  { rewrite bool_decide_eq_true_2 by done. right. do 2 eexists. split; [reflexivity|]. by split_and!. }
  rewrite bool_decide_eq_false_2 by done.
  destruct (decide (state (nego w1) = NEGO_STATE_FINAL)) as [Hfin|Hfin].
  { rewrite bool_decide_eq_true_2 by done. right. do 2 eexists. split; [reflexivity|]. split_and!; [done|done|done|].
    intros _. split; [|done]. destruct Hnext as [H|[H|[(_ & _ & _ & (p & req & ps & Ha & _) & _)|(_ & _ & H & _)]]]; [done|done|by rewrite Hfin in Ha|congruence]. }
  rewrite bool_decide_eq_false_2 by done. destruct (round_inv _ _ _ Hinv Hround Hf Hfin) as (Hinv1 & Hatt1 & Hnm).
  destruct (IH w1 Hinv1 Hatt1) as [[Eh Hr]|(b & w2 & E2 & H1 & H2 & H3 & H4)].
  - left. split; [done|]. intros Hcs. specialize (Hr Hcs).
    destruct Hnext as [H|[[H _]|[(_ & _ & Hrk & _)|(_ & _ & _ & bs & (s & t & st & s' & t' & Hread & Hpos & <-) & Hinc)]]]; [done|done|lia|].
    by rewrite (conclusive _ _ _ _ _ Hread Hpos) in Hinc.
  - right. exists b, w2. split; [done|]. split_and!; [congruence|congruence|done|]. intros Hb. destruct (H4 Hb) as [Hag ?].
    split; [|done]. by eapply agreed_trans.
Qed.
End rounds.
(** ** The whole connection *)

(** A client before it connects. *)
Record client_ok (n : rdpNego) : Prop := {
  client_initial : state n = NEGO_STATE_INITIAL;
  client_open : SecurityConnected n = false;
  client_request : request_ok n;
  client_blob : blob_ok n
}.

(** The protocols a client may end up with: one that an answer selected and that passes the checks;
    where legacy security is enabled and an answer had no negotiation data, the protocol that was
    selected before; without negotiation the first one that is enabled. *)
Definition permitted (A : list Z -> Prop) (n : rdpNego) (p : Z) : Prop :=
  if NegotiateSecurityLayer n then
    (acceptable p n = true /\ exists bs, A bs /\ answer_selects bs = Some p) \/
    (enabled PROTOCOL_RDP n = true /\ (exists bs, A bs /\ no_neg_data bs = true) /\ named A n p)
  else exists req ps, attempt_of (next_enabled first_choice n) = Some (p, req, ps).

Section connect.
Context `{HM : Malloc} `{HF : FreshMemory} `{HB : !ByteMemory}.
Context {W : Type} `{HT : !Transport W} `{HL : !TransportLaws W}.
Implicit Types (w : nworld W) (n : rdpNego).

Local Abbreviation answers := (@answered W HT).

(** The result TRUE. *)
Definition connected (w w' : nworld W) : Prop :=
  let n' := nego w' in
  state n' = NEGO_STATE_FINAL /\ TcpConnected n' = true /\ SecurityConnected n' = true /\
  permitted answers (nego w) (SelectedProtocol n') /\
  (exists m t, security_layer (SelectedProtocol n') = Some m /\ m t = Ret (true, transport w')) /\
  FreeRDP_SelectedProtocol (settings w') = SelectedProtocol n' /\
  FreeRDP_RequestedProtocols (settings w') = RequestedProtocols n' /\
  (SelectedProtocol n' = PROTOCOL_RDP -> FreeRDP_UseRdpSecurityLayer (settings w') = true /\
     FreeRDP_EncryptionMethods (settings w') <> 0).

Lemma finish_returns w :
  SecurityConnected (nego w) = false ->
  runs nego_finish w (fun b w' => b = true ->
    nego w' = nego w <| SecurityConnected := true |> /\ TcpConnected (nego w) = true /\
    (exists m t, security_layer (SelectedProtocol (nego w)) = Some m /\ m t = Ret (true, transport w')) /\
    FreeRDP_SelectedProtocol (settings w') = SelectedProtocol (nego w) /\
    FreeRDP_RequestedProtocols (settings w') = RequestedProtocols (nego w) /\
    (SelectedProtocol (nego w) = PROTOCOL_RDP -> FreeRDP_UseRdpSecurityLayer (settings w') = true /\
       FreeRDP_EncryptionMethods (settings w') <> 0)).
Proof.
  intros Hsec. apply runs_bind, runs_bind, runs_the_nego, runs_bind.
  eapply runs_eq; [reflexivity|]. apply runs_pret. cbn [negb]. apply runs_bind, runs_the_nego, runs_bind.
  cbn [nego update]. destruct (SelectedProtocol (nego w) =? PROTOCOL_RDP) eqn:Ep.
  - eapply runs_eq; [reflexivity|]. eapply runs_weaken; [by apply security_connect_returns|].
    cbn [nego update]. intros b w' [[Hn Hs] Hb] ->. destruct (Hb eq_refl) as [Htc Hm].
    rewrite Hs. cbn [settings update]. split_and!; [done|done|done|by case_if|by case_if|].
    intros _. case_if; cbn in *; (split; [done|]); [done|lia].
  - apply runs_pret. eapply runs_weaken; [by apply security_connect_returns|].
    cbn [nego update]. intros b w' [[Hn Hs] Hb] ->. destruct (Hb eq_refl) as [Htc Hm].
    rewrite Hs. cbn [settings update]. split_and!; [done|done|done|done|done|]. lia.
Qed.

Lemma first_choice_attempt n :
  next_enabled first_choice n = NEGO_STATE_FAIL \/
  exists p req ps, attempt_of (next_enabled first_choice n) = Some (p, req, ps) /\ enabled p n = true.
Proof.
  destruct (next_enabled_spec first_choice n) as [H|(p & Hin & He)]; [by left|right]. exists p.
  revert Hin. generalize (next_enabled first_choice n). intros st0 Hin.
  rewrite list_elem_of_In in Hin. cbn [In first_choice fallback_ext] in Hin.
  repeat (destruct Hin as [Hin|Hin]; [injection Hin as Hp Hst; rewrite <- Hst; subst p; do 2 eexists; split; [reflexivity|exact He]|]). done.
Qed.

Lemma only_protocol_spec n p req ps :
  attempt_of (state n) = Some (p, req, ps) ->
  exists n', only_protocol n = Some (p, n') /\ state n' = state n /\
    SecurityConnected n' = SecurityConnected n /\ NegotiateSecurityLayer n' = NegotiateSecurityLayer n /\
    PreconnectionBlob n' = PreconnectionBlob n.
Proof.
  unfold only_protocol. destruct (state n) eqn:Est; cbn; intros Ha; try done; injection Ha as <- _ _; eexists;
    (split_and!; [reflexivity|exact Est|reflexivity..]).
Qed.

(** The object when the rounds begin. *)
Definition started (n n' : rdpNego) : Prop :=
  attempting n' /\ SecurityConnected n' = false /\ NegotiateSecurityLayer n' = NegotiateSecurityLayer n /\
  (if NegotiateSecurityLayer n then loop_inv n' /\ config n' = config n /\ SelectedProtocol n' = SelectedProtocol n /\
     state n' = next_enabled first_choice n
   else permitted answers n (SelectedProtocol n')).

Lemma start_returns w :
  client_ok (nego w) ->
  runs nego_start w (fun b w' => b = true -> started (nego w) (nego w')).
Proof.
  intros [Hst Hsec Hreq Hblob]. apply runs_bind, runs_the_nego. cbn zeta. apply runs_bind, runs_upd_nego.
  destruct (first_choice_attempt (nego w)) as [Hf|(p & req & ps & Ha & He)].
  { rewrite bool_decide_eq_true_2 by done. by apply runs_pret. }
  set (st := next_enabled first_choice (nego w)) in *.
  rewrite bool_decide_eq_false_2 by (intros E; by rewrite E in Ha).
  apply runs_bind, runs_the_nego. cbn [nego update]. set (n1 := nego_set_state st (nego w)).
  apply runs_bind.
  apply (runs_weaken _ _ (fun b w2 => b = true /\ SecurityConnected (nego w2) = false /\ blob_ok (nego w2) /\
    (forall c, started (nego w) (nego w2 <| TcpConnected := c |>)))).
  - destruct (NegotiateSecurityLayer n1) eqn:En; cbn [negb].
    + apply runs_pret. cbn [nego update]. split_and!; [done|done|done|]. intros c. unfold started.
      change (NegotiateSecurityLayer (nego w)) with (NegotiateSecurityLayer n1). rewrite En.
      split_and!; [change (attempt_of st <> None); by rewrite Ha|done|done| |by destruct (nego w)|done|done].
      split; [done|done|by apply (request_ok_config (nego w))|].
      intros q req' ps' Hq. change (attempt_of st = Some (q, req', ps')) in Hq. rewrite Ha in Hq. by simplify_eq.
    + destruct (only_protocol_spec n1 p req ps Ha) as (n2 & -> & H1 & H2 & H3 & H4).
      apply runs_bind, runs_upd_nego, runs_pret. cbn [nego update].
      split_and!; [done|by cbn; rewrite H2|unfold blob_ok; cbn; by rewrite H4|]. intros c. unfold started, permitted.
      change (NegotiateSecurityLayer (nego w)) with (NegotiateSecurityLayer n1). rewrite En.
      split_and!; [change (attempt_of (state n2) <> None); rewrite H1; change (attempt_of st <> None); by rewrite Ha|
        by rewrite <- Hsec|by rewrite <- En|]. by exists req, ps.
  - intros b w2 (-> & Hsec2 & Hblob2 & Hstart). cbn [negb]. apply runs_bind.
    eapply runs_weaken; [apply tcp_connect_returns|]. intros c w3 [Hn3 _].
    destruct c; cbn [negb]; [|by apply runs_pret]. destruct (SendPreconnectionPdu n1).
    + apply runs_bind. eapply runs_weaken; [apply preconnection_returns; unfold blob_ok; by rewrite Hn3|].
      intros b w4 (_ & c & Hn4). destruct b; cbn [negb].
      * apply runs_pret. intros _. rewrite Hn4, Hn3. apply (Hstart c).
      * apply runs_bind, runs_upd_nego. by apply runs_pret.
    + apply runs_pret. intros _. rewrite Hn3. apply Hstart.
Qed.

Lemma connect_returns_or_hangs fuel w :
  client_ok (nego w) ->
  (nego_connect fuel w = Hang /\ (forall `{!ConclusiveServer W}, (fuel < 5)%nat)) \/
  runs (nego_connect fuel) w (fun b w' => b = true -> connected w w').
Proof.
  intros Hok. unfold nego_connect. unfold runs. rewrite (pbind_ret the_nego _ w (nego w) w eq_refl).
  rewrite bool_decide_eq_true_2 by apply Hok.
  destruct (start_returns w Hok) as (b & w1 & E & Hstart). rewrite (pbind_ret _ _ _ _ _ E).
  destruct b; cbn [negb]; [|right; by do 2 eexists]. specialize (Hstart eq_refl).
  destruct Hstart as (Hatt & Hopen & Hneg & Hcase). rewrite (pbind_ret the_nego _ w1 (nego w1) w1 eq_refl), Hneg.
  assert (Hend : forall w2 : nworld W, SecurityConnected (nego w2) = false -> state (nego w2) = NEGO_STATE_FINAL ->
    permitted answers (nego w) (SelectedProtocol (nego w2)) ->
    exists b w', nego_finish w2 = Ret (b, w') /\ (b = true -> connected w w')).
  { intros w2 Hs2 Hf2 Hp2. destruct (finish_returns w2 Hs2) as (b & w' & E2 & Hb). exists b, w'. split; [done|].
    intros ->. destruct (Hb eq_refl) as (Hn & Htc & Hm & H1 & H2 & H3). unfold connected. rewrite Hn. by split_and!. }
  unfold permitted in Hend. unfold permitted in Hcase.
  destruct (NegotiateSecurityLayer (nego w)) eqn:En; cbn [negb].
  - destruct Hcase as (Hinv & Hc & Hsel & _).
    destruct (loop_returns fuel w1 Hinv Hatt) as [[Eh Hr]|(b & w2 & E2 & H1 & H2 & H3 & H4)].
    + left. split; [unfold pbind; by rewrite Eh|]. intros Hcs. specialize (Hr Hcs).
      assert (rank (state (nego w1)) <= 5)%nat by (destruct (state (nego w1)); cbn; lia). lia.
    + right. rewrite (pbind_ret _ _ _ _ _ E2). destruct b; cbn [negb]; [|by do 2 eexists].
      destruct (H4 eq_refl) as [[Hfin Hacc] Ho]. apply Hend; [done|done|].
      assert (Hcw : config (nego w) = config (nego w2)) by congruence. rewrite (config_enabled _ _ _ Hcw).
      destruct Hacc as [[Ha Hb]|(He & Hb & Hn)]; [left|right].
      * split; [|done]. unfold acceptable in *. by rewrite !(config_enabled _ _ _ Hcw).
      * split_and!; [done|done|]. by destruct Hn as [-> | Hn]; [left|right].
  - right. apply Hend; done.
Qed.
End connect.
(** ** Servers given by their answers *)

(** The received bytes as a stream. *)
Definition pdu_stream (a : list Z) : wStream :=
  let b := map u8 (ztake 1024 a) in mkStream b 0 (zlen b) (zlen b) 0 None true true.

(** Every operation succeeds; the [i]-th answer is [answers i]. *)
Definition scripted (answers : nat -> list Z) : Transport nat := {|
  transport_connect _ _ _ := pret true;
  transport_connect_childsession := pret true;
  transport_set_gateway_enabled _ := pret tt;
  transport_connect_rdp := pret true;
  transport_connect_tls := pret true;
  transport_connect_nla _ := pret true;
  transport_connect_rdstls := pret true;
  transport_connect_aad := pret true;
  transport_disconnect := pret true;
  transport_write s := pret (pointer s);
  transport_read_pdu _ := fun i => Ret ((1, pdu_stream (answers i)), S i)
|}.

Lemma scripted_laws answers : TransportLaws nat (H := scripted answers).
Proof.
  assert (Hret : forall A (a : A) w, runs (pret a) w (fun _ (_ : nat) => True)) by (intros; by apply runs_pret).
  split; intros; try apply Hret. exists (1, pdu_stream (answers w)), (S w). split; [done|]. intros _.
  split; [|cbn; apply zlen_nonneg]. unfold pdu_stream. set (b := map u8 (ztake 1024 (answers w))).
  assert (Hb : zlen b <= 1024) by (unfold b, zlen, ztake; rewrite length_map, length_take; lia).
  pose proof (zlen_nonneg b). split; cbn; try lia. unfold b. apply Forall_forall. intros x Hx.
  apply list_elem_of_fmap in Hx as (y & -> & _). apply u8_byte.
Qed.

(** A client with some protocols enabled. *)
Definition client_with (ps : list Z) : rdpNego :=
  fold_left (fun n p => set_enabled p true n) ps
    (mkNego 3389 0 (Some [104]) None None 0 false 0 None NEGO_STATE_INITIAL false false 255 false 0 0 true
       (replicate 32 false) false false false false false false false).
Definition world_of (n : rdpNego) : nworld nat :=
  mkWorld n (mkSettings 0 0 0 0 false 0 0 false false false false false false false false) 0 0%nat.

Definition confirm (data : list Z) : list Z := x224_packet X224_TPDU_CONNECTION_CONFIRM data.
Definition selects (p : Z) : list Z := confirm (neg_data TYPE_RDP_NEG_RSP 0 p).

(** What the client ends with. *)
Definition outcome_of (r : outcome (bool * nworld nat)) : option (bool * Z) :=
  match r with Ret (b, w) => Some (b, SelectedProtocol (nego w)) | _ => None end.
Definition try_connect (fuel : nat) (ps : list Z) (answers : nat -> list Z) : outcome (bool * nworld nat) :=
  nego_connect (HM := malloc_all) (HF := fresh_zero) (HT := scripted answers) fuel (world_of (client_with ps)).

Lemma client_with_ok ps : client_ok (client_with ps).
Proof.
  unfold client_with. set (n0 := mkNego _ _ _ _ _ _ _ _ _ _ _ _ _ _ _ _ _ _ _ _ _ _ _ _ _).
  assert (H0 : client_ok n0) by (split; [done|done|split; done|done]). clearbody n0. revert n0 H0.
  induction ps as [|p ps IH]; intros n0 H0; [done|]. apply IH.
  destruct H0 as [H1 H2 [Ht Hc Hm Hr] H4]. split; [done|done|split; done|done].
Qed.

(** The client with legacy security only, connected, in its loop. *)
Definition looping (i : nat) : nworld nat :=
  mkWorld (nego_set_state NEGO_STATE_RDP (client_with [PROTOCOL_RDP]) <| TcpConnected := true |>)
    (settings (world_of (client_with []))) 0 i.

Lemma unknown_type_round i :
  nego_send (HM := malloc_all) (HF := fresh_zero) (HT := scripted (fun _ => confirm [9])) (looping i) =
    Ret (tt, looping (S i)).
Proof. vm_compute. reflexivity. Qed.

Lemma unknown_type_loops fuel i :
  nego_loop (HM := malloc_all) (HF := fresh_zero) (HT := scripted (fun _ => confirm [9])) fuel (looping i) = Hang.
Proof.
  revert i. induction fuel as [|f IH]; intros i; [done|]. cbn [nego_loop].
  rewrite (pbind_ret _ _ _ _ _ (unknown_type_round i)). exact (IH (S i)).
Qed.

(** Deviations of the negotiation from what it means to do.  A server makes the client use NLA with
    early user authorization or RDSTLS though neither is enabled nor was asked for; the protocol of
    an answer that was rejected is used after a later answer without negotiation data; and a server
    that answers with one octet of an unknown type keeps the client in the loop for ever. *)
Theorem nego_defects :
  outcome_of (try_connect 5 [PROTOCOL_SSL] (fun _ => selects PROTOCOL_HYBRID_EX)) = Some (true, PROTOCOL_HYBRID_EX) /\
  outcome_of (try_connect 5 [PROTOCOL_SSL] (fun _ => selects PROTOCOL_RDSTLS)) = Some (true, PROTOCOL_RDSTLS) /\
  outcome_of (try_connect 5 [PROTOCOL_SSL; PROTOCOL_RDP]
    (fun i => if (i =? 0)%nat then selects PROTOCOL_HYBRID else confirm [])) = Some (true, PROTOCOL_HYBRID) /\
  (forall fuel, try_connect fuel [PROTOCOL_RDP] (fun _ => confirm [9]) = Hang).
Proof.
  split; [vm_compute; reflexivity|]. split; [vm_compute; reflexivity|]. split; [vm_compute; reflexivity|].
  intros fuel. unfold try_connect, nego_connect.
  assert (E : nego_start (HM := malloc_all) (HF := fresh_zero) (HT := scripted (fun _ => confirm [9]))
    (world_of (client_with [PROTOCOL_RDP])) = Ret (true, looping 0)) by (vm_compute; reflexivity).
  rewrite (pbind_ret the_nego _ _ _ _ eq_refl), bool_decide_eq_true_2 by done. rewrite (pbind_ret _ _ _ _ _ E).
  pose proof (unknown_type_loops fuel 0) as EL. change (negb true) with false. cbn iota.
  rewrite (pbind_ret the_nego _ (looping 0) _ _ eq_refl).
  change (negb (NegotiateSecurityLayer (nego (looping 0)))) with false. cbn iota.
  unfold pbind. by rewrite EL.
Qed.

(** ** Properties *)

(** C7: [nego_connect] returns.  For any configuration whose request fits, any transport whose
    operations return and any server that does not answer with an unknown kind of negotiation data,
    five rounds are enough: each round ends the negotiation or falls back to a weaker protocol. *)
Theorem nego_connect_terminates `{HM : Malloc} `{HF : FreshMemory} `{HB : !ByteMemory} {W : Type}
    `{HT : !Transport W} `{HL : !TransportLaws W} `{HC : !ConclusiveServer W} (fuel : nat) (w : nworld W) :
  client_ok (nego w) -> (5 <= fuel)%nat -> exists b w', nego_connect fuel w = Ret (b, w').
Proof.
  intros Hok Hf. destruct (connect_returns_or_hangs fuel w Hok) as [[_ Hr]|(b & w' & E & _)]; [|eauto].
  specialize (Hr HC). lia.
Qed.

Lemma selects_conclusive p : ConclusiveServer nat (H := scripted (fun _ => selects p)).
Proof.
  intros s w st s' w' E _. injection E as _ <- _. unfold inconclusive.
  assert (Hc : confirm_body (unread (pdu_stream (selects p))) = Some (14, map u8 (neg_data TYPE_RDP_NEG_RSP 0 p)))
    by reflexivity.
  by rewrite Hc.
Qed.

Lemma nego_connect_terminates_witness :
  exists b w', nego_connect (HM := malloc_all) (HF := fresh_zero) (HT := scripted (fun _ => selects PROTOCOL_SSL)) 5
    (world_of (client_with [PROTOCOL_SSL; PROTOCOL_HYBRID])) = Ret (b, w').
Proof.
  apply (nego_connect_terminates (HB := fresh_zero_bytes) (HL := scripted_laws _) (HC := selects_conclusive PROTOCOL_SSL)).
  - apply client_with_ok.
  - repeat constructor.
Defined.

Lemma security_layer_cases {W} `{Transport W} p m :
  security_layer p = Some m ->
  p = PROTOCOL_RDSAAD \/ p = PROTOCOL_RDSTLS \/ p = PROTOCOL_HYBRID \/ p = PROTOCOL_HYBRID_EX \/
  p = PROTOCOL_SSL \/ p = PROTOCOL_RDP.
Proof. unfold security_layer. repeat (case_if; [tauto|]). done. Qed.

(** C4: which protocol an established connection uses.  When [nego_connect] returns TRUE, for any
    transport whose operations return and any server, the negotiation is over, TCP and the security
    layer of the selected protocol are connected, and the settings name it.  Without negotiation it
    is the strongest protocol that is enabled.  With negotiation there are two cases: an answer of the
    server selected it, and it is enabled or one of the two that the code does not check (NLA with
    early user authorization, RDSTLS); or legacy security is enabled and an answer had no negotiation
    data, and then it is the protocol that was selected before the connection or that some answer had
    selected, though the client may have rejected it. *)
Theorem nego_connect_permitted `{HM : Malloc} `{HF : FreshMemory} `{HB : !ByteMemory} {W : Type}
    `{HT : !Transport W} `{HL : !TransportLaws W} (fuel : nat) (w w' : nworld W) :
  client_ok (nego w) -> nego_connect fuel w = Ret (true, w') ->
  let p := SelectedProtocol (nego w') in
  state (nego w') = NEGO_STATE_FINAL /\ TcpConnected (nego w') = true /\
  SecurityConnected (nego w') = true /\
  (exists m t, security_layer p = Some m /\ m t = Ret (true, transport w')) /\
  FreeRDP_SelectedProtocol (settings w') = p /\
  (p = PROTOCOL_RDP -> FreeRDP_UseRdpSecurityLayer (settings w') = true /\
     FreeRDP_EncryptionMethods (settings w') <> 0) /\
  (NegotiateSecurityLayer (nego w) = false ->
     exists req ps, attempt_of (next_enabled first_choice (nego w)) = Some (p, req, ps)) /\
  (NegotiateSecurityLayer (nego w) = true ->
     let answer_with (f : list Z -> Prop) := exists bs, answered (W := W) bs /\ f bs in
     (answer_with (fun bs => answer_selects bs = Some p) /\
        (enabled p (nego w) = true \/ p = PROTOCOL_HYBRID_EX \/ p = PROTOCOL_RDSTLS)) \/
     (enabled PROTOCOL_RDP (nego w) = true /\ answer_with (fun bs => no_neg_data bs = true) /\
        (p = SelectedProtocol (nego w) \/ answer_with (fun bs => answer_selects bs = Some p)))).
Proof.
  intros Hok E p. destruct (connect_returns_or_hangs fuel w Hok) as [[Eh _]|Hr]; [congruence|].
  destruct (runs_inv _ _ _ _ _ Hr E eq_refl) as (H1 & H2 & H3 & Hp & Hm & H4 & _ & H5).
  unfold permitted in Hp. fold p in Hp, Hm, H4, H5. split_and!; try done.
  - intros Hn. by rewrite Hn in Hp.
  - intros Hn. rewrite Hn in Hp. cbv zeta. destruct Hp as [[Ha Hb]|Ha]; [left|by right]. split; [done|].
    destruct Hm as (m & t & Hl & _). apply security_layer_cases in Hl. clear -Ha Hl. clearbody p.
    destruct Hl as [->|[->|[->|[->|[->| ->]]]]]; auto.
Qed.

Lemma nego_connect_permitted_witness :
  exists w', nego_connect (HM := malloc_all) (HF := fresh_zero) (HT := scripted (fun _ => selects PROTOCOL_SSL)) 5
    (world_of (client_with [PROTOCOL_SSL; PROTOCOL_HYBRID])) = Ret (true, w') /\ SecurityConnected (nego w') = true.
Proof.
  set (r := nego_connect (HM := malloc_all) (HF := fresh_zero) (HT := scripted (fun _ => selects PROTOCOL_SSL)) 5
    (world_of (client_with [PROTOCOL_SSL; PROTOCOL_HYBRID]))).
  destruct r as [[[] w']| |] eqn:E; try (exfalso; revert E; vm_compute; discriminate).
  exists w'. split; [reflexivity|].
  exact (proj1 (proj2 (proj2 (nego_connect_permitted (HB := fresh_zero_bytes) (HL := scripted_laws _) 5
    (world_of (client_with [PROTOCOL_SSL; PROTOCOL_HYBRID])) w' (client_with_ok _) E)))).
Defined.

(** One round of the loop. *)
Definition nego_round `{HM : Malloc} `{HF : FreshMemory} {W : Type} `{HT : !Transport W} (w w' : nworld W) : Prop :=
  attempting (nego w) /\ nego_send w = Ret (tt, w').

Lemma rounds_inv `{HM : Malloc} `{HF : FreshMemory} `{HB : !ByteMemory} {W : Type}
    `{HT : !Transport W} `{HL : !TransportLaws W} (w1 w2 : nworld W) :
  rtc nego_round w1 w2 -> loop_inv (nego w1) -> attempting (nego w1) ->
  config (nego w2) = config (nego w1) /\ SecurityConnected (nego w2) = false /\
  (state (nego w2) = NEGO_STATE_FAIL \/ agreed (@answered W HT) (nego w1) (nego w2) \/
   (loop_inv (nego w2) /\ attempting (nego w2))).
Proof.
  induction 1 as [w1|w1 w2 w3 [_ Es] Hrt IH]; intros Hinv Hatt.
  { split_and!; [done|apply Hinv|]. do 2 right. done. }
  destruct (runs_inv _ _ _ _ _ (send_returns w1 Hinv Hatt) Es) as (_ & Hround).
  pose proof Hround as [Hc2 Ho2 _ Hnext].
  assert (Hstop : attempt_of (state (nego w2)) = None -> w3 = w2).
  { intros Hn. inversion Hrt as [|? w4 ? [Ha4 _] _]; subst; [done|]. by destruct Ha4. }
  destruct (decide (state (nego w2) = NEGO_STATE_FAIL)) as [Hf|Hf].
  { rewrite Hstop by (by rewrite Hf). split_and!; [done|done|by left]. }
  destruct (decide (state (nego w2) = NEGO_STATE_FINAL)) as [Hfin|Hfin].
  { rewrite Hstop by (by rewrite Hfin). split_and!; [done|done|]. right; left.
    destruct Hnext as [H|[H|[(_ & _ & _ & (p & req & ps & Hp & _) & _)|(_ & _ & H & _)]]]; [done|done|by rewrite Hfin in Hp|congruence]. }
  destruct (round_inv _ _ _ Hinv Hround Hf Hfin) as (Hinv2 & Hatt2 & Hnm).
  destruct (IH Hinv2 Hatt2) as (H1 & H2 & H3). split_and!; [congruence|done|].
  destruct H3 as [H3|[H3|H3]]; [by left|right; left; by eapply agreed_trans|by do 2 right].
Qed.


