(* ===== verification/Transport.v ===== *)
(** * The transport: [libfreerdp/core/transport.c], [rdstls_parse_pdu] of [rdstls.c]

    The transport cuts the bytes of a connection into PDUs.  The length of a PDU is found in its
    first bytes, in a way that depends on the mode of the transport; the bytes arrive in pieces
    through a chain of BIOs, of which only the operations are known here ([FrontBio]).

    The memory behind the pointer [data] of [transport_read_layer] is a list of bytes.  The
    callbacks of [transport->io] are the default ones. *)

From S2P Require Import Prelude Memory Stream.

(** Conversion to SSIZE_T. *)
Definition i64 (x : Z) : Z := let y := u64 x in if y <? 2 ^ 63 then y else y - 2 ^ 64.
Definition SSIZE_MAX : Z := 2 ^ 63 - 1.

(** ** The length of a PDU *)

(** [if (Stream_GetRemainingLength (s) < n) return 0;] *)
Definition or_need_more (n : Z) (k : Prog wStream Z) : Prog wStream Z :=
  r <- Stream_GetRemainingLength ;;
  if r <? n then pret 0 else k.

(** [m] on a read-only stream over the valid bytes of the buffer. *)
Definition on_view {A} (m : Prog wStream A) : Prog wStream A :=
  fun s =>
    match m (Stream_StaticConstInit (ztake (slength s) (buffer s)) (slength s)) with
    | Ret (a, _) => Ret (a, s)
    | Abort => Abort
    | Hang => Hang
    end.

Definition parse_nla_mode_pdu : Prog wStream Z :=
  or_need_more 1 (
  typeEncoding <- stream_read_u8 true ;;
  if typeEncoding =? 0x30 then
    or_need_more 1 (
    lengthEncoding <- stream_read_u8 true ;;
    if negb (Z.land lengthEncoding 0x80 =? 0) then
      if Z.land lengthEncoding (Z.lnot 0x80) =? 1 then
        or_need_more 1 (length <- stream_read_u8 true ;; pret (length + 3))
      else if Z.land lengthEncoding (Z.lnot 0x80) =? 2 then
        or_need_more 2 (length <- stream_read_u16_be true ;; pret (length + 4))
      else pret (-1)
    else pret (lengthEncoding + 2))
  else pret 0).

Definition parse_default_mode_pdu : Prog wStream Z :=
  or_need_more 1 (
  version <- stream_read_u8 true ;;
  if version =? 0x03 then
    or_need_more 3 (
    Stream_Seek 1 ;;
    pduLength <- stream_read_u16_be true ;;
    if (pduLength <? 7) || (0xFFFF <? pduLength) then pret (-1) else pret pduLength)
  else
    let check pduLength : Prog wStream Z :=
      if (pduLength <? 3) || (0x8000 <? pduLength) then pret (-1) else pret pduLength in
    or_need_more 1 (
    length1 <- stream_read_u8 true ;;
    if negb (Z.land length1 0x80 =? 0) then
      or_need_more 1 (
      length2 <- stream_read_u8 true ;;
      check (Z.lor (Z.shiftl (Z.land length1 0x7F) 8) length2))
    else check length1)).

Definition RDSTLS_VERSION_1 : Z := 1.
Definition RDSTLS_TYPE_CAPABILITIES : Z := 1.
Definition RDSTLS_TYPE_AUTHREQ : Z := 2.
Definition RDSTLS_TYPE_AUTHRSP : Z := 4.
Definition RDSTLS_DATA_PASSWORD_CREDS : Z := 1.
Definition RDSTLS_DATA_AUTORECONNECT_COOKIE : Z := 2.

(** A field of the request that is skipped: two bytes of length and the bytes. *)
Definition skip_field (k : Prog wStream Z) : Prog wStream Z :=
  or_need_more 2 (
  length <- stream_read_u16_le true ;;
  or_need_more length (Stream_Seek length ;; k)).

Definition rdstls_parse_pdu_data_type (dataType : Z) : Prog wStream Z :=
  if dataType =? RDSTLS_DATA_PASSWORD_CREDS then
    skip_field (skip_field (skip_field (
    or_need_more 2 (
    passwordLength <- stream_read_u16_le true ;;
    position <- Stream_GetPosition ;;
    pret (position + passwordLength)))))
  else if dataType =? RDSTLS_DATA_AUTORECONNECT_COOKIE then
    or_need_more 4 (
    Stream_Seek 4 ;;
    or_need_more 2 (cookieLength <- stream_read_u16_le true ;; pret (12 + cookieLength)))
  else pret (-1).

Definition rdstls_parse_pdu : Prog wStream Z :=
  or_need_more 2 (
  version <- stream_read_u16_le true ;;
  if negb (version =? RDSTLS_VERSION_1) then pret (-1)
  else
    or_need_more 2 (
    pduType <- stream_read_u16_le true ;;
    if pduType =? RDSTLS_TYPE_CAPABILITIES then pret 8
    else if pduType =? RDSTLS_TYPE_AUTHREQ then
      or_need_more 2 (dataType <- stream_read_u16_le true ;; rdstls_parse_pdu_data_type dataType)
    else if pduType =? RDSTLS_TYPE_AUTHRSP then pret 10
    else pret (-1))).

(** The result and [*incomplete]. *)
Definition transport_parse_pdu (NlaMode RdstlsMode : bool) : Prog wStream (Z * bool) :=
  Stream_SealLength ;;
  p <- on_view (if NlaMode then parse_nla_mode_pdu
                else if RdstlsMode then rdstls_parse_pdu
                else parse_default_mode_pdu) ;;
  let pduLength := u64 p in
  if pduLength =? 0 then pret (0, true)
  else
    s <- pget ;;
    let len := Stream_Length s in
    if pduLength <? len then pret (-1, true)
    else pret (i64 pduLength, len <? pduLength).

(** ** The transport *)

(** The chain of BIOs and the rest of the process.  [BIO_read n] is the status and the bytes that
    were stored; [front_present] tells whether [transport->frontBio] is set. *)
Class FrontBio (W : Type) : Type := {
  front_present : W -> bool;
  BIO_read : Z -> Prog W (Z * list Z);
  BIO_write : list Z -> Prog W Z;
  BIO_should_retry : W -> bool;
  BIO_wait_read : Prog W Z;
  BIO_wait_write : Prog W Z;
  BIO_write_blocked : W -> bool;
  BIO_flush : Prog W Z;
  BIO_set_nonblock : bool -> Prog W bool;
  freerdp_shall_disconnect_context : W -> bool
}.

Inductive TRANSPORT_LAYER : Type :=
| TRANSPORT_LAYER_TCP | TRANSPORT_LAYER_TLS | TRANSPORT_LAYER_NAMEDPIPE | TRANSPORT_LAYER_TSG | TRANSPORT_LAYER_TSG_TLS
| TRANSPORT_LAYER_CLOSED.

(** The fields the functions below use; [bio] is the world behind [frontBio], and [inBytes],
    [outBytes], [LastError] and [WaitForOutputBufferFlush] are those of the context. *)
Record rdpTransport (W : Type) : Type := mkTransport {
  layer : TRANSPORT_LAYER;
  bio : W;
  NlaMode : bool;
  RdstlsMode : bool;
  AadMode : bool;
  earlyUserAuth : bool;
  blocking : bool;
  written : Z;
  WriteLock : Z;
  ReceiveBuffer : option wStream;
  haveMoreBytesToRead : bool;
  rereadEvent : bool;
  inBytes : Z;
  outBytes : Z;
  LastError : Z;
  WaitForOutputBufferFlush : bool
}.
Arguments mkTransport {W}.
Arguments layer {W}.
Arguments bio {W}.
Arguments NlaMode {W}.
Arguments RdstlsMode {W}.
Arguments AadMode {W}.
Arguments earlyUserAuth {W}.
Arguments blocking {W}.
Arguments written {W}.
Arguments WriteLock {W}.
Arguments ReceiveBuffer {W}.
Arguments haveMoreBytesToRead {W}.
Arguments rereadEvent {W}.
Arguments inBytes {W}.
Arguments outBytes {W}.
Arguments LastError {W}.
Arguments WaitForOutputBufferFlush {W}.

#[global] Instance eta_rdpTransport W : Eta (rdpTransport W) := fun t =>
  mkTransport (layer t) (bio t) (NlaMode t) (RdstlsMode t) (AadMode t) (earlyUserAuth t) (blocking t)
    (written t) (WriteLock t) (ReceiveBuffer t) (haveMoreBytesToRead t) (rereadEvent t) (inBytes t)
    (outBytes t) (LastError t) (WaitForOutputBufferFlush t).

Definition FREERDP_ERROR_SUCCESS : Z := 0.
Definition FREERDP_ERROR_CONNECT_TRANSPORT_FAILED : Z := 0x2000D.

Definition freerdp_set_last_error_if_not {W} (e : Z) (t : rdpTransport W) : rdpTransport W :=
  if LastError t =? FREERDP_ERROR_SUCCESS then t <| LastError := e |> else t.

(** [transport->layer = TRANSPORT_LAYER_CLOSED] with its error. *)
Definition close_layer {W} (t : rdpTransport W) : rdpTransport W :=
  freerdp_set_last_error_if_not FREERDP_ERROR_CONNECT_TRANSPORT_FAILED
    (t <| layer := TRANSPORT_LAYER_CLOSED |>).

(** ** Reading *)

Section reading.
Context {W : Type} `{HB : !FrontBio W} `{HM : Malloc}.
Local Abbreviation T := (rdpTransport W).

(** An operation of the BIO. *)
Definition on_bio {S A} (get : S -> T) (put : T -> S -> S) (m : Prog W A) : Prog S A :=
  pzoom (fun s => bio (get s)) (fun w s => put (get s <| bio := w |>) s) m.

(** The state of [transport_read_layer]: the transport and the memory at [data]. *)
Definition lstate : Type := T * list Z.
Definition lbio {A} (m : Prog W A) : Prog lstate A := on_bio fst (fun t p => (t, p.2)) m.
Definition ltransport (f : T -> T) : Prog lstate unit := pmodify (fun p => (f p.1, p.2)).

(** [while (read < bytes)]; a round is one call of [BIO_read]. *)
Fixpoint read_loop (fuel : nat) (bytes read : Z) : Prog lstate Z :=
  if read <? bytes then
    match fuel with
    | O => plift Hang
    | S f =>
        let tr := bytes - read in
        let r := if INT_MAX <? tr then INT_MAX else tr in
        res <- lbio (BIO_read r) ;;
        let '(status, bs) := res in
        p <- pget ;;
        data <- plift (slots_write read bs p.2) ;;
        pput (p.1, data) ;;
        let w := bio p.1 in
        if freerdp_shall_disconnect_context w then pret (-1)
        else if status <=? 0 then
          if negb (front_present w) then pret (-1)
          else if negb (BIO_should_retry w) then ltransport close_layer ;; pret (-1)
          else if negb (blocking p.1) then pret read
          else
            rc <- lbio BIO_wait_read ;;
            if rc <? 0 then pret (-1) else read_loop f bytes read
        else
          ltransport (fun t => t <| inBytes := u64 (inBytes t + status) |>) ;;
          read_loop f bytes (read + status)
    end
  else pret read.

Definition transport_read_layer (fuel : nat) (bytes : Z) : Prog lstate Z :=
  p <- pget ;;
  if negb (front_present (bio p.1)) || (SSIZE_MAX <? bytes) then ltransport close_layer ;; pret (-1)
  else read_loop fuel bytes 0.

(** The state of the readers: the transport and the stream the PDU is collected in. *)
Definition tstate : Type := T * wStream.
Definition on_s {A} (m : Prog wStream A) : Prog tstate A := pzoom snd (fun s p => (p.1, s)) m.

(** [transport_read_layer (transport, Stream_Pointer (s), n)]. *)
Definition read_at_pointer (fuel : nat) (n : Z) : Prog tstate Z :=
  fun p =>
    let s := p.2 in
    match transport_read_layer fuel n (p.1, zdrop (pointer s) (buffer s)) with
    | Ret (r, (t, data)) => Ret (r, (t, set_buffer (ztake (pointer s) (buffer s) ++ data) s))
    | Abort => Abort
    | Hang => Hang
    end.

Definition transport_read_layer_bytes (fuel : nat) (toRead : Z) : Prog tstate Z :=
  if SSIZE_MAX <? toRead then pret 0
  else
    status <- read_at_pointer fuel toRead ;;
    if status <=? 0 then pret status
    else on_s (Stream_Seek status) ;; pret (if status =? toRead then 1 else 0).

(** [transport_read_layer (transport, &c, 1)]: the result and [c]. *)
Definition read_char (fuel : nat) (c : Z) : Prog tstate (Z * Z) :=
  fun p =>
    match transport_read_layer fuel 1 (p.1, [c]) with
    | Ret (r, (t, data)) => Ret ((i32 r, znth data 0), (t, p.2))
    | Abort => Abort
    | Hang => Hang
    end.

(** The loop of [AadMode], up to and with the terminating null byte: 1 when it is complete. *)
Fixpoint read_aad (fuel : nat) (c : Z) : Prog tstate Z :=
  match fuel with
  | O => plift Hang
  | S f =>
      r <- read_char fuel c ;;
      let '(rc, c) := r in
      if negb (rc =? 1) then pret rc
      else
        ok <- on_s (Stream_EnsureRemainingCapacity 1) ;;
        if negb ok then pret (-1)
        else
          on_s (Stream_Write_UINT8 c) ;;
          if negb (c =? 0) then read_aad f c else pret 1
  end.

Definition parse_now : Prog tstate (Z * bool) :=
  p <- pget ;; on_s (transport_parse_pdu (NlaMode p.1) (RdstlsMode p.1)).

(** [while ((status == 0) && incomplete)], one byte a round.  The length of the PDU, or the value
    to return. *)
Fixpoint read_header (fuel : nat) (status : Z) (incomplete : bool) : Prog tstate (Z + Z) :=
  if (status =? 0) && incomplete then
    match fuel with
    | O => plift Hang
    | S f =>
        ok <- on_s (Stream_EnsureRemainingCapacity 1) ;;
        if negb ok then pret (inr (-1))
        else
          rc <- transport_read_layer_bytes fuel 1 ;;
          if negb (i32 rc =? 1) then pret (inr (i32 rc))
          else
            r <- parse_now ;;
            read_header f r.1 r.2
    end
  else pret (inl status).

(** [Stream_SealLength (s); Stream_SetPosition (s, 0); return Stream_Length (s);] *)
Definition finish_pdu : Prog tstate Z :=
  on_s Stream_SealLength ;;
  on_s (Stream_SetPosition 0) ;;
  p <- pget ;;
  pret (i32 (Stream_Length p.2)).

Definition transport_default_read_pdu (fuel : nat) : Prog tstate Z :=
  p <- pget ;;
  if AadMode p.1 then
    rc <- read_aad fuel 0 ;;
    if negb (rc =? 1) then pret rc else finish_pdu
  else if earlyUserAuth p.1 then
    ok <- on_s (Stream_EnsureCapacity 4) ;;
    if negb ok then pret (-1)
    else
      rc <- transport_read_layer_bytes fuel 4 ;;
      if negb (i32 rc =? 1) then pret (i32 rc) else finish_pdu
  else
    r <- parse_now ;;
    h <- read_header fuel r.1 r.2 ;;
    match h with
    | inr rc => pret rc
    | inl status =>
        if status <? 0 then pret (-1)
        else
          let pduLength := status in
          ok <- on_s (Stream_EnsureCapacity pduLength) ;;
          if negb ok then pret (-1)
          else
            position <- on_s Stream_GetPosition ;;
            if pduLength <? position then pret (-1)
            else
              status <- transport_read_layer_bytes fuel (pduLength - position) ;;
              if negb (status =? 1) then pret (i32 status) else finish_pdu
    end.
End reading.

(** ** Writing *)

(** The pool the streams come from (winpr/libwinpr/utils/collections/StreamPool.c). *)
Class StreamPools (W : Type) : Type := {
  StreamPool_Take : Z -> Prog W (option wStream);
  StreamPool_Remove : wStream -> Prog W unit
}.

Definition set_count (c : Z) (s : wStream) : wStream :=
  mkStream (buffer s) (pointer s) (slength s) (capacity s) c (pool s) (isAllocatedStream s) (isOwner s).

Definition Stream_AddRef : Prog wStream unit :=
  pmodify (fun s => match pool s with Some _ => set_count (count s + 1) s | None => s end).

Section writing.
Context {W : Type} `{HB : !FrontBio W} `{HP : !StreamPools W}.
Local Abbreviation T := (rdpTransport W).

Definition tbio {A} (m : Prog W A) : Prog (tstate (W := W)) A := on_bio fst (fun t p => (t, p.2)) m.
Definition upd (f : T -> T) : Prog (tstate (W := W)) unit := pmodify (fun p => (f p.1, p.2)).

Definition Stream_Release : Prog (tstate (W := W)) unit :=
  p <- pget ;;
  match pool p.2 with
  | None => pret tt
  | Some _ =>
      let s := if 0 <? count p.2 then set_count (count p.2 - 1) p.2 else p.2 in
      pput (p.1, s) ;;
      if count s =? 0 then tbio (StreamPool_Remove s) else pret tt
  end.

(** [while (BIO_write_blocked (transport->frontBio))]: false on an error. *)
Fixpoint flush_loop (fuel : nat) : Prog (tstate (W := W)) bool :=
  p <- pget ;;
  if BIO_write_blocked (bio p.1) then
    match fuel with
    | O => plift Hang
    | S f =>
        rc <- tbio BIO_wait_write ;;
        if rc <? 0 then pret false
        else
          rc <- tbio BIO_flush ;;
          if rc <? 1 then pret false else flush_loop f
    end
  else pret true.

(** [while (length > 0)]: the status, and whether the end of the loop was reached. *)
Fixpoint write_loop (fuel : nat) (length status : Z) : Prog (tstate (W := W)) (Z * bool) :=
  if 0 <? length then
    match fuel with
    | O => plift Hang
    | S f =>
        bs <- on_s (load_bytes (i32 length)) ;;
        status <- tbio (BIO_write bs) ;;
        p <- pget ;;
        if status <=? 0 then
          if negb (BIO_should_retry (bio p.1)) then pret (status, false)
          else if negb (blocking p.1) then pret (status, false)
          else
            rc <- tbio BIO_wait_write ;;
            if rc <? 0 then pret (-1, false) else write_loop f length status
        else
          ok <- (if blocking p.1 || WaitForOutputBufferFlush p.1 then flush_loop f else pret true) ;;
          if negb ok then pret (-1, false)
          else
            on_s (Stream_Seek status) ;;
            write_loop f (u64 (length - status)) status
    end
  else pret (status, true).

(** The critical section, up to [out_cleanup]. *)
Definition write_all (fuel : nat) : Prog (tstate (W := W)) Z :=
  p <- pget ;;
  if negb (front_present (bio p.1)) then pret (-1)
  else
    length <- on_s Stream_GetPosition ;;
    let writtenlength := i32 length in
    on_s (Stream_SetPosition 0) ;;
    (if 0 <? length then upd (fun t => t <| outBytes := u64 (outBytes t + length) |>) else pret tt) ;;
    r <- write_loop fuel length (-1) ;;
    let '(status, done) := r in
    (if done : bool then upd (fun t => t <| written := u32 (written t + writtenlength) |>) else pret tt) ;;
    pret status.

Definition transport_default_write (fuel : nat) : Prog (tstate (W := W)) Z :=
  on_s Stream_AddRef ;;
  upd (fun t => t <| WriteLock := WriteLock t + 1 |>) ;;
  status <- write_all fuel ;;
  (if status <? 0 then upd close_layer else pret tt) ;;
  upd (fun t => t <| WriteLock := WriteLock t - 1 |>) ;;
  Stream_Release ;;
  pret status.

(** ** Receiving *)

Definition STATE_RUN_FAILED : Z := -1.
Definition STATE_RUN_QUIT_SESSION : Z := -2.
Definition state_run_failed (status : Z) : bool :=
  (status =? STATE_RUN_FAILED) || (status =? STATE_RUN_QUIT_SESSION).

(** The handler of a PDU ([transport->ReceiveCallback] with its extra argument). *)
Class Receiver : Type := ReceiveCallback : Prog (tstate (W := W)) Z.

(** [m] on a stream that is no field of the transport. *)
Definition with_s {A} (s : wStream) (m : Prog (tstate (W := W)) A) : Prog T (A * wStream) :=
  fun t => match m (t, s) with
           | Ret (a, (t, s)) => Ret ((a, s), t)
           | Abort => Abort
           | Hang => Hang
           end.

(** [transport_read_pdu (transport, transport->ReceiveBuffer)]. *)
Definition read_receive_buffer `{HM : Malloc} (fuel : nat) : Prog T (Z * wStream) :=
  t <- pget ;;
  match ReceiveBuffer t with
  | None => plift Abort (* WINPR_ASSERT (s) *)
  | Some s => with_s s (transport_default_read_pdu fuel)
  end.

(** A PDU goes to the callback, a new buffer takes its place. *)
Definition hand_over `{HR : Receiver} (received : wStream) : Prog T Z :=
  new <- pzoom bio (fun w t => t <| bio := w |>) (StreamPool_Take 0) ;;
  pmodify (fun t => t <| ReceiveBuffer := new |>) ;;
  match new with
  | None => pret (-1)
  | Some _ =>
      r <- with_s received ReceiveCallback ;;
      let '(recv_status, received) := r in
      with_s received Stream_Release ;;
      if state_run_failed recv_status then pret (-1)
      else
        pmodify (fun t => if haveMoreBytesToRead t then t
                          else t <| haveMoreBytesToRead := true |> <| rereadEvent := true |>) ;;
        pret recv_status
  end.

Definition transport_check_fds `{HR : Receiver} `{HM : Malloc} (fuel : nat) : Prog T Z :=
  t <- pget ;;
  match layer t with
  | TRANSPORT_LAYER_CLOSED =>
      pmodify (freerdp_set_last_error_if_not FREERDP_ERROR_CONNECT_TRANSPORT_FAILED) ;;
      pret (-1)
  | _ =>
      r <- read_receive_buffer fuel ;;
      let '(status, received) := r in
      pmodify (fun t => t <| ReceiveBuffer := Some received |>) ;;
      if status <=? 0 then
        pmodify (fun t => if haveMoreBytesToRead t
                          then t <| haveMoreBytesToRead := false |> <| rereadEvent := false |> else t) ;;
        pret status
      else hand_over received
  end.

(** ** Modes and the output buffer *)

Definition transport_is_write_blocked (t : T) : outcome bool :=
  if front_present (bio t) then Ret (BIO_write_blocked (bio t)) else Abort.

Definition transport_drain_output_buffer : Prog T Z :=
  t <- pget ;;
  passert (front_present (bio t)) ;;
  if BIO_write_blocked (bio t) then
    rc <- pzoom bio (fun w t => t <| bio := w |>) BIO_flush ;;
    if rc <? 1 then pret (-1)
    else t <- pget ;; pret (if BIO_write_blocked (bio t) then 1 else 0)
  else pret 0.

Definition transport_default_set_blocking_mode (b : bool) : Prog T bool :=
  pmodify (fun t => t <| blocking := b |>) ;;
  t <- pget ;;
  if front_present (bio t) then
    pzoom bio (fun w t => t <| bio := w |>) (BIO_set_nonblock (negb b))
  else pret true.

Definition transport_set_nla_mode (b : bool) (t : T) : T := t <| NlaMode := b |>.
Definition transport_set_rdstls_mode (b : bool) (t : T) : T := t <| RdstlsMode := b |>.
Definition transport_set_aad_mode (b : bool) (t : T) : T := t <| AadMode := b |>.
Definition transport_set_early_user_auth_mode (b : bool) (t : T) : T := t <| earlyUserAuth := b |>.
Definition transport_set_layer (l : TRANSPORT_LAYER) (t : T) : T := t <| layer := l |>.
Definition transport_get_bytes_sent (resetCount : bool) (t : T) : Z * T :=
  (written t, if resetCount then t <| written := 0 |> else t).
End writing.
