(* ===== verification/TransportPdu.v ===== *)
(** * PDUs on the wire

    Where a PDU ends, read off the bytes ([mode_length]), the equivalence of the parsers of the
    transport with it, and the facts that make the delimitation unique: the length is decided by a
    prefix and does not change when more bytes arrive. *)

From S2P Require Import Prelude Memory Stream Transport.

(** ** The reference *)

Inductive header : Type := NeedMore | Invalid | PduLength (n : Z).

#[global] Instance header_eq_dec : EqDecision header.
Proof. solve_decision. Defined.

Definition fastpath_length (n : Z) : header := if n <? 3 then Invalid else PduLength n.

Definition default_length (bs : list Z) : header :=
  match bs with
  | [] => NeedMore
  | v :: r =>
      if v =? 3 then
        match r with
        | _ :: b0 :: b1 :: _ => if b0 * 256 + b1 <? 7 then Invalid else PduLength (b0 * 256 + b1)
        | _ => NeedMore
        end
      else
        match r with
        | [] => NeedMore
        | l1 :: r =>
            if l1 <? 128 then fastpath_length l1
            else match r with
                 | [] => NeedMore
                 | l2 :: _ => fastpath_length ((l1 - 128) * 256 + l2)
                 end
        end
  end.

Definition nla_length (bs : list Z) : header :=
  match bs with
  | t :: r =>
      if t =? 0x30 then
        match r with
        | [] => NeedMore
        | l :: r =>
            if l <? 128 then PduLength (l + 2)
            else if l =? 0x81 then
              match r with [] => NeedMore | n :: _ => PduLength (n + 3) end
            else if l =? 0x82 then
              match r with b0 :: b1 :: _ => PduLength (b0 * 256 + b1 + 4) | _ => NeedMore end
            else Invalid
        end
      else NeedMore
  | [] => NeedMore
  end.

(** The 16-bit number at the front, least significant byte first. *)
Definition u16_front (bs : list Z) (k : Z -> list Z -> header) : header :=
  match bs with b0 :: b1 :: r => k (b0 + b1 * 256) r | _ => NeedMore end.

(** [n] fields with their lengths, then one of which only the length is needed; [pos] bytes are
    in front of [bs]. *)
Fixpoint fields_length (n : nat) (pos : Z) (bs : list Z) : header :=
  u16_front bs (fun len r =>
    match n with
    | O => PduLength (pos + 2 + len)
    | S n => if zlen r <? len then NeedMore else fields_length n (pos + 2 + len) (zdrop len r)
    end).

Definition rdstls_length (bs : list Z) : header :=
  u16_front bs (fun version r =>
    if negb (version =? RDSTLS_VERSION_1) then Invalid
    else u16_front r (fun pduType r =>
      if pduType =? RDSTLS_TYPE_CAPABILITIES then PduLength 8
      else if pduType =? RDSTLS_TYPE_AUTHREQ then
        u16_front r (fun dataType r =>
          if dataType =? RDSTLS_DATA_PASSWORD_CREDS then fields_length 3 6 r
          else if dataType =? RDSTLS_DATA_AUTORECONNECT_COOKIE then
            if zlen r <? 4 then NeedMore
            else u16_front (zdrop 4 r) (fun len _ => PduLength (12 + len))
          else Invalid)
      else if pduType =? RDSTLS_TYPE_AUTHRSP then PduLength 10
      else Invalid)).

(** A PDU of the Azure AD mode ends with the first null byte. *)
Fixpoint aad_length_from (n : Z) (bs : list Z) : header :=
  match bs with
  | [] => NeedMore
  | b :: r => if b =? 0 then PduLength (n + 1) else aad_length_from (n + 1) r
  end.

Inductive pdu_mode : Type := ModeDefault | ModeNla | ModeRdstls | ModeAad.

Definition mode_length (m : pdu_mode) : list Z -> header :=
  match m with
  | ModeDefault => default_length
  | ModeNla => nla_length
  | ModeRdstls => rdstls_length
  | ModeAad => aad_length_from 0
  end.

(** [bs] is exactly one PDU. *)
Definition complete (m : pdu_mode) (bs : list Z) : Prop := mode_length m bs = PduLength (zlen bs).

(** ** The length does not change when more bytes arrive *)

Section stable.
Implicit Types (p x bs : list Z) (h : header).

Lemma u16_front_mono p x (k k' : Z -> list Z -> header) :
  u16_front p k <> NeedMore ->
  (forall v r, k v r <> NeedMore -> k' v (r ++ x) = k v r) -> u16_front (p ++ x) k' = u16_front p k.
Proof. intros H Hk. destruct p as [|b0 [|b1 r]]; [done|done|]. by apply Hk. Qed.

Lemma default_mono p x : default_length p <> NeedMore -> default_length (p ++ x) = default_length p.
Proof.
  destruct p as [|v r]; [done|]. cbn. destruct (v =? 3).
  - by destruct r as [|? [|? [|? r]]].
  - destruct r as [|l1 r]; [done|]. cbn. destruct (l1 <? 128); [done|]. by destruct r.
Qed.

Lemma nla_mono p x : nla_length p <> NeedMore -> nla_length (p ++ x) = nla_length p.
Proof.
  destruct p as [|t r]; [done|]. cbn. destruct (t =? 0x30); [|done].
  destruct r as [|l r]; [done|]. cbn. destruct (l <? 128); [done|].
  destruct (l =? 0x81); [by destruct r|]. destruct (l =? 0x82); [|done]. by destruct r as [|? [|? r]].
Qed.

Lemma fields_mono n pos p x :
  fields_length n pos p <> NeedMore -> fields_length n pos (p ++ x) = fields_length n pos p.
Proof.
  revert pos p. induction n as [|n IH]; intros pos p H; cbn [fields_length] in *.
  - by apply u16_front_mono.
  - apply u16_front_mono; [done|]. intros len r. destruct (zlen r <? len) eqn:El; [done|].
    intros Hne. pose proof (zlen_nonneg x). replace (zlen (r ++ x) <? len) with false by zlist_lia.
    rewrite zdrop_app, (zdrop_0 _ x) by lia. by apply IH.
Qed.

Lemma rdstls_mono p x : rdstls_length p <> NeedMore -> rdstls_length (p ++ x) = rdstls_length p.
Proof.
  intros H. apply u16_front_mono; [done|]. intros v r. destruct (negb _); [done|]. intros H1.
  apply u16_front_mono; [done|]. intros ty r1. destruct (ty =? _); [done|].
  destruct (ty =? RDSTLS_TYPE_AUTHREQ); [|done]. intros H2. apply u16_front_mono; [done|].
  intros d r2. destruct (d =? _); [apply fields_mono|].
  destruct (d =? RDSTLS_DATA_AUTORECONNECT_COOKIE); [|done]. destruct (zlen r2 <? 4) eqn:El; [done|].
  intros H3. pose proof (zlen_nonneg x). replace (zlen (r2 ++ x) <? 4) with false by zlist_lia.
  rewrite zdrop_app, (zdrop_0 _ x) by lia. by apply u16_front_mono.
Qed.

Lemma aad_mono n p x : aad_length_from n p <> NeedMore -> aad_length_from n (p ++ x) = aad_length_from n p.
Proof. revert n. induction p as [|b p IH]; intros n; [done|]. cbn. destruct (b =? 0); [done|apply IH]. Qed.

(** More bytes do not change a decision. *)
Lemma mode_length_mono m p x : mode_length m p <> NeedMore -> mode_length m (p ++ x) = mode_length m p.
Proof. destruct m; [apply default_mono|apply nla_mono|apply rdstls_mono|apply aad_mono]. Qed.

Lemma mode_length_nil m : mode_length m [] = NeedMore.
Proof. by destruct m. Qed.
End stable.

(** Complete PDUs are prefix-free: a byte sequence starts with at most one. *)
Lemma complete_unique m a b x y : complete m a -> complete m b -> a ++ x = b ++ y -> a = b /\ x = y.
Proof.
  unfold complete. intros Ha Hb E.
  assert (H : mode_length m (a ++ x) = mode_length m (b ++ y)) by by rewrite E.
  rewrite !mode_length_mono in H by congruence. rewrite Ha, Hb in H. injection H as Hl.
  apply app_inj_1 in E; [done|]. unfold zlen in Hl. lia.
Qed.

(** ** The parsers compute the reference *)

Definition header_code (h : header) : Z :=
  match h with NeedMore => 0 | Invalid => -1 | PduLength n => n end.

(** From every stream at position [pos], [m] returns what [f] decides from the bytes ahead. *)
Definition parses (pos : Z) (m : Prog wStream Z) (f : list Z -> header) : Prop :=
  forall s, readable s -> pointer s = pos -> exists s', m s = Ret (header_code (f (unread s)), s').

Section parsers.
Implicit Types (f : list Z -> header) (pos n : Z).

Lemma parses_ret pos h z : header_code h = z -> parses pos (pret z) (fun _ => h).
Proof. intros <- s _ _. by exists s. Qed.

Lemma parses_if pos (b : bool) m1 m2 f1 f2 :
  parses pos m1 f1 -> parses pos m2 f2 ->
  parses pos (if b then m1 else m2) (fun bs => if b then f1 bs else f2 bs).
Proof. by destruct b. Qed.

Lemma parses_ext pos m f g : (forall bs, Forall is_byte bs -> f bs = g bs) -> parses pos m f -> parses pos m g.
Proof. intros E H s Hr Hp. rewrite <- E by (by apply unread_bytes). by apply H. Qed.

(** A guarded step that consumes [n] bytes and goes on with [k]. *)
Lemma parses_step pos n (body : Prog wStream Z) (k : list Z -> Prog wStream Z) f :
  0 <= n ->
  (forall s, readable s -> n <= zlen (unread s) -> body s = k (unread s) (advance s n)) ->
  (forall bs, Forall is_byte bs -> n <= zlen bs ->
     exists g, f bs = g (zdrop n bs) /\ parses (pos + n) (k bs) g) ->
  (forall bs, zlen bs < n -> f bs = NeedMore) ->
  parses pos (or_need_more n body) f.
Proof.
  intros Hn Hbody Hk Hshort s Hr Hp. unfold or_need_more.
  rewrite (pbind_ret _ _ _ _ _ (remaining_length_spec s Hr)).
  destruct (zlen (unread s) <? n) eqn:E; [rewrite Hshort by lia; by exists s|]. apply Z.ltb_ge in E.
  rewrite (Hbody s Hr E). destruct (Hk _ (unread_bytes s Hr) E) as (g & -> & H).
  rewrite <- unread_advance by done. apply H; [by apply readable_advance|cbn; lia].
Qed.

Lemma parses_u8 pos k (g : Z -> list Z -> header) :
  (forall b, is_byte b -> parses (pos + 1) (k b) (g b)) ->
  parses pos (or_need_more 1 (pbind (stream_read_u8 true) k))
    (fun bs => match bs with [] => NeedMore | b :: r => g b r end).
Proof.
  intros Hk. apply (parses_step pos 1 _ (fun bs => k (znth bs 0))); [lia| | |].
  - intros s Hr Hl. destruct (unread s) as [|b r] eqn:Hu; [zlist_lia|].
    destruct (read_u8_spec s b r Hr Hu) as (E & _). by rewrite (pbind_ret _ _ _ _ _ E).
  - intros [|b r] HB Hl; [zlist_lia|]. exists (g b). split; [done|]. apply Hk. by inversion HB.
  - intros [|b r] Hl; [done|zlist_lia].
Qed.

Lemma parses_u16_le pos k g :
  (forall v, 0 <= v < 65536 -> parses (pos + 2) (k v) (g v)) ->
  parses pos (or_need_more 2 (pbind (stream_read_u16_le true) k)) (fun bs => u16_front bs g).
Proof.
  intros Hk. apply (parses_step pos 2 _ (fun bs => k (znth bs 0 + znth bs 1 * 256))); [lia| | |].
  - intros s Hr Hl. destruct (unread s) as [|b0 [|b1 r]] eqn:Hu; [zlist_lia|zlist_lia|].
    destruct (read_u16_le_spec s b0 b1 r Hr Hu) as (E & _). by rewrite (pbind_ret _ _ _ _ _ E).
  - intros [|b0 [|b1 r]] HB Hl; [zlist_lia|zlist_lia|]. exists (g (b0 + b1 * 256)). split; [done|].
    apply Hk. rewrite !Forall_cons in HB. unfold is_byte in HB. lia.
  - intros [|b0 [|b1 r]] Hl; [done|done|zlist_lia].
Qed.

Lemma parses_u16_be pos k (g : Z -> list Z -> header) :
  (forall v, 0 <= v < 65536 -> parses (pos + 2) (k v) (g v)) ->
  parses pos (or_need_more 2 (pbind (stream_read_u16_be true) k))
    (fun bs => match bs with b0 :: b1 :: r => g (b0 * 256 + b1) r | _ => NeedMore end).
Proof.
  intros Hk. apply (parses_step pos 2 _ (fun bs => k (znth bs 0 * 256 + znth bs 1))); [lia| | |].
  - intros s Hr Hl. destruct (unread s) as [|b0 [|b1 r]] eqn:Hu; [zlist_lia|zlist_lia|].
    destruct (read_u16_be_spec s b0 b1 r Hr Hu) as (E & _). by rewrite (pbind_ret _ _ _ _ _ E).
  - intros [|b0 [|b1 r]] HB Hl; [zlist_lia|zlist_lia|]. exists (g (b0 * 256 + b1)). split; [done|].
    apply Hk. rewrite !Forall_cons in HB. unfold is_byte in HB. lia.
  - intros [|b0 [|b1 r]] Hl; [done|done|zlist_lia].
Qed.

Lemma parses_skip pos n k f :
  0 <= n -> parses (pos + n) k f ->
  parses pos (or_need_more n (Stream_Seek n ;; k)) (fun bs => if zlen bs <? n then NeedMore else f (zdrop n bs)).
Proof.
  intros Hn Hk. apply (parses_step pos n _ (fun _ => k)); [done| | |].
  - intros s Hr Hl. by rewrite (pbind_ret _ _ _ _ _ (seek_spec s n Hr ltac:(lia))).
  - intros bs _ Hl. exists f. by replace (zlen bs <? n) with false by lia.
  - intros bs Hl. by replace (zlen bs <? n) with true by lia.
Qed.
End parsers.

Section parser_runs.

Lemma fastpath_check pos n :
  n <= 0x8000 -> parses pos (if (n <? 3) || (0x8000 <? n) then pret (-1) else pret n) (fun _ => fastpath_length n).
Proof.
  intros Hn. unfold fastpath_length. replace (32768 <? n) with false by lia. rewrite orb_false_r.
  destruct (n <? 3); by apply parses_ret.
Qed.

Lemma tpkt_parses :
  parses 1 (or_need_more 3 (Stream_Seek 1 ;; n <- stream_read_u16_be true ;;
              if (n <? 7) || (0xFFFF <? n) then pret (-1) else pret n))
    (fun r => match r with
              | _ :: b0 :: b1 :: _ => if b0 * 256 + b1 <? 7 then Invalid else PduLength (b0 * 256 + b1)
              | _ => NeedMore end).
Proof.
  apply (parses_step 1 3 _ (fun bs => let n := znth bs 1 * 256 + znth bs 2 in
    if (n <? 7) || (0xFFFF <? n) then pret (-1) else pret n)); [lia| | |].
  - intros s Hr Hl. destruct (unread s) as [|x [|b0 [|b1 r]]] eqn:Hu; try zlist_lia.
    rewrite (pbind_ret _ _ _ _ _ (seek_spec s 1 Hr ltac:(rewrite Hu; zlist_lia))).
    destruct (read_u16_be_spec (advance s 1) b0 b1 r) as (E & _).
    + apply readable_advance; [done|]. rewrite Hu. zlist_lia.
    + rewrite unread_advance, Hu by (done || lia). done.
    + rewrite (pbind_ret _ _ _ _ _ E), advance_advance. done.
  - intros [|x [|b0 [|b1 r]]] HB Hl; try zlist_lia. rewrite !Forall_cons in HB. unfold is_byte in HB.
    eexists (fun _ => _). split; [reflexivity|]. change (znth (x :: b0 :: b1 :: r) 1) with b0.
    change (znth (x :: b0 :: b1 :: r) 2) with b1. cbn zeta. replace (65535 <? _) with false by lia.
    rewrite orb_false_r. destruct (_ <? 7); by apply parses_ret.
  - intros [|x [|b0 [|b1 r]]] Hl; try done. zlist_lia.
Qed.

Lemma fastpath_bits l1 l2 :
  is_byte l1 -> is_byte l2 -> 128 <= l1 -> Z.lor (Z.shiftl (Z.land l1 0x7F) 8) l2 = (l1 - 128) * 256 + l2.
Proof.
  intros H1 H2 Hl. unfold is_byte in *. rewrite shiftl_mul, (lor_add 8) by lia.
  change 127 with (2 ^ 7 - 1). rewrite land_mask by lia. change (2 ^ 7) with 128.
  replace (l1 mod 128) with (l1 - 128) by (Z.div_mod_to_equations; lia). lia.
Qed.

Lemma fastpath_parses :
  parses 1 (or_need_more 1 (length1 <- stream_read_u8 true ;;
     if negb (Z.land length1 0x80 =? 0) then
       or_need_more 1 (
       length2 <- stream_read_u8 true ;;
       let n := Z.lor (Z.shiftl (Z.land length1 0x7F) 8) length2 in
       if (n <? 3) || (0x8000 <? n) then pret (-1) else pret n)
     else if (length1 <? 3) || (0x8000 <? length1) then pret (-1) else pret length1))
   (fun r => match r with
     | [] => NeedMore
     | l1 :: r =>
         if l1 <? 128 then fastpath_length l1
         else match r with [] => NeedMore | l2 :: _ => fastpath_length ((l1 - 128) * 256 + l2) end
     end).
Proof.
  apply parses_u8. intros l1 H1. rewrite land_128 by done. destruct (l1 <? 128) eqn:E; cbn [negb].
  - apply fastpath_check. unfold is_byte in *. lia.
  - apply (parses_u8 _ _ (fun l2 _ => fastpath_length ((l1 - 128) * 256 + l2))). intros l2 H2.
    rewrite fastpath_bits by (done || lia). apply fastpath_check. unfold is_byte in *. lia.
Qed.

Lemma default_parses : parses 0 parse_default_mode_pdu default_length.
Proof.
  apply parses_u8. intros v _. destruct (v =? 3); [apply tpkt_parses|apply fastpath_parses].
Qed.

Lemma nla_parses : parses 0 parse_nla_mode_pdu nla_length.
Proof.
  apply parses_u8. intros t _. destruct (t =? 0x30); [|by apply parses_ret].
  apply parses_u8. intros l Hl. rewrite land_128 by done. destruct (l <? 128) eqn:E; cbn [negb].
  { by apply parses_ret. }
  assert (Z.land l (Z.lnot 0x80) = l - 128) as ->.
  { apply Z.eqb_eq. pose proof (range_forall (fun l => (l <? 128) || (Z.land l (Z.lnot 0x80) =? l - 128)) 256 l Hl eq_refl) as H.
    cbn beta in H. by rewrite E in H. }
  replace (l =? 0x81) with (l - 128 =? 1) by lia. replace (l =? 0x82) with (l - 128 =? 2) by lia.
  destruct (l - 128 =? 1); [|destruct (l - 128 =? 2); [|by apply parses_ret]].
  - apply (parses_u8 _ _ (fun n _ => PduLength (n + 3))). intros n _. by apply parses_ret.
  - apply (parses_u16_be _ _ (fun n _ => PduLength (n + 4))). intros n _. by apply parses_ret.
Qed.

Lemma position_parses pos k h :
  header_code h = pos + k -> 0 <= pos < 2 ^ 64 ->
  parses pos (p <- Stream_GetPosition ;; pret (p + k)) (fun _ => h).
Proof.
  intros Hh Hpos s Hr Hp. rewrite (pbind_ret _ _ _ _ _ (position_spec s (readable_ok _ Hr))), Hp, Hh.
  by exists s.
Qed.

Lemma skip_field_parses pos k n :
  (forall len, 0 <= len < 65536 -> parses (pos + 2 + len) k (fields_length n (pos + 2 + len))) ->
  parses pos (skip_field k) (fields_length (S n) pos).
Proof.
  intros Hk. apply parses_u16_le. intros len Hlen. apply parses_skip; [lia|]. by apply Hk.
Qed.

Lemma rdstls_parses : parses 0 rdstls_parse_pdu rdstls_length.
Proof.
  apply parses_u16_le. intros v _. destruct (negb _); [by apply parses_ret|].
  apply parses_u16_le. intros ty _. destruct (ty =? _); [by apply parses_ret|].
  destruct (ty =? RDSTLS_TYPE_AUTHREQ); [|destruct (ty =? RDSTLS_TYPE_AUTHRSP); by apply parses_ret].
  apply parses_u16_le. intros d _. unfold rdstls_parse_pdu_data_type.
  destruct (d =? _).
  - apply skip_field_parses. intros l1 H1. apply skip_field_parses. intros l2 H2.
    apply skip_field_parses. intros l3 H3. apply parses_u16_le. intros l4 H4.
    apply position_parses; cbn [header_code]; lia.
  - destruct (d =? RDSTLS_DATA_AUTORECONNECT_COOKIE); [|by apply parses_ret].
    apply (parses_skip _ 4 _ (fun r => u16_front r (fun len _ => PduLength (12 + len)))); [lia|].
    apply parses_u16_le. intros l _. by apply parses_ret.
Qed.
End parser_runs.

(** The mode of the parsers. *)
Definition parse_mode (nla rdstls : bool) : pdu_mode :=
  if nla then ModeNla else if rdstls then ModeRdstls else ModeDefault.

(** The length of a header is at most the length of its PDU: when the last byte decides, the bytes
    so far are not more than the PDU. *)
Lemma fastpath_long n l : fastpath_length n = PduLength l -> 3 <= l.
Proof. unfold fastpath_length. case_if; [done|]. intros [= <-]. lia. Qed.

Lemma fields_long n pos p b l :
  Forall is_byte p -> is_byte b ->
  fields_length n pos p = NeedMore -> fields_length n pos (p ++ [b]) = PduLength l -> pos + zlen p + 1 <= l.
Proof.
  revert pos p. induction n as [|n IH]; intros pos p Hp Hb; cbn [fields_length].
  - destruct p as [|b0 [|b1 r]]; cbn; [done| |done]. intros _ [= <-].
    rewrite Forall_singleton in Hp. unfold is_byte in *. change (zlen [b0]) with 1. lia.
  - destruct p as [|b0 [|b1 r]]; cbn; [done| |].
    + intros _. rewrite Forall_singleton in Hp. unfold is_byte in *. change (zlen (@nil Z)) with 0.
      case_if; [done|]. assert (b0 + b * 256 = 0) as -> by lia. by destruct n.
    + rewrite !Forall_cons in Hp. destruct Hp as (H0 & H1 & Hp). set (len := b0 + b1 * 256) in *.
      assert (0 <= len) by (unfold is_byte in *; lia).
      rewrite zlen_app, !zlen_cons. change (zlen [b]) with 1. destruct (zlen r <? len) eqn:E.
      * intros _. case_if; [done|]. rewrite zdrop_app, zdrop_all by zlist_lia.
        assert (zdrop (len - zlen r) [b] = []) as -> by (apply zdrop_all; change (zlen [b]) with 1; lia).
        by destruct n.
      * change (zlen (@nil Z)) with 0. replace (zlen r + (1 + 0) <? len) with false by lia. rewrite zdrop_app, (zdrop_0 _ [b]) by lia.
        intros HN HL. specialize (IH _ _ ltac:(by apply Forall_zdrop) Hb HN HL). zlist_lia.
Qed.

Lemma rdstls_long p b l :
  Forall is_byte p -> is_byte b ->
  rdstls_length p = NeedMore -> rdstls_length (p ++ [b]) = PduLength l -> zlen p + 1 <= l.
Proof.
  intros Hp Hb. unfold rdstls_length.
  destruct p as [|b0 [|b1 p]]; [done| |].
  { cbn. destruct (negb _); done. }
  cbn [app u16_front]. destruct (negb _); [done|].
  destruct p as [|b2 [|b3 p]]; [done| |].
  { cbn. intros _. repeat (case_if; [first [done | by intros [= <-]]|]). done. }
  cbn [app u16_front]. destruct (_ =? RDSTLS_TYPE_CAPABILITIES); [done|].
  destruct (_ =? RDSTLS_TYPE_AUTHREQ); [|by destruct (_ =? RDSTLS_TYPE_AUTHRSP)].
  rewrite !Forall_cons in Hp. destruct Hp as (_ & _ & _ & _ & Hp). rewrite !zlen_cons.
  destruct p as [|b4 [|b5 p]]; [done| |].
  { cbn. intros _. by repeat (case_if; [done|]). }
  cbn [app u16_front]. rewrite !Forall_cons in Hp. destruct Hp as (_ & _ & Hp). rewrite !zlen_cons.
  destruct (_ =? RDSTLS_DATA_PASSWORD_CREDS).
  { intros HN HL. pose proof (fields_long _ _ _ _ _ Hp Hb HN HL). lia. }
  destruct (_ =? RDSTLS_DATA_AUTORECONNECT_COOKIE); [|done].
  rewrite zlen_app. change (zlen [b]) with 1. destruct (zlen p <? 4) eqn:E.
  { intros _. case_if; [done|]. by rewrite zdrop_all by (rewrite zlen_app; change (zlen [b]) with 1; lia). }
  replace (zlen p + 1 <? 4) with false by lia. rewrite zdrop_app, (zdrop_0 _ [b]) by lia.
  assert (Hz : zlen p = 4 + zlen (zdrop 4 p)) by (rewrite zlen_zdrop; lia). rewrite Hz.
  apply (Forall_zdrop _ 4) in Hp. clear Hz E. revert Hp. generalize (zdrop 4 p). clear p. intros p Hp.
  destruct p as [|b6 [|b7 p]]; cbn; [done| |done]. intros _ [= <-].
  rewrite Forall_singleton in Hp. unfold is_byte in *. change (zlen [b6]) with 1. lia.
Qed.

Lemma aad_long n p b l :
  aad_length_from n p = NeedMore -> aad_length_from n (p ++ [b]) = PduLength l -> n + zlen p + 1 = l.
Proof.
  revert n. induction p as [|x p IH]; intros n; cbn.
  - intros _. destruct (b =? 0); [|done]. intros [= <-]. rewrite zlen_nil. lia.
  - destruct (x =? 0); [done|]. intros HN HL. rewrite zlen_cons. specialize (IH _ HN HL). lia.
Qed.

Lemma mode_length_long m p b l :
  Forall is_byte p -> is_byte b ->
  mode_length m p = NeedMore -> mode_length m (p ++ [b]) = PduLength l -> zlen p + 1 <= l.
Proof.
  intros Hp Hb. destruct m; cbn [mode_length].
  - unfold default_length, fastpath_length. destruct p as [|v [|x [|b0 [|b1 p]]]]; cbn [app];
      repeat (case_if; try done); intros HN HL; simplify_eq; rewrite ?zlen_cons, ?zlen_nil; lia.
  - unfold is_byte in *. unfold nla_length. destruct p as [|v [|x [|b0 [|b1 p]]]]; cbn [app];
      repeat (case_if; try done); rewrite ?Forall_cons in Hp; intros HN HL; simplify_eq;
      rewrite ?zlen_cons, ?zlen_nil; lia.
  - by apply rdstls_long.
  - intros HN HL. pose proof (aad_long _ _ _ _ HN HL). lia.
Qed.

Lemma mode_length_pos m bs l : Forall is_byte bs -> mode_length m bs = PduLength l -> 0 < l.
Proof.
  induction bs as [|b bs IH] using rev_ind; [by rewrite mode_length_nil|].
  intros [Hbs Hb]%Forall_app HL. rewrite Forall_singleton in Hb.
  destruct (mode_length m bs) as [| |n] eqn:E.
  - pose proof (mode_length_long _ _ _ _ Hbs Hb E HL). pose proof (zlen_nonneg bs). lia.
  - rewrite mode_length_mono, E in HL by (by rewrite E). done.
  - rewrite mode_length_mono, E in HL by (by rewrite E). by eapply IH.
Qed.

(** Lengths that are announced are small. *)
Lemma fields_bound n pos bs l :
  Forall is_byte bs -> 0 <= pos -> fields_length n pos bs = PduLength l -> l <= pos + (Z.of_nat n + 1) * 65537.
Proof.
  revert pos bs. induction n as [|n IH]; intros pos [|b0 [|b1 r]] Hb Hpos; cbn [fields_length u16_front]; try done;
    rewrite !Forall_cons in Hb; destruct Hb as (H0 & H1 & Hr); unfold is_byte in H0, H1.
  - intros [= <-]. lia.
  - case_if; [done|]. intros HL. apply IH in HL; [lia|by apply Forall_zdrop|lia].
Qed.

Lemma announced_bound nla rdstls bs l :
  Forall is_byte bs -> mode_length (parse_mode nla rdstls) bs = PduLength l -> l <= 262160.
Proof.
  intros Hb. unfold parse_mode. destruct nla; [|destruct rdstls]; cbn [mode_length].
  - unfold nla_length. destruct bs as [|v [|x [|b0 [|b1 p]]]]; repeat (case_if; try done);
      rewrite ?Forall_cons in Hb; unfold is_byte in Hb; destruct_and?; intros; simplify_eq; lia.
  - unfold rdstls_length. destruct bs as [|? [|? [|? [|? r]]]]; cbn [u16_front]; try by (repeat case_if).
    repeat (case_if; [by (intros; simplify_eq; lia)|]). rewrite !Forall_cons in Hb. destruct Hb as (_ & _ & _ & _ & Hr).
    case_if; [|case_if; [by intros; simplify_eq|done]].
    destruct r as [|? [|? r]]; cbn [u16_front]; [done|done|]. rewrite !Forall_cons in Hr. destruct Hr as (_ & _ & Hr).
    case_if. { intros HL. apply fields_bound in HL; [lia|done|lia]. }
    case_if; [|done]. case_if; [done|]. apply (Forall_zdrop _ 4) in Hr. destruct (zdrop 4 r) as [|b0 [|b1 r']]; cbn [u16_front]; [done|done|].
    rewrite !Forall_cons in Hr. unfold is_byte in Hr. intros; simplify_eq; lia.
  - unfold default_length, fastpath_length. destruct bs as [|v [|x [|b0 [|b1 p]]]]; repeat (case_if; try done);
      rewrite ?Forall_cons in Hb; unfold is_byte in Hb; destruct_and?; intros; simplify_eq; lia.
Qed.

(** ** One look at what was collected *)

(** The bytes in front of the cursor. *)
Definition held (s : wStream) : list Z := ztake (pointer s) (buffer s).

(** What was collected is not more than one PDU. *)
Definition fits (m : pdu_mode) (bs : list Z) : Prop := forall n, mode_length m bs = PduLength n -> zlen bs <= n.

Lemma held_bytes s : stream_ok s -> Forall is_byte (held s).
Proof. intros []. by apply Forall_ztake. Qed.
Lemma zlen_held s : stream_ok s -> zlen (held s) = pointer s.
Proof. intros []. unfold held. rewrite zlen_ztake. lia. Qed.

Lemma i64_id x : - 2 ^ 63 <= x < 2 ^ 63 -> i64 (u64 x) = x.
Proof.
  intros Hx. unfold i64, u64. rewrite Zmod_mod. cbv zeta. destruct (x <? 0) eqn:E.
  - assert (x mod 2 ^ 64 = x + 2 ^ 64) as -> by (rewrite <- (Z_mod_plus_full x 1); apply Z.mod_small; lia).
    by replace (x + 2 ^ 64 <? 2 ^ 63) with false by lia; lia.
  - rewrite Z.mod_small by lia. by replace (x <? 2 ^ 63) with true by lia.
Qed.

Lemma view_parses (m : Prog wStream Z) f s :
  parses 0 m f -> stream_ok s -> slength s = pointer s -> on_view m s = Ret (header_code (f (held s)), s).
Proof.
  intros Hm [Hbuf Hcap Hlen Hpos Hby] Hsl. unfold on_view. rewrite Hsl. fold (held s).
  set (v := Stream_StaticConstInit _ _).
  assert (Hzh : zlen (held s) = pointer s) by (apply zlen_held; split; done || lia).
  assert (Hv : readable v).
  { split; [split|]; cbn; try lia; [by apply Forall_ztake]. }
  destruct (Hm v Hv eq_refl) as (s' & E). unfold v in *. rewrite E.
  assert (unread (Stream_StaticConstInit (held s) (pointer s)) = held s) as ->; [|done].
  unfold unread. cbn. rewrite zdrop_0, ztake_all by lia. done.
Qed.

Lemma parse_pdu_run nla rdstls s :
  stream_ok s -> fits (parse_mode nla rdstls) (held s) ->
  let h := mode_length (parse_mode nla rdstls) (held s) in
  transport_parse_pdu nla rdstls s =
    Ret ((header_code h, match h with PduLength n => zlen (held s) <? n | _ => true end), set_length (pointer s) s).
Proof.
  intros Hs Hfit h. pose proof Hs as [Hbuf Hcap Hlen Hpos Hby].
  unfold transport_parse_pdu. rewrite (pbind_ret _ _ _ _ _ (seal_run s Hs)).
  set (s1 := set_length (pointer s) s).
  assert (Hs1 : stream_ok s1) by (split; cbn; done || lia).
  assert (Hv : on_view (if nla then parse_nla_mode_pdu else if rdstls then rdstls_parse_pdu else parse_default_mode_pdu) s1
               = Ret (header_code h, s1)).
  { unfold h, parse_mode. change (held s) with (held s1). destruct nla; [|destruct rdstls]; (apply view_parses; [|done|done]);
      [apply nla_parses|apply rdstls_parses|apply default_parses]. }
  rewrite (pbind_ret _ _ _ _ _ Hv). cbn zeta. pose proof (zlen_held s Hs) as Hz. unfold pbind, pget, pret. cbn [Stream_Length].
  destruct h as [| |n] eqn:Eh; [done| |]; cbn [header_code].
  - change (u64 (-1)) with (2 ^ 64 - 1). replace (2 ^ 64 - 1 =? 0) with false by lia. change (Stream_Length s1) with (pointer s).
    replace (2 ^ 64 - 1 <? pointer s) with false by lia. by replace (pointer s <? 2 ^ 64 - 1) with true by lia.
  - pose proof (mode_length_pos _ _ _ (held_bytes s Hs) Eh). pose proof (announced_bound _ _ _ _ (held_bytes s Hs) Eh).
    rewrite i64_id by lia. rewrite u64_id by lia. replace (n =? 0) with false by lia. change (Stream_Length s1) with (pointer s).
    specialize (Hfit _ Eh). replace (n <? pointer s) with false by lia. by rewrite Hz.
Qed.
