(* ===== verification/TransportRead.v ===== *)
(** * Reading PDUs

    [transport_default_read_pdu] on any sequence of answers of the BIO: it delivers exactly the
    PDUs the bytes consist of, keeps what is incomplete for the next call, and returns. *)

From S2P Require Import Prelude Memory Stream Transport TransportPdu.

(** ** What is relied on *)

(** A BIO delivers the bytes of the connection in order; [inbox] are those it has not delivered.
    [history] are the PDUs the receiver was given so far: nothing the BIO knows about. *)
Class FrontBioLaws (W : Type) `{FrontBio W} : Type := {
  inbox : W -> list Z;
  history : W -> list (list Z);
  inbox_bytes w : Forall is_byte (inbox w);
  read_law n w : 0 < n -> runs (BIO_read n) w (fun r w' =>
    zlen r.2 = Z.max 0 r.1 /\ r.1 <= n /\ inbox w = r.2 ++ inbox w' /\ history w' = history w);
  wait_read_law w : runs BIO_wait_read w (fun _ w' => inbox w' = inbox w /\ history w' = history w)
}.

(** A bound on how often a read can be told to wait from now on. *)
Definition patient {W} `{FrontBio W} (budget : W -> Z) : Prop :=
  forall n w st bs w1, 0 < n -> BIO_read n w = Ret ((st, bs), w1) ->
    0 <= budget w1 <= budget w /\
    (st <= 0 -> BIO_should_retry w1 = true -> forall r w2, BIO_wait_read w1 = Ret (r, w2) -> 0 <= budget w2 < budget w).

Section reading.
Context {W : Type} `{HB : !FrontBio W} `{HL : !FrontBioLaws W} `{HM : Malloc}.
Implicit Types (t : rdpTransport W) (s : wStream) (bs mem : list Z).

(** What reading leaves alone. *)
Definition modes t :=
  (NlaMode t, RdstlsMode t, AadMode t, earlyUserAuth t, blocking t, ReceiveBuffer t, haveMoreBytesToRead t,
   rereadEvent t, written t, WriteLock t, outBytes t).

(** The rounds still needed: one for each byte to come and, for a blocking transport, each wait. *)
Definition cost (budget : W -> Z) t : Z :=
  zlen (inbox (bio t)) + if blocking t then Z.max 0 (budget (bio t)) else 0.
Definition enough (fuel : nat) t : Prop :=
  exists budget : W -> Z, (blocking t = true -> patient budget) /\ cost budget t < Z.of_nat fuel.

(** From [t] to [t'] at least [n] rounds were saved. *)
Definition spent t t' (n : Z) : Prop :=
  blocking t' = blocking t /\ history (bio t') = history (bio t) /\
  forall budget, (blocking t = true -> patient budget) -> cost budget t' + n <= cost budget t.

Lemma spent_trans t1 t2 t3 a b : spent t1 t2 a -> spent t2 t3 b -> spent t1 t3 (a + b).
Proof.
  intros (E1 & F1 & H1) (E2 & F2 & H2). split_and!; [congruence|congruence|]. intros budget Hp. specialize (H1 _ Hp).
  rewrite E1 in H2. specialize (H2 _ Hp). lia.
Qed.
Lemma spent_same t t' : blocking t' = blocking t -> bio t' = bio t -> spent t t' 0.
Proof. intros E1 E2. split_and!; [done|congruence|]. intros budget _. unfold cost. rewrite E1, E2. lia. Qed.
Lemma spent_less t t' a b : b <= a -> spent t t' a -> spent t t' b.
Proof. intros Hab (E & F & Hs). split_and!; [done|done|]. intros budget Hp. specialize (Hs _ Hp). lia. Qed.
Lemma spent_enough fuel t t' : enough (S fuel) t -> spent t t' 1 -> enough fuel t'.
Proof.
  intros (budget & Hp & Hf) (E & _ & Hs). exists budget. rewrite E. split; [done|]. specialize (Hs _ Hp). lia.
Qed.
Lemma enough_same fuel t t' : enough fuel t -> spent t t' 0 -> enough fuel t'.
Proof.
  intros (budget & Hp & Hf) (E & _ & Hs). exists budget. rewrite E. split; [done|]. specialize (Hs _ Hp). lia.
Qed.
Lemma not_enough_0 t : ~ enough 0 t.
Proof. intros (b & _ & Hf). pose proof (zlen_nonneg (inbox (bio t))). unfold cost in Hf. destruct (blocking t); lia. Qed.

(** The connection is gone: no BIO, a request to disconnect, a BIO that cannot go on, or a failed
    wait.  In the last two cases [short] holds. *)
Definition lost (short : Prop) t : Prop :=
  freerdp_shall_disconnect_context (bio t) = true \/
  front_present (bio t) = false \/
  (short /\ ((BIO_should_retry (bio t) = false /\ layer t = TRANSPORT_LAYER_CLOSED) \/
             (exists w r w', BIO_wait_read w = Ret (r, w') /\ r < 0))).

Lemma lost_weaken (P Q : Prop) t : (P -> Q) -> lost P t -> lost Q t.
Proof. unfold lost. tauto. Qed.

Lemma close_layer_spec t :
  modes (close_layer t) = modes t /\ bio (close_layer t) = bio t /\ layer (close_layer t) = TRANSPORT_LAYER_CLOSED.
Proof. unfold close_layer, freerdp_set_last_error_if_not. cbn. by destruct (LastError _ =? _). Qed.

Lemma spent_read n t st b w' t' :
  0 < n -> BIO_read n (bio t) = Ret ((st, b), w') -> inbox (bio t) = b ++ inbox w' -> history w' = history (bio t) ->
  blocking t' = blocking t -> bio t' = w' -> spent t t' (zlen b).
Proof.
  intros Hn E Hi Hh Hbl <-. split_and!; [done|done|]. intros budget Hp. unfold cost. rewrite Hbl, Hi, zlen_app.
  destruct (blocking t); [|lia]. destruct (Hp eq_refl _ _ _ _ _ Hn E). lia.
Qed.

Lemma spent_wait n t st b w1 r w2 t' :
  0 < n -> BIO_read n (bio t) = Ret ((st, b), w1) -> inbox (bio t) = b ++ inbox w1 -> st <= 0 ->
  BIO_should_retry w1 = true -> blocking t = true -> BIO_wait_read w1 = Ret (r, w2) -> inbox w2 = inbox w1 ->
  history w2 = history (bio t) ->
  blocking t' = true -> bio t' = w2 -> spent t t' 1.
Proof.
  intros Hn E Hi Hst Hre Hbl Ew Hi2 Hh Hbl' <-. split_and!; [congruence|done|]. intros budget Hp. unfold cost.
  rewrite Hbl, Hbl', Hi, zlen_app, Hi2. pose proof (zlen_nonneg b).
  destruct (Hp Hbl _ _ _ _ _ Hn E) as [? Hw]. specialize (Hw Hst Hre _ _ Ew). lia.
Qed.

(** The BIO has just answered a read without a byte, but can be asked again: it would have to wait. *)
Definition stalled t : Prop :=
  exists n w st, 0 < n /\ BIO_read n w = Ret ((st, []), bio t) /\ st <= 0 /\ BIO_should_retry (bio t) = true.

(** ** The bytes of one read *)

(** What the read of up to [n] bytes at the offset [off] of [mem] does. *)
Definition layer_post (n off : Z) t mem (r : Z) (p : rdpTransport W * list Z) : Prop :=
  modes p.1 = modes t /\
  exists bs, inbox (bio t) = bs ++ inbox (bio p.1) /\ p.2 = splice off bs mem /\ off + zlen bs <= n /\
    spent t p.1 (zlen bs) /\
    ((r = -1 /\ lost (off + zlen bs < n) p.1) \/ (r = off + zlen bs /\ (r = n \/ r < n /\ blocking t = false /\ stalled p.1))).

Lemma modes_blocking t t' : modes t' = modes t -> blocking t' = blocking t.
Proof. unfold modes. intros. by simplify_eq. Qed.

Lemma lbio_run {A} (m : Prog W A) t mem a w : m (bio t) = Ret (a, w) -> lbio m (t, mem) = Ret (a, (t <| bio := w |>, mem)).
Proof. intros E. unfold lbio, on_bio, pzoom. cbn [fst snd]. by rewrite E. Qed.

Lemma read_loop_wp (H : Prop) fuel n off t mem :
  0 <= off <= n -> n <= zlen mem -> enough fuel t \/ H ->
  wp H (read_loop fuel n off) (t, mem) (layer_post n off t mem).
Proof.
  revert off t mem. induction fuel as [|fuel IH]; intros off t mem Hoff Hmem Hf; cbn [read_loop].
  all: destruct (off <? n) eqn:Elt; [|apply wp_pret; split; [done|]; exists [];
    rewrite splice_nil; rewrite zlen_nil; split_and!; [done|done|lia|by apply spent_same|right; lia]].
  { destruct Hf as [Hf|Hf]; [by apply not_enough_0 in Hf|done]. }
  cbn zeta. set (r := if INT_MAX <? n - off then INT_MAX else n - off).
  assert (Hr : 0 < r <= n - off) by (unfold r, INT_MAX; case_if; lia). clearbody r.
  destruct (read_law r (bio t) ltac:(lia)) as ([st b] & w1 & E & Hb & Hst & Hi & Hhist). cbn [fst snd] in *.
  assert (Hbn : zlen b <= n - off) by lia. pose proof (zlen_nonneg b) as Hb0.
  set (t1 := t <| bio := w1 |>).
  apply (wp_step _ _ _ _ (st, b) (t1, mem)); [by apply lbio_run|].
  apply wp_pget. cbn [fst snd].
  apply (wp_step _ _ _ _ (splice off b mem) (t1, mem)). { unfold plift. by rewrite slots_write_run by lia. }
  apply wp_pput. set (mem1 := splice off b mem).
  assert (Hsp : spent t t1 (zlen b)) by (eapply (spent_read r); [lia|done..]).
  (* leaving the loop with what was read *)
  assert (Hout : forall r t2, modes t2 = modes t -> bio t2 = w1 ->
    (r = -1 /\ lost (off + zlen b < n) t2) \/ (r = off + zlen b /\ (r = n \/ r < n /\ blocking t = false /\ stalled t2)) ->
    layer_post n off t mem r (t2, mem1)).
  { intros r' t2 Hm Hw Hcase. split; [done|]. exists b. cbn [fst snd]. rewrite Hw. split_and!; [done|done|lia| |done].
    rewrite <- (Z.add_0_r (zlen b)). eapply spent_trans; [exact Hsp|]. by apply spent_same; [apply modes_blocking|]. }
  (* another round *)
  assert (Hloop : forall t2 off2, modes t2 = modes t -> inbox (bio t2) = inbox w1 -> off2 = off + zlen b ->
    spent t t2 (Z.max 1 (zlen b)) -> wp H (read_loop fuel n off2) (t2, mem1) (layer_post n off t mem)).
  { intros t2 off2 Hm Hw -> Hs. eapply wp_weaken; [apply IH|].
    - lia.
    - unfold mem1. rewrite zlen_splice; lia.
    - destruct Hf as [Hf|Hf]; [left|by right]. eapply spent_enough; [done|]. eapply spent_less; [|done]. lia.
    - intros r' [t3 mem3] _ (Hm3 & bs & Hi3 & Hmem3 & Hl3 & Hs3 & Hcase). cbn [fst snd] in *. rewrite (modes_blocking _ _ Hm) in Hcase.
      split; [cbn; congruence|]. exists (b ++ bs). cbn [fst snd]. rewrite zlen_app.
      split_and!; [by rewrite Hi, <- Hw, Hi3, app_assoc|by rewrite Hmem3; unfold mem1; rewrite splice_splice by lia|lia| |].
      + eapply spent_less; [|by eapply spent_trans]. lia.
      + destruct Hcase as [[-> Hl]|[-> ?]]; [left; split; [done|]; eapply lost_weaken; [|done]; lia|right]. split; [lia|]. destruct H0 as [?|(? & ? & ?)]; [left; lia|right; split_and!; [lia|done|done]]. }
  destruct (freerdp_shall_disconnect_context (bio t1)) eqn:Ed.
  { apply wp_pret, Hout; [done|done|]. left. split; [done|by left]. }
  destruct (st <=? 0) eqn:Est.
  - assert (b = []) as -> by (apply zlen_0_nil; lia). rewrite zlen_nil in *.
    destruct (front_present (bio t1)) eqn:Ef; cbn [negb].
    2: { apply wp_pret, Hout; [done|done|]. left. split; [done|]. right. by left. }
    destruct (BIO_should_retry (bio t1)) eqn:Ere; cbn [negb].
    2: { apply wp_pmodify, wp_pret. destruct (close_layer_spec t1) as (Hm & Hw & Hcl). apply Hout; [done|done|]. left.
         split; [done|]. do 2 right. split; [lia|]. left. split; [|done].
         change (BIO_should_retry (bio (close_layer t1)) = false). by rewrite Hw. }
    destruct (blocking t1) eqn:Ebl; cbn [negb].
    2: { apply wp_pret, Hout; [done|done|]. right. split; [lia|right]. split_and!; [lia|done|]. exists r, (bio t), st. split_and!; [lia|exact E|lia|exact Ere]. }
    destruct (wait_read_law w1) as (rc & w2 & Ew & Hw2 & Hhist2).
    apply (wp_step _ _ _ _ rc (t1 <| bio := w2 |>, mem1)); [by apply lbio_run|].
    destruct (rc <? 0) eqn:Erc.
    + apply wp_pret. split; [done|]. exists []. cbn [fst snd]. rewrite zlen_nil, splice_nil.
      split_and!; [by rewrite Hi, <- Hw2|unfold mem1; by rewrite splice_nil|lia| |].
      * eapply (spent_less _ _ 1); [lia|]. by eapply spent_wait; [apply Hr|exact E|done|lia|done|done|done|done|congruence|done|].
      * left. split; [done|]. do 2 right. split; [lia|]. right. exists w1, rc, w2. split; [done|lia].
    + apply Hloop; [done|done|lia|]. eapply spent_wait; [apply Hr|exact E|done|lia|done|done|done|done|congruence|done|done].
  - apply wp_pmodify, Hloop; [done|done|lia|]. eapply spent_less; [|eapply spent_read; [apply Hr|exact E|done|done|done|done]]. lia.
Qed.

Lemma read_layer_wp (H : Prop) fuel n t mem :
  0 <= n <= SSIZE_MAX -> n <= zlen mem -> enough fuel t \/ H ->
  wp H (transport_read_layer fuel n) (t, mem) (layer_post n 0 t mem).
Proof.
  intros Hn Hmem Hf. apply wp_pget. cbn [fst]. replace (SSIZE_MAX <? n) with false by lia. rewrite orb_false_r.
  destruct (front_present (bio t)) eqn:Ef; cbn [negb]; [apply read_loop_wp; [lia|done|done]|].
  apply wp_pmodify, wp_pret. destruct (close_layer_spec t) as (Hm & Hw & _). split; [done|].
  exists []. change (zlen (@nil Z)) with 0. rewrite splice_nil.
  split_and!; [by rewrite app_nil_l; f_equal|done|lia|by apply spent_same; [apply modes_blocking|]|].
  left. split; [done|]. right; left. change (front_present (bio (close_layer t)) = false). by rewrite Hw.
Qed.

Lemma splice_at (l : list Z) p b :
  0 <= p <= zlen l -> ztake p l ++ splice 0 b (zdrop p l) = splice p b l.
Proof.
  intros Hp. pose proof (zlen_nonneg b). unfold splice. rewrite (ztake_0 0), app_nil_l, zdrop_zdrop by lia.
  do 2 f_equal. f_equal. lia.
Qed.

(** What [transport_read_layer_bytes] does with [n] bytes asked for. *)
Definition bytes_post (n : Z) t s (r : Z) (p : rdpTransport W * wStream) : Prop :=
  modes p.1 = modes t /\
  exists bs, inbox (bio t) = bs ++ inbox (bio p.1) /\ zlen bs <= n /\ spent t p.1 (zlen bs) /\
    ((r = -1 /\ lost (zlen bs < n) p.1) \/
     (wrote s p.2 bs /\ r = (if (0 <? n) && (zlen bs =? n) then 1 else 0) /\
      (zlen bs = n \/ zlen bs < n /\ blocking t = false /\ stalled p.1))).

Lemma inbox_prefix_bytes w (bs r : list Z) : inbox w = bs ++ r -> Forall is_byte bs.
Proof. intros E. pose proof (inbox_bytes w) as HF. rewrite E in HF. by apply Forall_app in HF as [? _]. Qed.

Lemma read_layer_bytes_wp (H : Prop) fuel n t s :
  growable s -> 0 <= n <= room s -> enough fuel t \/ H ->
  wp H (transport_read_layer_bytes fuel n) (t, s) (bytes_post n t s).
Proof.
  intros Hg Hn Hf. pose proof Hg as (Hs & Hc & Ho). pose proof Hs as [Hbuf Hcap _ Hpos Hby]. unfold room in Hn.
  unfold transport_read_layer_bytes. replace (SSIZE_MAX <? n) with false by (unfold SSIZE_MAX; lia).
  apply wp_bind. pose proof (read_layer_wp H fuel n t (zdrop (pointer s) (buffer s)) ltac:(unfold SSIZE_MAX; lia)
    ltac:(rewrite zlen_zdrop; lia) Hf) as Hw.
  unfold wp, read_at_pointer in *. cbn [fst snd].
  destruct (transport_read_layer _ _ _) as [[r [t' mem']]| |]; [|done|done].
  destruct Hw as (Hm & bs & Hi & Hmem & Hl & Hsp & Hcase). cbn [fst snd] in *. subst mem'. rewrite Z.add_0_l in *.
  pose proof (inbox_prefix_bytes _ _ _ Hi) as Hbs. pose proof (zlen_nonneg bs).
  rewrite splice_at by lia. destruct Hcase as [[-> Hlost]|[-> Hfull]].
  { split; [done|]. exists bs. split_and!; [done|lia|done|by left]. }
  assert (Hw : wrote s (put_bytes s bs) bs) by (apply wrote_put_bytes; [done|unfold room; lia|done]).
  destruct (zlen bs <=? 0) eqn:E0.
  - assert (bs = []) as -> by (apply zlen_0_nil; lia). rewrite zlen_nil in *. rewrite splice_nil.
    split; [done|]. exists []. cbn [fst snd]. rewrite zlen_nil. split_and!; [done|lia|done|]. right.
    split_and!; [by destruct s; apply wrote_refl|by case_if; lia|destruct Hfull as [|(? & ? & ?)]; [by left|by right]].
  - unfold pbind, on_s, pzoom. cbn [fst snd]. rewrite seek_run; [| |unfold room; cbn; lia].
    2: { split; cbn; [by rewrite zlen_splice by lia|done|apply Hs|done|by apply Forall_splice]. }
    split; [done|]. exists bs. cbn [fst snd]. split_and!; [done|lia|done|]. right. split_and!; [exact Hw| |destruct Hfull as [|(? & ? & ?)]; [by left|by right]].
    replace (0 <? n) with true by lia. done.
Qed.

(** ** The header *)

Lemma ensure_capacity_wp (H : Prop) s n (Q : bool -> wStream -> Prop) :
  growable s -> n <= 2 ^ 63 -> (refused (2 * n) -> Q false s) ->
  (forall s', wrote s s' [] -> n <= capacity s' -> Q true s') -> wp H (Stream_EnsureCapacity n) s Q.
Proof.
  intros Hg Hn Hbad Hok. destruct (capacity s <? n) eqn:E.
  - destruct (ensure_capacity_grow s n Hg ltac:(lia) ltac:(by right)) as (b & s' & E' & Hb).
    apply (wp_eq _ _ _ _ _ _ E'). destruct b; [destruct Hb; by apply Hok|].
    destruct Hb as [-> Hr]. by apply Hbad.
  - eapply (wp_eq _ _ _ true s); [unfold Stream_EnsureCapacity, pbind, pget; by rewrite E|].
    apply Hok; [by apply wrote_refl|lia].
Qed.

Lemma ensure_remaining_wp (H : Prop) s n (Q : bool -> wStream -> Prop) :
  growable s -> 0 <= n <= 2 ^ 62 -> (refused (2 * (pointer s + 2 * n)) -> Q false s) ->
  (forall s', wrote s s' [] -> n <= room s' -> Q true s') -> wp H (Stream_EnsureRemainingCapacity n) s Q.
Proof.
  intros Hg Hn Hbad Hok. destruct (ensure_grow s n Hg Hn) as (b & s' & E & Hb). apply (wp_eq _ _ _ _ _ _ E).
  destruct b; destruct Hb as [Hb Hr]; [by apply Hok|]. subst s'. by apply Hbad.
Qed.

(** The bytes that were collected and those still to come. *)
Definition pending t s : list Z := held s ++ inbox (bio t).

(** What a PDU of the pending bytes may need. *)
Definition need t s : Z := 2 * (zlen (pending t s) + 262162).

Lemma need_step t s t' s' bs :
  inbox (bio t) = bs ++ inbox (bio t') -> held s' = held s ++ bs -> need t' s' = need t s.
Proof. intros Hi Hh. unfold need, pending. by rewrite Hi, Hh, <- app_assoc. Qed.

(** ** The header *)

Lemma wrote_held s s' bs : wrote s s' bs -> held s' = held s ++ bs.
Proof. by intros (_ & _ & E). Qed.

Lemma wp_on_s {A} (H : Prop) (m : Prog wStream A) t s (Q : A -> rdpTransport W * wStream -> Prop) :
  wp H m s (fun a s' => Q a (t, s')) -> wp H (on_s m) (t, s) Q.
Proof. intros Hw. unfold on_s. apply wp_pzoom. exact Hw. Qed.

Definition header_incomplete (h : header) (len : Z) : bool := match h with PduLength n => len <? n | _ => true end.

Lemma parse_now_wp (H : Prop) t s (Q : Z * bool -> rdpTransport W * wStream -> Prop) :
  growable s -> let m := parse_mode (NlaMode t) (RdstlsMode t) in fits m (held s) ->
  (forall s', wrote s s' [] -> let h := mode_length m (held s') in
     Q (header_code h, header_incomplete h (zlen (held s'))) (t, s')) ->
  wp H parse_now (t, s) Q.
Proof.
  intros Hg m Hfit HQ. apply wp_pget. cbn [fst]. apply wp_on_s.
  apply (wp_eq _ _ _ _ _ _ (parse_pdu_run _ _ s (proj1 Hg) Hfit)).
  set (s' := set_length (pointer s) s).
  assert (Hw : wrote s s' []).
  { destruct Hg as ([] & ? & ?). split_and!; [|cbn; rewrite zlen_nil; lia|cbn; by rewrite app_nil_r].
    split_and!; [split|done|done]; cbn; done || lia. }
  exact (HQ s' Hw).
Qed.

(** The last byte of [bs] ended the header. *)
Definition header_end (m : pdu_mode) bs : Prop := exists p b, bs = p ++ [b] /\ mode_length m p = NeedMore.

(** What [read_header] does. *)
Definition header_post (m : pdu_mode) t s (r : Z + Z) (p : rdpTransport W * wStream) : Prop :=
  modes p.1 = modes t /\
  exists bs, inbox (bio t) = bs ++ inbox (bio p.1) /\ spent t p.1 (zlen bs) /\
    match r with
    | inl status => wrote s p.2 bs /\ fits m (held p.2) /\
        mode_length m (held p.2) <> NeedMore /\ status = header_code (mode_length m (held p.2)) /\
        (bs = [] \/ header_end m (held p.2))
    | inr rc => (rc = -1 /\ (lost (mode_length m (held s ++ bs) = NeedMore) p.1 \/ refused (need t s))) \/
        (rc = 0 /\ wrote s p.2 bs /\ mode_length m (held p.2) = NeedMore /\ blocking t = false /\ stalled p.1)
    end.

Lemma mode_stays t t' : modes t' = modes t -> parse_mode (NlaMode t') (RdstlsMode t') = parse_mode (NlaMode t) (RdstlsMode t).
Proof. unfold modes. intros E. by injection E as -> ->. Qed.

(** The empty step. *)
Lemma nothing_read t : inbox (bio t) = [] ++ inbox (bio t) /\ spent t t (zlen (@nil Z)).
Proof. split; [done|]. by apply spent_same. Qed.

Lemma held_need t s : stream_ok s -> 2 * (pointer s + 2 * 1) <= need t s.
Proof.
  intros Hs. unfold need, pending. rewrite zlen_app, zlen_held by done. pose proof (zlen_nonneg (inbox (bio t))). lia.
Qed.

Lemma read_header_wp (H : Prop) fuel t s h :
  growable s -> let m := parse_mode (NlaMode t) (RdstlsMode t) in
  h = mode_length m (held s) -> fits m (held s) -> enough fuel t \/ H ->
  wp H (read_header fuel (header_code h) (header_incomplete h (zlen (held s)))) (t, s) (header_post m t s).
Proof.
  revert t s h. induction fuel as [|fuel IH]; intros t s h Hg m Hh Hfit Hf; cbn [read_header].
  all: destruct (decide (h = NeedMore)) as [->|Hne].
  2, 4: replace ((header_code h =? 0) && _) with false;
    [apply wp_pret; split; [done|]; destruct (nothing_read t); exists []; split_and!; [done|done|by apply wrote_refl|done|by cbn [snd]; fold m; rewrite <- Hh|by cbn [snd]; fold m; rewrite <- Hh|by left]
    |destruct h as [| |n]; [done|done|]; cbn; pose proof (mode_length_pos m (held s) n (held_bytes s (proj1 Hg)) (eq_sym Hh)); lia].
  { destruct Hf as [Hf|Hf]; [by apply not_enough_0 in Hf|done]. }
  change ((header_code NeedMore =? 0) && header_incomplete NeedMore (zlen (held s))) with true. cbn iota.
  apply wp_bind, wp_on_s, ensure_remaining_wp; [done|lia| |].
  { intros Href. cbn [negb]. apply wp_pret. split; [done|]. destruct (nothing_read t). exists []. split_and!; [done|done|]. left.
    split; [done|]. right. eapply refused_le; [done|]. apply held_need, Hg. }
  intros s1 Hw1 Hroom. cbn [negb]. apply wp_bind. eapply wp_weaken; [apply read_layer_bytes_wp; [apply Hw1|lia|done]|].
  intros rc [t2 s2] _ (Hm2 & bs & Hi & Hlen & Hsp & Hcase). cbn [fst snd] in *.
  destruct Hcase as [[-> Hl]|(Hw2 & -> & Hfull)].
  { apply wp_pret. split; [done|]. exists bs. split_and!; [done|done|]. left. split; [done|]. left.
    eapply lost_weaken; [|exact Hl]. intros H1. assert (bs = []) as -> by (apply zlen_0_nil; pose proof (zlen_nonneg bs); lia).
    by rewrite app_nil_r, <- Hh. }
  pose proof (wrote_trans _ _ _ _ _ Hw1 Hw2) as Hw. rewrite app_nil_l in Hw.
  pose proof (wrote_held _ _ _ Hw) as Hheld.
  destruct (zlen bs =? 1) eqn:E1; cbn [andb Z.ltb Z.compare].
  2: { change (i32 0) with 0. apply wp_pret. split; [done|]. exists bs. split_and!; [done|done|]. right.
       assert (bs = []) as -> by (apply zlen_0_nil; pose proof (zlen_nonneg bs); lia).
       rewrite app_nil_r in Hheld. cbn [snd]. rewrite Hheld. split_and!; [done|done|done|..]; destruct Hfull as [|(_ & ? & ?)]; (lia || done). }
  change (negb (i32 1 =? 1)) with false. cbn iota.
  destruct bs as [|b [|? ?]]; [done| |by zlist_lia].
  assert (Hfit2 : fits m (held s2)).
  { intros n Hn. rewrite Hheld, zlen_app in *. pose proof (inbox_prefix_bytes _ _ _ Hi) as Hb. rewrite Forall_singleton in Hb.
    change (zlen [b]) with 1. eapply mode_length_long; [apply held_bytes, Hg|done|by rewrite <- Hh|done]. }
  pose proof (mode_stays _ _ Hm2) as Hmode. apply wp_bind, parse_now_wp; [apply Hw2|by rewrite Hmode|].
  intros s3 Hw3. cbn zeta. cbn [fst snd].
  pose proof (wrote_held _ _ _ Hw3) as Hheld3. rewrite app_nil_r in Hheld3.
  eapply wp_weaken; [apply IH; [apply Hw3|done|by rewrite Hmode, Hheld3|]|].
  { destruct Hf as [Hf|Hf]; [left|by right]. eapply spent_enough; [done|]. exact Hsp. }
  intros r [t4 s4] _ (Hm4 & bs4 & Hi4 & Hsp4 & Hcase). rewrite Hmode in Hcase. fold m in Hcase. cbn [fst snd] in *.
  split; [cbn; congruence|]. exists ([b] ++ bs4). cbn [fst snd]. rewrite zlen_app.
  split_and!; [by rewrite Hi, Hi4, app_assoc|by eapply spent_trans|].
  pose proof (wrote_trans _ _ _ _ _ Hw Hw3) as Hw03. rewrite app_nil_r in Hw03.
  rewrite (modes_blocking _ _ Hm2) in Hcase.
  destruct r as [st|rc].
  - destruct Hcase as (Hw4 & Hfit4 & Hne4 & Hst4 & Hend). split_and!; [by eapply wrote_trans|done|done|done|]. right.
    destruct Hend as [->|Hend]; [|exact Hend]. exists (held s), b. split; [|by rewrite <- Hh].
    by rewrite (wrote_held _ _ _ Hw4), app_nil_r, Hheld3, Hheld.
  - rewrite (need_step t s t2 s3 [b]) in Hcase by (done || congruence).
    rewrite Hheld3, Hheld, <- app_assoc in Hcase. destruct Hcase as [?|(-> & Hw4 & Hrest)]; [by left|right]. split_and!; [done|by eapply wrote_trans|apply Hrest..].
Qed.

(** ** The Azure AD mode *)

Definition aad_post t s (r : Z) (p : rdpTransport W * wStream) : Prop :=
  modes p.1 = modes t /\
  exists bs, inbox (bio t) = bs ++ inbox (bio p.1) /\ spent t p.1 (zlen bs) /\
    ((r = -1 /\ (lost (mode_length ModeAad (held s ++ bs) = NeedMore) p.1 \/ refused (need t s))) \/
     (r = 0 /\ wrote s p.2 bs /\ mode_length ModeAad (held p.2) = NeedMore /\ blocking t = false /\ stalled p.1) \/
     (r = 1 /\ wrote s p.2 bs /\ complete ModeAad (held p.2))).

Lemma read_char_wp (H : Prop) fuel c t s (Q : Z * Z -> rdpTransport W * wStream -> Prop) :
  enough fuel t \/ H ->
  (forall t' bs, modes t' = modes t -> inbox (bio t) = bs ++ inbox (bio t') -> spent t t' (zlen bs) ->
     (lost (bs = []) t' -> forall c', Q (-1, c') (t', s)) /\
     (bs = [] -> blocking t = false -> stalled t' -> Q (0, c) (t', s)) /\
     (forall b, bs = [b] -> Q (1, b) (t', s))) ->
  wp H (read_char fuel c) (t, s) Q.
Proof.
  intros Hf HQ. pose proof (read_layer_wp H fuel 1 t [c] ltac:(done) ltac:(done) Hf) as Hw.
  unfold wp, read_char in *. cbn [fst snd]. destruct (transport_read_layer _ _ _) as [[r [t' mem]]| |]; [|done|done].
  destruct Hw as (Hm & bs & Hi & Hmem & Hl & Hsp & Hcase). cbn [fst snd] in *. subst mem.
  destruct (HQ t' bs Hm Hi Hsp) as (H1 & H2 & H3). destruct Hcase as [[-> Hlost]|[-> Hfull]].
  { apply H1. eapply lost_weaken; [|done]. intros. apply zlen_0_nil. pose proof (zlen_nonneg bs). lia. }
  destruct bs as [|b [|? ?]].
  - change (i32 (0 + zlen (@nil Z))) with 0. rewrite splice_nil. by destruct Hfull as [|(_ & ? & ?)]; [|apply H2].
  - change (i32 (0 + zlen [b])) with 1. by apply H3.
  - rewrite !zlen_cons in Hl. pose proof (zlen_nonneg l). lia.
Qed.

Lemma read_aad_wp (H : Prop) fuel c t s :
  growable s -> mode_length ModeAad (held s) = NeedMore -> enough fuel t \/ H ->
  wp H (read_aad fuel c) (t, s) (aad_post t s).
Proof.
  revert c t s. induction fuel as [|fuel IH]; intros c t s Hg Hh Hf; cbn [read_aad].
  { destruct Hf as [Hf|Hf]; [by apply not_enough_0 in Hf|done]. }
  apply wp_bind, read_char_wp; [done|]. intros t1 bs Hm Hi Hsp. split_and!.
  - intros Hl c'. apply wp_pret. split; [done|]. exists bs. split_and!; [done|done|]. left. split; [done|]. left.
    eapply lost_weaken; [|done]. intros ->. by rewrite app_nil_r.
  - intros -> Hbl Hst. apply wp_pret. split; [done|]. exists []. split_and!; [done|done|]. right; left.
    split_and!; [done|by apply wrote_refl|done|done|done].
  - intros b ->. pose proof (inbox_prefix_bytes _ _ _ Hi) as Hb. rewrite Forall_singleton in Hb.
    change (negb (1 =? 1)) with false. cbn iota. apply wp_bind, wp_on_s, ensure_remaining_wp; [done|lia| |].
    { intros Href. apply wp_pret. split; [done|]. exists [b]. split_and!; [done|done|]. left. split; [done|]. right.
      eapply refused_le; [done|]. apply held_need, Hg. }
    intros s1 Hw1 Hroom. cbn [negb]. pose proof Hw1 as (Hg1 & _).
    assert (E : Stream_Write_UINT8 b s1 = Ret (tt, put_bytes s1 [b])) by (apply write_u8_spec; [apply Hg1|lia|exact Hb]).
    apply wp_bind, wp_on_s, (wp_eq _ _ _ _ _ _ E). set (s2 := put_bytes s1 [b]).
    assert (Hw2 : wrote s s2 [b]).
    { rewrite <- (app_nil_l [b]). eapply wrote_trans; [done|]. apply wrote_put_bytes; [done|exact Hroom|by rewrite Forall_singleton]. }
    pose proof (wrote_held _ _ _ Hw2) as Hh2.
    assert (Hlen : mode_length ModeAad (held s2) = if b =? 0 then PduLength (zlen (held s2)) else NeedMore).
    { rewrite Hh2, zlen_app. change (zlen [b]) with 1. revert Hh. clear. cbn [mode_length].
      assert (Hgen : forall k l, aad_length_from k l = NeedMore ->
        aad_length_from k (l ++ [b]) = if b =? 0 then PduLength (k + (zlen l + 1)) else NeedMore).
      { intros k l. revert k. induction l as [|x l IHl]; intros k; cbn; [done|].
        destruct (x =? 0); [done|]. intros Hl. rewrite IHl, zlen_cons by done. destruct (b =? 0); [f_equal; lia|done]. }
      apply Hgen. }
    destruct (b =? 0) eqn:Eb; cbn [negb].
    + apply wp_pret. split; [done|]. exists [b]. split_and!; [done|done|]. right; right. split_and!; [done|done|exact Hlen].
    + eapply wp_weaken; [apply IH; [apply Hw2|done|]|].
      { destruct Hf as [Hf|Hf]; [left|by right]. by eapply spent_enough. }
      intros r [t3 s3] _ (Hm3 & bs & Hi3 & Hsp3 & Hcase). cbn [fst snd] in *. rewrite (modes_blocking _ _ Hm) in Hcase.
      split; [cbn; congruence|]. exists ([b] ++ bs). cbn [fst snd]. rewrite zlen_app.
      split_and!; [by rewrite Hi, Hi3, app_assoc|by eapply spent_trans|].
      rewrite (need_step t s t1 s2 [b]) in Hcase by done. rewrite Hh2, <- app_assoc in Hcase. destruct Hcase as [?|[(? & Hw3 & ?)|(? & Hw3 & ?)]]; [by left|right; left|right; right];
        (split_and!; [done|by eapply wrote_trans|..]; tauto).
Qed.

(** ** Whole PDUs *)

Definition mode_of t : pdu_mode := if AadMode t then ModeAad else parse_mode (NlaMode t) (RdstlsMode t).

(** [s] is the buffer of an incomplete PDU. *)
Definition collecting (m : pdu_mode) s : Prop :=
  growable s /\ fits m (held s) /\ (m = ModeAad -> mode_length m (held s) = NeedMore).

(** [bs] is less than one PDU. *)
Definition partial_pdu (m : pdu_mode) bs : Prop :=
  mode_length m bs <> Invalid /\ forall n, mode_length m bs = PduLength n -> zlen bs < n.

Definition read_post t s (r : Z) (p : rdpTransport W * wStream) : Prop :=
  let '(t', s') := p in
  modes t' = modes t /\ history (bio t') = history (bio t) /\
  ((0 < r /\ exists pdu, pending t s = pdu ++ inbox (bio t') /\ complete (mode_of t) pdu /\ r = zlen pdu /\
      readable s' /\ pointer s' = 0 /\ unread s' = pdu) \/
   (r = 0 /\ pending t s = pending t' s' /\ collecting (mode_of t) s' /\
      ((blocking t = false /\ stalled t' /\ partial_pdu (mode_of t) (held s')) \/
       (AadMode t = false /\ complete (mode_of t) (held s') /\
        (held s' = held s \/ header_end (mode_of t) (held s'))))) \/
   (r = -1 /\ (refused (need t s) \/ mode_length (mode_of t) (pending t s) = Invalid \/
              exists got, pending t s = got ++ inbox (bio t') /\ lost (partial_pdu (mode_of t) got) t'))).

Lemma finish_pdu_wp (H : Prop) t s (Q : Z -> rdpTransport W * wStream -> Prop) :
  growable s -> pointer s <= INT_MAX ->
  (forall s', readable s' -> pointer s' = 0 -> unread s' = held s -> Q (zlen (held s)) (t, s')) ->
  wp H finish_pdu (t, s) Q.
Proof.
  intros Hg Hmax HQ. pose proof Hg as (Hs & _). pose proof Hs as []. pose proof (zlen_held s Hs) as Hz. unfold finish_pdu.
  apply wp_bind, wp_on_s, (wp_eq _ _ _ _ _ _ (seal_run s Hs)). set (s1 := set_length (pointer s) s).
  assert (Hs1 : stream_ok s1) by (split; cbn; done || lia).
  apply wp_bind, wp_on_s, (wp_eq _ _ _ _ _ _ (set_position_run s1 0 Hs1 ltac:(cbn; lia))).
  apply wp_pget, wp_pret. unfold Stream_Length. cbn [snd set_pointer slength].
  change (slength s1) with (pointer s). rewrite i32_id by (unfold INT_MAX in *; lia). rewrite <- Hz. apply HQ.
  - split; [by apply set_pointer_ok; [|cbn; lia]|cbn; lia].
  - done.
  - unfold unread. cbn. rewrite zdrop_0 by lia. done.
Qed.

(** The rest of a PDU whose header is known. *)
Lemma read_rest_wp (H : Prop) fuel t s n :
  growable s -> mode_length (mode_of t) (held s) = PduLength n -> zlen (held s) <= n <= 262160 -> AadMode t = false ->
  enough fuel t \/ H ->
  wp H (ok <- on_s (Stream_EnsureCapacity n) ;;
        if negb ok then pret (-1)
        else
          position <- on_s Stream_GetPosition ;;
          if n <? position then pret (-1)
          else
            status <- transport_read_layer_bytes fuel (n - position) ;;
            if negb (status =? 1) then pret (i32 status) else finish_pdu) (t, s)
    (fun r p => read_post t s r p /\ (r = 0 -> (blocking t = false /\ stalled p.1 /\ partial_pdu (mode_of t) (held p.2)) \/ held p.2 = held s)).
Proof.
  intros Hg Hh Hn Haad Hf. apply wp_bind, wp_on_s, ensure_capacity_wp; [done|lia| |].
  { intros Href. apply wp_pret. split; [|done]. split_and!; [done|by first [done | apply Hsp]|]. right; right. split; [done|]. left.
    eapply refused_le; [done|]. unfold need. pose proof (zlen_nonneg (pending t s)). lia. }
  intros s1 Hw1 Hcap. cbn [negb]. pose proof Hw1 as (Hg1 & _). pose proof (wrote_held _ _ _ Hw1) as Hh1. rewrite app_nil_r in Hh1.
  pose proof (zlen_held s1 (proj1 Hg1)) as Hz1. rewrite Hh1 in Hz1.
  apply wp_bind, wp_on_s, (wp_eq _ _ _ _ _ _ (position_spec s1 (proj1 Hg1))).
  replace (n <? pointer s1) with false by lia. cbn iota.
  apply wp_bind. eapply wp_weaken; [apply read_layer_bytes_wp; [done|unfold room; lia|done]|].
  intros r [t2 s2] _ (Hm2 & bs & Hi & Hlen & Hsp & Hcase). cbn [fst snd] in *.
  assert (Hpend : pending t s = (held s ++ bs) ++ inbox (bio t2)) by (unfold pending; by rewrite Hi, app_assoc).
  assert (Hlen2 : mode_length (mode_of t) (held s ++ bs) = PduLength n) by (rewrite mode_length_mono; congruence).
  destruct Hcase as [[-> Hl]|(Hw2 & -> & Hfull)].
  { apply wp_pret. split; [|done]. split_and!; [done|by first [done | apply Hsp]|]. right; right. split; [done|]. do 2 right. exists (held s ++ bs).
    split; [done|]. eapply lost_weaken; [|done]. intros Hlt. unfold partial_pdu. rewrite Hlen2. split; [done|].
    intros k [= <-]. rewrite zlen_app. lia. }
  pose proof (wrote_trans _ _ _ _ _ Hw1 Hw2) as Hw. rewrite app_nil_l in Hw. pose proof (wrote_held _ _ _ Hw) as Hh2.
  rewrite <- Hh2 in *. assert (Hz2 : zlen (held s2) = zlen (held s) + zlen bs) by (by rewrite Hh2, zlen_app).
  destruct (_ && _) eqn:E.
  - apply andb_true_iff in E as [E0 E%Z.eqb_eq]. change (negb (1 =? 1)) with false. cbn iota.
    pose proof (zlen_held s2 (proj1 (proj1 Hw2))) as Hp2.
    apply finish_pdu_wp; [apply Hw2|unfold INT_MAX; lia|]. intros s3 Hr3 Hp3 Hu3. pose proof (zlen_nonneg (held s)).
    split; [|lia]. split_and!; [done|apply Hsp|]. left.
    split; [lia|]. exists (held s2). split_and!; [done|unfold complete; rewrite Hlen2; f_equal; lia|done..].
  - change (negb (0 =? 1)) with true. cbn iota. apply wp_pret. change (i32 0) with 0.
    assert (Hstay : (blocking t = false /\ stalled t2 /\ partial_pdu (mode_of t) (held s2)) \/ (held s2 = held s /\ zlen bs = n - pointer s1)).
    { destruct Hfull as [Hfull|(Hlt & ? & ?)]; [right|left; split; [done|]; split; [done|]; unfold partial_pdu; rewrite Hlen2; split; [done|]; intros k [= <-]; lia]. split; [|done]. rewrite Hh2. assert (bs = []) as ->; [|by rewrite app_nil_r].
      apply zlen_0_nil. pose proof (zlen_nonneg bs). lia. }
    split; [|intros _; destruct Hstay as [?|[? _]]; [by left|by right]]. split_and!; [done|apply Hsp|]. right; left. split_and!; [done|done| |].
    + split_and!; [apply Hw2| |unfold mode_of, parse_mode; rewrite Haad; by destruct (NlaMode t), (RdstlsMode t)].
      intros k Hk. rewrite Hlen2 in Hk. injection Hk as <-. lia.
    + destruct Hstay as [?|[Hstay Hz]]; [by left|right].
      split_and!; [done|unfold complete; rewrite Hlen2; f_equal; lia|by left].
Qed.

Lemma read_pdu_wp (H : Prop) fuel t s :
  collecting (mode_of t) s -> AadMode t || negb (earlyUserAuth t) = true -> zlen (pending t s) <= INT_MAX ->
  enough fuel t \/ H ->
  wp H (transport_default_read_pdu fuel) (t, s) (read_post t s).
Proof.
  intros (Hg & Hfit & Haad) Hearly Hmax Hf. unfold transport_default_read_pdu. apply wp_pget. cbn [fst].
  unfold pending in Hmax. rewrite zlen_app in Hmax. pose proof (zlen_nonneg (inbox (bio t))).
  destruct (AadMode t) eqn:Eaad.
  - assert (Hmode : mode_of t = ModeAad) by (unfold mode_of; by rewrite Eaad). rewrite Hmode in *.
    apply wp_bind. eapply wp_weaken; [by apply read_aad_wp; [|apply Haad|]|].
    intros r [t1 s1] _ (Hm & bs & Hi & Hsp & Hcase). cbn [fst snd] in *.
    assert (Hpend : pending t s = (held s ++ bs) ++ inbox (bio t1)) by (unfold pending; by rewrite Hi, app_assoc).
    rewrite Hi, zlen_app in Hmax.
    destruct Hcase as [[-> Hl]|[(-> & Hw & Hh & Hbl & Hstl)|(-> & Hw & Hc)]]; cbn [negb Z.eqb Pos.eqb].
    + apply wp_pret. split_and!; [done|apply Hsp|]. right; right. split; [done|]. rewrite Hmode. destruct Hl as [Hl|]; [|by left].
      do 2 right. exists (held s ++ bs). split; [done|]. eapply lost_weaken; [|done]. unfold partial_pdu. by intros ->.
    + apply wp_pret. split_and!; [done|apply Hsp|]. right; left. pose proof (wrote_held _ _ _ Hw) as Hh1. rewrite <- Hh1 in Hpend.
      rewrite Hmode. split_and!; [done|done| |left; split; [done|]; split; [done|unfold partial_pdu; by rewrite Hh]].
      split_and!; [apply Hw| |done]. intros n. by rewrite Hh.
    + pose proof (wrote_held _ _ _ Hw) as Hh1. rewrite <- Hh1 in Hpend. pose proof (zlen_nonneg (inbox (bio t1))).
      assert (Hz : zlen (held s1) = zlen (held s) + zlen bs) by (by rewrite Hh1, zlen_app).
      pose proof (zlen_held s1 (proj1 (proj1 Hw))) as Hp1.
      apply finish_pdu_wp; [apply Hw|lia|]. intros s2 Hr2 Hp2 Hu2. split_and!; [done|apply Hsp|]. left.
      split; [by eapply mode_length_pos; [apply held_bytes, Hw|exact Hc]|].
      exists (held s1). rewrite Hmode. split_and!; done.
  - cbn [orb] in Hearly. apply negb_true_iff in Hearly. rewrite Hearly.
    assert (Hmode : mode_of t = parse_mode (NlaMode t) (RdstlsMode t)) by (unfold mode_of; by rewrite Eaad).
    apply wp_bind, parse_now_wp; [done|by rewrite <- Hmode|]. intros s1 Hw1. cbn zeta. cbn [fst snd].
    pose proof (wrote_held _ _ _ Hw1) as Hh1. rewrite app_nil_r in Hh1.
    apply wp_bind. eapply wp_weaken; [apply read_header_wp; [apply Hw1|done|by rewrite Hh1, <- Hmode|done]|].
    intros h [t2 s2] _ (Hm2 & bs & Hi & Hsp & Hcase). cbn [fst snd] in *. rewrite <- Hmode, Hh1 in Hcase.
    assert (Hneed : need t s1 = need t s) by (unfold need, pending; by rewrite Hh1). rewrite Hneed in Hcase.
    assert (Hpend : pending t s = (held s ++ bs) ++ inbox (bio t2)) by (unfold pending; by rewrite Hi, app_assoc).
    destruct h as [status|rc].
    2: { apply wp_pret. split_and!; [done|apply Hsp|]. destruct Hcase as [[-> Hl]|(-> & Hw2 & Hnm & Hbl & Hstl)].
         - right; right. split; [done|]. destruct Hl as [Hl|]; [|by left]. do 2 right. exists (held s ++ bs).
           split; [done|]. eapply lost_weaken; [|done]. unfold partial_pdu. by intros ->.
         - right; left. pose proof (wrote_held _ _ _ Hw2) as Hh2. rewrite Hh1 in Hh2. rewrite <- Hh2 in Hpend.
           split_and!; [done|done| |left; split; [done|]; split; [done|unfold partial_pdu; by rewrite Hnm]].
           split_and!; [apply Hw2|intros k; by rewrite Hnm|]. rewrite Hmode. unfold parse_mode. by destruct (NlaMode t), (RdstlsMode t). }
    destruct Hcase as (Hw2 & Hfit2 & Hne & -> & Hend). pose proof (wrote_held _ _ _ Hw2) as Hh2. rewrite Hh1 in Hh2. rewrite <- Hh2 in Hpend.
    pose proof (held_bytes s2 (proj1 (proj1 Hw2))) as Hb2.
    destruct (mode_length (mode_of t) (held s2)) as [| |n] eqn:Eh; [done| |]; cbn [header_code].
    + apply wp_pret. split_and!; [done|apply Hsp|]. right; right. split; [done|]. right; left. rewrite Hpend, mode_length_mono; congruence.
    + pose proof (mode_length_pos _ _ _ Hb2 Eh). replace (n <? 0) with false by lia. cbn iota.
      assert (Hbound : n <= 262160) by (rewrite Hmode in Eh; by eapply announced_bound).
      assert (Hmode2 : mode_of t2 = mode_of t) by (unfold modes in Hm2; unfold mode_of; by injection Hm2 as -> -> ->).
      assert (Haad2 : AadMode t2 = AadMode t) by (unfold modes in Hm2; by injection Hm2 as _ _ ->).
      eapply wp_weaken; [apply (read_rest_wp H fuel t2 s2 n)|].
      * apply Hw2.
      * by rewrite Hmode2.
      * split; [by apply Hfit2|done].
      * congruence.
      * destruct Hf as [Hf|]; [left|by right]. eapply enough_same; [done|]. eapply spent_less; [|done]. apply zlen_nonneg.
      * intros r [t3 s3] _ [(Hm3 & Hh3 & Hcase) Hstay]. cbn [snd] in Hstay. split_and!; [congruence|rewrite Hh3; apply Hsp|].
        change (held s2 ++ inbox (bio t2)) with (pending t2 s2) in Hpend.
        rewrite Hmode2, <- Hpend, (modes_blocking _ _ Hm2), Haad2 in Hcase. rewrite (need_step t s t2 s2 bs) in Hcase by done. rewrite (modes_blocking _ _ Hm2) in Hstay.
        destruct Hcase as [?|[(-> & Hp & Hcol & Hst)|?]]; [by left| |by right; right]. right; left. split_and!; [done|done|done|].
        destruct Hst as [?|(Ha & Hc & _)]; [by left|]. rewrite Hmode2 in Hstay. destruct (Hstay eq_refl) as [?|Hst]; [by left|]. right. split_and!; [done|done|].
        rewrite Hst. destruct Hend as [->|?]; [left; by rewrite Hh2, app_nil_r|by right].
Qed.
End reading.

(** ** A BIO to run *)

(** The connection delivers its bytes in these pieces; an empty piece is a read that would block.
    After the last piece it is closed. *)
Record script : Type := mkScript {
  pieces : list (list Z);
  sent : list Z;
  log : list (list Z)
}.

Definition script_read (n : Z) (w : script) : outcome ((Z * list Z) * script) :=
  match pieces w with
  | [] => Ret ((0, []), mkScript [] (sent w) (log w))
  | [] :: r => Ret ((-1, []), mkScript r (sent w) (log w))
  | c :: r =>
      let d := ztake n c in
      let r := match zdrop n c with [] => r | c' => c' :: r end in
      Ret ((zlen d, map u8 d), mkScript r (sent w) (log w))
  end.

Definition scripted_bio : FrontBio script := {|
  front_present _ := true;
  BIO_read := script_read;
  BIO_write bs w := Ret (zlen bs, mkScript (pieces w) (sent w ++ bs) (log w));
  BIO_should_retry w := negb (bool_decide (pieces w = []));
  BIO_wait_read := pret 0;
  BIO_wait_write := pret 0;
  BIO_write_blocked _ := false;
  BIO_flush := pret 1;
  BIO_set_nonblock _ := pret true;
  freerdp_shall_disconnect_context _ := false
|}.

#[refine] Definition scripted_bio_laws : FrontBioLaws script (H := scripted_bio) :=
  {| inbox w := map u8 (concat (pieces w)); history := log |}.
Proof.
  - intros w. induction (concat (pieces w)); constructor; [apply u8_byte|done].
  - intros n [[|[|b c] r] o l] Hn; cbn [BIO_read scripted_bio script_read pieces].
    1-2: eexists _, _; split; [reflexivity|]; cbn [fst snd pieces log]; split_and!; [done|lia|done|done].
    eexists _, _. split; [reflexivity|]. cbn [fst snd pieces log].
    assert (Hz : forall k : list Z, zlen (map u8 k) = zlen k) by (intros; unfold zlen; by rewrite length_map).
    pose proof (zlen_nonneg (ztake n (b :: c))). rewrite Hz. split_and!; [lia|rewrite zlen_ztake; zlist_lia| |done].
    rewrite <- map_app. f_equal. cbn [concat]. rewrite <- (ztake_zdrop_app n (b :: c)) at 1. rewrite <- app_assoc. f_equal.
    by destruct (zdrop n (b :: c)).
  - intros w. by eexists _, _.
Defined.

Definition blocks (w : script) : Z := zlen (filter (fun c => c = []) (pieces w)).

Lemma scripted_patient : patient (H := scripted_bio) blocks.
Proof.
  intros n [[|[|b c] r] o l] st bs w1 Hn; cbn [BIO_read scripted_bio script_read pieces]; unfold blocks; cbn [pieces].
  - intros [= <- <- <-]. done.
  - intros [= <- <- <-]. cbn [pieces]. rewrite filter_cons_True, zlen_cons by done. pose proof (zlen_nonneg (filter (fun c => c = []) r)).
    split; [lia|]. intros _ _ rc w2 [= <- <-]. cbn [pieces]. lia.
  - intros [= <- <- <-]. cbn [pieces]. rewrite (filter_cons_False _ (b :: c)) by done.
    assert (Hsame : zlen (filter (fun c => c = []) match zdrop n (b :: c) with [] => r | c' => c' :: r end) =
                    zlen (filter (fun c => c = []) r)) by (by destruct (zdrop n (b :: c))).
    rewrite Hsame. pose proof (zlen_nonneg (filter (fun c => c = []) r)). split; [lia|].
    intros Hst _. rewrite zlen_ztake in Hst. zlist_lia.
Qed.

Definition script_of (ps : list (list Z)) : script := mkScript ps [] [].

(** A transport in default mode over a script. *)
Definition transport_over (block : bool) (ps : list (list Z)) : rdpTransport script :=
  mkTransport TRANSPORT_LAYER_TCP (script_of ps) false false false false block 0 0
    (Some (blank_stream 16)) false false 0 0 0 false.

Lemma blank_collecting : collecting ModeDefault (blank_stream 16).
Proof.
  split_and!; [apply blank_stream_growable; lia| |done]. intros n. by change (held (blank_stream 16)) with (@nil Z).
Qed.

(** ** Claims *)

(** C22: [transport_default_read_pdu] cuts the bytes of a connection into PDUs.  Called with the
    buffer of an incomplete PDU, in every mode but early user authentication, it returns, in one of
    three ways.  It delivers a complete PDU, whose length is its result, the stream at its start, the
    bytes after it still to be read.  It returns 0, having put into the buffer exactly the bytes it took
    from the connection, for a later call to go on; this it does only when the transport does not block,
    the BIO has just answered a read without a byte and what was collected is less than a PDU, or when the
    PDU ends with its header or was complete before the call, which the code takes as incomplete.  It
    returns -1 because an allocation was refused, the bytes are no PDU, or the connection is gone in the
    middle of one.  The parsers read nothing outside of the buffer, the growth of which is included. *)
Theorem transport_read_pdu_delimits {W : Type} `{HB : !FrontBio W} `{HL : !FrontBioLaws W} `{HM : Malloc}
    (fuel : nat) (t : rdpTransport W) (s : wStream) :
  collecting (mode_of t) s -> AadMode t || negb (earlyUserAuth t) = true -> zlen (pending t s) <= INT_MAX ->
  enough fuel t -> runs (transport_default_read_pdu fuel) (t, s) (read_post t s).
Proof.
  intros Hc He Hm Hf. apply (wp_runs False); [tauto|]. apply read_pdu_wp; auto.
Qed.

Lemma transport_read_pdu_delimits_witness :
  exists t' s', transport_default_read_pdu (HB := scripted_bio) (HM := malloc_all) 20
    (transport_over false [[3; 0]; [0]; [8; 2; 240; 128; 1; 3]], blank_stream 16) = Ret (8, (t', s')) /\
    unread s' = [3; 0; 0; 8; 2; 240; 128; 1] /\ inbox (FrontBioLaws := scripted_bio_laws) (bio t') = [3].
Proof.
  destruct (transport_read_pdu_delimits (HB := scripted_bio) (HL := scripted_bio_laws) (HM := malloc_all) 20
    (transport_over false [[3; 0]; [0]; [8; 2; 240; 128; 1; 3]]) (blank_stream 16)) as (r & [t' s'] & E & Hpost).
  - apply blank_collecting.
  - reflexivity.
  - vm_compute. discriminate.
  - exists (fun _ => 0). split; [discriminate|]. vm_compute. reflexivity.
  - revert E. vm_compute. intros [= <- <- <-]. eexists _, _. split; [reflexivity|]. split; reflexivity.
Defined.

(** C23: a PDU that is on its way is delivered.  A blocking transport, a connection that is not
    lost before its last byte ([BIO_should_retry] as long as bytes are to come) and enough memory:
    whatever the pieces the bytes arrive in and however often a read has to wait, the call returns
    the next PDU and leaves the bytes behind it.  The PDU must be longer than its header. *)
Theorem transport_read_pdu_live {W : Type} `{HB : !FrontBio W} `{HL : !FrontBioLaws W} `{HM : Malloc}
    (fuel : nat) (t : rdpTransport W) (s : wStream) (pdu rest : list Z) :
  collecting (mode_of t) s -> AadMode t || negb (earlyUserAuth t) = true -> zlen (pending t s) <= INT_MAX ->
  enough fuel t -> blocking t = true ->
  pending t s = pdu ++ rest -> complete (mode_of t) pdu ->
  AadMode t = true \/ (held s <> pdu /\ ~ header_end (mode_of t) pdu) ->
  (forall n, n <= need t s -> malloc_ok n = true) ->
  (forall w : W, front_present w = true /\ freerdp_shall_disconnect_context w = false /\
     (inbox w <> [] -> BIO_should_retry w = true) /\ forall r w', BIO_wait_read w = Ret (r, w') -> 0 <= r) ->
  runs (transport_default_read_pdu fuel) (t, s) (fun r p =>
    r = zlen pdu /\ unread p.2 = pdu /\ inbox (bio p.1) = rest).
Proof.
  intros Hc He Hm Hf Hbl Hpend Hpdu Hlong Hmem Hbio.
  assert (Hw : wp False (transport_default_read_pdu fuel) (t, s) (read_post t s)) by (apply read_pdu_wp; auto).
  apply (wp_runs False); [tauto|]. eapply wp_weaken; [exact Hw|]. clear Hw.
  intros r [t' s'] _ (_ & _ & [(_ & q & Hq & Hcq & -> & _ & _ & Hu)|[(-> & Hp & _ & Hst)|(-> & Hbad)]]).
  - rewrite Hpend in Hq. destruct (complete_unique _ _ _ _ _ Hpdu Hcq Hq) as [<- Hrest]. done.
  - exfalso. destruct Hst as [[? _]|(Ha & Hcs & Hend)]; [congruence|]. destruct Hlong as [|[Hne Hnh]]; [congruence|].
    rewrite Hpend in Hp. destruct (complete_unique _ _ _ _ _ Hpdu Hcs Hp) as [-> _]. by destruct Hend.
  - exfalso. destruct Hbad as [(n & Hn & Hno)|[Hinv|(got & Hgot & Hlost)]].
    + by rewrite Hmem in Hno by lia.
    + by rewrite Hpend, mode_length_mono, Hpdu in Hinv by (by rewrite Hpdu).
    + destruct (Hbio (bio t')) as (H1 & H2 & H3 & _).
      destruct Hlost as [Hd|[Hfp|[[Hni Hpart] [[Hre _]|(w & rc & w' & Ew & Hneg)]]]]; [congruence|congruence| |].
      * assert (Hin : inbox (bio t') = []) by (destruct (inbox (bio t')); [done|]; rewrite H3 in Hre; done).
        rewrite Hin, app_nil_r, Hpend in Hgot. rewrite <- Hgot in Hpart.
        specialize (Hpart (zlen pdu)). rewrite mode_length_mono, zlen_app in Hpart by (by rewrite Hpdu).
        pose proof (zlen_nonneg rest). specialize (Hpart Hpdu). lia.
      * destruct (Hbio w) as (_ & _ & _ & Hwait). specialize (Hwait _ _ Ew). lia.
Qed.

Lemma transport_read_pdu_live_witness :
  exists t' s', transport_default_read_pdu (HB := scripted_bio) (HM := malloc_all) 20
    (transport_over true [[3]; []; [0; 0]; [9]; []; [2; 240; 128; 1; 7; 3]], blank_stream 16) = Ret (9, (t', s')) /\
    unread s' = [3; 0; 0; 9; 2; 240; 128; 1; 7] /\ inbox (FrontBioLaws := scripted_bio_laws) (bio t') = [3].
Proof.
  destruct (transport_read_pdu_live (HB := scripted_bio) (HL := scripted_bio_laws) (HM := malloc_all) 20
    (transport_over true [[3]; []; [0; 0]; [9]; []; [2; 240; 128; 1; 7; 3]]) (blank_stream 16)
    [3; 0; 0; 9; 2; 240; 128; 1; 7] [3]) as (r & [t' s'] & E & -> & Hu & Hi).
  - apply blank_collecting.
  - reflexivity.
  - vm_compute. discriminate.
  - exists blocks. split; [intros _; exact scripted_patient|]. vm_compute. reflexivity.
  - reflexivity.
  - reflexivity.
  - reflexivity.
  - right. split; [discriminate|]. intros (p & b & Ep & Hp).
    assert (p = [3; 0; 0; 9; 2; 240; 128; 1]) as ->; [|discriminate].
    change [3; 0; 0; 9; 2; 240; 128; 1; 7] with ([3; 0; 0; 9; 2; 240; 128; 1] ++ [7]) in Ep.
    by apply app_inj_tail in Ep as [-> _].
  - intros n Hn. apply Z.ltb_lt. assert (En : need (HL := scripted_bio_laws)
      (transport_over true [[3]; []; [0; 0]; [9]; []; [2; 240; 128; 1; 7; 3]]) (blank_stream 16) = 524344) by (vm_compute; reflexivity).
    rewrite En in Hn. lia.
  - intros w. split; [reflexivity|]. split; [reflexivity|]. split; [|intros rc w' [= <- _]; lia].
    intros Hin. cbn. apply negb_true_iff, bool_decide_eq_false. intros Hp. apply Hin. cbn. by rewrite Hp.
  - exists t', s'. split; [exact E|]. split; [exact Hu|exact Hi].
Defined.
