(* ===== verification/TransportReceive.v ===== *)
(** * Receiving and sending PDUs

    What the user of the transport can rely on: the PDUs that are handed to the receive callback
    do not depend on how the bytes arrived, a PDU that is on its way is delivered, and what is
    written reaches the BIO completely and in order. *)

From stdpp Require Import relations.
From S2P Require Import Prelude Memory Stream Transport TransportPdu TransportRead.

(** ** What is relied on *)

(** The mode and the receive buffer, which the callback leaves alone. *)
Definition receive_state {W} (t : rdpTransport W) :=
  (NlaMode t, RdstlsMode t, AadMode t, earlyUserAuth t, ReceiveBuffer t).

(** The pool gives empty buffers; pool and callback take no bytes from the connection, and the
    callback is what makes history. *)
Class ReceiveLaws (W : Type) `{FrontBioLaws W} `{!StreamPools W} `{HR : !Receiver (W := W)} : Prop := {
  take_law n w : runs (StreamPool_Take n) w (fun r w' => inbox w' = inbox w /\ history w' = history w /\
    match r with Some s => growable s /\ pointer s = 0 | None => True end);
  remove_law s w : runs (StreamPool_Remove s) w (fun _ w' => inbox w' = inbox w /\ history w' = history w);
  callback_law t s : runs ReceiveCallback (t, s) (fun _ p => receive_state p.1 = receive_state t /\
    inbox (bio p.1) = inbox (bio t) /\ history (bio p.1) = history (bio t) ++ [unread s])
}.

(** Two splits of the same bytes into PDUs agree as far as both go. *)
Lemma complete_lists m l1 l2 x y :
  Forall (complete m) l1 -> Forall (complete m) l2 -> concat l1 ++ x = concat l2 ++ y ->
  l1 `prefix_of` l2 \/ l2 `prefix_of` l1.
Proof.
  revert l2. induction l1 as [|a l1 IH]; intros l2 H1 H2 E; [left; apply prefix_nil|].
  destruct l2 as [|b l2]; [right; apply prefix_nil|].
  inversion H1 as [|? ? Ha H1']; inversion H2 as [|? ? Hb H2']; subst. cbn [concat] in E. rewrite <- !app_assoc in E.
  destruct (complete_unique m a b _ _ Ha Hb E) as [-> E']. destruct (IH l2 H1' H2' E') as [H|H]; [left|right]; by apply prefix_cons.
Qed.

(** Less than a PDU contains no PDU. *)
Lemma partial_no_pdu m k x bs : partial_pdu m bs -> Forall (complete m) k -> bs = concat k ++ x -> k = [].
Proof.
  intros [_ Hp] Hk ->. destruct k as [|a k]; [done|]. apply Forall_cons in Hk as [Ha _]. exfalso. cbn [concat] in Hp.
  rewrite <- app_assoc in Hp. specialize (Hp (zlen a)). rewrite mode_length_mono, zlen_app in Hp by (by rewrite Ha).
  specialize (Hp Ha). pose proof (zlen_nonneg (concat k ++ x)). lia.
Qed.

Section receiving.
Context {W : Type} `{HB : !FrontBio W} `{HL : !FrontBioLaws W} `{HM : Malloc}.
Context `{HP : !StreamPools W} `{HR : !Receiver} `{HRL : !ReceiveLaws W}.
Implicit Types (t : rdpTransport W).

(** The transport is between two calls: a PDU is being collected. *)
Definition receiving t : Prop :=
  earlyUserAuth t = false /\ exists s, ReceiveBuffer t = Some s /\ collecting (mode_of t) s.

(** All bytes that were not handed on. *)
Definition backlog t : list Z :=
  match ReceiveBuffer t with Some s => pending t s | None => inbox (bio t) end.

(** Why a call hands nothing on: the BIO had no byte for the rest of the PDU, or the PDU has no more bytes
    than its header. *)
Definition unfinished t : Prop :=
  exists s, ReceiveBuffer t = Some s /\
    ((blocking t = false /\ stalled t /\ partial_pdu (mode_of t) (held s)) \/
     (AadMode t = false /\ complete (mode_of t) (held s))).

Definition check_post t (r : Z) t' : Prop :=
  r <> -1 ->
  mode_of t' = mode_of t /\ receiving t' /\
  ((history (bio t') = history (bio t) /\ backlog t' = backlog t /\ unfinished t') \/
   exists pdu, complete (mode_of t) pdu /\ history (bio t') = history (bio t) ++ [pdu] /\
     backlog t = pdu ++ backlog t').

Lemma release_wp t s (Q : unit * wStream -> rdpTransport W -> Prop) :
  (forall s' w, inbox w = inbox (bio t) -> history w = history (bio t) -> Q (tt, s') (t <| bio := w |>)) ->
  wp True (with_s s Stream_Release) t Q.
Proof.
  intros HQ. unfold wp, with_s, Stream_Release, pbind, pget. cbn [fst snd].
  assert (Hsame : t = t <| bio := bio t |>) by (by destruct t).
  destruct (pool s) as [i|]; [|unfold pret; rewrite Hsame; by apply HQ].
  set (s' := if 0 <? count s then _ else s). unfold pput. destruct (count s' =? 0).
  - destruct (remove_law s' (bio t)) as ([] & w & E & Hi & Hh). unfold tbio, on_bio, pzoom. cbn [fst snd]. rewrite E. by apply HQ.
  - unfold pret. rewrite Hsame. by apply HQ.
Qed.

Lemma modes_receive t t' : modes t' = modes t -> receive_state t' = receive_state t.
Proof. unfold modes, receive_state. intros E. injection E. congruence. Qed.
Lemma receive_mode t t' : receive_state t' = receive_state t -> mode_of t' = mode_of t.
Proof. unfold receive_state, mode_of. intros E. by injection E as -> -> -> _ _. Qed.

Lemma hand_over_wp t t1 s1 pdu :
  receive_state t1 = receive_state t -> earlyUserAuth t = false -> complete (mode_of t) pdu -> unread s1 = pdu ->
  wp True (hand_over s1) (t1 <| ReceiveBuffer := Some s1 |>) (fun r t' => r <> -1 ->
    mode_of t' = mode_of t /\ receiving t' /\ history (bio t') = history (bio t1) ++ [pdu] /\ backlog t' = inbox (bio t1)).
Proof.
  intros Hrs Hearly Hc Hu. destruct (take_law 0 (bio t1)) as (new & w & E & Hi & Hhw & Hnew). set (t2 := t1 <| ReceiveBuffer := _ |>).
  apply (wp_step _ _ _ _ new (t2 <| bio := w |>)); [unfold pzoom; cbn; by rewrite E|].
  apply wp_pmodify. destruct new as [sn|]; [|by apply wp_pret].
  set (t3 := _ <| ReceiveBuffer := Some sn |>). apply wp_bind.
  destruct (callback_law t3 s1) as (rc & [t4 s4] & E4 & Hrs4 & Hi4 & Hh4). cbn [fst snd] in *.
  eapply wp_eq; [unfold with_s; by rewrite E4|]. cbn beta iota. apply wp_bind, release_wp. intros s5 w5 Hi5 Hh5.
  destruct (state_run_failed rc); [by apply wp_pret|]. apply wp_pmodify, wp_pret. intros _.
  set (t5 := t4 <| bio := w5 |>). set (t6 := if haveMoreBytesToRead t5 then t5 else _).
  assert (Hr6 : receive_state t6 = receive_state t5 /\ bio t6 = w5) by (unfold t6; by destruct (haveMoreBytesToRead t5)).
  destruct Hr6 as [Hr6 Hb6]. change (receive_state t5) with (receive_state t4) in Hr6. rewrite Hrs4 in Hr6.
  assert (Hm6 : mode_of t6 = mode_of t) by (rewrite (receive_mode _ _ Hr6); exact (receive_mode _ _ Hrs)).
  unfold receive_state in Hr6, Hrs. injection Hr6 as _ _ _ He6 HB6. injection Hrs as _ _ _ He _.
  destruct Hnew as [Hg Hp0]. assert (Hh0 : held sn = []) by (unfold held; rewrite Hp0; by apply ztake_0).
  split_and!; [done| | |].
  - split; [rewrite He6; by rewrite <- He in Hearly|]. exists sn. split; [exact HB6|].
    split_and!; [done| |intros _; rewrite Hh0; apply mode_length_nil]. intros n. by rewrite Hh0, mode_length_nil.
  - rewrite Hb6, Hh5, Hh4, Hu. f_equal. exact Hhw.
  - unfold backlog. rewrite HB6. unfold pending. cbn [ReceiveBuffer]. change (ReceiveBuffer t3) with (Some sn). cbn iota.
    rewrite Hh0, Hb6, Hi5, Hi4. exact Hi.
Qed.

Lemma check_fds_wp fuel t :
  receiving t -> zlen (backlog t) <= INT_MAX -> wp True (transport_check_fds fuel) t (check_post t).
Proof.
  intros (Hearly & s & Hs & Hcol) Hmax. assert (Hbl : backlog t = pending t s) by (unfold backlog; by rewrite Hs).
  rewrite Hbl in Hmax. unfold transport_check_fds. apply wp_pget.
  assert (Hread : wp True (read_receive_buffer fuel) t (fun r t1 => read_post t s r.1 (t1, r.2))).
  { apply wp_pget. rewrite Hs.
    pose proof (read_pdu_wp True fuel t s Hcol ltac:(by rewrite Hearly, orb_true_r) Hmax ltac:(by right)) as Hw.
    unfold wp, with_s in *. by destruct (transport_default_read_pdu _ _) as [[r [t1 s1]]| |]. }
  destruct (layer t).
  6: { apply wp_pmodify, wp_pret. intros Hr. done. }
  all: apply wp_bind; eapply wp_weaken; [exact Hread|]; clear Hread; intros [r s1] t1 _ (Hm & Hh & Hcase); cbn [fst snd] in *;
    apply wp_pmodify; pose proof (modes_receive _ _ Hm) as Hrs; pose proof (receive_mode _ _ Hrs) as Hmode;
    set (t2 := t1 <| ReceiveBuffer := Some s1 |>); unfold check_post; rewrite Hbl.
  all: destruct Hcase as [(Hr & pdu & Hp & Hc & -> & Hr1 & Hp1 & Hu1)|[(-> & Hp & Hcol1 & Hwhy)|(-> & _)]];
    [|apply wp_pmodify, wp_pret; intros Hne|by apply wp_pmodify, wp_pret].
  all: try (replace (zlen pdu <=? 0) with false by lia; eapply wp_weaken; [by apply (hand_over_wp t)|];
    cbn beta; intros rc t' _ Hpost Hne; destruct (Hpost Hne) as (H1 & H2 & H3 & H4);
    split_and!; [done|done|right; exists pdu; split_and!; [done|congruence|by rewrite Hp, H4]]).
  all: set (t3 := if haveMoreBytesToRead t2 then _ else t2);
    assert (Hr3 : receive_state t3 = receive_state t2 /\ bio t3 = bio t1 /\ blocking t3 = blocking t1) by (unfold t3; by destruct (haveMoreBytesToRead t2));
    destruct Hr3 as (Hr3 & Hb3 & Hbl3); assert (Hm3 : mode_of t3 = mode_of t) by (rewrite (receive_mode _ _ Hr3); exact Hmode);
    unfold receive_state in Hr3, Hrs; injection Hr3 as _ _ Ha3 He3 HB3; injection Hrs as _ _ Ha He _;
    split_and!; [done|split; [rewrite He3; by rewrite <- He in Hearly|exists s1; by rewrite Hm3]|left; rewrite Hb3; split; [done|]];
    split; [unfold backlog; rewrite HB3; unfold pending in *; rewrite Hb3; symmetry; exact Hp|];
    exists s1; split; [exact HB3|]; unfold stalled; rewrite Hm3, Hb3, Hbl3, (modes_blocking _ _ Hm), Ha3;
    change (AadMode t2) with (AadMode t1); rewrite Ha; by destruct Hwhy as [?|(? & ? & _)]; [left|right].
Qed.

(** A call that did not fail. *)
Definition checks (fuel : nat) t t' : Prop := exists r, transport_check_fds fuel t = Ret (r, t') /\ r <> -1.

Lemma checks_split fuel t t' :
  rtc (checks fuel) t t' -> receiving t -> zlen (backlog t) <= INT_MAX ->
  exists pdus, history (bio t') = history (bio t) ++ pdus /\ Forall (complete (mode_of t)) pdus /\
    backlog t = concat pdus ++ backlog t' /\ receiving t'.
Proof.
  induction 1 as [t|t t1 t2 (r & E & Hne) _ IH]; intros Hrec Hmax.
  { exists []. rewrite app_nil_r. by split_and!. }
  destruct (wp_ret _ _ _ _ _ _ (check_fds_wp fuel t Hrec Hmax) E Hne) as (Hm & Hrec1 & Hcase).
  destruct Hcase as [(Hh & Hb & _)|(pdu & Hc & Hh & Hb)].
  - destruct (IH Hrec1 ltac:(by rewrite Hb)) as (pdus & H1 & H2 & H3 & H4). exists pdus.
    rewrite <- Hh, <- Hb, <- Hm. by split_and!.
  - rewrite Hb, zlen_app in Hmax. pose proof (zlen_nonneg pdu).
    destruct (IH Hrec1 ltac:(lia)) as (pdus & H1 & H2 & H3 & H4). exists (pdu :: pdus). split_and!; [|constructor; [done|by rewrite <- Hm]| |done].
    + by rewrite H1, Hh, <- app_assoc.
    + cbn [concat]. by rewrite Hb, H3, <- app_assoc.
Qed.

(** A further call fails, hands the next PDU on, or has a reason not to. *)
Definition goes_on (fuel : nat) t : Prop :=
  forall r t', transport_check_fds fuel t = Ret (r, t') -> r <> -1 ->
    (exists pdu, history (bio t') = history (bio t) ++ [pdu] /\ backlog t = pdu ++ backlog t') \/
    (history (bio t') = history (bio t) /\ backlog t' = backlog t /\ unfinished t').

Lemma receiving_goes_on fuel t : receiving t -> zlen (backlog t) <= INT_MAX -> goes_on fuel t.
Proof.
  intros Hrec Hmax r t' E Hne. destruct (wp_ret _ _ _ _ _ _ (check_fds_wp fuel t Hrec Hmax) E Hne) as (_ & _ & [?|(pdu & _ & ? & ?)]);
    [by right|left; by exists pdu].
Qed.
End receiving.


(** A pool of small buffers and a callback that keeps a log. *)
Definition scripted_pool : StreamPools script :=
  {| StreamPool_Take _ := pret (Some (blank_stream 16)); StreamPool_Remove _ := pret tt |}.
Definition scripted_receiver : Receiver (W := script) := fun p =>
  let w := bio p.1 in
  Ret (0, (p.1 <| bio := mkScript (pieces w) (sent w) (log w ++ [unread p.2]) |>, p.2)).
Lemma scripted_receive_laws :
  ReceiveLaws script (H := scripted_bio) (H0 := scripted_bio_laws) (StreamPools0 := scripted_pool) (HR := scripted_receiver).
Proof.
  split.
  - intros n w. eexists _, _. split; [reflexivity|]. split_and!; [done|done|by apply blank_stream_growable|done].
  - intros s w. by eexists _, _.
  - intros t s. eexists _, _. split; [reflexivity|]. by split_and!.
Qed.

Lemma transport_over_receiving b ps : receiving (W := script) (transport_over b ps).
Proof. split; [done|]. exists (blank_stream 16). split; [done|]. apply blank_collecting. Qed.

(** A call over a script. *)
Definition check_script (t : rdpTransport script) : outcome (Z * rdpTransport script) :=
  transport_check_fds (HB := scripted_bio) (HP := scripted_pool) (HR := scripted_receiver) (HM := malloc_all) 20 t.


Lemma check_script_checks t t' r :
  check_script t = Ret (r, t') -> r <> -1 ->
  checks (HB := scripted_bio) (HP := scripted_pool) (HR := scripted_receiver) (HM := malloc_all) 20 t t'.
Proof. intros E Hr. exists r. split; [exact E|done]. Qed.

Definition pieces_1 : list (list Z) := [[3; 0; 0; 7; 2; 240; 128; 0; 3]; [9]; []].
Definition pieces_2 : list (list Z) := [[3]; [0; 0; 7]; []; [2; 240; 128; 0; 3; 9]].

Lemma pieces_1_run : exists a1 a2, check_script (transport_over false pieces_1) = Ret (0, a1) /\ check_script a1 = Ret (0, a2) /\
  log (bio a2) = [[3; 0; 0; 7; 2; 240; 128]; [0; 3; 9]].
Proof. eexists _, _. split; [vm_compute; reflexivity|]. split; [vm_compute; reflexivity|reflexivity]. Qed.
Lemma pieces_2_run : exists b1 b2, check_script (transport_over false pieces_2) = Ret (0, b1) /\ check_script b1 = Ret (0, b2) /\
  log (bio b2) = [[3; 0; 0; 7; 2; 240; 128]].
Proof. eexists _, _. split; [vm_compute; reflexivity|]. split; [vm_compute; reflexivity|reflexivity]. Qed.


(** ** What does not work *)

(** What a call over a script leaves in the buffer. *)
Definition buffered (o : outcome (Z * rdpTransport script)) : option (Z * option (list Z) * list (list Z)) :=
  match o with Ret (r, t) => Some (r, option_map held (ReceiveBuffer t), log (bio t)) | _ => None end.
Definition then_check (o : outcome (Z * rdpTransport script)) : outcome (Z * rdpTransport script) :=
  match o with Ret (_, t) => check_script t | _ => o end.

(** A PDU that consists of its header is never delivered: the read of its remaining 0 bytes returns
    0, which means that bytes are missing.  A first byte other than 0x30 in NLA mode means that
    bytes are missing too, whatever follows.  A result of early user authentication that arrives in
    two pieces is read again from its start behind the first piece.  When the pool has no buffer the
    receive buffer is NULL, and the next call fails an assertion. *)
Theorem transport_defects :
  (buffered (then_check (check_script (transport_over true [[0; 0x80; 3]]))) = Some (0, Some [0; 0x80; 3], []) /\
     complete ModeDefault [0; 0x80; 3]) /\
  (forall b bs, b <> 0x30 -> mode_length ModeNla (b :: bs) = NeedMore) /\
  buffered (then_check (check_script (transport_over false [[1; 0]; []; [0; 0; 7; 7; 7]] <| earlyUserAuth := true |>))) =
    Some (0, Some [], [[1; 0; 0; 0; 7; 7]]) /\
  (let check t := transport_check_fds (HB := scripted_bio)
     (HP := {| StreamPool_Take _ := pret None; StreamPool_Remove _ := pret tt |}) (HR := scripted_receiver) (HM := malloc_all) 20 t in
   match check (transport_over false [[0; 3; 9; 0; 3; 9]]) with Ret (r, t1) => r = -1 /\ check t1 = Abort | _ => False end).
Proof.
  split_and!; [vm_compute; reflexivity|reflexivity| |vm_compute; reflexivity|vm_compute; split; reflexivity].
  intros b bs Hb. cbn. by replace (b =? 48) with false by lia.
Qed.
