(* ===== verification/TransportWrite.v ===== *)
(** * Writing PDUs

    [transport_default_write] hands the bytes of a stream to the BIO, all of them or a prefix, in
    order, whatever the BIO accepts at a time. *)

From S2P Require Import Prelude Memory Stream Transport TransportPdu TransportRead.

(** A BIO accepts a prefix of what it is given; [outbox] are the bytes it accepted so far. *)
Class WriteLaws (W : Type) `{FrontBio W} `{StreamPools W} : Type := {
  outbox : W -> list Z;
  write_law bs w : runs (BIO_write bs) w (fun st w' => st <= zlen bs /\ outbox w' = outbox w ++ ztake st bs);
  wait_write_law w : runs BIO_wait_write w (fun _ w' => outbox w' = outbox w);
  flush_law w : runs BIO_flush w (fun _ w' => outbox w' = outbox w);
  pool_law s w : runs (StreamPool_Remove s) w (fun _ w' => outbox w' = outbox w)
}.

Section writing.
Context {W : Type} `{HB : !FrontBio W} `{HP : !StreamPools W} `{HL : !WriteLaws W}.
Implicit Types (t : rdpTransport W) (s : wStream) (bs : list Z).

Lemma tbio_run {A} (m : Prog W A) t s a w : m (bio t) = Ret (a, w) -> tbio m (t, s) = Ret (a, (t <| bio := w |>, s)).
Proof. intros E. unfold tbio, on_bio, pzoom. cbn [fst snd]. by rewrite E. Qed.

Lemma bio_same t : t = t <| bio := bio t |>.
Proof. by destruct t. Qed.

Lemma flush_loop_wp (H : Prop) fuel t s :
  H -> wp H (flush_loop fuel) (t, s) (fun _ p => exists w, p = (t <| bio := w |>, s) /\ outbox w = outbox (bio t)).
Proof.
  intros HH. revert t. induction fuel as [|fuel IH]; intros t; cbn [flush_loop]; apply wp_pget; cbn [fst];
    (destruct (BIO_write_blocked (bio t)); [|apply wp_pret; exists (bio t); split; [by rewrite <- bio_same|done]]).
  { done. }
  destruct (wait_write_law (bio t)) as (r & w1 & E1 & O1). eapply wp_step; [by apply tbio_run|].
  destruct (r <? 0); [apply wp_pret; by exists w1|].
  destruct (flush_law w1) as (r2 & w2 & E2 & O2). eapply wp_step; [by apply tbio_run|].
  assert (O3 : outbox w2 = outbox (bio t)) by congruence.
  destruct (r2 <? 1); [apply wp_pret; by exists w2|].
  eapply wp_weaken; [apply IH|]. intros b p _ (w & -> & Hw). exists w. split; [done|]. by rewrite Hw.
Qed.

(** What the loop does with [length] bytes at the cursor. *)
Definition loop_post (length status : Z) t s (r : Z * bool) (p : rdpTransport W * wStream) : Prop :=
  exists k k' w, p = (t <| bio := w |>, advance s k') /\ 0 <= k' <= k /\ k <= length /\
    outbox w = outbox (bio t) ++ ztake k (zdrop (pointer s) (buffer s)) /\
    (if r.2 then k' = length /\ (0 < length -> 0 < r.1) /\ (length = 0 -> r.1 = status) else r.1 <= 0).

Lemma write_loop_wp (H : Prop) fuel length status t s :
  stream_ok s -> 0 <= length <= room s -> length <= INT_MAX ->
  (blocking t = false /\ WaitForOutputBufferFlush t = false /\ length <= Z.of_nat fuel) \/ H ->
  wp H (write_loop fuel length status) (t, s) (loop_post length status t s).
Proof.
  revert length status t s. induction fuel as [|fuel IH]; intros length status t s Hs Hlen Hmax Hf; cbn [write_loop];
    pose proof Hs as [Hbuf Hcap Hsl Hpos Hby]; unfold room in Hlen.
  all: destruct (0 <? length) eqn:El; [|apply wp_pret; exists 0, 0, (bio t); rewrite advance_0, <- bio_same;
    split_and!; [done|lia|lia|lia|by rewrite ztake_0, app_nil_r by lia|cbn; lia]].
  { destruct Hf as [Hf|Hf]; [lia|done]. }
  rewrite i32_id by (unfold INT_MAX in *; lia).
  set (bs := ztake length (zdrop (pointer s) (buffer s))). assert (Hz : zlen bs = length) by (unfold bs; rewrite zlen_ztake, zlen_zdrop; lia).
  apply (wp_step _ _ _ _ bs (t, s)).
  { unfold on_s, pzoom. cbn [snd fst]. unfold load_bytes. by replace ((0 <=? pointer s) && _) with true by lia. }
  destruct (write_law bs (bio t)) as (st & w1 & E1 & Hst & O1). eapply wp_step; [by apply tbio_run|].
  apply wp_pget. cbn [fst snd]. set (t1 := t <| bio := w1 |>).
  assert (Hk : ztake st bs = ztake (Z.max 0 st) (zdrop (pointer s) (buffer s))).
  { unfold bs. rewrite ztake_ztake. destruct (decide (st <= 0)); [by rewrite !ztake_0 by lia|f_equal; lia]. }
  rewrite Hk in O1.
  destruct (st <=? 0) eqn:Est.
  - assert (O1' : outbox w1 = outbox (bio t)) by (rewrite O1, ztake_0, app_nil_r by lia; done).
    assert (Hout : forall w r, outbox w = outbox (bio t) -> r <= 0 -> loop_post length status t s (r, false) (t <| bio := w |>, s)).
    { intros w r Ow Hr. exists 0, 0, w. rewrite advance_0, ztake_0, app_nil_r by lia. by split_and!; try lia. }
    destruct (BIO_should_retry (bio t1)); cbn [negb]; [|by apply wp_pret, Hout; [|lia]].
    destruct (blocking t1) eqn:Ebl; cbn [negb]; [|by apply wp_pret, Hout; [|lia]].
    destruct (wait_write_law w1) as (rc & w2 & E2 & O2). eapply wp_step; [by apply tbio_run|].
    destruct (rc <? 0); [by apply wp_pret, Hout; [congruence|]|].
    destruct Hf as [[Hf _]|Hf]; [unfold t1 in Ebl; cbn in Ebl; congruence|].
    eapply wp_weaken; [apply (IH length st); [done|unfold room; lia|lia|by right]|].
    intros [r b] p _ (k & k' & w & -> & Hkk & Hkl & Ow & Hr). cbn [bio] in Ow. exists k, k', w. split_and!; try done; try lia.
    + rewrite Ow. change (bio (t1 <| bio := w2 |>)) with w2. by rewrite O2, O1'.
    + cbn [fst snd] in *. destruct b; [|done]. lia.
  - rewrite Z.max_r in O1 by lia.
    apply wp_bind. eapply (wp_weaken _ _ _ (fun _ p => exists w, p = (t <| bio := w |>, s) /\ outbox w = outbox w1)).
    { destruct (blocking t1 || WaitForOutputBufferFlush t1) eqn:Eb.
      - destruct Hf as [(H1 & H2 & _)|Hf]; [unfold t1 in Eb; cbn in Eb; by rewrite H1, H2 in Eb|].
        eapply wp_weaken; [by apply flush_loop_wp|]. intros _ p _ (w & -> & Ow). by exists w.
      - apply wp_pret. by exists w1. }
    intros ok p _ (w2 & -> & O2). destruct ok; cbn [negb].
    2: { apply wp_pret. exists st, 0, w2. rewrite advance_0. split_and!; try done; try lia. by rewrite O2. }
    apply (wp_step _ _ _ _ tt (t <| bio := w2 |>, advance s st)).
    { unfold on_s, pzoom. cbn [fst snd]. by rewrite seek_run by (done || (unfold room; lia)). }
    rewrite u64_id by lia.
    assert (Hs2 : stream_ok (advance s st)) by (split; cbn; done || lia).
    eapply wp_weaken; [apply (IH (length - st) st); [done|unfold room; cbn; lia|lia|]|].
    { destruct Hf as [(H1 & H2 & H3)|Hf]; [left|by right]. split_and!; [done|done|lia]. }
    intros [r b] p _ (k & k' & w & -> & Hkk & Hkl & Ow & Hr). cbn [bio pointer advance set_pointer buffer] in Ow.
    exists (st + k), (st + k'), w. rewrite advance_advance. split_and!; try done; try lia.
    + rewrite Ow. change (bio (t <| bio := w2 |>)) with w2. rewrite O2, O1, <- app_assoc. f_equal.
      set (x := zdrop (pointer s) (buffer s)). assert (Hx : st <= zlen x) by (unfold x; rewrite zlen_zdrop; lia).
      rewrite <- (ztake_zdrop_app st x) at 2. rewrite ztake_app, (ztake_all _ (ztake st x)) by (rewrite zlen_ztake; lia).
      f_equal. unfold x. rewrite zlen_ztake, zdrop_zdrop by lia. fold x. f_equal; [lia|f_equal; lia].
    + cbn [fst snd] in *. destruct b; lia.
Qed.

(** What writing leaves alone. *)
Definition receive_fields t :=
  (NlaMode t, RdstlsMode t, AadMode t, earlyUserAuth t, blocking t, ReceiveBuffer t, haveMoreBytesToRead t,
   rereadEvent t, inBytes t, WaitForOutputBufferFlush t).

(** Enough rounds for the bytes, where no waiting is involved. *)
Definition quick (fuel : nat) t s : Prop :=
  blocking t = false /\ WaitForOutputBufferFlush t = false /\ pointer s <= Z.of_nat fuel.

(** [k] bytes were accepted. *)
Definition accepted t s (r : Z) t' s' : Prop :=
  exists k, 0 <= k <= zlen (held s) /\ outbox (bio t') = outbox (bio t) ++ ztake k (held s) /\
    (0 < r -> k = zlen (held s) /\ pointer s' = pointer s /\ written t' = u32 (written t + k) /\
       outBytes t' = u64 (outBytes t + k)) /\
    (r <= 0 -> held s <> [] -> written t' = written t).

Lemma write_all_wp (H : Prop) fuel t s :
  stream_ok s -> pointer s <= INT_MAX -> quick fuel t s \/ H ->
  wp H (write_all fuel) (t, s) (fun r p =>
    let '(t', s') := p in
    (exists c, s' = set_pointer c s /\ 0 <= c <= capacity s) /\ layer t' = layer t /\ WriteLock t' = WriteLock t /\
    receive_fields t' = receive_fields t /\ accepted t s r t' s').
Proof.
  intros Hs Hmax Hf. pose proof Hs as [Hbuf Hcap Hsl Hpos Hby]. pose proof (zlen_held s Hs) as Hz.
  apply wp_pget. cbn [fst]. destruct (front_present (bio t)); cbn [negb].
  2: { apply wp_pret. split_and!; [exists (pointer s); by destruct s|done|done|done|]. exists 0.
       rewrite ztake_0, app_nil_r by lia. split_and!; done || lia. }
  apply wp_bind, wp_on_s, (wp_eq _ _ _ _ _ _ (position_spec s Hs)).
  apply wp_bind, wp_on_s, (wp_eq _ _ _ _ _ _ (set_position_run s 0 Hs ltac:(lia))).
  set (s0 := set_pointer 0 s). assert (Hs0 : stream_ok s0) by (apply set_pointer_ok; [done|lia]).
  apply wp_bind. eapply (wp_weaken _ _ _ (fun _ p => exists ob, p = (t <| outBytes := ob |>, s0) /\
    (0 < pointer s -> ob = u64 (outBytes t + pointer s)))).
  { destruct (0 <? pointer s) eqn:E; [|apply wp_pret; exists (outBytes t); split; [by destruct t|lia]].
    eapply wp_eq; [reflexivity|]. by eexists. }
  intros _ p _ (ob & -> & Hob). set (t1 := t <| outBytes := ob |>).
  apply wp_bind. eapply wp_weaken; [apply (write_loop_wp H fuel (pointer s) (-1) t1 s0 Hs0); [unfold room; cbn; lia|done|]|].
  { destruct Hf as [(? & ? & ?)|]; [left|by right]. by split_and!. }
  intros [r done] p _ (k & k' & w & -> & Hkk & Hkl & Ow & Hr). cbn [fst snd] in Hr.
  assert (Ow' : outbox w = outbox (bio t) ++ ztake k (held s)).
  { rewrite Ow. change (bio t1) with (bio t). f_equal. change (pointer s0) with 0. change (buffer s0) with (buffer s).
    rewrite zdrop_0 by lia. unfold held. rewrite ztake_ztake. f_equal. lia. }
  assert (Hc : exists c, advance s0 k' = set_pointer c s /\ 0 <= c <= capacity s) by (exists k'; split; [done|lia]).
  destruct done.
  - destruct Hr as (-> & Hpos1 & Hzero). apply (wp_step _ _ _ _ tt (t1 <| bio := w |> <| written := u32 (written t + i32 (pointer s)) |>, advance s0 (pointer s))); [done|].
    assert (k = pointer s) as -> by lia. rewrite i32_id by (unfold INT_MAX in *; lia).
    apply wp_pret. split_and!; [done|done|done|done|]. exists (pointer s). split_and!; [lia|lia|exact Ow'| |].
    + intros Hr. assert (0 < pointer s) by (destruct (decide (pointer s = 0)) as [E|]; [specialize (Hzero E); lia|lia]).
      split_and!; [lia|done|done|]. change (ob = u64 (outBytes t + pointer s)). auto.
    + intros Hr Hne. destruct (decide (pointer s = 0)) as [E|]; [|specialize (Hpos1 ltac:(lia)); lia].
      exfalso. apply Hne, zlen_0_nil. lia.
  - apply (wp_step _ _ _ _ tt (t1 <| bio := w |>, advance s0 k')); [done|]. apply wp_pret. split_and!; [done|done|done|done|].
    exists k. split_and!; [lia|lia|exact Ow'|lia|done].
Qed.

Lemma close_layer_fields t :
  receive_fields (close_layer t) = receive_fields t /\ bio (close_layer t) = bio t /\ layer (close_layer t) = TRANSPORT_LAYER_CLOSED /\
  WriteLock (close_layer t) = WriteLock t /\ written (close_layer t) = written t /\ outBytes (close_layer t) = outBytes t.
Proof. unfold close_layer, freerdp_set_last_error_if_not. cbn. by destruct (LastError _ =? _). Qed.

(** The reference that was taken is given back. *)
Lemma release_run t s :
  pool s = None \/ 0 < count s ->
  exists w, Stream_Release (t, s) = Ret (tt, (t <| bio := w |>, match pool s with Some _ => set_count (count s - 1) s | None => s end)) /\
    outbox w = outbox (bio t).
Proof.
  intros Hc. unfold Stream_Release, pbind, pget. cbn [snd fst].
  destruct (pool s) as [i|] eqn:Ep; [|exists (bio t); rewrite <- bio_same; done].
  destruct Hc as [|Hc]; [done|]. replace (0 <? count s) with true by lia. unfold pput. set (s1 := set_count (count s - 1) s).
  destruct (count s1 =? 0); [|exists (bio t); rewrite <- bio_same; done].
  destruct (pool_law s1 (bio t)) as ([] & w & E & Ow). exists w. by rewrite (tbio_run _ _ _ _ _ E).
Qed.

Lemma default_write_wp (H : Prop) fuel t s :
  stream_ok s -> 0 <= count s -> pointer s <= INT_MAX -> quick fuel t s \/ H ->
  wp H (transport_default_write fuel) (t, s) (fun r p =>
    let '(t', s') := p in
    buffer s' = buffer s /\ slength s' = slength s /\ count s' = count s /\ WriteLock t' = WriteLock t /\
    receive_fields t' = receive_fields t /\ accepted t s r t' s' /\
    layer t' = if r <? 0 then TRANSPORT_LAYER_CLOSED else layer t).
Proof.
  intros Hs Hc Hmax Hf. unfold transport_default_write.
  set (s1 := match pool s with Some _ => set_count (count s + 1) s | None => s end).
  assert (Hs1 : stream_ok s1 /\ held s1 = held s /\ pointer s1 = pointer s /\ (pool s1 = None \/ 0 < count s1))
    by (unfold s1; destruct (pool s) as [i|] eqn:Ep; split_and!; try done; cbn; try (right; lia); [by destruct Hs|by left]).
  destruct Hs1 as (Hs1 & Hh1 & Hp1 & Hc1).
  apply (wp_step _ _ _ _ tt (t, s1)); [done|].
  apply (wp_step _ _ _ _ tt (t <| WriteLock := WriteLock t + 1 |>, s1)); [done|]. set (t1 := t <| WriteLock := _ |>).
  apply wp_bind. eapply wp_weaken; [apply (write_all_wp H fuel t1 s1); [done|lia|]|].
  { destruct Hf as [(? & ? & ?)|]; [left|by right]. split_and!; [done|done|lia]. }
  intros r [t2 s2] _ ((c & -> & Hcc) & Hlay & Hlock & Hrf & k & Hk & Ow & Hgood & Hbad).
  rewrite Hh1, Hp1 in *.
  set (t3 := if r <? 0 then close_layer t2 else t2).
  apply (wp_step _ _ _ _ tt (t3, set_pointer c s1)); [unfold t3; by destruct (r <? 0)|].
  assert (H3 : receive_fields t3 = receive_fields t2 /\ bio t3 = bio t2 /\ WriteLock t3 = WriteLock t2 /\ written t3 = written t2 /\
    outBytes t3 = outBytes t2 /\ layer t3 = if r <? 0 then TRANSPORT_LAYER_CLOSED else layer t2).
  { unfold t3. destruct (close_layer_fields t2) as (? & ? & ? & ? & ? & ?). destruct (r <? 0); by split_and!. }
  destruct H3 as (F1 & F2 & F3 & F4 & F5 & F6).
  apply (wp_step _ _ _ _ tt (t3 <| WriteLock := WriteLock t3 - 1 |>, set_pointer c s1)); [done|]. set (t4 := t3 <| WriteLock := _ |>).
  destruct (release_run t4 (set_pointer c s1)) as (w & E & Ow4); [exact Hc1|]. apply (wp_step _ _ _ _ _ _ _ E), wp_pret.
  set (s3 := match pool (set_pointer c s1) with Some _ => _ | None => _ end).
  assert (Hs3 : buffer s3 = buffer s /\ slength s3 = slength s /\ count s3 = count s /\ pointer s3 = c).
  { unfold s3, s1. destruct s as [? ? ? ? ? [|] ? ?]; cbn; split_and!; try done; lia. }
  destruct Hs3 as (B1 & B2 & B3 & B4). split_and!; [done|done|done| | | |].
  - change (WriteLock t3 - 1 = WriteLock t). rewrite F3, Hlock. unfold t1. cbn. lia.
  - change (receive_fields t3 = receive_fields t). by rewrite F1, Hrf.
  - exists k. split_and!; [lia|lia| | |].
    + change (bio (t4 <| bio := w |>)) with w. rewrite Ow4. change (bio t4) with (bio t3). by rewrite F2.
    + intros Hr. destruct (Hgood Hr) as (G1 & G2 & G3 & G4). change (written (t4 <| bio := w |>)) with (written t3).
      change (outBytes (t4 <| bio := w |>)) with (outBytes t3). rewrite B4, F4, F5. by split_and!.
    + intros Hr Hne. change (written (t4 <| bio := w |>)) with (written t3). rewrite F4. by apply Hbad.
  - change (layer (t4 <| bio := w |>)) with (layer t3). rewrite F6, Hlay. done.
Qed.

(** BIOs that take whatever they are given, keep nothing back, and stay so. *)
Definition takes_all (E : W -> Prop) : Prop :=
  forall w, E w -> front_present w = true /\ forall bs, exists w', BIO_write bs w = Ret (zlen bs, w') /\ BIO_write_blocked w' = false /\ E w'.

Lemma write_loop_eager E fuel length status t s :
  takes_all E -> E (bio t) -> stream_ok s -> 0 < length <= room s -> length <= INT_MAX ->
  exists w, E w /\ write_loop fuel length status (t, s) =
    match fuel with O => Hang | S _ => Ret ((length, true), (t <| bio := w |>, advance s length)) end.
Proof.
  intros HE Ht Hs Hlen Hmax. destruct fuel as [|fuel].
  { exists (bio t). split; [done|]. cbn [write_loop]. by replace (0 <? length) with true by lia. }
  pose proof Hs as [Hbuf Hcap Hsl Hpos Hby]. unfold room in Hlen.
  set (bs := ztake length (zdrop (pointer s) (buffer s))). assert (Hz : zlen bs = length) by (unfold bs; rewrite zlen_ztake, zlen_zdrop; lia).
  destruct (HE _ Ht) as [_ HE1]. destruct (HE1 bs) as (w & E1 & Hb & Hw1). rewrite Hz in E1. exists w. split; [done|].
  cbn [write_loop]. replace (0 <? length) with true by lia. rewrite i32_id by (unfold INT_MAX in *; lia).
  rewrite (pbind_ret _ _ _ bs (t, s)) by (unfold on_s, pzoom, load_bytes; cbn [snd fst]; by replace ((0 <=? pointer s) && _) with true by lia).
  rewrite (pbind_ret _ _ _ _ _ (tbio_run _ _ s _ _ E1)), pbind_pget. cbn [fst].
  replace (length <=? 0) with false by lia.
  rewrite (pbind_ret _ _ _ true (t <| bio := w |>, s)) by (destruct (_ || _); [destruct fuel; cbn; by rewrite Hb|done]). cbn [negb].
  rewrite (pbind_ret _ _ _ tt (t <| bio := w |>, advance s length))
    by (unfold on_s, pzoom; cbn [fst snd]; by rewrite seek_run by (done || (unfold room; lia))).
  rewrite u64_id, Z.sub_diag by lia. by destruct fuel.
Qed.

(** A write to such a BIO succeeds with the whole stream. *)
Lemma default_write_eager E fuel t s :
  takes_all E -> E (bio t) -> stream_ok s -> pool s = None -> 0 < pointer s <= INT_MAX ->
  exists t' s', E (bio t') /\ transport_default_write fuel (t, s) = match fuel with O => Hang | S _ => Ret (pointer s, (t', s')) end.
Proof.
  intros HE Ht Hs Hpool Hmax. pose proof Hs as [Hbuf Hcap Hsl Hpos Hby].
  set (t1 := t <| WriteLock := WriteLock t + 1 |> <| outBytes := u64 (outBytes t + pointer s) |>). set (s0 := set_pointer 0 s).
  assert (Hs0 : stream_ok s0) by (apply set_pointer_ok; [done|lia]).
  destruct (write_loop_eager E fuel (pointer s) (-1) t1 s0 HE Ht Hs0 ltac:(unfold room; cbn; lia) ltac:(lia)) as (w & Hw1 & El).
  set (t2 := t1 <| bio := w |> <| written := u32 (written t + i32 (pointer s)) |>). set (s2 := advance s0 (pointer s)).
  exists (t2 <| WriteLock := WriteLock t + 1 - 1 |>), s2. split; [exact Hw1|].
  unfold transport_default_write. rewrite (pbind_ret _ _ _ tt (t, s)) by (unfold on_s, pzoom, Stream_AddRef, pmodify; cbn; by rewrite Hpool).
  rewrite (pbind_ret _ _ _ tt (t <| WriteLock := WriteLock t + 1 |>, s)) by done.
  assert (Ea : write_all fuel (t <| WriteLock := WriteLock t + 1 |>, s) = match fuel with O => Hang | S _ => Ret (pointer s, (t2, s2)) end).
  { unfold write_all. rewrite pbind_pget. cbn [fst]. change (bio (t <| WriteLock := WriteLock t + 1 |>)) with (bio t).
    destruct (HE _ Ht) as [-> _]. cbn [negb].
    rewrite (pbind_ret _ _ _ (pointer s) (t <| WriteLock := WriteLock t + 1 |>, s)) by (unfold on_s, pzoom; cbn [fst snd]; by rewrite position_spec).
    rewrite (pbind_ret _ _ _ true (t <| WriteLock := WriteLock t + 1 |>, s0)) by (unfold on_s, pzoom; cbn [fst snd]; by rewrite (set_position_run s 0 Hs ltac:(lia))).
    replace (0 <? pointer s) with true by lia. rewrite (pbind_ret _ _ _ tt (t1, s0)) by done.
    unfold pbind at 1. rewrite El. by destruct fuel. }
  destruct fuel as [|fuel]; [unfold pbind at 1; by rewrite Ea|]. rewrite (pbind_ret _ _ _ _ _ Ea). replace (pointer s <? 0) with false by lia. rewrite pbind_pret.
  rewrite (pbind_ret _ _ _ tt (t2 <| WriteLock := WriteLock t + 1 - 1 |>, s2)) by done.
  unfold Stream_Release, pbind, pget. cbn [snd fst]. change (pool s2) with (pool s). by rewrite Hpool.
Qed.
End writing.

(** C25: [transport_default_write] conserves the bytes it is given.  For every BIO and every number
    of rounds it stops at no assertion and reads nothing outside of the stream; a non-blocking
    transport always returns.  The BIO has accepted a prefix of the bytes in front of the cursor,
    in order; after a positive result all of them, and they are counted; after a negative result the
    layer is closed.  The stream keeps its bytes, its length and its references, the write lock is
    released, and what belongs to receiving does not change. *)
Theorem transport_write_conserves {W : Type} `{HB : !FrontBio W} `{HP : !StreamPools W} `{HL : !WriteLaws W}
    (fuel : nat) (t : rdpTransport W) (s : wStream) :
  stream_ok s -> 0 <= count s -> pointer s <= INT_MAX ->
  wp (~ quick fuel t s) (transport_default_write fuel) (t, s) (fun r p =>
    let '(t', s') := p in
    buffer s' = buffer s /\ slength s' = slength s /\ count s' = count s /\ WriteLock t' = WriteLock t /\
    receive_fields t' = receive_fields t /\ accepted t s r t' s' /\
    layer t' = if r <? 0 then TRANSPORT_LAYER_CLOSED else layer t).
Proof.
  intros Hs Hc Hm. apply default_write_wp; [done|done|done|]. unfold quick.
  destruct (decide (blocking t = false)); [|right; tauto].
  destruct (decide (WaitForOutputBufferFlush t = false)); [|right; tauto].
  destruct (decide (pointer s <= Z.of_nat fuel)); [left|right]; tauto.
Qed.

(** The BIO of a script accepts everything. *)
#[refine] Definition scripted_write_laws (HP : StreamPools script) (Hrm : forall s w, StreamPool_Remove s w = Ret (tt, w)) :
  WriteLaws script (H := scripted_bio) (H0 := HP) := {| outbox := sent |}.
Proof.
  - intros bs w. eexists _, _. split; [reflexivity|]. cbn. by rewrite ztake_all by lia.
  - intros w. by eexists _, _.
  - intros w. by eexists _, _.
  - intros s w. eexists _, _. by rewrite Hrm.
Defined.

Definition no_pool : StreamPools script := {| StreamPool_Take _ := pret None; StreamPool_Remove _ := pret tt |}.

Lemma transport_write_conserves_witness :
  exists t' s', transport_default_write (HB := scripted_bio) (HP := no_pool) 4
      (transport_over false [], mkStream [1; 2; 3; 4] 3 4 4 0 None true true) = Ret (3, (t', s')) /\
    sent (bio t') = [1; 2; 3] /\ pointer s' = 3.
Proof.
  pose proof (transport_write_conserves (HB := scripted_bio) (HL := scripted_write_laws no_pool (fun _ _ => eq_refl)) 4
    (transport_over false []) (mkStream [1; 2; 3; 4] 3 4 4 0 None true true)) as Hw.
  assert (Hok : stream_ok (mkStream [1; 2; 3; 4] 3 4 4 0 None true true)).
  { split; cbn; try lia; [done|]. repeat constructor; unfold is_byte; lia. }
  specialize (Hw Hok ltac:(done) ltac:(done)). unfold wp in Hw.
  destruct (transport_default_write 4 _) as [[r [t' s']]| |] eqn:E.
  - revert E. vm_compute. intros [= <- <- <-]. eexists _, _. split; [reflexivity|]. split; reflexivity.
  - destruct Hw.
  - exfalso. revert E. vm_compute. discriminate.
Defined.
