(* ===== verification/Readers.v ===== *)
(** * Readers that fill an object

    The receiving functions of the core read a stream and store what they find in an object.
    Their state is a pair of the object and the stream.  This file lifts the programs on streams
    and the two properties proved of readers (no reader leaves the stream; what was written is
    read back) to such pairs. *)

From S2P Require Import Prelude Memory Stream.

(** A program on the stream beside some other state. *)
Definition at_s {S A} (m : Prog wStream A) : Prog (S * wStream) A := pzoom snd (fun s p => (p.1, s)) m.

(** A program on the object. *)
Definition upd_obj {S T} (f : S -> S) : Prog (S * T) unit := pmodify (fun p => (f p.1, p.2)).

(** A program on a stream of its own: its result and that stream. *)
Definition on_new {S A} (s : wStream) (m : Prog wStream A) : Prog S (A * wStream) := plift (m s).

(** [if (!rd) return FALSE;], with the value that was read, and without one. *)
Definition needs {S A} (m : Prog S (option A)) (k : A -> Prog S bool) : Prog S bool :=
  v <- m ;; match v with None => pret false | Some v => k v end.
Definition require {S} (m k : Prog S bool) : Prog S bool :=
  ok <- m ;; if negb ok then pret false else k.

(** ** Safety

    From a readable stream the program returns, the cursor stays within the received bytes, buffer
    and length are left alone, and result and object satisfy [Q].  Mostly [Q] is an invariant of the
    object. *)
Definition safe_res {S A} (Q : A -> S -> Prop) (m : Prog (S * wStream) A) (x : S) (s : wStream) : Prop :=
  exists a x' k, m (x, s) = Ret (a, (x', advance s k)) /\ 0 <= k <= zlen (unread s) /\ Q a x'.
Abbreviation safe_with I := (safe_res (fun _ => I)).

Section safety.
Context {S : Type}.
Implicit Types (x : S) (s : wStream) (I : S -> Prop).

Lemma safe_with_pret {A} (Q : A -> S -> Prop) (a : A) x s : Q a x -> readable s -> safe_res Q (pret a) x s.
Proof. intros Hx Hr. exists a, x, 0. rewrite advance_0. split_and!; [done|lia|zlist_lia|done]. Qed.

Lemma safe_res_bind {A B} (P : A -> S -> Prop) (Q : B -> S -> Prop) (m : Prog (S * wStream) A) (f : A -> Prog (S * wStream) B) x s :
  safe_res P m x s -> readable s ->
  (forall a x' k, P a x' -> readable (advance s k) -> safe_res Q (f a) x' (advance s k)) ->
  safe_res Q (pbind m f) x s.
Proof.
  intros (a & x1 & k & E & Hk & Hx) Hr Hf.
  destruct (Hf a x1 k Hx (readable_advance _ _ Hr Hk)) as (b & x2 & j & E2 & Hj & Hx2).
  rewrite unread_advance in Hj by (done || lia). exists b, x2, (k + j).
  unfold pbind. rewrite E, E2, advance_advance. split_and!; [done|lia|zlist_lia|done].
Qed.

Lemma safe_with_bind {A B} I (m : Prog (S * wStream) A) (f : A -> Prog (S * wStream) B) x s :
  safe_with I m x s -> readable s ->
  (forall a x' k, I x' -> readable (advance s k) -> safe_with I (f a) x' (advance s k)) ->
  safe_with I (pbind m f) x s.
Proof. apply safe_res_bind. Qed.

Lemma safe_res_weaken {A} (P Q : A -> S -> Prop) (m : Prog (S * wStream) A) x s :
  safe_res P m x s -> (forall a x', P a x' -> Q a x') -> safe_res Q m x s.
Proof. intros (a & x' & k & E & Hk & HP) H. exists a, x', k. auto. Qed.

Lemma safe_with_at_s {A} I (m : Prog wStream A) x s : I x -> safe_at m s -> safe_with I (at_s m) x s.
Proof. intros Hx (a & k & E & Hk). exists a, x, k. unfold at_s, pzoom. cbn. by rewrite E. Qed.

Lemma safe_with_upd {A} (Q : A -> S -> Prop) (f : S -> S) (k : Prog (S * wStream) A) x s :
  safe_res Q k (f x) s -> safe_res Q (upd_obj f ;; k) x s.
Proof. exact id. Qed.

Lemma safe_with_set I (f : S -> S) x s : I (f x) -> readable s -> safe_with I (upd_obj f) x s.
Proof. intros Hx Hr. exists tt, (f x), 0. rewrite advance_0. split_and!; [done|lia|zlist_lia|done]. Qed.

Lemma safe_with_pget {A} (Q : A -> S -> Prop) (f : S * wStream -> Prog (S * wStream) A) x s :
  safe_res Q (f (x, s)) x s -> safe_res Q (pbind pget f) x s.
Proof. exact id. Qed.

Lemma safe_with_needs {A} I (m : Prog (S * wStream) (option A)) f x s :
  safe_with I m x s -> readable s ->
  (forall a x' k, I x' -> readable (advance s k) -> safe_with I (f a) x' (advance s k)) ->
  safe_with I (needs m f) x s.
Proof. intros Hm Hr Hf. apply safe_with_bind; [done..|]. intros [a|] x' k Hx Hk; [auto|by apply safe_with_pret]. Qed.

Lemma safe_with_require I (m k : Prog (S * wStream) bool) x s :
  safe_with I m x s -> readable s ->
  (forall x' j, I x' -> readable (advance s j) -> safe_with I k x' (advance s j)) ->
  safe_with I (require m k) x s.
Proof. intros Hm Hr Hf. apply safe_with_bind; [done..|]. intros [|] x' j Hx Hk; [auto|by apply safe_with_pret]. Qed.

(** A value with a bound. *)
Lemma safe_with_post {A B} (Q : B -> S -> Prop) (m : Prog wStream A) (f : A -> Prog (S * wStream) B) (P : A -> Prop) x s :
  (exists a k, m s = Ret (a, advance s k) /\ 0 <= k <= zlen (unread s) /\ P a) -> readable s ->
  (forall a k, P a -> readable (advance s k) -> safe_res Q (f a) x (advance s k)) ->
  safe_res Q (pbind (at_s m) f) x s.
Proof.
  intros (a & k & E & Hk & HP) Hr Hf.
  destruct (Hf a k HP (readable_advance _ _ Hr Hk)) as (b & x2 & j & E2 & Hj & Hx2).
  rewrite unread_advance in Hj by (done || lia). exists b, x2, (k + j).
  unfold pbind, at_s, pzoom. cbn. rewrite E, E2, advance_advance. split_and!; [done|lia|zlist_lia|done].
Qed.
End safety.

(** ** Reading back *)

Section reading.
Context {S : Type}.
Implicit Types (x : S) (s : wStream).

Lemma at_s_ret {A} (m : Prog wStream A) x s a s' : m s = Ret (a, s') -> at_s m (x, s) = Ret (a, (x, s')).
Proof. intros E. unfold at_s, pzoom. cbn. by rewrite E. Qed.

(** The reader at the head of a program finds its bytes. *)
Lemma at_s_step {A B} (rd : Prog wStream A) (f : A -> Prog (S * wStream) B) x s bs r v :
  reads_back rd bs v -> readable s -> unread s = bs ++ r ->
  pbind (at_s rd) f (x, s) = f v (x, advance s (zlen bs)) /\
  readable (advance s (zlen bs)) /\ unread (advance s (zlen bs)) = r.
Proof.
  intros Hrd Hr Hu. destruct (step_reads _ _ _ _ _ Hrd Hr Hu) as (E & Hr' & Hu').
  split_and!; [|done|done]. by apply pbind_ret, at_s_ret.
Qed.

Lemma upd_step {A} (f : S -> S) (k : unit -> Prog (S * wStream) A) x s : pbind (upd_obj f) k (x, s) = k tt (f x, s).
Proof. reflexivity. Qed.
End reading.

(** Run the reader at the head of the goal by [H : reads_back ...]. *)
Ltac at_step H Hr Hu :=
  let E := fresh in let Hr' := fresh "Hr" in let Hu' := fresh "Hu" in
  destruct (at_s_step _ (fun _ => pret tt) tt _ _ _ _ H Hr Hu) as (_ & Hr' & Hu');
  rewrite (proj1 (at_s_step _ _ _ _ _ _ _ H Hr Hu)); clear Hr Hu; cbn beta iota.

(** ** Writers with room *)

Lemma writes_emits `{Malloc} wr bs : writes wr (zlen bs) bs -> emits_ret wr true bs.
Proof. intros [Hf _ _ Hb]. split; [done|]. intros s Hs Hfit. by apply Hf. Qed.

Lemma emits_require (m k : Prog wStream bool) x y :
  emits_ret m true x -> emits_ret k true y -> emits_ret (require m k) true (x ++ y).
Proof. intros Hm Hk. by eapply emits_bind. Qed.

(** The bytes of a fresh stream behind the ones that were stored do not matter to a reader. *)
Lemma put_new s bs : stream_ok s -> pointer s = 0 -> zlen bs <= capacity s -> ztake (zlen bs) (buffer (put_bytes s bs)) = bs.
Proof.
  intros Hs Hp Hfit. pose proof (ztake_put_bytes s bs Hs ltac:(unfold room; lia)) as E.
  by rewrite Hp, (ztake_0 _ (buffer s)) in E by lia.
Qed.

(** ** Steps that keep track of what is left *)

Section tracking.
Context {S A : Type} (Q : A -> S -> Prop).
Implicit Types (x : S) (s : wStream).

(** A step with a known outcome. *)
Lemma safe_res_move {B} (m : Prog (S * wStream) B) (f : B -> Prog (S * wStream) A) x s b x' k :
  m (x, s) = Ret (b, (x', advance s k)) -> readable s -> 0 <= k <= zlen (unread s) ->
  (readable (advance s k) -> zlen (unread (advance s k)) = zlen (unread s) - k -> safe_res Q (f b) x' (advance s k)) ->
  safe_res Q (pbind m f) x s.
Proof.
  intros E Hr Hk Hf. assert (Hr' : readable (advance s k)) by (by apply readable_advance).
  assert (Hl : zlen (unread (advance s k)) = zlen (unread s) - k) by (rewrite unread_advance by (done || lia); zlist_lia).
  destruct (Hf Hr' Hl) as (c & x2 & j & E2 & Hj & Hx2). exists c, x2, (k + j).
  rewrite (pbind_ret _ _ _ _ _ E), E2, advance_advance. split_and!; [done|lia|lia|done].
Qed.

(** A step that does not touch the stream. *)
Lemma safe_res_still {B} (m : Prog (S * wStream) B) (f : B -> Prog (S * wStream) A) x s b x' :
  m (x, s) = Ret (b, (x', s)) -> safe_res Q (f b) x' s -> safe_res Q (pbind m f) x s.
Proof. intros E. unfold safe_res. by rewrite (pbind_ret _ _ _ _ _ E). Qed.

Lemma safe_with_run {B} (m : Prog wStream B) (f : B -> Prog (S * wStream) A) x s b k :
  m s = Ret (b, advance s k) -> readable s -> 0 <= k <= zlen (unread s) ->
  (readable (advance s k) -> zlen (unread (advance s k)) = zlen (unread s) - k -> safe_res Q (f b) x (advance s k)) ->
  safe_res Q (pbind (at_s m) f) x s.
Proof. intros E. apply safe_res_move. by apply at_s_ret. Qed.

Lemma safe_with_check n (f : bool -> Prog (S * wStream) A) x s :
  readable s -> (n <= zlen (unread s) -> safe_res Q (f true) x s) -> (zlen (unread s) < n -> safe_res Q (f false) x s) ->
  safe_res Q (pbind (at_s (Stream_CheckAndLogRequiredLength n)) f) x s.
Proof.
  intros Hr H1 H2. unfold safe_res. rewrite (pbind_ret _ _ _ _ _ (at_s_ret _ x _ _ _ (check_length_spec s n Hr))).
  destruct (n <=? zlen (unread s)) eqn:E; [apply H1|apply H2]; lia.
Qed.

Lemma safe_with_remaining (f : Z -> Prog (S * wStream) A) x s :
  readable s -> safe_res Q (f (zlen (unread s))) x s -> safe_res Q (pbind (at_s Stream_GetRemainingLength) f) x s.
Proof.
  intros Hr Hf. unfold safe_res. by rewrite (pbind_ret _ _ _ _ _ (at_s_ret _ x _ _ _ (remaining_length_spec s Hr))).
Qed.

Lemma safe_with_u8 (f : Z -> Prog (S * wStream) A) x s :
  readable s -> 1 <= zlen (unread s) ->
  (forall v, is_byte v -> readable (advance s 1) -> zlen (unread (advance s 1)) = zlen (unread s) - 1 -> safe_res Q (f v) x (advance s 1)) ->
  safe_res Q (pbind (at_s (stream_read_u8 true)) f) x s.
Proof.
  intros Hr Hl Hf. destruct (unread s) as [|b r] eqn:Hu; [zlist_lia|].
  destruct (read_u8_spec s b r Hr Hu) as (E & _ & _ & Hb). eapply safe_with_run; [exact E|done|rewrite Hu; zlist_lia|].
  rewrite Hu. by apply Hf.
Qed.

Lemma safe_with_u16 (f : Z -> Prog (S * wStream) A) x s :
  readable s -> 2 <= zlen (unread s) ->
  (forall v, 0 <= v < 65536 -> readable (advance s 2) -> zlen (unread (advance s 2)) = zlen (unread s) - 2 -> safe_res Q (f v) x (advance s 2)) ->
  safe_res Q (pbind (at_s (stream_read_u16_le true)) f) x s.
Proof.
  intros Hr Hl Hf. destruct (unread s) as [|b0 [|b1 r]] eqn:Hu; try zlist_lia.
  destruct (read_u16_le_spec s b0 b1 r Hr Hu) as (E & _ & _ & H0 & H1). unfold is_byte in *.
  eapply safe_with_run; [exact E|done|rewrite Hu; zlist_lia|]. rewrite Hu. apply Hf. lia.
Qed.

Lemma safe_with_u32 (f : Z -> Prog (S * wStream) A) x s :
  readable s -> 4 <= zlen (unread s) ->
  (forall v, 0 <= v < 4294967296 -> readable (advance s 4) -> zlen (unread (advance s 4)) = zlen (unread s) - 4 ->
     safe_res Q (f v) x (advance s 4)) ->
  safe_res Q (pbind (at_s (stream_read_u32_le true)) f) x s.
Proof.
  intros Hr Hl Hf. destruct (unread s) as [|b0 [|b1 [|b2 [|b3 r]]]] eqn:Hu; try zlist_lia.
  destruct (read_u32_le_spec s b0 b1 b2 b3 r Hr Hu) as (E & _ & _ & ? & ? & ? & ?). unfold is_byte in *.
  eapply safe_with_run; [exact E|done|rewrite Hu; zlist_lia|]. rewrite Hu. apply Hf. lia.
Qed.

Lemma safe_with_seek n (f : unit -> Prog (S * wStream) A) x s :
  readable s -> 0 <= n <= zlen (unread s) ->
  (readable (advance s n) -> zlen (unread (advance s n)) = zlen (unread s) - n -> safe_res Q (f tt) x (advance s n)) ->
  safe_res Q (pbind (at_s (Stream_Seek n)) f) x s.
Proof. intros Hr Hn Hf. eapply safe_with_run; [by apply seek_spec|done|done|done]. Qed.

Lemma safe_with_read n (f : list Z -> Prog (S * wStream) A) x s :
  readable s -> 0 <= n <= zlen (unread s) ->
  (readable (advance s n) -> zlen (unread (advance s n)) = zlen (unread s) - n -> safe_res Q (f (ztake n (unread s))) x (advance s n)) ->
  safe_res Q (pbind (at_s (Stream_Read n)) f) x s.
Proof. intros Hr Hn Hf. eapply safe_with_run; [by apply read_bytes_spec|done|done|done]. Qed.
End tracking.

(** Walk through a program, with the safety of its readers from the database [safe]. *)
Ltac sw_step :=
  cbn [negb] in *;
  lazymatch goal with
  | |- safe_res _ (pret _) _ _ => apply safe_with_pret; [assumption|assumption]
  | |- safe_res _ (needs _ _) _ _ => apply safe_with_needs; [|assumption|intros ? ? ? ? ?]
  | |- safe_res _ (require _ _) _ _ => apply safe_with_require; [|assumption|intros ? ? ? ?]
  | |- safe_res _ (pbind (at_s (Stream_CheckAndLogRequiredLength _)) _) _ _ => apply safe_with_check; [assumption|intros ?|intros ?]
  | |- safe_res _ (pbind (at_s Stream_GetRemainingLength) _) _ _ => apply safe_with_remaining; [assumption|]
  | |- safe_res _ (pbind (at_s (stream_read_u8 true)) _) _ _ => apply safe_with_u8; [assumption|lia|intros ? ? ? ?]
  | |- safe_res _ (pbind (at_s (stream_read_u16_le true)) _) _ _ => apply safe_with_u16; [assumption|lia|intros ? ? ? ?]
  | |- safe_res _ (pbind (at_s (stream_read_u32_le true)) _) _ _ => apply safe_with_u32; [assumption|lia|intros ? ? ? ?]
  | |- safe_res _ (pbind (at_s (Stream_Seek _)) _) _ _ => apply safe_with_seek; [assumption|lia|intros ? ?]
  | |- safe_res _ (pbind (at_s (Stream_Read _)) _) _ _ => apply safe_with_read; [assumption|lia|intros ? ?]
  | |- safe_res _ (at_s _) _ _ => apply safe_with_at_s; [assumption|solve [auto with safe]]
  | |- safe_res _ (pbind pget _) _ _ => apply safe_with_pget; cbn [fst snd]
  | |- safe_res _ (pbind (upd_obj _) _) _ _ => apply safe_with_upd
  | |- safe_res _ (upd_obj _) _ _ => apply safe_with_set; [|assumption]
  | |- safe_res _ (if ?b then _ else _) _ _ => let E := fresh "E" in destruct b eqn:E
  | |- safe_res _ (match ?x with _ => _ end) _ _ => destruct x
  | |- safe_res _ (pbind _ _) _ _ => apply safe_with_bind; [|assumption|intros ? ? ? ? ?]
  end.
Ltac solve_sw := repeat sw_step.

(** ** Reading a whole block

    [eats]: the program reads exactly [bs] whatever follows.  [consumes]: it is given nothing but [bs]
    and may leave some of it. *)
Definition eats {S A} (m : Prog (S * wStream) A) (x : S) (bs : list Z) (v : A) (x' : S) : Prop :=
  forall s r, readable s -> unread s = bs ++ r -> m (x, s) = Ret (v, (x', advance s (zlen bs))).
Definition consumes {S A} (m : Prog (S * wStream) A) (x : S) (bs : list Z) (v : A) (x' : S) : Prop :=
  forall s, readable s -> unread s = bs -> exists k, 0 <= k <= zlen bs /\ m (x, s) = Ret (v, (x', advance s k)).

Section eating.
Context {S : Type}.
Implicit Types (x : S) (s : wStream).

Lemma eats_at_s {A} (m : Prog wStream A) x bs v : reads_back m bs v -> eats (at_s m) x bs v x.
Proof. intros H s r Hr Hu. apply at_s_ret. by eapply H. Qed.

Lemma eats_upd (f : S -> S) x : eats (upd_obj f) x [] tt (f x).
Proof. intros s r Hr Hu. unfold upd_obj, pmodify. cbn. by rewrite zlen_nil, advance_0. Qed.

Lemma eats_pret {A} (v : A) x : eats (pret v) x [] v x.
Proof. intros s r Hr Hu. unfold pret. by rewrite zlen_nil, advance_0. Qed.

(** The step at the head, and what is left for the rest of the program. *)
Lemma eats_step {A B} (m : Prog (S * wStream) A) (f : A -> Prog (S * wStream) B) x bs u x1 s r :
  eats m x bs u x1 -> readable s -> unread s = bs ++ r ->
  pbind m f (x, s) = f u (x1, advance s (zlen bs)) /\ readable (advance s (zlen bs)) /\ unread (advance s (zlen bs)) = r.
Proof.
  intros Hm Hr Hu. split_and!; [by apply pbind_ret, (Hm s r)|..].
  - apply readable_advance; [done|]. rewrite Hu, zlen_app. pose proof (zlen_nonneg bs). pose proof (zlen_nonneg r). lia.
  - rewrite unread_advance, Hu by (done || apply zlen_nonneg). by rewrite zdrop_app, Z.sub_diag, zdrop_all, zdrop_0 by lia.
Qed.

Lemma eats_bind {A B} (m : Prog (S * wStream) A) (f : A -> Prog (S * wStream) B) x bs bs' u v x1 x2 :
  eats m x bs u x1 -> eats (f u) x1 bs' v x2 -> eats (pbind m f) x (bs ++ bs') v x2.
Proof.
  intros Hm Hf s r Hr Hu. rewrite <- app_assoc in Hu. destruct (eats_step m f _ _ _ _ _ _ Hm Hr Hu) as (-> & Hr1 & Hu1).
  by rewrite (Hf _ _ Hr1 Hu1), advance_advance, zlen_app.
Qed.

(** A step without bytes. *)
Lemma eats_then {A B} (m : Prog (S * wStream) A) (f : A -> Prog (S * wStream) B) x bs u v x1 x2 :
  eats m x [] u x1 -> eats (f u) x1 bs v x2 -> eats (pbind m f) x bs v x2.
Proof. apply (eats_bind m f x [] bs). Qed.

Lemma consumes_pret {A} (v : A) x bs : consumes (pret v) x bs v x.
Proof. intros s Hr Hu. exists 0. rewrite advance_0. split; [split; [lia|apply zlen_nonneg]|done]. Qed.

Lemma consumes_bind {A B} (m : Prog (S * wStream) A) (f : A -> Prog (S * wStream) B) x bs bs' u v x1 x2 :
  eats m x bs u x1 -> consumes (f u) x1 bs' v x2 -> consumes (pbind m f) x (bs ++ bs') v x2.
Proof.
  intros Hm Hf s Hr Hu. destruct (eats_step m f _ _ _ _ _ _ Hm Hr Hu) as (-> & Hr1 & Hu1).
  destruct (Hf _ Hr1 Hu1) as (k & Hk & ->). exists (zlen bs + k). rewrite advance_advance, zlen_app.
  pose proof (zlen_nonneg bs). split; [lia|done].
Qed.

Lemma consumes_then {A B} (m : Prog (S * wStream) A) (f : A -> Prog (S * wStream) B) x bs u v x1 x2 :
  eats m x [] u x1 -> consumes (f u) x1 bs v x2 -> consumes (pbind m f) x bs v x2.
Proof. apply (consumes_bind m f x [] bs). Qed.

Lemma consumes_remaining {A} (f : Z -> Prog (S * wStream) A) x bs v x' :
  consumes (f (zlen bs)) x bs v x' -> consumes (pbind (at_s Stream_GetRemainingLength) f) x bs v x'.
Proof.
  intros H s Hr Hu. rewrite (pbind_ret _ _ _ _ _ (at_s_ret _ _ _ _ _ (remaining_length_spec s Hr))), Hu. by apply H.
Qed.

Lemma eats_consumes {A} (m : Prog (S * wStream) A) x bs v x' : eats m x bs v x' -> consumes m x bs v x'.
Proof. intros H s Hr Hu. exists (zlen bs). split; [pose proof (zlen_nonneg bs); lia|]. apply (H s []); [done|by rewrite app_nil_r]. Qed.

Lemma consumes_check {A} n (f : bool -> Prog (S * wStream) A) x bs v x' :
  n <= zlen bs -> consumes (f true) x bs v x' -> consumes (pbind (at_s (Stream_CheckAndLogRequiredLength n)) f) x bs v x'.
Proof.
  intros Hn H s Hr Hu. rewrite (pbind_ret _ _ _ _ _ (at_s_ret _ _ _ _ _ (check_length_spec s n Hr))), Hu.
  replace (n <=? zlen bs) with true by lia. by apply H.
Qed.

Lemma consumes_check_ex {A} n k (f : bool -> Prog (S * wStream) A) x bs v x' :
  0 < k -> n <= zlen bs / k -> consumes (f true) x bs v x' ->
  consumes (pbind (at_s (Stream_CheckAndLogRequiredLengthEx n k)) f) x bs v x'.
Proof.
  intros Hk Hn H s Hr Hu. rewrite (pbind_ret _ _ _ _ _ (at_s_ret _ _ _ _ _ (check_length_ex_spec s n k Hr Hk))), Hu.
  replace (n <=? zlen bs / k) with true by lia. by apply H.
Qed.
End eating.

(** What the fixed-size readers make of the encodings of the writers. *)
Lemma u8_back v : is_byte v -> reads_back (stream_read_u8 true) [v] v.
Proof. intros Hv s r Hr Hu. by destruct (read_u8_spec s v r Hr Hu) as (-> & _). Qed.

Lemma u16_back v : reads_back (stream_read_u16_le true) (le16 v) (u16 v).
Proof.
  intros s r Hr Hu. destruct (read_u16_le_spec s _ _ r Hr Hu) as (-> & _). unfold u16. do 2 f_equal.
  change (2 ^ 16) with (256 * 256). rewrite Z.rem_mul_r by lia. lia.
Qed.

Lemma u32_back v : reads_back (stream_read_u32_le true) (le32 v) (u32 v).
Proof.
  intros s r Hr Hu. destruct (read_u32_le_spec s _ _ _ _ r Hr Hu) as (-> & _). unfold u32. do 2 f_equal.
  change (2 ^ 32) with (256 * (256 * (256 * 256))). rewrite (Z.rem_mul_r v), (Z.rem_mul_r (v / 256)), (Z.rem_mul_r (v / 256 / 256)) by lia.
  rewrite !(Z.div_div v 256) by lia. change (256 * 256) with 65536. lia.
Qed.

Lemma skip_back bs : reads_back (Stream_Seek (zlen bs)) bs tt.
Proof. intros s r Hr Hu. apply seek_spec; [done|]. rewrite Hu, zlen_app. pose proof (zlen_nonneg bs). pose proof (zlen_nonneg r). lia. Qed.

Lemma bytes_back bs : reads_back (Stream_Read (zlen bs)) bs bs.
Proof.
  intros s r Hr Hu. pose proof (zlen_nonneg bs). pose proof (zlen_nonneg r).
  rewrite read_bytes_spec by (done || rewrite Hu, zlen_app; lia). rewrite Hu, ztake_app, ztake_all, ztake_0, app_nil_r by lia. done.
Qed.
