(* ===== verification/Mcs.v ===== *)
(** * The multipoint communication service: [libfreerdp/core/mcs.c], [mcs.h]

    The MCS object of a connection, its domain parameters and the PDUs of a domain: erect domain,
    attach user, channel join and disconnect.  The readers are programs over the object and the
    received stream; the functions that send are programs over the object and its transport
    ([Transport]).  The connect PDUs, which carry GCC user data, are in [McsConnect]. *)

From S2P Require Import Prelude Memory Stream Per Ber Framing Readers Transport.

(** ** Data *)

Definition MCS_BASE_CHANNEL_ID : Z := 1001.
Definition MCS_GLOBAL_CHANNEL_ID : Z := 1003.
Definition CHANNEL_MAX_COUNT : Z := 31.
Definition CHANNEL_NAME_LEN : Z := 7.
Definition MCS_Result_enum_length : Z := 16.
Definition MCS_TYPE_CONNECT_INITIAL : Z := 0x65.
Definition MCS_TYPE_CONNECT_RESPONSE : Z := 0x66.

(** The values of [DomainMCSPDU] that are sent or expected. *)
Definition DomainMCSPDU_ErectDomainRequest : Z := 1.
Definition DomainMCSPDU_DisconnectProviderUltimatum : Z := 8.
Definition DomainMCSPDU_AttachUserRequest : Z := 10.
Definition DomainMCSPDU_AttachUserConfirm : Z := 11.
Definition DomainMCSPDU_ChannelJoinRequest : Z := 14.
Definition DomainMCSPDU_ChannelJoinConfirm : Z := 15.
Definition DomainMCSPDU_SendDataRequest : Z := 25.
Definition DomainMCSPDU_SendDataIndication : Z := 26.

Record DomainParameters : Type := mkDomainParameters {
  maxChannelIds : Z;
  maxUserIds : Z;
  maxTokenIds : Z;
  numPriorities : Z;
  minThroughput : Z;
  maxHeight : Z;
  maxMCSPDUsize : Z;
  protocolVersion : Z
}.
#[global] Instance eta_DomainParameters : Eta DomainParameters := fun d =>
  mkDomainParameters (maxChannelIds d) (maxUserIds d) (maxTokenIds d) (numPriorities d)
    (minThroughput d) (maxHeight d) (maxMCSPDUsize d) (protocolVersion d).

(** The name is an array of eight characters; the client's handle is not used here. *)
Record rdpMcsChannel : Type := mkMcsChannel {
  Name : list Z;
  options : Z;
  ChannelId : Z;
  joined : bool
}.
#[global] Instance eta_rdpMcsChannel : Eta rdpMcsChannel := fun c =>
  mkMcsChannel (Name c) (options c) (ChannelId c) (joined c).

Definition blank_channel : rdpMcsChannel := mkMcsChannel (zrep (CHANNEL_NAME_LEN + 1) 0) 0 0 false.

Record rdpMcs : Type := mkMcs {
  userId : Z;
  baseChannelId : Z;
  messageChannelId : Z;
  mcs_flags : Z;
  domainParameters : DomainParameters;
  targetParameters : DomainParameters;
  minimumParameters : DomainParameters;
  maximumParameters : DomainParameters;
  userChannelJoined : bool;
  globalChannelJoined : bool;
  messageChannelJoined : bool;
  channelCount : Z;
  channelMaxCount : Z;
  channels : list rdpMcsChannel
}.
#[global] Instance eta_rdpMcs : Eta rdpMcs := fun m =>
  mkMcs (userId m) (baseChannelId m) (messageChannelId m) (mcs_flags m) (domainParameters m)
    (targetParameters m) (minimumParameters m) (maximumParameters m) (userChannelJoined m)
    (globalChannelJoined m) (messageChannelJoined m) (channelCount m) (channelMaxCount m) (channels m).

(** ** Domain parameters *)

Definition mcs_init_domain_parameters (channelIds userIds tokenIds pduSize : Z) : DomainParameters :=
  mkDomainParameters channelIds userIds tokenIds 1 0 1 pduSize 2.

(** [sizeof (rdpMcs)] and [sizeof (rdpMcsChannel)] as requests to the allocator. *)
Definition mcs_new `{Malloc} : option rdpMcs :=
  if negb (malloc_ok 176) then None
  else if negb (malloc_ok (CHANNEL_MAX_COUNT * 32)) then None
  else Some (mkMcs 0 (MCS_GLOBAL_CHANNEL_ID + 1) 0 0
    (mcs_init_domain_parameters 0 0 0 0xFFFF) (mcs_init_domain_parameters 34 2 0 0xFFFF)
    (mcs_init_domain_parameters 1 1 1 0x420) (mcs_init_domain_parameters 0xFFFF 0xFC17 0xFFFF 0xFFFF)
    false false false 0 CHANNEL_MAX_COUNT (zrep CHANNEL_MAX_COUNT blank_channel)).

(** [ber_read_integer (s, &field) && ...] *)
Definition read_param (set : Z -> DomainParameters -> DomainParameters) (k : Prog (DomainParameters * wStream) bool)
  : Prog (DomainParameters * wStream) bool :=
  v <- at_s (ber_read_integer true) ;;
  match v with
  | None => pret false
  | Some v => pmodify (fun p => (set v p.1, p.2)) ;; k
  end.

Definition mcs_read_domain_parameters : Prog (DomainParameters * wStream) bool :=
  l <- at_s ber_read_sequence_tag ;;
  match l with
  | None => pret false
  | Some _ =>
      read_param (fun v d => d <| maxChannelIds := v |>) (
      read_param (fun v d => d <| maxUserIds := v |>) (
      read_param (fun v d => d <| maxTokenIds := v |>) (
      read_param (fun v d => d <| numPriorities := v |>) (
      read_param (fun v d => d <| minThroughput := v |>) (
      read_param (fun v d => d <| maxHeight := v |>) (
      read_param (fun v d => d <| maxMCSPDUsize := v |>) (
      read_param (fun v d => d <| protocolVersion := v |>) (pret true))))))))
  end.

Definition mcs_write_domain_parameters `{Malloc} `{FreshMemory} (d : DomainParameters) : Prog wStream bool :=
  s <- pget ;;
  match Stream_New None (fresh (Stream_Capacity s)) (Stream_Capacity s) with
  | None => pret false
  | Some tmps =>
      r <- on_new tmps (
        ber_write_integer (maxChannelIds d) ;;
        ber_write_integer (maxUserIds d) ;;
        ber_write_integer (maxTokenIds d) ;;
        ber_write_integer (numPriorities d) ;;
        ber_write_integer (minThroughput d) ;;
        ber_write_integer (maxHeight d) ;;
        ber_write_integer (maxMCSPDUsize d) ;;
        ber_write_integer (protocolVersion d) ;;
        Stream_GetPosition) ;;
      let '(length, tmps) := r in
      ber_write_sequence_tag length ;;
      Stream_Write (ztake length (buffer tmps)) ;;
      pret true
  end.

(** The parameters of the domain, and whether they were accepted; the ones that were decided before
    an error are kept. *)
Definition merge_pdu_size (target minimum maximum : DomainParameters) : option Z :=
  if 1024 <=? maxMCSPDUsize target then
    if maxMCSPDUsize target <=? 65528 then Some (maxMCSPDUsize target)
    else if (124 <=? maxMCSPDUsize minimum) && (maxMCSPDUsize minimum <=? 65528) then Some 65528
    else None
  else if 124 <=? maxMCSPDUsize maximum then Some (maxMCSPDUsize maximum)
  else None.

Definition mcs_merge_domain_parameters (target minimum maximum out : DomainParameters) : bool * DomainParameters :=
  let set_channels v := out <| maxChannelIds := v |> in
  let users out :=
    let tokens out :=
      let out := out <| maxTokenIds := maxTokenIds target |> in
      if negb (numPriorities minimum <=? 1) then (false, out)
      else
        let out := out <| numPriorities := 1 |> <| minThroughput := minThroughput target |> in
        if negb ((maxHeight target =? 1) || (maxHeight minimum <=? 1)) then (false, out)
        else
          let out := out <| maxHeight := 1 |> in
          match merge_pdu_size target minimum maximum with
          | None => (false, out)
          | Some size =>
              let out := out <| maxMCSPDUsize := size |> in
              if (protocolVersion target =? 2) || ((protocolVersion minimum <=? 2) && (2 <=? protocolVersion maximum))
              then (true, out <| protocolVersion := 2 |>) else (false, out)
          end in
    if 3 <=? maxUserIds target then tokens (out <| maxUserIds := maxUserIds target |>)
    else if 3 <=? maxUserIds maximum then tokens (out <| maxUserIds := 3 |>)
    else (false, out) in
  if 4 <=? maxChannelIds target then users (set_channels (maxChannelIds target))
  else if 4 <=? maxChannelIds maximum then users (set_channels 4)
  else (false, out).

(** ** Headers *)

(** The length of the packet. *)
Definition mcs_read_domain_mcspdu_header (domainMCSPDU : Z) : Prog wStream (option Z) :=
  passert (negb (domainMCSPDU =? 0)) ;;
  l <- tpkt_read_header ;;
  match l with
  | None => pret None
  | Some length =>
      li <- tpdu_read_data length ;;
      match li with
      | None => pret None
      | Some _ =>
          c <- per_read_choice ;;
          match c with
          | None => pret None
          | Some choice => if negb (domainMCSPDU =? Z.shiftr choice 2) then pret None else pret (Some length)
          end
      end
  end.

Definition mcs_write_domain_mcspdu_header `{Malloc} (domainMCSPDU length opts : Z) : Prog wStream bool :=
  passert (Z.land opts (Z.lnot 0x03) =? 0) ;;
  passert (Z.land domainMCSPDU (Z.lnot 0x3F) =? 0) ;;
  ok <- tpkt_write_header length ;;
  if negb ok then pret false else
  ok <- tpdu_write_data ;;
  if negb ok then pret false else
  per_write_choice (u8 (Z.lor (Z.shiftl domainMCSPDU 2) opts)).

(** ** Receiving *)

(** The object and the received stream. *)
Abbreviation mstate := (rdpMcs * wStream)%type.

Definition mcs_recv_erect_domain_request : Prog mstate bool :=
  needs (at_s (mcs_read_domain_mcspdu_header DomainMCSPDU_ErectDomainRequest)) (fun length =>
  needs (at_s per_read_integer) (fun subHeight =>
  needs (at_s per_read_integer) (fun subInterval =>
  at_s (tpkt_ensure_stream_consumed length)))).

Definition mcs_recv_attach_user_request : Prog mstate bool :=
  needs (at_s (mcs_read_domain_mcspdu_header DomainMCSPDU_AttachUserRequest)) (fun length =>
  at_s (tpkt_ensure_stream_consumed length)).

Definition mcs_recv_attach_user_confirm : Prog mstate bool :=
  needs (at_s (mcs_read_domain_mcspdu_header DomainMCSPDU_AttachUserConfirm)) (fun length =>
  needs (at_s (per_read_enumerated MCS_Result_enum_length)) (fun result =>
  needs (at_s (per_read_integer16 MCS_BASE_CHANNEL_ID)) (fun id =>
  upd_obj (fun m => m <| userId := id |>) ;;
  at_s (tpkt_ensure_stream_consumed length)))).

(** The result and [*channelId]; [replay] is FreeRDP_TransportDumpReplay of the settings. *)
Definition mcs_recv_channel_join_request (replay : bool) (channelId : Z) : Prog mstate (bool * Z) :=
  l <- at_s (mcs_read_domain_mcspdu_header DomainMCSPDU_ChannelJoinRequest) ;;
  match l with
  | None => pret (false, channelId)
  | Some length =>
      u <- at_s (per_read_integer16 MCS_BASE_CHANNEL_ID) ;;
      match u with
      | None => pret (false, channelId)
      | Some id =>
          p <- pget ;;
          if negb (id =? userId p.1) && negb replay then pret (false, channelId)
          else
            (if negb (id =? userId p.1) then upd_obj (fun m => m <| userId := id |>) else pret tt) ;;
            c <- at_s (per_read_integer16 0) ;;
            match c with
            | None => pret (false, channelId)
            | Some channelId => ok <- at_s (tpkt_ensure_stream_consumed length) ;; pret (ok, channelId)
            end
      end
  end.

Definition mcs_recv_channel_join_confirm (channelId : Z) : Prog mstate (bool * Z) :=
  l <- at_s (mcs_read_domain_mcspdu_header DomainMCSPDU_ChannelJoinConfirm) ;;
  match l with
  | None => pret (false, channelId)
  | Some length =>
      result <- at_s (per_read_enumerated MCS_Result_enum_length) ;;
      initiator <- (match result with None => pret None | Some _ => at_s (per_read_integer16 MCS_BASE_CHANNEL_ID) end) ;;
      requested <- (match initiator with None => pret None | Some _ => at_s (per_read_integer16 0) end) ;;
      c <- (match requested with None => pret None | Some _ => at_s (per_read_integer16 0) end) ;;
      match c with
      | None => pret (false, channelId)
      | Some channelId => ok <- at_s (tpkt_ensure_stream_consumed length) ;; pret (ok, channelId)
      end
  end.

(** The reason.  The header was read before: its last byte is read again. *)
Definition mcs_recv_disconnect_provider_ultimatum : Prog wStream (option Z) :=
  ok <- Stream_CheckAndLogRequiredLength 1 ;;
  if negb ok then pret None else
  Stream_Rewind 1 ;;
  b1 <- stream_read_u8 true ;;
  b2 <- stream_read_u8 true ;;
  pret (Some (Z.lor (Z.shiftl (Z.land b1 0x01) 1) (Z.shiftr b2 7))).

(** ** Writing *)

Section writing.
Context `{HM : Malloc}.

(** What is stored before [Stream_SealLength]; results that are not tested are dropped. *)
Definition write_erect_domain_request : Prog wStream bool :=
  mcs_write_domain_mcspdu_header DomainMCSPDU_ErectDomainRequest 12 0 ;;
  per_write_integer 0 ;;
  per_write_integer 0 ;;
  Stream_SealLength ;; pret true.

Definition write_attach_user_request : Prog wStream bool :=
  mcs_write_domain_mcspdu_header DomainMCSPDU_AttachUserRequest 8 0 ;;
  Stream_SealLength ;; pret true.

Definition write_attach_user_confirm (user : Z) : Prog wStream bool :=
  mcs_write_domain_mcspdu_header DomainMCSPDU_AttachUserConfirm 11 2 ;;
  per_write_enumerated 0 MCS_Result_enum_length ;;
  per_write_integer16 user MCS_BASE_CHANNEL_ID ;;
  Stream_SealLength ;; pret true.

Definition write_channel_join_request (user channelId : Z) : Prog wStream bool :=
  mcs_write_domain_mcspdu_header DomainMCSPDU_ChannelJoinRequest 12 0 ;;
  per_write_integer16 user MCS_BASE_CHANNEL_ID ;;
  per_write_integer16 channelId 0 ;;
  Stream_SealLength ;; pret true.

Definition write_channel_join_confirm (user channelId : Z) : Prog wStream bool :=
  require (mcs_write_domain_mcspdu_header DomainMCSPDU_ChannelJoinConfirm 15 2) (
  require (per_write_enumerated 0 MCS_Result_enum_length) (
  require (per_write_integer16 user MCS_BASE_CHANNEL_ID) (
  require (per_write_integer16 channelId 0) (
  require (per_write_integer16 channelId 0) (
  Stream_SealLength ;; pret true))))).

Definition write_disconnect_provider_ultimatum : Prog wStream bool :=
  require (mcs_write_domain_mcspdu_header DomainMCSPDU_DisconnectProviderUltimatum 9 1) (
  require (per_write_enumerated 0x80 0) (pret true)).
End writing.

(** ** Sending *)

Section sending.
Context {W : Type} `{HB : !FrontBio W} `{HP : !StreamPools W} `{HM : Malloc} `{HF : FreshMemory}.
Variable fuel : nat.

(** The object and [mcs->transport]. *)
Abbreviation mt := (rdpMcs * rdpTransport W)%type.

(** With the default callbacks. *)
Definition transport_write {S} (s : wStream) : Prog (S * rdpTransport W) Z :=
  pzoom snd (fun t p => (p.1, t)) (r <- with_s s (transport_default_write fuel) ;; pret r.1).

(** [s = Stream_New (NULL, size)], what is written to it, and [transport_write]. *)
Definition send_new {S} (size : Z) (wr : Prog (S * rdpTransport W) (Prog wStream bool)) : Prog (S * rdpTransport W) bool :=
  match Stream_New None (fresh size) size with
  | None => pret false
  | Some s =>
      wr <- wr ;;
      r <- on_new s wr ;;
      let '(ok, s) := r in
      if negb ok then pret false
      else status <- transport_write s ;; pret (0 <=? status)
  end.

Definition mcs_send_erect_domain_request : Prog mt bool := send_new 12 (pret write_erect_domain_request).
Definition mcs_send_attach_user_request : Prog mt bool := send_new 8 (pret write_attach_user_request).
Definition mcs_send_attach_user_confirm : Prog mt bool :=
  send_new 11 (
    upd_obj (fun m => m <| userId := baseChannelId m |> <| baseChannelId := u16 (baseChannelId m + 1) |>) ;;
    p <- pget ;; pret (write_attach_user_confirm (userId p.1))).
Definition mcs_send_channel_join_request (channelId : Z) : Prog mt bool :=
  send_new 12 (p <- pget ;; pret (write_channel_join_request (userId p.1) channelId)).
Definition mcs_send_channel_join_confirm (channelId : Z) : Prog mt bool :=
  send_new 15 (p <- pget ;; pret (write_channel_join_confirm (userId p.1) channelId)).
Definition mcs_send_disconnect_provider_ultimatum : Prog mt bool :=
  send_new 9 (pret write_disconnect_provider_ultimatum).
End sending.
