(* ===== verification/McsPdu.v ===== *)
(** * The PDUs of an MCS domain: what is sent is received, and no input leads a receiver astray *)

From S2P Require Import Prelude Memory Stream Per Ber Framing Readers Transport TransportPdu TransportRead TransportWrite Mcs.

(** ** Encodings *)

(** The octet that selects the PDU. *)
Definition mcs_choice (pdu opts : Z) : Z := u8 (Z.lor (Z.shiftl pdu 2) opts).

Definition enc_mcs (pdu opts : Z) (body : list Z) : list Z :=
  enc_tpkt (8 + zlen body) ++ enc_tpdu 2 X224_TPDU_DATA ++ mcs_choice pdu opts :: body.

Definition enc_user (id : Z) : list Z := be16 (id - MCS_BASE_CHANNEL_ID).

Definition erect_domain_request : list Z := enc_mcs DomainMCSPDU_ErectDomainRequest 0 [1; 0; 1; 0].
Definition attach_user_request : list Z := enc_mcs DomainMCSPDU_AttachUserRequest 0 [].
Definition attach_user_confirm (user : Z) : list Z := enc_mcs DomainMCSPDU_AttachUserConfirm 2 (0 :: enc_user user).
Definition channel_join_request (user channel : Z) : list Z :=
  enc_mcs DomainMCSPDU_ChannelJoinRequest 0 (enc_user user ++ be16 channel).
Definition channel_join_confirm (user channel : Z) : list Z :=
  enc_mcs DomainMCSPDU_ChannelJoinConfirm 2 (0 :: enc_user user ++ be16 channel ++ be16 channel).
Definition disconnect_provider_ultimatum : list Z := enc_mcs DomainMCSPDU_DisconnectProviderUltimatum 1 [0x80].

(** An identifier of a user. *)
Definition user_id (u : Z) : Prop := MCS_BASE_CHANNEL_ID <= u <= UINT16_MAX.
#[global] Instance user_id_dec u : Decision (user_id u).
Proof. unfold user_id. apply _. Defined.
Definition channel_id (c : Z) : Prop := 0 <= c <= UINT16_MAX.
#[global] Instance channel_id_dec c : Decision (channel_id c).
Proof. unfold channel_id. apply _. Defined.

Lemma zlen_enc_mcs pdu opts body : zlen (enc_mcs pdu opts body) = 8 + zlen body.
Proof. unfold enc_mcs. zcut_lia. Qed.
#[export] Hint Rewrite zlen_enc_mcs : zlist.

(** ** Writers *)

Section writers.
Context `{HM : Malloc}.

Lemma mcs_choice_byte pdu opts : is_byte (mcs_choice pdu opts).
Proof. apply u8_byte. Qed.

Lemma header_emits pdu len opts :
  Z.land opts (Z.lnot 3) = 0 -> Z.land pdu (Z.lnot 63) = 0 ->
  emits_ret (mcs_write_domain_mcspdu_header pdu len opts) true
    (enc_tpkt len ++ enc_tpdu 2 X224_TPDU_DATA ++ [mcs_choice pdu opts]).
Proof.
  intros Ho Hp. unfold mcs_write_domain_mcspdu_header. apply emits_assert; [lia|]. apply emits_assert; [lia|].
  eapply emits_bind; [apply tpkt_write_header_emits|]. cbn [negb].
  eapply emits_bind; [apply tpdu_write_header_emits; unfold is_byte, X224_TPDU_DATA; lia|]. cbn [negb].
  apply writes_emits. apply writes_ensure; [zlist_lia|zlist_lia|]. apply emits_u8, mcs_choice_byte.
Qed.

Lemma integer16_emits v min :
  0 <= min -> min <= v <= UINT16_MAX -> emits_ret (per_write_integer16 v min) true (be16 (v - min)).
Proof.
  intros Hm Hv. apply writes_emits. unfold UINT16_MAX in *.
  apply (wire_writes (WireFormat := integer16_format min ltac:(unfold UINT16_MAX; lia))). unfold UINT16_MAX. lia.
Qed.

Lemma enumerated_emits v count : is_byte v -> emits_ret (per_write_enumerated v count) true [v].
Proof. intros Hv. apply writes_emits. apply writes_ensure; [zlist_lia|zlist_lia|]. by apply emits_u8. Qed.

Lemma per_zero_emits : emits_ret (per_write_integer 0) true [1; 0].
Proof. apply writes_emits. apply (per_write_integer_writes 0). unfold UINT32_MAX. lia. Qed.

(** A writer that seals the stream behind what it stored. *)
Definition seals (wr : Prog wStream bool) (bs : list Z) : Prop :=
  Forall is_byte bs /\
  forall s, stream_ok s -> zlen bs <= room s -> wr s = Ret (true, set_length (pointer s + zlen bs) (put_bytes s bs)).

Lemma seals_end : seals (Stream_SealLength ;; pret true) [].
Proof.
  split; [done|]. intros s Hs _. rewrite put_bytes_nil, (pbind_ret _ _ _ _ _ (seal_run _ Hs)) by done.
  cbn. by rewrite Z.add_0_r.
Qed.

Lemma seals_bind {A} (m : Prog wStream A) (k : A -> Prog wStream bool) a x y :
  emits_ret m a x -> seals (k a) y -> seals (pbind m k) (x ++ y).
Proof.
  intros [Hx Hm] [Hy Hk]. split; [by apply Forall_app|]. intros s Hs Hfit. rewrite zlen_app in Hfit.
  pose proof (zlen_nonneg x). pose proof (zlen_nonneg y).
  rewrite (pbind_ret _ _ _ _ _ (Hm s Hs ltac:(lia))), Hk, put_bytes_app, zlen_app; try done; try lia.
  - cbn. do 3 f_equal. lia.
  - apply put_bytes_ok; done || lia.
  - rewrite room_put_bytes. lia.
Qed.

(** A request of at most a megabyte was refused. *)
Definition out_of_memory : Prop := refused (2 ^ 20).

(** A writer that fills the front of a stream of its own, or runs out of memory. *)
Definition fills (wr : Prog wStream bool) (bs : list Z) : Prop :=
  forall s, stream_ok s -> pointer s = 0 -> zlen bs <= capacity s <= 65536 ->
  exists b s', wr s = Ret (b, s') /\
    if b : bool then stream_ok s' /\ pointer s' = zlen bs /\ ztake (zlen bs) (buffer s') = bs /\ count s' = count s /\ pool s' = pool s
    else out_of_memory.

Lemma fills_emits (m : Prog wStream bool) bs : emits_ret m true bs -> fills m bs.
Proof.
  intros [Hb Hm] s Hs Hp Hc. assert (Hroom : zlen bs <= room s) by (unfold room; lia).
  exists true, (put_bytes s bs). split_and!; [by apply Hm|by apply put_bytes_ok|cbn; lia|apply put_new; done || lia|done|done].
Qed.

Lemma fills_seals (m : Prog wStream bool) bs : seals m bs -> fills m bs.
Proof.
  intros [Hb Hm] s Hs Hp Hc. assert (Hroom : zlen bs <= room s) by (unfold room; lia).
  pose proof (put_bytes_ok s bs Hs Hroom Hb) as Hs1. pose proof (put_new s bs Hs Hp ltac:(lia)) as Ht.
  eexists true, _. split_and!; [by apply Hm|destruct Hs1; split; cbn in *; done || lia|cbn; lia|exact Ht|done|done].
Qed.

Lemma erect_domain_request_fills : fills write_erect_domain_request erect_domain_request.
Proof.
  apply fills_seals. change erect_domain_request with
    ((enc_tpkt 12 ++ enc_tpdu 2 X224_TPDU_DATA ++ [mcs_choice 1 0]) ++ [1; 0] ++ [1; 0] ++ []).
  eapply seals_bind; [by apply header_emits|]. do 2 (eapply seals_bind; [apply per_zero_emits|]). apply seals_end.
Qed.

Lemma attach_user_request_fills : fills write_attach_user_request attach_user_request.
Proof.
  apply fills_seals. rewrite <- (app_nil_r attach_user_request).
  eapply seals_bind; [by apply header_emits|]. apply seals_end.
Qed.

Lemma attach_user_confirm_fills u : user_id u -> fills (write_attach_user_confirm u) (attach_user_confirm u).
Proof.
  intros Hu. apply fills_seals. rewrite <- (app_nil_r (attach_user_confirm u)).
  change (seals (write_attach_user_confirm u)
    ((enc_tpkt 11 ++ enc_tpdu 2 X224_TPDU_DATA ++ [mcs_choice 11 2]) ++ [0] ++ enc_user u ++ [])).
  eapply seals_bind; [by apply header_emits|]. eapply seals_bind; [apply enumerated_emits; unfold is_byte; lia|].
  eapply seals_bind; [apply integer16_emits; [done|exact Hu]|]. apply seals_end.
Qed.

Lemma channel_emits c : channel_id c -> emits_ret (per_write_integer16 c 0) true (be16 c).
Proof. intros Hc. rewrite <- (Z.sub_0_r c) at 2. by apply integer16_emits. Qed.

Lemma channel_join_request_fills u c :
  user_id u -> channel_id c -> fills (write_channel_join_request u c) (channel_join_request u c).
Proof.
  intros Hu Hc. apply fills_seals. rewrite <- (app_nil_r (channel_join_request u c)).
  change (seals (write_channel_join_request u c)
    ((enc_tpkt 12 ++ enc_tpdu 2 X224_TPDU_DATA ++ [mcs_choice 14 0]) ++ enc_user u ++ be16 c ++ [])).
  eapply seals_bind; [by apply header_emits|]. eapply seals_bind; [apply integer16_emits; [done|exact Hu]|].
  eapply seals_bind; [by apply channel_emits|]. apply seals_end.
Qed.

Lemma channel_join_confirm_fills u c :
  user_id u -> channel_id c -> fills (write_channel_join_confirm u c) (channel_join_confirm u c).
Proof.
  intros Hu Hc. apply fills_seals. rewrite <- (app_nil_r (channel_join_confirm u c)).
  change (seals (write_channel_join_confirm u c)
    ((enc_tpkt 15 ++ enc_tpdu 2 X224_TPDU_DATA ++ [mcs_choice 15 2]) ++ [0] ++ enc_user u ++ be16 c ++ be16 c ++ [])).
  eapply seals_bind; [by apply header_emits|]. eapply seals_bind; [apply enumerated_emits; unfold is_byte; lia|].
  eapply seals_bind; [apply integer16_emits; [done|exact Hu]|].
  do 2 (eapply seals_bind; [by apply channel_emits|]). apply seals_end.
Qed.

Lemma disconnect_provider_ultimatum_fills : fills write_disconnect_provider_ultimatum disconnect_provider_ultimatum.
Proof.
  apply fills_emits. change disconnect_provider_ultimatum with
    ((enc_tpkt 9 ++ enc_tpdu 2 X224_TPDU_DATA ++ [mcs_choice 8 1]) ++ [0x80] ++ []).
  apply emits_require; [by apply header_emits|].
  apply emits_require; [apply enumerated_emits; unfold is_byte; lia|]. apply emits_pret.
Qed.
End writers.
(** ** Readers *)

Section readers.
Implicit Types (m : rdpMcs) (s : wStream).

Lemma tpdu_read_data_back n : 6 <= n -> reads_back (tpdu_read_data n) (enc_tpdu 2 X224_TPDU_DATA) (Some 2).
Proof.
  intros Hn s r Hr Hu. unfold tpdu_read_data.
  rd_sub (tpdu_read_header_enc 2 X224_TPDU_DATA n ltac:(unfold is_byte, X224_TPDU_DATA; lia) ltac:(lia) ltac:(lia)) Hr Hu. done.
Qed.

Lemma read_choice_back c : reads_back per_read_choice [c] (Some c).
Proof.
  intros s r Hr Hu. unfold per_read_choice. cbn in Hu. rd_step. replace (1 <=? zlen (c :: r)) with true by zlist_lia.
  rd_step. done.
Qed.

(** The choice keeps PDU and options apart. *)
Lemma mcs_choice_pdu pdu opts : 0 <= pdu < 64 -> 0 <= opts < 4 -> Z.shiftr (mcs_choice pdu opts) 2 = pdu.
Proof.
  intros Hp Ho. unfold mcs_choice. rewrite shiftl_mul, lor_add by lia. change (2 ^ 2) with 4.
  rewrite u8_id by (unfold is_byte; lia). rewrite shiftr_div by lia. change (2 ^ 2) with 4.
  rewrite Z.div_add_l, Z.div_small by lia. lia.
Qed.

(** The header of a packet that is there in full, and nothing behind it. *)
Lemma header_back pdu opts body s :
  0 < pdu < 64 -> 0 <= opts < 4 -> zlen body <= 1000 -> readable s -> unread s = enc_mcs pdu opts body ->
  mcs_read_domain_mcspdu_header pdu s = Ret (Some (8 + zlen body), advance s 8) /\
  readable (advance s 8) /\ unread (advance s 8) = body.
Proof.
  intros Hp Ho Hb Hr Hu. pose proof (zlen_nonneg body).
  assert (Hr8 : readable (advance s 8)) by (apply readable_advance; [done|rewrite Hu; zlist_lia]).
  assert (Hu8 : unread (advance s 8) = body) by (rewrite unread_advance, Hu by (done || lia); done).
  split_and!; [|done|done]. unfold mcs_read_domain_mcspdu_header, pbind at 1, passert.
  replace (negb (pdu =? 0)) with true by lia.
  rewrite (pbind_ret _ _ _ _ _ (tpkt_read_header_enc (8 + zlen body) (enc_tpdu 2 X224_TPDU_DATA ++ mcs_choice pdu opts :: body) s []
    ltac:(unfold UINT16_MAX; lia) ltac:(zlist_lia) Hr ltac:(by rewrite app_nil_r))).
  assert (Hr4 : readable (advance s 4)) by (apply readable_advance; [done|rewrite Hu; zlist_lia]).
  assert (Hu4 : unread (advance s 4) = enc_tpdu 2 X224_TPDU_DATA ++ [mcs_choice pdu opts] ++ body)
    by (rewrite unread_advance, Hu by (done || lia); done).
  rd_sub (tpdu_read_data_back (8 + zlen body) ltac:(lia)) Hr4 Hu4. rd_sub (read_choice_back (mcs_choice pdu opts)) Hr0 Hu0.
  rewrite mcs_choice_pdu by lia. rewrite Z.eqb_refl. rewrite !advance_advance. done.
Qed.

Lemma consumed_back n s : n <= UINT16_MAX -> readable s -> unread s = [] -> tpkt_ensure_stream_consumed n s = Ret (true, s).
Proof.
  intros Hn Hr Hu. unfold tpkt_ensure_stream_consumed. replace (UINT16_MAX <? n) with false by lia.
  rewrite (pbind_ret _ _ _ _ _ (remaining_length_spec s Hr)), Hu. done.
Qed.

Lemma user_back u : user_id u -> reads_back (per_read_integer16 MCS_BASE_CHANNEL_ID) (enc_user u) (Some u).
Proof. intros Hu. apply (wire_reads (WireFormat := integer16_format (H := malloc_all) MCS_BASE_CHANNEL_ID ltac:(unfold MCS_BASE_CHANNEL_ID, UINT16_MAX; lia)) u Hu). Qed.

Lemma channel_back c : channel_id c -> reads_back (per_read_integer16 0) (be16 c) (Some c).
Proof.
  intros Hc. rewrite <- (Z.sub_0_r c) at 1.
  apply (wire_reads (WireFormat := integer16_format (H := malloc_all) 0 ltac:(unfold UINT16_MAX; lia)) c Hc).
Qed.

Lemma result_back v : 0 <= v < 16 -> reads_back (per_read_enumerated MCS_Result_enum_length) [v] (Some v).
Proof. intros Hv. apply (wire_reads (WireFormat := enumerated_format (H := malloc_all) 16 ltac:(lia)) v Hv). Qed.

Lemma per_zero_back : reads_back per_read_integer [1; 0] (Some 0).
Proof. apply (per_read_integer_enc 0). unfold UINT16_MAX. lia. Qed.

(** The packet is received, byte for byte, and the object is [m']. *)
Definition receives {A} (rd : Prog (rdpMcs * wStream) A) m (bs : list Z) (v : A) m' : Prop :=
  forall s, readable s -> unread s = bs -> rd (m, s) = Ret (v, (m', advance s (zlen bs))).

(** Run the header, then the fields, then the check that nothing is left. *)
Ltac at_header Hr Hu :=
  let E := fresh in let Hr' := fresh "Hr" in let Hu' := fresh "Hu" in
  edestruct (fun H1 H2 H3 => header_back _ _ _ _ H1 H2 H3 Hr Hu) as (E & Hr' & Hu');
  [done|done|vm_compute; discriminate|];
  rewrite (pbind_ret _ _ _ _ _ (at_s_ret _ _ _ _ _ E)); clear E Hr Hu; cbn beta iota.
Ltac at_end Hr Hu :=
  rewrite ?advance_advance in *; rewrite (at_s_ret _ _ _ _ _ (consumed_back _ _ ltac:(done) Hr Hu)).

Lemma erect_domain_request_received m : receives mcs_recv_erect_domain_request m erect_domain_request true m.
Proof.
  intros s Hr Hu. unfold mcs_recv_erect_domain_request, needs. at_header Hr Hu.
  change [1; 0; 1; 0] with ([1; 0] ++ [1; 0] ++ []) in Hu0.
  at_step per_zero_back Hr0 Hu0. at_step per_zero_back Hr Hu. at_end Hr0 Hu0. done.
Qed.

Lemma attach_user_request_received m : receives mcs_recv_attach_user_request m attach_user_request true m.
Proof. intros s Hr Hu. unfold mcs_recv_attach_user_request, needs. at_header Hr Hu. at_end Hr0 Hu0. done. Qed.

Lemma attach_user_confirm_received m u :
  user_id u -> receives mcs_recv_attach_user_confirm m (attach_user_confirm u) true (m <| userId := u |>).
Proof.
  intros Hid s Hr Hu. unfold mcs_recv_attach_user_confirm, needs. at_header Hr Hu.
  change (0 :: enc_user u) with ([0] ++ enc_user u) in Hu0. at_step (result_back 0 ltac:(lia)) Hr0 Hu0.
  rewrite <- (app_nil_r (enc_user u)) in Hu. at_step (user_back u Hid) Hr Hu. rewrite upd_step. at_end Hr0 Hu0. done.
Qed.

Lemma channel_join_request_received m replay c0 u c :
  user_id u -> channel_id c -> u = userId m \/ replay = true ->
  receives (mcs_recv_channel_join_request replay c0) m (channel_join_request u c) (true, c) (m <| userId := u |>).
Proof.
  intros Hid Hc Hown s Hr Hu. unfold mcs_recv_channel_join_request. at_header Hr Hu.
  at_step (user_back u Hid) Hr0 Hu0. rewrite pbind_pget. cbn [fst].
  replace (negb (u =? userId m) && negb replay) with false by (destruct replay; lia).
  assert (E : (if negb (u =? userId m) then upd_obj (fun m => m <| userId := u |>) else pret tt) (m, advance (advance s 8) (zlen (enc_user u))) =
    Ret (tt, (m <| userId := u |>, advance (advance s 8) (zlen (enc_user u))))).
  { destruct (u =? userId m) eqn:Eu; [|done]. apply Z.eqb_eq in Eu. subst u. by destruct m. }
  rewrite (pbind_ret _ _ _ _ _ E). rewrite <- (app_nil_r (be16 c)) in Hu. at_step (channel_back c Hc) Hr Hu.
  unfold pbind at 1. at_end Hr0 Hu0. done.
Qed.

Lemma channel_join_confirm_received m c0 u c :
  user_id u -> channel_id c -> receives (mcs_recv_channel_join_confirm c0) m (channel_join_confirm u c) (true, c) m.
Proof.
  intros Hid Hc s Hr Hu. unfold mcs_recv_channel_join_confirm. at_header Hr Hu.
  change (0 :: enc_user u ++ be16 c ++ be16 c) with ([0] ++ enc_user u ++ be16 c ++ be16 c) in Hu0.
  at_step (result_back 0 ltac:(lia)) Hr0 Hu0. at_step (user_back u Hid) Hr Hu. at_step (channel_back c Hc) Hr0 Hu0.
  rewrite <- (app_nil_r (be16 c)) in Hu. at_step (channel_back c Hc) Hr Hu. unfold pbind at 1. at_end Hr0 Hu0. done.
Qed.

(** After the header of the ultimatum, as [rdp_read_header] calls it. *)
Lemma disconnect_provider_ultimatum_received s :
  readable s -> unread s = disconnect_provider_ultimatum ->
  (mcs_read_domain_mcspdu_header DomainMCSPDU_DisconnectProviderUltimatum ;; mcs_recv_disconnect_provider_ultimatum) s =
    Ret (Some 3, advance s 9).
Proof.
  intros Hr Hu. assert (Hr7 : readable (advance s 7)) by (apply readable_advance; [done|rewrite Hu; vm_compute; split; discriminate]).
  assert (Hu7 : unread (advance s 7) = [0x21; 0x80]) by (rewrite unread_advance, Hu by (done || lia); done).
  destruct (header_back DomainMCSPDU_DisconnectProviderUltimatum 1 [0x80] s ltac:(done) ltac:(done) ltac:(done) Hr Hu) as (E & Hr8 & Hu8).
  rewrite (pbind_ret _ _ _ _ _ E). unfold mcs_recv_disconnect_provider_ultimatum. rd_step.
  change (1 <=? zlen [128]) with true. cbn [negb].
  rewrite (pbind_ret _ _ _ _ _ (rewind_spec s 8 1 Hr ltac:(lia))). change (8 - 1) with 7. rd_step. rd_step. rd_done.
Qed.
End readers.

(** ** Any input *)

Section safety.
Implicit Types (m : rdpMcs) (s : wStream).

(** Receiving changes the user id only, and to an id of a user. *)
Definition only_user m m' : Prop := m' = m <| userId := userId m' |> /\ (userId m' = userId m \/ user_id (userId m')).

Lemma only_user_refl m : only_user m m.
Proof. split; [by destruct m|by left]. Qed.

Lemma only_user_set m m' u : only_user m m' -> user_id u -> only_user m (m' <| userId := u |>).
Proof. intros [E _] Hu. split; [|by right]. rewrite E. by destruct m. Qed.

Lemma integer16_post min s :
  0 <= min <= UINT16_MAX -> readable s ->
  exists a k, per_read_integer16 min s = Ret (a, advance s k) /\ 0 <= k <= zlen (unread s) /\
    forall v, a = Some v -> min <= v <= UINT16_MAX.
Proof.
  unfold UINT16_MAX. intros Hm Hr. unfold per_read_integer16. destruct (unread s) as [|b0 [|b1 r]] eqn:Hu;
    rewrite (step_check 2 _ s _ Hr Hu); cbn [negb].
  1, 2: change (2 <=? zlen _) with false; cbn [negb]; exists None, 0; rewrite advance_0; split_and!; done || zlist_lia.
  replace (2 <=? zlen (b0 :: b1 :: r)) with true by zlist_lia. cbn [negb].
  destruct (read_u16_be_spec s b0 b1 r Hr Hu) as (E & _ & _ & H0 & H1). rewrite (pbind_ret _ _ _ _ _ E).
  unfold is_byte in *. unfold UINT16_MAX. destruct (65535 - min <? _) eqn:Ev; do 2 eexists; (split_and!; [done|lia|zlist_lia|]); [done|].
  intros v [= <-]. rewrite u16_id by lia. lia.
Qed.

Hint Resolve tpkt_read_header_safe tpdu_read_header_safe per_read_integer_safe : safe.

Lemma read_choice_safe s : readable s -> safe_at per_read_choice s.
Proof. intros. unfold per_read_choice. solve_safe. Qed.
Lemma read_enumerated_safe n s : readable s -> safe_at (per_read_enumerated n) s.
Proof. intros. unfold per_read_enumerated. solve_safe. Qed.
Lemma read_integer16_safe n s : readable s -> safe_at (per_read_integer16 n) s.
Proof. intros. unfold per_read_integer16. solve_safe. Qed.
Lemma tpdu_read_data_safe n s : readable s -> safe_at (tpdu_read_data n) s.
Proof. intros. unfold tpdu_read_data. solve_safe. Qed.
Lemma consumed_safe n s : readable s -> safe_at (tpkt_ensure_stream_consumed n) s.
Proof. intros. unfold tpkt_ensure_stream_consumed. case_if; [solve_safe|]. apply safe_remaining; [done|]. solve_safe. Qed.
Hint Resolve read_choice_safe read_enumerated_safe read_integer16_safe tpdu_read_data_safe consumed_safe : safe.

Lemma safe_assert {A} b (k : Prog wStream A) s : b = true -> safe_at k s -> safe_at (passert b ;; k) s.
Proof. intros ->. exact id. Qed.

Lemma header_safe pdu s : pdu <> 0 -> readable s -> safe_at (mcs_read_domain_mcspdu_header pdu) s.
Proof.
  intros Hp Hr. unfold mcs_read_domain_mcspdu_header. apply safe_assert; [lia|]. solve_safe.
Qed.
Hint Extern 1 (safe_at (mcs_read_domain_mcspdu_header _) _) => apply header_safe; [done|] : safe.

(** A user id that was read and stored. *)
Lemma safe_user {A} m0 (f : option Z -> Prog (rdpMcs * wStream) A) m s :
  only_user m0 m -> readable s ->
  (forall k, readable (advance s k) -> safe_with (only_user m0) (f None) m (advance s k)) ->
  (forall u k, user_id u -> readable (advance s k) -> safe_with (only_user m0) (f (Some u)) m (advance s k)) ->
  safe_with (only_user m0) (pbind (at_s (per_read_integer16 MCS_BASE_CHANNEL_ID)) f) m s.
Proof.
  intros Hm Hr HN HS. eapply safe_with_post; [apply integer16_post; [done|done]|done|].
  intros [u|] k Hu Hk; [apply HS; [by apply Hu|done]|by apply HN].
Qed.

Lemma erect_domain_request_safe m s : readable s -> safe_with (only_user m) mcs_recv_erect_domain_request m s.
Proof. intros Hr. pose proof (only_user_refl m). unfold mcs_recv_erect_domain_request. solve_sw. Qed.

Lemma attach_user_request_safe m s : readable s -> safe_with (only_user m) mcs_recv_attach_user_request m s.
Proof. intros Hr. pose proof (only_user_refl m). unfold mcs_recv_attach_user_request. solve_sw. Qed.

Lemma attach_user_confirm_safe m s : readable s -> safe_with (only_user m) mcs_recv_attach_user_confirm m s.
Proof.
  intros Hr. pose proof (only_user_refl m). unfold mcs_recv_attach_user_confirm. 
  apply safe_with_needs; [solve_sw|done|intros ? m1 k1 Hm1 Hk1]. apply safe_with_needs; [solve_sw|done|intros ? m2 k2 Hm Hk2]. unfold needs.
  apply safe_user; [done|done|intros; solve_sw|intros u j Hu Hj]. sw_step. pose proof (only_user_set _ _ u Hm Hu). solve_sw.
Qed.

(** An accepted confirm has brought the id of a user. *)
Lemma attach_user_confirm_user m s :
  readable s -> safe_res (fun ok m' => only_user m m' /\ (ok = true -> user_id (userId m'))) mcs_recv_attach_user_confirm m s.
Proof.
  intros Hr. destruct (attach_user_confirm_safe m s Hr) as (ok & m' & k & E & Hk & Hm). exists ok, m', k. split_and!; [done|lia|lia|done|].
  intros ->. revert E. unfold mcs_recv_attach_user_confirm, needs, pbind, at_s, pzoom, upd_obj, pmodify. cbn [fst snd].
  destruct (mcs_read_domain_mcspdu_header _ s) as [[[len|] s1]| |] eqn:E1; try done.
  assert (Hs1 : readable s1) by (destruct (header_safe DomainMCSPDU_AttachUserConfirm s ltac:(done) Hr) as (? & j & E1' & Hj); rewrite E1' in E1; simplify_eq; by apply readable_advance).
  cbn [fst snd]. destruct (per_read_enumerated MCS_Result_enum_length s1) as [[[v|] s2]| |] eqn:E2; try done.
  assert (Hs2 : readable s2) by (destruct (read_enumerated_safe MCS_Result_enum_length s1 Hs1) as (? & j & E2' & Hj); rewrite E2' in E2; simplify_eq; by apply readable_advance).
  destruct (integer16_post MCS_BASE_CHANNEL_ID s2 ltac:(done) Hs2) as (u & j & E3 & _ & Hu). cbn [fst snd]. rewrite E3. destruct u as [u|]; [|done]. cbn [fst snd].
  destruct (tpkt_ensure_stream_consumed len _) as [[? ?]| |]; [|done|done]. cbn. intros [= _ <- _]. by apply Hu.
Qed.

Lemma channel_join_request_safe replay c m s :
  readable s -> safe_with (only_user m) (mcs_recv_channel_join_request replay c) m s.
Proof.
  intros Hr. pose proof (only_user_refl m). unfold mcs_recv_channel_join_request. 
  apply safe_with_bind; [solve_sw|done|intros [len|] m1 k1 Hm1 Hk1; [|solve_sw]].
  apply safe_user; [done|done|intros; solve_sw|intros u k Hu Hk]. pose proof (only_user_set _ _ u Hm1 Hu).
  sw_step. sw_step; [solve_sw|]. apply safe_with_bind; [case_if; solve_sw; done|done|intros; solve_sw].
Qed.

(** Outside of a replay the object is only read, and an accepted id has 16 bits. *)
Lemma channel_join_request_keeps c m s :
  readable s -> safe_res (fun res m' => m' = m /\ (res.1 = true -> channel_id res.2)) (mcs_recv_channel_join_request false c) m s.
Proof.
  intros Hr. unfold mcs_recv_channel_join_request.
  apply (safe_res_bind (fun _ m' => m' = m)); [apply safe_with_at_s; [done|auto with safe]|done|].
  intros [len|] m1 k1 -> Hk1; [|by apply safe_with_pret].
  apply (safe_res_bind (fun _ m' => m' = m)); [apply safe_with_at_s; [done|auto with safe]|done|].
  intros [u|] m1 k2 -> Hk2; [|by apply safe_with_pret].
  apply safe_with_pget. cbn [fst]. destruct (u =? userId m); cbn [negb andb]; [|by apply safe_with_pret].
  eapply safe_res_still; [done|].
  eapply safe_with_post; [apply (integer16_post 0); [done|done]|done|]. intros [id|] k3 Hid Hk3; [|by apply safe_with_pret].
  apply (safe_res_bind (fun _ m' => m' = m)); [apply safe_with_at_s; [done|auto with safe]|done|].
  intros ok m1 k4 -> Hk4. apply safe_with_pret; [|done]. split; [done|]. intros _. by apply Hid.
Qed.

Lemma channel_join_confirm_safe c m s :
  readable s -> safe_with (only_user m) (mcs_recv_channel_join_confirm c) m s.
Proof. intros Hr. pose proof (only_user_refl m). unfold mcs_recv_channel_join_confirm. solve_sw. Qed.

(** The object is only read. *)
Lemma channel_join_confirm_keeps c m s :
  readable s -> safe_with (eq m) (mcs_recv_channel_join_confirm c) m s.
Proof. intros Hr. assert (m = m) by done. unfold mcs_recv_channel_join_confirm. solve_sw. Qed.

Lemma disconnect_provider_ultimatum_safe s :
  readable s -> 1 <= pointer s -> safe_at mcs_recv_disconnect_provider_ultimatum s.
Proof.
  intros Hr Hp. unfold mcs_recv_disconnect_provider_ultimatum. apply safe_check; [done|intros H1|intros _; by apply safe_ret]. cbn [negb].
  destruct (unread s) as [|b2 r] eqn:Hu; [done|]. pose proof Hr as [[Hbuf Hcap Hsl Hpos Hby] Hle].
  set (s0 := advance s (-1)). assert (Hs : s = advance s0 1) by (unfold s0; by rewrite advance_advance, advance_0).
  assert (Hr0 : readable s0) by (split; [split|]; cbn; done || lia).
  assert (Hu0 : exists b1, unread s0 = b1 :: b2 :: r).
  { pose proof (zlen_unread s0 Hr0) as Hl. cbn in Hl. destruct (unread s0) as [|b1 r0] eqn:E0; [zlist_lia|].
    exists b1. f_equal. rewrite <- Hu, Hs, unread_advance, E0 by (done || lia). done. }
  destruct Hu0 as (b1 & Hu0). exists (Some (Z.lor (Z.shiftl (Z.land b1 0x01) 1) (Z.shiftr b2 7))), 1.
  split; [|rewrite Hu; zlist_lia]. rewrite Hs at 1. rewrite (pbind_ret _ _ _ _ _ (rewind_spec s0 1 1 Hr0 ltac:(lia))).
  change (1 - 1) with 0. rewrite advance_0. rd_step. rd_step. unfold pret, s0. rewrite !advance_advance. done.
Qed.
End safety.

(** ** Sending *)

Section sending.
Context {W : Type} `{HB : !FrontBio W} `{HP : !StreamPools W} `{HL : !WriteLaws W} `{HM : Malloc} `{HF : FreshMemory} `{HY : !ByteMemory}.
Implicit Types (t : rdpTransport W).

(** Nothing was done because memory ran out (a request of at most a megabyte was refused), or the transport has accepted a prefix of the PDU, all of it
    when it said so, which it does when its BIO takes everything; receiving is not affected. *)
Definition pdu_sent t t' (pdu : list Z) (ok : bool) : Prop :=
  WriteLock t' = WriteLock t /\ receive_fields t' = receive_fields t /\
  ((t' = t /\ ok = false /\ out_of_memory) \/
   exists status k, ok = (0 <=? status) /\ 0 <= k <= zlen pdu /\ (0 < status -> k = zlen pdu) /\
     outbox (bio t') = outbox (bio t) ++ ztake k pdu /\
     (forall E, takes_all E -> E (bio t) -> 0 < status /\ E (bio t')) /\
     layer t' = (if status <? 0 then TRANSPORT_LAYER_CLOSED else layer t) /\ Forall is_byte pdu).

(** A transport that does not wait, and rounds for [n] bytes; or one that takes everything. *)
Definition prompt (fuel : nat) t (n : Z) : Prop :=
  blocking t = false /\ WaitForOutputBufferFlush t = false /\ n <= Z.of_nat fuel.
Definition swift (fuel : nat) t (n : Z) : Prop := prompt fuel t n \/ (0 < fuel)%nat /\ exists E, takes_all E /\ E (bio t).

Lemma send_new_wp {S} fuel (size : Z) (wr : Prog (S * rdpTransport W) (Prog wStream bool)) w (x x' : S) t pdu :
  0 < zlen pdu <= size -> size <= 65536 -> wr (x, t) = Ret (w, (x', t)) -> fills w pdu ->
  wp (~ swift fuel t (zlen pdu)) (send_new fuel size wr) (x, t) (fun ok p => (p.1 = x \/ p.1 = x') /\ (ok = true -> p.1 = x') /\ pdu_sent t p.2 pdu ok).
Proof.
  intros Hz Hsize Ew Hw. unfold send_new.
  destruct (Stream_New None (fresh size) size) as [s|] eqn:Es.
  2: { apply wp_pret. split_and!; [by left|done|]. split_and!; [done|done|]. left. split_and!; [done|done|].
       eapply refused_le; [apply (stream_new_refused size); [lia|done]|lia]. }
  destruct (stream_new_spec size s ltac:(lia) Es) as ((Hs & _) & Hp & Hc).
  assert (Hc0 : count s = 0 /\ pool s = None) by (clear - Es; unfold Stream_New in Es; repeat case_match; by simplify_eq).
  destruct Hc0 as [Hc0 Hp0].
  eapply wp_step; [exact Ew|].
  destruct (Hw s Hs Hp ltac:(lia)) as (b & s1 & E1 & Hb).
  apply (wp_step _ _ _ _ (b, s1) (x', t)); [unfold on_new, plift; by rewrite E1|].
  destruct b; cbn [negb]; [|apply wp_pret; split_and!; [by right|done|]; split_and!; [done|done|left; by split_and!]].
  destruct Hb as (Hs1 & Hp1 & Ht1 & Hc1 & Hpool).
  pose proof (default_write_wp True fuel t s1 Hs1 ltac:(lia) ltac:(unfold INT_MAX; lia) ltac:(by right)) as Hwr.
  pose proof (fun E HE Ht => default_write_eager E fuel t s1 HE Ht Hs1 ltac:(congruence) ltac:(unfold INT_MAX; lia)) as Heager.
  unfold wp, transport_write, pzoom, pbind, with_s in *. cbn [fst snd].
  destruct (transport_default_write fuel (t, s1)) as [[r [t2 s2]]| |] eqn:Er; [|done|]. cbn [pret fst snd].
  - destruct Hwr as (_ & _ & _ & Hlock & Hrf & (k & Hk & Hout & Hpos & _) & Hlay).
    assert (Hheld : held s1 = pdu) by (unfold held; by rewrite Hp1).
    rewrite Hheld in *. split_and!; [by right|done|]. split_and!; [done|done|]. right. exists r, k.
    split_and!; [done|lia|lia|intros Hr; by apply Hpos|done| |done|rewrite <- Hheld; unfold held; apply Forall_ztake, Hs1].
    intros E HE Ht. destruct (Heager E HE Ht) as (t' & s' & He & Ee). destruct fuel; [done|]. injection Ee as -> -> ->. split; [lia|done].
  - intros [(Hb & Hw0 & Hn)|(Hf & E & HE & Ht)].
    + pose proof (default_write_wp False fuel t s1 Hs1 ltac:(lia) ltac:(unfold INT_MAX; lia)) as Hq. unfold wp in Hq. rewrite Er in Hq.
      apply Hq. left. unfold quick. rewrite Hp1. done.
    + destruct (Heager E HE Ht) as (t' & s' & _ & Ee). by destruct fuel; [lia|].
Qed.
End sending.

(** ** Claims *)

(** C20: what is sent in an MCS domain is received.  For each PDU: the sender either runs out of memory
    or hands the transport a prefix of one and the same encoding, all of it when the transport accepts it,
    leaving the write lock and the receiving side of the transport as they were; and that encoding is
    accepted by its receiver, which consumes it to the last byte and learns the user and channel ids that
    were sent.  An attached user gets the next free id. *)
Theorem mcs_pdu_exchange {W : Type} `{HB : !FrontBio W} `{HP : !StreamPools W} `{HL : !WriteLaws W} `{HM : Malloc}
    `{HF : FreshMemory} `{HY : !ByteMemory} (fuel : nat) (t : rdpTransport W) (m r : rdpMcs) (c c0 : Z) (replay : bool) :
  user_id (userId m) -> user_id (baseChannelId m) -> channel_id c -> userId r = userId m \/ replay = true ->
  let sends (snd : Prog (rdpMcs * rdpTransport W) bool) m' (pdu : list Z) :=
    wp (~ swift fuel t (zlen pdu)) snd (m, t) (fun ok p => (p.1 = m \/ p.1 = m') /\ (ok = true -> p.1 = m') /\ pdu_sent t p.2 pdu ok) in
  let m1 := m <| userId := baseChannelId m |> <| baseChannelId := u16 (baseChannelId m + 1) |> in
  (sends (mcs_send_erect_domain_request fuel) m erect_domain_request /\
     receives mcs_recv_erect_domain_request r erect_domain_request true r) /\
  (sends (mcs_send_attach_user_request fuel) m attach_user_request /\
     receives mcs_recv_attach_user_request r attach_user_request true r) /\
  (sends (mcs_send_attach_user_confirm fuel) m1 (attach_user_confirm (userId m1)) /\
     receives mcs_recv_attach_user_confirm r (attach_user_confirm (userId m1)) true (r <| userId := userId m1 |>)) /\
  (sends (mcs_send_channel_join_request fuel c) m (channel_join_request (userId m) c) /\
     receives (mcs_recv_channel_join_request replay c0) r (channel_join_request (userId m) c) (true, c) (r <| userId := userId m |>)) /\
  (sends (mcs_send_channel_join_confirm fuel c) m (channel_join_confirm (userId m) c) /\
     receives (mcs_recv_channel_join_confirm c0) r (channel_join_confirm (userId m) c) (true, c) r) /\
  (sends (mcs_send_disconnect_provider_ultimatum fuel) m disconnect_provider_ultimatum /\
     forall s, readable s -> unread s = disconnect_provider_ultimatum ->
     (mcs_read_domain_mcspdu_header DomainMCSPDU_DisconnectProviderUltimatum ;; mcs_recv_disconnect_provider_ultimatum) s =
       Ret (Some 3, advance s 9)).
Proof.
  intros Hu Hb Hc Hown sends m1. unfold sends. split_and!; try (eapply send_new_wp; [..|reflexivity|]; [by vm_compute|done|]).
  - apply erect_domain_request_fills.
  - apply erect_domain_request_received.
  - apply attach_user_request_fills.
  - apply attach_user_request_received.
  - by apply attach_user_confirm_fills.
  - by apply attach_user_confirm_received.
  - by apply channel_join_request_fills.
  - apply channel_join_request_received; [done|done|]. destruct Hown; [by left|by right].
  - by apply channel_join_confirm_fills.
  - by apply channel_join_confirm_received.
  - apply disconnect_provider_ultimatum_fills.
  - apply disconnect_provider_ultimatum_received.
Qed.

(** A client that has its user id, over a BIO that takes everything. *)
Definition sample_mcs : rdpMcs :=
  match mcs_new (H := malloc_all) with Some m => m <| userId := 1007 |> | None => mkMcs 1007 1004 0 0
    (mcs_init_domain_parameters 0 0 0 0) (mcs_init_domain_parameters 0 0 0 0) (mcs_init_domain_parameters 0 0 0 0)
    (mcs_init_domain_parameters 0 0 0 0) false false false 0 0 [] end.
Lemma send_sample_run : exists t', mcs_send_channel_join_request (HB := scripted_bio) (HP := no_pool) (HM := malloc_all) (HF := fresh_zero) 20 1003
    (sample_mcs, transport_over false []) = Ret (true, (sample_mcs, t')) /\
  sent (bio t') = [3; 0; 0; 12; 2; 240; 128; 56; 0; 6; 3; 235].
Proof. eexists. split; [vm_compute; reflexivity|reflexivity]. Qed.

Lemma mcs_pdu_exchange_witness :
  exists t', mcs_send_channel_join_request (HB := scripted_bio) (HP := no_pool) (HM := malloc_all) (HF := fresh_zero) 20 1003
    (sample_mcs, transport_over false []) = Ret (true, (sample_mcs, t')) /\ sent (bio t') = [3; 0; 0; 12; 2; 240; 128; 56; 0; 6; 3; 235] /\
    pdu_sent (HL := scripted_write_laws no_pool (fun _ _ => eq_refl)) (HM := malloc_all) (transport_over false []) t' (channel_join_request (userId sample_mcs) 1003) true /\
    receives (mcs_recv_channel_join_request false 0) sample_mcs (channel_join_request (userId sample_mcs) 1003) (true, 1003) (sample_mcs <| userId := userId sample_mcs |>).
Proof.
  destruct (mcs_pdu_exchange (HB := scripted_bio) (HL := scripted_write_laws no_pool (fun _ _ => eq_refl)) (HM := malloc_all)
    (HF := fresh_zero) (HY := fresh_zero_bytes) 20 (transport_over false []) sample_mcs sample_mcs 1003 0 false)
    as (_ & _ & _ & (Hsend & Hrecv) & _); [vm_compute; split; discriminate|vm_compute; split; discriminate|vm_compute; split; discriminate|by left|].
  destruct send_sample_run as (t' & E & Ht). 
  pose proof (wp_ret _ _ _ _ _ _ Hsend E) as (_ & _ & Hpost).
  exists t'. split; [exact E|]. split; [exact Ht|]. split; [exact Hpost|exact Hrecv].
Defined.

(** C21: on any received bytes every receiver of a domain PDU returns without a failed assertion or an
    access outside of the received bytes, its cursor stays within them, and of the MCS object nothing but
    the user id changes, to an id of a user at that.  The ultimatum is read again from the last byte of its
    header, so that byte must be there. *)
Theorem mcs_receivers_safe (m : rdpMcs) (s : wStream) (replay : bool) (c : Z) :
  readable s ->
  safe_with (only_user m) mcs_recv_erect_domain_request m s /\
  safe_with (only_user m) mcs_recv_attach_user_request m s /\
  safe_with (only_user m) mcs_recv_attach_user_confirm m s /\
  safe_with (only_user m) (mcs_recv_channel_join_request replay c) m s /\
  safe_with (only_user m) (mcs_recv_channel_join_confirm c) m s /\
  (1 <= pointer s -> safe_at mcs_recv_disconnect_provider_ultimatum s).
Proof.
  intros Hr. split_and!; auto using erect_domain_request_safe, attach_user_request_safe, attach_user_confirm_safe,
    channel_join_request_safe, channel_join_confirm_safe, disconnect_provider_ultimatum_safe.
Qed.

Lemma mcs_receivers_safe_witness :
  safe_with (only_user sample_mcs) (mcs_recv_channel_join_confirm 0) sample_mcs (Stream_StaticConstInit [3; 0; 0; 9; 2; 240; 128; 62; 0] 9).
Proof.
  apply (mcs_receivers_safe sample_mcs (Stream_StaticConstInit [3; 0; 0; 9; 2; 240; 128; 62; 0] 9) false 0).
  repeat split; cbn; try lia; repeat constructor; unfold is_byte; lia.
Defined.
