(* ===== verification/Gcc.v ===== *)
(** * Generic conference control: [libfreerdp/core/gcc.c]

    The user data of the MCS connect PDUs.  The client describes itself in blocks (core, cluster,
    security, network, monitors, message channel, multitransport), the server answers with its own
    (core, network, security, message channel, multitransport); each side merges what it reads into
    its settings and its MCS object.  The readers are programs over that pair and a stream. *)

From S2P Require Import Prelude Memory Stream Per Unicode UnicodeApi Readers Mcs.

(** ** Constants *)

Definition CS_CORE : Z := 0xC001.
Definition CS_SECURITY : Z := 0xC002.
Definition CS_NET : Z := 0xC003.
Definition CS_CLUSTER : Z := 0xC004.
Definition CS_MONITOR : Z := 0xC005.
Definition CS_MCS_MSGCHANNEL : Z := 0xC006.
Definition CS_MONITOR_EX : Z := 0xC008.
Definition CS_MULTITRANSPORT : Z := 0xC00A.
Definition CS_UNUSED1 : Z := 0xC00C.
Definition SC_CORE : Z := 0x0C01.
Definition SC_SECURITY : Z := 0x0C02.
Definition SC_NET : Z := 0x0C03.
Definition SC_MCS_MSGCHANNEL : Z := 0x0C04.
Definition SC_MULTITRANSPORT : Z := 0x0C08.

Definition RNS_UD_COLOR_4BPP : Z := 0xCA00.
Definition RNS_UD_COLOR_8BPP : Z := 0xCA01.
Definition RNS_UD_COLOR_16BPP_555 : Z := 0xCA02.
Definition RNS_UD_COLOR_16BPP_565 : Z := 0xCA03.
Definition RNS_UD_COLOR_24BPP : Z := 0xCA04.
Definition RNS_UD_SAS_DEL : Z := 0xAA03.

Definition RNS_UD_CS_SUPPORT_ERRINFO_PDU : Z := 0x0001.
Definition RNS_UD_CS_WANT_32BPP_SESSION : Z := 0x0002.
Definition RNS_UD_CS_SUPPORT_STATUSINFO_PDU : Z := 0x0004.
Definition RNS_UD_CS_STRONG_ASYMMETRIC_KEYS : Z := 0x0008.
Definition RNS_UD_CS_RELATIVE_MOUSE_INPUT : Z := 0x0010.
Definition RNS_UD_CS_VALID_CONNECTION_TYPE : Z := 0x0020.
Definition RNS_UD_CS_SUPPORT_MONITOR_LAYOUT_PDU : Z := 0x0040.
Definition RNS_UD_CS_SUPPORT_NETCHAR_AUTODETECT : Z := 0x0080.
Definition RNS_UD_CS_SUPPORT_DYNVC_GFX_PROTOCOL : Z := 0x0100.
Definition RNS_UD_CS_SUPPORT_DYNAMIC_TIME_ZONE : Z := 0x0200.
Definition RNS_UD_CS_SUPPORT_HEARTBEAT_PDU : Z := 0x0400.
Definition RNS_UD_CS_SUPPORT_SKIP_CHANNELJOIN : Z := 0x0800.
Definition RNS_UD_SC_EDGE_ACTIONS_SUPPORTED_V1 : Z := 0x1.
Definition RNS_UD_SC_DYNAMIC_DST_SUPPORTED : Z := 0x2.
Definition RNS_UD_SC_EDGE_ACTIONS_SUPPORTED_V2 : Z := 0x4.
Definition RNS_UD_SC_SKIP_CHANNELJOIN_SUPPORTED : Z := 0x8.

Definition ENCRYPTION_METHOD_NONE : Z := 0x0.
Definition ENCRYPTION_METHOD_40BIT : Z := 0x1.
Definition ENCRYPTION_METHOD_128BIT : Z := 0x2.
Definition ENCRYPTION_METHOD_56BIT : Z := 0x8.
Definition ENCRYPTION_METHOD_FIPS : Z := 0x10.
Definition ENCRYPTION_LEVEL_NONE : Z := 0x0.
Definition ENCRYPTION_LEVEL_LOW : Z := 0x1.
Definition ENCRYPTION_LEVEL_CLIENT_COMPATIBLE : Z := 0x2.
Definition ENCRYPTION_LEVEL_HIGH : Z := 0x3.
Definition ENCRYPTION_LEVEL_FIPS : Z := 0x4.

Definition REDIRECTION_SUPPORTED : Z := 0x1.
Definition REDIRECTED_SESSIONID_FIELD_VALID : Z := 0x2.
Definition REDIRECTED_SMARTCARD : Z := 0x40.
Definition REDIRECTION_VERSION5 : Z := 0x4.
Definition REDIRECTION_VERSION6 : Z := 0x5.
Definition MONITOR_PRIMARY : Z := 0x1.
Definition EXTENDED_CLIENT_DATA_SUPPORTED : Z := 0x1.

(** ** Settings *)

Record rdpMonitor : Type := mkMonitor {
  mon_x : Z; mon_y : Z; mon_width : Z; mon_height : Z; is_primary : bool;
  physicalWidth : Z; physicalHeight : Z; orientation : Z; desktopScaleFactor : Z; deviceScaleFactor : Z
}.
#[global] Instance eta_rdpMonitor : Eta rdpMonitor := fun m =>
  mkMonitor (mon_x m) (mon_y m) (mon_width m) (mon_height m) (is_primary m) (physicalWidth m)
    (physicalHeight m) (orientation m) (desktopScaleFactor m) (deviceScaleFactor m).

(** The fields of the settings that gcc.c reads or writes; MonitorDefArraySize is the length of
    [MonitorDefArray], ChannelDefArraySize that of [ChannelDefArray], an entry of which is the name
    and the options of a channel.  A string is kept with its null character. *)
Record rdpSettings : Type := mkSettings {
  RdpVersion : Z;
  DesktopWidth : Z;
  DesktopHeight : Z;
  KeyboardLayout : Z;
  ClientBuild : Z;
  ClientHostname : option (list Z);
  KeyboardType : Z;
  KeyboardSubType : Z;
  KeyboardFunctionKey : Z;
  SupportedColorDepths : Z;
  EarlyCapabilityFlags : Z;
  ClientProductId : option (list Z);
  ConnectionType : Z;
  SelectedProtocol : Z;
  DesktopPhysicalWidth : Z;
  DesktopPhysicalHeight : Z;
  DesktopOrientation : Z;
  DesktopScaleFactor : Z;
  DeviceScaleFactor : Z;
  ColorDepth : Z;
  ServerMode : bool;
  TransportDumpReplay : bool;
  SupportErrorInfoPdu : bool;
  SupportStatusInfoPdu : bool;
  SupportAsymetricKeys : bool;
  HasRelativeMouseEvent : bool;
  NetworkAutoDetect : bool;
  SupportSkipChannelJoin : bool;
  SupportMonitorLayoutPdu : bool;
  SupportHeartbeatPdu : bool;
  SupportGraphicsPipeline : bool;
  SupportDynamicTimeZone : bool;
  SupportEdgeActionV1 : bool;
  SupportEdgeActionV2 : bool;
  RequestedProtocols : Z;
  NegotiationFlags : Z;
  UseRdpSecurityLayer : bool;
  EncryptionMethods : Z;
  EncryptionLevel : Z;
  ServerRandomLength : Z;
  ServerRandom : option (list Z);
  ServerCertificateLength : Z;
  ServerCertificate : option (list Z);
  ClusterInfoFlags : Z;
  RedirectedSessionId : Z;
  ConsoleSession : bool;
  RedirectSmartCards : bool;
  SmartcardLogon : bool;
  SupportMultitransport : bool;
  MultitransportFlags : Z;
  UseMultimon : bool;
  SpanMonitors : bool;
  ForceMultimon : bool;
  MonitorFlags : Z;
  MonitorCount : Z;
  MonitorDefArray : list rdpMonitor;
  MonitorAttributeFlags : Z;
  HasMonitorAttributes : bool;
  ChannelCount : Z;
  ChannelDefArray : list (list Z * Z)
}.
#[global] Instance eta_rdpSettings : Eta rdpSettings := fun s =>
  mkSettings (RdpVersion s) (DesktopWidth s) (DesktopHeight s) (KeyboardLayout s) (ClientBuild s)
    (ClientHostname s) (KeyboardType s) (KeyboardSubType s) (KeyboardFunctionKey s)
    (SupportedColorDepths s) (EarlyCapabilityFlags s) (ClientProductId s) (ConnectionType s)
    (SelectedProtocol s) (DesktopPhysicalWidth s) (DesktopPhysicalHeight s) (DesktopOrientation s)
    (DesktopScaleFactor s) (DeviceScaleFactor s) (ColorDepth s) (ServerMode s)
    (TransportDumpReplay s) (SupportErrorInfoPdu s) (SupportStatusInfoPdu s)
    (SupportAsymetricKeys s) (HasRelativeMouseEvent s) (NetworkAutoDetect s)
    (SupportSkipChannelJoin s) (SupportMonitorLayoutPdu s) (SupportHeartbeatPdu s)
    (SupportGraphicsPipeline s) (SupportDynamicTimeZone s) (SupportEdgeActionV1 s)
    (SupportEdgeActionV2 s) (RequestedProtocols s) (NegotiationFlags s) (UseRdpSecurityLayer s)
    (EncryptionMethods s) (EncryptionLevel s) (ServerRandomLength s) (ServerRandom s)
    (ServerCertificateLength s) (ServerCertificate s) (ClusterInfoFlags s) (RedirectedSessionId s)
    (ConsoleSession s) (RedirectSmartCards s) (SmartcardLogon s) (SupportMultitransport s)
    (MultitransportFlags s) (UseMultimon s) (SpanMonitors s) (ForceMultimon s) (MonitorFlags s)
    (MonitorCount s) (MonitorDefArray s) (MonitorAttributeFlags s) (HasMonitorAttributes s)
    (ChannelCount s) (ChannelDefArray s).

(** The certificate of the server and the random number generator, which belong to the cryptographic
    library: whether a certificate is accepted, how the own one is written, and random bytes. *)
Class ServerCrypto : Type := {
  freerdp_certificate_read_server_cert : list Z -> bool;
  freerdp_certificate_write_server_cert : Prog wStream Z;
  winpr_RAND : Z -> list Z
}.

(** ** Programs over settings, MCS object and stream *)

Definition gobj : Type := rdpMcs * rdpSettings.
Abbreviation gstate := (gobj * wStream)%type.

Definition upd_mcs (f : rdpMcs -> rdpMcs) : Prog gstate unit := upd_obj (fun o => (f o.1, o.2)).
Definition upd_settings (f : rdpSettings -> rdpSettings) : Prog gstate unit := upd_obj (fun o => (o.1, f o.2)).
Definition the_settings : Prog gstate rdpSettings := p <- pget ;; pret p.1.2.
Definition the_mcs : Prog gstate rdpMcs := p <- pget ;; pret p.1.1.

Definition rd8 : Prog gstate Z := at_s (stream_read_u8 true).
Definition rd16 : Prog gstate Z := at_s (stream_read_u16_le true).
Definition rd32 : Prog gstate Z := at_s (stream_read_u32_le true).
Definition skip (n : Z) : Prog gstate unit := at_s (Stream_Seek n).

(** [array[i]] is changed; an index outside of the array is an access violation. *)
Definition array_set {A} (i : Z) (f : A -> A) (l : list A) : outcome (list A) :=
  if i <? 0 then Abort
  else match l !! Z.to_nat i with Some x => Ret (<[Z.to_nat i := f x]> l) | None => Abort end.

Definition upd_channel (i : Z) (f : rdpMcsChannel -> rdpMcsChannel) : Prog gstate unit :=
  m <- the_mcs ;; l <- plift (array_set i f (channels m)) ;; upd_mcs (fun m => m <| channels := l |>).
Definition upd_monitor (i : Z) (f : rdpMonitor -> rdpMonitor) : Prog gstate unit :=
  s <- the_settings ;; l <- plift (array_set i f (MonitorDefArray s)) ;; upd_settings (fun s => s <| MonitorDefArray := l |>).

Definition has_flag (flags flag : Z) : bool := negb (Z.land flags flag =? 0).

(** ** Headers of blocks *)

Definition gcc_read_user_data_header : Prog gstate (option (Z * Z)) :=
  ok <- at_s (Stream_CheckAndLogRequiredLength 4) ;;
  if negb ok then pret None else
  type <- rd16 ;;
  length <- rd16 ;;
  if length <? 4 then pret None else
  ok <- at_s (Stream_CheckAndLogRequiredLength (length - 4)) ;;
  if negb ok then pret None else pret (Some (type, length)).

Definition gcc_write_user_data_header `{Malloc} (type length : Z) : Prog wStream bool :=
  ok <- Stream_EnsureRemainingCapacity (4 + length) ;;
  if negb ok then pret false else
  Stream_Write_UINT16 type ;;
  Stream_Write_UINT16 length ;;
  pret true.

(** ** Core data *)

(** [rdp_version_common] returns the smaller version in every case. *)
Definition rdp_version_common (serverVersion clientVersion : Z) : Z := Z.min serverVersion clientVersion.

Definition ColorDepthToHighColor (bpp : Z) : Z :=
  if bpp =? 4 then 0x04 else if bpp =? 8 then 0x08 else if bpp =? 15 then 0x0F else if bpp =? 16 then 0x10 else 0x18.

Definition flag_if (b : bool) (flag : Z) : Z := if b then flag else 0.

Definition server_caps_mask : Z :=
  Z.lor RNS_UD_SC_EDGE_ACTIONS_SUPPORTED_V1 (Z.lor RNS_UD_SC_DYNAMIC_DST_SUPPORTED
    (Z.lor RNS_UD_SC_EDGE_ACTIONS_SUPPORTED_V2 RNS_UD_SC_SKIP_CHANNELJOIN_SUPPORTED)).
Definition filterAndLogEarlyServerCapabilityFlags (flags : Z) : Z := Z.land flags server_caps_mask.
Definition earlyServerCapsFromSettings (s : rdpSettings) : Z :=
  filterAndLogEarlyServerCapabilityFlags (
    Z.lor (flag_if (SupportEdgeActionV1 s) RNS_UD_SC_EDGE_ACTIONS_SUPPORTED_V1)
    (Z.lor (flag_if (SupportDynamicTimeZone s) RNS_UD_SC_DYNAMIC_DST_SUPPORTED)
    (Z.lor (flag_if (SupportEdgeActionV2 s) RNS_UD_SC_EDGE_ACTIONS_SUPPORTED_V2)
      (flag_if (SupportSkipChannelJoin s) RNS_UD_SC_SKIP_CHANNELJOIN_SUPPORTED)))).

(** All twelve flags. *)
Definition client_caps_mask : Z := 0x0FFF.
Definition filterAndLogEarlyClientCapabilityFlags (flags : Z) : Z := u16 (Z.land flags client_caps_mask).
Definition earlyClientCapsFromSettings (s : rdpSettings) : Z :=
  filterAndLogEarlyClientCapabilityFlags (
    Z.lor (flag_if (SupportErrorInfoPdu s) RNS_UD_CS_SUPPORT_ERRINFO_PDU)
    (Z.lor (flag_if (ColorDepth s =? 32) RNS_UD_CS_WANT_32BPP_SESSION)
    (Z.lor (flag_if (SupportStatusInfoPdu s) RNS_UD_CS_SUPPORT_STATUSINFO_PDU)
    (Z.lor (flag_if (negb (ConnectionType s =? 0)) RNS_UD_CS_VALID_CONNECTION_TYPE)
    (Z.lor (flag_if (SupportMonitorLayoutPdu s) RNS_UD_CS_SUPPORT_MONITOR_LAYOUT_PDU)
    (Z.lor (flag_if (NetworkAutoDetect s) RNS_UD_CS_SUPPORT_NETCHAR_AUTODETECT)
    (Z.lor (flag_if (SupportGraphicsPipeline s) RNS_UD_CS_SUPPORT_DYNVC_GFX_PROTOCOL)
    (Z.lor (flag_if (SupportDynamicTimeZone s) RNS_UD_CS_SUPPORT_DYNAMIC_TIME_ZONE)
    (Z.lor (flag_if (SupportHeartbeatPdu s) RNS_UD_CS_SUPPORT_HEARTBEAT_PDU)
    (Z.lor (flag_if (SupportAsymetricKeys s) RNS_UD_CS_STRONG_ASYMMETRIC_KEYS)
    (Z.lor (flag_if (HasRelativeMouseEvent s) RNS_UD_CS_RELATIVE_MOUSE_INPUT)
      (flag_if (SupportSkipChannelJoin s) RNS_UD_CS_SUPPORT_SKIP_CHANNELJOIN)))))))))))).

(** A capability both sides have to support. *)
Definition both (own : bool) (flags flag : Z) : bool := own && has_flag flags flag.

Definition updateEarlyClientCaps (flags connectionType : Z) (s : rdpSettings) : rdpSettings :=
  s <| SupportErrorInfoPdu := both (SupportErrorInfoPdu s) flags RNS_UD_CS_SUPPORT_ERRINFO_PDU |>
    <| SupportStatusInfoPdu := both (SupportStatusInfoPdu s) flags RNS_UD_CS_SUPPORT_STATUSINFO_PDU |>
    <| SupportAsymetricKeys := both (SupportAsymetricKeys s) flags RNS_UD_CS_STRONG_ASYMMETRIC_KEYS |>
    <| HasRelativeMouseEvent := both (HasRelativeMouseEvent s) flags RNS_UD_CS_RELATIVE_MOUSE_INPUT |>
    <| NetworkAutoDetect := both (NetworkAutoDetect s) flags RNS_UD_CS_SUPPORT_NETCHAR_AUTODETECT |>
    <| SupportSkipChannelJoin := both (SupportSkipChannelJoin s) flags RNS_UD_CS_SUPPORT_SKIP_CHANNELJOIN |>
    <| SupportMonitorLayoutPdu := both (SupportMonitorLayoutPdu s) flags RNS_UD_CS_SUPPORT_MONITOR_LAYOUT_PDU |>
    <| SupportHeartbeatPdu := both (SupportHeartbeatPdu s) flags RNS_UD_CS_SUPPORT_HEARTBEAT_PDU |>
    <| SupportGraphicsPipeline := both (SupportGraphicsPipeline s) flags RNS_UD_CS_SUPPORT_DYNVC_GFX_PROTOCOL |>
    <| SupportDynamicTimeZone := both (SupportDynamicTimeZone s) flags RNS_UD_CS_SUPPORT_DYNAMIC_TIME_ZONE |>
    <| ConnectionType := if has_flag flags RNS_UD_CS_VALID_CONNECTION_TYPE then connectionType else 0 |>.

Definition updateEarlyServerCaps (flags : Z) (s : rdpSettings) : rdpSettings :=
  s <| SupportEdgeActionV1 := both (SupportEdgeActionV1 s) flags RNS_UD_SC_EDGE_ACTIONS_SUPPORTED_V1 |>
    <| SupportDynamicTimeZone := both (SupportDynamicTimeZone s) flags RNS_UD_SC_DYNAMIC_DST_SUPPORTED |>
    <| SupportEdgeActionV2 := both (SupportEdgeActionV2 s) flags RNS_UD_SC_EDGE_ACTIONS_SUPPORTED_V2 |>
    <| SupportSkipChannelJoin := both (SupportSkipChannelJoin s) flags RNS_UD_SC_SKIP_CHANNELJOIN_SUPPORTED |>.

(** [n] UTF-16 units stored as little-endian bytes. *)
Fixpoint units_of (bs : list Z) : list Z :=
  match bs with
  | lo :: hi :: r => (lo + 256 * hi) :: units_of r
  | _ => []
  end.

(** The length or -1, and the contents of the buffer; the last error of the thread is not used. *)
Definition Stream_Read_UTF16_String_As_UTF8_Buffer (wcharLength : Z) (utfBuffer : list Z) : Prog wStream (Z * list Z) :=
  ok <- Stream_CheckAndLogRequiredLength (wcharLength * 2) ;;
  if negb ok then pret (-1, utfBuffer) else
  bs <- load_bytes (wcharLength * 2) ;;
  Stream_Seek (wcharLength * 2) ;;
  r <- plift (ConvertWCharNToUtf8 (Some (units_of bs)) wcharLength (zlen utfBuffer) (mkUbuf (Some utfBuffer) 0)) ;;
  pret (r.1, match u_dst r.2 with Some b => b | None => utfBuffer end).

(** The string in a buffer: the characters before the first null character, which must be there. *)
Definition c_string (b : list Z) : outcome (list Z) :=
  match c_strlen b with Ret n => Ret (ztake n b) | Abort => Abort | Hang => Hang end.

Section settings_strings.
Context `{HM : Malloc}.

(** [freerdp_settings_set_string]: a copy of the string in [b] with its null character. *)
Definition set_string (set : option (list Z) -> rdpSettings -> rdpSettings) (b : list Z) : Prog gstate bool :=
  str <- plift (c_string b) ;;
  if malloc_ok (zlen str + 1) then upd_settings (set (Some (str ++ [0]))) ;; pret true
  else upd_settings (set None) ;; pret false.

Definition strbuffer : list Z := zrep 130 0.

(** The local variables that outlive the optional fields. *)
Record core_locals : Type := mkLocals { postBeta2ColorDepth : Z; highColorDepth : Z; connectionType : Z }.
#[local] Instance eta_core_locals : Eta core_locals := fun l =>
  mkLocals (postBeta2ColorDepth l) (highColorDepth l) (connectionType l).

(** [if (blockLength < n) break;] *)
Definition optional (n blockLength : Z) (l : core_locals) (k : Prog gstate (option core_locals)) : Prog gstate (option core_locals) :=
  if blockLength <? n then pret (Some l) else k.

(** The fields behind the product id; [None] is [return FALSE]. *)
Definition read_core_tail (blockLength : Z) (l : core_locals) : Prog gstate (option core_locals) :=
  optional 1 blockLength l (
  v <- rd8 ;; let l := l <| connectionType := v |> in
  optional 1 (blockLength - 1) l (
  skip 1 ;;
  optional 4 (blockLength - 2) l (
  serverSelectedProtocol <- rd32 ;;
  optional 4 (blockLength - 6) l (
  v <- rd32 ;; upd_settings (fun s => s <| DesktopPhysicalWidth := v |>) ;;
  optional 4 (blockLength - 10) l (
  v <- rd32 ;; upd_settings (fun s => s <| DesktopPhysicalHeight := v |>) ;;
  optional 2 (blockLength - 14) l (
  v <- rd16 ;; upd_settings (fun s => s <| DesktopOrientation := v |>) ;;
  optional 4 (blockLength - 16) l (
  v <- rd32 ;; upd_settings (fun s => s <| DesktopScaleFactor := v |>) ;;
  optional 4 (blockLength - 20) l (
  v <- rd32 ;; upd_settings (fun s => s <| DeviceScaleFactor := v |>) ;;
  s <- the_settings ;;
  if TransportDumpReplay s then
    upd_settings (fun s => s <| SelectedProtocol := serverSelectedProtocol |>) ;; pret (Some l)
  else if negb (SelectedProtocol s =? serverSelectedProtocol) then pret None
  else pret (Some l))))))))).

(** All optional fields; [str] is the contents of [strbuffer]. *)
Definition read_core_optional (blockLength : Z) (str : list Z) : Prog gstate (option core_locals) :=
  let l := mkLocals 0 0 0 in
  optional 2 blockLength l (
  v <- rd16 ;; let l := l <| postBeta2ColorDepth := v |> in
  optional 2 (blockLength - 2) l (
  rd16 ;;
  optional 4 (blockLength - 4) l (
  skip 4 ;;
  optional 2 (blockLength - 8) l (
  v <- rd16 ;; let l := l <| highColorDepth := v |> in
  optional 2 (blockLength - 10) l (
  v <- rd16 ;; upd_settings (fun s => s <| SupportedColorDepths := v |>) ;;
  optional 2 (blockLength - 12) l (
  v <- rd16 ;; upd_settings (fun s => s <| EarlyCapabilityFlags := v |>) ;;
  optional 64 (blockLength - 14) l (
  r <- at_s (Stream_Read_UTF16_String_As_UTF8_Buffer (64 / 2) str) ;;
  if r.1 <? 0 then pret None else
  ok <- set_string (fun v s => s <| ClientProductId := v |>) r.2 ;;
  if negb ok then pret None else
  read_core_tail (blockLength - 78) l))))))).

(** The depth the client asks for. *)
Definition client_color_depth (colorDepth : Z) (flags : Z) (l : core_locals) : option Z :=
  if 0 <? highColorDepth l then
    Some (if has_flag flags RNS_UD_CS_WANT_32BPP_SESSION then 32 else highColorDepth l)
  else if 0 <? postBeta2ColorDepth l then
    let d := postBeta2ColorDepth l in
    if d =? RNS_UD_COLOR_4BPP then Some 4 else if d =? RNS_UD_COLOR_8BPP then Some 8
    else if d =? RNS_UD_COLOR_16BPP_555 then Some 15 else if d =? RNS_UD_COLOR_16BPP_565 then Some 16
    else if d =? RNS_UD_COLOR_24BPP then Some 24 else None
  else if colorDepth =? RNS_UD_COLOR_4BPP then Some 4 else if colorDepth =? RNS_UD_COLOR_8BPP then Some 8 else None.

Definition gcc_read_client_core_data : Prog gstate bool :=
  blockLength <- at_s Stream_GetRemainingLength ;;
  if blockLength <? 128 then pret false else
  version <- rd32 ;; upd_settings (fun s => s <| RdpVersion := rdp_version_common version (RdpVersion s) |>) ;;
  v <- rd16 ;; upd_settings (fun s => s <| DesktopWidth := v |>) ;;
  v <- rd16 ;; upd_settings (fun s => s <| DesktopHeight := v |>) ;;
  colorDepth <- rd16 ;;
  skip 2 ;;
  v <- rd32 ;; upd_settings (fun s => s <| KeyboardLayout := v |>) ;;
  v <- rd32 ;; upd_settings (fun s => s <| ClientBuild := v |>) ;;
  r <- at_s (Stream_Read_UTF16_String_As_UTF8_Buffer (32 / 2) strbuffer) ;;
  if r.1 <? 0 then pret false else
  ok <- set_string (fun v s => s <| ClientHostname := v |>) r.2 ;;
  if negb ok then pret false else
  v <- rd32 ;; upd_settings (fun s => s <| KeyboardType := v |>) ;;
  v <- rd32 ;; upd_settings (fun s => s <| KeyboardSubType := v |>) ;;
  v <- rd32 ;; upd_settings (fun s => s <| KeyboardFunctionKey := v |>) ;;
  skip 64 ;;
  l <- read_core_optional (blockLength - 128) r.2 ;;
  match l with
  | None => pret false
  | Some l =>
      s <- the_settings ;;
      match client_color_depth colorDepth (EarlyCapabilityFlags s) l with
      | None => pret false
      | Some depth =>
          upd_settings (fun s => if (depth <? ColorDepth s) || negb (ServerMode s) then s <| ColorDepth := depth |> else s) ;;
          upd_settings (fun s => updateEarlyClientCaps (EarlyCapabilityFlags s) (connectionType l) s) ;;
          pret true
      end
  end.
End settings_strings.

(** The first [max] units of a converted string, the last of them replaced by a null character when
    there are as many; nothing when the conversion failed. *)
Definition truncated (max : Z) (w : option (list Z * Z)) : list Z :=
  match w with
  | None => []
  | Some (ws, len) => if max <=? len then ztake (max - 1) ws ++ [0] else ztake len ws
  end.

Section writing_core.
Context `{HM : Malloc}.

Definition gcc_write_client_core_data (s : rdpSettings) : Prog wStream bool :=
  require (gcc_write_user_data_header CS_CORE 234) (
  name <- plift (ConvertUtf8ToWCharAlloc (ClientHostname s) 0) ;;
  product <- plift (ConvertUtf8ToWCharAlloc (ClientProductId s) 0) ;;
  Stream_Write_UINT32 (RdpVersion s) ;;
  Stream_Write_UINT16 (DesktopWidth s) ;;
  Stream_Write_UINT16 (DesktopHeight s) ;;
  Stream_Write_UINT16 RNS_UD_COLOR_8BPP ;;
  Stream_Write_UINT16 RNS_UD_SAS_DEL ;;
  Stream_Write_UINT32 (KeyboardLayout s) ;;
  Stream_Write_UINT32 (ClientBuild s) ;;
  let clientName := truncated 16 name.1 in
  require (Stream_EnsureRemainingCapacity (32 + 12 + 64 + 8)) (
  Stream_Write (enc_utf16 clientName) ;;
  Stream_Zero (32 - zlen clientName * 2) ;;
  Stream_Write_UINT32 (KeyboardType s) ;;
  Stream_Write_UINT32 (KeyboardSubType s) ;;
  Stream_Write_UINT32 (KeyboardFunctionKey s) ;;
  Stream_Zero 64 ;;
  Stream_Write_UINT16 RNS_UD_COLOR_8BPP ;;
  Stream_Write_UINT16 1 ;;
  Stream_Write_UINT32 0 ;;
  require (Stream_EnsureRemainingCapacity 6) (
  Stream_Write_UINT16 (ColorDepthToHighColor (ColorDepth s)) ;;
  Stream_Write_UINT16 (u16 (SupportedColorDepths s)) ;;
  Stream_Write_UINT16 (earlyClientCapsFromSettings s) ;;
  let clientDigProductId := truncated 32 product.1 in
  require (Stream_EnsureRemainingCapacity (64 + 24)) (
  Stream_Write (enc_utf16 clientDigProductId) ;;
  Stream_Zero (64 - zlen clientDigProductId * 2) ;;
  Stream_Write_UINT8 (u8 (ConnectionType s)) ;;
  Stream_Write_UINT8 0 ;;
  Stream_Write_UINT32 (SelectedProtocol s) ;;
  Stream_Write_UINT32 (DesktopPhysicalWidth s) ;;
  Stream_Write_UINT32 (DesktopPhysicalHeight s) ;;
  Stream_Write_UINT16 (DesktopOrientation s) ;;
  Stream_Write_UINT32 (DesktopScaleFactor s) ;;
  Stream_Write_UINT32 (DeviceScaleFactor s) ;;
  pret true)))).
End writing_core.

Definition gcc_read_server_core_data : Prog gstate bool :=
  ok <- at_s (Stream_CheckAndLogRequiredLength 4) ;;
  if negb ok then pret false else
  serverVersion <- rd32 ;;
  upd_settings (fun s => s <| RdpVersion := rdp_version_common serverVersion (RdpVersion s) |>) ;;
  rem <- at_s Stream_GetRemainingLength ;;
  (if 4 <=? rem then v <- rd32 ;; upd_settings (fun s => s <| RequestedProtocols := v |>) else pret tt) ;;
  rem <- at_s Stream_GetRemainingLength ;;
  (if 4 <=? rem then v <- rd32 ;; upd_settings (fun s => s <| EarlyCapabilityFlags := v |>) else pret tt) ;;
  upd_settings (fun s => updateEarlyServerCaps (EarlyCapabilityFlags s) s) ;;
  pret true.

Definition gcc_write_server_core_data `{Malloc} (s : rdpSettings) : Prog wStream bool :=
  require (gcc_write_user_data_header SC_CORE 16) (
  Stream_Write_UINT32 (RdpVersion s) ;;
  Stream_Write_UINT32 (RequestedProtocols s) ;;
  Stream_Write_UINT32 (earlyServerCapsFromSettings s) ;;
  pret true).

(** ** Security data *)

Definition gcc_read_client_security_data : Prog gstate bool :=
  blockLength <- at_s Stream_GetRemainingLength ;;
  if blockLength <? 8 then pret false else
  s <- the_settings ;;
  (if UseRdpSecurityLayer s then
     v <- rd32 ;; upd_settings (fun s => s <| EncryptionMethods := v |>) ;;
     if v =? ENCRYPTION_METHOD_NONE then v <- rd32 ;; upd_settings (fun s => s <| EncryptionMethods := v |>)
     else skip 4
   else skip 8) ;;
  pret true.

Definition gcc_write_client_security_data `{Malloc} (s : rdpSettings) : Prog wStream bool :=
  require (gcc_write_user_data_header CS_SECURITY 12) (
  (if UseRdpSecurityLayer s then Stream_Write_UINT32 (EncryptionMethods s) ;; Stream_Write_UINT32 0
   else Stream_Write_UINT32 0 ;; Stream_Write_UINT32 (EncryptionMethods s)) ;;
  pret true).

Definition known_method (m : Z) : bool :=
  (m =? ENCRYPTION_METHOD_NONE) || (m =? ENCRYPTION_METHOD_40BIT) || (m =? ENCRYPTION_METHOD_56BIT) ||
  (m =? ENCRYPTION_METHOD_128BIT) || (m =? ENCRYPTION_METHOD_FIPS).

Definition valid_crypto_config (level m : Z) : bool :=
  if level =? ENCRYPTION_LEVEL_NONE then m =? ENCRYPTION_METHOD_NONE
  else if level =? ENCRYPTION_LEVEL_FIPS then m =? ENCRYPTION_METHOD_FIPS
  else if (level =? ENCRYPTION_LEVEL_LOW) || (level =? ENCRYPTION_LEVEL_HIGH) || (level =? ENCRYPTION_LEVEL_CLIENT_COMPATIBLE) then
    (m =? ENCRYPTION_METHOD_40BIT) || (m =? ENCRYPTION_METHOD_56BIT) || (m =? ENCRYPTION_METHOD_128BIT) || (m =? ENCRYPTION_METHOD_FIPS)
  else false.

(** The label [fail]. *)
Definition drop_server_random : Prog gstate bool :=
  upd_settings (fun s => s <| ServerRandom := None |> <| ServerCertificate := None |>) ;; pret false.

Section security.
Context `{HM : Malloc} `{HC : ServerCrypto}.

(** Behind the lengths: [freerdp_settings_set_pointer_len] replaces pointer and length. *)
Definition read_server_random (randomLength certLength : Z) : Prog gstate bool :=
  ok <- at_s (Stream_CheckAndLogRequiredLength randomLength) ;;
  if negb ok then pret false else
  if negb (malloc_ok randomLength) then
    upd_settings (fun s => s <| ServerRandomLength := 0 |>) ;; drop_server_random
  else
    bs <- at_s (Stream_Read randomLength) ;;
    upd_settings (fun s => s <| ServerRandom := Some bs |> <| ServerRandomLength := randomLength |>) ;;
    ok <- at_s (Stream_CheckAndLogRequiredLength certLength) ;;
    if negb ok then drop_server_random else
    if negb (malloc_ok certLength) then
      upd_settings (fun s => s <| ServerCertificateLength := 0 |>) ;; drop_server_random
    else
      cert <- at_s (Stream_Read certLength) ;;
      upd_settings (fun s => s <| ServerCertificate := Some cert |> <| ServerCertificateLength := certLength |>) ;;
      if negb (freerdp_certificate_read_server_cert cert) then drop_server_random else pret true.

Definition gcc_read_server_security_data : Prog gstate bool :=
  ok <- at_s (Stream_CheckAndLogRequiredLength 8) ;;
  if negb ok then pret false else
  method <- rd32 ;;
  level <- rd32 ;;
  if negb (known_method method) then pret false else
  upd_settings (fun s => s <| EncryptionMethods := method |> <| EncryptionLevel := level |>) ;;
  if negb (valid_crypto_config level method) then pret false else
  if level =? ENCRYPTION_LEVEL_NONE then upd_settings (fun s => s <| UseRdpSecurityLayer := false |>) ;; pret true
  else
    ok <- at_s (Stream_CheckAndLogRequiredLength 8) ;;
    if negb ok then pret false else
    randomLength <- rd32 ;;
    certLength <- rd32 ;;
    upd_settings (fun s => s <| ServerRandomLength := randomLength |> <| ServerCertificateLength := certLength |>) ;;
    if (randomLength =? 0) || (certLength =? 0) then pret false
    else read_server_random randomLength certLength.

(** 32 random bytes, or the settings without a random number when memory runs out. *)
Definition gcc_update_server_random (s : rdpSettings) : bool * rdpSettings :=
  if malloc_ok 32 then (true, s <| ServerRandom := Some (ztake 32 (winpr_RAND 32)) |> <| ServerRandomLength := 32 |>)
  else (false, s <| ServerRandom := None |> <| ServerRandomLength := 0 |>).

(** The stream with the new server random number in the settings. *)
Definition write_server_security (s : rdpSettings) : Prog wStream bool :=
  posHeader <- Stream_GetPosition ;;
  require (gcc_write_user_data_header SC_SECURITY 12) (
  Stream_Write_UINT32 (EncryptionMethods s) ;;
  Stream_Write_UINT32 (EncryptionLevel s) ;;
  if EncryptionMethods s =? ENCRYPTION_METHOD_NONE then pret true else
  require (Stream_EnsureRemainingCapacity (4 + ServerRandomLength s)) (
  Stream_Write_UINT32 (ServerRandomLength s) ;;
  posCertLen <- Stream_GetPosition ;;
  Stream_Seek 4 ;;
  Stream_Write (ztake (ServerRandomLength s) (match ServerRandom s with Some bs => bs | None => [] end)) ;;
  len <- freerdp_certificate_write_server_cert ;;
  if len <? 0 then pret false else
  finish <- Stream_GetPosition ;;
  Stream_SetPosition posHeader ;;
  require (gcc_write_user_data_header SC_SECURITY (u16 (finish - posHeader))) (
  Stream_SetPosition posCertLen ;;
  passert (len <=? UINT32_MAX) ;;
  Stream_Write_UINT32 len ;;
  Stream_SetPosition finish ;;
  pret true))).

Definition gcc_write_server_security_data (s : rdpSettings) : Prog wStream (bool * rdpSettings) :=
  let '(ok, s) := gcc_update_server_random s in
  if negb ok then pret (false, s) else ok <- write_server_security s ;; pret (ok, s).
End security.

(** ** Network data: the static channels *)

(** One entry of the channel array; the next free id becomes the id of the channel. *)
Fixpoint read_channel_defs (n : nat) (i : Z) : Prog gstate bool :=
  match n with
  | O => pret true
  | S n =>
      name <- at_s (Stream_Read (CHANNEL_NAME_LEN + 1)) ;;
      upd_channel i (fun c => c <| Name := name |>) ;;
      if negb (existsb (Z.eqb 0) name) then pret false else
      v <- rd32 ;;
      m <- the_mcs ;;
      upd_channel i (fun c => c <| options := v |> <| ChannelId := baseChannelId m |>) ;;
      upd_mcs (fun m => m <| baseChannelId := u16 (baseChannelId m + 1) |>) ;;
      read_channel_defs n (i + 1)
  end.

Definition gcc_read_client_network_data : Prog gstate bool :=
  blockLength <- at_s Stream_GetRemainingLength ;;
  if blockLength <? 4 then pret false else
  v <- rd32 ;; upd_mcs (fun m => m <| channelCount := v |>) ;;
  if blockLength <? u32 (4 + u32 (v * 12)) then pret false else
  if CHANNEL_MAX_COUNT <? v then pret false else
  read_channel_defs (Z.to_nat v) 0.

Section writing_network.
Context `{HM : Malloc}.

(** [channels[i]] for each [i] below the count. *)
Fixpoint write_channel_defs (n : nat) (l : list rdpMcsChannel) : Prog wStream unit :=
  match n, l with
  | O, _ => pret tt
  | S n, c :: l => Stream_Write (Name c) ;; Stream_Write_UINT32 (options c) ;; write_channel_defs n l
  | S _, [] => plift Abort
  end.

Definition gcc_write_client_network_data (m : rdpMcs) : Prog wStream bool :=
  if 0 <? channelCount m then
    require (gcc_write_user_data_header CS_NET (u16 (channelCount m * 12 + 8))) (
    Stream_Write_UINT32 (channelCount m) ;;
    write_channel_defs (Z.to_nat (channelCount m)) (channels m) ;;
    pret true)
  else pret true.

Fixpoint write_channel_ids (n : nat) (l : list rdpMcsChannel) : Prog wStream unit :=
  match n, l with
  | O, _ => pret tt
  | S n, c :: l => Stream_Write_UINT16 (ChannelId c) ;; write_channel_ids n l
  | S _, [] => plift Abort
  end.

Definition gcc_write_server_network_data (m : rdpMcs) : Prog wStream bool :=
  let odd := channelCount m mod 2 =? 1 in
  require (gcc_write_user_data_header SC_NET (u16 (8 + channelCount m * 2 + (if odd then 2 else 0)))) (
  Stream_Write_UINT16 MCS_GLOBAL_CHANNEL_ID ;;
  Stream_Write_UINT16 (u16 (channelCount m)) ;;
  write_channel_ids (Z.to_nat (channelCount m)) (channels m) ;;
  (if odd then Stream_Write_UINT16 0 else pret tt) ;;
  pret true).
End writing_network.

Fixpoint read_channel_ids (n : nat) (i : Z) : Prog gstate unit :=
  match n with
  | O => pret tt
  | S n => v <- rd16 ;; upd_channel i (fun c => c <| ChannelId := v |>) ;; read_channel_ids n (i + 1)
  end.

Definition gcc_read_server_network_data : Prog gstate bool :=
  ok <- at_s (Stream_CheckAndLogRequiredLength 4) ;;
  if negb ok then pret false else
  rd16 ;;
  count <- rd16 ;;
  m <- the_mcs ;;
  (if negb (count =? channelCount m) then upd_mcs (fun m => m <| channelCount := count |>) else pret tt) ;;
  ok <- at_s (Stream_CheckAndLogRequiredLengthEx count 2) ;;
  if negb ok then pret false else
  if channelMaxCount m <? count then pret false else
  read_channel_ids (Z.to_nat count) 0 ;;
  if count mod 2 =? 1 then at_s (Stream_SafeSeekEx 2) else pret true.

(** ** Cluster data *)

Definition gcc_read_client_cluster_data : Prog gstate bool :=
  blockLength <- at_s Stream_GetRemainingLength ;;
  if blockLength <? 8 then pret false else
  flags <- rd32 ;; upd_settings (fun s => s <| ClusterInfoFlags := flags |>) ;;
  id <- rd32 ;;
  (if has_flag flags REDIRECTED_SESSIONID_FIELD_VALID then upd_settings (fun s => s <| RedirectedSessionId := id |>) else pret tt) ;;
  upd_settings (fun s => s <| ConsoleSession := has_flag flags REDIRECTED_SESSIONID_FIELD_VALID |>
                           <| RedirectSmartCards := has_flag flags REDIRECTED_SMARTCARD |>) ;;
  (if negb (blockLength =? 8) then
     rem <- at_s Stream_GetRemainingLength ;;
     if blockLength - 8 <=? rem then skip (blockLength - 8) else pret tt
   else pret tt) ;;
  pret true.

Definition cluster_flags (s : rdpSettings) : Z :=
  let flags := ClusterInfoFlags s in
  let flags := Z.lor flags (flag_if (ConsoleSession s || negb (RedirectedSessionId s =? 0)) REDIRECTED_SESSIONID_FIELD_VALID) in
  let flags := Z.lor flags (flag_if (RedirectSmartCards s && SmartcardLogon s) REDIRECTED_SMARTCARD) in
  if has_flag flags REDIRECTION_SUPPORTED then
    Z.lor flags (Z.shiftl (if SupportMultitransport s then REDIRECTION_VERSION6 else REDIRECTION_VERSION5) 2)
  else flags.

Definition gcc_write_client_cluster_data `{Malloc} (s : rdpSettings) : Prog wStream bool :=
  require (gcc_write_user_data_header CS_CLUSTER 12) (
  Stream_Write_UINT32 (cluster_flags s) ;;
  Stream_Write_UINT32 (RedirectedSessionId s) ;;
  pret true).

(** ** Monitors *)

Fixpoint read_monitors (n : nat) (i : Z) : Prog gstate unit :=
  match n with
  | O => pret tt
  | S n =>
      left <- rd32 ;; top <- rd32 ;; right <- rd32 ;; bottom <- rd32 ;; flags <- rd32 ;;
      upd_monitor i (fun c => c <| mon_x := i32 left |> <| mon_y := i32 top |>
        <| mon_width := i32 (right - left + 1) |> <| mon_height := i32 (bottom - top + 1) |>
        <| is_primary := has_flag flags MONITOR_PRIMARY |>) ;;
      read_monitors n (i + 1)
  end.

Definition gcc_read_client_monitor_data : Prog gstate bool :=
  blockLength <- at_s Stream_GetRemainingLength ;;
  if blockLength <? 8 then pret false else
  flags <- rd32 ;; upd_settings (fun s => s <| MonitorFlags := flags |>) ;;
  announced <- rd32 ;;
  if 16 <? announced then pret false else
  s <- the_settings ;;
  let count := Z.min announced (zlen (MonitorDefArray s)) in
  if u32 ((blockLength - 8) / 20) <? count then pret false else
  upd_settings (fun s => s <| MonitorCount := count |>) ;;
  read_monitors (Z.to_nat count) 0 ;;
  pret true.

(** The coordinates of the first primary monitor, or (0, 0). *)
Fixpoint primary_base (n : nat) (l : list rdpMonitor) : outcome (Z * Z) :=
  match n, l with
  | O, _ => Ret (0, 0)
  | S n, c :: l => if is_primary c then Ret (mon_x c, mon_y c) else primary_base n l
  | S _, [] => Abort
  end.

Section writing_monitors.
Context `{HM : Malloc}.

Fixpoint write_monitors (n : nat) (baseX baseY : Z) (l : list rdpMonitor) : Prog wStream unit :=
  match n, l with
  | O, _ => pret tt
  | S n, c :: l =>
      let left := u32 (mon_x c - baseX) in
      let top := u32 (mon_y c - baseY) in
      Stream_Write_UINT32 left ;;
      Stream_Write_UINT32 top ;;
      Stream_Write_UINT32 (u32 (left + mon_width c - 1)) ;;
      Stream_Write_UINT32 (u32 (top + mon_height c - 1)) ;;
      Stream_Write_UINT32 (flag_if (is_primary c) MONITOR_PRIMARY) ;;
      write_monitors n baseX baseY l
  | S _, [] => plift Abort
  end.

Definition gcc_write_client_monitor_data (s : rdpSettings) : Prog wStream bool :=
  if 1 <? MonitorCount s then
    require (gcc_write_user_data_header CS_MONITOR (u16 (20 * MonitorCount s + 12))) (
    Stream_Write_UINT32 (MonitorFlags s) ;;
    Stream_Write_UINT32 (MonitorCount s) ;;
    base <- plift (primary_base (Z.to_nat (MonitorCount s)) (MonitorDefArray s)) ;;
    write_monitors (Z.to_nat (MonitorCount s)) base.1 base.2 (MonitorDefArray s) ;;
    pret true)
  else pret true.

Fixpoint write_attributes (n : nat) (l : list rdpMonitor) : Prog wStream unit :=
  match n, l with
  | O, _ => pret tt
  | S n, c :: l =>
      Stream_Write_UINT32 (physicalWidth c) ;;
      Stream_Write_UINT32 (physicalHeight c) ;;
      Stream_Write_UINT32 (orientation c) ;;
      Stream_Write_UINT32 (desktopScaleFactor c) ;;
      Stream_Write_UINT32 (deviceScaleFactor c) ;;
      write_attributes n l
  | S _, [] => plift Abort
  end.

Definition gcc_write_client_monitor_extended_data (s : rdpSettings) : Prog wStream bool :=
  if HasMonitorAttributes s then
    require (gcc_write_user_data_header CS_MONITOR_EX (u16 (20 * MonitorCount s + 16))) (
    Stream_Write_UINT32 (MonitorAttributeFlags s) ;;
    Stream_Write_UINT32 20 ;;
    Stream_Write_UINT32 (MonitorCount s) ;;
    write_attributes (Z.to_nat (MonitorCount s)) (MonitorDefArray s) ;;
    pret true)
  else pret true.
End writing_monitors.

Fixpoint read_attributes (n : nat) (i : Z) : Prog gstate unit :=
  match n with
  | O => pret tt
  | S n =>
      w <- rd32 ;; h <- rd32 ;; o <- rd32 ;; d <- rd32 ;; v <- rd32 ;;
      upd_monitor i (fun c => c <| physicalWidth := w |> <| physicalHeight := h |> <| orientation := o |>
        <| desktopScaleFactor := d |> <| deviceScaleFactor := v |>) ;;
      read_attributes n (i + 1)
  end.

Definition gcc_read_client_monitor_extended_data : Prog gstate bool :=
  blockLength <- at_s Stream_GetRemainingLength ;;
  if blockLength <? 12 then pret false else
  flags <- rd32 ;; upd_settings (fun s => s <| MonitorAttributeFlags := flags |>) ;;
  size <- rd32 ;;
  count <- rd32 ;;
  if negb (size =? 20) then pret false else
  if (blockLength - 12) / size <? count then pret false else
  s <- the_settings ;;
  if negb (MonitorCount s =? count) then pret false else
  upd_settings (fun s => s <| HasMonitorAttributes := true |>) ;;
  read_attributes (Z.to_nat count) 0 ;;
  pret true.

(** ** Message channel and multitransport *)

Definition gcc_read_client_message_channel_data : Prog gstate bool :=
  blockLength <- at_s Stream_GetRemainingLength ;;
  if blockLength <? 4 then pret false else
  v <- rd32 ;;
  upd_mcs (fun m => m <| mcs_flags := v |>) ;;
  upd_mcs (fun m => m <| messageChannelId := baseChannelId m |> <| baseChannelId := u16 (baseChannelId m + 1) |>) ;;
  pret true.

Definition gcc_write_client_message_channel_data `{Malloc} (m : rdpMcs) (s : rdpSettings) : Prog wStream bool :=
  if NetworkAutoDetect s || SupportHeartbeatPdu s || SupportMultitransport s then
    require (gcc_write_user_data_header CS_MCS_MSGCHANNEL 8) (Stream_Write_UINT32 (mcs_flags m) ;; pret true)
  else pret true.

Definition gcc_read_server_message_channel_data : Prog gstate bool :=
  ok <- at_s (Stream_CheckAndLogRequiredLength 2) ;;
  if negb ok then pret false else
  v <- rd16 ;;
  upd_mcs (fun m => m <| messageChannelId := v |>) ;;
  pret true.

Definition gcc_write_server_message_channel_data `{Malloc} (m : rdpMcs) : Prog wStream bool :=
  if messageChannelId m =? 0 then pret true
  else require (gcc_write_user_data_header SC_MCS_MSGCHANNEL 6) (Stream_Write_UINT16 (messageChannelId m) ;; pret true).

Definition gcc_read_client_multitransport_channel_data : Prog gstate bool :=
  blockLength <- at_s Stream_GetRemainingLength ;;
  if blockLength <? 4 then pret false else
  remoteFlags <- rd32 ;;
  upd_settings (fun s => s <| MultitransportFlags := Z.land (MultitransportFlags s) remoteFlags |>) ;;
  pret true.

Definition gcc_write_client_multitransport_channel_data `{Malloc} (s : rdpSettings) : Prog wStream bool :=
  require (gcc_write_user_data_header CS_MULTITRANSPORT 8) (Stream_Write_UINT32 (MultitransportFlags s) ;; pret true).

Definition gcc_read_server_multitransport_channel_data : Prog gstate bool :=
  ok <- at_s (Stream_CheckAndLogRequiredLength 4) ;;
  if negb ok then pret false else
  remoteFlags <- rd32 ;;
  upd_settings (fun s => s <| MultitransportFlags := Z.land (MultitransportFlags s) remoteFlags |>) ;;
  pret true.

Definition gcc_write_server_multitransport_channel_data `{Malloc} (s : rdpSettings) : Prog wStream bool :=
  require (gcc_write_user_data_header SC_MULTITRANSPORT 8) (Stream_Write_UINT32 (MultitransportFlags s) ;; pret true).

(** ** All blocks *)

(** A block is read from a stream of its own over [n] bytes at the cursor of [s]. *)
Definition sub_stream (n : Z) (s : wStream) : wStream :=
  Stream_StaticConstInit (ztake n (zdrop (pointer s) (buffer s))) n.
Definition on_sub (sub : wStream) (m : Prog gstate bool) : Prog gstate bool :=
  fun p => match m (p.1, sub) with Ret (b, (o, _)) => Ret (b, (o, p.2)) | Abort => Abort | Hang => Hang end.

Section blocks.
Context `{HM : Malloc} `{HC : ServerCrypto}.

Definition read_client_block (type : Z) : Prog gstate bool :=
  if type =? CS_CORE then gcc_read_client_core_data
  else if type =? CS_SECURITY then gcc_read_client_security_data
  else if type =? CS_NET then gcc_read_client_network_data
  else if type =? CS_CLUSTER then gcc_read_client_cluster_data
  else if type =? CS_MONITOR then gcc_read_client_monitor_data
  else if type =? CS_MCS_MSGCHANNEL then gcc_read_client_message_channel_data
  else if type =? CS_MONITOR_EX then gcc_read_client_monitor_extended_data
  else if type =? CS_UNUSED1 then at_s (Stream_SafeSeekEx 2)
  else if (type =? 0xC009) || (type =? CS_MULTITRANSPORT) then gcc_read_client_multitransport_channel_data
  else pret true.

(** [while (length > 0)]: false is [return FALSE]; true with [gotMultitransport]. *)
Fixpoint client_blocks (fuel : nat) (length : Z) (got : bool) : Prog gstate (bool * bool) :=
  if length <=? 0 then pret (true, got)
  else
    match fuel with
    | O => plift Hang
    | S f =>
        h <- gcc_read_user_data_header ;;
        match h with
        | None => pret (false, got)
        | Some (type, blockLength) =>
            ok <- at_s (Stream_CheckAndLogRequiredLength (blockLength - 4)) ;;
            if negb ok then pret (false, got) else
            p <- pget ;;
            let sub := sub_stream (blockLength - 4) p.2 in
            skip (blockLength - 4) ;;
            let got := got || (type =? 0xC009) || (type =? CS_MULTITRANSPORT) in
            ok <- on_sub sub (read_client_block type) ;;
            if negb ok then pret (false, got) else
            client_blocks f (if length <? blockLength then 0 else length - blockLength) got
        end
    end.

Definition gcc_read_client_data_blocks (length : Z) : Prog gstate bool :=
  r <- client_blocks (Z.to_nat length) length false ;;
  if negb r.1 then pret false else
  (if negb r.2 then upd_settings (fun s => s <| SupportMultitransport := false |> <| MultitransportFlags := 0 |>) else pret tt) ;;
  pret true.

Definition gcc_write_client_data_blocks (m : rdpMcs) (s : rdpSettings) : Prog wStream bool :=
  require (gcc_write_client_core_data s) (
  require (gcc_write_client_cluster_data s) (
  require (gcc_write_client_security_data s) (
  require (gcc_write_client_network_data m) (
  let monitors k := require (gcc_write_client_monitor_data s) (require (gcc_write_client_monitor_extended_data s) k) in
  let multimon := UseMultimon s && negb (SpanMonitors s) in
  if has_flag (NegotiationFlags s) EXTENDED_CLIENT_DATA_SUPPORTED then
    let rest := require (gcc_write_client_message_channel_data m s)
                  (require (gcc_write_client_multitransport_channel_data s) (pret true)) in
    if multimon then monitors rest else rest
  else if multimon && ForceMultimon s then monitors (pret true)
  else pret true)))).

Definition read_server_block (type : Z) : Prog gstate bool :=
  if type =? SC_CORE then gcc_read_server_core_data
  else if type =? SC_SECURITY then gcc_read_server_security_data
  else if type =? SC_NET then gcc_read_server_network_data
  else if type =? SC_MCS_MSGCHANNEL then gcc_read_server_message_channel_data
  else if type =? SC_MULTITRANSPORT then gcc_read_server_multitransport_channel_data
  else pret true.

(** [while (offset < length)], the offset being a UINT16. *)
Fixpoint server_blocks (fuel : nat) (offset length : Z) : Prog gstate bool :=
  if length <=? offset then pret true
  else
    match fuel with
    | O => plift Hang
    | S f =>
        h <- gcc_read_user_data_header ;;
        match h with
        | None => pret false
        | Some (type, blockLength) =>
            p <- pget ;;
            let sub := sub_stream (blockLength - 4) p.2 in
            ok <- at_s (Stream_SafeSeekEx (blockLength - 4)) ;;
            if negb ok then pret false else
            ok <- on_sub sub (read_server_block type) ;;
            if negb ok then pret false else
            server_blocks f (u16 (offset + blockLength)) length
        end
    end.

(** A round takes four bytes of the stream at least. *)
Definition gcc_read_server_data_blocks (length : Z) : Prog gstate bool :=
  p <- pget ;;
  server_blocks (S (Z.to_nat (zlen (unread p.2)))) 0 length.

(** The settings change with the random number of the server. *)
Definition gcc_write_server_data_blocks (m : rdpMcs) (s : rdpSettings) : Prog wStream (bool * rdpSettings) :=
  ok <- require (gcc_write_server_core_data s) (gcc_write_server_network_data m) ;;
  if negb ok then pret (false, s) else
  r <- gcc_write_server_security_data s ;;
  let '(ok, s) := r in
  if negb ok then pret (false, s) else
  ok <- require (gcc_write_server_message_channel_data m)
          (if SupportMultitransport s && negb (MultitransportFlags s =? 0)
           then gcc_write_server_multitransport_channel_data s else pret true) ;;
  pret (ok, s).

(** ** Conference create request and response *)

Definition t124_02_98_oid : list Z := [0; 0; 20; 124; 0; 1].
Definition h221_cs_key : list Z := [68; 117; 99; 97].   (* Duca *)
Definition h221_sc_key : list Z := [77; 99; 68; 110].   (* McDn *)

Definition gcc_read_conference_create_request : Prog gstate bool :=
  needs (at_s per_read_choice) (fun _ =>
  require (at_s (per_read_object_identifier t124_02_98_oid)) (
  needs (at_s per_read_length) (fun _ =>
  needs (at_s per_read_choice) (fun _ =>
  needs (at_s per_read_selection) (fun _ =>
  require (at_s (per_read_numeric_string 1)) (
  require (at_s (per_read_padding 1)) (
  needs (at_s per_read_number_of_sets) (fun number =>
  if negb (number =? 1) then pret false else
  needs (at_s per_read_choice) (fun choice =>
  if negb (choice =? 0xC0) then pret false else
  require (at_s (per_read_octet_string h221_cs_key 4)) (
  needs (at_s per_read_length) (fun length =>
  require (at_s (Stream_CheckAndLogRequiredLength length)) (
  gcc_read_client_data_blocks length)))))))))))).

(** [userData] are the bytes in front of the cursor of the second stream. *)
Definition gcc_write_conference_create_request (userData : list Z) : Prog wStream bool :=
  require (per_write_choice 0) (
  require (per_write_object_identifier t124_02_98_oid) (
  require (per_write_length (u16 (zlen userData + 14))) (
  require (per_write_choice 0) (
  require (per_write_selection 0x08) (
  require (per_write_numeric_string [49] 1) (
  require (per_write_padding 1) (
  require (per_write_number_of_sets 1) (
  require (per_write_choice 0xC0) (
  require (per_write_octet_string h221_cs_key 4) (
  per_write_octet_string (ztake (u16 (zlen userData)) userData) 0)))))))))).

Definition gcc_read_conference_create_response : Prog gstate bool :=
  needs (at_s per_read_choice) (fun _ =>
  require (at_s (per_read_object_identifier t124_02_98_oid)) (
  needs (at_s per_read_length) (fun _ =>
  needs (at_s per_read_choice) (fun _ =>
  needs (at_s (per_read_integer16 1001)) (fun nodeID =>
  needs (at_s per_read_integer) (fun tag =>
  needs (at_s (per_read_enumerated MCS_Result_enum_length)) (fun result =>
  needs (at_s per_read_number_of_sets) (fun number =>
  needs (at_s per_read_choice) (fun _ =>
  require (at_s (per_read_octet_string h221_sc_key 4)) (
  needs (at_s per_read_length) (fun length =>
  gcc_read_server_data_blocks length))))))))))).

Definition gcc_write_conference_create_response (userData : list Z) : Prog wStream bool :=
  require (per_write_choice 0) (
  require (per_write_object_identifier t124_02_98_oid) (
  require (per_write_length 0x2A) (
  require (per_write_choice 0x14) (
  require (per_write_integer16 0x79F3 1001) (
  require (per_write_integer 1) (
  require (per_write_enumerated 0 MCS_Result_enum_length) (
  require (per_write_number_of_sets 1) (
  require (per_write_choice 0xC0) (
  require (per_write_octet_string h221_sc_key 4) (
  per_write_octet_string (ztake (u16 (zlen userData)) userData) 0)))))))))).
End blocks.
