(* ===== verification/GccStrings.v ===== *)
(** * Strings in fixed fields: [Stream_Read_UTF16_String_As_UTF8_Buffer]

    A host name or product id occupies a field of 16 or 32 UTF-16 units, with a null character behind
    the string when it is shorter.  It is converted into a buffer that is large enough for every
    content of the field. *)

From S2P Require Import Prelude Memory Stream Unicode UnicodeApi Readers Mcs Gcc.

(** The string at the front of a field. *)
Lemma field_split us : exists s post, us = s ++ post /\ no_nul s /\ (post = [] \/ exists p, post = 0 :: p).
Proof.
  induction us as [|u us (s & post & -> & Hs & Hp)]; [exists [], []; split_and!; [done|constructor|by left]|].
  destruct (decide (u = 0)) as [->|Hu]; [exists [], (0 :: s ++ post); split_and!; [done|constructor|right; eauto]|].
  exists (u :: s), post. split_and!; [done|by constructor|done].
Qed.

Lemma strnlen_field s post :
  no_nul s -> post = [] \/ (exists p, post = 0 :: p) -> c_strnlen (Z.to_nat (zlen (s ++ post))) (s ++ post) = Ret (zlen s).
Proof.
  intros Hs [->|(p & ->)].
  - rewrite app_nil_r. unfold zlen. rewrite Nat2Z.id. induction Hs as [|u s Hu _ IH]; [done|].
    cbn. replace (u =? 0) with false by lia. rewrite IH. f_equal. lia.
  - apply c_strnlen_run; [done|]. rewrite zlen_app, zlen_cons. pose proof (zlen_nonneg p). lia.
Qed.

Lemma field_split_unique s post s' post' :
  no_nul s -> no_nul s' -> (post = [] \/ exists p, post = 0 :: p) -> (post' = [] \/ exists p, post' = 0 :: p) ->
  s ++ post = s' ++ post' -> s = s' /\ post = post'.
Proof.
  intros Hs Hs' Hp Hp' E. pose proof (strnlen_field s post Hs Hp) as H1. rewrite E, strnlen_field in H1 by done.
  injection H1 as H1. apply app_inj_1 in E; [done|]. unfold zlen in H1. lia.
Qed.

(** UTF-8 needs at most three bytes per UTF-16 unit. *)
Lemma enc8_size c : scalar c = true -> zlen (enc8 c) <= 3 * zlen (enc16 c).
Proof. intros _. unfold enc8, enc16. case_char; unfold zlen; cbn [length]; lia. Qed.

Lemma text8_size qs : all_read reads16 qs -> zlen (text enc8 (map snd qs)) <= 3 * zlen (sequences qs).
Proof.
  induction 1 as [|[l c] qs [Hc Hl] _ IH]; [done|]. cbn [map snd fst] in *. subst l.
  change (text enc8 (c :: map snd qs)) with (enc8 c ++ text enc8 (map snd qs)).
  change (sequences ((enc16 c, c) :: qs)) with (enc16 c ++ sequences qs). rewrite !zlen_app. pose proof (enc8_size c Hc). lia.
Qed.

Lemma text8_no_nul qs : all_read reads16 qs -> no_nul (sequences qs) -> no_nul (text enc8 (map snd qs)).
Proof.
  induction 1 as [|[l c] qs [Hc Hl] _ IH]; [constructor|]. cbn [map snd fst] in *. subst l.
  change (sequences ((enc16 c, c) :: qs)) with (enc16 c ++ sequences qs).
  change (text enc8 (c :: map snd qs)) with (enc8 c ++ text enc8 (map snd qs)).
  intros [H1 H2]%Forall_app. apply Forall_app. split; [|by apply IH]. apply enc8_no_nul; [done|].
  intros ->. by apply Forall_cons in H1 as [].
Qed.

(** The field is converted to [txt], with a null character behind it; what follows in the buffer stays. *)
Definition field_text (us b txt d : list Z) : Prop :=
  exists qs post, all_read reads16 qs /\ us = sequences qs ++ post /\ (post = [] \/ exists p, post = 0 :: p) /\
    no_nul (sequences qs) /\ txt = text enc8 (map snd qs) /\ d = splice 0 (txt ++ [0]) b.

Section fields.
Context (us b : list Z) (e : Z).
Context (Hus : 0 < zlen us) (Hu16 : Forall (fun u => 0 <= u < 2 ^ 16) us) (Hb : 3 * zlen us < zlen b <= INT_MAX).
Let n : Z := zlen us.
Let st : ubuf := mkUbuf (Some b) e.

(** The part of the conversion that follows the converter. *)
Definition field_end (isNul : bool) (rc : Z) : Prog ubuf Z :=
  if (rc <=? 0) || ((0 <? zlen b) && (zlen b <? rc)) then pret (-1)
  else if negb isNul then terminate_if (rc <? zlen b) rc ;; pret rc
  else c <- (if rc =? zlen b then unterminated (rc - 1) else pret false) ;; pret (if c then rc else rc - 1).

Lemma field_run s post :
  us = s ++ post -> no_nul s -> post = [] \/ (exists p, post = 0 :: p) ->
  let term := ztake 1 post in
  exists res read t' st', converts reads16 enc8 (s ++ term) (Some (zlen b)) 0 st res read t' st' /\
    ConvertWCharNToUtf8 (Some us) n (zlen b) st = (rc <- conversion_status (res, read, t') ;; field_end (zlen s <? n) rc) st'.
Proof using Hus Hu16 Hb.
  intros E Hs Hp term. pose proof (zlen_nonneg s). pose proof (zlen_nonneg post).
  assert (Hn : n = zlen s + zlen post) by (unfold n; by rewrite E, zlen_app).
  assert (Ht : zlen term = if zlen s <? n then 1 else 0).
  { unfold term. rewrite zlen_ztake. destruct Hp as [->|(p & ->)]; rewrite ?zlen_nil, ?zlen_cons in *; [|pose proof (zlen_nonneg p)]; case_if; lia. }
  set (k := zlen s + zlen term). assert (Hk : 0 <= k <= zlen us) by (unfold k; fold n; rewrite Ht; case_if; lia).
  assert (Htake : ztake k us = s ++ term).
  { pose proof (zlen_nonneg term). rewrite E. unfold k. rewrite ztake_app, ztake_all by lia. f_equal. unfold term. rewrite zlen_ztake.
    destruct Hp as [->|(p & ->)]; [unfold ztake; by rewrite !take_nil|]. rewrite zlen_cons. pose proof (zlen_nonneg p).
    replace (zlen s + Z.max 0 (Z.min 1 (1 + zlen p)) - zlen s) with 1 by lia. done. }
  assert (Hk0 : 0 < k) by (unfold k; rewrite Ht; fold n in Hus; case_if; lia).
  destruct (utf16to8_internal us k (Some (zlen b)) st Hk) as (res & read & t' & st' & Hr & Hc & _);
    [by exists b|cbn; lia|by apply Forall_ztake|].
  rewrite Htake in Hc. exists res, read, t', st'. split; [done|]. unfold ConvertWCharNToUtf8, deref.
  replace (n =? 0) with false by (fold n in Hus; lia). rewrite pbind_pret. unfold n at 1. rewrite E at 1 2.
  rewrite strnlen_field, pbind_plift by done. unfold INT_MAX in Hb. fold n in Hb. unfold INT_MAX at 1.
  replace (2147483647 <? n) with false by lia. cbv zeta.
  assert (Hkk : (if zlen s <? n then zlen s + 1 else zlen s) = k) by (unfold k; rewrite Ht; case_if; lia). rewrite Hkk.
  rewrite i32_id by (unfold n in *; lia). rewrite Z.min_r by (unfold INT_MAX; lia).
  unfold pbind at 1. unfold WideCharToMultiByte, int_WideCharToMultiByte, deref.
  replace ((k =? 0) || (k <? -1)) with false by lia. replace (zlen b <? 0) with false by lia.
  rewrite pbind_pret. replace (k =? -1) with false by lia. rewrite pbind_pret.
  unfold winpr_ConvertUTF16toUTF8. replace (k =? -1) with false by lia. rewrite pbind_pret.
  unfold target_of in *. replace (zlen b =? 0) with false by (unfold n in *; lia).
  rewrite (pbind_ret _ _ _ _ _ Hr). cbn [negb]. done.
Qed.

(** The end of a successful conversion. *)
Lemma field_finish txt (isNul : bool) :
  3 * n < zlen b -> zlen txt <= 3 * n ->
  let out := if isNul then txt ++ [0] else txt in
  0 < zlen out ->
  field_end isNul (i32 (zlen out)) (mkUbuf (Some (splice 0 out b)) e) = Ret (zlen txt, mkUbuf (Some (splice 0 (txt ++ [0]) b)) e).
Proof using Hb.
  intros H3 Hl out Hpos. pose proof (zlen_nonneg txt). unfold INT_MAX in Hb.
  assert (Hout : zlen out <= zlen b) by (unfold out; destruct isNul; rewrite ?zlen_app; change (zlen [0]) with 1; lia).
  unfold field_end. rewrite i32_id by lia. replace ((zlen out <=? 0) || _) with false by lia. unfold out in *.
  destruct isNul; cbn [negb].
  - rewrite zlen_app in *. change (zlen [0]) with 1 in *. replace (zlen txt + 1 =? zlen b) with (zlen txt + 1 =? zlen b) by done.
    destruct (zlen txt + 1 =? zlen b) eqn:Ee.
    + assert (Es : splice 0 (txt ++ [0]) b = txt ++ [0]).
      { unfold splice. rewrite ztake_0, zdrop_all, app_nil_r by (rewrite ?zlen_app; change (zlen [0]) with 1; lia). done. }
      rewrite Es. pose proof (terminated_end txt e) as Ht. rewrite zlen_app in Ht. change (zlen [0]) with 1 in Ht.
      rewrite (pbind_ret _ _ _ _ _ Ht). unfold pret. do 3 f_equal. lia.
    + rewrite pbind_pret. unfold pret. do 3 f_equal. lia.
  - replace (zlen txt <? zlen b) with true by lia. unfold terminate_if, pbind, pget. cbn [u_dst].
    unfold u_store, pbind, pget. cbn [u_dst u_error].
    rewrite slot_set_run by (rewrite zlen_splice by lia; lia). unfold plift, pput, pret. do 4 f_equal.
    pose proof (splice_splice 0 txt [0] b) as E. rewrite Z.add_0_l in E. apply E; change (zlen [0]) with 1; lia.
Qed.

Lemma field_converts :
  exists rc d e', ConvertWCharNToUtf8 (Some us) n (zlen b) st = Ret (rc, mkUbuf (Some d) e') /\ zlen d = zlen b /\
    ((rc = -1 /\ ~ exists txt d, field_text us b txt d) \/ exists txt, rc = zlen txt /\ field_text us b txt d).
Proof using Hus Hu16 Hb.
  destruct (field_split us) as (s & post & E & Hs & Hp).
  destruct (field_run s post E Hs Hp) as (res & read & t' & st' & Hc & ->). set (term := ztake 1 post) in *.
  assert (Hn : n = zlen s + zlen post) by (unfold n; by rewrite E, zlen_app).
  pose proof (zlen_nonneg s). pose proof (zlen_nonneg post). unfold INT_MAX in Hb.
  assert (Hterm : (term = [0] /\ (zlen s <? n) = true) \/ (term = [] /\ post = [] /\ (zlen s <? n) = false)).
  { unfold term. destruct Hp as [->|(p & ->)]; [right|left].
    - rewrite zlen_nil in *. split_and!; [done|done|lia].
    - rewrite zlen_cons in *. pose proof (zlen_nonneg p). split; [done|lia]. }
  assert (Hsize : zlen (s ++ term) <= n).
  { rewrite zlen_app. destruct Hterm as [[-> ?]|(-> & -> & _)]; [change (zlen [0]) with 1; lia|lia]. }
  pose proof Hc as (qs & rest & Hqs & Es & _ & Ht' & Hf & Hst & Hres). cbn in Hf. unfold st, u_write in Hst. cbn [u_dst u_error] in Hst.
  assert (Hbad : rest <> [] -> ~ exists txt d, field_text us b txt d).
  { intros Hne (txt & d & qs0 & post0 & Hq0 & E0 & Hp0 & Hnul & _).
    destruct (field_split_unique s post (sequences qs0) post0 Hs Hnul Hp Hp0 ltac:(congruence)) as [-> ->].
    set (qt := qs0 ++ if bool_decide (term = [0]) then [([0], 0)] else []).
    assert (Hqt : all_read reads16 qt).
    { apply Forall_app. split; [done|]. case_bool_decide; [|constructor]. constructor; [apply (tr_zero (reads := reads16))|done]. }
    assert (Eqt : sequences qs0 ++ term = sequences qt).
    { unfold qt. rewrite sequences_app. f_equal. destruct Hterm as [[-> _]|(-> & _)]; done. }
    rewrite Eqt in Hc. destruct (converts_all reads16 enc8 qt _ _ _ _ _ _ _ Hqt Hc) as [Hx|(-> & Hx & _)].
    - destruct Hx as (-> & _). done.
    - cbn in Hx. pose proof (text8_size qt Hqt) as Hsz. rewrite <- Eqt in Hsz. unfold n in *. lia. }
  assert (Hlen : forall us', zlen us' <= zlen b -> zlen (splice 0 us' b) = zlen b) by (intros us' ?; rewrite zlen_splice; lia).
  destruct res; cbn [conversion_status].
  - subst rest st'. rewrite app_nil_r in Es. rewrite pbind_pret, Ht', Z.add_0_l.
    destruct Hterm as [[Et Hisnul]|(Et & Hpost & Hisnul)]; rewrite Et, Hisnul in *.
    + destruct (terminated_sequences reads16 s qs Hqs Es) as (qs' & -> & Hq' & Hs').
      rewrite (terminated_text enc8 eq_refl) in *. pose proof (text8_size qs' Hq') as Hsz. rewrite <- Hs' in Hsz.
      rewrite (field_finish (text enc8 (map snd qs')) true) by (try (rewrite zlen_app; change (zlen [0]) with 1; pose proof (zlen_nonneg (text enc8 (map snd qs')))); unfold n in *; lia).
      do 3 eexists. split_and!; [done|by apply Hlen|]. right. eexists. split; [done|].
      exists qs', post. by rewrite <- Hs'.
    + rewrite app_nil_r in *. pose proof (text8_size qs Hqs) as Hsz. rewrite <- Es in Hsz.
      assert (Hpos : 0 < zlen (text enc8 (map snd qs))).
      { destruct qs as [|[l c] qs]; [rewrite Hpost, Es in Hn; change (n = 0) in Hn; unfold n in *; lia|].
        change (text enc8 (map snd ((l, c) :: qs))) with (enc8 c ++ text enc8 (map snd qs)). rewrite zlen_app.
        pose proof (zlen_nonneg (text enc8 (map snd qs))). assert (0 < zlen (enc8 c)) by (unfold enc8; case_char; done). lia. }
      rewrite (field_finish (text enc8 (map snd qs)) false) by (unfold n in *; lia || done).
      do 3 eexists. split_and!; [done|apply Hlen; rewrite zlen_app; change (zlen [0]) with 1; unfold n in *; lia|].
      right. eexists. split; [done|]. exists qs, post. by rewrite <- Es.
  - subst st'. rewrite pbind_pret. exists (-1), (splice 0 (text enc8 (map snd qs)) b), e. split_and!; [done|by apply Hlen|left].
    split; [done|]. apply Hbad. by destruct Hres.
  - subst st'. exists (-1), (splice 0 (text enc8 (map snd qs)) b), ERROR_INSUFFICIENT_BUFFER. split_and!; [done|by apply Hlen|left].
    split; [done|]. apply Hbad. destruct Hres as (l & c & rest' & Hl & -> & _). intros En. apply app_eq_nil in En as [-> _]. by pose proof (reads_pos _ _ Hl).
  - subst st'. rewrite pbind_pret. exists (-1), (splice 0 (text enc8 (map snd qs)) b), e. split_and!; [done|by apply Hlen|left].
    split; [done|]. apply Hbad. by destruct Hres.
Qed.
End fields.
