(* ===== verification/GccSafe.v ===== *)
(** * Any GCC user data: the readers of [gcc.c] stay within the block, and what they store is well-formed *)

From S2P Require Import Prelude Memory Stream Per Unicode UnicodeApi Readers Mcs McsPdu Gcc GccStrings.

(** ** Well-formed objects

    Every field is in the range of its type, and the arrays have the size they were allocated with. *)

Definition is_u16 (v : Z) : Prop := 0 <= v < 65536.
Definition is_u32 (v : Z) : Prop := 0 <= v < 4294967296.
Definition is_i32 (v : Z) : Prop := -2147483648 <= v < 2147483648.

Definition channel_wf (c : rdpMcsChannel) : Prop :=
  zlen (Name c) = CHANNEL_NAME_LEN + 1 /\ Forall is_byte (Name c) /\ is_u32 (options c) /\ is_u16 (ChannelId c).

Record mcs_wf (m : rdpMcs) : Prop := {
  wf_base : is_u16 (baseChannelId m);
  wf_message : is_u16 (messageChannelId m);
  wf_flags : is_u32 (mcs_flags m);
  wf_count : is_u32 (channelCount m);
  wf_max : channelMaxCount m = CHANNEL_MAX_COUNT;
  wf_array : zlen (channels m) = CHANNEL_MAX_COUNT;
  wf_channels : Forall channel_wf (channels m)
}.

Definition monitor_wf (c : rdpMonitor) : Prop :=
  Forall is_i32 [mon_x c; mon_y c; mon_width c; mon_height c] /\
  Forall is_u32 [physicalWidth c; physicalHeight c; orientation c; desktopScaleFactor c; deviceScaleFactor c].

(** A string of the settings. *)
Definition text_wf (o : option (list Z)) : Prop :=
  match o with Some t => exists str, t = str ++ [0] /\ Forall is_byte str /\ no_nul str | None => True end.

Definition settings_numbers (s : rdpSettings) : list Z :=
  [RdpVersion s; DesktopWidth s; DesktopHeight s; KeyboardLayout s; ClientBuild s; KeyboardType s; KeyboardSubType s;
   KeyboardFunctionKey s; SupportedColorDepths s; EarlyCapabilityFlags s; ConnectionType s; SelectedProtocol s;
   DesktopPhysicalWidth s; DesktopPhysicalHeight s; DesktopScaleFactor s; DeviceScaleFactor s; ColorDepth s;
   RequestedProtocols s; NegotiationFlags s; EncryptionMethods s; EncryptionLevel s; ServerRandomLength s;
   ServerCertificateLength s; ClusterInfoFlags s; RedirectedSessionId s; MultitransportFlags s; MonitorFlags s;
   MonitorCount s; MonitorAttributeFlags s; ChannelCount s].

Record settings_wf (s : rdpSettings) : Prop := {
  wf_numbers : Forall is_u32 (settings_numbers s);
  wf_orientation : is_u16 (DesktopOrientation s);
  wf_hostname : text_wf (ClientHostname s);
  wf_product : text_wf (ClientProductId s);
  wf_monitor_count : MonitorCount s <= zlen (MonitorDefArray s);
  wf_monitors : Forall monitor_wf (MonitorDefArray s)
}.

Definition gcc_wf (o : gobj) : Prop := mcs_wf o.1 /\ settings_wf o.2.

(** The same with a given number of channels. *)
Definition counted (n : Z) (o : gobj) : Prop := gcc_wf o /\ channelCount o.1 = n.

(** ** Updates keep them well-formed *)

Lemma is_u32_land a b : is_u32 a -> is_u32 b -> is_u32 (Z.land a b).
Proof.
  unfold is_u32. intros Ha Hb. replace b with (b mod 2 ^ 32) by (apply Z.mod_small; lia).
  rewrite <- land_mask, Z.land_assoc, land_mask by lia. apply Z.mod_pos_bound. lia.
Qed.

Lemma array_set_run {A} i (f : A -> A) (l : list A) (P : A -> Prop) :
  0 <= i < zlen l -> Forall P l -> (forall x, P x -> P (f x)) ->
  exists l', array_set i f l = Ret l' /\ zlen l' = zlen l /\ Forall P l'.
Proof.
  intros Hi Hl Hf. unfold array_set. replace (i <? 0) with false by lia.
  destruct (lookup_lt_is_Some_2 l (Z.to_nat i)) as [x Hx]; [unfold zlen in Hi; lia|]. rewrite Hx. eexists. split_and!; [done|..].
  - unfold zlen. by rewrite length_insert.
  - apply Forall_insert; [done|]. apply Hf. by apply (Forall_lookup_1 _ _ _ _ Hl Hx).
Qed.

(** [Forall] as a conjunction. *)
Fixpoint each (P : Z -> Prop) (l : list Z) : Prop := match l with [] => True | x :: l => P x /\ each P l end.
Lemma Forall_each P l : Forall P l <-> each P l.
Proof. induction l as [|x l IH]; [split; [done|constructor]|]. cbn. by rewrite Forall_cons, IH. Qed.

(** A field of the settings is replaced by a value in its range. *)
Ltac in_range :=
  first [ assumption | exact I | constructor; fail
        | apply is_u32_land; assumption
        | repeat case_if; unfold is_u32, is_u16, is_byte, rdp_version_common in *; lia ].
Ltac settings_field :=
  let H := fresh in
  intros H; destruct H as [Hnum Hor Hhost Hprod Hmc Hmon]; apply Forall_each in Hnum; cbn in Hnum; destruct_and? Hnum;
  repeat case_if; (constructor; [apply (proj2 (Forall_each _ _)); cbn|cbn..]); try assumption; split_and?; in_range.

Lemma both_caps_wf flags t s : is_u32 t -> settings_wf s -> settings_wf (updateEarlyClientCaps flags t s).
Proof. intros Ht. unfold updateEarlyClientCaps. settings_field. Qed.

(** ** Strings *)

Lemma units_of_bytes bs k : Forall is_byte bs -> zlen bs = 2 * k -> zlen (units_of bs) = k /\ Forall (fun u => 0 <= u < 2 ^ 16) (units_of bs).
Proof.
  intros Hb. revert k. assert (IH : forall n l, (length l <= n)%nat -> Forall is_byte l -> forall k, zlen l = 2 * k ->
    zlen (units_of l) = k /\ Forall (fun u => 0 <= u < 2 ^ 16) (units_of l)); [|by apply (IH (length bs))].
  induction n as [|n IH]; intros [|b0 [|b1 l]] Hn Hl k Hk; cbn in Hn; try lia; cbn [units_of].
  1, 2: rewrite zlen_nil in *; split; [lia|constructor].
  - change (zlen [b0]) with 1 in Hk. lia.
  - apply Forall_cons in Hl as [H0 Hl]. apply Forall_cons in Hl as [H1 Hl]. unfold is_byte in *. rewrite !zlen_cons in Hk.
    destruct (IH l ltac:(lia) Hl (k - 1) ltac:(lia)) as [E Hf]. rewrite zlen_cons, E. split; [lia|constructor; [lia|done]].
Qed.

Lemma text8_bytes qs : all_read reads16 qs -> Forall is_byte (text enc8 (map snd qs)).
Proof.
  induction 1 as [|[l c] qs [Hc Hl] _ IH]; [constructor|]. cbn [map snd fst] in *.
  change (text enc8 (c :: map snd qs)) with (enc8 c ++ text enc8 (map snd qs)). apply Forall_app. split; [by apply enc8_units|done].
Qed.

(** What a field of [w] units leaves in the buffer. *)
Lemma field_read w b s :
  0 < w -> readable s -> 2 * w <= zlen (unread s) -> 3 * w < zlen b <= INT_MAX -> Forall is_byte b ->
  exists rc d, Stream_Read_UTF16_String_As_UTF8_Buffer w b s = Ret ((rc, d), advance s (2 * w)) /\
    zlen d = zlen b /\ (Forall is_byte d \/ rc < 0) /\ (rc < 0 \/ exists t, c_string d = Ret t /\ text_wf (Some (t ++ [0]))).
Proof.
  intros Hw Hr Hl Hb Hby. unfold Stream_Read_UTF16_String_As_UTF8_Buffer.
  rewrite (pbind_ret _ _ _ _ _ (check_length_spec s (w * 2) Hr)). replace (w * 2 <=? zlen (unread s)) with true by lia. cbn [negb].
  rewrite (pbind_ret _ _ _ _ _ (load_bytes_spec (w * 2) s Hr ltac:(lia))), (pbind_ret _ _ _ _ _ (seek_spec s (w * 2) Hr ltac:(lia))).
  set (us := units_of (ztake (w * 2) (unread s))).
  destruct (units_of_bytes (ztake (w * 2) (unread s)) w) as [Hus Hu]; [by apply Forall_ztake, unread_bytes|zcut_lia|]. fold us in Hus, Hu.
  destruct (field_converts us b 0 ltac:(lia) Hu ltac:(lia)) as (rc & d & e' & E & Hd & Ht). rewrite Hus in E.
  exists rc, d. unfold plift, pbind. rewrite E, (Z.mul_comm w 2). split_and!; [done|done|..].
  - destruct Ht as [[-> _]|(txt & -> & qs & post & Hq & _ & _ & _ & -> & ->)]; [right; lia|left].
    apply Forall_splice; [|done]. apply Forall_app. split; [by apply text8_bytes|by repeat constructor].
  - destruct Ht as [[-> _]|(txt & -> & qs & post & Hq & _ & _ & Hn & -> & ->)]; [left; lia|right].
    exists (text enc8 (map snd qs)). split; [|eexists; split_and!; [done|by apply text8_bytes|by apply text8_no_nul]].
    unfold c_string, splice. rewrite ztake_0 by lia. cbn [app]. rewrite <- app_assoc. cbn [app]. rewrite c_strlen_run by by apply text8_no_nul.
    f_equal. rewrite ztake_app, ztake_all, Z.sub_diag by lia. by rewrite ztake_0, app_nil_r by lia.
Qed.

(** ** Steps *)

Section steps.
Context {A : Type} (Q : A -> gobj -> Prop) (n : Z).
Implicit Types (o : gobj) (s : wStream).

Lemma safe_upd_settings f (k : Prog gstate A) o s :
  counted n o -> (settings_wf o.2 -> settings_wf (f o.2)) -> (forall o', counted n o' -> safe_res Q k o' s) ->
  safe_res Q (upd_settings f ;; k) o s.
Proof. intros [[Hm Hs] Hc] Hf Hk. apply safe_with_upd, Hk. split; [split; [done|by apply Hf]|done]. Qed.

Lemma safe_set_settings f o s :
  counted n o -> (settings_wf o.2 -> settings_wf (f o.2)) -> readable s -> safe_with (counted n) (upd_settings f) o s.
Proof. intros [[Hm Hs] Hc] Hf Hr. apply safe_with_set; [|done]. split; [split; [done|by apply Hf]|done]. Qed.

Lemma safe_upd_mcs f (k : Prog gstate A) o s :
  counted n o -> (mcs_wf o.1 -> mcs_wf (f o.1) /\ channelCount (f o.1) = channelCount o.1) ->
  (forall o', counted n o' -> safe_res Q k o' s) -> safe_res Q (upd_mcs f ;; k) o s.
Proof.
  intros [[Hm Hs] Hc] Hf Hk. destruct (Hf Hm) as [Hw Hn]. apply safe_with_upd, Hk. split; [split; done|cbn; congruence].
Qed.

Lemma safe_the_settings (f : rdpSettings -> Prog gstate A) o s : safe_res Q (f o.2) o s -> safe_res Q (pbind the_settings f) o s.
Proof. exact id. Qed.

Lemma safe_the_mcs (f : rdpMcs -> Prog gstate A) o s : safe_res Q (f o.1) o s -> safe_res Q (pbind the_mcs f) o s.
Proof. exact id. Qed.

Lemma safe_upd_monitor i f (k : Prog gstate A) o s :
  counted n o -> 0 <= i < zlen (MonitorDefArray o.2) -> (forall c, monitor_wf c -> monitor_wf (f c)) ->
  (forall o', counted n o' -> zlen (MonitorDefArray o'.2) = zlen (MonitorDefArray o.2) -> safe_res Q k o' s) ->
  safe_res Q (upd_monitor i f ;; k) o s.
Proof.
  intros [[Hm Hs] Hc] Hi Hf Hk. destruct (array_set_run i f _ monitor_wf Hi (wf_monitors _ Hs) Hf) as (l & E & Hl & Hw).
  eapply safe_res_still; [unfold upd_monitor, pbind, the_settings, pget, pret; cbn; rewrite E; done|].
  apply Hk; [|done]. split; [split; [done|]|done]. destruct Hs. by constructor; cbn; [..|rewrite Hl|].
Qed.

Lemma safe_upd_channel i f (k : Prog gstate A) o s :
  counted n o -> 0 <= i < CHANNEL_MAX_COUNT -> (forall c, channel_wf c -> channel_wf (f c)) ->
  (forall o', counted n o' -> safe_res Q k o' s) -> safe_res Q (upd_channel i f ;; k) o s.
Proof.
  intros [[Hm Hs] Hc] Hi Hf Hk. rewrite <- (wf_array _ Hm) in Hi.
  destruct (array_set_run i f _ channel_wf Hi (wf_channels _ Hm) Hf) as (l & E & Hl & Hw).
  eapply safe_res_still; [unfold upd_channel, pbind, the_mcs, pget, pret; cbn; rewrite E; done|].
  apply Hk. split; [split; [|done]|done]. destruct Hm. by constructor; cbn; [..|rewrite Hl|].
Qed.

(** A string in a field of [w] units, into a buffer with room for three bytes per unit. *)
Lemma safe_field w b (f : Z * list Z -> Prog gstate A) o s :
  0 < w -> readable s -> 2 * w <= zlen (unread s) -> 3 * w < zlen b <= INT_MAX -> Forall is_byte b ->
  (forall rc d, zlen d = zlen b -> (Forall is_byte d \/ rc < 0) -> (rc < 0 \/ exists t, c_string d = Ret t /\ text_wf (Some (t ++ [0]))) ->
     readable (advance s (2 * w)) -> zlen (unread (advance s (2 * w))) = zlen (unread s) - 2 * w ->
     safe_res Q (f (rc, d)) o (advance s (2 * w))) ->
  safe_res Q (pbind (at_s (Stream_Read_UTF16_String_As_UTF8_Buffer w b)) f) o s.
Proof.
  intros Hw Hr Hl Hb Hby Hf. destruct (field_read w b s Hw Hr Hl Hb Hby) as (rc & d & E & Hd & Hdb & Ht).
  eapply safe_with_run; [exact E|done|lia|]. intros Hr' Hl'. by apply Hf.
Qed.

Lemma safe_skip k o s : counted n o -> readable s -> 0 <= k <= zlen (unread s) -> safe_with (counted n) (skip k) o s.
Proof. intros Ho Hr Hk. apply safe_with_at_s; [done|]. exists tt, k. by rewrite seek_spec. Qed.

Lemma safe_set_string `{Malloc} set b t (f : bool -> Prog gstate A) o s :
  counted n o -> c_string b = Ret t -> text_wf (Some (t ++ [0])) ->
  (forall v, text_wf v -> settings_wf o.2 -> settings_wf (set v o.2)) ->
  (forall ok o', counted n o' -> safe_res Q (f ok) o' s) -> safe_res Q (pbind (set_string set b) f) o s.
Proof.
  intros [[Hm Hs] Hc] Hb Ht Hset Hf.
  assert (Hk : forall v, text_wf v -> counted n (o.1, set v o.2)) by (intros v Hv; split; [split; [done|by apply Hset]|done]).
  destruct (malloc_ok (zlen t + 1)) eqn:E;
    (eapply safe_res_still; [unfold set_string; rewrite Hb, pbind_plift, E; reflexivity|apply Hf, Hk]); [exact Ht|exact I].
Qed.
End steps.

(** Walk through a reader of the settings. *)
Ltac gcc_step :=
  cbn [negb] in *;
  lazymatch goal with
  | |- safe_res _ (pbind (at_s (Stream_Read_UTF16_String_As_UTF8_Buffer _ _)) _) _ _ => fail
  | |- safe_res _ (pbind (upd_mcs _) _) _ _ => fail
  | |- safe_res _ (pbind rd8 _) _ _ => apply safe_with_u8; [assumption|lia|intros ? ? ? ?]
  | |- safe_res _ (pbind rd16 _) _ _ => apply safe_with_u16; [assumption|lia|intros ? ? ? ?]
  | |- safe_res _ (pbind rd32 _) _ _ => apply safe_with_u32; [assumption|lia|intros ? ? ? ?]
  | |- safe_res _ (pbind (skip _) _) _ _ => apply safe_with_seek; [assumption|lia|intros ? ?]
  | |- safe_res _ (skip _) _ _ =>
      apply safe_skip; [assumption|assumption|lia]
  | |- safe_res _ (pbind the_settings _) _ _ => apply safe_the_settings
  | |- safe_res _ (pbind the_mcs _) _ _ => apply safe_the_mcs
  | |- safe_res _ (pbind (upd_settings _) _) _ _ => eapply safe_upd_settings; [eassumption|settings_field|intros ? ?]
  | |- safe_res _ (upd_settings _) _ _ => eapply safe_set_settings; [eassumption|settings_field|assumption]
  | _ => sw_step
  end.
Ltac solve_gcc := repeat gcc_step.

Section client_blocks_safe.
Context (n : Z).
Implicit Types (o : gobj) (s : wStream).

Lemma client_security_safe o s : counted n o -> readable s -> safe_with (counted n) gcc_read_client_security_data o s.
Proof. intros Ho Hr. unfold gcc_read_client_security_data. solve_gcc. Qed.

Lemma server_core_safe o s : counted n o -> readable s -> safe_with (counted n) gcc_read_server_core_data o s.
Proof. intros Ho Hr. unfold gcc_read_server_core_data. solve_gcc. Qed.

Lemma client_cluster_safe o s : counted n o -> readable s -> safe_with (counted n) gcc_read_client_cluster_data o s.
Proof. intros Ho Hr. unfold gcc_read_client_cluster_data. solve_gcc. Qed.

Lemma client_multitransport_safe o s : counted n o -> readable s -> safe_with (counted n) gcc_read_client_multitransport_channel_data o s.
Proof. intros Ho Hr. unfold gcc_read_client_multitransport_channel_data. solve_gcc. Qed.

Lemma server_multitransport_safe o s : counted n o -> readable s -> safe_with (counted n) gcc_read_server_multitransport_channel_data o s.
Proof. intros Ho Hr. unfold gcc_read_server_multitransport_channel_data. solve_gcc. Qed.

(** The local variables of [gcc_read_client_core_data]. *)
Definition locals_wf (l : core_locals) : Prop :=
  is_u32 (postBeta2ColorDepth l) /\ is_u32 (highColorDepth l) /\ is_u32 (connectionType l).
Definition locals_post (r : option core_locals) o : Prop := counted n o /\ match r with Some l => locals_wf l | None => True end.

Ltac core_step :=
  first [ gcc_step
        | apply safe_with_pret; [split; [assumption|]; first [exact I|assumption|unfold locals_wf, is_u32, is_byte in *; cbn in *; lia]|assumption] ].

Lemma core_tail_safe k l o s :
  counted n o -> readable s -> k = zlen (unread s) -> locals_wf l -> safe_res locals_post (read_core_tail k l) o s.
Proof. intros Ho Hr -> Hl. unfold read_core_tail, optional. cbn zeta. repeat core_step. Qed.

Lemma core_optional_safe `{Malloc} k str o s :
  counted n o -> readable s -> k = zlen (unread s) -> zlen str = 130 -> Forall is_byte str ->
  safe_res locals_post (read_core_optional k str) o s.
Proof.
  intros Ho Hr -> Hstr Hby. unfold read_core_optional, optional. cbn zeta. repeat core_step.
  change (64 / 2) with 32. apply safe_field; [lia|done|lia|unfold INT_MAX; lia|done|].
  intros rc d Hd Hdb Ht ? ?. cbn [fst snd]. core_step; [core_step|].
  destruct Ht as [Ht|(t & Et & Ht)]; [lia|].
  eapply safe_set_string; [eassumption|exact Et|exact Ht|intros ? ?; settings_field|intros ok o1 Ho1]. core_step; [core_step|].
  apply core_tail_safe; [done|done|lia|]. unfold locals_wf, is_u32, is_byte in *. cbn. lia.
Qed.

Lemma client_depth_wf c f l d : locals_wf l -> client_color_depth c f l = Some d -> is_u32 d.
Proof. unfold locals_wf, client_color_depth, is_u32. cbn zeta. intros Hl. repeat case_if; intros [= <-]; lia. Qed.

Lemma client_core_safe `{Malloc} o s : counted n o -> readable s -> safe_with (counted n) gcc_read_client_core_data o s.
Proof.
  intros Ho Hr. unfold gcc_read_client_core_data. repeat gcc_step. change (32 / 2) with 16.
  apply safe_field; [lia|done|lia|unfold INT_MAX; change (zlen strbuffer) with 130; lia|by apply Forall_zrep|].
  intros rc d Hd Hdb Ht ? ?. cbn [fst snd]. gcc_step; [gcc_step|]. destruct Ht as [Ht|(t & Et & Ht)]; [lia|].
  eapply safe_set_string; [eassumption|exact Et|exact Ht|intros ? ?; settings_field|intros ok o1 Ho1].
  change (zlen strbuffer) with 130 in Hd. destruct Hdb as [Hdb|]; [|lia].
  gcc_step; [gcc_step|]. do 7 gcc_step.
  eapply safe_res_bind; [apply core_optional_safe; [eassumption|done|lia|done|done]|done|].
  intros [l|] o2 k [Ho2 Hl2] Hk; [|gcc_step]. gcc_step. destruct (client_color_depth _ _ _) as [dp|] eqn:Ed; [|gcc_step].
  apply client_depth_wf in Ed; [|done]. gcc_step.
  eapply safe_upd_settings; [eassumption|apply both_caps_wf; apply Hl2|intros o3 Ho3; gcc_step].
Qed.

Lemma server_security_safe `{Malloc} `{ServerCrypto} o s :
  counted n o -> readable s -> safe_with (counted n) gcc_read_server_security_data o s.
Proof. intros Ho Hr. unfold gcc_read_server_security_data, read_server_random, drop_server_random. solve_gcc. Qed.

(** *** Monitors *)

Lemma i32_range x : is_i32 (i32 x).
Proof. unfold is_i32, i32, u32. cbn zeta. pose proof (Z.mod_pos_bound x (2 ^ 32) ltac:(lia)). case_if; lia. Qed.

Lemma read_monitors_safe k i o s :
  counted n o -> readable s -> 0 <= i -> i + Z.of_nat k <= zlen (MonitorDefArray o.2) -> 20 * Z.of_nat k <= zlen (unread s) ->
  safe_with (counted n) (read_monitors k i) o s.
Proof.
  revert i o s. induction k as [|k IH]; intros i o s Ho Hr Hi Hk Hl; cbn [read_monitors]; [gcc_step|]. do 5 gcc_step.
  eapply safe_upd_monitor; [eassumption|lia| |].
  - intros c [Hi32 Hu32]. split; [|done]. apply (proj2 (Forall_each _ _)). cbn. pose proof i32_range. auto 6.
  - intros o' Ho' El. apply IH; [done|done|lia|lia|lia].
Qed.

Lemma read_attributes_safe k i o s :
  counted n o -> readable s -> 0 <= i -> i + Z.of_nat k <= zlen (MonitorDefArray o.2) -> 20 * Z.of_nat k <= zlen (unread s) ->
  safe_with (counted n) (read_attributes k i) o s.
Proof.
  revert i o s. induction k as [|k IH]; intros i o s Ho Hr Hi Hk Hl; cbn [read_attributes]; [gcc_step|]. do 5 gcc_step.
  eapply safe_upd_monitor; [eassumption|lia| |].
  - intros c [Hi32 Hu32]. split; [done|]. apply (proj2 (Forall_each _ _)). cbn. auto 6.
  - intros o' Ho' El. apply IH; [done|done|lia|lia|lia].
Qed.

Lemma div_count len c : 0 <= len -> 0 <= c -> c <= len / 20 -> 20 * c <= len.
Proof. intros Hl Hc H. pose proof (Z.mul_div_le len 20 ltac:(lia)). lia. Qed.

Lemma client_monitor_safe o s : counted n o -> readable s -> safe_with (counted n) gcc_read_client_monitor_data o s.
Proof.
  intros Ho Hr. unfold gcc_read_client_monitor_data. cbn zeta. do 2 gcc_step; [gcc_step|]. do 3 gcc_step. gcc_step; [gcc_step|].
  gcc_step. gcc_step; [gcc_step|]. pose proof (zlen_nonneg (MonitorDefArray o'.2)).
  set (c := Z.min _ _) in *. assert (Hc : 20 * c <= zlen (unread s) - 8).
  { apply div_count; [lia|lia|]. unfold u32 in *. pose proof (Z.mod_le ((zlen (unread s) - 8) / 20) (2 ^ 32)).
    pose proof (Z.div_pos (zlen (unread s) - 8) 20). lia. }
  assert (Hw : counted n (o'.1, o'.2 <| MonitorCount := c |>)).
  { match goal with H : counted n o' |- _ => destruct H as [[Hm Hs] Hn] end. split; [split; [done|]|done]. cbn. revert Hs. settings_field. }
  apply safe_with_upd. apply safe_with_bind; [|done|intros; gcc_step]. apply read_monitors_safe; [exact Hw|done|lia|cbn; lia|lia].
Qed.

Lemma client_monitor_extended_safe o s : counted n o -> readable s -> safe_with (counted n) gcc_read_client_monitor_extended_data o s.
Proof.
  intros Ho Hr. unfold gcc_read_client_monitor_extended_data. do 2 gcc_step; [gcc_step|]. do 4 gcc_step. gcc_step; [gcc_step|].
  gcc_step; [gcc_step|]. gcc_step. gcc_step; [gcc_step|].
  match goal with H : counted n o' |- _ => pose proof H as [[Hm Hs] Hn] end.
  assert (Hc : MonitorCount o'.2 <= zlen (MonitorDefArray o'.2)) by apply Hs.
  assert (Hw : counted n (o'.1, o'.2 <| HasMonitorAttributes := true |>)).
  { split; [split; [done|]|done]. cbn. revert Hs. settings_field. }
  assert (Hk : 20 * v1 <= zlen (unread s) - 12) by (apply div_count; [lia|lia|]; replace v0 with 20 in * by lia; lia).
  apply safe_with_upd. apply safe_with_bind; [|done|intros; gcc_step]. apply read_attributes_safe; [exact Hw|done|lia|cbn; lia|lia].
Qed.

(** *** Message channel *)

Lemma client_message_channel_safe o s : counted n o -> readable s -> safe_with (counted n) gcc_read_client_message_channel_data o s.
Proof.
  intros Ho Hr. unfold gcc_read_client_message_channel_data. repeat gcc_step.
  eapply safe_upd_mcs; [eassumption|intros []; split; [by constructor|done]|intros o1 Ho1].
  eapply safe_upd_mcs; [eassumption|intros []; split; [constructor; cbn; try done; apply u16_bound|done]|intros o2 Ho2; gcc_step].
Qed.

Lemma server_message_channel_safe o s : counted n o -> readable s -> safe_with (counted n) gcc_read_server_message_channel_data o s.
Proof.
  intros Ho Hr. unfold gcc_read_server_message_channel_data. repeat gcc_step.
  eapply safe_upd_mcs; [eassumption|intros []; split; [by constructor|done]|intros o1 Ho1; gcc_step].
Qed.

(** *** Channels *)

Lemma read_channel_defs_safe k i o s :
  counted n o -> readable s -> 0 <= i -> i + Z.of_nat k <= CHANNEL_MAX_COUNT -> 12 * Z.of_nat k <= zlen (unread s) ->
  safe_with (counted n) (read_channel_defs k i) o s.
Proof.
  revert i o s. induction k as [|k IH]; intros i o s Ho Hr Hi Hk Hl; cbn [read_channel_defs]; [gcc_step|].
  apply safe_with_read; [done|unfold CHANNEL_NAME_LEN; lia|intros Hr1 Hl1].
  eapply safe_upd_channel; [eassumption|lia| |intros o1 Ho1].
  { intros c (Hlen & Hb & Ho' & Hid). split_and!; cbn; [rewrite zlen_ztake; unfold CHANNEL_NAME_LEN; lia|by apply Forall_ztake, unread_bytes|done|done]. }
  gcc_step; [gcc_step|]. unfold CHANNEL_NAME_LEN in *. do 2 gcc_step.
  eapply safe_upd_channel; [eassumption|lia| |intros o2 Ho2].
  { intros c (Hlen & Hb & Ho' & Hid). split_and!; cbn; [done|done|done|apply Ho1]. }
  eapply safe_upd_mcs; [eassumption|intros []; split; [constructor; cbn; try done; apply u16_bound|done]|intros o3 Ho3].
  apply IH; [done|done|lia|lia|lia].
Qed.

Lemma read_channel_ids_safe k i o s :
  counted n o -> readable s -> 0 <= i -> i + Z.of_nat k <= CHANNEL_MAX_COUNT -> 2 * Z.of_nat k <= zlen (unread s) ->
  safe_with (counted n) (read_channel_ids k i) o s.
Proof.
  revert i o s. induction k as [|k IH]; intros i o s Ho Hr Hi Hk Hl; cbn [read_channel_ids]; [gcc_step|]. gcc_step.
  eapply safe_upd_channel; [eassumption|lia| |intros o1 Ho1; apply IH; [done|done|lia|lia|lia]].
  intros c (Hlen & Hb & Ho' & Hid). by split_and!.
Qed.
End client_blocks_safe.

(** ** Blocks *)

Lemma seek_ex_run k s : readable s -> 0 <= k <= zlen (unread s) -> Stream_SafeSeekEx k s = Ret (true, advance s k).
Proof.
  intros Hr Hk. unfold Stream_SafeSeekEx. rewrite (pbind_ret _ _ _ _ _ (check_length_spec s k Hr)).
  replace (k <=? zlen (unread s)) with true by lia. cbn [negb]. by rewrite (pbind_ret _ _ _ _ _ (seek_spec s k Hr Hk)).
Qed.

Lemma seek_ex_safe k s : 0 <= k -> readable s -> safe_at (Stream_SafeSeekEx k) s.
Proof.
  intros Hk Hr. unfold Stream_SafeSeekEx. apply safe_check; [done|intros Hl|intros _; solve_safe]. cbn [negb].
  exists true, k. split; [|lia]. by rewrite (pbind_ret _ _ _ _ _ (seek_spec s k Hr ltac:(lia))).
Qed.

Section all_blocks_safe.
Context `{HM : Malloc} `{HC : ServerCrypto}.
Implicit Types (o : gobj) (s : wStream).

(** After a block that was accepted the channels fit into their array. *)
Definition block_post (ok : bool) o : Prop := gcc_wf o /\ (ok = true -> channelCount o.1 <= CHANNEL_MAX_COUNT).

Lemma counted_post (m : Prog gstate bool) o s :
  safe_with (counted (channelCount o.1)) m o s -> channelCount o.1 <= CHANNEL_MAX_COUNT -> safe_res block_post m o s.
Proof. intros H Hn. eapply safe_res_weaken; [exact H|]. intros ok o' [Hw Hc]. split; [done|]. lia. Qed.

Lemma client_network_safe o s : gcc_wf o -> readable s -> safe_res block_post gcc_read_client_network_data o s.
Proof.
  intros Ho Hr. unfold gcc_read_client_network_data. gcc_step. gcc_step.
  { by apply safe_with_pret; [split|]. }
  gcc_step. apply safe_with_upd.
  set (o1 := (_, _)). assert (Hw : counted v o1).
  { destruct Ho as [[] Hs]. split; [split; [constructor|done]|]; done. }
  gcc_step; [by apply safe_with_pret; [split; [apply Hw|]|]|]. gcc_step; [by apply safe_with_pret; [split; [apply Hw|]|]|].
  unfold CHANNEL_MAX_COUNT in *. apply counted_post; [|cbn; unfold CHANNEL_MAX_COUNT; lia].
  rewrite !u32_id in * by (rewrite ?u32_id; lia).
  apply read_channel_defs_safe; [exact Hw|done|lia|unfold CHANNEL_MAX_COUNT; lia|lia].
Qed.

Lemma server_network_safe o s : gcc_wf o -> readable s -> safe_res block_post gcc_read_server_network_data o s.
Proof.
  intros Ho Hr. unfold gcc_read_server_network_data. gcc_step; cbn [negb].
  2: by apply safe_with_pret; [split|].
  do 3 gcc_step. set (count := v0).
  assert (Hstep : exists o1, (if negb (count =? channelCount o.1) then upd_mcs (fun m => m <| channelCount := count |>) else pret tt)
    (o, advance (advance s 2) 2) = Ret (tt, (o1, advance (advance s 2) 2)) /\ counted count o1).
  { destruct (count =? channelCount o.1) eqn:E; cbn [negb].
    - exists o. split; [done|]. split; [done|lia].
    - eexists. split; [done|]. destruct Ho as [[] Hs]. split; [split; [constructor|done]|]; cbn; try done. unfold is_u32. lia. }
  destruct Hstep as (o1 & E1 & Ho1). eapply safe_res_still; [exact E1|].
  eapply safe_res_still; [by apply at_s_ret, check_length_ex_spec|]. gcc_step; [by apply safe_with_pret; [split; [apply Ho1|]|]|].
  destruct Ho as [Hm _]. rewrite (wf_max _ Hm). gcc_step; [by apply safe_with_pret; [split; [apply Ho1|]|]|].
  assert (Hk : 2 * count <= zlen (unread (advance (advance s 2) 2))).
  { pose proof (Z.mul_div_le (zlen (unread (advance (advance s 2) 2))) 2). lia. }
  eapply safe_res_bind; [apply read_channel_ids_safe; [exact Ho1|done|lia|lia|lia]|done|]. intros ? o2 k Ho2 Hk2. cbn in Ho2.
  apply (safe_res_weaken (fun _ => counted count)); [|by intros ok o3 [Hw <-]; split; [|lia]].
  gcc_step; [|gcc_step]. apply safe_with_at_s; [done|by apply seek_ex_safe].
Qed.

Lemma sub_stream_ok k s :
  readable s -> 0 <= k <= zlen (unread s) -> readable (sub_stream k s) /\ unread (sub_stream k s) = ztake k (unread s).
Proof.
  intros Hr Hk. pose proof (zlen_unread s Hr) as Hu. pose proof Hr as [[Hb Hc Hl Hp Hby] Hle].
  assert (Hz : zlen (ztake k (zdrop (pointer s) (buffer s))) = k) by (autorewrite with zlist; lia).
  assert (E : ztake k (zdrop (pointer s) (buffer s)) = ztake k (unread s)).
  { unfold unread. rewrite !ztake_zdrop_comm, ztake_ztake by lia. do 2 f_equal. lia. }
  split.
  - split; [split|]; cbn; try lia. by apply Forall_ztake, Forall_zdrop.
  - unfold sub_stream. rewrite E in *. unfold unread at 1. cbn. rewrite zdrop_0 by lia. by rewrite ztake_all by lia.
Qed.

Lemma on_sub_run (Q : bool -> gobj -> Prop) m o s sub :
  safe_res Q m o sub -> exists ok o', on_sub sub m (o, s) = Ret (ok, (o', s)) /\ Q ok o'.
Proof. intros (ok & o' & k & E & _ & HQ). exists ok, o'. unfold on_sub. cbn. by rewrite E. Qed.

Definition fits o : Prop := gcc_wf o /\ channelCount o.1 <= CHANNEL_MAX_COUNT.

Lemma client_block_safe type o s : fits o -> readable s -> safe_res block_post (read_client_block type) o s.
Proof.
  intros [Hw Hn] Hr. assert (Ho : counted (channelCount o.1) o) by done. unfold read_client_block.
  repeat case_if; try first [by apply client_network_safe|apply counted_post; [|done]].
  - by apply client_core_safe.
  - by apply client_security_safe.
  - by apply client_cluster_safe.
  - by apply client_monitor_safe.
  - by apply client_message_channel_safe.
  - by apply client_monitor_extended_safe.
  - apply safe_with_at_s; [done|by apply seek_ex_safe].
  - by apply client_multitransport_safe.
  - gcc_step.
Qed.

Lemma server_block_safe type o s : fits o -> readable s -> safe_res block_post (read_server_block type) o s.
Proof.
  intros [Hw Hn] Hr. assert (Ho : counted (channelCount o.1) o) by done. unfold read_server_block.
  repeat case_if; try first [by apply server_network_safe|apply counted_post; [|done]].
  - by apply server_core_safe.
  - by apply server_security_safe.
  - by apply server_message_channel_safe.
  - by apply server_multitransport_safe.
  - gcc_step.
Qed.

(** The header of a block, whose contents are all there. *)
Lemma header_run o s :
  readable s -> exists r k, gcc_read_user_data_header (o, s) = Ret (r, (o, advance s k)) /\ 0 <= k <= zlen (unread s) /\
    match r with
    | None => True
    | Some (type, len) => k = 4 /\ 4 <= len < 65536 /\ len <= zlen (unread s)
    end.
Proof.
  intros Hr. unfold gcc_read_user_data_header. rewrite (pbind_ret _ _ _ _ _ (at_s_ret _ o _ _ _ (check_length_spec s 4 Hr))).
  destruct (4 <=? zlen (unread s)) eqn:E4; cbn [negb]; [|exists None, 0; rewrite advance_0; split_and!; [done|lia|zlist_lia|done]].
  destruct (unread s) as [|b0 [|b1 [|b2 [|b3 r]]]] eqn:Hu; try done.
  destruct (read_u16_le_spec s b0 b1 _ Hr Hu) as (R1 & Hr1 & Hu1 & _). rewrite (pbind_ret _ _ _ _ _ (at_s_ret _ o _ _ _ R1)).
  destruct (read_u16_le_spec _ b2 b3 _ Hr1 Hu1) as (R2 & Hr2 & Hu2 & H2 & H3). rewrite (pbind_ret _ _ _ _ _ (at_s_ret _ o _ _ _ R2)).
  rewrite advance_advance in *. change (2 + 2) with 4 in *. unfold is_byte in *. rewrite !zlen_cons in *. pose proof (zlen_nonneg r).
  case_if; [exists None, 4; split_and!; [done|lia|lia|done]|].
  rewrite (pbind_ret _ _ _ _ _ (at_s_ret _ o _ _ _ (check_length_spec _ _ Hr2))), Hu2.
  case_if; [exists None, 4; split_and!; [done|lia|lia|done]|]. eexists (Some (_, _)), 4. split_and!; [done|lia..].
Qed.

(** A block is read from a stream of its own and leaves that of the caller alone. *)
Lemma client_blocks_safe fuel length got o s :
  fits o -> readable s -> length <= Z.of_nat fuel -> safe_res (fun r => block_post r.1) (client_blocks fuel length got) o s.
Proof.
  revert length got o s. induction fuel as [|fuel IH]; intros length got o s Ho Hr Hf; cbn [client_blocks]; case_if.
  1, 3: by destruct Ho; apply safe_with_pret; [split|].
  { lia. }
  destruct (header_run o s Hr) as (h & k & E1 & Hk & Hh). eapply safe_res_move; [exact E1|done|done|intros Hr1 Hl1].
  destruct h as [[type len]|]; [destruct Hh as (-> & Hlen & Hfit)|by destruct Ho; apply safe_with_pret; [split|]].
  gcc_step; cbn [negb]; [|lia]. gcc_step. gcc_step.
  destruct (sub_stream_ok (len - 4) (advance s 4) Hr1 ltac:(lia)) as [Hsub _].
  destruct (on_sub_run block_post (read_client_block type) o (advance (advance s 4) (len - 4)) _
    (client_block_safe type o _ Ho Hsub)) as (ok & o1 & E2 & Hw & Hok).
  eapply safe_res_still; [exact E2|]. destruct ok; cbn [negb]; [|by apply safe_with_pret; [split|]].
  apply IH; [by split; auto|done|case_if; lia].
Qed.

Lemma server_blocks_safe fuel offset length o s :
  fits o -> readable s -> zlen (unread s) < Z.of_nat fuel -> safe_res block_post (server_blocks fuel offset length) o s.
Proof.
  revert offset o s. induction fuel as [|fuel IH]; intros offset o s Ho Hr Hf; cbn [server_blocks]; case_if.
  1, 3: by destruct Ho; apply safe_with_pret; [split|].
  { pose proof (zlen_nonneg (unread s)). lia. }
  destruct (header_run o s Hr) as (h & k & E1 & Hk & Hh). eapply safe_res_move; [exact E1|done|done|intros Hr1 Hl1].
  destruct h as [[type len]|]; [destruct Hh as (-> & Hlen & Hfit)|by destruct Ho; apply safe_with_pret; [split|]].
  gcc_step. destruct (sub_stream_ok (len - 4) (advance s 4) Hr1 ltac:(lia)) as [Hsub _].
  eapply safe_res_move; [by apply at_s_ret, seek_ex_run; [|lia]|done|lia|intros Hr2 Hl2]. cbn [negb].
  destruct (on_sub_run block_post (read_server_block type) o (advance (advance s 4) (len - 4)) _
    (server_block_safe type o _ Ho Hsub)) as (ok & o1 & E2 & Hw & Hok).
  eapply safe_res_still; [exact E2|]. destruct ok; cbn [negb]; [|by apply safe_with_pret; [split|]].
  apply IH; [by split; auto|done|lia].
Qed.

Lemma client_data_blocks_safe length o s :
  fits o -> readable s -> safe_res block_post (gcc_read_client_data_blocks length) o s.
Proof.
  intros Ho Hr. unfold gcc_read_client_data_blocks.
  eapply safe_res_bind; [apply client_blocks_safe; [done|done|lia]|done|]. intros [ok got] o1 k [Hw Hok] Hr1. cbn [fst snd] in *.
  destruct ok; cbn [negb]; [|by apply safe_with_pret; [split|]]. apply counted_post; [|auto].
  assert (Hc : counted (channelCount o1.1) o1) by done. solve_gcc.
Qed.

Lemma server_data_blocks_safe length o s :
  fits o -> readable s -> safe_res block_post (gcc_read_server_data_blocks length) o s.
Proof. intros Ho Hr. unfold gcc_read_server_data_blocks. gcc_step. apply server_blocks_safe; [done|done|]. pose proof (zlen_nonneg (unread s)). cbn. lia. Qed.

(** ** Conference create request and response *)

Lemma safe_needs_at {A} (m : Prog wStream (option A)) f o s :
  fits o -> readable s -> safe_at m s ->
  (forall a k, readable (advance s k) -> safe_res block_post (f a) o (advance s k)) -> safe_res block_post (needs (at_s m) f) o s.
Proof.
  intros Ho Hr (a & k & E & Hk) Hf. eapply safe_with_run; [exact E|done|done|intros Hr1 _].
  destruct a as [a|]; [by apply Hf|]. by destruct Ho; apply safe_with_pret; [split|].
Qed.

Lemma safe_require_at (m : Prog wStream bool) f o s :
  fits o -> readable s -> safe_at m s ->
  (forall k, readable (advance s k) -> safe_res block_post f o (advance s k)) -> safe_res block_post (require (at_s m) f) o s.
Proof.
  intros Ho Hr (a & k & E & Hk) Hf. eapply safe_with_run; [exact E|done|done|intros Hr1 _].
  destruct a; cbn [negb]; [by apply Hf|]. by destruct Ho; apply safe_with_pret; [split|].
Qed.

Lemma check_safe k s : readable s -> safe_at (Stream_CheckAndLogRequiredLength k) s.
Proof. intros Hr. exists (k <=? zlen (unread s)), 0. rewrite advance_0, check_length_spec by done. split; [done|zlist_lia]. Qed.
Lemma read_selection_safe s : readable s -> safe_at per_read_selection s.
Proof. intros. unfold per_read_selection. solve_safe. Qed.
Lemma read_number_of_sets_safe s : readable s -> safe_at per_read_number_of_sets s.
Proof. intros. unfold per_read_number_of_sets. solve_safe. Qed.
Lemma read_padding_safe k s : 0 <= k -> readable s -> safe_at (per_read_padding k) s.
Proof. intros. unfold per_read_padding. solve_safe. Qed.
Hint Resolve read_choice_safe read_enumerated_safe read_integer16_safe per_read_integer_safe per_read_length_safe check_safe
  read_selection_safe read_number_of_sets_safe : safe.
Hint Extern 1 (safe_at (per_read_object_identifier _) _) => apply per_read_object_identifier_safe : safe.
Hint Extern 1 (safe_at (per_read_octet_string _ _) _) => apply per_read_octet_string_safe : safe.
Hint Extern 1 (safe_at (per_read_numeric_string _) _) => apply per_read_numeric_string_safe; [lia|] : safe.
Hint Extern 1 (safe_at (per_read_padding _) _) => apply read_padding_safe; [lia|] : safe.

Ltac conference_step :=
  lazymatch goal with
  | |- safe_res _ (needs _ _) _ _ => apply safe_needs_at; [assumption|assumption|auto with safe|intros ? ? ?]
  | |- safe_res _ (require _ _) _ _ => apply safe_require_at; [assumption|assumption|auto with safe|intros ? ?]
  | |- safe_res _ (if ?b then _ else _) _ _ => destruct b
  | Ho : fits ?o |- safe_res _ (pret false) ?o _ => destruct Ho; apply safe_with_pret; [by split|assumption]
  end.

Lemma conference_request_safe o s : fits o -> readable s -> safe_res block_post gcc_read_conference_create_request o s.
Proof. intros Ho Hr. unfold gcc_read_conference_create_request. repeat conference_step. by apply client_data_blocks_safe. Qed.

Lemma conference_response_safe o s : fits o -> readable s -> safe_res block_post gcc_read_conference_create_response o s.
Proof. intros Ho Hr. unfold gcc_read_conference_create_response. repeat conference_step. by apply server_data_blocks_safe. Qed.
End all_blocks_safe.

(** ** Samples *)

Definition blank_monitor : rdpMonitor := mkMonitor 0 0 0 0 false 0 0 0 0 0.

(** A peer with every capability and room for sixteen monitors. *)
Definition sample_settings (server : bool) : rdpSettings :=
  mkSettings 0x80005 1024 768 0x409 2600 (Some [104; 111; 115; 116; 0]) 4 0 12 7 0 None 6 1 0 0 0 100 100 32 server
    false true true true true true true true true true true true true 1 1 false 0 0 0 None 0 None 1 0 false false
    false true 0x105 true false false 0 1 (zrep 16 blank_monitor) 0 false 0 [].

Definition no_crypto : ServerCrypto := Build_ServerCrypto (fun _ => true) (pret 0) (fun n => zrep n 7).

Lemma sample_settings_wf server : settings_wf (sample_settings server).
Proof.
  constructor; [|done|by exists [104; 111; 115; 116]; repeat constructor|done|done|by apply Forall_zrep; repeat constructor].
  apply (proj2 (Forall_each _ _)). cbn. by split_and!.
Qed.

Lemma sample_mcs_wf : mcs_wf sample_mcs.
Proof. by constructor; [..|apply Forall_zrep; repeat constructor]. Qed.

(** C18: from any received bytes, [gcc_read_conference_create_request] and
    [gcc_read_conference_create_response] return: no read or seek leaves the received bytes or a block,
    no index leaves the array of channels or monitors, the loops over the blocks end (also when the
    16-bit offset wraps), and every string in a fixed field fits its buffer.  Every field
    of the settings, of the MCS object, of its 31 channels and of the monitors is in the range of its C
    type afterwards, at most as many monitors as there is room for are announced, and a packet that was
    accepted announces at most 31 channels. *)
Theorem gcc_conference_safe `{HM : Malloc} `{HC : ServerCrypto} (m : rdpMcs) (st : rdpSettings) (s : wStream) :
  mcs_wf m -> settings_wf st -> channelCount m <= CHANNEL_MAX_COUNT -> readable s ->
  safe_res block_post gcc_read_conference_create_request (m, st) s /\
  safe_res block_post gcc_read_conference_create_response (m, st) s.
Proof.
  intros Hm Hst Hc Hr. assert (Ho : fits (m, st)) by done.
  split; [by apply conference_request_safe|by apply conference_response_safe].
Qed.

(** Seven bytes of a request. *)
Lemma gcc_conference_safe_witness :
  safe_res block_post (@gcc_read_conference_create_request malloc_all) (sample_mcs, sample_settings true)
    (Stream_StaticConstInit [0; 5; 0; 20; 124; 0; 1] 7).
Proof.
  apply (@gcc_conference_safe malloc_all no_crypto sample_mcs (sample_settings true) (Stream_StaticConstInit [0; 5; 0; 20; 124; 0; 1] 7)).
  - exact sample_mcs_wf.
  - exact (sample_settings_wf true).
  - vm_compute. discriminate.
  - by repeat constructor.
Defined.
