(* ===== verification/GccPdu.v ===== *)
(** * GCC user data: what one side writes is what the other side learns *)

From S2P Require Import Prelude Memory Stream Per Unicode UnicodeApi Readers Mcs McsPdu Gcc GccStrings GccSafe.

(** ** Blocks *)

Definition enc_block (type : Z) (body : list Z) : list Z := le16 type ++ le16 (4 + zlen body) ++ body.

Lemma zlen_enc_block type body : zlen (enc_block type body) = 4 + zlen body.
Proof. unfold enc_block. rewrite !zlen_app. change (zlen (le16 _)) with 2. lia. Qed.
#[export] Hint Rewrite zlen_enc_block : zlist.

Section writers.
Context `{HM : Malloc}.

Lemma writes_ext w w' need bs : (forall s, stream_ok s -> w s = w' s) -> writes w' need bs -> writes w need bs.
Proof. intros E []. split; [intros; rewrite E; auto|intros s Hg; rewrite E by apply Hg; auto|done|done]. Qed.

(** Room for a whole block is made by its header. *)
Lemma writes_block type len body bs :
  emits_ret body true bs -> len = 4 + zlen bs -> len < 65536 ->
  writes (require (gcc_write_user_data_header type len) body) (4 + len) (enc_block type bs).
Proof.
  intros Hb -> Hlen. pose proof (zlen_nonneg bs).
  apply (writes_ext _ (ok <- Stream_EnsureRemainingCapacity (4 + (4 + zlen bs)) ;; if negb ok then pret false else
    (Stream_Write_UINT16 type ;; Stream_Write_UINT16 (4 + zlen bs) ;; body))).
  - intros s _. unfold require, gcc_write_user_data_header, pbind. destruct (Stream_EnsureRemainingCapacity _ s) as [[[] s1]| |]; cbn; try done.
    destruct (Stream_Write_UINT16 type s1) as [[[] s2]| |]; try done. by destruct (Stream_Write_UINT16 _ s2) as [[[] s3]| |].
  - apply writes_ensure_ret; [lia|rewrite zlen_enc_block; lia|].
    eapply emits_bind; [apply emits_u16_le|]. eapply emits_bind; [apply emits_u16_le|exact Hb].
Qed.

(** Room that is there already. *)
Lemma emits_ensure n (k : Prog wStream bool) y :
  0 <= n <= zlen y -> emits_ret k true y -> emits_ret (require (Stream_EnsureRemainingCapacity n) k) true y.
Proof.
  intros Hn [Hy Hk]. split; [done|]. intros s Hs Hfit. unfold require, pbind. rewrite ensure_fits by (done || lia). cbn [negb]. by apply Hk.
Qed.

Lemma emits_plift {A B} (a : A) (k : A -> Prog wStream B) b y o :
  o = Ret a -> emits_ret (k a) b y -> emits_ret (pbind (plift o) k) b y.
Proof. intros -> Hk. exact Hk. Qed.
End writers.


(** ** Strings of the settings *)

Definition characters (cs : list Z) : Prop := Forall (fun c => scalar c = true /\ c <> 0) cs.

(** The setting is the text [cs], or missing when that is empty. *)
Definition setting_text (o : option (list Z)) (cs : list Z) : Prop :=
  o = Some (text enc8 cs ++ [0]) \/ (o = None /\ cs = []).

(** A field of [w] units with the text and zeros behind it. *)
Definition enc_field (w : Z) (cs : list Z) : list Z :=
  enc_utf16 (text enc16 cs) ++ zrep (2 * w - zlen (text enc16 cs) * 2) 0.

Lemma text_sizes cs : Forall (fun c => scalar c = true) cs -> zlen (text enc8 cs) <= 3 * zlen (text enc16 cs).
Proof.
  intros Hcs. pose proof (text8_size (as_sequences enc16 cs)) as H. destruct (as_sequences_text enc16 cs) as [E1 E2].
  rewrite E1, E2 in H. apply H. by apply as_sequences_read.
Qed.

Lemma characters_scalar cs : characters cs -> Forall (fun c => scalar c = true) cs.
Proof. intros H. eapply Forall_impl; [exact H|]. by intros ? []. Qed.

Lemma setting_converted `{Malloc} o cs max :
  setting_text o cs -> characters cs -> zlen (text enc16 cs) < max <= 65536 -> (forall n, 0 <= n <= 2 ^ 20 -> malloc_ok n = true) ->
  exists w e, ConvertUtf8ToWCharAlloc o 0 = Ret (w, e) /\ truncated max w = text enc16 cs.
Proof.
  intros Ho Hcs Hmax Hmem. pose proof (zlen_nonneg (text enc16 cs)). pose proof (text_sizes cs (characters_scalar cs Hcs)). destruct Ho as [->|[-> ->]].
  - destruct (utf8_alloc_text cs [] 0) as (e & E); [done|unfold INT_MAX; lia..|apply Hmem; lia|]. do 2 eexists. split; [exact E|].
    unfold truncated. replace (max <=? zlen (text enc16 cs)) with false by lia.
    by rewrite ztake_app, ztake_all, Z.sub_diag, ztake_0, app_nil_r by lia.
  - do 2 eexists. split; [apply utf8_alloc_null, Hmem; lia|]. cbn in *. by replace (max <=? 0) with false by (cbn in *; lia).
Qed.

Lemma units_of_app us bs : Forall (fun u => 0 <= u < 2 ^ 16) us -> units_of (enc_utf16 us ++ bs) = us ++ units_of bs.
Proof.
  induction 1 as [|u us Hu _ IH]; [done|]. unfold enc_utf16. cbn [map concat]. rewrite <- app_assoc. cbn. f_equal; [|exact IH].
  rewrite (Z.mod_small (u / 256)) by (split; [apply Z.div_pos; lia|apply Z.div_lt_upper_bound; lia]). pose proof (Z.div_mod u 256). lia.
Qed.

Lemma units_of_zeros k : units_of (zrep (2 * Z.of_nat k) 0) = replicate k 0.
Proof.
  induction k as [|k IH]; [done|]. replace (2 * Z.of_nat (S k)) with (1 + (1 + 2 * Z.of_nat k)) by lia.
  unfold zrep in *. rewrite !Z2Nat.inj_add, !replicate_add by lia.
  change (Z.to_nat 1) with 1%nat. cbn [replicate app units_of]. by rewrite IH.
Qed.

Lemma units_bytes us : Forall is_byte (enc_utf16 us).
Proof. unfold enc_utf16. induction us as [|u us IH]; [constructor|]. cbn [map concat]. apply Forall_app. split; [apply le16_bytes|done]. Qed.

(** Emit the fields of a block one by one. *)
Ltac emit1 :=
  first [apply emits_u32_le | apply emits_u16_le | apply emits_u8; first [apply u8_byte | unfold is_byte; lia]
        | apply emits_zero; lia | apply emits_bytes; first [apply units_bytes | assumption]].
Ltac emit := repeat first [eapply emits_final; emit1 | eapply emits_bind; [emit1|]].

Lemma zlen_enc_field w cs : zlen (text enc16 cs) <= w -> zlen (enc_field w cs) = 2 * w.
Proof. intros Hw. unfold enc_field. rewrite zlen_app, zlen_enc_utf16, zlen_zrep. pose proof (zlen_nonneg (text enc16 cs)). lia. Qed.

Lemma enc_field_bytes w cs : Forall is_byte (enc_field w cs).
Proof. apply Forall_app. split; [apply units_bytes|]. apply Forall_zrep. unfold is_byte. lia. Qed.

(** The reader of the field finds the text. *)
Lemma field_back w b cs :
  characters cs -> 0 < w -> zlen (text enc16 cs) < w -> 3 * w < zlen b <= INT_MAX ->
  reads_back (Stream_Read_UTF16_String_As_UTF8_Buffer w b) (enc_field w cs) (zlen (text enc8 cs), splice 0 (text enc8 cs ++ [0]) b).
Proof.
  intros Hcs Hw Hfit Hb s r Hr Hu. pose proof (zlen_nonneg (text enc16 cs)) as Ht. pose proof (zlen_enc_field w cs ltac:(lia)) as Hz.
  assert (Hl : zlen (unread s) = 2 * w + zlen r) by (rewrite Hu, zlen_app, Hz; done). pose proof (zlen_nonneg r).
  unfold Stream_Read_UTF16_String_As_UTF8_Buffer. rewrite (pbind_ret _ _ _ _ _ (check_length_spec s (w * 2) Hr)).
  replace (w * 2 <=? zlen (unread s)) with true by lia. cbn [negb].
  rewrite (pbind_ret _ _ _ _ _ (load_bytes_spec (w * 2) s Hr ltac:(lia))), (pbind_ret _ _ _ _ _ (seek_spec s (w * 2) Hr ltac:(lia))).
  assert (Eb : ztake (w * 2) (unread s) = enc_field w cs).
  { rewrite Hu, ztake_app, ztake_all, ztake_0, app_nil_r by lia. done. }
  assert (Hu16 : Forall (fun u => 0 <= u < 2 ^ 16) (text enc16 cs)) by (apply text_units; [apply enc16_units|by apply characters_scalar]).
  set (us := text enc16 cs ++ replicate (Z.to_nat (w - zlen (text enc16 cs))) 0).
  assert (Eus : units_of (enc_field w cs) = us).
  { unfold enc_field. rewrite units_of_app by done. unfold us. f_equal. rewrite <- units_of_zeros. f_equal. f_equal. lia. }
  rewrite Eb, Eus. assert (Hus : zlen us = w) by (unfold us, zlen in *; rewrite length_app, length_replicate; lia).
  assert (Hpost : exists p, replicate (Z.to_nat (w - zlen (text enc16 cs))) 0 = 0 :: p).
  { destruct (Z.to_nat (w - zlen (text enc16 cs))) eqn:E; [lia|]. by eexists. }
  assert (Hn : no_nul (text enc16 cs)) by (apply text_no_nul; [apply enc16_no_nul|done]).
  destruct (as_sequences_text enc16 cs) as [E1 E2].
  assert (Hq : all_read reads16 (as_sequences enc16 cs)) by (by apply as_sequences_read, characters_scalar).
  assert (Hft : field_text us b (text enc8 cs) (splice 0 (text enc8 cs ++ [0]) b)).
  { exists (as_sequences enc16 cs), (replicate (Z.to_nat (w - zlen (text enc16 cs))) 0). rewrite E1, E2. split_and!; try done. by right. }
  destruct (field_converts us b 0) as (rc & d & e' & E & Hd & [[_ Hno]|(txt & -> & qs & post & Hqs & Epost & Hp & Hnn & -> & ->)]);
    [lia|apply Forall_app; split; [done|apply Forall_replicate; lia]|lia|exfalso; apply Hno; eauto|].
  rewrite Hus in E. unfold plift, pbind. rewrite E.
  destruct (field_split_unique (text enc16 cs) (replicate (Z.to_nat (w - zlen (text enc16 cs))) 0) (sequences qs) post) as [Es _];
    [done|done|by right|done|done|].
  rewrite <- E1 in Es. apply (sequences_inj reads16 enc8 16 ConvertWCharToUtf8) in Es; [|done|done]. rewrite <- Es, E2.
  cbn. unfold pret. by rewrite Hz, (Z.mul_comm w 2).
Qed.

(** ** Capability flags *)

Lemma has_flag_lor a b f : has_flag (Z.lor a b) f = has_flag a f || has_flag b f.
Proof.
  unfold has_flag. rewrite Z.land_lor_distr_l, <- negb_andb. f_equal. apply eq_true_iff_eq.
  by rewrite andb_true_iff, !Z.eqb_eq, Z.lor_eq_0_iff.
Qed.

Lemma has_flag_mask x m f : Z.land m f = f -> has_flag (Z.land x m) f = has_flag x f.
Proof. intros E. unfold has_flag. by rewrite <- Z.land_assoc, E. Qed.

Lemma u16_land x : u16 x = Z.land x 65535.
Proof. symmetry. exact (land_mask 16 x ltac:(lia)). Qed.

Lemma has_flag_client x f : Z.land client_caps_mask f = f -> has_flag (filterAndLogEarlyClientCapabilityFlags x) f = has_flag x f.
Proof.
  intros E. unfold filterAndLogEarlyClientCapabilityFlags. rewrite u16_land, <- Z.land_assoc. by apply has_flag_mask.
Qed.

Lemma has_flag_server x f : Z.land server_caps_mask f = f -> has_flag (filterAndLogEarlyServerCapabilityFlags x) f = has_flag x f.
Proof. apply has_flag_mask. Qed.

(** A flag among flags. *)
Lemma has_flag_if b g f : has_flag (flag_if b g) f = b && has_flag g f.
Proof. by destruct b. Qed.

Ltac flags :=
  rewrite ?has_flag_client, ?has_flag_server by reflexivity; rewrite ?has_flag_lor, ?has_flag_if;
  repeat match goal with |- context [has_flag ?g ?f] => let v := eval vm_compute in (has_flag g f) in change (has_flag g f) with v end;
  rewrite ?andb_true_r, ?andb_false_r, ?orb_false_r, ?orb_false_l.

Lemma client_flags c :
  let flags := earlyClientCapsFromSettings c in
  has_flag flags RNS_UD_CS_SUPPORT_ERRINFO_PDU = SupportErrorInfoPdu c /\
  has_flag flags RNS_UD_CS_WANT_32BPP_SESSION = (ColorDepth c =? 32) /\
  has_flag flags RNS_UD_CS_SUPPORT_STATUSINFO_PDU = SupportStatusInfoPdu c /\
  has_flag flags RNS_UD_CS_STRONG_ASYMMETRIC_KEYS = SupportAsymetricKeys c /\
  has_flag flags RNS_UD_CS_RELATIVE_MOUSE_INPUT = HasRelativeMouseEvent c /\
  has_flag flags RNS_UD_CS_VALID_CONNECTION_TYPE = negb (ConnectionType c =? 0) /\
  has_flag flags RNS_UD_CS_SUPPORT_MONITOR_LAYOUT_PDU = SupportMonitorLayoutPdu c /\
  has_flag flags RNS_UD_CS_SUPPORT_NETCHAR_AUTODETECT = NetworkAutoDetect c /\
  has_flag flags RNS_UD_CS_SUPPORT_DYNVC_GFX_PROTOCOL = SupportGraphicsPipeline c /\
  has_flag flags RNS_UD_CS_SUPPORT_DYNAMIC_TIME_ZONE = SupportDynamicTimeZone c /\
  has_flag flags RNS_UD_CS_SUPPORT_HEARTBEAT_PDU = SupportHeartbeatPdu c /\
  has_flag flags RNS_UD_CS_SUPPORT_SKIP_CHANNELJOIN = SupportSkipChannelJoin c.
Proof. cbv zeta. unfold earlyClientCapsFromSettings. split_and!; flags; reflexivity. Qed.

Lemma server_flags s :
  let flags := earlyServerCapsFromSettings s in
  has_flag flags RNS_UD_SC_EDGE_ACTIONS_SUPPORTED_V1 = SupportEdgeActionV1 s /\
  has_flag flags RNS_UD_SC_DYNAMIC_DST_SUPPORTED = SupportDynamicTimeZone s /\
  has_flag flags RNS_UD_SC_EDGE_ACTIONS_SUPPORTED_V2 = SupportEdgeActionV2 s /\
  has_flag flags RNS_UD_SC_SKIP_CHANNELJOIN_SUPPORTED = SupportSkipChannelJoin s.
Proof. cbv zeta. unfold earlyServerCapsFromSettings. split_and!; flags; reflexivity. Qed.

(** ** Reading steps *)

Section steps.
Context {A : Type} (v : A) (o' : gobj).
Implicit Types (m : rdpMcs) (st : rdpSettings).

Lemma eats_u8 x bs (f : Z -> Prog gstate A) o : is_byte x -> eats (f x) o bs v o' -> eats (pbind rd8 f) o ([x] ++ bs) v o'.
Proof. intros Hx. apply eats_bind. by apply eats_at_s, u8_back. Qed.
Lemma eats_u16 x bs (f : Z -> Prog gstate A) o : eats (f (u16 x)) o bs v o' -> eats (pbind rd16 f) o (le16 x ++ bs) v o'.
Proof. apply eats_bind, eats_at_s, u16_back. Qed.
Lemma eats_u32 x bs (f : Z -> Prog gstate A) o : eats (f (u32 x)) o bs v o' -> eats (pbind rd32 f) o (le32 x ++ bs) v o'.
Proof. apply eats_bind, eats_at_s, u32_back. Qed.
Lemma eats_skip k x bs (f : unit -> Prog gstate A) o : zlen x = k -> eats (f tt) o bs v o' -> eats (pbind (skip k) f) o (x ++ bs) v o'.
Proof. intros <-. apply eats_bind, eats_at_s, skip_back. Qed.
Lemma eats_upd_settings g bs (f : unit -> Prog gstate A) m st :
  eats (f tt) (m, g st) bs v o' -> eats (pbind (upd_settings g) f) (m, st) bs v o'.
Proof. apply eats_then. exact (eats_upd (fun o => (o.1, g o.2)) (m, st)). Qed.
Lemma eats_upd_mcs g bs (f : unit -> Prog gstate A) m st :
  eats (f tt) (g m, st) bs v o' -> eats (pbind (upd_mcs g) f) (m, st) bs v o'.
Proof. apply eats_then. exact (eats_upd (fun o => (g o.1, o.2)) (m, st)). Qed.
Lemma eats_the_settings bs (f : rdpSettings -> Prog gstate A) m st : eats (f st) (m, st) bs v o' -> eats (pbind the_settings f) (m, st) bs v o'.
Proof. exact id. Qed.
Lemma eats_the_mcs bs (f : rdpMcs -> Prog gstate A) m st : eats (f m) (m, st) bs v o' -> eats (pbind the_mcs f) (m, st) bs v o'.
Proof. exact id. Qed.
End steps.

(** Decide a test on numbers that are known. *)
Ltac decide_test :=
  lazymatch goal with
  | |- eats (if ?b then _ else _) _ _ _ _ => let v := eval vm_compute in b in
      lazymatch v with true => change b with true | false => change b with false end; cbv iota
  end.
Ltac eat_step :=
  cbv beta zeta;
  lazymatch goal with
  | |- eats (pbind rd8 _) _ _ _ _ => apply eats_u8; [first [apply u8_byte|unfold is_byte; lia]|]
  | |- eats (pbind rd16 _) _ _ _ _ => apply eats_u16
  | |- eats (pbind rd32 _) _ _ _ _ => apply eats_u32
  | |- eats (pbind (skip _) _) _ _ _ _ => apply eats_skip; [reflexivity|]
  | |- eats (pbind (upd_settings _) _) _ _ _ _ => apply eats_upd_settings
  | |- eats (pbind (upd_mcs _) _) _ _ _ _ => apply eats_upd_mcs
  | |- eats (pbind the_settings _) _ _ _ _ => apply eats_the_settings
  | |- eats (pbind the_mcs _) _ _ _ _ => apply eats_the_mcs
  | |- eats (pret _) _ [] _ _ => apply eats_pret
  end.

(** ** Core data of the client *)

Definition core_body (c : rdpSettings) (name product : list Z) : list Z :=
  le32 (RdpVersion c) ++ le16 (DesktopWidth c) ++ le16 (DesktopHeight c) ++ le16 RNS_UD_COLOR_8BPP ++ le16 RNS_UD_SAS_DEL ++
  le32 (KeyboardLayout c) ++ le32 (ClientBuild c) ++ enc_field 16 name ++
  le32 (KeyboardType c) ++ le32 (KeyboardSubType c) ++ le32 (KeyboardFunctionKey c) ++ zrep 64 0 ++
  le16 RNS_UD_COLOR_8BPP ++ le16 1 ++ le32 0 ++
  le16 (ColorDepthToHighColor (ColorDepth c)) ++ le16 (u16 (SupportedColorDepths c)) ++ le16 (earlyClientCapsFromSettings c) ++
  enc_field 32 product ++ [u8 (ConnectionType c)] ++ [0] ++ le32 (SelectedProtocol c) ++
  le32 (DesktopPhysicalWidth c) ++ le32 (DesktopPhysicalHeight c) ++ le16 (DesktopOrientation c) ++
  le32 (DesktopScaleFactor c) ++ le32 (DeviceScaleFactor c).

Lemma zlen_core_body c name product :
  zlen (text enc16 name) < 16 -> zlen (text enc16 product) < 32 -> zlen (core_body c name product) = 230.
Proof.
  intros Hn Hp. unfold core_body. rewrite !zlen_app, !zlen_enc_field, zlen_zrep by lia.
  repeat change (zlen (le32 _)) with 4. repeat change (zlen (le16 _)) with 2. change (zlen [_]) with 1. reflexivity.
Qed.

Section core.
Context `{HM : Malloc} (Hmem : forall n, 0 <= n <= 2 ^ 20 -> malloc_ok n = true).
Context (name product : list Z) (Hname : characters name) (Hproduct : characters product).
Context (Hn16 : zlen (text enc16 name) < 16) (Hp32 : zlen (text enc16 product) < 32).

Ltac block_len := rewrite ?zlen_app, ?zlen_enc_utf16, ?zlen_zrep; change (zlen (le32 _)) with 4; change (zlen (le16 _)) with 2; change (zlen [_]) with 1; lia.

Lemma core_writes c :
  setting_text (ClientHostname c) name -> setting_text (ClientProductId c) product ->
  writes (gcc_write_client_core_data c) 238 (enc_block CS_CORE (core_body c name product)).
Proof using All.
  intros Hh Hp. pose proof (zlen_nonneg (text enc16 name)). pose proof (zlen_nonneg (text enc16 product)).
  destruct (setting_converted _ _ 16 Hh Hname ltac:(lia) Hmem) as (w1 & e1 & E1 & T1).
  destruct (setting_converted _ _ 32 Hp Hproduct ltac:(lia) Hmem) as (w2 & e2 & E2 & T2).
  apply writes_block; [|by rewrite zlen_core_body|lia].
  apply (emits_plift (w1, e1)); [done|]. apply (emits_plift (w2, e2)); [done|]. cbn [fst]. cbv zeta. rewrite T1, T2.
  unfold core_body, enc_field. rewrite <- !app_assoc. do 3 (emit; apply emits_ensure; [block_len|]). emit.
Qed.

Lemma set_string_eats {A} set b t (f : bool -> Prog gstate A) m st bs v o' :
  c_string b = Ret t -> zlen t < 2 ^ 20 -> eats (f true) (m, set (Some (t ++ [0])) st) bs v o' ->
  eats (pbind (set_string set b) f) (m, st) bs v o'.
Proof using Hmem.
  intros Hb Ht. apply eats_then. intros s r Hr Hu. unfold set_string. rewrite Hb, pbind_plift. pose proof (zlen_nonneg t).
  rewrite Hmem by lia. unfold upd_settings, upd_obj, pmodify, pbind, pret. cbn. by rewrite advance_0.
Qed.

Lemma c_string_splice t b : no_nul t -> c_string (splice 0 (t ++ [0]) b) = Ret t.
Proof.
  intros Ht. unfold c_string, splice. rewrite ztake_0 by lia. cbn [app]. rewrite <- app_assoc. cbn [app].
  rewrite c_strlen_run by done. by rewrite ztake_app, ztake_all, Z.sub_diag, ztake_0, app_nil_r by lia.
Qed.

Lemma core_optional_eats c m st str :
  zlen str = 130 -> TransportDumpReplay st = false -> SelectedProtocol st = u32 (SelectedProtocol c) ->
  eats (read_core_optional 102 str) (m, st)
    (le16 RNS_UD_COLOR_8BPP ++ le16 1 ++ le32 0 ++
     le16 (ColorDepthToHighColor (ColorDepth c)) ++ le16 (u16 (SupportedColorDepths c)) ++ le16 (earlyClientCapsFromSettings c) ++
     enc_field 32 product ++ [u8 (ConnectionType c)] ++ [0] ++ le32 (SelectedProtocol c) ++
     le32 (DesktopPhysicalWidth c) ++ le32 (DesktopPhysicalHeight c) ++ le16 (DesktopOrientation c) ++
     le32 (DesktopScaleFactor c) ++ le32 (DeviceScaleFactor c))
    (Some (mkLocals RNS_UD_COLOR_8BPP (u16 (ColorDepthToHighColor (ColorDepth c))) (u8 (ConnectionType c))))
    (m, st <| SupportedColorDepths := u16 (u16 (SupportedColorDepths c)) |>
           <| EarlyCapabilityFlags := u16 (earlyClientCapsFromSettings c) |>
           <| ClientProductId := Some (text enc8 product ++ [0]) |>
           <| DesktopPhysicalWidth := u32 (DesktopPhysicalWidth c) |> <| DesktopPhysicalHeight := u32 (DesktopPhysicalHeight c) |>
           <| DesktopOrientation := u16 (DesktopOrientation c) |>
           <| DesktopScaleFactor := u32 (DesktopScaleFactor c) |> <| DeviceScaleFactor := u32 (DeviceScaleFactor c) |>).
Proof using Hmem Hproduct Hp32.
  intros Hstr Hdump Hsel. rewrite <- (app_nil_r (le32 (DeviceScaleFactor c))). unfold read_core_optional, optional.
  repeat (first [decide_test|eat_step]).
  pose proof (zlen_nonneg (text enc16 product)). pose proof (text_sizes product (characters_scalar _ Hproduct)).
  assert (Hnn : no_nul (text enc8 product)) by (apply text_no_nul; [apply enc8_no_nul|done]).
  eapply eats_bind; [apply eats_at_s, (field_back 32 str product Hproduct); [lia|lia|unfold INT_MAX; lia]|]. cbn [fst snd].
  replace (zlen (text enc8 product) <? 0) with false by (pose proof (zlen_nonneg (text enc8 product)); lia).
  eapply set_string_eats; [by apply c_string_splice|lia|]. cbn [negb]. unfold read_core_tail, optional.
  repeat (first [decide_test|eat_step]).
  match goal with |- eats (if TransportDumpReplay ?t then _ else _) _ _ _ _ =>
    change (TransportDumpReplay t) with (TransportDumpReplay st); change (SelectedProtocol t) with (SelectedProtocol st) end.
  rewrite Hdump, Hsel, Z.eqb_refl. cbn [negb]. apply eats_pret.
Qed.

(** The capabilities both sides have. *)
Definition merged_caps (c s : rdpSettings) : rdpSettings :=
  s <| SupportErrorInfoPdu := SupportErrorInfoPdu s && SupportErrorInfoPdu c |>
    <| SupportStatusInfoPdu := SupportStatusInfoPdu s && SupportStatusInfoPdu c |>
    <| SupportAsymetricKeys := SupportAsymetricKeys s && SupportAsymetricKeys c |>
    <| HasRelativeMouseEvent := HasRelativeMouseEvent s && HasRelativeMouseEvent c |>
    <| NetworkAutoDetect := NetworkAutoDetect s && NetworkAutoDetect c |>
    <| SupportSkipChannelJoin := SupportSkipChannelJoin s && SupportSkipChannelJoin c |>
    <| SupportMonitorLayoutPdu := SupportMonitorLayoutPdu s && SupportMonitorLayoutPdu c |>
    <| SupportHeartbeatPdu := SupportHeartbeatPdu s && SupportHeartbeatPdu c |>
    <| SupportGraphicsPipeline := SupportGraphicsPipeline s && SupportGraphicsPipeline c |>
    <| SupportDynamicTimeZone := SupportDynamicTimeZone s && SupportDynamicTimeZone c |>
    <| ConnectionType := if ConnectionType c =? 0 then 0 else u8 (ConnectionType c) |>.

Lemma caps_merged c (s : rdpSettings) :
  updateEarlyClientCaps (earlyClientCapsFromSettings c) (u8 (ConnectionType c)) s = merged_caps c s.
Proof.
  destruct (client_flags c) as (E1 & _ & E3 & E4 & E5 & E6 & E7 & E8 & E9 & E10 & E11 & E12).
  unfold updateEarlyClientCaps, merged_caps, both. rewrite E1, E3, E4, E5, E6, E7, E8, E9, E10, E11, E12.
  by destruct (ConnectionType c =? 0).
Qed.

(** What the server learns from the core data of the client. *)
Definition client_depth (c : rdpSettings) : Z := if ColorDepth c =? 32 then 32 else ColorDepthToHighColor (ColorDepth c).

Definition merge_core (c s : rdpSettings) : rdpSettings :=
  merged_caps c (s
    <| RdpVersion := rdp_version_common (u32 (RdpVersion c)) (RdpVersion s) |>
    <| DesktopWidth := u16 (DesktopWidth c) |> <| DesktopHeight := u16 (DesktopHeight c) |>
    <| KeyboardLayout := u32 (KeyboardLayout c) |> <| ClientBuild := u32 (ClientBuild c) |>
    <| ClientHostname := Some (text enc8 name ++ [0]) |>
    <| KeyboardType := u32 (KeyboardType c) |> <| KeyboardSubType := u32 (KeyboardSubType c) |>
    <| KeyboardFunctionKey := u32 (KeyboardFunctionKey c) |>
    <| SupportedColorDepths := u16 (SupportedColorDepths c) |>
    <| EarlyCapabilityFlags := earlyClientCapsFromSettings c |>
    <| ClientProductId := Some (text enc8 product ++ [0]) |>
    <| DesktopPhysicalWidth := u32 (DesktopPhysicalWidth c) |> <| DesktopPhysicalHeight := u32 (DesktopPhysicalHeight c) |>
    <| DesktopOrientation := u16 (DesktopOrientation c) |>
    <| DesktopScaleFactor := u32 (DesktopScaleFactor c) |> <| DeviceScaleFactor := u32 (DeviceScaleFactor c) |>
    <| ColorDepth := if (client_depth c <? ColorDepth s) || negb (ServerMode s) then client_depth c else ColorDepth s |>).

Lemma early_caps_u16 c : u16 (earlyClientCapsFromSettings c) = earlyClientCapsFromSettings c.
Proof. unfold earlyClientCapsFromSettings, filterAndLogEarlyClientCapabilityFlags. apply u16_id, u16_bound. Qed.

Lemma high_color d : u16 (ColorDepthToHighColor d) = ColorDepthToHighColor d /\ 0 < ColorDepthToHighColor d.
Proof. unfold ColorDepthToHighColor. repeat case_if; by vm_compute. Qed.

Lemma core_consumes c m st :
  TransportDumpReplay st = false -> SelectedProtocol st = u32 (SelectedProtocol c) ->
  consumes gcc_read_client_core_data (m, st) (core_body c name product) true (m, merge_core c st).
Proof using All.
  intros Hdump Hsel. unfold gcc_read_client_core_data. apply consumes_remaining. rewrite zlen_core_body by done.
  apply eats_consumes. unfold core_body. repeat (first [decide_test|eat_step]).
  pose proof (zlen_nonneg (text enc16 name)). pose proof (text_sizes name (characters_scalar _ Hname)).
  assert (Hnn : no_nul (text enc8 name)) by (apply text_no_nul; [apply enc8_no_nul|done]).
  eapply eats_bind; [apply eats_at_s, (field_back 16 strbuffer name Hname); [lia|lia|by vm_compute]|]. cbn [fst snd].
  replace (zlen (text enc8 name) <? 0) with false by (pose proof (zlen_nonneg (text enc8 name)); lia).
  eapply set_string_eats; [by apply c_string_splice|lia|]. cbn [negb]. repeat eat_step. change (230 - 128) with 102.
  rewrite <- (app_nil_r (le16 RNS_UD_COLOR_8BPP ++ _)).
  eapply eats_bind; [apply core_optional_eats; [|exact Hdump|exact Hsel]|].
  { rewrite zlen_splice; [done|lia|]. rewrite zlen_app. change (zlen [0]) with 1. change (zlen strbuffer) with 130. lia. }
  cbv beta iota. eat_step. destruct (client_flags c) as (_ & E2 & _). destruct (high_color (ColorDepth c)) as [Eh Hh].
  unfold client_color_depth. cbn [highColorDepth postBeta2ColorDepth connectionType]. rewrite Eh. replace (0 <? _) with true by lia.
  match goal with |- eats _ (_, ?t) _ _ _ => set (st1 := t) end.
  change (EarlyCapabilityFlags st1) with (u16 (earlyClientCapsFromSettings c)). rewrite early_caps_u16, E2. fold (client_depth c).
  do 2 eat_step. match goal with |- eats _ (_, updateEarlyClientCaps _ _ ?t) _ _ _ => set (st2 := t) end.
  assert (E : EarlyCapabilityFlags st2 = earlyClientCapsFromSettings c) by (unfold st2; case_if; apply early_caps_u16).
  rewrite E, caps_merged. replace (merge_core c st) with (merged_caps c st2); [apply eats_pret|].
  unfold st2, merge_core. f_equal. change (ColorDepth st1) with (ColorDepth st). change (ServerMode st1) with (ServerMode st).
  unfold st1. rewrite early_caps_u16, (u16_id (u16 (SupportedColorDepths c))) by apply u16_bound. case_if; reflexivity.
Qed.
End core.

(** ** Arrays that are filled from the front *)

Lemma array_set_at {A} (f : A -> A) (pre post : list A) x : array_set (zlen pre) f (pre ++ x :: post) = Ret (pre ++ f x :: post).
Proof.
  unfold array_set. replace (zlen pre <? 0) with false by (pose proof (zlen_nonneg pre); lia). unfold zlen. rewrite Nat2Z.id.
  rewrite lookup_app_r, Nat.sub_diag by lia. cbn. by rewrite insert_app_r_alt, Nat.sub_diag by lia.
Qed.

Section arrays.
Context {A : Type}.
Implicit Types (m : rdpMcs) (st : rdpSettings).

Lemma eats_upd_channel f (k : unit -> Prog gstate A) m st pre x post bs v o' :
  channels m = pre ++ x :: post -> eats (k tt) (m <| channels := pre ++ f x :: post |>, st) bs v o' ->
  eats (pbind (upd_channel (zlen pre) f) k) (m, st) bs v o'.
Proof.
  intros Hc. apply eats_then. intros s r Hr Hu. unfold upd_channel, pbind, the_mcs, pget, pret. cbn. rewrite Hc, array_set_at.
  cbn. by rewrite advance_0.
Qed.

Lemma eats_upd_monitor f (k : unit -> Prog gstate A) m st pre x post bs v o' :
  MonitorDefArray st = pre ++ x :: post -> eats (k tt) (m, st <| MonitorDefArray := pre ++ f x :: post |>) bs v o' ->
  eats (pbind (upd_monitor (zlen pre) f) k) (m, st) bs v o'.
Proof.
  intros Hc. apply eats_then. intros s r Hr Hu. unfold upd_monitor, pbind, the_settings, pget, pret. cbn. rewrite Hc, array_set_at.
  cbn. by rewrite advance_0.
Qed.
End arrays.

(** ** Static channels, from the client to the server *)

Definition enc_def (c : rdpMcsChannel) : list Z := Name c ++ le32 (options c).
Definition enc_defs (l : list rdpMcsChannel) : list Z := concat (map enc_def l).

(** A channel a client announces: eight characters with a null character among them. *)
Definition def_ok (c : rdpMcsChannel) : Prop := channel_wf c /\ existsb (Z.eqb 0) (Name c) = true.

(** The announced channels get the ids from [base] on. *)
Fixpoint assign_ids (base : Z) (defs old : list rdpMcsChannel) : list rdpMcsChannel :=
  match defs, old with
  | d :: defs, c :: old => (c <| Name := Name d |> <| options := options d |> <| ChannelId := base |>) :: assign_ids (base + 1) defs old
  | _, _ => old
  end.

Lemma zlen_enc_defs l : Forall def_ok l -> zlen (enc_defs l) = 12 * zlen l.
Proof.
  induction 1 as [|c l [(Hn & _) _] _ IH]; [done|]. unfold enc_defs. cbn [map concat]. rewrite zlen_app, zlen_cons. unfold enc_defs in IH.
  rewrite IH. unfold enc_def. rewrite zlen_app, Hn. change (zlen (le32 _)) with 4. unfold CHANNEL_NAME_LEN. lia.
Qed.

Lemma read_defs_eats defs :
  forall pre post m st, Forall def_ok defs -> channels m = pre ++ post -> zlen defs <= zlen post ->
  0 <= baseChannelId m -> baseChannelId m + zlen defs < 65536 ->
  eats (read_channel_defs (length defs) (zlen pre)) (m, st) (enc_defs defs) true
    (m <| channels := pre ++ assign_ids (baseChannelId m) defs post |> <| baseChannelId := baseChannelId m + zlen defs |>, st).
Proof.
  induction defs as [|d defs IH]; intros pre post m st Hd Hc Hl Hb0 Hb; cbn [length read_channel_defs].
  { cbn. rewrite Z.add_0_r, <- Hc. replace (m <| channels := channels m |> <| baseChannelId := baseChannelId m |>) with m by (by destruct m). apply eats_pret. }
  apply Forall_cons in Hd as [[(Hn & Hby & Ho & Hid) Hz] Hd]. rewrite zlen_cons in *. pose proof (zlen_nonneg defs).
  destruct post as [|x post]; [rewrite zlen_nil in Hl; lia|]. rewrite zlen_cons in Hl.
  unfold enc_defs. cbn [map concat]. unfold enc_def at 1. rewrite <- app_assoc. fold (enc_defs defs).
  eapply eats_bind; [rewrite <- Hn; apply eats_at_s, bytes_back|].
  eapply eats_upd_channel; [exact Hc|]. rewrite Hz. cbn [negb]. do 2 eat_step. rewrite (u32_id (options d)) by exact Ho.
  eapply eats_upd_channel; [done|]. eat_step.
  match goal with |- eats _ (?t, _) _ _ _ => set (m1 := t) end.
  set (x1 := x <| Name := Name d |> <| options := options d |> <| ChannelId := baseChannelId m |>).
  assert (Eb : baseChannelId m1 = baseChannelId m + 1) by (change (baseChannelId m1) with (u16 (baseChannelId m + 1)); apply u16_id; lia).
  pose proof (IH (pre ++ [x1]) post m1 st Hd) as H1. rewrite Eb, zlen_app in H1. change (zlen [x1]) with 1 in H1.
  replace (m <| channels := pre ++ assign_ids (baseChannelId m) (d :: defs) (x :: post) |> <| baseChannelId := baseChannelId m + (1 + zlen defs) |>)
    with (m1 <| channels := (pre ++ [x1]) ++ assign_ids (baseChannelId m + 1) defs post |> <| baseChannelId := baseChannelId m + 1 + zlen defs |>).
  - apply H1; [change (pre ++ x1 :: post = (pre ++ [x1]) ++ post); by rewrite <- app_assoc|lia..].
  - rewrite <- app_assoc, <- Z.add_assoc. reflexivity.
Qed.

Definition net_body (defs : list rdpMcsChannel) : list Z := le32 (zlen defs) ++ enc_defs defs.

Lemma write_defs_emits `{Malloc} defs rest : Forall def_ok defs -> emits (write_channel_defs (length defs) (defs ++ rest)) (enc_defs defs).
Proof.
  induction 1 as [|d defs [(_ & Hby & _) _] _ IH]; cbn [length app write_channel_defs]; [apply emits_pret|].
  unfold enc_defs. cbn [map concat]. unfold enc_def at 1. rewrite <- app_assoc. emit. exact IH.
Qed.

(** The block is left out when there are no channels. *)
Definition net_block (defs : list rdpMcsChannel) : list Z := if 0 <? zlen defs then enc_block CS_NET (net_body defs) else [].

Lemma writes_nothing `{Malloc} : writes (pret true) 0 [].
Proof.
  split; [intros s Hs _; by rewrite put_bytes_nil| |done|constructor]. intros s Hg. exists true, s. split; [done|]. by apply wrote_refl.
Qed.

(** A writer that may ask for a few bytes more than it stores. *)
Definition emits_all `{Malloc} (wr : Prog wStream bool) (bs : list Z) : Prop :=
  exists need, need <= zlen bs + 8 /\ writes wr need bs.

Lemma emits_all_require `{Malloc} w1 w2 a b : emits_all w1 a -> emits_all w2 b -> emits_all (require w1 w2) (a ++ b).
Proof.
  intros (n1 & Hn1 & H1) (n2 & Hn2 & H2). eexists. split; [|by apply writes_seq].
  rewrite zlen_app. pose proof (zlen_nonneg b). lia.
Qed.

Lemma emits_all_intro `{Malloc} wr need bs : writes wr need bs -> need <= zlen bs + 8 -> emits_all wr bs.
Proof. intros Hw Hn. by exists need. Qed.

Lemma block_emits `{Malloc} type len body bs :
  emits_ret body true bs -> len = 4 + zlen bs -> len < 65536 ->
  emits_all (require (gcc_write_user_data_header type len) body) (enc_block type bs).
Proof. intros Hb Hl Hs. eapply emits_all_intro; [by apply writes_block|]. rewrite zlen_enc_block. lia. Qed.

Lemma emits_all_nothing `{Malloc} : emits_all (pret true) [].
Proof. exists 0. split; [done|apply writes_nothing]. Qed.

Lemma net_writes `{Malloc} m defs rest :
  channels m = defs ++ rest -> channelCount m = zlen defs -> Forall def_ok defs -> zlen defs <= CHANNEL_MAX_COUNT ->
  emits_all (gcc_write_client_network_data m) (net_block defs).
Proof.
  intros Hc Hn Hd Hmax. unfold gcc_write_client_network_data, net_block, CHANNEL_MAX_COUNT in *. rewrite Hn, Hc. pose proof (zlen_nonneg defs).
  case_if; [|apply emits_all_nothing].
  rewrite u16_id by lia. apply block_emits.
  - unfold net_body. emit. unfold zlen at 1. rewrite Nat2Z.id. eapply emits_final, write_defs_emits. done.
  - unfold net_body. rewrite zlen_app, zlen_enc_defs by done. change (zlen (le32 _)) with 4. lia.
  - lia.
Qed.

Definition merge_net (defs : list rdpMcsChannel) (m : rdpMcs) : rdpMcs :=
  m <| channelCount := zlen defs |> <| channels := assign_ids (baseChannelId m) defs (channels m) |>
    <| baseChannelId := baseChannelId m + zlen defs |>.

Lemma net_consumes m st defs :
  mcs_wf m -> Forall def_ok defs -> zlen defs <= CHANNEL_MAX_COUNT -> baseChannelId m + zlen defs < 65536 ->
  consumes gcc_read_client_network_data (m, st) (net_body defs) true (merge_net defs m, st).
Proof.
  intros Hm Hd Hmax Hb. pose proof (zlen_nonneg defs). unfold gcc_read_client_network_data. apply consumes_remaining.
  assert (Hz : zlen (net_body defs) = 4 + 12 * zlen defs) by (unfold net_body; rewrite zlen_app, zlen_enc_defs by done; done).
  rewrite Hz. unfold CHANNEL_MAX_COUNT in *. replace (_ <? 4) with false by lia. apply eats_consumes. unfold net_body. do 2 eat_step.
  rewrite (u32_id (zlen defs)), (u32_id (zlen defs * 12)), (u32_id (4 + _)) by lia. replace (_ <? _) with false by lia. cbv iota. unfold CHANNEL_MAX_COUNT.
  replace (31 <? zlen defs) with false by lia. unfold zlen at 1. rewrite Nat2Z.id.
  match goal with |- eats _ (?t, _) _ _ _ => set (m1 := t) end.
  exact (read_defs_eats defs [] (channels m) m1 st Hd eq_refl
    ltac:(rewrite (wf_array _ Hm); exact Hmax) (proj1 (wf_base _ Hm)) Hb).
Qed.

(** ** The other blocks of the client *)

Definition cluster_body (c : rdpSettings) : list Z := le32 (cluster_flags c) ++ le32 (RedirectedSessionId c).
Definition security_body (c : rdpSettings) : list Z :=
  if UseRdpSecurityLayer c then le32 (EncryptionMethods c) ++ le32 0 else le32 0 ++ le32 (EncryptionMethods c).

Definition merge_cluster (c s : rdpSettings) : rdpSettings :=
  let flags := u32 (cluster_flags c) in
  let s := s <| ClusterInfoFlags := flags |> in
  (if has_flag flags REDIRECTED_SESSIONID_FIELD_VALID then s <| RedirectedSessionId := u32 (RedirectedSessionId c) |> else s)
    <| ConsoleSession := has_flag flags REDIRECTED_SESSIONID_FIELD_VALID |> <| RedirectSmartCards := has_flag flags REDIRECTED_SMARTCARD |>.

(** A server with RDP security takes the methods of the client, from wherever the client put them. *)
Definition merge_security (c s : rdpSettings) : rdpSettings :=
  if UseRdpSecurityLayer s then s <| EncryptionMethods := u32 (EncryptionMethods c) |> else s.

Definition merge_message (flags : Z) (m : rdpMcs) : rdpMcs :=
  m <| mcs_flags := flags |> <| messageChannelId := baseChannelId m |> <| baseChannelId := u16 (baseChannelId m + 1) |>.
Definition merge_multitransport (flags : Z) (s : rdpSettings) : rdpSettings :=
  s <| MultitransportFlags := Z.land (MultitransportFlags s) (u32 flags) |>.

Lemma eats_upd_last g (m : rdpMcs) st st' : g st = st' -> eats (upd_settings g) (m, st) [] tt (m, st').
Proof. intros <-. exact (eats_upd (fun o => (o.1, g o.2)) (m, st)). Qed.

Section client_rest.
Context `{HM : Malloc}.
Implicit Types (m : rdpMcs) (c st : rdpSettings).

Lemma cluster_writes c : writes (gcc_write_client_cluster_data c) 16 (enc_block CS_CLUSTER (cluster_body c)).
Proof. apply writes_block; [unfold cluster_body; emit|done|lia]. Qed.

Lemma cluster_consumes c m st : consumes gcc_read_client_cluster_data (m, st) (cluster_body c) true (m, merge_cluster c st).
Proof.
  unfold gcc_read_client_cluster_data. apply consumes_remaining. change (zlen (cluster_body c)) with 8. apply eats_consumes.
  unfold cluster_body, merge_cluster. rewrite <- (app_nil_r (le32 (RedirectedSessionId c))). decide_test. do 3 eat_step.
  destruct (has_flag _ _); [eat_step|apply eats_then with tt (m, st <| ClusterInfoFlags := u32 (cluster_flags c) |>); [apply eats_pret|]];
    cbv zeta; eat_step; (eapply eats_then; [apply eats_pret|apply eats_pret]).
Qed.

Lemma security_writes c : writes (gcc_write_client_security_data c) 16 (enc_block CS_SECURITY (security_body c)).
Proof.
  unfold gcc_write_client_security_data, security_body. destruct (UseRdpSecurityLayer c); (apply writes_block; [|done|lia]);
    (eapply emits_final; eapply emits_bind; emit1).
Qed.
Lemma security_consumes c m st : consumes gcc_read_client_security_data (m, st) (security_body c) true (m, merge_security c st).
Proof.
  unfold gcc_read_client_security_data. apply consumes_remaining. assert (E : zlen (security_body c) = 8) by (unfold security_body; by case_if).
  rewrite E. apply eats_consumes. decide_test. eat_step. rewrite <- (app_nil_r (security_body c)).
  eapply eats_bind; [|apply eats_pret]. unfold merge_security. destruct (UseRdpSecurityLayer st).
  - unfold security_body. destruct (UseRdpSecurityLayer c); do 2 eat_step.
    + destruct (u32 (EncryptionMethods c) =? ENCRYPTION_METHOD_NONE) eqn:E0.
      * rewrite <- (app_nil_r (le32 0)). eat_step. apply Z.eqb_eq in E0. rewrite E0. by apply eats_upd_last.
      * apply eats_at_s, (skip_back (le32 0)).
    + decide_test. rewrite <- (app_nil_r (le32 (EncryptionMethods c))). eat_step. by apply eats_upd_last.
  - rewrite <- E. apply eats_at_s, skip_back.
Qed.

Lemma message_writes m c :
  NetworkAutoDetect c || SupportHeartbeatPdu c || SupportMultitransport c = true ->
  writes (gcc_write_client_message_channel_data m c) 12 (enc_block CS_MCS_MSGCHANNEL (le32 (mcs_flags m))).
Proof. intros H. unfold gcc_write_client_message_channel_data. rewrite H. apply writes_block; [emit|done|lia]. Qed.

Lemma message_consumes flags m st :
  consumes gcc_read_client_message_channel_data (m, st) (le32 flags) true (merge_message (u32 flags) m, st).
Proof.
  unfold gcc_read_client_message_channel_data. apply consumes_remaining. change (zlen (le32 flags)) with 4. apply eats_consumes.
  rewrite <- (app_nil_r (le32 flags)). decide_test. repeat eat_step.
Qed.

Lemma multitransport_writes c : writes (gcc_write_client_multitransport_channel_data c) 12 (enc_block CS_MULTITRANSPORT (le32 (MultitransportFlags c))).
Proof. apply writes_block; [emit|done|lia]. Qed.

Lemma multitransport_consumes flags m st :
  consumes gcc_read_client_multitransport_channel_data (m, st) (le32 flags) true (m, merge_multitransport flags st).
Proof.
  unfold gcc_read_client_multitransport_channel_data. apply consumes_remaining. change (zlen (le32 flags)) with 4. apply eats_consumes.
  rewrite <- (app_nil_r (le32 flags)). decide_test. repeat eat_step.
Qed.
End client_rest.

(** ** Sequences of blocks *)

Definition enc_blocks (l : list (Z * list Z)) : list Z := concat (map (fun b => enc_block b.1 b.2) l).

(** The blocks are accepted one by one and lead from one object to the other. *)
Inductive reads_blocks (rd : Z -> Prog gstate bool) : list (Z * list Z) -> gobj -> gobj -> Prop :=
  | reads_none o : reads_blocks rd [] o o
  | reads_one type body l o o1 o2 :
      consumes (rd type) o body true o1 -> 0 <= type < 65536 -> zlen body < 65532 ->
      reads_blocks rd l o1 o2 -> reads_blocks rd ((type, body) :: l) o o2.

Definition is_multitransport (type : Z) : bool := (type =? 0xC009) || (type =? CS_MULTITRANSPORT).
Definition some_multitransport (l : list (Z * list Z)) : bool := existsb (fun b => is_multitransport b.1) l.

Lemma block_header_back o s type body r :
  0 <= type < 65536 -> zlen body < 65532 -> readable s -> unread s = enc_block type body ++ r ->
  gcc_read_user_data_header (o, s) = Ret (Some (type, 4 + zlen body), (o, advance s 4)) /\
  readable (advance s 4) /\ unread (advance s 4) = body ++ r.
Proof.
  intros Ht Hb Hr Hu. pose proof (zlen_nonneg body). pose proof (zlen_nonneg r). unfold enc_block in Hu. rewrite <- !app_assoc in Hu.
  unfold gcc_read_user_data_header. rewrite (pbind_ret _ _ _ _ _ (at_s_ret _ o _ _ _ (check_length_spec s 4 Hr))).
  replace (4 <=? zlen (unread s)) with true by (rewrite Hu, !zlen_app; repeat change (zlen (le16 _)) with 2; lia). cbn [negb].
  destruct (eats_step rd16 (fun _ => pret tt) o _ _ _ s _ (eats_at_s _ o _ _ (u16_back type)) Hr Hu) as (_ & Hr1 & Hu1).
  rewrite (proj1 (eats_step rd16 _ o _ _ _ s _ (eats_at_s _ o _ _ (u16_back type)) Hr Hu)).
  destruct (eats_step rd16 (fun _ => pret tt) o _ _ _ _ _ (eats_at_s _ o _ _ (u16_back (4 + zlen body))) Hr1 Hu1) as (_ & Hr2 & Hu2).
  rewrite (proj1 (eats_step rd16 _ o _ _ _ _ _ (eats_at_s _ o _ _ (u16_back (4 + zlen body))) Hr1 Hu1)).
  rewrite advance_advance in *. repeat change (zlen (le16 _)) with 2 in *. change (2 + 2) with 4 in *. rewrite !u16_id by lia.
  replace (4 + zlen body <? 4) with false by lia. rewrite (pbind_ret _ _ _ _ _ (at_s_ret _ o _ _ _ (check_length_spec _ _ Hr2))), Hu2, zlen_app.
  replace (4 + zlen body - 4 <=? zlen body + zlen r) with true by lia. done.
Qed.

(** A block in front of [r], read from a stream of its own. *)
Lemma block_run rd o o1 s body r :
  consumes rd o body true o1 -> readable s -> unread s = body ++ r ->
  on_sub (sub_stream (zlen body) s) rd (o, advance s (zlen body)) = Ret (true, (o1, advance s (zlen body))) /\
  readable (advance s (zlen body)) /\ unread (advance s (zlen body)) = r.
Proof.
  intros Hc Hr Hu. pose proof (zlen_nonneg body). pose proof (zlen_nonneg r).
  destruct (sub_stream_ok (zlen body) s Hr) as [Hsr Hsu]; [rewrite Hu, zlen_app; lia|].
  destruct (Hc _ Hsr) as (k & _ & E); [by rewrite Hsu, Hu, ztake_app, ztake_all, ztake_0, app_nil_r by lia|].
  split_and!; [unfold on_sub; cbn; by rewrite E|apply readable_advance; [done|rewrite Hu, zlen_app; lia]|].
  rewrite unread_advance, Hu by (done || lia). by rewrite zdrop_app, zdrop_all, zdrop_0 by lia.
Qed.

Section loops.
Context `{HM : Malloc} `{HC : ServerCrypto}.

Lemma client_blocks_run l o o' :
  reads_blocks read_client_block l o o' ->
  forall fuel got s r, readable s -> unread s = enc_blocks l ++ r -> zlen (enc_blocks l) <= Z.of_nat fuel ->
  client_blocks fuel (zlen (enc_blocks l)) got (o, s) = Ret ((true, got || some_multitransport l), (o', advance s (zlen (enc_blocks l)))).
Proof.
  induction 1 as [o|type body l o o1 o2 Hc Ht Hb _ IH]; intros fuel got s r Hr Hu Hf.
  - cbn. destruct fuel; cbn; by rewrite orb_false_r, advance_0.
  - unfold enc_blocks in *. cbn [map concat fst snd] in *. fold (enc_blocks l) in *. rewrite <- app_assoc in Hu.
    rewrite zlen_app, zlen_enc_block in *. pose proof (zlen_nonneg body). pose proof (zlen_nonneg (enc_blocks l)).
    destruct (block_header_back o s type body _ Ht Hb Hr Hu) as (E1 & Hr1 & Hu1).
    destruct (block_run _ _ _ _ _ _ Hc Hr1 Hu1) as (E2 & Hr2 & Hu2).
    destruct fuel as [|fuel]; [lia|]. cbn [client_blocks]. replace (_ <=? 0) with false by lia.
    rewrite (pbind_ret _ _ _ _ _ E1). replace (4 + zlen body - 4) with (zlen body) by lia.
    rewrite (pbind_ret _ _ _ _ _ (at_s_ret _ o _ _ _ (check_length_spec _ _ Hr1))), Hu1, zlen_app.
    pose proof (zlen_nonneg (enc_blocks l ++ r)). replace (zlen body <=? _) with true by lia. cbn [negb].
    rewrite pbind_pget. cbn [fst snd].
    assert (E3 : skip (zlen body) (o, advance s 4) = Ret (tt, (o, advance (advance s 4) (zlen body)))).
    { apply at_s_ret, seek_spec; [done|]. rewrite Hu1, zlen_app. lia. }
    rewrite (pbind_ret _ _ _ _ _ E3), (pbind_ret _ _ _ _ _ E2). cbn [negb]. replace (_ <? _) with false by lia.
    replace (4 + zlen body + zlen (enc_blocks l) - (4 + zlen body)) with (zlen (enc_blocks l)) by lia.
    rewrite (IH fuel _ _ r Hr2 Hu2) by lia. rewrite !advance_advance.
    change (some_multitransport ((type, body) :: l)) with (((type =? 0xC009) || (type =? CS_MULTITRANSPORT)) || some_multitransport l).
    rewrite <- Z.add_assoc, <- !orb_assoc. reflexivity.
Qed.

Lemma server_blocks_run l o o' :
  reads_blocks read_server_block l o o' ->
  forall fuel offset s r, readable s -> unread s = enc_blocks l ++ r -> Z.of_nat (length l) <= Z.of_nat fuel ->
  0 <= offset -> offset + zlen (enc_blocks l) < 65536 ->
  server_blocks fuel offset (offset + zlen (enc_blocks l)) (o, s) = Ret (true, (o', advance s (zlen (enc_blocks l)))).
Proof.
  induction 1 as [o|type body l o o1 o2 Hc Ht Hb _ IH]; intros fuel offset s r Hr Hu Hf Ho Hlt.
  - change (zlen (enc_blocks [])) with 0. rewrite Z.add_0_r. destruct fuel; cbn; by rewrite Z.leb_refl, advance_0.
  - unfold enc_blocks in *. cbn [map concat fst snd] in *. fold (enc_blocks l) in *. rewrite <- app_assoc in Hu.
    rewrite zlen_app, zlen_enc_block in *. pose proof (zlen_nonneg body). pose proof (zlen_nonneg (enc_blocks l)).
    destruct (block_header_back o s type body _ Ht Hb Hr Hu) as (E1 & Hr1 & Hu1).
    destruct (block_run _ _ _ _ _ _ Hc Hr1 Hu1) as (E2 & Hr2 & Hu2). pose proof (zlen_nonneg (enc_blocks l ++ r)).
    destruct fuel as [|fuel]; [cbn in Hf; lia|]. cbn [server_blocks]. replace (_ <=? _) with false by lia.
    rewrite (pbind_ret _ _ _ _ _ E1). replace (4 + zlen body - 4) with (zlen body) by lia. rewrite pbind_pget. cbn [fst snd].
    assert (E3 : at_s (Stream_SafeSeekEx (zlen body)) (o, advance s 4) = Ret (true, (o, advance (advance s 4) (zlen body)))).
    { apply at_s_ret, seek_ex_run; [done|]. rewrite Hu1, zlen_app. lia. }
    rewrite (pbind_ret _ _ _ _ _ E3). cbn [negb]. rewrite (pbind_ret _ _ _ _ _ E2). cbn [negb]. rewrite u16_id by lia.
    replace (offset + (4 + zlen body + zlen (enc_blocks l))) with (offset + (4 + zlen body) + zlen (enc_blocks l)) by lia.
    rewrite (IH fuel _ _ r Hr2 Hu2) by (cbn [length] in Hf; lia). rewrite !advance_advance. do 4 f_equal. lia.
Qed.
End loops.

(** ** Monitors *)

(** The first entries of an array are changed by the entries of another one. *)
Fixpoint fill {A B} (f : B -> A -> A) (src : list B) (old : list A) : list A :=
  match src, old with
  | b :: src, a :: old => f b a :: fill f src old
  | _, _ => old
  end.

Lemma zlen_fill {A B} (f : B -> A -> A) src old : zlen (fill f src old) = zlen old.
Proof. revert old. induction src as [|b src IH]; intros [|a old]; try done. cbn. by rewrite !zlen_cons, IH. Qed.

Lemma i32_mod x y : x mod 2 ^ 32 = y mod 2 ^ 32 -> i32 x = i32 y.
Proof. intros E. unfold i32, u32. by rewrite E. Qed.

Lemma i32_u32 x : i32 (u32 x) = i32 x.
Proof. apply i32_mod. unfold u32. apply Z.mod_mod. lia. Qed.

(** Right minus left plus one is the width again, modulo 2^32. *)
Lemma i32_extent left w : i32 (u32 (u32 (left + w - 1)) - u32 left + 1) = i32 w.
Proof.
  apply i32_mod. unfold u32. rewrite (Z.mod_mod (left + w - 1)) by lia.
  rewrite (Z.add_mod (_ - _)), Zminus_mod_idemp_l, Zminus_mod_idemp_r, <- Z.add_mod by lia. f_equal. lia.
Qed.

(** A monitor the server learns of, relative to the primary one. *)
Definition place (baseX baseY : Z) (c old : rdpMonitor) : rdpMonitor :=
  old <| mon_x := i32 (mon_x c - baseX) |> <| mon_y := i32 (mon_y c - baseY) |>
      <| mon_width := i32 (mon_width c) |> <| mon_height := i32 (mon_height c) |> <| is_primary := is_primary c |>.
Definition attribute (c old : rdpMonitor) : rdpMonitor :=
  old <| physicalWidth := u32 (physicalWidth c) |> <| physicalHeight := u32 (physicalHeight c) |> <| orientation := u32 (orientation c) |>
      <| desktopScaleFactor := u32 (desktopScaleFactor c) |> <| deviceScaleFactor := u32 (deviceScaleFactor c) |>.

Definition enc_monitor (baseX baseY : Z) (c : rdpMonitor) : list Z :=
  let left := u32 (mon_x c - baseX) in
  let top := u32 (mon_y c - baseY) in
  le32 left ++ le32 top ++ le32 (u32 (left + mon_width c - 1)) ++ le32 (u32 (top + mon_height c - 1)) ++ le32 (flag_if (is_primary c) MONITOR_PRIMARY).
Definition enc_attributes (c : rdpMonitor) : list Z :=
  le32 (physicalWidth c) ++ le32 (physicalHeight c) ++ le32 (orientation c) ++ le32 (desktopScaleFactor c) ++ le32 (deviceScaleFactor c).

Lemma write_monitors_emits `{Malloc} x y l rest :
  emits (write_monitors (length l) x y (l ++ rest)) (concat (map (enc_monitor x y) l)).
Proof.
  induction l as [|c l IH]; cbn [length app write_monitors map concat]; [apply emits_pret|]. unfold enc_monitor at 1. cbv zeta.
  rewrite <- !app_assoc. emit. exact IH.
Qed.
Lemma write_attributes_emits `{Malloc} l rest : emits (write_attributes (length l) (l ++ rest)) (concat (map enc_attributes l)).
Proof.
  induction l as [|c l IH]; cbn [length app write_attributes map concat]; [apply emits_pret|]. unfold enc_attributes at 1.
  rewrite <- !app_assoc. emit. exact IH.
Qed.

Lemma zlen_20 {A} (f : A -> list Z) l : (forall c, zlen (f c) = 20) -> zlen (concat (map f l)) = 20 * zlen l.
Proof. intros H. induction l as [|c l IH]; [done|]. cbn [map concat]. rewrite zlen_app, zlen_cons, IH, H. lia. Qed.

Lemma read_monitors_eats x y l :
  forall pre post m st, MonitorDefArray st = pre ++ post -> zlen l <= zlen post ->
  eats (read_monitors (length l) (zlen pre)) (m, st) (concat (map (enc_monitor x y) l)) tt
    (m, st <| MonitorDefArray := pre ++ fill (place x y) l post |>).
Proof.
  induction l as [|c l IH]; intros pre post m st Hst Hl; cbn [length read_monitors map concat].
  { cbn. rewrite <- Hst. replace (st <| MonitorDefArray := MonitorDefArray st |>) with st by (by destruct st). apply eats_pret. }
  destruct post as [|d post]; [rewrite zlen_cons in Hl; pose proof (zlen_nonneg l); change (zlen []) with 0 in Hl; lia|]. rewrite !zlen_cons in Hl.
  unfold enc_monitor at 1. cbv zeta. rewrite <- !app_assoc. do 5 eat_step. eapply eats_upd_monitor; [exact Hst|].
  match goal with |- eats _ (_, ?t) _ _ _ => set (st1 := t) end. 
  assert (Ed : MonitorDefArray st1 = (pre ++ [place x y c d]) ++ post).
  { rewrite <- app_assoc. unfold st1, place. cbn. do 2 f_equal. rewrite !i32_u32, !i32_extent. by destruct (is_primary c). }
  pose proof (IH (pre ++ [place x y c d]) post m st1 Ed ltac:(lia)) as H1. rewrite zlen_app in H1. change (zlen [_]) with 1 in H1.
  replace (st <| MonitorDefArray := pre ++ fill (place x y) (c :: l) (d :: post) |>)
    with (st1 <| MonitorDefArray := (pre ++ [place x y c d]) ++ fill (place x y) l post |>); [exact H1|].
  by rewrite <- app_assoc.
Qed.

Lemma read_attributes_eats l :
  forall pre post m st, MonitorDefArray st = pre ++ post -> zlen l <= zlen post ->
  eats (read_attributes (length l) (zlen pre)) (m, st) (concat (map enc_attributes l)) tt
    (m, st <| MonitorDefArray := pre ++ fill attribute l post |>).
Proof.
  induction l as [|c l IH]; intros pre post m st Hst Hl; cbn [length read_attributes map concat].
  { cbn. rewrite <- Hst. replace (st <| MonitorDefArray := MonitorDefArray st |>) with st by (by destruct st). apply eats_pret. }
  destruct post as [|d post]; [rewrite zlen_cons in Hl; pose proof (zlen_nonneg l); change (zlen []) with 0 in Hl; lia|]. rewrite !zlen_cons in Hl.
  unfold enc_attributes at 1. rewrite <- !app_assoc. do 5 eat_step. eapply eats_upd_monitor; [exact Hst|].
  match goal with |- eats _ (_, ?t) _ _ _ => set (st1 := t) end.
  assert (Ed : MonitorDefArray st1 = (pre ++ [attribute c d]) ++ post) by (by rewrite <- app_assoc).
  pose proof (IH (pre ++ [attribute c d]) post m st1 Ed ltac:(lia)) as H1. rewrite zlen_app in H1. change (zlen [_]) with 1 in H1.
  replace (st <| MonitorDefArray := pre ++ fill attribute (c :: l) (d :: post) |>)
    with (st1 <| MonitorDefArray := (pre ++ [attribute c d]) ++ fill attribute l post |>); [exact H1|].
  by rewrite <- app_assoc.
Qed.

(** The position of the first primary monitor. *)
Fixpoint base_of (l : list rdpMonitor) : Z * Z :=
  match l with
  | [] => (0, 0)
  | c :: l => if is_primary c then (mon_x c, mon_y c) else base_of l
  end.

Lemma primary_base_run l rest : primary_base (length l) (l ++ rest) = Ret (base_of l).
Proof. induction l as [|c l IH]; [by destruct rest|]. cbn. by destruct (is_primary c). Qed.

Definition monitor_body (c : rdpSettings) (l : list rdpMonitor) : list Z :=
  le32 (MonitorFlags c) ++ le32 (zlen l) ++ concat (map (enc_monitor (base_of l).1 (base_of l).2) l).
Definition attribute_body (c : rdpSettings) (l : list rdpMonitor) : list Z :=
  le32 (MonitorAttributeFlags c) ++ le32 20 ++ le32 (zlen l) ++ concat (map enc_attributes l).

Definition merge_monitor (c : rdpSettings) (l : list rdpMonitor) (s : rdpSettings) : rdpSettings :=
  s <| MonitorFlags := u32 (MonitorFlags c) |> <| MonitorCount := zlen l |>
    <| MonitorDefArray := fill (place (base_of l).1 (base_of l).2) l (MonitorDefArray s) |>.
Definition merge_attributes (c : rdpSettings) (l : list rdpMonitor) (s : rdpSettings) : rdpSettings :=
  s <| MonitorAttributeFlags := u32 (MonitorAttributeFlags c) |> <| HasMonitorAttributes := true |>
    <| MonitorDefArray := fill attribute l (MonitorDefArray s) |>.

Lemma twenties a n : (a + 20 * n - a) / 20 = n.
Proof. replace (a + 20 * n - a) with (n * 20) by lia. apply Z.div_mul. lia. Qed.

Lemma zlen_nat {A} (l : list A) : Z.to_nat (zlen l) = length l.
Proof. unfold zlen. apply Nat2Z.id. Qed.

Section monitors.
Context `{HM : Malloc} (c : rdpSettings) (l rest : list rdpMonitor).
Context (Hl : MonitorDefArray c = l ++ rest) (Hn : MonitorCount c = zlen l) (H16 : 1 < zlen l <= 16).

Lemma zlen_monitor_body : zlen (monitor_body c l) = 8 + 20 * zlen l.
Proof. unfold monitor_body. rewrite !zlen_app, zlen_20 by done. repeat change (zlen (le32 _)) with 4. lia. Qed.
Lemma zlen_attribute_body : zlen (attribute_body c l) = 12 + 20 * zlen l.
Proof. unfold attribute_body. rewrite !zlen_app, zlen_20 by done. repeat change (zlen (le32 _)) with 4. lia. Qed.

Lemma monitor_writes : writes (gcc_write_client_monitor_data c) (20 * zlen l + 16) (enc_block CS_MONITOR (monitor_body c l)).
Proof using All.
  unfold gcc_write_client_monitor_data. rewrite Hn, Hl. replace (1 <? zlen l) with true by lia. rewrite u16_id by lia.
  replace (20 * zlen l + 16) with (4 + (20 * zlen l + 12)) by lia. apply writes_block; [|rewrite zlen_monitor_body; lia|lia].
  unfold monitor_body. emit. rewrite zlen_nat. apply (emits_plift (base_of l)); [apply primary_base_run|].
  eapply emits_final, write_monitors_emits.
Qed.

Lemma attributes_writes :
  HasMonitorAttributes c = true ->
  writes (gcc_write_client_monitor_extended_data c) (20 * zlen l + 20) (enc_block CS_MONITOR_EX (attribute_body c l)).
Proof using All.
  intros Ha. unfold gcc_write_client_monitor_extended_data. rewrite Ha, Hn, Hl. rewrite u16_id by lia.
  replace (20 * zlen l + 20) with (4 + (20 * zlen l + 16)) by lia. apply writes_block; [|rewrite zlen_attribute_body; lia|lia].
  unfold attribute_body. emit. rewrite zlen_nat. eapply emits_final, write_attributes_emits.
Qed.

Lemma monitor_consumes m st :
  zlen l <= zlen (MonitorDefArray st) -> consumes gcc_read_client_monitor_data (m, st) (monitor_body c l) true (m, merge_monitor c l st).
Proof using H16.
  intros Hroom. unfold gcc_read_client_monitor_data. apply consumes_remaining. rewrite zlen_monitor_body. apply eats_consumes.
  replace (_ <? 8) with false by lia. unfold monitor_body. do 3 eat_step. rewrite (u32_id (zlen l)) by lia.
  replace (16 <? zlen l) with false by lia. eat_step.
  match goal with |- context [MonitorDefArray ?t] => change (MonitorDefArray t) with (MonitorDefArray st) end.
  rewrite Z.min_l by lia. rewrite (twenties 8 (zlen l)).
  rewrite u32_id, Z.ltb_irrefl by lia. eat_step. rewrite zlen_nat. rewrite <- (app_nil_r (concat _)).
  match goal with |- eats _ (_, ?t) _ _ _ => set (st1 := t) end.
  eapply eats_bind; [exact (read_monitors_eats _ _ l [] (MonitorDefArray st) m st1 eq_refl Hroom)|]. apply eats_pret.
Qed.

Lemma attributes_consumes m st :
  zlen l <= zlen (MonitorDefArray st) -> MonitorCount st = zlen l ->
  consumes gcc_read_client_monitor_extended_data (m, st) (attribute_body c l) true (m, merge_attributes c l st).
Proof using H16.
  intros Hroom Hc. unfold gcc_read_client_monitor_extended_data. apply consumes_remaining. rewrite zlen_attribute_body. apply eats_consumes.
  replace (_ <? 12) with false by lia. unfold attribute_body. do 4 eat_step. rewrite (u32_id (zlen l)), (u32_id 20) by lia.
  decide_test. rewrite (twenties 12 (zlen l)).
  rewrite Z.ltb_irrefl. eat_step.
  match goal with |- context [MonitorCount ?t] => change (MonitorCount t) with (MonitorCount st) end.
  rewrite Hc, Z.eqb_refl. cbn [negb]. eat_step. rewrite zlen_nat. rewrite <- (app_nil_r (concat _)).
  match goal with |- eats _ (_, ?t) _ _ _ => set (st1 := t) end.
  eapply eats_bind; [exact (read_attributes_eats l [] (MonitorDefArray st) m st1 eq_refl Hroom)|]. apply eats_pret.
Qed.
End monitors.
