(* ===== verification/GccExchange.v ===== *)
(** * The exchange of GCC user data: both sides end with the same channels and capabilities *)

From S2P Require Import Prelude Memory Stream Per Unicode UnicodeApi Readers Mcs McsPdu Gcc GccStrings GccSafe GccPdu.

(** ** The blocks of the server *)

Definition server_core_body (s : rdpSettings) : list Z :=
  le32 (RdpVersion s) ++ le32 (RequestedProtocols s) ++ le32 (earlyServerCapsFromSettings s).

(** What a client learns from the core data of the server. *)
Definition merge_server_core (s c : rdpSettings) : rdpSettings :=
  c <| RdpVersion := rdp_version_common (u32 (RdpVersion s)) (RdpVersion c) |>
    <| RequestedProtocols := u32 (RequestedProtocols s) |>
    <| EarlyCapabilityFlags := u32 (earlyServerCapsFromSettings s) |>
    <| SupportEdgeActionV1 := SupportEdgeActionV1 c && SupportEdgeActionV1 s |>
    <| SupportDynamicTimeZone := SupportDynamicTimeZone c && SupportDynamicTimeZone s |>
    <| SupportEdgeActionV2 := SupportEdgeActionV2 c && SupportEdgeActionV2 s |>
    <| SupportSkipChannelJoin := SupportSkipChannelJoin c && SupportSkipChannelJoin s |>.

Definition enc_ids (l : list rdpMcsChannel) : list Z := concat (map (fun c => le16 (ChannelId c)) l).
Definition id_pad (l : list rdpMcsChannel) : list Z := if zlen l mod 2 =? 1 then le16 0 else [].
Definition server_net_body (l : list rdpMcsChannel) : list Z :=
  le16 MCS_GLOBAL_CHANNEL_ID ++ le16 (zlen l) ++ enc_ids l ++ id_pad l.

Definition set_id (d c : rdpMcsChannel) : rdpMcsChannel := c <| ChannelId := u16 (ChannelId d) |>.
Definition merge_ids (l : list rdpMcsChannel) (m : rdpMcs) : rdpMcs :=
  m <| channelCount := zlen l |> <| channels := fill set_id l (channels m) |>.

Definition server_security_body : list Z := le32 ENCRYPTION_METHOD_NONE ++ le32 ENCRYPTION_LEVEL_NONE.
Definition merge_no_security (c : rdpSettings) : rdpSettings :=
  c <| EncryptionMethods := ENCRYPTION_METHOD_NONE |> <| EncryptionLevel := ENCRYPTION_LEVEL_NONE |> <| UseRdpSecurityLayer := false |>.

Lemma server_caps_u32 s : u32 (earlyServerCapsFromSettings s) = earlyServerCapsFromSettings s.
Proof.
  apply u32_id. unfold earlyServerCapsFromSettings, filterAndLogEarlyServerCapabilityFlags.
  change server_caps_mask with (2 ^ 4 - 1). rewrite land_mask by lia. pose proof (Z.mod_pos_bound (Z.lor (flag_if (SupportEdgeActionV1 s) RNS_UD_SC_EDGE_ACTIONS_SUPPORTED_V1) (Z.lor (flag_if (SupportDynamicTimeZone s) RNS_UD_SC_DYNAMIC_DST_SUPPORTED)
    (Z.lor (flag_if (SupportEdgeActionV2 s) RNS_UD_SC_EDGE_ACTIONS_SUPPORTED_V2) (flag_if (SupportSkipChannelJoin s) RNS_UD_SC_SKIP_CHANNELJOIN_SUPPORTED)))) (2 ^ 4)). lia.
Qed.

Section server_blocks.
Context `{HM : Malloc} `{HC : ServerCrypto}.
Implicit Types (m : rdpMcs) (c st : rdpSettings).

Lemma server_core_writes s : writes (gcc_write_server_core_data s) 20 (enc_block SC_CORE (server_core_body s)).
Proof. apply writes_block; [unfold server_core_body; emit|done|lia]. Qed.

Lemma server_core_consumes s m c : consumes gcc_read_server_core_data (m, c) (server_core_body s) true (m, merge_server_core s c).
Proof.
  unfold gcc_read_server_core_data, server_core_body. rewrite <- (app_nil_r (le32 (earlyServerCapsFromSettings s))).
  apply consumes_check; [done|]. cbn [negb]. eapply consumes_bind; [apply eats_at_s, u32_back|].
  eapply consumes_then; [by apply eats_upd_last|]. apply consumes_remaining. change (4 <=? zlen _) with true. cbv iota.
  eapply (consumes_bind _ _ _ (le32 _)); [apply eats_u32; by apply eats_upd_last|]. apply consumes_remaining. change (4 <=? zlen _) with true. cbv iota.
  eapply (consumes_bind _ _ _ (le32 _)); [apply eats_u32; by apply eats_upd_last|].
  eapply consumes_then; [by apply eats_upd_last|].
  match goal with |- consumes _ (_, updateEarlyServerCaps ?f ?t) _ _ _ => change f with (u32 (earlyServerCapsFromSettings s)); set (c1 := t) end.
  replace (merge_server_core s c) with (updateEarlyServerCaps (u32 (earlyServerCapsFromSettings s)) c1); [apply consumes_pret|].
  destruct (server_flags s) as (E1 & E2 & E3 & E4). unfold updateEarlyServerCaps, both, merge_server_core.
  rewrite server_caps_u32, E1, E2, E3, E4. unfold c1. by rewrite server_caps_u32.
Qed.

Lemma write_ids_emits l rest : emits (write_channel_ids (length l) (l ++ rest)) (enc_ids l).
Proof. induction l as [|c l IH]; cbn [length app write_channel_ids]; [apply emits_pret|]. unfold enc_ids. cbn [map concat]. emit. exact IH. Qed.

Lemma zlen_enc_ids l : zlen (enc_ids l) = 2 * zlen l.
Proof. unfold enc_ids. induction l as [|c l IH]; [done|]. cbn [map concat]. rewrite zlen_app, zlen_cons, IH. change (zlen (le16 _)) with 2. lia. Qed.

Lemma server_net_writes m l rest :
  channels m = l ++ rest -> channelCount m = zlen l -> zlen l <= CHANNEL_MAX_COUNT ->
  emits_all (gcc_write_server_network_data m) (enc_block SC_NET (server_net_body l)).
Proof.
  intros Hc Hn Hmax. unfold CHANNEL_MAX_COUNT in *. pose proof (zlen_nonneg l). unfold gcc_write_server_network_data. cbv zeta.
  rewrite Hn, Hc, (u16_id (zlen l)), u16_id by (repeat case_if; lia). eapply block_emits.
  - unfold server_net_body, id_pad. emit. rewrite zlen_nat. eapply emits_bind; [apply write_ids_emits|].
    case_if; [emit|]. rewrite <- (app_nil_r []). eapply emits_bind; apply emits_pret.
  - unfold server_net_body, id_pad. rewrite !zlen_app, zlen_enc_ids. case_if; repeat change (zlen (le16 _)) with 2; [|change (zlen []) with 0]; lia.
  - case_if; lia.
Qed.

Lemma read_ids_eats l :
  forall pre post m c, channels m = pre ++ post -> zlen l <= zlen post ->
  eats (read_channel_ids (length l) (zlen pre)) (m, c) (enc_ids l) tt (m <| channels := pre ++ fill set_id l post |>, c).
Proof.
  unfold enc_ids. induction l as [|d l IH]; intros pre post m c Hm Hl; cbn [length read_channel_ids map concat].
  { cbn. rewrite <- Hm. replace (m <| channels := channels m |>) with m by (by destruct m). apply eats_pret. }
  destruct post as [|x post]; [rewrite zlen_cons in Hl; pose proof (zlen_nonneg l); change (zlen []) with 0 in Hl; lia|]. rewrite !zlen_cons in Hl.
  eat_step. eapply eats_upd_channel; [exact Hm|]. match goal with |- eats _ (?t, _) _ _ _ => set (m1 := t) end.
  assert (Ed : channels m1 = (pre ++ [set_id d x]) ++ post) by (by rewrite <- app_assoc).
  pose proof (IH (pre ++ [set_id d x]) post m1 c Ed ltac:(lia)) as H1. rewrite zlen_app in H1. change (zlen [_]) with 1 in H1.
  replace (m <| channels := pre ++ fill set_id (d :: l) (x :: post) |>)
    with (m1 <| channels := (pre ++ [set_id d x]) ++ fill set_id l post |>); [exact H1|].
  by rewrite <- app_assoc.
Qed.

Lemma server_net_consumes l m c :
  mcs_wf m -> channelCount m = zlen l -> zlen l <= CHANNEL_MAX_COUNT ->
  consumes gcc_read_server_network_data (m, c) (server_net_body l) true (merge_ids l m, c).
Proof.
  intros Hm Hn Hmax. pose proof (zlen_nonneg l). unfold CHANNEL_MAX_COUNT in *. unfold gcc_read_server_network_data.
  apply consumes_check. { unfold server_net_body. rewrite !zlen_app, zlen_enc_ids. repeat change (zlen (le16 _)) with 2. pose proof (zlen_nonneg (id_pad l)). lia. }
  cbn [negb]. unfold server_net_body. eapply consumes_bind; [apply eats_at_s, u16_back|]. eapply consumes_bind; [apply eats_at_s, u16_back|].
  eapply (consumes_then the_mcs); [by apply (eats_the_mcs m (m, c)), eats_pret|]. rewrite u16_id by lia. rewrite Hn, Z.eqb_refl. cbn [negb].
  eapply consumes_then; [apply eats_pret|]. apply consumes_check_ex; [lia| |].
  { rewrite zlen_app, zlen_enc_ids. pose proof (zlen_nonneg (id_pad l)). apply Z.div_le_lower_bound; lia. }
  cbn [negb]. rewrite (wf_max _ Hm). unfold CHANNEL_MAX_COUNT. replace (31 <? zlen l) with false by lia. rewrite zlen_nat.
  eapply consumes_bind.
  { apply (read_ids_eats l [] (channels m) m c); [done|]. rewrite (wf_array _ Hm). exact Hmax. }
  replace (merge_ids l m) with (m <| channels := [] ++ fill set_id l (channels m) |>).
  2: { unfold merge_ids. rewrite <- Hn. by destruct m. }
  unfold id_pad. case_if; [|apply consumes_pret]. apply eats_consumes, eats_at_s.
  intros s r Hr Hu. apply seek_ex_run; [done|]. rewrite Hu, zlen_app. change (zlen (le16 0)) with 2. pose proof (zlen_nonneg r). lia.
Qed.

(** Without encryption the block holds the method and the level only. *)
Lemma no_security_writes s :
  EncryptionMethods s = ENCRYPTION_METHOD_NONE -> EncryptionLevel s = ENCRYPTION_LEVEL_NONE ->
  writes (write_server_security s) 16 (enc_block SC_SECURITY server_security_body).
Proof.
  intros Hm Hl. apply (writes_ext _ (require (gcc_write_user_data_header SC_SECURITY 12)
    (Stream_Write_UINT32 ENCRYPTION_METHOD_NONE ;; Stream_Write_UINT32 ENCRYPTION_LEVEL_NONE ;; pret true))).
  - intros w Hw. assert (E : Stream_GetPosition w = Ret (u64 (pointer w), w)).
    { unfold Stream_GetPosition. rewrite pbind_pget, pbind_passert. by replace (0 <=? pointer w) with true by (destruct Hw; lia). }
    unfold write_server_security. by rewrite (pbind_ret _ _ _ _ _ E), Hm, Hl.
  - apply writes_block; [unfold server_security_body; emit|done|lia].
Qed.

Lemma no_security_consumes m c : consumes gcc_read_server_security_data (m, c) server_security_body true (m, merge_no_security c).
Proof.
  unfold gcc_read_server_security_data, server_security_body. rewrite <- (app_nil_r (le32 ENCRYPTION_LEVEL_NONE)).
  apply consumes_check; [done|]. cbn [negb]. apply eats_consumes. do 2 eat_step. decide_test. eat_step. decide_test. decide_test.
  eat_step. apply eats_pret.
Qed.

Lemma server_message_writes m :
  messageChannelId m <> 0 -> writes (gcc_write_server_message_channel_data m) 10 (enc_block SC_MCS_MSGCHANNEL (le16 (messageChannelId m))).
Proof. intros H. unfold gcc_write_server_message_channel_data. replace (_ =? 0) with false by lia. apply writes_block; [emit|done|lia]. Qed.

Lemma server_message_consumes id m c :
  consumes gcc_read_server_message_channel_data (m, c) (le16 id) true (m <| messageChannelId := u16 id |>, c).
Proof.
  unfold gcc_read_server_message_channel_data. apply consumes_check; [done|]. cbn [negb]. apply eats_consumes.
  rewrite <- (app_nil_r (le16 id)). repeat eat_step.
Qed.

Lemma server_multitransport_writes s :
  writes (gcc_write_server_multitransport_channel_data s) 12 (enc_block SC_MULTITRANSPORT (le32 (MultitransportFlags s))).
Proof. apply writes_block; [emit|done|lia]. Qed.

Lemma server_multitransport_consumes flags m c :
  consumes gcc_read_server_multitransport_channel_data (m, c) (le32 flags) true (m, merge_multitransport flags c).
Proof.
  unfold gcc_read_server_multitransport_channel_data. apply consumes_check; [done|]. cbn [negb]. apply eats_consumes.
  rewrite <- (app_nil_r (le32 flags)). repeat eat_step.
Qed.
End server_blocks.

(** ** All the blocks of the client *)

(** What the client describes itself with: its settings and its MCS object, the texts of its strings, its
    channels and its monitors. *)
Record client_side (mc : rdpMcs) (c : rdpSettings) (name product : list Z) (defs : list rdpMcsChannel) (mons : list rdpMonitor) : Prop := {
  cs_name : setting_text (ClientHostname c) name /\ characters name /\ zlen (text enc16 name) < 16;
  cs_product : setting_text (ClientProductId c) product /\ characters product /\ zlen (text enc16 product) < 32;
  cs_defs : Forall def_ok defs /\ zlen defs <= CHANNEL_MAX_COUNT;
  cs_channels : channelCount mc = zlen defs /\ exists rest, channels mc = defs ++ rest;
  cs_monitors : MonitorCount c = zlen mons /\ (exists rest, MonitorDefArray c = mons ++ rest) /\ zlen mons <= 16;
  cs_attributes : HasMonitorAttributes c = true -> 1 < zlen mons;
  cs_message : NetworkAutoDetect c || SupportHeartbeatPdu c || SupportMultitransport c = true
}.

Definition extended (c : rdpSettings) : bool := has_flag (NegotiationFlags c) EXTENDED_CLIENT_DATA_SUPPORTED.
Definition multimon (c : rdpSettings) : bool := UseMultimon c && negb (SpanMonitors c) && (extended c || ForceMultimon c).

Definition monitor_blocks (c : rdpSettings) (mons : list rdpMonitor) : list (Z * list Z) :=
  if multimon c && (1 <? zlen mons) then
    (CS_MONITOR, monitor_body c mons) :: (if HasMonitorAttributes c then [(CS_MONITOR_EX, attribute_body c mons)] else [])
  else [].
Definition client_data (mc : rdpMcs) (c : rdpSettings) (name product : list Z) (defs : list rdpMcsChannel) (mons : list rdpMonitor) : list (Z * list Z) :=
  [(CS_CORE, core_body c name product); (CS_CLUSTER, cluster_body c); (CS_SECURITY, security_body c)] ++
  (if 0 <? zlen defs then [(CS_NET, net_body defs)] else []) ++
  monitor_blocks c mons ++
  (if extended c then [(CS_MCS_MSGCHANNEL, le32 (mcs_flags mc)); (CS_MULTITRANSPORT, le32 (MultitransportFlags c))] else []).

(** What the server learns. *)
Definition merge_monitors (c : rdpSettings) (mons : list rdpMonitor) (s : rdpSettings) : rdpSettings :=
  if multimon c && (1 <? zlen mons) then
    let s := merge_monitor c mons s in if HasMonitorAttributes c then merge_attributes c mons s else s
  else s.
Definition no_multitransport (s : rdpSettings) : rdpSettings := s <| SupportMultitransport := false |> <| MultitransportFlags := 0 |>.
Definition server_mcs (mc : rdpMcs) (c : rdpSettings) (defs : list rdpMcsChannel) (ms : rdpMcs) : rdpMcs :=
  let ms := if 0 <? zlen defs then merge_net defs ms else ms in
  if extended c then merge_message (u32 (mcs_flags mc)) ms else ms.
Definition server_settings (c : rdpSettings) (name product : list Z) (mons : list rdpMonitor) (s : rdpSettings) : rdpSettings :=
  let s := merge_monitors c mons (merge_security c (merge_cluster c (merge_core name product c s))) in
  if extended c then merge_multitransport (MultitransportFlags c) s else no_multitransport s.

(** ** Written by the client *)

Lemma enc_blocks_app l l' : enc_blocks (l ++ l') = enc_blocks l ++ enc_blocks l'.
Proof. unfold enc_blocks. by rewrite map_app, concat_app. Qed.

Lemma enc_blocks_one type body : enc_blocks [(type, body)] = enc_block type body.
Proof. apply app_nil_r. Qed.

Section requests.
Context `{HM : Malloc} (Hmem : forall n, 0 <= n <= 2 ^ 20 -> malloc_ok n = true).
Context (mc : rdpMcs) (c : rdpSettings) (name product : list Z) (defs : list rdpMcsChannel) (mons : list rdpMonitor).
Context (Hc : client_side mc c name product defs mons).

Lemma monitor_emits : emits_all (gcc_write_client_monitor_data c) (if 1 <? zlen mons then enc_block CS_MONITOR (monitor_body c mons) else []).
Proof using Hc.
  destruct (cs_monitors _ _ _ _ _ _ Hc) as (Hn & (rest & Hm) & H16). case_if.
  - eapply emits_all_intro; [eapply monitor_writes; [done|done|lia]|]. rewrite zlen_enc_block, zlen_monitor_body; lia.
  - unfold gcc_write_client_monitor_data. rewrite Hn. replace (1 <? zlen mons) with false by lia. apply emits_all_nothing.
Qed.

Lemma attributes_emits :
  emits_all (gcc_write_client_monitor_extended_data c) (if HasMonitorAttributes c then enc_block CS_MONITOR_EX (attribute_body c mons) else []).
Proof using Hc.
  destruct (cs_monitors _ _ _ _ _ _ Hc) as (Hn & (rest & Hm) & H16). pose proof (cs_attributes _ _ _ _ _ _ Hc) as Ha.
  destruct (HasMonitorAttributes c) eqn:E.
  - eapply emits_all_intro; [eapply attributes_writes; [done|done|specialize (Ha eq_refl); lia|done]|].
    specialize (Ha eq_refl). rewrite zlen_enc_block, zlen_attribute_body; lia.
  - unfold gcc_write_client_monitor_extended_data. rewrite E. apply emits_all_nothing.
Qed.

Lemma both_monitors_emit k bs :
  emits_all k bs ->
  emits_all (require (gcc_write_client_monitor_data c) (require (gcc_write_client_monitor_extended_data c) k))
    (enc_blocks (if 1 <? zlen mons then (CS_MONITOR, monitor_body c mons) ::
       (if HasMonitorAttributes c then [(CS_MONITOR_EX, attribute_body c mons)] else []) else []) ++ bs).
Proof using Hc.
  intros Hk. pose proof (emits_all_require _ _ _ _ monitor_emits (emits_all_require _ _ _ _ attributes_emits Hk)) as H.
  rewrite app_assoc in H. eapply eq_ind; [exact H|]. f_equal. pose proof (cs_attributes _ _ _ _ _ _ Hc) as Ha.
  destruct (HasMonitorAttributes c) eqn:E, (1 <? zlen mons) eqn:E1; try done.
  - unfold enc_blocks. cbn. by rewrite app_nil_r.
  - specialize (Ha eq_refl). lia.
Qed.

Lemma extended_emits :
  emits_all (require (gcc_write_client_message_channel_data mc c) (require (gcc_write_client_multitransport_channel_data c) (pret true)))
    (enc_blocks [(CS_MCS_MSGCHANNEL, le32 (mcs_flags mc)); (CS_MULTITRANSPORT, le32 (MultitransportFlags c))]).
Proof using Hc.
  apply (emits_all_require _ _ (enc_block _ _)); [by eapply emits_all_intro; [apply message_writes, (cs_message _ _ _ _ _ _ Hc)|]|].
  apply (emits_all_require _ _ (enc_block _ _)); [by eapply emits_all_intro; [apply multitransport_writes|]|apply emits_all_nothing].
Qed.

Lemma client_data_emits : emits_all (gcc_write_client_data_blocks mc c) (enc_blocks (client_data mc c name product defs mons)).
Proof using Hmem Hc.
  destruct (cs_name _ _ _ _ _ _ Hc) as (Hn1 & Hn2 & Hn3). destruct (cs_product _ _ _ _ _ _ Hc) as (Hp1 & Hp2 & Hp3).
  destruct (cs_channels _ _ _ _ _ _ Hc) as (Hcn & rest & Hch). destruct (cs_defs _ _ _ _ _ _ Hc) as (Hd & Hmax).
  unfold client_data, gcc_write_client_data_blocks. rewrite enc_blocks_app. unfold enc_blocks at 1. cbn [map concat fst snd]. rewrite app_nil_r, <- !app_assoc.
  apply emits_all_require; [eapply emits_all_intro; [by apply core_writes|]; rewrite zlen_enc_block, zlen_core_body by done; lia|]. apply emits_all_require; [by eapply emits_all_intro; [apply cluster_writes|]|].
  apply emits_all_require; [eapply emits_all_intro; [apply security_writes|unfold security_body; by case_if]|]. rewrite !enc_blocks_app. apply emits_all_require.
  { replace (enc_blocks (if 0 <? zlen defs then _ else _)) with (net_block defs); [by eapply net_writes|].
    unfold net_block. case_if; [by rewrite enc_blocks_one|done]. }
  cbv zeta. unfold monitor_blocks, multimon. fold (extended c). pose proof extended_emits as He.
  destruct (extended c), (UseMultimon c && negb (SpanMonitors c)), (ForceMultimon c); cbn [andb orb];
    first [exact (both_monitors_emit _ _ He) | exact He | exact (both_monitors_emit _ _ emits_all_nothing) | exact emits_all_nothing].
Qed.
End requests.

(** ** Read by the server *)

Lemma reads_blocks_app rd l l' o o1 o2 : reads_blocks rd l o o1 -> reads_blocks rd l' o1 o2 -> reads_blocks rd (l ++ l') o o2.
Proof. induction 1; [done|]. intros H'. econstructor; eauto. Qed.

(** A server that has not read anything yet, and has chosen the security protocol the client was told. *)
Record server_side (ms : rdpMcs) (s c : rdpSettings) (defs : list rdpMcsChannel) : Prop := {
  ss_mcs : mcs_wf ms /\ channelCount ms = 0;
  ss_ids : baseChannelId ms + zlen defs < 65535;
  ss_protocol : TransportDumpReplay s = false /\ SelectedProtocol s = u32 (SelectedProtocol c);
  ss_monitors : 16 <= zlen (MonitorDefArray s)
}.

Section reading.
Context `{HM : Malloc} (Hmem : forall n, 0 <= n <= 2 ^ 20 -> malloc_ok n = true).
Context (mc ms : rdpMcs) (c s : rdpSettings) (name product : list Z) (defs : list rdpMcsChannel) (mons : list rdpMonitor).
Context (Hc : client_side mc c name product defs mons) (Hs : server_side ms s c defs).

(** A block of a known type. *)
Lemma read_block type rd body l o o1 o2 :
  read_client_block type = rd -> consumes rd o body true o1 -> 0 <= type < 65536 -> zlen body < 65532 ->
  reads_blocks read_client_block l o1 o2 -> reads_blocks read_client_block ((type, body) :: l) o o2.
Proof. intros <-. apply reads_one. Qed.

Lemma first_blocks_read m st :
  TransportDumpReplay st = false -> SelectedProtocol st = u32 (SelectedProtocol c) ->
  reads_blocks read_client_block
    [(CS_CORE, core_body c name product); (CS_CLUSTER, cluster_body c); (CS_SECURITY, security_body c)]
    (m, st) (m, merge_security c (merge_cluster c (merge_core name product c st))).
Proof using Hmem Hc.
  intros Hd Hp. destruct (cs_name _ _ _ _ _ _ Hc) as (Hn1 & Hn2 & Hn3). destruct (cs_product _ _ _ _ _ _ Hc) as (Hp1 & Hp2 & Hp3).
  eapply read_block; [reflexivity|apply (core_consumes Hmem name product Hn2 Hp2 Hn3 Hp3 c m st Hd Hp)|by unfold CS_CORE|rewrite zlen_core_body by done; lia|].
  eapply read_block; [reflexivity|apply cluster_consumes|by unfold CS_CLUSTER|by vm_compute|].
  eapply read_block; [reflexivity|apply security_consumes|by unfold CS_SECURITY|unfold security_body; by case_if|constructor].
Qed.

Lemma net_block_read m st :
  mcs_wf m -> baseChannelId m + zlen defs < 65536 ->
  reads_blocks read_client_block (if 0 <? zlen defs then [(CS_NET, net_body defs)] else []) (m, st)
    (if 0 <? zlen defs then merge_net defs m else m, st).
Proof using Hc.
  intros Hm Hb. destruct (cs_defs _ _ _ _ _ _ Hc) as (Hd & Hmax). case_if; [|constructor].
  eapply read_block; [reflexivity|by apply net_consumes|by unfold CS_NET| |constructor].
  unfold net_body, CHANNEL_MAX_COUNT in *. rewrite zlen_app, zlen_enc_defs by done. change (zlen (le32 _)) with 4. lia.
Qed.

Lemma monitor_blocks_read m st :
  16 <= zlen (MonitorDefArray st) ->
  reads_blocks read_client_block (monitor_blocks c mons) (m, st) (m, merge_monitors c mons st).
Proof using Hc.
  intros Hroom. destruct (cs_monitors _ _ _ _ _ _ Hc) as (Hn & (rest & Hm) & H16).
  unfold monitor_blocks, merge_monitors. destruct (multimon c); [|constructor]. cbn [andb]. case_if; [|constructor]. cbv zeta.
  eapply read_block; [reflexivity|apply monitor_consumes; lia|by unfold CS_MONITOR|rewrite zlen_monitor_body by lia; lia|].
  destruct (HasMonitorAttributes c); [|constructor].
  eapply read_block; [reflexivity| |by unfold CS_MONITOR_EX|rewrite zlen_attribute_body by lia; lia|constructor].
  apply attributes_consumes; [lia| |done]. unfold merge_monitor. cbn [MonitorDefArray].
  change (zlen mons <= zlen (fill (place (base_of mons).1 (base_of mons).2) mons (MonitorDefArray st))). rewrite zlen_fill. lia.
Qed.

Lemma extended_blocks_read m st :
  reads_blocks read_client_block
    (if extended c then [(CS_MCS_MSGCHANNEL, le32 (mcs_flags mc)); (CS_MULTITRANSPORT, le32 (MultitransportFlags c))] else []) (m, st)
    (if extended c then merge_message (u32 (mcs_flags mc)) m else m, if extended c then merge_multitransport (MultitransportFlags c) st else st).
Proof.
  destruct (extended c); [|constructor]. eapply read_block; [reflexivity|apply message_consumes|by unfold CS_MCS_MSGCHANNEL|by vm_compute|].
  eapply read_block; [reflexivity|apply multitransport_consumes|by unfold CS_MULTITRANSPORT|by vm_compute|constructor].
Qed.

Lemma monitors_kept st : MonitorDefArray (merge_security c (merge_cluster c (merge_core name product c st))) = MonitorDefArray st.
Proof. unfold merge_security. set (t := merge_cluster _ _). assert (E : MonitorDefArray t = MonitorDefArray st) by (unfold t, merge_cluster; cbv zeta; by case_if). by case_if. Qed.

Lemma client_data_read :
  let st := merge_monitors c mons (merge_security c (merge_cluster c (merge_core name product c s))) in
  reads_blocks read_client_block (client_data mc c name product defs mons) (ms, s)
    (server_mcs mc c defs ms, if extended c then merge_multitransport (MultitransportFlags c) st else st).
Proof using Hmem Hc Hs.
  intros st. destruct (ss_mcs _ _ _ _ Hs) as [Hm Hn]. destruct (ss_protocol _ _ _ _ Hs) as [Hd Hp].
  pose proof (ss_ids _ _ _ _ Hs). pose proof (ss_monitors _ _ _ _ Hs).
  eapply reads_blocks_app; [by apply first_blocks_read|]. eapply reads_blocks_app; [apply net_block_read; [done|lia]|].
  eapply reads_blocks_app; [apply monitor_blocks_read; by rewrite monitors_kept|]. apply extended_blocks_read.
Qed.

Lemma multitransport_announced : some_multitransport (client_data mc c name product defs mons) = extended c.
Proof.
  unfold client_data, some_multitransport, monitor_blocks. rewrite !existsb_app. cbn [existsb fst].
  change (is_multitransport CS_CORE) with false. change (is_multitransport CS_CLUSTER) with false. change (is_multitransport CS_SECURITY) with false.
  replace (existsb _ (if 0 <? zlen defs then _ else _)) with false by (by case_if).
  replace (existsb _ (if multimon c && (1 <? zlen mons) then _ else _)) with false by (case_if; [by destruct (HasMonitorAttributes c)|done]).
  by destruct (extended c).
Qed.

Lemma client_data_eats data :
  data = enc_blocks (client_data mc c name product defs mons) ->
  eats (gcc_read_client_data_blocks (zlen data)) (ms, s) data true (server_mcs mc c defs ms, server_settings c name product mons s).
Proof using Hmem Hc Hs.
  intros -> w r Hr Hu. unfold gcc_read_client_data_blocks.
  rewrite (pbind_ret _ _ _ _ _ (client_blocks_run _ _ _ client_data_read (Z.to_nat (zlen (enc_blocks (client_data mc c name product defs mons)))) false w r Hr Hu ltac:(lia))), multitransport_announced.
  unfold server_settings. cbn [fst snd negb orb]. by destruct (extended c).
Qed.
End reading.

(** ** Conference create request *)

Section per_steps.
Context {A : Type}.

Lemma eats_needs (rd : Prog wStream (option A)) (f : A -> Prog gstate bool) o bs v bs' r o' :
  reads_back rd bs (Some v) -> eats (f v) o bs' r o' -> eats (needs (at_s rd) f) o (bs ++ bs') r o'.
Proof. intros Hm Hf. unfold needs. eapply eats_bind; [by apply eats_at_s|exact Hf]. Qed.

Lemma eats_require (rd : Prog wStream bool) k o bs bs' r (o' : gobj) :
  reads_back rd bs true -> eats k o bs' r o' -> eats (require (at_s rd) k) o (bs ++ bs') r o'.
Proof. intros Hm Hf. unfold require. eapply eats_bind; [by apply eats_at_s|exact Hf]. Qed.

Lemma eats_enough n k o bs r (o' : gobj) :
  n <= zlen bs -> eats k o bs r o' -> eats (require (at_s (Stream_CheckAndLogRequiredLength n)) k) o bs r o'.
Proof.
  intros Hn Hk s r' Hr Hu. unfold require. rewrite (pbind_ret _ _ _ _ _ (at_s_ret _ _ _ _ _ (check_length_spec s n Hr))).
  rewrite Hu, zlen_app. pose proof (zlen_nonneg r'). replace (n <=? _) with true by lia. cbn [negb]. by apply (Hk s r').
Qed.
End per_steps.

Definition enc_request (data : list Z) : list Z :=
  [0] ++ enc_oid t124_02_98_oid ++ enc_length (zlen data + 14) ++ [0] ++ [8] ++ (enc_length 0 ++ enc_digits [49]) ++ zrep 1 0 ++
  [1] ++ [0xC0] ++ (enc_length 0 ++ h221_cs_key) ++ enc_length (zlen data) ++ data.

Section conference.
Context `{HM : Malloc} `{HC : ServerCrypto}.

Lemma choice_emits v : is_byte v -> emits_all (per_write_choice v) [v].
Proof. intros Hv. apply (emits_all_intro _ 1); [by apply (wire_writes (WireFormat := octet_format))|done]. Qed.

Lemma request_emits data :
  Forall is_byte data -> zlen data < 32000 -> emits_all (gcc_write_conference_create_request data) (enc_request data).
Proof.
  intros Hd Hl. pose proof (zlen_nonneg data). unfold gcc_write_conference_create_request, enc_request.
  rewrite !u16_id, ztake_all by lia.
  apply emits_all_require; [apply choice_emits; unfold is_byte; lia|].
  apply emits_all_require; [apply (emits_all_intro _ 6); [by apply oid_writes; [|repeat constructor|]|done]|].
  apply emits_all_require; [eapply emits_all_intro; [apply per_write_length_writes; lia|lia]|].
  apply emits_all_require; [apply choice_emits; unfold is_byte; lia|].
  apply emits_all_require; [apply (choice_emits 8); unfold is_byte; lia|].
  apply emits_all_require; [by eapply emits_all_intro; [by apply (per_write_numeric_string_writes [49] 1)|]|].
  apply emits_all_require; [apply (emits_all_intro _ 1); [by apply padding_writes|done]|].
  apply emits_all_require; [apply (choice_emits 1); unfold is_byte; lia|].
  apply emits_all_require; [apply (choice_emits 0xC0); unfold is_byte; lia|].
  apply emits_all_require; [by eapply emits_all_intro; [by apply (per_write_octet_string_writes h221_cs_key 4); [repeat constructor|..]|]|].
  pose proof (per_write_octet_string_writes data 0 Hd ltac:(lia) ltac:(lia) ltac:(unfold UINT16_MAX; lia)) as H1.
  rewrite Z.sub_0_r in H1. eapply emits_all_intro; [exact H1|lia].
Qed.

Lemma request_eats data o o' :
  zlen data < 32000 -> eats (gcc_read_client_data_blocks (zlen data)) o data true o' ->
  eats gcc_read_conference_create_request o (enc_request data) true o'.
Proof.
  intros Hl Hdata. pose proof (zlen_nonneg data). unfold gcc_read_conference_create_request, enc_request.
  apply (eats_needs _ _ _ _ 0); [apply read_choice_back|].
  apply eats_require; [by apply oid_reads; [|repeat constructor|..]|].
  eapply eats_needs; [apply per_read_length_enc; lia|].
  eapply eats_needs; [apply read_choice_back|]. eapply eats_needs; [apply read_choice_back|].
  apply eats_require; [by apply (per_read_numeric_string_enc [49] 1)|]. apply eats_require; [by apply padding_reads|].
  eapply eats_needs; [apply read_choice_back|]. decide_test. eapply eats_needs; [apply read_choice_back|]. decide_test.
  apply eats_require; [by apply (per_read_octet_string_enc h221_cs_key 4)|].
  eapply eats_needs; [apply per_read_length_enc; lia|]. by apply eats_enough; [lia|].
Qed.

(** ** Conference create response *)

Definition tells_multitransport (s : rdpSettings) : bool := SupportMultitransport s && negb (MultitransportFlags s =? 0).
Definition server_data (m : rdpMcs) (s : rdpSettings) (l : list rdpMcsChannel) : list (Z * list Z) :=
  [(SC_CORE, server_core_body s); (SC_NET, server_net_body l); (SC_SECURITY, server_security_body)] ++
  (if messageChannelId m =? 0 then [] else [(SC_MCS_MSGCHANNEL, le16 (messageChannelId m))]) ++
  (if tells_multitransport s then [(SC_MULTITRANSPORT, le32 (MultitransportFlags s))] else []).

(** The server without its settings. *)
Definition write_server_data (m : rdpMcs) (s : rdpSettings) : Prog wStream bool := r <- gcc_write_server_data_blocks m s ;; pret r.1.

Definition with_random (s : rdpSettings) : rdpSettings := s <| ServerRandom := Some (ztake 32 (winpr_RAND 32)) |> <| ServerRandomLength := 32 |>.

Lemma server_data_emits m s l rest :
  malloc_ok 32 = true -> channels m = l ++ rest -> channelCount m = zlen l -> zlen l <= CHANNEL_MAX_COUNT ->
  EncryptionMethods s = ENCRYPTION_METHOD_NONE -> EncryptionLevel s = ENCRYPTION_LEVEL_NONE ->
  emits_all (write_server_data m s) (enc_blocks (server_data m s l)).
Proof.
  intros Hmem Hch Hn Hmax Hm Hl. set (s1 := with_random s).
  assert (Hw : emits_all (require (gcc_write_server_core_data s) (require (gcc_write_server_network_data m)
    (require (write_server_security s1) (require (gcc_write_server_message_channel_data m)
      (if tells_multitransport s then gcc_write_server_multitransport_channel_data s1 else pret true))))) (enc_blocks (server_data m s l))).
  { unfold server_data. rewrite enc_blocks_app. unfold enc_blocks at 1. cbn [map concat fst snd]. rewrite app_nil_r, <- !app_assoc.
    apply emits_all_require; [by eapply emits_all_intro; [apply server_core_writes|]|]. apply emits_all_require; [by eapply server_net_writes|].
    apply emits_all_require; [by eapply emits_all_intro; [by apply no_security_writes|]|]. rewrite enc_blocks_app. apply emits_all_require.
    - case_if; [|rewrite enc_blocks_one; by eapply emits_all_intro; [by apply server_message_writes|]].
      unfold gcc_write_server_message_channel_data. replace (_ =? 0) with true by lia. apply emits_all_nothing.
    - case_if; [|apply emits_all_nothing]. rewrite enc_blocks_one. by eapply emits_all_intro; [apply (server_multitransport_writes s1)|]. }
  destruct Hw as (need & Hle & Hw). exists need. split; [done|]. eapply writes_ext; [|exact Hw]. intros w _.
  unfold write_server_data, gcc_write_server_data_blocks, gcc_write_server_security_data, gcc_update_server_random, require.
  rewrite Hmem. fold (with_random s). fold s1. unfold pbind.
  destruct (gcc_write_server_core_data s w) as [[[] w1]| |]; cbn; try done.
  destruct (gcc_write_server_network_data m w1) as [[[] w2]| |]; cbn; try done.
  destruct (write_server_security s1 w2) as [[[] w3]| |]; cbn; try done.
  destruct (gcc_write_server_message_channel_data m w3) as [[[] w4]| |]; cbn; try done.
  fold (tells_multitransport s).
  destruct (tells_multitransport s); [|reflexivity]. by destruct (gcc_write_server_multitransport_channel_data s1 w4) as [[[] w5]| |].
Qed.

(** What the client learns. *)
Definition client_mcs (m : rdpMcs) (l : list rdpMcsChannel) (mc : rdpMcs) : rdpMcs :=
  let mc := merge_ids l mc in
  if messageChannelId m =? 0 then mc else mc <| messageChannelId := u16 (messageChannelId m) |>.
Definition client_settings (s c : rdpSettings) : rdpSettings :=
  let c := merge_no_security (merge_server_core s c) in
  if tells_multitransport s then merge_multitransport (MultitransportFlags s) c else c.

Lemma server_data_read m s l mc c :
  mcs_wf mc -> channelCount mc = zlen l -> zlen l <= CHANNEL_MAX_COUNT ->
  reads_blocks read_server_block (server_data m s l) (mc, c) (client_mcs m l mc, client_settings s c).
Proof.
  intros Hm Hn Hmax. pose proof (zlen_nonneg l). eapply reads_blocks_app.
  - econstructor; [exact (server_core_consumes s mc c)|by unfold SC_CORE|by vm_compute|].
    econstructor; [exact (server_net_consumes l mc _ Hm Hn Hmax)|by unfold SC_NET| |].
    { unfold server_net_body, id_pad, CHANNEL_MAX_COUNT in *. rewrite !zlen_app, zlen_enc_ids. repeat change (zlen (le16 _)) with 2. case_if; [change (zlen (le16 _)) with 2|change (zlen []) with 0]; lia. }
    econstructor; [exact (no_security_consumes _ _)|by unfold SC_SECURITY|by vm_compute|constructor].
  - apply reads_blocks_app with (client_mcs m l mc, merge_no_security (merge_server_core s c)); unfold client_mcs, client_settings; cbv zeta.
    + case_if; [constructor|]. econstructor; [exact (server_message_consumes _ _ _)|by unfold SC_MCS_MSGCHANNEL|by vm_compute|constructor].
    + case_if; [|constructor]. econstructor; [exact (server_multitransport_consumes _ _ _)|by unfold SC_MULTITRANSPORT|by vm_compute|constructor].
Qed.

Lemma blocks_count l : Z.of_nat (length l) <= zlen (enc_blocks l).
Proof.
  unfold enc_blocks. induction l as [|[type body] l IH]; [done|]. cbn [map concat length fst snd]. rewrite zlen_app, zlen_enc_block.
  pose proof (zlen_nonneg body). lia.
Qed.

Definition enc_response (data : list Z) : list Z :=
  [0] ++ enc_oid t124_02_98_oid ++ enc_length 0x2A ++ [0x14] ++ be16 (0x79F3 - 1001) ++ enc_integer 1 ++ [0] ++ [1] ++ [0xC0] ++
  (enc_length 0 ++ h221_sc_key) ++ enc_length (zlen data) ++ data.

Lemma response_emits data :
  Forall is_byte data -> zlen data < 32000 -> emits_all (gcc_write_conference_create_response data) (enc_response data).
Proof.
  intros Hd Hl. pose proof (zlen_nonneg data). unfold gcc_write_conference_create_response, enc_response.
  rewrite !u16_id, ztake_all by lia.
  apply emits_all_require; [apply choice_emits; unfold is_byte; lia|].
  apply emits_all_require; [apply (emits_all_intro _ 6); [by apply oid_writes; [|repeat constructor|]|done]|].
  apply emits_all_require; [eapply emits_all_intro; [apply per_write_length_writes; lia|lia]|].
  apply emits_all_require; [apply choice_emits; unfold is_byte; lia|].
  apply emits_all_require; [by eapply emits_all_intro; [by apply (wire_writes (WireFormat := integer16_format 1001 ltac:(done)) 0x79F3)|]|].
  apply emits_all_require; [by eapply emits_all_intro; [by apply per_write_integer_writes|]|].
  apply emits_all_require; [by eapply emits_all_intro; [by apply (wire_writes (WireFormat := enumerated_format 16 ltac:(done)) 0)|]|].
  apply emits_all_require; [apply (choice_emits 1); unfold is_byte; lia|].
  apply emits_all_require; [apply (choice_emits 0xC0); unfold is_byte; lia|].
  apply emits_all_require; [by eapply emits_all_intro; [by apply (per_write_octet_string_writes h221_sc_key 4); [repeat constructor|..]|]|].
  pose proof (per_write_octet_string_writes data 0 Hd ltac:(lia) ltac:(lia) ltac:(unfold UINT16_MAX; lia)) as H1.
  rewrite Z.sub_0_r in H1. eapply emits_all_intro; [exact H1|lia].
Qed.

Lemma response_eats l o o' :
  zlen (enc_blocks l) < 32000 -> reads_blocks read_server_block l o o' ->
  eats gcc_read_conference_create_response o (enc_response (enc_blocks l)) true o'.
Proof.
  intros Hl Hread. pose proof (zlen_nonneg (enc_blocks l)). unfold gcc_read_conference_create_response, enc_response.
  eapply eats_needs; [apply read_choice_back|].
  apply eats_require; [by apply oid_reads; [|repeat constructor|..]|].
  eapply eats_needs; [apply per_read_length_enc; lia|]. eapply eats_needs; [apply read_choice_back|].
  eapply eats_needs; [by apply (wire_reads (WireFormat := integer16_format 1001 ltac:(done)) 0x79F3)|].
  eapply eats_needs; [by apply per_read_integer_enc|].
  eapply eats_needs; [by apply result_back|]. eapply eats_needs; [apply read_choice_back|]. eapply eats_needs; [apply read_choice_back|].
  apply eats_require; [by apply (per_read_octet_string_enc h221_sc_key 4)|].
  eapply eats_needs; [apply per_read_length_enc; lia|]. intros w r Hr Hu. unfold gcc_read_server_data_blocks. rewrite pbind_pget. cbn [snd].
  pose proof (zlen_nonneg r). pose proof (blocks_count l).
  apply (server_blocks_run l o o' Hread _ 0 w r Hr Hu); [|lia|lia]. rewrite Hu, zlen_app. lia.
Qed.
End conference.

(** ** What has been agreed on *)

Section agreement.
Context (c s : rdpSettings) (name product : list Z) (mons : list rdpMonitor).

(** Fields that only core data and the multitransport block touch. *)
Lemma later_blocks {A} (P : rdpSettings -> A) :
  (forall t v, P (t <| ClusterInfoFlags := v |>) = P t) -> (forall t v, P (t <| RedirectedSessionId := v |>) = P t) ->
  (forall t v, P (t <| ConsoleSession := v |>) = P t) -> (forall t v, P (t <| RedirectSmartCards := v |>) = P t) ->
  (forall t v, P (t <| EncryptionMethods := v |>) = P t) -> (forall t v, P (t <| MonitorFlags := v |>) = P t) ->
  (forall t v, P (t <| MonitorCount := v |>) = P t) -> (forall t v, P (t <| MonitorDefArray := v |>) = P t) ->
  (forall t v, P (t <| MonitorAttributeFlags := v |>) = P t) -> (forall t v, P (t <| HasMonitorAttributes := v |>) = P t) ->
  P (merge_monitors c mons (merge_security c (merge_cluster c (merge_core name product c s)))) = P (merge_core name product c s).
Proof.
  intros H1 H2 H3 H4 H5 H6 H7 H8 H9 H10. unfold merge_monitors, merge_attributes, merge_monitor. cbv zeta.
  transitivity (P (merge_security c (merge_cluster c (merge_core name product c s)))); [repeat case_if; by rewrite ?H8, ?H10, ?H9, ?H8, ?H7, ?H6|].
  transitivity (P (merge_cluster c (merge_core name product c s))); [unfold merge_security; case_if; by rewrite ?H5|].
  unfold merge_cluster. cbv zeta. case_if; by rewrite ?H4, ?H3, ?H2, ?H1.
Qed.

Ltac kept P :=
  let H := fresh in pose proof (later_blocks P) as H; unfold server_settings; cbv zeta; case_if; unfold merge_multitransport, no_multitransport;
  (etransitivity; [apply H; reflexivity|reflexivity]).

Lemma server_version : RdpVersion (server_settings c name product mons s) = Z.min (u32 (RdpVersion c)) (RdpVersion s).
Proof. kept RdpVersion. Qed.
Lemma server_skip : SupportSkipChannelJoin (server_settings c name product mons s) = SupportSkipChannelJoin s && SupportSkipChannelJoin c.
Proof. kept SupportSkipChannelJoin. Qed.
Lemma server_dst : SupportDynamicTimeZone (server_settings c name product mons s) = SupportDynamicTimeZone s && SupportDynamicTimeZone c.
Proof. kept SupportDynamicTimeZone. Qed.
Lemma server_level : EncryptionLevel (server_settings c name product mons s) = EncryptionLevel s.
Proof. kept EncryptionLevel. Qed.
Lemma server_rdp_layer : UseRdpSecurityLayer (server_settings c name product mons s) = UseRdpSecurityLayer s.
Proof. kept UseRdpSecurityLayer. Qed.
Lemma server_replay : TransportDumpReplay (server_settings c name product mons s) = TransportDumpReplay s.
Proof. kept TransportDumpReplay. Qed.
Lemma server_def_array : ChannelDefArray (server_settings c name product mons s) = ChannelDefArray s.
Proof. kept ChannelDefArray. Qed.
Lemma server_multitransport_flags :
  MultitransportFlags (server_settings c name product mons s) =
    if extended c then Z.land (MultitransportFlags s) (u32 (MultitransportFlags c)) else 0.
Proof.
  pose proof (later_blocks MultitransportFlags) as H. unfold server_settings. cbv zeta. case_if; [|done].
  unfold merge_multitransport. cbn [MultitransportFlags]. 
  match goal with |- MultitransportFlags (?t <| MultitransportFlags := _ |>) = _ => change (Z.land (MultitransportFlags t) (u32 (MultitransportFlags c)) = Z.land (MultitransportFlags s) (u32 (MultitransportFlags c))) end.
  f_equal. etransitivity; [apply H; reflexivity|reflexivity].
Qed.
Lemma server_methods : UseRdpSecurityLayer s = false -> EncryptionMethods (server_settings c name product mons s) = EncryptionMethods s.
Proof.
  intros Hu. assert (E : merge_security c (merge_cluster c (merge_core name product c s)) = merge_cluster c (merge_core name product c s)).
  { unfold merge_security. set (t := merge_cluster _ _). replace (UseRdpSecurityLayer t) with false; [done|].
    unfold t, merge_cluster. cbv zeta. symmetry. case_if; exact Hu. }
  unfold server_settings. rewrite E. unfold merge_multitransport, no_multitransport, merge_monitors, merge_attributes, merge_monitor, merge_cluster. cbv zeta.
  destruct (extended c), (has_flag (u32 (cluster_flags c)) REDIRECTED_SESSIONID_FIELD_VALID), (multimon c && _), (HasMonitorAttributes c); reflexivity.
Qed.
End agreement.

(** *** Channels *)

Lemma assign_ids_lookup defs : forall base old i d x, defs !! i = Some d -> old !! i = Some x ->
  assign_ids base defs old !! i = Some (x <| Name := Name d |> <| options := options d |> <| ChannelId := base + Z.of_nat i |>).
Proof.
  induction defs as [|d0 defs IH]; intros base [|x0 old] [|i] d x Hd Hx; try done; cbn in *.
  - injection Hd as ->. injection Hx as ->. rewrite Z.add_0_r. done.
  - etransitivity; [exact (IH (base + 1) old i d x Hd Hx)|]. by replace (base + 1 + Z.of_nat i) with (base + Z.of_nat (S i)) by lia.
Qed.

Lemma zlen_assign_ids defs : forall base old, zlen (assign_ids base defs old) = zlen old.
Proof. induction defs as [|d defs IH]; intros base [|x old]; try done. cbn. by rewrite !zlen_cons, IH. Qed.

Lemma fill_lookup {A B} (f : B -> A -> A) src : forall old i b a, src !! i = Some b -> old !! i = Some a -> fill f src old !! i = Some (f b a).
Proof. induction src as [|b0 src IH]; intros [|a0 old] [|i] b a Hb Ha; try done; cbn in *; [congruence|by apply IH]. Qed.

Section channel_agreement.
Context (mc ms : rdpMcs) (c : rdpSettings) (defs rest : list rdpMcsChannel).
Context (Hch : channels mc = defs ++ rest) (Hms : mcs_wf ms) (Hzero : channelCount ms = 0) (Hmax : zlen defs <= CHANNEL_MAX_COUNT).
Context (Hids : baseChannelId ms + zlen defs < 65535).
Let ms' : rdpMcs := server_mcs mc c defs ms.
Let l : list rdpMcsChannel := ztake (zlen defs) (channels ms').

Lemma server_channels : channelCount ms' = zlen defs /\ channels ms' = assign_ids (baseChannelId ms) defs (channels ms).
Proof using Hzero.
  unfold ms', server_mcs. cbv zeta. pose proof (zlen_nonneg defs). destruct (0 <? zlen defs) eqn:E.
  - by destruct (extended c).
  - assert (Hd : defs = []) by (apply nil_length_inv; unfold zlen in *; lia). rewrite Hd. by destruct (extended c).
Qed.

Lemma server_list : zlen l = zlen defs /\ channels ms' = l ++ zdrop (zlen defs) (channels ms').
Proof using Hms Hzero Hmax.
  unfold l. rewrite ztake_zdrop_app. split; [|done]. destruct server_channels as [_ E]. rewrite E, zlen_ztake, zlen_assign_ids, (wf_array _ Hms).
  pose proof (zlen_nonneg defs). lia.
Qed.

Lemma channel_agreed i d :
  defs !! i = Some d ->
  let id := baseChannelId ms + Z.of_nat i in
  exists cs cc, channels ms' !! i = Some cs /\ channels (client_mcs ms' l mc) !! i = Some cc /\
    Name cs = Name d /\ Name cc = Name d /\ options cs = options d /\ options cc = options d /\ ChannelId cs = id /\ ChannelId cc = id.
Proof using Hch Hms Hzero Hmax Hids.
  intros Hd id. pose proof (lookup_lt_Some _ _ _ Hd) as Hlt. assert (Hi : Z.of_nat i < zlen defs) by (unfold zlen; lia).
  destruct (lookup_lt_is_Some_2 (channels ms) i) as [x Hx]; [pose proof (wf_array _ Hms); unfold zlen in *; lia|].
  destruct server_channels as [_ E]. assert (Hcs : channels ms' !! i = Some (x <| Name := Name d |> <| options := options d |> <| ChannelId := id |>)).
  { rewrite E. by apply assign_ids_lookup. }
  assert (Hl : l !! i = Some (x <| Name := Name d |> <| options := options d |> <| ChannelId := id |>)).
  { unfold l, ztake. by rewrite lookup_take_lt by lia. }
  assert (Hd' : channels mc !! i = Some d) by (rewrite Hch; by apply lookup_app_l_Some).
  pose proof (fill_lookup set_id l (channels mc) i _ _ Hl Hd') as Hcc.
  assert (Ec : channels (client_mcs ms' l mc) = fill set_id l (channels mc)) by (unfold client_mcs; cbv zeta; by case_if).
  do 2 eexists. split_and!; [exact Hcs|by rewrite Ec|done..|].
  cbn. apply u16_id. pose proof (wf_base _ Hms) as [? _]. unfold id. lia.
Qed.

Lemma message_agreed :
  extended c = true -> 0 < baseChannelId ms ->
  messageChannelId ms' = baseChannelId ms + zlen defs /\ messageChannelId (client_mcs ms' l mc) = baseChannelId ms + zlen defs.
Proof using Hms Hids.
  intros He Hb. pose proof (zlen_nonneg defs). assert (E : messageChannelId ms' = baseChannelId ms + zlen defs).
  { unfold ms', server_mcs. cbv zeta. rewrite He. case_if; [done|]. cbn. lia. }
  split; [done|]. unfold client_mcs. cbv zeta. rewrite E. replace (_ =? 0) with false by lia. cbn. apply u16_id. lia.
Qed.
End channel_agreement.

Lemma client_data_small mc c name product defs mons :
  client_side mc c name product defs mons -> zlen (enc_blocks (client_data mc c name product defs mons)) < 2000.
Proof.
  intros Hc. destruct (cs_defs _ _ _ _ _ _ Hc) as (Hd & Hmax). unfold CHANNEL_MAX_COUNT in *.
  destruct (cs_monitors _ _ _ _ _ _ Hc) as (_ & _ & H16).
  destruct (cs_name _ _ _ _ _ _ Hc) as (_ & _ & Hn). destruct (cs_product _ _ _ _ _ _ Hc) as (_ & _ & Hp).
  unfold client_data. rewrite !enc_blocks_app, !zlen_app. unfold enc_blocks at 1. cbn [map concat fst snd].
  rewrite !zlen_app, !zlen_enc_block, zlen_core_body by done. change (zlen []) with 0. change (zlen (cluster_body c)) with 8.
  replace (zlen (security_body c)) with 8 by (unfold security_body; by case_if).
  assert (H1 : zlen (enc_blocks (if 0 <? zlen defs then [(CS_NET, net_body defs)] else [])) <= 400).
  { case_if; [|done]. rewrite enc_blocks_one, zlen_enc_block. unfold net_body. rewrite zlen_app, zlen_enc_defs by done. change (zlen (le32 _)) with 4. lia. }
  assert (H2 : zlen (enc_blocks (monitor_blocks c mons)) <= 700).
  { unfold monitor_blocks. destruct (multimon c && (1 <? zlen mons)) eqn:E; [|done]. apply andb_true_iff in E as [_ E].
    destruct (HasMonitorAttributes c); unfold enc_blocks; cbn [map concat fst snd];
      rewrite !zlen_app, !zlen_enc_block, ?zlen_monitor_body, ?zlen_attribute_body; change (zlen []) with 0; lia. }
  assert (H3 : zlen (enc_blocks (if extended c then [(CS_MCS_MSGCHANNEL, le32 (mcs_flags mc)); (CS_MULTITRANSPORT, le32 (MultitransportFlags c))] else [])) <= 16).
  { by destruct (extended c). }
  lia.
Qed.

Lemma server_data_small m s l : zlen l <= CHANNEL_MAX_COUNT -> zlen (enc_blocks (server_data m s l)) < 200.
Proof.
  intros Hl. unfold CHANNEL_MAX_COUNT in *. unfold server_data. rewrite !enc_blocks_app, !zlen_app. unfold enc_blocks at 1. cbn [map concat fst snd].
  rewrite !zlen_app, !zlen_enc_block. change (zlen []) with 0. change (zlen (server_core_body s)) with 12. change (zlen server_security_body) with 8.
  unfold server_net_body. rewrite !zlen_app, zlen_enc_ids. repeat change (zlen (le16 _)) with 2.
  assert (H1 : zlen (id_pad l) <= 2) by (unfold id_pad; by case_if).
  assert (H2 : zlen (enc_blocks (if messageChannelId m =? 0 then [] else [(SC_MCS_MSGCHANNEL, le16 (messageChannelId m))])) <= 6) by (by case_if).
  assert (H3 : zlen (enc_blocks (if tells_multitransport s then [(SC_MULTITRANSPORT, le32 (MultitransportFlags s))] else [])) <= 8) by (by case_if).
  lia.
Qed.

(** ** The exchange *)

Lemma emits_all_bytes `{Malloc} wr bs : emits_all wr bs -> Forall is_byte bs.
Proof. by intros (need & _ & []). Qed.

(** What both sides know afterwards: the channels of the client, in its order, with its names and options
    and the same consecutive ids from [base] on; the same message channel; the smaller of the two protocol
    versions; and a capability that both flag fields carry exactly when both sides had it. *)
Record agreed (base : Z) (defs : list rdpMcsChannel) (c s : rdpSettings) (ms' mc' : rdpMcs) (s' c' : rdpSettings) : Prop := {
  ag_count : channelCount ms' = zlen defs /\ channelCount mc' = zlen defs;
  ag_channels : forall i d, defs !! i = Some d -> let id := base + Z.of_nat i in
    exists cs cc, channels ms' !! i = Some cs /\ channels mc' !! i = Some cc /\
      Name cs = Name d /\ Name cc = Name d /\ options cs = options d /\ options cc = options d /\ ChannelId cs = id /\ ChannelId cc = id;
  ag_message : extended c = true -> messageChannelId ms' = base + zlen defs /\ messageChannelId mc' = messageChannelId ms';
  ag_version : RdpVersion s' = Z.min (RdpVersion c) (RdpVersion s) /\ RdpVersion c' = RdpVersion s';
  ag_skip : SupportSkipChannelJoin s' = SupportSkipChannelJoin s && SupportSkipChannelJoin c /\
    SupportSkipChannelJoin c' = SupportSkipChannelJoin s';
  ag_dst : SupportDynamicTimeZone s' = SupportDynamicTimeZone s && SupportDynamicTimeZone c /\
    SupportDynamicTimeZone c' = SupportDynamicTimeZone s'
}.

Section exchange.
Context `{HM : Malloc} `{HC : ServerCrypto} (Hmem : forall n, 0 <= n <= 2 ^ 20 -> malloc_ok n = true).
Context (mc ms : rdpMcs) (c s : rdpSettings) (name product : list Z) (defs : list rdpMcsChannel) (mons : list rdpMonitor).
Context (Hc : client_side mc c name product defs mons) (Hmc : mcs_wf mc) (Hs : server_side ms s c defs).
Context (Hvc : is_u32 (RdpVersion c)) (Hvs : is_u32 (RdpVersion s)) (Hb0 : 0 < baseChannelId ms).
Context (Hrdp : UseRdpSecurityLayer s = false) (Hmeth : EncryptionMethods s = ENCRYPTION_METHOD_NONE)
  (Hlev : EncryptionLevel s = ENCRYPTION_LEVEL_NONE).

Abbreviation ms1 := (server_mcs mc c defs ms).
Abbreviation s1 := (server_settings c name product mons s).
Abbreviation ids := (ztake (zlen defs) (channels (server_mcs mc c defs ms))).

Lemma exchange_ids : channelCount ms1 = zlen defs /\ zlen ids = zlen defs /\ channels ms1 = ids ++ zdrop (zlen defs) (channels ms1).
Proof using Hc Hs.
  destruct (ss_mcs _ _ _ _ Hs) as [Hms Hzero]. destruct (cs_defs _ _ _ _ _ _ Hc) as (Hd & Hmax).
  destruct (server_list mc ms c defs Hms Hzero Hmax) as [Hl1 Hl2].
  split_and!; [apply (server_channels mc ms c defs Hzero)|done|done].
Qed.

Lemma exchange_response : emits_all (write_server_data ms1 s1) (enc_blocks (server_data ms1 s1 ids)).
Proof using Hmem Hc Hs Hrdp Hmeth Hlev.
  clear Hvc Hvs Hb0 Hmc. destruct exchange_ids as (Hn1 & Hl1 & Hl2). destruct (cs_defs _ _ _ _ _ _ Hc) as (Hd & Hmax).
  eapply server_data_emits; [apply Hmem; lia|exact Hl2|lia|lia|by rewrite server_methods|by rewrite server_level].
Qed.

Lemma exchange_response_read :
  reads_blocks read_server_block (server_data ms1 s1 ids) (mc, c) (client_mcs ms1 ids mc, client_settings s1 c).
Proof using Hc Hmc Hs.
  clear Hrdp Hmeth Hlev. destruct exchange_ids as (_ & Hl1 & _). destruct (cs_defs _ _ _ _ _ _ Hc) as (Hd & Hmax).
  destruct (cs_channels _ _ _ _ _ _ Hc) as (Hcn & _). apply server_data_read; [done|lia|lia].
Qed.

Lemma exchange_agreed : agreed (baseChannelId ms) defs c s ms1 (client_mcs ms1 ids mc) s1 (client_settings s1 c).
Proof using All.
  destruct exchange_ids as (Hn1 & Hl1 & Hl2). destruct (ss_mcs _ _ _ _ Hs) as [Hms Hzero]. pose proof (ss_ids _ _ _ _ Hs) as Hids.
  destruct (cs_defs _ _ _ _ _ _ Hc) as (Hd & Hmax). destruct (cs_channels _ _ _ _ _ _ Hc) as (Hcn & rest & Hch).
  pose proof (server_version c s name product mons) as Hv. rewrite (u32_id (RdpVersion c)) in Hv by apply Hvc.
  assert (Hc' : forall x, RdpVersion (client_settings x c) = Z.min (u32 (RdpVersion x)) (RdpVersion c) /\
    SupportSkipChannelJoin (client_settings x c) = SupportSkipChannelJoin c && SupportSkipChannelJoin x /\
    SupportDynamicTimeZone (client_settings x c) = SupportDynamicTimeZone c && SupportDynamicTimeZone x).
  { intros x. unfold client_settings. cbv zeta. case_if; done. }
  destruct (Hc' s1) as (Ev & Ek & Et). unfold is_u32 in *. constructor.
  - split; [exact Hn1|]. transitivity (zlen ids); [|exact Hl1]. unfold client_mcs. cbv zeta. by destruct (_ =? 0).
  - intros i d Hi. by eapply channel_agreed.
  - intros He. destruct (message_agreed mc ms c defs Hms Hids He Hb0) as [E1 E2]. split; [exact E1|]. exact (eq_trans E2 (eq_sym E1)).
  - split; [exact Hv|]. rewrite Ev, Hv, u32_id by lia. lia.
  - split; [apply server_skip|]. rewrite Ek, server_skip. by destruct (SupportSkipChannelJoin c), (SupportSkipChannelJoin s).
  - split; [apply server_dst|]. rewrite Et, server_dst. by destruct (SupportDynamicTimeZone c), (SupportDynamicTimeZone s).
Qed.
End exchange.

(** C17: a client writes its user data into a conference create request, the server reads it, writes its own
    into a response, and the client reads that.  Both writers store a fixed sequence of bytes, whatever room
    their stream has (or an allocation was refused); both readers accept it.  Afterwards both sides agree on
    the channels and their ids, the message channel, the protocol version and the capabilities.  This is for
    a server without RDP encryption, whose response carries no certificate, and strings that fit their
    fields. *)
Theorem gcc_exchange `{HM : Malloc} `{HC : ServerCrypto} (mc ms : rdpMcs) (c s : rdpSettings)
    (name product : list Z) (defs : list rdpMcsChannel) (mons : list rdpMonitor) :
  (forall n, 0 <= n <= 2 ^ 20 -> malloc_ok n = true) ->
  client_side mc c name product defs mons -> mcs_wf mc -> server_side ms s c defs ->
  is_u32 (RdpVersion c) -> is_u32 (RdpVersion s) -> 0 < baseChannelId ms ->
  UseRdpSecurityLayer s = false -> EncryptionMethods s = ENCRYPTION_METHOD_NONE -> EncryptionLevel s = ENCRYPTION_LEVEL_NONE ->
  exists request ms' s' response mc' c',
    emits_all (gcc_write_client_data_blocks mc c) request /\
    emits_all (gcc_write_conference_create_request request) (enc_request request) /\
    eats gcc_read_conference_create_request (ms, s) (enc_request request) true (ms', s') /\
    emits_all (write_server_data ms' s') response /\
    emits_all (gcc_write_conference_create_response response) (enc_response response) /\
    eats gcc_read_conference_create_response (mc, c) (enc_response response) true (mc', c') /\
    agreed (baseChannelId ms) defs c s ms' mc' s' c'.
Proof.
  intros Hmem Hc Hmc Hs Hvc Hvs Hb0 Hrdp Hmeth Hlev. destruct (cs_defs _ _ _ _ _ _ Hc) as (Hd & Hmax).
  destruct (exchange_ids mc ms c s name product defs mons Hc Hs) as (Hn1 & Hl1 & Hl2).
  pose proof (client_data_emits Hmem _ _ _ _ _ _ Hc) as Hw1. pose proof (client_data_small _ _ _ _ _ _ Hc) as Hsz1.
  pose proof (exchange_response Hmem mc ms c s name product defs mons Hc Hs Hrdp Hmeth Hlev) as Hw2.
  pose proof (server_data_small (server_mcs mc c defs ms) (server_settings c name product mons s)
    (ztake (zlen defs) (channels (server_mcs mc c defs ms))) ltac:(lia)) as Hsz2.
  eexists _, _, _, _, _, _.
  split_and!; [exact Hw1|apply request_emits; [by eapply emits_all_bytes|lia]| |exact Hw2|apply response_emits; [by eapply emits_all_bytes|lia]|..].
  - apply request_eats; [lia|]. by eapply client_data_eats.
  - apply response_eats; [lia|]. by eapply exchange_response_read.
  - by eapply exchange_agreed.
Qed.

(** A client with the channel "rdpdr". *)
Definition sample_def : rdpMcsChannel := mkMcsChannel [114; 100; 112; 100; 114; 0; 0; 0] 0x80800000 0 false.
Definition sample_client_mcs : rdpMcs := sample_mcs <| channelCount := 1 |> <| channels := sample_def :: zrep 30 blank_channel |>.

Lemma sample_client_side :
  client_side sample_client_mcs (sample_settings false) [104; 111; 115; 116] [] [sample_def] [blank_monitor].
Proof.
  split; try done.
  - split_and!; [by left|by repeat constructor|done].
  - split_and!; [by right|constructor|done].
  - split; [|done]. constructor; [|constructor]. split; [|done]. split_and!; [done|by repeat constructor|done|done].
  - split; [done|]. by exists (zrep 30 blank_channel).
  - split_and!; [done|by exists (zrep 15 blank_monitor)|done].
Qed.

Lemma sample_client_wf : mcs_wf sample_client_mcs.
Proof.
  constructor; try done. apply Forall_cons. split; [split_and!; [done|by repeat constructor|done|done]|].
  apply Forall_zrep. split_and!; [done|by repeat constructor|done|done].
Qed.

Lemma sample_server_side : server_side sample_mcs (sample_settings true) (sample_settings false) [sample_def].
Proof. split; [split; [exact sample_mcs_wf|done]|done|done|done]. Qed.

Lemma gcc_exchange_witness :
  exists request ms' s', emits_all (H := malloc_all) (@gcc_write_client_data_blocks malloc_all sample_client_mcs (sample_settings false)) request /\
    eats (@gcc_read_conference_create_request malloc_all) (sample_mcs, sample_settings true) (enc_request request) true (ms', s') /\
    channelCount ms' = 1 /\ SupportSkipChannelJoin s' = true.
Proof.
  destruct (@gcc_exchange malloc_all no_crypto sample_client_mcs sample_mcs (sample_settings false) (sample_settings true)
    [104; 111; 115; 116] [] [sample_def] [blank_monitor]) as (request & ms' & s' & response & mc' & c' & H1 & _ & H2 & _ & _ & _ & [[H3 _] _ _ _ [H4 _] _]).
  - intros n Hn. change ((n <? 2 ^ 63) = true). lia.
  - exact sample_client_side.
  - exact sample_client_wf.
  - exact sample_server_side.
  - vm_compute. split; [discriminate|reflexivity].
  - vm_compute. split; [discriminate|reflexivity].
  - reflexivity.
  - reflexivity.
  - reflexivity.
  - reflexivity.
  - exists request, ms', s'. split; [exact H1|]. split; [exact H2|]. split; [exact H3|exact H4].
Defined.
