(* ===== verification/McsConnect.v ===== *)
(** * Connecting to an MCS domain: [libfreerdp/core/mcs.c]

    The connect initial and connect response PDUs: BER around the domain parameters and the GCC user
    data, in a TPKT.  The receivers work on the MCS object and the settings; the senders on these and
    the transport. *)

From S2P Require Import Prelude Memory Stream Per Ber Framing Readers Transport Mcs Gcc.

(** ** Channels of the client *)

(** One round of the loop of [mcs_initialize_client_channels]: seven characters of the name are copied
    into an array that was zeroed; a missing definition fails an assertion. *)
Fixpoint copy_channel_defs (n : nat) (defs : list (list Z * Z)) : outcome (list rdpMcsChannel) :=
  match n with
  | O => Ret []
  | S n =>
      match defs with
      | [] => Abort
      | (name, opts) :: defs =>
          match copy_channel_defs n defs with
          | Ret l => Ret ((blank_channel <| Name := ztake CHANNEL_NAME_LEN name ++ [0] |> <| options := opts |>) :: l)
          | Abort => Abort
          | Hang => Hang
          end
      end
  end.

Definition mcs_initialize_client_channels (m : rdpMcs) (s : rdpSettings) : outcome rdpMcs :=
  let count := if channelMaxCount m <? ChannelCount s then channelMaxCount m else ChannelCount s in
  match copy_channel_defs (Z.to_nat count) (ChannelDefArray s) with
  | Ret l => Ret (m <| channelCount := count |> <| channels := l ++ zrep (channelMaxCount m - count) blank_channel |>)
  | Abort => Abort
  | Hang => Hang
  end.

(** The channels the server has learned are put into its settings; [freerdp_settings_set_pointer_array]
    fails behind the end of the array. *)
Fixpoint apply_channels (n : nat) (i : Z) (cs : list rdpMcsChannel) (s : rdpSettings) : outcome (bool * rdpSettings) :=
  match n with
  | O => Ret (true, s)
  | S n =>
      match cs with
      | [] => Abort
      | c :: cs =>
          if zlen (ChannelDefArray s) <=? i then Ret (false, s)
          else
            match array_set i (fun _ => (Name c, options c)) (ChannelDefArray s) with
            | Ret l => apply_channels n (i + 1) cs (s <| ChannelDefArray := l |>)
            | Abort => Abort
            | Hang => Hang
            end
      end
  end.

Definition mcs_server_apply_to_settings (m : rdpMcs) (s : rdpSettings) : outcome (bool * rdpSettings) :=
  apply_channels (Z.to_nat (channelCount m)) 0 (channels m) (s <| ChannelCount := channelCount m |>).

(** ** Receiving *)

(** [mcs_read_domain_parameters (s, &mcs->...)] *)
Definition read_parameters (get : rdpMcs -> DomainParameters) (put : DomainParameters -> rdpMcs -> rdpMcs) : Prog gstate bool :=
  fun p =>
    match mcs_read_domain_parameters (get p.1.1, p.2) with
    | Ret (ok, (d, s)) => Ret (ok, ((put d p.1.1, p.1.2), s))
    | Abort => Abort
    | Hang => Hang
    end.

Definition read_target : Prog gstate bool := read_parameters targetParameters (fun d m => m <| targetParameters := d |>).
Definition read_minimum : Prog gstate bool := read_parameters minimumParameters (fun d m => m <| minimumParameters := d |>).
Definition read_maximum : Prog gstate bool := read_parameters maximumParameters (fun d m => m <| maximumParameters := d |>).
Definition read_domain : Prog gstate bool := read_parameters domainParameters (fun d m => m <| domainParameters := d |>).

Section receiving.
Context `{HM : Malloc} `{HC : ServerCrypto}.

Definition mcs_recv_connect_initial : Prog gstate bool :=
  needs (at_s tpkt_read_header) (fun tlength =>
  needs (at_s (tpdu_read_data tlength)) (fun _ =>
  needs (at_s (ber_read_application_tag MCS_TYPE_CONNECT_INITIAL)) (fun _ =>
  needs (at_s ber_read_octet_string_tag) (fun length =>
  require (at_s (Stream_CheckAndLogRequiredLength length)) (
  at_s (Stream_Seek length) ;;
  needs (at_s ber_read_octet_string_tag) (fun length =>
  require (at_s (Stream_CheckAndLogRequiredLength length)) (
  at_s (Stream_Seek length) ;;
  needs (at_s ber_read_BOOL) (fun _ =>
  require read_target (
  require read_minimum (
  require read_maximum (
  needs (at_s ber_read_octet_string_tag) (fun length =>
  require (at_s (Stream_CheckAndLogRequiredLength length)) (
  require gcc_read_conference_create_request (
  m <- the_mcs ;;
  let '(ok, d) := mcs_merge_domain_parameters (targetParameters m) (minimumParameters m) (maximumParameters m) (domainParameters m) in
  upd_mcs (fun m => m <| domainParameters := d |>) ;;
  if negb ok then pret false else at_s (tpkt_ensure_stream_consumed tlength))))))))))))))).

Definition mcs_recv_connect_response : Prog gstate bool :=
  needs (at_s tpkt_read_header) (fun tlength =>
  needs (at_s (tpdu_read_data tlength)) (fun _ =>
  needs (at_s (ber_read_application_tag MCS_TYPE_CONNECT_RESPONSE)) (fun _ =>
  needs (at_s (ber_read_enumerated MCS_Result_enum_length)) (fun _ =>
  needs (at_s (ber_read_integer true)) (fun _ =>
  require read_domain (
  needs (at_s ber_read_octet_string_tag) (fun _ =>
  require gcc_read_conference_create_response (
  at_s (tpkt_ensure_stream_consumed tlength))))))))).
End receiving.

(** ** Writing *)

Definition callingDomainSelector : list Z := [1].
Definition calledDomainSelector : list Z := [1].

Section writing.
Context `{HM : Malloc} `{HF : FreshMemory}.

(** The body is assembled in a stream of its own, [wr], behind the tag of the PDU. *)
Definition write_connect_pdu (tag : Z) (wr : Prog wStream bool) : Prog wStream bool :=
  s <- pget ;;
  match Stream_New None (fresh (Stream_Capacity s)) (Stream_Capacity s) with
  | None => pret false
  | Some tmps =>
      r <- on_new tmps wr ;;
      let '(ok, tmps) := r in
      if negb ok then pret false else
      pos <- on_new tmps Stream_GetPosition ;;
      let length := pos.1 in
      ber_write_application_tag tag length ;;
      Stream_Write (ztake length (buffer tmps)) ;;
      pret true
  end.

(** [userData] are the bytes in front of the cursor of that stream. *)
Definition mcs_write_connect_initial (m : rdpMcs) (userData : list Z) : Prog wStream bool :=
  write_connect_pdu MCS_TYPE_CONNECT_INITIAL (
    ber_write_octet_string callingDomainSelector ;;
    ber_write_octet_string calledDomainSelector ;;
    ber_write_BOOL true ;;
    require (mcs_write_domain_parameters (targetParameters m)) (
    require (mcs_write_domain_parameters (minimumParameters m)) (
    require (mcs_write_domain_parameters (maximumParameters m)) (
    ber_write_octet_string userData ;; pret true)))).

Definition mcs_write_connect_response (m : rdpMcs) (userData : list Z) : Prog wStream bool :=
  write_connect_pdu MCS_TYPE_CONNECT_RESPONSE (
    ber_write_enumerated 0 MCS_Result_enum_length ;;
    ber_write_integer 0 ;;
    require (mcs_write_domain_parameters (domainParameters m)) (
    ber_write_octet_string userData ;; pret true)).

(** Seven bytes are left free for the headers, which are written when the length is known. *)
Definition write_packet (wr : Prog wStream bool) : Prog wStream bool :=
  bm <- Stream_GetPosition ;;
  Stream_Seek 7 ;;
  require wr (
  em <- Stream_GetPosition ;;
  let length := u64 (em - bm) in
  if UINT16_MAX <? length then pret false else
  Stream_SetPosition bm ;;
  require (tpkt_write_header (u16 length)) (
  require tpdu_write_data (
  Stream_SetPosition em ;;
  Stream_SealLength ;;
  pret true))).
End writing.

(** ** Sending *)

Section sending.
Context {W : Type} `{HB : !FrontBio W} `{HP : !StreamPools W} `{HM : Malloc} `{HF : FreshMemory} `{HC : ServerCrypto}.
Variable fuel : nat.

(** The object, the settings of its context and [mcs->transport]. *)
Abbreviation gt := (gobj * rdpTransport W)%type.

(** [s = Stream_New (NULL, size)] and what is written to it: the bytes in front of the cursor and the
    capacity, with the result of the writer. *)
Definition with_new {A B} (size : Z) (failed : B) (wr : Prog wStream A) (k : A -> list Z -> Z -> Prog gt B) : Prog gt B :=
  match Stream_New None (fresh size) size with
  | None => pret failed
  | Some s => r <- on_new s wr ;; k r.1 (ztake (pointer r.2) (buffer r.2)) (Stream_Capacity r.2)
  end.

Definition mcs_send_connect_initial : Prog gt bool :=
  p <- pget ;;
  m <- plift (mcs_initialize_client_channels p.1.1 p.1.2) ;;
  upd_obj (fun o => (m, o.2)) ;;
  with_new 512 false (gcc_write_client_data_blocks m p.1.2) (fun ok client_data _ =>
  if negb ok then pret false else
  with_new 1024 false (gcc_write_conference_create_request client_data) (fun ok gcc_CCrq _ =>
  if negb ok then pret false else
  send_new fuel (1024 + (zlen gcc_CCrq + 7)) (pret (write_packet (mcs_write_connect_initial m gcc_CCrq))))).

Definition mcs_send_connect_response : Prog gt bool :=
  p <- pget ;;
  let m := p.1.1 in
  with_new 512 false (gcc_write_server_data_blocks m p.1.2) (fun r server_data capacity =>
  upd_obj (fun o => (o.1, r.2)) ;;
  if negb r.1 then pret false else
  with_new (512 + capacity) false (gcc_write_conference_create_response server_data) (fun ok gcc_CCrsp _ =>
  if negb ok then pret false else
  send_new fuel (zlen gcc_CCrsp + 7 + 1024) (pret (write_packet (mcs_write_connect_response m gcc_CCrsp))))).

(** The last error of the context is not modelled. *)
Definition mcs_client_begin : Prog gt bool := mcs_send_connect_initial.
End sending.
