(* ===== verification/McsConnectPdu.v ===== *)
(** * Connecting to an MCS domain: what is sent is received

    The domain parameters and what the server makes of them, the encodings of the connect initial and
    connect response PDUs, the safety of their receivers, and the connection of a client to a server. *)

From S2P Require Import Prelude Memory Stream Per Ber Framing Readers Transport TransportWrite Mcs McsPdu Gcc GccSafe GccPdu GccExchange McsConnect.

(** ** Encodings *)

Definition params (d : DomainParameters) : list Z :=
  [maxChannelIds d; maxUserIds d; maxTokenIds d; numPriorities d; minThroughput d; maxHeight d; maxMCSPDUsize d; protocolVersion d].
Definition params_wf (d : DomainParameters) : Prop := Forall is_u32 (params d).

Definition params_body (d : DomainParameters) : list Z := concat (map enc_ber_integer (params d)).
Definition enc_params (d : DomainParameters) : list Z := (48 :: enc_ber_length (zlen (params_body d))) ++ params_body d.

Definition initial_body (m : rdpMcs) (data : list Z) : list Z :=
  enc_ber_octets callingDomainSelector ++ enc_ber_octets calledDomainSelector ++ [1; 1; 255] ++
  enc_params (targetParameters m) ++ enc_params (minimumParameters m) ++ enc_params (maximumParameters m) ++ enc_ber_octets data.
Definition response_body (m : rdpMcs) (data : list Z) : list Z :=
  [10; 1; 0] ++ enc_ber_integer 0 ++ enc_params (domainParameters m) ++ enc_ber_octets data.
Definition connect_pdu (tag : Z) (body : list Z) : list Z := enc_ber_app_tag tag (zlen body) ++ body.
Definition data_packet (p : list Z) : list Z := enc_tpkt (7 + zlen p) ++ enc_tpdu 2 X224_TPDU_DATA ++ p.

Definition connect_initial (m : rdpMcs) (data : list Z) : list Z := data_packet (connect_pdu MCS_TYPE_CONNECT_INITIAL (initial_body m data)).
Definition connect_response (m : rdpMcs) (data : list Z) : list Z := data_packet (connect_pdu MCS_TYPE_CONNECT_RESPONSE (response_body m data)).

Lemma zlen_enc_integer v : is_u32 v -> 0 <= zlen (enc_ber_integer v) <= 6.
Proof.
  intros Hv. destruct (ber_write_integer_emits v) as [_ ->]; [unfold is_u32, UINT32_MAX in *; lia|].
  unfold ber_sizeof_integer. repeat case_if; lia.
Qed.

Lemma zlen_params_body d : params_wf d -> 0 <= zlen (params_body d) <= 48.
Proof.
  unfold params_wf, params_body. intros H. change 48 with (6 * zlen (params d)).
  induction H as [|v l Hv Hl IH]; cbn [map concat]; [done|]. rewrite zlen_app, zlen_cons.
  pose proof (zlen_enc_integer v Hv). lia.
Qed.

Lemma zlen_enc_params d : params_wf d -> 0 <= zlen (enc_params d) <= 52.
Proof.
  intros Hd. pose proof (zlen_params_body d Hd). unfold enc_params. rewrite zlen_app, zlen_cons, zlen_enc_ber_length.
  unfold _ber_sizeof_length. repeat case_if; lia.
Qed.

Lemma zlen_data_packet p : zlen (data_packet p) = 7 + zlen p.
Proof. unfold data_packet. rewrite !zlen_app, zlen_enc_tpkt, zlen_enc_data. lia. Qed.

(** ** Writers *)

Section writers.
Context `{HM : Malloc} `{HF : FreshMemory} `{HY : !ByteMemory}.

(** With enough room the bytes are stored; only the memory of another stream can be missing. *)
Definition tries (wr : Prog wStream bool) (bs : list Z) : Prop :=
  Forall is_byte bs /\
  forall s, stream_ok s -> zlen bs <= room s -> capacity s <= 65536 ->
  exists b s', wr s = Ret (b, s') /\ if b : bool then s' = put_bytes s bs else out_of_memory.

Lemma tries_emits wr bs : emits_ret wr true bs -> tries wr bs.
Proof. intros [Hb Hw]. split; [done|]. intros s Hs Hr _. exists true. eexists. split; [by apply Hw|done]. Qed.

Lemma tries_bind {A} (m : Prog wStream A) (k : A -> Prog wStream bool) a x y :
  emits_ret m a x -> tries (k a) y -> tries (pbind m k) (x ++ y).
Proof.
  intros [Hx Hm] [Hy Hk]. split; [by apply Forall_app|]. intros s Hs Hfit Hcap. rewrite zlen_app in Hfit. pose proof (zlen_nonneg y).
  rewrite (pbind_ret _ _ _ _ _ (Hm s Hs ltac:(lia))).
  destruct (Hk (put_bytes s x)) as (b & s' & E & Hb); [apply put_bytes_ok; done || lia|rewrite room_put_bytes; lia|done|].
  exists b, s'. split; [done|]. destruct b; [|done]. by rewrite Hb, put_bytes_app by (done || lia).
Qed.

Lemma tries_require (m k : Prog wStream bool) x y : tries m x -> tries k y -> tries (require m k) (x ++ y).
Proof.
  intros [Hx Hm] [Hy Hk]. split; [by apply Forall_app|]. intros s Hs Hfit Hcap. rewrite zlen_app in Hfit. pose proof (zlen_nonneg y).
  unfold require. destruct (Hm s Hs ltac:(lia) Hcap) as (b & s1 & E1 & Hb1). rewrite (pbind_ret _ _ _ _ _ E1).
  destruct b; cbn [negb]; [|by exists false, s1]. subst s1.
  destruct (Hk (put_bytes s x)) as (b & s' & E & Hb); [apply put_bytes_ok; done || lia|rewrite room_put_bytes; lia|done|].
  exists b, s'. split; [done|]. destruct b; [|done]. by rewrite Hb, put_bytes_app by (done || lia).
Qed.

(** A writer that ends with the position. *)
Definition measures (wr : Prog wStream Z) (bs : list Z) : Prop :=
  Forall is_byte bs /\ forall s, stream_ok s -> zlen bs <= room s -> wr s = Ret (pointer s + zlen bs, put_bytes s bs).

Lemma measures_end : measures Stream_GetPosition [].
Proof. split; [done|]. intros s Hs _. by rewrite position_spec, put_bytes_nil, Z.add_0_r by done. Qed.

Lemma measures_bind {A} (m : Prog wStream A) (k : A -> Prog wStream Z) a x y :
  emits_ret m a x -> measures (k a) y -> measures (pbind m k) (x ++ y).
Proof.
  intros [Hx Hm] [Hy Hk]. split; [by apply Forall_app|]. intros s Hs Hfit. rewrite zlen_app in Hfit. pose proof (zlen_nonneg y).
  rewrite (pbind_ret _ _ _ _ _ (Hm s Hs ltac:(lia))), Hk, put_bytes_app, zlen_app; try done; try lia.
  - cbn. do 2 f_equal. lia.
  - apply put_bytes_ok; done || lia.
  - rewrite room_put_bytes. lia.
Qed.

(** A stream as large as [s], for what is written into [s] afterwards. *)
Lemma second_stream s :
  stream_ok s -> 0 < capacity s <= 65536 ->
  match Stream_New None (fresh (Stream_Capacity s)) (Stream_Capacity s) with
  | Some t => stream_ok t /\ pointer t = 0 /\ capacity t = capacity s
  | None => out_of_memory
  end.
Proof.
  intros Hs Hc. unfold Stream_Capacity. destruct (Stream_New _ _ _) as [t|] eqn:E.
  - by destruct (stream_new_spec (capacity s) _ ltac:(lia) E) as ((? & _) & ? & ?).
  - eapply refused_le; [apply (stream_new_refused (capacity s)); [lia|done]|lia].
Qed.

Lemma integer_emits v : is_u32 v -> emits_ret (ber_write_integer v) (ber_sizeof_integer v) (enc_ber_integer v).
Proof. intros Hv. apply ber_write_integer_emits. unfold is_u32, UINT32_MAX in *. lia. Qed.

Lemma body_measures d :
  params_wf d ->
  measures (ber_write_integer (maxChannelIds d) ;; ber_write_integer (maxUserIds d) ;; ber_write_integer (maxTokenIds d) ;;
    ber_write_integer (numPriorities d) ;; ber_write_integer (minThroughput d) ;; ber_write_integer (maxHeight d) ;;
    ber_write_integer (maxMCSPDUsize d) ;; ber_write_integer (protocolVersion d) ;; Stream_GetPosition) (params_body d).
Proof.
  unfold params_wf, params. rewrite !Forall_cons. intros (H1 & H2 & H3 & H4 & H5 & H6 & H7 & H8 & _).
  unfold params_body, params. cbn [map concat].
  repeat (eapply measures_bind; [by apply integer_emits|]). apply measures_end.
Qed.

Lemma domain_parameters_tries d : params_wf d -> tries (mcs_write_domain_parameters d) (enc_params d).
Proof.
  intros Hd. pose proof (zlen_params_body d Hd) as Hz. destruct (body_measures d Hd) as [Hb Hrun].
  destruct (sequence_tag_emits (zlen (params_body d)) ltac:(unfold UINT16_MAX; lia)) as [Hseq Eseq].
  destruct (emits_bytes _ Hb) as [_ Ebody].
  split; [by apply Forall_app|]. intros s Hs Hfit Hcap. unfold enc_params in Hfit. rewrite zlen_app in Hfit.
  pose proof (zlen_nonneg (48 :: enc_ber_length (zlen (params_body d)))) as Hn. rewrite zlen_cons in Hn.
  pose proof (zlen_nonneg (enc_ber_length (zlen (params_body d)))). rewrite zlen_cons in Hfit.
  assert (Hcap0 : 0 < capacity s) by (destruct Hs; unfold room in Hfit; lia).
  unfold mcs_write_domain_parameters. rewrite pbind_pget. pose proof (second_stream s Hs ltac:(lia)) as Ht.
  destruct (Stream_New _ _ _) as [t|]; [|by exists false, s]. destruct Ht as (Ht & Hp & Hc).
  assert (Hfit2 : zlen (params_body d) <= room t) by (destruct Hs; unfold room in *; lia).
  unfold on_new, plift. unfold pbind at 1. rewrite (Hrun t Ht Hfit2). rewrite Hp, Z.add_0_l, put_new by (done || unfold room in Hfit2; lia).
  rewrite (pbind_ret _ _ _ _ _ (Eseq s Hs ltac:(rewrite zlen_cons; lia))).
  assert (Hs1 : stream_ok (put_bytes s (48 :: enc_ber_length (zlen (params_body d))))) by (apply put_bytes_ok; [done|rewrite zlen_cons; lia|done]).
  rewrite (pbind_ret _ _ _ _ _ (Ebody _ Hs1 ltac:(rewrite room_put_bytes, zlen_cons; lia))).
  exists true. eexists. split; [done|]. unfold enc_params. rewrite put_bytes_app by (done || rewrite zlen_cons; lia). done.
Qed.

Lemma connect_pdu_tries tag wr bs :
  is_byte tag -> zlen bs <= UINT16_MAX -> tries wr bs -> tries (write_connect_pdu tag wr) (connect_pdu tag bs).
Proof.
  intros Ht Hz [Hb Hw]. pose proof (zlen_nonneg bs). destruct (application_tag_emits tag (zlen bs) Ht ltac:(lia)) as [Htag Etag].
  destruct (emits_bytes _ Hb) as [_ Ebody]. pose proof (zlen_nonneg (enc_ber_app_tag tag (zlen bs))).
  split; [by apply Forall_app|]. intros s Hs Hfit Hcap. unfold connect_pdu in Hfit. rewrite zlen_app in Hfit.
  assert (Hcap0 : 0 < capacity s).
  { destruct Hs. unfold room, enc_ber_app_tag in *. destruct (30 <? tag); cbn [app] in Hfit; rewrite ?zlen_cons in Hfit;
      pose proof (zlen_nonneg (enc_ber_length (zlen bs))); lia. }
  unfold write_connect_pdu. rewrite pbind_pget. pose proof (second_stream s Hs ltac:(lia)) as Hnew.
  destruct (Stream_New _ _ _) as [t|]; [|by exists false, s]. destruct Hnew as (Hok & Hp & Hc).
  assert (Hfit2 : zlen bs <= room t) by (destruct Hs; unfold room in *; lia).
  destruct (Hw t Hok Hfit2 ltac:(lia)) as (b & t1 & E1 & Hb1).
  rewrite (pbind_ret _ _ _ (b, t1) s) by (unfold on_new, plift; by rewrite E1).
  destruct b; cbn [negb]; [|by exists false, s]. subst t1.
  pose proof (put_bytes_ok t bs Hok Hfit2 Hb) as Hok1.
  rewrite (pbind_ret _ _ _ (zlen bs, put_bytes t bs) s) by (unfold on_new, plift; rewrite (position_spec _ Hok1); cbn [pointer put_bytes set_pointer]; by rewrite Hp).
  cbn [fst]. rewrite put_new by (done || unfold room in Hfit2; lia).
  rewrite (pbind_ret _ _ _ _ _ (Etag s Hs ltac:(lia))).
  assert (Hs1 : stream_ok (put_bytes s (enc_ber_app_tag tag (zlen bs)))) by (apply put_bytes_ok; [done|lia|done]).
  rewrite (pbind_ret _ _ _ _ _ (Ebody _ Hs1 ltac:(rewrite room_put_bytes; lia))).
  exists true. eexists. split; [done|]. unfold connect_pdu. by rewrite put_bytes_app by (done || lia).
Qed.

Lemma octets_tries l : Forall is_byte l -> zlen l <= UINT16_MAX -> tries (ber_write_octet_string l ;; pret true) (enc_ber_octets l).
Proof. intros Hb Hl. apply tries_emits. eapply emits_final. by apply ber_octet_string_emits. Qed.

Definition all_params_wf (m : rdpMcs) : Prop :=
  params_wf (targetParameters m) /\ params_wf (minimumParameters m) /\ params_wf (maximumParameters m).

Lemma zlen_initial_body m data : all_params_wf m -> zlen data <= 60000 -> zlen (initial_body m data) <= zlen data + 200.
Proof.
  intros (H1 & H2 & H3) Hd. apply zlen_enc_params in H1, H2, H3. unfold initial_body. rewrite !zlen_app, !zlen_enc_ber_octets.
  unfold ber_sizeof_octet_string, _ber_sizeof_length. change (zlen callingDomainSelector) with 1. change (zlen calledDomainSelector) with 1.
  change (zlen [1; 1; 255]) with 3. repeat case_if; lia.
Qed.

Lemma zlen_connect_response_body m data : params_wf (domainParameters m) -> zlen data <= 60000 -> zlen (response_body m data) <= zlen data + 200.
Proof.
  intros H1 Hd. apply zlen_enc_params in H1. unfold response_body. rewrite !zlen_app, !zlen_enc_ber_octets.
  unfold ber_sizeof_octet_string, _ber_sizeof_length. change (zlen [10; 1; 0]) with 3. change (zlen (enc_ber_integer 0)) with 3.
  repeat case_if; lia.
Qed.

Lemma zlen_connect_pdu tag bs : zlen (connect_pdu tag bs) <= zlen bs + 5.
Proof.
  unfold connect_pdu, enc_ber_app_tag. rewrite !zlen_app, zlen_enc_ber_length. unfold _ber_sizeof_length.
  case_if; rewrite ?zlen_cons, ?zlen_nil; repeat case_if; lia.
Qed.

Lemma connect_initial_tries m data :
  all_params_wf m -> Forall is_byte data -> zlen data <= 60000 ->
  tries (mcs_write_connect_initial m data) (connect_pdu MCS_TYPE_CONNECT_INITIAL (initial_body m data)).
Proof.
  intros Hm Hd Hz. apply connect_pdu_tries; [unfold is_byte, MCS_TYPE_CONNECT_INITIAL; lia| |].
  { pose proof (zlen_initial_body m data Hm Hz). unfold UINT16_MAX. lia. }
  destruct Hm as (H1 & H2 & H3). unfold initial_body.
  eapply tries_bind; [apply ber_octet_string_emits; [by repeat constructor|done]|].
  eapply tries_bind; [apply ber_octet_string_emits; [by repeat constructor|done]|].
  eapply tries_bind; [apply (ber_BOOL_emits true)|].
  do 3 (apply tries_require; [by apply domain_parameters_tries|]). apply octets_tries; [done|unfold UINT16_MAX; lia].
Qed.

Lemma connect_response_tries m data :
  params_wf (domainParameters m) -> Forall is_byte data -> zlen data <= 60000 ->
  tries (mcs_write_connect_response m data) (connect_pdu MCS_TYPE_CONNECT_RESPONSE (response_body m data)).
Proof.
  intros H1 Hd Hz. apply connect_pdu_tries; [unfold is_byte, MCS_TYPE_CONNECT_RESPONSE; lia| |].
  { pose proof (zlen_connect_response_body m data H1 Hz). unfold UINT16_MAX. lia. }
  unfold response_body. eapply tries_bind; [apply ber_enumerated_emits; unfold is_byte; lia|].
  eapply tries_bind; [apply integer_emits; unfold is_u32; lia|].
  apply tries_require; [by apply domain_parameters_tries|]. apply octets_tries; [done|unfold UINT16_MAX; lia].
Qed.

(** The headers are stored in front of what is there already. *)
Lemma packet_fills wr bs : zlen bs <= 65528 -> tries wr bs -> fills (write_packet wr) (data_packet bs).
Proof.
  intros Hz [Hb Hw] s Hs Hp Hc. rewrite zlen_data_packet in Hc |- *. pose proof (zlen_nonneg bs). unfold write_packet.
  rewrite (pbind_ret _ _ _ _ _ (position_spec s Hs)), Hp.
  rewrite (pbind_ret _ _ _ _ _ (seek_run s 7 Hs ltac:(unfold room; lia))).
  assert (Hs7 : stream_ok (advance s 7)) by (destruct Hs; split; cbn; done || lia).
  assert (Hroom : room s = capacity s) by (unfold room; lia).
  assert (Hroom7 : room (advance s 7) = capacity s - 7) by (unfold room; cbn; lia).
  destruct (Hw (advance s 7) Hs7 ltac:(lia) ltac:(cbn; lia)) as (b & s1 & E1 & Hb1).
  unfold require at 1. rewrite (pbind_ret _ _ _ _ _ E1). destruct b; cbn [negb]; [|by exists false, s1]. subst s1.
  set (s1 := put_bytes (advance s 7) bs). assert (Hs1 : stream_ok s1) by (apply put_bytes_ok; done || lia).
  rewrite (pbind_ret _ _ _ _ _ (position_spec s1 Hs1)).
  replace (pointer s1) with (7 + zlen bs) by (cbn; lia). cbv zeta. rewrite Z.sub_0_r, u64_id by lia. unfold UINT16_MAX.
  replace (65535 <? 7 + zlen bs) with false by lia. rewrite u16_id by lia.
  assert (Hs0 : stream_ok (set_pointer 0 s1)) by (apply set_pointer_ok; [done|cbn; lia]).
  rewrite (pbind_ret _ _ _ _ _ (set_position_run s1 0 Hs1 ltac:(cbn; lia))).
  destruct (tpkt_write_header_emits (7 + zlen bs)) as [Hk1 Ek1]. destruct (tpdu_write_header_emits 2 X224_TPDU_DATA ltac:(unfold is_byte, X224_TPDU_DATA; lia)) as [Hk2 Ek2].
  assert (Hroom0 : room (set_pointer 0 s1) = capacity s) by (unfold room; cbn; lia).
  unfold require at 1. rewrite (pbind_ret _ _ _ _ _ (Ek1 _ Hs0 ltac:(rewrite zlen_enc_tpkt; lia))). cbn [negb].
  set (s2 := put_bytes (set_pointer 0 s1) (enc_tpkt (7 + zlen bs))).
  assert (Hs2 : stream_ok s2) by (apply put_bytes_ok; [done|rewrite zlen_enc_tpkt; lia|done]).
  unfold require. rewrite (pbind_ret _ _ _ _ _ (Ek2 _ Hs2 ltac:(unfold s2; rewrite room_put_bytes, zlen_enc_tpkt, zlen_enc_data; lia))). cbn [negb].
  unfold s2. rewrite put_bytes_app by (done || rewrite zlen_enc_tpkt, zlen_enc_data; lia).
  set (s3 := put_bytes (set_pointer 0 s1) (enc_tpkt (7 + zlen bs) ++ enc_tpdu 2 X224_TPDU_DATA)).
  assert (Hs3 : stream_ok s3) by (apply put_bytes_ok; [done|rewrite zlen_app, zlen_enc_tpkt, zlen_enc_data; lia|by apply Forall_app]).
  rewrite (pbind_ret _ _ _ _ _ (set_position_run s3 (7 + zlen bs) Hs3 ltac:(cbn; lia))).
  assert (Hz2 : zlen (enc_tpkt (7 + zlen bs) ++ enc_tpdu 2 X224_TPDU_DATA) = 7) by (by rewrite zlen_app, zlen_enc_tpkt, zlen_enc_data).
  pose proof (patch_spec s (enc_tpkt (7 + zlen bs) ++ enc_tpdu 2 X224_TPDU_DATA) bs Hs ltac:(lia)) as Hpatch.
  rewrite Hp, Hz2, Z.add_0_l in Hpatch. fold s1 in Hpatch. fold s3 in Hpatch. rewrite Hpatch, <- app_assoc. fold (data_packet bs).
  assert (Hs4 : stream_ok (put_bytes s (data_packet bs))).
  { apply put_bytes_ok; [done|rewrite zlen_data_packet; lia|]. unfold data_packet. rewrite !Forall_app. done. }
  rewrite (pbind_ret _ _ _ _ _ (seal_run _ Hs4)). exists true. eexists. split; [done|].
  pose proof (put_new s (data_packet bs) Hs Hp ltac:(rewrite zlen_data_packet; lia)) as Hnew. rewrite zlen_data_packet in Hnew.
  split_and!; [destruct Hs4; split; cbn in *; done || lia|change (pointer s + zlen (data_packet bs) = 7 + zlen bs); rewrite Hp, zlen_data_packet; lia|exact Hnew|done|done].
Qed.
End writers.

(** ** Readers *)

Lemma octet_tag_reads n : 0 <= n <= UINT16_MAX -> reads_back ber_read_octet_string_tag ([4] ++ enc_ber_length n) (Some n).
Proof.
  intros Hn s r Hr Hu. rewrite <- app_assoc in Hu. unfold ber_read_octet_string_tag.
  rd_sub (universal_tag_reads BER_TAG_OCTET_STRING false) Hr Hu. cbn [negb].
  rewrite (ber_read_length_enc n Hn _ r) by done. rd_done.
Qed.

Lemma param_eats set k d0 v bs ok d1 :
  is_u32 v -> eats k (set v d0) bs ok d1 -> eats (read_param set k) d0 (enc_ber_integer v ++ bs) ok d1.
Proof.
  intros Hv Hk. unfold read_param. eapply eats_bind; [apply eats_at_s, ber_read_integer_enc; unfold is_u32, UINT32_MAX in *; lia|].
  eapply (eats_then (upd_obj (set v))); [apply eats_upd|exact Hk].
Qed.

Lemma params_eats d0 d : params_wf d -> eats mcs_read_domain_parameters d0 (enc_params d) true d.
Proof.
  intros Hd. pose proof (zlen_params_body d Hd). unfold params_wf, params in Hd. rewrite !Forall_cons in Hd.
  destruct Hd as (H1 & H2 & H3 & H4 & H5 & H6 & H7 & H8 & _). unfold mcs_read_domain_parameters, enc_params.
  eapply eats_bind; [apply eats_at_s, sequence_tag_reads; unfold UINT16_MAX; lia|].
  unfold params_body, params. cbn [map concat]. repeat (apply param_eats; [done|]).
  eapply eq_ind; [apply eats_pret|]. by destruct d.
Qed.

Lemma read_parameters_eats get put d m c :
  params_wf d -> eats (read_parameters get put) (m, c) (enc_params d) true (put d m, c).
Proof.
  intros Hd s r Hr Hu. unfold read_parameters. cbn [fst snd]. by rewrite (params_eats (get m) d Hd s r Hr Hu).
Qed.

(** The packet is received, byte for byte. *)
Definition takes {S A} (rd : Prog (S * wStream) A) (x : S) (bs : list Z) (v : A) (x' : S) : Prop :=
  forall s, readable s -> unread s = bs -> rd (x, s) = Ret (v, (x', advance s (zlen bs))).

Section taking.
Context {S : Type}.
Implicit Types x : S.

Lemma takes_bind {A B} (m : Prog (S * wStream) A) (f : A -> Prog (S * wStream) B) x bs bs' u v x1 x2 :
  eats m x bs u x1 -> takes (f u) x1 bs' v x2 -> takes (pbind m f) x (bs ++ bs') v x2.
Proof.
  intros Hm Hf s Hr Hu. destruct (eats_step m f _ _ _ _ _ _ Hm Hr Hu) as (-> & Hr1 & Hu1).
  by rewrite (Hf _ Hr1 Hu1), advance_advance, zlen_app.
Qed.

Lemma takes_then {A B} (m : Prog (S * wStream) A) (f : A -> Prog (S * wStream) B) x bs u v x1 x2 :
  eats m x [] u x1 -> takes (f u) x1 bs v x2 -> takes (pbind m f) x bs v x2.
Proof. apply (takes_bind m f x [] bs). Qed.

Lemma takes_needs {A} (rd : Prog wStream (option A)) (f : A -> Prog (S * wStream) bool) x bs v bs' r x' :
  reads_back rd bs (Some v) -> takes (f v) x bs' r x' -> takes (needs (at_s rd) f) x (bs ++ bs') r x'.
Proof. intros Hm Hf. unfold needs. eapply takes_bind; [by apply eats_at_s|exact Hf]. Qed.

Lemma takes_require (rd k : Prog (S * wStream) bool) x bs bs' r x1 x' :
  eats rd x bs true x1 -> takes k x1 bs' r x' -> takes (require rd k) x (bs ++ bs') r x'.
Proof. intros Hm Hf. unfold require. eapply takes_bind; [exact Hm|exact Hf]. Qed.

Lemma takes_enough n k x bs r x' :
  n <= zlen bs -> takes k x bs r x' -> takes (require (at_s (Stream_CheckAndLogRequiredLength n)) k) x bs r x'.
Proof.
  intros Hn Hk s Hr Hu. unfold require. rewrite (pbind_ret _ _ _ _ _ (at_s_ret _ _ _ _ _ (check_length_spec s n Hr))).
  rewrite Hu. replace (n <=? _) with true by lia. cbn [negb]. by apply Hk.
Qed.

Lemma takes_consumed n x : n <= UINT16_MAX -> takes (at_s (tpkt_ensure_stream_consumed n)) x [] true x.
Proof. intros Hn s Hr Hu. rewrite (at_s_ret _ _ _ _ _ (consumed_back n s Hn Hr Hu)). by rewrite zlen_nil, advance_0. Qed.

Lemma takes_packet (f : Z -> Prog (S * wStream) bool) x p v x' :
  7 + zlen p <= UINT16_MAX -> takes (f (7 + zlen p)) x p v x' ->
  takes (needs (at_s tpkt_read_header) (fun l => needs (at_s (tpdu_read_data l)) (fun _ => f l))) x (data_packet p) v x'.
Proof.
  intros Hz Hf s Hr Hu. pose proof (zlen_nonneg p). unfold needs at 1.
  assert (E : tpkt_read_header s = Ret (Some (7 + zlen p), advance s 4)).
  { eapply (tpkt_read_header_enc _ (enc_tpdu 2 X224_TPDU_DATA ++ p) s []); [lia|rewrite zlen_app, zlen_enc_data; lia|done|].
    by rewrite app_nil_r. }
  rewrite (pbind_ret _ _ _ _ _ (at_s_ret _ _ _ _ _ E)).
  assert (Hr4 : readable (advance s 4)).
  { apply readable_advance; [done|]. rewrite Hu, zlen_data_packet. lia. }
  assert (Hu4 : unread (advance s 4) = enc_tpdu 2 X224_TPDU_DATA ++ p) by (rewrite unread_advance, Hu by (done || lia); done).
  rewrite (takes_needs _ (fun _ => f (7 + zlen p)) _ _ 2 _ _ _ (tpdu_read_data_back (7 + zlen p) ltac:(lia)) Hf _ Hr4 Hu4).
  rewrite advance_advance, zlen_app, zlen_enc_data, zlen_data_packet. do 4 f_equal. lia.
Qed.
End taking.

Lemma takes_octets {S} (f : Z -> Prog (S * wStream) bool) (x : S) l bs v x' :
  zlen l <= UINT16_MAX -> takes (f (zlen l)) x (l ++ bs) v x' -> takes (needs (at_s ber_read_octet_string_tag) f) x (enc_ber_octets l ++ bs) v x'.
Proof.
  intros Hl Hf. pose proof (zlen_nonneg l). unfold enc_ber_octets. replace (([4] ++ _) ++ bs) with (([4] ++ enc_ber_length (zlen l)) ++ l ++ bs) by (by rewrite <- !app_assoc).
  eapply takes_needs; [apply octet_tag_reads; lia|exact Hf].
Qed.

(** An octet string that is skipped. *)
Lemma takes_skipped {S} (k : Prog (S * wStream) bool) (x : S) l bs v x' :
  zlen l <= UINT16_MAX -> takes k x bs v x' ->
  takes (needs (at_s ber_read_octet_string_tag) (fun length => require (at_s (Stream_CheckAndLogRequiredLength length))
    (at_s (Stream_Seek length) ;; k))) x (enc_ber_octets l ++ bs) v x'.
Proof.
  intros Hl Hk. pose proof (zlen_nonneg bs). apply takes_octets; [done|]. apply takes_enough; [rewrite zlen_app; lia|].
  eapply takes_bind; [apply eats_at_s, skip_back|exact Hk].
Qed.

Section received.
Context `{HM : Malloc} `{HC : ServerCrypto}.

(** The object while the user data is read. *)
Definition with_params (m ms : rdpMcs) : rdpMcs :=
  ms <| targetParameters := targetParameters m |> <| minimumParameters := minimumParameters m |> <| maximumParameters := maximumParameters m |>.

Lemma connect_initial_received m ms s data ms' s' ok d :
  all_params_wf m -> zlen data <= 60000 ->
  eats gcc_read_conference_create_request (with_params m ms, s) data true (ms', s') ->
  mcs_merge_domain_parameters (targetParameters ms') (minimumParameters ms') (maximumParameters ms') (domainParameters ms') = (ok, d) ->
  takes mcs_recv_connect_initial (ms, s) (connect_initial m data) ok (ms' <| domainParameters := d |>, s').
Proof.
  intros Hm Hz Hdata Hmerge. pose proof (zlen_initial_body m data Hm Hz) as Hi. destruct Hm as (H1 & H2 & H3).
  pose proof (zlen_connect_pdu MCS_TYPE_CONNECT_INITIAL (initial_body m data)) as Hp. pose proof (zlen_nonneg (initial_body m data)).
  unfold connect_initial. apply (takes_packet (fun tlength => needs (at_s (ber_read_application_tag MCS_TYPE_CONNECT_INITIAL)) _)); [unfold UINT16_MAX; lia|].
  assert (Hn : 7 + zlen (connect_pdu MCS_TYPE_CONNECT_INITIAL (initial_body m data)) <= UINT16_MAX) by (unfold UINT16_MAX; lia).
  revert Hn. generalize (7 + zlen (connect_pdu MCS_TYPE_CONNECT_INITIAL (initial_body m data))). intros n Hn.
  unfold connect_pdu. eapply takes_needs; [apply application_tag_reads; [unfold is_byte, MCS_TYPE_CONNECT_INITIAL; lia|unfold UINT16_MAX; lia]|].
  unfold initial_body. apply takes_skipped; [done|]. apply takes_skipped; [done|].
  eapply takes_needs; [apply (ber_BOOL_reads true)|].
  eapply takes_require; [by apply (read_parameters_eats targetParameters (fun d m => m <| targetParameters := d |>))|].
  eapply takes_require; [by apply (read_parameters_eats minimumParameters (fun d m => m <| minimumParameters := d |>))|].
  eapply takes_require; [by apply (read_parameters_eats maximumParameters (fun d m => m <| maximumParameters := d |>))|].
  rewrite <- (app_nil_r (enc_ber_octets data)). apply takes_octets; [unfold UINT16_MAX; lia|].
  apply takes_enough; [rewrite app_nil_r; lia|]. eapply takes_require; [exact Hdata|].
  intros w Hr Hu. unfold the_mcs, upd_mcs, upd_obj, pmodify, pbind, pget, pret. cbn [fst snd]. rewrite Hmerge.
  destruct ok; cbn [negb]; [|by rewrite zlen_nil, advance_0].
  by apply takes_consumed.
Qed.

Lemma connect_response_received m mc c data mc' c' :
  params_wf (domainParameters m) -> zlen data <= 60000 ->
  eats gcc_read_conference_create_response (mc <| domainParameters := domainParameters m |>, c) data true (mc', c') ->
  takes mcs_recv_connect_response (mc, c) (connect_response m data) true (mc', c').
Proof.
  intros Hm Hz Hdata. pose proof (zlen_connect_response_body m data Hm Hz) as Hi.
  pose proof (zlen_connect_pdu MCS_TYPE_CONNECT_RESPONSE (response_body m data)) as Hp. pose proof (zlen_nonneg (response_body m data)).
  unfold connect_response. apply (takes_packet (fun tlength => needs (at_s (ber_read_application_tag MCS_TYPE_CONNECT_RESPONSE)) _)); [unfold UINT16_MAX; lia|].
  assert (Hn : 7 + zlen (connect_pdu MCS_TYPE_CONNECT_RESPONSE (response_body m data)) <= UINT16_MAX) by (unfold UINT16_MAX; lia).
  revert Hn. generalize (7 + zlen (connect_pdu MCS_TYPE_CONNECT_RESPONSE (response_body m data))). intros n Hn.
  unfold connect_pdu. eapply takes_needs; [apply application_tag_reads; [unfold is_byte, MCS_TYPE_CONNECT_RESPONSE; lia|unfold UINT16_MAX; lia]|].
  unfold response_body. eapply takes_needs; [by apply ber_enumerated_reads|].
  eapply takes_needs; [by apply ber_read_integer_enc|].
  eapply takes_require; [by apply (read_parameters_eats domainParameters (fun d m => m <| domainParameters := d |>))|].
  rewrite <- (app_nil_r (enc_ber_octets data)). apply takes_octets; [unfold UINT16_MAX; lia|].
  eapply takes_require; [exact Hdata|]. by apply takes_consumed.
Qed.
End received.

(** ** Any input *)

(** Whether a server agrees to a proposal, and the parameters that it then has chosen: what the client
    aims at, but at least four channels and three users, and at most 65528 bytes in a PDU; a client that
    aims at less than 1024 bytes gets its own maximum, whatever that is. *)
Definition proposal_ok (t mi ma : DomainParameters) : bool :=
  (4 <=? Z.max (maxChannelIds t) (maxChannelIds ma)) && (3 <=? Z.max (maxUserIds t) (maxUserIds ma)) &&
  (numPriorities mi <=? 1) && ((maxHeight t =? 1) || (maxHeight mi <=? 1)) &&
  ((maxMCSPDUsize t <? 1024) && (124 <=? maxMCSPDUsize ma) ||
   (1024 <=? maxMCSPDUsize t) && ((maxMCSPDUsize t <=? 65528) || ((124 <=? maxMCSPDUsize mi) && (maxMCSPDUsize mi <=? 65528)))) &&
  ((protocolVersion t =? 2) || ((protocolVersion mi <=? 2) && (2 <=? protocolVersion ma))).
Definition domain_ok (t ma d : DomainParameters) : Prop :=
  maxChannelIds d = Z.max 4 (maxChannelIds t) /\ maxUserIds d = Z.max 3 (maxUserIds t) /\ maxTokenIds d = maxTokenIds t /\
  numPriorities d = 1 /\ minThroughput d = minThroughput t /\ maxHeight d = 1 /\ protocolVersion d = 2 /\
  (1024 <= maxMCSPDUsize t -> maxMCSPDUsize d = Z.min (maxMCSPDUsize t) 65528) /\
  (maxMCSPDUsize t < 1024 -> maxMCSPDUsize d = maxMCSPDUsize ma /\ 124 <= maxMCSPDUsize d).

(** Case analysis on the tests of [mcs_merge_domain_parameters]. *)
Ltac merge_cases :=
  unfold mcs_merge_domain_parameters, merge_pdu_size; cbv zeta;
  repeat match goal with |- context [if ?b then _ else _] => destruct b eqn:? end; cbn [negb] in *;
  intros [= <- <-].

Lemma merge_ok t mi ma out ok d : mcs_merge_domain_parameters t mi ma out = (ok, d) -> ok = true -> domain_ok t ma d.
Proof. merge_cases; intros E; try discriminate E; unfold domain_ok; cbn; split_and!; lia. Qed.

Lemma merge_decides t mi ma out : (mcs_merge_domain_parameters t mi ma out).1 = proposal_ok t mi ma.
Proof.
  destruct (mcs_merge_domain_parameters t mi ma out) as [ok d] eqn:E. revert E. unfold proposal_ok. merge_cases; cbn [fst]; lia.
Qed.

Lemma merge_wf t mi ma out d : params_wf t -> params_wf ma -> mcs_merge_domain_parameters t mi ma out = (true, d) -> params_wf d.
Proof.
  unfold params_wf, params. rewrite !Forall_cons. intros (H1 & H2 & H3 & H4 & H5 & H6 & H7 & H8 & _) (G1 & G2 & G3 & G4 & G5 & G6 & G7 & G8 & _).
  unfold mcs_merge_domain_parameters, merge_pdu_size; cbv zeta.
  repeat match goal with |- context [if ?b then _ else _] => destruct b eqn:? end; cbn [negb] in *; intros E; try discriminate E;
    injection E as <-; cbn; unfold is_u32 in *; split_and!; lia || constructor.
Qed.

(** Nothing of the decision comes from the parameters of an earlier one. *)
Lemma merge_fresh t mi ma out out' :
  (mcs_merge_domain_parameters t mi ma out).1 = (mcs_merge_domain_parameters t mi ma out').1 /\
  ((mcs_merge_domain_parameters t mi ma out).1 = true -> (mcs_merge_domain_parameters t mi ma out).2 = (mcs_merge_domain_parameters t mi ma out').2).
Proof.
  unfold mcs_merge_domain_parameters; cbv zeta.
  repeat match goal with |- context [if ?b then _ else _] => destruct b end; try (destruct (merge_pdu_size t mi ma));
    repeat match goal with |- context [if ?b then _ else _] => destruct b end; done.
Qed.

Lemma octet_tag_bound s :
  readable s -> exists r k, ber_read_octet_string_tag s = Ret (r, advance s k) /\ 0 <= k <= zlen (unread s) /\ (forall n, r = Some n -> 0 <= n < 65536).
Proof.
  intros Hr. unfold ber_read_octet_string_tag, pbind.
  destruct (ber_read_universal_tag_safe BER_TAG_OCTET_STRING false s Hr) as (ok & k & -> & Hk).
  destruct ok; cbn [negb]; [|exists None, k; split_and!; [done|lia|lia|done]].
  destruct (ber_read_length_bound (advance s k)) as (r & j & -> & Hj & Hb); [by apply readable_advance|].
  exists r, (k + j). rewrite advance_advance. split_and!; [done|lia| |done].
  rewrite unread_advance in Hj by (done || lia). zlist_lia.
Qed.

Section safety.
Context `{HM : Malloc} `{HC : ServerCrypto}.

(** A packet that is rejected leaves well-formed objects; one that is accepted announces at most 31
    channels, and parameters that were agreed to. *)
Definition connect_post (ok : bool) (o : gobj) : Prop := block_post ok o /\ (ok = true -> domain_ok (targetParameters o.1) (maximumParameters o.1) (domainParameters o.1)).

Section walk.
Context (Q : bool -> gobj -> Prop) (HQ : forall o, fits o -> Q false o).

Lemma walk_needs {A} (m : Prog gstate (option A)) f o s :
  safe_with fits m o s -> readable s ->
  (forall a o' k, fits o' -> readable (advance s k) -> safe_res Q (f a) o' (advance s k)) -> safe_res Q (needs m f) o s.
Proof using HQ. intros Hm Hr Hf. eapply safe_res_bind; [exact Hm|done|]. intros [a|] o' k Ho Hk; [auto|apply safe_with_pret; auto]. Qed.

Lemma walk_require (m k : Prog gstate bool) o s :
  safe_with fits m o s -> readable s ->
  (forall o' j, fits o' -> readable (advance s j) -> safe_res Q k o' (advance s j)) -> safe_res Q (require m k) o s.
Proof using HQ. intros Hm Hr Hf. eapply safe_res_bind; [exact Hm|done|]. intros [|] o' j Ho Hj; [auto|apply safe_with_pret; auto]. Qed.

Lemma walk_octets (f : Z -> Prog gstate bool) o s :
  fits o -> readable s ->
  (forall n k, 0 <= n < 65536 -> readable (advance s k) -> safe_res Q (f n) o (advance s k)) -> safe_res Q (needs (at_s ber_read_octet_string_tag) f) o s.
Proof using HQ.
  intros Ho Hr Hf. eapply safe_with_post; [exact (octet_tag_bound s Hr)|done|]. intros [n|] k Hn Hk; [|apply safe_with_pret; auto].
  apply Hf; [by apply Hn|done].
Qed.

Lemma walk_check n (k : Prog gstate bool) o s :
  fits o -> readable s -> (n <= zlen (unread s) -> safe_res Q k o s) -> safe_res Q (require (at_s (Stream_CheckAndLogRequiredLength n)) k) o s.
Proof using HQ. intros Ho Hr Hk. apply safe_with_check; [done|intros H; cbn [negb]; auto|intros _; apply safe_with_pret; auto]. Qed.
End walk.

Lemma params_safe d s : readable s -> safe_with (fun _ => True) mcs_read_domain_parameters d s.
Proof.
  intros Hr. unfold mcs_read_domain_parameters.
  assert (Hint : forall set k d s, readable s -> (forall d s, readable s -> safe_with (fun _ => True) k d s) ->
    safe_with (fun _ : DomainParameters => True) (read_param set k) d s).
  { clear. intros set k d s Hr Hk. unfold read_param. apply safe_with_bind; [by apply safe_with_at_s, ber_read_integer_safe|done|].
    intros [v|] d' j _ Hj; [by apply Hk|by apply safe_with_pret]. }
  apply safe_with_bind; [by apply safe_with_at_s, ber_read_sequence_tag_safe|done|]. intros [n|] d' j _ Hj; [|by apply safe_with_pret].
  do 8 (apply Hint; [assumption|clear - Hint; intros d s Hr]). by apply safe_with_pret.
Qed.

Lemma read_parameters_safe get put o s :
  (forall d m, fits (m, o.2) -> fits (put d m, o.2)) -> fits o -> readable s -> safe_with fits (read_parameters get put) o s.
Proof.
  intros Hput Ho Hr. destruct (params_safe (get o.1) s Hr) as (ok & d & k & E & Hk & _). destruct o as [m st].
  exists ok, (put d m, st), k. unfold read_parameters. cbn [fst snd] in *. rewrite E. split_and!; [done|lia|lia|by apply Hput].
Qed.

Lemma fits_keeps (m m' : rdpMcs) st :
  baseChannelId m' = baseChannelId m -> messageChannelId m' = messageChannelId m -> mcs_flags m' = mcs_flags m ->
  channelCount m' = channelCount m -> channelMaxCount m' = channelMaxCount m -> channels m' = channels m -> fits (m, st) -> fits (m', st).
Proof.
  intros E1 E2 E3 E4 E5 E6 (([] & Hst) & Hn). cbn [fst snd] in *.
  split; cbn [fst snd]; [split; [split; cbn [fst snd]; congruence|done]|by rewrite E4].
Qed.

Lemma recv_connect_response_safe o s : fits o -> readable s -> safe_res block_post mcs_recv_connect_response o s.
Proof.
  intros Ho Hr. unfold mcs_recv_connect_response. assert (HQ : forall o, fits o -> block_post false o) by (by intros ? []).
  apply walk_needs; [done|by apply safe_with_at_s, tpkt_read_header_safe|done|intros len o1 k1 Ho1 Hr1].
  apply walk_needs; [done|by apply safe_with_at_s, tpdu_read_data_safe|done|intros ? o2 k2 Ho2 Hr2].
  apply walk_needs; [done|by apply safe_with_at_s, ber_read_application_tag_safe|done|intros ? o3 k3 Ho3 Hr3].
  apply walk_needs; [done|by apply safe_with_at_s, ber_read_enumerated_safe|done|intros ? o4 k4 Ho4 Hr4].
  apply walk_needs; [done|by apply safe_with_at_s, ber_read_integer_safe|done|intros ? o5 k5 Ho5 Hr5].
  apply walk_require; [done|apply read_parameters_safe; [intros d m; by apply fits_keeps|done|done]|done|intros o6 k6 Ho6 Hr6].
  apply walk_octets; [done|done|done|intros n k7 Hn Hr7].
  eapply safe_res_bind; [by apply conference_response_safe|done|]. intros ok o8 k8 [Hwf Hmax] Hr8.
  destruct ok; cbn [negb]; [|apply safe_with_pret; [by split|done]].
  eapply safe_res_weaken; [apply (safe_with_at_s fits); [split; [done|by apply Hmax]|by apply consumed_safe]|]. by intros ? ? [].
Qed.

Lemma recv_connect_initial_safe o s : fits o -> readable s -> safe_res connect_post mcs_recv_connect_initial o s.
Proof.
  intros Ho Hr. unfold mcs_recv_connect_initial. assert (HQ : forall o, fits o -> connect_post false o) by (by intros ? []).
  apply walk_needs; [done|by apply safe_with_at_s, tpkt_read_header_safe|done|intros len o1 k1 Ho1 Hr1].
  apply walk_needs; [done|by apply safe_with_at_s, tpdu_read_data_safe|done|intros ? o2 k2 Ho2 Hr2].
  apply walk_needs; [done|by apply safe_with_at_s, ber_read_application_tag_safe|done|intros ? o3 k3 Ho3 Hr3].
  apply walk_octets; [done|done|done|intros n1 k4 Hn1 Hr4]. apply walk_check; [done|done|done|intros Hl1].
  apply safe_with_seek; [done|lia|intros Hr5 _].
  apply walk_octets; [done|done|done|intros n2 k6 Hn2 Hr6]. apply walk_check; [done|done|done|intros Hl2].
  apply safe_with_seek; [done|lia|intros Hr7 _].
  apply walk_needs; [done|by apply safe_with_at_s, ber_read_BOOL_safe|done|intros ? o8 k8 Ho8 Hr8].
  apply walk_require; [done|apply read_parameters_safe; [intros d m; by apply fits_keeps|done|done]|done|intros o9 k9 Ho9 Hr9].
  apply walk_require; [done|apply read_parameters_safe; [intros d m; by apply fits_keeps|done|done]|done|intros o10 k10 Ho10 Hr10].
  apply walk_require; [done|apply read_parameters_safe; [intros d m; by apply fits_keeps|done|done]|done|intros o11 k11 Ho11 Hr11].
  apply walk_octets; [done|done|done|intros n3 k12 Hn3 Hr12]. apply walk_check; [done|done|done|intros Hl3].
  eapply safe_res_bind; [by apply conference_request_safe|done|]. intros ok o13 k13 [Hwf Hmax] Hr13.
  destruct ok; cbn [negb]; [|apply safe_with_pret; [by split|done]].
  assert (Ho13 : fits o13) by (split; [done|by apply Hmax]). apply safe_the_mcs.
  destruct (mcs_merge_domain_parameters _ _ _ _) as [ok d] eqn:E. apply safe_with_upd.
  assert (Ho14 : fits (o13.1 <| domainParameters := d |>, o13.2)) by (clear - Ho13; destruct o13 as [m13 st13]; by apply (fits_keeps m13)).
  destruct ok; cbn [negb]; [|apply safe_with_pret; [by apply HQ|done]].
  eapply safe_res_weaken; [apply (safe_with_at_s (fun o => fits o /\ domain_ok (targetParameters o.1) (maximumParameters o.1) (domainParameters o.1))); [|by apply consumed_safe]|].
  - split; [exact Ho14|]. by eapply merge_ok.
  - intros b o' [[] ?]. split; [by split|done].
Qed.
End safety.
