(* ===== verification/McsConnectExchange.v ===== *)
(** * Connecting to an MCS domain: the two sides

    The senders of the connect PDUs over their transports, and a client that connects to a server. *)

From S2P Require Import Prelude Memory Stream Per Framing Readers Transport TransportPdu TransportRead TransportWrite Mcs McsPdu Gcc GccSafe GccPdu GccExchange McsConnect McsConnectPdu.

(** ** The channels of the client *)

Definition channel_of (d : list Z * Z) : rdpMcsChannel :=
  blank_channel <| Name := ztake CHANNEL_NAME_LEN d.1 ++ [0] |> <| options := d.2 |>.
Definition client_channels (c : rdpSettings) : list rdpMcsChannel := map channel_of (ztake (ChannelCount c) (ChannelDefArray c)).
Definition initialized (m : rdpMcs) (c : rdpSettings) : rdpMcs :=
  m <| channelCount := ChannelCount c |> <| channels := client_channels c ++ zrep (channelMaxCount m - ChannelCount c) blank_channel |>.

Lemma copy_channel_defs_run n : forall defs, Z.of_nat n <= zlen defs ->
  copy_channel_defs n defs = Ret (map channel_of (ztake (Z.of_nat n) defs)).
Proof.
  induction n as [|n IH]; intros defs Hn; [done|]. destruct defs as [|[name opts] defs]; [change (zlen []) with 0 in Hn; lia|].
  rewrite zlen_cons in Hn. cbn [copy_channel_defs]. rewrite IH by lia. unfold ztake. by rewrite !Nat2Z.id.
Qed.

Lemma initialize_run m c :
  0 <= ChannelCount c <= channelMaxCount m -> ChannelCount c <= zlen (ChannelDefArray c) ->
  mcs_initialize_client_channels m c = Ret (initialized m c).
Proof.
  intros Hc Hd. unfold mcs_initialize_client_channels. replace (channelMaxCount m <? ChannelCount c) with false by lia.
  rewrite copy_channel_defs_run by lia. by rewrite Z2Nat.id by lia.
Qed.

(** ** Sending *)

Section sending.
Context {W : Type} `{HB : !FrontBio W} `{HP : !StreamPools W} `{HL : !WriteLaws W} `{HM : Malloc} `{HF : FreshMemory} `{HY : !ByteMemory}.
Context `{HC : ServerCrypto} (Hmem : forall n, 0 <= n <= 2 ^ 20 -> malloc_ok n = true).

Lemma memory : ~ out_of_memory.
Proof using Hmem. intros (k & Hk & Hr). by rewrite Hmem in Hr by done. Qed.

Lemma stream_new_run size : 0 < size <= 65536 ->
  exists s, Stream_New None (fresh size) size = Some s /\ growable s /\ pointer s = 0 /\ capacity s = size.
Proof using Hmem HY.
  intros Hs. destruct (Stream_New None (fresh size) size) as [s|] eqn:E.
  - exists s. by destruct (stream_new_spec size s ltac:(lia) E) as (? & ? & ?).
  - destruct memory. eapply refused_le; [by apply (stream_new_refused size); [lia|]|lia].
Qed.

(** A writer on a new stream. *)
Lemma emits_all_new wr bs s :
  emits_all wr bs -> zlen bs <= 60000 -> growable s -> pointer s = 0 ->
  exists s', wr s = Ret (true, s') /\ wrote s s' bs /\ (zlen bs + 8 <= capacity s -> capacity s' = capacity s).
Proof using Hmem.
  intros (need & Hn & [Hfit Hgrow Hneed Hb]) Hz Hg Hp. destruct (decide (need <= room s)) as [Hroom|Hroom].
  - exists (put_bytes s bs). split_and!; [by apply Hfit; [apply Hg|]|apply wrote_put_bytes; [done|lia|done]|done].
  - destruct (Hgrow s Hg) as (b & s' & E & Hw). destruct b.
    + exists s'. split_and!; [done|done|unfold room in Hroom; lia].
    + destruct Hw as (Hr & _). destruct memory. eapply refused_le; [exact Hr|lia].
Qed.

Lemma wp_with_new {A B} (H : Prop) size (failed : B) (wr : Prog wStream A) a bs (k : A -> list Z -> Z -> Prog (gobj * rdpTransport W) B) p Q :
  0 < size <= 65536 ->
  (forall s, growable s -> pointer s = 0 ->
     exists s', wr s = Ret (a, s') /\ wrote s s' bs /\ (zlen bs + 8 <= capacity s -> capacity s' = capacity s)) ->
  (forall cap, (zlen bs + 8 <= size -> cap = size) -> wp H (k a bs cap) p Q) ->
  wp H (with_new size failed wr k) p Q.
Proof using Hmem HY.
  intros Hs Hwr Hk. destruct (stream_new_run size Hs) as (s & E & Hg & Hp & Hc). unfold with_new. rewrite E.
  destruct (Hwr s Hg Hp) as (s' & Ew & (Hg' & Hp' & Ht) & Hcap).
  apply (wp_step _ _ _ _ (a, s') p); [unfold on_new, plift; by rewrite Ew|]. cbn [fst snd].
  rewrite Ht, Hp, ztake_0 by lia. apply Hk. rewrite <- Hc. exact Hcap.
Qed.

(** The settings of a server whose data were written. *)
Lemma server_data_settings m s w r w' :
  gcc_write_server_data_blocks m s w = Ret (r, w') -> r.1 = true -> r.2 = with_random s.
Proof using Hmem.
  unfold gcc_write_server_data_blocks, gcc_write_server_security_data, gcc_update_server_random. rewrite Hmem by lia. fold (with_random s).
  unfold pbind. destruct (require _ _ w) as [[[] w1]| |]; cbn; try done; [|by intros [= <- <-]].
  destruct (write_server_security _ w1) as [[[] w2]| |]; cbn; try done; [|by intros [= <- <-]].
  destruct (require _ _ w2) as [[b w3]| |]; cbn; try done. by intros [= <- <-].
Qed.

Lemma server_data_new m s bs w :
  emits_all (write_server_data m s) bs -> zlen bs <= 60000 -> growable w -> pointer w = 0 ->
  exists w', gcc_write_server_data_blocks m s w = Ret ((true, with_random s), w') /\ wrote w w' bs /\ (zlen bs + 8 <= capacity w -> capacity w' = capacity w).
Proof using Hmem.
  intros Hw Hz Hg Hp. destruct (emits_all_new _ _ _ Hw Hz Hg Hp) as (w' & E & Hwrote & Hcap). exists w'. split_and!; [|done|done].
  unfold write_server_data, pbind in E. destruct (gcc_write_server_data_blocks m s w) as [[[b st] w1]| |] eqn:E1; [|done|done].
  cbn in E. injection E as -> ->. pose proof (server_data_settings _ _ _ _ _ E1 eq_refl) as Hst. cbn in Hst. by subst st.
Qed.

(** The sender of a packet leaves [o'] and has handed over [pdu]. *)
Definition sends (fuel : nat) (snd : Prog (gobj * rdpTransport W) bool) (o : gobj) (t : rdpTransport W) (pdu : list Z) (o' : gobj) : Prop :=
  wp (~ swift fuel t (zlen pdu)) snd (o, t) (fun ok p => p.1 = o' /\ pdu_sent t p.2 pdu ok).

Lemma send_packet fuel size wr o t pdu :
  0 < zlen pdu <= size -> size <= 65536 -> fills wr pdu -> sends fuel (send_new fuel size (pret wr)) o t pdu o.
Proof using HL HY.
  intros Hz Hs Hw. eapply wp_weaken; [apply (send_new_wp fuel size _ wr o o t pdu Hz Hs eq_refl Hw)|].
  intros ok p _ ([-> | ->] & _ & Hsent); done.
Qed.

Lemma connect_initial_sent fuel mc c t data :
  0 <= ChannelCount c <= channelMaxCount mc -> ChannelCount c <= zlen (ChannelDefArray c) ->
  let m := initialized mc c in
  all_params_wf m -> emits_all (gcc_write_client_data_blocks m c) data -> zlen data < 31000 -> emits_all (gcc_write_conference_create_request data) (enc_request data) ->
  zlen (enc_request data) <= 32000 ->
  sends fuel (mcs_client_begin fuel) (mc, c) t (connect_initial m (enc_request data)) (m, c).
Proof using Hmem HL HY.
  intros Hc Hd m Hm Hdata Hz Hreq Hz2. pose proof (zlen_nonneg data). pose proof (zlen_nonneg (enc_request data)).
  unfold sends, mcs_client_begin, mcs_send_connect_initial. apply wp_pget. cbn [fst snd].
  eapply wp_step; [unfold plift; rewrite (initialize_run mc c Hc Hd); done|]. fold m.
  eapply wp_step; [unfold upd_obj, pmodify; cbn; done|].
  apply (wp_with_new _ 512 false _ true data); [lia|intros; apply emits_all_new; done || lia|]. intros cap _. cbn [negb].
  apply (wp_with_new _ 1024 false _ true (enc_request data)); [lia|intros; apply emits_all_new; done || lia|]. intros cap' _. cbn [negb].
  pose proof (zlen_initial_body m (enc_request data) Hm ltac:(lia)). pose proof (zlen_connect_pdu MCS_TYPE_CONNECT_INITIAL (initial_body m (enc_request data))).
  pose proof (zlen_nonneg (connect_pdu MCS_TYPE_CONNECT_INITIAL (initial_body m (enc_request data)))).
  apply send_packet; unfold connect_initial; [rewrite zlen_data_packet; lia|lia|].
  apply packet_fills; [lia|]. apply connect_initial_tries; [done|by eapply emits_all_bytes|lia].
Qed.

Lemma connect_response_sent fuel m s t data :
  params_wf (domainParameters m) -> emits_all (write_server_data m s) data -> zlen data < 500 -> emits_all (gcc_write_conference_create_response data) (enc_response data) ->
  zlen (enc_response data) <= 32000 ->
  sends fuel (mcs_send_connect_response fuel) (m, s) t (connect_response m (enc_response data)) (m, with_random s).
Proof using Hmem HL HY.
  intros Hm Hdata Hz Hreq Hz2. pose proof (zlen_nonneg data). pose proof (zlen_nonneg (enc_response data)).
  unfold sends, mcs_send_connect_response. apply wp_pget. cbn [fst snd].
  apply (wp_with_new _ 512 false _ (true, with_random s) data); [lia|intros; apply server_data_new; done || lia|].
  intros cap Hcap. specialize (Hcap ltac:(lia)). subst cap. eapply wp_step; [unfold upd_obj, pmodify; cbn; done|]. cbn [negb fst].
  apply (wp_with_new _ (512 + 512) false _ true (enc_response data)); [lia|intros; apply emits_all_new; done || lia|]. intros cap' _. cbn [negb].
  pose proof (zlen_connect_response_body m (enc_response data) Hm ltac:(lia)). pose proof (zlen_connect_pdu MCS_TYPE_CONNECT_RESPONSE (response_body m (enc_response data))).
  pose proof (zlen_nonneg (connect_pdu MCS_TYPE_CONNECT_RESPONSE (response_body m (enc_response data)))).
  apply send_packet; unfold connect_response; [rewrite zlen_data_packet; lia|lia|].
  apply packet_fills; [lia|]. apply connect_response_tries; [done|by eapply emits_all_bytes|lia].
Qed.
End sending.

(** ** Claims *)

(** C19: from any received bytes the receivers of the connect PDUs return without leaving the received
    bytes, the array of channels or the monitors, and the fields of the objects stay in the range of their types.
    When the server accepts a connect initial it has at most 31 channels and has agreed to the parameters
    of the domain: as many channel and user ids as the client aims at but at least four and three, one
    priority, height one, version 2, and PDUs of the size the client aims at but at most 65528 bytes; a
    client that aims at less than 1024 bytes gets the maximum that it named, of at least 124 bytes and
    without an upper bound.  Which proposals are accepted is exact, and nothing of an earlier negotiation
    survives in the parameters. *)
Theorem mcs_connect_safe `{HM : Malloc} `{HC : ServerCrypto} (m : rdpMcs) (st : rdpSettings) (s : wStream) (t mi ma d1 d2 : DomainParameters) :
  mcs_wf m -> settings_wf st -> channelCount m <= CHANNEL_MAX_COUNT -> readable s ->
  safe_res connect_post mcs_recv_connect_initial (m, st) s /\
  safe_res block_post mcs_recv_connect_response (m, st) s /\
  let r1 := mcs_merge_domain_parameters t mi ma d1 in let r2 := mcs_merge_domain_parameters t mi ma d2 in
  r1.1 = proposal_ok t mi ma /\ r2.1 = r1.1 /\ (r1.1 = true -> r1.2 = r2.2 /\ domain_ok t ma r1.2).
Proof.
  intros Hm Hst Hc Hr. assert (Ho : fits (m, st)) by done. destruct (merge_fresh t mi ma d1 d2) as [E1 E2].
  split_and!; [by apply recv_connect_initial_safe|by apply recv_connect_response_safe|].
  intros r1 r2. split_and!; [apply merge_decides|by symmetry|]. intros Hok. split; [by apply E2|]. eapply merge_ok; [apply surjective_pairing|exact Hok].
Qed.

(** The beginning of a connect initial. *)
Lemma mcs_connect_safe_witness :
  safe_res connect_post (@mcs_recv_connect_initial malloc_all) (sample_mcs, sample_settings true)
    (Stream_StaticConstInit [3; 0; 0; 12; 2; 240; 128; 127; 101; 3; 4; 1] 12).
Proof.
  apply (@mcs_connect_safe malloc_all no_crypto sample_mcs (sample_settings true)
    (Stream_StaticConstInit [3; 0; 0; 12; 2; 240; 128; 127; 101; 3; 4; 1] 12)
    (domainParameters sample_mcs) (domainParameters sample_mcs) (domainParameters sample_mcs) (domainParameters sample_mcs) (domainParameters sample_mcs)).
  - exact sample_mcs_wf.
  - exact (sample_settings_wf true).
  - vm_compute. discriminate.
  - by repeat constructor.
Defined.

Lemma client_side_flags mc mc' c name product defs mons :
  channelCount mc' = channelCount mc -> channels mc' = channels mc -> client_side mc c name product defs mons -> client_side mc' c name product defs mons.
Proof. intros E1 E2 []. constructor; try done. by rewrite E1, E2. Qed.

Lemma mcs_wf_keeps m m' :
  baseChannelId m' = baseChannelId m -> messageChannelId m' = messageChannelId m -> mcs_flags m' = mcs_flags m ->
  channelCount m' = channelCount m -> channelMaxCount m' = channelMaxCount m -> channels m' = channels m -> mcs_wf m -> mcs_wf m'.
Proof. intros E1 E2 E3 E4 E5 E6 []. split; congruence. Qed.

Lemma server_mcs_params mc c defs ms :
  let m := server_mcs mc c defs ms in
  targetParameters m = targetParameters ms /\ minimumParameters m = minimumParameters ms /\ maximumParameters m = maximumParameters ms /\
  domainParameters m = domainParameters ms.
Proof. unfold server_mcs, merge_message, merge_net. cbv zeta. repeat case_if; done. Qed.

Lemma initialized_wf mc c name product mons :
  mcs_wf mc -> 0 <= ChannelCount c <= CHANNEL_MAX_COUNT -> ChannelCount c <= zlen (ChannelDefArray c) ->
  client_side (initialized mc c) c name product (client_channels c) mons -> mcs_wf (initialized mc c).
Proof.
  intros [] Hc Hd Hside. destruct (cs_defs _ _ _ _ _ _ Hside) as [Hdefs Hmax]. unfold CHANNEL_MAX_COUNT in *.
  assert (Hz : zlen (client_channels c) = ChannelCount c).
  { unfold client_channels, zlen. rewrite length_map. fold (zlen (ztake (ChannelCount c) (ChannelDefArray c))). rewrite zlen_ztake. lia. }
  constructor; try done.
  - unfold is_u32. cbn. lia.
  - cbn. rewrite zlen_app, Hz, zlen_zrep, wf_max. unfold CHANNEL_MAX_COUNT. lia.
  - apply Forall_app. split; [eapply Forall_impl; [exact Hdefs|by intros ? []]|]. apply Forall_zrep. repeat split; cbn; try done. by repeat constructor.
Qed.

Lemma zlen_enc_length n : zlen (enc_length n) <= 2.
Proof. unfold enc_length. case_if; done. Qed.

Lemma zlen_enc_request data : zlen (enc_request data) <= zlen data + 40.
Proof.
  unfold enc_request. rewrite !zlen_app. pose proof (zlen_enc_length (zlen data + 14)). pose proof (zlen_enc_length (zlen data)).
  change (zlen (enc_oid t124_02_98_oid)) with 6. change (zlen (enc_length 0)) with 1. change (zlen (enc_digits [49])) with 1.
  change (zlen (zrep 1 0)) with 1. change (zlen h221_cs_key) with 4. repeat change (zlen [_]) with 1. lia.
Qed.

Lemma zlen_enc_response data : zlen (enc_response data) <= zlen data + 40.
Proof.
  unfold enc_response. rewrite !zlen_app. pose proof (zlen_enc_length (zlen data)).
  change (zlen (enc_oid t124_02_98_oid)) with 6. change (zlen (enc_length 0x2A)) with 1. change (zlen (enc_length 0)) with 1.
  change (zlen (be16 _)) with 2. change (zlen (enc_integer 1)) with 2. change (zlen h221_sc_key) with 4. repeat change (zlen [_]) with 1. lia.
Qed.

(** ** The exchange *)

Section exchange.
Context {W : Type} `{HB : !FrontBio W} `{HP : !StreamPools W} `{HL : !WriteLaws W} `{HM : Malloc} `{HF : FreshMemory} `{HY : !ByteMemory}.
Context `{HC : ServerCrypto} (Hmem : forall n, 0 <= n <= 2 ^ 20 -> malloc_ok n = true).
Context (mc ms : rdpMcs) (c s : rdpSettings) (name product : list Z) (mons : list rdpMonitor) (d : DomainParameters).
Context (Hcount : 0 <= ChannelCount c <= CHANNEL_MAX_COUNT) (Hdefs : ChannelCount c <= zlen (ChannelDefArray c)).

Definition connect_client : rdpMcs := initialized mc c.
Definition connect_defs : list rdpMcsChannel := client_channels c.
(** The client, but for the ids of the channels, and the server, when the parameters are agreed. *)
Definition connect_client_params : rdpMcs := connect_client <| domainParameters := d |>.
Definition connect_server : rdpMcs := server_mcs connect_client_params c connect_defs (with_params connect_client ms) <| domainParameters := d |>.
Definition connect_settings : rdpSettings := server_settings c name product mons s.
Definition connect_ids : list rdpMcsChannel := ztake (zlen connect_defs) (channels connect_server).
Definition initial_packet : list Z := connect_initial connect_client (enc_request (enc_blocks (client_data connect_client c name product connect_defs mons))).
Definition response_packet (st : rdpSettings) : list Z := connect_response connect_server (enc_response (enc_blocks (server_data connect_server st connect_ids))).

Context (Hc : client_side connect_client c name product connect_defs mons) (Hmc : mcs_wf mc) (Hs : server_side ms s c connect_defs).
Context (Hparams : all_params_wf mc).
Context (Hmerge : mcs_merge_domain_parameters (targetParameters mc) (minimumParameters mc) (maximumParameters mc) (domainParameters ms) = (true, d)).

(** The same two sides with the parameters in place. *)
Lemma connect_client_side : client_side connect_client_params c name product connect_defs mons /\ mcs_wf connect_client_params.
Proof using Hc Hmc Hcount Hdefs.
  split; [by apply (client_side_flags connect_client)|]. apply (mcs_wf_keeps connect_client); try done.
  by apply (initialized_wf mc c name product mons).
Qed.

Lemma connect_server_side : server_side (with_params connect_client ms) s c connect_defs.
Proof using Hs.
  destruct Hs as [[Hw Hz] Hi Hp Hmo]. constructor; [split; [by apply (mcs_wf_keeps ms)|exact Hz]|exact Hi|exact Hp|exact Hmo].
Qed.

Lemma connect_params : params_wf d.
Proof using Hparams Hmerge. destruct Hparams as (Ht & _ & Hma). exact (merge_wf _ _ _ _ _ Ht Hma Hmerge). Qed.

Lemma connect_ids_length : channelCount connect_server = zlen connect_defs /\ zlen connect_ids = zlen connect_defs /\
  channels connect_server = connect_ids ++ zdrop (zlen connect_defs) (channels connect_server).
Proof using Hc Hs Hmc Hcount Hdefs. destruct connect_client_side as [Hc1 _]. exact (exchange_ids _ _ c s name product _ mons Hc1 connect_server_side). Qed.

Lemma connect_data_small : let data := enc_blocks (client_data connect_client c name product connect_defs mons) in
  zlen data < 2000 /\ zlen (enc_request data) < 2040.
Proof using Hc. pose proof (client_data_small _ _ _ _ _ _ Hc). pose proof (zlen_enc_request (enc_blocks (client_data connect_client c name product connect_defs mons))). cbv zeta. lia. Qed.

Lemma response_data_small st : let data := enc_blocks (server_data connect_server st connect_ids) in zlen data < 200 /\ zlen (enc_response data) < 240.
Proof using Hc Hs Hmc Hcount Hdefs.
  destruct connect_ids_length as (_ & Hl & _). destruct (cs_defs _ _ _ _ _ _ Hc) as (_ & Hmax).
  pose proof (server_data_small connect_server st connect_ids ltac:(lia)). pose proof (zlen_enc_response (enc_blocks (server_data connect_server st connect_ids))). cbv zeta. lia.
Qed.

Lemma connect_initial_exchanged fuel t :
  sends fuel (mcs_client_begin fuel) (mc, c) t initial_packet (connect_client, c) /\
  takes mcs_recv_connect_initial (ms, s) initial_packet true (connect_server, connect_settings).
Proof using Hmem HL HY Hc Hmc Hs Hcount Hdefs Hparams Hmerge.
  destruct connect_client_side as [Hc1 Hm1]. pose proof connect_server_side as Hs1. pose proof (wf_max _ Hmc) as Hmaxc. destruct connect_data_small as [Hz1 Hz2].
  pose proof (client_data_emits Hmem _ _ _ _ _ _ Hc) as Hw1. unfold initial_packet.
  set (data := enc_blocks (client_data connect_client c name product connect_defs mons)) in *.
  assert (Hreq : emits_all (gcc_write_conference_create_request data) (enc_request data)) by (apply request_emits; [by eapply emits_all_bytes|lia]). split.
  - apply connect_initial_sent; [done|unfold CHANNEL_MAX_COUNT in *; lia|done|exact Hparams|exact Hw1|lia|exact Hreq|lia].
  - destruct (server_mcs_params connect_client_params c connect_defs (with_params connect_client ms)) as (P1 & P2 & P3 & P4).
    apply (connect_initial_received connect_client ms s (enc_request data) (server_mcs connect_client_params c connect_defs (with_params connect_client ms))); [exact Hparams|lia| |].
    + apply request_eats; [lia|]. exact (client_data_eats Hmem _ _ c s name product connect_defs mons Hc1 Hs1 data eq_refl).
    + rewrite P1, P2, P3, P4. exact Hmerge.
Qed.

(** The settings of the server may have changed in between, but RDP encryption is off. *)
Lemma connect_response_exchanged fuel t st :
  EncryptionMethods st = ENCRYPTION_METHOD_NONE -> EncryptionLevel st = ENCRYPTION_LEVEL_NONE ->
  sends fuel (mcs_send_connect_response fuel) (connect_server, st) t (response_packet st) (connect_server, with_random st) /\
  takes mcs_recv_connect_response (connect_client, c) (response_packet st) true
    (client_mcs connect_server connect_ids connect_client_params, client_settings st c).
Proof using Hmem HL HY Hc Hmc Hs Hcount Hdefs Hparams Hmerge.
  intros Hmeth Hlev. destruct connect_client_side as [Hc1 Hm1]. destruct connect_ids_length as (Hn1 & Hl1 & Hl2). destruct (cs_defs _ _ _ _ _ _ Hc) as (_ & Hmax).
  destruct (response_data_small st) as [Hz1 Hz2]. assert (Hz3 : zlen (enc_blocks (server_data connect_server st connect_ids)) < 32000) by lia. unfold response_packet.
  assert (Hw : emits_all (write_server_data connect_server st) (enc_blocks (server_data connect_server st connect_ids)))
    by (eapply server_data_emits; [apply Hmem; lia|exact Hl2|lia|lia|done|done]).
  set (rdata := enc_blocks (server_data connect_server st connect_ids)) in *. pose proof connect_params as Hd.
  assert (Hrsp : emits_all (gcc_write_conference_create_response rdata) (enc_response rdata)) by (apply response_emits; [by eapply emits_all_bytes|lia]). split.
  - apply connect_response_sent; [exact Hmem|exact Hd|exact Hw|lia|exact Hrsp|lia].
  - apply connect_response_received; [exact Hd|lia|]. apply response_eats; [exact Hz3|]. destruct (cs_channels _ _ _ _ _ _ Hc) as (Hcn & _).
    apply server_data_read; [exact Hm1|exact (eq_trans Hcn (eq_sym Hl1))|lia].
Qed.
End exchange.

(** ** Claims *)

(** C14: a client connects to the domain of a server, when allocations of up to a megabyte succeed, the
    parameters of the client can be merged, neither side uses the RDP security layer or encryption, and the
    client describes itself within the limits of [client_side].  The client puts the channels of its settings into
    its connect initial and hands it to its transport; the server accepts exactly these bytes, and answers
    with a connect response that the client accepts.  Each side sends a prefix of its packet, all of it when its
    transport accepts it.  Afterwards both have the domain parameters that the server chose and agree on
    the channels and their ids, the message channel, the protocol version and the capabilities. *)
Theorem mcs_connect_exchange {W : Type} `{HB : !FrontBio W} `{HP : !StreamPools W} `{HL : !WriteLaws W} `{HM : Malloc}
    `{HF : FreshMemory} `{HY : !ByteMemory} `{HC : ServerCrypto} (fuel : nat) (tc ts : rdpTransport W) (mc ms : rdpMcs) (c s : rdpSettings)
    (name product : list Z) (mons : list rdpMonitor) (d : DomainParameters) :
  (forall n, 0 <= n <= 2 ^ 20 -> malloc_ok n = true) ->
  0 <= ChannelCount c <= CHANNEL_MAX_COUNT -> ChannelCount c <= zlen (ChannelDefArray c) ->
  let m := initialized mc c in
  let defs := client_channels c in
  client_side m c name product defs mons -> mcs_wf mc -> server_side ms s c defs ->
  is_u32 (RdpVersion c) -> is_u32 (RdpVersion s) -> 0 < baseChannelId ms ->
  UseRdpSecurityLayer s = false -> EncryptionMethods s = ENCRYPTION_METHOD_NONE -> EncryptionLevel s = ENCRYPTION_LEVEL_NONE ->
  all_params_wf mc ->
  mcs_merge_domain_parameters (targetParameters mc) (minimumParameters mc) (maximumParameters mc) (domainParameters ms) = (true, d) ->
  exists initial ms' s' response mc' c',
    sends fuel (mcs_client_begin fuel) (mc, c) tc initial (m, c) /\
    takes mcs_recv_connect_initial (ms, s) initial true (ms', s') /\
    sends fuel (mcs_send_connect_response fuel) (ms', s') ts response (ms', with_random s') /\
    takes mcs_recv_connect_response (m, c) response true (mc', c') /\
    domainParameters ms' = d /\ domainParameters mc' = d /\
    agreed (baseChannelId ms) defs c s ms' mc' s' c'.
Proof.
  intros Hmem Hcount Hdefs m defs Hc Hmc Hs Hvc Hvs Hb0 Hrdp Hmeth Hlev Hparams Hmerge.
  destruct (connect_client_side mc c name product mons d Hcount Hdefs Hc Hmc) as [Hc1 Hm1]. pose proof (connect_server_side mc ms c s Hs) as Hs1.
  destruct (connect_initial_exchanged Hmem mc ms c s name product mons d Hcount Hdefs Hc Hmc Hs Hparams Hmerge fuel tc) as [Hsend1 Htake1].
  destruct (connect_response_exchanged Hmem mc ms c s name product mons d Hcount Hdefs Hc Hmc Hs Hparams Hmerge fuel ts (connect_settings c s name product mons)) as [Hsend2 Htake2];
    [unfold connect_settings; by rewrite server_methods|unfold connect_settings; by rewrite server_level|].
  eexists _, _, _, _, _, _. split_and!; [exact Hsend1|exact Htake1|exact Hsend2|exact Htake2|reflexivity| |].
  - unfold client_mcs. cbv zeta. by destruct (_ =? 0).
  - destruct (exchange_agreed Hmem _ _ c s name product defs mons Hc1 Hm1 Hs1 Hvc Hvs Hb0 Hrdp Hmeth Hlev) as [A1 A2 A3 A4 A5 A6].
    by constructor.
Qed.

(** A client with the channel "rdpdr" and a server with the default parameters. *)
Definition sample_client : rdpSettings :=
  sample_settings false <| ChannelCount := 1 |> <| ChannelDefArray := [([114; 100; 112; 100; 114; 0; 0; 0], 0x80800000)] |>.

Lemma sample_initialized : initialized sample_mcs sample_client = sample_client_mcs /\ client_channels sample_client = [sample_def].
Proof. done. Qed.

Lemma sample_connect_side : client_side (initialized sample_mcs sample_client) sample_client [104; 111; 115; 116] [] (client_channels sample_client) [blank_monitor].
Proof. destruct sample_client_side. by constructor. Qed.

Lemma mcs_connect_exchange_witness :
  exists initial ms' s', takes (@mcs_recv_connect_initial malloc_all) (sample_mcs, sample_settings true) initial true (ms', s') /\
    domainParameters ms' = mcs_init_domain_parameters 34 3 0 0xFFF8.
Proof.
  destruct (@mcs_connect_exchange _ scripted_bio no_pool (scripted_write_laws no_pool (fun _ _ => eq_refl)) malloc_all fresh_zero fresh_zero_bytes no_crypto
    2000 (transport_over false []) (transport_over false []) sample_mcs sample_mcs sample_client (sample_settings true)
    [104; 111; 115; 116] [] [blank_monitor] (mcs_init_domain_parameters 34 3 0 0xFFF8)) as (initial & ms' & s' & response & mc' & c' & _ & H1 & _ & _ & H2 & _).
  - intros n Hn. change ((n <? 2 ^ 63) = true). lia.
  - vm_compute. split; discriminate.
  - vm_compute. discriminate.
  - exact sample_connect_side.
  - exact sample_mcs_wf.
  - destruct sample_server_side as [H1 H2 H3 H4]. by constructor.
  - vm_compute. split; [discriminate|reflexivity].
  - vm_compute. split; [discriminate|reflexivity].
  - reflexivity.
  - reflexivity.
  - reflexivity.
  - reflexivity.
  - split_and!; repeat constructor; vm_compute; discriminate.
  - reflexivity.
  - exists initial, ms', s'. split; [exact H1|exact H2].
Defined.
