(* ===== verification/Connection.v ===== *)
(** * The connection sequence: [libfreerdp/core/connection.c], [rdp.c], [peer.c], [state.c]

    The state machine of a connection while it joins the MCS domain, on the client's and on the
    server's side: the transitions, the handlers of the received PDUs and the receive callbacks that
    call them.  A handler is a program over the RDP object, which owns the MCS object, the settings
    and the transport, and the received stream.

    What the callbacks of the application and the handlers of the other states do is the class
    [Surroundings]. *)

From S2P Require Import Prelude Memory Stream Readers Transport Mcs Gcc McsConnect.

(** ** States *)

Inductive CONNECTION_STATE : Type :=
| CONNECTION_STATE_INITIAL
| CONNECTION_STATE_NEGO
| CONNECTION_STATE_NLA
| CONNECTION_STATE_AAD
| CONNECTION_STATE_MCS_CREATE_REQUEST
| CONNECTION_STATE_MCS_CREATE_RESPONSE
| CONNECTION_STATE_MCS_ERECT_DOMAIN
| CONNECTION_STATE_MCS_ATTACH_USER
| CONNECTION_STATE_MCS_ATTACH_USER_CONFIRM
| CONNECTION_STATE_MCS_CHANNEL_JOIN_REQUEST
| CONNECTION_STATE_MCS_CHANNEL_JOIN_RESPONSE
| CONNECTION_STATE_RDP_SECURITY_COMMENCEMENT
| CONNECTION_STATE_SECURE_SETTINGS_EXCHANGE
| CONNECTION_STATE_CONNECT_TIME_AUTO_DETECT_REQUEST
| CONNECTION_STATE_CONNECT_TIME_AUTO_DETECT_RESPONSE
| CONNECTION_STATE_LICENSING
| CONNECTION_STATE_MULTITRANSPORT_BOOTSTRAPPING_REQUEST
| CONNECTION_STATE_MULTITRANSPORT_BOOTSTRAPPING_RESPONSE
| CONNECTION_STATE_CAPABILITIES_EXCHANGE_DEMAND_ACTIVE
| CONNECTION_STATE_CAPABILITIES_EXCHANGE_MONITOR_LAYOUT
| CONNECTION_STATE_CAPABILITIES_EXCHANGE_CONFIRM_ACTIVE
| CONNECTION_STATE_FINALIZATION_SYNC
| CONNECTION_STATE_FINALIZATION_COOPERATE
| CONNECTION_STATE_FINALIZATION_REQUEST_CONTROL
| CONNECTION_STATE_FINALIZATION_PERSISTENT_KEY_LIST
| CONNECTION_STATE_FINALIZATION_FONT_LIST
| CONNECTION_STATE_FINALIZATION_CLIENT_SYNC
| CONNECTION_STATE_FINALIZATION_CLIENT_COOPERATE
| CONNECTION_STATE_FINALIZATION_CLIENT_GRANTED_CONTROL
| CONNECTION_STATE_FINALIZATION_CLIENT_FONT_MAP
| CONNECTION_STATE_ACTIVE.

#[global] Instance CONNECTION_STATE_eq_dec : EqDecision CONNECTION_STATE.
Proof. solve_decision. Defined.

(** [state >= CONNECTION_STATE_RDP_SECURITY_COMMENCEMENT] in the order of the enumeration. *)
Definition from_commencement (st : CONNECTION_STATE) : bool :=
  match st with
  | CONNECTION_STATE_INITIAL | CONNECTION_STATE_NEGO | CONNECTION_STATE_NLA | CONNECTION_STATE_AAD
  | CONNECTION_STATE_MCS_CREATE_REQUEST | CONNECTION_STATE_MCS_CREATE_RESPONSE | CONNECTION_STATE_MCS_ERECT_DOMAIN
  | CONNECTION_STATE_MCS_ATTACH_USER | CONNECTION_STATE_MCS_ATTACH_USER_CONFIRM
  | CONNECTION_STATE_MCS_CHANNEL_JOIN_REQUEST | CONNECTION_STATE_MCS_CHANNEL_JOIN_RESPONSE => false
  | _ => true
  end.

Definition rdp_is_active_peer_state (st : CONNECTION_STATE) : bool :=
  match st with
  | CONNECTION_STATE_FINALIZATION_CLIENT_SYNC | CONNECTION_STATE_FINALIZATION_CLIENT_COOPERATE
  | CONNECTION_STATE_FINALIZATION_CLIENT_GRANTED_CONTROL | CONNECTION_STATE_FINALIZATION_CLIENT_FONT_MAP
  | CONNECTION_STATE_ACTIVE => true
  | _ => false
  end.

Definition rdp_is_active_client_state (st : CONNECTION_STATE) : bool :=
  match st with
  | CONNECTION_STATE_FINALIZATION_SYNC | CONNECTION_STATE_FINALIZATION_COOPERATE
  | CONNECTION_STATE_FINALIZATION_REQUEST_CONTROL | CONNECTION_STATE_FINALIZATION_PERSISTENT_KEY_LIST
  | CONNECTION_STATE_FINALIZATION_FONT_LIST
  | CONNECTION_STATE_FINALIZATION_CLIENT_SYNC | CONNECTION_STATE_FINALIZATION_CLIENT_COOPERATE
  | CONNECTION_STATE_FINALIZATION_CLIENT_GRANTED_CONTROL | CONNECTION_STATE_FINALIZATION_CLIENT_FONT_MAP
  | CONNECTION_STATE_ACTIVE => true
  | _ => false
  end.

(** The results of a handler that [Transport] does not name. *)
Definition STATE_RUN_ACTIVE : Z := 2.
Definition STATE_RUN_SUCCESS : Z := 0.
Definition STATE_RUN_TRY_AGAIN : Z := -23.
Definition STATE_RUN_CONTINUE : Z := -24.
Definition state_run_continue (status : Z) : bool :=
  (status =? STATE_RUN_TRY_AGAIN) || (status =? STATE_RUN_CONTINUE) || (status =? STATE_RUN_ACTIVE).

(** ** The RDP object *)

(** [activated] is that of the peer of the context, when there is one.  An entry of the static
    channels is the one argument of its [ADDIN_ARGV]. *)
Record rdpRdp (W : Type) : Type := mkRdp {
  rdp_state : CONNECTION_STATE;
  rdp_mcs : rdpMcs;
  rdp_settings : rdpSettings;
  rdp_transport : rdpTransport W;
  activated : option bool;
  StaticChannelArray : list (option (list Z));
  StaticChannelArraySize : Z;
  StaticChannelCount : Z
}.
Arguments mkRdp {W}.
Arguments rdp_state {W}.
Arguments rdp_mcs {W}.
Arguments rdp_settings {W}.
Arguments rdp_transport {W}.
Arguments activated {W}.
Arguments StaticChannelArray {W}.
Arguments StaticChannelArraySize {W}.
Arguments StaticChannelCount {W}.
#[global] Instance eta_rdpRdp W : Eta (rdpRdp W) := fun r =>
  mkRdp (rdp_state r) (rdp_mcs r) (rdp_settings r) (rdp_transport r) (activated r) (StaticChannelArray r)
    (StaticChannelArraySize r) (StaticChannelCount r).

Definition rdp_is_active_state {W} (r : rdpRdp W) : bool :=
  if ServerMode (rdp_settings r) then rdp_is_active_peer_state (rdp_state r) else rdp_is_active_client_state (rdp_state r).

(** What is called and not described here: the subscribers of the events and the callback
    [ReachedState] of a peer, which belong to the application; [update_reset_state]; the key exchange
    of the RDP security layer behind its first transition, the client info PDU, and the handlers of
    the other states. *)
Class Surroundings (W : Type) : Type := {
  PubSub_OnConnectionStateChange : CONNECTION_STATE -> bool -> Prog (rdpRdp W) unit;
  PubSub_OnActivated : Prog (rdpRdp W) unit;
  ReachedState : CONNECTION_STATE -> Prog (rdpRdp W) unit;
  update_reset_state : Prog (rdpRdp W) unit;
  exchange_client_keys : Prog (rdpRdp W) bool;
  rdp_send_client_info : Prog (rdpRdp W) bool;
  client_other_state : CONNECTION_STATE -> Prog (rdpRdp W * wStream) Z;
  server_other_state : CONNECTION_STATE -> Prog (rdpRdp W * wStream) Z
}.

Section connection.
Context {W : Type} `{HB : !FrontBio W} `{HP : !StreamPools W} `{HM : Malloc} `{HF : FreshMemory} `{HC : ServerCrypto} `{HX : !Surroundings W}.
Variable fuel : nat.
Local Abbreviation R := (rdpRdp W).

(** ** Parts of the object *)

(** A receiver of the MCS object, one that also fills the settings, and a sender of either kind. *)
Definition recv_mcs {A} (m : Prog (rdpMcs * wStream) A) : Prog (R * wStream) A :=
  pzoom (fun p => (rdp_mcs p.1, p.2)) (fun q p => (p.1 <| rdp_mcs := q.1 |>, q.2)) m.
Definition recv_gcc {A} (m : Prog (gobj * wStream) A) : Prog (R * wStream) A :=
  pzoom (fun p => ((rdp_mcs p.1, rdp_settings p.1), p.2))
    (fun q p => (p.1 <| rdp_mcs := q.1.1 |> <| rdp_settings := q.1.2 |>, q.2)) m.
Definition send_mcs {A} (m : Prog (rdpMcs * rdpTransport W) A) : Prog R A :=
  pzoom (fun r => (rdp_mcs r, rdp_transport r)) (fun q r => r <| rdp_mcs := q.1 |> <| rdp_transport := q.2 |>) m.
Definition send_gcc {A} (m : Prog (gobj * rdpTransport W) A) : Prog R A :=
  pzoom (fun r => ((rdp_mcs r, rdp_settings r), rdp_transport r))
    (fun q r => r <| rdp_mcs := q.1.1 |> <| rdp_settings := q.1.2 |> <| rdp_transport := q.2 |>) m.

(** A program on the object beside the stream. *)
Definition on_rdp {A} (m : Prog R A) : Prog (R * wStream) A := pzoom fst (fun r p => (r, p.2)) m.

Definition upd_rdp_mcs (f : rdpMcs -> rdpMcs) : Prog R unit := pmodify (fun r => r <| rdp_mcs := f (rdp_mcs r) |>).

(** [mcs->channels[i]] *)
Definition channel_at (m : rdpMcs) (i : Z) : outcome rdpMcsChannel :=
  match channels m !! Z.to_nat i with Some c => Ret c | None => Abort end.
Definition set_joined (c : rdpMcsChannel) : rdpMcsChannel := c <| joined := true |>.

(** ** Transitions *)

Definition rdp_set_state (st : CONNECTION_STATE) : Prog R bool := pmodify (fun r => r <| rdp_state := st |>) ;; pret true.

Definition rdp_client_transition_to_state (st : CONNECTION_STATE) : Prog R bool :=
  require (rdp_set_state st) (
  match st with
  | CONNECTION_STATE_FINALIZATION_SYNC | CONNECTION_STATE_FINALIZATION_COOPERATE
  | CONNECTION_STATE_FINALIZATION_REQUEST_CONTROL | CONNECTION_STATE_FINALIZATION_PERSISTENT_KEY_LIST
  | CONNECTION_STATE_FINALIZATION_FONT_LIST => update_reset_state
  | CONNECTION_STATE_CAPABILITIES_EXCHANGE_CONFIRM_ACTIVE => PubSub_OnActivated
  | _ => pret tt
  end ;;
  r <- pget ;;
  PubSub_OnConnectionStateChange (rdp_state r) (rdp_is_active_state r) ;;
  pret true).

Definition rdp_server_transition_to_state (st : CONNECTION_STATE) : Prog R bool :=
  r <- pget ;;
  let cstate := rdp_state r in
  (if from_commencement cstate && negb (rdp_is_active_peer_state cstate)
   then pmodify (fun r => r <| activated := match activated r with Some _ => Some false | None => None end |>)
   else pret tt) ;;
  require (rdp_set_state st) (pret true).

(** ** The client *)

Definition rdp_client_establish_keys : Prog R bool :=
  r <- pget ;;
  if negb (UseRdpSecurityLayer (rdp_settings r)) then pret true
  else require (rdp_client_transition_to_state CONNECTION_STATE_RDP_SECURITY_COMMENCEMENT) exchange_client_keys.

Definition rdp_client_send_client_info_and_change_state : Prog R bool :=
  require rdp_client_establish_keys (
  require (rdp_client_transition_to_state CONNECTION_STATE_SECURE_SETTINGS_EXCHANGE) (
  require rdp_send_client_info (
  require (rdp_client_transition_to_state CONNECTION_STATE_CONNECT_TIME_AUTO_DETECT_REQUEST) (
  pret true)))).

(** [for (i = 0; i < mcs->channelCount; i++) mcs->channels[i].joined = TRUE], which must stay in the
    array. *)
Definition join_all (m : rdpMcs) : outcome rdpMcs :=
  if channelCount m <=? zlen (channels m) then
    Ret (m <| userChannelJoined := true |> <| globalChannelJoined := true |> <| messageChannelJoined := true |>
           <| channels := map set_joined (ztake (channelCount m) (channels m)) ++ zdrop (channelCount m) (channels m) |>)
  else Abort.

Definition mark_all_joined : Prog R unit :=
  r <- pget ;; m <- plift (join_all (rdp_mcs r)) ;; pmodify (fun r => r <| rdp_mcs := m |>).

Definition rdp_client_skip_mcs_channel_join : Prog R bool :=
  mark_all_joined ;; rdp_client_send_client_info_and_change_state.

Definition rdp_client_join_channel (channelId : Z) : Prog R bool :=
  require (rdp_client_transition_to_state CONNECTION_STATE_MCS_CHANNEL_JOIN_REQUEST) (
  require (send_mcs (mcs_send_channel_join_request fuel channelId)) (
  require (rdp_client_transition_to_state CONNECTION_STATE_MCS_CHANNEL_JOIN_RESPONSE) (
  pret true))).

(** The loop over the channels that are joined: the index of the first one that is not, after it was
    marked, or [channelCount]; nothing when another channel was confirmed.  [n] rounds are left. *)
Fixpoint confirm_channel (n : nat) (i channelId : Z) (m : rdpMcs) : outcome (option (Z * rdpMcs)) :=
  match n with
  | O => Ret (Some (i, m))
  | S n =>
      match channel_at m i with
      | Ret cur =>
          if joined cur then confirm_channel n (i + 1) channelId m
          else if negb (ChannelId cur =? channelId) then Ret None
          else Ret (Some (i, m <| channels := <[Z.to_nat i := set_joined cur]> (channels m) |>))
      | Abort => Abort
      | Hang => Hang
      end
  end.

(** [if (i < mcs->channelCount)] join that channel: the result of the handler, and [allJoined]. *)
Definition join_next (i : Z) : Prog R (bool * bool) :=
  r <- pget ;;
  if i <? channelCount (rdp_mcs r) then
    cur <- plift (channel_at (rdp_mcs r) i) ;;
    ok <- rdp_client_join_channel (ChannelId cur) ;;
    pret (ok, false)
  else pret (true, true).

(** What the client does with a confirmed channel: whether it goes on, and [allJoined]. *)
Definition client_joined (channelId : Z) : Prog R (bool * bool) :=
  r <- pget ;;
  let m := rdp_mcs r in
  if negb (userChannelJoined m) then
    if negb (channelId =? userId m) then pret (false, true)
    else
      upd_rdp_mcs (fun m => m <| userChannelJoined := true |>) ;;
      ok <- rdp_client_join_channel MCS_GLOBAL_CHANNEL_ID ;; pret (ok, true)
  else if negb (globalChannelJoined m) then
    if negb (channelId =? MCS_GLOBAL_CHANNEL_ID) then pret (false, true)
    else
      upd_rdp_mcs (fun m => m <| globalChannelJoined := true |>) ;;
      if negb (messageChannelId m =? 0) then ok <- rdp_client_join_channel (messageChannelId m) ;; pret (ok, false)
      else join_next 0
  else if negb (messageChannelId m =? 0) && negb (messageChannelJoined m) then
    if negb (channelId =? messageChannelId m) then pret (false, true)
    else
      upd_rdp_mcs (fun m => m <| messageChannelJoined := true |>) ;;
      join_next 0
  else
    c <- plift (confirm_channel (Z.to_nat (channelCount m)) 0 channelId m) ;;
    match c with
    | None => pret (false, true)
    | Some (i, m) => upd_rdp_mcs (fun _ => m) ;; join_next (i + 1)
    end.

Definition rdp_client_connect_mcs_channel_join_confirm : Prog (R * wStream) bool :=
  r <- recv_mcs (mcs_recv_channel_join_confirm 0) ;;
  let '(ok, channelId) := r in
  if negb ok then pret false else
  r <- on_rdp (client_joined channelId) ;;
  let '(ok, allJoined) := r in
  if negb ok then pret false else
  p <- pget ;;
  if userChannelJoined (rdp_mcs p.1) && globalChannelJoined (rdp_mcs p.1) && allJoined
  then require (on_rdp rdp_client_send_client_info_and_change_state) (pret true)
  else pret true.

(** [if (!m) status = STATE_RUN_FAILED; else ...] *)
Definition or_fail {S} (m : Prog S bool) (k : Prog S Z) : Prog S Z :=
  ok <- m ;; if negb ok then pret STATE_RUN_FAILED else k.

Definition rdp_recv_callback_int : Prog (R * wStream) Z :=
  p <- pget ;;
  let go st := on_rdp (rdp_client_transition_to_state st) in
  match rdp_state p.1 with
  | CONNECTION_STATE_NEGO => or_fail (go CONNECTION_STATE_MCS_CREATE_REQUEST) (pret STATE_RUN_CONTINUE)
  | CONNECTION_STATE_MCS_CREATE_REQUEST =>
      or_fail (on_rdp (send_gcc (mcs_client_begin fuel))) (
      or_fail (go CONNECTION_STATE_MCS_CREATE_RESPONSE) (
      rem <- at_s Stream_GetRemainingLength ;;
      pret (if 0 <? rem then STATE_RUN_CONTINUE else STATE_RUN_SUCCESS)))
  | CONNECTION_STATE_MCS_CREATE_RESPONSE =>
      or_fail (recv_gcc mcs_recv_connect_response) (
      or_fail (go CONNECTION_STATE_MCS_ERECT_DOMAIN) (
      or_fail (on_rdp (send_mcs (mcs_send_erect_domain_request fuel))) (
      or_fail (go CONNECTION_STATE_MCS_ATTACH_USER) (
      or_fail (on_rdp (send_mcs (mcs_send_attach_user_request fuel))) (
      or_fail (go CONNECTION_STATE_MCS_ATTACH_USER_CONFIRM) (
      pret STATE_RUN_SUCCESS))))))
  | CONNECTION_STATE_MCS_ATTACH_USER_CONFIRM =>
      or_fail (recv_mcs mcs_recv_attach_user_confirm) (
      p <- pget ;;
      if negb (SupportSkipChannelJoin (rdp_settings p.1)) then
        or_fail (go CONNECTION_STATE_MCS_CHANNEL_JOIN_REQUEST) (
        p <- pget ;;
        or_fail (on_rdp (send_mcs (mcs_send_channel_join_request fuel (userId (rdp_mcs p.1))))) (
        or_fail (go CONNECTION_STATE_MCS_CHANNEL_JOIN_RESPONSE) (
        pret STATE_RUN_SUCCESS)))
      else or_fail (on_rdp rdp_client_skip_mcs_channel_join) (pret STATE_RUN_SUCCESS))
  | CONNECTION_STATE_MCS_CHANNEL_JOIN_RESPONSE =>
      or_fail rdp_client_connect_mcs_channel_join_confirm (pret STATE_RUN_SUCCESS)
  | st => client_other_state st
  end.

(** [do { ... } while (rc == STATE_RUN_TRY_AGAIN || rc == STATE_RUN_CONTINUE)]; [n] rounds. *)
Fixpoint client_rounds (n : nat) (start rc : Z) : Prog (R * wStream) Z :=
  match n with
  | O => plift Hang
  | S n =>
      (if rc =? STATE_RUN_TRY_AGAIN then at_s (Stream_SetPosition start) ;; pret tt else pret tt) ;;
      rc <- rdp_recv_callback_int ;;
      if (rc =? STATE_RUN_TRY_AGAIN) || (rc =? STATE_RUN_CONTINUE) then client_rounds n start rc else pret rc
  end.

Definition rdp_recv_callback (rounds : nat) : Prog (R * wStream) Z :=
  start <- at_s Stream_GetPosition ;; client_rounds rounds start STATE_RUN_FAILED.

(** ** The server *)

Definition rdp_update_encryption_level (s : rdpSettings) : bool * rdpSettings :=
  let level :=
    if negb (UseRdpSecurityLayer s) then ENCRYPTION_LEVEL_NONE
    else if existsb (Z.eqb (EncryptionLevel s)) [ENCRYPTION_LEVEL_NONE; ENCRYPTION_LEVEL_FIPS; ENCRYPTION_LEVEL_HIGH;
                                                   ENCRYPTION_LEVEL_LOW; ENCRYPTION_LEVEL_CLIENT_COMPATIBLE]
    then EncryptionLevel s else ENCRYPTION_LEVEL_CLIENT_COMPATIBLE in
  let has f := negb (Z.land (EncryptionMethods s) f =? 0) in
  let methods :=
    if level =? ENCRYPTION_LEVEL_NONE then Some ENCRYPTION_METHOD_NONE
    else if level =? ENCRYPTION_LEVEL_FIPS then Some ENCRYPTION_METHOD_FIPS
    else if level =? ENCRYPTION_LEVEL_HIGH then Some ENCRYPTION_METHOD_128BIT
    else if (level =? ENCRYPTION_LEVEL_LOW) || (level =? ENCRYPTION_LEVEL_CLIENT_COMPATIBLE) then
      Some (if has ENCRYPTION_METHOD_128BIT then ENCRYPTION_METHOD_128BIT
            else if has ENCRYPTION_METHOD_56BIT then ENCRYPTION_METHOD_56BIT
            else if has ENCRYPTION_METHOD_40BIT then ENCRYPTION_METHOD_40BIT
            else if has ENCRYPTION_METHOD_FIPS then ENCRYPTION_METHOD_FIPS
            else ENCRYPTION_METHOD_128BIT)
    else None in
  match methods with
  | None => (false, s)
  | Some methods =>
      if UseRdpSecurityLayer s &&
         negb (existsb (Z.eqb methods) [ENCRYPTION_METHOD_NONE; ENCRYPTION_METHOD_40BIT; ENCRYPTION_METHOD_56BIT;
                                        ENCRYPTION_METHOD_128BIT; ENCRYPTION_METHOD_FIPS])
      then (false, s)
      else (true, s <| EncryptionLevel := level |> <| EncryptionMethods := methods |>)
  end.

(** The structure, its array of one argument and the copy of the argument. *)
Definition freerdp_addin_argv_new (name : list Z) : outcome (option (list Z)) :=
  if negb (malloc_ok 16) then Ret None
  else if negb (malloc_ok 8) then Ret None
  else match c_string name with
       | Ret str => Ret (if malloc_ok (zlen str + 1) then Some str else None)
       | Abort => Abort
       | Hang => Hang
       end.

Definition freerdp_static_channel_collection_add (channel : list Z) : Prog R bool :=
  r <- pget ;;
  let count := u32 (StaticChannelCount r + 1) in
  let oldSize := StaticChannelArraySize r in
  let new_size := if u32 (oldSize * 2) =? 0 then u32 (count * 2) else u32 (oldSize * 2) in
  let store :=
    r <- pget ;;
    let count := StaticChannelCount r in
    if (0 <=? count) && (count <? zlen (StaticChannelArray r)) then
      pmodify (fun r => r <| StaticChannelArray := <[Z.to_nat count := Some channel]> (StaticChannelArray r) |>
                          <| StaticChannelCount := u32 (count + 1) |>) ;;
      pret true
    else plift Abort in
  if oldSize <? count then
    if negb (malloc_ok (new_size * 8)) then pret false
    else
      pmodify (fun r => r <| StaticChannelArray := ztake oldSize (StaticChannelArray r) ++ zrep (new_size - oldSize) None |>
                          <| StaticChannelArraySize := new_size |>) ;;
      store
  else store.

(** The loop over the accepted channels; [n] are left. *)
Fixpoint add_channels (n : nat) (i : Z) : Prog R bool :=
  match n with
  | O => pret true
  | S n =>
      r <- pget ;;
      cur <- plift (channel_at (rdp_mcs r) i) ;;
      arg <- plift (freerdp_addin_argv_new (Name cur)) ;;
      match arg with
      | None => pret false
      | Some arg => require (freerdp_static_channel_collection_add arg) (add_channels n (i + 1))
      end
  end.

(** The settings of the object are changed, or the call fails. *)
Definition apply_settings (f : R -> outcome (bool * rdpSettings)) : Prog R bool :=
  r <- pget ;;
  res <- plift (f r) ;;
  pmodify (fun r => r <| rdp_settings := res.2 |>) ;;
  pret res.1.

Definition in_state (st : CONNECTION_STATE) : Prog (R * wStream) unit :=
  p <- pget ;; passert (bool_decide (rdp_state p.1 = st)).

Definition rdp_server_accept_mcs_connect_initial : Prog (R * wStream) bool :=
  in_state CONNECTION_STATE_MCS_CREATE_REQUEST ;;
  require (recv_gcc mcs_recv_connect_initial) (
  require (on_rdp (apply_settings (fun r => mcs_server_apply_to_settings (rdp_mcs r) (rdp_settings r)))) (
  p <- pget ;;
  require (on_rdp (add_channels (Z.to_nat (channelCount (rdp_mcs p.1))) 0)) (
  require (on_rdp (rdp_server_transition_to_state CONNECTION_STATE_MCS_CREATE_RESPONSE)) (
  require (on_rdp (apply_settings (fun r => Ret (rdp_update_encryption_level (rdp_settings r))))) (
  require (on_rdp (send_gcc (mcs_send_connect_response fuel))) (
  require (on_rdp (rdp_server_transition_to_state CONNECTION_STATE_MCS_ERECT_DOMAIN)) (
  pret true))))))).

Definition rdp_server_accept_mcs_erect_domain_request : Prog (R * wStream) bool :=
  in_state CONNECTION_STATE_MCS_ERECT_DOMAIN ;;
  require (recv_mcs mcs_recv_erect_domain_request) (
  on_rdp (rdp_server_transition_to_state CONNECTION_STATE_MCS_ATTACH_USER)).

Definition rdp_server_skip_mcs_channel_join : Prog R bool :=
  mark_all_joined ;; rdp_server_transition_to_state CONNECTION_STATE_RDP_SECURITY_COMMENCEMENT.

Definition rdp_server_accept_mcs_attach_user_request : Prog (R * wStream) bool :=
  require (recv_mcs mcs_recv_attach_user_request) (
  require (on_rdp (rdp_server_transition_to_state CONNECTION_STATE_MCS_ATTACH_USER_CONFIRM)) (
  require (on_rdp (send_mcs (mcs_send_attach_user_confirm fuel))) (
  p <- pget ;;
  if SupportSkipChannelJoin (rdp_settings p.1) then on_rdp rdp_server_skip_mcs_channel_join
  else on_rdp (rdp_server_transition_to_state CONNECTION_STATE_MCS_CHANNEL_JOIN_REQUEST)))).

(** The loop over the channels of a server: the ones with the id are joined; [allJoined]. *)
Definition mark_channel (channelId : Z) (c : rdpMcsChannel) : rdpMcsChannel :=
  if ChannelId c =? channelId then set_joined c else c.
Definition mark_channels (channelId : Z) (m : rdpMcs) : outcome (bool * rdpMcs) :=
  if channelCount m <=? zlen (channels m) then
    let cs := map (mark_channel channelId) (ztake (channelCount m) (channels m)) in
    Ret (forallb joined cs, m <| channels := cs ++ zdrop (channelCount m) (channels m) |>)
  else Abort.

Definition server_joined (channelId : Z) (m : rdpMcs) : outcome (bool * rdpMcs) :=
  let m := if channelId =? userId m then m <| userChannelJoined := true |> else m in
  let m := if channelId =? MCS_GLOBAL_CHANNEL_ID then m <| globalChannelJoined := true |> else m in
  let m := if channelId =? messageChannelId m then m <| messageChannelJoined := true |> else m in
  mark_channels channelId m.

Definition rdp_server_accept_mcs_channel_join_request : Prog (R * wStream) bool :=
  in_state CONNECTION_STATE_MCS_CHANNEL_JOIN_REQUEST ;;
  p <- pget ;;
  r <- recv_mcs (mcs_recv_channel_join_request (TransportDumpReplay (rdp_settings p.1)) 0) ;;
  let '(ok, channelId) := r in
  if negb ok then pret false else
  require (on_rdp (rdp_server_transition_to_state CONNECTION_STATE_MCS_CHANNEL_JOIN_RESPONSE)) (
  require (on_rdp (send_mcs (mcs_send_channel_join_confirm fuel channelId))) (
  p <- pget ;;
  res <- plift (server_joined channelId (rdp_mcs p.1)) ;;
  let '(allJoined, m) := res in
  on_rdp (upd_rdp_mcs (fun _ => m)) ;;
  on_rdp (rdp_server_transition_to_state
    (if userChannelJoined m && globalChannelJoined m && ((messageChannelId m =? 0) || messageChannelJoined m) && allJoined
     then CONNECTION_STATE_RDP_SECURITY_COMMENCEMENT else CONNECTION_STATE_MCS_CHANNEL_JOIN_REQUEST)))).

Definition peer_recv_callback_internal : Prog (R * wStream) Z :=
  p <- pget ;;
  on_rdp (ReachedState (rdp_state p.1)) ;;
  p <- pget ;;
  match rdp_state p.1 with
  | CONNECTION_STATE_INITIAL =>
      or_fail (on_rdp (rdp_server_transition_to_state CONNECTION_STATE_NEGO)) (pret STATE_RUN_CONTINUE)
  | CONNECTION_STATE_NLA => plift Abort
  | CONNECTION_STATE_MCS_CREATE_REQUEST => or_fail rdp_server_accept_mcs_connect_initial (pret STATE_RUN_SUCCESS)
  | CONNECTION_STATE_MCS_ERECT_DOMAIN => or_fail rdp_server_accept_mcs_erect_domain_request (pret STATE_RUN_SUCCESS)
  | CONNECTION_STATE_MCS_ATTACH_USER => or_fail rdp_server_accept_mcs_attach_user_request (pret STATE_RUN_SUCCESS)
  | CONNECTION_STATE_MCS_CHANNEL_JOIN_REQUEST => or_fail rdp_server_accept_mcs_channel_join_request (pret STATE_RUN_SUCCESS)
  | st => server_other_state st
  end.

(** [do { ... } while (state_run_continue (rc))]; [n] rounds. *)
Fixpoint server_rounds (n : nat) (start rc : Z) : Prog (R * wStream) Z :=
  match n with
  | O => plift Hang
  | S n =>
      (if rc =? STATE_RUN_TRY_AGAIN then at_s (Stream_SetPosition start) ;; pret tt else pret tt) ;;
      rc <- peer_recv_callback_internal ;;
      if state_run_continue rc then server_rounds n start rc else pret rc
  end.

Definition peer_recv_callback (rounds : nat) : Prog (R * wStream) Z :=
  start <- at_s Stream_GetPosition ;; server_rounds rounds start STATE_RUN_FAILED.
End connection.
