(* ===== verification/ConnectionJoin.v ===== *)
(** * Joining the channels of a domain

    The order in which a client joins its channels, how far it has come, and what the handlers of the
    client and of the server do to that, whatever the other side sends. *)

From S2P Require Import Prelude Memory Stream Per Framing Readers Transport TransportPdu TransportRead TransportWrite Mcs McsPdu Gcc GccSafe McsConnect Connection.

(** ** The channels in their order *)

(** The message channel is joined when there is one. *)
Definition join_order (m : rdpMcs) : list Z :=
  [userId m; MCS_GLOBAL_CHANNEL_ID] ++ (if messageChannelId m =? 0 then [] else [messageChannelId m]) ++
  map ChannelId (ztake (channelCount m) (channels m)).

Definition join_flags (m : rdpMcs) : list bool :=
  [userChannelJoined m; globalChannelJoined m] ++ (if messageChannelId m =? 0 then [] else [messageChannelJoined m]) ++
  map joined (ztake (channelCount m) (channels m)).

(** [i] booleans of [n] are true, the first ones. *)
Definition first_true (n i : nat) : list bool := replicate i true ++ replicate (n - i) false.

(** Exactly the first [i] channels are joined. *)
Definition progress (m : rdpMcs) (i : nat) : Prop := join_flags m = first_true (length (join_order m)) i.

Definition in_array (m : rdpMcs) : Prop := 0 <= channelCount m <= zlen (channels m).

(** Only which channels are joined may differ. *)
Definition identity (c : rdpMcsChannel) : list Z * Z * Z := (Name c, options c, ChannelId c).
Record same_channels (m m' : rdpMcs) : Prop := {
  same_user : userId m' = userId m;
  same_message : messageChannelId m' = messageChannelId m;
  same_count : channelCount m' = channelCount m;
  same_list : map identity (channels m') = map identity (channels m)
}.

Section order.
Implicit Types (m : rdpMcs) (i : nat) (l : list rdpMcsChannel).

Lemma same_refl m : same_channels m m.
Proof. done. Qed.

Lemma same_trans m1 m2 m3 : same_channels m1 m2 -> same_channels m2 m3 -> same_channels m1 m3.
Proof. intros [] []. split; congruence. Qed.

Lemma ids_of_identity l l' : map identity l' = map identity l -> map ChannelId l' = map ChannelId l.
Proof.
  intros E. apply (f_equal (map snd)) in E. by rewrite !map_map in E.
Qed.

Lemma map_ztake {A B} (f : A -> B) n (l : list A) : map f (ztake n l) = ztake n (map f l).
Proof. unfold ztake. by rewrite firstn_map. Qed.

Lemma same_order m m' : same_channels m m' -> join_order m' = join_order m.
Proof.
  intros [E1 E2 E3 E4]. unfold join_order. rewrite E1, E2, E3, !map_ztake. by rewrite (ids_of_identity _ _ E4).
Qed.

Lemma same_in_array m m' : same_channels m m' -> in_array m -> in_array m'.
Proof.
  intros [_ _ E3 E4]. unfold in_array. rewrite E3. apply (f_equal length) in E4. rewrite !length_map in E4. unfold zlen. by rewrite E4.
Qed.

Lemma length_flags m : length (join_flags m) = length (join_order m).
Proof. unfold join_flags, join_order. rewrite !length_app, !length_map. by destruct (_ =? 0). Qed.

Lemma first_true_S n i : (i < n)%nat -> first_true n (S i) = replicate i true ++ true :: replicate (n - S i) false.
Proof. intros Hi. unfold first_true. by rewrite replicate_S_end, <- app_assoc. Qed.

Lemma first_true_lt n i : (i < n)%nat -> first_true n i = replicate i true ++ false :: replicate (n - S i) false.
Proof. intros Hi. unfold first_true. by replace (n - i)%nat with (S (n - S i)) by lia. Qed.

Lemma first_true_cons n i : first_true (S n) (S i) = true :: first_true n i.
Proof. done. Qed.

Lemma first_true_all n i : (n <= i)%nat -> first_true n i = replicate i true.
Proof. intros Hi. unfold first_true. replace (n - i)%nat with 0%nat by lia. apply app_nil_r. Qed.

(** The channels as a list, with the one at [j]. *)
Lemma split_flags l j :
  (j < length l)%nat -> map joined l = first_true (length l) j ->
  exists a c b, l = a ++ c :: b /\ length a = j /\ joined c = false /\
    Forall (fun c => joined c = true) a /\ map joined b = replicate (length b) false.
Proof.
  intros Hj E. destruct (lookup_lt_is_Some_2 l j Hj) as [c Hc].
  pose proof (take_drop_middle l j c Hc) as Hl. exists (take j l), c, (drop (S j) l).
  assert (Ha : length (take j l) = j) by (rewrite length_take; lia).
  assert (Hb : length (drop (S j) l) = (length l - S j)%nat) by (by rewrite length_drop).
  rewrite <- Hl, map_app in E at 1. cbn [map] in E. rewrite first_true_lt in E by done.
  apply app_inj_1 in E as [E1 E2]; [|by rewrite length_map, length_replicate]. injection E2 as E2 E3.
  split_and!; [done|done|done| |by rewrite Hb].
  apply Forall_lookup. intros n x Hn.
  assert (Hm : map joined (take j l) !! n = Some (joined x)) by (change (map joined (take j l)) with (joined <$> take j l); by rewrite list_lookup_fmap, Hn).
  rewrite E1 in Hm. by apply lookup_replicate in Hm as [-> _].
Qed.

Lemma rejoin_flags a c b :
  Forall (fun c => joined c = true) a -> map joined b = replicate (length b) false ->
  map joined (a ++ set_joined c :: b) = first_true (length (a ++ c :: b)) (S (length a)).
Proof.
  intros Ha Hb. rewrite map_app. cbn [map]. rewrite Hb, length_app. cbn [length].
  rewrite first_true_S by lia. f_equal; [|f_equal; f_equal; lia].
  clear - Ha. induction Ha as [|x a Hx Ha IH]; [done|]. cbn. by rewrite Hx, IH.
Qed.
End order.

(** ** The client *)

Section client.
Context {W : Type} `{HB : !FrontBio W} `{HP : !StreamPools W} `{HM : Malloc} `{HF : FreshMemory} `{HX : !Surroundings W}.
Variable fuel : nat.
Implicit Types (m : rdpMcs) (i : nat) (r : rdpRdp W).

Lemma channel_at_app m a c b : channels m = a ++ c :: b -> channel_at m (Z.of_nat (length a)) = Ret c.
Proof. intros E. unfold channel_at. by rewrite Nat2Z.id, E, list_lookup_middle. Qed.

Lemma confirm_skip id n a : forall m pre rest,
  channels m = pre ++ a ++ rest -> Forall (fun c => joined c = true) a ->
  confirm_channel (length a + n) (Z.of_nat (length pre)) id m = confirm_channel n (Z.of_nat (length pre + length a)) id m.
Proof.
  induction a as [|c a IH]; intros m pre rest E Ha; [by rewrite Nat.add_0_r|].
  apply Forall_cons in Ha as [Hc Ha]. cbn [length Nat.add confirm_channel].
  rewrite (channel_at_app m pre c (a ++ rest) E), Hc.
  specialize (IH m (pre ++ [c]) rest). rewrite <- app_assoc in IH. specialize (IH E Ha). rewrite length_app in IH. cbn [length] in IH.
  replace (Z.of_nat (length pre) + 1) with (Z.of_nat (length pre + 1)) by lia. rewrite IH. f_equal. lia.
Qed.

Lemma confirm_run id m a c b rest :
  channels m = (a ++ c :: b) ++ rest -> Forall (fun c => joined c = true) a -> joined c = false ->
  confirm_channel (length (a ++ c :: b)) 0 id m =
    if ChannelId c =? id then Ret (Some (Z.of_nat (length a), m <| channels := (a ++ set_joined c :: b) ++ rest |>)) else Ret None.
Proof.
  intros E Ha Hc. rewrite <- app_assoc in E. cbn [app] in E. rewrite length_app. cbn [length].
  pose proof (confirm_skip id (S (length b)) a m [] (c :: b ++ rest) E Ha) as Hs. cbn [length app] in Hs. change (Z.of_nat 0) with 0 in Hs.
  rewrite Hs. cbn [confirm_channel Nat.add]. rewrite (channel_at_app m a c (b ++ rest) E), Hc.
  destruct (ChannelId c =? id); [|done]. cbn [negb]. rewrite Nat2Z.id, E. unfold set_joined at 1. 
  by rewrite insert_app_r_alt, Nat.sub_diag, <- app_assoc by lia.
Qed.

(** The static channels, and what is behind them in the array. *)
Lemma channels_split m : in_array m ->
  exists l rest, channels m = l ++ rest /\ ztake (channelCount m) (channels m) = l /\ channelCount m = Z.of_nat (length l).
Proof.
  intros [H1 H2]. exists (ztake (channelCount m) (channels m)), (zdrop (channelCount m) (channels m)).
  rewrite ztake_zdrop_app. split_and!; [done|done|]. change (channelCount m = zlen (ztake (channelCount m) (channels m))).
  rewrite zlen_ztake. lia.
Qed.

Lemma join_next_run r j :
  in_array (rdp_mcs r) ->
  join_next fuel (Z.of_nat j) r =
    match map ChannelId (ztake (channelCount (rdp_mcs r)) (channels (rdp_mcs r))) !! j with
    | Some next => (ok <- rdp_client_join_channel fuel next ;; pret (ok, false)) r
    | None => Ret ((true, true), r)
    end.
Proof.
  intros Hin. destruct (channels_split _ Hin) as (l & rest & E & -> & Hn). unfold join_next. rewrite pbind_pget, Hn.
  change (map ChannelId l !! j) with ((ChannelId <$> l) !! j). rewrite list_lookup_fmap.
  destruct (l !! j) as [c|] eqn:Ec; cbn [fmap option_fmap option_map].
  - pose proof (lookup_lt_Some _ _ _ Ec). replace (_ <? _) with true by lia. unfold channel_at. rewrite Nat2Z.id, E, lookup_app_l, Ec by lia.
    done.
  - apply lookup_ge_None in Ec. by replace (_ <? _) with false by lia.
Qed.

Lemma ztake_app_length {A} (l r : list A) n : n = Z.of_nat (length l) -> ztake n (l ++ r) = l.
Proof. intros ->. unfold ztake. by rewrite Nat2Z.id, take_app_length. Qed.

Definition statics m : list rdpMcsChannel := ztake (channelCount m) (channels m).

Lemma same_statics m m' : same_channels m m' -> length (statics m') = length (statics m).
Proof.
  intros [_ _ E3 E4]. unfold statics. rewrite <- !(length_map ChannelId), !map_ztake, E3. by rewrite (ids_of_identity _ _ E4).
Qed.

Lemma static_joined m j want :
  in_array m -> map joined (statics m) = first_true (length (statics m)) j -> map ChannelId (statics m) !! j = Some want ->
  exists l', let m' := m <| channels := l' |> in same_channels m m' /\
    map joined (statics m') = first_true (length (statics m)) (S j) /\
    forall id, confirm_channel (Z.to_nat (channelCount m)) 0 id m = if id =? want then Ret (Some (Z.of_nat j, m')) else Ret None.
Proof.
  intros Hin Hj Hw. destruct (channels_split _ Hin) as (l & rest & E & El & Hn). unfold statics in *. rewrite El in *.
  change (map ChannelId l) with (ChannelId <$> l) in Hw. rewrite list_lookup_fmap, fmap_Some in Hw. destruct Hw as (c0 & Hc0 & ->).
  destruct (split_flags l j ltac:(by eapply lookup_lt_Some) Hj) as (a & c & b & -> & <- & Hc & Ha & Hb).
  rewrite list_lookup_middle in Hc0 by done. injection Hc0 as <-.
  exists ((a ++ set_joined c :: b) ++ rest). cbv zeta. split_and!.
  - split; try done. rewrite E. cbn [channels update]. rewrite !map_app. done.
  - cbn [channels channelCount update]. rewrite ztake_app_length by (rewrite Hn, !length_app; done). by apply rejoin_flags.
  - intros id. rewrite Hn, Nat2Z.id, (confirm_run id m a c b rest E Ha Hc). by rewrite Z.eqb_sym.
Qed.

(** The channels in front of the static ones. *)
Definition fixed_count m : nat := if messageChannelId m =? 0 then 2 else 3.
Definition fixed_joined m : bool := userChannelJoined m && globalChannelJoined m && ((messageChannelId m =? 0) || messageChannelJoined m).

Lemma order_static m j : join_order m !! (fixed_count m + j)%nat = map ChannelId (statics m) !! j.
Proof. unfold join_order, fixed_count. by destruct (_ =? 0). Qed.

Lemma progress_static m j :
  progress m (fixed_count m + j) <-> fixed_joined m = true /\ map joined (statics m) = first_true (length (statics m)) j.
Proof.
  unfold progress, join_flags, join_order, fixed_count, fixed_joined, statics.
  destruct (messageChannelId m =? 0); cbn [app length orb Nat.add]; rewrite length_map, !first_true_cons;
    destruct (userChannelJoined m), (globalChannelJoined m), (messageChannelJoined m); cbn [andb]; split; try done; try (by intros [= <-]); try (by intros []); try (by intros [_ ->]).
Qed.

(** What follows the confirmation of the channel at [i]: the next one is requested. *)
Definition join_after r i : outcome ((bool * bool) * rdpRdp W) :=
  match join_order (rdp_mcs r) !! S i with
  | Some next => (ok <- rdp_client_join_channel fuel next ;; pret (ok, Nat.eqb i 0)) r
  | None => Ret ((true, true), r)
  end.

Lemma join_after_static r i j :
  in_array (rdp_mcs r) -> S i = (fixed_count (rdp_mcs r) + j)%nat -> join_after r i = join_next fuel (Z.of_nat j) r.
Proof.
  intros Hin Hi. unfold join_after. rewrite Hi, order_static, join_next_run by done.
  replace (Nat.eqb i 0) with false; [done|]. symmetry. apply Nat.eqb_neq. unfold fixed_count in Hi. destruct (_ =? 0); lia.
Qed.

(** A static channel, when the ones in front are joined. *)
Lemma static_spec r j want :
  in_array (rdp_mcs r) -> progress (rdp_mcs r) (fixed_count (rdp_mcs r) + j) -> map ChannelId (statics (rdp_mcs r)) !! j = Some want ->
  (forall id, id <> want -> client_joined fuel id r = Ret ((false, true), r)) /\
  exists m', same_channels (rdp_mcs r) m' /\ progress m' (S (fixed_count (rdp_mcs r) + j)) /\
    client_joined fuel want r = join_after (r <| rdp_mcs := m' |>) (fixed_count (rdp_mcs r) + j).
Proof.
  intros Hin [Hfix Hp]%progress_static Hw. destruct (static_joined _ j want Hin Hp Hw) as (l' & Hs & Hf & Hc).
  set (m' := rdp_mcs r <| channels := l' |>) in *.
  assert (Hrun : forall id, client_joined fuel id r =
    (c <- plift (confirm_channel (Z.to_nat (channelCount (rdp_mcs r))) 0 id (rdp_mcs r)) ;;
     match c with None => pret (false, true) | Some (i, m) => upd_rdp_mcs (fun _ => m) ;; join_next fuel (i + 1) end) r).
  { intros id. unfold client_joined. rewrite pbind_pget. unfold fixed_joined in Hfix.
    destruct (userChannelJoined _), (globalChannelJoined _), (messageChannelJoined _), (messageChannelId _ =? 0); done. }
  split; [intros id Hid; rewrite Hrun, Hc; by replace (id =? want) with false by lia|].
  exists m'. split_and!; [done| |].
  - change (fixed_count (rdp_mcs r)) with (fixed_count m'). rewrite <- Nat.add_succ_r. apply progress_static. split; [done|].
    by rewrite Hf, (same_statics _ _ Hs).
  - rewrite Hrun, Hc, Z.eqb_refl, pbind_plift. rewrite (join_after_static (r <| rdp_mcs := m' |>) _ (S j)).
    + by replace (Z.of_nat j + 1) with (Z.of_nat (S j)) by lia.
    + by eapply same_in_array.
    + change (fixed_count (rdp_mcs r)) with (fixed_count m'). cbn [rdp_mcs update]. lia.
Qed.

(** The client takes a confirmation of the channel it waits for and of no other. *)
Lemma client_joined_spec r i want :
  in_array (rdp_mcs r) -> progress (rdp_mcs r) i -> join_order (rdp_mcs r) !! i = Some want ->
  (forall id, id <> want -> client_joined fuel id r = Ret ((false, true), r)) /\
  exists m', same_channels (rdp_mcs r) m' /\ progress m' (S i) /\
    client_joined fuel want r = join_after (r <| rdp_mcs := m' |>) i.
Proof.
  intros Hin Hp Hw. destruct (decide (fixed_count (rdp_mcs r) <= i)%nat) as [Hi|Hi].
  { replace i with (fixed_count (rdp_mcs r) + (i - fixed_count (rdp_mcs r)))%nat in * by lia. rewrite order_static in Hw. by apply static_spec. }
  pose proof Hp as Hp0. unfold progress, join_flags in Hp. set (m := rdp_mcs r) in *.
  unfold client_joined. setoid_rewrite pbind_pget. fold m. unfold fixed_count in Hi. unfold join_order in Hp, Hw.
  destruct i as [|[|[|i]]].
  - injection Hp as Hu Hg Hrest. injection Hw as <-. rewrite Hu. cbn [negb]. split.
    { intros id Hid. by replace (id =? userId m) with false by lia. }
    exists (m <| userChannelJoined := true |>). split_and!; [done| |by rewrite Z.eqb_refl].
    unfold progress. rewrite (same_order m) by done. cbn. f_equal. rewrite Hg. f_equal. exact Hrest.
  - injection Hp as Hu Hg Hrest. injection Hw as <-. rewrite Hu, Hg. cbn [negb]. split.
    { intros id Hid. by replace (id =? MCS_GLOBAL_CHANNEL_ID) with false by lia. }
    set (m' := m <| globalChannelJoined := true |>). exists m'. split_and!; [done| |].
    { unfold progress. rewrite (same_order m) by done. cbn. rewrite Hu, Nat.sub_0_r. do 2 f_equal. exact Hrest. }
    rewrite Z.eqb_refl. cbn [negb]. destruct (messageChannelId m =? 0) eqn:Em; cbn [negb].
    + symmetry. etransitivity; [apply (join_after_static _ _ 0); [exact Hin|]|done]. unfold fixed_count. cbn [rdp_mcs update]. change (messageChannelId m') with (messageChannelId m). by rewrite Em.
    + unfold join_after, join_order. cbn [rdp_mcs update]. change (messageChannelId m') with (messageChannelId m). by rewrite Em.
  - destruct (messageChannelId m =? 0) eqn:Em; [lia|]. injection Hp as Hu Hg Hm Hrest. injection Hw as <-.
    rewrite Hu, Hg, Hm. cbn [negb andb]. split.
    { intros id Hid. by replace (id =? messageChannelId m) with false by lia. }
    set (m' := m <| messageChannelJoined := true |>). exists m'. split_and!; [done| |].
    { unfold progress. rewrite (same_order m) by done. unfold join_flags, join_order. change (messageChannelId m') with (messageChannelId m).
      rewrite Em. cbn. rewrite Hu, Hg, Nat.sub_0_r. do 3 f_equal. exact Hrest. }
    rewrite Z.eqb_refl. cbn [negb]. symmetry. etransitivity; [apply (join_after_static _ _ 0); [exact Hin|]|done].
    unfold fixed_count. cbn [rdp_mcs update]. change (messageChannelId m') with (messageChannelId m). by rewrite Em.
  - destruct (_ =? 0); lia.
Qed.
End client.

(** ** Handlers of the client, for any transport *)

(** The callbacks of the application leave the connection alone. *)
Class QuietCallbacks (W : Type) `{HX : !Surroundings W} : Prop := {
  quiet_change st act r : PubSub_OnConnectionStateChange st act r = Ret (tt, r);
  quiet_reached st r : ReachedState st r = Ret (tt, r)
}.

(** The key exchange and the client info PDU do not change the MCS object. *)
Class InfoLaws (W : Type) `{HX : !Surroundings W} : Prop := {
  keys_law r : runs exchange_client_keys r (fun _ r' => rdp_mcs r' = rdp_mcs r);
  info_law r : runs rdp_send_client_info r (fun _ r' => rdp_mcs r' = rdp_mcs r)
}.

(** The ids that a client asks for are of 16 bits. *)
Definition ids_ok (m : rdpMcs) : Prop := channel_id (messageChannelId m) /\ Forall (fun c => channel_id (ChannelId c)) (statics m).

Lemma order_ids m : user_id (userId m) -> ids_ok m -> Forall channel_id (join_order m).
Proof.
  intros Hu [Hm Hs]. unfold user_id, MCS_BASE_CHANNEL_ID, channel_id in *. unfold join_order. cbn [app].
  apply Forall_cons. split; [lia|]. apply Forall_cons. split; [by vm_compute|].
  apply Forall_app. split; [destruct (_ =? 0); [done|by apply Forall_singleton]|]. by apply Forall_map.
Qed.

Lemma same_ids_ok m m' : same_channels m m' -> ids_ok m -> ids_ok m'.
Proof.
  intros [_ E2 E3 E4] [Hm Hs]. split; [by rewrite E2|]. apply Forall_map in Hs. apply Forall_map. unfold statics in *.
  change (fun c => ChannelId c) with ChannelId in *. rewrite map_ztake in *. by rewrite E3, (ids_of_identity _ _ E4).
Qed.

Section handlers.
Context {W : Type} `{HB : !FrontBio W} `{HP : !StreamPools W} `{HL : !WriteLaws W} `{HM : Malloc} `{HF : FreshMemory} `{HY : !ByteMemory}.
Context `{HX : !Surroundings W} `{HQ : !QuietCallbacks W} `{HC : ServerCrypto}.
Variable fuel : nat.
Implicit Types (m : rdpMcs) (i : nat) (r : rdpRdp W) (t : rdpTransport W) (s : wStream).

(** A transition that has no side effect of its own. *)
Definition plain_state (st : CONNECTION_STATE) : bool :=
  match st with
  | CONNECTION_STATE_FINALIZATION_SYNC | CONNECTION_STATE_FINALIZATION_COOPERATE
  | CONNECTION_STATE_FINALIZATION_REQUEST_CONTROL | CONNECTION_STATE_FINALIZATION_PERSISTENT_KEY_LIST
  | CONNECTION_STATE_FINALIZATION_FONT_LIST | CONNECTION_STATE_CAPABILITIES_EXCHANGE_CONFIRM_ACTIVE => false
  | _ => true
  end.

Lemma client_go st r : plain_state st = true -> rdp_client_transition_to_state st r = Ret (true, r <| rdp_state := st |>).
Proof using HQ.
  intros Hst. unfold rdp_client_transition_to_state, require, rdp_set_state. unfold pmodify, pbind, pret, pget. cbn [negb].
  destruct st; try done; by rewrite quiet_change.
Qed.

Lemma server_go st r : from_commencement (rdp_state r) = false -> rdp_server_transition_to_state st r = Ret (true, r <| rdp_state := st |>).
Proof. intros Hst. unfold rdp_server_transition_to_state. rewrite pbind_pget, Hst. done. Qed.

(** A transport that cannot hold up a PDU of a domain. *)
Definition slow r : Prop := ~ swift fuel (rdp_transport r) 15.

Lemma swift_le t n n' : n <= n' -> swift fuel t n' -> swift fuel t n.
Proof. intros Hn [(? & ? & ?)|?]; [left|by right]. split_and!; [done|done|lia]. Qed.

Lemma send_join_wp r id :
  user_id (userId (rdp_mcs r)) -> channel_id id ->
  wp (slow r) (send_mcs (mcs_send_channel_join_request fuel id)) r (fun ok r' =>
    exists t', r' = r <| rdp_transport := t' |> /\ pdu_sent (rdp_transport r) t' (channel_join_request (userId (rdp_mcs r)) id) ok).
Proof using HL HY.
  intros Hu Hid. apply wp_pzoom. unfold mcs_send_channel_join_request.
  pose proof (send_new_wp fuel 12 _ (write_channel_join_request (userId (rdp_mcs r)) id) (rdp_mcs r) (rdp_mcs r) (rdp_transport r)
    (channel_join_request (userId (rdp_mcs r)) id) ltac:(vm_compute; split; [reflexivity|discriminate]) ltac:(lia)
    (eq_refl : (p <- pget ;; pret (write_channel_join_request (userId p.1) id)) (rdp_mcs r, rdp_transport r) = _)
    (channel_join_request_fills _ _ Hu Hid)) as Hw.
  unfold wp in *. destruct (send_new _ _ _ _) as [[ok [m t]]| |]; [|done|].
  - destruct Hw as ([-> | ->] & _ & Hs); exists t; split; done.
  - intros Hp. apply Hw. eapply swift_le; [|exact Hp]. vm_compute. discriminate.
Qed.

Lemma join_channel_wp r id :
  user_id (userId (rdp_mcs r)) -> channel_id id ->
  wp (slow r) (rdp_client_join_channel fuel id) r (fun ok r' =>
    exists t' st', r' = r <| rdp_state := st' |> <| rdp_transport := t' |> /\ (ok = true -> st' = CONNECTION_STATE_MCS_CHANNEL_JOIN_RESPONSE) /\
      pdu_sent (rdp_transport r) t' (channel_join_request (userId (rdp_mcs r)) id) ok).
Proof using HL HY HQ.
  intros Hu Hid. unfold rdp_client_join_channel, require.
  eapply wp_step; [by apply client_go|]. cbn [negb]. apply wp_bind. set (r0 := r <| rdp_state := _ |>).
  change (slow r) with (slow r0). eapply wp_weaken; [by apply (send_join_wp r0 id)|].
  intros [|] r1 _ (t' & -> & Hs); cbn [negb].
  - eapply wp_step; [by apply client_go|]. apply wp_pret. by eexists _, _.
  - apply wp_pret. by eexists _, _.
Qed.

(** What a client has become when the last channel was confirmed. *)
Lemma send_info_wp `{HI : !InfoLaws W} (H : Prop) r :
  wp H rdp_client_send_client_info_and_change_state r (fun ok r' =>
    rdp_mcs r' = rdp_mcs r /\ (ok = true -> rdp_state r' = CONNECTION_STATE_CONNECT_TIME_AUTO_DETECT_REQUEST)).
Proof using HQ.
  unfold rdp_client_send_client_info_and_change_state, require at 1. apply wp_bind.
  eapply (wp_weaken _ _ _ (fun _ r' => rdp_mcs r' = rdp_mcs r)).
  { unfold rdp_client_establish_keys. apply wp_pget. destruct (negb _); [by apply wp_pret|].
    unfold require. eapply wp_step; [by apply client_go|]. cbn [negb]. eapply wp_of_runs, runs_weaken; [apply keys_law|]. done. }
  intros [|] r1 _ H1; cbn [negb]; [|by apply wp_pret]. unfold require at 1. eapply wp_step; [by apply client_go|]. cbn [negb].
  unfold require at 1. apply wp_bind. eapply wp_weaken; [apply wp_of_runs, info_law|]. intros [|] r2 _ H2; cbn [negb].
  - unfold require. eapply wp_step; [by apply client_go|]. apply wp_pret. split; [|done]. exact (eq_trans H2 H1).
  - apply wp_pret. split; [|done]. exact (eq_trans H2 H1).
Qed.

Lemma wp_on_rdp {A} (H : Prop) (m : Prog (rdpRdp W) A) r s Q :
  wp H m r (fun a r' => Q a (r', s)) -> wp H (on_rdp m) (r, s) Q.
Proof. intros Hm. by apply wp_pzoom. Qed.

Lemma same_mcs r : r <| rdp_mcs := rdp_mcs r |> = r.
Proof. by destruct r. Qed.

(** The confirmation is read, and nothing else happens. *)
Lemma recv_confirm r s : readable s ->
  exists ok id k, recv_mcs (mcs_recv_channel_join_confirm 0) (r, s) = Ret ((ok, id), (r, advance s k)) /\ 0 <= k <= zlen (unread s).
Proof.
  intros Hr. destruct (channel_join_confirm_keeps 0 (rdp_mcs r) s Hr) as ([ok id] & m & k & E & Hk & <-).
  exists ok, id, k. split; [|done]. unfold recv_mcs, pzoom. cbn [fst snd]. rewrite E. cbn [fst snd]. by rewrite same_mcs.
Qed.

(** The flags of the user and the global channel. *)
Lemma progress_fixed m i : progress m i -> userChannelJoined m = (1 <=? i)%nat /\ globalChannelJoined m = (2 <=? i)%nat.
Proof.
  unfold progress, join_flags. cbn [app]. destruct i as [|[|i]]; cbn [first_true replicate app length join_order Nat.sub]; by intros [= -> ->].
Qed.

Lemma progress_le m i want : join_order m !! i = Some want -> (i < length (join_order m))%nat.
Proof. apply lookup_lt_Some. Qed.

(** After the confirmation of the channel at [i]. *)
Definition confirmed r i rc (p : rdpRdp W * wStream) : Prop :=
  rc = STATE_RUN_FAILED \/
  rc = STATE_RUN_SUCCESS /\ same_channels (rdp_mcs r) (rdp_mcs p.1) /\ progress (rdp_mcs p.1) (S i) /\
  match join_order (rdp_mcs r) !! S i with
  | Some next => rdp_state p.1 = CONNECTION_STATE_MCS_CHANNEL_JOIN_RESPONSE /\
      pdu_sent (rdp_transport r) (rdp_transport p.1) (channel_join_request (userId (rdp_mcs r)) next) true
  | None => rdp_state p.1 = CONNECTION_STATE_CONNECT_TIME_AUTO_DETECT_REQUEST
  end.

Lemma confirm_taken_wp `{HI : !InfoLaws W} r i want s :
  in_array (rdp_mcs r) -> progress (rdp_mcs r) i -> join_order (rdp_mcs r) !! i = Some want -> user_id (userId (rdp_mcs r)) -> ids_ok (rdp_mcs r) ->
  wp (slow r) (res <- on_rdp (client_joined fuel want) ;;
    let '(ok, allJoined) := res in
    if negb ok then pret STATE_RUN_FAILED else
    p <- pget ;;
    if userChannelJoined (rdp_mcs p.1) && globalChannelJoined (rdp_mcs p.1) && allJoined
    then or_fail (require (on_rdp rdp_client_send_client_info_and_change_state) (pret true)) (pret STATE_RUN_SUCCESS)
    else pret STATE_RUN_SUCCESS) (r, s) (confirmed r i).
Proof using HL HY HQ.
  intros Hin Hp Hw Hu Hids. destruct (client_joined_spec fuel r i want Hin Hp Hw) as (_ & m' & Hs & Hp' & E).
  set (r1 := r <| rdp_mcs := m' |>) in *. pose proof (progress_fixed _ _ Hp') as [Hf1 Hf2]. unfold confirmed.
  unfold wp, pbind at 1, on_rdp at 1, pzoom. cbn [fst snd]. rewrite E. unfold join_after.
  change (rdp_mcs r1) with m'. rewrite (same_order _ _ Hs). destruct (join_order (rdp_mcs r) !! S i) as [next|] eqn:En.
  - pose proof (join_channel_wp r1 next) as Hj. change (slow r1) with (slow r) in Hj. change (rdp_mcs r1) with m' in Hj.
    rewrite (same_user _ _ Hs) in Hj. specialize (Hj Hu).
    specialize (Hj ltac:(pose proof (order_ids _ Hu Hids) as Ho; rewrite Forall_lookup in Ho; by eapply Ho)).
    unfold wp, pbind in *. destruct (rdp_client_join_channel fuel next r1) as [[ok r2]| |]; [|done|done].
    destruct Hj as (t' & st' & -> & Hst & Hsent). cbn [pret negb]. destruct ok; cbn [negb]; [|by left]. unfold pget. cbn [fst].
    rewrite (Hst eq_refl). set (r2 := r1 <| rdp_state := _ |> <| rdp_transport := t' |>). change (rdp_mcs r2) with m'.
    rewrite Hf1, Hf2. replace (_ && _ && _) with false by (by destruct i as [|[|i]]). right. done.
  - cbn [negb]. rewrite pbind_pget. cbn [fst]. change (rdp_mcs r1) with m'. rewrite Hf1, Hf2.
    assert (Hi : (1 <= i)%nat) by (destruct i as [|i]; [done|lia]). destruct i as [|i]; [lia|]. cbn [Nat.leb andb].
    unfold or_fail, require, pbind. pose proof (send_info_wp (slow r) r1) as Hinfo. unfold wp, on_rdp, pzoom in *. cbn [fst snd].
    destruct (rdp_client_send_client_info_and_change_state r1) as [[ok r2]| |]; [|done|done]. destruct Hinfo as [Hm Hst].
    destruct ok; cbn [negb pret]; [|by left]. right. cbn [fst snd]. rewrite Hm. split_and!; [done|done|done|by apply Hst].
Qed.

(** The handler is its two parts. *)
Lemma confirm_parts r s : rdp_state r = CONNECTION_STATE_MCS_CHANNEL_JOIN_RESPONSE -> readable s ->
  exists ok id k, 0 <= k <= zlen (unread s) /\
    mcs_recv_channel_join_confirm 0 (rdp_mcs r, s) = Ret ((ok, id), (rdp_mcs r, advance s k)) /\
    rdp_recv_callback_int fuel (r, s) =
      if negb ok then Ret (STATE_RUN_FAILED, (r, advance s k)) else
      (res <- on_rdp (client_joined fuel id) ;;
       let '(ok, allJoined) := res in
       if negb ok then pret STATE_RUN_FAILED else
       p <- pget ;;
       if userChannelJoined (rdp_mcs p.1) && globalChannelJoined (rdp_mcs p.1) && allJoined
       then or_fail (require (on_rdp rdp_client_send_client_info_and_change_state) (pret true)) (pret STATE_RUN_SUCCESS)
       else pret STATE_RUN_SUCCESS) (r, advance s k).
Proof.
  intros Hst Hr. destruct (channel_join_confirm_keeps 0 (rdp_mcs r) s Hr) as ([ok id] & m & k & E & Hk & <-).
  exists ok, id, k. split_and!; [lia|lia|done|]. unfold rdp_recv_callback_int. rewrite pbind_pget. cbn [fst]. rewrite Hst.
  unfold rdp_client_connect_mcs_channel_join_confirm, or_fail, require, recv_mcs, pbind, pzoom, pget. cbn [fst snd].
  rewrite E. cbn [fst snd]. rewrite same_mcs. destruct ok; [|done]. cbn [negb].
  destruct (on_rdp (client_joined fuel id) (r, advance s k)) as [[[[] all] p]| |]; [|done|done|done]. cbn [negb].
  destruct (_ && _); [|done]. by destruct (on_rdp _ p) as [[[] ?]| |].
Qed.

(** A handler that is done is not called again. *)
Lemma callback_once_wp (H : Prop) n r s Q :
  readable s -> wp H (rdp_recv_callback_int fuel) (r, s) (fun rc p => (rc = STATE_RUN_FAILED \/ rc = STATE_RUN_SUCCESS) /\ Q rc p) ->
  wp H (rdp_recv_callback fuel (S n)) (r, s) Q.
Proof.
  intros [Hs _] Hw. unfold rdp_recv_callback. eapply wp_step; [by apply at_s_ret, position_spec|].
  cbn [client_rounds]. change (STATE_RUN_FAILED =? STATE_RUN_TRY_AGAIN) with false. cbv iota. eapply wp_step; [done|].
  apply wp_bind. eapply wp_weaken; [exact Hw|]. intros rc p _ [[-> | ->] HQ']; by apply wp_pret.
Qed.

Lemma join_confirm_wp `{HI : !InfoLaws W} n r i want s :
  rdp_state r = CONNECTION_STATE_MCS_CHANNEL_JOIN_RESPONSE ->
  in_array (rdp_mcs r) -> progress (rdp_mcs r) i -> join_order (rdp_mcs r) !! i = Some want -> user_id (userId (rdp_mcs r)) -> ids_ok (rdp_mcs r) ->
  readable s -> wp (slow r) (rdp_recv_callback fuel (S n)) (r, s) (confirmed r i).
Proof using HL HY HQ.
  intros Hst Hin Hp Hw Hu Hids Hr. apply callback_once_wp; [done|]. eapply (wp_weaken _ _ _ (confirmed r i)).
  2: { intros rc p _ Hc. split; [|done]. destruct Hc as [-> | (-> & _)]; [by left|by right]. }
  destruct (confirm_parts r s Hst Hr) as (ok & id & k & _ & _ & E). unfold wp at 1. rewrite E.
  destruct ok; cbn [negb]; [|by left]. destruct (decide (id = want)) as [-> | Hid]; [by apply confirm_taken_wp|].
  destruct (client_joined_spec fuel r i want Hin Hp Hw) as (Hno & _). unfold pbind at 1, on_rdp, pzoom. cbn [fst snd]. rewrite Hno by done. by left.
Qed.

Lemma join_all_run m : in_array m ->
  exists m', join_all m = Ret m' /\ same_channels m m' /\ progress m' (length (join_order m)).
Proof.
  intros Hin. destruct (channels_split m Hin) as (l & rest & E & El & Hn). unfold join_all. destruct Hin as [_ Hle].
  replace (_ <=? _) with true by lia. rewrite El, E.
  assert (Hd : zdrop (channelCount m) (l ++ rest) = rest) by (unfold zdrop; by rewrite Hn, Nat2Z.id, drop_app_length). rewrite Hd.
  set (m' := m <| userChannelJoined := true |> <| globalChannelJoined := true |> <| messageChannelJoined := true |> <| channels := map set_joined l ++ rest |>).
  assert (Hs : same_channels m m').
  { split; try done. rewrite E. unfold m'. cbn [channels update]. rewrite !map_app, map_map. done. }
  exists m'. split_and!; [done|done|]. unfold progress. rewrite (same_order _ _ Hs), first_true_all by done.
  unfold join_flags, join_order. change (channelCount m') with (channelCount m). change (channels m') with (map set_joined l ++ rest).
  rewrite El, ztake_app_length by (by rewrite length_map). rewrite map_map. change (messageChannelId m') with (messageChannelId m).
  assert (Hl : map (fun c => joined (set_joined c)) l = replicate (length l) true) by (clear; induction l as [|c l IH]; [done|exact (f_equal (cons true) IH)]).
  rewrite Hl, !length_app, length_map. cbn [length Nat.add]. by destruct (_ =? 0).
Qed.

(** After the confirmation of the user. *)
Definition attached r rc (p : rdpRdp W * wStream) : Prop :=
  rc = STATE_RUN_FAILED \/
  rc = STATE_RUN_SUCCESS /\ exists u, user_id u /\ let m := rdp_mcs r <| userId := u |> in same_channels m (rdp_mcs p.1) /\
  if SupportSkipChannelJoin (rdp_settings r) then
    rdp_state p.1 = CONNECTION_STATE_CONNECT_TIME_AUTO_DETECT_REQUEST /\ progress (rdp_mcs p.1) (length (join_order m))
  else rdp_state p.1 = CONNECTION_STATE_MCS_CHANNEL_JOIN_RESPONSE /\ rdp_mcs p.1 = m /\
    pdu_sent (rdp_transport r) (rdp_transport p.1) (channel_join_request u u) true.

Lemma attach_confirm_wp `{HI : !InfoLaws W} n r s :
  rdp_state r = CONNECTION_STATE_MCS_ATTACH_USER_CONFIRM -> in_array (rdp_mcs r) ->
  readable s -> wp (slow r) (rdp_recv_callback fuel (S n)) (r, s) (attached r).
Proof using HL HY HQ.
  intros Hst Hin Hr. apply callback_once_wp; [done|]. eapply (wp_weaken _ _ _ (attached r)).
  2: { intros rc p _ Hc. split; [|done]. destruct Hc as [-> | (-> & _)]; [by left|by right]. }
  destruct (attach_user_confirm_user (rdp_mcs r) s Hr) as (ok & m & k & E & Hk & [Hm _] & Hu).
  unfold rdp_recv_callback_int. apply wp_pget. cbn [fst]. rewrite Hst. unfold or_fail at 1.
  eapply wp_step; [unfold recv_mcs, pzoom; cbn [fst snd]; rewrite E; reflexivity|]. cbn [fst snd].
  destruct ok; cbn [negb]; [|apply wp_pret; by left]. specialize (Hu eq_refl). set (u := userId m) in *. clearbody u. subst m.
  set (m := rdp_mcs r <| userId := u |>). apply wp_pget. cbn [fst]. set (r1 := r <| rdp_mcs := m |>).
  change (rdp_settings r1) with (rdp_settings r). unfold attached. destruct (SupportSkipChannelJoin (rdp_settings r)) eqn:Esk; cbn [negb].
  - unfold or_fail at 1. apply wp_bind, wp_on_rdp. unfold rdp_client_skip_mcs_channel_join, mark_all_joined.
    destruct (join_all_run m Hin) as (m' & Ej & Hs & Hp).
    eapply wp_step; [unfold pbind, pget, plift, pmodify; change (rdp_mcs r1) with m; rewrite Ej; reflexivity|].
    eapply wp_weaken; [apply send_info_wp|]. intros ok r2 _ [Hm2 Hst2]. destruct ok; cbn [negb]; [|apply wp_pret; by left].
    apply wp_pret. right. split; [done|]. exists u. cbn [fst]. rewrite Hm2. split_and!; [done|done|by apply Hst2|done].
  - unfold or_fail at 1. apply wp_bind, wp_on_rdp. eapply wp_eq; [by apply client_go|]. cbn [negb]. set (r2 := r1 <| rdp_state := _ |>).
    apply wp_pget. cbn [fst]. change (userId (rdp_mcs r2)) with u. unfold or_fail at 1. apply wp_bind, wp_on_rdp.
    assert (Hcu : channel_id u) by (unfold user_id, channel_id, MCS_BASE_CHANNEL_ID in *; lia).
    change (slow r) with (slow r2). eapply wp_weaken; [by apply send_join_wp|]. intros ok r3 _ (t' & -> & Hsent).
    destruct ok; cbn [negb]; [|apply wp_pret; by left]. unfold or_fail. apply wp_bind, wp_on_rdp. eapply wp_eq; [by apply client_go|].
    apply wp_pret. right. split; [done|]. exists u. split_and!; [done|done|done|done|exact Hsent].
Qed.

(** ** A client among arbitrary PDUs *)

(** The client handles what it receives until the channels are joined or a handler fails. *)
Definition waits r : Prop :=
  rdp_state r = CONNECTION_STATE_MCS_ATTACH_USER_CONFIRM \/ rdp_state r = CONNECTION_STATE_MCS_CHANNEL_JOIN_RESPONSE.

Inductive client_run (r0 : rdpRdp W) : rdpRdp W -> Prop :=
| run_start : client_run r0 r0
| run_received r s n rc r' s' :
    client_run r0 r -> waits r -> readable s -> rdp_recv_callback fuel (S n) (r, s) = Ret (rc, (r', s')) ->
    state_run_failed rc = false -> client_run r0 r'.

(** The transport was given these PDUs in their order and has accepted a prefix of each (a write that
    the BIO answers with 0 counts as a success); a BIO that takes what it is given has got all their bytes. *)
Definition gave (w0 w : W) (pdus : list (list Z)) : Prop :=
  (exists ks, length ks = length pdus /\ outbox w = outbox w0 ++ concat (zip_with ztake ks pdus)) /\
  (forall E, takes_all E -> E w0 -> E w /\ outbox w = outbox w0 ++ concat pdus).

(** Requests for the first [n] channels. *)
Definition requested (w0 w : W) (u : Z) (order : list Z) (n : nat) : Prop :=
  gave w0 w (map (channel_join_request u) (take n order)).

Definition client_inv r0 r : Prop :=
  exists u, let m0 := rdp_mcs r0 <| userId := u |> in same_channels m0 (rdp_mcs r) /\
  match rdp_state r with
  | CONNECTION_STATE_MCS_ATTACH_USER_CONFIRM => r = r0
  | CONNECTION_STATE_MCS_CHANNEL_JOIN_RESPONSE =>
      user_id u /\ receive_fields (rdp_transport r) = receive_fields (rdp_transport r0) /\
      exists i, (i < length (join_order m0))%nat /\ progress (rdp_mcs r) i /\
        requested (bio (rdp_transport r0)) (bio (rdp_transport r)) u (join_order m0) (S i)
  | CONNECTION_STATE_CONNECT_TIME_AUTO_DETECT_REQUEST => user_id u /\ progress (rdp_mcs r) (length (join_order m0))
  | _ => False
  end.

Lemma gave_nil w : gave w w [].
Proof. split; [exists []|intros E _ Hw]; by rewrite app_nil_r. Qed.

Lemma gave_snoc w0 w w' pdus pdu : gave w0 w pdus -> gave w w' [pdu] -> gave w0 w' (pdus ++ [pdu]).
Proof.
  intros [(ks & Hk & Ho) HE] [(js & Hj & Ho') HE']. split.
  - exists (ks ++ js). rewrite !length_app, Hk, Hj. split; [done|]. rewrite Ho', Ho, <- app_assoc. f_equal.
    by rewrite zip_with_app, concat_app by done.
  - intros E HT Hw. destruct (HE E HT Hw) as [H1 H2]. destruct (HE' E HT H1) as [H3 H4]. split; [done|].
    by rewrite H4, H2, <- app_assoc, concat_app.
Qed.

Lemma requested_snoc w0 w w' u order n id :
  requested w0 w u order n -> order !! n = Some id -> gave w w' [channel_join_request u id] -> requested w0 w' u order (S n).
Proof. intros Hr Hid Hw. unfold requested. rewrite (take_S_r _ _ _ Hid), map_app. by apply (gave_snoc _ w). Qed.

Lemma sent_gave t t' pdu : pdu_sent t t' pdu true -> receive_fields t' = receive_fields t /\ gave (bio t) (bio t') [pdu].
Proof.
  intros (_ & Hf & [(_ & ? & _)|(st & k & _ & _ & Hall & Ho & HE & _)]); [done|]. split; [done|]. split.
  - exists [k]. split; [done|]. cbn. by rewrite app_nil_r.
  - intros E HT Hw. destruct (HE E HT Hw) as [Hst Hw']. split; [done|]. cbn. by rewrite Ho, (Hall Hst), ztake_all, app_nil_r by lia.
Qed.

Lemma prompt_fields t t' n : receive_fields t' = receive_fields t -> prompt fuel t n -> prompt fuel t' n.
Proof. intros E (H1 & H2 & H3). unfold receive_fields in E. injection E as ????????? E10. split_and!; congruence || done. Qed.

Context `{HI : !InfoLaws W}.

Lemma client_step_wp r0 r n s :
  in_array (rdp_mcs r0) -> ids_ok (rdp_mcs r0) -> progress (rdp_mcs r0) 0 -> prompt fuel (rdp_transport r0) 15 ->
  client_inv r0 r -> waits r -> readable s ->
  wp False (rdp_recv_callback fuel (S n)) (r, s) (fun rc p => rc = STATE_RUN_FAILED \/ rc = STATE_RUN_SUCCESS /\ client_inv r0 p.1).
Proof using HL HY HQ HI.
  intros Hin Hids Hp0 Hpr (u & Hs & Hinv) Hwt Hr. destruct Hwt as [Hst|Hst]; rewrite Hst in Hinv.
  - subst r. pose proof (attach_confirm_wp n r0 s Hst Hin Hr) as Hw. unfold wp in *.
    destruct (rdp_recv_callback fuel (S n) (r0, s)) as [[rc p]| |]; [|done|by apply Hw; left].
    destruct Hw as [-> | (-> & u' & Hu & Hs' & Hrest)]; [by left|right]. split; [done|]. exists u'. split; [done|].
    destruct (SupportSkipChannelJoin _); [destruct Hrest as (-> & Hp); done|]. destruct Hrest as (-> & Hm & Hsent).
    destruct (sent_gave _ _ _ Hsent) as (Hf & Ho). split_and!; [done|done|]. exists 0%nat. split_and!; [cbn; lia| |].
    + rewrite Hm. exact Hp0.
    + exact Ho.
  - destruct Hinv as (Hu & Hf & i & Hi & Hp & Hreq). set (m0 := rdp_mcs r0 <| userId := u |>) in *.
    destruct (lookup_lt_is_Some_2 _ _ Hi) as [want Hw]. rewrite <- (same_order _ _ Hs) in Hw.
    pose proof (join_confirm_wp n r i want s Hst (same_in_array _ _ Hs Hin) Hp Hw ltac:(by rewrite (same_user _ _ Hs)) (same_ids_ok _ _ Hs Hids) Hr) as Hwp.
    unfold wp in *. destruct (rdp_recv_callback fuel (S n) (r, s)) as [[rc p]| |]; [|done|apply Hwp; left; by eapply prompt_fields].
    destruct Hwp as [-> | (-> & Hs' & Hp' & Hrest)]; [by left|right]. split; [done|]. exists u. fold m0. split; [by eapply same_trans|].
    rewrite (same_order _ _ Hs) in Hrest. destruct (join_order m0 !! S i) as [next|] eqn:En.
    + destruct Hrest as (-> & Hsent). destruct (sent_gave _ _ _ Hsent) as (Hf' & Ho). rewrite (same_user _ _ Hs) in Ho. change (userId m0) with u in Ho.
      split_and!; [done|congruence|]. exists (S i). split_and!; [by eapply lookup_lt_Some|done|]. by eapply requested_snoc.
    + rewrite Hrest. split; [done|]. apply lookup_ge_None in En. replace (length (join_order m0)) with (S i) by lia. done.
Qed.

Lemma client_run_inv r0 r :
  rdp_state r0 = CONNECTION_STATE_MCS_ATTACH_USER_CONFIRM ->
  in_array (rdp_mcs r0) -> ids_ok (rdp_mcs r0) -> progress (rdp_mcs r0) 0 -> prompt fuel (rdp_transport r0) 15 ->
  client_run r0 r -> client_inv r0 r.
Proof using HL HY HQ HI.
  intros Hst Hin Hids Hp0 Hpr. induction 1 as [|r s n rc r' s' Hrun IH Hwt Hr E Hrc].
  - exists (userId (rdp_mcs r0)). rewrite Hst. by destruct (rdp_mcs r0).
  - pose proof (wp_ret _ _ _ _ _ _ (client_step_wp r0 r n s Hin Hids Hp0 Hpr IH Hwt Hr) E) as [-> | [_ Hinv]]; [done|exact Hinv].
Qed.
End handlers.

(** ** The server *)

Section server.
Implicit Types (m : rdpMcs).

(** The flags after a request for [id]. *)
Definition mark_flags (id : Z) (flags : list bool) (order : list Z) : list bool := zip_with (fun f c => f || (c =? id)) flags order.

Lemma mark_channels_flags id l :
  map joined (map (mark_channel id) l) = mark_flags id (map joined l) (map ChannelId l) /\ map identity (map (mark_channel id) l) = map identity l.
Proof.
  unfold mark_flags. induction l as [|c l [IH1 IH2]]; [done|]. cbn [map zip_with]. rewrite IH1, IH2. unfold mark_channel.
  destruct (ChannelId c =? id); [by rewrite orb_true_r|by rewrite orb_false_r].
Qed.

Lemma forallb_joined l : forallb joined l = forallb id (map joined l).
Proof. induction l as [|c l IH]; [done|]. cbn. by rewrite IH. Qed.

(** The channels with this id are joined, and the result tells whether all static channels are. *)
Lemma server_joined_spec id m : in_array m ->
  exists all m', server_joined id m = Ret (all, m') /\ same_channels m m' /\
    join_flags m' = mark_flags id (join_flags m) (join_order m) /\
    userChannelJoined m' && globalChannelJoined m' && ((messageChannelId m' =? 0) || messageChannelJoined m') && all =
      forallb Datatypes.id (join_flags m').
Proof.
  intros Hin. destruct (channels_split m Hin) as (l & rest & E & El & Hn). destruct Hin as [_ Hle].
  destruct (mark_channels_flags id l) as [Hf Hi]. unfold server_joined. cbv zeta.
  set (m1 := if id =? userId m then _ else _). set (m2 := if id =? MCS_GLOBAL_CHANNEL_ID then _ else _). set (m3 := if id =? messageChannelId m2 then _ else _).
  assert (H1 : userId m3 = userId m /\ messageChannelId m3 = messageChannelId m /\ channelCount m3 = channelCount m /\ channels m3 = channels m /\
    userChannelJoined m3 = userChannelJoined m || (userId m =? id) /\ globalChannelJoined m3 = globalChannelJoined m || (MCS_GLOBAL_CHANNEL_ID =? id) /\
    messageChannelJoined m3 = messageChannelJoined m || (messageChannelId m =? id)).
  { unfold m3, m2, m1. rewrite (Z.eqb_sym (userId m)), (Z.eqb_sym MCS_GLOBAL_CHANNEL_ID), (Z.eqb_sym (messageChannelId m)).
    destruct (id =? userId m), (id =? MCS_GLOBAL_CHANNEL_ID); cbn [messageChannelId update]; destruct (id =? messageChannelId m); cbn;
      split_and!; done || by rewrite ?orb_true_r, ?orb_false_r. }
  clearbody m3. clear m1 m2. destruct H1 as (E1 & E2 & E3 & E4 & F1 & F2 & F3).
  unfold mark_channels. rewrite E3, E4. replace (_ <=? _) with true by lia. rewrite El.
  assert (Hd : zdrop (channelCount m) (channels m) = rest) by (rewrite E; unfold zdrop; by rewrite Hn, Nat2Z.id, drop_app_length). rewrite Hd.
  set (m' := m3 <| channels := _ |>). eexists _, m'. split; [reflexivity|].
  assert (Ht : ztake (channelCount m') (channels m') = map (mark_channel id) l).
  { unfold m'. cbn [channels channelCount update]. apply ztake_app_length. by rewrite length_map, E3. }
  assert (Hfl : join_flags m' = mark_flags id (join_flags m) (join_order m)).
  { unfold join_flags, join_order. rewrite Ht, El, Hf. change (messageChannelId m') with (messageChannelId m3). rewrite E2.
    change (userChannelJoined m') with (userChannelJoined m3). change (globalChannelJoined m') with (globalChannelJoined m3).
    change (messageChannelJoined m') with (messageChannelJoined m3). rewrite F1, F2, F3. unfold mark_flags. by destruct (_ =? 0). }
  split_and!; [|done|].
  - split; try done. unfold m'. cbn [channels update]. by rewrite map_app, Hi, E, map_app.
  - rewrite forallb_joined. unfold join_flags. rewrite Ht. cbn [app forallb]. rewrite forallb_app. unfold Datatypes.id at 1 2. rewrite !andb_assoc.
    f_equal. f_equal. destruct (messageChannelId m' =? 0); [done|]. cbn. by rewrite andb_true_r.
Qed.
End server.

Section serving.
Context {W : Type} `{HB : !FrontBio W} `{HP : !StreamPools W} `{HL : !WriteLaws W} `{HM : Malloc} `{HF : FreshMemory} `{HY : !ByteMemory}.
Context `{HX : !Surroundings W} `{HQ : !QuietCallbacks W} `{HC : ServerCrypto}.
Variable fuel : nat.
Implicit Types (m : rdpMcs) (r : rdpRdp W) (s : wStream) (h : list Z).
Local Abbreviation slow := (slow fuel).

Lemma send_confirm_wp r id :
  user_id (userId (rdp_mcs r)) -> channel_id id ->
  wp (slow r) (send_mcs (mcs_send_channel_join_confirm fuel id)) r (fun ok r' =>
    exists t', r' = r <| rdp_transport := t' |> /\ pdu_sent (rdp_transport r) t' (channel_join_confirm (userId (rdp_mcs r)) id) ok).
Proof using HL HY.
  intros Hu Hid. apply wp_pzoom. unfold mcs_send_channel_join_confirm.
  pose proof (send_new_wp fuel 15 _ (write_channel_join_confirm (userId (rdp_mcs r)) id) (rdp_mcs r) (rdp_mcs r) (rdp_transport r)
    (channel_join_confirm (userId (rdp_mcs r)) id) ltac:(vm_compute; split; [reflexivity|discriminate]) ltac:(lia)
    (eq_refl : (p <- pget ;; pret (write_channel_join_confirm (userId p.1) id)) (rdp_mcs r, rdp_transport r) = _)
    (channel_join_confirm_fills _ _ Hu Hid)) as Hw.
  unfold wp in *. destruct (send_new _ _ _ _) as [[ok [m t]]| |]; [|done|exact Hw].
  destruct Hw as ([-> | ->] & _ & Hs); exists t; split; done.
Qed.

Lemma server_once_wp (H : Prop) n r s Q :
  readable s -> wp H (peer_recv_callback_internal fuel) (r, s) (fun rc p => (rc = STATE_RUN_FAILED \/ rc = STATE_RUN_SUCCESS) /\ Q rc p) ->
  wp H (peer_recv_callback fuel (S n)) (r, s) Q.
Proof.
  intros [Hs _] Hw. unfold peer_recv_callback. eapply wp_step; [by apply at_s_ret, position_spec|].
  cbn [server_rounds]. change (STATE_RUN_FAILED =? STATE_RUN_TRY_AGAIN) with false. cbv iota. eapply wp_step; [done|].
  apply wp_bind. eapply wp_weaken; [exact Hw|]. intros rc p _ [[-> | ->] HQ']; by apply wp_pret.
Qed.

(** After a request for [id] that was read from the stream. *)
Definition served r (res : bool * Z) rc (p : rdpRdp W * wStream) : Prop :=
  rc = STATE_RUN_FAILED /\ (res.1 = true -> exists t', pdu_sent (rdp_transport r) t' (channel_join_confirm (userId (rdp_mcs r)) res.2) false) \/
  rc = STATE_RUN_SUCCESS /\ res.1 = true /\ same_channels (rdp_mcs r) (rdp_mcs p.1) /\ rdp_settings p.1 = rdp_settings r /\
  join_flags (rdp_mcs p.1) = mark_flags res.2 (join_flags (rdp_mcs r)) (join_order (rdp_mcs r)) /\
  rdp_state p.1 = (if forallb id (join_flags (rdp_mcs p.1)) then CONNECTION_STATE_RDP_SECURITY_COMMENCEMENT
                   else CONNECTION_STATE_MCS_CHANNEL_JOIN_REQUEST) /\
  pdu_sent (rdp_transport r) (rdp_transport p.1) (channel_join_confirm (userId (rdp_mcs r)) res.2) true.

Lemma join_request_wp n r s :
  rdp_state r = CONNECTION_STATE_MCS_CHANNEL_JOIN_REQUEST -> TransportDumpReplay (rdp_settings r) = false ->
  in_array (rdp_mcs r) -> user_id (userId (rdp_mcs r)) -> readable s ->
  exists res k, mcs_recv_channel_join_request false 0 (rdp_mcs r, s) = Ret (res, (rdp_mcs r, advance s k)) /\ 0 <= k <= zlen (unread s) /\
    wp (slow r) (peer_recv_callback fuel (S n)) (r, s) (served r res).
Proof using HL HY HQ.
  intros Hst Hrep Hin Hu Hr. destruct (channel_join_request_keeps 0 (rdp_mcs r) s Hr) as (res & m & k & E & Hk & -> & Hid).
  exists res, k. split_and!; [done|lia|lia|]. apply server_once_wp; [done|]. eapply (wp_weaken _ _ _ (served r res)).
  2: { intros rc p _ Hc. split; [|done]. destruct Hc as [(-> & _) | (-> & _)]; [by left|by right]. }
  unfold peer_recv_callback_internal. apply wp_pget. cbn [fst]. apply wp_bind, wp_on_rdp. eapply wp_eq; [apply quiet_reached|].
  apply wp_pget. cbn [fst]. rewrite Hst. unfold or_fail. apply wp_bind. unfold rdp_server_accept_mcs_channel_join_request.
  eapply wp_step; [unfold in_state, pbind, pget, passert; cbn [fst]; rewrite bool_decide_true by done; reflexivity|].
  apply wp_pget. cbn [fst]. rewrite Hrep.
  eapply wp_step; [unfold recv_mcs, pzoom; cbn [fst snd]; rewrite E; cbn [fst snd]; rewrite same_mcs; reflexivity|].
  destruct res as [ok id]. destruct ok; cbn [negb]; [|apply wp_pret; by left]. specialize (Hid eq_refl). cbn [snd] in Hid.
  unfold require at 1. apply wp_bind, wp_on_rdp. eapply wp_eq; [apply server_go; by rewrite Hst|]. cbn [negb]. set (r1 := r <| rdp_state := _ |>).
  unfold require. apply wp_bind, wp_on_rdp. change (slow r) with (slow r1). eapply wp_weaken; [by apply send_confirm_wp|].
  intros ok r2 _ (t' & -> & Hsent). destruct ok; cbn [negb]; [|apply wp_pret; left; split; [done|]; intros _; by exists t']. set (r2 := r1 <| rdp_transport := t' |>).
  apply wp_pget. cbn [fst]. change (rdp_mcs r2) with (rdp_mcs r).
  destruct (server_joined_spec id (rdp_mcs r) Hin) as (all & m' & Ej & Hs & Hf & Hall).
  eapply wp_step; [unfold plift; rewrite Ej; reflexivity|]. apply wp_bind, wp_on_rdp. eapply wp_eq; [done|].
  apply wp_on_rdp. rewrite Hall. eapply wp_eq; [by apply server_go|]. apply wp_pret. right. split_and!; try done; apply Hs.
Qed.

(** ** A server among arbitrary requests *)

(** The requests that were accepted, in their order. *)
Inductive server_run (r0 : rdpRdp W) : list Z -> rdpRdp W -> Prop :=
| serve_start : server_run r0 [] r0
| serve_request h r s n ok id q r' s' :
    server_run r0 h r -> rdp_state r = CONNECTION_STATE_MCS_CHANNEL_JOIN_REQUEST -> readable s ->
    mcs_recv_channel_join_request false 0 (rdp_mcs r, s) = Ret ((ok, id), q) ->
    peer_recv_callback fuel (S n) (r, s) = Ret (STATE_RUN_SUCCESS, (r', s')) -> server_run r0 (h ++ [id]) r'.

(** Exactly the channels that were asked for are joined; the state tells whether these are all; every
    request was answered. *)
Record server_inv (r0 : rdpRdp W) h r : Prop := {
  si_same : same_channels (rdp_mcs r0) (rdp_mcs r);
  si_settings : rdp_settings r = rdp_settings r0;
  si_fields : receive_fields (rdp_transport r) = receive_fields (rdp_transport r0);
  si_flags : join_flags (rdp_mcs r) = map (fun c => bool_decide (c ∈ h)) (join_order (rdp_mcs r0));
  si_state : rdp_state r = if bool_decide (Forall (fun c => c ∈ h) (join_order (rdp_mcs r0))) then CONNECTION_STATE_RDP_SECURITY_COMMENCEMENT
                           else CONNECTION_STATE_MCS_CHANNEL_JOIN_REQUEST;
  si_sent : gave (bio (rdp_transport r0)) (bio (rdp_transport r)) (map (channel_join_confirm (userId (rdp_mcs r0))) h)
}.

Lemma mark_history id h order :
  mark_flags id (map (fun c => bool_decide (c ∈ h)) order) order = map (fun c => bool_decide (c ∈ h ++ [id])) order.
Proof.
  unfold mark_flags. induction order as [|c order IH]; [done|]. cbn [map zip_with]. rewrite IH. f_equal.
  destruct (c =? id) eqn:E; [rewrite orb_true_r; symmetry; apply bool_decide_eq_true, elem_of_app; right; apply list_elem_of_singleton; lia|].
  rewrite orb_false_r. apply bool_decide_ext. rewrite elem_of_app, list_elem_of_singleton. split; [by left|intros [|]; [done|lia]].
Qed.

Lemma forallb_history h order : forallb id (map (fun c => bool_decide (c ∈ h)) order) = bool_decide (Forall (fun c => c ∈ h) order).
Proof.
  induction order as [|c order IH]; [done|]. cbn [map forallb]. rewrite IH. unfold id at 1. rewrite <- bool_decide_and. apply bool_decide_ext. by rewrite Forall_cons.
Qed.

Lemma server_step r0 h r n s :
  TransportDumpReplay (rdp_settings r0) = false -> in_array (rdp_mcs r0) -> user_id (userId (rdp_mcs r0)) -> prompt fuel (rdp_transport r0) 15 ->
  server_inv r0 h r -> rdp_state r = CONNECTION_STATE_MCS_CHANNEL_JOIN_REQUEST -> readable s ->
  exists res k, mcs_recv_channel_join_request false 0 (rdp_mcs r, s) = Ret (res, (rdp_mcs r, advance s k)) /\
    wp False (peer_recv_callback fuel (S n)) (r, s) (fun rc p =>
      rc = STATE_RUN_FAILED \/ rc = STATE_RUN_SUCCESS /\ server_inv r0 (h ++ [res.2]) p.1).
Proof using HL HY HQ.
  intros Hrep Hin Hu Hpr [Hs Hset Hfld Hflags Hstate Ho] Hst Hr.
  destruct (join_request_wp n r s Hst ltac:(by rewrite Hset) (same_in_array _ _ Hs Hin) ltac:(by rewrite (same_user _ _ Hs)) Hr)
    as (res & k & E & _ & Hw). exists res, k. split; [done|]. unfold wp in *.
  destruct (peer_recv_callback fuel (S n) (r, s)) as [[rc p]| |]; [|done|apply Hw; left; by eapply prompt_fields].
  destruct Hw as [(-> & _) | (-> & _ & Hs' & Hset' & Hf' & Hst' & Hsent)]; [by left|right]. split; [done|].
  destruct (sent_gave _ _ _ Hsent) as (Hfl & Hj).
  assert (Hflags' : join_flags (rdp_mcs p.1) = map (fun c => bool_decide (c ∈ h ++ [res.2])) (join_order (rdp_mcs r0)))
    by (by rewrite Hf', Hflags, (same_order _ _ Hs), mark_history).
  constructor; [by eapply same_trans|congruence|congruence|done|by rewrite Hst', Hflags', forallb_history|].
  rewrite map_app. rewrite (same_user _ _ Hs) in Hj. by apply (gave_snoc _ (bio (rdp_transport r))).
Qed.
End serving.

(** ** Claims *)

(** C11: whatever PDUs a client receives while it joins the domain, its handler returns, and it asks for
    its channels in one order: its user channel, the global channel, the message channel if there is one,
    and the static channels as they are listed; each only after the one before was confirmed, so that with
    [i] channels joined the requests for the first [i + 1] have been given to the transport and no others,
    completely when the BIO takes what it is given.  It leaves this phase for the client info only when all of them are joined (or were taken as joined because both
    sides skip the joins).  The ids, names and number of the channels do not change on the way. *)
Theorem client_joins_in_order {W : Type} `{HB : !FrontBio W} `{HP : !StreamPools W} `{HL : !WriteLaws W} `{HM : Malloc}
    `{HF : FreshMemory} `{HY : !ByteMemory} `{HX : !Surroundings W} `{HQ : !QuietCallbacks W} `{HI : !InfoLaws W} `{HC : ServerCrypto}
    (fuel : nat) (r0 r : rdpRdp W) :
  rdp_state r0 = CONNECTION_STATE_MCS_ATTACH_USER_CONFIRM ->
  in_array (rdp_mcs r0) -> ids_ok (rdp_mcs r0) -> progress (rdp_mcs r0) 0 -> prompt fuel (rdp_transport r0) 15 ->
  client_run fuel r0 r ->
  client_inv r0 r /\
  (waits r -> forall s n, readable s ->
     runs (rdp_recv_callback fuel (S n)) (r, s) (fun rc _ => rc = STATE_RUN_FAILED \/ rc = STATE_RUN_SUCCESS)).
Proof.
  intros Hst Hin Hids Hp0 Hpr Hrun. pose proof (client_run_inv fuel r0 r Hst Hin Hids Hp0 Hpr Hrun) as Hinv. split; [done|].
  intros Hwt s n Hr. eapply runs_weaken; [eapply wp_runs; [|by apply (client_step_wp fuel r0)]; tauto|].
  intros rc p [-> | [-> _]]; [by left|by right].
Qed.

(** C13: a client that waits for the confirmation of a channel accepts that confirmation only: after a PDU
    that is no confirmation, or one of another channel, the handler fails, and the object is as it was:
    no channel counts as joined, nothing is sent and the state does not change. *)
Theorem client_refuses_other_channels {W : Type} `{HB : !FrontBio W} `{HP : !StreamPools W} `{HM : Malloc}
    `{HF : FreshMemory} `{HX : !Surroundings W} `{HC : ServerCrypto} (fuel n : nat) (r : rdpRdp W) (i : nat) (want : Z) (s : wStream) :
  rdp_state r = CONNECTION_STATE_MCS_CHANNEL_JOIN_RESPONSE ->
  in_array (rdp_mcs r) -> progress (rdp_mcs r) i -> join_order (rdp_mcs r) !! i = Some want -> readable s ->
  exists ok id k, 0 <= k <= zlen (unread s) /\
    mcs_recv_channel_join_confirm 0 (rdp_mcs r, s) = Ret ((ok, id), (rdp_mcs r, advance s k)) /\
    (ok = false \/ id <> want -> rdp_recv_callback fuel (S n) (r, s) = Ret (STATE_RUN_FAILED, (r, advance s k))).
Proof.
  intros Hst Hin Hp Hw Hr. destruct (confirm_parts fuel r s Hst Hr) as (ok & id & k & Hk & E & Ecb). exists ok, id, k.
  split_and!; [lia|lia|done|]. intros Hno. unfold rdp_recv_callback. destruct Hr as [Hs _].
  rewrite (pbind_ret _ _ _ _ _ (at_s_ret _ _ _ _ _ (position_spec s Hs))). cbn [client_rounds].
  change (STATE_RUN_FAILED =? STATE_RUN_TRY_AGAIN) with false. cbv iota. rewrite pbind_pret.
  assert (Ef : rdp_recv_callback_int fuel (r, s) = Ret (STATE_RUN_FAILED, (r, advance s k))); [|by rewrite (pbind_ret _ _ _ _ _ Ef)].
  rewrite Ecb. destruct ok; [|done]. destruct Hno as [|Hid]; [done|]. cbn [negb].
  destruct (client_joined_spec fuel r i want Hin Hp Hw) as (Hno & _). unfold pbind at 1, on_rdp, pzoom. cbn [fst snd]. by rewrite Hno.
Qed.

(** C12: whatever a client sends while it joins channels, the handler of the server returns; a server has
    marked exactly those channels as joined whose ids were requested, it leaves the phase with the request
    that completes them and not before, and for every accepted request, in their order, a confirm of its
    id has been given to the transport, completely when the BIO takes what it is given; nothing else has
    been sent. *)
Theorem server_joins_requested {W : Type} `{HB : !FrontBio W} `{HP : !StreamPools W} `{HL : !WriteLaws W} `{HM : Malloc}
    `{HF : FreshMemory} `{HY : !ByteMemory} `{HX : !Surroundings W} `{HQ : !QuietCallbacks W} `{HC : ServerCrypto}
    (fuel : nat) (r0 r : rdpRdp W) (h : list Z) :
  rdp_state r0 = CONNECTION_STATE_MCS_CHANNEL_JOIN_REQUEST -> TransportDumpReplay (rdp_settings r0) = false ->
  in_array (rdp_mcs r0) -> user_id (userId (rdp_mcs r0)) -> progress (rdp_mcs r0) 0 -> prompt fuel (rdp_transport r0) 15 ->
  server_run fuel r0 h r ->
  server_inv r0 h r /\
  (rdp_state r = CONNECTION_STATE_MCS_CHANNEL_JOIN_REQUEST -> forall s n, readable s ->
     runs (peer_recv_callback fuel (S n)) (r, s) (fun rc _ => rc = STATE_RUN_FAILED \/ rc = STATE_RUN_SUCCESS)).
Proof.
  intros Hst Hrep Hin Hu Hp0 Hpr Hrun. assert (Hinv : server_inv r0 h r).
  { induction Hrun as [|h r s n ok id q r' s' Hrun IH Hst' Hr E Ecb].
    - constructor; try done.
      + rewrite Hp0. clear. unfold first_true. rewrite Nat.sub_0_r. induction (join_order (rdp_mcs r0)) as [|c l IH]; [done|]. exact (f_equal (cons false) IH).
      + apply gave_nil.
    - destruct (server_step fuel r0 h r n s Hrep Hin Hu Hpr IH Hst' Hr) as (res & k & E' & Hw). rewrite E in E'. injection E' as <- ->.
      by destruct (wp_ret _ _ _ _ _ _ Hw Ecb) as [? | [_ ?]]. }
  split; [done|]. intros Hst' s n Hr. destruct (server_step fuel r0 h r n s Hrep Hin Hu Hpr Hinv Hst' Hr) as (res & k & _ & Hw).
  eapply runs_weaken; [eapply wp_runs; [|exact Hw]; tauto|]. intros rc p [-> | [-> _]]; [by left|by right].
Qed.

(** A world in which nothing but the connection happens. *)
Definition quiet_world (W : Type) : Surroundings W := {|
  PubSub_OnConnectionStateChange _ _ := pret tt;
  PubSub_OnActivated := pret tt;
  ReachedState _ := pret tt;
  update_reset_state := pret tt;
  exchange_client_keys := pret true;
  rdp_send_client_info := pret true;
  client_other_state _ := pret STATE_RUN_FAILED;
  server_other_state _ := pret STATE_RUN_FAILED
|}.

Lemma quiet_world_callbacks W : QuietCallbacks W (HX := quiet_world W).
Proof. done. Qed.

Lemma quiet_world_info W : InfoLaws W (HX := quiet_world W).
Proof. split; intros r; by eexists _, _. Qed.

(** A connection with the static channel 1004 and the message channel 1005. *)
Definition sample_rdp (server : bool) (st : CONNECTION_STATE) : rdpRdp script :=
  mkRdp st (sample_mcs <| channelCount := 1 |> <| channels := (blank_channel <| ChannelId := 1004 |>) :: zrep 30 blank_channel |> <| messageChannelId := 1005 |>)
    (sample_settings server <| SupportSkipChannelJoin := false |>) (transport_over false []) (if server then Some false else None) [] 0 0.

(** A PDU in a stream of its own. *)
Definition pdu_stream (bs : list Z) : wStream := Stream_StaticConstInit bs (zlen bs).
Definition attach_confirm_pdu : list Z := [3; 0; 0; 11; 2; 240; 128; 46; 0; 0; 6].
Definition join_request_pdu : list Z := [3; 0; 0; 12; 2; 240; 128; 56; 0; 6; 3; 235].
Definition join_confirm_pdu : list Z := [3; 0; 0; 15; 2; 240; 128; 62; 0; 0; 6; 3; 236; 3; 236].

Abbreviation client_callback := (@rdp_recv_callback _ scripted_bio no_pool malloc_all fresh_zero no_crypto (quiet_world script) 20).
Abbreviation server_callback := (@peer_recv_callback _ scripted_bio no_pool malloc_all fresh_zero no_crypto (quiet_world script) 20).

Lemma client_sample_run : exists r' s', client_callback 1 (sample_rdp false CONNECTION_STATE_MCS_ATTACH_USER_CONFIRM, pdu_stream attach_confirm_pdu) =
    Ret (STATE_RUN_SUCCESS, (r', s')) /\ rdp_state r' = CONNECTION_STATE_MCS_CHANNEL_JOIN_RESPONSE /\ userId (rdp_mcs r') = 1007.
Proof. eexists _, _. split; [vm_compute; reflexivity|]. split; reflexivity. Qed.

Lemma server_sample_run : exists r' s', server_callback 1 (sample_rdp true CONNECTION_STATE_MCS_CHANNEL_JOIN_REQUEST, pdu_stream join_request_pdu) =
    Ret (STATE_RUN_SUCCESS, (r', s')) /\ sent (bio (rdp_transport r')) = [3; 0; 0; 15; 2; 240; 128; 62; 0; 0; 6; 3; 235; 3; 235].
Proof. eexists _, _. split; [vm_compute; reflexivity|]. reflexivity. Qed.

Lemma sample_in_array server st : in_array (rdp_mcs (sample_rdp server st)).
Proof. vm_compute. split; discriminate. Qed.
Lemma sample_ids server st : ids_ok (rdp_mcs (sample_rdp server st)).
Proof. split; [|apply Forall_singleton]; vm_compute; split; discriminate. Qed.
Lemma sample_prompt server st : prompt 20 (rdp_transport (sample_rdp server st)) 15.
Proof. by split_and!. Qed.
Lemma pdu_readable bs : Forall is_byte bs -> zlen bs < 2 ^ 63 -> readable (pdu_stream bs).
Proof. intros Hb Hz. pose proof (zlen_nonneg bs). split; [split|]; cbn; done || lia. Qed.

Lemma client_joins_in_order_witness :
  exists r s', client_callback 1 (sample_rdp false CONNECTION_STATE_MCS_ATTACH_USER_CONFIRM, pdu_stream attach_confirm_pdu) = Ret (STATE_RUN_SUCCESS, (r, s')) /\
    rdp_state r = CONNECTION_STATE_MCS_CHANNEL_JOIN_RESPONSE /\
    client_inv (HL := scripted_write_laws no_pool (fun _ _ => eq_refl)) (sample_rdp false CONNECTION_STATE_MCS_ATTACH_USER_CONFIRM) r.
Proof.
  destruct client_sample_run as (r & s' & E & Hst & _). exists r, s'. split; [exact E|]. split; [exact Hst|].
  apply (@client_joins_in_order _ scripted_bio no_pool (scripted_write_laws no_pool (fun _ _ => eq_refl)) malloc_all fresh_zero fresh_zero_bytes
    (quiet_world script) (quiet_world_callbacks script) (quiet_world_info script) no_crypto 20 (sample_rdp false CONNECTION_STATE_MCS_ATTACH_USER_CONFIRM) r).
  - reflexivity.
  - apply sample_in_array.
  - apply sample_ids.
  - reflexivity.
  - apply sample_prompt.
  - apply (run_received 20 _ (sample_rdp false CONNECTION_STATE_MCS_ATTACH_USER_CONFIRM) (pdu_stream attach_confirm_pdu) 0 STATE_RUN_SUCCESS r s').
    + apply run_start.
    + by left.
    + apply pdu_readable; [by repeat constructor|done].
    + exact E.
    + reflexivity.
Defined.

(** A confirmation of channel 1004 for a client that waits for its user channel. *)
Lemma client_refuses_other_channels_witness :
  client_callback 1 (sample_rdp false CONNECTION_STATE_MCS_CHANNEL_JOIN_RESPONSE, pdu_stream join_confirm_pdu) =
    Ret (STATE_RUN_FAILED, (sample_rdp false CONNECTION_STATE_MCS_CHANNEL_JOIN_RESPONSE, advance (pdu_stream join_confirm_pdu) 15)).
Proof.
  destruct (@client_refuses_other_channels _ scripted_bio no_pool malloc_all fresh_zero (quiet_world script) no_crypto 20 0
    (sample_rdp false CONNECTION_STATE_MCS_CHANNEL_JOIN_RESPONSE) 0 1007 (pdu_stream join_confirm_pdu)) as (ok & id & k & Hk & E & Hno).
  - reflexivity.
  - apply sample_in_array.
  - reflexivity.
  - reflexivity.
  - apply pdu_readable; [by repeat constructor|done].
  - assert (Hid : id = 1004 /\ k = 15).
    { assert (Er : mcs_recv_channel_join_confirm 0 (rdp_mcs (sample_rdp false CONNECTION_STATE_MCS_CHANNEL_JOIN_RESPONSE), pdu_stream join_confirm_pdu) =
        Ret ((true, 1004), (rdp_mcs (sample_rdp false CONNECTION_STATE_MCS_CHANNEL_JOIN_RESPONSE), advance (pdu_stream join_confirm_pdu) 15))) by (vm_compute; reflexivity).
      rewrite Er in E. injection E as _ <- E. split; [done|]. cbn in E. lia. }
    destruct Hid as [-> ->]. apply Hno. by right.
Defined.

Lemma server_joins_requested_witness :
  exists r s', server_callback 1 (sample_rdp true CONNECTION_STATE_MCS_CHANNEL_JOIN_REQUEST, pdu_stream join_request_pdu) = Ret (STATE_RUN_SUCCESS, (r, s')) /\
    server_inv (HL := scripted_write_laws no_pool (fun _ _ => eq_refl)) (sample_rdp true CONNECTION_STATE_MCS_CHANNEL_JOIN_REQUEST) [1003] r.
Proof.
  destruct server_sample_run as (r & s' & E & _). exists r, s'. split; [exact E|].
  apply (@server_joins_requested _ scripted_bio no_pool (scripted_write_laws no_pool (fun _ _ => eq_refl)) malloc_all fresh_zero fresh_zero_bytes
    (quiet_world script) (quiet_world_callbacks script) no_crypto 20 (sample_rdp true CONNECTION_STATE_MCS_CHANNEL_JOIN_REQUEST) r [1003]).
  - reflexivity.
  - reflexivity.
  - apply sample_in_array.
  - vm_compute. split; discriminate.
  - reflexivity.
  - apply sample_prompt.
  - apply (serve_request 20 _ [] (sample_rdp true CONNECTION_STATE_MCS_CHANNEL_JOIN_REQUEST) (pdu_stream join_request_pdu) 0 true 1003
      (rdp_mcs (sample_rdp true CONNECTION_STATE_MCS_CHANNEL_JOIN_REQUEST), advance (pdu_stream join_request_pdu) 12) r s').
    + apply serve_start.
    + reflexivity.
    + apply pdu_readable; [by repeat constructor|done].
    + vm_compute. reflexivity.
    + exact E.
Defined.
