(* ===== verification/ConnectionExchange.v ===== *)
(** * A client and a server that connect

    The two state machines of [Connection] at the two ends of a connection, from the connect initial
    to the last joined channel: what each handler does with the PDU the other side sends, the
    network between them as a step relation, and that every run establishes the connection. *)

From S2P Require Import Prelude Memory Stream Per Framing UnicodeApi Readers Transport TransportPdu TransportRead TransportWrite Mcs McsPdu Gcc GccSafe GccPdu GccExchange McsConnect McsConnectPdu McsConnectExchange Connection ConnectionJoin.

(** ** PDUs on the wire *)

Lemma default_tpkt n rest : 7 <= n <= UINT16_MAX -> n = 4 + zlen rest -> complete ModeDefault (enc_tpkt n ++ rest).
Proof.
  intros Hn Hz. unfold complete, mode_length. rewrite zlen_app, zlen_enc_tpkt, <- Hz. unfold enc_tpkt, be16, UINT16_MAX in *.
  cbn [app default_length]. change (3 =? 3) with true. cbv iota.
  rewrite be16_value by lia. by replace (n <? 7) with false by lia.
Qed.

Lemma mcs_complete pdu opts body : zlen body <= 1000 -> complete ModeDefault (enc_mcs pdu opts body).
Proof.
  intros Hb. pose proof (zlen_nonneg body). unfold enc_mcs. apply default_tpkt; [unfold UINT16_MAX; lia|].
  rewrite zlen_app, zlen_cons, zlen_enc_data. lia.
Qed.

Lemma data_complete bs : zlen bs <= 65528 -> complete ModeDefault (data_packet bs).
Proof.
  intros Hb. pose proof (zlen_nonneg bs). unfold data_packet. apply default_tpkt; [unfold UINT16_MAX; lia|]. rewrite zlen_app, zlen_enc_data. lia.
Qed.

Lemma complete_nonempty x : ~ complete ModeDefault [] /\ (complete ModeDefault x -> x <> []).
Proof. split; [done|]. by intros H ->. Qed.

(** ** Handlers over transports that accept everything *)

Section reacting.
Context {W : Type} `{HB : !FrontBio W} `{HP : !StreamPools W} `{HL : !WriteLaws W} `{HM : Malloc} `{HF : FreshMemory} `{HY : !ByteMemory}.
Context `{HX : !Surroundings W} `{HQ : !QuietCallbacks W} `{HC : ServerCrypto}.
Context (Hmem : forall n, 0 <= n <= 2 ^ 20 -> malloc_ok n = true).
Context (E : W -> Prop) (HE : takes_all E).
Context (fuel : nat) (Hfuel : (0 < fuel)%nat).
Implicit Types (m : rdpMcs) (r : rdpRdp W) (t : rdpTransport W) (pdu : list Z).

Definition ready t : Prop := E (bio t).
Abbreviation out r := (outbox (bio (rdp_transport r))).

Lemma ready_swift t n : ready t -> swift fuel t n.
Proof using Hfuel HE. intros Ht. right. split; [done|]. by exists E. Qed.

(** What is sent arrives in full. *)
Lemma ready_sent t t' pdu ok : ready t -> pdu_sent t t' pdu ok -> ok = true /\ ready t' /\ outbox (bio t') = outbox (bio t) ++ pdu.
Proof using Hmem HE.
  clear Hfuel. intros He (_ & _ & [(_ & _ & Hoom)|(st & k & Hok & Hk & Hall & Ho & Heager & _)]); [by destruct (memory Hmem)|].
  destruct (Heager E HE He) as [Hst He']. split_and!; [rewrite Hok; lia|done|]. by rewrite Ho, Hall, ztake_all by lia.
Qed.

(** A sender that hands its PDU to the transport. *)
Lemma send_mcs_ready r size wr w m' pdu (sdr : Prog (rdpMcs * rdpTransport W) bool) :
  sdr = send_new fuel size wr -> ready (rdp_transport r) -> 0 < zlen pdu <= size -> size <= UINT16_MAX ->
  wr (rdp_mcs r, rdp_transport r) = Ret (w, (m', rdp_transport r)) -> fills w pdu ->
  exists t', send_mcs sdr r = Ret (true, r <| rdp_mcs := m' |> <| rdp_transport := t' |>) /\ ready t' /\ outbox (bio t') = out r ++ pdu.
Proof using Hmem HE HL HY Hfuel.
  intros -> Hr Hz Hs Hw Hf. pose proof (send_new_wp fuel size wr w _ m' _ pdu Hz ltac:(unfold UINT16_MAX in *; lia) Hw Hf) as Hsend.
  apply wp_runs in Hsend as (ok & [m t'] & Es & _ & Hm & Hsent).
  - destruct (ready_sent _ _ _ _ Hr Hsent) as (-> & Hr' & Ho). specialize (Hm eq_refl). cbn in Hm. subst m. exists t'.
    unfold send_mcs, pzoom. by rewrite Es.
  - intros Hn. apply Hn. by apply ready_swift.
Qed.

Lemma send_gcc_ready r (sdr : Prog (gobj * rdpTransport W) bool) m' c' pdu :
  ready (rdp_transport r) -> sends fuel sdr (rdp_mcs r, rdp_settings r) (rdp_transport r) pdu (m', c') ->
  exists t', send_gcc sdr r = Ret (true, r <| rdp_mcs := m' |> <| rdp_settings := c' |> <| rdp_transport := t' |>) /\ ready t' /\ outbox (bio t') = out r ++ pdu.
Proof using Hmem HE Hfuel.
  intros Hr Hsend. apply wp_runs in Hsend as (ok & [o t'] & Es & Ho & Hsent).
  - destruct (ready_sent _ _ _ _ Hr Hsent) as (-> & Hr' & Hout). cbn in Ho. subst o. exists t'. unfold send_gcc, pzoom. by rewrite (Es : sdr ((rdp_mcs r, rdp_settings r), rdp_transport r) = _).
  - intros Hn. apply Hn. by apply ready_swift.
Qed.

(** A callback takes the PDU, succeeds, and leaves an object with [Q]. *)
Definition reacts (cb : Prog (rdpRdp W * wStream) Z) r pdu (Q : rdpRdp W -> Prop) : Prop :=
  forall s, readable s -> unread s = pdu -> exists r' s', cb (r, s) = Ret (STATE_RUN_SUCCESS, (r', s')) /\ ready (rdp_transport r') /\ Q r'.

Lemma client_reacts n r pdu Q : reacts (rdp_recv_callback_int fuel) r pdu Q -> reacts (rdp_recv_callback fuel (S n)) r pdu Q.
Proof.
  intros H s Hr Hu. destruct (H s Hr Hu) as (r' & s' & Ec & H'). exists r', s'. split; [|done].
  unfold rdp_recv_callback. rewrite (pbind_ret _ _ _ _ _ (at_s_ret _ _ _ _ _ (position_spec s (proj1 Hr)))). cbn [client_rounds].
  change (STATE_RUN_FAILED =? STATE_RUN_TRY_AGAIN) with false. cbv iota. by rewrite pbind_pret, (pbind_ret _ _ _ _ _ Ec).
Qed.

Lemma server_reacts n r pdu Q : reacts (peer_recv_callback_internal fuel) r pdu Q -> reacts (peer_recv_callback fuel (S n)) r pdu Q.
Proof.
  intros H s Hr Hu. destruct (H s Hr Hu) as (r' & s' & Ec & H'). exists r', s'. split; [|done].
  unfold peer_recv_callback. rewrite (pbind_ret _ _ _ _ _ (at_s_ret _ _ _ _ _ (position_spec s (proj1 Hr)))). cbn [server_rounds].
  change (STATE_RUN_FAILED =? STATE_RUN_TRY_AGAIN) with false. cbv iota. by rewrite pbind_pret, (pbind_ret _ _ _ _ _ Ec).
Qed.

(** Steps of a handler. *)
Lemma or_fail_step {S} (m : Prog S bool) k (p p' : S) : m p = Ret (true, p') -> or_fail m k p = k p'.
Proof. intros Em. unfold or_fail. by rewrite (pbind_ret _ _ _ _ _ Em). Qed.
Lemma require_step {S} (m k : Prog S bool) (p p' : S) : m p = Ret (true, p') -> require m k p = k p'.
Proof. intros Em. unfold require. by rewrite (pbind_ret _ _ _ _ _ Em). Qed.
Lemma on_rdp_ret {A} (m : Prog (rdpRdp W) A) r s a r' : m r = Ret (a, r') -> on_rdp m (r, s) = Ret (a, (r', s)).
Proof. intros Em. unfold on_rdp, pzoom. cbn [fst snd]. by rewrite Em. Qed.
Lemma recv_mcs_ret {A} (m : Prog (rdpMcs * wStream) A) r s a m' s' : m (rdp_mcs r, s) = Ret (a, (m', s')) -> recv_mcs m (r, s) = Ret (a, (r <| rdp_mcs := m' |>, s')).
Proof. intros Em. unfold recv_mcs, pzoom. cbn [fst snd]. by rewrite Em. Qed.
Lemma recv_gcc_ret {A} (m : Prog (gobj * wStream) A) r s a m' c' s' :
  m ((rdp_mcs r, rdp_settings r), s) = Ret (a, ((m', c'), s')) -> recv_gcc m (r, s) = Ret (a, (r <| rdp_mcs := m' |> <| rdp_settings := c' |>, s')).
Proof. intros Em. unfold recv_gcc, pzoom. cbn [fst snd]. by rewrite Em. Qed.


(** Enter the handler of the state the object is in. *)
Ltac server_enter Hst :=
  unfold peer_recv_callback_internal; rewrite pbind_pget; cbn [fst];
  rewrite (pbind_ret _ _ _ _ _ (on_rdp_ret _ _ _ _ _ (quiet_reached _ _))), pbind_pget; cbn [fst]; rewrite Hst.
Ltac in_state_step Hst :=
  rewrite (pbind_ret (in_state _) _ _ tt _) by (unfold in_state, pbind, pget, passert; cbn [fst]; by rewrite bool_decide_true by done).
Ltac client_enter Hst := unfold rdp_recv_callback_int; rewrite pbind_pget; cbn [fst]; rewrite Hst; cbv zeta.

Lemma erect_reacts r :
  rdp_state r = CONNECTION_STATE_MCS_ERECT_DOMAIN -> ready (rdp_transport r) ->
  reacts (peer_recv_callback_internal fuel) r erect_domain_request (fun r' => r' = r <| rdp_state := CONNECTION_STATE_MCS_ATTACH_USER |>).
Proof using HQ.
  intros Hst Hr s Hs Hu. eexists _, _. split; [|split; [|reflexivity]; exact Hr]. server_enter Hst.
  erewrite or_fail_step; [reflexivity|]. unfold rdp_server_accept_mcs_erect_domain_request. in_state_step Hst.
  rewrite (require_step _ _ _ _ (recv_mcs_ret _ _ _ _ _ _ (erect_domain_request_received (rdp_mcs r) s Hs Hu))), same_mcs.
  apply on_rdp_ret, server_go. by rewrite Hst.
Qed.

(** The server gives the user the next free id, and waits for its channels, or takes them as joined. *)
Definition attach_user m : rdpMcs := m <| userId := baseChannelId m |> <| baseChannelId := u16 (baseChannelId m + 1) |>.
Lemma attach_reacts r :
  rdp_state r = CONNECTION_STATE_MCS_ATTACH_USER -> ready (rdp_transport r) -> user_id (baseChannelId (rdp_mcs r)) -> in_array (rdp_mcs r) ->
  reacts (peer_recv_callback_internal fuel) r attach_user_request (fun r' =>
    rdp_settings r' = rdp_settings r /\ out r' = out r ++ attach_user_confirm (baseChannelId (rdp_mcs r)) /\
    same_channels (attach_user (rdp_mcs r)) (rdp_mcs r') /\
    if SupportSkipChannelJoin (rdp_settings r) then
      rdp_state r' = CONNECTION_STATE_RDP_SECURITY_COMMENCEMENT /\ progress (rdp_mcs r') (length (join_order (rdp_mcs r')))
    else rdp_state r' = CONNECTION_STATE_MCS_CHANNEL_JOIN_REQUEST /\ rdp_mcs r' = attach_user (rdp_mcs r)).
Proof using HQ Hmem HE HL HY Hfuel.
  intros Hst Hr Hb Hin s Hs Hu. set (m := attach_user (rdp_mcs r)). set (r1 := r <| rdp_state := CONNECTION_STATE_MCS_ATTACH_USER_CONFIRM |>).
  destruct (send_mcs_ready r1 11 _ _ m (attach_user_confirm (baseChannelId (rdp_mcs r))) (mcs_send_attach_user_confirm fuel) eq_refl Hr ltac:(vm_compute; split; [reflexivity|discriminate])
    ltac:(unfold UINT16_MAX; lia) eq_refl (attach_user_confirm_fills _ Hb)) as (t' & Es & Hr' & Ho).
  set (r2 := r1 <| rdp_mcs := m |> <| rdp_transport := t' |>) in *. destruct (join_all_run m Hin) as (m' & Ej & Hsame & Hp).
  exists (if SupportSkipChannelJoin (rdp_settings r) then r2 <| rdp_mcs := m' |> <| rdp_state := CONNECTION_STATE_RDP_SECURITY_COMMENCEMENT |>
          else r2 <| rdp_state := CONNECTION_STATE_MCS_CHANNEL_JOIN_REQUEST |>), (advance s (zlen attach_user_request)).
  split.
  - server_enter Hst. erewrite or_fail_step; [reflexivity|]. unfold rdp_server_accept_mcs_attach_user_request.
    rewrite (require_step _ _ _ _ (recv_mcs_ret _ _ _ _ _ _ (attach_user_request_received (rdp_mcs r) s Hs Hu))), same_mcs.
    rewrite (require_step _ _ _ _ (on_rdp_ret _ _ _ _ _ (server_go _ r ltac:(by rewrite Hst)))). fold r1.
    rewrite (require_step _ _ _ _ (on_rdp_ret _ _ _ _ _ Es)), pbind_pget. cbn [fst]. change (rdp_settings r2) with (rdp_settings r).
    destruct (SupportSkipChannelJoin (rdp_settings r)); [|by apply on_rdp_ret, server_go].
    apply on_rdp_ret. unfold rdp_server_skip_mcs_channel_join, mark_all_joined.
    rewrite (pbind_ret _ _ _ tt (r2 <| rdp_mcs := m' |>)); [by apply server_go|]. unfold pbind, pget, plift, pmodify. change (rdp_mcs r2) with m. by rewrite Ej.
  - destruct (SupportSkipChannelJoin (rdp_settings r)); split_and!; try done. rewrite <- (same_order _ _ Hsame) in Hp. exact Hp.
Qed.

(** The client info PDU is sent. *)
Context (Hinfo : forall r, ready (rdp_transport r) ->
  runs rdp_send_client_info r (fun ok r' => ok = true /\ rdp_mcs r' = rdp_mcs r /\ ready (rdp_transport r'))).

Lemma info_ready r : UseRdpSecurityLayer (rdp_settings r) = false -> ready (rdp_transport r) ->
  exists r', rdp_client_send_client_info_and_change_state r = Ret (true, r') /\ ready (rdp_transport r') /\ rdp_mcs r' = rdp_mcs r /\
    rdp_state r' = CONNECTION_STATE_CONNECT_TIME_AUTO_DETECT_REQUEST.
Proof using HQ Hinfo.
  intros Hu Hr. set (r0 := r <| rdp_state := CONNECTION_STATE_SECURE_SETTINGS_EXCHANGE |>). destruct (Hinfo r0 Hr) as (ok & r1 & Ei & -> & Hm & Hr1).
  exists (r1 <| rdp_state := CONNECTION_STATE_CONNECT_TIME_AUTO_DETECT_REQUEST |>). split_and!; [|exact Hr1|exact Hm|done].
  unfold rdp_client_send_client_info_and_change_state.
  rewrite (require_step _ _ r r) by (unfold rdp_client_establish_keys; rewrite pbind_pget, Hu; done).
  rewrite (require_step _ _ _ _ (client_go CONNECTION_STATE_SECURE_SETTINGS_EXCHANGE r eq_refl : _ = Ret (true, r0))), (require_step _ _ _ _ Ei),
    (require_step _ _ _ _ (client_go CONNECTION_STATE_CONNECT_TIME_AUTO_DETECT_REQUEST r1 eq_refl)). done.
Qed.

(** The client learns its id and asks for the first channel. *)
Lemma user_reacts r u :
  rdp_state r = CONNECTION_STATE_MCS_ATTACH_USER_CONFIRM -> ready (rdp_transport r) -> UseRdpSecurityLayer (rdp_settings r) = false ->
  user_id u -> in_array (rdp_mcs r) ->
  reacts (rdp_recv_callback_int fuel) r (attach_user_confirm u) (fun r' =>
    same_channels (rdp_mcs r <| userId := u |>) (rdp_mcs r') /\
    if SupportSkipChannelJoin (rdp_settings r) then
      rdp_state r' = CONNECTION_STATE_CONNECT_TIME_AUTO_DETECT_REQUEST /\ progress (rdp_mcs r') (length (join_order (rdp_mcs r')))
    else rdp_state r' = CONNECTION_STATE_MCS_CHANNEL_JOIN_RESPONSE /\ rdp_settings r' = rdp_settings r /\
      rdp_mcs r' = rdp_mcs r <| userId := u |> /\ out r' = out r ++ channel_join_request u u).
Proof using HQ Hmem HE HL HY Hfuel Hinfo.
  intros Hst Hr Hsec Hid Hin s Hs Hu. set (m := rdp_mcs r <| userId := u |>). set (r1 := r <| rdp_mcs := m |>).
  client_enter Hst. rewrite (or_fail_step _ _ _ _ (recv_mcs_ret _ _ _ _ _ _ (attach_user_confirm_received (rdp_mcs r) u Hid s Hs Hu))). fold m r1.
  rewrite pbind_pget. cbn [fst]. change (rdp_settings r1) with (rdp_settings r). destruct (SupportSkipChannelJoin (rdp_settings r)); cbn [negb].
  - destruct (join_all_run m Hin) as (m' & Ej & Hsame & Hp). set (r1' := r1 <| rdp_mcs := m' |>). destruct (info_ready r1' Hsec Hr) as (r2 & Ei & Hr2 & Hm2 & Hst2).
    eexists r2, _. split; [|split; [exact Hr2|]].
    + rewrite (or_fail_step _ _ _ (r2, advance s (zlen (attach_user_confirm u)))); [done|]. apply on_rdp_ret.
      unfold rdp_client_skip_mcs_channel_join, mark_all_joined. rewrite (pbind_ret _ _ _ tt r1'); [exact Ei|].
      unfold pbind, pget, plift, pmodify. change (rdp_mcs r1) with m. by rewrite Ej.
    + rewrite Hm2. split_and!; [exact Hsame|exact Hst2|]. rewrite <- (same_order _ _ Hsame) in Hp. exact Hp.
  - set (r2 := r1 <| rdp_state := CONNECTION_STATE_MCS_CHANNEL_JOIN_REQUEST |>).
    assert (Hcu : channel_id u) by (unfold user_id, channel_id, MCS_BASE_CHANNEL_ID in *; lia).
    destruct (send_mcs_ready r2 12 _ _ m (channel_join_request u u) (mcs_send_channel_join_request fuel u) eq_refl Hr
      ltac:(vm_compute; split; [reflexivity|discriminate]) ltac:(unfold UINT16_MAX; lia) eq_refl (channel_join_request_fills u u Hid Hcu)) as (t' & Es & Hr' & Ho).
    set (r3 := r2 <| rdp_mcs := m |> <| rdp_transport := t' |>) in Es. set (r4 := r3 <| rdp_state := CONNECTION_STATE_MCS_CHANNEL_JOIN_RESPONSE |>).
    exists r4, (advance s (zlen (attach_user_confirm u))). split; [|split; [exact Hr'|split_and!; [apply same_refl|reflexivity|reflexivity|reflexivity|exact Ho]]].
    rewrite (or_fail_step _ _ _ _ (on_rdp_ret _ _ _ _ _ (client_go CONNECTION_STATE_MCS_CHANNEL_JOIN_REQUEST r1 eq_refl))), pbind_pget. fold r2. cbn [fst]. change (userId (rdp_mcs r2)) with u.
    rewrite (or_fail_step _ _ _ _ (on_rdp_ret _ _ _ _ _ Es)), (or_fail_step _ _ _ _ (on_rdp_ret _ _ _ _ _ (client_go CONNECTION_STATE_MCS_CHANNEL_JOIN_RESPONSE _ eq_refl))). done.
Qed.

(** The confirmation of the channel at [i]. *)
Lemma confirm_reacts r i want :
  rdp_state r = CONNECTION_STATE_MCS_CHANNEL_JOIN_RESPONSE -> ready (rdp_transport r) -> UseRdpSecurityLayer (rdp_settings r) = false ->
  in_array (rdp_mcs r) -> progress (rdp_mcs r) i -> join_order (rdp_mcs r) !! i = Some want ->
  user_id (userId (rdp_mcs r)) -> ids_ok (rdp_mcs r) ->
  reacts (rdp_recv_callback_int fuel) r (channel_join_confirm (userId (rdp_mcs r)) want) (fun r' =>
    same_channels (rdp_mcs r) (rdp_mcs r') /\ progress (rdp_mcs r') (S i) /\
    match join_order (rdp_mcs r) !! S i with
    | Some next => rdp_state r' = CONNECTION_STATE_MCS_CHANNEL_JOIN_RESPONSE /\ rdp_settings r' = rdp_settings r /\
        out r' = out r ++ channel_join_request (userId (rdp_mcs r)) next
    | None => rdp_state r' = CONNECTION_STATE_CONNECT_TIME_AUTO_DETECT_REQUEST
    end).
Proof using HQ Hmem HE HL HY Hfuel Hinfo.
  intros Hst Hr Hsec Hin Hp Hw Hid Hids s Hs Hu. pose proof (order_ids _ Hid Hids) as Hall. rewrite Forall_lookup in Hall.
  destruct (confirm_parts fuel r s Hst Hs) as (ok & id & k & _ & Er & Ec).
  rewrite (channel_join_confirm_received (rdp_mcs r) 0 _ want Hid (Hall _ _ Hw) s Hs Hu) in Er. injection Er as <- <- _. rewrite Ec. clear Ec.
  cbn [negb]. set (s' := advance s k). destruct (client_joined_spec fuel r i want Hin Hp Hw) as (_ & m' & Hsame & Hp' & Ej).
  pose proof (progress_fixed _ _ Hp') as [F1 F2]. set (r1 := r <| rdp_mcs := m' |>) in *. unfold join_after in Ej. change (rdp_mcs r1) with m' in Ej.
  rewrite (same_order _ _ Hsame) in Ej. destruct (join_order (rdp_mcs r) !! S i) as [next|] eqn:En.
  - pose proof (join_channel_wp fuel r1 next ltac:(change (rdp_mcs r1) with m'; by rewrite (same_user _ _ Hsame)) (Hall _ _ En)) as Hj.
    apply wp_runs in Hj; [|intros Hn; apply Hn; by apply ready_swift].
    destruct Hj as (ok & r2 & Ejc & t' & st' & -> & Hst' & Hsent). destruct (ready_sent _ _ _ _ Hr Hsent) as (-> & Hr' & Ho). rewrite (Hst' eq_refl) in Ejc. clear Hst' st'.
    rewrite (pbind_ret _ _ _ _ _ Ejc) in Ej. change (rdp_mcs r1) with m' in Ho. rewrite (same_user _ _ Hsame) in Ho.
    set (r2 := r1 <| rdp_state := _ |> <| rdp_transport := t' |>) in *.
    exists r2, s'. split; [|split; [exact Hr'|split_and!; [exact Hsame|exact Hp'|reflexivity|reflexivity|exact Ho]]].
    rewrite (pbind_ret _ _ _ _ _ (on_rdp_ret _ _ s' _ _ Ej)). cbn [negb pret]. rewrite pbind_pget. cbn [fst].
    change (rdp_mcs r2) with m'. rewrite F1, F2. by destruct i as [|[|i]].
  - destruct (info_ready r1 Hsec Hr) as (r2 & Ei & Hr2 & Hm2 & Hst2). exists r2, s'. split; [|split; [exact Hr2|]; rewrite Hm2; split_and!; [exact Hsame|exact Hp'|exact Hst2]].
    rewrite (pbind_ret _ _ _ _ _ (on_rdp_ret _ _ s' _ _ Ej)). cbn [negb]. rewrite pbind_pget. cbn [fst]. change (rdp_mcs r1) with m'. rewrite F1, F2.
    destruct i as [|i]; [done|]. cbn [Nat.leb andb].
    rewrite (or_fail_step _ _ _ (r2, s')); [done|]. rewrite (require_step _ _ _ _ (on_rdp_ret _ _ s' _ _ Ei)). done.
Qed.

(** A request for the channel at [i]; the ids are different. *)
Lemma mark_next order i want :
  NoDup order -> order !! i = Some want -> mark_flags want (first_true (length order) i) order = first_true (length order) (S i).
Proof.
  unfold mark_flags. revert i. induction order as [|c order IH]; intros [|i] Hnd Hw; [done|done| |]; apply NoDup_cons in Hnd as [Hc Hnd]; cbn [length].
  - injection Hw as ->. cbn. rewrite Z.eqb_refl. f_equal. rewrite Nat.sub_0_r. clear - Hc.
    induction order as [|d order IH]; [done|]. cbn. apply not_elem_of_cons in Hc as [Hd Hc]. rewrite IH by done. by replace (d =? want) with false by lia.
  - rewrite !first_true_cons. cbn [zip_with orb]. f_equal. by apply IH.
Qed.

Lemma first_true_full n i : (i <= n)%nat -> forallb id (first_true n i) = (n <=? i)%nat.
Proof.
  revert n. induction i as [|i IH]; intros [|n] Hi; [done|done|lia|]. rewrite first_true_cons. cbn [forallb]. rewrite IH by lia. done.
Qed.

Lemma request_reacts n r i want :
  rdp_state r = CONNECTION_STATE_MCS_CHANNEL_JOIN_REQUEST -> ready (rdp_transport r) -> TransportDumpReplay (rdp_settings r) = false ->
  in_array (rdp_mcs r) -> progress (rdp_mcs r) i -> join_order (rdp_mcs r) !! i = Some want -> NoDup (join_order (rdp_mcs r)) ->
  user_id (userId (rdp_mcs r)) -> channel_id want ->
  reacts (peer_recv_callback fuel (S n)) r (channel_join_request (userId (rdp_mcs r)) want) (fun r' =>
    same_channels (rdp_mcs r) (rdp_mcs r') /\ progress (rdp_mcs r') (S i) /\ rdp_settings r' = rdp_settings r /\
    out r' = out r ++ channel_join_confirm (userId (rdp_mcs r)) want /\
    rdp_state r' = if (length (join_order (rdp_mcs r)) <=? S i)%nat then CONNECTION_STATE_RDP_SECURITY_COMMENCEMENT
                   else CONNECTION_STATE_MCS_CHANNEL_JOIN_REQUEST).
Proof using HQ Hmem HE HL HY Hfuel.
  intros Hst Hr Hrep Hin Hp Hw Hnd Hid Hcid s Hs Hu. pose proof (lookup_lt_Some _ _ _ Hw) as Hi.
  destruct (join_request_wp fuel n r s Hst Hrep Hin Hid Hs) as (res & k & Er & _ & Hwp).
  rewrite (channel_join_request_received (rdp_mcs r) false 0 _ want Hid Hcid (or_introl eq_refl) s Hs Hu) in Er. injection Er as <- _ _.
  apply wp_runs in Hwp; [|intros Hn; apply Hn; by apply ready_swift].
  destruct Hwp as (rc & [r' s'] & Ec & [(-> & Hno)|(-> & _ & Hsame & Hset & Hf & Hst' & Hsent)]).
  { destruct (Hno eq_refl) as (t' & Hsent). by destruct (ready_sent _ _ _ _ Hr Hsent) as (? & _). }
  exists r', s'. cbn [fst snd] in *. destruct (ready_sent _ _ _ _ Hr Hsent) as (_ & Hr' & Ho). rewrite Hp, mark_next in Hf by done.
  split_and!; [exact Ec|done|done| |done|done|].
  - unfold progress. by rewrite (same_order _ _ Hsame).
  - by rewrite Hst', Hf, first_true_full by lia.
Qed.
End reacting.

(** ** The server accepts a client *)

Section accepting.
Context {W : Type} `{HM : Malloc} (Hmem : forall n, 0 <= n <= 2 ^ 20 -> malloc_ok n = true).
Implicit Types (r : rdpRdp W).

Lemma apply_channels_run n : forall i cs s,
  (n <= length cs)%nat -> 0 <= i -> i + Z.of_nat n <= zlen (ChannelDefArray s) ->
  exists l, apply_channels n i cs s = Ret (true, s <| ChannelDefArray := l |>).
Proof.
  induction n as [|n IH]; intros i cs s Hn Hi Hz; [exists (ChannelDefArray s); by destruct s|].
  destruct cs as [|x cs]; [cbn in Hn; lia|]. cbn [apply_channels]. replace (zlen (ChannelDefArray s) <=? i) with false by lia.
  destruct (array_set_run i (fun _ => (Name x, options x)) (ChannelDefArray s) (fun _ => True) ltac:(lia) ltac:(by apply Forall_true) ltac:(done)) as (l & E & Hl & _). rewrite E.
  set (s1 := s <| ChannelDefArray := l |>). destruct (IH (i + 1) cs s1) as (l' & E'); [cbn in Hn; lia|lia|unfold s1; cbn [ChannelDefArray update]; lia|].
  exists l'. exact E'.
Qed.

(** The name of a channel ends within its array. *)
Definition named (c : rdpMcsChannel) : Prop := zlen (Name c) = CHANNEL_NAME_LEN + 1 /\ existsb (Z.eqb 0) (Name c) = true.

Lemma nul_split b : existsb (Z.eqb 0) b = true -> exists str post, b = str ++ 0 :: post /\ no_nul str.
Proof.
  induction b as [|x b IH]; [done|]. cbn [existsb]. destruct (0 =? x) eqn:Ex.
  - intros _. exists [], b. split; [|constructor]. cbn. f_equal. lia.
  - intros H. destruct (IH H) as (str & post & -> & Hs). exists (x :: str), post. split; [done|]. constructor; [lia|done].
Qed.

Lemma argv_run c : named c -> exists str, freerdp_addin_argv_new (Name c) = Ret (Some str).
Proof using Hmem.
  intros [Hz Hn]. destruct (nul_split _ Hn) as (str & post & E & Hs). unfold freerdp_addin_argv_new, c_string. rewrite !Hmem by lia. cbn [negb].
  rewrite E in Hz |- *. rewrite c_strlen_run by done. unfold CHANNEL_NAME_LEN in Hz. rewrite zlen_app, zlen_cons in Hz. pose proof (zlen_nonneg str). pose proof (zlen_nonneg post).
  rewrite ztake_app, ztake_all, Z.sub_diag, ztake_0, app_nil_r by lia. exists str. by rewrite Hmem by lia.
Qed.

(** [k] static channels in an array that is not too long. *)
Definition collected (k : Z) r : Prop :=
  zlen (StaticChannelArray r) = StaticChannelArraySize r /\ StaticChannelCount r = k /\ 0 <= k <= StaticChannelArraySize r /\ StaticChannelArraySize r <= 64.

(** Only the collection differs. *)
Definition same_but_collected r r' : Prop :=
  exists a z n, r' = r <| StaticChannelArray := a |> <| StaticChannelArraySize := z |> <| StaticChannelCount := n |>.

Lemma collect_run k r str : collected k r -> k < 32 ->
  exists r', freerdp_static_channel_collection_add str r = Ret (true, r') /\ collected (k + 1) r' /\ same_but_collected r r'.
Proof using Hmem.
  intros (Hz & Hk & Hle & H64) H32. unfold freerdp_static_channel_collection_add. rewrite pbind_pget, Hk, (u32_id (k + 1)), (u32_id (StaticChannelArraySize r * 2)) by lia. cbv zeta.
  rewrite (u32_id ((k + 1) * 2)) by lia. set (size := StaticChannelArraySize r) in *. set (new_size := if size * 2 =? 0 then _ else _).
  assert (Hstore : forall r0, zlen (StaticChannelArray r0) = StaticChannelArraySize r0 -> StaticChannelCount r0 = k -> k < StaticChannelArraySize r0 <= 64 -> same_but_collected r r0 ->
    exists r', (r <- pget ;; let count := StaticChannelCount r in
      if (0 <=? count) && (count <? zlen (StaticChannelArray r)) then
        pmodify (fun r => r <| StaticChannelArray := <[Z.to_nat count := Some str]> (StaticChannelArray r) |> <| StaticChannelCount := u32 (count + 1) |>) ;; pret true
      else plift Abort) r0 = Ret (true, r') /\ collected (k + 1) r' /\ same_but_collected r r').
  { intros r0 E1 E2 E3 (a & z & n & ->). rewrite pbind_pget. cbv zeta. rewrite E2. replace (_ && _) with true by lia. eexists. split; [reflexivity|]. split.
    - unfold collected. cbn [StaticChannelArray StaticChannelArraySize StaticChannelCount update] in *. rewrite (u32_id (k + 1)) by lia.
      unfold zlen in *. rewrite length_insert. lia.
    - by exists (<[Z.to_nat k := Some str]> a), z, (u32 (k + 1)). }
  destruct (size <? k + 1) eqn:Eg.
  - assert (Hnew : size < new_size <= 64) by (unfold new_size; destruct (size * 2 =? 0) eqn:E0; lia). rewrite Hmem by lia. cbn [negb].
    set (r0 := r <| StaticChannelArray := ztake size (StaticChannelArray r) ++ zrep (new_size - size) None |> <| StaticChannelArraySize := new_size |>).
    rewrite (pbind_ret _ _ _ tt r0) by done. apply Hstore; [|exact Hk|cbn; lia|].
    + unfold r0. cbn [StaticChannelArray StaticChannelArraySize update]. rewrite zlen_app, zlen_ztake, zlen_zrep. lia.
    + by exists (ztake size (StaticChannelArray r) ++ zrep (new_size - size) None), new_size, (StaticChannelCount r).
  - apply Hstore; [done|done|lia|]. exists (StaticChannelArray r), size, (StaticChannelCount r). by destruct r.
Qed.

Lemma add_channels_run n : forall i k r,
  0 <= i -> collected k r -> k + Z.of_nat n <= 32 -> i + Z.of_nat n <= zlen (channels (rdp_mcs r)) ->
  Forall named (ztake (Z.of_nat n) (zdrop i (channels (rdp_mcs r)))) ->
  exists r', add_channels n i r = Ret (true, r') /\ same_but_collected r r'.
Proof using Hmem.
  induction n as [|n IH]; intros i k r Hi Hcol Hk Hz Hn; cbn [add_channels].
  { exists r. split; [done|]. exists (StaticChannelArray r), (StaticChannelArraySize r), (StaticChannelCount r). by destruct r. }
  rewrite pbind_pget. destruct (lookup_lt_is_Some_2 (channels (rdp_mcs r)) (Z.to_nat i)) as [c Hc]; [unfold zlen in Hz; lia|].
  assert (Hdrop : zdrop i (channels (rdp_mcs r)) = c :: zdrop (i + 1) (channels (rdp_mcs r))).
  { unfold zdrop. replace (Z.to_nat (i + 1)) with (S (Z.to_nat i)) by lia. by apply drop_S. }
  rewrite Hdrop in Hn. unfold ztake in Hn. rewrite Nat2Z.id in Hn. cbn [take] in Hn. apply Forall_cons in Hn as [Hc1 Hn].
  unfold channel_at. rewrite Hc, pbind_plift. destruct (argv_run c Hc1) as (str & ->). rewrite pbind_plift.
  destruct (collect_run k r str Hcol ltac:(lia)) as (r1 & E1 & Hcol1 & Hs1). rewrite (require_step _ _ _ _ E1).
  destruct Hs1 as (a & z & cnt & ->). set (r1 := r <| StaticChannelArray := a |> <| StaticChannelArraySize := z |> <| StaticChannelCount := cnt |>) in *.
  destruct (IH (i + 1) (k + 1) r1 ltac:(lia) Hcol1 ltac:(lia)) as (r2 & E2 & a2 & z2 & n2 & ->).
  - change (rdp_mcs r1) with (rdp_mcs r). lia.
  - change (rdp_mcs r1) with (rdp_mcs r). unfold ztake. by rewrite Nat2Z.id.
  - eexists. split; [exact E2|]. by exists a2, z2, n2.
Qed.
End accepting.

(** ** The first PDUs *)

(** What a server needs to accept the client: it is not replaying, has the protocol of the client and
    no RDP security layer, and room for the monitors and the channels. *)
Record acceptable (s c : rdpSettings) : Prop := {
  acc_replay : TransportDumpReplay s = false;
  acc_protocol : SelectedProtocol s = u32 (SelectedProtocol c);
  acc_layer : UseRdpSecurityLayer s = false;
  acc_monitors : 16 <= zlen (MonitorDefArray s);
  acc_channels : CHANNEL_MAX_COUNT <= zlen (ChannelDefArray s)
}.

(** The parameters that a server with new objects agrees to. *)
Definition agreed_parameters : DomainParameters := mcs_init_domain_parameters 34 3 0 0xFFF8.

Lemma mcs_new_inv `{HM : Malloc} m : mcs_new = Some m ->
  m = mkMcs 0 (MCS_GLOBAL_CHANNEL_ID + 1) 0 0 (mcs_init_domain_parameters 0 0 0 0xFFFF) (mcs_init_domain_parameters 34 2 0 0xFFFF)
    (mcs_init_domain_parameters 1 1 1 0x420) (mcs_init_domain_parameters 0xFFFF 0xFC17 0xFFFF 0xFFFF)
    false false false 0 CHANNEL_MAX_COUNT (zrep CHANNEL_MAX_COUNT blank_channel).
Proof. unfold mcs_new. destruct (malloc_ok 176); [|done]. by destruct (malloc_ok (CHANNEL_MAX_COUNT * 32)); [intros [= <-]|]. Qed.

Lemma mcs_new_facts `{HM : Malloc} m : mcs_new = Some m ->
  mcs_wf m /\ all_params_wf m /\ channelCount m = 0 /\
  mcs_merge_domain_parameters (targetParameters m) (minimumParameters m) (maximumParameters m) (domainParameters m) = (true, agreed_parameters).
Proof.
  intros ->%mcs_new_inv. split_and!; [by constructor; [..|apply Forall_zrep; repeat constructor]|..]; [repeat constructor; vm_compute; discriminate..|done|done].
Qed.

Section opening.
Context {W : Type} `{HB : !FrontBio W} `{HP : !StreamPools W} `{HL : !WriteLaws W} `{HM : Malloc} `{HF : FreshMemory} `{HY : !ByteMemory}.
Context `{HX : !Surroundings W} `{HQ : !QuietCallbacks W} `{HC : ServerCrypto}.
Context (Hmem : forall n, 0 <= n <= 2 ^ 20 -> malloc_ok n = true).
Context (E : W -> Prop) (HE : takes_all E).
Context (fuel : nat) (Hfuel : (0 < fuel)%nat).
Context (m0 : rdpMcs) (Hnew : mcs_new = Some m0).
Context (c s : rdpSettings) (name product : list Z) (mons : list rdpMonitor).
Context (Hcount : 0 <= ChannelCount c <= CHANNEL_MAX_COUNT) (Hdefs : ChannelCount c <= zlen (ChannelDefArray c)).
Context (Hc : client_side (initialized m0 c) c name product (client_channels c) mons) (Hacc : acceptable s c).
Abbreviation packet_c := (initial_packet m0 c name product mons).
Abbreviation server0 := (connect_server m0 m0 c agreed_parameters).
Abbreviation packet_s := (response_packet m0 m0 c agreed_parameters).

Lemma new_server_side : server_side m0 s c (client_channels c).
Proof using Hnew Hc Hacc.
  clear Hfuel. destruct (mcs_new_facts _ Hnew) as (Hwf & _ & Hz & _). destruct Hacc. destruct (cs_defs _ _ _ _ _ _ Hc) as [_ Hmax].
  split; [done| |done|done]. rewrite (mcs_new_inv _ Hnew). unfold CHANNEL_MAX_COUNT, MCS_GLOBAL_CHANNEL_ID in *. cbn. lia.
Qed.

Lemma new_initial_exchanged t :
  sends fuel (mcs_client_begin fuel) (m0, c) t packet_c (connect_client m0 c, c) /\
  takes mcs_recv_connect_initial (m0, s) packet_c true (server0, connect_settings c s name product mons).
Proof using Hmem HL HY Hnew Hc Hacc Hcount Hdefs.
  destruct (mcs_new_facts _ Hnew) as (Hwf & Hp & _ & Hmerge).
  exact (connect_initial_exchanged Hmem m0 m0 c s name product mons _ Hcount Hdefs Hc Hwf new_server_side Hp Hmerge fuel t).
Qed.

Lemma new_response_exchanged t st :
  EncryptionMethods st = ENCRYPTION_METHOD_NONE -> EncryptionLevel st = ENCRYPTION_LEVEL_NONE ->
  sends fuel (mcs_send_connect_response fuel) (server0, st) t (packet_s st) (server0, with_random st) /\
  takes mcs_recv_connect_response (connect_client m0 c, c) (packet_s st) true
    (client_mcs server0 (connect_ids m0 m0 c agreed_parameters) (connect_client_params m0 c agreed_parameters), client_settings st c).
Proof using Hmem HL HY Hnew Hc Hacc Hcount Hdefs.
  destruct (mcs_new_facts _ Hnew) as (Hwf & Hp & _ & Hmerge).
  exact (connect_response_exchanged Hmem m0 m0 c s name product mons _ Hcount Hdefs Hc Hwf new_server_side Hp Hmerge fuel t st).
Qed.

Lemma new_ids : channelCount server0 = zlen (client_channels c) /\ zlen (connect_ids m0 m0 c agreed_parameters) = zlen (client_channels c) /\
  channels server0 = connect_ids m0 m0 c agreed_parameters ++ zdrop (zlen (client_channels c)) (channels server0).
Proof using Hnew Hc Hacc Hcount Hdefs.
  destruct (mcs_new_facts _ Hnew) as (Hwf & _). exact (connect_ids_length m0 m0 c s name product mons _ Hcount Hdefs Hc Hwf new_server_side).
Qed.
End opening.

(** ** The channels of both sides *)

(** The ids in the order they are joined when client and server start with new objects. *)
Definition first_id : Z := MCS_GLOBAL_CHANNEL_ID + 1.
Definition new_user (c : rdpSettings) : Z := first_id + zlen (client_channels c) + (if extended c then 1 else 0).
Definition domain_order (c : rdpSettings) : list Z :=
  [new_user c; MCS_GLOBAL_CHANNEL_ID] ++ (if extended c then [first_id + zlen (client_channels c)] else []) ++ seqZ first_id (zlen (client_channels c)).

Definition unjoined (m : rdpMcs) : Prop :=
  userChannelJoined m = false /\ globalChannelJoined m = false /\ messageChannelJoined m = false /\ Forall (fun c => joined c = false) (channels m).

Lemma unjoined_progress m : unjoined m -> progress m 0.
Proof.
  intros (H1 & H2 & H3 & H4). assert (Hall : Forall (fun b => b = false) (join_flags m)).
  { unfold join_flags. rewrite H1, H2, H3. cbn [app]. repeat (apply Forall_cons; split; [done|]). apply Forall_app. split; [by destruct (_ =? 0); repeat constructor|].
    apply Forall_map. by apply Forall_ztake. }
  unfold progress, first_true. cbn [replicate app]. rewrite Nat.sub_0_r, <- length_flags. clear - Hall.
  induction Hall as [|b l -> _ IH]; [done|]. cbn. by f_equal.
Qed.

Lemma assign_ids_unjoined defs : forall base old, Forall (fun c => joined c = false) old -> Forall (fun c => joined c = false) (assign_ids base defs old).
Proof. induction defs as [|d defs IH]; intros base [|x old] H; try done. apply Forall_cons in H as [Hx H]. apply Forall_cons. split; [done|by apply IH]. Qed.

Lemma set_ids_unjoined l : forall old, Forall (fun c => joined c = false) old -> Forall (fun c => joined c = false) (fill set_id l old).
Proof. induction l as [|d l IH]; intros [|x old] H; try done. apply Forall_cons in H as [Hx H]. apply Forall_cons. split; [done|by apply IH]. Qed.

Lemma domain_order_distinct c : NoDup (domain_order c).
Proof.
  pose proof (zlen_nonneg (client_channels c)). unfold domain_order, new_user, first_id. destruct (extended c); cbn [app];
    repeat (apply NoDup_cons; split; [rewrite ?elem_of_cons, elem_of_seqZ; lia|]); apply NoDup_seqZ.
Qed.

Section domain.
Context `{HM : Malloc} (m0 : rdpMcs) (Hnew : mcs_new = Some m0).
Context (c s : rdpSettings) (name product : list Z) (mons : list rdpMonitor).
Context (Hcount : 0 <= ChannelCount c <= CHANNEL_MAX_COUNT) (Hdefs : ChannelCount c <= zlen (ChannelDefArray c)).
Context (Hc : client_side (initialized m0 c) c name product (client_channels c) mons) (Hacc : acceptable s c).
Abbreviation server0 := (connect_server m0 m0 c agreed_parameters).
Abbreviation client0 := (client_mcs server0 (connect_ids m0 m0 c agreed_parameters) (connect_client_params m0 c agreed_parameters)).

Lemma new_user_ok : user_id (new_user c) /\ zlen (client_channels c) <= CHANNEL_MAX_COUNT.
Proof using Hc.
  destruct (cs_defs _ _ _ _ _ _ Hc) as [_ Hmax]. split; [|done]. pose proof (zlen_nonneg (client_channels c)).
  unfold user_id, new_user, first_id, MCS_BASE_CHANNEL_ID, MCS_GLOBAL_CHANNEL_ID, UINT16_MAX, CHANNEL_MAX_COUNT in *. destruct (extended c); lia.
Qed.

Lemma server0_base : baseChannelId server0 = new_user c.
Proof using Hc Hnew.
  destruct new_user_ok as [_ Hmax]. pose proof (zlen_nonneg (client_channels c)).
  unfold connect_server, server_mcs, new_user, first_id, connect_defs. rewrite (mcs_new_inv _ Hnew). cbv zeta.
  unfold CHANNEL_MAX_COUNT in Hmax. destruct (0 <? zlen (client_channels c)) eqn:Ez, (extended c); cbn; rewrite ?u16_id; unfold MCS_GLOBAL_CHANNEL_ID; lia.
Qed.

Lemma new_message : messageChannelId server0 = (if extended c then first_id + zlen (client_channels c) else 0) /\
  messageChannelId client0 = messageChannelId server0.
Proof using Hc Hnew.
  destruct new_user_ok as [_ Hmax]. pose proof (zlen_nonneg (client_channels c)). unfold CHANNEL_MAX_COUNT in Hmax.
  assert (Es : messageChannelId server0 = if extended c then first_id + zlen (client_channels c) else 0).
  { unfold connect_server, server_mcs, first_id, connect_defs. rewrite (mcs_new_inv _ Hnew). cbv zeta.
    destruct (0 <? zlen (client_channels c)) eqn:Ez, (extended c); cbn; unfold MCS_GLOBAL_CHANNEL_ID; lia. }
  split; [exact Es|]. unfold client_mcs. cbv zeta. rewrite Es. destruct (extended c).
  - replace (_ =? 0) with false by (unfold first_id, MCS_GLOBAL_CHANNEL_ID; lia). cbn. rewrite u16_id; [done|]. unfold first_id, MCS_GLOBAL_CHANNEL_ID; lia.
  - cbn. unfold connect_client_params, connect_client, initialized. by rewrite (mcs_new_inv _ Hnew).
Qed.

Lemma new_channel i d : client_channels c !! i = Some d ->
  exists cs cc, channels server0 !! i = Some cs /\ channels client0 !! i = Some cc /\
    Name cs = Name d /\ ChannelId cs = first_id + Z.of_nat i /\ ChannelId cc = first_id + Z.of_nat i.
Proof using Hc Hnew Hacc Hcount Hdefs.
  intros Hd. destruct (mcs_new_facts _ Hnew) as (Hwf & _ & Hz & _).
  destruct (connect_client_side m0 c name product mons agreed_parameters Hcount Hdefs Hc Hwf) as [Hc1 _].
  destruct (connect_server_side m0 m0 c s (new_server_side m0 Hnew c s name product mons Hc Hacc)) as [[Hw1 Hz1] Hi1 _ _].
  destruct (cs_channels _ _ _ _ _ _ Hc1) as (_ & rest & Hrest). destruct (cs_defs _ _ _ _ _ _ Hc1) as [_ Hmax].
  destruct (channel_agreed (connect_client_params m0 c agreed_parameters) (with_params (connect_client m0 c) m0) c (client_channels c) rest Hrest Hw1 Hz1 Hmax Hi1 i d Hd)
    as (cs & cc & H1 & H2 & H3 & _ & _ & _ & H4 & H5).
  change (baseChannelId (with_params (connect_client m0 c) m0)) with (baseChannelId m0) in H4, H5. rewrite (mcs_new_inv _ Hnew) in H4, H5. by exists cs, cc.
Qed.

Lemma new_counts : channelCount server0 = zlen (client_channels c) /\ channelCount client0 = zlen (client_channels c) /\
  zlen (channels server0) = CHANNEL_MAX_COUNT /\ zlen (channels client0) = CHANNEL_MAX_COUNT.
Proof using Hc Hnew Hacc Hcount Hdefs.
  destruct (mcs_new_facts _ Hnew) as (Hwf & _ & Hz & _).
  destruct (connect_client_side m0 c name product mons agreed_parameters Hcount Hdefs Hc Hwf) as [_ Hw1].
  destruct (new_ids m0 Hnew c s name product mons Hcount Hdefs Hc Hacc) as (H1 & H2 & _).
  destruct (server_channels (connect_client_params m0 c agreed_parameters) (with_params (connect_client m0 c) m0) c (client_channels c) Hz) as [_ Hs].
  split_and!; [done| | |].
  - unfold client_mcs. cbv zeta. by destruct (_ =? 0).
  - change (zlen (channels (server_mcs (connect_client_params m0 c agreed_parameters) c (client_channels c) (with_params (connect_client m0 c) m0))) = CHANNEL_MAX_COUNT).
    rewrite Hs, zlen_assign_ids. exact (wf_array _ Hwf).
  - unfold client_mcs, merge_ids. cbv zeta. destruct (_ =? 0); cbn [channels update]; rewrite zlen_fill; exact (wf_array _ Hw1).
Qed.

(** The ids of the first [n] entries of an array. *)
Lemma array_ids (l : list rdpMcsChannel) n :
  0 <= n <= zlen l -> (forall i, (i < Z.to_nat n)%nat -> exists x, l !! i = Some x /\ ChannelId x = first_id + Z.of_nat i) ->
  map ChannelId (ztake n l) = seqZ first_id n.
Proof.
  intros Hn Hall. apply list_eq. intros i. change (map ChannelId (ztake n l)) with (ChannelId <$> ztake n l). rewrite list_lookup_fmap.
  unfold ztake. destruct (decide (i < Z.to_nat n)%nat) as [Hi|Hi].
  - rewrite lookup_take_lt by done. destruct (Hall i Hi) as (x & -> & Hx). cbn. rewrite Hx. symmetry. apply lookup_seqZ. lia.
  - rewrite lookup_take_ge by lia. symmetry. apply lookup_seqZ_ge. lia.
Qed.

Lemma new_statics : map ChannelId (statics server0) = seqZ first_id (zlen (client_channels c)) /\
  map ChannelId (statics client0) = seqZ first_id (zlen (client_channels c)).
Proof using Hc Hnew Hacc Hcount Hdefs.
  destruct new_counts as (C1 & C2 & C3 & C4). destruct new_user_ok as [_ Hmax]. pose proof (zlen_nonneg (client_channels c)).
  unfold statics. rewrite C1, C2. split; apply array_ids; try lia; intros i Hi;
    (destruct (lookup_lt_is_Some_2 (client_channels c) i) as [d Hd]; [unfold zlen in Hi; lia|]);
    destruct (new_channel i d Hd) as (cs & cc & E1 & E2 & _ & E3 & E4); eauto.
Qed.

(** Both sides join the same channels in the same order, once the user is attached. *)
Lemma new_orders : join_order (attach_user server0) = domain_order c /\ join_order (client0 <| userId := new_user c |>) = domain_order c.
Proof using Hc Hnew Hacc Hcount Hdefs.
  destruct new_statics as [S1 S2]. destruct new_message as [M1 M2]. pose proof (zlen_nonneg (client_channels c)). rewrite M1 in M2.
  assert (Hm : (if (if extended c then first_id + zlen (client_channels c) else 0) =? 0 then [] else [if extended c then first_id + zlen (client_channels c) else 0]) =
    if extended c then [first_id + zlen (client_channels c)] else []).
  { destruct (extended c); [|done]. by replace (_ =? 0) with false by (unfold first_id, MCS_GLOBAL_CHANNEL_ID; lia). }
  unfold domain_order. rewrite <- Hm. split.
  - rewrite <- S1, <- M1, <- server0_base. done.
  - rewrite <- S2, <- M2. done.
Qed.

Lemma new_unjoined : unjoined (attach_user server0) /\ unjoined (client0 <| userId := new_user c |>).
Proof using Hnew.
  destruct (mcs_new_facts _ Hnew) as (_ & _ & Hz & _).
  destruct (server_channels (connect_client_params m0 c agreed_parameters) (with_params (connect_client m0 c) m0) c (client_channels c) Hz) as [_ Hs].
  assert (Hf : forall m, m = m0 -> userChannelJoined m = false /\ globalChannelJoined m = false /\ messageChannelJoined m = false /\ Forall (fun c => joined c = false) (channels m)).
  { intros m ->. rewrite (mcs_new_inv _ Hnew). split_and!; [done..|]. by apply Forall_zrep. }
  destruct (Hf _ eq_refl) as (F1 & F2 & F3 & F4). split; unfold unjoined.
  - change (channels (attach_user server0)) with (channels (server_mcs (connect_client_params m0 c agreed_parameters) c (client_channels c) (with_params (connect_client m0 c) m0))).
    rewrite Hs. unfold attach_user, connect_server, server_mcs. cbv zeta. split_and!; [..|by apply assign_ids_unjoined]; by destruct (0 <? _), (extended c).
  - unfold client_mcs, merge_ids. cbv zeta. destruct (_ =? 0); (split_and!; [exact F1|exact F2|exact F3|]); apply set_ids_unjoined;
      apply Forall_app; (split; [apply Forall_map; by apply Forall_true|by apply Forall_zrep]).
Qed.

Lemma new_named : Forall named (ztake (zlen (client_channels c)) (channels server0)).
Proof using Hc Hnew Hacc Hcount Hdefs.
  apply Forall_lookup. intros i x Hx. unfold ztake in Hx. apply lookup_take_Some in Hx as [Hx Hi].
  destruct (lookup_lt_is_Some_2 (client_channels c) i) as [d Hd]; [unfold zlen in Hi; lia|].
  destruct (new_channel i d Hd) as (cs & cc & E1 & _ & E2 & _). rewrite E1 in Hx. injection Hx as <-.
  destruct (cs_defs _ _ _ _ _ _ Hc) as [Hall _]. rewrite Forall_lookup in Hall. destruct (Hall _ _ Hd) as [(Hn & _) Hz]. unfold named. by rewrite E2.
Qed.
End domain.
