(* ===== verification/ConnectionLink.v ===== *)
(** * A connection from its first PDU to the last joined channel

    A client and a server with new objects, the network between them as a step relation, and that
    every run establishes the connection. *)

From stdpp Require Import relations.
From S2P Require Import Prelude Memory Stream Per Framing UnicodeApi Readers Transport TransportPdu TransportRead TransportWrite Mcs McsPdu Gcc GccSafe GccPdu GccExchange McsConnect McsConnectPdu McsConnectExchange Connection ConnectionJoin ConnectionExchange.

(** ** The network *)

(** The two ends, the bytes of each one's outbox that the other end has received, and the result of the last
    callback. *)
Record link (W : Type) : Type := mkLink {
  client_end : rdpRdp W;
  server_end : rdpRdp W;
  to_server : list Z;
  to_client : list Z;
  last_result : Z
}.
Arguments mkLink {W}.
Arguments client_end {W}.
Arguments server_end {W}.
Arguments to_server {W}.
Arguments to_client {W}.
Arguments last_result {W}.

Section network.
Context {W : Type} `{HB : !FrontBio W} `{HP : !StreamPools W} `{HL : !WriteLaws W} `{HM : Malloc} `{HF : FreshMemory}.
Context `{HX : !Surroundings W} `{HC : ServerCrypto}.
Variables (fuel rounds : nat).
Implicit Types (l : link W) (r : rdpRdp W) (pdu : list Z).
Abbreviation out r := (outbox (bio (rdp_transport r))).

(** The next PDU of one end reaches the other end, in a stream of its own. *)
Inductive link_step l : link W -> Prop :=
| server_receives pdu rest str rc r' str' :
    out (client_end l) = to_server l ++ pdu ++ rest -> complete ModeDefault pdu -> readable str -> unread str = pdu ->
    peer_recv_callback fuel rounds (server_end l, str) = Ret (rc, (r', str')) ->
    link_step l (mkLink (client_end l) r' (to_server l ++ pdu) (to_client l) rc)
| client_receives pdu rest str rc r' str' :
    out (server_end l) = to_client l ++ pdu ++ rest -> complete ModeDefault pdu -> readable str -> unread str = pdu ->
    rdp_recv_callback fuel rounds (client_end l, str) = Ret (rc, (r', str')) ->
    link_step l (mkLink r' (server_end l) (to_server l) (to_client l ++ pdu) rc).

(** Bytes of each end that are on their way. *)
Definition pending l (ps pc : list Z) : Prop := out (client_end l) = to_server l ++ ps /\ out (server_end l) = to_client l ++ pc.

(** A step is possible, and every one leads to [Q]. *)
Definition leads l (Q : link W -> Prop) : Prop := (exists l', link_step l l') /\ forall l', link_step l l' -> last_result l' = STATE_RUN_SUCCESS /\ Q l'.

Lemma pending_server l pdu rest r' bs rc :
  pending l (pdu ++ rest) [] -> out r' = out (server_end l) ++ bs -> pending (mkLink (client_end l) r' (to_server l ++ pdu) (to_client l) rc) rest bs.
Proof. intros [Hs Hc] Hr. rewrite app_nil_r in Hc. split; cbn [client_end server_end to_server to_client]; [by rewrite Hs, app_assoc|by rewrite Hr, Hc]. Qed.
Lemma pending_client l pdu rest r' bs rc :
  pending l [] (pdu ++ rest) -> out r' = out (client_end l) ++ bs -> pending (mkLink r' (server_end l) (to_server l) (to_client l ++ pdu) rc) bs rest.
Proof. intros [Hs Hc] Hr. rewrite app_nil_r in Hs. split; cbn [client_end server_end to_server to_client]; [by rewrite Hr, Hs|by rewrite Hc, app_assoc]. Qed.

Lemma no_pdu pdu rest : complete ModeDefault pdu -> [] = pdu ++ rest -> False.
Proof. intros Hp Hn. symmetry in Hn. apply app_eq_nil in Hn as [-> _]. done. Qed.

Lemma stream_of pdu : Forall is_byte pdu -> zlen pdu < 2 ^ 63 -> exists str, readable str /\ unread str = pdu.
Proof.
  intros Hb Hz. exists (pdu_stream pdu). split; [by apply pdu_readable|]. unfold unread, pdu_stream. cbn. by rewrite zdrop_0, ztake_all by lia.
Qed.

(** A PDU on its way is received, and nothing else. *)
Lemma server_leads E l pdu rest (Q : rdpRdp W -> Prop) (Q' : link W -> Prop) :
  pending l (pdu ++ rest) [] -> complete ModeDefault pdu -> Forall is_byte pdu -> zlen pdu < 2 ^ 63 ->
  reacts E (peer_recv_callback fuel rounds) (server_end l) pdu Q ->
  (forall r', ready E (rdp_transport r') -> Q r' -> Q' (mkLink (client_end l) r' (to_server l ++ pdu) (to_client l) STATE_RUN_SUCCESS)) ->
  leads l Q'.
Proof.
  intros [Hs Hc] Hp Hb Hz Hr HQ. split.
  - destruct (stream_of pdu Hb Hz) as (str & Hs1 & Hs2). destruct (Hr str Hs1 Hs2) as (r' & str' & Er & _).
    eexists. eapply (server_receives l pdu rest); done.
  - intros l' Hl. destruct Hl as [pdu' rest' str rc r' str' H1 H2 H3 H4 H5|pdu' rest' str rc r' str' H1 H2 _ _ _].
    + rewrite Hs in H1. apply app_inv_head in H1. destruct (complete_unique _ _ _ _ _ Hp H2 H1) as [-> _].
      destruct (Hr str H3 H4) as (r1 & str1 & Er & Hrd & HQ1). rewrite Er in H5. injection H5 as <- <- <-. split; [done|]. by apply HQ.
    + rewrite Hc in H1. apply app_inv_head in H1. by apply no_pdu in H1.
Qed.

Lemma client_leads E l pdu rest (Q : rdpRdp W -> Prop) (Q' : link W -> Prop) :
  pending l [] (pdu ++ rest) -> complete ModeDefault pdu -> Forall is_byte pdu -> zlen pdu < 2 ^ 63 ->
  reacts E (rdp_recv_callback fuel rounds) (client_end l) pdu Q ->
  (forall r', ready E (rdp_transport r') -> Q r' -> Q' (mkLink r' (server_end l) (to_server l) (to_client l ++ pdu) STATE_RUN_SUCCESS)) ->
  leads l Q'.
Proof.
  intros [Hs Hc] Hp Hb Hz Hr HQ. split.
  - destruct (stream_of pdu Hb Hz) as (str & Hs1 & Hs2). destruct (Hr str Hs1 Hs2) as (r' & str' & Er & _).
    eexists. eapply (client_receives l pdu rest); done.
  - intros l' Hl. destruct Hl as [pdu' rest' str rc r' str' H1 H2 _ _ _|pdu' rest' str rc r' str' H1 H2 H3 H4 H5].
    + rewrite Hs in H1. apply app_inv_head in H1. by apply no_pdu in H1.
    + rewrite Hc in H1. apply app_inv_head in H1. destruct (complete_unique _ _ _ _ _ Hp H2 H1) as [-> _].
      destruct (Hr str H3 H4) as (r1 & str1 & Er & Hrd & HQ1). rewrite Er in H5. injection H5 as <- <- <-. split; [done|]. by apply HQ.
Qed.
End network.

(** ** The handlers of the first PDUs *)

Lemma encryption_off s : UseRdpSecurityLayer s = false ->
  rdp_update_encryption_level s = (true, s <| EncryptionLevel := ENCRYPTION_LEVEL_NONE |> <| EncryptionMethods := ENCRYPTION_METHOD_NONE |>).
Proof. intros Hs. unfold rdp_update_encryption_level. by rewrite Hs. Qed.

Lemma apply_settings_run {W} (f : rdpRdp W -> outcome (bool * rdpSettings)) (r : rdpRdp W) ok st :
  f r = Ret (ok, st) -> apply_settings f r = Ret (ok, r <| rdp_settings := st |>).
Proof. intros Ef. unfold apply_settings. by rewrite pbind_pget, Ef. Qed.

Section linked.
Context {W : Type} `{HB : !FrontBio W} `{HP : !StreamPools W} `{HL : !WriteLaws W} `{HM : Malloc} `{HF : FreshMemory} `{HY : !ByteMemory}.
Context `{HX : !Surroundings W} `{HQ : !QuietCallbacks W} `{HC : ServerCrypto}.
Context (Hmem : forall n, 0 <= n <= 2 ^ 20 -> malloc_ok n = true).
Context (E : W -> Prop) (HE : takes_all E).
Context (fuel : nat) (Hfuel : (0 < fuel)%nat).
Context (m0 : rdpMcs) (Hnew : mcs_new = Some m0).
Context (c s : rdpSettings) (name product : list Z) (mons : list rdpMonitor).
Context (Hcount : 0 <= ChannelCount c <= CHANNEL_MAX_COUNT) (Hdefs : ChannelCount c <= zlen (ChannelDefArray c)).
Context (Hc : client_side (initialized m0 c) c name product (client_channels c) mons) (Hacc : acceptable s c).
Implicit Types (r : rdpRdp W).
Abbreviation out r := (outbox (bio (rdp_transport r))).
Abbreviation packet_c := (initial_packet m0 c name product mons).
Abbreviation packet_s := (response_packet m0 m0 c agreed_parameters).
Abbreviation server0 := (connect_server m0 m0 c agreed_parameters).
Abbreviation client0 := (client_mcs server0 (connect_ids m0 m0 c agreed_parameters) (connect_client_params m0 c agreed_parameters)).
Abbreviation both_skip := (SupportSkipChannelJoin s && SupportSkipChannelJoin c).

(** The settings of the server when it answers. *)
Definition accepted (st : rdpSettings) : Prop :=
  EncryptionMethods st = ENCRYPTION_METHOD_NONE /\ EncryptionLevel st = ENCRYPTION_LEVEL_NONE /\
  SupportSkipChannelJoin st = both_skip /\ TransportDumpReplay st = false.

Lemma settings_applied : exists st,
  mcs_server_apply_to_settings server0 (connect_settings c s name product mons) = Ret (true, st) /\
  UseRdpSecurityLayer st = false /\ SupportSkipChannelJoin st = both_skip /\ TransportDumpReplay st = false.
Proof using All.
  destruct (new_counts m0 Hnew c s name product mons Hcount Hdefs Hc Hacc) as (C1 & _ & C3 & _). destruct (new_user_ok m0 c name product mons Hc) as [_ Hmax].
  pose proof (zlen_nonneg (client_channels c)). destruct Hacc as [A1 A2 A3 A4 A5]. unfold mcs_server_apply_to_settings, connect_settings. set (st0 := server_settings c name product mons s).
  destruct (apply_channels_run (Z.to_nat (channelCount server0)) 0 (channels server0) (st0 <| ChannelCount := channelCount server0 |>)) as (l & El).
  - unfold zlen in C3. lia.
  - lia.
  - change (ChannelDefArray (st0 <| ChannelCount := channelCount server0 |>)) with (ChannelDefArray st0). unfold st0. rewrite server_def_array. lia.
  - eexists. split; [exact El|]. split_and!.
    + exact (eq_trans (server_rdp_layer c s name product mons) A3).
    + exact (server_skip c s name product mons).
    + exact (eq_trans (server_replay c s name product mons) A1).
Qed.

Ltac server_enter Hst :=
  unfold peer_recv_callback_internal; rewrite pbind_pget; cbn [fst];
  rewrite (pbind_ret _ _ _ _ _ (on_rdp_ret _ _ _ _ _ (quiet_reached _ _))), pbind_pget; cbn [fst]; rewrite Hst.

(** The server takes the connect initial and answers. *)
Lemma connect_reacts r :
  rdp_state r = CONNECTION_STATE_MCS_CREATE_REQUEST -> ready E (rdp_transport r) -> rdp_mcs r = m0 -> rdp_settings r = s -> collected 0 r ->
  reacts E (peer_recv_callback_internal fuel) r packet_c (fun r' => exists st, accepted st /\
    rdp_state r' = CONNECTION_STATE_MCS_ERECT_DOMAIN /\ rdp_mcs r' = server0 /\ rdp_settings r' = with_random st /\ out r' = out r ++ packet_s st).
Proof using All.
  intros Hst Hr Hm Hs0 Hcol str Hs Hu. destruct (new_initial_exchanged Hmem fuel m0 Hnew c s name product mons Hcount Hdefs Hc Hacc (rdp_transport r)) as [_ Htake].
  specialize (Htake str Hs Hu). destruct settings_applied as (st1 & Es & U1 & U2 & U3).
  destruct (new_counts m0 Hnew c s name product mons Hcount Hdefs Hc Hacc) as (C1 & _ & C3 & _). destruct (new_user_ok m0 c name product mons Hc) as [_ Hmax].
  pose proof (zlen_nonneg (client_channels c)). unfold CHANNEL_MAX_COUNT in *.
  set (str' := advance str (zlen packet_c)) in *. set (st2 := st1 <| EncryptionLevel := ENCRYPTION_LEVEL_NONE |> <| EncryptionMethods := ENCRYPTION_METHOD_NONE |>).
  set (r1 := r <| rdp_mcs := server0 |> <| rdp_settings := connect_settings c s name product mons |>). set (r2 := r1 <| rdp_settings := st1 |>).
  assert (Hn2 : Forall named (ztake (Z.of_nat (Z.to_nat (channelCount server0))) (zdrop 0 (channels (rdp_mcs r2))))).
  { rewrite zdrop_0, Z2Nat.id, C1 by lia. exact (new_named m0 Hnew c s name product mons Hcount Hdefs Hc Hacc). }
  destruct (add_channels_run Hmem (Z.to_nat (channelCount server0)) 0 0 r2 ltac:(lia) Hcol ltac:(lia) ltac:(change (rdp_mcs r2) with server0; lia) Hn2) as (r3 & Ea & a & z & n & ->).
  set (r3 := r2 <| StaticChannelArray := a |> <| StaticChannelArraySize := z |> <| StaticChannelCount := n |>) in *.
  set (r4 := r3 <| rdp_state := CONNECTION_STATE_MCS_CREATE_RESPONSE |>). set (r5 := r4 <| rdp_settings := st2 |>).
  destruct (new_response_exchanged Hmem fuel m0 Hnew c s name product mons Hcount Hdefs Hc Hacc (rdp_transport r) st2 eq_refl eq_refl) as [Hsend _].
  destruct (send_gcc_ready Hmem E HE fuel Hfuel r5 (mcs_send_connect_response fuel) server0 (with_random st2) (packet_s st2) Hr Hsend) as (t' & Et & Hr' & Ho).
  set (r6 := r5 <| rdp_mcs := server0 |> <| rdp_settings := with_random st2 |> <| rdp_transport := t' |>) in *.
  set (r7 := r6 <| rdp_state := CONNECTION_STATE_MCS_ERECT_DOMAIN |>).
  exists r7, str'. split; [|split; [exact Hr'|]; exists st2; split_and!; [|reflexivity|reflexivity|reflexivity|exact Ho]; by split_and!].
  server_enter Hst. erewrite or_fail_step; [reflexivity|]. unfold rdp_server_accept_mcs_connect_initial.
  rewrite (pbind_ret (in_state _) _ _ tt _) by (unfold in_state, pbind, pget, passert; cbn [fst]; by rewrite bool_decide_true by done).
  rewrite (require_step _ _ _ (r1, str')) by (apply recv_gcc_ret; by rewrite Hm, Hs0).
  rewrite (require_step _ _ _ (r2, str')) by (apply on_rdp_ret, apply_settings_run; exact Es). rewrite pbind_pget. cbn [fst].
  rewrite (require_step _ _ _ (r3, str')) by (apply on_rdp_ret; exact Ea).
  rewrite (require_step _ _ _ (r4, str')) by (apply on_rdp_ret, server_go; change (rdp_state r3) with (rdp_state r); by rewrite Hst).
  rewrite (require_step _ _ _ (r5, str')) by (apply on_rdp_ret, apply_settings_run; change (rdp_settings r4) with st1; by rewrite (encryption_off st1 U1)).
  rewrite (require_step _ _ _ (r6, str')) by (apply on_rdp_ret; exact Et).
  rewrite (require_step _ _ _ (r7, str')) by (apply on_rdp_ret; by apply server_go). done.
Qed.

(** The client takes the answer, and asks to be attached. *)
Lemma response_reacts r st :
  accepted st -> rdp_state r = CONNECTION_STATE_MCS_CREATE_RESPONSE -> ready E (rdp_transport r) -> rdp_mcs r = connect_client m0 c -> rdp_settings r = c ->
  reacts E (rdp_recv_callback_int fuel) r (packet_s st) (fun r' =>
    rdp_state r' = CONNECTION_STATE_MCS_ATTACH_USER_CONFIRM /\ rdp_mcs r' = client0 /\ rdp_settings r' = client_settings st c /\
    out r' = out r ++ erect_domain_request ++ attach_user_request).
Proof using All.
  intros (A1 & A2 & _) Hst Hr Hm Hs0 str Hs Hu.
  destruct (new_response_exchanged Hmem fuel m0 Hnew c s name product mons Hcount Hdefs Hc Hacc (rdp_transport r) st A1 A2) as [_ Htake].
  specialize (Htake str Hs Hu). set (str' := advance str (zlen (packet_s st))) in *.
  set (r1 := r <| rdp_mcs := client0 |> <| rdp_settings := client_settings st c |>). set (r2 := r1 <| rdp_state := CONNECTION_STATE_MCS_ERECT_DOMAIN |>).
  destruct (send_mcs_ready Hmem E HE fuel Hfuel r2 12 _ _ client0 erect_domain_request (mcs_send_erect_domain_request fuel) eq_refl Hr
    ltac:(vm_compute; split; [reflexivity|discriminate]) ltac:(unfold UINT16_MAX; lia) eq_refl erect_domain_request_fills) as (t3 & E3 & Hr3 & Ho3).
  set (r3 := r2 <| rdp_mcs := client0 |> <| rdp_transport := t3 |>) in *. set (r4 := r3 <| rdp_state := CONNECTION_STATE_MCS_ATTACH_USER |>).
  destruct (send_mcs_ready Hmem E HE fuel Hfuel r4 8 _ _ client0 attach_user_request (mcs_send_attach_user_request fuel) eq_refl Hr3
    ltac:(vm_compute; split; [reflexivity|discriminate]) ltac:(unfold UINT16_MAX; lia) eq_refl attach_user_request_fills) as (t5 & E5 & Hr5 & Ho5).
  set (r5 := r4 <| rdp_mcs := client0 |> <| rdp_transport := t5 |>) in *. set (r6 := r5 <| rdp_state := CONNECTION_STATE_MCS_ATTACH_USER_CONFIRM |>).
  exists r6, str'. split; [|split; [exact Hr5|split_and!; [reflexivity|reflexivity|reflexivity|]]].
  - unfold rdp_recv_callback_int. rewrite pbind_pget. cbn [fst]. rewrite Hst. cbv zeta.
    rewrite (or_fail_step _ _ _ (r1, str')) by (apply recv_gcc_ret; by rewrite Hm, Hs0).
    rewrite (or_fail_step _ _ _ (r2, str')) by (by apply on_rdp_ret, client_go).
    rewrite (or_fail_step _ _ _ (r3, str')) by (by apply on_rdp_ret).
    rewrite (or_fail_step _ _ _ (r4, str')) by (by apply on_rdp_ret, client_go).
    rewrite (or_fail_step _ _ _ (r5, str')) by (by apply on_rdp_ret).
    rewrite (or_fail_step _ _ _ (r6, str')) by (by apply on_rdp_ret, client_go). done.
  - change (out r6) with (outbox (bio t5)). rewrite Ho5. change (out r4) with (outbox (bio t3)). rewrite Ho3. by rewrite <- app_assoc.
Qed.

(** A client that has finished the negotiation begins. *)
Lemma begin_reacts n r :
  rdp_state r = CONNECTION_STATE_NEGO -> ready E (rdp_transport r) -> rdp_mcs r = m0 -> rdp_settings r = c ->
  reacts E (rdp_recv_callback fuel (S (S n))) r [] (fun r' =>
    rdp_state r' = CONNECTION_STATE_MCS_CREATE_RESPONSE /\ rdp_mcs r' = connect_client m0 c /\ rdp_settings r' = c /\ out r' = out r ++ packet_c).
Proof using All.
  intros Hst Hr Hm Hs0 str Hs Hu. set (r1 := r <| rdp_state := CONNECTION_STATE_MCS_CREATE_REQUEST |>).
  destruct (new_initial_exchanged Hmem fuel m0 Hnew c s name product mons Hcount Hdefs Hc Hacc (rdp_transport r)) as [Hsend _].
  rewrite <- Hm, <- Hs0 in Hsend at 1.
  destruct (send_gcc_ready Hmem E HE fuel Hfuel r1 (mcs_client_begin fuel) _ _ packet_c Hr Hsend) as (t' & Et & Hr' & Ho).
  set (r2 := r1 <| rdp_mcs := connect_client m0 c |> <| rdp_settings := c |> <| rdp_transport := t' |>) in *.
  set (r3 := r2 <| rdp_state := CONNECTION_STATE_MCS_CREATE_RESPONSE |>).
  exists r3, str. split; [|split; [exact Hr'|by split_and!]].
  assert (E1 : rdp_recv_callback_int fuel (r, str) = Ret (STATE_RUN_CONTINUE, (r1, str))).
  { unfold rdp_recv_callback_int. rewrite pbind_pget. cbn [fst]. rewrite Hst. cbv zeta. by rewrite (or_fail_step _ _ _ (r1, str)) by (by apply on_rdp_ret, client_go). }
  assert (E2 : rdp_recv_callback_int fuel (r1, str) = Ret (STATE_RUN_SUCCESS, (r3, str))).
  { unfold rdp_recv_callback_int. rewrite pbind_pget. cbn [fst]. change (rdp_state r1) with CONNECTION_STATE_MCS_CREATE_REQUEST. cbv iota zeta.
    rewrite (or_fail_step _ _ _ (r2, str)) by (by apply on_rdp_ret). rewrite (or_fail_step _ _ _ (r3, str)) by (by apply on_rdp_ret, client_go).
    rewrite (pbind_ret _ _ _ 0 (r3, str)); [done|]. apply at_s_ret. rewrite remaining_length_spec by apply Hs. by rewrite Hu. }
  unfold rdp_recv_callback. rewrite (pbind_ret _ _ _ _ _ (at_s_ret _ _ _ _ _ (position_spec str (proj1 Hs)))). cbn [client_rounds].
  change (STATE_RUN_FAILED =? STATE_RUN_TRY_AGAIN) with false. cbv iota. rewrite pbind_pret, (pbind_ret _ _ _ _ _ E1).
  change ((STATE_RUN_CONTINUE =? STATE_RUN_TRY_AGAIN) || (STATE_RUN_CONTINUE =? STATE_RUN_CONTINUE)) with true. cbv iota.
  change (STATE_RUN_CONTINUE =? STATE_RUN_TRY_AGAIN) with false. cbv iota. by rewrite pbind_pret, (pbind_ret _ _ _ _ _ E2).
Qed.

(** ** The phases *)

Context (Hinfo : forall r, ready E (rdp_transport r) ->
  runs rdp_send_client_info r (fun ok r' => ok = true /\ rdp_mcs r' = rdp_mcs r /\ ready E (rdp_transport r'))).
Variable n : nat.
Implicit Types (l : link W).
Abbreviation user := (new_user c).
Abbreviation order := (domain_order c).
Abbreviation client1 := (client0 <| userId := user |>).
Abbreviation server1 := (attach_user server0).
Abbreviation leads := (leads fuel (S (S n))).

(** An end in a state, with its objects. *)
Definition end_is r (st : CONNECTION_STATE) (m : rdpMcs) (settings : rdpSettings) : Prop :=
  ready E (rdp_transport r) /\ rdp_state r = st /\ rdp_mcs r = m /\ rdp_settings r = settings.

(** An end that has joined the first [i] channels. *)
Definition end_joined r (st : CONNECTION_STATE) (m : rdpMcs) (i : nat) : Prop :=
  ready E (rdp_transport r) /\ rdp_state r = st /\ same_channels m (rdp_mcs r) /\ progress (rdp_mcs r) i.

(** Both ends when all channels are joined. *)
Definition established l : Prop :=
  end_joined (client_end l) CONNECTION_STATE_CONNECT_TIME_AUTO_DETECT_REQUEST client1 (length order) /\
  end_joined (server_end l) CONNECTION_STATE_RDP_SECURITY_COMMENCEMENT server1 (length order).

(** The PDUs that are exchanged: one each way for every channel, unless both sides skip that. *)
Definition exchanged : nat := 5 + (if both_skip then 0 else 2 * length order).

(** What holds after as many PDUs. *)
Inductive phase l : nat -> Prop :=
| phase_initial :
    end_is (client_end l) CONNECTION_STATE_MCS_CREATE_RESPONSE (connect_client m0 c) c ->
    end_is (server_end l) CONNECTION_STATE_MCS_CREATE_REQUEST m0 s -> collected 0 (server_end l) -> pending l packet_c [] -> phase l 0
| phase_response st :
    accepted st -> end_is (client_end l) CONNECTION_STATE_MCS_CREATE_RESPONSE (connect_client m0 c) c ->
    end_is (server_end l) CONNECTION_STATE_MCS_ERECT_DOMAIN server0 (with_random st) -> pending l [] (packet_s st) -> phase l 1
| phase_erect st :
    accepted st -> end_is (client_end l) CONNECTION_STATE_MCS_ATTACH_USER_CONFIRM client0 (client_settings st c) ->
    end_is (server_end l) CONNECTION_STATE_MCS_ERECT_DOMAIN server0 (with_random st) ->
    pending l (erect_domain_request ++ attach_user_request) [] -> phase l 2
| phase_attach st :
    accepted st -> end_is (client_end l) CONNECTION_STATE_MCS_ATTACH_USER_CONFIRM client0 (client_settings st c) ->
    end_is (server_end l) CONNECTION_STATE_MCS_ATTACH_USER server0 (with_random st) -> pending l attach_user_request [] -> phase l 3
| phase_confirm st :
    accepted st -> end_is (client_end l) CONNECTION_STATE_MCS_ATTACH_USER_CONFIRM client0 (client_settings st c) ->
    (if both_skip then end_joined (server_end l) CONNECTION_STATE_RDP_SECURITY_COMMENCEMENT server1 (length order)
     else end_is (server_end l) CONNECTION_STATE_MCS_CHANNEL_JOIN_REQUEST server1 (with_random st)) ->
    pending l [] (attach_user_confirm user) -> phase l 4
| phase_request st i id :
    both_skip = false -> accepted st -> order !! i = Some id ->
    end_joined (client_end l) CONNECTION_STATE_MCS_CHANNEL_JOIN_RESPONSE client1 i -> rdp_settings (client_end l) = client_settings st c ->
    end_joined (server_end l) CONNECTION_STATE_MCS_CHANNEL_JOIN_REQUEST server1 i -> rdp_settings (server_end l) = with_random st ->
    pending l (channel_join_request user id) [] -> phase l (5 + 2 * i)
| phase_answer st i id :
    both_skip = false -> accepted st -> order !! i = Some id ->
    end_joined (client_end l) CONNECTION_STATE_MCS_CHANNEL_JOIN_RESPONSE client1 i -> rdp_settings (client_end l) = client_settings st c ->
    end_joined (server_end l) (if (length order <=? S i)%nat then CONNECTION_STATE_RDP_SECURITY_COMMENCEMENT else CONNECTION_STATE_MCS_CHANNEL_JOIN_REQUEST)
      server1 (S i) -> rdp_settings (server_end l) = with_random st ->
    pending l [] (channel_join_confirm user id) -> phase l (6 + 2 * i)
| phase_established : established l -> phase l exchanged.

Lemma client_settings_after st : accepted st ->
  UseRdpSecurityLayer (client_settings st c) = false /\ SupportSkipChannelJoin (client_settings st c) = both_skip.
Proof using All.
  intros (_ & _ & Hsk & _). unfold client_settings. cbv zeta. split; [by destruct (tells_multitransport st)|].
  transitivity (SupportSkipChannelJoin c && SupportSkipChannelJoin st); [by destruct (tells_multitransport st)|].
  rewrite Hsk. by destruct (SupportSkipChannelJoin s), (SupportSkipChannelJoin c).
Qed.

Lemma fills_bytes w pdu : fills w pdu -> 0 < zlen pdu <= 65536 -> Forall is_byte pdu.
Proof using All.
  intros Hw Hz. destruct (stream_new_run Hmem (zlen pdu) Hz) as (str & _ & Hg & Hp & Hcap).
  destruct (Hw str (proj1 Hg) Hp ltac:(lia)) as ([] & str' & _ & Hb); [|by destruct (memory Hmem)].
  destruct Hb as (Hs & _ & <- & _). apply Forall_ztake, Hs.
Qed.

Lemma sends_bytes sdr o t pdu o' : ready E t -> sends fuel sdr o t pdu o' -> Forall is_byte pdu.
Proof using All.
  intros Hr Hsend. apply wp_runs in Hsend as (ok & p & _ & _ & _ & _ & [(_ & _ & Hoom)|(st & k & Hb)]); [by destruct (memory Hmem)|apply Hb|].
  intros Hn. apply Hn. by eapply ready_swift.
Qed.

(** The PDUs on the wire. *)
Lemma packet_c_complete : complete ModeDefault packet_c /\ zlen packet_c < 65536.
Proof using All.
  destruct (mcs_new_facts _ Hnew) as (_ & Hp & _). destruct (connect_data_small m0 c name product mons Hc) as [_ Hz]. unfold initial_packet, connect_initial.
  set (data := enc_request _) in *. pose proof (zlen_initial_body (connect_client m0 c) data Hp ltac:(lia)) as Hi.
  pose proof (zlen_connect_pdu MCS_TYPE_CONNECT_INITIAL (initial_body (connect_client m0 c) data)). rewrite zlen_data_packet. split; [apply data_complete; lia|lia].
Qed.

Lemma packet_s_complete st : complete ModeDefault (packet_s st) /\ zlen (packet_s st) < 65536.
Proof using All.
  destruct (mcs_new_facts _ Hnew) as (Hwf & Hp & _ & Hmerge).
  destruct (response_data_small m0 m0 c s name product mons agreed_parameters Hcount Hdefs Hc Hwf (new_server_side m0 Hnew c s name product mons Hc Hacc) st) as [_ Hz].
  pose proof (connect_params m0 m0 agreed_parameters Hp Hmerge) as Hd. unfold response_packet, connect_response. set (data := enc_response _) in *.
  pose proof (zlen_connect_response_body server0 data Hd ltac:(lia)) as Hi.
  pose proof (zlen_connect_pdu MCS_TYPE_CONNECT_RESPONSE (response_body server0 data)). rewrite zlen_data_packet. split; [apply data_complete; lia|lia].
Qed.

Lemma domain_pdu pdu w : fills w pdu -> complete ModeDefault pdu -> 0 < zlen pdu <= 100 -> complete ModeDefault pdu /\ Forall is_byte pdu /\ zlen pdu < 2 ^ 63.
Proof using All. intros Hw Hp Hz. split_and!; [done| |lia]. eapply fills_bytes; [exact Hw|lia]. Qed.

(** ** From each phase to the next *)

Lemma initial_leads l :
  end_is (client_end l) CONNECTION_STATE_MCS_CREATE_RESPONSE (connect_client m0 c) c ->
  end_is (server_end l) CONNECTION_STATE_MCS_CREATE_REQUEST m0 s -> collected 0 (server_end l) -> pending l packet_c [] ->
  leads l (fun l' => phase l' 1).
Proof using All.
  intros (R1 & S1 & M1 & T1) (R2 & S2 & M2 & T2) Hcol Hpend. rewrite <- (app_nil_r packet_c) in Hpend. destruct packet_c_complete as [Hcomp Hz].
  destruct (new_initial_exchanged Hmem fuel m0 Hnew c s name product mons Hcount Hdefs Hc Hacc (rdp_transport (client_end l))) as [Hsend _].
  eapply (server_leads fuel _ E l packet_c []); [exact Hpend|exact Hcomp|exact (sends_bytes _ _ _ _ _ R1 Hsend)|lia|by apply server_reacts, connect_reacts|].
  intros r' Hr' (st & Hst & E1 & E2 & E3 & E4). apply (phase_response _ st); [done|by split_and!|by split_and!|]. by apply pending_server.
Qed.

Lemma response_leads l st :
  accepted st -> end_is (client_end l) CONNECTION_STATE_MCS_CREATE_RESPONSE (connect_client m0 c) c ->
  end_is (server_end l) CONNECTION_STATE_MCS_ERECT_DOMAIN server0 (with_random st) -> pending l [] (packet_s st) ->
  leads l (fun l' => phase l' 2).
Proof using All.
  intros Hst (R1 & S1 & M1 & T1) Hserver Hpend. rewrite <- (app_nil_r (packet_s st)) in Hpend. destruct (packet_s_complete st) as [Hcomp Hz].
  destruct (new_response_exchanged Hmem fuel m0 Hnew c s name product mons Hcount Hdefs Hc Hacc (rdp_transport (client_end l)) st) as [Hsend _]; [apply Hst..|].
  eapply (client_leads fuel _ E l (packet_s st) []); [exact Hpend|exact Hcomp|exact (sends_bytes _ _ _ _ _ R1 Hsend)|lia|by apply client_reacts, response_reacts|].
  intros r' Hr' (E1 & E2 & E3 & E4). apply (phase_erect _ st); [done|by split_and!|done|]. by apply pending_client.
Qed.

Lemma erect_leads l st :
  accepted st -> end_is (client_end l) CONNECTION_STATE_MCS_ATTACH_USER_CONFIRM client0 (client_settings st c) ->
  end_is (server_end l) CONNECTION_STATE_MCS_ERECT_DOMAIN server0 (with_random st) ->
  pending l (erect_domain_request ++ attach_user_request) [] -> leads l (fun l' => phase l' 3).
Proof using All.
  intros Hst Hclient (R2 & S2 & M2 & T2) Hpend.
  destruct (domain_pdu _ _ erect_domain_request_fills) as (D1 & D2 & D3); [by apply mcs_complete|done|].
  eapply (server_leads fuel _ E l erect_domain_request); [exact Hpend|exact D1|exact D2|exact D3|by apply server_reacts, erect_reacts|].
  intros r' Hr' ->. apply (phase_attach _ st); [done|done|by split_and!|]. apply pending_server; [done|]. by rewrite app_nil_r.
Qed.

Lemma attach_leads l st :
  accepted st -> end_is (client_end l) CONNECTION_STATE_MCS_ATTACH_USER_CONFIRM client0 (client_settings st c) ->
  end_is (server_end l) CONNECTION_STATE_MCS_ATTACH_USER server0 (with_random st) -> pending l attach_user_request [] ->
  leads l (fun l' => phase l' 4).
Proof using All.
  intros Hst Hclient (R2 & S2 & M2 & T2) Hpend. rewrite <- (app_nil_r attach_user_request) in Hpend.
  destruct (domain_pdu _ _ attach_user_request_fills) as (D1 & D2 & D3); [by apply mcs_complete|done|].
  destruct (new_user_ok m0 c name product mons Hc) as [Hid Hmax]. destruct (new_counts m0 Hnew c s name product mons Hcount Hdefs Hc Hacc) as (C1 & _ & C3 & _).
  pose proof (zlen_nonneg (client_channels c)). pose proof (server0_base m0 Hnew c name product mons Hc) as Hbase.
  destruct (new_orders m0 Hnew c s name product mons Hcount Hdefs Hc Hacc) as [Ho _].
  eapply (server_leads fuel _ E l attach_user_request []); [exact Hpend|exact D1|exact D2|exact D3| |].
  - apply server_reacts, (attach_reacts Hmem E HE fuel Hfuel); [done|done|by rewrite M2, Hbase|]. rewrite M2. unfold in_array. lia.
  - intros r' Hr' (E1 & E2 & E3 & E4). rewrite M2 in E2, E3, E4. rewrite T2 in E1, E4. destruct Hst as (A1 & A2 & A3 & A4).
    change (SupportSkipChannelJoin (with_random st)) with (SupportSkipChannelJoin st) in E4. rewrite A3 in E4.
    apply (phase_confirm _ st); [done|done| |apply pending_server; [done|by rewrite E2, Hbase]].
    destruct both_skip; destruct E4 as [E4 E5]; [|by split_and!]. rewrite (same_order _ _ E3), Ho in E5. by split_and!.
Qed.

(** The static part of what both sides know. *)
Lemma sides : in_array client1 /\ in_array server1 /\ ids_ok client1 /\ join_order client1 = order /\ join_order server1 = order /\
  progress client1 0 /\ progress server1 0 /\ user_id user /\ Forall channel_id order.
Proof using All.
  destruct (new_counts m0 Hnew c s name product mons Hcount Hdefs Hc Hacc) as (C1 & C2 & C3 & C4).
  destruct (new_user_ok m0 c name product mons Hc) as [Hid Hmax]. pose proof (zlen_nonneg (client_channels c)).
  destruct (new_orders m0 Hnew c s name product mons Hcount Hdefs Hc Hacc) as [O1 O2]. destruct (new_unjoined m0 Hnew c) as [U1 U2].
  assert (Hids : ids_ok client1).
  { destruct (new_message m0 Hnew c name product mons Hc) as [M1 M2]. destruct (new_statics m0 Hnew c s name product mons Hcount Hdefs Hc Hacc) as [_ S2].
    unfold CHANNEL_MAX_COUNT in Hmax. split.
    - change (channel_id (messageChannelId client0)). rewrite M2, M1. unfold channel_id, first_id, MCS_GLOBAL_CHANNEL_ID, UINT16_MAX. destruct (extended c); lia.
    - apply (Forall_map ChannelId channel_id). change (statics client1) with (statics client0). rewrite S2. apply Forall_forall. intros id [H1 H2]%elem_of_seqZ.
      unfold channel_id, first_id, MCS_GLOBAL_CHANNEL_ID, UINT16_MAX in *. lia. }
  split_and!; [unfold in_array; change (0 <= channelCount client0 <= zlen (channels client0)); lia|unfold in_array; change (0 <= channelCount server0 <= zlen (channels server0)); lia
    |done|done|done|by apply unjoined_progress|by apply unjoined_progress|done|].
  rewrite <- O2. by apply order_ids.
Qed.

Lemma order_first : order !! 0%nat = Some user.
Proof using All. done. Qed.

Lemma confirm_leads l st :
  accepted st -> end_is (client_end l) CONNECTION_STATE_MCS_ATTACH_USER_CONFIRM client0 (client_settings st c) ->
  (if both_skip then end_joined (server_end l) CONNECTION_STATE_RDP_SECURITY_COMMENCEMENT server1 (length order)
   else end_is (server_end l) CONNECTION_STATE_MCS_CHANNEL_JOIN_REQUEST server1 (with_random st)) ->
  pending l [] (attach_user_confirm user) -> leads l (fun l' => phase l' 5).
Proof using All.
  intros Hst (R1 & S1 & M1 & T1) Hserver Hpend. rewrite <- (app_nil_r (attach_user_confirm user)) in Hpend.
  destruct sides as (I1 & _ & _ & O1 & _ & P1 & P2 & Hid & _). destruct (client_settings_after st Hst) as [Hsec Hskip].
  destruct (domain_pdu _ _ (attach_user_confirm_fills user Hid)) as (D1 & D2 & D3); [by apply mcs_complete|done|].
  eapply (client_leads fuel _ E l (attach_user_confirm user) []); [exact Hpend|exact D1|exact D2|exact D3| |].
  - apply client_reacts, (user_reacts Hmem E HE fuel Hfuel Hinfo); [done|done|by rewrite T1|exact Hid|by rewrite M1].
  - intros r' Hr' (E1 & E2). rewrite M1, T1, Hskip in *. pose proof phase_established as Hend. unfold exchanged in Hend. destruct both_skip eqn:Hboth.
    + apply Hend. split; [|done]. destruct E2 as [E2 E3]. rewrite (same_order _ _ E1), O1 in E3. by split_and!.
    + destruct E2 as (E2 & E3 & E4 & E5). destruct Hserver as (R2 & S2 & M2 & T2).
      apply (phase_request _ st 0 user Hboth Hst order_first); [|done| |done|].
      { rewrite <- E4 in P1. by split_and!. }
      { rewrite <- M2 in P2. split_and!; [done|done|rewrite <- M2; apply same_refl|done]. }
      by apply pending_client.
Qed.

(** The objects of an end that has joined some channels. *)
Lemma client_end_facts r st i : end_joined r st client1 i ->
  in_array (rdp_mcs r) /\ join_order (rdp_mcs r) = order /\ userId (rdp_mcs r) = user /\ ids_ok (rdp_mcs r).
Proof using All.
  intros (_ & _ & Hs & _). destruct sides as (I1 & _ & Hids & O1 & _). split_and!; [by eapply same_in_array|by rewrite (same_order _ _ Hs)|exact (same_user _ _ Hs)|by eapply same_ids_ok].
Qed.

Lemma server_end_facts r st i : end_joined r st server1 i -> in_array (rdp_mcs r) /\ join_order (rdp_mcs r) = order /\ userId (rdp_mcs r) = user.
Proof using All.
  intros (_ & _ & Hs & _). destruct sides as (_ & I2 & _ & _ & O2 & _). split_and!; [by eapply same_in_array|by rewrite (same_order _ _ Hs)|].
  rewrite (same_user _ _ Hs). exact (server0_base m0 Hnew c name product mons Hc).
Qed.

Lemma request_leads l st i id :
  both_skip = false -> accepted st -> order !! i = Some id ->
  end_joined (client_end l) CONNECTION_STATE_MCS_CHANNEL_JOIN_RESPONSE client1 i -> rdp_settings (client_end l) = client_settings st c ->
  end_joined (server_end l) CONNECTION_STATE_MCS_CHANNEL_JOIN_REQUEST server1 i -> rdp_settings (server_end l) = with_random st ->
  pending l (channel_join_request user id) [] -> leads l (fun l' => phase l' (6 + 2 * i)).
Proof using All.
  intros Hskip Hst Hid Hclient Ht Hserver Ht2 Hpend. rewrite <- (app_nil_r (channel_join_request user id)) in Hpend.
  destruct sides as (_ & _ & _ & _ & _ & _ & _ & Hu & Hall). rewrite Forall_lookup in Hall. pose proof (Hall _ _ Hid) as Hch.
  destruct (server_end_facts _ _ _ Hserver) as (I2 & O2 & U2). destruct Hserver as (R2 & S2 & Hs2 & P2).
  destruct (domain_pdu _ _ (channel_join_request_fills user id Hu Hch)) as (D1 & D2 & D3); [by apply mcs_complete|done|].
  eapply (server_leads fuel _ E l (channel_join_request user id) []); [exact Hpend|exact D1|exact D2|exact D3| |].
  - rewrite <- U2. rewrite <- O2 in Hid.
    apply (request_reacts Hmem E HE fuel Hfuel (S n) _ i id); [done|done|rewrite Ht2; apply Hst|done|done|done|rewrite O2; apply domain_order_distinct|by rewrite U2|done].
  - intros r' Hr' (E1 & E2 & E3 & E4 & E5). rewrite U2 in E4. rewrite O2 in E5.
    apply (phase_answer _ st i id); [done|done|done|done|done| |exact (eq_trans E3 Ht2)|by apply pending_server].
    split_and!; [done|done|by eapply same_trans|done].
Qed.

Lemma answer_leads l st i id :
  both_skip = false -> accepted st -> order !! i = Some id ->
  end_joined (client_end l) CONNECTION_STATE_MCS_CHANNEL_JOIN_RESPONSE client1 i -> rdp_settings (client_end l) = client_settings st c ->
  end_joined (server_end l) (if (length order <=? S i)%nat then CONNECTION_STATE_RDP_SECURITY_COMMENCEMENT else CONNECTION_STATE_MCS_CHANNEL_JOIN_REQUEST)
    server1 (S i) -> rdp_settings (server_end l) = with_random st ->
  pending l [] (channel_join_confirm user id) -> leads l (fun l' => phase l' (7 + 2 * i)).
Proof using All.
  intros Hskip Hst Hid Hclient Ht Hserver Ht2 Hpend. rewrite <- (app_nil_r (channel_join_confirm user id)) in Hpend.
  destruct sides as (_ & _ & _ & _ & _ & _ & _ & Hu & Hall). rewrite Forall_lookup in Hall. pose proof (Hall _ _ Hid) as Hch.
  destruct (client_end_facts _ _ _ Hclient) as (I1 & O1 & U1 & Hids). destruct Hclient as (R1 & S1 & Hs1 & P1).
  destruct (client_settings_after st Hst) as [Hsec _]. pose proof (lookup_lt_Some _ _ _ Hid) as Hi.
  destruct (domain_pdu _ _ (channel_join_confirm_fills user id Hu Hch)) as (D1 & D2 & D3); [by apply mcs_complete|done|].
  eapply (client_leads fuel _ E l (channel_join_confirm user id) []); [exact Hpend|exact D1|exact D2|exact D3| |].
  - rewrite <- U1. rewrite <- O1 in Hid.
    apply client_reacts, (confirm_reacts Hmem E HE fuel Hfuel Hinfo _ i id); [done|done|by rewrite Ht|done|done|done|by rewrite U1|done].
  - intros r' Hr' (E1 & E2 & E3). rewrite O1 in E3. rewrite U1 in E3. destruct (order !! S i) as [next|] eqn:En.
    + pose proof (lookup_lt_Some _ _ _ En) as Hn. replace (length order <=? S i)%nat with false in Hserver by (symmetry; apply Nat.leb_gt; lia).
      destruct E3 as (E3 & E4 & E5). replace (7 + 2 * i)%nat with (5 + 2 * S i)%nat by lia.
      apply (phase_request _ st (S i) next); [done|done|done| |exact (eq_trans E4 Ht)|done|done|by apply pending_client].
      split_and!; [done|done|by eapply same_trans|done].
    + apply lookup_ge_None in En. replace (length order <=? S i)%nat with true in Hserver by (symmetry; apply Nat.leb_le; lia).
      assert (Hlen : length order = S i) by lia. replace (7 + 2 * i)%nat with exchanged by (unfold exchanged; rewrite Hskip; lia).
      apply phase_established. unfold established. rewrite Hlen. split; [|done]. split_and!; [done|done|by eapply same_trans|done].
Qed.

(** Every phase but the last leads to the next one. *)
Lemma phase_step l k : phase l k -> (k <= exchanged)%nat /\ (k = exchanged /\ established l \/ (k < exchanged)%nat /\ leads l (fun l' => phase l' (S k))).
Proof using All.
  assert (Hbound : forall i id, both_skip = false -> order !! i = Some id -> (6 + 2 * i < exchanged)%nat).
  { intros i id Hskip Hid%lookup_lt_Some. unfold exchanged. rewrite Hskip. lia. }
  assert (H5 : (5 <= exchanged)%nat) by (unfold exchanged; lia).
  intros [|st|st|st|st|st i id Hskip|st i id Hskip|]; [split; [lia|right; split; [lia|]]..| | |by split; [|left]].
  - by apply initial_leads.
  - by eapply response_leads.
  - by eapply erect_leads.
  - by eapply attach_leads.
  - by eapply confirm_leads.
  - specialize (Hbound i id Hskip). split; [|right; split]; [specialize (Hbound ltac:(done)); lia..|]. by eapply request_leads.
  - specialize (Hbound i id Hskip). split; [|right; split]; [specialize (Hbound ltac:(done)); lia..|]. by eapply answer_leads.
Qed.

Lemma phase_run k j l l' : phase l k -> nsteps (link_step fuel (S (S n))) j l l' -> (k + j <= exchanged)%nat ->
  phase l' (k + j) /\ (j <> 0%nat -> last_result l' = STATE_RUN_SUCCESS).
Proof using All.
  intros Hl Hrun. revert k Hl. induction Hrun as [l|j l l1 l' Hstep Hrun IH]; intros k Hl Hk; [by rewrite Nat.add_0_r|].
  destruct (phase_step l k Hl) as (_ & [(-> & _)|(_ & _ & Hall)]); [lia|]. destruct (Hall _ Hstep) as [Hrc Hl1].
  destruct (IH (S k) Hl1 ltac:(lia)) as [Hl' Hres]. rewrite Nat.add_succ_r. split; [exact Hl'|]. intros _.
  destruct j; [by inversion Hrun; subst|]. by apply Hres.
Qed.
End linked.

(** ** Claims *)

(** C10: a client and a server with new MCS objects get connected, under these conditions: allocations of
    up to a megabyte succeed, the BIOs take what they are given, the callbacks of the application leave the
    connection alone and the client info is sent; neither side uses the RDP security layer; the names of the
    client are shorter than 16 and 32 UTF-16 units, it has at most 31 channels and 16 monitors, attributes
    only for more than one monitor, and network detection, heartbeat or multitransport; the server has room
    for these channels and monitors, the protocol of the client, and is not replaying.  The client that has
    finished the negotiation sends its connect initial; from then on, whenever a PDU of one end reaches the other, the callback
    there returns success, and the next PDU is on its way, until five PDUs and, unless both sides skip
    joining, a request and a confirmation for every channel were received.  Then the client has left the MCS phase
    for the connection time auto detection and the server for the security commencement, both have the same
    channels in the same order, the user, global, message and static ones, and all of them are joined. *)
Theorem connection_established {W : Type} `{HB : !FrontBio W} `{HP : !StreamPools W} `{HL : !WriteLaws W} `{HM : Malloc} `{HF : FreshMemory}
    `{HY : !ByteMemory} `{HX : !Surroundings W} `{HQ : !QuietCallbacks W} `{HC : ServerCrypto} (fuel n : nat) (E : W -> Prop)
    (m0 : rdpMcs) (c s : rdpSettings) (name product : list Z) (mons : list rdpMonitor) (rc rs : rdpRdp W) (str : wStream) :
  (forall n, 0 <= n <= 2 ^ 20 -> malloc_ok n = true) -> takes_all E -> (0 < fuel)%nat ->
  (forall r, ready E (rdp_transport r) ->
     runs rdp_send_client_info r (fun ok r' => ok = true /\ rdp_mcs r' = rdp_mcs r /\ ready E (rdp_transport r'))) ->
  mcs_new = Some m0 -> 0 <= ChannelCount c <= CHANNEL_MAX_COUNT -> ChannelCount c <= zlen (ChannelDefArray c) ->
  client_side (initialized m0 c) c name product (client_channels c) mons -> acceptable s c ->
  end_is E rc CONNECTION_STATE_NEGO m0 c -> end_is E rs CONNECTION_STATE_MCS_CREATE_REQUEST m0 s -> collected 0 rs ->
  readable str -> unread str = [] ->
  exists r1 str', rdp_recv_callback fuel (S (S n)) (rc, str) = Ret (STATE_RUN_SUCCESS, (r1, str')) /\
    let l0 := mkLink r1 rs (outbox (bio (rdp_transport rc))) (outbox (bio (rdp_transport rs))) STATE_RUN_SUCCESS in
    forall k l, nsteps (link_step fuel (S (S n))) k l0 l -> (k <= exchanged c s)%nat ->
      last_result l = STATE_RUN_SUCCESS /\
      if (k <? exchanged c s)%nat then exists l', link_step fuel (S (S n)) l l'
      else
        rdp_state (client_end l) = CONNECTION_STATE_CONNECT_TIME_AUTO_DETECT_REQUEST /\
        rdp_state (server_end l) = CONNECTION_STATE_RDP_SECURITY_COMMENCEMENT /\
        let mc := rdp_mcs (client_end l) in let ms := rdp_mcs (server_end l) in
        join_order mc = domain_order c /\ join_order ms = domain_order c /\
        progress mc (length (domain_order c)) /\ progress ms (length (domain_order c)).
Proof.
  intros Hmem HE Hfuel Hinfo Hnew Hcount Hdefs Hc Hacc (R1 & S1 & M1 & T1) Hrs Hcol Hstr Hun.
  destruct (begin_reacts Hmem E HE fuel Hfuel m0 Hnew c s name product mons Hcount Hdefs Hc Hacc n rc S1 R1 M1 T1 str Hstr Hun)
    as (r1 & str' & Ec & Hr1 & B1 & B2 & B3 & B4).
  exists r1, str'. split; [exact Ec|]. intros l0 k l Hrun Hk.
  assert (H0 : phase E m0 c s name product mons l0 0).
  { apply phase_initial; [by split_and!|done|done|]. split; [exact B4|]. symmetry. apply app_nil_r. }
  destruct (phase_run Hmem E HE fuel Hfuel m0 Hnew c s name product mons Hcount Hdefs Hc Hacc Hinfo n 0 k l0 l H0 Hrun Hk) as [Hl Hres].
  split; [destruct k; [by inversion Hrun|by apply Hres]|].
  destruct (phase_step Hmem E HE fuel Hfuel m0 Hnew c s name product mons Hcount Hdefs Hc Hacc Hinfo n l k Hl) as (_ & [(-> & Hend)|(Hlt & Hex & _)]).
  - rewrite Nat.ltb_irrefl. destruct Hend as [He1 He2].
    destruct (client_end_facts Hmem E HE fuel Hfuel m0 Hnew c s name product mons Hcount Hdefs Hc Hacc Hinfo n _ _ _ He1) as (_ & O1 & _).
    destruct (server_end_facts Hmem E HE fuel Hfuel m0 Hnew c s name product mons Hcount Hdefs Hc Hacc Hinfo n _ _ _ He2) as (_ & O2 & _).
    destruct He1 as (_ & ? & _ & ?), He2 as (_ & ? & _ & ?). by split_and!.
  - replace (k <? exchanged c s)%nat with true; [exact Hex|]. symmetry. by apply Nat.ltb_lt.
Qed.

(** A client with the channel "rdpdr" that joins its channels one by one, over BIOs that take everything. *)
Definition new_sample : rdpMcs := sample_mcs <| userId := 0 |>.
Definition linked_client : rdpSettings := sample_client <| SupportSkipChannelJoin := false |>.
Definition linked_server : rdpSettings := sample_settings true <| ChannelDefArray := zrep CHANNEL_MAX_COUNT ([], 0) |>.
Definition sample_end (st : CONNECTION_STATE) (settings : rdpSettings) : rdpRdp script :=
  mkRdp st new_sample settings (transport_over true []) None [] 0 0.

Lemma linked_client_side :
  client_side (initialized new_sample linked_client) linked_client [104; 111; 115; 116] [] (client_channels linked_client) [blank_monitor].
Proof. destruct sample_connect_side. by constructor. Qed.

Lemma script_takes_all : takes_all (HB := scripted_bio) (fun _ => True).
Proof. intros w _. split; [done|]. intros bs. by eexists. Qed.

Abbreviation sample_link_step := (@link_step _ scripted_bio no_pool (scripted_write_laws no_pool (fun _ _ => eq_refl)) malloc_all fresh_zero (quiet_world script) no_crypto 1 2).

Lemma connection_established_witness :
  exchanged linked_client linked_server = 13%nat /\
  exists r1 str' l', @rdp_recv_callback _ scripted_bio no_pool malloc_all fresh_zero no_crypto (quiet_world script) 1 2
      (sample_end CONNECTION_STATE_NEGO linked_client, pdu_stream []) = Ret (STATE_RUN_SUCCESS, (r1, str')) /\
    sample_link_step (mkLink r1 (sample_end CONNECTION_STATE_MCS_CREATE_REQUEST linked_server) [] [] STATE_RUN_SUCCESS) l'.
Proof.
  split; [reflexivity|].
  destruct (@connection_established _ scripted_bio no_pool (scripted_write_laws no_pool (fun _ _ => eq_refl)) malloc_all fresh_zero fresh_zero_bytes
    (quiet_world script) (quiet_world_callbacks script) no_crypto 1 0 (fun _ => True) new_sample linked_client linked_server
    [104; 111; 115; 116] [] [blank_monitor] (sample_end CONNECTION_STATE_NEGO linked_client) (sample_end CONNECTION_STATE_MCS_CREATE_REQUEST linked_server)
    (pdu_stream [])) as (r1 & str' & E1 & Hrun).
  - intros k Hk. change ((k <? 2 ^ 63) = true). lia.
  - exact script_takes_all.
  - lia.
  - intros r _. by eexists _, _.
  - reflexivity.
  - vm_compute. split; discriminate.
  - vm_compute. discriminate.
  - exact linked_client_side.
  - constructor; vm_compute; done || discriminate.
  - by split_and!.
  - by split_and!.
  - vm_compute. split_and!; done || discriminate.
  - by apply pdu_readable.
  - reflexivity.
  - destruct (Hrun 0%nat _ (nsteps_O _ _) ltac:(vm_compute; lia)) as [_ (l' & Hl)]. exists r1, str', l'. split; [exact E1|exact Hl].
Defined.
