(* ===== verification/BitStream.v ===== *)
(** * Bit streams: [winpr/include/winpr/bitstream.h], [winpr/libwinpr/utils/collections/BitStream.c]

    A bit stream reads or writes a buffer of bytes as a sequence of bits, the highest bit of a byte
    first.  A reader keeps the next 32 bits in its accumulator and those behind them in a prefetched
    word; a writer collects bits in the accumulator and stores it when it is full. *)

From S2P Require Import Prelude Memory.

(** ** Model *)

(** [pointer] is an offset in the buffer. *)
Record wBitStream : Type := mkBitStream {
  bs_buffer : list Z;
  bs_pointer : Z;
  bs_position : Z;
  bs_length : Z;
  bs_capacity : Z;
  bs_mask : Z;
  bs_offset : Z;
  bs_prefetch : Z;
  bs_accumulator : Z
}.
#[global] Instance eta_wBitStream : Eta wBitStream := fun b =>
  mkBitStream (bs_buffer b) (bs_pointer b) (bs_position b) (bs_length b) (bs_capacity b) (bs_mask b) (bs_offset b)
    (bs_prefetch b) (bs_accumulator b).

Definition BitStream_New `{Malloc} : option wBitStream :=
  if malloc_ok 48 then Some (mkBitStream [] 0 0 0 0 0 0 0 0) else None.

Definition BitStream_Attach (buffer : list Z) (capacity : Z) (b : wBitStream) : wBitStream :=
  b <| bs_position := 0 |> <| bs_buffer := buffer |> <| bs_offset := 0 |> <| bs_accumulator := 0 |> <| bs_pointer := 0 |>
    <| bs_capacity := capacity |> <| bs_length := u32 (capacity * 8) |>.

(** [pointer[k]] when it is within the capacity. *)
Definition byte_at (k : Z) (b : wBitStream) : outcome Z :=
  if u32 (u32 (bs_pointer b) + k) <? bs_capacity b then slot_get (bs_pointer b + k) (bs_buffer b) else Ret 0.

(** The four bytes from [pointer[k]] on. *)
Definition word_at (k : Z) : Prog wBitStream Z :=
  b <- pget ;;
  b0 <- plift (byte_at k b) ;;
  b1 <- plift (byte_at (k + 1) b) ;;
  b2 <- plift (byte_at (k + 2) b) ;;
  b3 <- plift (byte_at (k + 3) b) ;;
  pret (Z.lor (Z.lor (Z.lor (Z.shiftl b0 24) (Z.shiftl b1 16)) (Z.shiftl b2 8)) b3).

Definition BitStream_Prefetch : Prog wBitStream unit :=
  w <- word_at 4 ;; pmodify (fun b => b <| bs_prefetch := w |>).

Definition BitStream_Fetch : Prog wBitStream unit :=
  w <- word_at 0 ;; pmodify (fun b => b <| bs_accumulator := w |>) ;; BitStream_Prefetch.

(** [pointer[k] = v] when it is within the capacity. *)
Definition store_at (k v : Z) : Prog wBitStream unit :=
  b <- pget ;;
  if u32 (u32 (bs_pointer b) + k) <? bs_capacity b then
    buf <- plift (slot_set (bs_pointer b + k) v (bs_buffer b)) ;; pmodify (fun b => b <| bs_buffer := buf |>)
  else pret tt.

Definition BitStream_Flush : Prog wBitStream unit :=
  b <- pget ;;
  store_at 0 (u8 (Z.shiftr (bs_accumulator b) 24)) ;;
  store_at 1 (u8 (Z.shiftr (bs_accumulator b) 16)) ;;
  store_at 2 (u8 (Z.shiftr (bs_accumulator b) 8)) ;;
  store_at 3 (u8 (Z.shiftr (bs_accumulator b) 0)).

(** [accumulator |= (prefetch >> (32 - n)) & mask; prefetch <<= n] with the mask for [n] bits. *)
Definition take_prefetched (n : Z) (b : wBitStream) : wBitStream :=
  let mask := u32 (Z.shiftl 1 n - 1) in
  b <| bs_mask := mask |> <| bs_accumulator := Z.lor (bs_accumulator b) (Z.land (Z.shiftr (bs_prefetch b) (32 - n)) mask) |>
    <| bs_prefetch := u32 (Z.shiftl (bs_prefetch b) n) |>.

Definition BitStream_Shift (nbits : Z) : Prog wBitStream unit :=
  if nbits =? 0 then pret tt
  else if (0 <? nbits) && (nbits <? 32) then
    pmodify (fun b => b <| bs_accumulator := u32 (Z.shiftl (bs_accumulator b) nbits) |> <| bs_position := u32 (bs_position b + nbits) |>
                        <| bs_offset := u32 (bs_offset b + nbits) |>) ;;
    b <- pget ;;
    if bs_offset b <? 32 then pmodify (take_prefetched nbits)
    else
      pmodify (take_prefetched nbits) ;;
      pmodify (fun b => b <| bs_offset := u32 (bs_offset b - 32) |> <| bs_pointer := bs_pointer b + 4 |>) ;;
      BitStream_Prefetch ;;
      b <- pget ;;
      if negb (bs_offset b =? 0) then pmodify (take_prefetched (bs_offset b)) else pret tt
  else pret tt.

(** The bits that complete a word, and those that start the next one. *)
Definition complete_word (bits nbits : Z) : Prog wBitStream unit :=
  pmodify (fun b => b <| bs_offset := u32 (bs_offset b - 32) |>) ;;
  pmodify (fun b => b <| bs_mask := u32 (Z.shiftl 1 (nbits - bs_offset b) - 1) |>) ;;
  pmodify (fun b => b <| bs_accumulator := Z.lor (bs_accumulator b) (Z.land (Z.shiftr bits (bs_offset b)) (bs_mask b)) |>).
Definition start_word (bits : Z) : Prog wBitStream unit :=
  b <- pget ;;
  if negb (bs_offset b =? 0) then
    pmodify (fun b => b <| bs_mask := u32 (Z.shiftl 1 (bs_offset b) - 1) |>) ;;
    pmodify (fun b => b <| bs_accumulator := Z.lor (bs_accumulator b) (u32 (Z.shiftl (Z.land bits (bs_mask b)) (32 - bs_offset b))) |>)
  else pret tt.

Definition BitStream_Write_Bits (bits nbits : Z) : Prog wBitStream unit :=
  pmodify (fun b => b <| bs_position := u32 (bs_position b + nbits) |> <| bs_offset := u32 (bs_offset b + nbits) |>) ;;
  b <- pget ;;
  if bs_offset b <? 32 then pmodify (fun b => b <| bs_accumulator := Z.lor (bs_accumulator b) (u32 (Z.shiftl bits (32 - bs_offset b))) |>)
  else
    complete_word bits nbits ;;
    BitStream_Flush ;;
    pmodify (fun b => b <| bs_accumulator := 0 |> <| bs_pointer := bs_pointer b + 4 |>) ;;
    start_word bits.

Definition BitStream_GetRemainingLength (b : wBitStream) : Z := u32 (bs_length b - bs_position b).

Definition BitStream_Shift32 : Prog wBitStream unit := BitStream_Shift 16 ;; BitStream_Shift 16.

(** The loop of [ReverseBits32] ends when [nbits] is 0 after it was decremented. *)
Fixpoint reverse_loop (n : nat) (bits rbits : Z) : Z :=
  match n with O => rbits | S n => reverse_loop n (Z.shiftr bits 1) (u32 (Z.shiftl (Z.lor rbits (Z.land bits 1)) 1)) end.
Definition ReverseBits32 (bits nbits : Z) : Z := Z.shiftr (reverse_loop (Z.to_nat (if nbits =? 0 then 2 ^ 32 else nbits)) bits 0) 1.

(** ** Sequences of bits as numbers *)

(** The number that [n] bits from [p] on make, the first one the highest. *)
Fixpoint window (f : Z -> bool) (p : Z) (n : nat) : Z :=
  match n with O => 0 | S n => 2 * window f p n + Z.b2z (f (p + Z.of_nat n)) end.

Section windows.
Implicit Types (f g : Z -> bool) (p : Z) (n m : nat).

Lemma window_bound f p n : 0 <= window f p n < 2 ^ Z.of_nat n.
Proof.
  induction n as [|n IH]; [done|]. cbn [window]. rewrite Nat2Z.inj_succ, Z.pow_succ_r by lia. destruct (f _); cbn [Z.b2z]; lia.
Qed.

Lemma window_0 f p : window f p 0 = 0.
Proof. done. Qed.

Lemma window_app f p n m : window f p (n + m) = window f p n * 2 ^ Z.of_nat m + window f (p + Z.of_nat n) m.
Proof.
  induction m as [|m IH]; [rewrite Nat.add_0_r; cbn; lia|]. rewrite Nat.add_succ_r. cbn [window]. rewrite IH, Nat2Z.inj_succ, Z.pow_succ_r by lia.
  replace (p + Z.of_nat (n + m)) with (p + Z.of_nat n + Z.of_nat m) by lia. lia.
Qed.

Lemma window_ext f g p q n : (forall j, 0 <= j < Z.of_nat n -> f (p + j) = g (q + j)) -> window f p n = window g q n.
Proof.
  induction n as [|n IH]; intros H; [done|]. cbn [window]. rewrite IH by (intros; apply H; lia). by rewrite H by lia.
Qed.

Lemma window_testbit f p n j : 0 <= j < Z.of_nat n -> Z.testbit (window f p n) (Z.of_nat n - 1 - j) = f (p + j).
Proof.
  revert j. induction n as [|n IH]; intros j Hj; [lia|]. cbn [window]. destruct (decide (j = Z.of_nat n)) as [->|Hne].
  - replace (Z.of_nat (S n) - 1 - Z.of_nat n) with 0 by lia. rewrite Z.add_comm. apply Z.add_b2z_double_bit0.
  - replace (Z.of_nat (S n) - 1 - j) with (Z.succ (Z.of_nat n - 1 - j)) by lia.
    rewrite Z.testbit_succ_r by lia. by apply IH; lia.
Qed.

Lemma window_false f p n : (forall j, 0 <= j < Z.of_nat n -> f (p + j) = false) -> window f p n = 0.
Proof. induction n as [|n IH]; intros H; [done|]. cbn [window]. rewrite IH by (intros; apply H; lia). by rewrite H by lia. Qed.
End windows.

(** The loop collects the bits from the lowest on; the highest bit of the word is shifted out. *)
Lemma reverse_loop_run bits n : forall k, reverse_loop n (Z.shiftr bits (Z.of_nat k)) (u32 (2 * window (Z.testbit bits) 0 k)) = u32 (2 * window (Z.testbit bits) 0 (k + n)).
Proof.
  induction n as [|n IH]; intros k; [by rewrite Nat.add_0_r|]. cbn [reverse_loop]. rewrite Z.shiftr_shiftr by lia. replace (Z.of_nat k + 1) with (Z.of_nat (S k)) by lia.
  replace (k + S n)%nat with (S k + n)%nat by lia. rewrite <- IH. f_equal. cbn [window]. set (W := window _ 0 k). rewrite Z.add_0_l.
  assert (Eb : Z.land (Z.shiftr bits (Z.of_nat k)) 1 = Z.b2z (Z.testbit bits (Z.of_nat k))).
  { change 1 with (2 ^ 1 - 1) at 1. rewrite land_mask by lia. change (2 ^ 1) with 2. rewrite <- Z.bit0_mod, Z.shiftr_spec by lia. done. }
  rewrite Eb. set (b := Z.b2z _). assert (Hb : 0 <= b < 2) by (unfold b; destruct (Z.testbit _ _); cbn; lia).
  assert (Eu : u32 (2 * W) = (W mod 2 ^ 31) * 2 ^ 1) by (unfold u32; Z.div_mod_to_equations; lia). rewrite Eu, lor_add, shiftl_mul by lia. unfold u32. Z.div_mod_to_equations; lia.
Qed.

(** [ReverseBits32] turns the order of up to 31 bits round; with 32 bits the first one is lost. *)
Theorem reverse_bits_spec bits nbits : 0 < nbits -> ReverseBits32 bits nbits = window (Z.testbit bits) 0 (Z.to_nat nbits) mod 2 ^ 31.
Proof.
  intros Hn. unfold ReverseBits32. replace (nbits =? 0) with false by lia. pose proof (reverse_loop_run bits (Z.to_nat nbits) 0) as E.
  rewrite Z.shiftr_0_r in E. change (u32 (2 * window _ 0 0)) with 0 in E. rewrite E, shiftr_div by lia. rewrite Nat.add_0_l. unfold u32. Z.div_mod_to_equations; lia.
Qed.

Theorem reverse_bits_testbit bits nbits i : 0 < nbits <= 31 -> 0 <= i < nbits -> Z.testbit (ReverseBits32 bits nbits) i = Z.testbit bits (nbits - 1 - i).
Proof.
  intros Hn Hi. rewrite reverse_bits_spec by lia. pose proof (window_bound (Z.testbit bits) 0 (Z.to_nat nbits)) as Hb. rewrite Z2Nat.id in Hb by lia.
  rewrite Z.mod_small. 2: { split; [lia|]. apply (Z.lt_le_trans _ (2 ^ nbits)); [lia|]. apply Z.pow_le_mono_r; lia. }
  pose proof (window_testbit (Z.testbit bits) 0 (Z.to_nat nbits) (nbits - 1 - i) ltac:(lia)) as T. rewrite Z2Nat.id in T by lia.
  replace (nbits - 1 - (nbits - 1 - i)) with i in T by lia. by rewrite T, Z.add_0_l.
Qed.

(** The bits of bytes; behind them there are zeros. *)
Definition bits_of (buf : list Z) (i : Z) : bool := Z.testbit (znth buf (i / 8)) (7 - i mod 8).

Lemma bits_of_eq buf i : bits_of buf i = Z.testbit (znth buf (i / 8)) (7 - i mod 8).
Proof. done. Qed.

Lemma window_byte buf q : Forall is_byte buf -> 0 <= q -> window (bits_of buf) (8 * q) 8 = znth buf q.
Proof.
  intros Hb Hq. assert (Hbyte : is_byte (znth buf q)).
  { unfold znth. replace (q <? 0) with false by lia. destruct (nth_in_or_default (Z.to_nat q) buf 0) as [Hi| ->]; [|done].
    rewrite Forall_forall in Hb. by apply Hb, list_elem_of_In. }
  set (x := znth buf q) in *. assert (E : forall j, 0 <= j < 8 -> bits_of buf (8 * q + j) = Z.testbit x (7 - j)).
  { intros j Hj. unfold bits_of. replace ((8 * q + j) / 8) with q by (Z.div_mod_to_equations; lia). by replace ((8 * q + j) mod 8) with j by (Z.div_mod_to_equations; lia). }
  cbn [window]. rewrite !E by lia. cbn [Z.of_nat]. clear E. unfold is_byte in Hbyte.
  apply Z.eqb_eq. clearbody x.
  match goal with |- ?g = true => let P := eval pattern x in g in match P with ?f _ => exact (range_forall f 256 x Hbyte eq_refl) end end.
Qed.

#[local] Opaque window bits_of.

(** ** Reading *)

(** The bytes that belong to the stream. *)
Definition bs_data (b : wBitStream) : list Z := ztake (bs_capacity b) (bs_buffer b).
Definition bs_ok (b : wBitStream) : Prop :=
  Forall is_byte (bs_buffer b) /\ 0 <= bs_capacity b <= zlen (bs_buffer b) /\ bs_capacity b < 2 ^ 29 /\ bs_length b = 8 * bs_capacity b.

Lemma ok_fields b c : bs_buffer c = bs_buffer b -> bs_capacity c = bs_capacity b -> bs_length c = bs_length b -> bs_ok b -> bs_ok c.
Proof. unfold bs_ok. by intros -> -> ->. Qed.

(** A reader at the bit [pos]: the next 32 bits, and the rest of the word behind them. *)
Record reading (b : wBitStream) (pos : Z) : Prop := {
  rd_ok : bs_ok b;
  rd_pos : 0 <= pos /\ bs_position b = pos;
  rd_pointer : bs_pointer b = 4 * (pos / 32);
  rd_offset : bs_offset b = pos mod 32;
  rd_accumulator : bs_accumulator b = window (bits_of (bs_data b)) pos 32;
  rd_prefetch : bs_prefetch b = window (bits_of (bs_data b)) (pos + 32) (Z.to_nat (32 - pos mod 32)) * 2 ^ (pos mod 32)
}.

Lemma byte_at_run k b : bs_ok b -> 0 <= bs_pointer b -> 0 <= k -> bs_pointer b + k < 2 ^ 32 -> byte_at k b = Ret (znth (bs_data b) (bs_pointer b + k)).
Proof.
  intros (_ & Hc & _) Hp Hk Hmax. unfold byte_at, bs_data. rewrite (u32_id (bs_pointer b)), u32_id, znth_ztake by lia. unfold slot_get.
  destruct (bs_pointer b + k <? bs_capacity b) eqn:E; [|done]. by replace ((0 <=? bs_pointer b + k) && (bs_pointer b + k <? zlen (bs_buffer b))) with true by lia.
Qed.

Lemma data_bytes b : bs_ok b -> Forall is_byte (bs_data b).
Proof. intros (Hb & _). by apply Forall_ztake. Qed.

Lemma window_word buf q : Forall is_byte buf -> 0 <= q ->
  window (bits_of buf) (8 * q) 32 = ((znth buf q * 2 ^ 8 + znth buf (q + 1)) * 2 ^ 8 + znth buf (q + 2)) * 2 ^ 8 + znth buf (q + 3).
Proof.
  intros Hb Hq. change 32%nat with (8 + 8 + 8 + 8)%nat. rewrite !window_app. change (Z.of_nat 8) with 8. change (Z.of_nat (8 + 8)) with 16. change (Z.of_nat (8 + 8 + 8)) with 24.
  replace (8 * q + 8) with (8 * (q + 1)) by lia. replace (8 * q + 16) with (8 * (q + 2)) by lia. replace (8 * q + 24) with (8 * (q + 3)) by lia.
  by rewrite !window_byte by (done || lia).
Qed.

Lemma znth_byte buf q : Forall is_byte buf -> 0 <= znth buf q < 2 ^ 8.
Proof.
  intros Hb. unfold znth. destruct (q <? 0); [lia|]. destruct (nth_in_or_default (Z.to_nat q) buf 0) as [Hi| ->]; [|lia].
  rewrite Forall_forall in Hb. by apply Hb, list_elem_of_In.
Qed.

Lemma word_at_run k b : bs_ok b -> 0 <= bs_pointer b -> 0 <= k -> bs_pointer b + k + 3 < 2 ^ 32 ->
  word_at k b = Ret (window (bits_of (bs_data b)) (8 * (bs_pointer b + k)) 32, b).
Proof.
  intros Hok Hp Hk Hmax. unfold word_at. rewrite pbind_pget, !byte_at_run by (done || lia). rewrite !pbind_plift. unfold pret. do 2 f_equal.
  pose proof (data_bytes b Hok) as Hb. rewrite window_word by (done || lia). set (p := bs_pointer b + k).
  replace (bs_pointer b + (k + 1)) with (p + 1) by (unfold p; lia). replace (bs_pointer b + (k + 2)) with (p + 2) by (unfold p; lia).
  replace (bs_pointer b + (k + 3)) with (p + 3) by (unfold p; lia).
  pose proof (znth_byte (bs_data b) (p + 1) Hb). pose proof (znth_byte (bs_data b) (p + 2) Hb). pose proof (znth_byte (bs_data b) (p + 3) Hb).
  rewrite !shiftl_mul by lia. rewrite (lor_add 24) by lia.
  replace (znth (bs_data b) p * 2 ^ 24 + znth (bs_data b) (p + 1) * 2 ^ 16) with ((znth (bs_data b) p * 2 ^ 8 + znth (bs_data b) (p + 1)) * 2 ^ 16) by lia.
  rewrite (lor_add 16) by lia.
  replace ((znth (bs_data b) p * 2 ^ 8 + znth (bs_data b) (p + 1)) * 2 ^ 16 + znth (bs_data b) (p + 2) * 2 ^ 8)
    with (((znth (bs_data b) p * 2 ^ 8 + znth (bs_data b) (p + 1)) * 2 ^ 8 + znth (bs_data b) (p + 2)) * 2 ^ 8) by lia.
  by rewrite (lor_add 8) by lia.
Qed.

(** A stream that was attached and fetched. *)
Lemma fetch_run b : bs_ok b -> bs_pointer b = 0 -> bs_position b = 0 -> bs_offset b = 0 ->
  exists b', BitStream_Fetch b = Ret (tt, b') /\ reading b' 0 /\ bs_data b' = bs_data b /\ bs_length b' = bs_length b.
Proof.
  intros Hok Hp Hpos Ho. unfold BitStream_Fetch, BitStream_Prefetch.
  rewrite (pbind_ret _ _ _ _ _ (word_at_run 0 b Hok ltac:(lia) ltac:(lia) ltac:(lia))). set (b1 := b <| bs_accumulator := window (bits_of (bs_data b)) (8 * (bs_pointer b + 0)) 32 |>).
  rewrite (pbind_ret _ _ _ tt b1) by done.
  rewrite (pbind_ret _ _ _ _ _ (word_at_run 4 b1 Hok ltac:(change (bs_pointer b1) with (bs_pointer b); lia) ltac:(lia) ltac:(change (bs_pointer b1) with (bs_pointer b); lia))).
  eexists. split; [reflexivity|]. split; [|done]. constructor; [exact Hok|split; [lia|exact Hpos]|exact Hp|exact Ho| |].
  - cbn [bs_accumulator update]. change (bs_accumulator b1) with (window (bits_of (bs_data b)) (8 * (bs_pointer b + 0)) 32). by rewrite Hp.
  - change (bs_pointer b1) with (bs_pointer b). rewrite Hp. cbn [bs_prefetch update]. change (0 mod 32) with 0. rewrite Z.pow_0_r, Z.mul_1_r. change (8 * (0 + 4)) with (0 + 32). change (Z.to_nat (32 - 0)) with 32%nat. reflexivity.
Qed.

(** Bits that move from the prefetched word into an accumulator that is free at its end. *)
Lemma take_prefetched_run n k b :
  0 < n < 32 -> bs_accumulator b = k * 2 ^ n -> 0 <= bs_prefetch b < 2 ^ 32 ->
  take_prefetched n b = b <| bs_mask := 2 ^ n - 1 |> <| bs_accumulator := k * 2 ^ n + bs_prefetch b / 2 ^ (32 - n) |>
    <| bs_prefetch := (bs_prefetch b * 2 ^ n) mod 2 ^ 32 |>.
Proof.
  intros Hn Ha Hp. assert (H2 : 0 < 2 ^ n <= 2 ^ 31) by (split; [apply Z.pow_pos_nonneg; lia|apply Z.pow_le_mono_r; lia]).
  assert (Hs : 2 ^ 32 = 2 ^ (32 - n) * 2 ^ n) by (rewrite <- Z.pow_add_r by lia; f_equal; lia).
  assert (H3 : 0 < 2 ^ (32 - n)) by (apply Z.pow_pos_nonneg; lia).
  unfold take_prefetched. cbv zeta. rewrite !shiftl_mul, Z.mul_1_l, (u32_id (2 ^ n - 1)), shiftr_div, land_mask by lia.
  assert (Hd : 0 <= bs_prefetch b / 2 ^ (32 - n) < 2 ^ n) by (split; [apply Z.div_pos; lia|apply Z.div_lt_upper_bound; lia]).
  by rewrite (Z.mod_small (_ / _)), Ha, lor_add by lia.
Qed.

Section shifting.
Implicit Types (f : Z -> bool) (p : Z).

Lemma window_next f p n : (window f p 32 * 2 ^ Z.of_nat n + window f (p + 32) n) mod 2 ^ 32 = window f (p + Z.of_nat n) 32.
Proof.
  pose proof (window_app f p 32 n) as E1. pose proof (window_app f p n 32) as E2. rewrite Nat.add_comm in E2. change (Z.of_nat 32) with 32 in *.
  rewrite <- E1, E2, Z.add_comm, Z.mod_add by lia. apply Z.mod_small, (window_bound f _ 32).
Qed.

Lemma pow_split a b : 0 <= a -> 0 <= b -> 2 ^ (a + b) = 2 ^ a * 2 ^ b.
Proof. apply Z.pow_add_r. Qed.

(** The first [n] of the [32 - o] bits in a word from which [o] were taken. *)
Lemma window_taken f p (o n : nat) : (o + n <= 32)%nat ->
  let P := window f p (32 - o) * 2 ^ Z.of_nat o in
  P / 2 ^ (32 - Z.of_nat n) = window f p n /\ (P * 2 ^ Z.of_nat n) mod 2 ^ 32 = window f (p + Z.of_nat n) (32 - (o + n)) * 2 ^ Z.of_nat (o + n).
Proof.
  intros Ho P. set (r := (32 - (o + n))%nat). assert (E : window f p (32 - o) = window f p n * 2 ^ Z.of_nat r + window f (p + Z.of_nat n) r).
  { rewrite <- window_app. f_equal. unfold r. lia. }
  pose proof (window_bound f (p + Z.of_nat n) r) as Hr. pose proof (window_bound f p n) as Hn.
  assert (H1 : 2 ^ (32 - Z.of_nat n) = 2 ^ Z.of_nat r * 2 ^ Z.of_nat o) by (rewrite <- pow_split by lia; f_equal; unfold r; lia).
  assert (H2 : 2 ^ 32 = 2 ^ Z.of_nat r * 2 ^ Z.of_nat (o + n)) by (rewrite <- pow_split by lia; f_equal; unfold r; lia).
  assert (H3 : 2 ^ Z.of_nat (o + n) = 2 ^ Z.of_nat o * 2 ^ Z.of_nat n) by (rewrite <- pow_split by lia; f_equal; lia).
  assert (Hop : 0 < 2 ^ Z.of_nat o) by (apply Z.pow_pos_nonneg; lia). assert (Hnp : 0 < 2 ^ Z.of_nat n) by (apply Z.pow_pos_nonneg; lia).
  assert (Hrp : 0 < 2 ^ Z.of_nat r) by (apply Z.pow_pos_nonneg; lia). unfold P. rewrite E. split.
  - rewrite H1, Z.div_mul_cancel_r by lia. rewrite Z.add_comm, Z.div_add, Z.div_small by lia. lia.
  - rewrite H2, H3, <- Z.mul_assoc, Z.mul_mod_distr_r by lia. f_equal.
    rewrite Z.add_comm, Z.mod_add by lia. by apply Z.mod_small.
Qed.

(** The accumulator after a shift: a multiple of [2 ^ n], to which the next bits are added. *)
Lemma window_shifted f p n : (n <= 32)%nat ->
  let k := window f p 32 mod 2 ^ (32 - Z.of_nat n) in
  (window f p 32 * 2 ^ Z.of_nat n) mod 2 ^ 32 = k * 2 ^ Z.of_nat n /\ k * 2 ^ Z.of_nat n + window f (p + 32) n = window f (p + Z.of_nat n) 32.
Proof.
  intros Hn k. assert (Hs : 2 ^ 32 = 2 ^ (32 - Z.of_nat n) * 2 ^ Z.of_nat n) by (rewrite <- pow_split by lia; f_equal; lia).
  assert (Hnp : 0 < 2 ^ Z.of_nat n) by (apply Z.pow_pos_nonneg; lia). assert (Hmp : 0 < 2 ^ (32 - Z.of_nat n)) by (apply Z.pow_pos_nonneg; lia).
  assert (E : (window f p 32 * 2 ^ Z.of_nat n) mod 2 ^ 32 = k * 2 ^ Z.of_nat n) by (rewrite Hs; by rewrite Z.mul_mod_distr_r by lia).
  split; [exact E|]. rewrite <- window_next, <- Z.add_mod_idemp_l, E by lia. symmetry. apply Z.mod_small.
  pose proof (window_bound f (p + 32) n). pose proof (Z.mod_pos_bound (window f p 32) (2 ^ (32 - Z.of_nat n)) Hmp). fold k in H0. nia.
Qed.
End shifting.

(** The reader when the prefetched word is used up: [o] bits of the next word are needed. *)
Lemma next_word_run b q o A :
  bs_ok b -> 0 <= q -> 32 * q + 64 < 2 ^ 33 -> 0 <= o < 32 -> bs_pointer b = 4 * q + 4 -> bs_offset b = o -> bs_accumulator b = A * 2 ^ o ->
  let f := bits_of (bs_data b) in
  exists b', (BitStream_Prefetch ;; b <- pget ;; if negb (bs_offset b =? 0) then pmodify (take_prefetched (bs_offset b)) else pret tt) b = Ret (tt, b') /\
    bs_accumulator b' = A * 2 ^ o + window f (32 * q + 64) (Z.to_nat o) /\
    bs_prefetch b' = window f (32 * q + 64 + o) (Z.to_nat (32 - o)) * 2 ^ o /\
    exists mask, b' = b <| bs_mask := mask |> <| bs_accumulator := bs_accumulator b' |> <| bs_prefetch := bs_prefetch b' |>.
Proof.
  intros Hok Hq Hmax Ho Hptr Hoff Hacc f. unfold BitStream_Prefetch. set (w := window f (32 * q + 64) 32). set (b1 := b <| bs_prefetch := w |>).
  rewrite (pbind_ret _ _ _ tt b1).
  2: { rewrite (pbind_ret _ _ _ _ _ (word_at_run 4 b Hok ltac:(lia) ltac:(lia) ltac:(lia))). unfold pmodify. rewrite Hptr.
       replace (8 * (4 * q + 4 + 4)) with (32 * q + 64) by lia. done. }
  rewrite pbind_pget. change (bs_offset b1) with (bs_offset b). rewrite Hoff. pose proof (window_bound f (32 * q + 64) 32) as Hw. fold w in Hw. change (Z.of_nat 32) with 32 in Hw.
  destruct (o =? 0) eqn:E0; cbn [negb].
  - replace o with 0 in * by lia. exists b1. split; [done|]. split_and!; [change (Z.to_nat 0) with 0%nat; rewrite window_0; change (bs_accumulator b1) with (bs_accumulator b); lia| |].
    + change (bs_prefetch b1) with w. change (Z.to_nat (32 - 0)) with 32%nat. rewrite Z.add_0_r, Z.pow_0_r. fold w. lia.
    + exists (bs_mask b). by destruct b.
  - destruct (window_taken f (32 * q + 64) 0 (Z.to_nat o) ltac:(lia)) as [T1 T2]. change (32 - 0)%nat with 32%nat in *. fold w in T1, T2.
    change (Z.of_nat 0) with 0 in *. rewrite Z.pow_0_r, Z.mul_1_r in T1, T2. rewrite Nat.add_0_l, Z2Nat.id in T2 by lia. rewrite Z2Nat.id in T1 by lia.
    eexists. split; [unfold pmodify; rewrite (take_prefetched_run o A b1 ltac:(lia) Hacc Hw); reflexivity|]. cbn [bs_accumulator bs_prefetch update].
    change (bs_prefetch b1) with w. rewrite T1, T2. split_and!; [done| |].
    + f_equal. f_equal. lia.
    + exists (2 ^ o - 1). done.
Qed.

Lemma shift_run b pos n : reading b pos -> 0 < n < 32 -> pos + n < 2 ^ 32 ->
  exists b', BitStream_Shift n b = Ret (tt, b') /\ reading b' (pos + n) /\ bs_data b' = bs_data b /\ bs_length b' = bs_length b.
Proof.
  intros [Hok [Hpos Hp] Hptr Ho Ha Hf] Hn Hmax. set (f := bits_of (bs_data b)) in *. set (o := pos mod 32) in *.
  assert (Hob : 0 <= o < 32) by (apply Z.mod_pos_bound; lia). assert (Hdm : pos = 32 * (pos / 32) + o) by (apply Z.div_mod; lia).
  pose proof (window_shifted f pos (Z.to_nat n) ltac:(lia)) as [Ek Ew]. rewrite Z2Nat.id in Ek, Ew by lia. set (k := window f pos 32 mod 2 ^ (32 - n)) in *.
  pose proof (window_bound f (pos + 32) (Z.to_nat (32 - o))) as Hwb. rewrite Z2Nat.id in Hwb by lia.
  assert (Hop : 0 < 2 ^ o) by (apply Z.pow_pos_nonneg; lia). assert (Hsplit : 2 ^ 32 = 2 ^ (32 - o) * 2 ^ o) by (rewrite <- pow_split by lia; f_equal; lia).
  assert (Hfb : 0 <= bs_prefetch b < 2 ^ 32) by (rewrite Hf; nia).
  unfold BitStream_Shift. replace (n =? 0) with false by lia. replace ((0 <? n) && (n <? 32)) with true by lia.
  set (b1 := b <| bs_accumulator := k * 2 ^ n |> <| bs_position := pos + n |> <| bs_offset := o + n |>).
  rewrite (pbind_ret _ _ _ tt b1).
  2: { unfold pmodify, b1. rewrite Ha, Ho, Hp, shiftl_mul by lia. fold (u32 (window f pos 32 * 2 ^ n)) in Ek. rewrite Ek, !u32_id by lia. done. }
  rewrite pbind_pget. change (bs_offset b1) with (o + n).
  set (b2 := b1 <| bs_mask := 2 ^ n - 1 |> <| bs_accumulator := k * 2 ^ n + bs_prefetch b / 2 ^ (32 - n) |> <| bs_prefetch := (bs_prefetch b * 2 ^ n) mod 2 ^ 32 |>).
  assert (E2 : take_prefetched n b1 = b2) by (by rewrite (take_prefetched_run n k)).
  destruct (o + n <? 32) eqn:Eo.
  - destruct (window_taken f (pos + 32) (Z.to_nat o) (Z.to_nat n) ltac:(lia)) as [T1 T2]. rewrite Nat2Z.inj_add in T2. rewrite !Z2Nat.id in T1, T2 by lia.
    replace (32 - Z.to_nat o)%nat with (Z.to_nat (32 - o)) in T1, T2 by lia. rewrite <- Hf in T1, T2.
    assert (Hq : (pos + n) / 32 = pos / 32 /\ (pos + n) mod 32 = o + n) by (unfold o in *; split; Z.div_mod_to_equations; lia). destruct Hq as [Hq1 Hq2].
    exists b2. split; [unfold pmodify; by rewrite E2|]. split; [|done]. constructor; [exact Hok|split; [lia|done]|by rewrite Hq1|by rewrite Hq2|..];
      change (bs_data b2) with (bs_data b); fold f.
    + change (bs_accumulator b2) with (k * 2 ^ n + bs_prefetch b / 2 ^ (32 - n)). rewrite T1. exact Ew.
    + change (bs_prefetch b2) with ((bs_prefetch b * 2 ^ n) mod 2 ^ 32). rewrite T2, Hq2. do 2 f_equal; lia.
  - assert (Hq : (pos + n) / 32 = pos / 32 + 1 /\ (pos + n) mod 32 = o + n - 32) by (unfold o in *; split; Z.div_mod_to_equations; lia). destruct Hq as [Hq1 Hq2].
    set (o' := o + n - 32) in *. set (W := window f (pos + 32) (Z.to_nat (32 - o))) in *.
    assert (EP : bs_prefetch b / 2 ^ (32 - n) = W * 2 ^ o').
    { rewrite Hf. replace o with (o' + (32 - n)) at 1 by (unfold o'; lia). rewrite pow_split, Z.mul_assoc, Z.div_mul by lia. done. }
    assert (EW : window f (pos + 32) (Z.to_nat n) = W * 2 ^ o' + window f (32 * (pos / 32) + 64) (Z.to_nat o')).
    { replace (Z.to_nat n) with (Z.to_nat (32 - o) + Z.to_nat o')%nat by (unfold o'; lia). rewrite window_app, !Z2Nat.id by (unfold o'; lia). do 2 f_equal. lia. }
    set (b3 := b2 <| bs_offset := o' |> <| bs_pointer := bs_pointer b + 4 |>).
    rewrite (pbind_ret _ _ _ tt b2) by (unfold pmodify; by rewrite E2). rewrite (pbind_ret _ _ _ tt b3).
    2: { unfold pmodify, b3. change (bs_offset b2) with (o + n). by rewrite u32_id by lia. }
    destruct (next_word_run b3 (pos / 32) o' (k * 2 ^ (32 - o) + W)) as (b' & Er & Eacc & Epre & mask & Eb).
    + exact Hok.
    + apply Z.div_pos; lia.
    + lia.
    + unfold o'. lia.
    + change (bs_pointer b3) with (bs_pointer b + 4). lia.
    + done.
    + change (bs_accumulator b3) with (k * 2 ^ n + bs_prefetch b / 2 ^ (32 - n)). rewrite EP. replace n with ((32 - o) + o') at 1 by (unfold o'; lia).
      rewrite pow_split by (unfold o'; lia). lia.
    + exists b'. split; [exact Er|]. change (bits_of (bs_data b3)) with f in Eacc, Epre.
      assert (Hd : bs_data b' = bs_data b) by (by rewrite Eb). split; [|split; [exact Hd|by rewrite Eb]].
      constructor; [unfold bs_ok; rewrite Eb; exact Hok|split; [lia|by rewrite Eb]|rewrite Eb, Hq1; change (bs_pointer b + 4 = 4 * (pos / 32 + 1)); lia|by rewrite Eb, Hq2|..]; rewrite Hd; fold f.
      * rewrite Eacc, <- Ew, EW. rewrite Z.mul_add_distr_r, <- Z.mul_assoc, <- pow_split by (unfold o'; lia). replace (32 - o + o') with n by (unfold o'; lia). lia.
      * rewrite Epre, Hq2. do 2 f_equal. unfold o'. lia.
Qed.

(** ** Writing *)

Lemma store_at_run k v b : bs_ok b -> 0 <= bs_pointer b -> 0 <= k -> bs_pointer b + k < 2 ^ 32 -> is_byte v ->
  exists buf, store_at k v b = Ret (tt, b <| bs_buffer := buf |>) /\ bs_ok (b <| bs_buffer := buf |>) /\ zlen buf = zlen (bs_buffer b) /\
    forall i, znth buf i = if (i =? bs_pointer b + k) && (i <? bs_capacity b) then v else znth (bs_buffer b) i.
Proof.
  intros (Hb & Hc & Hm & Hl) Hp Hk Hmax Hv. unfold store_at. rewrite pbind_pget, (u32_id (bs_pointer b)), u32_id by lia.
  destruct (bs_pointer b + k <? bs_capacity b) eqn:E.
  - rewrite slot_set_run, pbind_plift by lia. eexists. split; [reflexivity|]. rewrite zlen_splice1 by lia. split_and!.
    + split_and!; cbn [bs_buffer bs_capacity bs_length update]; [apply Forall_splice; [by apply Forall_singleton|done]|rewrite ?zlen_splice1 by lia; lia..].
    + done.
    + intros i. rewrite znth_splice1 by lia. by repeat case_if; try lia.
  - exists (bs_buffer b). split; [by destruct b|]. split; [by destruct b|]. split; [done|]. intros i. by case_if; [lia|].
Qed.

(** The bytes of the accumulator are stored from the pointer on. *)
Lemma flush_run b : bs_ok b -> 0 <= bs_pointer b -> bs_pointer b + 3 < 2 ^ 32 ->
  exists buf, BitStream_Flush b = Ret (tt, b <| bs_buffer := buf |>) /\ bs_ok (b <| bs_buffer := buf |>) /\ zlen buf = zlen (bs_buffer b) /\
    forall i, znth buf i = if (bs_pointer b <=? i) && (i <? bs_pointer b + 4) && (i <? bs_capacity b)
                           then u8 (bs_accumulator b / 2 ^ (8 * (3 - (i - bs_pointer b)))) else znth (bs_buffer b) i.
Proof.
  intros Hok Hp Hmax. unfold BitStream_Flush. rewrite pbind_pget, !shiftr_div by lia. set (A := bs_accumulator b).
  assert (H8 : forall x, is_byte (u8 x)) by (intros; apply u8_byte).
  destruct (store_at_run 0 (u8 (A / 2 ^ 24)) b Hok Hp ltac:(lia) ltac:(lia) (H8 _)) as (c1 & E1 & K1 & L1 & N1). set (b1 := b <| bs_buffer := c1 |>) in *.
  destruct (store_at_run 1 (u8 (A / 2 ^ 16)) b1 K1 Hp ltac:(lia) ltac:(change (bs_pointer b1) with (bs_pointer b); lia) (H8 _)) as (c2 & E2 & K2 & L2 & N2).
  set (b2 := b1 <| bs_buffer := c2 |>) in *.
  destruct (store_at_run 2 (u8 (A / 2 ^ 8)) b2 K2 Hp ltac:(lia) ltac:(change (bs_pointer b2) with (bs_pointer b); lia) (H8 _)) as (c3 & E3 & K3 & L3 & N3).
  set (b3 := b2 <| bs_buffer := c3 |>) in *.
  destruct (store_at_run 3 (u8 (A / 2 ^ 0)) b3 K3 Hp ltac:(lia) ltac:(change (bs_pointer b3) with (bs_pointer b); lia) (H8 _)) as (c4 & E4 & K4 & L4 & N4).
  exists c4. rewrite (pbind_ret _ _ _ _ _ E1), (pbind_ret _ _ _ _ _ E2), (pbind_ret _ _ _ _ _ E3), E4. split_and!; [done|exact K4|exact (eq_trans L4 (eq_trans L3 (eq_trans L2 L1)))|].
  intros i. rewrite N4. change (bs_buffer b3) with c3. rewrite N3. change (bs_buffer b2) with c2. rewrite N2. change (bs_buffer b1) with c1. rewrite N1.
  change (bs_pointer b3) with (bs_pointer b). change (bs_pointer b2) with (bs_pointer b). change (bs_pointer b1) with (bs_pointer b).
  change (bs_capacity b3) with (bs_capacity b). change (bs_capacity b2) with (bs_capacity b). change (bs_capacity b1) with (bs_capacity b).
  repeat case_if; try lia; do 3 f_equal; lia.
Qed.

(** The bits [f], with [n] bits of [v] at [p] and nothing behind them. *)
Definition extend (f : Z -> bool) (p v n : Z) (i : Z) : bool :=
  if i <? p then f i else if i <? p + n then Z.testbit v (p + n - 1 - i) else false.

(** A writer of the bits [f] in front of [pos]. *)
Record writing (b : wBitStream) (f : Z -> bool) (pos : Z) : Prop := {
  wr_ok : bs_ok b;
  wr_pos : 0 <= pos /\ bs_position b = pos;
  wr_pointer : bs_pointer b = 4 * (pos / 32);
  wr_offset : bs_offset b = pos mod 32;
  wr_end : forall i, pos <= i -> f i = false;
  wr_accumulator : bs_accumulator b = window f (32 * (pos / 32)) 32;
  wr_stored : forall i, 0 <= i < bs_pointer b -> i < bs_capacity b -> znth (bs_buffer b) i = window f (8 * i) 8
}.

Lemma high_bit x n m : 0 <= x < 2 ^ n -> 0 <= n <= m -> Z.testbit x m = false.
Proof. intros Hx Hn. rewrite <- (Z.mod_small x (2 ^ n)) by done. by apply Z.mod_pow2_bits_high. Qed.

Lemma extend_windows f p v n : 0 <= p -> 0 <= n -> 0 <= v < 2 ^ n ->
  (forall q k, q + Z.of_nat k <= p -> window (extend f p v n) q k = window f q k) /\
  window (extend f p v n) p (Z.to_nat n) = v /\
  (forall q k, p + n <= q -> window (extend f p v n) q k = 0).
Proof.
  intros Hp Hn Hv. split_and!.
  - intros q k Hq. apply window_ext. intros j Hj. unfold extend. by replace (q + j <? p) with true by lia.
  - apply Z.bits_inj'. intros m Hm. destruct (decide (m < n)) as [Hlt|Hge].
    + pose proof (window_testbit (extend f p v n) p (Z.to_nat n) (n - 1 - m) ltac:(lia)) as E. rewrite Z2Nat.id in E by lia.
      replace (n - 1 - (n - 1 - m)) with m in E by lia. rewrite E. unfold extend. replace (p + (n - 1 - m) <? p) with false by lia.
      replace (p + (n - 1 - m) <? p + n) with true by lia. f_equal. lia.
    + pose proof (window_bound (extend f p v n) p (Z.to_nat n)) as Hb. rewrite Z2Nat.id in Hb by lia.
      by rewrite !(high_bit _ n) by lia.
  - intros q k Hq. apply window_false. intros j Hj. unfold extend. replace (q + j <? p) with false by lia. by replace (q + j <? p + n) with false by lia.
Qed.

Lemma window_cut f p n m : (n <= m)%nat -> window f p m = window f p n * 2 ^ Z.of_nat (m - n) + window f (p + Z.of_nat n) (m - n).
Proof. intros Hn. rewrite <- window_app. f_equal. lia. Qed.

Lemma word_byte f p j : 0 <= j < 4 -> u8 (window f p 32 / 2 ^ (8 * (3 - j))) = window f (p + 8 * j) 8.
Proof.
  intros Hj. rewrite (window_cut f p (Z.to_nat (8 * j)) 32), (window_cut f (p + _) 8 (32 - Z.to_nat (8 * j))) by lia. rewrite Z2Nat.id by lia.
  set (r := (32 - Z.to_nat (8 * j) - 8)%nat). replace (Z.of_nat (32 - Z.to_nat (8 * j))) with (8 + Z.of_nat r) by (unfold r; lia).
  replace (8 * (3 - j)) with (Z.of_nat r) by (unfold r; lia). rewrite pow_split by lia. change (Z.of_nat 8) with 8.
  pose proof (window_bound f (p + 8 * j + 8) r) as Hr. pose proof (window_bound f (p + 8 * j) 8) as H8. change (Z.of_nat 8) with 8 in H8.
  assert (Hrp : 0 < 2 ^ Z.of_nat r) by (apply Z.pow_pos_nonneg; lia). set (W := window f p (Z.to_nat (8 * j))).
  replace (W * (2 ^ 8 * 2 ^ Z.of_nat r) + (window f (p + 8 * j) 8 * 2 ^ Z.of_nat r + window f (p + 8 * j + 8) r))
    with (window f (p + 8 * j + 8) r + (W * 2 ^ 8 + window f (p + 8 * j) 8) * 2 ^ Z.of_nat r) by lia.
  rewrite Z.div_add, Z.div_small by lia. unfold u8. rewrite Z.add_0_l, Z.add_comm, Z.mod_add by lia. by apply Z.mod_small.
Qed.

(** The current word of a writer, before and after [n] more bits. *)
Lemma word_before f p (o : nat) : (o <= 32)%nat -> (forall i, p + Z.of_nat o <= i -> f i = false) -> window f p 32 = window f p o * 2 ^ (32 - Z.of_nat o).
Proof.
  intros Ho Hf. rewrite (window_cut f p o 32) by lia. rewrite (window_false f (p + _)) by (intros; apply Hf; lia). rewrite Z.add_0_r. do 2 f_equal. lia.
Qed.

Section write.
Context (f : Z -> bool) (q o v n : Z).
Context (Hq : 0 <= q) (Ho : 0 <= o < 32) (Hn : 0 < n < 32) (Hv : 0 <= v < 2 ^ n) (Hf : forall i, 32 * q + o <= i -> f i = false).
Let g : Z -> bool := extend f (32 * q + o) v n.

Lemma word_inside : o + n <= 32 -> window g (32 * q) 32 = window f (32 * q) 32 + v * 2 ^ (32 - o - n).
Proof using Hq Ho Hn Hv Hf.
  intros Hle. destruct (extend_windows f (32 * q + o) v n ltac:(lia) ltac:(lia) Hv) as (G1 & G2 & G3). fold g in G1, G2, G3.
  rewrite (word_before f (32 * q) (Z.to_nat o)) by (lia || (intros; apply Hf; lia)).
  rewrite (window_cut g (32 * q) (Z.to_nat o) 32), (window_cut g (32 * q + _) (Z.to_nat n) (32 - Z.to_nat o)) by lia. rewrite !Z2Nat.id, G1, G2, G3 by lia.
  replace (Z.of_nat (32 - Z.to_nat o)) with (32 - o) by lia. replace (Z.of_nat (32 - Z.to_nat o - Z.to_nat n)) with (32 - o - n) by lia. lia.
Qed.

Lemma word_across : 32 <= o + n -> let o' := o + n - 32 in
  window g (32 * q) 32 = window f (32 * q) 32 + v / 2 ^ o' /\ window g (32 * q + 32) 32 = (v mod 2 ^ o') * 2 ^ (32 - o') /\ 0 <= v / 2 ^ o' < 2 ^ (32 - o).
Proof using Hq Ho Hn Hv Hf.
  intros Hge o'. destruct (extend_windows f (32 * q + o) v n ltac:(lia) ltac:(lia) Hv) as (G1 & G2 & G3). fold g in G1, G2, G3.
  assert (Hop : 0 < 2 ^ o') by (apply Z.pow_pos_nonneg; unfold o'; lia).
  rewrite (window_cut g _ (Z.to_nat (32 - o)) (Z.to_nat n)) in G2 by lia. rewrite Z2Nat.id in G2 by lia. replace (32 * q + o + (32 - o)) with (32 * q + 32) in G2 by lia.
  replace (Z.of_nat (Z.to_nat n - Z.to_nat (32 - o))) with o' in G2 by (unfold o'; lia). replace (Z.to_nat n - Z.to_nat (32 - o))%nat with (Z.to_nat o') in G2 by (unfold o'; lia).
  pose proof (window_bound g (32 * q + 32) (Z.to_nat o')) as Hb. rewrite Z2Nat.id in Hb by (unfold o'; lia).
  pose proof (window_bound g (32 * q + o) (Z.to_nat (32 - o))) as Hb2. rewrite Z2Nat.id in Hb2 by lia.
  assert (D1 : v / 2 ^ o' = window g (32 * q + o) (Z.to_nat (32 - o))) by (rewrite <- G2, Z.add_comm, Z.div_add, Z.div_small by lia; lia).
  assert (D2 : v mod 2 ^ o' = window g (32 * q + 32) (Z.to_nat o')) by (rewrite <- G2, Z.add_comm, Z.mod_add by lia; by apply Z.mod_small). split_and!.
  - rewrite (word_before f (32 * q) (Z.to_nat o)) by (lia || (intros; apply Hf; lia)). rewrite (window_cut g (32 * q) (Z.to_nat o) 32) by lia.
    rewrite !Z2Nat.id, G1, D1 by lia. replace (Z.of_nat (32 - Z.to_nat o)) with (32 - o) by lia. do 2 f_equal. lia.
  - rewrite D2. rewrite (word_before g (32 * q + 32) (Z.to_nat o')) by ((unfold o'; lia) || (intros i Hi; unfold g, extend; repeat case_if; unfold o' in *; done || lia)).
    by rewrite Z2Nat.id by (unfold o'; lia).
  - lia.
  - lia.
Qed.
End write.

Lemma start_word_run b v o : 0 <= o < 32 -> bs_offset b = o -> bs_accumulator b = 0 ->
  exists mask, start_word v b = Ret (tt, b <| bs_mask := mask |> <| bs_accumulator := (v mod 2 ^ o) * 2 ^ (32 - o) |>).
Proof.
  intros Ho Hoff Hacc. unfold start_word. rewrite pbind_pget, Hoff. destruct (o =? 0) eqn:E0; cbn [negb].
  - exists (bs_mask b). replace o with 0 by lia. rewrite Z.pow_0_r, Z.mod_1_r. destruct b. cbn in *. by subst.
  - exists (2 ^ o - 1). assert (Hop : 0 < 2 ^ o <= 2 ^ 31) by (split; [apply Z.pow_pos_nonneg; lia|apply Z.pow_le_mono_r; lia]).
    set (b1 := b <| bs_mask := 2 ^ o - 1 |>). rewrite (pbind_ret _ _ _ tt b1).
    2: { unfold pmodify. rewrite Hoff, shiftl_mul, Z.mul_1_l by lia. by rewrite u32_id by lia. }
    assert (Em : u32 (Z.shiftl (Z.land v (2 ^ o - 1)) (32 - o)) = (v mod 2 ^ o) * 2 ^ (32 - o)).
    { rewrite land_mask, shiftl_mul by lia. apply Z.mod_small. pose proof (Z.mod_pos_bound v (2 ^ o) ltac:(lia)).
      assert (Es : 2 ^ 32 = 2 ^ o * 2 ^ (32 - o)) by (rewrite <- pow_split by lia; f_equal; lia).
      rewrite Es. pose proof (Z.pow_pos_nonneg 2 (32 - o) ltac:(lia) ltac:(lia)). nia. }
    unfold pmodify. change (bs_offset b1) with (bs_offset b). change (bs_accumulator b1) with (bs_accumulator b). change (bs_mask b1) with (2 ^ o - 1).
    by rewrite Hoff, Hacc, Em, Z.lor_0_l.
Qed.

Lemma complete_word_run b v n o : 0 < n < 32 -> 0 <= o < n -> 0 <= v / 2 ^ o < 2 ^ (n - o) -> bs_offset b = 32 + o ->
  (exists A, bs_accumulator b = A * 2 ^ (n - o)) ->
  exists mask, complete_word v n b = Ret (tt, b <| bs_offset := o |> <| bs_mask := mask |> <| bs_accumulator := bs_accumulator b + v / 2 ^ o |>).
Proof.
  intros Hn Ho Hd Hoff (A & Hacc). exists (2 ^ (n - o) - 1). unfold complete_word.
  assert (Hmb : 0 < 2 ^ (n - o) <= 2 ^ 31) by (split; [apply Z.pow_pos_nonneg; lia|apply Z.pow_le_mono_r; lia]).
  set (b1 := b <| bs_offset := o |>). set (b2 := b1 <| bs_mask := 2 ^ (n - o) - 1 |>).
  rewrite (pbind_ret _ _ _ tt b1) by (unfold pmodify; rewrite Hoff; replace (32 + o - 32) with o by lia; by rewrite u32_id by lia).
  rewrite (pbind_ret _ _ _ tt b2).
  2: { unfold pmodify. change (bs_offset b1) with o. rewrite shiftl_mul, Z.mul_1_l by lia. by rewrite u32_id by lia. }
  unfold pmodify. change (bs_offset b2) with o. change (bs_accumulator b2) with (bs_accumulator b). change (bs_mask b2) with (2 ^ (n - o) - 1).
  by rewrite shiftr_div, land_mask, Z.mod_small, Hacc, lor_add by lia.
Qed.

Section write_bits.
Context (b : wBitStream) (f : Z -> bool) (pos v n : Z).
Context (Hw : writing b f pos) (Hn : 0 < n < 32) (Hv : 0 <= v < 2 ^ n) (Hmax : pos + n < 2 ^ 32).
Let g : Z -> bool := extend f pos v n.
Let b1 : wBitStream := b <| bs_position := pos + n |> <| bs_offset := pos mod 32 + n |>.

Lemma write_parts : 0 <= pos mod 32 < 32 /\ pos = 32 * (pos / 32) + pos mod 32 /\ 0 <= pos / 32 /\
  window f (32 * (pos / 32)) 32 = window f (32 * (pos / 32)) (Z.to_nat (pos mod 32)) * 2 ^ (32 - pos mod 32).
Proof using All.
  destruct Hw as [_ [Hpos _] _ _ Hend _ _]. assert (Hob : 0 <= pos mod 32 < 32) by (apply Z.mod_pos_bound; lia). assert (Hdm : pos = 32 * (pos / 32) + pos mod 32) by (apply Z.div_mod; lia).
  split_and!; [lia|lia|done|apply Z.div_pos; lia|]. rewrite (word_before f _ (Z.to_nat (pos mod 32))) by (lia || (intros; apply Hend; lia)). by rewrite Z2Nat.id by lia.
Qed.

Lemma write_counts : BitStream_Write_Bits v n b =
  (if pos mod 32 + n <? 32 then pmodify (fun b => b <| bs_accumulator := Z.lor (bs_accumulator b) (u32 (Z.shiftl v (32 - bs_offset b))) |>)
   else complete_word v n ;; BitStream_Flush ;; pmodify (fun b => b <| bs_accumulator := 0 |> <| bs_pointer := bs_pointer b + 4 |>) ;; start_word v) b1.
Proof using All.
  destruct write_parts as (Ho & _). destruct Hw as [_ [Hpos Hp] _ Hoff _ _ _]. unfold BitStream_Write_Bits.
  rewrite (pbind_ret _ _ _ tt b1) by (unfold pmodify, b1; by rewrite Hp, Hoff, !u32_id by lia). by rewrite pbind_pget.
Qed.

Lemma extend_end i : pos + n <= i -> g i = false.
Proof using All. intros Hi. unfold g, extend. by repeat case_if; try lia. Qed.

Lemma write_inside : pos mod 32 + n < 32 ->
  exists b', BitStream_Write_Bits v n b = Ret (tt, b') /\ writing b' g (pos + n) /\ bs_capacity b' = bs_capacity b /\ zlen (bs_buffer b') = zlen (bs_buffer b).
Proof using All.
  intros Hlt. destruct write_parts as (Ho & Hdm & Hq & Hwb). rewrite write_counts. replace (_ <? 32) with true by lia.
  destruct Hw as [Hok [Hpos Hp] Hptr Hoff Hend Ha Hst]. set (q := pos / 32) in *. set (o := pos mod 32) in *.
  pose proof (word_inside f q o v n Hq Ho Hn Hv ltac:(intros; apply Hend; lia) ltac:(lia)) as Hword. rewrite <- Hdm in Hword. fold g in Hword.
  assert (Hqq : (pos + n) / 32 = q /\ (pos + n) mod 32 = o + n) by (unfold q, o in *; split; Z.div_mod_to_equations; lia). destruct Hqq as [Hq1 Hq2].
  assert (Hvb : 0 <= v * 2 ^ (32 - o - n) < 2 ^ (32 - o)).
  { assert (Es : 2 ^ (32 - o) = 2 ^ n * 2 ^ (32 - o - n)) by (rewrite <- pow_split by lia; f_equal; lia). rewrite Es.
    pose proof (Z.pow_pos_nonneg 2 (32 - o - n) ltac:(lia) ltac:(lia)). nia. }
  assert (H32 : 2 ^ (32 - o) <= 2 ^ 32) by (apply Z.pow_le_mono_r; lia).
  assert (Eacc : Z.lor (bs_accumulator b) (u32 (Z.shiftl v (32 - (o + n)))) = window g (32 * q) 32).
  { replace (32 - (o + n)) with (32 - o - n) by lia. by rewrite shiftl_mul, u32_id, Ha, Hword, Hwb, lor_add by lia. }
  destruct (extend_windows f pos v n Hpos ltac:(lia) Hv) as (G1 & _ & _).
  exists (b1 <| bs_accumulator := window g (32 * q) 32 |>). split; [unfold pmodify; change (bs_offset b1) with (o + n); change (bs_accumulator b1) with (bs_accumulator b); by rewrite Eacc|].
  split; [|done]. constructor; [exact Hok|split; [lia|reflexivity]|rewrite Hq1; exact Hptr|by rewrite Hq2|exact extend_end|by rewrite Hq1|].
  intros i Hi Hc. change (0 <= i < bs_pointer b) in Hi. change (znth (bs_buffer b) i = window g (8 * i) 8). fold g in G1. rewrite (G1 (8 * i) 8%nat) by lia. by apply Hst.
Qed.

Lemma write_over : 32 <= pos mod 32 + n ->
  exists b', BitStream_Write_Bits v n b = Ret (tt, b') /\ writing b' g (pos + n) /\ bs_capacity b' = bs_capacity b /\ zlen (bs_buffer b') = zlen (bs_buffer b).
Proof using All.
  intros Hge. destruct write_parts as (Ho & Hdm & Hq & Hwb). rewrite write_counts. replace (_ <? 32) with false by lia. pose proof extend_end as Hend'.
  destruct Hw as [Hok [Hpos Hp] Hptr Hoff Hend Ha Hst]. set (q := pos / 32) in *. set (o := pos mod 32) in *.
  destruct (word_across f q o v n Hq Ho Hn Hv ltac:(intros; apply Hend; lia) Hge) as (Hw1 & Hw2 & Hd). rewrite <- Hdm in Hw1, Hw2. fold g in Hw1, Hw2.
  assert (Hob' : 0 <= o + n - 32 < 32) by (clear - Hge Ho Hn; lia). set (o' := o + n - 32) in *.
  assert (Hqq : (pos + n) / 32 = q + 1 /\ (pos + n) mod 32 = o') by (unfold o', q, o in *; split; Z.div_mod_to_equations; lia). destruct Hqq as [Hq1 Hq2].
  assert (En : n - o' = 32 - o) by (unfold o'; lia).
  destruct (complete_word_run b1 v n o') as (mask & Ec); [lia|unfold o'; lia|by rewrite En|change (o + n = 32 + o'); unfold o'; lia| |].
  { rewrite En. eexists. exact (eq_trans Ha Hwb). }
  change (bs_accumulator b1) with (bs_accumulator b) in Ec. rewrite Ha, <- Hw1 in Ec. set (b2 := b1 <| bs_offset := o' |> <| bs_mask := mask |> <| bs_accumulator := window g (32 * q) 32 |>) in *.
  rewrite (pbind_ret _ _ _ _ _ Ec).
  destruct (flush_run b2) as (buf & Ef & Kf & Lf & Nf); [exact (ok_fields b b2 eq_refl eq_refl eq_refl Hok)|change (0 <= bs_pointer b); lia|change (bs_pointer b + 3 < 2 ^ 32); lia|].
  set (b3 := b2 <| bs_buffer := buf |>) in *. rewrite (pbind_ret _ _ _ _ _ Ef).
  set (b4 := b3 <| bs_accumulator := 0 |> <| bs_pointer := bs_pointer b + 4 |>). rewrite (pbind_ret _ _ _ tt b4) by done.
  destruct (start_word_run b4 v o' Hob' eq_refl eq_refl) as (mask' & Es). rewrite <- Hw2 in Es. set (b5 := b4 <| bs_mask := mask' |> <| bs_accumulator := window g (32 * q + 32) 32 |>) in Es. rewrite Es.
  destruct (extend_windows f pos v n Hpos ltac:(lia) Hv) as (G1 & _ & _). fold g in G1.
  exists b5. split; [reflexivity|]. split; [|split; [reflexivity|exact Lf]].
  constructor; [exact (ok_fields b3 b5 eq_refl eq_refl eq_refl Kf)|split; [lia|reflexivity]|rewrite Hq1; change (bs_pointer b + 4 = 4 * (q + 1)); lia|rewrite Hq2; reflexivity|exact Hend'| |].
  - rewrite Hq1. change (bs_accumulator b5) with (window g (32 * q + 32) 32). f_equal. lia.
  - intros i Hi Hc. change (0 <= i < bs_pointer b + 4) in Hi. change (i < bs_capacity b) in Hc. change (znth buf i = window g (8 * i) 8). rewrite Nf.
    change (bs_pointer b2) with (bs_pointer b). change (bs_capacity b2) with (bs_capacity b). change (bs_buffer b2) with (bs_buffer b). destruct (bs_pointer b <=? i) eqn:Ei.
    + replace (_ && _ && _) with true by lia. change (bs_accumulator b2) with (window g (32 * q) 32). rewrite word_byte by lia. f_equal. lia.
    + cbn [andb]. rewrite (G1 (8 * i) 8%nat) by lia. apply Hst; lia.
Qed.
End write_bits.

Lemma write_run b f pos v n : writing b f pos -> 0 < n < 32 -> 0 <= v < 2 ^ n -> pos + n < 2 ^ 32 ->
  exists b', BitStream_Write_Bits v n b = Ret (tt, b') /\ writing b' (extend f pos v n) (pos + n) /\
    bs_capacity b' = bs_capacity b /\ zlen (bs_buffer b') = zlen (bs_buffer b).
Proof.
  intros Hw Hn Hv Hmax. destruct (decide (pos mod 32 + n < 32)); [by apply write_inside|]. apply write_over; done || lia.
Qed.

(** What is in the buffer at the end. *)
Lemma finish_run b f pos : writing b f pos -> pos <= 8 * bs_capacity b ->
  exists buf, BitStream_Flush b = Ret (tt, b <| bs_buffer := buf |>) /\ zlen buf = zlen (bs_buffer b) /\ Forall is_byte buf /\
    forall i, 0 <= i -> bits_of (ztake ((pos + 7) / 8) buf) i = f i.
Proof.
  intros [Hok [Hpos Hp] Hptr Hoff Hend Ha Hst] Hc. pose proof Hok as (_ & Hcb & Hcm & _).
  assert (Hdm : pos = 32 * (pos / 32) + pos mod 32 /\ 0 <= pos mod 32 < 32) by (Z.div_mod_to_equations; lia).
  destruct (flush_run b) as (buf & Ef & Kf & Lf & Nf); [done|lia..|].
  exists buf. split_and!; [done|done|exact (proj1 Kf)|]. intros i Hi.
  assert (Hi8 : i = 8 * (i / 8) + i mod 8 /\ 0 <= i mod 8 < 8 /\ 0 <= i / 8) by (Z.div_mod_to_equations; lia). set (k := i / 8) in *. set (j := i mod 8) in *.
  assert (Hr : 8 * ((pos + 7) / 8) <= pos + 7 < 8 * ((pos + 7) / 8) + 8) by (Z.div_mod_to_equations; lia).
  rewrite bits_of_eq, znth_ztake by lia. fold k j. destruct (k <? (pos + 7) / 8) eqn:Ek; [|rewrite Z.testbit_0_l; symmetry; apply Hend; lia].
  assert (E : znth buf k = window f (8 * k) 8).
  { rewrite Nf. destruct (bs_pointer b <=? k) eqn:E1; [|apply Hst; lia].
    replace (_ && _ && _) with true by lia. rewrite Ha, word_byte by lia. f_equal. lia. }
  rewrite E. pose proof (window_testbit f (8 * k) 8 j ltac:(lia)) as T. change (Z.of_nat 8 - 1 - j) with (7 - j) in T. rewrite T. f_equal. lia.
Qed.

(** ** Codes one after another *)

(** A code is a number with its number of bits.  Codes are written in order, and read from the front of
    the accumulator. *)
Fixpoint write_codes (codes : list (Z * Z)) : Prog wBitStream unit :=
  match codes with [] => pret tt | (v, n) :: codes => BitStream_Write_Bits v n ;; write_codes codes end.
Fixpoint read_codes (widths : list Z) : Prog wBitStream (list Z) :=
  match widths with
  | [] => pret []
  | n :: widths => b <- pget ;; BitStream_Shift n ;; vs <- read_codes widths ;; pret (Z.shiftr (bs_accumulator b) (32 - n) :: vs)
  end.

Definition is_code (code : Z * Z) : Prop := 0 < code.2 < 32 /\ 0 <= code.1 < 2 ^ code.2.
Fixpoint bit_count (codes : list (Z * Z)) : Z := match codes with [] => 0 | code :: codes => code.2 + bit_count codes end.
Fixpoint codes_at (f : Z -> bool) (pos : Z) (codes : list (Z * Z)) : Prop :=
  match codes with [] => True | (v, n) :: codes => window f pos (Z.to_nat n) = v /\ codes_at f (pos + n) codes end.

Lemma bit_count_nonneg codes : Forall is_code codes -> 0 <= bit_count codes.
Proof. induction 1 as [|[v n] codes [Hn _] _ IH]; cbn [bit_count snd] in *; lia. Qed.

Lemma codes_at_agree f g codes : Forall is_code codes -> forall pos, 0 <= pos -> (forall i, 0 <= i < pos + bit_count codes -> g i = f i) -> codes_at f pos codes -> codes_at g pos codes.
Proof.
  induction 1 as [|[v n] codes [Hn _] Hc IH]; intros pos Hpos Hg Hf; [done|]. cbn [codes_at bit_count snd] in *. pose proof (bit_count_nonneg codes Hc). destruct Hf as [<- Hf]. split.
  - apply window_ext. intros j Hj. apply Hg. lia.
  - apply IH; [lia| |done]. intros i Hi. apply Hg. lia.
Qed.

Lemma extend_below f p v n i : i < p -> extend f p v n i = f i.
Proof. intros Hi. unfold extend. by replace (i <? p) with true by lia. Qed.

Lemma write_codes_run codes : Forall is_code codes -> forall b f pos, writing b f pos -> pos + bit_count codes < 2 ^ 32 ->
  exists b' f', write_codes codes b = Ret (tt, b') /\ writing b' f' (pos + bit_count codes) /\ bs_capacity b' = bs_capacity b /\ zlen (bs_buffer b') = zlen (bs_buffer b) /\
    (forall i, i < pos -> f' i = f i) /\ codes_at f' pos codes.
Proof.
  induction 1 as [|[v n] codes [Hn Hv] Hc IH]; intros b f pos Hw Hmax; cbn [fst snd bit_count write_codes codes_at] in *.
  - exists b, f. rewrite Z.add_0_r. done.
  - pose proof (bit_count_nonneg codes Hc). pose proof (wr_pos _ _ _ Hw) as [Hpos _].
    destruct (write_run b f pos v n Hw Hn Hv ltac:(lia)) as (b1 & E1 & Hw1 & Hc1 & Hl1). destruct (IH b1 _ (pos + n) Hw1 ltac:(lia)) as (b2 & f2 & E2 & Hw2 & Hc2 & Hl2 & Hag & Hat).
    exists b2, f2. rewrite (pbind_ret _ _ _ _ _ E1). split_and!; [done|by rewrite Z.add_assoc|by rewrite Hc2|by rewrite Hl2| | |done].
    + intros i Hi. rewrite Hag by lia. by apply extend_below.
    + destruct (extend_windows f pos v n Hpos ltac:(lia) Hv) as (_ & G & _). rewrite <- G. apply window_ext. intros j Hj. apply Hag. lia.
Qed.

Lemma read_codes_run codes : Forall is_code codes -> forall b pos, reading b pos -> pos + bit_count codes < 2 ^ 32 -> codes_at (bits_of (bs_data b)) pos codes ->
  exists b', read_codes (map snd codes) b = Ret (map fst codes, b') /\ reading b' (pos + bit_count codes) /\ bs_length b' = bs_length b.
Proof.
  induction 1 as [|[v n] codes [Hn Hv] Hc IH]; intros b pos Hr Hmax Hat; cbn [fst snd bit_count read_codes codes_at map] in *.
  - exists b. rewrite Z.add_0_r. done.
  - pose proof (bit_count_nonneg codes Hc). destruct Hat as [Hw Hat]. destruct (shift_run b pos n Hr Hn ltac:(lia)) as (b1 & E1 & Hr1 & Hd1 & Hl1). rewrite <- Hd1 in Hat.
    destruct (IH b1 (pos + n) Hr1 ltac:(lia) Hat) as (b2 & E2 & Hr2 & Hl2). exists b2. rewrite pbind_pget, (pbind_ret _ _ _ _ _ E1), (pbind_ret _ _ _ _ _ E2). split_and!; [|by rewrite Z.add_assoc|by rewrite Hl2].
    unfold pret. do 3 f_equal. rewrite (rd_accumulator _ _ Hr), shiftr_div, (window_cut _ pos (Z.to_nat n) 32), Hw by lia. replace (Z.of_nat (32 - Z.to_nat n)) with (32 - n) by lia.
    pose proof (window_bound (bits_of (bs_data b)) (pos + Z.of_nat (Z.to_nat n)) (32 - Z.to_nat n)) as Hb. replace (Z.of_nat (32 - Z.to_nat n)) with (32 - n) in Hb by lia.
    rewrite Z.add_comm, Z.div_add, Z.div_small by (try apply Z.pow_nonzero; lia). lia.
Qed.

Lemma attach_ok buffer capacity b : Forall is_byte buffer -> 0 <= capacity <= zlen buffer -> capacity < 2 ^ 29 -> bs_ok (BitStream_Attach buffer capacity b).
Proof. intros Hb Hc Hm. split_and!; [exact Hb|exact (proj1 Hc)|exact (proj2 Hc)|exact Hm|]. change (u32 (capacity * 8) = 8 * capacity). rewrite u32_id; lia. Qed.

Lemma attach_writing buffer capacity b : Forall is_byte buffer -> 0 <= capacity <= zlen buffer -> capacity < 2 ^ 29 -> writing (BitStream_Attach buffer capacity b) (fun _ => false) 0.
Proof. intros Hb Hc Hm. constructor; [by apply attach_ok|done|done|done|done|by rewrite window_false by done|intros i Hi; change (0 <= i < 0) in Hi; lia]. Qed.

(** C29: codes that are written one after another into a buffer with room for their bits, and flushed, are
    read back in order by a stream that is attached to the buffer, and both streams are at the end of them. *)
Theorem bitstream_roundtrip codes buffer b c :
  Forall is_byte buffer -> zlen buffer < 2 ^ 29 -> Forall is_code codes -> bit_count codes <= 8 * zlen buffer ->
  runs (pmodify (BitStream_Attach buffer (zlen buffer)) ;; write_codes codes ;; BitStream_Flush) b (fun _ b' =>
    bs_position b' = bit_count codes /\ zlen (bs_buffer b') = zlen buffer /\
    runs (pmodify (BitStream_Attach (bs_buffer b') (zlen buffer)) ;; BitStream_Fetch ;; read_codes (map snd codes)) c (fun vs c' =>
      vs = map fst codes /\ BitStream_GetRemainingLength c' = 8 * zlen buffer - bit_count codes)).
Proof.
  intros Hb Hm Hc Hroom. pose proof (zlen_nonneg buffer). pose proof (bit_count_nonneg codes Hc). set (b0 := BitStream_Attach buffer (zlen buffer) b).
  pose proof (attach_writing buffer (zlen buffer) b Hb ltac:(lia) Hm) as Hw0. destruct (write_codes_run codes Hc b0 _ 0 Hw0 ltac:(lia)) as (b1 & f & E1 & Hw1 & Hcap & Hl1 & _ & Hat).
  rewrite Z.add_0_l in Hw1. change (bs_capacity b0) with (zlen buffer) in Hcap. change (bs_buffer b0) with buffer in Hl1.
  destruct (finish_run b1 f (bit_count codes) Hw1 ltac:(lia)) as (buf & Ef & Hlb & Hbb & Hbits). rewrite Hl1 in Hlb.
  unfold runs at 1. rewrite (pbind_ret _ _ _ tt b0) by reflexivity. rewrite (pbind_ret _ _ _ _ _ E1), Ef. eexists _, _. split; [reflexivity|].
  split; [exact (proj2 (wr_pos _ _ _ Hw1))|]. split; [exact Hlb|]. change (bs_buffer (b1 <| bs_buffer := buf |>)) with buf. set (c0 := BitStream_Attach buf (zlen buffer) c).
  destruct (fetch_run c0) as (c1 & F1 & Hr1 & Hd1 & Hlen1); [apply attach_ok; [done|lia|done]|done..|].
  assert (Hd : bs_data c1 = buf) by (rewrite Hd1; change (ztake (zlen buffer) buf = buf); apply ztake_all; lia).
  destruct (read_codes_run codes Hc c1 0 Hr1 ltac:(lia)) as (c2 & E2 & Hr2 & Hl2).
  { rewrite Hd. apply (codes_at_agree f _ codes Hc 0 ltac:(lia)); [|done]. intros i Hi. rewrite Z.add_0_l in Hi. rewrite <- Hbits, !bits_of_eq, znth_ztake by lia.
    by replace (i / 8 <? (bit_count codes + 7) / 8) with true by (Z.div_mod_to_equations; lia). }
  unfold runs. rewrite (pbind_ret _ _ _ tt c0) by reflexivity. rewrite (pbind_ret _ _ _ _ _ F1). exists (map fst codes), c2. split; [exact E2|]. split; [done|].
  unfold BitStream_GetRemainingLength. rewrite (proj2 (rd_pos _ _ Hr2)), Hl2, Hlen1. change (bs_length c0) with (u32 (zlen buffer * 8)). rewrite (u32_id (zlen buffer * 8)), u32_id by lia. lia.
Qed.

Definition sample_codes : list (Z * Z) := [(5, 3); (0, 1); (0x3FFF1234, 30); (300, 9); (0x7FFFFFFF, 31); (1, 2)].
Lemma bitstream_roundtrip_witness :
  runs (pmodify (BitStream_Attach (zrep 12 7) (zlen (zrep 12 7))) ;; write_codes sample_codes ;; BitStream_Flush) (mkBitStream [] 0 0 0 0 0 0 0 0) (fun _ b' =>
    bs_position b' = bit_count sample_codes /\ zlen (bs_buffer b') = zlen (zrep 12 7) /\
    runs (pmodify (BitStream_Attach (bs_buffer b') (zlen (zrep 12 7))) ;; BitStream_Fetch ;; read_codes (map snd sample_codes)) (mkBitStream [] 0 0 0 0 0 0 0 0) (fun vs c' =>
      vs = map fst sample_codes /\ BitStream_GetRemainingLength c' = 8 * zlen (zrep 12 7) - bit_count sample_codes)).
Proof. apply bitstream_roundtrip; [by apply Forall_zrep|done|repeat constructor; done|done]. Defined.
