(* ===== verification/Mppc.v ===== *)
(** * MPPC bulk compression: [libfreerdp/codec/mppc.c]

    A compressor and a decompressor keep the same history of what went over the line.  A packet is a
    sequence of literals and of copies from the history, written as bits; a packet that does not get
    smaller goes as it is, and both histories are cleared. *)

From S2P Require Import Prelude Memory BitStream.

(** ** Model *)

Definition PACKET_COMPRESSED : Z := 0x20.
Definition PACKET_AT_FRONT : Z := 0x40.
Definition PACKET_FLUSHED : Z := 0x80.

(** Pointers into [HistoryBuffer] are offsets. *)
Record MPPC_CONTEXT : Type := mkMppc {
  mppc_bs : wBitStream;
  mppc_Compressor : bool;
  mppc_HistoryPtr : Z;
  mppc_HistoryOffset : Z;
  mppc_HistoryBufferSize : Z;
  mppc_HistoryBuffer : list Z;
  mppc_MatchBuffer : list Z;
  mppc_CompressionLevel : Z
}.
#[global] Instance eta_MPPC_CONTEXT : Eta MPPC_CONTEXT := fun c =>
  mkMppc (mppc_bs c) (mppc_Compressor c) (mppc_HistoryPtr c) (mppc_HistoryOffset c) (mppc_HistoryBufferSize c)
    (mppc_HistoryBuffer c) (mppc_MatchBuffer c) (mppc_CompressionLevel c).

Definition MPPC_MATCH_TABLE : list Z :=
  [0x00000000; 0x009CCF93; 0x01399F26; 0x01D66EB9; 0x02733E4C; 0x03100DDF; 0x03ACDD72; 0x0449AD05;
   0x04E67C98; 0x05834C2B; 0x06201BBE; 0x06BCEB51; 0x0759BAE4; 0x07F68A77; 0x08935A0A; 0x0930299D;
   0x09CCF930; 0x0A69C8C3; 0x0B069856; 0x0BA367E9; 0x0C40377C; 0x0CDD070F; 0x0D79D6A2; 0x0E16A635;
   0x0EB375C8; 0x0F50455B; 0x0FED14EE; 0x1089E481; 0x1126B414; 0x11C383A7; 0x1260533A; 0x12FD22CD;
   0x1399F260; 0x1436C1F3; 0x14D39186; 0x15706119; 0x160D30AC; 0x16AA003F; 0x1746CFD2; 0x17E39F65;
   0x18806EF8; 0x191D3E8B; 0x19BA0E1E; 0x1A56DDB1; 0x1AF3AD44; 0x1B907CD7; 0x1C2D4C6A; 0x1CCA1BFD;
   0x1D66EB90; 0x1E03BB23; 0x1EA08AB6; 0x1F3D5A49; 0x1FDA29DC; 0x2076F96F; 0x2113C902; 0x21B09895;
   0x224D6828; 0x22EA37BB; 0x2387074E; 0x2423D6E1; 0x24C0A674; 0x255D7607; 0x25FA459A; 0x2697152D;
   0x2733E4C0; 0x27D0B453; 0x286D83E6; 0x290A5379; 0x29A7230C; 0x2A43F29F; 0x2AE0C232; 0x2B7D91C5;
   0x2C1A6158; 0x2CB730EB; 0x2D54007E; 0x2DF0D011; 0x2E8D9FA4; 0x2F2A6F37; 0x2FC73ECA; 0x30640E5D;
   0x3100DDF0; 0x319DAD83; 0x323A7D16; 0x32D74CA9; 0x33741C3C; 0x3410EBCF; 0x34ADBB62; 0x354A8AF5;
   0x35E75A88; 0x36842A1B; 0x3720F9AE; 0x37BDC941; 0x385A98D4; 0x38F76867; 0x399437FA; 0x3A31078D;
   0x3ACDD720; 0x3B6AA6B3; 0x3C077646; 0x3CA445D9; 0x3D41156C; 0x3DDDE4FF; 0x3E7AB492; 0x3F178425;
   0x3FB453B8; 0x4051234B; 0x40EDF2DE; 0x418AC271; 0x42279204; 0x42C46197; 0x4361312A; 0x43FE00BD;
   0x449AD050; 0x45379FE3; 0x45D46F76; 0x46713F09; 0x470E0E9C; 0x47AADE2F; 0x4847ADC2; 0x48E47D55;
   0x49814CE8; 0x4A1E1C7B; 0x4ABAEC0E; 0x4B57BBA1; 0x4BF48B34; 0x4C915AC7; 0x4D2E2A5A; 0x4DCAF9ED;
   0x4E67C980; 0x4F049913; 0x4FA168A6; 0x503E3839; 0x50DB07CC; 0x5177D75F; 0x5214A6F2; 0x52B17685;
   0x534E4618; 0x53EB15AB; 0x5487E53E; 0x5524B4D1; 0x55C18464; 0x565E53F7; 0x56FB238A; 0x5797F31D;
   0x5834C2B0; 0x58D19243; 0x596E61D6; 0x5A0B3169; 0x5AA800FC; 0x5B44D08F; 0x5BE1A022; 0x5C7E6FB5;
   0x5D1B3F48; 0x5DB80EDB; 0x5E54DE6E; 0x5EF1AE01; 0x5F8E7D94; 0x602B4D27; 0x60C81CBA; 0x6164EC4D;
   0x6201BBE0; 0x629E8B73; 0x633B5B06; 0x63D82A99; 0x6474FA2C; 0x6511C9BF; 0x65AE9952; 0x664B68E5;
   0x66E83878; 0x6785080B; 0x6821D79E; 0x68BEA731; 0x695B76C4; 0x69F84657; 0x6A9515EA; 0x6B31E57D;
   0x6BCEB510; 0x6C6B84A3; 0x6D085436; 0x6DA523C9; 0x6E41F35C; 0x6EDEC2EF; 0x6F7B9282; 0x70186215;
   0x70B531A8; 0x7152013B; 0x71EED0CE; 0x728BA061; 0x73286FF4; 0x73C53F87; 0x74620F1A; 0x74FEDEAD;
   0x759BAE40; 0x76387DD3; 0x76D54D66; 0x77721CF9; 0x780EEC8C; 0x78ABBC1F; 0x79488BB2; 0x79E55B45;
   0x7A822AD8; 0x7B1EFA6B; 0x7BBBC9FE; 0x7C589991; 0x7CF56924; 0x7D9238B7; 0x7E2F084A; 0x7ECBD7DD;
   0x7F68A770; 0x80057703; 0x80A24696; 0x813F1629; 0x81DBE5BC; 0x8278B54F; 0x831584E2; 0x83B25475;
   0x844F2408; 0x84EBF39B; 0x8588C32E; 0x862592C1; 0x86C26254; 0x875F31E7; 0x87FC017A; 0x8898D10D;
   0x8935A0A0; 0x89D27033; 0x8A6F3FC6; 0x8B0C0F59; 0x8BA8DEEC; 0x8C45AE7F; 0x8CE27E12; 0x8D7F4DA5;
   0x8E1C1D38; 0x8EB8ECCB; 0x8F55BC5E; 0x8FF28BF1; 0x908F5B84; 0x912C2B17; 0x91C8FAAA; 0x9265CA3D;
   0x930299D0; 0x939F6963; 0x943C38F6; 0x94D90889; 0x9575D81C; 0x9612A7AF; 0x96AF7742; 0x974C46D5;
   0x97E91668; 0x9885E5FB; 0x9922B58E; 0x99BF8521; 0x9A5C54B4; 0x9AF92447; 0x9B95F3DA; 0x9C32C36D].

Definition MPPC_MATCH_INDEX (Sym1 Sym2 Sym3 : Z) : Z :=
  Z.shiftr (Z.land (u32 (u32 (u32 (Z.shiftl (znth MPPC_MATCH_TABLE Sym3) 16) + u32 (Z.shiftl (znth MPPC_MATCH_TABLE Sym2) 8))
                         + znth MPPC_MATCH_TABLE Sym1)) 0x07FFF000) 12.

Definition on_bs {A} (m : Prog wBitStream A) : Prog MPPC_CONTEXT A := pzoom mppc_bs (fun b c => c <| mppc_bs := b |>) m.

(** [HistoryBuffer[i] = v] *)
Definition history_set (i v : Z) : Prog MPPC_CONTEXT unit :=
  c <- pget ;; H <- plift (slot_set i v (mppc_HistoryBuffer c)) ;; pmodify (fun c => c <| mppc_HistoryBuffer := H |>).

(** *** Decompressor *)

(** What a copy's offset is and how many bits it takes, or the error. *)
Definition decode_offset (CompressionLevel accumulator : Z) : Z + Z * Z :=
  if negb (CompressionLevel =? 0) then
    if Z.land accumulator 0xF8000000 =? 0xF8000000 then inr (Z.land (Z.shiftr accumulator 21) 0x3F, 11)
    else if Z.land accumulator 0xF8000000 =? 0xF0000000 then inr (Z.land (Z.shiftr accumulator 19) 0xFF + 64, 13)
    else if Z.land accumulator 0xF0000000 =? 0xE0000000 then inr (Z.land (Z.shiftr accumulator 17) 0x7FF + 320, 15)
    else if Z.land accumulator 0xE0000000 =? 0xC0000000 then inr (Z.land (Z.shiftr accumulator 13) 0xFFFF + 2368, 19)
    else inl (-1001)
  else
    if Z.land accumulator 0xF0000000 =? 0xF0000000 then inr (Z.land (Z.shiftr accumulator 22) 0x3F, 10)
    else if Z.land accumulator 0xF0000000 =? 0xE0000000 then inr (Z.land (Z.shiftr accumulator 20) 0xFF + 64, 12)
    else if Z.land accumulator 0xE0000000 =? 0xC0000000 then inr (Z.land (Z.shiftr accumulator 16) 0x1FFF + 320, 16)
    else inl (-1002).

(** What a copy's length is and how many bits it takes. *)
Definition decode_length (CompressionLevel accumulator : Z) : option (Z * Z) :=
  if Z.land accumulator 0x80000000 =? 0 then Some (3, 1)
  else if Z.land accumulator 0xC0000000 =? 0x80000000 then Some (Z.land (Z.shiftr accumulator 28) 0x0003 + 0x0004, 4)
  else if Z.land accumulator 0xE0000000 =? 0xC0000000 then Some (Z.land (Z.shiftr accumulator 26) 0x0007 + 0x0008, 6)
  else if Z.land accumulator 0xF0000000 =? 0xE0000000 then Some (Z.land (Z.shiftr accumulator 24) 0x000F + 0x0010, 8)
  else if Z.land accumulator 0xF8000000 =? 0xF0000000 then Some (Z.land (Z.shiftr accumulator 22) 0x001F + 0x0020, 10)
  else if Z.land accumulator 0xFC000000 =? 0xF8000000 then Some (Z.land (Z.shiftr accumulator 20) 0x003F + 0x0040, 12)
  else if Z.land accumulator 0xFE000000 =? 0xFC000000 then Some (Z.land (Z.shiftr accumulator 18) 0x007F + 0x0080, 14)
  else if Z.land accumulator 0xFF000000 =? 0xFE000000 then Some (Z.land (Z.shiftr accumulator 16) 0x00FF + 0x0100, 16)
  else if Z.land accumulator 0xFF800000 =? 0xFF000000 then Some (Z.land (Z.shiftr accumulator 14) 0x01FF + 0x0200, 18)
  else if Z.land accumulator 0xFFC00000 =? 0xFF800000 then Some (Z.land (Z.shiftr accumulator 12) 0x03FF + 0x0400, 20)
  else if Z.land accumulator 0xFFE00000 =? 0xFFC00000 then Some (Z.land (Z.shiftr accumulator 10) 0x07FF + 0x0800, 22)
  else if Z.land accumulator 0xFFF00000 =? 0xFFE00000 then Some (Z.land (Z.shiftr accumulator 8) 0x0FFF + 0x1000, 24)
  else if (Z.land accumulator 0xFFF80000 =? 0xFFF00000) && negb (CompressionLevel =? 0) then Some (Z.land (Z.shiftr accumulator 6) 0x1FFF + 0x2000, 26)
  else if (Z.land accumulator 0xFFFC0000 =? 0xFFF80000) && negb (CompressionLevel =? 0) then Some (Z.land (Z.shiftr accumulator 4) 0x3FFF + 0x4000, 28)
  else if (Z.land accumulator 0xFFFE0000 =? 0xFFFC0000) && negb (CompressionLevel =? 0) then Some (Z.land (Z.shiftr accumulator 2) 0x7FFF + 0x8000, 30)
  else None.

(** [do *HistoryPtr++ = *SrcPtr++; while (--LengthOfMatch)] *)
Fixpoint copy_match (LengthOfMatch : nat) (SrcPtr HistoryPtr : Z) : Prog MPPC_CONTEXT unit :=
  match LengthOfMatch with
  | O => pret tt
  | S n =>
      c <- pget ;; v <- plift (slot_get SrcPtr (mppc_HistoryBuffer c)) ;; history_set HistoryPtr v ;;
      copy_match n (SrcPtr + 1) (HistoryPtr + 1)
  end.

(** A copy; the result is an error or the next [HistoryPtr]. *)
Definition decompress_copy (HistoryPtr : Z) : Prog MPPC_CONTEXT (Z + Z) :=
  c <- pget ;;
  let CompressionLevel := mppc_CompressionLevel c in
  match decode_offset CompressionLevel (bs_accumulator (mppc_bs c)) with
  | inl e => pret (inl e)
  | inr (CopyOffset, n) =>
      on_bs (BitStream_Shift n) ;;
      c <- pget ;;
      match decode_length CompressionLevel (bs_accumulator (mppc_bs c)) with
      | None => pret (inl (-1003))
      | Some (LengthOfMatch, n) =>
          on_bs (BitStream_Shift n) ;;
          if mppc_HistoryBufferSize c - 1 <? HistoryPtr + LengthOfMatch - 1 then pret (inl (-1005))
          else
            copy_match (Z.to_nat LengthOfMatch) (Z.land (HistoryPtr - CopyOffset) (if CompressionLevel =? 0 then 0x1FFF else 0xFFFF)) HistoryPtr ;;
            pret (inr (HistoryPtr + LengthOfMatch))
      end
  end.

(** The body of the loop. *)
Definition decompress_token (HistoryPtr : Z) : Prog MPPC_CONTEXT (Z + Z) :=
  c <- pget ;;
  let accumulator := bs_accumulator (mppc_bs c) in
  if mppc_HistoryBufferSize c - 1 <? HistoryPtr then pret (inl (-1004))
  else if Z.land accumulator 0x80000000 =? 0 then
    history_set HistoryPtr (u8 (Z.shiftr (Z.land accumulator 0x7F000000) 24)) ;; on_bs (BitStream_Shift 8) ;; pret (inr (HistoryPtr + 1))
  else if Z.land accumulator 0xC0000000 =? 0x80000000 then
    history_set HistoryPtr (u8 (Z.shiftr (Z.land accumulator 0x3F800000) 23 + 0x80)) ;; on_bs (BitStream_Shift 9) ;; pret (inr (HistoryPtr + 1))
  else decompress_copy HistoryPtr.

Fixpoint decompress_loop (fuel : nat) (HistoryPtr : Z) : Prog MPPC_CONTEXT (Z + Z) :=
  match fuel with
  | O => fun _ => Hang
  | S fuel =>
      c <- pget ;;
      if 8 <=? u32 (bs_length (mppc_bs c) - bs_position (mppc_bs c)) then
        r <- decompress_token HistoryPtr ;;
        match r with inl e => pret (inl e) | inr h => decompress_loop fuel h end
      else pret (inr HistoryPtr)
  end.

(** Where [*ppDstData] points to. *)
Inductive mppc_data : Type := data_source | data_buffer | data_history (offset : Z).
(** The result, [*ppDstData] and [*pDstSize] when it is 1. *)
Definition mppc_result : Type := Z * option (mppc_data * Z).

(** The history of a packet that starts at the front, and of one before which the history was cleared. *)
Definition history_restart (flags : Z) (c : MPPC_CONTEXT) : MPPC_CONTEXT :=
  let c := if Z.land flags PACKET_AT_FRONT =? 0 then c else c <| mppc_HistoryOffset := 0 |> <| mppc_HistoryPtr := 0 |> in
  if Z.land flags PACKET_FLUSHED =? 0 then c
  else c <| mppc_HistoryOffset := 0 |> <| mppc_HistoryPtr := 0 |>
         <| mppc_HistoryBuffer := splice 0 (zrep (mppc_HistoryBufferSize c) 0) (mppc_HistoryBuffer c) |>.

Definition mppc_decompress (pSrcData : list Z) (SrcSize flags : Z) : Prog MPPC_CONTEXT mppc_result :=
  on_bs (pmodify (BitStream_Attach pSrcData SrcSize)) ;;
  on_bs BitStream_Fetch ;;
  pmodify (history_restart flags) ;;
  c <- pget ;;
  if Z.land flags PACKET_COMPRESSED =? 0 then pret (1, Some (data_source, SrcSize))
  else
    r <- decompress_loop (S (Z.to_nat (mppc_HistoryBufferSize c))) (mppc_HistoryPtr c) ;;
    match r with
    | inl e => pret (e, None)
    | inr HistoryPtr =>
        pmodify (fun c => c <| mppc_HistoryPtr := HistoryPtr |>) ;;
        pret (1, Some (data_history (mppc_HistoryPtr c), u32 (HistoryPtr - mppc_HistoryPtr c)))
    end.

(** *** Compressor *)

Definition mppc_set_compression_level (CompressionLevel : Z) (c : MPPC_CONTEXT) : MPPC_CONTEXT :=
  if CompressionLevel <? 1 then c <| mppc_CompressionLevel := 0 |> <| mppc_HistoryBufferSize := 8192 |>
  else c <| mppc_CompressionLevel := 1 |> <| mppc_HistoryBufferSize := 65536 |>.

Definition mppc_context_reset (flush : bool) (c : MPPC_CONTEXT) : MPPC_CONTEXT :=
  let c := c <| mppc_HistoryBuffer := zrep 65536 0 |> <| mppc_MatchBuffer := zrep 32768 0 |> in
  if flush then c <| mppc_HistoryOffset := u32 (mppc_HistoryBufferSize c + 1) |> <| mppc_HistoryPtr := 0 |>
  else c <| mppc_HistoryOffset := 0 |> <| mppc_HistoryPtr := 0 |>.

Definition mppc_context_new `{Malloc} (CompressionLevel : Z) (Compressor : bool) : option MPPC_CONTEXT :=
  if malloc_ok 131120 then
    match BitStream_New with
    | None => None
    | Some bs => Some (mppc_context_reset false (mppc_set_compression_level CompressionLevel
                         (mkMppc bs Compressor 0 0 0 (zrep 65536 0) (zrep 32768 0) 0)))
    end
  else None.

(** The bits of a literal and their number. *)
Definition literal_code (accumulator : Z) : Z * Z :=
  if accumulator <? 0x80 then (accumulator, 8) else (Z.lor 0x100 (Z.land accumulator 0x7F), 9).

(** The bits of a copy's offset; for some offsets nothing is written. *)
Definition offset_code (CompressionLevel CopyOffset : Z) : option (Z * Z) :=
  if negb (CompressionLevel =? 0) then
    if CopyOffset <? 64 then Some (Z.lor 0x07C0 (Z.land CopyOffset 0x003F), 11)
    else if (64 <=? CopyOffset) && (CopyOffset <? 320) then Some (Z.lor 0x1E00 (Z.land (CopyOffset - 64) 0x00FF), 13)
    else if (320 <=? CopyOffset) && (CopyOffset <? 2368) then Some (Z.lor 0x7000 (Z.land (CopyOffset - 320) 0x07FF), 15)
    else Some (Z.lor 0x060000 (Z.land (CopyOffset - 2368) 0xFFFF), 19)
  else
    if CopyOffset <? 64 then Some (Z.lor 0x03C0 (Z.land CopyOffset 0x003F), 10)
    else if (64 <=? CopyOffset) && (CopyOffset <? 320) then Some (Z.lor 0x0E00 (Z.land (CopyOffset - 64) 0x00FF), 12)
    else if (320 <=? CopyOffset) && (CopyOffset <? 8192) then Some (Z.lor 0xC000 (Z.land (CopyOffset - 320) 0x1FFF), 16)
    else None.

Definition length_code (CompressionLevel LengthOfMatch : Z) : option (Z * Z) :=
  if LengthOfMatch =? 3 then Some (0, 1)
  else if (4 <=? LengthOfMatch) && (LengthOfMatch <? 8) then Some (Z.lor 0x0008 (Z.land LengthOfMatch 0x0003), 4)
  else if (8 <=? LengthOfMatch) && (LengthOfMatch <? 16) then Some (Z.lor 0x0030 (Z.land LengthOfMatch 0x0007), 6)
  else if (16 <=? LengthOfMatch) && (LengthOfMatch <? 32) then Some (Z.lor 0x00E0 (Z.land LengthOfMatch 0x000F), 8)
  else if (32 <=? LengthOfMatch) && (LengthOfMatch <? 64) then Some (Z.lor 0x03C0 (Z.land LengthOfMatch 0x001F), 10)
  else if (64 <=? LengthOfMatch) && (LengthOfMatch <? 128) then Some (Z.lor 0x0F80 (Z.land LengthOfMatch 0x003F), 12)
  else if (128 <=? LengthOfMatch) && (LengthOfMatch <? 256) then Some (Z.lor 0x3F00 (Z.land LengthOfMatch 0x007F), 14)
  else if (256 <=? LengthOfMatch) && (LengthOfMatch <? 512) then Some (Z.lor 0xFE00 (Z.land LengthOfMatch 0x00FF), 16)
  else if (512 <=? LengthOfMatch) && (LengthOfMatch <? 1024) then Some (Z.lor 0x3FC00 (Z.land LengthOfMatch 0x01FF), 18)
  else if (1024 <=? LengthOfMatch) && (LengthOfMatch <? 2048) then Some (Z.lor 0xFF800 (Z.land LengthOfMatch 0x03FF), 20)
  else if (2048 <=? LengthOfMatch) && (LengthOfMatch <? 4096) then Some (Z.lor 0x3FF000 (Z.land LengthOfMatch 0x07FF), 22)
  else if (4096 <=? LengthOfMatch) && (LengthOfMatch <? 8192) then Some (Z.lor 0xFFE000 (Z.land LengthOfMatch 0x0FFF), 24)
  else if (8192 <=? LengthOfMatch) && (LengthOfMatch <? 16384) && negb (CompressionLevel =? 0) then Some (Z.lor 0x3FFC000 (Z.land LengthOfMatch 0x1FFF), 26)
  else if (16384 <=? LengthOfMatch) && (LengthOfMatch <? 32768) && negb (CompressionLevel =? 0) then Some (Z.lor 0xFFF8000 (Z.land LengthOfMatch 0x3FFF), 28)
  else if (32768 <=? LengthOfMatch) && (LengthOfMatch <? 65536) && negb (CompressionLevel =? 0) then Some (Z.lor 0x3FFF0000 (Z.land LengthOfMatch 0x7FFF), 30)
  else None.

Definition write_code (code : option (Z * Z)) : Prog MPPC_CONTEXT unit :=
  match code with Some (v, n) => on_bs (BitStream_Write_Bits v n) | None => pret tt end.

(** [HistoryBuffer[i]]; the byte in front of the array is read when a match entry is 0. *)
Definition history_get (before i : Z) (c : MPPC_CONTEXT) : outcome Z :=
  if i =? -1 then Ret before else slot_get i (mppc_HistoryBuffer c).

(** The test that there is no match at [MatchPtr]. *)
Definition no_match (before Sym1 Sym2 Sym3 MatchPtr HistoryPtr : Z) : Prog MPPC_CONTEXT bool :=
  c <- pget ;;
  m0 <- plift (history_get before (MatchPtr - 1) c) ;;
  if negb (Sym1 =? m0) then pret true
  else
    m1 <- plift (slot_get MatchPtr (mppc_HistoryBuffer c)) ;;
    if negb (Sym2 =? m1) then pret true
    else
      m2 <- plift (slot_get (MatchPtr + 1) (mppc_HistoryBuffer c)) ;;
      pret (negb (Sym3 =? m2) || (mppc_HistoryPtr c <? MatchPtr + 1) || (MatchPtr =? 0) || (MatchPtr =? HistoryPtr - 1) || (MatchPtr =? HistoryPtr)).

(** The loop that makes a match longer; the result is [pSrcPtr], [HistoryPtr] and [LengthOfMatch]. *)
Fixpoint extend_match (fuel : nat) (src : list Z) (pSrcPtr pSrcEnd MatchPtr HistoryPtr LengthOfMatch : Z) : Prog MPPC_CONTEXT (Z * Z * Z) :=
  match fuel with
  | O => fun _ => Hang
  | S fuel =>
      c <- pget ;;
      s <- plift (slot_get pSrcPtr src) ;;
      m <- plift (slot_get MatchPtr (mppc_HistoryBuffer c)) ;;
      if (s =? m) && (pSrcPtr <? pSrcEnd) && (MatchPtr <=? mppc_HistoryPtr c) then
        history_set HistoryPtr s ;;
        extend_match fuel src (pSrcPtr + 1) pSrcEnd (MatchPtr + 1) (HistoryPtr + 1) (LengthOfMatch + 1)
      else pret (pSrcPtr, HistoryPtr, LengthOfMatch)
  end.

(** [(position / 8) + n > DstSize - 1] *)
Definition no_room (n DstSize : Z) (c : MPPC_CONTEXT) : bool := u32 (DstSize - 1) <? u32 (bs_position (mppc_bs c) / 8 + n).

(** [MatchPtr]; the position and the end of the history are noted. *)
Definition match_update (MatchIndex HistoryPtr : Z) : Prog MPPC_CONTEXT Z :=
  c <- pget ;;
  MatchPtr <- plift (slot_get MatchIndex (mppc_MatchBuffer c)) ;;
  (if negb (MatchPtr =? HistoryPtr - 1) then
     MB <- plift (slot_set MatchIndex (u16 HistoryPtr) (mppc_MatchBuffer c)) ;; pmodify (fun c => c <| mppc_MatchBuffer := MB |>)
   else pret tt) ;;
  (if mppc_HistoryPtr c <? HistoryPtr then pmodify (fun c => c <| mppc_HistoryPtr := HistoryPtr |>) else pret tt) ;;
  pret MatchPtr.

(** A copy; the result is the next [pSrcPtr] and [HistoryPtr], or that there is no room. *)
Definition compress_copy (src : list Z) (pSrcEnd DstSize Sym2 Sym3 MatchPtr pSrcPtr HistoryPtr : Z) : Prog MPPC_CONTEXT (option (Z * Z)) :=
  c <- pget ;;
  let CopyOffset := u32 (Z.land (mppc_HistoryBufferSize c - 1) (HistoryPtr - MatchPtr)) in
  history_set HistoryPtr Sym2 ;;
  history_set (HistoryPtr + 1) Sym3 ;;
  r <- extend_match (length src) src (pSrcPtr + 2) pSrcEnd (MatchPtr + 2) (HistoryPtr + 2) 3 ;;
  let '(pSrcPtr, HistoryPtr, LengthOfMatch) := r in
  if no_room 7 DstSize c then pret None
  else
    write_code (offset_code (mppc_CompressionLevel c) CopyOffset) ;;
    write_code (length_code (mppc_CompressionLevel c) LengthOfMatch) ;;
    pret (Some (pSrcPtr, HistoryPtr)).

(** The body of the first loop. *)
Definition compress_step (before : Z) (src : list Z) (pSrcEnd DstSize pSrcPtr HistoryPtr : Z) : Prog MPPC_CONTEXT (option (Z * Z)) :=
  Sym1 <- plift (slot_get pSrcPtr src) ;;
  Sym2 <- plift (slot_get (pSrcPtr + 1) src) ;;
  Sym3 <- plift (slot_get (pSrcPtr + 2) src) ;;
  history_set HistoryPtr Sym1 ;;
  let pSrcPtr := pSrcPtr + 1 in
  let HistoryPtr := HistoryPtr + 1 in
  MatchPtr <- match_update (MPPC_MATCH_INDEX Sym1 Sym2 Sym3) HistoryPtr ;;
  b <- no_match before Sym1 Sym2 Sym3 MatchPtr HistoryPtr ;;
  c <- pget ;;
  if b then
    if no_room 2 DstSize c then pret None
    else write_code (Some (literal_code Sym1)) ;; pret (Some (pSrcPtr, HistoryPtr))
  else compress_copy src pSrcEnd DstSize Sym2 Sym3 MatchPtr pSrcPtr HistoryPtr.

Fixpoint compress_loop (fuel : nat) (before : Z) (src : list Z) (pSrcEnd DstSize pSrcPtr HistoryPtr : Z) : Prog MPPC_CONTEXT (option (Z * Z)) :=
  match fuel with
  | O => fun _ => Hang
  | S fuel =>
      if pSrcPtr <? pSrcEnd - 2 then
        r <- compress_step before src pSrcEnd DstSize pSrcPtr HistoryPtr ;;
        match r with None => pret None | Some (p, h) => compress_loop fuel before src pSrcEnd DstSize p h end
      else pret (Some (pSrcPtr, HistoryPtr))
  end.

(** The symbols that are left. *)
Fixpoint compress_trailing (fuel : nat) (src : list Z) (pSrcEnd DstSize pSrcPtr HistoryPtr : Z) : Prog MPPC_CONTEXT (option Z) :=
  match fuel with
  | O => fun _ => Hang
  | S fuel =>
      if pSrcPtr <=? pSrcEnd then
        c <- pget ;;
        if no_room 2 DstSize c then pret None
        else
          accumulator <- plift (slot_get pSrcPtr src) ;;
          write_code (Some (literal_code accumulator)) ;;
          history_set HistoryPtr accumulator ;;
          compress_trailing fuel src pSrcEnd DstSize (pSrcPtr + 1) (HistoryPtr + 1)
      else pret (Some HistoryPtr)
  end.

(** The packet goes as it is: the result, [*ppDstData] with [*pDstSize], and [*pFlags]. *)
Definition compress_gives_up (SrcSize : Z) : Prog MPPC_CONTEXT (mppc_result * Z) :=
  pmodify (mppc_context_reset true) ;;
  c <- pget ;;
  pret ((1, Some (data_source, SrcSize)), Z.lor PACKET_FLUSHED (mppc_CompressionLevel c)).

Definition mppc_compress (before : Z) (pSrcData : list Z) (SrcSize : Z) (pDstBuffer : list Z) (pDstSize : Z) : Prog MPPC_CONTEXT (mppc_result * Z) :=
  c <- pget ;;
  let HistoryBufferSize := mppc_HistoryBufferSize c in
  let CompressionLevel := mppc_CompressionLevel c in
  let '(HistoryOffset, PacketAtFront, PacketFlushed) :=
    if (u32 (mppc_HistoryOffset c + SrcSize) <? u32 (HistoryBufferSize - 3)) && negb (mppc_HistoryOffset c =? 0) then (mppc_HistoryOffset c, false, false)
    else (0, true, mppc_HistoryOffset c =? u32 (HistoryBufferSize + 1)) in
  let DstSize := if SrcSize <? pDstSize then SrcSize else pDstSize in
  on_bs (pmodify (BitStream_Attach pDstBuffer DstSize)) ;;
  let pSrcEnd := u32 (SrcSize - 1) in
  r <- compress_loop (S (length pSrcData)) before pSrcData pSrcEnd DstSize 0 HistoryOffset ;;
  match r with
  | None => compress_gives_up SrcSize
  | Some (pSrcPtr, HistoryPtr) =>
      r <- compress_trailing (S (length pSrcData)) pSrcData pSrcEnd DstSize pSrcPtr HistoryPtr ;;
      match r with
      | None => compress_gives_up SrcSize
      | Some HistoryPtr =>
          on_bs BitStream_Flush ;;
          pmodify (fun c => c <| mppc_HistoryPtr := HistoryPtr |> <| mppc_HistoryOffset := u32 HistoryPtr |>) ;;
          c <- pget ;;
          pret ((1, Some (data_buffer, u32 (bs_position (mppc_bs c) + 7) / 8)),
                Z.lor (Z.lor (Z.lor PACKET_COMPRESSED CompressionLevel) (if PacketAtFront then PACKET_AT_FRONT else 0))
                  (if PacketFlushed then PACKET_FLUSHED else 0))
      end
  end.

(** ** Codes *)

(** A test of the first bits, as a range. *)
Lemma prefix_test m c acc j p : 0 <= j <= 32 -> 0 <= acc < 2 ^ 32 -> m = 2 ^ 32 - 2 ^ j -> c = p * 2 ^ j ->
  (Z.land acc m =? c) = (c <=? acc) && (acc <? c + 2 ^ j).
Proof.
  intros Hj Ha -> ->. assert (E : Z.land acc (2 ^ 32 - 2 ^ j) = acc / 2 ^ j * 2 ^ j).
  { replace (2 ^ 32 - 2 ^ j) with (Z.shiftl (Z.ones (32 - j)) j).
    2: { rewrite shiftl_mul, Z.ones_equiv by lia. replace (2 ^ 32) with (2 ^ (32 - j) * 2 ^ j) by (rewrite <- pow_split by lia; f_equal; lia). lia. }
    rewrite <- shiftr_div, <- shiftl_mul by lia. apply Z.bits_inj'. intros i Hi. rewrite Z.land_spec, !Z.shiftl_spec by lia.
    destruct (decide (i < j)); [by rewrite !(Z.testbit_neg_r _ (i - j)), andb_false_r by lia|]. rewrite Z.shiftr_spec by lia. replace (i - j + j) with i by lia.
    destruct (decide (i < 32)); [by rewrite Z.ones_spec_low, andb_true_r by lia|]. by rewrite (high_bit acc 32 i) by lia. }
  rewrite E. assert (Hp : 0 < 2 ^ j) by (apply Z.pow_pos_nonneg; lia). pose proof (Z.div_mod acc (2 ^ j)). pose proof (Z.mod_pos_bound acc (2 ^ j) Hp).
  destruct (decide (acc / 2 ^ j = p)) as [<-|Hne]; [rewrite Z.eqb_refl; symmetry; lia|].
  assert (acc / 2 ^ j < p \/ p < acc / 2 ^ j) as [?|?] by lia; replace (_ =? _) with false by nia; symmetry; nia.
Qed.

(** The tests of the codes as ranges of the accumulator. *)
Ltac prefix_ranges acc :=
  repeat match goal with
  | |- context [Z.land acc ?m =? ?c] =>
      let j := eval vm_compute in (Z.log2 (2 ^ 32 - m)) in let p := eval vm_compute in (c / 2 ^ j) in let e := eval vm_compute in (c + 2 ^ j) in
      rewrite (prefix_test m c acc j p) by (lia || reflexivity); change (c + 2 ^ j) with e
  end.

Lemma code_bits p x k m : 0 <= k -> m = 2 ^ k - 1 -> p = p / 2 ^ k * 2 ^ k -> Z.lor p (Z.land x m) = p + x mod 2 ^ k.
Proof.
  intros Hk -> Hp. rewrite land_mask by lia. rewrite Hp at 1. rewrite lor_add by (try apply Z.mod_pos_bound; try apply Z.pow_pos_nonneg; lia). by rewrite <- Hp.
Qed.

(** The number [v] in [n] bits at the front of the accumulator. *)
Definition holds_code (acc v n : Z) : Prop := 0 <= acc < 2 ^ 32 /\ acc / 2 ^ (32 - n) = v.

(** A code, and what the decoder gets from any accumulator that starts with it. *)
Ltac code_case k :=
  let acc := fresh "acc" in
  lazymatch goal with
  | |- context [Z.lor ?p (Z.land ?x ?m)] => rewrite (code_bits p x k m) by (lia || reflexivity)
  | _ => idtac
  end;
  eexists _, _; split; [reflexivity|]; split; [lia|]; split; [Z.div_mod_to_equations; lia|];
  intros acc [Hacc Hv];
  match type of Hv with _ / 2 ^ ?d = _ => let s := eval vm_compute in d in change d with s in Hv end;
  prefix_ranges acc;
  repeat match goal with
  | |- context [if ?b then _ else _] => first [replace b with false by (Z.div_mod_to_equations; lia) | replace b with true by (Z.div_mod_to_equations; lia)]
  end.

(** The field behind the prefix. *)
Lemma code_field acc s k m v : 0 <= s -> 0 <= k -> m = 2 ^ k - 1 -> acc / 2 ^ s = v -> Z.land (Z.shiftr acc s) m = v mod 2 ^ k.
Proof. intros Hs Hk -> Hv. by rewrite shiftr_div, Hv, land_mask by lia. Qed.
Ltac code_value k :=
  match goal with Hv : ?acc / 2 ^ ?s = ?v |- context [Z.land (Z.shiftr ?acc ?s') ?m] => rewrite (code_field acc s' k m v) by (lia || reflexivity || exact Hv) end;
  do 2 f_equal; Z.div_mod_to_equations; lia.
(** The number of bits in the mask of the code in the goal. *)
Ltac code_width tac :=
  lazymatch goal with |- context [Z.lor ?p (Z.land ?x ?m)] => let k := eval vm_compute in (Z.log2 (m + 1)) in tac k end.
Ltac length_case := code_width ltac:(fun k => code_case k; code_value k).

Lemma length_code_spec lvl L : (lvl = 0 /\ 3 <= L < 8192) \/ (lvl = 1 /\ 3 <= L < 65536) ->
  exists v n, length_code lvl L = Some (v, n) /\ 0 < n <= 30 /\ 0 <= v < 2 ^ n /\
    forall acc, holds_code acc v n -> decode_length lvl acc = Some (L, n).
Proof.
  intros Hl. assert (El : negb (lvl =? 0) = (lvl =? 1)) by lia. unfold length_code, decode_length. rewrite El. case_if.
  - code_case 0. by rewrite E.
  - repeat (case_if; [length_case|]). lia.
Qed.

Lemma offset_code_spec lvl O : (lvl = 0 /\ 0 <= O < 8192) \/ (lvl = 1 /\ 0 <= O < 65536) ->
  exists v n, offset_code lvl O = Some (v, n) /\ 10 <= n <= 19 /\ 0 <= v < 2 ^ n /\
    forall acc, holds_code acc v n -> decode_offset lvl acc = inr (O, n) /\ 0xC0000000 <= acc.
Proof.
  intros Hl. assert (El : negb (lvl =? 0) = (lvl =? 1)) by lia. unfold offset_code, decode_offset. rewrite El. destruct (lvl =? 1) eqn:E1.
  - repeat (case_if; [code_width ltac:(fun k => code_case k; split; [code_value k|Z.div_mod_to_equations; lia])|]).
    code_width ltac:(fun k => code_case k; split; [code_value k|Z.div_mod_to_equations; lia]).
  - repeat (case_if; [code_width ltac:(fun k => code_case k; split; [code_value k|Z.div_mod_to_equations; lia])|]). lia.
Qed.

Lemma literal_code_spec c : is_byte c ->
  let '(v, n) := literal_code c in 8 <= n <= 9 /\ 0 <= v < 2 ^ n /\ forall acc, holds_code acc v n ->
    if c <? 0x80 then acc < 0x80000000 /\ u8 (Z.shiftr (Z.land acc 0x7F000000) 24) = c
    else 0x80000000 <= acc < 0xC0000000 /\ u8 (Z.shiftr (Z.land acc 0x3F800000) 23 + 0x80) = c.
Proof.
  unfold is_byte, literal_code. intros Hc. case_if; cbv zeta; (split; [lia|]).
  - split; [lia|]. intros acc [Ha Hv]. change (2 ^ (32 - 8)) with (2 ^ 24) in Hv. split; [Z.div_mod_to_equations; lia|].
    rewrite Z.shiftr_land, shiftr_div, Hv by lia. change (Z.shiftr 0x7F000000 24) with (2 ^ 7 - 1). rewrite land_mask, Z.mod_small by lia. by apply u8_id.
  - rewrite (code_bits 0x100 c 7) by (lia || reflexivity). split; [Z.div_mod_to_equations; lia|]. intros acc [Ha Hv]. change (2 ^ (32 - 9)) with (2 ^ 23) in Hv.
    split; [Z.div_mod_to_equations; lia|]. rewrite Z.shiftr_land, shiftr_div, Hv by lia. change (Z.shiftr 0x3F800000 23) with (2 ^ 7 - 1). rewrite land_mask by lia.
    unfold u8. Z.div_mod_to_equations; lia.
Qed.
