(* ===== verification/MppcFormat.v ===== *)
(** * The MPPC format and its decompressor

    The format is a relation between the bits of a packet and what they do to the history.  The
    decompressor does what the format says, and it stays within its buffers at the first level
    whatever the packet is. *)

From stdpp Require Import relations.
From S2P Require Import Prelude Memory BitStream Mppc.

#[local] Opaque window bits_of.

(** The two levels, with the size of the history. *)
Abbreviation mppc_level lvl size := ((lvl = 0 /\ size = 8192) \/ (lvl = 1 /\ size = 65536)).

Lemma window_front f p n : 0 <= n <= 32 -> holds_code (window f p 32) (window f p (Z.to_nat n)) n.
Proof.
  intros Hn. split; [apply (window_bound f p 32)|]. rewrite (window_cut f p (Z.to_nat n) 32) by lia. replace (Z.of_nat (32 - Z.to_nat n)) with (32 - n) by lia.
  pose proof (window_bound f (p + Z.of_nat (Z.to_nat n)) (32 - Z.to_nat n)) as Hb. replace (Z.of_nat (32 - Z.to_nat n)) with (32 - n) in Hb by lia.
  rewrite Z.add_comm, Z.div_add, Z.div_small by (try apply Z.pow_nonzero; lia). lia.
Qed.

(** ** The format *)

(** The history after a copy. *)
Fixpoint copy_list (n : nat) (s h : Z) (H : list Z) : list Z :=
  match n with O => H | S n => copy_list n (s + 1) (h + 1) (splice h [znth H s] H) end.

(** The bits [f] from [pos] to [pos'] take the history [H] with the next byte at [h] to [H'] with the
    next byte at [h']. *)
Inductive coded (lvl size : Z) (f : Z -> bool) : Z -> Z -> list Z -> Z -> Z -> list Z -> Prop :=
| coded_end pos h H : coded lvl size f pos h H pos h H
| coded_literal pos h H x v n pos' h' H' :
    is_byte x -> 0 <= h < size -> literal_code x = (v, n) -> window f pos (Z.to_nat n) = v ->
    coded lvl size f (pos + n) (h + 1) (splice h [x] H) pos' h' H' ->
    coded lvl size f pos h H pos' h' H'
| coded_copy pos h H o l v n v2 n2 pos' h' H' :
    0 <= o < size -> 3 <= l < size -> 0 <= h -> h + l <= size -> (h - o) mod size + l <= size ->
    offset_code lvl o = Some (v, n) -> window f pos (Z.to_nat n) = v ->
    length_code lvl l = Some (v2, n2) -> window f (pos + n) (Z.to_nat n2) = v2 ->
    coded lvl size f (pos + n + n2) (h + l) (copy_list (Z.to_nat l) ((h - o) mod size) h H) pos' h' H' ->
    coded lvl size f pos h H pos' h' H'.

(** A context at the level [lvl] with a history of [size] bytes in use. *)
Record mppc_ok (lvl size : Z) (c : MPPC_CONTEXT) : Prop := {
  ok_level : mppc_level lvl size;
  ok_lvl : mppc_CompressionLevel c = lvl;
  ok_size : mppc_HistoryBufferSize c = size;
  ok_history : zlen (mppc_HistoryBuffer c) = 65536 /\ Forall is_byte (mppc_HistoryBuffer c)
}.

(** ** Decompressor *)

Lemma on_bs_run {A} (m : Prog wBitStream A) c a b : m (mppc_bs c) = Ret (a, b) -> on_bs m c = Ret (a, c <| mppc_bs := b |>).
Proof. intros E. unfold on_bs, pzoom. by rewrite E. Qed.

Lemma history_set_run i v c : 0 <= i < zlen (mppc_HistoryBuffer c) ->
  history_set i v c = Ret (tt, c <| mppc_HistoryBuffer := splice i [v] (mppc_HistoryBuffer c) |>).
Proof. intros Hi. unfold history_set. by rewrite pbind_pget, slot_set_run, pbind_plift by done. Qed.

Lemma zlen_copy_list n s h H : 0 <= h -> h + Z.of_nat n <= zlen H -> zlen (copy_list n s h H) = zlen H.
Proof.
  revert s h H. induction n as [|n IH]; intros s h H Hh Hn; [done|]. cbn [copy_list]. rewrite IH; rewrite ?zlen_splice1; lia.
Qed.

Lemma copy_list_bytes n s h H : Forall is_byte H -> Forall is_byte (copy_list n s h H).
Proof.
  revert s h H. induction n as [|n IH]; intros s h H HH; [done|]. cbn [copy_list]. apply IH, Forall_splice; [|done]. apply Forall_singleton, (znth_byte H s HH).
Qed.

Lemma copy_match_run n s h c : 0 <= s -> s + Z.of_nat n <= zlen (mppc_HistoryBuffer c) -> 0 <= h -> h + Z.of_nat n <= zlen (mppc_HistoryBuffer c) ->
  copy_match n s h c = Ret (tt, c <| mppc_HistoryBuffer := copy_list n s h (mppc_HistoryBuffer c) |>).
Proof.
  revert s h c. induction n as [|n IH]; intros s h c Hs Hsn Hh Hhn; [by destruct c|]. cbn [copy_match copy_list].
  rewrite pbind_pget, slot_get_run, pbind_plift, (pbind_ret _ _ _ _ _ (history_set_run h _ c ltac:(lia))) by lia.
  set (c1 := c <| mppc_HistoryBuffer := splice h [znth (mppc_HistoryBuffer c) s] (mppc_HistoryBuffer c) |>).
  assert (Hl : zlen (mppc_HistoryBuffer c1) = zlen (mppc_HistoryBuffer c)) by (apply zlen_splice1; lia). rewrite IH by lia. done.
Qed.

Section decoder.
Context (lvl size : Z) (data : list Z).
Let f : Z -> bool := bits_of data.

(** A decompressor at the bit [pos]. *)
Record decoding (c : MPPC_CONTEXT) (pos : Z) : Prop := {
  dec_ok : mppc_ok lvl size c;
  dec_reading : reading (mppc_bs c) pos;
  dec_data : bs_data (mppc_bs c) = data;
  dec_length : bs_length (mppc_bs c) = 8 * zlen data /\ 8 * zlen data < 2 ^ 32
}.

Lemma decoding_shift c pos n : decoding c pos -> 0 < n < 32 -> pos + n < 2 ^ 32 ->
  exists b, on_bs (BitStream_Shift n) c = Ret (tt, c <| mppc_bs := b |>) /\ decoding (c <| mppc_bs := b |>) (pos + n).
Proof.
  intros [Hok Hr Hd Hl] Hn Hmax. destruct (shift_run _ _ n Hr Hn Hmax) as (b & E & Hr' & Hd' & Hl'). exists b. split; [by apply on_bs_run|].
  constructor; [destruct Hok; by constructor|exact Hr'|exact (eq_trans Hd' Hd)|]. change (bs_length b = 8 * zlen data /\ 8 * zlen data < 2 ^ 32). by rewrite Hl'.
Qed.

Lemma decoding_history c pos H : decoding c pos -> zlen H = 65536 -> Forall is_byte H -> decoding (c <| mppc_HistoryBuffer := H |>) pos.
Proof. intros [[Hl H1 H2 H3] Hr Hd Hlen] ? ?. by constructor; [constructor|..]. Qed.

Lemma decoding_front c pos n : decoding c pos -> 0 <= n <= 32 -> holds_code (bs_accumulator (mppc_bs c)) (window f pos (Z.to_nat n)) n.
Proof. intros [_ [_ _ _ _ Ha _] Hd _] Hn. rewrite Ha, Hd. by apply window_front. Qed.

Lemma literal_decoded c pos h x v n : decoding c pos -> is_byte x -> 0 <= h < size -> literal_code x = (v, n) -> window f pos (Z.to_nat n) = v -> pos + n < 2 ^ 32 ->
  exists c', decompress_token h c = Ret (inr (h + 1), c') /\ decoding c' (pos + n) /\ mppc_HistoryBuffer c' = splice h [x] (mppc_HistoryBuffer c) /\ mppc_HistoryPtr c' = mppc_HistoryPtr c.
Proof.
  intros Hc Hx Hh Hv Hw Hmax. pose proof (dec_ok _ _ Hc) as [Hlv Hl Hs [Hz Hb]]. pose proof (literal_code_spec x Hx) as Hspec. rewrite Hv in Hspec.
  destruct Hspec as (Hn & _ & Hdec). pose proof (decoding_front c pos n Hc ltac:(lia)) as Hf. rewrite Hw in Hf. specialize (Hdec _ Hf). destruct Hf as [Hacc _].
  unfold decompress_token. rewrite pbind_pget, Hs. replace (size - 1 <? h) with false by lia. cbv zeta. prefix_ranges (bs_accumulator (mppc_bs c)).
  set (c1 := c <| mppc_HistoryBuffer := splice h [x] (mppc_HistoryBuffer c) |>).
  assert (Hc1 : decoding c1 pos) by (apply decoding_history; [done|rewrite zlen_splice1; lia|by apply Forall_splice; [apply Forall_singleton|]]).
  destruct (decoding_shift c1 pos n Hc1 ltac:(lia) Hmax) as (b & Eb & Hb'). exists (c1 <| mppc_bs := b |>). split; [|done].
  unfold literal_code in Hv. destruct (x <? 128); destruct Hdec as [Ha Hval]; injection Hv as <- <-.
  - replace (_ && _) with true by lia. rewrite (pbind_ret _ _ _ tt c1) by (rewrite Hval; apply history_set_run; lia). by rewrite (pbind_ret _ _ _ _ _ Eb).
  - replace ((0 <=? _) && _) with false by lia. replace ((2147483648 <=? _) && _) with true by lia. rewrite (pbind_ret _ _ _ tt c1) by (rewrite Hval; apply history_set_run; lia). by rewrite (pbind_ret _ _ _ _ _ Eb).
Qed.

Lemma masked lv d : mppc_level lv size -> Z.land d (if lv =? 0 then 0x1FFF else 0xFFFF) = d mod size.
Proof using. intros [[-> ->]|[-> ->]]; [exact (land_mask 13 d ltac:(lia))|exact (land_mask 16 d ltac:(lia))]. Qed.

Lemma copy_decoded c pos h o l v n v2 n2 :
  decoding c pos -> 0 <= o < size -> 3 <= l < size -> 0 <= h -> h + l <= size -> (h - o) mod size + l <= size ->
  offset_code lvl o = Some (v, n) -> window f pos (Z.to_nat n) = v -> length_code lvl l = Some (v2, n2) -> window f (pos + n) (Z.to_nat n2) = v2 ->
  pos + n + n2 < 2 ^ 32 ->
  exists c', decompress_token h c = Ret (inr (h + l), c') /\ decoding c' (pos + n + n2) /\
    mppc_HistoryBuffer c' = copy_list (Z.to_nat l) ((h - o) mod size) h (mppc_HistoryBuffer c) /\ mppc_HistoryPtr c' = mppc_HistoryPtr c.
Proof.
  intros Hc Ho Hl3 Hh Hhl Hsl Hoc Hw Hlc Hw2 Hmax. pose proof (dec_ok _ _ Hc) as [Hlv Hl Hs [Hz Hb]].
  destruct (offset_code_spec lvl o ltac:(lia)) as (v' & n' & Eo & Hn & _ & Hdo). rewrite Eo in Hoc. injection Hoc as -> ->.
  destruct (length_code_spec lvl l ltac:(lia)) as (v2' & n2' & El & Hn2 & _ & Hdl). rewrite El in Hlc. injection Hlc as -> ->.
  pose proof (decoding_front c pos n Hc ltac:(lia)) as Hf. rewrite Hw in Hf. destruct (Hdo _ Hf) as [Edo Hge]. destruct Hf as [Hacc _].
  destruct (decoding_shift c pos n Hc ltac:(lia) ltac:(lia)) as (b1 & E1 & Hc1). set (c1 := c <| mppc_bs := b1 |>) in *.
  pose proof (decoding_front c1 (pos + n) n2 Hc1 ltac:(lia)) as Hf2. rewrite Hw2 in Hf2. specialize (Hdl _ Hf2).
  destruct (decoding_shift c1 (pos + n) n2 Hc1 ltac:(lia) ltac:(lia)) as (b2 & E2 & Hc2). set (c2 := c1 <| mppc_bs := b2 |>) in *.
  assert (Hmod : 0 <= (h - o) mod size) by (apply Z.mod_pos_bound; lia).
  pose proof (copy_match_run (Z.to_nat l) ((h - o) mod size) h c2 Hmod) as Ecopy. change (mppc_HistoryBuffer c2) with (mppc_HistoryBuffer c) in Ecopy.
  rewrite Hz, Z2Nat.id in Ecopy by lia. specialize (Ecopy ltac:(lia) ltac:(lia) ltac:(lia)).
  set (c3 := c2 <| mppc_HistoryBuffer := copy_list (Z.to_nat l) ((h - o) mod size) h (mppc_HistoryBuffer c) |>) in *. exists c3. split; [|split; [|done]].
  - unfold decompress_token. rewrite pbind_pget, Hs. replace (size - 1 <? h) with false by lia. cbv zeta. prefix_ranges (bs_accumulator (mppc_bs c)).
    replace ((0 <=? _) && _) with false by lia. replace ((2147483648 <=? _) && _) with false by lia. unfold decompress_copy. rewrite pbind_pget, Hl, Edo. cbv zeta.
    rewrite (pbind_ret _ _ _ _ _ E1), pbind_pget, Hdl, (pbind_ret _ _ _ _ _ E2). change (mppc_HistoryBufferSize c1) with (mppc_HistoryBufferSize c). rewrite Hs.
    replace (size - 1 <? h + l - 1) with false by lia. by rewrite (masked lvl) by done; rewrite (pbind_ret _ _ _ _ _ Ecopy).
  - apply decoding_history; [done|rewrite zlen_copy_list by lia; exact Hz|by apply copy_list_bytes].
Qed.

Lemma coded_le pos h H pos' h' H' : mppc_level lvl size -> coded lvl size f pos h H pos' h' H' -> pos <= pos'.
Proof.
  intros Hlv. induction 1 as [|pos h H x v n pos' h' H' Hx _ Hv _ _ IH|pos h H o l v n v2 n2 pos' h' H' Ho Hl Hh Hhl _ Eo _ El _ _ IH]; [done| |].
  - pose proof (literal_code_spec x Hx) as Hs. rewrite Hv in Hs. lia.
  - destruct (offset_code_spec lvl o ltac:(lia)) as (? & ? & Eo' & ? & _). destruct (length_code_spec lvl l ltac:(lia)) as (? & ? & El' & ? & _). simplify_eq. lia.
Qed.

(** The loop does what the bits say. *)
Lemma coded_decoded pos h H pos' h' H' : coded lvl size f pos h H pos' h' H' -> forall c fuel,
  decoding c pos -> mppc_HistoryBuffer c = H -> 0 <= h <= size -> size - h < Z.of_nat fuel -> pos' <= 8 * zlen data < pos' + 8 ->
  exists c', decompress_loop fuel h c = Ret (inr h', c') /\ decoding c' pos' /\ mppc_HistoryBuffer c' = H' /\ mppc_HistoryPtr c' = mppc_HistoryPtr c.
Proof.
  assert (Hgo : forall c p h fuel, decoding c p -> p + 8 <= 8 * zlen data ->
    decompress_loop (S fuel) h c = (r <- decompress_token h ;; match r with inl e => pret (inl e) | inr h => decompress_loop fuel h end) c).
  { intros c p h0 fuel Hc Hp. cbn [decompress_loop]. rewrite pbind_pget. destruct Hc as [_ [_ [? Ep] _ _ _ _] _ [El ?]]. rewrite El, Ep, u32_id by lia. by replace (8 <=? _) with true by lia. }
  induction 1 as [pos h H|pos h H x v n pos' h' H' Hx Hh Hv Hw Hrest IH|pos h H o l v n v2 n2 pos' h' H' Ho Hl Hh Hhl Hsl Eo Hw El Hw2 Hrest IH];
    intros c fuel Hc HH Hhr Hfuel Hend; (destruct fuel as [|fuel]; [lia|]); pose proof (ok_level _ _ _ (dec_ok _ _ Hc)) as Hlv; try pose proof (coded_le _ _ _ _ _ _ Hlv Hrest) as Hle.
  - exists c. split; [|done]. cbn [decompress_loop]. rewrite pbind_pget. destruct Hc as [_ [_ [? Ep] _ _ _ _] _ [El ?]]. rewrite El, Ep, u32_id by lia.
    by replace (8 <=? _) with false by lia.
  - pose proof (literal_code_spec x Hx) as Hs. rewrite Hv in Hs. destruct Hs as (Hn & _). pose proof (dec_length _ _ Hc) as [_ Hmax].
    destruct (literal_decoded c pos h x v n Hc Hx Hh Hv Hw ltac:(lia)) as (c1 & E1 & Hc1 & HH1 & Hp1).
    rewrite (Hgo c pos h fuel Hc ltac:(lia)), (pbind_ret _ _ _ _ _ E1). rewrite HH in HH1.
    destruct (IH c1 fuel Hc1 HH1 ltac:(lia) ltac:(lia) Hend) as (c' & E' & Hc' & HH' & Hp'). exists c'. by rewrite Hp', Hp1.
  - destruct (offset_code_spec lvl o ltac:(lia)) as (? & ? & Eo' & ? & _). destruct (length_code_spec lvl l ltac:(lia)) as (? & ? & El' & ? & _).
    pose proof Eo as Eo2. pose proof El as El2. rewrite Eo' in Eo2. rewrite El' in El2. injection Eo2 as -> ->. injection El2 as -> ->. pose proof (dec_length _ _ Hc) as [_ Hmax].
    destruct (copy_decoded c pos h o l v n v2 n2 Hc Ho Hl Hh Hhl Hsl Eo Hw El Hw2 ltac:(lia)) as (c1 & E1 & Hc1 & HH1 & Hp1).
    rewrite (Hgo c pos h fuel Hc ltac:(lia)), (pbind_ret _ _ _ _ _ E1). rewrite HH in HH1.
    destruct (IH c1 fuel Hc1 HH1 ltac:(lia) ltac:(lia) Hend) as (c' & E' & Hc' & HH' & Hp'). exists c'. by rewrite Hp', Hp1.
Qed.
End decoder.

Lemma history_restart_ok lvl size flags c : mppc_ok lvl size c -> mppc_ok lvl size (history_restart flags c).
Proof.
  intros [Hlv Hl Hs [Hz Hb]]. unfold history_restart. cbv zeta. set (c1 := if Z.land flags PACKET_AT_FRONT =? 0 then c else _).
  assert (Hc1 : mppc_ok lvl size c1) by (unfold c1; by case_if; constructor). clearbody c1. case_if; [done|]. destruct Hc1 as [Hlv1 Hl1 Hs1 [Hz1 Hb1]]. constructor; [done..|].
  cbn [mppc_HistoryBuffer update]. split; [|by apply Forall_splice; [apply Forall_zrep|]]. rewrite zlen_splice; rewrite ?zlen_zrep; lia.
Qed.

(** What a packet starts from: the stream at its first bit. *)
Lemma decompress_start lvl size c data flags : mppc_ok lvl size c -> Forall is_byte data -> zlen data < 2 ^ 29 ->
  exists b, decoding lvl size data (history_restart flags (c <| mppc_bs := b |>)) 0 /\
    (forall A (k : Prog MPPC_CONTEXT A), (on_bs (pmodify (BitStream_Attach data (zlen data))) ;; on_bs BitStream_Fetch ;; pmodify (history_restart flags) ;; k) c =
      k (history_restart flags (c <| mppc_bs := b |>))).
Proof.
  intros Hok Hb Hlen. pose proof (zlen_nonneg data) as Hz0. set (b0 := BitStream_Attach data (zlen data) (mppc_bs c)).
  assert (El : bs_length b0 = 8 * zlen data) by (change (bs_length b0) with (u32 (zlen data * 8)); rewrite u32_id; lia).
  assert (Ed : bs_data b0 = data) by (apply ztake_all; done). assert (Hb0 : bs_ok b0) by (apply attach_ok; [done|lia|done]).
  destruct (fetch_run b0 Hb0 eq_refl eq_refl eq_refl) as (b & E & Hr & Hd & Hl). exists b. split.
  - assert (Ebs : mppc_bs (history_restart flags (c <| mppc_bs := b |>)) = b) by (unfold history_restart; cbv zeta; by repeat case_if).
    constructor; [apply history_restart_ok; destruct Hok; by constructor|rewrite Ebs; exact Hr|rewrite Ebs, Hd; exact Ed|rewrite Ebs, Hl, El; lia].
  - intros A k. set (c1 := c <| mppc_bs := b0 |>). rewrite (pbind_ret _ _ _ tt c1) by reflexivity.
    assert (E1 : on_bs BitStream_Fetch c1 = Ret (tt, c1 <| mppc_bs := b |>)) by (apply on_bs_run; change (mppc_bs c1) with b0; exact E).
    rewrite (pbind_ret _ _ _ _ _ E1). reflexivity.
Qed.

Lemma decompress_coded lvl size c data flags pos' h' H' :
  let c0 := history_restart flags c in
  mppc_ok lvl size c -> Forall is_byte data -> zlen data < 2 ^ 29 -> Z.land flags PACKET_COMPRESSED <> 0 -> 0 <= mppc_HistoryPtr c0 <= size ->
  coded lvl size (bits_of data) 0 (mppc_HistoryPtr c0) (mppc_HistoryBuffer c0) pos' h' H' -> pos' <= 8 * zlen data < pos' + 8 -> 
  exists c', mppc_decompress data (zlen data) flags c = Ret ((1, Some (data_history (mppc_HistoryPtr c0), u32 (h' - mppc_HistoryPtr c0))), c') /\
    mppc_ok lvl size c' /\ mppc_HistoryBuffer c' = H' /\ mppc_HistoryPtr c' = h'.
Proof.
  intros c0 Hok Hb Hlen Hfl Hp0 Hcoded Hend. destruct (decompress_start lvl size c data flags Hok Hb Hlen) as (b & Hc1 & Hstart).
  set (c1 := history_restart flags (c <| mppc_bs := b |>)) in *.
  assert (E0 : mppc_HistoryPtr c1 = mppc_HistoryPtr c0 /\ mppc_HistoryBuffer c1 = mppc_HistoryBuffer c0) by (unfold c1, c0, history_restart; cbv zeta; by repeat case_if).
  destruct E0 as [Ep EH]. pose proof (ok_size _ _ _ (dec_ok _ _ _ _ _ Hc1)) as Hs.
  destruct (coded_decoded _ _ _ _ _ _ _ _ _ Hcoded c1 (S (Z.to_nat size)) Hc1 EH Hp0 ltac:(lia) Hend) as (c2 & E2 & [Hok2 _ _ _] & HH2 & Hp2).
  unfold mppc_decompress. rewrite Hstart, pbind_pget. replace (Z.land flags PACKET_COMPRESSED =? 0) with false by lia.
  rewrite Hs, Ep, (pbind_ret _ _ _ _ _ E2). exists (c2 <| mppc_HistoryPtr := h' |>). split; [reflexivity|]. split; [destruct Hok2; by constructor|done].
Qed.

(** ** Any packet *)

Lemma field_bound x k m : 0 <= k -> m = 2 ^ k - 1 -> 0 <= Z.land x m < 2 ^ k.
Proof. intros Hk ->. rewrite land_mask by lia. apply Z.mod_pos_bound, Z.pow_pos_nonneg; lia. Qed.
Ltac field_range :=
  match goal with |- context [Z.land ?x ?m] =>
    let k := eval vm_compute in (Z.log2 (m + 1)) in let H := fresh in pose proof (field_bound x k m ltac:(lia) eq_refl) as H; revert H; generalize (Z.land x m); intros ? ? end.

Lemma decode_length_range lvl acc : match decode_length lvl acc with Some (l, n) => 3 <= l /\ 0 < n <= 30 /\ (lvl = 0 -> l < 8192) | None => True end.
Proof. unfold decode_length. case_if; [lia|]. repeat (case_if; [field_range; lia|]). done. Qed.

Lemma decode_offset_range lvl acc : match decode_offset lvl acc with inr (o, n) => 0 < n <= 19 | inl e => e = -1001 \/ e = -1002 end.
Proof. unfold decode_offset. repeat case_if; lia. Qed.

(** The byte of a literal. *)
Lemma low_literal w : 0 <= w < 2 ^ 31 -> u8 (Z.shiftr (Z.land w 0x7F000000) 24) = w / 2 ^ 24.
Proof.
  intros Hw. rewrite Z.shiftr_land, shiftr_div by lia. change (Z.shiftr 0x7F000000 24) with (2 ^ 7 - 1). rewrite land_mask by lia.
  unfold u8. change (2 ^ 24) with 16777216 in *. change (2 ^ 7) with 128. Z.div_mod_to_equations. lia.
Qed.
Lemma high_literal w : 0 <= w -> u8 (Z.shiftr (Z.land w 0x3F800000) 23 + 0x80) = 128 + w / 2 ^ 23 mod 2 ^ 7.
Proof.
  intros Hw. rewrite Z.shiftr_land, shiftr_div by lia. change (Z.shiftr 0x3F800000 23) with (2 ^ 7 - 1). rewrite land_mask by lia.
  unfold u8. change (2 ^ 7) with 128. Z.div_mod_to_equations. lia.
Qed.

(** [m] returns or, if [P], it stops at an access outside of an object. *)
Definition returns_or {S A} (P : Prop) (m : Prog S A) (s : S) (Q : A -> S -> Prop) : Prop :=
  match m s with Ret (a, s') => Q a s' | Abort => P | Hang => False end.

Section returns_or.
Context {S A B : Type}.
Implicit Types (P : Prop) (m : Prog S A) (s : S).
Lemma ro_bind P m (k : A -> Prog S B) s (Q : B -> S -> Prop) : returns_or P m s (fun a s' => returns_or P (k a) s' Q) -> returns_or P (pbind m k) s Q.
Proof. unfold returns_or, pbind. by destruct (m s) as [[a s']| |]. Qed.
Lemma ro_step P m (k : A -> Prog S B) s a s' (Q : B -> S -> Prop) : m s = Ret (a, s') -> returns_or P (k a) s' Q -> returns_or P (pbind m k) s Q.
Proof. unfold returns_or, pbind. by intros ->. Qed.
Lemma ro_weaken P P' m s (Q R : A -> S -> Prop) : returns_or P m s Q -> (P -> P') -> (forall a s', Q a s' -> R a s') -> returns_or P' m s R.
Proof. unfold returns_or. destruct (m s) as [[a s']| |]; auto. Qed.
Lemma ro_ret P m s (Q : A -> S -> Prop) : returns_or P m s Q -> ~ P -> exists a s', m s = Ret (a, s') /\ Q a s'.
Proof. unfold returns_or. destruct (m s) as [[a s']| |]; [|done..]. by exists a, s'. Qed.
End returns_or.

(** What any bits [f] say, token by token: where the next bit is, where the next byte of the history
    goes, and the history.  A copy may take its bytes from the whole array. *)
Definition copy_at (lvl : Z) (f : Z -> bool) (pos : Z) : option (Z * Z * Z) :=
  match decode_offset lvl (window f pos 32) with
  | inl _ => None
  | inr (o, n) => match decode_length lvl (window f (pos + n) 32) with Some (l, n2) => Some (o, l, n + n2) | None => None end
  end.

Inductive token (lvl size : Z) (f : Z -> bool) : Z * Z * list Z -> Z * Z * list Z -> Prop :=
| token_low pos h H :
    h < size -> window f pos 32 < 2 ^ 31 ->
    token lvl size f (pos, h, H) (pos + 8, h + 1, splice h [window f pos 32 / 2 ^ 24] H)
| token_high pos h H :
    h < size -> 2 ^ 31 <= window f pos 32 < 3 * 2 ^ 30 ->
    token lvl size f (pos, h, H) (pos + 9, h + 1, splice h [128 + window f pos 32 / 2 ^ 23 mod 2 ^ 7] H)
| token_copy pos h H o l n :
    h < size -> 3 * 2 ^ 30 <= window f pos 32 -> copy_at lvl f pos = Some (o, l, n) ->
    h + l <= size -> (h - o) mod size + l <= 65536 ->
    token lvl size f (pos, h, H) (pos + n, h + l, copy_list (Z.to_nat l) ((h - o) mod size) h H).

(** The next token is a copy that fits in the history but takes its bytes from behind the array. *)
Definition overruns (lvl size : Z) (f : Z -> bool) (st : Z * Z * list Z) : Prop :=
  let '(pos, h, _) := st in
  exists o l n, 3 * 2 ^ 30 <= window f pos 32 /\ copy_at lvl f pos = Some (o, l, n) /\ h + l <= size /\ 65536 < (h - o) mod size + l.

Section any_packet.
Context (lvl size : Z) (data : list Z).
Let f : Z -> bool := bits_of data.
Local Abbreviation st pos h c := (pos, h, mppc_HistoryBuffer c).

(** After a token: an error, or more history and the rest of the packet. *)
Definition token_post (c : MPPC_CONTEXT) (pos h : Z) (r : Z + Z) (c' : MPPC_CONTEXT) : Prop :=
  mppc_HistoryPtr c' = mppc_HistoryPtr c /\ mppc_ok lvl size c' /\
  match r with
  | inl e => -1005 <= e <= -1001
  | inr h' => h < h' <= size /\ exists pos', pos <= pos' <= pos + 49 /\ decoding lvl size data c' pos' /\ token lvl size f (st pos h c) (st pos' h' c')
  end.

Lemma accumulator_window c pos : decoding lvl size data c pos -> bs_accumulator (mppc_bs c) = window f pos 32.
Proof using. intros [_ [_ _ _ _ Ha _] Hd _]. by rewrite Ha, Hd. Qed.

(** A copy from behind the array stops there. *)
Lemma copy_overruns n s h c : zlen (mppc_HistoryBuffer c) = 65536 -> 0 <= s <= 65536 -> 65536 < s + Z.of_nat n -> 0 <= h -> h + Z.of_nat n <= 65536 -> copy_match n s h c = Abort.
Proof using.
  revert s h c. induction n as [|n IH]; intros s h c Hz Hs Hn Hh Hhn; [lia|]. cbn [copy_match]. rewrite pbind_pget. destruct (s <? 65536) eqn:Es.
  - rewrite slot_get_run, pbind_plift, (pbind_ret _ _ _ _ _ (history_set_run h _ c ltac:(lia))) by lia.
    apply IH; [|lia..]. cbn [mppc_HistoryBuffer update]. rewrite zlen_splice1; lia.
  - assert (Ea : slot_get s (mppc_HistoryBuffer c) = Abort) by (unfold slot_get; by replace (_ && _) with false by lia). unfold pbind, plift. by rewrite Ea.
Qed.

Lemma decompress_copy_safe c pos h : decoding lvl size data c pos -> 0 <= h < size -> pos + 49 < 2 ^ 32 -> 3 * 2 ^ 30 <= window f pos 32 ->
  returns_or (lvl = 1 /\ overruns lvl size f (st pos h c)) (decompress_copy h) c (token_post c pos h).
Proof using.
  intros Hc Hh Hmax Hacc. pose proof (dec_ok _ _ _ _ _ Hc) as Hok. pose proof Hok as [Hlv Hl Hs [Hz _]]. unfold decompress_copy. eapply ro_step; [reflexivity|]. cbv zeta.
  rewrite Hl, (accumulator_window _ _ Hc). pose proof (decode_offset_range lvl (window f pos 32)) as Ho.
  destruct (decode_offset lvl _) as [e|[o n]] eqn:Eo; [split; [reflexivity|split; [exact Hok|lia]]|].
  destruct (decoding_shift _ _ _ c pos n Hc ltac:(lia) ltac:(lia)) as (b1 & E1 & Hc1). set (c1 := c <| mppc_bs := b1 |>) in *. eapply ro_step; [exact E1|]. eapply ro_step; [reflexivity|].
  rewrite (accumulator_window _ _ Hc1). pose proof (decode_length_range lvl (window f (pos + n) 32)) as Hlen.
  destruct (decode_length lvl _) as [[l n2]|] eqn:El; [|split; [reflexivity|split; [exact (dec_ok _ _ _ _ _ Hc1)|lia]]].
  destruct (decoding_shift _ _ _ c1 (pos + n) n2 Hc1 ltac:(lia) ltac:(lia)) as (b2 & E2 & Hc2). set (c2 := c1 <| mppc_bs := b2 |>) in *. eapply ro_step; [exact E2|].
  change (mppc_HistoryBufferSize c1) with (mppc_HistoryBufferSize c). rewrite Hs. case_if; [split; [reflexivity|split; [exact (dec_ok _ _ _ _ _ Hc2)|lia]]|]. rewrite (masked size lvl) by done.
  pose proof (Z.mod_pos_bound (h - o) size ltac:(lia)) as Hmod. assert (Ec : copy_at lvl f pos = Some (o, l, n + n2)) by (unfold copy_at; by rewrite Eo, El).
  destruct ((h - o) mod size + l <=? 65536) eqn:Eover.
  - assert (Ecopy : copy_match (Z.to_nat l) ((h - o) mod size) h c2 = Ret (tt, c2 <| mppc_HistoryBuffer := copy_list (Z.to_nat l) ((h - o) mod size) h (mppc_HistoryBuffer c) |>))
      by (change (mppc_HistoryBuffer c) with (mppc_HistoryBuffer c2); apply copy_match_run; change (mppc_HistoryBuffer c2) with (mppc_HistoryBuffer c); lia).
    eapply ro_step; [exact Ecopy|]. set (c3 := c2 <| mppc_HistoryBuffer := _ |>).
    assert (Hc3 : decoding lvl size data c3 (pos + n + n2)) by (apply decoding_history; [done|rewrite zlen_copy_list; lia|apply copy_list_bytes, Hok]).
    split; [reflexivity|]. split; [exact (dec_ok _ _ _ _ _ Hc3)|]. split; [lia|]. exists (pos + n + n2). split; [lia|]. split; [done|].
    rewrite <- Z.add_assoc. by apply token_copy; [lia|done|done|lia|lia].
  - unfold returns_or, pbind. rewrite copy_overruns by (change (mppc_HistoryBuffer c2) with (mppc_HistoryBuffer c); lia).
    split; [lia|]. exists o, l, (n + n2). split_and!; [done|done|lia|lia].
Qed.

Lemma decompress_token_safe c pos h : decoding lvl size data c pos -> 0 <= h -> pos + 49 < 2 ^ 32 ->
  returns_or (lvl = 1 /\ overruns lvl size f (st pos h c)) (decompress_token h) c (token_post c pos h).
Proof using.
  intros Hc Hh Hmax. pose proof (dec_ok _ _ _ _ _ Hc) as Hok. pose proof Hok as [Hlv Hl Hs [Hz Hb]]. unfold decompress_token. eapply ro_step; [reflexivity|]. cbv zeta. rewrite Hs.
  case_if; [split; [reflexivity|split; [exact Hok|lia]]|]. rewrite (accumulator_window _ _ Hc). set (w := window f pos 32) in *. pose proof (window_bound f pos 32 : 0 <= w < 2 ^ 32) as Hw.
  assert (Hlit : forall v n, is_byte v -> 0 < n < 32 -> token lvl size f (st pos h c) (pos + n, h + 1, splice h [v] (mppc_HistoryBuffer c)) ->
    returns_or (lvl = 1 /\ overruns lvl size f (st pos h c)) (history_set h v ;; on_bs (BitStream_Shift n) ;; pret (inr (h + 1))) c (token_post c pos h)).
  { intros v n Hv Hn Ht. eapply ro_step; [apply history_set_run; lia|]. set (c1 := c <| mppc_HistoryBuffer := splice h [v] (mppc_HistoryBuffer c) |>).
    assert (Hc1 : decoding lvl size data c1 pos) by (apply decoding_history; [done|rewrite zlen_splice1; lia|by apply Forall_splice; [apply Forall_singleton|]]).
    destruct (decoding_shift _ _ _ c1 pos n Hc1 ltac:(lia) ltac:(lia)) as (b1 & E1 & Hc2). eapply ro_step; [exact E1|].
    split; [reflexivity|split; [exact (dec_ok _ _ _ _ _ Hc2)|]]. split; [lia|]. exists (pos + n). split; [lia|]. split; [exact Hc2|exact Ht]. }
  prefix_ranges w. case_if; [|case_if].
  - apply Hlit; [apply u8_byte|lia|]. rewrite (low_literal w) by lia. apply token_low; [lia|fold w; lia].
  - apply Hlit; [apply u8_byte|lia|]. rewrite (high_literal w) by lia. apply token_high; [lia|fold w; lia].
  - apply decompress_copy_safe; [done|lia|lia|fold w; lia].
Qed.

Lemma decompress_loop_safe fuel : forall c pos h, decoding lvl size data c pos -> 0 <= h <= size -> 0 <= pos <= 49 * h -> size - h < Z.of_nat fuel ->
  returns_or (lvl = 1 /\ exists x, rtc (token lvl size f) (st pos h c) x /\ overruns lvl size f x) (decompress_loop fuel h) c (fun r c' =>
    mppc_HistoryPtr c' = mppc_HistoryPtr c /\ mppc_ok lvl size c' /\
    match r with
    | inl e => -1005 <= e <= -1001
    | inr h' => h <= h' <= size /\ exists pos', pos' <= 8 * zlen data < pos' + 8 /\ rtc (token lvl size f) (st pos h c) (st pos' h' c')
    end).
Proof using.
  induction fuel as [|fuel IH]; intros c pos h Hc Hh Hpos Hfuel; [lia|]. cbn [decompress_loop]. pose proof (dec_ok _ _ _ _ _ Hc) as Hok. pose proof (ok_level _ _ _ Hok) as Hlv.
  eapply ro_step; [reflexivity|]. pose proof Hc as [? Hrd ? [El ?]]. pose proof Hrd as [_ [? Ep] _ _ _ _]. rewrite El, Ep. case_if.
  2: { split; [reflexivity|split; [exact Hok|]]. split; [lia|]. exists pos. split; [|apply rtc_refl]. pose proof (zlen_nonneg data). unfold u32 in *. Z.div_mod_to_equations. lia. }
  apply ro_bind. eapply ro_weaken; [apply (decompress_token_safe c pos h Hc); lia| |].
  { intros [? Hover]. split; [done|]. exists (st pos h c). split; [apply rtc_refl|exact Hover]. }
  intros [e|h'] c1 (Hp1 & Hok1 & Hr); [done|]. destruct Hr as (Hh' & pos' & Hpos' & Hc1 & Ht).
  eapply ro_weaken; [apply (IH c1 pos' h' Hc1); lia| |].
  - intros [? (x & Hx & Hover)]. split; [done|]. exists x. split; [by eapply rtc_l|done].
  - intros [e|h2] c2 (Hp2 & Hok2 & Hr2); (split; [exact (eq_trans Hp2 Hp1)|split; [exact Hok2|]]); [lia|].
    destruct Hr2 as (Hh2 & p2 & Hp & Hrt). split; [lia|]. exists p2. split; [done|]. by eapply rtc_l.
Qed.
End any_packet.

(** C26: whatever the packet is, the decompressor does what its bits say.  A packet that is not compressed
    is the result itself.  Otherwise the history starts where it was, or at the front when a flag says so,
    and the tokens of the packet ([token]) are carried out: on success all but the last seven bits were used,
    and the result is the part of the history that the tokens wrote; or the result is an error from -1005
    to -1001.  In both cases the context is sound again.  Only at the level 1 does it stop at an access
    outside of the history, and then the token it has come to is a copy whose source leaves the array. *)
Theorem mppc_decompress_safe lvl size c data flags :
  mppc_ok lvl size c -> 0 <= mppc_HistoryPtr c <= size -> Forall is_byte data -> zlen data < 2 ^ 29 ->
  let c0 := history_restart flags c in
  let start := (0, mppc_HistoryPtr c0, mppc_HistoryBuffer c0) in
  let steps := rtc (token lvl size (bits_of data)) start in
  returns_or (lvl = 1 /\ Z.land flags PACKET_COMPRESSED <> 0 /\ exists x, steps x /\ overruns lvl size (bits_of data) x)
    (mppc_decompress data (zlen data) flags) c (fun r c' =>
    mppc_ok lvl size c' /\ 0 <= mppc_HistoryPtr c' <= size /\
    match r with
    | (code, None) => -1005 <= code <= -1001 /\ Z.land flags PACKET_COMPRESSED <> 0
    | (code, Some (data_source, n)) => code = 1 /\ Z.land flags PACKET_COMPRESSED = 0 /\ n = zlen data /\
        mppc_HistoryPtr c' = mppc_HistoryPtr c0 /\ mppc_HistoryBuffer c' = mppc_HistoryBuffer c0
    | (code, Some (data_history o, n)) => code = 1 /\ Z.land flags PACKET_COMPRESSED <> 0 /\
        o = mppc_HistoryPtr c0 /\ o + n = mppc_HistoryPtr c' /\ 0 <= n /\
        exists pos, pos <= 8 * zlen data < pos + 8 /\ steps (pos, mppc_HistoryPtr c', mppc_HistoryBuffer c')
    | (code, Some (data_buffer, n)) => False
    end).
Proof.
  intros Hok Hp Hb Hlen c0 start steps. destruct (decompress_start lvl size c data flags Hok Hb Hlen) as (b & Hc1 & Hstart). unfold mppc_decompress, returns_or. rewrite Hstart.
  set (c1 := history_restart flags (c <| mppc_bs := b |>)) in *. pose proof (dec_ok _ _ _ _ _ Hc1) as Hok1. pose proof Hok1 as [Hlv _ Hs _].
  assert (E0 : mppc_HistoryPtr c1 = mppc_HistoryPtr c0 /\ mppc_HistoryBuffer c1 = mppc_HistoryBuffer c0) by (unfold c1, c0, history_restart; cbv zeta; by repeat case_if).
  destruct E0 as [E0 E0']. assert (Hp1 : 0 <= mppc_HistoryPtr c1 <= size) by (unfold c1, history_restart; cbv zeta; repeat case_if; cbn [mppc_HistoryPtr update]; lia).
  rewrite pbind_pget. destruct (Z.land flags PACKET_COMPRESSED =? 0) eqn:Efl.
  { split; [exact Hok1|]. split; [exact Hp1|]. split_and!; [done|lia|done|done|done]. }
  rewrite Hs. pose proof (decompress_loop_safe lvl size data (S (Z.to_nat size)) c1 0 (mppc_HistoryPtr c1) Hc1 Hp1 ltac:(lia) ltac:(lia)) as Hloop.
  rewrite E0' in Hloop. unfold returns_or in Hloop. unfold pbind at 1. rewrite E0 in *. fold start in Hloop.
  destruct (decompress_loop _ _ c1) as [[[e|h] c2]| |]; [| | |done].
  - destruct Hloop as (Ep & Hok2 & He). cbn. split; [done|]. split; [rewrite Ep; exact Hp1|]. split; [done|lia].
  - destruct Hloop as (Ep & Hok2 & Hh & pos & Hpos & Hrt). cbn. rewrite u32_id by lia. split; [destruct Hok2; by constructor|]. split; [lia|].
    split_and!; [done|lia|done|lia|lia|]. exists pos. by split.
  - destruct Hloop as (? & x & Hx & Hover). split_and!; [done|lia|]. by exists x.
Qed.

(** At the level 1 the two bytes of a copy with the offset 1 at the front of the history make the
    decompressor read behind the array. *)
Theorem mppc_copy_overread `{Malloc} d : mppc_context_new 1 false = Some d -> mppc_decompress [0xF8; 0x20] 2 PACKET_COMPRESSED d = Abort.
Proof. unfold mppc_context_new, BitStream_New. destruct (malloc_ok 131120), (malloc_ok 48); [|done..]. intros [= <-]. vm_compute. reflexivity. Qed.

(** A last literal that is cut off makes the length that is left wrap round: the loop goes on, here until
    the history is full. *)
Theorem mppc_length_underflow `{Malloc} d : mppc_context_new 0 false = Some d ->
  match mppc_decompress [0x80] 1 PACKET_COMPRESSED (d <| mppc_HistoryPtr := 8190 |>) with
  | Ret ((code, _), c) => code = -1004 /\ ztake 2 (zdrop 8190 (mppc_HistoryBuffer c)) = [0x80; 0]
  | _ => False
  end.
Proof. unfold mppc_context_new, BitStream_New. destruct (malloc_ok 131120), (malloc_ok 48); [|done..]. intros [= <-]. vm_compute. by split. Qed.

Lemma new_decompressor : exists d, @mppc_context_new malloc_all 0 false = Some d /\ mppc_ok 0 8192 d /\ mppc_HistoryPtr d = 0.
Proof.
  eexists. split; [reflexivity|]. split; [|reflexivity].
  constructor; [by left|done|done|]. split; [exact (zlen_zrep 65536 0)|by apply Forall_zrep].
Qed.

Lemma mppc_decompress_safe_witness :
  exists d r c', @mppc_context_new malloc_all 0 false = Some d /\
    mppc_decompress [0xF8; 0x20] (zlen [0xF8; 0x20]) PACKET_COMPRESSED d = Ret (r, c') /\ mppc_ok 0 8192 c'.
Proof.
  destruct new_decompressor as (d & E & Hok & Hp). exists d.
  assert (Hr : 0 <= mppc_HistoryPtr d <= 8192) by (rewrite Hp; lia).
  assert (Hb : Forall is_byte [0xF8; 0x20]) by (repeat apply Forall_cons_2; [done|done|apply Forall_nil_2]).
  pose proof (mppc_decompress_safe 0 8192 d [0xF8; 0x20] PACKET_COMPRESSED Hok Hr Hb eq_refl) as Hw.
  destruct (ro_ret _ _ _ _ Hw) as (r & c' & Er & Hc & _).
  - intros [Hl _]. discriminate Hl.
  - exists r, c'. split; [exact E|]. split; [exact Er|exact Hc].
Defined.
