(* ===== verification/MppcSession.v ===== *)
(** * The MPPC compressor and a session

    What the compressor writes is in the format, and it stands for the source.  A compressor and a
    decompressor that start together stay in step: every packet of a session comes out as it went in. *)

From S2P Require Import Prelude Memory BitStream Mppc MppcFormat.

#[local] Opaque window bits_of.

(** ** Slices of the source *)

Definition slice (src : list Z) (p k : Z) : list Z := ztake k (zdrop p src).

Lemma zlen_slice src p k : 0 <= p -> 0 <= k -> p + k <= zlen src -> zlen (slice src p k) = k.
Proof. intros. unfold slice. rewrite zlen_ztake, zlen_zdrop. lia. Qed.

Lemma slice_snoc src p k : 0 <= p -> 0 <= k -> p + k < zlen src -> slice src p k ++ [znth src (p + k)] = slice src p (k + 1).
Proof.
  intros Hp Hk Hs. unfold slice. znth_solve.
  replace (i - _) with 0 by lia. cbn. f_equal. lia.
Qed.

Lemma slice_take src p k : 0 <= p -> 0 <= k -> ztake p src ++ slice src p k = ztake (p + k) src.
Proof. intros. unfold slice. by znth_solve. Qed.

Lemma splice_snoc src H h p k : 0 <= h -> 0 <= p -> 0 <= k -> p + k < zlen src -> h + k < zlen H ->
  splice (h + k) [znth src (p + k)] (splice h (slice src p k) H) = splice h (slice src p (k + 1)) H.
Proof.
  intros. rewrite <- slice_snoc by lia. rewrite <- (zlen_slice src p k) at 1 by lia. apply splice_splice; [lia|]. rewrite zlen_slice, zlen_cons, zlen_nil by lia. lia.
Qed.

(** ** A copy from the history *)

Section match_found.
Context (src H : list Z) (s h p : Z).
Context (Hh : 0 <= h) (Hp : 0 <= p).

(** [n] bytes from [s] on in the history, as it grows, are those of the source. *)
Definition matches (n : Z) : Prop := forall j, 0 <= j < n -> znth (splice h (slice src p j) H) (s + j) = znth src (p + j).

Lemma copy_matches n k : 0 <= k -> p + k + Z.of_nat n <= zlen src -> h + k + Z.of_nat n <= zlen H -> matches (k + Z.of_nat n) ->
  copy_list n (s + k) (h + k) (splice h (slice src p k) H) = splice h (slice src p (k + Z.of_nat n)) H.
Proof using Hh Hp.
  revert k. induction n as [|n IH]; intros k Hk Hs HH Hm; [by rewrite Z.add_0_r|]. cbn [copy_list]. rewrite Hm, splice_snoc by lia.
  replace (k + Z.of_nat (S n)) with (k + 1 + Z.of_nat n) in * by lia. rewrite <- IH by (done || lia). f_equal; lia.
Qed.
End match_found.

(** ** The format, put together *)

Section coded_facts.
Context (lvl size : Z) (Hlv : mppc_level lvl size).

Lemma coded_trans f p1 h1 H1 p2 h2 H2 p3 h3 H3 :
  coded lvl size f p1 h1 H1 p2 h2 H2 -> coded lvl size f p2 h2 H2 p3 h3 H3 -> coded lvl size f p1 h1 H1 p3 h3 H3.
Proof using. induction 1; intros; [done|eapply coded_literal; eauto|eapply coded_copy; eauto]. Qed.

(** Bits behind the end do not matter. *)
Lemma coded_agree f g p1 h1 H1 p2 h2 H2 : coded lvl size f p1 h1 H1 p2 h2 H2 -> 0 <= p1 ->
  (forall q k, 0 <= q -> q + Z.of_nat k <= p2 -> window g q k = window f q k) -> coded lvl size g p1 h1 H1 p2 h2 H2 /\ p1 <= p2.
Proof using Hlv.
  induction 1 as [pos h H|pos h H x v n pos' h' H' Hx Hh Hv Hw _ IH|pos h H o l v n v2 n2 pos' h' H' Ho Hl Hh Hhl Hsl Eo Hw El Hw2 _ IH]; intros Hp1 Hg.
  - split; [constructor|lia].
  - pose proof (literal_code_spec x Hx) as Hs. rewrite Hv in Hs. destruct (IH ltac:(lia) Hg) as [IH1 IH2]. split; [|lia]. eapply coded_literal; [done|done|done| |done]. by rewrite Hg by lia.
  - destruct (offset_code_spec lvl o ltac:(lia)) as (? & ? & Eo' & ? & _). destruct (length_code_spec lvl l ltac:(lia)) as (? & ? & El' & ? & _). simplify_eq.
    destruct (IH ltac:(lia) Hg) as [IH1 IH2]. split; [|lia]. eapply coded_copy; [done|done|done|done|done|done| |done| |done]; by rewrite Hg by lia.
Qed.
End coded_facts.

(** ** Compressor *)

Lemma match_index_range a b c : 0 <= MPPC_MATCH_INDEX a b c < 32768.
Proof.
  unfold MPPC_MATCH_INDEX. rewrite Z.shiftr_land. change (Z.shiftr 0x07FFF000 12) with (2 ^ 15 - 1). rewrite land_mask by lia. by apply Z.mod_pos_bound.
Qed.

Section compressor.
Context (lvl size : Z) (src : list Z) (DstSize h0 before : Z) (H0 : list Z).
Context (Hsrc : Forall is_byte src) (Hlen : 1 <= zlen src) (Hh0 : 0 <= h0) (Hfit : h0 + zlen src < size - 3).
Context (Hdst : 1 <= DstSize <= zlen src) (HH0 : zlen H0 = 65536).

(** The part of the context that is between packets, too. *)
Record compressor_ok (c : MPPC_CONTEXT) : Prop := {
  cmp_ok : mppc_ok lvl size c;
  cmp_match : zlen (mppc_MatchBuffer c) = 32768 /\ Forall (fun e => 0 <= e < size - 3) (mppc_MatchBuffer c);
  cmp_max : 0 <= mppc_HistoryPtr c < size - 3
}.

(** The bits that were written for [p] bytes, with the history after them. *)
Record written (b : wBitStream) (H : list Z) (f : Z -> bool) (pos p : Z) : Prop := {
  wrt_writing : writing b f pos;
  wrt_capacity : bs_capacity b = DstSize /\ pos <= 8 * DstSize;
  wrt_source : 0 <= p <= zlen src;
  wrt_history : H = splice h0 (ztake p src) H0;
  wrt_coded : coded lvl size f 0 h0 H0 pos (h0 + p) H
}.

Lemma sizes : mppc_level lvl size -> h0 + zlen src < 65533 /\ DstSize < 65533.
Proof using All. lia. Qed.

Lemma write_code_run c f pos v n : writing (mppc_bs c) f pos -> 0 < n < 32 -> 0 <= v < 2 ^ n -> pos + n < 2 ^ 32 ->
  exists b, write_code (Some (v, n)) c = Ret (tt, c <| mppc_bs := b |>) /\ writing b (extend f pos v n) (pos + n) /\ bs_capacity b = bs_capacity (mppc_bs c).
Proof using.
  intros Hw Hn Hv Hmax. destruct (write_run _ _ _ v n Hw Hn Hv Hmax) as (b & E & Hw' & Hc & _). exists b. split; [by apply on_bs_run|done].
Qed.

(** The bits of a literal. *)
Lemma written_literal b H f pos p v n b' : mppc_level lvl size -> written b H f pos p -> p < zlen src ->
  literal_code (znth src p) = (v, n) -> writing b' (extend f pos v n) (pos + n) -> bs_capacity b' = bs_capacity b -> pos + n <= 8 * DstSize ->
  written b' (splice (h0 + p) [znth src p] H) (extend f pos v n) (pos + n) (p + 1).
Proof using All.
  intros Hlv [Hw [Hc _] Hp HH Hcd] Hlt Hv Hw' Hc' Hroom. pose proof (wr_pos _ _ _ Hw) as [Hpos _].
  assert (Hx : is_byte (znth src p)) by (apply znth_byte, Hsrc). pose proof (literal_code_spec _ Hx) as Hs. rewrite Hv in Hs. destruct Hs as (Hn & Hvb & _).
  destruct (extend_windows f pos v n Hpos ltac:(lia) Hvb) as (G1 & G2 & _). destruct (coded_agree lvl size Hlv f _ _ _ _ _ _ _ Hcd ltac:(lia) (fun q k _ => G1 q k)) as [Hcd' _].
  constructor; [done|by rewrite Hc', Hc|lia| |].
  - rewrite HH. pose proof (splice_snoc src H0 h0 0 p Hh0 ltac:(lia) ltac:(lia) Hlt ltac:(lia)) as E. unfold slice in E. by rewrite zdrop_0, Z.add_0_l in E by lia.
  - eapply coded_trans; [exact Hcd'|]. replace (h0 + (p + 1)) with (h0 + p + 1) by lia. eapply coded_literal; [exact Hx|lia|exact Hv|exact G2|constructor].
Qed.

(** The bits of a copy of [l] bytes from [m - 1] on. *)
Lemma written_copy b H f pos p m l v n v2 n2 b' : mppc_level lvl size -> written b H f pos p -> 3 <= l -> p + l <= zlen src ->
  1 <= m -> m - 1 + l <= size -> m <> h0 + p + 1 -> matches src H (m - 1) (h0 + p) p l -> let o := (h0 + p + 1 - m) mod size in
  offset_code lvl o = Some (v, n) -> length_code lvl l = Some (v2, n2) ->
  writing b' (extend (extend f pos v n) (pos + n) v2 n2) (pos + n + n2) -> bs_capacity b' = bs_capacity b -> pos + n + n2 <= 8 * DstSize ->
  written b' (splice (h0 + p) (slice src p l) H) (extend (extend f pos v n) (pos + n) v2 n2) (pos + n + n2) (p + l).
Proof using All.
  intros Hlv [Hw [Hc _] Hp HH Hcd] Hl Hpl Hm Hml Hmne Hmatch o Ho Hlc Hw' Hc' Hroom. pose proof (wr_pos _ _ _ Hw) as [Hpos _].
  assert (Hob : 0 <= o < size) by (apply Z.mod_pos_bound; lia).
  destruct (offset_code_spec lvl o ltac:(lia)) as (v' & n' & Eo & Hn & Hvb & _). rewrite Eo in Ho. injection Ho as -> ->.
  destruct (length_code_spec lvl l ltac:(lia)) as (v2' & n2' & El & Hn2 & Hv2b & _). rewrite El in Hlc. injection Hlc as -> ->.
  destruct (extend_windows f pos v n Hpos ltac:(lia) Hvb) as (G1 & G2 & _). destruct (extend_windows (extend f pos v n) (pos + n) v2 n2 ltac:(lia) ltac:(lia) Hv2b) as (K1 & K2 & _).
  set (g := extend (extend f pos v n) (pos + n) v2 n2) in *.
  destruct (coded_agree lvl size Hlv f g _ _ _ _ _ _ Hcd ltac:(lia)) as [Hcd' _]; [intros q k _ Hq; rewrite K1 by lia; by apply G1|].
  assert (Emod : (h0 + p - o) mod size = m - 1) by (unfold o; rewrite Zminus_mod_idemp_r; replace (h0 + p - (h0 + p + 1 - m)) with (m - 1) by lia; apply Z.mod_small; lia).
  assert (HzH : zlen H = 65536) by (rewrite HH, zlen_splice; rewrite ?zlen_ztake; lia).
  constructor; [done|by rewrite Hc', Hc|lia| |].
  - rewrite HH. rewrite <- (slice_take src p l) by lia. rewrite <- (splice_splice h0 (ztake p src) (slice src p l)) by (rewrite ?zlen_slice, ?zlen_ztake by lia; lia).
    rewrite zlen_ztake. do 2 f_equal. lia.
  - eapply coded_trans; [exact Hcd'|]. replace (h0 + (p + l)) with (h0 + p + l) by lia.
    eapply (coded_copy lvl size g _ _ _ o l); [lia|lia|lia|lia|lia|exact Eo|rewrite K1 by lia; exact G2|exact El|exact K2|].
    pose proof (copy_matches src H (m - 1) (h0 + p) p ltac:(lia) ltac:(lia) (Z.to_nat l) 0 ltac:(lia)) as Hcp. rewrite Z2Nat.id, !Z.add_0_r, !Z.add_0_l in Hcp by lia.
    unfold slice at 1 in Hcp. rewrite ztake_0, splice_nil in Hcp by lia. rewrite Emod, Hcp by (done || lia). constructor.
Qed.

(** The test for a match. *)
Lemma no_match_run c s1 s2 s3 m h : zlen (mppc_HistoryBuffer c) = 65536 -> 0 <= m < 65535 ->
  let H := mppc_HistoryBuffer c in
  exists r, no_match before s1 s2 s3 m h c = Ret (r, c) /\
    (r = false -> 1 <= m /\ znth H (m - 1) = s1 /\ znth H m = s2 /\ znth H (m + 1) = s3 /\ m + 1 <= mppc_HistoryPtr c /\ m <> h - 1 /\ m <> h).
Proof using.
  intros Hz Hm H. unfold no_match. rewrite pbind_pget.
  assert (E0 : exists m0, history_get before (m - 1) c = Ret m0 /\ (1 <= m -> m0 = znth H (m - 1))).
  { unfold history_get. case_if; [by exists before; split; [|lia]|]. rewrite slot_get_run by lia. by eexists. }
  destruct E0 as (m0 & E0 & Hm0). rewrite E0, pbind_plift. case_if; [by exists true|]. rewrite slot_get_run, pbind_plift by lia. case_if; [by exists true|].
  rewrite slot_get_run, pbind_plift by lia. eexists. split; [reflexivity|]. intros Hr. rewrite !orb_false_iff in Hr. subst H.
  assert (1 <= m) by lia. specialize (Hm0 ltac:(lia)). lia.
Qed.

(** The loop that makes a match longer. *)
Lemma extend_match_run fuel : forall c H m p h k, zlen (mppc_HistoryBuffer c) = 65536 -> zlen H = 65536 -> mppc_HistoryBuffer c = splice h (slice src p k) H ->
  mppc_level lvl size -> mppc_HistoryPtr c < size - 3 -> 1 <= m -> m - 1 + k <= mppc_HistoryPtr c + 1 -> 0 <= p -> 0 <= h -> 3 <= k -> p + k <= zlen src - 1 -> h + (zlen src - p) <= 65535 ->
  matches src H (m - 1) h p k -> zlen src - (p + k) <= Z.of_nat fuel ->
  exists l, extend_match fuel src (p + k) (zlen src - 1) (m - 1 + k) (h + k) k c =
      Ret ((p + l, h + l, l), c <| mppc_HistoryBuffer := splice h (slice src p l) H |>) /\
    k <= l /\ p + l <= zlen src - 1 /\ m - 1 + l <= mppc_HistoryPtr c + 1 /\ matches src H (m - 1) h p l.
Proof using.
  induction fuel as [|fuel IH]; intros c H m p h k Hz HzH HH Hlv HM Hm Hmk Hp Hh Hk Hpk Hhs Hmatch Hfuel; [lia|].
  cbn [extend_match]. rewrite pbind_pget, slot_get_run, pbind_plift, slot_get_run, pbind_plift by lia. case_if.
  - apply andb_prop in E as [E E3]. apply andb_prop in E as [E1 E2]. rewrite (pbind_ret _ _ _ _ _ (history_set_run (h + k) _ c ltac:(lia))).
    rewrite HH, splice_snoc by lia. set (c1 := c <| mppc_HistoryBuffer := splice h (slice src p (k + 1)) H |>).
    replace (p + k + 1) with (p + (k + 1)) by lia. replace (m - 1 + k + 1) with (m - 1 + (k + 1)) by lia. replace (h + k + 1) with (h + (k + 1)) by lia.
    destruct (IH c1 H m p h (k + 1)) as (l & El & Hl1 & Hl2 & Hl3 & Hl4); [|done|reflexivity|done|exact HM|lia|change (mppc_HistoryPtr c1) with (mppc_HistoryPtr c); lia|lia..| |lia|].
    + change (zlen (splice h (slice src p (k + 1)) H) = 65536). rewrite zlen_splice; rewrite ?zlen_slice; lia.
    + intros j Hj. destruct (decide (j = k)) as [->|]; [rewrite <- HH; lia|]. apply Hmatch. lia.
    + exists l. split; [exact El|]. split_and!; [lia|lia|exact Hl3|exact Hl4].
  - exists k. split; [rewrite <- HH; by destruct c|]. split_and!; [lia|lia|lia|done].
Qed.

Lemma Forall_znth (P : Z -> Prop) l i : Forall P l -> 0 <= i < zlen l -> P (znth l i).
Proof using.
  intros Hl Hi. unfold znth. replace (i <? 0) with false by lia. rewrite Forall_forall in Hl. apply Hl, list_elem_of_In, nth_In. unfold zlen in Hi. lia.
Qed.

Lemma match_update_run c i h : compressor_ok c -> 0 <= i < 32768 -> 0 <= h < size - 3 ->
  exists c', match_update i h c = Ret (znth (mppc_MatchBuffer c) i, c') /\ compressor_ok c' /\ mppc_bs c' = mppc_bs c /\
    mppc_HistoryBuffer c' = mppc_HistoryBuffer c /\ 0 <= znth (mppc_MatchBuffer c) i < size - 3.
Proof using.
  intros [[Hlv Hl Hs Hh] [Hzm Hm] HM] Hi Hhr. unfold match_update. rewrite pbind_pget, slot_get_run, pbind_plift by lia. set (m := znth (mppc_MatchBuffer c) i).
  pose proof (Forall_znth _ _ i Hm ltac:(lia)) as Hmr. set (MB := if negb (m =? h - 1) then splice i [h] (mppc_MatchBuffer c) else mppc_MatchBuffer c).
  assert (HMB : zlen MB = 32768 /\ Forall (fun e => 0 <= e < size - 3) MB).
  { unfold MB. case_if; [|done]. rewrite zlen_splice1 by lia. split; [lia|]. by apply Forall_splice; [apply Forall_singleton|]. }
  set (c1 := c <| mppc_MatchBuffer := MB |>). rewrite (pbind_ret _ _ _ tt c1).
  2: { unfold c1, MB. case_if; [|by destruct c]. rewrite u16_id, slot_set_run, pbind_plift by lia. done. }
  set (c2 := c1 <| mppc_HistoryPtr := Z.max h (mppc_HistoryPtr c) |>). rewrite (pbind_ret _ _ _ tt c2).
  2: { unfold c2. case_if; [by replace (Z.max _ _) with h by lia|]. replace (Z.max _ _) with (mppc_HistoryPtr c1) by (change (mppc_HistoryPtr c1) with (mppc_HistoryPtr c); lia). by destruct c1. }
  exists c2. split; [done|]. split; [|done]. constructor; [by constructor|exact HMB|]. cbn. lia.
Qed.

Lemma room n c f pos : mppc_level lvl size -> writing (mppc_bs c) f pos -> pos <= 8 * DstSize -> 0 <= n <= 7 -> no_room n DstSize c = false -> pos + 8 * n - 7 <= 8 * DstSize.
Proof using All.
  intros Hlv [_ [Hpos Ep] _ _ _ _ _] Hle Hn Hroom. unfold no_room in Hroom. rewrite Ep in Hroom.
  assert (Hd : 8 * (pos / 8) <= pos < 8 * (pos / 8) + 8) by (Z.div_mod_to_equations; lia). rewrite !u32_id in Hroom by lia. lia.
Qed.

(** After a step: no room, or more of the source in the packet. *)
Definition step_post (p : Z) (r : option (Z * Z)) (c' : MPPC_CONTEXT) : Prop :=
  match r with
  | None => mppc_ok lvl size c'
  | Some (p', h') => h' = h0 + p' /\ p < p' <= zlen src /\ compressor_ok c' /\ exists f' pos', written (mppc_bs c') (mppc_HistoryBuffer c') f' pos' p'
  end.

Lemma compressor_update c b H : compressor_ok c -> zlen H = 65536 -> Forall is_byte H -> compressor_ok (c <| mppc_HistoryBuffer := H |> <| mppc_bs := b |>).
Proof using. intros [[Hlv Hl Hs _] Hm HM] HzH HbH. constructor; [by constructor|exact Hm|exact HM]. Qed.

Lemma slice_bytes p k H h : Forall is_byte H -> Forall is_byte (splice h (slice src p k) H).
Proof using Hsrc. intros HH. apply Forall_splice; [|done]. by apply Forall_ztake, Forall_zdrop. Qed.

(** The history of a compressor with the symbols of a match. *)
Lemma match_start c H p h m : mppc_HistoryBuffer c = splice h [znth src p] H -> zlen H = 65536 -> 0 <= p -> p + 3 <= zlen src - 1 -> 0 <= h -> h + 3 <= 65536 ->
  1 <= m -> m <> h -> m <> h + 1 -> znth (mppc_HistoryBuffer c) (m - 1) = znth src p -> znth (mppc_HistoryBuffer c) m = znth src (p + 1) -> znth (mppc_HistoryBuffer c) (m + 1) = znth src (p + 2) ->
  splice (h + 1 + 1) [znth src (p + 2)] (splice (h + 1) [znth src (p + 1)] (mppc_HistoryBuffer c)) = splice h (slice src p 3) H /\ matches src H (m - 1) h p 3.
Proof using.
  intros HH HzH Hp Hps Hh Hhs Hm Hm1 Hm2 M0 M1 M2.
  assert (S0 : slice src p 0 = []) by (unfold slice; by apply ztake_0).
  assert (S1 : mppc_HistoryBuffer c = splice h (slice src p 1) H).
  { rewrite HH. pose proof (splice_snoc src H h p 0 ltac:(lia) ltac:(lia) ltac:(lia) ltac:(lia) ltac:(lia)) as E. by rewrite S0, splice_nil, !Z.add_0_r, Z.add_0_l in E. }
  assert (S2 : splice (h + 1) [znth src (p + 1)] (splice h (slice src p 1) H) = splice h (slice src p 2) H) by (apply (splice_snoc src H h p 1); lia).
  split; [rewrite S1, S2; replace (h + 1 + 1) with (h + 2) by lia; apply (splice_snoc src H h p 2); lia|].
  assert (V : forall i, znth (mppc_HistoryBuffer c) i = if i =? h then znth src p else znth H i) by (intros i; rewrite HH; apply znth_splice1; lia).
  intros j Hj. assert (j = 0 \/ j = 1 \/ j = 2) as [->|[->| ->]] by lia.
  - rewrite S0, splice_nil, !Z.add_0_r. rewrite V in M0. by replace (m - 1 =? h) with false in M0 by lia.
  - replace (m - 1 + 1) with m by lia. by rewrite <- S1.
  - replace (m - 1 + 2) with (m + 1) by lia. rewrite <- S2, znth_splice1 by (rewrite zlen_splice; rewrite ?zlen_slice; lia). rewrite <- S1. by replace (m + 1 =? h + 1) with false by lia.
Qed.

Lemma compress_copy_run c H f pos p m : compressor_ok c -> mppc_HistoryBuffer c = splice (h0 + p) [znth src p] H -> written (mppc_bs c) H f pos p -> p + 3 <= zlen src - 1 -> Forall is_byte H ->
  1 <= m -> m <> h0 + p -> m <> h0 + p + 1 -> m + 1 <= mppc_HistoryPtr c -> znth (mppc_HistoryBuffer c) (m - 1) = znth src p -> znth (mppc_HistoryBuffer c) m = znth src (p + 1) ->
  znth (mppc_HistoryBuffer c) (m + 1) = znth src (p + 2) ->
  runs (compress_copy src (zlen src - 1) DstSize (znth src (p + 1)) (znth src (p + 2)) m (p + 1) (h0 + p + 1)) c (step_post p).
Proof using All.
  intros Hcok HH Hwr Hps HbH Hm Hm1 Hm2 HM M0 M1 M2. pose proof Hcok as [[Hlv Hl Hs [Hz Hb]] _ Hmax]. pose proof Hwr as [Hw [Hcap Hpos] Hp Hhist _]. pose proof (sizes Hlv) as [Hsz Hsz2].
  assert (HzH : zlen H = 65536) by (rewrite Hhist, zlen_splice; rewrite ?zlen_ztake; lia).
  destruct (match_start c H p (h0 + p) m HH HzH ltac:(lia) Hps ltac:(lia) ltac:(lia) Hm Hm1 Hm2 M0 M1 M2) as [E3 Hmt].
  set (c1 := c <| mppc_HistoryBuffer := splice (h0 + p + 1) [znth src (p + 1)] (mppc_HistoryBuffer c) |>).
  set (c2 := c <| mppc_HistoryBuffer := splice (h0 + p) (slice src p 3) H |>).
  assert (Hz1 : zlen (mppc_HistoryBuffer c1) = 65536) by (change (zlen (splice (h0 + p + 1) [znth src (p + 1)] (mppc_HistoryBuffer c)) = 65536); rewrite zlen_splice1; lia).
  assert (Hz2 : zlen (mppc_HistoryBuffer c2) = 65536) by (change (zlen (splice (h0 + p) (slice src p 3) H) = 65536); rewrite zlen_splice; rewrite ?zlen_slice; lia).
  assert (R1 : history_set (h0 + p + 1) (znth src (p + 1)) c = Ret (tt, c1)) by (apply history_set_run; lia).
  assert (R2 : history_set (h0 + p + 1 + 1) (znth src (p + 2)) c1 = Ret (tt, c2)) by (rewrite history_set_run by lia; unfold c2; rewrite <- E3; reflexivity).
  destruct (extend_match_run (length src) c2 H m p (h0 + p) 3) as (l & El & Hl3 & Hlp & Hlm & Hlmt); [exact Hz2|done|reflexivity|done|exact (proj2 Hmax)|done|
    change (mppc_HistoryPtr c2) with (mppc_HistoryPtr c); lia|lia..|exact Hmt|unfold zlen; lia|].
  change (mppc_HistoryPtr c2) with (mppc_HistoryPtr c) in Hlm. unfold compress_copy, runs. rewrite pbind_pget. cbv zeta. rewrite (pbind_ret _ _ _ _ _ R1), (pbind_ret _ _ _ _ _ R2).
  replace (p + 1 + 2) with (p + 3) by lia. replace (m + 2) with (m - 1 + 3) by lia. replace (h0 + p + 1 + 2) with (h0 + p + 3) by lia. rewrite (pbind_ret _ _ _ _ _ El).
  set (H' := splice (h0 + p) (slice src p l) H) in *. set (c3 := c2 <| mppc_HistoryBuffer := H' |>). cbv beta iota.
  assert (HzH' : zlen H' = 65536) by (unfold H'; rewrite zlen_splice; rewrite ?zlen_slice; lia). assert (HbH' : Forall is_byte H') by (by apply slice_bytes).
  destruct (no_room 7 DstSize c) eqn:Eroom; [exists None, c3; split; [reflexivity|by constructor]|]. pose proof (room 7 c f pos Hlv Hw Hpos ltac:(lia) Eroom) as Hroom.
  assert (Eo : u32 (Z.land (mppc_HistoryBufferSize c - 1) (h0 + p + 1 - m)) = (h0 + p + 1 - m) mod size).
  { rewrite Hs, Z.land_comm. destruct Hlv as [[_ ->]|[_ ->]]; [change (8192 - 1) with (2 ^ 13 - 1)|change (65536 - 1) with (2 ^ 16 - 1)]; rewrite land_mask by lia;
      rewrite u32_id; try reflexivity; Z.div_mod_to_equations; lia. }
  rewrite Eo, Hl. set (o := (h0 + p + 1 - m) mod size). assert (Hob : 0 <= o < size) by (apply Z.mod_pos_bound; lia).
  destruct (offset_code_spec lvl o ltac:(lia)) as (v & n & Ev & Hn & Hvb & _). destruct (length_code_spec lvl l ltac:(lia)) as (v2 & n2 & Ev2 & Hn2 & Hvb2 & _). rewrite Ev, Ev2.
  destruct (write_code_run c3 f pos v n Hw ltac:(lia) Hvb ltac:(lia)) as (b1 & W1 & Hw1 & Hc1). rewrite (pbind_ret _ _ _ _ _ W1). set (c4 := c3 <| mppc_bs := b1 |>).
  destruct (write_code_run c4 _ (pos + n) v2 n2 Hw1 ltac:(lia) Hvb2 ltac:(lia)) as (b2 & W2 & Hw2 & Hc2). rewrite (pbind_ret _ _ _ _ _ W2).
  change (mppc_bs c4) with b1 in Hc2. change (mppc_bs c3) with (mppc_bs c) in Hc1.
  eexists (Some (p + l, h0 + p + l)), _. split; [reflexivity|]. split; [lia|]. split; [lia|]. split; [exact (compressor_update c b2 H' Hcok HzH' HbH')|].
  eexists _, _. eapply (written_copy (mppc_bs c) H f pos p m l v n v2 n2 b2); [done|done|lia|lia|done|lia|done|done|exact Ev|exact Ev2|exact Hw2|lia|lia].
Qed.

Lemma compress_step_run c f pos p : compressor_ok c -> written (mppc_bs c) (mppc_HistoryBuffer c) f pos p -> p < zlen src - 1 - 2 ->
  runs (compress_step before src (zlen src - 1) DstSize p (h0 + p)) c (step_post p).
Proof using All.
  intros Hcok Hwr Hps. pose proof Hcok as [[Hlv Hl Hs [Hz Hb]] _ Hmax]. pose proof Hwr as [Hw [Hcap Hpos] Hp Hhist _]. pose proof (sizes Hlv) as [Hsz Hsz2].
  set (H := mppc_HistoryBuffer c) in *. unfold compress_step, runs. rewrite !slot_get_run, !pbind_plift by lia. cbv zeta. set (x := znth src p).
  assert (Hx : is_byte x) by (apply znth_byte, Hsrc). set (H1 := splice (h0 + p) [x] H). set (c1 := c <| mppc_HistoryBuffer := H1 |>).
  assert (HzH1 : zlen H1 = 65536) by (unfold H1; rewrite zlen_splice1; lia). assert (HbH1 : Forall is_byte H1) by (by apply Forall_splice; [apply Forall_singleton|]).
  rewrite (pbind_ret _ _ _ tt c1) by (apply history_set_run; fold H; lia).
  assert (Hc1 : compressor_ok c1) by exact (compressor_update c (mppc_bs c) H1 Hcok HzH1 HbH1).
  set (i := MPPC_MATCH_INDEX x (znth src (p + 1)) (znth src (p + 2))).
  destruct (match_update_run c1 i (h0 + p + 1) Hc1 (match_index_range _ _ _) ltac:(lia)) as (c2 & E2 & Hc2 & Hbs2 & HH2 & Hm). rewrite (pbind_ret _ _ _ _ _ E2).
  set (m := znth (mppc_MatchBuffer c1) i) in *. change (mppc_bs c1) with (mppc_bs c) in Hbs2. change (mppc_HistoryBuffer c1) with H1 in HH2.
  destruct (no_match_run c2 x (znth src (p + 1)) (znth src (p + 2)) m (h0 + p + 1)) as (r & Er & Hr); [by rewrite HH2|lia|]. rewrite (pbind_ret _ _ _ _ _ Er), pbind_pget.
  destruct r.
  - destruct (no_room 2 DstSize c2) eqn:Eroom; [exists None, c2; split; [reflexivity|exact (cmp_ok _ Hc2)]|]. rewrite <- Hbs2 in Hwr, Hw.
    pose proof (room 2 c2 f pos Hlv Hw Hpos ltac:(lia) Eroom) as Hroom. destruct (literal_code x) as [v n] eqn:Ev. pose proof (literal_code_spec x Hx) as Hspec. rewrite Ev in Hspec.
    destruct Hspec as (Hn & Hvb & _). destruct (write_code_run c2 f pos v n Hw ltac:(lia) Hvb ltac:(lia)) as (b1 & W1 & Hw1 & Hcb). rewrite (pbind_ret _ _ _ _ _ W1).
    eexists (Some (p + 1, h0 + p + 1)), _. split; [reflexivity|]. split; [lia|]. split; [lia|].
    split; [destruct Hc2 as [[? ? ? ?] ? ?]; constructor; [by constructor|done|done]|].
    exists (extend f pos v n), (pos + n). change (written b1 (mppc_HistoryBuffer c2) (extend f pos v n) (pos + n) (p + 1)). rewrite HH2.
    eapply (written_literal (mppc_bs c2) H f pos p v n b1); [done|exact Hwr|lia|exact Ev|exact Hw1|exact Hcb|lia].
  - destruct (Hr eq_refl) as (K1 & K2 & K3 & K4 & K5 & K6 & K7). rewrite <- Hbs2 in Hwr.
    exact (compress_copy_run c2 H f pos p m Hc2 HH2 Hwr ltac:(lia) Hb K1 ltac:(lia) K7 K5 K2 K3 K4).
Qed.

Lemma compress_loop_run fuel : forall c f pos p, compressor_ok c -> written (mppc_bs c) (mppc_HistoryBuffer c) f pos p -> zlen src - p < Z.of_nat fuel ->
  runs (compress_loop fuel before src (zlen src - 1) DstSize p (h0 + p)) c (step_post (p - 1)).
Proof using All.
  induction fuel as [|fuel IH]; intros c f pos p Hcok Hwr Hfuel; pose proof (wrt_source _ _ _ _ _ Hwr) as Hp; [lia|]. cbn [compress_loop]. case_if.
  - apply runs_bind. eapply runs_weaken; [by eapply compress_step_run|]. intros [[p' h']|] c1 Hpost; [|by apply runs_pret].
    destruct Hpost as (-> & Hp' & Hc1 & f1 & pos1 & Hw1). eapply runs_weaken; [eapply IH; [done|done|lia]|].
    intros [[p2 h2]|] c2 H2; [|done]. destruct H2 as (? & ? & ? & ?). split_and!; [done|lia|lia|done|done].
  - apply runs_pret. split_and!; [done|lia|lia|done|by exists f, pos].
Qed.

(** The symbols that are left; then all of the source is in the packet. *)
Lemma compress_trailing_run fuel : forall c f pos p, compressor_ok c -> written (mppc_bs c) (mppc_HistoryBuffer c) f pos p -> zlen src - p < Z.of_nat fuel ->
  runs (compress_trailing fuel src (zlen src - 1) DstSize p (h0 + p)) c (fun r c' =>
    match r with
    | None => mppc_ok lvl size c'
    | Some h' => h' = h0 + zlen src /\ compressor_ok c' /\ exists f' pos', written (mppc_bs c') (mppc_HistoryBuffer c') f' pos' (zlen src)
    end).
Proof using All.
  induction fuel as [|fuel IH]; intros c f pos p Hcok Hwr Hfuel; pose proof Hwr as [Hw [Hcap Hpos] Hp Hhist _]; [lia|]. cbn [compress_trailing].
  pose proof Hcok as [[Hlv Hl Hs [Hz Hb]] _ Hmax]. pose proof (sizes Hlv) as [Hsz Hsz2]. case_if.
  - unfold runs. rewrite pbind_pget. destruct (no_room 2 DstSize c) eqn:Eroom; [exists None, c; split; [reflexivity|exact (cmp_ok _ Hcok)]|].
    rewrite slot_get_run, pbind_plift by lia. set (x := znth src p). assert (Hx : is_byte x) by (apply znth_byte, Hsrc).
    pose proof (room 2 c f pos Hlv Hw Hpos ltac:(lia) Eroom) as Hroom. destruct (literal_code x) as [v n] eqn:Ev. pose proof (literal_code_spec x Hx) as Hspec. rewrite Ev in Hspec.
    destruct Hspec as (Hn & Hvb & _). destruct (write_code_run c f pos v n Hw ltac:(lia) Hvb ltac:(lia)) as (b1 & W1 & Hw1 & Hcb). rewrite (pbind_ret _ _ _ _ _ W1).
    set (c1 := c <| mppc_bs := b1 |>). set (H1 := splice (h0 + p) [x] (mppc_HistoryBuffer c)). set (c2 := c1 <| mppc_HistoryBuffer := H1 |>).
    rewrite (pbind_ret _ _ _ tt c2) by (apply history_set_run; change (mppc_HistoryBuffer c1) with (mppc_HistoryBuffer c); lia).
    replace (h0 + p + 1) with (h0 + (p + 1)) by lia.
    assert (HzH1 : zlen H1 = 65536) by (unfold H1; rewrite zlen_splice1; lia). assert (HbH1 : Forall is_byte H1) by (by apply Forall_splice; [apply Forall_singleton|]).
    apply (IH c2 (extend f pos v n) (pos + n) (p + 1)); [exact (compressor_update c b1 H1 Hcok HzH1 HbH1)| |lia].
    exact (written_literal (mppc_bs c) (mppc_HistoryBuffer c) f pos p v n b1 Hlv Hwr ltac:(lia) Ev Hw1 Hcb ltac:(lia)).
  - apply runs_pret. replace p with (zlen src) in * by lia. split_and!; [done|done|by exists f, pos].
Qed.
End compressor.

(** *** A packet *)

(** A compressor between two packets. *)
Record idle (lvl size : Z) (c : MPPC_CONTEXT) : Prop := {
  idle_ok : compressor_ok lvl size c;
  idle_offset : mppc_HistoryOffset c = 0 \/ (mppc_HistoryOffset c = size + 1 /\ mppc_HistoryBuffer c = zrep 65536 0) \/ 1 <= mppc_HistoryOffset c < size - 3;
  idle_rest : forall i, size <= i -> znth (mppc_HistoryBuffer c) i = 0
}.

(** What may be sent: a source that fits in the history, and a buffer for the packet. *)
Definition sendable (size : Z) (packet : list Z * list Z) : Prop :=
  let '(src, dst) := packet in Forall is_byte src /\ 1 <= zlen src < size - 3 /\ Forall is_byte dst /\ 1 <= zlen dst < 2 ^ 32.

Lemma znth_zrep n i : znth (zrep n 0) i = 0.
Proof.
  unfold znth, zrep. destruct (i <? 0); [done|]. destruct (nth_in_or_default (Z.to_nat i) (replicate (Z.to_nat n) 0) 0) as [Hi| ->]; [|done].
  apply list_elem_of_In, elem_of_replicate in Hi. tauto.
Qed.

Lemma reset_idle lvl size c : mppc_ok lvl size c -> forall flush, idle lvl size (mppc_context_reset flush c).
Proof.
  intros [Hlv Hl Hs _] flush.
  assert (Hok : mppc_ok lvl size (mppc_context_reset flush c)).
  { destruct flush; (constructor; [done|exact Hl|exact Hs|split; [exact (zlen_zrep 65536 0)|by apply Forall_zrep]]). }
  assert (Hc : compressor_ok lvl size (mppc_context_reset flush c)).
  { destruct flush; (constructor; [exact Hok|split; [exact (zlen_zrep 32768 0)|apply Forall_zrep; lia]|cbn; lia]). }
  destruct flush; (constructor; [exact Hc| |intros; apply znth_zrep]); [right; left|by left]. split; [|done]. change (u32 (mppc_HistoryBufferSize c + 1) = size + 1). rewrite Hs, u32_id; lia.
Qed.

(** The stream at the start. *)
Lemma attach_written lvl size src DstSize h0 H0 dst b : Forall is_byte dst -> 1 <= DstSize <= zlen dst -> DstSize < 65533 -> mppc_level lvl size ->
  written lvl size src DstSize h0 H0 (BitStream_Attach dst DstSize b) H0 (fun _ => false) 0 0.
Proof.
  intros Hd Hds Hmax Hlv. set (b1 := BitStream_Attach dst DstSize b).
  constructor; [apply attach_writing; [done|lia|lia]|change (bs_capacity b1) with DstSize; lia|pose proof (zlen_nonneg src); lia|by rewrite ztake_0, splice_nil by lia|rewrite Z.add_0_r; constructor].
Qed.

(** How a packet goes: as it is, with both histories cleared, or as bits in the format. *)
Inductive sent_as (lvl size : Z) (c : MPPC_CONTEXT) (src : list Z) : mppc_result * Z -> MPPC_CONTEXT -> Prop :=
| sent_plain c' :
    mppc_HistoryOffset c' = size + 1 -> mppc_HistoryBuffer c' = zrep 65536 0 ->
    sent_as lvl size c src ((1, Some (data_source, zlen src)), Z.lor PACKET_FLUSHED lvl) c'
| sent_bits c' h0 (front flushed : bool) pos :
    (if front then h0 = 0 else h0 = mppc_HistoryOffset c /\ 1 <= h0 < size - 3) -> (flushed = true -> front = true /\ mppc_HistoryBuffer c = zrep 65536 0) ->
    let data := ztake ((pos + 7) / 8) (bs_buffer (mppc_bs c')) in
    Forall is_byte data -> zlen data = (pos + 7) / 8 -> (pos + 7) / 8 <= zlen src ->
    coded lvl size (bits_of data) 0 h0 (mppc_HistoryBuffer c) pos (h0 + zlen src) (mppc_HistoryBuffer c') ->
    mppc_HistoryBuffer c' = splice h0 src (mppc_HistoryBuffer c) -> mppc_HistoryOffset c' = h0 + zlen src -> h0 + zlen src < size - 3 -> 
    sent_as lvl size c src ((1, Some (data_buffer, (pos + 7) / 8)),
      Z.lor (Z.lor (Z.lor PACKET_COMPRESSED lvl) (if front then PACKET_AT_FRONT else 0)) (if flushed then PACKET_FLUSHED else 0)) c'.

Lemma gives_up_run lvl size c c1 src : mppc_ok lvl size c1 ->
  runs (compress_gives_up (zlen src)) c1 (fun r c' => idle lvl size c' /\ sent_as lvl size c src r c').
Proof.
  intros Hok. pose proof (reset_idle lvl size c1 Hok true) as Hi. eexists _, _. split; [reflexivity|]. split; [exact Hi|].
  change (mppc_CompressionLevel _) with (mppc_CompressionLevel c1). rewrite (ok_lvl _ _ _ Hok). constructor; [|done].
  change (u32 (mppc_HistoryBufferSize c1 + 1) = size + 1). destruct Hok as [Hlv _ -> _]. rewrite u32_id; lia.
Qed.

Lemma znth_splice_after (h : Z) (l H : list Z) i : 0 <= h -> h + zlen l <= i -> h + zlen l <= zlen H -> znth (splice h l H) i = znth H i.
Proof. intros. pose proof (zlen_nonneg l). unfold splice. autorewrite with znth zlist. repeat case_if; try lia. f_equal. lia. Qed.

(** The end of a packet of bits. *)
Lemma packet_end lvl size c c2 src DstSize h0 (front flushed : bool) f pos :
  idle lvl size c -> compressor_ok lvl size c2 -> 0 <= h0 -> h0 + zlen src < size - 3 -> 1 <= zlen src -> DstSize <= zlen src ->
  (if front then h0 = 0 else h0 = mppc_HistoryOffset c /\ 1 <= h0 < size - 3) -> (flushed = true -> front = true /\ mppc_HistoryBuffer c = zrep 65536 0) ->
  written lvl size src DstSize h0 (mppc_HistoryBuffer c) (mppc_bs c2) (mppc_HistoryBuffer c2) f pos (zlen src) ->
  runs (on_bs BitStream_Flush ;; pmodify (fun c => c <| mppc_HistoryPtr := h0 + zlen src |> <| mppc_HistoryOffset := u32 (h0 + zlen src) |>) ;; c <- pget ;;
        pret ((1, Some (data_buffer, u32 (bs_position (mppc_bs c) + 7) / 8)),
              Z.lor (Z.lor (Z.lor PACKET_COMPRESSED lvl) (if front then PACKET_AT_FRONT else 0)) (if flushed then PACKET_FLUSHED else 0))) c2
    (fun r c' => idle lvl size c' /\ sent_as lvl size c src r c').
Proof.
  intros Hidle Hc2 Hh0 Hfit Hlen Hdst Hfront Hflush [Hw [Hcap Hpos] _ Hhist Hcd]. pose proof Hc2 as [[Hlv Hl Hs [Hz Hb]] Hm _].
  pose proof (wr_ok _ _ _ Hw) as (_ & Hcb & _). destruct (wr_pos _ _ _ Hw) as [Hp0 Ep]. rewrite ztake_all in Hhist by lia.
  assert (Hz0 : zlen (mppc_HistoryBuffer c) = 65536) by (apply (ok_history lvl size), (cmp_ok lvl size), (idle_ok lvl size), Hidle).
  destruct (finish_run _ _ _ Hw ltac:(lia)) as (buf & Ef & Hlb & Hbb & Hbits). set (b3 := mppc_bs c2 <| bs_buffer := buf |>) in *. set (c3 := c2 <| mppc_bs := b3 |>).
  assert (E3 : on_bs BitStream_Flush c2 = Ret (tt, c3)) by (by apply on_bs_run).
  assert (Eh : u32 (h0 + zlen src) = h0 + zlen src) by (apply u32_id; lia).
  set (c4 := c3 <| mppc_HistoryPtr := h0 + zlen src |> <| mppc_HistoryOffset := h0 + zlen src |>). unfold runs.
  rewrite (pbind_ret _ _ _ _ _ E3), (pbind_ret _ _ _ tt c4), pbind_pget by (unfold pmodify, c4; by rewrite Eh).
  change (bs_position (mppc_bs c4)) with (bs_position (mppc_bs c2)). rewrite Ep, u32_id by lia. eexists _, _. split; [reflexivity|].
  assert (Hr : 8 * ((pos + 7) / 8) <= pos + 7 < 8 * ((pos + 7) / 8) + 8) by (Z.div_mod_to_equations; lia). split.
  - constructor; [constructor; [by constructor|exact Hm|change (0 <= h0 + zlen src < size - 3); lia]|right; right; change (1 <= h0 + zlen src < size - 3); lia|].
    intros i Hi. change (znth (mppc_HistoryBuffer c2) i = 0). rewrite Hhist, znth_splice_after by lia. by apply (idle_rest _ _ _ Hidle).
  - refine (sent_bits lvl size c src c4 h0 front flushed pos Hfront Hflush _ _ _ _ Hhist eq_refl Hfit); change (bs_buffer (mppc_bs c4)) with buf.
    + by apply Forall_ztake.
    + rewrite zlen_ztake. lia.
    + lia.
    + apply (coded_agree lvl size Hlv f (bits_of (ztake ((pos + 7) / 8) buf)) _ _ _ _ _ _ Hcd ltac:(lia)). intros q k Hq _. apply window_ext. intros j Hj. apply Hbits. lia.
Qed.

Lemma compress_run lvl size c src dst before : idle lvl size c -> sendable size (src, dst) ->
  runs (mppc_compress before src (zlen src) dst (zlen dst)) c (fun r c' => idle lvl size c' /\ sent_as lvl size c src r c').
Proof.
  intros Hidle (Hsrc & Hlen & Hdst & Hdlen). pose proof Hidle as [Hcok Hoff Hrest]. pose proof Hcok as [[Hlv Hl Hs [Hz Hb]] Hm Hmax].
  unfold mppc_compress. apply runs_bind, runs_pget. cbv zeta. rewrite Hs, Hl. rewrite !(u32_id (size - 3)), (u32_id (size + 1)), (u32_id (zlen src - 1)), (u32_id (mppc_HistoryOffset c + _)) by lia.
  set (front := negb ((mppc_HistoryOffset c + zlen src <? size - 3) && negb (mppc_HistoryOffset c =? 0))).
  set (h0 := if front then 0 else mppc_HistoryOffset c). set (flushed := front && (mppc_HistoryOffset c =? size + 1)).
  assert (Epick : (if (mppc_HistoryOffset c + zlen src <? size - 3) && negb (mppc_HistoryOffset c =? 0) then (mppc_HistoryOffset c, false, false)
                   else (0, true, mppc_HistoryOffset c =? size + 1)) = (h0, front, flushed)) by (unfold flushed, h0, front; by destruct (_ && _)).
  rewrite Epick. clear Epick. cbv beta iota.
  assert (Hh0 : 0 <= h0 /\ h0 + zlen src < size - 3 /\ (if front then h0 = 0 else h0 = mppc_HistoryOffset c /\ 1 <= h0 < size - 3)) by (unfold h0, front; destruct (_ && _) eqn:E; cbn; lia).
  destruct Hh0 as (Hh0 & Hfit & Hfront).
  assert (Hflush : flushed = true -> front = true /\ mppc_HistoryBuffer c = zrep 65536 0) by (unfold flushed; intros E; apply andb_prop in E as [-> E]; split; [done|]; destruct Hoff as [?|[[? ?]|?]]; [lia|done|lia]).
  clearbody h0 front flushed. set (DstSize := if zlen src <? zlen dst then zlen src else zlen dst). assert (Hds : 1 <= DstSize <= zlen dst /\ DstSize <= zlen src) by (unfold DstSize; case_if; lia).
  clearbody DstSize. apply runs_bind, runs_pzoom, runs_pmodify. set (c1 := c <| mppc_bs := BitStream_Attach dst DstSize (mppc_bs c) |>).
  assert (Hc1 : compressor_ok lvl size c1) by (constructor; [by constructor|exact Hm|exact Hmax]).
  pose proof (attach_written lvl size src DstSize h0 (mppc_HistoryBuffer c) dst (mppc_bs c) Hdst ltac:(lia) ltac:(lia) Hlv) as Hw0.
  apply runs_bind. rewrite <- (Z.add_0_r h0) at 1.
  eapply runs_weaken; [apply (compress_loop_run lvl size src DstSize h0 before (mppc_HistoryBuffer c) Hsrc ltac:(lia) Hh0 Hfit ltac:(lia) Hz _ c1 _ 0 0 Hc1 Hw0); unfold zlen; lia|].
  intros [[p h]|] c2 Hpost; [|by apply gives_up_run]. destruct Hpost as (-> & Hp & Hc2 & f & pos & Hw). apply runs_bind.
  eapply runs_weaken; [apply (compress_trailing_run lvl size src DstSize h0 before (mppc_HistoryBuffer c) Hsrc ltac:(lia) Hh0 Hfit ltac:(lia) Hz _ c2 f pos p Hc2 Hw); unfold zlen; lia|].
  intros [h|] c3 Hpost; [|by apply gives_up_run]. destruct Hpost as (-> & Hc3 & f3 & pos3 & Hw3).
  apply (packet_end lvl size c c3 src DstSize h0 front flushed f3 pos3); done || lia.
Qed.

(** ** A session *)

(** The bytes a result points to. *)
Definition result_bytes (src : list Z) (c : MPPC_CONTEXT) (r : mppc_result) : option (list Z) :=
  match r with
  | (code, Some (where_, n)) =>
      if code =? 1 then
        Some (ztake n (match where_ with data_source => src | data_buffer => bs_buffer (mppc_bs c) | data_history o => zdrop o (mppc_HistoryBuffer c) end))
      else None
  | (_, None) => None
  end.

(** A source is compressed, and the packet with its flags is decompressed on the other side. *)
Definition mppc_transfer (before : Z) (packet : list Z * list Z) : Prog (MPPC_CONTEXT * MPPC_CONTEXT) (option (list Z)) :=
  let '(src, dst) := packet in
  r <- pzoom fst (fun e s => (e, s.2)) (mppc_compress before src (zlen src) dst (zlen dst)) ;;
  s <- pget ;;
  match result_bytes src s.1 r.1 with
  | None => pret None
  | Some data =>
      q <- pzoom (fun s => s.2) (fun d s => (s.1, d)) (mppc_decompress data (zlen data) r.2) ;;
      s <- pget ;;
      pret (result_bytes data s.2 q)
  end.

Fixpoint mppc_session (before : Z) (packets : list (list Z * list Z)) : Prog (MPPC_CONTEXT * MPPC_CONTEXT) (list (option (list Z))) :=
  match packets with
  | [] => pret []
  | packet :: packets => out <- mppc_transfer before packet ;; outs <- mppc_session before packets ;; pret (out :: outs)
  end.

(** A compressor and a decompressor in step. *)
Record synced (lvl size : Z) (e d : MPPC_CONTEXT) : Prop := {
  syn_idle : idle lvl size e;
  syn_dec : mppc_ok lvl size d;
  syn_history : mppc_HistoryBuffer d = mppc_HistoryBuffer e;
  syn_position : mppc_HistoryOffset e = 0 \/ mppc_HistoryOffset e = size + 1 \/ mppc_HistoryPtr d = mppc_HistoryOffset e
}.

Lemma splice_zeros size H : 0 <= size <= zlen H -> zlen H = 65536 -> (forall i, size <= i -> znth H i = 0) -> splice 0 (zrep size 0) H = zrep 65536 0.
Proof.
  intros Hs Hz Hr.
  apply znth_ext; [rewrite zlen_splice; rewrite ?zlen_zrep; lia|]. intros i Hi. rewrite znth_zrep. rewrite zlen_splice in Hi by (rewrite ?zlen_zrep; lia).
  destruct (decide (size <= i)); [rewrite znth_splice_after; rewrite ?zlen_zrep; try lia; by apply Hr|]. unfold splice. rewrite znth_app, ztake_0, zlen_nil by lia.
  replace (i <? 0) with false by lia. rewrite znth_app, zlen_zrep, znth_zrep. by replace (i - 0 <? Z.max 0 size) with true by lia.
Qed.

Lemma zdrop_ztake_splice h (src H : list Z) : 0 <= h -> h + zlen src <= zlen H -> ztake (zlen src) (zdrop h (splice h src H)) = src.
Proof.
  intros Hh Hs. unfold splice. pose proof (zlen_nonneg src). rewrite zdrop_app, zdrop_all, app_nil_l by (rewrite zlen_ztake; lia). rewrite zlen_ztake, zdrop_0 by lia.
  rewrite ztake_app, ztake_all, Z.sub_diag, ztake_0, app_nil_r by lia. done.
Qed.

(** What the flags do on the other side. *)
Lemma restart_run lvl size e d h0 (front flushed : bool) : synced lvl size e d ->
  (if front then h0 = 0 else h0 = mppc_HistoryOffset e /\ 1 <= h0 < size - 3) -> (flushed = true -> front = true /\ mppc_HistoryBuffer e = zrep 65536 0) ->
  let fl := Z.lor (Z.lor (Z.lor PACKET_COMPRESSED lvl) (if front then PACKET_AT_FRONT else 0)) (if flushed then PACKET_FLUSHED else 0) in
  Z.land fl PACKET_COMPRESSED <> 0 /\ mppc_HistoryPtr (history_restart fl d) = h0 /\ mppc_HistoryBuffer (history_restart fl d) = mppc_HistoryBuffer e.
Proof.
  intros [Hidle [Hlv Hl Hs [Hz Hb]] HH Hpos] Hfront Hflush fl.
  assert (F : Z.land fl PACKET_COMPRESSED <> 0 /\ (Z.land fl PACKET_AT_FRONT =? 0) = negb front /\ (Z.land fl PACKET_FLUSHED =? 0) = negb flushed)
    by (unfold fl; by destruct Hlv as [[-> _]|[-> _]], front, flushed). destruct F as (F1 & F2 & F3).
  split; [done|]. unfold history_restart. cbv zeta. rewrite F2, F3. destruct flushed; cbn [negb].
  - destruct (Hflush eq_refl) as [-> Hzero]. cbn [negb]. split; [done|]. cbn [mppc_HistoryBuffer mppc_HistoryBufferSize update]. change (splice 0 (zrep (mppc_HistoryBufferSize d) 0) (mppc_HistoryBuffer d) = mppc_HistoryBuffer e).
    rewrite Hs, Hzero. apply splice_zeros; [lia|done|]. rewrite HH. apply (idle_rest _ _ _ Hidle).
  - destruct front; cbn [negb]; [done|]. split; [lia|done].
Qed.

(** One packet: it comes out as it went in, and the two sides stay in step. *)
Lemma transfer_run lvl size e d packet before : synced lvl size e d -> sendable size packet ->
  runs (mppc_transfer before packet) (e, d) (fun out s => out = Some packet.1 /\ synced lvl size s.1 s.2).
Proof.
  destruct packet as [src dst]. intros Hsyn Hsend. pose proof Hsyn as [Hidle Hdec HH Hpos]. pose proof Hsend as (Hsrc & Hlen & _). unfold mppc_transfer. apply runs_bind, runs_pzoom.
  pose proof Hdec as [Hlv _ _ [Hz Hb]]. eapply runs_weaken; [by apply (compress_run lvl size)|]. intros [r flags] e' [Hidle' Hsent]. apply runs_bind, runs_pget.
  inversion Hsent as [? Hoff' Hzero|? h0 front flushed pos Hfront Hflush data Hdb Hdz Hdl Hcd Hhist Hoff' Hfit]; subst; clear Hsent; cbn [fst snd]; pose proof (ok_size _ _ _ Hdec) as Hs.
  - replace (result_bytes _ _ _) with (Some src) by (cbn; by rewrite ztake_all by lia). apply runs_bind, runs_pzoom.
    destruct (decompress_start lvl size d src (Z.lor PACKET_FLUSHED lvl) Hdec Hsrc ltac:(lia)) as (b & Hd1 & Hstart).
    set (d1 := history_restart _ _) in *. assert (Hf : Z.land (Z.lor PACKET_FLUSHED lvl) PACKET_COMPRESSED = 0 /\ Z.land (Z.lor PACKET_FLUSHED lvl) PACKET_AT_FRONT = 0 /\ Z.land (Z.lor PACKET_FLUSHED lvl) PACKET_FLUSHED <> 0)
      by (by destruct Hlv as [[-> _]|[-> _]]).
    destruct Hf as (F1 & F2 & F3). eapply (runs_eq _ _ _ d1); [unfold mppc_decompress; rewrite Hstart, pbind_pget, F1; reflexivity|]. apply runs_bind, runs_pget, runs_pret. cbn [fst snd].
    split; [cbn; by rewrite ztake_all by lia|]. constructor; [done|exact (dec_ok _ _ _ _ _ Hd1)| |tauto].
    unfold d1, history_restart. cbv zeta. rewrite F2. replace (Z.land _ PACKET_FLUSHED =? 0) with false by lia. cbn [mppc_HistoryBuffer update]. change (Z.eqb 0 0) with true. cbv iota.
    change (splice 0 (zrep (mppc_HistoryBufferSize d) 0) (mppc_HistoryBuffer d) = mppc_HistoryBuffer e'). rewrite Hs, Hzero. apply splice_zeros; [lia|done|]. rewrite HH. apply (idle_rest _ _ _ Hidle).
  - cbn [fst snd] in *. change (result_bytes src e' _) with (Some data). apply runs_bind, runs_pzoom. cbn [snd]. set (fl := Z.lor (Z.lor (Z.lor PACKET_COMPRESSED lvl) _) _).
    destruct (restart_run lvl size e d h0 front flushed) as (F1 & F2 & F3); [done..|]. fold fl in F1, F2, F3. rewrite <- F2, <- F3 in Hcd.
    assert (Hr : 8 * ((pos + 7) / 8) <= pos + 7 < 8 * ((pos + 7) / 8) + 8) by (Z.div_mod_to_equations; lia).
    destruct (decompress_coded lvl size d data fl _ _ _ Hdec Hdb ltac:(lia) F1 ltac:(destruct front; lia) Hcd ltac:(lia)) as (d' & Ed & Hd' & HHd & Hpd).
    eapply runs_eq; [exact Ed|]. apply runs_bind, runs_pget, runs_pret. cbn [fst snd]. rewrite F2. replace (u32 (h0 + zlen src - h0)) with (zlen src) by (rewrite u32_id; lia).
    assert (Hh0 : 0 <= h0) by (destruct front; lia). split.
    + cbn [result_bytes]. change (1 =? 1) with true. cbv iota. rewrite HHd, Hhist, zdrop_ztake_splice; [done|done|rewrite <- HH; lia].
    + constructor; [done|done|done|right; right; lia].
Qed.

Lemma session_run lvl size packets before : Forall (sendable size) packets -> forall e d, synced lvl size e d ->
  runs (mppc_session before packets) (e, d) (fun outs s => outs = map (fun packet => Some packet.1) packets /\ synced lvl size s.1 s.2).
Proof.
  induction 1 as [|packet packets Hp _ IH]; intros e d Hsyn; [by apply runs_pret|]. cbn [mppc_session map]. apply runs_bind. eapply runs_weaken; [by apply transfer_run|].
  intros out [e1 d1] [-> Hsyn1]. apply runs_bind. eapply runs_weaken; [by apply IH|]. intros outs [e2 d2] [-> Hsyn2]. by apply runs_pret.
Qed.

Lemma reset_history flush c : mppc_HistoryBuffer (mppc_context_reset flush c) = zrep 65536 0.
Proof. by destruct flush. Qed.
Lemma reset_offset c : mppc_HistoryOffset (mppc_context_reset false c) = 0.
Proof. done. Qed.

(** New contexts are in step. *)
Lemma new_synced `{Malloc} L e d : mppc_context_new L true = Some e -> mppc_context_new L false = Some d ->
  exists lvl, synced lvl (mppc_HistoryBufferSize e) e d.
Proof.
  unfold mppc_context_new. destruct (malloc_ok 131120); [|done]. destruct BitStream_New as [bs|]; [|done]. intros He Hd.
  set (ctx := fun b => mppc_set_compression_level L (mkMppc bs b 0 0 0 (zrep 65536 0) (zrep 32768 0) 0)).
  change (Some (mppc_context_reset false (ctx true)) = Some e) in He. change (Some (mppc_context_reset false (ctx false)) = Some d) in Hd. apply (inj Some) in He, Hd. subst e d. exists (if L <? 1 then 0 else 1).
  assert (Hok : forall b, mppc_ok (if L <? 1 then 0 else 1) (if L <? 1 then 8192 else 65536) (ctx b)).
  { intros b. unfold ctx, mppc_set_compression_level. case_if; (constructor; [lia|done|done|split; [exact (zlen_zrep 65536 0)|by apply Forall_zrep]]). }
  assert (Es : mppc_HistoryBufferSize (mppc_context_reset false (ctx true)) = if L <? 1 then 8192 else 65536) by exact (ok_size _ _ _ (Hok true)).
  rewrite Es. constructor; [exact (reset_idle _ _ _ (Hok true) false)|exact (cmp_ok _ _ _ (idle_ok _ _ _ (reset_idle _ _ _ (Hok false) false)))|by rewrite !reset_history|left; apply reset_offset].
Qed.

(** C15: what goes through a new compressor and a new decompressor of the same level comes out as it went
    in, packet after packet, whatever the packets are: each that has at least one byte and fits in the
    history is sent compressed, or as it is with both histories cleared, and the decompressor returns it. *)
Theorem mppc_session_roundtrip `{Malloc} L e d before packets :
  mppc_context_new L true = Some e -> mppc_context_new L false = Some d -> Forall (sendable (mppc_HistoryBufferSize e)) packets ->
  runs (mppc_session before packets) (e, d) (fun outs _ => outs = map (fun packet => Some packet.1) packets).
Proof.
  intros He Hd Hp. destruct (new_synced L e d He Hd) as [lvl Hsyn]. eapply runs_weaken; [by eapply session_run|]. by intros outs s [Ho _].
Qed.


Definition sample_packets : list (list Z * list Z) :=
  [([102; 111; 114; 46; 119; 104; 111; 109; 46; 116; 104; 101; 46; 98; 101; 108; 108; 46; 116; 111; 108; 108; 115; 44; 46; 116; 104; 101;
     46; 98; 101; 108; 108; 46; 116; 111; 108; 108; 115; 200; 46; 102; 111; 114; 46; 116; 104; 101; 101; 33; 33; 33], zrep 64 0);
   ([201; 202; 203], zrep 64 0);
   ([102; 111; 114; 46; 119; 104; 111; 109; 46; 102; 111; 114; 46; 119; 104; 111; 109; 46; 102; 111; 114; 46; 119; 104; 111; 109], zrep 64 0)].

Lemma mppc_session_roundtrip_witness :
  exists (M : Malloc) e d, mppc_context_new 1 true = Some e /\ mppc_context_new 1 false = Some d /\
    runs (mppc_session 0 sample_packets) (e, d) (fun outs _ => outs = map (fun packet => Some packet.1) sample_packets).
Proof.
  exists malloc_all. eexists _, _. split; [reflexivity|]. split; [reflexivity|].
  apply (mppc_session_roundtrip (H := malloc_all) 1); [reflexivity|reflexivity|].
  repeat (apply Forall_cons; split; [split_and!; [apply (bool_decide_unpack _); vm_compute; exact I|done|done|apply Forall_zrep; done|done|done]|]). apply Forall_nil_2.
Defined.
