(* ===== verification/Zgfx.v ===== *)
(** * ZGFX (RDP8) bulk compression: [libfreerdp/codec/zgfx.c]

    A packet has one or more segments.  A segment is plain, or a sequence of bits: literals, copies from
    the last bytes that were decoded, and runs of plain bytes.  The decompressor keeps these bytes in a
    ring; the compressor writes plain segments only. *)

From S2P Require Import Prelude Memory Stream Readers BitStream Mppc.

(** ** Model *)

Definition ZGFX_SEGMENTED_SINGLE : Z := 0xE0.
Definition ZGFX_SEGMENTED_MULTIPART : Z := 0xE1.
Definition ZGFX_PACKET_COMPR_TYPE_RDP8 : Z := 0x04.
Definition ZGFX_SEGMENTED_MAXSIZE : Z := 65535.

Record ZGFX_TOKEN : Type := mkToken {
  prefixLength : Z;
  prefixCode : Z;
  valueBits : Z;
  tokenType : Z;
  valueBase : Z
}.

(** [zg_input] is the memory [pbInputCurrent] and [pbInputEnd] point into; they are offsets. *)
Record ZGFX_CONTEXT : Type := mkZgfx {
  zg_Compressor : bool;
  zg_input : list Z;
  zg_pbInputCurrent : Z;
  zg_pbInputEnd : Z;
  zg_bits : Z;
  zg_cBitsRemaining : Z;
  zg_BitsCurrent : Z;
  zg_cBitsCurrent : Z;
  zg_OutputBuffer : list Z;
  zg_OutputCount : Z;
  zg_HistoryBuffer : list Z;
  zg_HistoryIndex : Z;
  zg_HistoryBufferSize : Z
}.
#[global] Instance eta_ZGFX_CONTEXT : Eta ZGFX_CONTEXT := fun c =>
  mkZgfx (zg_Compressor c) (zg_input c) (zg_pbInputCurrent c) (zg_pbInputEnd c) (zg_bits c) (zg_cBitsRemaining c) (zg_BitsCurrent c)
    (zg_cBitsCurrent c) (zg_OutputBuffer c) (zg_OutputCount c) (zg_HistoryBuffer c) (zg_HistoryIndex c) (zg_HistoryBufferSize c).

Definition ZGFX_TOKEN_TABLE : list ZGFX_TOKEN :=
  [mkToken 1 0 8 0 0; mkToken 5 17 5 1 0; mkToken 5 18 7 1 32; mkToken 5 19 9 1 160;
   mkToken 5 20 10 1 672; mkToken 5 21 12 1 1696; mkToken 5 24 0 0 0x00; mkToken 5 25 0 0 0x01;
   mkToken 6 44 14 1 5792; mkToken 6 45 15 1 22176; mkToken 6 52 0 0 0x02; mkToken 6 53 0 0 0x03;
   mkToken 6 54 0 0 0xFF; mkToken 7 92 18 1 54944; mkToken 7 93 20 1 317088; mkToken 7 110 0 0 0x04;
   mkToken 7 111 0 0 0x05; mkToken 7 112 0 0 0x06; mkToken 7 113 0 0 0x07; mkToken 7 114 0 0 0x08;
   mkToken 7 115 0 0 0x09; mkToken 7 116 0 0 0x0A; mkToken 7 117 0 0 0x0B; mkToken 7 118 0 0 0x3A;
   mkToken 7 119 0 0 0x3B; mkToken 7 120 0 0 0x3C; mkToken 7 121 0 0 0x3D; mkToken 7 122 0 0 0x3E;
   mkToken 7 123 0 0 0x3F; mkToken 7 124 0 0 0x40; mkToken 7 125 0 0 0x80; mkToken 8 188 20 1 1365664;
   mkToken 8 189 21 1 2414240; mkToken 8 252 0 0 0x0C; mkToken 8 253 0 0 0x38; mkToken 8 254 0 0 0x39;
   mkToken 8 255 0 0 0x66; mkToken 9 380 22 1 4511392; mkToken 9 381 23 1 8705696; mkToken 9 382 24 1 17094304;
   mkToken 0 0 0 0 0].

(** *** Bits *)

(** [while (cBitsCurrent < nbits)] *)
Fixpoint fill_bits (fuel : nat) (nbits : Z) : Prog ZGFX_CONTEXT unit :=
  match fuel with
  | O => fun _ => Hang
  | S fuel =>
      c <- pget ;;
      if zg_cBitsCurrent c <? nbits then
        pmodify (fun c => c <| zg_BitsCurrent := u32 (Z.shiftl (zg_BitsCurrent c) 8) |>) ;;
        (if zg_pbInputCurrent c <? zg_pbInputEnd c then
           b <- plift (slot_get (zg_pbInputCurrent c) (zg_input c)) ;;
           pmodify (fun c => c <| zg_BitsCurrent := u32 (zg_BitsCurrent c + b) |> <| zg_pbInputCurrent := zg_pbInputCurrent c + 1 |>)
         else pret tt) ;;
        pmodify (fun c => c <| zg_cBitsCurrent := u32 (zg_cBitsCurrent c + 8) |>) ;;
        fill_bits fuel nbits
      else pret tt
  end.

Definition zgfx_GetBits (nbits : Z) : Prog ZGFX_CONTEXT unit :=
  fill_bits (S (Z.to_nat nbits)) nbits ;;
  pmodify (fun c => c <| zg_cBitsRemaining := u32 (zg_cBitsRemaining c - nbits) |>) ;;
  pmodify (fun c => c <| zg_cBitsCurrent := u32 (zg_cBitsCurrent c - nbits) |>) ;;
  pmodify (fun c => c <| zg_bits := Z.shiftr (zg_BitsCurrent c) (zg_cBitsCurrent c) |>) ;;
  pmodify (fun c => c <| zg_BitsCurrent := Z.land (zg_BitsCurrent c) (Z.shiftl 1 (zg_cBitsCurrent c) - 1) |>).

(** *** The ring *)

(** [CopyMemory (&HistoryBuffer[i], src, |src|)] *)
Definition history_copy (i : Z) (src : list Z) : Prog ZGFX_CONTEXT unit :=
  c <- pget ;; H <- plift (slots_write i src (zg_HistoryBuffer c)) ;; pmodify (fun c => c <| zg_HistoryBuffer := H |>).

(** [src] holds the [count] bytes. *)
Definition zgfx_history_buffer_ring_write (src : list Z) : Prog ZGFX_CONTEXT unit :=
  let count := zlen src in
  if count <=? 0 then pret tt
  else
    c <- pget ;;
    let size := zg_HistoryBufferSize c in
    (if size <? count then pmodify (fun c => c <| zg_HistoryIndex := (zg_HistoryIndex c + (count - size)) mod size |>) else pret tt) ;;
    let src := if size <? count then zdrop (count - size) src else src in
    let count := if size <? count then size else count in
    c <- pget ;;
    let index := zg_HistoryIndex c in
    if index + count <=? size then
      history_copy index src ;;
      pmodify (fun c => c <| zg_HistoryIndex := if index + count =? size then 0 else index + count |>)
    else
      let front := size - index in
      history_copy index (ztake front src) ;;
      history_copy 0 (zdrop front src) ;;
      pmodify (fun c => c <| zg_HistoryIndex := count - front |>).

(** [CopyMemory (&OutputBuffer[i], src, |src|)] *)
Definition output_copy (i : Z) (src : list Z) : Prog ZGFX_CONTEXT unit :=
  c <- pget ;; O <- plift (slots_write i src (zg_OutputBuffer c)) ;; pmodify (fun c => c <| zg_OutputBuffer := O |>).
Definition history_bytes (i n : Z) : Prog ZGFX_CONTEXT (list Z) := c <- pget ;; plift (slots_read i n (zg_HistoryBuffer c)).

(** What was copied is copied again, twice as much in every round. *)
Fixpoint ring_repeat (fuel : nat) (origDst dptr valid bytesLeft : Z) : Prog ZGFX_CONTEXT unit :=
  match fuel with
  | O => fun _ => Hang
  | S fuel =>
      let bytes := if bytesLeft <? i32 valid then bytesLeft else i32 valid in
      c <- pget ;; src <- plift (slots_read origDst bytes (zg_OutputBuffer c)) ;; output_copy dptr src ;;
      if 0 <? bytesLeft - bytes then ring_repeat fuel origDst (dptr + bytes) (u32 (Z.shiftl valid 1)) (bytesLeft - bytes) else pret tt
  end.

(** [dst] is an offset in [OutputBuffer]. *)
Definition zgfx_history_buffer_ring_read (offset dst count : Z) : Prog ZGFX_CONTEXT unit :=
  if (count <=? 0) || (2147483647 <? count) then pret tt
  else
    c <- pget ;;
    let size := zg_HistoryBufferSize c in
    let index := u32 (zg_HistoryIndex c + size - offset) mod size in
    let bytes := Z.min count offset in
    (if u32 (index + bytes) <=? size then src <- history_bytes index bytes ;; output_copy dst src
     else
       let front := size - index in
       src <- history_bytes index front ;; output_copy dst src ;;
       src <- history_bytes 0 (bytes - front) ;; output_copy (dst + front) src) ;;
    if count - bytes =? 0 then pret tt else ring_repeat (Z.to_nat count) dst (dst + bytes) bytes (count - bytes).

(** *** A segment *)

(** [while (haveBits < prefixLength)] *)
Fixpoint read_prefix (n : nat) (inPrefix : Z) : Prog ZGFX_CONTEXT Z :=
  match n with
  | O => pret inPrefix
  | S n => zgfx_GetBits 1 ;; c <- pget ;; read_prefix n (u32 (Z.shiftl inPrefix 1 + zg_bits c))
  end.

Fixpoint find_token (table : list ZGFX_TOKEN) (haveBits inPrefix : Z) : Prog ZGFX_CONTEXT (option ZGFX_TOKEN) :=
  match table with
  | [] => pret None
  | t :: table =>
      if prefixLength t =? 0 then pret None
      else
        inPrefix <- read_prefix (Z.to_nat (prefixLength t - haveBits)) inPrefix ;;
        if inPrefix =? prefixCode t then pret (Some t) else find_token table (Z.max haveBits (prefixLength t)) inPrefix
  end.

Definition zgfx_literal (t : ZGFX_TOKEN) : Prog ZGFX_CONTEXT bool :=
  zgfx_GetBits (valueBits t) ;;
  c <- pget ;;
  let v := u8 (valueBase t + zg_bits c) in
  H <- plift (slot_set (zg_HistoryIndex c) v (zg_HistoryBuffer c)) ;;
  pmodify (fun c => c <| zg_HistoryBuffer := H |>
                      <| zg_HistoryIndex := if u32 (zg_HistoryIndex c + 1) =? zg_HistoryBufferSize c then 0 else u32 (zg_HistoryIndex c + 1) |>) ;;
  if 65536 <=? zg_OutputCount c then pret false
  else
    O <- plift (slot_set (zg_OutputCount c) v (zg_OutputBuffer c)) ;;
    pmodify (fun c => c <| zg_OutputBuffer := O |> <| zg_OutputCount := zg_OutputCount c + 1 |>) ;;
    pret true.

(** [while (bits == 1)] *)
Fixpoint count_loop (fuel : nat) (count extra : Z) : Prog ZGFX_CONTEXT (Z * Z) :=
  match fuel with
  | O => fun _ => Hang
  | S fuel => c <- pget ;; if zg_bits c =? 1 then zgfx_GetBits 1 ;; count_loop fuel (u32 (count * 2)) (u32 (extra + 1)) else pret (count, extra)
  end.

Definition match_count : Prog ZGFX_CONTEXT Z :=
  zgfx_GetBits 1 ;;
  c <- pget ;;
  if zg_bits c =? 0 then pret 3
  else
    zgfx_GetBits 1 ;;
    r <- count_loop (S (8 * length (zg_input c))) 4 2 ;;
    zgfx_GetBits r.2 ;;
    c <- pget ;;
    pret (u32 (r.1 + zg_bits c)).

Definition zgfx_match (distance : Z) : Prog ZGFX_CONTEXT bool :=
  count <- match_count ;;
  c <- pget ;;
  let OutputCount := zg_OutputCount c in
  if 65536 - OutputCount <? count then pret false
  else
    zgfx_history_buffer_ring_read distance OutputCount count ;;
    c <- pget ;;
    src <- plift (slots_read OutputCount count (zg_OutputBuffer c)) ;;
    zgfx_history_buffer_ring_write src ;;
    pmodify (fun c => c <| zg_OutputCount := zg_OutputCount c + count |>) ;;
    pret true.

Definition zgfx_unencoded : Prog ZGFX_CONTEXT bool :=
  zgfx_GetBits 15 ;;
  c <- pget ;;
  let count := zg_bits c in
  pmodify (fun c => c <| zg_cBitsRemaining := u32 (zg_cBitsRemaining c - zg_cBitsCurrent c) |> <| zg_cBitsCurrent := 0 |> <| zg_BitsCurrent := 0 |>) ;;
  c <- pget ;;
  if 65536 - zg_OutputCount c <? count then pret false
  else if zg_cBitsRemaining c / 8 <? count then pret false
  else if zg_pbInputEnd c <? zg_pbInputCurrent c + count then pret false
  else
    src <- plift (slots_read (zg_pbInputCurrent c) count (zg_input c)) ;;
    output_copy (zg_OutputCount c) src ;;
    zgfx_history_buffer_ring_write src ;;
    pmodify (fun c => c <| zg_pbInputCurrent := zg_pbInputCurrent c + count |> <| zg_cBitsRemaining := u32 (zg_cBitsRemaining c - 8 * count) |>
                        <| zg_OutputCount := zg_OutputCount c + count |>) ;;
    pret true.

(** The body of the loop; false is the error return. *)
Definition zgfx_token : Prog ZGFX_CONTEXT bool :=
  t <- find_token ZGFX_TOKEN_TABLE 0 0 ;;
  match t with
  | None => pret true
  | Some t =>
      if tokenType t =? 0 then zgfx_literal t
      else
        zgfx_GetBits (valueBits t) ;;
        c <- pget ;;
        let distance := u32 (valueBase t + zg_bits c) in
        if negb (distance =? 0) then zgfx_match distance else zgfx_unencoded
  end.

Fixpoint zgfx_loop (fuel : nat) : Prog ZGFX_CONTEXT bool :=
  match fuel with
  | O => fun _ => Hang
  | S fuel =>
      c <- pget ;;
      if zg_cBitsRemaining c =? 0 then pret true
      else ok <- zgfx_token ;; if negb ok then pret false else zgfx_loop fuel
  end.

Definition on_zgfx {A} (m : Prog ZGFX_CONTEXT A) : Prog (ZGFX_CONTEXT * wStream) A := pzoom fst (fun c p => (c, p.2)) m.

(** A plain segment. *)
Definition segment_plain (pbSegment : list Z) (cbSegment : Z) : Prog ZGFX_CONTEXT bool :=
  src <- plift (slots_read 0 cbSegment pbSegment) ;;
  zgfx_history_buffer_ring_write src ;;
  if 65536 <? cbSegment then pret false
  else output_copy 0 src ;; pmodify (fun c => c <| zg_OutputCount := cbSegment |>) ;; pret true.

(** A segment of bits. *)
Definition segment_bits (pbSegment : list Z) (cbSegment : Z) : Prog ZGFX_CONTEXT bool :=
  pmodify (fun c => c <| zg_input := pbSegment |> <| zg_pbInputCurrent := 0 |> <| zg_pbInputEnd := cbSegment - 1 |>) ;;
  let bits := u32 (8 * (cbSegment - 1)) in
  last <- plift (slot_get (cbSegment - 1) pbSegment) ;;
  if bits <? last then pret false
  else
    pmodify (fun c => c <| zg_cBitsRemaining := bits - last |> <| zg_cBitsCurrent := 0 |> <| zg_BitsCurrent := 0 |>) ;;
    zgfx_loop (Z.to_nat (8 * cbSegment + 65538)).

Definition zgfx_decompress_segment (segmentSize : Z) : Prog (ZGFX_CONTEXT * wStream) bool :=
  if segmentSize <? 2 then pret false
  else
    let cbSegment := segmentSize - 1 in
    ok <- at_s (Stream_CheckAndLogRequiredLength segmentSize) ;;
    if negb ok || (UINT32_MAX <? segmentSize) then pret false
    else
      flags <- at_s (stream_read_u8 true) ;;
      upd_obj (fun c => c <| zg_OutputCount := 0 |>) ;;
      p <- pget ;;
      let pbSegment := zdrop (pointer p.2) (buffer p.2) in
      ok <- at_s (Stream_SafeSeekEx cbSegment) ;;
      if negb ok then pret false
      else on_zgfx (if Z.land flags PACKET_COMPRESSED =? 0 then segment_plain pbSegment cbSegment else segment_bits pbSegment cbSegment).

(** *** A packet *)

(** [*ppConcatenated] and [*pUsed] after the call. *)
Definition zgfx_append `{Malloc} `{FreshMemory} (pConcatenated : list Z) (uncompressedSize used : Z) (c : ZGFX_CONTEXT) : outcome (option (list Z * Z)) :=
  if UINT32_MAX - used <? zg_OutputCount c then Ret None
  else if uncompressedSize <? used + zg_OutputCount c then Ret None
  else if negb (malloc_ok (used + zg_OutputCount c + 64)) then Ret None
  else
    match slots_read 0 (zg_OutputCount c) (zg_OutputBuffer c) with
    | Ret src =>
        match slots_write used src (mem_realloc pConcatenated (used + zg_OutputCount c + 64)) with
        | Ret tmp => Ret (Some (tmp, used + zg_OutputCount c))
        | Abort => Abort
        | Hang => Hang
        end
    | Abort => Abort
    | Hang => Hang
    end.

Fixpoint zgfx_segments `{Malloc} `{FreshMemory} (n : nat) (pConcatenated : list Z) (uncompressedSize used : Z)
  : Prog (ZGFX_CONTEXT * wStream) (option (list Z * Z)) :=
  match n with
  | O => pret (Some (pConcatenated, used))
  | S n =>
      ok <- at_s (Stream_CheckAndLogRequiredLength 4) ;;
      if negb ok then pret None
      else
        segmentSize <- at_s (stream_read_u32_le true) ;;
        ok <- zgfx_decompress_segment segmentSize ;;
        if negb ok then pret None
        else
          p <- pget ;;
          r <- plift (zgfx_append pConcatenated uncompressedSize used p.1) ;;
          match r with None => pret None | Some (pConcatenated, used) => zgfx_segments n pConcatenated uncompressedSize used end
  end.

(** [*ppDstData] and [*pDstSize] when the result is 1; it is -1 otherwise. *)
Definition zgfx_packet `{Malloc} `{FreshMemory} : Prog (ZGFX_CONTEXT * wStream) (option (list Z * Z)) :=
  ok <- at_s (Stream_CheckAndLogRequiredLength 1) ;;
  if negb ok then pret None
  else
    descriptor <- at_s (stream_read_u8 true) ;;
    if descriptor =? ZGFX_SEGMENTED_SINGLE then
      size <- at_s Stream_GetRemainingLength ;;
      ok <- zgfx_decompress_segment size ;;
      if negb ok then pret None
      else
        p <- pget ;;
        if 0 <? zg_OutputCount p.1 then
          r <- plift (zgfx_append [] (zg_OutputCount p.1) 0 p.1) ;;
          match r with
          | None => pret None
          | Some (pConcatenated, used) => if negb (used =? zg_OutputCount p.1) then pret None else pret (Some (pConcatenated, zg_OutputCount p.1))
          end
        else pret (Some ([], 0))
    else if descriptor =? ZGFX_SEGMENTED_MULTIPART then
      ok <- at_s (Stream_CheckAndLogRequiredLength 6) ;;
      if negb ok then pret None
      else
        segmentCount <- at_s (stream_read_u16_le true) ;;
        uncompressedSize <- at_s (stream_read_u32_le true) ;;
        r <- zgfx_segments (Z.to_nat segmentCount) [] uncompressedSize 0 ;;
        match r with
        | None => pret None
        | Some (pConcatenated, used) => if negb (used =? uncompressedSize) then pret None else pret (Some (pConcatenated, uncompressedSize))
        end
    else pret None.

Definition zgfx_decompress `{Malloc} `{FreshMemory} (pSrcData : list Z) (SrcSize : Z) : Prog ZGFX_CONTEXT (Z * option (list Z * Z)) :=
  fun c => match zgfx_packet (c, Stream_StaticConstInit pSrcData SrcSize) with
           | Ret (r, (c, _)) => Ret ((if bool_decide (r = None) then -1 else 1, r), c)
           | Abort => Abort
           | Hang => Hang
           end.

(** *** Compressor *)

Definition zgfx_compress_segment `{Malloc} (src : list Z) (flags : Z) : Prog wStream (bool * Z) :=
  ok <- Stream_EnsureRemainingCapacity (u32 (zlen src + 1)) ;;
  if negb ok then pret (false, flags)
  else
    let flags := Z.lor flags ZGFX_PACKET_COMPR_TYPE_RDP8 in
    Stream_Write_UINT8 (u8 flags) ;; Stream_Write src ;; pret (true, flags).

(** The loop over the fragments; the result is the number of fragments, [posSegmentCount] and the flags. *)
Fixpoint compress_fragments `{Malloc} (fuel : nat) (src : list Z) (uncompressedSize fragment posSegmentCount flags : Z) : Prog wStream (option (Z * Z * Z)) :=
  match fuel with
  | O => fun _ => Hang
  | S fuel =>
      if (0 <? zlen src) || (fragment =? 0) then
        let SrcSize := if ZGFX_SEGMENTED_MAXSIZE <? zlen src then ZGFX_SEGMENTED_MAXSIZE else zlen src in
        let totalLength := zlen src - SrcSize in
        ok <- Stream_EnsureRemainingCapacity 12 ;;
        if negb ok then pret None
        else
          posSegmentCount <-
            (if fragment =? 0 then
               Stream_Write_UINT8 (if totalLength =? 0 then ZGFX_SEGMENTED_SINGLE else ZGFX_SEGMENTED_MULTIPART) ;;
               if 0 <? totalLength then p <- Stream_GetPosition ;; Stream_Seek 2 ;; Stream_Write_UINT32 uncompressedSize ;; pret p
               else pret posSegmentCount
             else pret posSegmentCount) ;;
          posDstSize <- (if (0 <? fragment) || (0 <? totalLength) then p <- Stream_GetPosition ;; Stream_Seek 4 ;; pret p else pret 0) ;;
          posDataStart <- Stream_GetPosition ;;
          r <- zgfx_compress_segment (ztake SrcSize src) flags ;;
          if negb r.1 then pret None
          else
            (if negb (posDstSize =? 0) then
               p <- Stream_GetPosition ;;
               let DstSize := u32 (p - posDataStart) in
               Stream_SetPosition posDstSize ;; Stream_Write_UINT32 DstSize ;; Stream_SetPosition (posDataStart + DstSize) ;; pret tt
             else pret tt) ;;
            compress_fragments fuel (zdrop SrcSize src) uncompressedSize (fragment + 1) posSegmentCount r.2
      else pret (Some (fragment, posSegmentCount, flags))
  end.

Definition zgfx_compress_to_stream `{Malloc} (pUncompressed : list Z) (flags : Z) : Prog wStream (Z * Z) :=
  r <- compress_fragments (S (S (length pUncompressed))) pUncompressed (zlen pUncompressed) 0 0 flags ;;
  match r with
  | None => pret (-1, flags)
  | Some (fragment, posSegmentCount, flags) =>
      Stream_SealLength ;;
      (if negb (posSegmentCount =? 0) then
         Stream_SetPosition posSegmentCount ;; Stream_Write_UINT16 (u16 fragment) ;; s <- pget ;; Stream_SetPosition (Stream_Length s) ;; pret tt
       else pret tt) ;;
      pret (0, flags)
  end.

(** [*ppDstData], [*pDstSize] and [*pFlags]; the result of [Stream_New] is not tested. *)
Definition zgfx_compress `{Malloc} `{FreshMemory} (pSrcData : list Z) (flags : Z) : outcome (Z * list Z * Z * Z) :=
  match Stream_New None (fresh (zlen pSrcData)) (zlen pSrcData) with
  | None => Abort
  | Some s =>
      match (r <- zgfx_compress_to_stream pSrcData flags ;; p <- Stream_GetPosition ;; pret (r, p)) s with
      | Ret ((status, flags), p, s) => Ret (status, buffer s, u32 p, flags)
      | Abort => Abort
      | Hang => Hang
      end
  end.

Definition zgfx_context_reset (c : ZGFX_CONTEXT) : ZGFX_CONTEXT := c <| zg_HistoryIndex := 0 |>.

Definition zgfx_context_new `{Malloc} (Compressor : bool) : option ZGFX_CONTEXT :=
  if malloc_ok 2565592 then
    Some (zgfx_context_reset (mkZgfx Compressor [] 0 0 0 0 0 0 (zrep 65536 0) 0 (zrep 2500000 0) 0 2500000))
  else None.

(** ** The token table *)

(** The prefixes that the [n] bits of [v] begin with, and the tokens of a kind. *)
Definition tokens_of (n v : Z) : list ZGFX_TOKEN :=
  filter (fun t => prefixLength t <> 0 /\ v / 2 ^ (n - prefixLength t) = prefixCode t) ZGFX_TOKEN_TABLE.
Definition tokens_with (type : Z) : list ZGFX_TOKEN :=
  filter (fun t => prefixLength t <> 0 /\ tokenType t = type) ZGFX_TOKEN_TABLE.
(** Each range of distances begins where the one before ends. *)
Fixpoint contiguous (from : Z) (ts : list ZGFX_TOKEN) : bool :=
  match ts with
  | [] => from =? 33871520
  | t :: ts => (valueBase t =? from) && contiguous (from + 2 ^ valueBits t) ts
  end.

(** The rows of the table are a code: any nine bits begin with exactly one prefix, but for those that
    begin with 10000 and for 101111111, which begin with none.  The ranges of the match distances follow
    one another from 0 to 2^25 + 317088, in the order of the prefixes, and the literals of a prefix of their
    own are 25 different bytes. *)
Theorem zgfx_table_codes :
  (forall v, 0 <= v < 512 -> length (tokens_of 9 v) = if (v / 16 =? 16) || (v =? 383) then 0%nat else 1%nat) /\
  contiguous 0 (tokens_with 1) = true /\
  NoDup (map valueBase (filter (fun t => valueBits t = 0) (tokens_with 0))) /\
  length (filter (fun t => valueBits t = 0) (tokens_with 0)) = 25%nat.
Proof.
  split; [|split; [vm_compute; reflexivity|split; [|vm_compute; reflexivity]]].
  - assert (H : forallb (fun v => (length (tokens_of 9 v) =? (if ((v / 16 =? 16) || (v =? 383))%Z then 0 else 1))%nat) (map Z.of_nat (seq 0 512)) = true)
      by (vm_compute; reflexivity).
    intros v Hv. rewrite forallb_forall in H. apply Nat.eqb_eq, H, in_map_iff. exists (Z.to_nat v). split; [lia|]. apply in_seq. lia.
  - apply (bool_decide_eq_true_1 (NoDup _)). vm_compute. reflexivity.
Qed.
