(* ===== verification/ZgfxRing.v ===== *)
(** * The ring and the bits of the ZGFX decompressor

    The ring holds the last bytes of everything that was decoded; a copy reads them, again and again when
    it is longer than its distance.  The bits of a segment are read one after another, and behind its end
    there are zeros. *)

From S2P Require Import Prelude Memory Stream Readers BitStream Mppc Zgfx.

(** ** Lists by their elements *)

Definition ztab (n : Z) (g : Z -> Z) : list Z := map g (seqZ 0 n).

Lemma zlen_ztab n g : 0 <= n -> zlen (ztab n g) = n.
Proof. intros Hn. unfold ztab, zlen. rewrite length_map, length_seqZ. lia. Qed.

Lemma znth_ztab n g i : 0 <= i < n -> znth (ztab n g) i = g i.
Proof.
  intros Hi. unfold znth, ztab. replace (i <? 0) with false by lia.
  assert (E : seqZ 0 n !! Z.to_nat i = Some i) by (rewrite lookup_seqZ_lt by lia; f_equal; lia).
  apply nth_lookup_Some. rewrite list_lookup_fmap, E. done.
Qed.

Lemma Forall_ztab (P : Z -> Prop) n g : (forall i, 0 <= i < n -> P (g i)) -> Forall P (ztab n g).
Proof. intros H. unfold ztab. apply Forall_fmap, Forall_forall. intros i Hi. apply elem_of_seqZ in Hi. apply H. lia. Qed.

Lemma ztab_znth l : ztab (zlen l) (znth l) = l.
Proof. apply znth_ext; [apply zlen_ztab, zlen_nonneg|]. intros i Hi. rewrite zlen_ztab in Hi by apply zlen_nonneg. by apply znth_ztab. Qed.

Lemma znth_splice h l H i : 0 <= h -> h + zlen l <= zlen H -> znth (splice h l H) i = if (h <=? i) && (i <? h + zlen l) then znth l (i - h) else znth H i.
Proof.
  intros Hh Hl. pose proof (zlen_nonneg l). unfold splice. autorewrite with znth zlist. repeat case_if; try lia; f_equal; lia.
Qed.

(** ** The ring *)

Record zgfx_ok (c : ZGFX_CONTEXT) : Prop := {
  zok_size : zlen (zg_HistoryBuffer c) = zg_HistoryBufferSize c /\ 65536 <= zg_HistoryBufferSize c < 2 ^ 31;
  zok_index : 0 <= zg_HistoryIndex c < zg_HistoryBufferSize c;
  zok_output : zlen (zg_OutputBuffer c) = 65536 /\ 0 <= zg_OutputCount c <= 65536;
  zok_bytes : Forall is_byte (zg_HistoryBuffer c) /\ Forall is_byte (zg_OutputBuffer c)
}.

(** The last bytes of [past] are in the ring, as many as it has room for. *)
Definition ring_holds (c : ZGFX_CONTEXT) (past : list Z) : Prop :=
  forall d, 1 <= d <= zg_HistoryBufferSize c -> d <= zlen past ->
    znth (zg_HistoryBuffer c) ((zg_HistoryIndex c - d) mod zg_HistoryBufferSize c) = znth past (zlen past - d).

Lemma history_copy_run i src c : 0 <= i -> i + zlen src <= zlen (zg_HistoryBuffer c) ->
  history_copy i src c = Ret (tt, c <| zg_HistoryBuffer := splice i src (zg_HistoryBuffer c) |>).
Proof. intros Hi Hs. unfold history_copy. by rewrite pbind_pget, slots_write_run, pbind_plift by lia. Qed.

Lemma output_copy_run i src c : 0 <= i -> i + zlen src <= zlen (zg_OutputBuffer c) ->
  output_copy i src c = Ret (tt, c <| zg_OutputBuffer := splice i src (zg_OutputBuffer c) |>).
Proof. intros Hi Hs. unfold output_copy. by rewrite pbind_pget, slots_write_run, pbind_plift by lia. Qed.

(** Bytes written round the end of the ring. *)
Definition ring_put (size index : Z) (src H : list Z) : list Z :=
  ztab size (fun j => if (j - index) mod size <? zlen src then znth src ((j - index) mod size) else znth H j).

Lemma ring_put_linear size index src H : zlen H = size -> 0 <= index -> index + zlen src <= size -> splice index src H = ring_put size index src H.
Proof.
  intros Hz Hi Hs. pose proof (zlen_nonneg src). apply znth_ext; [unfold ring_put; rewrite zlen_splice, zlen_ztab; lia|].
  intros j Hj. rewrite zlen_splice in Hj by lia. unfold ring_put. rewrite znth_ztab, znth_splice by lia.
  destruct (decide (index <= j)) as [Hge|Hlt].
  - rewrite (Z.mod_small (j - index)) by lia. repeat case_if; try lia; done.
  - replace ((j - index) mod size) with (j - index + size) by (apply (Z.mod_unique_pos _ _ (-1)); lia). repeat case_if; try lia; done.
Qed.

Lemma ring_put_wrapped size index src H : zlen H = size -> 0 <= index < size -> size < index + zlen src -> zlen src <= size ->
  let front := size - index in splice 0 (zdrop front src) (splice index (ztake front src) H) = ring_put size index src H.
Proof.
  intros Hz Hi Hs Hc front. assert (Hf : zlen (ztake front src) = front) by (rewrite zlen_ztake; unfold front; lia).
  assert (Hd : zlen (zdrop front src) = zlen src - front) by (rewrite zlen_zdrop; unfold front; lia).
  assert (Hz1 : zlen (splice index (ztake front src) H) = size) by (rewrite zlen_splice; rewrite ?Hf; unfold front; lia).
  apply znth_ext; [unfold ring_put; rewrite zlen_splice, zlen_ztab; rewrite ?Hz1, ?Hd; unfold front; lia|].
  intros j Hj. rewrite zlen_splice in Hj by (rewrite ?Hz1, ?Hd; unfold front; lia). rewrite Hz1 in Hj. unfold ring_put.
  rewrite znth_ztab, znth_splice, znth_splice by (rewrite ?Hz1, ?Hd, ?Hf; unfold front; lia). rewrite Hf, Hd, znth_zdrop, znth_ztake.
  destruct (decide (index <= j)) as [Hge|Hlt].
  - rewrite (Z.mod_small (j - index)) by lia. unfold front in *. repeat case_if; try lia; done.
  - replace ((j - index) mod size) with (j - index + size) by (apply (Z.mod_unique_pos _ _ (-1)); lia). unfold front in *. repeat case_if; try lia; try done. f_equal. lia.
Qed.

Lemma ring_put_facts size index src H : zlen H = size -> 0 < size -> 0 <= index < size -> Forall is_byte src -> Forall is_byte H ->
  zlen (ring_put size index src H) = size /\ Forall is_byte (ring_put size index src H).
Proof.
  intros Hz Hs Hi Hb HbH. unfold ring_put. split; [apply zlen_ztab; lia|]. apply Forall_ztab. intros j Hj. case_if; [apply (znth_byte src _ Hb)|apply (znth_byte H _ HbH)].
Qed.

(** What is written is the end of the past. *)
Lemma ring_put_holds c past src :
  zlen (zg_HistoryBuffer c) = zg_HistoryBufferSize c -> 0 < zg_HistoryBufferSize c -> 0 <= zg_HistoryIndex c < zg_HistoryBufferSize c -> zlen src <= zg_HistoryBufferSize c ->
  (zlen src < zg_HistoryBufferSize c -> ring_holds c past) ->
  ring_holds (c <| zg_HistoryBuffer := ring_put (zg_HistoryBufferSize c) (zg_HistoryIndex c) src (zg_HistoryBuffer c) |>
                <| zg_HistoryIndex := (zg_HistoryIndex c + zlen src) mod zg_HistoryBufferSize c |>) (past ++ src).
Proof.
  intros Hz Hs Hi Hc Hh d Hd Hp. cbn [zg_HistoryBuffer zg_HistoryIndex zg_HistoryBufferSize update] in *. set (size := zg_HistoryBufferSize c) in *. set (index := zg_HistoryIndex c) in *.
  change (zg_HistoryBufferSize _) with size in Hd |- *. pose proof (zlen_nonneg src). rewrite zlen_app in Hp |- *. rewrite Zminus_mod_idemp_l. unfold ring_put. rewrite znth_ztab by (apply Z.mod_pos_bound; lia).
  rewrite Zminus_mod_idemp_l. replace (index + zlen src - d - index) with (zlen src - d) by lia. rewrite znth_app. destruct (decide (d <= zlen src)) as [Hle|Hgt].
  - rewrite (Z.mod_small (zlen src - d)) by lia. repeat case_if; try lia. f_equal. lia.
  - replace ((zlen src - d) mod size) with (zlen src - d + size) by (apply (Z.mod_unique_pos _ _ (-1)); lia). repeat case_if; try lia.
    specialize (Hh ltac:(lia) (d - zlen src) ltac:(lia) ltac:(lia)). fold size index in Hh. replace (index + zlen src - d) with (index - (d - zlen src)) by lia. rewrite Hh. f_equal. lia.
Qed.

(** The context with another ring. *)
Definition with_ring (H : list Z) (i : Z) (c : ZGFX_CONTEXT) : ZGFX_CONTEXT := c <| zg_HistoryBuffer := H |> <| zg_HistoryIndex := i |>.

Lemma with_ring_ok c H i : zgfx_ok c -> zlen H = zg_HistoryBufferSize c -> Forall is_byte H -> 0 <= i < zg_HistoryBufferSize c -> zgfx_ok (with_ring H i c).
Proof. intros [[Hz Hs] Hi Ho [Hb1 Hb2]] HzH HbH Hir. by constructor. Qed.

(** A write of no more than the ring holds. *)
Lemma ring_store_run c src : zgfx_ok c -> 0 < zlen src <= zg_HistoryBufferSize c ->
  let size := zg_HistoryBufferSize c in let index := zg_HistoryIndex c in let front := size - index in
  (if index + zlen src <=? size then history_copy index src ;; pmodify (fun c => c <| zg_HistoryIndex := if index + zlen src =? size then 0 else index + zlen src |>)
   else history_copy index (ztake front src) ;; history_copy 0 (zdrop front src) ;; pmodify (fun c => c <| zg_HistoryIndex := zlen src - front |>)) c =
  Ret (tt, with_ring (ring_put size index src (zg_HistoryBuffer c)) ((index + zlen src) mod size) c).
Proof.
  intros [[Hz Hs] Hi _ _] Hc size index front. fold size in Hz, Hs, Hi, Hc. fold index in Hi. destruct (index + zlen src <=? size) eqn:E.
  - rewrite (pbind_ret _ _ _ _ _ (history_copy_run index src c ltac:(lia) ltac:(lia))). rewrite (ring_put_linear size) by (done || lia). unfold pmodify, with_ring.
    assert (Ei : (if index + zlen src =? size then 0 else index + zlen src) = (index + zlen src) mod size).
    { case_if; [replace (index + zlen src) with size by lia; symmetry; apply Z.mod_same; lia|symmetry; apply Z.mod_small; lia]. }
    by rewrite Ei.
  - assert (Hf : zlen (ztake front src) = front) by (rewrite zlen_ztake; unfold front; lia). assert (Hd : zlen (zdrop front src) = zlen src - front) by (rewrite zlen_zdrop; unfold front; lia).
    rewrite (pbind_ret _ _ _ _ _ (history_copy_run index (ztake front src) c ltac:(lia) ltac:(unfold front in *; lia))).
    set (c1 := c <| zg_HistoryBuffer := splice index (ztake front src) (zg_HistoryBuffer c) |>).
    assert (Hz1 : zlen (zg_HistoryBuffer c1) = size) by (change (zlen (splice index (ztake front src) (zg_HistoryBuffer c)) = size); rewrite zlen_splice; rewrite ?Hf; unfold front; lia).
    rewrite (pbind_ret _ _ _ _ _ (history_copy_run 0 (zdrop front src) c1 ltac:(lia) ltac:(unfold front in *; lia))).
    change (zg_HistoryBuffer c1) with (splice index (ztake front src) (zg_HistoryBuffer c)). unfold front. rewrite (ring_put_wrapped size index src (zg_HistoryBuffer c)) by (done || lia). unfold pmodify, with_ring.
    replace (zlen src - (size - index)) with ((index + zlen src) mod size); [done|]. symmetry. apply (Z.mod_unique_pos _ _ 1); lia.
Qed.

Lemma ring_write_run c past src : zgfx_ok c -> Forall is_byte src -> ring_holds c past ->
  exists H i, zgfx_history_buffer_ring_write src c = Ret (tt, with_ring H i c) /\ zgfx_ok (with_ring H i c) /\ ring_holds (with_ring H i c) (past ++ src).
Proof.
  intros Hok Hb Hh. pose proof Hok as [[Hz Hs] Hi Ho [HbH HbO]]. unfold zgfx_history_buffer_ring_write. cbv zeta. pose proof (zlen_nonneg src). case_if.
  - exists (zg_HistoryBuffer c), (zg_HistoryIndex c). replace (with_ring _ _ c) with c by (by destruct c). assert (src = []) as -> by (apply zlen_0_nil; lia). by rewrite app_nil_r.
  - rewrite pbind_pget. set (size := zg_HistoryBufferSize c) in *. destruct (size <? zlen src) eqn:El.
    + set (i1 := (zg_HistoryIndex c + (zlen src - size)) mod size). set (c1 := c <| zg_HistoryIndex := i1 |>). rewrite (pbind_ret _ _ _ tt c1) by done. rewrite pbind_pget.
      assert (Hi1 : 0 <= i1 < size) by (apply Z.mod_pos_bound; lia). assert (Hok1 : zgfx_ok c1) by (by constructor).
      assert (Hd : zlen (zdrop (zlen src - size) src) = size) by (rewrite zlen_zdrop; lia). set (src1 := zdrop (zlen src - size) src) in *.
      pose proof (ring_store_run c1 src1 Hok1 ltac:(change (zg_HistoryBufferSize c1) with size; lia)) as Er. cbv zeta in Er. rewrite Hd in Er. change (zg_HistoryBufferSize c1) with size in Er.
      rewrite Er. eexists _, _. split; [reflexivity|].
      pose proof (ring_put_facts size i1 src1 (zg_HistoryBuffer c) Hz ltac:(lia) Hi1 ltac:(by apply Forall_zdrop) HbH) as [Hpz Hpb].
      split; [apply (with_ring_ok c); [done|exact Hpz|exact Hpb|apply Z.mod_pos_bound; lia]|].
      rewrite <- (ztake_zdrop_app (zlen src - size) src), app_assoc. fold src1. rewrite <- Hd at 2. apply (ring_put_holds c1); [exact Hz|change (0 < size); lia|exact Hi1|change (zlen src1 <= size); lia|].
      change (zlen src1 < size -> ring_holds c1 (past ++ ztake (zlen src - size) src)). lia.
    + rewrite (pbind_ret _ _ _ tt c), pbind_pget by done. pose proof (ring_store_run c src Hok ltac:(fold size; lia)) as Er. cbv zeta in Er. fold size in Er. rewrite Er.
      eexists _, _. split; [reflexivity|]. pose proof (ring_put_facts size (zg_HistoryIndex c) src (zg_HistoryBuffer c) Hz ltac:(lia) Hi Hb HbH) as [Hpz Hpb].
      split; [apply (with_ring_ok c); [done|exact Hpz|exact Hpb|apply Z.mod_pos_bound; lia]|]. apply (ring_put_holds c); [exact Hz|fold size; lia|exact Hi|fold size; lia|done].
Qed.

(** ** Copies *)

(** The bytes of a copy: those at its distance, again and again. *)
Definition lz_copy (past : list Z) (distance count : Z) : list Z := ztab count (fun i => znth past (zlen past - distance + i mod distance)).

Section repeating.
Context (g : Z -> Z) (offset dst : Z) (Hoff : 0 < offset) (Hdst : 0 <= dst).

(** [n] bytes from [dst] on repeat [g]. *)
Definition repeats (O : list Z) (n : Z) : Prop := forall i, 0 <= i < n -> znth O (dst + i) = g (i mod offset).

Lemma ring_repeat_run fuel : forall c valid left,
  repeats (zg_OutputBuffer c) valid -> (exists k, valid = offset * k) -> 0 < valid -> 0 < left <= Z.of_nat fuel -> dst + valid + left <= zlen (zg_OutputBuffer c) -> zlen (zg_OutputBuffer c) = 65536 ->
  exists O, ring_repeat fuel dst (dst + valid) valid left c = Ret (tt, c <| zg_OutputBuffer := O |>) /\ zlen O = 65536 /\ repeats O (valid + left) /\
    (forall i, i < dst + valid \/ dst + valid + left <= i -> znth O i = znth (zg_OutputBuffer c) i) /\ (Forall is_byte (zg_OutputBuffer c) -> Forall is_byte O).
Proof using Hoff Hdst.
  induction fuel as [|fuel IH]; intros c valid left Hrep (k & Hk) Hv Hl Hfit Hz; [lia|]. cbn [ring_repeat]. rewrite i32_id by lia.
  set (bytes := if left <? valid then left else valid). assert (Hby : 0 < bytes <= valid /\ bytes <= left) by (unfold bytes; case_if; lia).
  rewrite pbind_pget, slots_read_run, pbind_plift by lia. set (src := ztake bytes (zdrop dst (zg_OutputBuffer c))).
  assert (Hsz : zlen src = bytes) by (unfold src; rewrite zlen_ztake, zlen_zdrop; lia).
  assert (Hsn : forall i, 0 <= i < bytes -> znth src i = g (i mod offset)).
  { intros i Hi. unfold src. rewrite znth_ztake, znth_zdrop. replace (i <? bytes) with true by lia. replace (i <? 0) with false by lia. replace (i + Z.max 0 dst) with (dst + i) by lia. apply Hrep. lia. }
  rewrite (pbind_ret _ _ _ _ _ (output_copy_run (dst + valid) src c ltac:(lia) ltac:(lia))). set (O1 := splice (dst + valid) src (zg_OutputBuffer c)).
  set (c1 := c <| zg_OutputBuffer := O1 |>). assert (Hz1 : zlen O1 = 65536) by (unfold O1; rewrite zlen_splice; lia).
  assert (Hn1 : forall i, znth O1 i = if (dst + valid <=? i) && (i <? dst + valid + bytes) then znth src (i - (dst + valid)) else znth (zg_OutputBuffer c) i).
  { intros i. unfold O1. rewrite znth_splice by lia. by rewrite Hsz. }
  assert (Hr1 : repeats O1 (valid + bytes)).
  { intros i Hi. rewrite Hn1. case_if; [|apply Hrep; lia]. rewrite Hsn by lia. f_equal. replace i with ((dst + i - (dst + valid)) + k * offset) at 2 by lia. by rewrite Z.mod_add by lia. }
  assert (Hb1 : Forall is_byte (zg_OutputBuffer c) -> Forall is_byte O1) by (intros; apply Forall_splice; [|done]; unfold src; by apply Forall_ztake, Forall_zdrop).
  case_if.
  - assert (bytes = valid) as Ebv by (unfold bytes in *; case_if; lia).
    rewrite shiftl_mul, u32_id by lia. change (2 ^ 1) with 2. replace (dst + valid + bytes) with (dst + valid * 2) by lia.
    destruct (IH c1 (valid * 2) (left - bytes)) as (O & Er & HzO & HrO & HoO & HbO); [replace (valid * 2) with (valid + bytes) by lia; exact Hr1|exists (2 * k); lia|lia|lia|change (zg_OutputBuffer c1) with O1; lia|exact Hz1|].
    exists O. split; [exact Er|]. split_and!; [done|by replace (valid + left) with (valid * 2 + (left - bytes)) by lia| |intros; apply HbO, Hb1; done].
    intros i Hi. rewrite HoO by lia. change (zg_OutputBuffer c1) with O1. rewrite Hn1. by case_if; [lia|].
  - assert (bytes = left) as Ebl by lia. exists O1. split; [done|]. split_and!; [done|by rewrite <- Ebl| |done]. intros i Hi. rewrite Hn1. by case_if; [lia|].
Qed.
End repeating.

Lemma history_bytes_run i n c : 0 <= i -> 0 <= n -> i + n <= zlen (zg_HistoryBuffer c) -> history_bytes i n c = Ret (ztake n (zdrop i (zg_HistoryBuffer c)), c).
Proof. intros. unfold history_bytes. by rewrite pbind_pget, slots_read_run by lia. Qed.

(** The bytes of the ring from [index] on, round its end. *)
Lemma ring_slice_run c index dst bytes : zgfx_ok c -> 0 <= index < zg_HistoryBufferSize c -> 0 < bytes <= 65536 -> 0 <= dst -> dst + bytes <= 65536 ->
  let size := zg_HistoryBufferSize c in let front := size - index in
  (if u32 (index + bytes) <=? size then src <- history_bytes index bytes ;; output_copy dst src
   else src <- history_bytes index front ;; output_copy dst src ;; src <- history_bytes 0 (bytes - front) ;; output_copy (dst + front) src) c =
  Ret (tt, c <| zg_OutputBuffer := splice dst (ztab bytes (fun i => znth (zg_HistoryBuffer c) ((index + i) mod size))) (zg_OutputBuffer c) |>).
Proof.
  intros [[Hz Hs] Hi [Ho _] _] Hx Hby Hd Hfit size front. fold size in Hz, Hs, Hi, Hx. rewrite u32_id by lia. set (H := zg_HistoryBuffer c) in *. case_if.
  - rewrite (pbind_ret _ _ _ _ _ (history_bytes_run index bytes c ltac:(lia) ltac:(lia) ltac:(fold H; lia))). fold H.
    assert (El : ztake bytes (zdrop index H) = ztab bytes (fun i => znth H ((index + i) mod size))).
    { apply znth_ext; [rewrite zlen_ztab, zlen_ztake, zlen_zdrop; lia|]. intros i Hir. rewrite zlen_ztake, zlen_zdrop in Hir. rewrite znth_ztab, znth_ztake, znth_zdrop, Z.mod_small by lia.
      replace (i <? bytes) with true by lia. replace (i <? 0) with false by lia. f_equal. lia. }
    rewrite El, output_copy_run; [done|lia|rewrite zlen_ztab; lia].
  - assert (Hf : 0 < front < bytes) by (unfold front; lia).
    rewrite (pbind_ret _ _ _ _ _ (history_bytes_run index front c ltac:(lia) ltac:(lia) ltac:(fold H; unfold front; lia))). fold H. set (l1 := ztake front (zdrop index H)).
    assert (Hl1 : zlen l1 = front) by (unfold l1; rewrite zlen_ztake, zlen_zdrop; unfold front; lia).
    rewrite (pbind_ret _ _ _ _ _ (output_copy_run dst l1 c ltac:(lia) ltac:(lia))). set (O1 := splice dst l1 (zg_OutputBuffer c)). set (c1 := c <| zg_OutputBuffer := O1 |>).
    assert (Hz1 : zlen O1 = 65536) by (unfold O1; rewrite zlen_splice; lia).
    rewrite (pbind_ret _ _ _ _ _ (history_bytes_run 0 (bytes - front) c1 ltac:(lia) ltac:(lia) ltac:(change (zg_HistoryBuffer c1) with H; lia))). change (zg_HistoryBuffer c1) with H. set (l2 := ztake (bytes - front) (zdrop 0 H)).
    assert (Hl2 : zlen l2 = bytes - front) by (unfold l2; rewrite zlen_ztake, zlen_zdrop; lia).
    rewrite output_copy_run by (change (zg_OutputBuffer c1) with O1; lia). change (zg_OutputBuffer c1) with O1.
    assert (El : splice (dst + front) l2 O1 = splice dst (ztab bytes (fun i => znth H ((index + i) mod size))) (zg_OutputBuffer c)).
    { unfold O1. rewrite <- Hl1 at 1. rewrite splice_splice by lia. f_equal. apply znth_ext; [rewrite zlen_app, zlen_ztab; lia|]. intros i Hir. rewrite zlen_app in Hir.
      rewrite znth_ztab, znth_app, Hl1 by lia. unfold l1, l2. rewrite !znth_ztake, !znth_zdrop. unfold front in *. repeat case_if; try lia; f_equal.
      - rewrite Z.mod_small; lia.
      - apply (Z.mod_unique_pos _ _ 1); lia. }
    rewrite El. done.
Qed.

Lemma ring_read_run c offset dst count : zgfx_ok c -> 0 < offset < 2 ^ 31 -> 0 <= dst -> 0 <= count -> dst + count <= 65536 ->
  let size := zg_HistoryBufferSize c in let index := u32 (zg_HistoryIndex c + size - offset) mod size in
  zgfx_history_buffer_ring_read offset dst count c =
  Ret (tt, c <| zg_OutputBuffer := splice dst (ztab count (fun i => znth (zg_HistoryBuffer c) ((index + i mod offset) mod size))) (zg_OutputBuffer c) |>).
Proof.
  intros Hok Hoff Hd Hc Hfit size index. pose proof Hok as [[Hz Hs] Hi [Ho _] [HbH HbO]]. fold size in Hz, Hs, Hi. unfold zgfx_history_buffer_ring_read. case_if.
  - replace count with 0 by lia. change (ztab 0 _) with (@nil Z). rewrite splice_nil. by destruct c.
  - rewrite pbind_pget. cbv zeta. fold size. fold index. assert (Hx : 0 <= index < size) by (apply Z.mod_pos_bound; lia). set (bytes := Z.min count offset). assert (Hby : 0 < bytes <= count /\ bytes <= offset) by (unfold bytes; lia).
    pose proof (ring_slice_run c index dst bytes Hok Hx ltac:(lia) Hd ltac:(lia)) as E1. cbv zeta in E1. fold size in E1. rewrite (pbind_ret _ _ _ _ _ E1).
    set (H := zg_HistoryBuffer c) in *. set (g := fun i => znth H ((index + i) mod size)). set (O1 := splice dst (ztab bytes g) (zg_OutputBuffer c)). set (c1 := c <| zg_OutputBuffer := O1 |>).
    assert (Hz1 : zlen O1 = 65536) by (unfold O1; rewrite zlen_splice; rewrite ?zlen_ztab; lia).
    assert (Hn1 : forall i, znth O1 i = if (dst <=? i) && (i <? dst + bytes) then g (i - dst) else znth (zg_OutputBuffer c) i).
    { intros i. unfold O1. rewrite znth_splice by (rewrite ?zlen_ztab; lia). rewrite zlen_ztab by lia. case_if; [|done]. by rewrite znth_ztab by lia. }
    destruct (count - bytes =? 0) eqn:Ec.
    + assert (Eg : ztab count (fun i => znth H ((index + i mod offset) mod size)) = ztab bytes g).
      { replace count with bytes by lia. apply map_ext_in. intros i Hin. apply list_elem_of_In, elem_of_seqZ in Hin. unfold g. by rewrite (Z.mod_small i) by lia. }
      rewrite Eg. done.
    + assert (bytes = offset) as Eb by (unfold bytes in *; lia).
      destruct (ring_repeat_run g offset dst ltac:(lia) Hd (Z.to_nat count) c1 bytes (count - bytes)) as (O & Er & HzO & HrO & HoO & _).
      * intros i Hir. change (zg_OutputBuffer c1) with O1. rewrite Hn1. case_if; [|lia]. rewrite (Z.mod_small i) by lia. f_equal. lia.
      * exists 1. lia.
      * lia.
      * lia.
      * change (zg_OutputBuffer c1) with O1. lia.
      * exact Hz1.
      * rewrite Er. assert (EO : O = splice dst (ztab count (fun i => znth H ((index + i mod offset) mod size))) (zg_OutputBuffer c)).
        { apply znth_ext; [rewrite zlen_splice; rewrite ?zlen_ztab; lia|]. intros i Hir. rewrite znth_splice by (rewrite ?zlen_ztab; lia). rewrite zlen_ztab by lia. case_if.
          - rewrite znth_ztab by lia. pose proof (HrO (i - dst) ltac:(lia)) as Hg. replace (dst + (i - dst)) with i in Hg by lia. exact Hg.
          - rewrite HoO by lia. change (zg_OutputBuffer c1) with O1. rewrite Hn1. by case_if; [lia|]. }
        rewrite EO. done.
Qed.

(** A copy of what the ring holds. *)
Lemma ring_read_lz c past offset count : zgfx_ok c -> ring_holds c past -> 0 < offset <= zlen past -> offset <= zg_HistoryBufferSize c -> 0 <= count ->
  let size := zg_HistoryBufferSize c in let index := u32 (zg_HistoryIndex c + size - offset) mod size in
  ztab count (fun i => znth (zg_HistoryBuffer c) ((index + i mod offset) mod size)) = lz_copy past offset count.
Proof.
  intros [[Hz Hs] Hi _ _] Hh Ho Hos Hc size index. unfold lz_copy. apply map_ext_in. intros i Hin. pose proof (Z.mod_pos_bound i offset ltac:(lia)) as Hm.
  unfold index. rewrite u32_id by lia. rewrite Zplus_mod_idemp_l. pose proof (Hh (offset - i mod offset) ltac:(lia) ltac:(lia)) as E. fold size in E.
  replace (zg_HistoryIndex c + size - offset + i mod offset) with (zg_HistoryIndex c - (offset - i mod offset) + 1 * size) by lia. rewrite Z.mod_add by lia. rewrite E. f_equal. lia.
Qed.
