(* ===== verification/ZgfxSegment.v ===== *)
(** * Segments of ZGFX

    The format of a segment is a relation between its bits and the bytes they stand for: literals, copies
    of earlier bytes and plain runs.  The decompressor finds the token of every prefix, decodes what the
    relation says, and on any input it returns and stays within its buffers. *)

From S2P Require Import Prelude Memory Stream Readers BitStream Mppc Zgfx ZgfxRing.

#[local] Opaque window bits_of.

(** ** Bits *)

(** The context with other bits. *)
Definition with_bits (cur bits rem held count : Z) (c : ZGFX_CONTEXT) : ZGFX_CONTEXT :=
  c <| zg_pbInputCurrent := cur |> <| zg_bits := bits |> <| zg_cBitsRemaining := rem |> <| zg_BitsCurrent := held |> <| zg_cBitsCurrent := count |>.

Lemma with_bits_self c : with_bits (zg_pbInputCurrent c) (zg_bits c) (zg_cBitsRemaining c) (zg_BitsCurrent c) (zg_cBitsCurrent c) c = c.
Proof. by destruct c. Qed.

Section bits.
Context (data : list Z).
Let f : Z -> bool := bits_of data.

(** The input is [data]. *)
Definition input_is (c : ZGFX_CONTEXT) : Prop :=
  Forall is_byte data /\ 0 <= zg_pbInputEnd c <= zlen (zg_input c) /\ ztake (zg_pbInputEnd c) (zg_input c) = data.

Lemma input_end c : input_is c -> zg_pbInputEnd c = zlen data.
Proof. intros (_ & Hr & <-). rewrite zlen_ztake. lia. Qed.

Lemma input_byte c q : input_is c -> 0 <= q < zlen data -> slot_get q (zg_input c) = Ret (znth data q).
Proof.
  intros Hc Hq. pose proof (input_end c Hc) as He. destruct Hc as (_ & Hr & Hd). rewrite slot_get_run by lia. f_equal. rewrite <- Hd, znth_ztake. by replace (q <? zg_pbInputEnd c) with true by lia.
Qed.

(** A reader at the bit [pos]: what is left of the current byte is held. *)
Record zreading (c : ZGFX_CONTEXT) (pos : Z) : Prop := {
  zr_input : input_is c;
  zr_pos : 0 <= pos;
  zr_current : zg_pbInputCurrent c = Z.min ((pos + 7) / 8) (zlen data);
  zr_count : zg_cBitsCurrent c = 8 * ((pos + 7) / 8) - pos;
  zr_held : zg_BitsCurrent c = window f pos (Z.to_nat (8 * ((pos + 7) / 8) - pos))
}.

(** More bytes are taken until there are [nbits] bits from [p] on. *)
Lemma fill_bits_run nbits p fuel : 0 <= p -> 0 <= nbits < 2 ^ 31 -> forall c q, input_is c -> p <= 8 * q -> 8 * q - p < nbits + 8 -> zg_pbInputCurrent c = Z.min q (zlen data) ->
  zg_cBitsCurrent c = 8 * q - p -> zg_BitsCurrent c = window f p (Z.to_nat (8 * q - p)) mod 2 ^ 32 -> nbits - (8 * q - p) <= 8 * (Z.of_nat fuel - 1) -> (0 < fuel)%nat ->
  exists q', fill_bits fuel nbits c = Ret (tt, with_bits (Z.min q' (zlen data)) (zg_bits c) (zg_cBitsRemaining c) (window f p (Z.to_nat (8 * q' - p)) mod 2 ^ 32) (8 * q' - p) c) /\
    q <= q' /\ nbits <= 8 * q' - p < nbits + 8.
Proof.
  intros Hp Hn. induction fuel as [|fuel IH]; intros c q Hin Hq Hlt Hcur Hcnt Hheld Hfuel Hpos; [lia|]. cbn [fill_bits]. rewrite pbind_pget, Hcnt. case_if.
  - assert (Hb : Forall is_byte data) by apply Hin. pose proof (zlen_nonneg data) as Hz.
    set (W := window f p (Z.to_nat (8 * q - p))) in *. pose proof (window_byte data q Hb ltac:(lia)) as Wb. fold f in Wb.
    assert (EW : window f p (Z.to_nat (8 * (q + 1) - p)) = W * 256 + znth data q).
    { replace (Z.to_nat (8 * (q + 1) - p)) with (Z.to_nat (8 * q - p) + 8)%nat by lia. rewrite window_app, Z2Nat.id by lia. fold W. change (2 ^ Z.of_nat 8) with 256.
      replace (p + (8 * q - p)) with (8 * q) by lia. by rewrite Wb. }
    assert (Hbq : 0 <= znth data q < 256) by apply (znth_byte data q Hb). pose proof (input_end c Hin) as He.
    set (c1 := c <| zg_BitsCurrent := u32 (Z.shiftl (zg_BitsCurrent c) 8) |>). rewrite (pbind_ret _ _ _ tt c1) by done.
    set (c2 := with_bits (Z.min (q + 1) (zlen data)) (zg_bits c) (zg_cBitsRemaining c) (window f p (Z.to_nat (8 * (q + 1) - p)) mod 2 ^ 32) (8 * q - p) c).
    assert (Ew : u32 (Z.shiftl (zg_BitsCurrent c) 8) = (W * 256) mod 2 ^ 32) by (rewrite Hheld, shiftl_mul by lia; unfold u32; change (2 ^ 8) with 256; by rewrite Zmult_mod_idemp_l).
    rewrite (pbind_ret _ _ _ tt c2).
    2: { rewrite Hcur, He. case_if.
         - rewrite (input_byte c) by (done || lia). rewrite pbind_plift. unfold pmodify, c2, with_bits. change (zg_BitsCurrent c1) with (u32 (Z.shiftl (zg_BitsCurrent c) 8)). rewrite Ew.
           change (zg_pbInputCurrent c1) with (zg_pbInputCurrent c). replace (u32 ((W * 256) mod 2 ^ 32 + znth data (Z.min q (zlen data)))) with ((W * 256 + znth data q) mod 2 ^ 32).
           2: { unfold u32. rewrite Zplus_mod_idemp_l. do 2 f_equal. f_equal. lia. }
           rewrite EW, Hcur. replace (Z.min q (zlen data) + 1) with (Z.min (q + 1) (zlen data)) by lia. rewrite <- Hcnt. by destruct c.
         - unfold pret, c2, with_bits, c1. rewrite Ew, EW, (znth_out data q), Z.add_0_r by lia. replace (Z.min (q + 1) (zlen data)) with (zg_pbInputCurrent c) by lia. rewrite <- Hcnt. by destruct c. }
    set (c3 := with_bits (Z.min (q + 1) (zlen data)) (zg_bits c) (zg_cBitsRemaining c) (window f p (Z.to_nat (8 * (q + 1) - p)) mod 2 ^ 32) (8 * (q + 1) - p) c).
    rewrite (pbind_ret _ _ _ tt c3).
    2: { unfold pmodify. change (zg_cBitsCurrent c2) with (8 * q - p). rewrite u32_id by lia. replace (8 * q - p + 8) with (8 * (q + 1) - p) by lia. done. }
    destruct (IH c3 (q + 1)) as (q' & Er & Hq' & Hr); [exact Hin|lia|lia|done|done|done|lia|lia|]. exists q'. split; [exact Er|lia].
  - exists q. split; [|lia]. unfold pret. do 2 f_equal. rewrite <- Hcur, <- Hheld, <- Hcnt. by rewrite with_bits_self.
Qed.

Lemma get_bits_run c pos nbits : zreading c pos -> 0 <= nbits < 2 ^ 31 ->
  exists cur v held count, zgfx_GetBits nbits c = Ret (tt, with_bits cur v (u32 (zg_cBitsRemaining c - nbits)) held count c) /\
    zreading (with_bits cur v (u32 (zg_cBitsRemaining c - nbits)) held count c) (pos + nbits) /\ 0 <= v < 2 ^ 32 /\ (nbits <= 24 -> v = window f pos (Z.to_nat nbits)).
Proof.
  intros [Hin Hpos Hcur Hcnt Hheld] Hn. set (q := (pos + 7) / 8) in *. assert (Hq : 0 <= 8 * q - pos < 8) by (unfold q; Z.div_mod_to_equations; lia).
  pose proof (window_bound f pos (Z.to_nat (8 * q - pos))) as Hwb. rewrite Z2Nat.id in Hwb by lia. assert (H8 : 2 ^ (8 * q - pos) <= 2 ^ 8) by (apply Z.pow_le_mono_r; lia).
  destruct (fill_bits_run nbits pos (S (Z.to_nat nbits)) Hpos Hn c q Hin ltac:(lia) ltac:(lia) Hcur Hcnt) as (q' & Er & Hq' & Hr); [rewrite Hheld; symmetry; apply Z.mod_small; lia|lia|lia|].
  set (W := window f pos (Z.to_nat (8 * q' - pos))) in *. set (k := 8 * q' - pos - nbits). assert (Hk : 0 <= k < 8) by (unfold k; lia). assert (H2k : 0 < 2 ^ k <= 2 ^ 7) by (split; [apply Z.pow_pos_nonneg; lia|apply Z.pow_le_mono_r; lia]).
  assert (Eq' : (pos + nbits + 7) / 8 = q') by (unfold k in *; Z.div_mod_to_equations; lia).
  assert (EW : W = window f pos (Z.to_nat nbits) * 2 ^ k + window f (pos + nbits) (Z.to_nat k)).
  { unfold W. replace (Z.to_nat (8 * q' - pos)) with (Z.to_nat nbits + Z.to_nat k)%nat by (unfold k; lia). by rewrite window_app, !Z2Nat.id by lia. }
  pose proof (window_bound f (pos + nbits) (Z.to_nat k)) as Hwk. rewrite Z2Nat.id in Hwk by lia.
  assert (Em : (W mod 2 ^ 32) mod 2 ^ k = window f (pos + nbits) (Z.to_nat k)).
  { replace (2 ^ 32) with (2 ^ k * 2 ^ (32 - k)) by (rewrite <- pow_split by lia; f_equal; lia). rewrite Z.rem_mul_r by (try apply Z.pow_pos_nonneg; lia).
    rewrite Z.mul_comm, Z.mod_add, Z.mod_mod, EW, Z.add_comm, Z.mod_add by lia. by apply Z.mod_small. }
  exists (Z.min q' (zlen data)), (W mod 2 ^ 32 / 2 ^ k), (window f (pos + nbits) (Z.to_nat k)), k. split_and!.
  - unfold zgfx_GetBits. rewrite (pbind_ret _ _ _ _ _ Er). unfold pmodify, pbind. cbn [zg_cBitsRemaining zg_cBitsCurrent zg_BitsCurrent update].
    unfold with_bits. cbn. replace (u32 (8 * q' - pos - nbits)) with k by (rewrite u32_id; unfold k; lia). rewrite shiftr_div, shiftl_mul, Z.mul_1_l, land_mask, Em by lia. done.
  - constructor; [exact Hin|lia|by rewrite Eq'| |]; rewrite Eq'; [cbn; unfold k; lia|]. cbn. do 2 f_equal. unfold k. lia.
  - apply Z.div_pos; [apply Z.mod_pos_bound; lia|lia].
  - apply Z.div_lt_upper_bound; [lia|]. pose proof (Z.mod_pos_bound W (2 ^ 32) ltac:(lia)). nia.
  - intros H24. rewrite (Z.mod_small W).
    2: { pose proof (window_bound f pos (Z.to_nat (8 * q' - pos))) as Hb. fold W in Hb. rewrite Z2Nat.id in Hb by lia. split; [lia|]. apply (Z.lt_le_trans _ (2 ^ (8 * q' - pos))); [lia|]. apply Z.pow_le_mono_r; lia. }
    rewrite EW, Z.add_comm, Z.div_add, Z.div_small by lia. lia.
Qed.

(** [c'] is [c] after the bits from [pos] to [pos'] were read. *)
Definition took (c : ZGFX_CONTEXT) (pos : Z) (c' : ZGFX_CONTEXT) (pos' : Z) : Prop :=
  zreading c' pos' /\ pos <= pos' /\
  exists cur v held count, c' = with_bits cur v (u32 (zg_cBitsRemaining c - (pos' - pos))) held count c.

Lemma took_trans c1 p1 c2 p2 c3 p3 : took c1 p1 c2 p2 -> took c2 p2 c3 p3 -> took c1 p1 c3 p3.
Proof.
  intros (_ & H1 & cu1 & v1 & h1 & n1 & ->) (Hr & H2 & cu2 & v2 & h2 & n2 & ->). split_and!; [done|lia|]. exists cu2, v2, h2, n2.
  assert (E : u32 (zg_cBitsRemaining (with_bits cu1 v1 (u32 (zg_cBitsRemaining c1 - (p2 - p1))) h1 n1 c1) - (p3 - p2)) = u32 (zg_cBitsRemaining c1 - (p3 - p1))).
  { change (u32 (u32 (zg_cBitsRemaining c1 - (p2 - p1)) - (p3 - p2)) = u32 (zg_cBitsRemaining c1 - (p3 - p1))). unfold u32. rewrite Zminus_mod_idemp_l. f_equal. lia. }
  rewrite E. reflexivity.
Qed.

Lemma took_refl c pos : zreading c pos -> zg_cBitsRemaining c = u32 (zg_cBitsRemaining c) -> took c pos c pos.
Proof.
  intros Hr Hu. split_and!; [done|lia|]. exists (zg_pbInputCurrent c), (zg_bits c), (zg_BitsCurrent c), (zg_cBitsCurrent c). rewrite Z.sub_diag, Z.sub_0_r, <- Hu. by rewrite with_bits_self.
Qed.

Lemma get_bits_took c pos nbits : zreading c pos -> 0 <= nbits < 2 ^ 31 ->
  exists c', zgfx_GetBits nbits c = Ret (tt, c') /\ took c pos c' (pos + nbits) /\ 0 <= zg_bits c' < 2 ^ 32 /\ (nbits <= 24 -> zg_bits c' = window f pos (Z.to_nat nbits)).
Proof.
  intros Hr Hn. destruct (get_bits_run c pos nbits Hr Hn) as (cur & v & held & count & E & Hr' & Hv & Hw). eexists. split; [exact E|]. split; [split; [exact Hr'|split; [lia|]]|split; [exact Hv|exact Hw]].
  exists cur, v, held, count. by replace (pos + nbits - pos) with nbits by lia.
Qed.

(** ** Prefixes *)

Lemma read_prefix_run p n : forall c h, zreading c (p + h) -> 0 <= h -> h + Z.of_nat n <= 31 -> zg_cBitsRemaining c = u32 (zg_cBitsRemaining c) ->
  exists c', read_prefix n (window f p (Z.to_nat h)) c = Ret (window f p (Z.to_nat (h + Z.of_nat n)), c') /\ took c (p + h) c' (p + h + Z.of_nat n).
Proof.
  induction n as [|n IH]; intros c h Hr Hh Hn Hu.
  - exists c. rewrite !Z.add_0_r. split; [done|by apply took_refl].
  - cbn [read_prefix]. destruct (get_bits_took c (p + h) 1 Hr ltac:(lia)) as (c1 & E1 & T1 & _ & Hv). rewrite (pbind_ret _ _ _ _ _ E1), pbind_pget, Hv by lia.
    pose proof (window_app f p (Z.to_nat h) 1) as Wa. rewrite Z2Nat.id in Wa by lia. change (2 ^ Z.of_nat 1) with 2 in Wa.
    pose proof (window_bound f p (Z.to_nat h + 1)) as Wb. replace (Z.of_nat (Z.to_nat h + 1)) with (h + 1) in Wb by lia.
    assert (H32 : 2 ^ (h + 1) <= 2 ^ 32) by (apply Z.pow_le_mono_r; lia).
    change (Z.to_nat 1) with 1%nat. rewrite shiftl_mul by lia. change (2 ^ 1) with 2. rewrite <- Wa, u32_id by lia. replace (Z.to_nat h + 1)%nat with (Z.to_nat (h + 1)) by lia.
    destruct (IH c1 (h + 1)) as (c2 & E2 & T2); [replace (p + (h + 1)) with (p + h + 1) by lia; apply T1|lia|lia| |].
    { destruct T1 as (_ & _ & ? & ? & ? & ? & ->). unfold u32. cbn. by rewrite Zmod_mod. }
    exists c2. replace (h + 1 + Z.of_nat n) with (h + Z.of_nat (S n)) in E2 by lia. split; [exact E2|]. eapply took_trans; [exact T1|].
    replace (p + h + 1) with (p + (h + 1)) by lia. by replace (p + h + Z.of_nat (S n)) with (p + (h + 1) + Z.of_nat n) by lia.
Qed.
End bits.

(** The prefixes of a table get longer up to its end, and none is the start of a later one. *)
Fixpoint ascending (h : Z) (table : list ZGFX_TOKEN) : bool :=
  match table with
  | [] => true
  | t :: table =>
      if prefixLength t =? 0 then match table with [] => true | _ => false end
      else (h <=? prefixLength t) && (0 <? prefixLength t) && (prefixLength t <=? 9) && ascending (prefixLength t) table
  end.
Fixpoint prefix_free (table : list ZGFX_TOKEN) : bool :=
  match table with
  | [] => true
  | t :: table => forallb (fun t2 => (prefixLength t2 =? 0) || negb (prefixCode t2 / 2 ^ (prefixLength t2 - prefixLength t) =? prefixCode t)) table && prefix_free table
  end.

Lemma token_table_ok : ascending 0 ZGFX_TOKEN_TABLE = true /\ prefix_free ZGFX_TOKEN_TABLE = true.
Proof. split; vm_compute; reflexivity. Qed.

Lemma ascending_le table t : forall h, ascending h table = true -> In t table -> prefixLength t <> 0 -> h <= prefixLength t <= 9.
Proof.
  induction table as [|t1 table IH]; intros h Ha Hin Ht; [done|]. cbn [ascending] in Ha. destruct (prefixLength t1 =? 0) eqn:E0.
  - destruct table; [|done]. destruct Hin as [->|[]]. lia.
  - rewrite !andb_true_iff in Ha. destruct Ha as (((? & ?) & ?) & Ha). destruct Hin as [->|Hin]; [lia|]. specialize (IH _ Ha Hin Ht). lia.
Qed.

Section prefixes.
Context (data : list Z).
Let f : Z -> bool := bits_of data.

(** The token that is found has its prefix at [p], and it is the only one of the table that has. *)
Lemma find_token_run p table : forall c h, ascending h table = true -> 0 <= h <= 9 -> zreading data c (p + h) -> zg_cBitsRemaining c = u32 (zg_cBitsRemaining c) ->
  exists r c' h', find_token table h (window f p (Z.to_nat h)) c = Ret (r, c') /\ took data c (p + h) c' (p + h') /\ h <= h' <= 9 /\ match table with t :: _ => prefixLength t <> 0 -> 0 < h' | [] => True end /\
    (forall t, r = Some t -> In t table /\ prefixLength t = h' /\ 0 < h' /\ window f p (Z.to_nat h') = prefixCode t) /\
    (forall t, prefix_free table = true -> In t table -> prefixLength t <> 0 -> window f p (Z.to_nat (prefixLength t)) = prefixCode t -> r = Some t).
Proof.
  induction table as [|t table IH]; intros c h Ha Hh Hr Hu.
  - exists None, c, h. split; [done|]. split; [by apply took_refl|]. split_and!; [lia|lia|done|done|done].
  - cbn [find_token ascending prefix_free] in *. destruct (prefixLength t =? 0) eqn:E0.
    + exists None, c, h. split; [done|]. split; [by apply took_refl|]. split_and!; [lia|lia|lia|done|]. intros t2 _ [->|Hin]; [lia|]. by destruct table.
    + rewrite !andb_true_iff in Ha. destruct Ha as (((? & ?) & ?) & Ha). set (L := prefixLength t) in *.
      destruct (read_prefix_run data p (Z.to_nat (L - h)) c h Hr ltac:(lia) ltac:(lia) Hu) as (c1 & E1 & T1). rewrite Z2Nat.id in E1, T1 by lia.
      replace (h + (L - h)) with L in E1 by lia. replace (p + h + (L - h)) with (p + L) in T1 by lia. rewrite (pbind_ret _ _ _ _ _ E1). fold f. case_if.
      * exists (Some t), c1, L. split; [done|]. split; [done|]. split_and!; [lia|lia|lia| |].
        -- intros t2 [= <-]. split_and!; [by left|done|lia|done].
        -- intros t2 Hfree [Heq|Hin] Hne Hw; [by subst t2|]. exfalso. rewrite andb_true_iff in Hfree. destruct Hfree as [Hfree _]. rewrite forallb_forall in Hfree. specialize (Hfree t2 Hin).
           pose proof (ascending_le table t2 L Ha Hin Hne) as HL. rewrite (window_cut f p (Z.to_nat L) (Z.to_nat (prefixLength t2))) in Hw by lia.
           replace (Z.of_nat (Z.to_nat (prefixLength t2) - Z.to_nat L)) with (prefixLength t2 - L) in Hw by lia. rewrite E in Hw.
           pose proof (window_bound f (p + Z.of_nat (Z.to_nat L)) (Z.to_nat (prefixLength t2) - Z.to_nat L)) as Hb. replace (Z.of_nat (Z.to_nat (prefixLength t2) - Z.to_nat L)) with (prefixLength t2 - L) in Hb by lia.
           rewrite <- Hw in Hfree. rewrite Z.add_comm, Z.div_add, Z.div_small in Hfree by (try apply Z.pow_nonzero; lia). lia.
      * assert (Hu1 : zg_cBitsRemaining c1 = u32 (zg_cBitsRemaining c1)) by (destruct T1 as (_ & _ & ? & ? & ? & ? & ->); unfold u32; cbn; by rewrite Zmod_mod).
        replace (Z.max h L) with L by lia. destruct (IH c1 L Ha ltac:(lia) (proj1 T1) Hu1) as (r & c2 & h2 & E2 & T2 & Hh2 & _ & S2 & C2).
        exists r, c2, h2. split; [exact E2|]. split; [by eapply took_trans|]. split_and!; [lia|lia|lia| |].
        -- intros t2 Er. destruct (S2 t2 Er) as (? & ? & ? & ?). split_and!; [by right|done|done|done].
        -- intros t2 Hfree [Heq|Hin] Hne Hw; [subst t2; by destruct (E Hw)|]. rewrite andb_true_iff in Hfree. destruct Hfree. by apply C2.
Qed.
End prefixes.

(** ** Tokens *)

Lemma ring_holds_nil c : ring_holds c [].
Proof. intros d Hd Hp. rewrite zlen_nil in Hp. lia. Qed.

Section tokens.
Context (data : list Z) (total size : Z) (Hdata : zlen data < 2 ^ 27).
Let f : Z -> bool := bits_of data.

(** A decompressor at the bit [pos] of a segment: [out] is what it has written, [past] is in the ring. *)
Record zstate (c : ZGFX_CONTEXT) (pos : Z) (out past : list Z) : Prop := {
  zs_ok : zgfx_ok c;
  zs_reading : zreading data c pos;
  zs_remaining : zg_cBitsRemaining c = u32 (total - pos);
  zs_output : ztake (zg_OutputCount c) (zg_OutputBuffer c) = out;
  zs_ring : ring_holds c past;
  zs_size : zg_HistoryBufferSize c = size
}.

Lemma zstate_count c pos out past : zstate c pos out past -> zg_OutputCount c = zlen out /\ 0 <= zlen out <= 65536 /\ zg_cBitsRemaining c = u32 (zg_cBitsRemaining c).
Proof using.
  intros [[_ _ [Hz Ho] _] _ Hrem <- _ _]. rewrite zlen_ztake. split_and!; [lia..|]. rewrite Hrem. unfold u32. by rewrite Zmod_mod.
Qed.

(** Reading bits. *)
Lemma zstate_took c pos c' pos' out past : zstate c pos out past -> took data c pos c' pos' -> zstate c' pos' out past.
Proof using.
  intros [Hok _ Hrem Ho Hring Hsz] (Hr & _ & cur & v & held & count & ->). destruct Hok. constructor; [by constructor|exact Hr| |exact Ho|exact Hring|exact Hsz].
  change (u32 (zg_cBitsRemaining c - (pos' - pos)) = u32 (total - pos')). rewrite Hrem. unfold u32. rewrite Zminus_mod_idemp_l. f_equal. lia.
Qed.

Lemma zstate_bits c pos out past n : zstate c pos out past -> 0 <= n < 2 ^ 31 ->
  exists c', zgfx_GetBits n c = Ret (tt, c') /\ zstate c' (pos + n) out past /\ 0 <= zg_bits c' < 2 ^ 32 /\ (n <= 24 -> zg_bits c' = window f pos (Z.to_nat n)).
Proof using.
  intros Hs Hn. destruct (get_bits_took data c pos n (zs_reading _ _ _ _ Hs) Hn) as (c' & E & T & Hv & Hw). exists c'. split; [done|]. split; [by eapply zstate_took|done].
Qed.

Lemma bits_end i : 8 * zlen data <= i -> f i = false.
Proof using. intros Hi. unfold f. rewrite bits_of_eq, znth_out by (Z.div_mod_to_equations; lia). apply Z.testbit_0_l. Qed.

Lemma window_1 p : window f p 1 = Z.b2z (f p).
Proof using. rewrite (window_app f p 0 1 : window f p 1 = _), window_0, Z.mul_0_l, Z.add_0_l. change (p + Z.of_nat 0) with (p + 0). rewrite Z.add_0_r.
  pose proof (window_testbit f p 1 0 ltac:(lia)) as T. pose proof (window_bound f p 1) as B. rewrite Z.add_0_r in T. change (Z.of_nat 1 - 1 - 0) with 0 in T. change (2 ^ Z.of_nat 1) with 2 in B.
  assert (window f p 1 = 0 \/ window f p 1 = 1) as [E|E] by lia; rewrite E in T |- *; by rewrite <- T.
Qed.

(** The first zero from [q] on. *)
Lemma first_zero q : 0 <= q -> exists j, 0 <= j <= Z.max 0 (8 * zlen data - q) /\ (forall i, 0 <= i < j -> f (q + i) = true) /\ f (q + j) = false.
Proof using.
  intros Hq. assert (Hn : exists n : nat, Z.of_nat n = Z.max 0 (8 * zlen data - q)) by (exists (Z.to_nat (Z.max 0 (8 * zlen data - q))); lia). destruct Hn as [n Hn].
  revert q Hq Hn. induction n as [|n IH]; intros q Hq Hn.
  - exists 0. split_and!; [lia|lia|lia|]. apply bits_end. lia.
  - destruct (f q) eqn:E; [|exists 0; split_and!; [lia|lia|lia|by rewrite Z.add_0_r]].
    destruct (IH (q + 1) ltac:(lia) ltac:(lia)) as (j & Hj & H1 & H0). exists (j + 1). split_and!; [lia|lia| |by replace (q + (j + 1)) with (q + 1 + j) by lia].
    intros i Hi. destruct (decide (i = 0)) as [->|]; [by rewrite Z.add_0_r|]. replace (q + i) with (q + 1 + (i - 1)) by lia. apply H1. lia.
Qed.

(** The loop over the ones in front of [q + j]. *)
Lemma count_loop_run j fuel : forall c q out past count extra, zstate c (q + 1) out past -> zg_bits c = Z.b2z (f q) -> 0 <= q -> 0 <= j < Z.of_nat fuel ->
  (forall i, 0 <= i < j -> f (q + i) = true) -> f (q + j) = false ->
  exists c', count_loop fuel count extra c = Ret ((if j =? 0 then count else u32 (count * 2 ^ j), if j =? 0 then extra else u32 (extra + j)), c') /\ zstate c' (q + 1 + j) out past.
Proof using.
  revert j. induction fuel as [|fuel IH]; intros j c q out past count extra Hs Hb Hq Hj H1 H0; [lia|]. cbn [count_loop]. rewrite pbind_pget, Hb. destruct (decide (j = 0)) as [->|Hne].
  - rewrite Z.add_0_r in H0. rewrite H0. cbn. exists c. by rewrite Z.add_0_r.
  - pose proof (H1 0 ltac:(lia)) as Ht. rewrite Z.add_0_r in Ht. rewrite Ht. cbn [Z.b2z]. change (1 =? 1) with true. cbv iota.
    destruct (zstate_bits c (q + 1) out past 1 Hs ltac:(lia)) as (c1 & E1 & Hs1 & _ & Hv). rewrite (pbind_ret _ _ _ _ _ E1). specialize (Hv ltac:(lia)). change (Z.to_nat 1) with 1%nat in Hv. rewrite window_1 in Hv.
    destruct (IH (j - 1) c1 (q + 1) out past (u32 (count * 2)) (u32 (extra + 1)) Hs1 Hv ltac:(lia) ltac:(lia)) as (c2 & E2 & Hs2).
    { intros i Hi. replace (q + 1 + i) with (q + (i + 1)) by lia. apply H1. lia. }
    { by replace (q + 1 + (j - 1)) with (q + j) by lia. }
    exists c2. rewrite E2. replace (q + 1 + 1 + (j - 1)) with (q + 1 + j) in Hs2 by lia. split; [|done]. replace (j =? 0) with false by lia. do 3 f_equal.
    + case_if; [by replace j with 1 by lia|]. unfold u32. rewrite Zmult_mod_idemp_l. f_equal. replace j with (1 + (j - 1)) at 2 by lia. rewrite pow_split by lia. lia.
    + case_if; [f_equal; lia|]. unfold u32. rewrite Zplus_mod_idemp_l. f_equal. lia.
Qed.

(** The number of bytes a copy has at [pos], and the bits it takes. *)
Definition count_at (pos count pos' : Z) : Prop :=
  (f pos = false /\ count = 3 /\ pos' = pos + 1) \/
  (exists j, f pos = true /\ 0 <= j <= 20 /\ (forall i, 0 <= i < j -> f (pos + 1 + i) = true) /\ f (pos + 1 + j) = false /\
     count = 4 * 2 ^ j + window f (pos + 2 + j) (Z.to_nat (j + 2)) /\ pos' = pos + 4 + 2 * j).

Lemma match_count_run c pos out past : zstate c pos out past ->
  exists n c' pos', match_count c = Ret (n, c') /\ zstate c' pos' out past /\ pos < pos' /\ 0 <= n < 2 ^ 32 /\ (forall count p, count_at pos count p -> n = count /\ pos' = p).
Proof using Hdata.
  intros Hs. pose proof (zr_pos _ _ _ (zs_reading _ _ _ _ Hs)) as Hpos. unfold match_count. destruct (zstate_bits c pos out past 1 Hs ltac:(lia)) as (c1 & E1 & Hs1 & _ & Hv1). specialize (Hv1 ltac:(lia)).
  change (Z.to_nat 1) with 1%nat in Hv1. rewrite window_1 in Hv1. rewrite (pbind_ret _ _ _ _ _ E1), pbind_pget, Hv1. destruct (f pos) eqn:Ef; cbn [Z.b2z].
  2: { change (0 =? 0) with true. cbv iota. exists 3, c1, (pos + 1). split_and!; [done|done|lia|lia|lia|]. intros count p [(_ & -> & ->)|(j & ? & _)]; [done|congruence]. }
  change (1 =? 0) with false. cbv iota. destruct (zstate_bits c1 (pos + 1) out past 1 Hs1 ltac:(lia)) as (c2 & E2 & Hs2 & _ & Hv2). specialize (Hv2 ltac:(lia)). change (Z.to_nat 1) with 1%nat in Hv2. rewrite window_1 in Hv2.
  rewrite (pbind_ret _ _ _ _ _ E2). destruct (first_zero (pos + 1) ltac:(lia)) as (j & Hj & H1 & H0).
  assert (Hfuel : 8 * zlen data <= Z.of_nat (8 * length (zg_input c1))) by (pose proof (zr_input _ _ _ (zs_reading _ _ _ _ Hs1)) as Hin; pose proof (input_end _ _ Hin); destruct Hin as (_ & ? & _); unfold zlen in *; lia).
  destruct (count_loop_run j (S (8 * length (zg_input c1))) c2 (pos + 1) out past 4 2 Hs2 Hv2 ltac:(lia) ltac:(lia) H1 H0) as (c3 & E3 & Hs3). rewrite (pbind_ret _ _ _ _ _ E3). cbn [fst snd].
  assert (Ex : (if j =? 0 then 2 else u32 (2 + j)) = 2 + j) by (case_if; [lia|apply u32_id; lia]). rewrite Ex. pose proof (zlen_nonneg data).
  destruct (zstate_bits c3 (pos + 1 + 1 + j) out past (2 + j) Hs3 ltac:(lia)) as (c4 & E4 & Hs4 & Hb4 & Hv4). rewrite (pbind_ret _ _ _ _ _ E4), pbind_pget.
  eexists _, c4, _. split; [reflexivity|]. split; [exact Hs4|]. split; [lia|]. split; [apply Z.mod_pos_bound; lia|].
  intros count p [(? & _)|(k & _ & Hk & K1 & K0 & -> & ->)]; [congruence|].
  assert (j = k) as <-.
  { destruct (decide (j < k)); [rewrite K1 in H0 by lia; congruence|]. destruct (decide (k < j)); [rewrite H1 in K0 by lia; congruence|lia]. }
  split; [|lia]. rewrite Hv4 by lia. pose proof (window_bound f (pos + 1 + 1 + j) (Z.to_nat (2 + j))) as Hw. rewrite Z2Nat.id in Hw by lia.
  assert (Hp2 : 2 ^ (2 + j) = 4 * 2 ^ j) by (rewrite pow_split by lia; lia). assert (Hp3 : 0 < 2 ^ j <= 2 ^ 20) by (split; [apply Z.pow_pos_nonneg; lia|apply Z.pow_le_mono_r; lia]).
  assert (Ec : (if j =? 0 then 4 else u32 (4 * 2 ^ j)) = 4 * 2 ^ j) by (case_if; [by replace j with 0 by lia|apply u32_id; lia]). rewrite Ec, u32_id by lia.
  f_equal. f_equal; lia.
Qed.

Lemma ztake_splice_end p (l O : list Z) : 0 <= p -> p + zlen l <= zlen O -> ztake (p + zlen l) (splice p l O) = ztake p O ++ l.
Proof using.
  intros Hp Hl. pose proof (zlen_nonneg l). unfold splice. rewrite app_assoc, ztake_app. rewrite (ztake_all _ (ztake p O ++ l)), (ztake_0 (_ - _)), app_nil_r; rewrite ?zlen_app, ?zlen_ztake; done || lia.
Qed.

Lemma literal_run c pos out past t : zstate c pos out past -> 0 <= valueBits t <= 24 ->
  let x := u8 (valueBase t + window f pos (Z.to_nat (valueBits t))) in
  exists b c', zgfx_literal t c = Ret (b, c') /\ if b then zlen out < 65536 /\ zstate c' (pos + valueBits t) (out ++ [x]) (past ++ [x]) else zlen out = 65536 /\ zgfx_ok c'.
Proof using.
  intros Hs Hn x. unfold zgfx_literal. destruct (zstate_bits c pos out past (valueBits t) Hs ltac:(lia)) as (c1 & E1 & Hs1 & _ & Hv). specialize (Hv ltac:(lia)). rewrite (pbind_ret _ _ _ _ _ E1), pbind_pget, Hv.
  fold x. pose proof Hs1 as [Hok Hr Hrem Hout Hring Hsize]. pose proof Hok as [[Hz Hsz] Hi [Hzo Hoc] [HbH HbO]]. destruct (zstate_count _ _ _ _ Hs1) as (Hoc2 & Hol & _). assert (Hx : is_byte x) by apply u8_byte.
  rewrite slot_set_run, pbind_plift by lia. set (H := splice (zg_HistoryIndex c1) [x] (zg_HistoryBuffer c1)).
  set (i := if u32 (zg_HistoryIndex c1 + 1) =? zg_HistoryBufferSize c1 then 0 else u32 (zg_HistoryIndex c1 + 1)).
  assert (Ei : i = (zg_HistoryIndex c1 + 1) mod zg_HistoryBufferSize c1).
  { unfold i. rewrite u32_id by lia. case_if; [rewrite E; symmetry; apply Z.mod_same; lia|symmetry; apply Z.mod_small; lia]. }
  rewrite (pbind_ret _ _ _ tt (with_ring H i c1)) by done.
  assert (EH : H = ring_put (zg_HistoryBufferSize c1) (zg_HistoryIndex c1) [x] (zg_HistoryBuffer c1)) by (apply ring_put_linear; [done|lia|rewrite zlen_cons, zlen_nil; lia]).
  assert (Hh : ring_holds (with_ring H i c1) (past ++ [x])).
  { rewrite EH, Ei. apply (ring_put_holds c1 past [x]); [done|lia|done|rewrite zlen_cons, zlen_nil; lia|done]. }
  assert (Hok' : zgfx_ok (with_ring H i c1)).
  { apply with_ring_ok; [done|unfold H; rewrite zlen_splice1; lia|by apply Forall_splice; [apply Forall_singleton|]|rewrite Ei; apply Z.mod_pos_bound; lia]. }
  case_if; [exists false; eexists; split; [reflexivity|]; split; [lia|exact Hok']|].
  rewrite slot_set_run, pbind_plift by lia. exists true. eexists. split; [reflexivity|]. split; [lia|]. set (O := splice (zg_OutputCount c1) [x] (zg_OutputBuffer c1)).
  constructor; [|destruct Hr; by constructor|exact Hrem| |exact Hh|exact Hsize].
  - destruct Hok' as [? ? _ [? _]]. constructor; [done|done| |split; [done|]]; cbn [zg_OutputBuffer zg_OutputCount update].
    + change (zlen O = 65536 /\ 0 <= zg_OutputCount c1 + 1 <= 65536). unfold O. rewrite zlen_splice1 by lia. lia.
    + by apply Forall_splice; [apply Forall_singleton|].
  - change (ztake (zg_OutputCount c1 + 1) O = out ++ [x]). unfold O. rewrite <- Hout. rewrite <- ztake_splice_end; rewrite ?zlen_cons, ?zlen_nil; [f_equal; lia|lia|lia].
Qed.

(** Bytes that go to the output and into the ring. *)
Lemma zstate_append c pos out past L O H i : zstate c pos out past -> zlen out + zlen L <= 65536 -> Forall is_byte L -> O = splice (zlen out) L (zg_OutputBuffer c) ->
  zgfx_ok (with_ring H i c) -> ring_holds (with_ring H i c) (past ++ L) -> forall c', c' = with_ring H i c <| zg_OutputBuffer := O |> <| zg_OutputCount := zlen out + zlen L |> -> zstate c' pos (out ++ L) (past ++ L).
Proof using.
  intros Hs Hfit HbL -> [? ? _ [? _]] Hring c' ->. destruct (zstate_count _ _ _ _ Hs) as (Hoc & Hol & _). destruct Hs as [[_ _ [Hzo _] [_ HbO]] [? ? ? ? ?] Hrem Hout _ Hsize]. pose proof (zlen_nonneg L).
  constructor; [|by constructor|exact Hrem| |exact Hring|exact Hsize].
  - constructor; [done|done| |split; [done|]]; cbn [zg_OutputBuffer zg_OutputCount update].
    + split; [|lia]. change (zlen (splice (zlen out) L (zg_OutputBuffer c)) = 65536). rewrite zlen_splice; lia.
    + by apply Forall_splice.
  - change (ztake (zlen out + zlen L) (splice (zlen out) L (zg_OutputBuffer c)) = out ++ L). rewrite ztake_splice_end by lia. by rewrite <- Hoc, Hout.
Qed.

Lemma zdrop_ztake_splice' p (l O : list Z) : 0 <= p -> p + zlen l <= zlen O -> ztake (zlen l) (zdrop p (splice p l O)) = l.
Proof using.
  intros Hp Hl. pose proof (zlen_nonneg l). unfold splice. rewrite zdrop_app, zdrop_all, app_nil_l, zlen_ztake, zdrop_0 by (rewrite ?zlen_ztake; lia). rewrite ztake_app, (ztake_all _ l), (ztake_0 (_ - _)), app_nil_r; done || lia.
Qed.

Lemma match_run c pos out past distance : zstate c pos out past -> 0 < distance < 2 ^ 31 ->
  exists b c' n pos', zgfx_match distance c = Ret (b, c') /\ pos < pos' /\ 0 <= n /\ (forall count p, count_at pos count p -> n = count /\ pos' = p) /\
    if b : bool then zlen out + n <= 65536 /\ exists L, zlen L = n /\ zstate c' pos' (out ++ L) (past ++ L) /\ (distance <= zlen past -> distance <= size -> L = lz_copy past distance n)
    else 65536 < zlen out + n /\ zgfx_ok c'.
Proof using Hdata.
  intros Hs Hd. unfold zgfx_match. destruct (match_count_run c pos out past Hs) as (n & c1 & pos' & E1 & Hs1 & Hpos & Hn & Hcnt). rewrite (pbind_ret _ _ _ _ _ E1), pbind_pget. cbv zeta.
  destruct (zstate_count _ _ _ _ Hs1) as (Hoc & Hol & _). rewrite Hoc. case_if; [exists false, c1, n, pos'; split_and!; [done|lia|lia|done|lia|exact (zs_ok _ _ _ _ Hs1)]|].
  pose proof Hs1 as [Hok Hr Hrem Hout Hring Hsize]. pose proof Hok as [[Hz Hsz] Hi [Hzo _] [HbH HbO]]. rewrite Hsize in Hz, Hsz, Hi. set (index := u32 (zg_HistoryIndex c1 + size - distance) mod size).
  set (L := ztab n (fun i => znth (zg_HistoryBuffer c1) ((index + i mod distance) mod size))). assert (HL : zlen L = n) by (apply zlen_ztab; lia).
  assert (HbL : Forall is_byte L) by (apply Forall_ztab; intros; apply (znth_byte _ _ HbH)).
  assert (Er : zgfx_history_buffer_ring_read distance (zlen out) n c1 = Ret (tt, c1 <| zg_OutputBuffer := splice (zlen out) L (zg_OutputBuffer c1) |>)) by (pose proof (ring_read_run c1 distance (zlen out) n Hok ltac:(lia) ltac:(lia) ltac:(lia) ltac:(lia)) as Er; cbv zeta in Er; rewrite Hsize in Er; exact Er).
  rewrite (pbind_ret _ _ _ _ _ Er), pbind_pget. set (O := splice (zlen out) L (zg_OutputBuffer c1)). set (c2 := c1 <| zg_OutputBuffer := O |>). change (zg_OutputBuffer c2) with O.
  assert (HzO : zlen O = 65536) by (unfold O; rewrite zlen_splice; lia). rewrite slots_read_run, pbind_plift by lia.
  replace (ztake n (zdrop (zlen out) O)) with L by (rewrite <- HL at 1; symmetry; unfold O; apply zdrop_ztake_splice'; lia).
  assert (Hok2 : zgfx_ok c2) by (constructor; [exact (zok_size _ Hok)|exact (zok_index _ Hok)|split; [exact HzO|exact (proj2 (zok_output _ Hok))]|split; [done|by apply Forall_splice]]).
  destruct (ring_write_run c2 past L Hok2 HbL Hring) as (H & i & Ew & Hok3 & Hring3). rewrite (pbind_ret _ _ _ _ _ Ew). exists true. eexists _, n, pos'. split; [reflexivity|]. split_and!; [lia|lia|done|lia|].
  exists L. split_and!; [done| |].
  - eapply (zstate_append c1 pos' out past L O H i); [done|lia|done|done|by apply with_ring_ok; [done|apply (zok_size _ Hok3)|apply (zok_bytes _ Hok3)|apply (zok_index _ Hok3)]|exact Hring3|].
    change (zg_OutputCount (with_ring H i c2)) with (zg_OutputCount c1). rewrite Hoc, HL. by destruct c1.
  - intros Hdp Hds. pose proof (ring_read_lz c1 past distance n Hok Hring ltac:(lia) ltac:(lia) ltac:(lia)) as El. cbv zeta in El. rewrite Hsize in El. exact El.
Qed.

Lemma unencoded_run c pos out past : zstate c pos out past ->
  let n := window f pos 15 in let q := (pos + 15 + 7) / 8 in
  exists b c', zgfx_unencoded c = Ret (b, c') /\
    if b : bool then zlen out + n <= 65536 /\ zstate c' (8 * (q + n)) (out ++ ztake n (zdrop q data)) (past ++ ztake n (zdrop q data)) /\ zlen (ztake n (zdrop q data)) = n
    else zgfx_ok c' /\ (65536 < zlen out + n \/ u32 (total - 8 * q) < 8 * n \/ zlen data < q + n).
Proof using.
  intros Hs n q. unfold zgfx_unencoded. destruct (zstate_bits c pos out past 15 Hs ltac:(lia)) as (c1 & E1 & Hs1 & _ & Hv). specialize (Hv ltac:(lia)). change (Z.to_nat 15) with 15%nat in Hv. fold n in Hv.
  rewrite (pbind_ret _ _ _ _ _ E1), pbind_pget, Hv. cbv zeta. pose proof (window_bound f pos 15) as Hn. fold n in Hn. change (2 ^ Z.of_nat 15) with 32768 in Hn.
  pose proof Hs1 as [Hok [Hin Hpos Hcur Hcnt Hheld] Hrem Hout Hring Hsize]. destruct (zstate_count _ _ _ _ Hs1) as (Hoc & Hol & _). fold q in Hcur, Hcnt, Hheld.
  assert (Hq : 8 * q - (pos + 15) < 8 /\ 0 <= 8 * q - (pos + 15)) by (unfold q; Z.div_mod_to_equations; lia). pose proof (zlen_nonneg data) as Hzd.
  set (rem := u32 (total - 8 * q)). set (c2 := c1 <| zg_cBitsRemaining := rem |> <| zg_cBitsCurrent := 0 |> <| zg_BitsCurrent := 0 |>).
  rewrite (pbind_ret _ _ _ tt c2).
  2: { unfold pmodify, c2. rewrite Hrem, Hcnt. replace (u32 (u32 (total - (pos + 15)) - (8 * q - (pos + 15)))) with rem; [done|]. unfold rem, u32. rewrite Zminus_mod_idemp_l. f_equal. lia. }
  rewrite pbind_pget. change (zg_OutputCount c2) with (zg_OutputCount c1). change (zg_cBitsRemaining c2) with rem. change (zg_pbInputEnd c2) with (zg_pbInputEnd c1). change (zg_pbInputCurrent c2) with (zg_pbInputCurrent c1).
  change (zg_input c2) with (zg_input c1). rewrite Hoc, (input_end data c1 Hin), Hcur. assert (Hok2 : zgfx_ok c2) by (destruct Hok; by constructor).
  assert (Hr : 8 * (rem / 8) <= rem < 8 * (rem / 8) + 8) by (Z.div_mod_to_equations; lia).
  case_if; [exists false, c2; split; [done|]; split; [done|lia]|]. case_if; [exists false, c2; split; [done|]; split; [done|]; right; left; fold rem; lia|].
  case_if; [exists false, c2; split; [done|]; split; [done|lia]|]. set (cur := Z.min q (zlen data)). set (L := ztake n (zdrop q data)).
  assert (Hcn : cur + n <= zlen data /\ (0 < n -> cur = q)) by (unfold cur in *; lia).
  assert (HzL : zlen L = n) by (unfold L; rewrite zlen_ztake, zlen_zdrop; unfold cur in *; lia).
  assert (EL : ztake n (zdrop cur (zg_input c1)) = L).
  { pose proof (input_end data c1 Hin) as He. destruct Hin as (_ & Hir & Hd). unfold L. destruct (decide (n = 0)) as [->|]; [by rewrite !ztake_0 by lia|]. replace cur with q by lia. rewrite <- Hd at 1.
    apply znth_ext; [rewrite !zlen_ztake, !zlen_zdrop, zlen_ztake; unfold cur in *; lia|]. intros i Hi. rewrite zlen_ztake, zlen_zdrop in Hi. rewrite !znth_ztake, !znth_zdrop, znth_ztake. repeat case_if; try lia; done. }
  destruct Hin as (HbD & Hir & Hd). pose proof (f_equal zlen Hd) as Hde. rewrite zlen_ztake in Hde. rewrite slots_read_run, pbind_plift, EL by (unfold cur in *; lia).
  pose proof Hok as [_ _ [Hzo _] [_ HbO]]. assert (HbL : Forall is_byte L) by (by apply Forall_ztake, Forall_zdrop).
  rewrite (pbind_ret _ _ _ _ _ (output_copy_run (zlen out) L c2 ltac:(lia) ltac:(change (zg_OutputBuffer c2) with (zg_OutputBuffer c1); lia))). change (zg_OutputBuffer c2) with (zg_OutputBuffer c1).
  set (O := splice (zlen out) L (zg_OutputBuffer c1)). set (c3 := c2 <| zg_OutputBuffer := O |>).
  assert (Hok3 : zgfx_ok c3) by (constructor; [exact (zok_size _ Hok2)|exact (zok_index _ Hok2)|split; [change (zlen O = 65536); unfold O; rewrite zlen_splice; lia|exact (proj2 (zok_output _ Hok2))]|split; [exact (proj1 (zok_bytes _ Hok2))|by apply Forall_splice]]).
  destruct (ring_write_run c3 past L Hok3 HbL Hring) as (H & i & Ew & Hok4 & Hring4). rewrite (pbind_ret _ _ _ _ _ Ew). exists true. eexists. split; [reflexivity|]. split; [lia|]. split; [|done].
  set (c4 := c1 <| zg_cBitsRemaining := u32 (rem - 8 * n) |> <| zg_cBitsCurrent := 0 |> <| zg_BitsCurrent := 0 |> <| zg_pbInputCurrent := cur + n |>).
  assert (Hs4 : zstate c4 (8 * (q + n)) out past).
  { assert (Eq8 : (8 * (q + n) + 7) / 8 = q + n) by (Z.div_mod_to_equations; lia).
    constructor; [destruct Hok; by constructor| | |exact Hout|exact Hring|exact Hsize].
    - constructor; [done|lia|rewrite Eq8; change (cur + n = Z.min (q + n) (zlen data)); unfold cur in *; lia|rewrite Eq8; change (0 = 8 * (q + n) - 8 * (q + n)); lia|].
      rewrite Eq8. replace (8 * (q + n) - 8 * (q + n)) with 0 by lia. change (Z.to_nat 0) with 0%nat. by rewrite window_0.
    - change (u32 (rem - 8 * n) = u32 (total - 8 * (q + n))). unfold rem, u32. rewrite Zminus_mod_idemp_l. f_equal. lia. }
  eapply (zstate_append c4 (8 * (q + n)) out past L O H i); [done|lia|done|done|apply with_ring_ok; [exact (zs_ok _ _ _ _ Hs4)|apply (zok_size _ Hok4)|apply (zok_bytes _ Hok4)|apply (zok_index _ Hok4)]|exact Hring4|].
  rewrite HzL. unfold c4. change (zg_OutputCount (with_ring H i c3)) with (zg_OutputCount c1). rewrite Hoc. change (zg_pbInputCurrent (with_ring H i c3)) with (zg_pbInputCurrent c1). rewrite Hcur. fold cur.
  change (zg_cBitsRemaining (with_ring H i c3)) with rem. by destruct c1.
Qed.

Lemma token_ranges t : In t ZGFX_TOKEN_TABLE -> 0 <= valueBits t <= 24 /\ 0 <= valueBase t < 2 ^ 25.
Proof using.
  intros Hin. assert (Hall : forallb (fun t => (0 <=? valueBits t) && (valueBits t <=? 24) && (0 <=? valueBase t) && (valueBase t <? 2 ^ 25)) ZGFX_TOKEN_TABLE = true) by (vm_compute; reflexivity).
  rewrite forallb_forall in Hall. specialize (Hall t Hin). lia.
Qed.

(** The token at [pos]. *)
Lemma token_found c pos out past : zstate c pos out past ->
  exists r c' h, find_token ZGFX_TOKEN_TABLE 0 0 c = Ret (r, c') /\ zstate c' (pos + h) out past /\ 0 < h <= 9 /\
    (forall t, r = Some t -> In t ZGFX_TOKEN_TABLE /\ prefixLength t = h /\ window f pos (Z.to_nat h) = prefixCode t) /\
    (forall t, In t ZGFX_TOKEN_TABLE -> prefixLength t <> 0 -> window f pos (Z.to_nat (prefixLength t)) = prefixCode t -> r = Some t /\ h = prefixLength t).
Proof using.
  intros Hs. destruct token_table_ok as [Ha Hf]. destruct (zstate_count _ _ _ _ Hs) as (_ & _ & Hu). pose proof (zs_reading _ _ _ _ Hs) as Hr. rewrite <- (Z.add_0_r pos) in Hr.
  destruct (find_token_run data pos ZGFX_TOKEN_TABLE c 0 Ha ltac:(lia) Hr Hu) as (r & c' & h & E & T & Hh & Hpos & Hsnd & Hcmp). rewrite Z.add_0_r in T.
  assert (Hh0 : 0 < h) by (apply Hpos; done). exists r, c', h. split; [exact E|]. split; [by eapply zstate_took|]. split; [lia|]. split.
  - intros t Et. destruct (Hsnd t Et) as (? & ? & _ & ?). done.
  - intros t Hin Hne Hw. specialize (Hcmp t Hf Hin Hne Hw). split; [done|]. destruct (Hsnd t Hcmp) as (_ & ? & _). done.
Qed.

Lemma token_safe c pos out past : zstate c pos out past ->
  exists b c', zgfx_token c = Ret (b, c') /\
    if b : bool then exists pos' L, pos < pos' /\ zlen out + zlen L <= 65536 /\ zstate c' pos' (out ++ L) (past ++ L) /\ (8 * zlen data <= pos -> 1 <= zlen L) else zgfx_ok c'.
Proof using Hdata.
  intros Hs. destruct (zstate_count _ _ _ _ Hs) as (_ & Hol & _). destruct (token_found c pos out past Hs) as (r & c1 & h & E & Hs1 & Hh & Hsnd & Hcmp). unfold zgfx_token. rewrite (pbind_ret _ _ _ _ _ E).
  assert (Hend : 8 * zlen data <= pos -> r = Some (mkToken 1 0 8 0 0)).
  { intros He. apply Hcmp; [by left|done|]. change (Z.to_nat (prefixLength (mkToken 1 0 8 0 0))) with 1%nat. rewrite window_1, bits_end by done. done. }
  destruct r as [t|].
  2: { exists true, c1. split; [done|]. exists (pos + h), []. rewrite !app_nil_r, zlen_nil. split_and!; [lia|lia|done|]. intros He. by specialize (Hend He). }
  destruct (Hsnd t eq_refl) as (Hin & _ & _). destruct (token_ranges t Hin) as [Hvb Hbase]. destruct (tokenType t =? 0) eqn:Et.
  - destruct (literal_run c1 (pos + h) out past t Hs1 ltac:(lia)) as (b & c2 & E2 & H2). exists b, c2. split; [exact E2|]. destruct b; [|apply H2]. destruct H2 as [Hlt Hs2].
    eexists _, _. rewrite zlen_cons, zlen_nil. split; [|split; [|split; [exact Hs2|]]]; lia.
  - assert (Hne : 8 * zlen data <= pos -> False) by (intros He; specialize (Hend He); injection Hend as ->; done).
    destruct (zstate_bits c1 (pos + h) out past (valueBits t) Hs1 ltac:(lia)) as (c2 & E2 & Hs2 & _ & Hv). specialize (Hv ltac:(lia)). rewrite (pbind_ret _ _ _ _ _ E2), pbind_pget, Hv. cbv zeta.
    pose proof (window_bound f (pos + h) (Z.to_nat (valueBits t))) as Hwb. rewrite Z2Nat.id in Hwb by lia. assert (H24 : 2 ^ valueBits t <= 2 ^ 24) by (apply Z.pow_le_mono_r; lia).
    rewrite u32_id by lia. set (d := valueBase t + _). destruct (negb (d =? 0)) eqn:Ed.
    + destruct (match_run c2 (pos + h + valueBits t) out past d Hs2 ltac:(unfold d in *; lia)) as (b & c3 & n & pos' & E3 & Hp & Hn & _ & H3). exists b, c3. split; [exact E3|]. destruct b; [|apply H3].
      destruct H3 as (Hfit & L & HL & Hs3 & _). exists pos', L. split_and!; [lia|lia|done|done].
    + destruct (unencoded_run c2 (pos + h + valueBits t) out past Hs2) as (b & c3 & E3 & H3). exists b, c3. split; [exact E3|]. destruct b; [|apply H3]. destruct H3 as (Hfit & Hs3 & HL).
      eexists _, _. split; [|split; [|split; [exact Hs3|done]]]; [|rewrite HL; exact Hfit]. pose proof (window_bound f (pos + h + valueBits t) 15). Z.div_mod_to_equations; lia.
Qed.

(** ** The format *)

(** The token at [pos] ends at [pos'] and stands for [L], behind [past]. *)
Inductive token_at (pos : Z) (past : list Z) : Z -> list Z -> Prop :=
| literal_at t p :
    In t ZGFX_TOKEN_TABLE -> prefixLength t <> 0 -> tokenType t = 0 -> window f pos (Z.to_nat (prefixLength t)) = prefixCode t -> p = pos + prefixLength t ->
    token_at pos past (p + valueBits t) [u8 (valueBase t + window f p (Z.to_nat (valueBits t)))]
| copy_at t p distance count pos' :
    In t ZGFX_TOKEN_TABLE -> prefixLength t <> 0 -> tokenType t <> 0 -> window f pos (Z.to_nat (prefixLength t)) = prefixCode t -> p = pos + prefixLength t ->
    distance = valueBase t + window f p (Z.to_nat (valueBits t)) -> 0 < distance <= zlen past -> distance <= size -> count_at (p + valueBits t) count pos' ->
    token_at pos past pos' (lz_copy past distance count)
| plain_at t p n q :
    In t ZGFX_TOKEN_TABLE -> prefixLength t <> 0 -> tokenType t <> 0 -> window f pos (Z.to_nat (prefixLength t)) = prefixCode t -> p = pos + prefixLength t + valueBits t ->
    valueBase t + window f (pos + prefixLength t) (Z.to_nat (valueBits t)) = 0 -> n = window f p 15 -> q = (p + 15 + 7) / 8 -> q + n <= zlen data ->
    token_at pos past (8 * (q + n)) (ztake n (zdrop q data)).

(** The tokens from [pos] to [pos'] stand for [out]. *)
Inductive tokens_at : Z -> list Z -> Z -> list Z -> Prop :=
| tokens_end pos past : tokens_at pos past pos []
| tokens_next pos past p L pos' out : token_at pos past p L -> tokens_at p (past ++ L) pos' out -> tokens_at pos past pos' (L ++ out).

Lemma zlen_lz_copy past d n : 0 <= n -> zlen (lz_copy past d n) = n.
Proof using. apply zlen_ztab. Qed.

Lemma token_decoded c pos out past p L : zstate c pos out past -> token_at pos past p L -> zlen out + zlen L <= 65536 -> p <= total < 2 ^ 32 ->
  exists c', zgfx_token c = Ret (true, c') /\ zstate c' p (out ++ L) (past ++ L) /\ pos < p.
Proof using Hdata.
  intros Hs Htok Hfit Htot. pose proof (zr_pos _ _ _ (zs_reading _ _ _ _ Hs)) as Hpos. destruct (token_found c pos out past Hs) as (r & c1 & h & E & Hs1 & Hh & _ & Hcmp). unfold zgfx_token. rewrite (pbind_ret _ _ _ _ _ E).
  assert (Hty : forall t, tokenType t <> 0 -> (tokenType t =? 0) = false) by lia.
  destruct Htok as [t p Hin Hne Ht Hw ->|t p distance count pos' Hin Hne Ht Hw -> Hdis Hd Hds Hc|t p n q Hin Hne Ht Hw -> Hz Hn Hq Hqn];
    (destruct (Hcmp t Hin Hne Hw) as [-> ->]; destruct (token_ranges t Hin) as [Hvb Hbase]).
  - replace (tokenType t =? 0) with true by lia. destruct (literal_run c1 _ out past t Hs1 ltac:(lia)) as (b & c2 & E2 & H2). rewrite zlen_cons, zlen_nil in Hfit. destruct b; [|lia].
    exists c2. split; [exact E2|]. split; [apply H2|lia].
  - rewrite Hty by done. destruct (zstate_bits c1 _ out past (valueBits t) Hs1 ltac:(lia)) as (c2 & E2 & Hs2 & _ & Hv). specialize (Hv ltac:(lia)). rewrite (pbind_ret _ _ _ _ _ E2), pbind_pget, Hv, <- Hdis. cbv zeta.
    pose proof (zok_size _ (zs_ok _ _ _ _ Hs)) as [_ Hsz]. rewrite (zs_size _ _ _ _ Hs) in Hsz. rewrite u32_id by lia. replace (negb (distance =? 0)) with true by lia.
    destruct (match_run c2 _ out past distance Hs2 ltac:(lia)) as (b & c3 & n & p' & E3 & Hp & Hn & Hcc & H3). destruct (Hcc _ _ Hc) as [-> ->]. rewrite zlen_lz_copy in Hfit by done.
    destruct b; [|lia]. destruct H3 as (_ & L & HL & Hs3 & Hlz). rewrite <- (Hlz ltac:(lia) Hds). exists c3. split; [exact E3|]. split; [done|lia].
  - rewrite Hty by done. destruct (zstate_bits c1 _ out past (valueBits t) Hs1 ltac:(lia)) as (c2 & E2 & Hs2 & _ & Hv). specialize (Hv ltac:(lia)). rewrite (pbind_ret _ _ _ _ _ E2), pbind_pget, Hv, Hz. cbv zeta.
    change (u32 0) with 0. change (negb (0 =? 0)) with false. cbv iota. destruct (unencoded_run c2 _ out past Hs2) as (b & c3 & E3 & H3). rewrite <- Hn, <- Hq in H3.
    pose proof (window_bound f (pos + prefixLength t + valueBits t) 15) as Hwb. rewrite <- Hn in Hwb. assert (Hq8 : 8 * q <= pos + prefixLength t + valueBits t + 15 + 7 < 8 * q + 8) by (rewrite Hq; Z.div_mod_to_equations; lia).
    destruct b.
    + exists c3. split; [exact E3|]. split; [apply H3|lia].
    + exfalso. destruct H3 as [_ [H3|[H3|H3]]]; [|rewrite u32_id in H3 by lia; lia|lia].
      assert (zlen (ztake n (zdrop q data)) = n) by (rewrite zlen_ztake, zlen_zdrop; lia). lia.
Qed.

Lemma token_at_lt pos past p L : token_at pos past p L -> pos < p.
Proof using.
  assert (Hpl : forall t, In t ZGFX_TOKEN_TABLE -> prefixLength t <> 0 -> 0 < prefixLength t /\ 0 <= valueBits t).
  { intros t Hin Hne. pose proof (ascending_le ZGFX_TOKEN_TABLE t 0 (proj1 token_table_ok) Hin Hne). destruct (token_ranges t Hin). lia. }
  destruct 1 as [t p Hin Hne Ht Hw ->|t p distance count pos' Hin Hne Ht Hw -> Hdis Hd Hds Hc|t p n q Hin Hne Ht Hw -> Hz -> -> Hqn]; destruct (Hpl t Hin Hne).
  - lia.
  - destruct Hc as [(_ & _ & ->)|(j & _ & Hj & _ & _ & _ & ->)]; lia.
  - pose proof (window_bound f (pos + prefixLength t + valueBits t) 15). Z.div_mod_to_equations; lia.
Qed.

Lemma tokens_at_le pos past p L : tokens_at pos past p L -> pos <= p.
Proof using. induction 1 as [|pos past p L1 pos' L Htok _ IH]; [lia|]. pose proof (token_at_lt _ _ _ _ Htok). lia. Qed.

(** Exactly the tokens of the segment are decoded. *)
Lemma loop_decoded pos past pos' L : tokens_at pos past pos' L -> forall c out fuel, zstate c pos out past -> zlen out + zlen L <= 65536 -> pos' = total -> total < 2 ^ 32 -> total - pos < Z.of_nat fuel ->
  exists c', zgfx_loop fuel c = Ret (true, c') /\ zstate c' total (out ++ L) (past ++ L).
Proof using Hdata.
  induction 1 as [pos past|pos past p L1 pos' L Htok Hrest IH]; intros c out fuel Hs Hfit Hend Htot Hfuel.
  - subst pos. destruct fuel as [|fuel]; [lia|]. cbn [zgfx_loop]. rewrite pbind_pget, (zs_remaining _ _ _ _ Hs), Z.sub_diag. change (u32 0 =? 0) with true. cbv iota. exists c. by rewrite !app_nil_r.
  - pose proof (token_at_lt _ _ _ _ Htok) as Hlt. pose proof (tokens_at_le _ _ _ _ Hrest) as Hle. pose proof (zr_pos _ _ _ (zs_reading _ _ _ _ Hs)) as Hpos.
    destruct fuel as [|fuel]; [lia|]. cbn [zgfx_loop]. rewrite pbind_pget, (zs_remaining _ _ _ _ Hs), u32_id by lia. replace (total - pos =? 0) with false by lia. rewrite zlen_app in Hfit. pose proof (zlen_nonneg L).
    destruct (token_decoded c pos out past p L1 Hs Htok ltac:(lia) ltac:(lia)) as (c1 & E1 & Hs1 & _). rewrite (pbind_ret _ _ _ _ _ E1). cbn [negb].
    destruct (IH c1 (out ++ L1) fuel Hs1 ltac:(rewrite zlen_app; lia) Hend Htot ltac:(lia)) as (c2 & E2 & Hs2). exists c2. by rewrite !app_assoc.
Qed.

(** On any bits the loop ends: a token takes bits of the input or, behind its end, gives a byte. *)
Lemma loop_safe fuel : forall c pos out past, zstate c pos out past -> Z.max 0 (8 * zlen data - pos) + (65536 - zlen out) < Z.of_nat fuel ->
  exists b c', zgfx_loop fuel c = Ret (b, c') /\ zgfx_ok c' /\ (b = true -> exists pos' L, zstate c' pos' (out ++ L) (past ++ L)).
Proof using Hdata.
  induction fuel as [|fuel IH]; intros c pos out past Hs Hfuel; destruct (zstate_count _ _ _ _ Hs) as (_ & Hol & _); [lia|]. cbn [zgfx_loop]. rewrite pbind_pget. case_if.
  - exists true, c. split; [done|]. split; [apply Hs|]. intros _. exists pos, []. by rewrite !app_nil_r.
  - destruct (token_safe c pos out past Hs) as (b & c1 & Et & H1). rewrite (pbind_ret _ _ _ _ _ Et). destruct b; [|by exists false, c1]. destruct H1 as (p & L & Hp & Hfit & Hs1 & Hgrow). cbn [negb].
    pose proof (zlen_nonneg L). destruct (IH c1 p (out ++ L) (past ++ L) Hs1 ltac:(rewrite zlen_app; lia)) as (b & c2 & E2 & Hok2 & H2). exists b, c2. split; [done|]. split; [done|].
    intros Hb. destruct (H2 Hb) as (p' & L' & Hs2). exists p', (L ++ L'). by rewrite !app_assoc.
Qed.
End tokens.
