(* ===== verification/ZgfxPacket.v ===== *)
(** * Packets of ZGFX

    The format of a packet is a relation between its bytes and what they stand for.  The decompressor
    returns on any bytes and keeps its buffers; on a packet of the format it gives the bytes the packet
    stands for.  What the compressor writes is a packet of the format. *)

From S2P Require Import Prelude Memory Stream Readers Framing BitStream Mppc Zgfx ZgfxRing ZgfxSegment.

#[local] Opaque window bits_of.

(** ** Segments *)

(** What a segment leaves: its bytes are the output, and the ring has them. *)
Record decoded (size : Z) (past out : list Z) (c : ZGFX_CONTEXT) : Prop := {
  dc_ok : zgfx_ok c;
  dc_size : zg_HistoryBufferSize c = size;
  dc_ring : ring_holds c past;
  dc_output : ztake (zg_OutputCount c) (zg_OutputBuffer c) = out
}.

Lemma decoded_count size past out c : decoded size past out c -> zg_OutputCount c = zlen out /\ zlen out <= 65536.
Proof. intros [[_ _ [Hz Ho] _] _ _ <-]. rewrite zlen_ztake. lia. Qed.

Lemma segment_plain_run c mem cb past : zgfx_ok c -> zg_OutputCount c = 0 -> ring_holds c past -> 0 <= cb <= zlen mem -> Forall is_byte mem ->
  exists c', segment_plain mem cb c = Ret (cb <=? 65536, c') /\ zgfx_ok c' /\
    (cb <= 65536 -> decoded (zg_HistoryBufferSize c) (past ++ ztake cb mem) (ztake cb mem) c').
Proof.
  intros Hok Hoc Hring Hcb Hb. unfold segment_plain. rewrite slots_read_run, pbind_plift, zdrop_0 by lia. set (L := ztake cb mem). assert (HL : zlen L = cb) by (unfold L; rewrite zlen_ztake; lia).
  assert (HbL : Forall is_byte L) by (by apply Forall_ztake). destruct (ring_write_run c past L Hok HbL Hring) as (H & i & Ew & Hok1 & Hring1). rewrite (pbind_ret _ _ _ _ _ Ew). set (c1 := with_ring H i c) in *.
  destruct (65536 <? cb) eqn:E; [replace (cb <=? 65536) with false by lia; exists c1; split; [done|]; split; [done|lia]|]. replace (cb <=? 65536) with true by lia.
  pose proof Hok1 as [Hs1 Hi1 [Hz1 Ho1] [HbH HbO]]. rewrite (pbind_ret _ _ _ _ _ (output_copy_run 0 L c1 ltac:(lia) ltac:(lia))). set (O := splice 0 L (zg_OutputBuffer c1)).
  assert (HzO : zlen O = 65536) by (unfold O; rewrite zlen_splice; lia). assert (HtO : ztake cb O = L) by (pose proof (ztake_splice_end 0 L (zg_OutputBuffer c1) ltac:(lia) ltac:(lia)) as Ht; rewrite (ztake_0 0), HL in Ht by lia; exact Ht).
  set (c2 := c1 <| zg_OutputBuffer := O |> <| zg_OutputCount := cb |>). assert (Hok2 : zgfx_ok c2) by (constructor; [exact Hs1|exact Hi1|split; [exact HzO|change (0 <= cb <= 65536); lia]|split; [exact HbH|by apply Forall_splice]]).
  exists c2. split; [done|]. split; [done|]. intros _. constructor; [done|reflexivity|exact Hring1|exact HtO].
Qed.

Lemma segment_bits_start c mem cb past : zgfx_ok c -> zg_OutputCount c = 0 -> ring_holds c past -> 1 <= cb <= zlen mem -> cb <= 2 ^ 27 -> Forall is_byte mem ->
  let last := znth mem (cb - 1) in
  exists c1, zgfx_ok c1 /\
    if 8 * (cb - 1) <? last then segment_bits mem cb c = Ret (false, c1)
    else segment_bits mem cb c = zgfx_loop (Z.to_nat (8 * cb + 65538)) c1 /\ zstate (ztake (cb - 1) mem) (8 * (cb - 1) - last) (zg_HistoryBufferSize c) c1 0 [] past.
Proof.
  intros Hok Hoc Hring Hcb H27 Hb last. unfold segment_bits. set (c0 := c <| zg_input := mem |> <| zg_pbInputCurrent := 0 |> <| zg_pbInputEnd := cb - 1 |>). rewrite (pbind_ret _ _ _ tt c0) by done. cbv zeta.
  rewrite slot_get_run, pbind_plift by lia. fold last. rewrite u32_id by lia. assert (Hok0 : zgfx_ok c0) by (destruct Hok; by constructor). pose proof (znth_byte mem (cb - 1) Hb) as Hl. fold last in Hl. unfold is_byte in Hl.
  case_if; [by exists c0|]. set (total := 8 * (cb - 1) - last). set (c1 := c0 <| zg_cBitsRemaining := total |> <| zg_cBitsCurrent := 0 |> <| zg_BitsCurrent := 0 |>).
  assert (Hok1 : zgfx_ok c1) by (destruct Hok; by constructor). exists c1. split; [done|]. split; [done|]. constructor; [done| |change (total = u32 (total - 0)); rewrite u32_id; lia| |exact Hring|reflexivity].
  - constructor; [split; [by apply Forall_ztake|split; [change (0 <= cb - 1 <= zlen mem); lia|reflexivity]]|lia| |reflexivity|].
    + change (0 = Z.min 0 (zlen (ztake (cb - 1) mem))). rewrite zlen_ztake. lia.
    + change (Z.to_nat (8 * ((0 + 7) / 8) - 0)) with 0%nat. by rewrite window_0.
  - change (ztake (zg_OutputCount c) (zg_OutputBuffer c) = []). rewrite Hoc. by apply ztake_0.
Qed.

(** The bytes [seg] of a segment stand for [L], behind [past]. *)
Inductive segment_of (size : Z) (past : list Z) : list Z -> list Z -> Prop :=
| segment_of_plain flags L : Z.land flags PACKET_COMPRESSED = 0 -> 0 < zlen L <= 65536 -> segment_of size past (flags :: L) L
| segment_of_bits flags data last L :
    Z.land flags PACKET_COMPRESSED <> 0 -> last <= 8 * zlen data -> tokens_at data size 0 past (8 * zlen data - last) L -> zlen L <= 65536 ->
    segment_of size past (flags :: data ++ [last]) L.

(** The body of a segment in memory. *)
Lemma body_decoded c size past flags body mem L : zgfx_ok c -> zg_HistoryBufferSize c = size -> zg_OutputCount c = 0 -> ring_holds c past -> segment_of size past (flags :: body) L ->
  Forall is_byte mem -> zlen body <= zlen mem -> ztake (zlen body) mem = body -> zlen body <= 2 ^ 27 ->
  exists c', (if Z.land flags PACKET_COMPRESSED =? 0 then segment_plain mem (zlen body) else segment_bits mem (zlen body)) c = Ret (true, c') /\ decoded size (past ++ L) L c'.
Proof.
  intros Hok Hsize Hoc Hring Hseg Hb Hfit Hbody H27. pose proof (zlen_nonneg body). inversion Hseg as [flags' L' Hf HL E1 E2|flags' data last L' Hf Hlast Htok HL E1 E2]; subst.
  - replace (Z.land flags PACKET_COMPRESSED =? 0) with true by lia. destruct (segment_plain_run c mem (zlen L) past Hok Hoc Hring ltac:(lia) Hb) as (c' & E & _ & Hd). exists c'.
    replace (zlen L <=? 65536) with true in E by lia. split; [done|]. specialize (Hd ltac:(lia)). by rewrite Hbody in Hd.
  - replace (Z.land flags PACKET_COMPRESSED =? 0) with false by lia. rewrite zlen_app, zlen_cons, zlen_nil in *. pose proof (zlen_nonneg data).
    destruct (segment_bits_start c mem (zlen data + (1 + 0)) past Hok Hoc Hring ltac:(lia) ltac:(lia) Hb) as (c1 & _ & H1). replace (zlen data + (1 + 0) - 1) with (zlen data) in H1 by lia.
    assert (Hl : znth mem (zlen data) = last).
    { transitivity (znth (data ++ [last]) (zlen data)); [rewrite <- Hbody, znth_ztake; by replace (zlen data <? zlen data + (1 + 0)) with true by lia|]. rewrite znth_app. replace (zlen data <? zlen data) with false by lia. by rewrite Z.sub_diag. }
    assert (Hd : ztake (zlen data) mem = data) by (transitivity (ztake (zlen data) (data ++ [last])); [rewrite <- Hbody, ztake_ztake; f_equal; lia|by rewrite ztake_app, ztake_all, ztake_0, app_nil_r by lia]).
    rewrite Hl, Hd in H1. replace (8 * zlen data <? last) with false in H1 by lia. destruct H1 as [E1 Hs1]. rewrite E1.
    pose proof (znth_byte mem (zlen data) Hb) as Hlb. rewrite Hl in Hlb. unfold is_byte in Hlb.
    destruct (loop_decoded data _ _ ltac:(lia) 0 past _ L Htok c1 [] (Z.to_nat (8 * (zlen data + (1 + 0)) + 65538)) Hs1 ltac:(rewrite zlen_nil; lia) eq_refl ltac:(lia) ltac:(lia)) as (c2 & E2 & [Hok2 _ _ Ho2 Hr2 Hz2]).
    exists c2. split; [exact E2|by constructor].
Qed.

Lemma body_safe c mem flags cb : zgfx_ok c -> zg_OutputCount c = 0 -> Forall is_byte mem -> 1 <= cb <= zlen mem -> cb <= 2 ^ 27 ->
  exists b c', (if Z.land flags PACKET_COMPRESSED =? 0 then segment_plain mem cb else segment_bits mem cb) c = Ret (b, c') /\ zgfx_ok c'.
Proof.
  intros Hok Hoc Hb Hcb H27. destruct (Z.land flags PACKET_COMPRESSED =? 0).
  - destruct (segment_plain_run c mem cb [] Hok Hoc (ring_holds_nil c) ltac:(lia) Hb) as (c' & E & Hok' & _). eauto.
  - destruct (segment_bits_start c mem cb [] Hok Hoc (ring_holds_nil c) Hcb H27 Hb) as (c1 & Hok1 & H1). cbv zeta in H1. destruct (_ <? _); [eauto|]. destruct H1 as [E1 Hs1]. rewrite E1.
    destruct (loop_safe (ztake (cb - 1) mem) _ _ ltac:(rewrite zlen_ztake; lia) (Z.to_nat (8 * cb + 65538)) c1 0 [] [] Hs1 ltac:(rewrite zlen_ztake; change (zlen []) with 0; lia)) as (b & c' & E & Hok' & _). eauto.
Qed.

Lemma segment_memory s n : readable s -> 0 <= n <= zlen (unread s) ->
  let mem := zdrop (pointer s) (buffer s) in Forall is_byte mem /\ n <= zlen mem /\ ztake n mem = ztake n (unread s).
Proof.
  intros Hr Hn mem. pose proof Hr as [[Hbuf Hc Hl Hp Hb] Hle]. rewrite zlen_unread in Hn by done. unfold mem, unread. split_and!; [by apply Forall_zdrop|rewrite zlen_zdrop; lia|].
  rewrite !ztake_zdrop_comm, ztake_ztake by lia. do 2 f_equal. lia.
Qed.

Lemma on_zgfx_ret {A} (m : Prog ZGFX_CONTEXT A) c s a c' : m c = Ret (a, c') -> on_zgfx m (c, s) = Ret (a, (c', s)).
Proof. intros E. unfold on_zgfx, pzoom. cbn. by rewrite E. Qed.

Lemma segment_decoded c s size past seg L r : zgfx_ok c -> zg_HistoryBufferSize c = size -> ring_holds c past -> readable s -> unread s = seg ++ r -> segment_of size past seg L -> zlen seg <= 2 ^ 27 ->
  exists c', zgfx_decompress_segment (zlen seg) (c, s) = Ret (true, (c', advance s (zlen seg))) /\ decoded size (past ++ L) L c'.
Proof.
  intros Hok Hsize Hring Hr Hu Hseg H27. unfold zgfx_decompress_segment. assert (exists flags body, seg = flags :: body /\ 1 <= zlen body) as (flags & body & -> & Hbody).
  { destruct Hseg as [flags L Hf HL|flags data last L Hf Hlast Htok HL]; eexists _, _; (split; [done|]); [lia|]. rewrite zlen_app, zlen_cons, zlen_nil. pose proof (zlen_nonneg data). lia. }
  rewrite zlen_cons in *. replace (1 + zlen body <? 2) with false by lia. cbv zeta. replace (1 + zlen body - 1) with (zlen body) by lia. cbn [app] in Hu. pose proof (zlen_nonneg r).
  rewrite (pbind_ret _ _ _ _ _ (at_s_ret _ c _ _ _ (check_length_spec s _ Hr))), Hu, zlen_cons, zlen_app. replace (1 + zlen body <=? 1 + (zlen body + zlen r)) with true by lia. cbn [negb orb]. replace (UINT32_MAX <? 1 + zlen body) with false by (unfold UINT32_MAX; lia).
  destruct (read_u8_spec s flags (body ++ r) Hr Hu) as (E1 & Hr1 & Hu1 & _). rewrite (pbind_ret _ _ _ _ _ (at_s_ret _ c _ _ _ E1)), upd_step, pbind_pget. cbn [snd]. set (s1 := advance s 1) in *. set (c0 := c <| zg_OutputCount := 0 |>).
  assert (Hn : 0 <= zlen body <= zlen (unread s1)) by (rewrite Hu1, zlen_app; lia). destruct (segment_memory s1 (zlen body) Hr1 Hn) as (Hbm & Hfit & Hmem). rewrite Hu1, ztake_app, (ztake_all _ body), (ztake_0 _ r), app_nil_r in Hmem by lia.
  assert (Es : Stream_SafeSeekEx (zlen body) s1 = Ret (true, advance s1 (zlen body))) by (rewrite safe_seek_ex_run by (done || lia); by replace (zlen body <=? zlen (unread s1)) with true by lia).
  rewrite (pbind_ret _ _ _ _ _ (at_s_ret _ c0 _ _ _ Es)). cbn [negb]. assert (Hok0 : zgfx_ok c0) by (destruct Hok as [? ? [? ?] ?]; constructor; [done..|split; [done|cbn; lia]|done]).
  destruct (body_decoded c0 size past flags body _ L Hok0 Hsize eq_refl Hring Hseg Hbm Hfit Hmem ltac:(lia)) as (c' & E & Hd). exists c'. split; [|done].
  rewrite (on_zgfx_ret _ c0 _ _ _ E). unfold s1. by rewrite advance_advance.
Qed.

(** A segment of any bytes. *)
Lemma segment_safe c s n : zgfx_ok c -> readable s -> zlen (unread s) < 2 ^ 27 -> safe_res (fun _ => zgfx_ok) (zgfx_decompress_segment n) c s.
Proof.
  intros Hok Hr H27. unfold zgfx_decompress_segment. sw_step; [by sw_step|]. cbv zeta. sw_step; [|by apply safe_with_pret]. cbn [negb orb]. sw_step; [by sw_step|]. apply safe_with_u8; [done|lia|intros flags _ Hr1 Hl1]. sw_step. sw_step. set (c0 := c <| zg_OutputCount := 0 |>).
  assert (Hok0 : zgfx_ok c0) by (destruct Hok as [? ? [? ?] ?]; constructor; [done..|split; [done|cbn; lia]|done]).
  set (s1 := advance s 1) in *. assert (Hn : 0 <= n - 1 <= zlen (unread s1)) by lia. destruct (segment_memory s1 (n - 1) ltac:(done) Hn) as (Hbm & Hfit & Hmem).
  assert (Es : Stream_SafeSeekEx (n - 1) s1 = Ret (true, advance s1 (n - 1))) by (rewrite safe_seek_ex_run by (done || lia); by replace (n - 1 <=? zlen (unread s1)) with true by lia).
  eapply (safe_with_run _ _ _ c0 s1 true (n - 1)); [exact Es|done|lia|]. intros Hr2 Hl2. cbn [negb].
  destruct (body_safe c0 _ flags (n - 1) Hok0 eq_refl Hbm ltac:(lia) ltac:(lia)) as (b & c' & E2 & Hok'). exists b, c', 0. split; [|split; [lia|done]]. rewrite (on_zgfx_ret _ c0 _ _ _ E2). by rewrite advance_0.
Qed.

(** ** Packets *)

(** What is gathered: [used] bytes and 64 spare ones. *)
Definition gathered (mem : list Z) (used : Z) : Prop := 0 <= used /\ (mem = [] /\ used = 0 \/ zlen mem = used + 64).

Section packets.
Context `{HM : Malloc} `{HF : FreshMemory}.

Lemma append_run mem total used c : zgfx_ok c -> gathered mem used ->
  if (used + zg_OutputCount c <=? UINT32_MAX) && (used + zg_OutputCount c <=? total) && malloc_ok (used + zg_OutputCount c + 64)
  then exists mem', zgfx_append mem total used c = Ret (Some (mem', used + zg_OutputCount c)) /\ gathered mem' (used + zg_OutputCount c) /\
    ztake (used + zg_OutputCount c) mem' = ztake used mem ++ ztake (zg_OutputCount c) (zg_OutputBuffer c)
  else zgfx_append mem total used c = Ret None.
Proof.
  intros [_ _ [Hz Ho] _] [Hu Hmem]. set (n := zg_OutputCount c) in *. unfold zgfx_append. fold n. destruct (UINT32_MAX - used <? n) eqn:E1; [by replace (used + n <=? UINT32_MAX) with false by lia|].
  replace (used + n <=? UINT32_MAX) with true by lia. destruct (total <? used + n) eqn:E2; [by replace (used + n <=? total) with false by lia|]. replace (used + n <=? total) with true by lia.
  destruct (malloc_ok _); cbn [negb andb]; [|done]. rewrite slots_read_run, zdrop_0 by lia. set (src := ztake n (zg_OutputBuffer c)). assert (Hs : zlen src = n) by (unfold src; rewrite zlen_ztake; lia).
  assert (Hr : zlen (mem_realloc mem (used + n + 64)) = used + n + 64) by (apply zlen_mem_realloc; lia). rewrite slots_write_run by lia. eexists. split; [reflexivity|].
  split; [split; [lia|right; rewrite zlen_splice; lia]|]. pose proof (ztake_splice_end used src (mem_realloc mem (used + n + 64)) Hu) as Ht. specialize (Ht ltac:(rewrite Hr; lia)). rewrite Hs in Ht. rewrite Ht. f_equal. assert (used <= zlen mem) by (pose proof (zlen_nonneg mem); lia).
  apply znth_ext; [rewrite !zlen_ztake, zlen_mem_realloc; lia|]. intros i Hi. rewrite zlen_ztake in Hi. rewrite !znth_ztake. case_if; [|done]. apply znth_mem_realloc; lia.
Qed.

(** Any bytes *)

Lemma segments_safe n : forall c s mem total used, zgfx_ok c -> readable s -> slength s < 2 ^ 27 -> gathered mem used ->
  safe_res (fun r c' => zgfx_ok c' /\ match r with Some (m, u) => gathered m u | None => True end) (zgfx_segments n mem total used) c s.
Proof.
  induction n as [|n IH]; intros c s mem total used Hok Hr H27 Hc; cbn [zgfx_segments]; [by apply safe_with_pret|]. sw_step; [|by apply safe_with_pret]. cbn [negb]. sw_step.
  eapply safe_res_bind; [apply segment_safe; [done|done|rewrite zlen_unread by done; change (slength (advance s 4)) with (slength s)]|done|].
  - assert (stream_ok (advance s 4)) as [_ _ _ ? _] by (by apply readable_ok). lia.
  - intros b c1 k Hok1 Hr1. destruct b; cbn [negb]; [|by apply safe_with_pret]. apply safe_with_pget. cbn [fst]. pose proof (append_run mem total used c1 Hok1 Hc) as Ha. destruct (_ && _).
    + destruct Ha as (mem' & Ea & Hc' & _). rewrite Ea. eapply safe_res_still; [reflexivity|]. by apply IH.
    + rewrite Ha. eapply safe_res_still; [reflexivity|]. by apply safe_with_pret.
Qed.

Lemma packet_safe c s : zgfx_ok c -> readable s -> slength s < 2 ^ 27 ->
  safe_res (fun r c' => zgfx_ok c' /\ match r with Some (m, u) => gathered m u | None => True end) zgfx_packet c s.
Proof.
  intros Hok Hr H27. unfold zgfx_packet. assert (H0 : gathered [] 0) by (split; [lia|by left]).
  sw_step; [|by apply safe_with_pret]. cbn [negb]. sw_step. set (s1 := advance s 1) in *. assert (Hl : zlen (unread s1) < 2 ^ 27) by (rewrite zlen_unread by done; change (slength s1) with (slength s); assert (stream_ok s1) as [_ _ _ ? _] by (by apply readable_ok); lia).
  case_if; [|case_if; [|by apply safe_with_pret]].
  - sw_step. eapply safe_res_bind; [by apply segment_safe|done|]. intros b c1 k Hok1 Hr1. destruct b; cbn [negb]; [|by apply safe_with_pret]. apply safe_with_pget. cbn [fst].
    destruct (0 <? zg_OutputCount c1); [|by apply safe_with_pret]. pose proof (append_run [] (zg_OutputCount c1) 0 c1 Hok1 H0) as Ha. destruct (_ && _).
    + destruct Ha as (mem' & Ea & Hc' & _). rewrite Ea, Z.add_0_l in *. eapply safe_res_still; [reflexivity|]. cbn beta iota. rewrite Z.eqb_refl. by apply safe_with_pret.
    + rewrite Ha. eapply safe_res_still; [reflexivity|]. by apply safe_with_pret.
  - sw_step; [|by apply safe_with_pret]. cbn [negb]. sw_step. apply safe_with_u32; [done|lia|intros total _ Hr3 _]. eapply safe_res_bind; [by apply segments_safe|done|]. intros [[m u]|] c1 k [Hok1 Hc1] Hr1; [|by apply safe_with_pret].
    destruct (negb (u =? _)) eqn:Eu; [by apply safe_with_pret|]. apply safe_with_pret; [|done]. split; [done|]. by replace total with u by lia.
Qed.

(** Packets of the format *)

(** Segments one after another. *)
Inductive segments_of (size : Z) : list Z -> list (list Z) -> list Z -> Prop :=
| segments_end past : segments_of size past [] []
| segments_next past seg segs L out : segment_of size past seg L -> segments_of size (past ++ L) segs out -> segments_of size past (seg :: segs) (L ++ out).

Definition framed (segs : list (list Z)) : list Z := concat (map (fun seg => le32 (zlen seg) ++ seg) segs).

(** The packet [bs] stands for [out], behind [past]. *)
Inductive packet_of (size : Z) (past : list Z) : list Z -> list Z -> Prop :=
| packet_single seg out : segment_of size past seg out -> packet_of size past (ZGFX_SEGMENTED_SINGLE :: seg) out
| packet_multipart segs out rest : zlen segs <= 65535 -> segments_of size past segs out ->
    packet_of size past (ZGFX_SEGMENTED_MULTIPART :: le16 (zlen segs) ++ le32 (zlen out) ++ framed segs ++ rest) out.

Lemma segment_of_length size past seg L : segment_of size past seg L -> zlen L <= 65536.
Proof. destruct 1; lia. Qed.

Lemma segments_of_length size past segs out : segments_of size past segs out -> zlen out <= 65536 * zlen segs.
Proof. induction 1 as [|past seg segs L out Hseg _ IH]; [done|]. pose proof (segment_of_length _ _ _ _ Hseg). rewrite zlen_app, zlen_cons. lia. Qed.

(** The decompressor has [past]. *)
Record zgfx_has (size : Z) (past : list Z) (c : ZGFX_CONTEXT) : Prop := { has_ok : zgfx_ok c; has_size : zg_HistoryBufferSize c = size; has_ring : ring_holds c past }.

Lemma decoded_has size past out c : decoded size past out c -> zgfx_has size past c.
Proof. by intros []. Qed.

Lemma unread_le s : readable s -> zlen (unread s) <= slength s.
Proof. intros Hr. rewrite zlen_unread by done. destruct Hr as [[_ _ _ ? _] _]. lia. Qed.

Lemma append_decoded mem total used c size past L : decoded size past L c -> gathered mem used -> used + zlen L <= total -> total < 2 ^ 32 ->
  (exists mem', zgfx_append mem total used c = Ret (Some (mem', used + zlen L)) /\ gathered mem' (used + zlen L) /\ ztake (used + zlen L) mem' = ztake used mem ++ L) \/
  (zgfx_append mem total used c = Ret None /\ refused (total + 64)).
Proof using.
  intros Hd Hc Hfit Ht. destruct (decoded_count _ _ _ _ Hd) as [En Hn]. pose proof (append_run mem total used c (dc_ok _ _ _ _ Hd) Hc) as Ha. rewrite (dc_output _ _ _ _ Hd), En in Ha.
  replace (used + zlen L <=? UINT32_MAX) with true in Ha by (unfold UINT32_MAX; lia). replace (used + zlen L <=? total) with true in Ha by lia. cbn [andb] in Ha. destruct (malloc_ok (used + zlen L + 64)) eqn:Em; [by left|].
  right. split; [done|]. exists (used + zlen L + 64). destruct Hc as [Hc _]. pose proof (zlen_nonneg L). split; [lia|done].
Qed.

Lemma segments_decoded size past segs out : segments_of size past segs out -> forall c s mem used total r, zgfx_has size past c -> readable s -> slength s < 2 ^ 27 -> unread s = framed segs ++ r ->
  gathered mem used -> total = used + zlen out -> total < 2 ^ 32 ->
  exists o c' s', zgfx_segments (length segs) mem total used (c, s) = Ret (o, (c', s')) /\
    match o with
    | Some (m, u) => u = total /\ ztake total m = ztake used mem ++ out /\ gathered m total /\ zgfx_has size (past ++ out) c'
    | None => refused (total + 64)
    end.
Proof using.
  induction 1 as [past|past seg segs L out Hseg Hsegs IH]; intros c s mem used total r Hc Hr H27 Hu Hcol Et Htot.
  - rewrite zlen_nil, Z.add_0_r in Et. subst used. cbn [length zgfx_segments]. eexists _, c, s. split; [reflexivity|]. rewrite !app_nil_r. done.
  - cbn [length zgfx_segments]. change (framed (seg :: segs)) with ((le32 (zlen seg) ++ seg) ++ framed segs) in Hu. rewrite <- !app_assoc in Hu. pose proof (unread_le s Hr) as Hul. rewrite Hu, !zlen_app, zlen_le32 in Hul.
    pose proof (zlen_nonneg seg). pose proof (zlen_nonneg r). pose proof (zlen_nonneg (framed segs)). pose proof (zlen_nonneg L). pose proof (zlen_nonneg out). rewrite zlen_app in Et.
    rewrite (pbind_ret _ _ _ _ _ (at_s_ret _ c _ _ _ (check_length_spec s 4 Hr))), Hu, zlen_app, zlen_le32. pose proof (zlen_nonneg (seg ++ framed segs ++ r)). replace (4 <=? 4 + _) with true by lia. cbn [negb].
    at_step (u32_back (zlen seg)) Hr Hu. rewrite zlen_le32, u32_id in * by lia. set (s1 := advance s 4) in *. destruct Hc as [Hok Hsize Hring].
    destruct (segment_decoded c s1 size past seg L (framed segs ++ r) Hok Hsize Hring Hr0 Hu0 Hseg ltac:(lia)) as (c1 & E1 & Hd). rewrite (pbind_ret _ _ _ _ _ E1). cbn [negb]. rewrite pbind_pget. cbn [fst].
    destruct (append_decoded mem total used c1 size _ L Hd Hcol ltac:(lia) Htot) as [(mem' & Ea & Hcol' & Em)|[Ea Href]]; rewrite Ea, pbind_plift; [|by eexists None, _, _].
    assert (Hr2 : readable (advance s1 (zlen seg)) /\ unread (advance s1 (zlen seg)) = framed segs ++ r).
    { assert (zlen seg <= zlen (unread s1)) by (rewrite Hu0, zlen_app, zlen_app; lia). split; [apply readable_advance; [done|lia]|]. rewrite unread_advance, Hu0, zdrop_app, zdrop_all, Z.sub_diag, zdrop_0 by (done || lia). done. }
    destruct Hr2 as [Hr2 Hu2]. destruct (IH c1 (advance s1 (zlen seg)) mem' (used + zlen L) total r (decoded_has _ _ _ _ Hd) Hr2 H27 Hu2 Hcol' ltac:(lia) Htot) as (o & c' & s' & E & Ho).
    exists o, c', s'. split; [exact E|]. destruct o as [[m u]|]; [|done]. rewrite Em, <- !app_assoc in Ho. done.
Qed.

Lemma packet_decoded size past c s bs out : zgfx_has size past c -> readable s -> slength s < 2 ^ 27 -> unread s = bs -> packet_of size past bs out ->
  exists o c' s', zgfx_packet (c, s) = Ret (o, (c', s')) /\
    match o with Some (m, n) => n = zlen out /\ ztake n m = out /\ zgfx_has size (past ++ out) c' | None => refused (zlen out + 64) end.
Proof using.
  intros [Hok Hsize Hring] Hr H27 Hu Hp. unfold zgfx_packet. pose proof (unread_le s Hr) as Hul. rewrite Hu in Hul. assert (H0 : gathered [] 0) by (split; [lia|by left]). assert (exists d tl, bs = d :: tl) as (d & tl & ->) by (destruct Hp; eauto).
  rewrite zlen_cons in Hul. pose proof (zlen_nonneg tl). rewrite (pbind_ret _ _ _ _ _ (at_s_ret _ c _ _ _ (check_length_spec s 1 Hr))), Hu, zlen_cons. replace (1 <=? 1 + zlen tl) with true by lia. cbn [negb].
  destruct (read_u8_spec s d tl Hr Hu) as (E1 & Hr1 & Hu1 & _). rewrite (pbind_ret _ _ _ _ _ (at_s_ret _ c _ _ _ E1)). set (s1 := advance s 1) in *. change (slength s) with (slength s1) in H27, Hul. revert Hu1. inversion Hp as [seg L Hseg Ed EL|segs L rest Hn Hsegs Ed EL]; subst; intros Hu1.
  - change (ZGFX_SEGMENTED_SINGLE =? ZGFX_SEGMENTED_SINGLE) with true. cbv iota. rewrite (pbind_ret _ _ _ _ _ (at_s_ret _ c _ _ _ (remaining_length_spec s1 Hr1))), Hu1. rewrite <- (app_nil_r tl) in Hu1.
    destruct (segment_decoded c s1 _ past tl out [] Hok eq_refl Hring Hr1 Hu1 Hseg ltac:(lia)) as (c1 & E2 & Hd). rewrite (pbind_ret _ _ _ _ _ E2). cbn [negb]. rewrite pbind_pget. cbn [fst].
    destruct (decoded_count _ _ _ _ Hd) as [En Hn]. rewrite En. pose proof (decoded_has _ _ _ _ Hd) as Hh. destruct (0 <? zlen out) eqn:E0.
    + destruct (append_decoded [] (zlen out) 0 c1 _ _ out Hd H0 ltac:(lia) ltac:(lia)) as [(mem' & Ea & Hcol' & Em)|[Ea Href]]; rewrite Ea, pbind_plift; [|by eexists None, _, _].
      rewrite Z.add_0_l in *. rewrite Z.eqb_refl. eexists (Some _), _, _. split; [reflexivity|]. rewrite (ztake_0 0) in Em by lia. cbn beta iota. by rewrite Em.
    + pose proof (zlen_nonneg out). assert (out = []) as -> by (apply zlen_0_nil; lia). eexists (Some _), _, _. split; [reflexivity|]. done.
  - change (ZGFX_SEGMENTED_MULTIPART =? ZGFX_SEGMENTED_SINGLE) with false. change (ZGFX_SEGMENTED_MULTIPART =? ZGFX_SEGMENTED_MULTIPART) with true. cbv iota.
    pose proof (segments_of_length _ _ _ _ Hsegs) as Hl. pose proof (zlen_nonneg segs). pose proof (zlen_nonneg out). pose proof (zlen_nonneg (framed segs ++ rest)).
    change (unread s1 = le16 (zlen segs) ++ le32 (zlen out) ++ framed segs ++ rest) in Hu1. rewrite (pbind_ret _ _ _ _ _ (at_s_ret _ c _ _ _ (check_length_spec s1 6 Hr1))), Hu1, zlen_app, zlen_app, zlen_le16, zlen_le32. replace (6 <=? _) with true by lia. cbn [negb].
    at_step (u16_back (zlen segs)) Hr1 Hu1. at_step (u32_back (zlen out)) Hr0 Hu0. rewrite u16_id, u32_id by lia. replace (Z.to_nat (zlen segs)) with (length segs) by (unfold zlen; lia).
    set (s3 := advance _ (zlen (le32 (zlen out)))) in *. change (slength s1) with (slength s3) in H27.
    destruct (segments_decoded _ past segs out Hsegs c s3 [] 0 (zlen out) rest (Build_zgfx_has _ _ _ Hok eq_refl Hring) Hr1 H27 Hu1 H0 ltac:(lia) ltac:(lia)) as (o & c' & s' & E & Ho).
    rewrite (pbind_ret _ _ _ _ _ E). destruct o as [[m u]|]; [|by eexists None, _, _]. destruct Ho as (-> & Em & _ & Hh). rewrite Z.eqb_refl. eexists (Some _), _, _. split; [reflexivity|]. done.
Qed.
End packets.

(** ** Contexts *)

Section contexts.
Context `{HM : Malloc} `{HF : FreshMemory}.

Lemma new_context_has b c : zgfx_context_new b = Some c -> zgfx_has 2500000 [] c.
Proof using.
  unfold zgfx_context_new. destruct (malloc_ok 2565592); [|done]. set (O := zrep 65536 0). set (H := zrep 2500000 0). intros [= <-].
  assert (HO : zlen O = 65536) by (apply zlen_zrep). assert (HH : zlen H = 2500000) by (apply zlen_zrep). assert (HbO : Forall is_byte O) by (apply Forall_zrep; unfold is_byte; lia).
  assert (HbH : Forall is_byte H) by (apply Forall_zrep; unfold is_byte; lia). clearbody O H. split; [split; cbn; done || lia|done|apply ring_holds_nil].
Qed.

Lemma reset_has size past c : zgfx_has size past c -> zgfx_has size [] (zgfx_context_reset c).
Proof using. intros [[[Hz Hs] Hi Ho Hb] Hsize _]. split; [|exact Hsize|apply ring_holds_nil]. constructor; [done|change (0 <= 0 < zg_HistoryBufferSize c); lia|done|done]. Qed.

Lemma input_readable data : Forall is_byte data -> zlen data < 2 ^ 27 ->
  let s := Stream_StaticConstInit data (zlen data) in readable s /\ slength s < 2 ^ 27 /\ unread s = data.
Proof using.
  intros Hb Hz s. pose proof (zlen_nonneg data). split_and!; [split; [split|]; cbn; done || lia|done|]. unfold unread. cbn. by rewrite zdrop_0, ztake_all by lia.
Qed.

(** C27: whatever the packet of less than 2^27 bytes is, the decompressor returns: 1 with the bytes it gathered and 64 spare ones,
    or -1; and its context is sound again.  No token makes it read or write outside of its buffers, and
    its loop ends even when the bits of the segment do not end with a token. *)
Theorem zgfx_decompress_safe c data :
  zgfx_ok c -> Forall is_byte data -> zlen data < 2 ^ 27 ->
  exists r c', zgfx_decompress data (zlen data) c = Ret (r, c') /\ zgfx_ok c' /\
    match r with
    | (code, Some (mem, n)) => code = 1 /\ 0 <= n /\ (mem = [] /\ n = 0 \/ zlen mem = n + 64)
    | (code, None) => code = -1
    end.
Proof using.
  intros Hok Hb Hz. destruct (input_readable data Hb Hz) as (Hr & H27 & _). destruct (packet_safe c _ Hok Hr H27) as (o & c' & k & E & _ & Hok' & Ho). unfold zgfx_decompress. rewrite E.
  eexists _, c'. split; [reflexivity|]. split; [done|]. destruct o as [[mem n]|]; [|done]. destruct Ho as [? ?]. done.
Qed.

(** C16: a packet of the format, of less than 2^27 bytes, is decoded to the bytes it stands for, whatever literals, copies of earlier
    bytes (also of earlier packets, and copies longer than their distance) and plain runs its segments
    have; the ring has them behind the past; only a refused allocation prevents it. *)
Theorem zgfx_packet_decodes size past c data out :
  zgfx_has size past c -> Forall is_byte data -> zlen data < 2 ^ 27 -> packet_of size past data out ->
  exists r c', zgfx_decompress data (zlen data) c = Ret (r, c') /\
    match r with
    | (code, Some (mem, n)) => code = 1 /\ n = zlen out /\ ztake n mem = out /\ zgfx_has size (past ++ out) c'
    | (code, None) => code = -1 /\ refused (zlen out + 64)
    end.
Proof using.
  intros Hc Hb Hz Hp. destruct (input_readable data Hb Hz) as (Hr & H27 & Hu). destruct (packet_decoded size past c _ data out Hc Hr H27 Hu Hp) as (o & c' & s' & E & Ho). unfold zgfx_decompress. rewrite E.
  eexists _, c'. split; [reflexivity|]. by destruct o as [[mem n]|].
Qed.
End contexts.

(** ** Samples *)

Definition sample_zgfx : ZGFX_CONTEXT := mkZgfx false [] 0 0 0 0 0 0 (zrep 65536 0) 0 (zrep 65536 0) 0 65536.

Lemma sample_zgfx_has : zgfx_has 65536 [] sample_zgfx.
Proof.
  unfold sample_zgfx. set (O := zrep 65536 0). assert (HO : zlen O = 65536) by (apply zlen_zrep). assert (HbO : Forall is_byte O) by (apply Forall_zrep; unfold is_byte; lia).
  clearbody O. split; [split; cbn; done || lia|done|apply ring_holds_nil].
Qed.

(** The literal A and a copy of three bytes at the distance 1; four bits are not used. *)
Definition sample_segment : list Z := [0x24; 0x20; 0xC4; 0x20; 4].

Lemma sample_segment_of : segment_of 65536 [] sample_segment [65; 65; 65; 65].
Proof.
  assert (H1 : token_at [0x20; 0xC4; 0x20] 65536 0 [] 9 [65]).
  { apply (literal_at [0x20; 0xC4; 0x20] 65536 0 [] (mkToken 1 0 8 0 0) 1); [by left|done|done|vm_compute; reflexivity|done]. }
  assert (H2 : token_at [0x20; 0xC4; 0x20] 65536 9 [65] 20 [65; 65; 65]).
  { apply (copy_at [0x20; 0xC4; 0x20] 65536 9 [65] (mkToken 5 17 5 1 0) 14 1 3 20); [by right; left|done|done|vm_compute; reflexivity|done|vm_compute; reflexivity|by vm_compute|lia|left; vm_compute; auto]. }
  apply (segment_of_bits 65536 [] 0x24 [0x20; 0xC4; 0x20] 4 [65; 65; 65; 65]); [done|done| |done]. change (8 * zlen [0x20; 0xC4; 0x20] - 4) with 20.
  apply (tokens_next _ _ 0 [] 9 [65] 20 [65; 65; 65] H1), (tokens_next _ _ 9 [65] 20 [65; 65; 65] 20 [] H2), tokens_end.
Qed.

Lemma zgfx_decompress_safe_witness :
  exists r c', zgfx_decompress (H := malloc_all) (H0 := fresh_zero) [0xE0; 0x24; 0xFF; 0xFF; 0] 5 sample_zgfx = Ret (r, c') /\ zgfx_ok c' /\
    match r with
    | (code, Some (mem, n)) => code = 1 /\ 0 <= n /\ (mem = [] /\ n = 0 \/ zlen mem = n + 64)
    | (code, None) => code = -1
    end.
Proof. apply (@zgfx_decompress_safe malloc_all fresh_zero sample_zgfx [0xE0; 0x24; 0xFF; 0xFF; 0]); [apply sample_zgfx_has|by repeat constructor|done]. Defined.

Lemma zgfx_packet_decodes_witness :
  exists r c', zgfx_decompress (H := malloc_all) (H0 := fresh_zero) (0xE0 :: sample_segment) 6 sample_zgfx = Ret (r, c') /\
    match r with
    | (code, Some (mem, n)) => code = 1 /\ n = 4 /\ ztake n mem = [65; 65; 65; 65] /\ zgfx_has 65536 ([] ++ [65; 65; 65; 65]) c'
    | (code, None) => code = -1 /\ @refused malloc_all 68
    end.
Proof.
  apply (@zgfx_packet_decodes malloc_all fresh_zero 65536 [] sample_zgfx (0xE0 :: sample_segment) [65; 65; 65; 65]);
    [apply sample_zgfx_has|by repeat constructor|done|apply packet_single, sample_segment_of].
Defined.
