(* ===== verification/ZgfxSession.v ===== *)
(** * The ZGFX compressor

    It copies the source into plain segments of at most 65535 bytes and fills the sizes of the segments
    and their number in afterwards.  What it writes is a packet of the format, so the decompressor gives
    the source back. *)

From S2P Require Import Prelude Memory Stream Readers BitStream Mppc Zgfx ZgfxRing ZgfxSegment ZgfxPacket.

(** ** Bytes filled in afterwards *)

Lemma wrote_skip s k : growable s -> 0 <= k <= room s -> exists J, zlen J = k /\ wrote s (advance s k) J.
Proof.
  intros (Hs & Hc & Ho) Hk. pose proof Hs as [Hb Hcap Hl Hp HB]. unfold room in Hk. exists (ztake k (zdrop (pointer s) (buffer s))).
  assert (HJ : zlen (ztake k (zdrop (pointer s) (buffer s))) = k) by (rewrite zlen_ztake, zlen_zdrop; lia). split; [done|]. split_and!.
  - split_and!; [split; cbn; done || lia|done|done].
  - rewrite HJ. done.
  - change (ztake (pointer s + k) (buffer s) = ztake (pointer s) (buffer s) ++ ztake k (zdrop (pointer s) (buffer s))). rewrite <- (ztake_zdrop_app (pointer s) (ztake (pointer s + k) (buffer s))), ztake_ztake.
    rewrite Z.min_l by lia. f_equal. rewrite ztake_zdrop_comm by lia. do 2 f_equal. lia.
Qed.

Lemma wrote_patch s s' a J b hdr : 0 <= pointer s -> wrote s s' (a ++ J ++ b) -> zlen J = zlen hdr -> Forall is_byte hdr ->
  let s1 := set_pointer (pointer s + zlen a) s' in
  stream_ok s1 /\ zlen hdr <= room s1 /\ wrote s (set_pointer (pointer s') (put_bytes s1 hdr)) (a ++ hdr ++ b).
Proof.
  intros Hp0 ((Hs & Hc & Ho) & Hp & Hw) HJ Hb s1. rewrite !zlen_app in Hp. pose proof (zlen_nonneg a). pose proof (zlen_nonneg b). pose proof (zlen_nonneg hdr). pose proof Hs as [Hbuf Hcap Hl Hpos HB].
  assert (Hs1 : stream_ok s1) by (apply set_pointer_ok; [done|lia]). assert (Hroom : zlen hdr <= room s1) by (unfold room; cbn; lia). split_and!; [done|done|].
  pose proof (put_bytes_ok s1 hdr Hs1 Hroom Hb) as Hs2. split_and!.
  - split_and!; [apply set_pointer_ok; [exact Hs2|cbn; lia]|done|done].
  - cbn. rewrite !zlen_app. lia.
  - change (ztake (pointer s') (splice (pointer s + zlen a) hdr (buffer s')) = ztake (pointer s) (buffer s) ++ a ++ hdr ++ b).
    assert (Hz0 : zlen (ztake (pointer s) (buffer s)) = pointer s).
    { pose proof (f_equal zlen Hw) as E. rewrite !zlen_app, !zlen_ztake in E. rewrite zlen_ztake. lia. }
    rewrite <- (ztake_zdrop_app (pointer s') (buffer s')) at 1. rewrite Hw. set (t := zdrop (pointer s') (buffer s')). set (pre := ztake (pointer s) (buffer s)) in *.
    replace ((pre ++ a ++ J ++ b) ++ t) with ((pre ++ a) ++ J ++ (b ++ t)) by (by rewrite <- !app_assoc). rewrite (splice_app (pre ++ a) hdr J (b ++ t)) by (rewrite ?zlen_app; lia).
    replace ((pre ++ a) ++ hdr ++ b ++ t) with ((pre ++ a ++ hdr ++ b) ++ t) by (by rewrite <- !app_assoc). rewrite ztake_app, ztake_all, (ztake_0 _ t), app_nil_r by (rewrite !zlen_app; lia). done.
Qed.

(** ** Fragments *)

Section fragments.
Context `{HM : Malloc}.

(** A plain segment. *)
Definition plain (flags : Z) (piece : list Z) : list Z := u8 (Z.lor flags ZGFX_PACKET_COMPR_TYPE_RDP8) :: piece.

Lemma plain_segment size past flags piece : Z.land flags PACKET_COMPRESSED = 0 -> 0 < zlen piece <= 65536 -> segment_of size past (plain flags piece) piece.
Proof using.
  intros Hf Hp. apply segment_of_plain; [|done]. unfold u8. change 256 with (2 ^ 8). rewrite <- Z.land_ones by lia. apply Z.bits_inj'. intros i Hi. rewrite !Z.land_spec, Z.lor_spec, Z.bits_0. apply (f_equal (fun x => Z.testbit x i)) in Hf. rewrite Z.land_spec, Z.bits_0 in Hf.
  change PACKET_COMPRESSED with (2 ^ 5) in *. change ZGFX_PACKET_COMPR_TYPE_RDP8 with (2 ^ 2). rewrite !Z.pow2_bits_eqb in * by lia. destruct (5 =? i) eqn:E5; [|by rewrite andb_false_r]. rewrite andb_true_r in Hf |- *. rewrite Hf.
  by replace (2 =? i) with false by lia.
Qed.

Lemma flags_plain flags : Z.land flags PACKET_COMPRESSED = 0 -> Z.land (Z.lor flags ZGFX_PACKET_COMPR_TYPE_RDP8) PACKET_COMPRESSED = 0.
Proof using. intros Hf. by rewrite Z.land_lor_distr_l, Hf. Qed.

Lemma compress_segment_run s piece flags : growable s -> Forall is_byte piece -> zlen piece < 65536 ->
  exists (b : bool) s', zgfx_compress_segment piece flags s = Ret ((b, if b then Z.lor flags ZGFX_PACKET_COMPR_TYPE_RDP8 else flags), s') /\
    if b then wrote s s' (plain flags piece) else s' = s /\ refused (2 * (pointer s + 2 * (zlen piece + 1))).
Proof using.
  intros Hg Hb Hz. unfold zgfx_compress_segment. pose proof (zlen_nonneg piece). rewrite u32_id by lia. destruct (ensure_grow s (zlen piece + 1) Hg ltac:(lia)) as (b & s1 & E & Hs1). rewrite (pbind_ret _ _ _ _ _ E).
  destruct b; cbn [negb]; [|exists false, s1; split; [done|exact Hs1]]. destruct Hs1 as [Hw1 Hroom]. pose proof Hw1 as [[Hok1 _] _]. cbv zeta. set (fl := u8 _).
  assert (Hfl : is_byte fl) by (unfold fl, u8, is_byte; Z.div_mod_to_equations; lia).
  rewrite (pbind_ret _ _ _ _ _ (write_u8_spec s1 fl Hok1 ltac:(lia) Hfl)). assert (Hok2 : stream_ok (put_bytes s1 [fl])) by (apply put_bytes_ok; [done|rewrite zlen_cons, zlen_nil; lia|apply Forall_cons_2; [done|apply Forall_nil_2]]).
  rewrite (pbind_ret _ _ _ _ _ (write_bytes_spec (put_bytes s1 [fl]) piece Hok2 ltac:(rewrite room_put_bytes, zlen_cons, zlen_nil; lia))). eexists true, _. split; [reflexivity|].
  rewrite put_bytes_app by (done || (rewrite zlen_cons, zlen_nil; lia)). eapply (wrote_trans s s1 _ [] (plain flags piece)); [done|]. apply (wrote_put_bytes s1 ([fl] ++ piece)); [apply Hw1|rewrite zlen_app, zlen_cons, zlen_nil; lia|by constructor].
Qed.

(** A segment behind its size. *)
Lemma framed_step {A} s piece flags (k : Z -> Prog wStream (option A)) : growable s -> 4 <= room s -> 0 < pointer s -> Forall is_byte piece -> zlen piece < 65536 ->
  let prog :=
    posDstSize <- (p <- Stream_GetPosition ;; Stream_Seek 4 ;; pret p) ;;
    posDataStart <- Stream_GetPosition ;;
    r <- zgfx_compress_segment piece flags ;;
    if negb r.1 then pret None
    else
      (if negb (posDstSize =? 0) then
         p <- Stream_GetPosition ;;
         let DstSize := u32 (p - posDataStart) in
         Stream_SetPosition posDstSize ;; Stream_Write_UINT32 DstSize ;; Stream_SetPosition (posDataStart + DstSize) ;; pret tt
       else pret tt) ;;
      k r.2 in
  (exists s', prog s = k (Z.lor flags ZGFX_PACKET_COMPR_TYPE_RDP8) s' /\ wrote s s' (framed [plain flags piece])) \/
  (exists s', prog s = Ret (None, s') /\ growable s' /\ refused (2 * (pointer s + 4 + 2 * (zlen piece + 1)))).
Proof using.
  intros Hg Hroom Hp0 Hb Hz prog. unfold prog. pose proof Hg as (Hs & Hc & Ho). pose proof (zlen_nonneg piece). rewrite (pbind_ret _ _ _ (pointer s) (advance s 4)).
  2: { rewrite (pbind_ret _ _ _ _ _ (position_spec s Hs)). by rewrite (pbind_ret _ _ _ _ _ (seek_run s 4 Hs ltac:(lia))). }
  destruct (wrote_skip s 4 Hg ltac:(lia)) as (J & HJ & Hw1). set (s1 := advance s 4) in *. pose proof Hw1 as (Hg1 & _). pose proof Hg1 as (Hs1 & _). rewrite (pbind_ret _ _ _ _ _ (position_spec s1 Hs1)).
  destruct (compress_segment_run s1 piece flags Hg1 Hb Hz) as (b & s2 & E2 & Hw2). rewrite (pbind_ret _ _ _ _ _ E2). cbn [fst snd]. assert (Hp1 : pointer s1 = pointer s + 4) by done.
  destruct b; cbn [negb]; [|right; exists s2; split; [done|]; rewrite Hp1 in Hw2; destruct Hw2 as [-> Hw2]; done]. left. replace (pointer s =? 0) with false by lia. cbn [negb]. pose proof Hw2 as (Hg2 & Hp2 & _). pose proof Hg2 as (Hs2 & _).
  unfold plain in Hp2. rewrite zlen_cons in Hp2. set (seg := plain flags piece) in *. assert (Hzs : zlen seg = 1 + zlen piece) by (unfold seg, plain; rewrite zlen_cons; lia).
  pose proof (wrote_trans s s1 s2 J seg Hw1 Hw2) as Hw. destruct (wrote_patch s s2 [] J seg (le32 (zlen seg)) ltac:(lia) Hw HJ (le32_bytes _)) as (Hok3 & Hr3 & Hw3). change (zlen []) with 0 in *. rewrite Z.add_0_r in *.
  eexists. split; [|unfold framed; cbn [map concat]; rewrite app_nil_r; exact Hw3]. rewrite zlen_le32 in Hr3.
  rewrite (pbind_ret _ _ _ tt (set_pointer (pointer s2) (put_bytes (set_pointer (pointer s) s2) (le32 (zlen seg))))); [done|]. rewrite (pbind_ret _ _ _ _ _ (position_spec s2 Hs2)). cbv zeta.
  replace (pointer s2 - pointer s1) with (zlen seg) by lia. rewrite u32_id by lia. destruct Hs2 as [Hbuf2 Hcap2 _ Hpos2 _]. rewrite (pbind_ret _ _ _ _ _ (set_position_run s2 (pointer s) (proj1 Hg2) ltac:(lia))).
  rewrite (pbind_ret _ _ _ _ _ (write_u32_le_spec _ (zlen seg) Hok3 Hr3)). set (s3 := put_bytes (set_pointer (pointer s) s2) (le32 (zlen seg))) in *. assert (Hs3 : stream_ok s3) by (apply put_bytes_ok; [done|rewrite zlen_le32; lia|apply le32_bytes]).
  replace (pointer s1 + zlen seg) with (pointer s2) by lia. by rewrite (pbind_ret _ _ _ _ _ (set_position_run s3 (pointer s2) Hs3 ltac:(change (capacity s3) with (capacity s2); lia))).
Qed.

Lemma framed_cons seg segs : framed (seg :: segs) = framed [seg] ++ framed segs.
Proof using. unfold framed. cbn [map concat]. by rewrite app_nil_r. Qed.

Lemma zlen_framed_plain flags piece : zlen (framed [plain flags piece]) = zlen piece + 5.
Proof using. unfold framed, plain. cbn [map concat]. rewrite app_nil_r, zlen_app, zlen_le32, zlen_cons. lia. Qed.

(** The segments of a source. *)
Record split_into (src : list Z) (segs : list (list Z)) : Prop := {
  sp_segments : forall size past, segments_of size past segs src;
  sp_bytes : zlen (framed segs) = zlen src + 5 * zlen segs;
  sp_count : 65535 * (zlen segs - 1) < zlen src \/ zlen segs = 0
}.

Lemma split_nil : split_into [] [].
Proof using. split; [intros; constructor|done|by right]. Qed.

Lemma split_next flags n src segs : Z.land flags PACKET_COMPRESSED = 0 -> n = (if ZGFX_SEGMENTED_MAXSIZE <? zlen src then ZGFX_SEGMENTED_MAXSIZE else zlen src) -> 0 < zlen src ->
  split_into (zdrop n src) segs -> split_into src (plain flags (ztake n src) :: segs).
Proof using.
  unfold ZGFX_SEGMENTED_MAXSIZE. intros Hf Hn Hz [Hs Hb Hc]. assert (Hnr : 0 < n <= 65535 /\ n <= zlen src /\ (n < 65535 -> n = zlen src)) by (rewrite Hn; destruct (65535 <? zlen src) eqn:E; lia).
  assert (Ht : zlen (ztake n src) = n) by (rewrite zlen_ztake; lia). assert (Hd : zlen (zdrop n src) = zlen src - n) by (rewrite zlen_zdrop; lia). split.
  - intros size past. rewrite <- (ztake_zdrop_app n src) at 2. constructor; [apply plain_segment; [done|lia]|apply Hs].
  - rewrite framed_cons, zlen_app, zlen_framed_plain, Hb, zlen_cons. lia.
  - rewrite zlen_cons. pose proof (zlen_nonneg segs). lia.
Qed.

Lemma fragments_run fuel : forall src s total fragment pos flags N, growable s -> 0 < pointer s -> Forall is_byte src -> Z.land flags PACKET_COMPRESSED = 0 -> 0 < fragment ->
  zlen src < Z.of_nat fuel -> 2 * (pointer s + 8 * zlen src + 26) <= N -> zlen src < 2 ^ 60 ->
  exists r s', compress_fragments fuel src total fragment pos flags s = Ret (r, s') /\
    match r with
    | None => growable s' /\ refused N
    | Some (n, p, fl) => p = pos /\ fl = Z.lor flags (if 0 <? zlen src then ZGFX_PACKET_COMPR_TYPE_RDP8 else 0) /\ exists segs, n = fragment + zlen segs /\ wrote s s' (framed segs) /\ split_into src segs
    end.
Proof using.
  induction fuel as [|fuel IH]; intros src s total fragment pos flags N Hg Hp Hb Hf Hfr Hfuel HN H60; [pose proof (zlen_nonneg src); lia|]. cbn [compress_fragments]. pose proof (zlen_nonneg src). replace (fragment =? 0) with false by lia. rewrite orb_false_r.
  destruct (0 <? zlen src) eqn:E0.
  2: { assert (src = []) as -> by (apply zlen_0_nil; lia). eexists _, s. split; [reflexivity|]. split; [done|]. split; [by rewrite Z.lor_0_r|]. exists []. split; [change (zlen (@nil (list Z))) with 0; lia|]. split; [by apply wrote_refl|apply split_nil]. }
  cbv zeta. set (n := if ZGFX_SEGMENTED_MAXSIZE <? zlen src then _ else _). assert (Hn : 0 < n <= 65535 /\ n <= zlen src) by (unfold n, ZGFX_SEGMENTED_MAXSIZE; destruct (65535 <? zlen src) eqn:E; lia).
  destruct (ensure_grow s 12 Hg ltac:(lia)) as (b & s1 & E1 & H1). rewrite (pbind_ret _ _ _ _ _ E1). destruct b; cbn [negb].
  2: { eexists _, _. split; [reflexivity|]. destruct H1 as [-> H1]. split; [done|]. eapply refused_le; [exact H1|lia]. }
  destruct H1 as [Hw1 Hroom]. rewrite (pbind_ret _ _ _ pos s1) by done. replace (0 <? fragment) with true by lia. cbn [orb]. pose proof Hw1 as (Hg1 & Hp1 & _). change (zlen []) with 0 in Hp1. rewrite Z.add_0_r in Hp1.
  assert (Ht : zlen (ztake n src) = n) by (rewrite zlen_ztake; lia). assert (Hd : zlen (zdrop n src) = zlen src - n) by (rewrite zlen_zdrop; lia).
  destruct (framed_step s1 (ztake n src) flags (fun fl => compress_fragments fuel (zdrop n src) total (fragment + 1) pos fl) Hg1 ltac:(lia) ltac:(lia) ltac:(by apply Forall_ztake) ltac:(lia)) as [(s2 & E2 & Hw2)|(s2 & E2 & Hg2 & Hr2)].
  - cbv zeta in E2. rewrite E2. pose proof Hw2 as (Hg2 & Hp2 & _). rewrite zlen_framed_plain in Hp2.
    destruct (IH (zdrop n src) s2 total (fragment + 1) pos (Z.lor flags ZGFX_PACKET_COMPR_TYPE_RDP8) N Hg2 ltac:(lia) ltac:(by apply Forall_zdrop) ltac:(by apply flags_plain) ltac:(lia) ltac:(lia) ltac:(lia) ltac:(lia)) as (r & s3 & E3 & H3).
    exists r, s3. split; [exact E3|]. destruct r as [[[m p] fl]|]; [|done]. destruct H3 as (-> & -> & segs & -> & Hw3 & Hsp). split; [done|]. split; [rewrite <- Z.lor_assoc; f_equal; destruct (0 <? zlen (zdrop n src)); reflexivity|].
    exists (plain flags (ztake n src) :: segs). rewrite zlen_cons, framed_cons. split; [lia|]. split; [|eapply split_next; [done|reflexivity|lia|done]].
    exact (wrote_trans s s1 s3 [] _ Hw1 (wrote_trans s1 s2 s3 _ _ Hw2 Hw3)).
  - cbv zeta in E2. rewrite E2. eexists None, s2. split; [done|]. split; [done|]. eapply refused_le; [exact Hr2|lia].
Qed.

(** The first fragment is the only one. *)
Lemma single_run fuel s src flags N : growable s -> Forall is_byte src -> 0 < zlen src <= 65535 -> 2 * (pointer s + 8 * zlen src + 40) <= N ->
  exists r s', compress_fragments (S (S fuel)) src (zlen src) 0 0 flags s = Ret (r, s') /\
    match r with
    | None => growable s' /\ refused N
    | Some (n, p, fl) => p = 0 /\ fl = Z.lor flags ZGFX_PACKET_COMPR_TYPE_RDP8 /\ wrote s s' (ZGFX_SEGMENTED_SINGLE :: plain flags src)
    end.
Proof using.
  intros Hg Hb Hz HN. remember (S fuel) as fuel1 eqn:Ef. cbn [compress_fragments]. rewrite orb_true_r. replace (ZGFX_SEGMENTED_MAXSIZE <? zlen src) with false by (unfold ZGFX_SEGMENTED_MAXSIZE; lia). cbv zeta.
  destruct (ensure_grow s 12 Hg ltac:(lia)) as (b & s1 & E1 & H1). rewrite (pbind_ret _ _ _ _ _ E1). destruct b; cbn [negb].
  2: { eexists _, _. split; [reflexivity|]. destruct H1 as [-> H1]. split; [done|]. eapply refused_le; [exact H1|lia]. }
  destruct H1 as [Hw1 Hroom]. pose proof Hw1 as (Hg1 & Hp1 & _). change (zlen []) with 0 in Hp1. rewrite Z.sub_diag. change (0 =? 0) with true. change (0 <? 0) with false. cbn [orb].
  pose proof (wrote_put_bytes s1 [ZGFX_SEGMENTED_SINGLE] Hg1 ltac:(change (zlen [ZGFX_SEGMENTED_SINGLE]) with 1; lia) ltac:(by repeat constructor)) as Hw2. set (s2 := put_bytes s1 [ZGFX_SEGMENTED_SINGLE]) in *.
  rewrite (pbind_ret _ _ _ 0 s2) by (by rewrite (pbind_ret _ _ _ _ _ (write_u8_spec s1 ZGFX_SEGMENTED_SINGLE (proj1 Hg1) ltac:(lia) ltac:(done)))). rewrite (pbind_ret _ _ _ 0 s2) by done. pose proof Hw2 as (Hg2 & Hp2 & _). change (zlen [ZGFX_SEGMENTED_SINGLE]) with 1 in Hp2.
  rewrite (pbind_ret _ _ _ _ _ (position_spec s2 (proj1 Hg2))). rewrite (ztake_all _ src), (zdrop_all _ src) by lia. destruct (compress_segment_run s2 src flags Hg2 Hb ltac:(lia)) as (b & s3 & E3 & H3). rewrite (pbind_ret _ _ _ _ _ E3). cbn [fst snd].
  destruct b; cbn [negb]; [|eexists None, s3; split; [done|]; destruct H3 as [-> H3]; split; [done|]; eapply refused_le; [exact H3|lia]]. rewrite (pbind_ret _ _ _ tt s3) by done. subst fuel1. eexists _, s3. split; [reflexivity|]. split; [done|]. split; [done|].
  exact (wrote_trans s s1 s3 [] _ Hw1 (wrote_trans s1 s2 s3 [ZGFX_SEGMENTED_SINGLE] _ Hw2 H3)).
Qed.

(** The first of several: the number of the segments is filled in later. *)
Lemma multipart_run fuel s src flags N : growable s -> 0 <= pointer s -> Forall is_byte src -> Z.land flags PACKET_COMPRESSED = 0 -> 65535 < zlen src < 2 ^ 60 -> zlen src <= Z.of_nat fuel -> 2 * (pointer s + 8 * zlen src + 40) <= N ->
  exists r s', compress_fragments (S fuel) src (zlen src) 0 0 flags s = Ret (r, s') /\
    match r with
    | None => growable s' /\ refused N
    | Some (n, p, fl) =>
        p = pointer s + 1 /\ fl = Z.lor flags ZGFX_PACKET_COMPR_TYPE_RDP8 /\
        exists J segs, n = zlen segs /\ zlen J = 2 /\ wrote s s' ([ZGFX_SEGMENTED_MULTIPART] ++ J ++ le32 (zlen src) ++ framed segs) /\ split_into src segs
    end.
Proof using.
  intros Hg Hp0 Hb Hf Hz Hfuel HN. cbn [compress_fragments]. rewrite orb_true_r. replace (ZGFX_SEGMENTED_MAXSIZE <? zlen src) with true by (unfold ZGFX_SEGMENTED_MAXSIZE; lia). cbv zeta. set (n := ZGFX_SEGMENTED_MAXSIZE).
  assert (Hn : n = 65535) by done. destruct (ensure_grow s 12 Hg ltac:(lia)) as (b & s1 & E1 & H1). rewrite (pbind_ret _ _ _ _ _ E1). destruct b; cbn [negb].
  2: { eexists _, _. split; [reflexivity|]. destruct H1 as [-> H1]. split; [done|]. eapply refused_le; [exact H1|lia]. }
  destruct H1 as [Hw1 Hroom]. pose proof Hw1 as (Hg1 & Hp1 & _). change (zlen []) with 0 in Hp1. change (0 =? 0) with true. replace (zlen src - n =? 0) with false by lia. replace (0 <? zlen src - n) with true by lia. rewrite orb_true_r.
  pose proof (wrote_put_bytes s1 [ZGFX_SEGMENTED_MULTIPART] Hg1 ltac:(change (zlen [ZGFX_SEGMENTED_MULTIPART]) with 1; lia) ltac:(by repeat constructor)) as Hw2. pose proof (room_put_bytes s1 [ZGFX_SEGMENTED_MULTIPART]) as Hr2.
  change (zlen [ZGFX_SEGMENTED_MULTIPART]) with 1 in Hr2. set (s2 := put_bytes s1 [ZGFX_SEGMENTED_MULTIPART]) in *. pose proof Hw2 as (Hg2 & Hp2 & _). change (zlen [ZGFX_SEGMENTED_MULTIPART]) with 1 in Hp2.
  destruct (wrote_skip s2 2 Hg2 ltac:(lia)) as (J & HJ & Hw3). assert (Hr3 : room (advance s2 2) = room s2 - 2) by (unfold room; cbn; lia). set (s3 := advance s2 2) in *. pose proof Hw3 as (Hg3 & Hp3 & _).
  pose proof (wrote_put_bytes s3 (le32 (zlen src)) Hg3 ltac:(rewrite zlen_le32; lia) (le32_bytes _)) as Hw4. pose proof (room_put_bytes s3 (le32 (zlen src))) as Hr4. rewrite zlen_le32 in Hr4. set (s4 := put_bytes s3 (le32 (zlen src))) in *.
  pose proof Hw4 as (Hg4 & Hp4 & _). rewrite zlen_le32 in Hp4. rewrite (pbind_ret _ _ _ (pointer s2) s4).
  2: { rewrite (pbind_ret _ _ _ _ _ (write_u8_spec s1 ZGFX_SEGMENTED_MULTIPART (proj1 Hg1) ltac:(lia) ltac:(done))). fold s2. rewrite (pbind_ret _ _ _ _ _ (position_spec s2 (proj1 Hg2))), (pbind_ret _ _ _ _ _ (seek_run s2 2 (proj1 Hg2) ltac:(lia))).
       by rewrite (pbind_ret _ _ _ _ _ (write_u32_le_spec s3 (zlen src) (proj1 Hg3) ltac:(lia))). }
  assert (Ht : zlen (ztake n src) = n) by (rewrite zlen_ztake; lia). assert (Hd : zlen (zdrop n src) = zlen src - n) by (rewrite zlen_zdrop; lia).
  destruct (framed_step s4 (ztake n src) flags (fun fl => compress_fragments fuel (zdrop n src) (zlen src) (0 + 1) (pointer s2) fl) Hg4 ltac:(lia) ltac:(lia) ltac:(by apply Forall_ztake) ltac:(lia)) as [(s5 & E5 & Hw5)|(s5 & E5 & Hg5 & Hr5)]; cbv zeta in E5; rewrite E5.
  2: { eexists None, s5. split; [done|]. split; [done|]. eapply refused_le; [exact Hr5|lia]. }
  pose proof Hw5 as (Hg5 & Hp5 & _). rewrite zlen_framed_plain in Hp5.
  destruct (fragments_run fuel (zdrop n src) s5 (zlen src) (0 + 1) (pointer s2) (Z.lor flags ZGFX_PACKET_COMPR_TYPE_RDP8) N Hg5 ltac:(lia) (Forall_zdrop _ _ _ Hb) (flags_plain flags Hf) ltac:(lia) ltac:(lia) ltac:(lia) ltac:(lia)) as (r & s6 & E6 & H6).
  exists r, s6. split; [exact E6|]. destruct r as [[[m p] fl]|]; [|done]. destruct H6 as (-> & -> & segs & -> & Hw6 & Hsp). split; [lia|]. split; [rewrite <- Z.lor_assoc; f_equal; by replace (0 <? zlen (zdrop n src)) with true by lia|].
  exists J, (plain flags (ztake n src) :: segs). rewrite zlen_cons, framed_cons. split; [lia|]. split; [done|]. split.
  - exact (wrote_trans s s1 s6 [] _ Hw1 (wrote_trans s1 s2 s6 _ _ Hw2 (wrote_trans s2 s3 s6 _ _ Hw3 (wrote_trans s3 s4 s6 _ _ Hw4 (wrote_trans s4 s5 s6 _ _ Hw5 Hw6))))).
  - eapply split_next; [done| |lia|exact Hsp]. replace (ZGFX_SEGMENTED_MAXSIZE <? zlen src) with true by (unfold ZGFX_SEGMENTED_MAXSIZE; lia). done.
Qed.
End fragments.

(** ** Packets *)

Section compressor.
Context `{HM : Malloc}.

(** What is written behind the cursor is a packet that stands for the source. *)
Lemma compress_to_stream_run s src flags : growable s -> Forall is_byte src -> 0 < zlen src < 2 ^ 26 -> Z.land flags PACKET_COMPRESSED = 0 ->
  exists r s', zgfx_compress_to_stream src flags s = Ret (r, s') /\
    ((r = (0, Z.lor flags ZGFX_PACKET_COMPR_TYPE_RDP8) /\ exists bs, wrote s s' bs /\ zlen bs < 2 ^ 27 /\ forall size past, packet_of size past bs src) \/
     (r = (-1, flags) /\ growable s' /\ refused (2 * (pointer s + 8 * zlen src + 40)))).
Proof using.
  intros Hg Hb Hz Hf. unfold zgfx_compress_to_stream. set (N := 2 * (pointer s + 8 * zlen src + 40)). pose proof Hg as ([_ _ _ [Hp0 _] _] & _). destruct (zlen src <=? 65535) eqn:E1.
  - destruct (single_run (length src) s src flags N Hg Hb ltac:(lia) ltac:(unfold N; lia)) as (r & s1 & Er & Hr). rewrite (pbind_ret _ _ _ _ _ Er). destruct r as [[[n p] fl]|]; [|exists (-1, flags), s1; split; [done|by right]].
    destruct Hr as (-> & -> & Hw). pose proof Hw as ((Hs1 & Hc1 & Ho1) & Hp1 & Ht1). rewrite (pbind_ret _ _ _ _ _ (seal_run s1 Hs1)). eexists _, _. split; [reflexivity|]. left. split; [done|].
    exists (ZGFX_SEGMENTED_SINGLE :: plain flags src). split; [|split].
    + split; [|split; [exact Hp1|exact Ht1]]. split; [|split; [exact Hc1|exact Ho1]]. destruct Hs1. by constructor.
    + unfold plain. rewrite !zlen_cons. lia.
    + intros size past. apply packet_single, plain_segment; [done|lia].
  - destruct (multipart_run (S (length src)) s src flags N Hg Hp0 Hb Hf ltac:(lia) ltac:(unfold zlen; lia) ltac:(unfold N; lia)) as (r & s1 & Er & Hr). rewrite (pbind_ret _ _ _ _ _ Er). destruct r as [[[n p] fl]|]; [|exists (-1, flags), s1; split; [done|by right]].
    destruct Hr as (-> & -> & J & segs & -> & HJ & Hw & [Hsegs Hbytes Hcount]). pose proof Hw as (Hg1 & Hp1 & _). pose proof Hg1 as (Hs1 & Hc1 & Ho1). set (s2 := set_length (pointer s1) s1). rewrite (pbind_ret _ _ _ _ _ (seal_run s1 Hs1)).
    assert (Hw2 : wrote s s2 ([ZGFX_SEGMENTED_MULTIPART] ++ J ++ le32 (zlen src) ++ framed segs)) by (destruct Hw as (_ & Hpw & Htw); split; [|split; [exact Hpw|exact Htw]]; split; [destruct Hs1; by constructor|done]).
    destruct (wrote_patch s s2 [ZGFX_SEGMENTED_MULTIPART] J _ (le16 (zlen segs)) Hp0 Hw2 ltac:(rewrite zlen_le16; done) (le16_bytes _)) as (Hs3 & Hr3 & Hw3). change (zlen [ZGFX_SEGMENTED_MULTIPART]) with 1 in *. rewrite zlen_le16 in Hr3. pose proof (zlen_nonneg segs).
    set (s3 := set_pointer (pointer s + 1) s2) in *. pose proof (put_bytes_ok s3 (le16 (zlen segs)) Hs3 ltac:(rewrite zlen_le16; lia) (le16_bytes _)) as Hs4. set (s4 := put_bytes s3 (le16 (zlen segs))) in *.
    eexists _, (set_pointer (pointer s2) s4). split.
    { replace (pointer s + 1 =? 0) with false by lia. cbn [negb]. rewrite (pbind_ret _ _ _ tt (set_pointer (pointer s2) s4)); [reflexivity|]. destruct Hw2 as ((Hs2 & _) & _). rewrite !zlen_app in Hp1. change (zlen [ZGFX_SEGMENTED_MULTIPART]) with 1 in Hp1. rewrite zlen_le32, HJ, Hbytes in Hp1.
      pose proof (ok_pos _ Hs1) as Hpos. rewrite (pbind_ret _ _ _ _ _ (set_position_run s2 (pointer s + 1) Hs2 ltac:(change (capacity s2) with (capacity s1); lia))). rewrite u16_id by lia.
      rewrite (pbind_ret _ _ _ _ _ (write_u16_le_spec s3 (zlen segs) Hs3 Hr3)), pbind_pget. fold s4. by rewrite (pbind_ret _ _ _ _ _ (set_position_run s4 (pointer s1) Hs4 ltac:(change (capacity s4) with (capacity s1); lia))). }
    left. split; [done|]. eexists. split; [exact Hw3|]. split; [rewrite !zlen_app, zlen_le16, zlen_le32, Hbytes; change (zlen [ZGFX_SEGMENTED_MULTIPART]) with 1; lia|].
    intros size past. rewrite <- (app_nil_r (framed segs)). apply (packet_multipart size past segs src []); [lia|apply Hsegs].
Qed.
End compressor.

Section session.
Context `{HM : Malloc} `{HF : FreshMemory} `{HB : !ByteMemory}.

(** C28: what the compressor makes of a source of at least one byte and less than 2^26, in one segment or
    in many, the decompressor turns back into the source, whatever was decoded before, when the flags that
    are passed do not have the bit of a compressed packet.  For such a source only a refused allocation
    prevents it (of the new stream, which aborts; of its growth, -1; of the result).  The empty source is not
    decoded: see [zgfx_compress_empty] and [zgfx_empty_packet_refused]. *)
Theorem zgfx_roundtrip size past c src flags :
  zgfx_has size past c -> Forall is_byte src -> 0 < zlen src < 2 ^ 26 -> Z.land flags PACKET_COMPRESSED = 0 ->
  match zgfx_compress src flags with
  | Ret (status, mem, n, flags') =>
      (status = -1 /\ refused (2 * (8 * zlen src + 40))) \/
      (status = 0 /\ flags' = Z.lor flags ZGFX_PACKET_COMPR_TYPE_RDP8 /\
       exists r c', zgfx_decompress (ztake n mem) n c = Ret (r, c') /\
         match r with
         | (code, Some (out, k)) => code = 1 /\ k = zlen src /\ ztake k out = src /\ zgfx_has size (past ++ src) c'
         | (code, None) => code = -1 /\ refused (zlen src + 64)
         end)
  | Abort => refused (Z.max 56 (zlen src))
  | Hang => False
  end.
Proof using HB.
  intros Hc Hb Hz Hf. unfold zgfx_compress. destruct (Stream_New None _ _) as [s|] eqn:En; [|apply stream_new_refused; [lia|exact En]].
  destruct (stream_new_spec (zlen src) s ltac:(lia) En) as (Hg & Hp & _). destruct (compress_to_stream_run s src flags Hg Hb Hz Hf) as (r & s' & E & Hr). rewrite (pbind_ret _ _ _ _ _ E). rewrite Hp in Hr.
  destruct Hr as [(-> & bs & Hw & H27 & Hpk)|(-> & Hg' & Href)].
  - destruct Hw as (Hg' & Hp' & Ht). pose proof Hg' as (Hs' & _). rewrite (pbind_ret _ _ _ _ _ (position_spec s' Hs')). unfold pret. rewrite Hp, Z.add_0_l in Hp'. rewrite Hp, (ztake_0 0), app_nil_l, Hp' in Ht by lia. rewrite Hp'.
    pose proof (zlen_nonneg bs). rewrite u32_id by lia. right. split; [done|]. split; [done|]. rewrite Ht.
    assert (Hbb : Forall is_byte bs) by (rewrite <- Ht; apply Forall_ztake, (ok_bytes _ Hs')). destruct (input_readable bs Hbb H27) as (Hr & H27' & Hu).
    destruct (packet_decoded size past c _ bs src Hc Hr H27' Hu (Hpk size past)) as (o & c' & s2 & Ed & Ho). unfold zgfx_decompress. rewrite Ed. eexists _, c'. split; [reflexivity|]. by destruct o as [[m k]|].
  - rewrite (pbind_ret _ _ _ _ _ (position_spec s' (proj1 Hg'))). left. done.
Qed.
End session.

Lemma zgfx_roundtrip_witness :
  match zgfx_compress (H := malloc_all) (H0 := fresh_zero) [1; 2; 3] 0 with
  | Ret (status, mem, n, flags') =>
      (status = -1 /\ @refused malloc_all 128) \/
      (status = 0 /\ flags' = 4 /\
       exists r c', zgfx_decompress (H := malloc_all) (H0 := fresh_zero) (ztake n mem) n sample_zgfx = Ret (r, c') /\
         match r with
         | (code, Some (out, k)) => code = 1 /\ k = 3 /\ ztake k out = [1; 2; 3] /\ zgfx_has 65536 ([] ++ [1; 2; 3]) c'
         | (code, None) => code = -1 /\ @refused malloc_all 67
         end)
  | Abort => @refused malloc_all 56
  | Hang => False
  end.
Proof.
  apply (@zgfx_roundtrip malloc_all fresh_zero fresh_zero_bytes 65536 [] sample_zgfx [1; 2; 3] 0); [apply sample_zgfx_has|by repeat constructor|done|done].
Defined.

(** ** The empty source *)

(** [Stream_New] gives no stream of the size 0, and its result is not tested. *)
Theorem zgfx_compress_empty `{Malloc} `{FreshMemory} flags : zgfx_compress [] flags = Abort.
Proof. reflexivity. Qed.

(** The packet of an empty source, which the compressor writes into a stream, is refused. *)
Theorem zgfx_empty_packet_refused `{Malloc} `{FreshMemory} c flags :
  exists c', zgfx_decompress [ZGFX_SEGMENTED_SINGLE; flags] 2 c = Ret ((-1, None), c').
Proof.
  unfold zgfx_decompress, zgfx_packet, zgfx_decompress_segment. eexists. cbv -[zgfx_append Z.land segment_plain segment_bits]. reflexivity.
Qed.

Example empty_packet_sample :
  exists s, zgfx_compress_to_stream (H := malloc_all) [] 0 (blank_stream 16) = Ret ((0, 4), s) /\ ztake (pointer s) (buffer s) = [ZGFX_SEGMENTED_SINGLE; 4].
Proof. eexists. split; [vm_compute; reflexivity|vm_compute; reflexivity]. Qed.
